(* ===== verification/_CoqProject ===== *)
-Q . S2P
Prelude.v
GoStrings.v
GoText.v
GoTime.v
Encoding.v
JsonValue.v
Sql.v
NetMac.v
Md5.v
Sha256.v
Radius.v
Eap.v
Mppe.v
MemConn.v
Dot1x.v
RadsecServer.v
PolicyStore.v
SqlPolicyStore.v
Segment.v
Gateway.v
Window.v
TrafficLog.v
Dns.v
Signing.v
Enrollment.v
Jwt.v
TokenExchange.v
AuthStore.v
Access.v
Routes.v
Grant.v
KeyVault.v
Jwks.v
Push.v
Oidc.v
Migrations.v
ScimStore.v
ScimHandler.v
Devices.v
AgentAuth.v
ClientConfig.v
ClientRuntime.v
Broker.v
IdpStore.v
Sso.v
Interleave.v
CodeExchange.v
DeviceCa.v
EnrolSecrets.v
Onboard.v
Connector.v
Directory.v
Kerberos.v
Calls.v
Features.v
Profiles.v
Rbac.v
Validation.v
Sdn.v
DnsLogs.v
Tenants.v
AuditTrail.v
GatewayApi.v
Dot1xApi.v
Scanner.v
Itsm.v
AdminApi.v
AccountApi.v
Drs.v
ThreatIntel.v
ThreatFeed.v
DnsSync.v
