(* ===== verification/Prelude.v ===== *)
(** * ApexAegis management plane: a verification library

    The management plane (Go, under [src/]) is the control side of a zero-trust
    network product: services in memory and in a SQL database behind an HTTP and a
    gRPC server ([cmd/server/main.go] wires them).  A RadSec/EAP-TLS server admits
    devices to switch ports and asks the 802.1X decision point; policies are
    versioned and pushed to gateways over WebSocket and gRPC; administrators, client
    users and groups are provisioned over SCIM and log in through the auth store or
    the OIDC provider; the API checks tokens, roles and tenants; further services
    keep security group tags, gateways, traffic logs and DNS verdicts, sign code and
    commands, seal and rotate keys, enroll agents and issue grants.  This library
    translates those services into executable definitions and proves what makes each
    of them correct.

    ** Conventions

    - Go's [(T, error)] is [result E T]; a function that can panic returns an
      [option] whose [None] is the panic.  Byte slices are [list byte], strings are
      byte strings, machine integers are [Z] with their wrap-around written out
      ([wrap_i64], [wrap_u32], ...).
    - Maps are stdpp's [gmap].  Go fixes no iteration order, so a function that
      ranges over a map takes the order as an argument ([range_order]) and the
      theorems hold for all orders.  [sort.Slice] on the values of a map is a
      stable sort of an arbitrary order, which yields every outcome the unstable
      sort can have.
    - Time is an argument: [now], or [clk i] for the i-th reading along one call,
      in nanoseconds (seconds in the token claims).  Random bytes are arguments,
      [None] a failing source.
    - Locks are not modelled: each operation runs under its mutex and is one step.
      Where goroutines interleave (the EAP-TLS byte relay), the steps are those of
      the parties between two waits.  Logging has no effect.
    - Code that is not in the repository or is only called (TLS, X.509, Ed25519, the
      JWT library, the database) is an interface: a [Class] with the documented laws
      the proofs use, and a concrete instance in the same file on which the
      witnesses evaluate.

    ** Files

    - [Prelude]: results, integers, bytes, slices, map ranges, tactics and hints.
    - [GoStrings], [GoTime], [Encoding], [JsonValue], [NetMac], [Md5], [Sha256]: the
      parts of Go's standard library the sources use ([strings], [strconv], [time],
      [encoding/hex], [base64], [json], [url], [net.ParseMAC], [crypto/md5],
      [crypto/hmac], [crypto/sha256]), executable.
    - [Sql]: column widths, nulls, ordered pages; what the table stores share.  A table
      is a map from its key to rows, a statement its effect, with an outcome of its own
      that may be a failure.
    - [Radius] (internal/radsec/radius.go): packets, attributes, the Response- and
      Message-Authenticator.  Codec round trip; replies are authenticated as the
      RFCs prescribe; the request check accepts exactly the right HMAC, and panics
      exactly on a truncated authenticator.
    - [Eap] (eap.go): EAP and EAP-TLS framing.  EAP-Message splitting and EAP-TLS
      fragmentation lose nothing and terminate.
    - [Mppe] (mppe.go): salt encryption of the link keys; they are recovered intact.
    - [MemConn] (conn.go): the in-memory connection of the inner TLS engine, as a
      step relation; it is a lossless ordered relay and a flight is collected whole.
    - [Dot1x] (internal/dot1x/authenticator.go): authentication, authorization,
      accounting, MAC bypass.  Authentication is sound and complete for a stated
      policy; reachable-state invariant; MAB is independent of address spelling;
      two places where access outlives its cause.
    - [RadsecServer] (server.go, cmd/server/radsec_pdp.go): the conversation state
      machine over [Radius], [Eap] and [Mppe], against the interfaces [TlsServer]
      and [PolicyEngine]; [Dot1x] implements the latter.  Access is granted only on
      a completed handshake with a trusted certificate the PDP accepts, once per
      conversation; every request gets one authenticated reply; the only panic is
      the one of [Radius].
    - [PolicyStore] (internal/policy/store.go): refinement of an append-only history
      with a ten-entry window; revert, lock and diff.
    - [Segment] (internal/segment/store.go): tag values identify tags, policies refer
      to existing tags, tenant listing and its leak, optimal classification.
    - [Gateway] (internal/gateway/registry.go, mesh.go, internal/db/gateway_store.go):
      connected gateways stay online; memory and table agree except for those; the
      topology is the full mesh.
    - [TrafficLog] (internal/trafficlog/store.go): bounded window, newest-first query.
    - [Dns] (internal/dnssecurity, internal/dnsrisk): the category guard and the
      verdict of the risk engine.
    - [Signing] (internal/security/code_signing.go, command_signing.go): what is
      signed verifies; a command is accepted at most once.
    - [Enrollment] (internal/security/enrollment.go): token uses are bounded, and who
      is admitted is exactly stated.
    - [Jwt]: the interface of the JWT library and an instance.  [TokenExchange]
      (internal/identity/token_exchange.go): forged subject tokens are exchanged.
    - [AuthStore] (internal/db/auth_store.go): login, refresh and logout over the user
      and session tables; who logs in is exactly stated, a logout is final.
    - [Access] (internal/api/middleware): each middleware on the request context; the
      tenant of a request is that of its token, and binding a user needs the device
      certificate and the user's token.  [Routes] (cmd/server/main.go): the route table
      with its guards; what the route of a change has to require is stated by its path
      ([requirement]), the open routes are listed, and the table requires it; the open
      token exchange defeats it.
    - [Grant] (internal/grant, device_grant_handler.go): grants go to the devices and
      segments stated, and their token text decodes to their claims.
    - [KeyVault], [Jwks] (internal/security): the vault implements a map of secrets
      across restarts, and which files make it panic; the key that signs is published
      until it expires.
    - [Push] (internal/websocket/hub.go, internal/grpcserver/server.go): channels and
      subscriptions as step relations; no send on a closed channel, gateways act under
      their certificate, what a reconnection loses.
    - [Oidc] (internal/oidc, internal/db/oidc_drs_store.go): every token goes back to a
      login, the device flow does not work.  [CodeExchange] (handler.go): the exchange of a
      code as a program of statements over [Interleave]; who gets tokens for a code, that a
      code is refused after its exchange, and that overlapping exchanges all succeed.
    - [Migrations] (internal/db/db.go): the statement splitter cuts a script exactly at the
      semicolons outside quotes, comments and dollar-quoted bodies ([split_exact]); a start
      applies exactly the missing files in order.
    - [ScimStore] (internal/db/scim_store.go), [ScimHandler] (scim_handler.go): the requests
      keep the members of a group within its tenant, a suspension by the provider sticks until the provider
      lifts it, the history of a status is complete; the handlers only take steps of the
      store, and a group patch has exactly the stated effect.
    - [SqlPolicyStore] (internal/db/policy_store.go): a policy reads back as written;
      the history it keeps is empty.
    - [Devices] (internal/db/device_store.go): devices, licenses, posture and logs; the
      license bounds the devices, and the tables keep their constraints.  [AgentAuth]
      (agent_auth_handler.go, portal_handler.go, device_handler.go, internal/mdm/
      handler_helpers.go): a token goes to the holder of the certificate, the device is
      then accepted, and a device of another tenant can be taken over.
    - [ClientConfig] (internal/db/client_config_store.go, client_config_handler.go): the
      configuration a device gets is exactly stated.  [ClientRuntime]
      (client_runtime_handler.go): the profile and routes made of its settings.
    - [Broker] (internal/identity/broker.go, identity_broker_handler.go): token exchange
      against the keys of an identity provider, exactly stated; risk and mapping; keys
      outlive their provider; persistence by goroutines against the interface
      [IdPPersister].  [IdpStore] (internal/db/idp_store.go) implements that interface: a
      restart restores the providers, unless writes are reordered; login profiles.
    - [Sso] (sso_handler.go): the login over [Broker], [AuthStore] and [ScimStore]; who
      logs in, a state is used once, and three flaws.
    - [Interleave]: requests as sequences of database statements that a scheduler
      interleaves; invariants, histories, rely conditions and counting arguments over all
      schedules.
    - [DeviceCa] (internal/security/stepca_device.go, aws_private_ca.go): the two issuers
      of device certificates; what the portal issues is bound to the tenant and the device
      of the request.  [EnrolSecrets] (internal/db/enrol_secret_store.go, enrol_handler.go):
      an enrolment secret admits one device in any interleaving.  [Onboard]
      (onboard_handler.go): the guesses a passcode allows, and the race that allows more.
    - [Connector] (internal/db/connector_store.go): a snapshot replaces the users and keeps
      the choices of the administrator.  [Directory] (internal/db/directory_store.go,
      provisioning_store.go, connector_handler.go, connector_admin_handler.go): after a
      reconciliation exactly the members of imported groups are active, and nobody the
      directory did not provision is touched.  [Kerberos] (internal/security/kerberos.go,
      kerberos_sso_handler.go): who is bound to a device, over [Devices] and [Directory].
    - [Calls]: sequences of calls to a store, simulation and invariants over them.
    - [Features] (internal/features, internal/db/feature_store.go, feature_flag_store.go, their
      handlers): the store in memory and the table answer alike, and a feature runs only
      under a plan that includes it or a trial that has not ended; an ended trial blocks
      for good.  [Profiles] (internal/profiles, internal/db/profile_store.go,
      profile_handler.go): built-in profiles stay, a new profile is the last of its type.
      [Rbac] (internal/db/rbac_store.go, rbac_handler.go): system roles stay in any
      interleaving, role names are unique when requests do not overlap, and the pages of a
      role are the granted ones.  [Validation] (internal/validation/engine.go,
      validation_handler.go): an environment comes up and is tested, the engine stays
      consistent in any interleaving, and what is destroyed stays so unless requests overlap.
    - [Window]: logs of bounded length.  [AuditTrail] (internal/audit/audit.go,
      api/middleware/audit.go): what the log keeps of the requests, and which it never sees.
      [Dot1xApi] (dot1x_handler.go, the audit handlers of scanner_handler.go): the trail of the
      802.1X decisions.
    - [Sdn] (internal/sdn/manager.go, sdn_handler.go): the mappings of a switch come from a push,
      and a push that overlaps a re-registration is lost.
    - [DnsLogs] (internal/db/dns_log_store.go, dns_logs_handler.go), [Tenants]
      (internal/db/tenant_store.go, tenant_handler.go): pages, statistics and the rollup by operator
      as queries; what they count and what they miss.
    - [GatewayApi] (gateway_handler.go, mesh_handler.go), [AdminApi] (admin_handler.go): the handlers
      over [Gateway] and [PolicyStore]; every policy change names the user of the request as its
      author, and the lock can be forced.
    - [AccountApi] (auth_handler.go, user_handler.go, group_handler.go): what a login can do until
      its token expires, how an administrator promotes himself, which tenant's groups each group
      route writes: that of the caller, and for the import that of the system.
    - [Scanner] (internal/scanner, scanner_handler.go): the grade of a scan is exactly stated by
      protocol versions, key sizes, algorithms and dates; each mail is explained by a scan and an
      opportunity, and overlapping mailings send twice.
    - [Itsm] (internal/db/itsm_store.go, itsm_handler.go): tickets are never decided, because their
      update statement does not run.
    - [Drs] (internal/drs, internal/db/oidc_drs_store.go): the device directory is sound in any
      interleaving: a row has the user code, the organization and the name of the registration
      that made it; who can register, and what a Windows join loses.
    - [ThreatIntel] (internal/db/threat_store.go, internal/threat-intel, threat_intel_handler.go):
      a batch of entries is stored whole or not at all, and none of them reaches a tenant.
    - [GoText]: lines, words, addresses and sorted texts.  [ThreatFeed] (internal/threatfeed): the
      snapshot of the feeds is exactly what they listed, line by line, in the last refresh that
      was no outage.
      [DnsSync] (internal/grpc/dnssec): the payload the gateways get; a gateway
      told that nothing changed has the current domains and policies.

    ** Fuel

    [Radius.parse_loop] has the packet's length as fuel and every turn consumes two
    bytes; [Eap.split_eap] and [fragments] have the length of the data, every turn
    consumes at least one byte; [RadsecServer.handleConn] consumes at least twenty
    bytes of the stream per turn; [Sha256.blocks] and the MD5 blocks run once per
    padded block; [Migrations.split_loop] has the length of the script and every turn
    consumes a byte; [Directory.duration_parts] has the length of the text and every turn
    consumes a character; [ScimHandler.apply_patch] has the nesting of the patch value.  The
    round trip, losslessness and totality theorems would fail if the fuel ran out.

    The search for a ticket key in [Itsm] has no bound in the source; its fuel is the number of
    candidates tried, and a request whose search goes on has no answer.

    ** Not modelled

    - The vendor protocols of MDM ([internal/mdm]: Apple, Android, OMA-DM) and SCEP, and the
      certificate authorities ([internal/auth/ca.go], [internal/sslca], [internal/scep]): they encode
      and decode formats of other parties and build certificates with [crypto/x509].
    - The assistant ([internal/assistant] and its handler), the mail service ([internal/notify]), the
      test of an identity provider ([idp_test_handler.go]): prompts, texts and calls of external
      services.
    - The portal pages, the download of agents ([internal/agentfile]) and the generators of PowerShell
      scripts in [internal/drs]: presentation.
    - The stores and handlers of addresses, policy objects, URL categories and provider logs, and the
      handlers of segments, code signing, agents and ghosted applications: one statement, or one call
      of an operation modelled here, per request.
    - [internal/grpc/dns_logs]: excluded from the build by its tag, over protocol types that do not
      exist.  [cmd/dbmigrate]: a command line around [Migrate].  The code generated by protoc. *)

From stdpp Require Export base tactics numbers list gmap strings sorting relations pretty.
From Stdlib Require Export Strings.Byte.
From Stdlib Require Import Ascii.

(** ** Scopes and hint databases *)

Declare Scope go_scope.
Delimit Scope go_scope with go.
Open Scope go_scope.

Create HintDb go discriminated.
#[export] Hint Constants Opaque : go.
(** Map invariants survive the updates of a store. *)
#[export] Hint Resolve map_Forall_empty : go.
#[export] Hint Extern 1 (map_Forall _ (delete _ _)) => apply map_Forall_delete : go.
#[export] Hint Extern 1 (map_Forall _ (<[_ := _]> _)) => apply map_Forall_insert_2; [done|] : go.

(** A closed decidable proposition, by evaluation. *)
Ltac by_evaluation := apply (bool_decide_unpack _); vm_compute; exact I.

(** ** Results: Go's [(value, error)] pairs

    A Go function that returns [(T, error)] yields a [result E T]; one that can
    hit a run-time panic (index out of range, nil dereference) yields an
    [option], [None] being the panic. *)

Inductive result (E A : Type) : Type :=
| Ok (a : A)
| Err (e : E).
Arguments Ok {E A} a.
Arguments Err {E A} e.

#[global] Instance result_eq_dec {E A} `{EqDecision E, EqDecision A} :
  EqDecision (result E A).
Proof. solve_decision. Defined.

(** ** Machine integers *)

Definition wrap_u8 (z : Z) : Z := z `mod` 2 ^ 8.
Definition wrap_u16 (z : Z) : Z := z `mod` 2 ^ 16.
Definition wrap_u32 (z : Z) : Z := z `mod` 2 ^ 32.
(** [int] and [int64] are two's complement on 64 bits. *)
Definition wrap_i64 (z : Z) : Z := (z + 2 ^ 63) `mod` 2 ^ 64 - 2 ^ 63.

Definition in_i64 (z : Z) : Prop := (- 2 ^ 63 <= z < 2 ^ 63)%Z.

Lemma wrap_i64_range z : in_i64 (wrap_i64 z).
Proof. unfold in_i64, wrap_i64. pose proof (Z.mod_pos_bound (z + 2 ^ 63) (2 ^ 64)). lia. Qed.

Lemma wrap_i64_id z : in_i64 z → wrap_i64 z = z.
Proof. unfold in_i64, wrap_i64. intros H. rewrite Z.mod_small; lia. Qed.

(** ** Bytes *)

Abbreviation bytes := (list byte).

Definition u8 (b : byte) : Z := Z.of_N (Byte.to_N b).
(** The conversion [byte(z)]: truncation to eight bits. *)
Definition byte_of (z : Z) : byte :=
  match Byte.of_N (Z.to_N (wrap_u8 z)) with Some b => b | None => x00 end.

#[global] Instance byte_eq_dec' : EqDecision byte := Byte.byte_eq_dec.

Lemma u8_range b : (0 <= u8 b < 256)%Z.
Proof. unfold u8. pose proof (Byte.to_N_bounded b). lia. Qed.

Lemma u8_byte_of z : u8 (byte_of z) = wrap_u8 z.
Proof.
  unfold u8, byte_of. pose proof (Z.mod_pos_bound z (2 ^ 8)) as Hz. unfold wrap_u8 in *.
  destruct (Byte.of_N (Z.to_N (z `mod` 2 ^ 8))) as [b|] eqn:E.
  - apply Byte.to_of_N in E. rewrite E. lia.
  - apply Byte.of_N_None_iff in E. lia.
Qed.

Lemma u8_inj b1 b2 : u8 b1 = u8 b2 → b1 = b2.
Proof.
  unfold u8. intros H. apply N2Z.inj in H.
  pose proof (Byte.of_to_N b1) as E1. pose proof (Byte.of_to_N b2) as E2.
  rewrite H in E1. congruence.
Qed.

Lemma byte_of_u8 b : byte_of (u8 b) = b.
Proof.
  apply u8_inj. rewrite u8_byte_of. unfold wrap_u8.
  apply Z.mod_small, u8_range.
Qed.

Lemma u8_byte_of_small z : (0 <= z < 256)%Z → u8 (byte_of z) = z.
Proof. intros H. rewrite u8_byte_of. unfold wrap_u8. apply Z.mod_small. lia. Qed.

Definition band (a b : byte) : byte := byte_of (Z.land (u8 a) (u8 b)).
Definition bor (a b : byte) : byte := byte_of (Z.lor (u8 a) (u8 b)).
Definition bxor (a b : byte) : byte := byte_of (Z.lxor (u8 a) (u8 b)).

Lemma lxor_byte_range a b : (0 <= Z.lxor (u8 a) (u8 b) < 256)%Z.
Proof.
  pose proof (u8_range a). pose proof (u8_range b). split.
  - apply Z.lxor_nonneg. lia.
  - destruct (decide (Z.lxor (u8 a) (u8 b) = 0)%Z) as [->|Hne]; [lia|].
    assert (0 <= Z.lxor (u8 a) (u8 b))%Z by (apply Z.lxor_nonneg; lia).
    change 256%Z with (2 ^ 8)%Z. apply Z.log2_lt_pow2; [lia|].
    pose proof (Z.log2_lxor (u8 a) (u8 b)).
    assert (∀ x, 0 <= x < 256 → Z.log2 x < 8)%Z as Hl.
    { intros x Hx. destruct (decide (x = 0)%Z) as [->|]; [done|].
      apply Z.log2_lt_pow2; lia. }
    pose proof (Hl (u8 a)). pose proof (Hl (u8 b)). lia.
Qed.

Lemma bxor_involutive a b : bxor (bxor a b) b = a.
Proof.
  apply u8_inj. unfold bxor.
  rewrite (u8_byte_of_small (Z.lxor (u8 a) (u8 b))) by apply lxor_byte_range.
  rewrite u8_byte_of, Z.lxor_assoc, Z.lxor_nilpotent, Z.lxor_0_r.
  unfold wrap_u8. apply Z.mod_small, u8_range.
Qed.

(** [binary.BigEndian]. The readers are applied to slices whose length has been
    checked; [get_be16] reads two bytes at an index. *)
Definition be16 (z : Z) : bytes := [byte_of (Z.shiftr z 8); byte_of z].
Definition be32 (z : Z) : bytes :=
  [byte_of (Z.shiftr z 24); byte_of (Z.shiftr z 16); byte_of (Z.shiftr z 8); byte_of z].

Definition byte_at (l : bytes) (i : nat) : byte := default x00 (l !! i).
Definition get_be16 (l : bytes) (i : nat) : Z :=
  (u8 (byte_at l i) * 256 + u8 (byte_at l (S i)))%Z.

Lemma get_be16_range l i : (0 <= get_be16 l i < 65536)%Z.
Proof.
  unfold get_be16. pose proof (u8_range (byte_at l i)). pose proof (u8_range (byte_at l (S i))).
  lia.
Qed.

Lemma be16_bytes z :
  (0 <= z < 65536)%Z →
  (u8 (byte_of (Z.shiftr z 8)) * 256 + u8 (byte_of z))%Z = z.
Proof.
  intros H. rewrite !u8_byte_of. unfold wrap_u8.
  rewrite Z.shiftr_div_pow2 by lia. change (2 ^ 8)%Z with 256%Z.
  pose proof (Z.div_mod z 256). assert (0 <= z / 256 < 256)%Z by (split; [apply Z.div_pos; lia|apply Z.div_lt_upper_bound; lia]).
  rewrite (Z.mod_small (z / 256)) by lia. lia.
Qed.

Lemma be16_of_bytes h l : be16 (u8 h * 256 + u8 l) = [h; l].
Proof.
  pose proof (u8_range h). pose proof (u8_range l). unfold be16.
  f_equal; [|f_equal]; apply u8_inj; rewrite u8_byte_of; unfold wrap_u8.
  - rewrite Z.shiftr_div_pow2 by lia. change (2 ^ 8)%Z with 256%Z.
    rewrite Z.div_add_l, (Z.div_small (u8 l)), Z.add_0_r by lia. apply Z.mod_small. lia.
  - change (2 ^ 8)%Z with 256%Z. rewrite Z.add_comm, Z_mod_plus_full. by apply Z.mod_small.
Qed.

(** [string(b)] and [[]byte(s)]. *)
Definition to_string (l : bytes) : string := String.string_of_list_byte l.
Definition of_string (s : string) : bytes := String.list_byte_of_string s.

Lemma to_of_string s : to_string (of_string s) = s.
Proof. apply String.string_of_list_byte_of_string. Qed.
Lemma of_to_string l : of_string (to_string l) = l.
Proof. apply String.list_byte_of_string_of_list_byte. Qed.

(** ** Slices *)

(** [l[i:j]]: [None] is the slice-bounds panic. *)
Definition slice {A} (l : list A) (i j : nat) : option (list A) :=
  if (i <=? j) && (j <=? length l) then Some (take (j - i) (drop i l)) else None.

Lemma slice_app {A} (l1 l2 l3 : list A) :
  slice (l1 ++ l2 ++ l3) (length l1) (length l1 + length l2) = Some l2.
Proof.
  unfold slice. rewrite !length_app.
  replace (_ && _) with true by (symmetry; apply andb_true_intro; split; apply Nat.leb_le; lia).
  f_equal. rewrite drop_app_length.
  replace (length l1 + length l2 - length l1) with (length l2) by lia.
  by rewrite take_app_length.
Qed.

(** ** Ranging over a map

    Go does not fix the order in which [range] visits a map, so a function that
    loops over one takes the order as an argument: a [range_order] enumerates
    any map's entries in some order, each once.  Theorems quantify over it. *)
Record range_order := mkRangeOrder {
  range : ∀ V : Type, gmap string V → list (string * V);
  range_perm : ∀ V (m : gmap string V), range V m ≡ₚ map_to_list m;
}.
Arguments range ro {V} m : rename.
Arguments range_perm ro {V} m : rename.

Definition canonical_order : range_order :=
  mkRangeOrder (λ V m, map_to_list m) (λ V m, Permutation_refl _).
Definition reverse_order : range_order :=
  mkRangeOrder (λ V m, reverse (map_to_list m)) (λ V m, reverse_Permutation _).

Definition values {V} (ro : range_order) (m : gmap string V) : list V := map snd (range ro m).

Lemma elem_of_range {V} ro (m : gmap string V) k v : (k, v) ∈ range ro m ↔ m !! k = Some v.
Proof. rewrite (range_perm ro m). apply elem_of_map_to_list. Qed.

Lemma NoDup_range_keys {V} ro (m : gmap string V) : NoDup (range ro m).*1.
Proof. rewrite (range_perm ro m). apply NoDup_fst_map_to_list. Qed.

Lemma elem_of_values {V} ro (m : gmap string V) v : v ∈ values ro m ↔ ∃ k, m !! k = Some v.
Proof.
  unfold values. rewrite list_elem_of_In, in_map_iff. split.
  - intros ([k w] & <- & Hin). exists k. by rewrite <- list_elem_of_In, elem_of_range in Hin.
  - intros [k Hk]. exists (k, v). by rewrite <- list_elem_of_In, elem_of_range.
Qed.

Lemma length_values {V} ro (m : gmap string V) : length (values ro m) = size m.
Proof. unfold values. by rewrite length_map, (range_perm ro m), length_map_to_list. Qed.

Lemma foldl_ext {A B} (f g : A → B → A) x l :
  (∀ a b, f a b = g a b) → foldl f x l = foldl g x l.
Proof. intros H. revert x. induction l as [|b l IH]; intros x; [done|]. cbn. by rewrite H, IH. Qed.

(** A lookup in an updated map: at the key, or at another one. *)
Ltac insert_cases j i :=
  destruct (decide (j = i)) as [->|?]; [rewrite lookup_insert_eq|rewrite lookup_insert_ne by done].

Lemma NoDup_fmap_eq {A B} (f : A → B) (l : list A) a b :
  NoDup (f <$> l) → a ∈ l → b ∈ l → f a = f b → a = b.
Proof.
  intros Hnd [i Hi]%list_elem_of_lookup [j Hj]%list_elem_of_lookup E.
  assert (i = j) as ->; [|congruence].
  apply (NoDup_lookup (f <$> l) i j (f a)); [done|..]; rewrite list_lookup_fmap;
    rewrite ?Hi, ?Hj; cbn; congruence.
Qed.

(** ** Countable data as text

    For concrete instances of the serialization libraries. *)
Fixpoint bits (p : positive) : string :=
  match p with
  | xH => "H"%string
  | xO p => String "0"%char (bits p)
  | xI p => String "1"%char (bits p)
  end.
Fixpoint unbits (s : string) : option positive :=
  match s with
  | String "0"%char s => xO <$> unbits s
  | String "1"%char s => xI <$> unbits s
  | String "H"%char EmptyString => Some xH
  | _ => None
  end.

Lemma unbits_bits p : unbits (bits p) = Some p.
Proof. induction p as [p IH|p IH|]; [..|done]; cbn; by rewrite IH. Qed.

Definition to_text {A} `{Countable A} (a : A) : string := bits (encode a).
Definition of_text {A} `{Countable A} (s : string) : option A := unbits s ≫= decode.

Lemma of_to_text {A} `{Countable A} (a : A) : of_text (to_text a) = Some a.
Proof. unfold of_text, to_text. rewrite unbits_bits. cbn [mbind option_bind]. by rewrite decode_encode. Qed.
