(* ===== verification/GoStrings.v ===== *)
(** * Strings and text encodings of the Go standard library

    The parts of [strings], [strconv] and [encoding/hex] the sources use, as
    executable functions on byte strings.  Letter case is ASCII case: on the
    ASCII identifiers, host names and role names these packages handle it is
    what [strings.ToLower] and [strings.EqualFold] compute; the Unicode case
    tables are not modelled. *)

From S2P Require Import Prelude.
From Stdlib Require Import Ascii.
#[local] Open Scope string_scope.
#[local] Open Scope nat_scope.

Module GoStrings.

Definition is_upper (c : ascii) : bool :=
  let n := nat_of_ascii c in (65 <=? n) && (n <=? 90).
Definition lower_char (c : ascii) : ascii :=
  if is_upper c then ascii_of_nat (nat_of_ascii c + 32) else c.

Fixpoint smap (f : ascii → ascii) (s : string) : string :=
  match s with
  | EmptyString => EmptyString
  | String c s => String (f c) (smap f s)
  end.
Definition ToLower : string → string := smap lower_char.
Definition EqualFold (a b : string) : bool := bool_decide (ToLower a = ToLower b).

Definition HasPrefix (s pre : string) : bool := String.prefix pre s.
Definition TrimPrefix (s pre : string) : string :=
  if HasPrefix s pre
  then String.substring (String.length pre) (String.length s - String.length pre) s
  else s.
Definition HasSuffix (s suf : string) : bool :=
  (String.length suf <=? String.length s)
  && bool_decide (String.substring (String.length s - String.length suf) (String.length suf) s = suf).

Fixpoint Contains (s sub : string) : bool :=
  String.prefix sub s ||
  match s with EmptyString => false | String _ s => Contains s sub end.

(** [s[:strings.Index(s, c)]] when [c] occurs in [s], and [s] otherwise. *)
Fixpoint before (c : ascii) (s : string) : string :=
  match s with
  | EmptyString => EmptyString
  | String d s => if Ascii.eqb c d then EmptyString else String d (before c s)
  end.

(** [strings.Split(s, c)] for a one-byte separator: never empty. *)
Fixpoint Split (c : ascii) (s : string) : list string :=
  match s with
  | EmptyString => [EmptyString]
  | String d s =>
      if Ascii.eqb c d then EmptyString :: Split c s
      else match Split c s with
           | [] => [String d EmptyString]
           | w :: ws => String d w :: ws
           end
  end.
Definition Join (ws : list string) (sep : string) : string := String.concat sep ws.

Definition is_space (c : ascii) : bool :=
  let n := nat_of_ascii c in (n =? 32) || ((9 <=? n) && (n <=? 13)).
Fixpoint drop_space (l : list ascii) : list ascii :=
  match l with
  | [] => []
  | c :: l' => if is_space c then drop_space l' else l
  end.
Definition TrimSpace (s : string) : string :=
  String.string_of_list_ascii
    (reverse (drop_space (reverse (drop_space (String.list_ascii_of_string s))))).

Fixpoint drop_slashes (l : list ascii) : list ascii :=
  match l with c :: l' => if Ascii.eqb c "/" then drop_slashes l' else l | [] => [] end.
(** [strings.TrimRight(s, "/")] *)
Definition TrimRight (s : string) : string :=
  String.string_of_list_ascii (reverse (drop_slashes (reverse (String.list_ascii_of_string s)))).

(** [strconv.FormatInt(n, 10)] and [%d]. *)
Definition itoa (n : Z) : string := pretty n.

(** [strconv.Quote], the verb [%q], of text whose bytes beyond ASCII are printable. *)
Definition quote_mark : ascii := "034"%char.
Definition hex_digit (n : nat) : ascii := ascii_of_nat (if n <? 10 then 48 + n else 87 + n).
Definition escaped (c : ascii) : list ascii :=
  let n := nat_of_ascii c in
  if (n =? 34) || (n =? 92) then ["\"%char; c]
  else if n =? 7 then ["\"; "a"]%char else if n =? 8 then ["\"; "b"]%char
  else if n =? 9 then ["\"; "t"]%char else if n =? 10 then ["\"; "n"]%char
  else if n =? 11 then ["\"; "v"]%char else if n =? 12 then ["\"; "f"]%char
  else if n =? 13 then ["\"; "r"]%char
  else if (n <? 32) || (n =? 127) then ["\"%char; "x"%char; hex_digit (n / 16); hex_digit (n mod 16)]
  else [c].
Definition Quote (s : string) : string :=
  String.string_of_list_ascii (quote_mark :: flat_map escaped (String.list_ascii_of_string s) ++ [quote_mark]).

(** ** Lemmas *)

Lemma smap_smap f g s : smap f (smap g s) = smap (λ c, f (g c)) s.
Proof. induction s as [|c s IH]; simpl; congruence. Qed.

Lemma lower_char_idem c : lower_char (lower_char c) = lower_char c.
Proof. destruct c as [[] [] [] [] [] [] [] []]; reflexivity. Qed.

Lemma smap_ext f g s : (∀ c, f c = g c) → smap f s = smap g s.
Proof. intros H. induction s as [|c s IH]; simpl; congruence. Qed.

Lemma ToLower_idem s : ToLower (ToLower s) = ToLower s.
Proof. unfold ToLower. rewrite smap_smap. apply smap_ext, lower_char_idem. Qed.

Lemma EqualFold_sym a b : EqualFold a b = EqualFold b a.
Proof. unfold EqualFold. apply bool_decide_ext. split; congruence. Qed.

Lemma Split_nonempty c s : Split c s ≠ [].
Proof.
  induction s as [|d s IH]; simpl; [done|].
  destruct (Ascii.eqb c d); [done|]. by destruct (Split c s).
Qed.

Lemma Join_cons w ws sep : ws ≠ [] → Join (w :: ws) sep = w +:+ sep +:+ Join ws sep.
Proof. by destruct ws. Qed.

(** Joining the parts of a split with the separator gives the string back. *)
Lemma Join_Split c s : Join (Split c s) (String c EmptyString) = s.
Proof.
  induction s as [|d s IH]; [done|].
  cbn [Split]. pose proof (Split_nonempty c s) as Hne.
  destruct (Ascii.eqb_spec c d) as [->|].
  - rewrite Join_cons by done. by rewrite IH.
  - destruct (Split c s) as [|w ws] eqn:E; [done|].
    destruct ws as [|w' ws].
    + unfold Join in *. simpl in *. by rewrite IH.
    + rewrite Join_cons in IH by done. rewrite Join_cons by done.
      change (String d (w +:+ String c EmptyString +:+ Join (w' :: ws) (String c EmptyString))
              = String d s). by rewrite IH.
Qed.

Lemma substring_all s : String.substring 0 (String.length s) s = s.
Proof. induction s as [|c s IH]; simpl; [done|by rewrite IH]. Qed.

Lemma HasPrefix_app p s : HasPrefix (p +:+ s) p = true.
Proof.
  unfold HasPrefix. induction p as [|c p IH]; simpl; [by destruct s|].
  by destruct (ascii_dec c c).
Qed.

Lemma length_string_app p s : String.length (p +:+ s) = String.length p + String.length s.
Proof. induction p as [|c p IH]; simpl; [done|by rewrite IH]. Qed.

Lemma TrimPrefix_app p s : TrimPrefix (p +:+ s) p = s.
Proof.
  unfold TrimPrefix. rewrite HasPrefix_app, length_string_app, Nat.add_comm, Nat.add_sub.
  induction p as [|c p IH]; simpl; [apply substring_all|exact IH].
Qed.

Lemma substring_drop p s : String.prefix p s = true →
  ∃ t, s = p +:+ t.
Proof.
  revert s. induction p as [|c p IH]; intros s Hp; [by exists s|].
  destruct s as [|d s]; [done|]. simpl in Hp. destruct (ascii_dec c d) as [->|]; [|done].
  destruct (IH s Hp) as [t ->]. by exists t.
Qed.

(** Trimming a prefix gives [g] exactly for [g] behind the prefix, or for [g] itself
    when it does not start with the prefix. *)
Lemma TrimPrefix_spec s p g :
  TrimPrefix s p = g ↔ s = p +:+ g ∨ (s = g ∧ HasPrefix s p = false).
Proof.
  destruct (HasPrefix s p) eqn:Hp.
  - destruct (substring_drop p s Hp) as [t ->]. rewrite TrimPrefix_app. split.
    + intros ->. by left.
    + intros [E|[_ ?]]; [|done]. clear Hp. induction p as [|c p IH]; [done|]. apply IH. by injection E.
  - unfold TrimPrefix. rewrite Hp. split; [by auto|]. intros [-> |[? _]]; [|done].
    by rewrite HasPrefix_app in Hp.
Qed.

Lemma Split_nodot c s : c ∉ String.list_ascii_of_string s → Split c s = [s].
Proof.
  induction s as [|d s IH]; [done|]. cbn [String.list_ascii_of_string Split]. intros H.
  apply not_elem_of_cons in H as [Hne H].
  destruct (Ascii.eqb_spec c d) as [->|_]; [done|]. by rewrite IH.
Qed.

Lemma Split_app c s t : c ∉ String.list_ascii_of_string s →
  Split c (s +:+ String c t) = s :: Split c t.
Proof.
  induction s as [|d s IH]; intros H.
  - change (EmptyString +:+ String c t) with (String c t). cbn [Split]. by rewrite Ascii.eqb_refl.
  - change (String d s +:+ String c t) with (String d (s +:+ String c t)). cbn [Split].
    cbn [String.list_ascii_of_string] in H. apply not_elem_of_cons in H as [Hne H].
    destruct (Ascii.eqb_spec c d) as [->|_]; [done|]. by rewrite IH.
Qed.

(** Splitting what was joined gives the parts back, when none has the separator. *)
Lemma Split_Join c ws : ws ≠ [] → Forall (λ w, c ∉ String.list_ascii_of_string w) ws →
  Split c (Join ws (String c EmptyString)) = ws.
Proof.
  intros Hne Hf. induction Hf as [|w ws Hw Hf IH]; [done|]. destruct ws as [|w' ws]; [by apply Split_nodot|].
  rewrite Join_cons by done. change (String c EmptyString +:+ ?x) with (String c x).
  rewrite Split_app by done. by rewrite IH.
Qed.

Lemma HasSuffix_app s t : HasSuffix (s +:+ t) t = true.
Proof.
  unfold HasSuffix. rewrite length_string_app. apply andb_true_iff. split; [apply Nat.leb_le; lia|].
  rewrite Nat.add_sub. apply bool_decide_eq_true. induction s as [|c s IH]; simpl; [apply substring_all|exact IH].
Qed.

(** A string that neither starts nor ends with a space is left as it is. *)
Lemma TrimSpace_ends c s d : is_space c = false → is_space d = false →
  TrimSpace (String c (s +:+ String d EmptyString)) = String c (s +:+ String d EmptyString).
Proof.
  intros Hc Hd. unfold TrimSpace.
  assert (Hl : String.list_ascii_of_string (String c (s +:+ String d EmptyString)) =
    (c :: (String.list_ascii_of_string s ++ [d]))%list).
  { simpl. f_equal. induction s as [|x s IH]; simpl; [done|by rewrite IH]. }
  rewrite Hl. cbn [drop_space]. rewrite Hc.
  change (c :: (String.list_ascii_of_string s ++ [d]))%list with ((c :: String.list_ascii_of_string s) ++ [d])%list.
  rewrite reverse_snoc. cbn [drop_space]. rewrite Hd, reverse_cons, reverse_involutive.
  change ((c :: String.list_ascii_of_string s) ++ [d])%list with (c :: (String.list_ascii_of_string s ++ [d]))%list.
  rewrite <- Hl. apply String.string_of_list_ascii_of_string.
Qed.

Lemma drop_space_length l : length (drop_space l) <= length l.
Proof. induction l as [|c l IH]; simpl; [done|]. destruct (is_space c); simpl; lia. Qed.

(** A string that trimming leaves alone does not start with a space. *)
Lemma TrimSpace_head c s : TrimSpace (String c s) = String c s → is_space c = false.
Proof.
  unfold TrimSpace. destruct (is_space c) eqn:Hc; [|done]. intros E. exfalso.
  apply (f_equal (λ x, length (String.list_ascii_of_string x))) in E.
  rewrite String.list_ascii_of_string_of_list_ascii, length_reverse in E. cbn [drop_space length String.list_ascii_of_string] in E. rewrite Hc in E.
  pose proof (drop_space_length (reverse (drop_space (String.list_ascii_of_string s)))) as H1.
  pose proof (drop_space_length (String.list_ascii_of_string s)) as H2. rewrite length_reverse in H1. lia.
Qed.

Lemma drop_space_suffix l : ∃ k, l = (k ++ drop_space l)%list.
Proof.
  induction l as [|c l [k IH]]; cbn; [by exists []|]. destruct (is_space c); [exists (c :: k); cbn; by f_equal|by exists []].
Qed.
Lemma drop_space_idem l : drop_space (drop_space l) = drop_space l.
Proof. induction l as [|c l IH]; cbn; [done|]. destruct (is_space c) eqn:E; [done|]. cbn. by rewrite E. Qed.

Lemma TrimSpace_idem s : TrimSpace (TrimSpace s) = TrimSpace s.
Proof.
  unfold TrimSpace. rewrite String.list_ascii_of_string_of_list_ascii. f_equal.
  set (x := drop_space (String.list_ascii_of_string s)).
  assert (Hx : drop_space x = x) by apply drop_space_idem. clearbody x.
  destruct (drop_space_suffix (reverse x)) as [k Hk]. set (z := drop_space (reverse x)) in *.
  assert (Hz : drop_space z = z) by apply drop_space_idem. clearbody z.
  assert (Hy : drop_space (reverse z) = reverse z).
  { assert (E : x = (reverse z ++ reverse k)%list) by by rewrite <- (reverse_involutive x), Hk, reverse_app.
    rewrite E in Hx. destruct (reverse z) as [|c y]; [done|]. cbn in Hx |- *. destruct (is_space c) eqn:Hc; [|done].
    exfalso. pose proof (drop_space_length (y ++ reverse k)%list) as Hl. rewrite Hx in Hl. cbn in Hl. lia. }
  by rewrite Hy, reverse_involutive, Hz.
Qed.

End GoStrings.

(** ** Hexadecimal *)

Module Hex.
#[local] Open Scope Z_scope.

Definition digit (n : Z) : ascii :=
  ascii_of_N (Z.to_N (if n <? 10 then 48 + n else 87 + n)).

(** [hex.EncodeToString]. *)
Fixpoint encode (l : bytes) : string :=
  match l with
  | [] => EmptyString
  | b :: l => String (digit (u8 b / 16)) (String (digit (u8 b `mod` 16)) (encode l))
  end.

(** [reverseHexTable]. *)
Definition value (c : ascii) : option Z :=
  let n := Z.of_N (N_of_ascii c) in
  if (48 <=? n) && (n <=? 57) then Some (n - 48)
  else if (97 <=? n) && (n <=? 102) then Some (n - 87)
  else if (65 <=? n) && (n <=? 70) then Some (n - 55)
  else None.

(** [hex.DecodeString]: the bytes decoded before the first error, and whether
    there was none (an odd trailing digit is an error). *)
Fixpoint decode (s : string) : bytes * bool :=
  match s with
  | EmptyString => ([], true)
  | String _ EmptyString => ([], false)
  | String p (String q s) =>
      match value p, value q with
      | Some a, Some b =>
          let '(l, ok) := decode s in (byte_of (16 * a + b) :: l, ok)
      | _, _ => ([], false)
      end
  end.

Lemma value_digit n : 0 <= n < 16 → value (digit n) = Some n.
Proof.
  intros H.
  assert (n = 0 ∨ n = 1 ∨ n = 2 ∨ n = 3 ∨ n = 4 ∨ n = 5 ∨ n = 6 ∨ n = 7 ∨ n = 8 ∨ n = 9
          ∨ n = 10 ∨ n = 11 ∨ n = 12 ∨ n = 13 ∨ n = 14 ∨ n = 15) as Hn by lia.
  repeat (destruct Hn as [->|Hn]; [reflexivity|]). subst. reflexivity.
Qed.

Lemma nibbles b : 0 <= u8 b / 16 < 16 ∧ 0 <= u8 b `mod` 16 < 16.
Proof.
  pose proof (u8_range b). pose proof (Z.mod_pos_bound (u8 b) 16).
  split; [|lia]. split; [apply Z.div_pos; lia|apply Z.div_lt_upper_bound; lia].
Qed.

Lemma decode_encode l : decode (encode l) = (l, true).
Proof.
  induction l as [|b l IH]; [done|]. cbn [encode decode].
  destruct (nibbles b) as [H1 H2].
  rewrite !value_digit by done. rewrite IH.
  by rewrite <- Z.div_mod, byte_of_u8.
Qed.

Lemma encode_inj l1 l2 : encode l1 = encode l2 → l1 = l2.
Proof. intros H. apply (f_equal decode) in H. rewrite !decode_encode in H. congruence. Qed.

Lemma hex_encode_length l : String.length (encode l) = (2 * length l)%nat.
Proof. induction l as [|b l IH]; simpl in *; lia. Qed.

End Hex.
