(* ===== verification/GoText.v ===== *)
(** * Lines, words, addresses and sorted texts

    What the feeds and the directory use of [strings], [bufio], [net] and [sort] beyond
    [GoStrings]: prefixes up to a character, words, the lines of a scanner, [net.ParseIP] of a
    text without colons, and [sort.Strings].  White space is that of ASCII. *)

From S2P Require Import Prelude GoStrings.
From Stdlib Require Import Ascii.
#[local] Open Scope string_scope.
#[local] Open Scope nat_scope.
#[local] Open Scope list_scope.

Module GoText.
Import GoStrings.

Definition chars (s : string) : list ascii := String.list_ascii_of_string s.

Definition TrimSuffix (s suf : string) : string :=
  if HasSuffix s suf then String.substring 0 (String.length s - String.length suf) s else s.

(** [s[:i]] for [i := strings.IndexAny(s, ...)], when there is such a character. *)
Fixpoint before_any (p : ascii → bool) (s : string) : option string :=
  match s with
  | "" => None
  | String c s' => if p c then Some "" else String c <$> before_any p s'
  end.

(** [strings.SplitN(s, c, 2)] when it has two parts. *)
Fixpoint cut (c : ascii) (s : string) : option (string * string) :=
  match s with
  | "" => None
  | String d s' => if Ascii.eqb c d then Some ("", s') else prod_map (String d) id <$> cut c s'
  end.

Definition add_char (c : ascii) (ws : list string) : list string :=
  match ws with w :: ws' => String c w :: ws' | [] => [String c ""] end.
Definition starts_space (s : string) : bool := match s with "" => true | String c _ => is_space c end.
(** [strings.Fields] *)
Fixpoint Fields (s : string) : list string :=
  match s with
  | "" => []
  | String c s' =>
      if is_space c then Fields s'
      else if starts_space s' then String c "" :: Fields s' else add_char c (Fields s')
  end.

(** The lines of [bufio.Scanner]: the text after the last newline is one when it is not empty,
    and a line loses its carriage return. *)
Definition newline : ascii := "010"%char.
Definition lf : string := String newline "".
Definition cr : string := String "013"%char "".
Definition drop_last_empty (l : list string) : list string :=
  match last l with Some "" => removelast l | _ => l end.
Definition lines (s : string) : list string := drop_last_empty (Split newline s).

(** [net.ParseIP] of a text without colons: four decimal numbers up to 255 without leading
    zeros. *)
Definition is_digit (c : ascii) : bool := let n := nat_of_ascii c in (48 <=? n) && (n <=? 57).
Definition number (l : list ascii) : Z := foldl (λ a c, (10 * a + (Z.of_nat (nat_of_ascii c) - 48))%Z) 0%Z l.
Definition octet (s : string) : bool :=
  let l := String.list_ascii_of_string s in
  forallb is_digit l
  && match l with [] => false | [_] => true | c :: _ => negb (Ascii.eqb c "0") && (length l <=? 3) && (number l <=? 255)%Z end.
Definition ParseIP (s : string) : bool :=
  match Split "."%char s with [a; b; c; d] => octet a && octet b && octet c && octet d | _ => false end.

(** [sort.Strings] *)
Definition str_le (a b : string) : Prop := String.leb a b = true.
#[global] Instance str_le_dec a b : Decision (str_le a b).
Proof. unfold str_le. apply _. Defined.
Definition sort_strings : list string → list string := merge_sort str_le.

(** ** Characters of parts *)

Lemma chars_inj s t : chars s = chars t → s = t.
Proof. intros H. rewrite <- (String.string_of_list_ascii_of_string s), <- (String.string_of_list_ascii_of_string t). by f_equal. Qed.

Lemma chars_append s t : chars (s +:+ t) = chars s ++ chars t.
Proof. induction s as [|c s IH]; [done|]. change (c :: chars (s +:+ t) = c :: (chars s ++ chars t)). by rewrite IH. Qed.

Lemma length_chars s : length (chars s) = String.length s.
Proof. induction s as [|c s IH]; [done|]. cbn. f_equal. apply IH. Qed.

Lemma chars_substring n m s : chars (String.substring n m s) = take m (drop n (chars s)).
Proof.
  revert n m. induction s as [|c s IH]; intros [|n] [|m]; try done.
  - cbn. f_equal. apply IH.
  - cbn. apply (IH n 0).
  - cbn. apply IH.
Qed.

Lemma chars_TrimSuffix s suf : chars (TrimSuffix s suf) ⊆ chars s.
Proof.
  unfold TrimSuffix. destruct (HasSuffix s suf); [|done]. rewrite chars_substring, drop_0. intros c Hc.
  by apply (subseteq_take (String.length s - String.length suf)).
Qed.

Lemma chars_TrimPrefix s p : chars (TrimPrefix s p) ⊆ chars s.
Proof.
  unfold TrimPrefix. destruct (HasPrefix s p); [|done]. rewrite chars_substring. intros c Hc%subseteq_take.
  by apply subseteq_drop in Hc.
Qed.

Lemma chars_smap f s : chars (smap f s) = f <$> chars s.
Proof. induction s as [|c s IH]; [done|]. change (f c :: chars (smap f s) = f c :: (f <$> chars s)). by rewrite IH. Qed.

Lemma chars_TrimSpace s : chars (TrimSpace s) ⊆ chars s.
Proof.
  unfold TrimSpace, chars. rewrite String.list_ascii_of_string_of_list_ascii. intros c. rewrite elem_of_reverse.
  destruct (drop_space_suffix (reverse (drop_space (String.list_ascii_of_string s)))) as [k Hk].
  destruct (drop_space_suffix (String.list_ascii_of_string s)) as [k' Hk']. intros Hc. rewrite Hk'. apply elem_of_app. right.
  rewrite <- elem_of_reverse, Hk. apply elem_of_app. by right.
Qed.

(** ** Words *)

Lemma starts_space_first s : starts_space s = false → ∃ c s', s = String c s' ∧ is_space c = false.
Proof. destruct s as [|c s']; [done|]. intros H. by exists c, s'. Qed.

(** A word is not empty and has no white space in it. *)
Lemma Fields_words s : Forall (λ w, w ≠ "" ∧ ∀ c, c ∈ chars w → is_space c = false) (Fields s).
Proof.
  induction s as [|c s IH]; [constructor|]. cbn. destruct (is_space c) eqn:Ec; [done|].
  assert (Hone : String c "" ≠ "" ∧ ∀ d, d ∈ chars (String c "") → is_space d = false).
  { split; [done|]. by intros d ->%list_elem_of_singleton. }
  destruct (starts_space s); [by constructor|]. destruct (Fields s) as [|w ws]; [by constructor|].
  inversion_clear IH as [|?? [_ Hw] Hws]. constructor; [|done]. split; [done|].
  cbn. intros d [->|Hd]%elem_of_cons; [done|by apply Hw].
Qed.

(** ** Sorted texts *)

#[global] Instance str_le_trans : Transitive str_le.
Proof. intros a b c H1%Is_true_true H2%Is_true_true. apply Is_true_true. exact (transitivity (R := String.le) H1 H2). Qed.
#[global] Instance str_le_total : Total str_le.
Proof. intros a b. apply String.leb_total. Qed.
#[global] Instance str_le_antisym : AntiSymm (=) str_le.
Proof. intros a b. apply String.leb_antisym. Qed.

Lemma sort_strings_perm l : sort_strings l ≡ₚ l.
Proof. apply merge_sort_Permutation. Qed.

Lemma sort_strings_sorted l : StronglySorted str_le (sort_strings l).
Proof. apply (StronglySorted_merge_sort str_le). Qed.

(** The sorted list does not depend on the order in which the texts came. *)
Lemma sort_strings_canonical l l' : l ≡ₚ l' → sort_strings l = sort_strings l'.
Proof.
  intros H. apply (StronglySorted_unique str_le); [apply sort_strings_sorted..|]. by rewrite !sort_strings_perm.
Qed.
End GoText.
