(* ===== verification/GoTime.v ===== *)
(** * Time as Go's [time] package prints it

    An instant is its nanoseconds since the Unix epoch; the zero [time.Time] is the first
    of January of the year 1.  [RFC3339] and [RFC3339Nano] are the texts of
    [Format(time.RFC3339)] and [Format(time.RFC3339Nano)] in UTC.  The calendar is the
    proleptic Gregorian one, computed in eras of 400 years that begin on the first of
    March; [days_from_civil] inverts it, and [ParseRFC3339] reads such a text back, to the
    second. *)

From S2P Require Import Prelude GoStrings.
From Stdlib Require Import Ascii.
#[local] Open Scope string_scope.
#[local] Open Scope Z_scope.

Module GoTime.
Import GoStrings.

Definition second : Z := 1000000000.
Definition zero_time : Z := -62135596800 * second.
Definition IsZero (t : Z) : bool := t =? zero_time.

Record date := mkDate { year : Z; month : Z; day : Z }.

(** The day of the year that starts in March, from the day of the era. *)
Definition year_of_era (doe : Z) : Z := (doe - doe / 1460 + doe / 36524 - doe / 146096) / 365.
Definition civil_from_days (days : Z) : date :=
  let z := days + 719468 in
  let era := z / 146097 in
  let doe := z `mod` 146097 in
  let yoe := year_of_era doe in
  let doy := doe - (365 * yoe + yoe / 4 - yoe / 100) in
  let mp := (5 * doy + 2) / 153 in
  let d := doy - (153 * mp + 2) / 5 + 1 in
  let m := if mp <? 10 then mp + 3 else mp - 9 in
  mkDate (yoe + era * 400 + (if m <=? 2 then 1 else 0)) m d.

Definition days_from_civil (c : date) : Z :=
  let y := if month c <=? 2 then year c - 1 else year c in
  let era := y / 400 in
  let yoe := y `mod` 400 in
  let mp := if month c <=? 2 then month c + 9 else month c - 3 in
  let doy := (153 * mp + 2) / 5 + day c - 1 in
  era * 146097 + (yoe * 365 + yoe / 4 - yoe / 100 + doy) - 719468.

Fixpoint zeros (n : nat) : string := match n with O => "" | S n => "0" +:+ zeros n end.
(** At least [w] digits. *)
Definition pad (w : nat) (n : Z) : string := let s := itoa n in zeros (w - String.length s)%nat +:+ s.

(** The digits of a fraction without its trailing zeros. *)
Fixpoint trim_zeros (fuel : nat) (w : nat) (n : Z) : string :=
  match fuel with
  | O => pad w n
  | S fuel => if n `mod` 10 =? 0 then trim_zeros fuel (w - 1)%nat (n / 10) else pad w n
  end.
Definition fraction (nanos : Z) : string :=
  if nanos =? 0 then "" else "." +:+ trim_zeros 8 9 nanos.

Definition seconds_text (t : Z) : string :=
  let s := t / second in
  let c := civil_from_days (s / 86400) in
  let r := s `mod` 86400 in
  pad 4 (year c) +:+ "-" +:+ pad 2 (month c) +:+ "-" +:+ pad 2 (day c) +:+ "T" +:+
  pad 2 (r / 3600) +:+ ":" +:+ pad 2 ((r / 60) `mod` 60) +:+ ":" +:+ pad 2 (r `mod` 60).

Definition RFC3339 (t : Z) : string := seconds_text t +:+ "Z".
Definition RFC3339Nano (t : Z) : string := seconds_text t +:+ fraction (t `mod` second) +:+ "Z".

Example epoch : RFC3339 0 = "1970-01-01T00:00:00Z".
Proof. by vm_compute. Qed.
Example zero_text : RFC3339Nano zero_time = "0001-01-01T00:00:00Z".
Proof. by vm_compute. Qed.
Example leap_day : RFC3339Nano (1709251199 * second + 120000000) = "2024-02-29T23:59:59.12Z".
Proof. by vm_compute. Qed.

(** ** The calendar is exact *)

Lemma year_of_era_spec doe : 0 <= doe < 146097 →
  let yoe := year_of_era doe in
  0 <= yoe < 400 ∧ 0 <= doe - (365 * yoe + yoe / 4 - yoe / 100) < 366.
Proof. intros H. unfold year_of_era. cbv zeta. Z.div_mod_to_equations. lia. Qed.

(** Every day has its own date. *)
Lemma civil_roundtrip days : days_from_civil (civil_from_days days) = days.
Proof.
  unfold civil_from_days, days_from_civil. cbn zeta.
  pose proof (Z.mod_pos_bound (days + 719468) 146097 ltac:(lia)) as Hb.
  pose proof (Z.div_mod (days + 719468) 146097 ltac:(lia)) as Hd.
  set (era := (days + 719468) / 146097) in *. set (doe := (days + 719468) `mod` 146097) in *.
  destruct (year_of_era_spec doe Hb) as [Hy Hdoy]. set (yoe := year_of_era doe) in *.
  set (doy := doe - (365 * yoe + yoe / 4 - yoe / 100)) in *.
  set (mp := (5 * doy + 2) / 153) in *.
  assert (Hmp : 0 <= mp <= 11) by (subst mp; Z.div_mod_to_equations; lia).
  cbn [month day year].
  assert (Hq : forall k, (yoe + era * 400 + k - k) / 400 = era ∧ (yoe + era * 400 + k - k) `mod` 400 = yoe).
  { intros k. replace (yoe + era * 400 + k - k) with (yoe + era * 400) by lia.
    rewrite Z.div_add, Z.mod_add, Z.div_small, Z.mod_small by lia. lia. }
  pose proof (Hq 1) as [Hq1 Hq2]. pose proof (Hq 0) as [Hq3 Hq4].
  replace (yoe + era * 400 + 0 - 0) with (yoe + era * 400 + 0) in * by lia.
  destruct (Z.ltb_spec mp 10).
  - destruct (Z.leb_spec (mp + 3) 2); [lia|]. rewrite Hq3, Hq4.
    replace (mp + 3 - 3) with mp by lia. subst doy. lia.
  - destruct (Z.leb_spec (mp - 9) 2); [|lia]. rewrite Hq1, Hq2.
    replace (mp - 9 + 9) with mp by lia. subst doy. lia.
Qed.

(** ** Reading a text back *)

Definition digit_value (c : ascii) : option Z :=
  let n := Z.of_nat (nat_of_ascii c) in if (48 <=? n) && (n <=? 57) then Some (n - 48) else None.
Fixpoint decimal (acc : Z) (l : list ascii) : option Z :=
  match l with
  | [] => Some acc
  | c :: l => match digit_value c with Some d => decimal (10 * acc + d) l | None => None end
  end.
(** A date exists when the calendar has it. *)
Definition valid_date (c : date) : bool :=
  let c' := civil_from_days (days_from_civil c) in
  (year c' =? year c) && (month c' =? month c) && (day c' =? day c).

(** [time.Parse(time.RFC3339, s)] of the texts in UTC without a fraction, the only ones that
    [RFC3339] writes. *)
Definition ParseRFC3339 (s : string) : option Z :=
  match String.list_ascii_of_string s with
  | [y1; y2; y3; y4; "-"; m1; m2; "-"; d1; d2; "T"; h1; h2; ":"; i1; i2; ":"; s1; s2; "Z"]%char =>
      match decimal 0 [y1; y2; y3; y4], decimal 0 [m1; m2], decimal 0 [d1; d2],
            decimal 0 [h1; h2], decimal 0 [i1; i2], decimal 0 [s1; s2] with
      | Some y, Some m, Some d, Some h, Some i, Some s =>
          if (1 <=? m) && (m <=? 12) && valid_date (mkDate y m d) && (h <? 24) && (i <? 60) && (s <? 60)
          then Some ((days_from_civil (mkDate y m d) * 86400 + h * 3600 + i * 60 + s) * second)
          else None
      | _, _, _, _, _, _ => None
      end
  | _ => None
  end.

(** [n] in [w] digits. *)
Definition padded (w : nat) (n : Z) : bool :=
  let l := String.list_ascii_of_string (pad w n) in
  (length l =? w)%nat && bool_decide (decimal 0 l = Some n).
Lemma padded_2 n : 0 <= n < 100 → padded 2 n = true.
Proof.
  intros Hn. assert (Ha : forallb (padded 2) (seqZ 0 100) = true) by by vm_compute.
  rewrite forallb_forall in Ha. apply Ha, list_elem_of_In, elem_of_seqZ. lia.
Qed.
Lemma padded_4 n : 0 <= n < 10000 → padded 4 n = true.
Proof.
  intros Hn. assert (Ha : forallb (padded 4) (seqZ 0 10000) = true) by by vm_compute.
  rewrite forallb_forall in Ha. apply Ha, list_elem_of_In, elem_of_seqZ. lia.
Qed.
Lemma pad_2 n : 0 <= n < 100 → ∃ a b, String.list_ascii_of_string (pad 2 n) = [a; b] ∧ decimal 0 [a; b] = Some n.
Proof.
  intros [Hl Hd%bool_decide_eq_true]%padded_2%andb_true_iff. apply Nat.eqb_eq in Hl.
  destruct (String.list_ascii_of_string _) as [|a [|b [|]]]; try done. eauto.
Qed.
Lemma pad_4 n : 0 <= n < 10000 →
  ∃ a b c d, String.list_ascii_of_string (pad 4 n) = [a; b; c; d] ∧ decimal 0 [a; b; c; d] = Some n.
Proof.
  intros [Hl Hd%bool_decide_eq_true]%padded_4%andb_true_iff. apply Nat.eqb_eq in Hl.
  destruct (String.list_ascii_of_string _) as [|a [|b [|c [|d [|]]]]]; try done. eauto 6.
Qed.
Lemma list_ascii_app s t : String.list_ascii_of_string (s +:+ t) = (String.list_ascii_of_string s ++ String.list_ascii_of_string t)%list.
Proof. induction s as [|c s IH]; [done|]. change (String c s +:+ t) with (String c (s +:+ t)). cbn. by rewrite IH. Qed.

(** From 1970 to the end of the year 9998. *)
Definition printable (t : Z) : Prop := 0 <= t < 253370764800 * second.

Lemma civil_bounds days : 0 <= days < 2932532 →
  let c := civil_from_days days in 0 <= year c < 10000 ∧ 1 <= month c <= 12 ∧ 0 <= day c < 100.
Proof.
  intros H. unfold civil_from_days. cbv zeta. cbn [year month day].
  pose proof (Z.mod_pos_bound (days + 719468) 146097 ltac:(lia)) as Hb.
  pose proof (Z.div_mod (days + 719468) 146097 ltac:(lia)) as Hd.
  set (era := (days + 719468) / 146097) in *. set (doe := (days + 719468) `mod` 146097) in *.
  destruct (year_of_era_spec doe Hb) as [Hy Hdoy].
  assert (Hlast : era = 24 → year_of_era doe <= 398).
  { intros He. unfold year_of_era. assert (doe < 145672) by lia. Z.div_mod_to_equations. lia. }
  set (yoe := year_of_era doe) in *.
  set (doy := doe - (365 * yoe + yoe / 4 - yoe / 100)) in *.
  assert (0 <= (5 * doy + 2) / 153 <= 11) by (Z.div_mod_to_equations; lia).
  assert (0 <= doy - (153 * ((5 * doy + 2) / 153) + 2) / 5 < 99) by (Z.div_mod_to_equations; lia).
  set (mp := (5 * doy + 2) / 153) in *. assert (4 <= era <= 24) by lia.
  destruct (mp <? 10) eqn:E1; destruct (_ <=? 2) eqn:E2; lia.
Qed.

Theorem rfc3339_roundtrip t : printable t → ParseRFC3339 (RFC3339 t) = Some (t / second * second).
Proof.
  intros Ht. assert (Hs : 0 <= t / second < 253370764800) by (unfold printable, second in *; Z.div_mod_to_equations; lia).
  set (s := t / second) in *. destruct (civil_bounds (s / 86400)) as (Hy & Hm & Hd); [Z.div_mod_to_equations; lia|].
  assert (Hr : 0 <= s `mod` 86400 < 86400) by (apply Z.mod_pos_bound; lia). 
  unfold RFC3339, seconds_text. fold s. set (c := civil_from_days (s / 86400)) in *. set (r := s `mod` 86400) in *.
  destruct (pad_4 (year c)) as (y1 & y2 & y3 & y4 & Ey & Dy); [lia|].
  destruct (pad_2 (month c)) as (m1 & m2 & Em & Dm); [lia|]. destruct (pad_2 (day c)) as (d1 & d2 & Ed & Dd); [lia|].
  destruct (pad_2 (r / 3600)) as (h1 & h2 & Eh & Dh); [Z.div_mod_to_equations; lia|].
  destruct (pad_2 ((r / 60) `mod` 60)) as (i1 & i2 & Ei & Di); [Z.div_mod_to_equations; lia|].
  destruct (pad_2 (r `mod` 60)) as (s1 & s2 & Es & Ds); [Z.div_mod_to_equations; lia|].
  unfold ParseRFC3339. rewrite !list_ascii_app, Ey, Em, Ed, Eh, Ei, Es.
  cbn [String.list_ascii_of_string app]. rewrite Dy, Dm, Dd, Dh, Di, Ds.
  assert (Hc : mkDate (year c) (month c) (day c) = c) by by destruct c. rewrite Hc.
  assert (Hdays : days_from_civil c = s / 86400) by apply civil_roundtrip.
  assert (Hv : valid_date c = true) by (unfold valid_date; rewrite Hdays; fold c; by rewrite !Z.eqb_refl).
  rewrite Hv, Hdays.
  replace (_ && _) with true by (symmetry; rewrite !andb_true_iff; repeat split; (apply Z.leb_le || apply Z.ltb_lt); Z.div_mod_to_equations; lia).
  do 2 f_equal. subst r. Z.div_mod_to_equations. lia.
Qed.

End GoTime.
