(* ===== verification/Encoding.v ===== *)
(** * Base64 and JSON text

    The parts of [encoding/base64] and [encoding/json] the token code uses, as
    executable functions: [Base64.encode_raw] is [RawURLEncoding.EncodeToString] (or
    the standard alphabet), [decode_raw] its decoder, [decode_std]
    [StdEncoding.DecodeString]; [Json.quote] is how [json.Marshal] writes a string
    (HTML-safe, with the replacement of invalid UTF-8) and [GoStrings.itoa] an
    integer.  [unquote] and [read_int] read them back: they are the reference for
    the round trips. *)

From S2P Require Import Prelude GoStrings.
From Stdlib Require Import Ascii.
#[local] Open Scope string_scope.
#[local] Open Scope list_scope.
#[local] Open Scope Z_scope.

Module Base64.

Definition char_of (n : Z) : ascii := ascii_of_N (Z.to_N n).
Definition code (c : ascii) : Z := Z.of_N (N_of_ascii c).

Definition sextet_char (url : bool) (n : Z) : ascii :=
  char_of (if n <? 26 then 65 + n else if n <? 52 then 71 + n else if n <? 62 then n - 4
           else if n =? 62 then (if url then 45 else 43) else (if url then 95 else 47)).

Definition sextet_value (url : bool) (c : ascii) : option Z :=
  let n := code c in
  if (65 <=? n) && (n <=? 90) then Some (n - 65)
  else if (97 <=? n) && (n <=? 122) then Some (n - 71)
  else if (48 <=? n) && (n <=? 57) then Some (n + 4)
  else if n =? (if url then 45 else 43) then Some 62
  else if n =? (if url then 95 else 47) then Some 63
  else None.

(** Without padding. *)
Fixpoint encode_raw (url : bool) (l : bytes) : string :=
  let ch := sextet_char url in
  match l with
  | [] => EmptyString
  | [a] => String (ch (u8 a / 4)) (String (ch (u8 a `mod` 4 * 16)) EmptyString)
  | [a; b] =>
      String (ch (u8 a / 4)) (String (ch (u8 a `mod` 4 * 16 + u8 b / 16))
        (String (ch (u8 b `mod` 16 * 4)) EmptyString))
  | a :: b :: c :: l =>
      String (ch (u8 a / 4)) (String (ch (u8 a `mod` 4 * 16 + u8 b / 16))
        (String (ch (u8 b `mod` 16 * 4 + u8 c / 64)) (String (ch (u8 c `mod` 64)) (encode_raw url l))))
  end.

(** The decoders skip line breaks. *)
Fixpoint skip_newlines (s : string) : string :=
  match s with
  | EmptyString => EmptyString
  | String c s =>
      if (code c =? 10) || (code c =? 13) then skip_newlines s else String c (skip_newlines s)
  end.

Definition two (a b : Z) : byte := byte_of (a * 4 + b / 16).
Definition three (b c : Z) : byte := byte_of (b `mod` 16 * 16 + c / 4).
Definition four (c d : Z) : byte := byte_of (c `mod` 4 * 64 + d).

Fixpoint raw_groups (url : bool) (s : string) : option bytes :=
  let val := sextet_value url in
  match s with
  | EmptyString => Some []
  | String p (String q EmptyString) => a ← val p; b ← val q; Some [two a b]
  | String p (String q (String r EmptyString)) =>
      a ← val p; b ← val q; c ← val r; Some [two a b; three b c]
  | String p (String q (String r (String t s))) =>
      a ← val p; b ← val q; c ← val r; d ← val t; l ← raw_groups url s;
      Some (two a b :: three b c :: four c d :: l)
  | _ => None
  end.
Definition decode_raw (url : bool) (s : string) : option bytes := raw_groups url (skip_newlines s).

Definition pad_char : ascii := "=".
Fixpoint std_groups (s : string) : option bytes :=
  let val := sextet_value false in
  match s with
  | EmptyString => Some []
  | String p (String q (String r (String t s))) =>
      if Ascii.eqb t pad_char then
        match s with
        | EmptyString =>
            if Ascii.eqb r pad_char then a ← val p; b ← val q; Some [two a b]
            else a ← val p; b ← val q; c ← val r; Some [two a b; three b c]
        | _ => None
        end
      else
        a ← val p; b ← val q; c ← val r; d ← val t; l ← std_groups s;
        Some (two a b :: three b c :: four c d :: l)
  | _ => None
  end.
Definition decode_std (s : string) : option bytes := std_groups (skip_newlines s).

(** ** Lemmas *)

Lemma triples_ind (P : bytes → Prop) :
  P [] → (∀ a, P [a]) → (∀ a b, P [a; b]) → (∀ a b c l, P l → P (a :: b :: c :: l)) → ∀ l, P l.
Proof. intros H0 H1 H2 H3. fix IH 1. intros [|a [|b [|c l]]]; [done..|]. apply H3, IH. Qed.

Lemma code_char_of n : 0 <= n < 256 → code (char_of n) = n.
Proof. intros H. unfold code, char_of. rewrite N_ascii_embedding; lia. Qed.

Lemma sextet_roundtrip url n : 0 <= n < 64 →
  sextet_value url (sextet_char url n) = Some n
  ∧ code (sextet_char url n) ≠ 10 ∧ code (sextet_char url n) ≠ 13 ∧ code (sextet_char url n) ≠ 46.
Proof.
  intros H.
  assert (forallb (λ i, let n := Z.of_nat i in let c := sextet_char url n in
    bool_decide (sextet_value url c = Some n) && negb (code c =? 10) && negb (code c =? 13)
    && negb (code c =? 46)) (seq 0 64) = true) as Hall by (destruct url; vm_compute; reflexivity).
  rewrite forallb_forall in Hall. specialize (Hall (Z.to_nat n)).
  rewrite Z2Nat.id in Hall by lia. cbv zeta in Hall.
  assert (In (Z.to_nat n) (seq 0 64)) as Hin by (apply in_seq; lia). apply Hall in Hin.
  apply andb_prop in Hin as [Hin H4]. apply andb_prop in Hin as [Hin H3]. apply andb_prop in Hin as [H1 H2].
  apply bool_decide_eq_true in H1. apply negb_true_iff in H2, H3, H4.
  apply Z.eqb_neq in H2, H3, H4. done.
Qed.

Lemma sextet_value_char url n : 0 <= n < 64 → sextet_value url (sextet_char url n) = Some n.
Proof. apply sextet_roundtrip. Qed.

(** The sextets of one, two and three bytes, and the bytes they give back. *)
Lemma sextets a b c :
  (0 <= u8 a / 4 < 64) ∧ (0 <= u8 a `mod` 4 * 16 < 64) ∧ (0 <= u8 a `mod` 4 * 16 + u8 b / 16 < 64)
  ∧ (0 <= u8 b `mod` 16 * 4 < 64) ∧ (0 <= u8 b `mod` 16 * 4 + u8 c / 64 < 64) ∧ (0 <= u8 c `mod` 64 < 64).
Proof.
  pose proof (u8_range a). pose proof (u8_range b). pose proof (u8_range c).
  assert (u8 a / 4 < 64) by (apply Z.div_lt_upper_bound; lia).
  assert (u8 b / 16 < 16) by (apply Z.div_lt_upper_bound; lia).
  assert (u8 c / 64 < 4) by (apply Z.div_lt_upper_bound; lia).
  assert (0 <= u8 a / 4) by (apply Z.div_pos; lia).
  assert (0 <= u8 b / 16) by (apply Z.div_pos; lia).
  assert (0 <= u8 c / 64) by (apply Z.div_pos; lia).
  pose proof (Z.mod_pos_bound (u8 a) 4). pose proof (Z.mod_pos_bound (u8 b) 16).
  pose proof (Z.mod_pos_bound (u8 c) 64). lia.
Qed.

Lemma two_sextets a x : 0 <= x < 16 → two (u8 a / 4) (u8 a `mod` 4 * 16 + x) = a.
Proof.
  intros Hx. unfold two. rewrite Z.div_add_l, (Z.div_small x) by lia.
  rewrite <- (byte_of_u8 a) at 3. f_equal. pose proof (Z.div_mod (u8 a) 4). lia.
Qed.
Lemma three_sextets b x y : 0 <= x < 4 → 0 <= y →
  three (y * 16 + u8 b / 16) (u8 b `mod` 16 * 4 + x) = b.
Proof.
  intros Hx Hy. pose proof (u8_range b). unfold three. rewrite Z.div_add_l, (Z.div_small x) by lia.
  rewrite (Z.add_comm (y * 16)), Z_mod_plus_full, (Z.mod_small (u8 b / 16)).
  - rewrite <- (byte_of_u8 b) at 3. f_equal. pose proof (Z.div_mod (u8 b) 16). lia.
  - split; [apply Z.div_pos; lia|apply Z.div_lt_upper_bound; lia].
Qed.
Lemma four_sextets c y : 0 <= y → four (y * 4 + u8 c / 64) (u8 c `mod` 64) = c.
Proof.
  intros Hy. pose proof (u8_range c). unfold four.
  rewrite (Z.add_comm (y * 4)), Z_mod_plus_full, (Z.mod_small (u8 c / 64)).
  - rewrite <- (byte_of_u8 c) at 3. f_equal. pose proof (Z.div_mod (u8 c) 64). lia.
  - split; [apply Z.div_pos; lia|apply Z.div_lt_upper_bound; lia].
Qed.

(** Every character of an encoding is in the alphabet. *)
Lemma encode_raw_chars url l c :
  c ∈ String.list_ascii_of_string (encode_raw url l) → ∃ n, 0 <= n < 64 ∧ c = sextet_char url n.
Proof.
  induction l as [|a|a b|a b d l IH] using triples_ind; cbn [encode_raw String.list_ascii_of_string].
  - intros Hin. by apply elem_of_nil in Hin.
  - destruct (sextets a a a) as (? & ? & ? & ? & ? & ?). intros Hin.
    repeat (apply elem_of_cons in Hin as [->|Hin]; [eexists; split; [|reflexivity]; assumption|]). by apply elem_of_nil in Hin.
  - destruct (sextets a b b) as (? & ? & ? & ? & ? & ?). intros Hin.
    repeat (apply elem_of_cons in Hin as [->|Hin]; [eexists; split; [|reflexivity]; assumption|]). by apply elem_of_nil in Hin.
  - destruct (sextets a b d) as (? & ? & ? & ? & ? & ?). intros Hin.
    do 4 (apply elem_of_cons in Hin as [->|Hin]; [eexists; split; [|reflexivity]; assumption|]). by apply IH.
Qed.

Lemma skip_newlines_id s :
  (∀ c, c ∈ String.list_ascii_of_string s → code c ≠ 10 ∧ code c ≠ 13) → skip_newlines s = s.
Proof.
  induction s as [|c s IH]; [done|]. cbn [String.list_ascii_of_string skip_newlines]. intros H.
  destruct (H c) as [H1 H2]; [by apply elem_of_cons; left|].
  apply Z.eqb_neq in H1, H2. rewrite H1, H2. cbn [orb]. f_equal. apply IH.
  intros d Hd. apply H. by apply elem_of_cons; right.
Qed.

Lemma skip_newlines_encode url l : skip_newlines (encode_raw url l) = encode_raw url l.
Proof.
  apply skip_newlines_id. intros c (n & Hn & ->)%encode_raw_chars.
  by destruct (sextet_roundtrip url n Hn) as (_ & ? & ? & _).
Qed.

Lemma raw_groups_encode url l : raw_groups url (encode_raw url l) = Some l.
Proof.
  induction l as [|a|a b|a b d l IH] using triples_ind; cbn [encode_raw raw_groups]; [done|..].
  - destruct (sextets a a a) as (? & ? & ? & ? & ? & ?). rewrite !sextet_value_char by done.
    cbn [mbind option_bind]. rewrite <- (Z.add_0_r (_ * 16)). by rewrite two_sextets.
  - destruct (sextets a b b) as (? & ? & ? & ? & ? & ?). rewrite !sextet_value_char by done.
    cbn [mbind option_bind]. pose proof (Hex.nibbles b). pose proof (Z.mod_pos_bound (u8 a) 4).
    rewrite two_sextets by lia. rewrite <- (Z.add_0_r (u8 b `mod` 16 * 4)).
    by rewrite three_sextets by lia.
  - destruct (sextets a b d) as (? & ? & ? & ? & ? & ?). rewrite !sextet_value_char by done.
    cbn [mbind option_bind]. rewrite IH. cbn [mbind option_bind]. pose proof (Hex.nibbles b).
    pose proof (Z.mod_pos_bound (u8 a) 4). pose proof (u8_range d).
    rewrite two_sextets by lia. rewrite three_sextets, four_sextets; try lia; [done|].
    split; [apply Z.div_pos; lia|apply Z.div_lt_upper_bound; lia].
Qed.

Lemma decode_encode_raw url l : decode_raw url (encode_raw url l) = Some l.
Proof. unfold decode_raw. by rewrite skip_newlines_encode, raw_groups_encode. Qed.

(** An encoding has no dot. *)
Lemma encode_raw_nodot url l : "."%char ∉ String.list_ascii_of_string (encode_raw url l).
Proof.
  intros (n & Hn & E)%encode_raw_chars. destruct (sextet_roundtrip url n Hn) as (_ & _ & _ & Hc).
  apply Hc. by rewrite <- E.
Qed.

End Base64.

(** ** JSON text *)

Module Json.
Import Base64 GoStrings.

Definition dq : ascii := char_of 34.
Definition bs : ascii := char_of 92.
Definition hex_char (n : Z) : ascii := Hex.digit n.
Definition u_escape (a b c d : Z) : string :=
  String bs (String "u" (String (hex_char a) (String (hex_char b) (String (hex_char c)
    (String (hex_char d) EmptyString))))).
Definition short_escape (c : ascii) : string := String bs (String c EmptyString).

(** A single-byte character in a JSON string; the HTML characters are escaped too. *)
Definition quote_char (c : ascii) : string :=
  let n := code c in
  if (n =? 34) || (n =? 92) then short_escape c
  else if n =? 8 then short_escape "b"
  else if n =? 12 then short_escape "f"
  else if n =? 10 then short_escape "n"
  else if n =? 13 then short_escape "r"
  else if n =? 9 then short_escape "t"
  else if (n <? 32) || (n =? 60) || (n =? 62) || (n =? 38) then u_escape 0 0 (n / 16) (n `mod` 16)
  else String c EmptyString.

Definition between (lo n hi : Z) : bool := (lo <=? n) && (n <=? hi).

(** The number of continuation bytes of the UTF-8 sequence that [s] starts with, its
    first byte being [c]; [None] if there is none. *)
Definition continuation (c : ascii) (s : string) : option nat :=
  let n := code c in
  let cont lo hi d := between lo (code d) hi in
  match s with
  | EmptyString => None
  | String d s =>
      if between 0xC2 n 0xDF then if cont 0x80 0xBF d then Some 1%nat else None
      else
        match s with
        | EmptyString => None
        | String e s =>
            let three := cont 0x80 0xBF e in
            if n =? 0xE0 then if cont 0xA0 0xBF d && three then Some 2%nat else None
            else if n =? 0xED then if cont 0x80 0x9F d && three then Some 2%nat else None
            else if between 0xE1 n 0xEF then if cont 0x80 0xBF d && three then Some 2%nat else None
            else
              match s with
              | EmptyString => None
              | String f _ =>
                  let four := three && cont 0x80 0xBF f in
                  if n =? 0xF0 then if cont 0x90 0xBF d && four then Some 3%nat else None
                  else if between 0xF1 n 0xF3 then if cont 0x80 0xBF d && four then Some 3%nat else None
                  else if n =? 0xF4 then if cont 0x80 0x8F d && four then Some 3%nat else None
                  else None
              end
        end
  end.

(** U+2028 and U+2029 are E2 80 A8 and E2 80 A9. *)
Definition is_line_sep (c d e : ascii) : bool :=
  (code c =? 0xE2) && (code d =? 0x80) && ((code e =? 0xA8) || (code e =? 0xA9)).

(** [k] bytes of a sequence that was found valid are copied. *)
Fixpoint quote_body (k : nat) (s : string) : string :=
  match s with
  | EmptyString => EmptyString
  | String c s =>
      match k with
      | S k => String c (quote_body k s)
      | O =>
          if code c <? 128 then quote_char c +:+ quote_body 0 s
          else
            match continuation c s with
            | None => u_escape 15 15 15 13 +:+ quote_body 0 s
            | Some k =>
                match s with
                | String d (String e s') =>
                    if is_line_sep c d e then u_escape 2 0 2 (code e `mod` 16) +:+ quote_body 0 s'
                    else String c (quote_body k s)
                | _ => String c (quote_body k s)
                end
            end
      end
  end.

Definition quote (s : string) : string := String dq (quote_body 0 s +:+ String dq EmptyString).

(** Valid UTF-8. *)
Fixpoint valid_from (k : nat) (s : string) : bool :=
  match s with
  | EmptyString => (k =? 0)%nat
  | String c s =>
      match k with
      | S k => (128 <=? code c) && valid_from k s
      | O =>
          if code c <? 128 then valid_from 0 s
          else match continuation c s with Some k => valid_from k s | None => false end
      end
  end.
Definition utf8 (s : string) : bool := valid_from 0 s.

Lemma utf8_hex rnd : utf8 (Hex.encode rnd) = true.
Proof.
  unfold utf8. induction rnd as [|b l IH]; [done|]. cbn [Hex.encode valid_from].
  assert (∀ n, 0 <= n < 16 → (code (Hex.digit n) <? 128) = true) as Hd.
  { intros n Hn. unfold Hex.digit. destruct (n <? 10); change (ascii_of_N (Z.to_N ?x)) with (char_of x);
      rewrite code_char_of by lia; apply Z.ltb_lt; lia. }
  destruct (Hex.nibbles b). rewrite !Hd by done. exact IH.
Qed.

(** ** Reading *)

(** The UTF-8 text of a code point below 0x10000. *)
Definition rune (n : Z) : string :=
  if n <? 128 then String (char_of n) EmptyString
  else if n <? 2048 then
    String (char_of (0xC0 + n / 64)) (String (char_of (0x80 + n `mod` 64)) EmptyString)
  else
    String (char_of (0xE0 + n / 4096)) (String (char_of (0x80 + n / 64 `mod` 64))
      (String (char_of (0x80 + n `mod` 64)) EmptyString)).

Definition unescape_char (c : ascii) : option ascii :=
  let n := code c in
  if (n =? 34) || (n =? 92) || (n =? 47) then Some c
  else if n =? 98 then Some (char_of 8)
  else if n =? 102 then Some (char_of 12)
  else if n =? 110 then Some (char_of 10)
  else if n =? 114 then Some (char_of 13)
  else if n =? 116 then Some (char_of 9)
  else None.

Definition prepend (p : string) (r : string * string) : string * string := (p +:+ fst r, snd r).

(** The contents of a string up to its closing quote, and the text after it. *)
Fixpoint unquote_body (s : string) : option (string * string) :=
  match s with
  | EmptyString => None
  | String c s =>
      if code c =? 34 then Some (EmptyString, s)
      else if code c =? 92 then
        match s with
        | String "u" (String p (String q (String r (String t s)))) =>
            a ← Hex.value p; b ← Hex.value q; x ← Hex.value r; y ← Hex.value t;
            prepend (rune (((a * 16 + b) * 16 + x) * 16 + y)) <$> unquote_body s
        | String d s =>
            e ← unescape_char d; prepend (String e EmptyString) <$> unquote_body s
        | EmptyString => None
        end
      else if code c <? 32 then None
      else prepend (String c EmptyString) <$> unquote_body s
  end.

Definition unquote (s : string) : option (string * string) :=
  match s with
  | String c s => if code c =? 34 then unquote_body s else None
  | EmptyString => None
  end.

(** Strips a literal. *)
Fixpoint expect (lit s : string) : option string :=
  match lit, s with
  | EmptyString, _ => Some s
  | String c lit, String d s => if Ascii.eqb c d then expect lit s else None
  | _, _ => None
  end.

Definition is_digit (c : ascii) : bool := between 48 (code c) 57.
Fixpoint read_digits (acc : Z) (s : string) : Z * string :=
  match s with
  | String c s' => if is_digit c then read_digits (10 * acc + (code c - 48)) s' else (acc, s)
  | EmptyString => (acc, s)
  end.
Definition starts_digit (s : string) : bool :=
  match s with String c _ => is_digit c | EmptyString => false end.
Definition read_nat (s : string) : option (Z * string) :=
  if starts_digit s then Some (read_digits 0 s) else None.
Definition read_int (s : string) : option (Z * string) :=
  match s with
  | String "-" s => prod_map Z.opp id <$> read_nat s
  | _ => read_nat s
  end.

(** ** Round trips *)

Lemma sapp_assoc (a b c : string) : (a +:+ b) +:+ c = a +:+ (b +:+ c).
Proof. induction a as [|x a IH]; [done|exact (f_equal (String x) IH)]. Qed.

Lemma unquote_plain c t : (32 <=? code c) = true → code c ≠ 34 → code c ≠ 92 →
  unquote_body (String c t) = prepend (String c EmptyString) <$> unquote_body t.
Proof.
  intros H1 H2 H3. cbn [unquote_body]. apply Z.eqb_neq in H2, H3. rewrite H2, H3.
  apply Z.leb_le in H1. by replace (code c <? 32) with false by (symmetry; apply Z.ltb_ge; lia).
Qed.

Lemma unquote_quote_char c t : (code c <? 128) = true →
  unquote_body (quote_char c +:+ t) = prepend (String c EmptyString) <$> unquote_body t.
Proof. destruct c as [[] [] [] [] [] [] [] []]; try done; intros _; reflexivity. Qed.

Lemma prepend_body c s t r :
  unquote_body t = Some (s, r) →
  prepend (String c EmptyString) <$> unquote_body t = Some (String c s, r).
Proof. by intros ->. Qed.

Lemma line_sep_chars c d e : is_line_sep c d e = true →
  c = char_of 0xE2 ∧ d = char_of 0x80 ∧ (e = char_of 0xA8 ∨ e = char_of 0xA9).
Proof.
  unfold is_line_sep. intros [[H1 H2]%andb_prop H3]%andb_prop.
  assert (∀ c n, (code c =? n) = true → c = char_of n) as Hc.
  { intros x n <-%Z.eqb_eq. unfold char_of, code. by rewrite N2Z.id, ascii_N_embedding. }
  apply orb_prop in H3 as [H3|H3]; auto 10.
Qed.

Lemma high_not_special c : (code c <? 128) = false →
  (32 <=? code c) = true ∧ code c ≠ 34 ∧ code c ≠ 92.
Proof. intros H%Z.ltb_ge. split; [apply Z.leb_le; lia|lia]. Qed.

(** Reading a quoted string gives it back, with the rest of the text. *)
Lemma unquote_quote_body n : ∀ k s rest,
  (String.length s <= n)%nat → valid_from k s = true →
  unquote_body (quote_body k s +:+ String dq rest) = Some (s, rest).
Proof.
  induction n as [|n IH]; intros k s rest Hl Hv; (destruct s as [|c s]; [reflexivity|]); [cbn in Hl; lia|].
  cbn [String.length] in Hl. cbn [quote_body]. cbn [valid_from] in Hv. destruct k as [|k].
  - destruct (code c <? 128) eqn:E.
    + rewrite sapp_assoc, unquote_quote_char by done. apply prepend_body, IH; [lia|done].
    + destruct (high_not_special c E) as (H1 & H2 & H3).
      destruct (continuation c s) as [k|] eqn:Hk; [|done].
      assert (unquote_body (String c (quote_body k s) +:+ String dq rest) = Some (String c s, rest)) as Hcopy.
      { change (String c (quote_body k s) +:+ String dq rest)
          with (String c (quote_body k s +:+ String dq rest)).
        rewrite unquote_plain by done. apply prepend_body, IH; [lia|done]. }
      destruct s as [|d [|e s']]; [exact Hcopy..|].
      destruct (is_line_sep c d e) eqn:Hls; [|exact Hcopy].
      apply line_sep_chars in Hls as (-> & -> & He). 
      rewrite sapp_assoc. assert (k = 2%nat) as -> by (destruct He as [-> | ->]; vm_compute in Hk; congruence).
      assert (valid_from 0 s' = true) as Hv' by (destruct He as [-> | ->]; exact Hv).
      cbn [String.length] in Hl. pose proof (IH 0%nat s' rest ltac:(lia) Hv') as Ht.
      destruct He as [-> | ->].
      * change (prepend (rune 0x2028) <$> unquote_body (quote_body 0 s' +:+ String dq rest)
          = Some (String (char_of 226) (String (char_of 128) (String (char_of 168) s')), rest)).
        by rewrite Ht.
      * change (prepend (rune 0x2029) <$> unquote_body (quote_body 0 s' +:+ String dq rest)
          = Some (String (char_of 226) (String (char_of 128) (String (char_of 169) s')), rest)).
        by rewrite Ht.
  - apply andb_prop in Hv as [Hc Hv].
    destruct (high_not_special c) as (H1 & H2 & H3); [apply Z.ltb_ge, Z.leb_le, Hc|].
    change (String c (quote_body k s) +:+ String dq rest)
      with (String c (quote_body k s +:+ String dq rest)).
    rewrite unquote_plain by done. apply prepend_body, IH; [lia|done].
Qed.

Lemma unquote_quote s rest : utf8 s = true → unquote (quote s +:+ rest) = Some (s, rest).
Proof.
  intros H. unfold quote.
  change (unquote_body ((quote_body 0 s +:+ String dq EmptyString) +:+ rest) = Some (s, rest)).
  rewrite sapp_assoc. by apply (unquote_quote_body (String.length s)).
Qed.

Lemma expect_app lit s : expect lit (lit +:+ s) = Some s.
Proof.
  induction lit as [|c lit IH]; [by destruct s|].
  change (String c lit +:+ s) with (String c (lit +:+ s)). cbn [expect].
  by rewrite Ascii.eqb_refl.
Qed.

Lemma read_digits_go n s :
  read_digits 0 (pretty_N_go n s) = read_digits (Z.of_N n) s.
Proof.
  revert s. induction (N.lt_wf_0 n) as [n _ IH]; intros s.
  destruct (decide (n = 0)%N) as [->|Hn]; [by rewrite pretty_N_go_0|].
  assert (0 < n)%N as Hp by lia. rewrite pretty_N_go_step by done.
  rewrite IH by (apply N.div_lt; lia). cbn [read_digits].
  pose proof (N.mod_lt n 10) as Hm.
  assert (∀ d, (d < 10)%N → is_digit (pretty_N_char d) = true ∧ code (pretty_N_char d) - 48 = Z.of_N d) as Hd.
  { intros d Hd. assert (d = 0 ∨ d = 1 ∨ d = 2 ∨ d = 3 ∨ d = 4 ∨ d = 5 ∨ d = 6 ∨ d = 7 ∨ d = 8 ∨ d = 9)%N
      as Hc by lia. repeat (destruct Hc as [->|Hc]; [by split|]). subst. by split. }
  destruct (Hd (n `mod` 10)%N) as [-> ->]; [lia|]. f_equal.
  rewrite N2Z.inj_div, N2Z.inj_mod. pose proof (Z.div_mod (Z.of_N n) 10). lia.
Qed.

Lemma pretty_N_go_app n s rest : pretty_N_go n s +:+ rest = pretty_N_go n (s +:+ rest).
Proof.
  revert s. induction (N.lt_wf_0 n) as [n _ IH]; intros s.
  destruct (decide (n = 0)%N) as [->|Hn]; [by rewrite !pretty_N_go_0|].
  rewrite !(pretty_N_go_step n) by lia. by rewrite IH by (apply N.div_lt; lia).
Qed.

Lemma pretty_N_go_starts n s : (0 < n)%N ∨ starts_digit s = true → starts_digit (pretty_N_go n s) = true.
Proof.
  revert s. induction (N.lt_wf_0 n) as [n _ IH]; intros s Hs.
  destruct (decide (n = 0)%N) as [->|Hn]; [rewrite pretty_N_go_0; destruct Hs; [lia|done]|].
  rewrite pretty_N_go_step by lia. apply IH; [apply N.div_lt; lia|]. right. cbn [starts_digit].
  pose proof (N.mod_lt n 10) as Hm. unfold pretty_N_char. by repeat case_match.
Qed.

Lemma read_digits_stop acc rest : starts_digit rest = false → read_digits acc rest = (acc, rest).
Proof. destruct rest as [|c rest]; [done|]. cbn. by intros ->. Qed.

Lemma read_nat_pos p rest : starts_digit rest = false →
  read_nat (pretty (Npos p) +:+ rest) = Some (Zpos p, rest).
Proof.
  intros Hr. unfold pretty, pretty_N. rewrite decide_False by done. rewrite pretty_N_go_app. unfold read_nat.
  rewrite pretty_N_go_starts by (left; lia). by rewrite read_digits_go, read_digits_stop.
Qed.

Lemma read_int_nat s : starts_digit s = true → read_int s = read_nat s.
Proof. destruct s as [|c s]; [done|]. by destruct c as [[] [] [] [] [] [] [] []]. Qed.

Lemma read_int_itoa n rest : starts_digit rest = false → read_int (itoa n +:+ rest) = Some (n, rest).
Proof.
  intros Hr. unfold itoa. destruct n as [|p|p].
  - change (read_int (String "0" rest) = Some (0, rest)). rewrite read_int_nat by done.
    unfold read_nat. cbn [starts_digit read_digits]. by rewrite read_digits_stop.
  - rewrite read_int_nat; [by apply read_nat_pos|].
    change (pretty (Zpos p)) with (pretty (Npos p)). unfold pretty, pretty_N.
    rewrite decide_False, pretty_N_go_app by done. apply pretty_N_go_starts. left. lia.
  - change (pretty (Zneg p)) with ("-" +:+ pretty (Npos p)).
    change (prod_map Z.opp id <$> read_nat (pretty (Npos p) +:+ rest) = Some (Zneg p, rest)).
    by rewrite read_nat_pos.
Qed.

End Json.
