(* ===== verification/JsonValue.v ===== *)
(** * JSON values as [encoding/json] decodes them

    A value of a JSON text, and how the decoder fills Go variables from it: names of struct
    fields match without regard to case, a null leaves a variable as it is, a value of a
    wrong kind is an error, and of a repeated name the last value counts.  A number is a
    fraction.  [as_map] is the decoding into a [map[string]interface{}]. *)

From S2P Require Import Prelude GoStrings.
#[local] Open Scope string_scope.
#[local] Open Scope nat_scope.
#[local] Open Scope list_scope.

Module JsonValue.
Import GoStrings.

(** ** Decoding *)

Inductive json :=
| JNull
| JBool (b : bool)
| JNumber (num : Z) (den : positive)
| JString (s : string)
| JArray (l : list json)
| JObject (l : list (string * json)).

Definition decode_string (old : string) (j : json) : option string :=
  match j with JString s => Some s | JNull => Some old | _ => None end.
Definition decode_bool (old : bool) (j : json) : option bool :=
  match j with JBool b => Some b | JNull => Some old | _ => None end.
Definition decode_list {A} (f : json → option A) (j : json) : option (list A) :=
  match j with JArray l => mapM f l | JNull => Some [] | _ => None end.

(** [f] sets the field of a name in lower case; unknown names are skipped by it. *)
Definition decode_fields {A} (f : string → json → A → option A) (old : A) (j : json) : option A :=
  match j with
  | JNull => Some old
  | JObject l => foldl (λ acc kv, acc ≫= f (ToLower (fst kv)) (snd kv)) (Some old) l
  | _ => None
  end.

(** The members of an object by name. *)
Definition decode_object (j : json) : option (gmap string json) :=
  match j with
  | JNull => Some ∅
  | JObject l => Some (foldl (λ m kv, <[fst kv := snd kv]> m) ∅ l)
  | _ => None
  end.

(** [out := map[string]interface{}{}; _ = json.Unmarshal(raw, &out)], [None] an empty raw
    message. *)
Definition as_map (raw : option json) : gmap string json := default ∅ (raw ≫= decode_object).

(** [int(f)] of a decoded number, within the range of the type. *)
Definition truncate (num : Z) (den : positive) : Z := Z.quot num (Z.pos den).

End JsonValue.
