(* ===== verification/Sql.v ===== *)
(** * What the stores use of the database

    A table is a map from its primary key to rows; a statement is its effect on the map,
    with an outcome of its own that may be a failure.  This file has what the stores
    share: the width of a [VARCHAR] column, the helper that stores an empty string as a
    null, and a page of an ordered query.

    A query orders the rows it selects by a key and leaves rows with equal keys in the
    order in which the database finds them ([range_order]). *)

From S2P Require Import Prelude GoStrings Encoding.
From stdpp Require Import sorting.
#[local] Open Scope string_scope.
#[local] Open Scope nat_scope.
#[local] Open Scope list_scope.

Module Sql.

(** [VARCHAR(n)] on valid UTF-8: characters are the bytes that are not continuations. *)
Definition char_length (s : string) : nat :=
  length (List.filter (λ c, negb (Json.between 128 (Base64.code c) 191)) (String.list_ascii_of_string s)).
Definition fits (n : nat) (s : string) : bool := char_length s <=? n.
Definition fits_opt (n : nat) (o : option string) : bool := fits n (default "" o).

Definition nilIfEmpty (s : string) : option string := if bool_decide (s = "") then None else Some s.

Lemma default_nilIfEmpty s : default "" (nilIfEmpty s) = s.
Proof. unfold nilIfEmpty. by case_bool_decide. Qed.

(** The rows that satisfy [p], with their keys. *)
Definition select {V} (ro : range_order) (p : string → V → bool) (m : gmap string V) : list (string * V) :=
  List.filter (λ kv, p (fst kv) (snd kv)) (range ro m).

Lemma elem_of_select {V} ro (p : string → V → bool) m k v :
  (k, v) ∈ select ro p m ↔ m !! k = Some v ∧ p k v = true.
Proof.
  unfold select. rewrite list_elem_of_In, filter_In, <- list_elem_of_In, elem_of_range. done.
Qed.

Lemma select_head {V} ro (p : string → V → bool) m :
  match head (select ro p m) with
  | Some (k, v) => m !! k = Some v ∧ p k v = true
  | None => ∀ k v, m !! k = Some v → p k v = false
  end.
Proof.
  destruct (select ro p m) as [|[k v] l] eqn:E; cbn.
  - intros k v Hk. destruct (p k v) eqn:Hp; [|done].
    assert (Hin : (k, v) ∈ select ro p m) by by apply elem_of_select. rewrite E in Hin. by apply elem_of_nil in Hin.
  - apply (elem_of_select ro). rewrite E. apply list_elem_of_here.
Qed.

(** [ORDER BY key DESC LIMIT limit OFFSET offset] *)
Definition newest {V} (key : V → Z) (rows : list (string * V)) : list (string * V) :=
  merge_sort (λ a b, (key (snd b) <=? key (snd a))%Z) rows.
Definition page {V} (key : V → Z) (limit offset : nat) (rows : list (string * V)) : list (string * V) :=
  take limit (drop offset (newest key rows)).

Lemma elem_of_page {V} (key : V → Z) n m l x : x ∈ page key n m l → x ∈ l.
Proof.
  unfold page, newest. intros Hin. set (k := merge_sort _ l) in Hin. assert (Hk : x ∈ k); [|unfold k in Hk; by rewrite merge_sort_Permutation in Hk].
  rewrite <- (take_drop m k). apply elem_of_app. right. rewrite <- (take_drop n (drop m k)). apply elem_of_app. by left.
Qed.

(** Whether a column of the rows has a value in some other row. *)
Definition taken {V} (f : V → bool) (m : gmap string V) (except : string) : bool :=
  existsb (λ kv, negb (bool_decide (fst kv = except)) && f (snd kv)) (map_to_list m).

Lemma taken_false {V} (f : V → bool) m except :
  taken f m except = false → ∀ k v, m !! k = Some v → k ≠ except → f v = false.
Proof.
  intros Ht k v Hk Hne. destruct (f v) eqn:Hf; [|done]. exfalso.
  assert (Hx : taken f m except = true); [|congruence].
  apply existsb_exists. exists (k, v). split; [by apply list_elem_of_In, elem_of_map_to_list|].
  cbn. by rewrite bool_decide_false.
Qed.

Lemma taken_true {V} (f : V → bool) m except :
  taken f m except = true → ∃ k v, m !! k = Some v ∧ k ≠ except ∧ f v = true.
Proof.
  intros ([k v] & Hin & [Hk%negb_true_iff%bool_decide_eq_false Hf]%andb_true_iff)%existsb_exists.
  exists k, v. by apply list_elem_of_In, elem_of_map_to_list in Hin.
Qed.

(** The first row of an ordered query. *)
Lemma merge_sort_head {A} (R : relation A) `{!RelDecision R, !Transitive R, !Total R} (l : list A) :
  match head (merge_sort R l) with
  | Some x => x ∈ l ∧ ∀ y, y ∈ l → R x y
  | None => l = []
  end.
Proof.
  pose proof (StronglySorted_merge_sort R l) as Hs. pose proof (merge_sort_Permutation R l) as Hp.
  destruct (merge_sort R l) as [|x k]; cbn; [by apply Permutation_nil_l in Hp|].
  split; [rewrite <- Hp; apply list_elem_of_here|]. intros y. rewrite <- Hp, elem_of_cons. inversion_clear Hs as [|? ? _ Hf].
  intros [->|Hy]; [|by eapply Forall_forall in Hf]. by destruct (total R x x).
Qed.

End Sql.
