(* ===== verification/NetMac.v ===== *)
(** * Hardware addresses ([net.ParseMAC] of the Go standard library)

    [dot1x.normalizeMAC] rests on [net.ParseMAC] and [HardwareAddr.String]; both
    are modelled as executable functions on the characters of the string (colon,
    hyphen and dotted forms; 6, 8 or 20 octets).  The main lemma is that printing
    is a right inverse of parsing, hence normalisation is idempotent. *)

From S2P Require Import Prelude GoStrings.
From Stdlib Require Import Ascii.

Module NetMac.

Definition colon : ascii := ":".
Definition hyphen : ascii := "-".
Definition dot : ascii := ".".
Definition nul : ascii := zero.

Definition chars (s : string) : list ascii := String.list_ascii_of_string s.
Definition of_chars (l : list ascii) : string := String.string_of_list_ascii l.

Definition char_at (l : list ascii) (i : nat) : ascii := default nul (l !! i).

(** Two hex digits, followed by [e] if anything follows. *)
Definition xtoi2 (s : list ascii) (e : ascii) : option byte :=
  if (2 <? length s) && negb (bool_decide (char_at s 2 = e)) then None
  else match s with
       | p :: q :: _ =>
           match Hex.value p, Hex.value q with
           | Some a, Some b => Some (byte_of (16 * a + b))
           | _, _ => None
           end
       | _ => None
       end.

(** The loop of the colon and hyphen forms. *)
Fixpoint octets (n : nat) (s : list ascii) (e : ascii) : option bytes :=
  match n with
  | O => Some []
  | S n => b ← xtoi2 s e; l ← octets n (drop 3 s) e; Some (b :: l)
  end.

(** The loop of the dotted form, two octets a turn. *)
Fixpoint words (n : nat) (s : list ascii) (e : ascii) : option bytes :=
  match n with
  | O => Some []
  | S n =>
      b ← xtoi2 (take 2 s) nul; c ← xtoi2 (drop 2 s) e;
      l ← words n (drop 5 s) e; Some (b :: c :: l)
  end.

Definition mac_size (n : nat) : bool := (n =? 6) || (n =? 8) || (n =? 20).

Definition parse_chars (s : list ascii) : option bytes :=
  let len := length s in
  if len <? 14 then None
  else if bool_decide (char_at s 2 = colon) || bool_decide (char_at s 2 = hyphen) then
    if negb ((len + 1) mod 3 =? 0) then None
    else
      let n := (len + 1) / 3 in
      if mac_size n then octets n s (char_at s 2) else None
  else if bool_decide (char_at s 4 = dot) then
    if negb ((len + 1) mod 5 =? 0) then None
    else
      let n := 2 * (len + 1) / 5 in
      if mac_size n then words (n / 2) s (char_at s 4) else None
  else None.

Definition ParseMAC (s : string) : option bytes := parse_chars (chars s).

Definition hex2 (b : byte) : list ascii := [Hex.digit (u8 b / 16); Hex.digit (u8 b `mod` 16)].

(** [HardwareAddr.String]. *)
Fixpoint print_chars (hw : bytes) : list ascii :=
  match hw with
  | [] => []
  | [b] => hex2 b
  | b :: hw => hex2 b ++ colon :: print_chars hw
  end.

Definition MacString (hw : bytes) : string := of_chars (print_chars hw).

Lemma xtoi2_hex2 b rest e :
  (∀ c l, rest = c :: l → c = e) → xtoi2 (hex2 b ++ rest) e = Some b.
Proof.
  intros Hr. unfold xtoi2, hex2. cbn [app length].
  destruct (Hex.nibbles b) as [H1 H2]. rewrite !Hex.value_digit by done.
  rewrite <- Z.div_mod, byte_of_u8 by done.
  destruct rest as [|c l]; [done|]. rewrite (Hr c l eq_refl).
  change (char_at _ 2) with e. by rewrite bool_decide_eq_true_2, andb_false_r.
Qed.

Lemma print_cons b c hw : print_chars (b :: c :: hw) = hex2 b ++ colon :: print_chars (c :: hw).
Proof. done. Qed.

Lemma octets_print hw : octets (length hw) (print_chars hw) colon = Some hw.
Proof.
  induction hw as [|b hw IH]; [done|]. destruct hw as [|c hw].
  - cbn [length octets print_chars]. rewrite <- (app_nil_r (hex2 b)), xtoi2_hex2 by done. done.
  - rewrite print_cons. change (length (b :: c :: hw)) with (S (length (c :: hw))).
    cbn [octets]. rewrite xtoi2_hex2 by congruence. cbn [mbind option_bind].
    change (drop 3 (hex2 b ++ colon :: print_chars (c :: hw))) with (print_chars (c :: hw)).
    by rewrite IH.
Qed.

Lemma print_length hw : hw ≠ [] → length (print_chars hw) + 1 = 3 * length hw.
Proof.
  induction hw as [|b hw IH]; [done|]. intros _. destruct hw as [|c hw]; [done|].
  rewrite print_cons. cbn [hex2 app length] in *. specialize (IH ltac:(done)). lia.
Qed.

Lemma mac_size_true n : mac_size n = true → n = 6 ∨ n = 8 ∨ n = 20.
Proof.
  unfold mac_size. intros H.
  destruct (Nat.eqb_spec n 6), (Nat.eqb_spec n 8), (Nat.eqb_spec n 20); naive_solver.
Qed.

Lemma parse_print_chars hw : mac_size (length hw) = true → parse_chars (print_chars hw) = Some hw.
Proof.
  intros Hn. pose proof (mac_size_true _ Hn) as Hm.
  assert (hw ≠ []) as Hne by (destruct hw; simpl in *; [lia|done]).
  pose proof (print_length hw Hne) as Hl. unfold parse_chars.
  rewrite (proj2 (Nat.ltb_ge _ 14)) by lia.
  assert (char_at (print_chars hw) 2 = colon) as ->
    by (destruct hw as [|b [|c hw]]; simpl in *; [lia..|done]).
  rewrite bool_decide_eq_true_2 by done. cbn [orb].
  rewrite Hl, (Nat.mul_comm 3), Nat.Div0.mod_mul, Nat.div_mul by done. cbn [Nat.eqb negb].
  rewrite Hn. apply octets_print.
Qed.

Lemma octets_length n s e l : octets n s e = Some l → length l = n.
Proof.
  revert s l. induction n as [|n IH]; intros s l; cbn [octets]; [by intros [= <-]|].
  destruct (xtoi2 s e); [|done]. cbn [mbind option_bind].
  destruct (octets n (drop 3 s) e) as [k|] eqn:E; [|done]. intros [= <-].
  simpl. f_equal. by eapply IH.
Qed.

Lemma words_length n s e l : words n s e = Some l → length l = 2 * n.
Proof.
  revert s l. induction n as [|n IH]; intros s l; cbn [words]; [by intros [= <-]|].
  destruct (xtoi2 (take 2 s) nul); [|done]. cbn [mbind option_bind].
  destruct (xtoi2 (drop 2 s) e); [|done]. cbn [mbind option_bind].
  destruct (words n (drop 5 s) e) as [k|] eqn:E; [|done]. intros [= <-].
  apply IH in E. simpl. lia.
Qed.

Lemma parse_size s hw : parse_chars s = Some hw → mac_size (length hw) = true.
Proof.
  unfold parse_chars. destruct (length s <? 14); [done|].
  destruct (_ || _).
  - destruct (negb _); [done|]. destruct (mac_size _) eqn:E; [|done].
    by intros ->%octets_length.
  - destruct (bool_decide _); [|done]. destruct (negb _); [done|].
    destruct (mac_size _) eqn:E; [|done]. intros ->%words_length.
    pose proof (mac_size_true _ E) as Hm.
    replace (2 * (2 * (length s + 1) / 5 / 2)) with (2 * (length s + 1) / 5); [done|].
    destruct Hm as [-> |[-> | ->]]; reflexivity.
Qed.

Lemma parse_print hw : mac_size (length hw) = true → ParseMAC (MacString hw) = Some hw.
Proof.
  intros H. unfold ParseMAC, MacString, chars, of_chars.
  rewrite String.list_ascii_of_string_of_list_ascii. by apply parse_print_chars.
Qed.

End NetMac.
