(* ===== verification/Md5.v ===== *)
(** * MD5 and HMAC-MD5

    The RADIUS code calls [crypto/md5] and [crypto/hmac] of the Go standard
    library.  Both are modelled here as executable functions on byte lists
    (RFC 1321 and RFC 2104), so that every packet the server emits can be
    computed; the test vectors at the end are those of the RFCs.  The lemmas
    other files use are the two digest lengths. *)

From S2P Require Import Prelude GoStrings.
#[local] Open Scope Z_scope.

Module Md5.

Definition add32 (a b : Z) : Z := wrap_u32 (a + b).
Definition rotl32 (x n : Z) : Z :=
  Z.lor (wrap_u32 (Z.shiftl x n)) (Z.shiftr x (32 - n)).
Definition not32 (x : Z) : Z := 0xffffffff - x.

(** [floor (2^32 * |sin (i + 1)|)], the table of RFC 1321. *)
Definition k_table : list Z :=
  [
   0xd76aa478; 0xe8c7b756; 0x242070db; 0xc1bdceee;
   0xf57c0faf; 0x4787c62a; 0xa8304613; 0xfd469501;
   0x698098d8; 0x8b44f7af; 0xffff5bb1; 0x895cd7be;
   0x6b901122; 0xfd987193; 0xa679438e; 0x49b40821;
   0xf61e2562; 0xc040b340; 0x265e5a51; 0xe9b6c7aa;
   0xd62f105d; 0x02441453; 0xd8a1e681; 0xe7d3fbc8;
   0x21e1cde6; 0xc33707d6; 0xf4d50d87; 0x455a14ed;
   0xa9e3e905; 0xfcefa3f8; 0x676f02d9; 0x8d2a4c8a;
   0xfffa3942; 0x8771f681; 0x6d9d6122; 0xfde5380c;
   0xa4beea44; 0x4bdecfa9; 0xf6bb4b60; 0xbebfbc70;
   0x289b7ec6; 0xeaa127fa; 0xd4ef3085; 0x04881d05;
   0xd9d4d039; 0xe6db99e5; 0x1fa27cf8; 0xc4ac5665;
   0xf4292244; 0x432aff97; 0xab9423a7; 0xfc93a039;
   0x655b59c3; 0x8f0ccc92; 0xffeff47d; 0x85845dd1;
   0x6fa87e4f; 0xfe2ce6e0; 0xa3014314; 0x4e0811a1;
   0xf7537e82; 0xbd3af235; 0x2ad7d2bb; 0xeb86d391].

Definition s_table : list Z :=
  [7; 12; 17; 22; 7; 12; 17; 22; 7; 12; 17; 22; 7; 12; 17; 22;
   5; 9; 14; 20; 5; 9; 14; 20; 5; 9; 14; 20; 5; 9; 14; 20;
   4; 11; 16; 23; 4; 11; 16; 23; 4; 11; 16; 23; 4; 11; 16; 23;
   6; 10; 15; 21; 6; 10; 15; 21; 6; 10; 15; 21; 6; 10; 15; 21].

Record state := mkState { va : Z; vb : Z; vc : Z; vd : Z }.

Definition init : state := mkState 0x67452301 0xefcdab89 0x98badcfe 0x10325476.

(** One of the 64 operations on a block [w] of sixteen words. *)
Definition round (w : list Z) (s : state) (i : nat) : state :=
  let '(mkState a b c d) := s in
  let '(f, g) :=
    if (i <? 16)%nat then (Z.lor (Z.land b c) (Z.land (not32 b) d), i)
    else if (i <? 32)%nat then
      (Z.lor (Z.land d b) (Z.land (not32 d) c), ((5 * i + 1) mod 16)%nat)
    else if (i <? 48)%nat then
      (Z.lxor b (Z.lxor c d), ((3 * i + 5) mod 16)%nat)
    else (Z.lxor c (Z.lor b (not32 d)), ((7 * i) mod 16)%nat) in
  let f := add32 (add32 f a) (add32 (default 0 (k_table !! i)) (default 0 (w !! g))) in
  mkState d (add32 b (rotl32 f (default 0 (s_table !! i)))) b c.

Definition le32_word (l : bytes) : Z :=
  u8 (byte_at l 0) + 2 ^ 8 * u8 (byte_at l 1)
  + 2 ^ 16 * u8 (byte_at l 2) + 2 ^ 24 * u8 (byte_at l 3).
Definition le32 (z : Z) : bytes :=
  [byte_of z; byte_of (Z.shiftr z 8); byte_of (Z.shiftr z 16); byte_of (Z.shiftr z 24)].

Definition words (block : bytes) : list Z :=
  map (λ i, le32_word (drop (4 * i) block)) (seq 0 16).

Definition compress (s : state) (block : bytes) : state :=
  let s' := foldl (round (words block)) s (seq 0 64) in
  mkState (add32 (va s) (va s')) (add32 (vb s) (vb s'))
          (add32 (vc s) (vc s')) (add32 (vd s) (vd s')).

(** Padding to a multiple of 64 bytes with the bit length at the end. *)
Definition pad (m : bytes) : bytes :=
  m ++ x80 :: replicate (Z.to_nat ((55 - Z.of_nat (length m)) `mod` 64)) x00
    ++ le32 (8 * Z.of_nat (length m)) ++ le32 (Z.shiftr (8 * Z.of_nat (length m)) 32).

Fixpoint blocks (n : nat) (s : state) (m : bytes) : state :=
  match n with
  | O => s
  | S n => blocks n (compress s (take 64 m)) (drop 64 m)
  end.

Definition md5 (m : bytes) : bytes :=
  let p := pad m in
  let s := blocks (length p / 64) init p in
  le32 (va s) ++ le32 (vb s) ++ le32 (vc s) ++ le32 (vd s).

(** [hmac.New(md5.New, key)]. *)
Definition hmac_md5 (key m : bytes) : bytes :=
  let key := if (64 <? length key)%nat then md5 key else key in
  let key := key ++ replicate (64 - length key) x00 in
  md5 (map (bxor (byte_of 0x5c)) key ++ md5 (map (bxor (byte_of 0x36)) key ++ m)).

Lemma length_md5 m : length (md5 m) = 16%nat.
Proof. reflexivity. Qed.

Lemma length_hmac_md5 key m : length (hmac_md5 key m) = 16%nat.
Proof. reflexivity. Qed.

(** The padded message is a whole number of blocks: no byte of the message is
    left out of the digest. *)
Lemma pad_aligned m : (length (pad m) mod 64)%nat = 0%nat.
Proof.
  unfold pad. rewrite length_app. cbn [length]. rewrite !length_app, length_replicate.
  cbn [length le32]. set (n := length m).
  pose proof (Z.mod_pos_bound (55 - Z.of_nat n) 64).
  pose proof (Z.div_mod (55 - Z.of_nat n) 64).
  apply Nat2Z.inj. rewrite Nat2Z.inj_mod.
  replace (Z.of_nat (n + S (Z.to_nat ((55 - Z.of_nat n) `mod` 64) + (4 + 4))))
    with (0 + (1 - (55 - Z.of_nat n) / 64) * 64) by lia.
  by rewrite Z_mod_plus_full.
Qed.

Example md5_empty : Hex.encode (md5 []) = "d41d8cd98f00b204e9800998ecf8427e"%string.
Proof. vm_compute. reflexivity. Qed.
Example md5_abc : Hex.encode (md5 (of_string "abc")) = "900150983cd24fb0d6963f7d28e17f72"%string.
Proof. vm_compute. reflexivity. Qed.
Example md5_digits :
  Hex.encode (md5 (of_string "12345678901234567890123456789012345678901234567890123456789012345678901234567890"))
  = "57edf4a22be3c955ac49da2e2107b67a"%string.
Proof. vm_compute. reflexivity. Qed.
Example hmac_jefe :
  Hex.encode (hmac_md5 (of_string "Jefe") (of_string "what do ya want for nothing?"))
  = "750c783e6ab0b503eaa86e310a5db738"%string.
Proof. vm_compute. reflexivity. Qed.

End Md5.

#[global] Opaque Md5.md5 Md5.hmac_md5.
