(* ===== verification/Sha256.v ===== *)
(** * SHA-256

    [crypto/sha256] of the Go standard library, as an executable function on byte
    lists (FIPS 180-4), with the standard's one-block test vectors. *)

From S2P Require Import Prelude GoStrings.
#[local] Open Scope Z_scope.

Module Sha256.

Definition add32 (a b : Z) : Z := wrap_u32 (a + b).
Definition rotr32 (x n : Z) : Z :=
  Z.lor (Z.shiftr x n) (wrap_u32 (Z.shiftl x (32 - n))).
Definition not32 (x : Z) : Z := 0xffffffff - x.

(** The constants are given by the standard as the first 32 bits of the fractional
    parts of the cube roots (round constants) and the square roots (initial state) of
    the first primes, and are computed here from that rule: [iroot k n] is the integer
    [k]-th root of [n], found bit by bit from bit 39 down. *)
Definition iroot (k n : Z) : Z :=
  foldl (λ r i, let r' := r + 2 ^ Z.of_nat i in if r' ^ k <=? n then r' else r)
    0 (reverse (seq 0 40)).

Definition frac_root (k p : Z) : Z := wrap_u32 (iroot k (p * 2 ^ (32 * k))).

Definition is_prime (n : nat) : bool :=
  forallb (λ d, negb (n mod d =? 0)%nat) (seq 2 (n - 2)).

Definition primes (count : nat) : list Z :=
  map Z.of_nat (take count (List.filter is_prime (seq 2 310))).

Definition k_table : list Z := Eval vm_compute in map (frac_root 3) (primes 64).

(** The state, eight words. *)
Definition init : list Z := Eval vm_compute in map (frac_root 2) (primes 8).

Definition at_ (l : list Z) (i : nat) : Z := default 0 (l !! i).

(** The message schedule, newest word first. *)
Definition extend (w : list Z) : list Z :=
  let x := at_ w 14 in let y := at_ w 1 in
  let s0 := Z.lxor (Z.lxor (rotr32 x 7) (rotr32 x 18)) (Z.shiftr x 3) in
  let s1 := Z.lxor (Z.lxor (rotr32 y 17) (rotr32 y 19)) (Z.shiftr y 10) in
  add32 (add32 (at_ w 15) s0) (add32 (at_ w 6) s1) :: w.

Definition be32_word (l : bytes) : Z :=
  2 ^ 24 * u8 (byte_at l 0) + 2 ^ 16 * u8 (byte_at l 1)
  + 2 ^ 8 * u8 (byte_at l 2) + u8 (byte_at l 3).

Definition schedule (block : bytes) : list Z :=
  reverse (Nat.iter 48 extend (reverse (map (λ i, be32_word (drop (4 * i) block)) (seq 0 16)))).

Definition round (h : list Z) (kw : Z * Z) : list Z :=
  match h with
  | [a; b; c; d; e; f; g; hh] =>
      let s1 := Z.lxor (Z.lxor (rotr32 e 6) (rotr32 e 11)) (rotr32 e 25) in
      let ch := Z.lxor (Z.land e f) (Z.land (not32 e) g) in
      let t1 := add32 (add32 hh s1) (add32 ch (add32 (fst kw) (snd kw))) in
      let s0 := Z.lxor (Z.lxor (rotr32 a 2) (rotr32 a 13)) (rotr32 a 22) in
      let mj := Z.lxor (Z.lxor (Z.land a b) (Z.land a c)) (Z.land b c) in
      [add32 t1 (add32 s0 mj); a; b; c; add32 d t1; e; f; g]
  | _ => h
  end.

Definition compress (h : list Z) (block : bytes) : list Z :=
  zip_with add32 h (foldl round h (zip k_table (schedule block))).

Definition pad (m : bytes) : bytes :=
  let n := Z.of_nat (length m) in
  m ++ x80 :: replicate (Z.to_nat ((55 - n) `mod` 64)) x00
  ++ be32 (Z.shiftr (8 * n) 32) ++ be32 (8 * n).

Fixpoint blocks (fuel : nat) (h : list Z) (m : bytes) : list Z :=
  match fuel with
  | O => h
  | S fuel => blocks fuel (compress h (take 64 m)) (drop 64 m)
  end.

Definition sha256 (m : bytes) : bytes :=
  let p := pad m in
  concat (map be32 (blocks (length p / 64) init p)).

Lemma round_length (h : list Z) (kw : Z * Z) : length h = 8%nat → length (round h kw) = 8%nat.
Proof. intros H. do 9 (destruct h as [|? h]; try done). Qed.
Lemma compress_length h b : length h = 8%nat → length (compress h b) = 8%nat.
Proof.
  intros H. unfold compress. rewrite length_zip_with. assert (Hf : length (foldl round h (zip k_table (schedule b))) = 8%nat); [|lia].
  generalize (zip k_table (schedule b)) as l. intros l. revert h H. induction l as [|kw l IH]; intros h H; [done|]. by apply IH, round_length.
Qed.
Lemma sha256_length m : length (sha256 m) = 32%nat.
Proof.
  unfold sha256. generalize (pad m) as p. intros p. assert (H : length init = 8%nat) by done.
  generalize (length p / 64)%nat as n. revert H p. generalize init as h. intros h H p n. revert h p H.
  induction n as [|n IH]; intros h p H; [|apply IH, compress_length, H]. cbn [blocks].
  do 9 (destruct h as [|? h]; try done).
Qed.

(** [hmac.New(sha256.New, key)]. *)
Definition hmac_sha256 (key m : bytes) : bytes :=
  let key := if (64 <? length key)%nat then sha256 key else key in
  let key := key ++ replicate (64 - length key) x00 in
  sha256 (map (bxor (byte_of 0x5c)) key ++ sha256 (map (bxor (byte_of 0x36)) key ++ m)).

Example sha256_empty :
  Hex.encode (sha256 [])
  = "e3b0c44298fc1c149afbf4c8996fb92427ae41e4649b934ca495991b7852b855"%string.
Proof. vm_compute. reflexivity. Qed.

Example sha256_abc :
  Hex.encode (sha256 (of_string "abc"))
  = "ba7816bf8f01cfea414140de5dae2223b00361a396177a9cb410ff61f20015ad"%string.
Proof. vm_compute. reflexivity. Qed.

(** RFC 4231, test case 2. *)
Example hmac_sha256_jefe :
  Hex.encode (hmac_sha256 (of_string "Jefe") (of_string "what do ya want for nothing?"))
  = "5bdcc146bf60754e6a042426089575c75a003f089d2739839dec58b964ec3843"%string.
Proof. vm_compute. reflexivity. Qed.

End Sha256.

#[global] Opaque Sha256.sha256 Sha256.hmac_sha256.
