(* ===== verification/Radius.v ===== *)
(** * RADIUS packets (internal/radsec/radius.go)

    The wire codec of the RadSec server: [parsePacket], [encode], the attribute
    accessors, [finalize] (Message-Authenticator and Response-Authenticator of a
    reply) and [verifyMessageAuthenticator] (the check of an inbound request).

    Packets are byte lists; lengths and offsets are [nat], converted from the
    wire with the width the code uses.  The attribute loop of [parsePacket] runs
    on fuel equal to the declared length: every turn consumes at least two bytes
    ([parse_loop_total]).  [verifyMessageAuthenticator] slices the raw packet at
    a computed offset, so its model returns an [option]: [None] is the run-time
    panic of an out-of-range slice. *)

From S2P Require Import Prelude GoStrings Md5.

Module Radius.
Import Md5.

Definition codeAccessRequest : byte := x01.
Definition codeAccessAccept : byte := x02.
Definition codeAccessReject : byte := x03.
Definition codeAccessChallenge : byte := x0b.
Definition codeDisconnectReq : byte := x28.

Definition attrUserName : byte := x01.
Definition attrFilterID : byte := x0b.
Definition attrReplyMessage : byte := x12.
Definition attrState : byte := x18.
Definition attrVendorSpecific : byte := x1a.
Definition attrSessionTimeout : byte := x1b.
Definition attrCallingStationID : byte := x1f.
Definition attrNASIdentifier : byte := x20.
Definition attrAcctSessionID : byte := x2c.
Definition attrEAPMessage : byte := x4f.
Definition attrMessageAuthkey : byte := x50.
Definition attrTunnelType : byte := x40.
Definition attrTunnelMediumType : byte := x41.
Definition attrTunnelPrivateGroup : byte := x51.

Definition tunnelTypeVLAN : byte := x0d.
Definition tunnelMediumType802 : byte := x06.

Definition radsecSecret : bytes := of_string "radsec".

Record attribute := mkAttr { aType : byte; aValue : bytes }.

Record packet := mkPacket {
  Code : byte;
  Identifier : byte;
  Authenticator : bytes;
  Attributes : list attribute;
}.

#[global] Instance attribute_eq_dec : EqDecision attribute.
Proof. solve_decision. Defined.
#[global] Instance packet_eq_dec : EqDecision packet.
Proof. solve_decision. Defined.

Inductive parse_error :=
| errShortPacket
| errBadLength (len have : nat)
| errBadAttrLen (alen at_ : nat).

(** ** Decoding *)

(** The attribute loop of [parsePacket]: [i] is the read position, [acc] the
    attributes found so far.  [None] is fuel exhaustion. *)
Fixpoint parse_loop (fuel : nat) (b : bytes) (len i : nat) (acc : list attribute)
  : option (result parse_error (list attribute)) :=
  if i <? len then
    match fuel with
    | O => None
    | S fuel =>
        if len <? i + 2 then Some (Err errShortPacket)
        else
          let atype := byte_at b i in
          let alen := Z.to_nat (u8 (byte_at b (i + 1))) in
          if (alen <? 2) || (len <? i + alen) then Some (Err (errBadAttrLen alen i))
          else
            let val := take (alen - 2) (drop (i + 2) b) in
            parse_loop fuel b len (i + alen) (acc ++ [mkAttr atype val])
    end
  else Some (Ok acc).

Definition parsePacket (b : bytes) : result parse_error packet :=
  if length b <? 20 then Err errShortPacket
  else
    let len := Z.to_nat (get_be16 b 2) in
    if (len <? 20) || (length b <? len) then Err (errBadLength len (length b))
    else
      match parse_loop len b len 20 [] with
      | Some (Ok attrs) =>
          Ok (mkPacket (byte_at b 0) (byte_at b 1) (take 16 (drop 4 b)) attrs)
      | Some (Err e) => Err e
      | None => Err errShortPacket
      end.

(** ** Encoding *)

Definition encode_attr (a : attribute) : bytes :=
  aType a :: byte_of (Z.of_nat (2 + length (aValue a))) :: aValue a.

Definition encode_attrs (l : list attribute) : bytes := concat (map encode_attr l).

Definition total_length (p : packet) : nat := 20 + length (encode_attrs (Attributes p)).

Definition encode (p : packet) : bytes :=
  [Code p; Identifier p] ++ be16 (Z.of_nat (total_length p)) ++ Authenticator p
  ++ encode_attrs (Attributes p).

(** ** Attributes *)

Definition add (p : packet) (atype : byte) (value : bytes) : packet :=
  mkPacket (Code p) (Identifier p) (Authenticator p)
           (Attributes p ++ [mkAttr atype value]).

Definition has_type (t : byte) (a : attribute) : bool := bool_decide (aType a = t).

Definition first (p : packet) (atype : byte) : bytes :=
  match List.find (has_type atype) (Attributes p) with
  | Some a => aValue a
  | None => []
  end.

Definition all (p : packet) (atype : byte) : list bytes :=
  map aValue (List.filter (has_type atype) (Attributes p)).

(** ** Authenticators *)

Definition with_auth (auth : bytes) (p : packet) : packet :=
  mkPacket (Code p) (Identifier p) auth (Attributes p).

(** Store [v] in every Message-Authenticator attribute. *)
Definition set_msg_auth_attr (v : bytes) (a : attribute) : attribute :=
  if has_type attrMessageAuthkey a then mkAttr (aType a) v else a.
Definition set_msg_auth (v : bytes) (p : packet) : packet :=
  mkPacket (Code p) (Identifier p) (Authenticator p)
           (map (set_msg_auth_attr v) (Attributes p)).

Definition zeros16 : bytes := replicate 16 x00.

Definition finalize (p : packet) (requestAuth : bytes) : packet * bytes :=
  let p := with_auth requestAuth p in
  let hasMsgAuth := existsb (has_type attrMessageAuthkey) (Attributes p) in
  let p := set_msg_auth zeros16 p in
  let p := if hasMsgAuth
           then set_msg_auth (hmac_md5 radsecSecret (encode p)) p
           else p in
  let sum := md5 (encode p ++ radsecSecret) in
  let p := with_auth sum p in
  (p, encode p).

(** Offset of the value of the first Message-Authenticator; [off] is the offset
    of the attribute list. *)
Fixpoint msg_auth_index (off : nat) (l : list attribute) : option nat :=
  match l with
  | [] => None
  | a :: l =>
      if has_type attrMessageAuthkey a then Some (off + 2)
      else msg_auth_index (off + (2 + length (aValue a))) l
  end.

(** [for i := 0; i < 16; i++ { tmp[idx+i] = 0 }]. *)
Definition zero_at (idx : nat) (raw : bytes) : bytes :=
  take idx raw ++ zeros16 ++ drop (idx + 16) raw.

Definition verifyMessageAuthenticator (p : packet) (raw : bytes) : option bool :=
  match msg_auth_index 20 (Attributes p) with
  | None => Some true
  | Some idx =>
      want ← slice raw idx (idx + 16);
      Some (bool_decide (hmac_md5 radsecSecret (zero_at idx raw) = want))
  end.

(** ** Well-formedness: what fits on the wire *)

Definition attr_wf (a : attribute) : Prop := length (aValue a) ≤ 253.

Record packet_wf (p : packet) : Prop := {
  wf_auth : length (Authenticator p) = 16;
  wf_attrs : Forall attr_wf (Attributes p);
  wf_total : (Z.of_nat (total_length p) <= 65535)%Z;
}.

(** ** Lemmas on the attribute list *)

Lemma encode_attrs_cons a l : encode_attrs (a :: l) = encode_attr a ++ encode_attrs l.
Proof. done. Qed.

Lemma encode_attrs_app l1 l2 : encode_attrs (l1 ++ l2) = encode_attrs l1 ++ encode_attrs l2.
Proof. unfold encode_attrs. by rewrite map_app, concat_app. Qed.

Lemma length_encode_attr a : length (encode_attr a) = 2 + length (aValue a).
Proof. done. Qed.

Lemma length_encode_attrs_ge l : length l ≤ length (encode_attrs l).
Proof.
  induction l as [|a l IH]; [done|].
  rewrite encode_attrs_cons, length_app, length_encode_attr. simpl. lia.
Qed.

Lemma byte_at_app (l1 l2 : bytes) (i : nat) :
  byte_at (l1 ++ l2) (length l1 + i) = byte_at l2 i.
Proof. unfold byte_at. rewrite lookup_app_r by lia. do 2 f_equal. lia. Qed.

Lemma alen_wf a :
  attr_wf a →
  Z.to_nat (u8 (byte_of (Z.of_nat (2 + length (aValue a))))) = 2 + length (aValue a).
Proof. unfold attr_wf. intros H. rewrite u8_byte_of_small; lia. Qed.

(** ** The attribute loop *)

Lemma parse_loop_total fuel b len i acc :
  len ≤ i + fuel → is_Some (parse_loop fuel b len i acc).
Proof.
  revert i acc. induction fuel as [|fuel IH]; intros i acc Hf; cbn [parse_loop].
  - destruct (Nat.ltb_spec i len); [lia|done].
  - destruct (Nat.ltb_spec i len); [|done].
    destruct (Nat.ltb_spec len (i + 2)); [done|].
    destruct (Nat.ltb_spec (Z.to_nat (u8 (byte_at b (i + 1)))) 2); [done|].
    destruct (Nat.ltb_spec len (i + Z.to_nat (u8 (byte_at b (i + 1))))); [done|].
    apply IH. lia.
Qed.

Lemma parse_loop_encode l pre rest acc fuel :
  Forall attr_wf l →
  length l ≤ fuel →
  parse_loop fuel (pre ++ encode_attrs l ++ rest)
    (length pre + length (encode_attrs l)) (length pre) acc = Some (Ok (acc ++ l)).
Proof.
  intros Hl. revert pre acc fuel.
  induction Hl as [|a l Ha Hl IH]; intros pre acc fuel Hf.
  - destruct fuel; cbn [parse_loop]; change (encode_attrs []) with (@nil byte); simpl;
      rewrite Nat.add_0_r, Nat.ltb_irrefl, app_nil_r; done.
  - destruct fuel as [|fuel]; [simpl in Hf; lia|]. cbn [parse_loop].
    rewrite encode_attrs_cons, length_app, length_encode_attr, <- (app_assoc (encode_attr a)).
    rewrite (proj2 (Nat.ltb_lt _ _)) by lia.
    rewrite (proj2 (Nat.ltb_ge _ (length pre + 2))) by lia.
    rewrite byte_at_app.
    change (byte_at (encode_attr a ++ encode_attrs l ++ rest) 1)
      with (byte_of (Z.of_nat (2 + length (aValue a)))).
    rewrite alen_wf by done.
    rewrite (proj2 (Nat.ltb_ge _ 2)) by lia.
    rewrite (proj2 (Nat.ltb_ge _ (length pre + (2 + length (aValue a))))) by lia.
    cbn [orb].
    assert (take (2 + length (aValue a) - 2)
              (drop (length pre + 2) (pre ++ encode_attr a ++ encode_attrs l ++ rest))
            = aValue a) as ->.
    { rewrite drop_app_add.
      change (drop 2 (encode_attr a ++ encode_attrs l ++ rest))
        with (aValue a ++ encode_attrs l ++ rest).
      apply take_app_length'. lia. }
    replace (byte_at (pre ++ encode_attr a ++ encode_attrs l ++ rest) (length pre))
      with (aType a) by (rewrite <- (Nat.add_0_r (length pre)), byte_at_app; done).
    specialize (IH (pre ++ encode_attr a) (acc ++ [a]) fuel).
    rewrite length_app, length_encode_attr, <- !app_assoc in IH.
    rewrite <- !Nat.add_assoc in *. destruct a as [t v]. apply IH. simpl in Hf. lia.
Qed.

(** What the loop accepts is exactly an attribute encoding. *)
Lemma parse_loop_sound fuel b len i acc l :
  i ≤ len → len ≤ length b →
  parse_loop fuel b len i acc = Some (Ok l) →
  ∃ l', l = acc ++ l' ∧ Forall attr_wf l' ∧ take (len - i) (drop i b) = encode_attrs l'.
Proof.
  revert i acc. induction fuel as [|fuel IH]; intros i acc Hi Hlen; cbn [parse_loop].
  - destruct (Nat.ltb_spec i len); [done|]. intros [= <-]. exists [].
    rewrite app_nil_r. replace (len - i) with 0 by lia. done.
  - destruct (Nat.ltb_spec i len) as [Hlt|Hge]; last first.
    { intros [= <-]. exists []. rewrite app_nil_r. replace (len - i) with 0 by lia. done. }
    destruct (Nat.ltb_spec len (i + 2)); [done|].
    set (alen := Z.to_nat (u8 (byte_at b (i + 1)))).
    destruct (Nat.ltb_spec alen 2) as [|Ha]; [done|].
    destruct (Nat.ltb_spec len (i + alen)) as [|Hb]; [done|]. cbn [orb].
    intros Hgo%IH; [|lia..]. destruct Hgo as (l' & -> & Hl' & Htk).
    set (v := take (alen - 2) (drop (i + 2) b)) in *.
    assert (length v = alen - 2) as Hv.
    { unfold v. rewrite length_take, length_drop. lia. }
    exists (mkAttr (byte_at b i) v :: l'). split_and!.
    + by rewrite <- app_assoc.
    + constructor; [|done]. unfold attr_wf. cbn. pose proof (u8_range (byte_at b (i + 1))). lia.
    + rewrite encode_attrs_cons, <- Htk. unfold encode_attr. cbn [aType aValue]. rewrite Hv.
      replace (byte_of (Z.of_nat (2 + (alen - 2)))) with (byte_at b (i + 1)).
      2:{ replace (2 + (alen - 2)) with alen by lia. unfold alen.
          pose proof (u8_range (byte_at b (i + 1))). rewrite Z2Nat.id by lia.
          by rewrite byte_of_u8. }
      replace (len - i) with (2 + ((alen - 2) + (len - (i + alen)))) by lia.
      rewrite <- take_take_drop. replace (drop (2 + i) b) with (drop (i + 2) b) by (f_equal; lia).
      rewrite drop_drop, <- (take_take_drop (drop (i + 2) b)), drop_drop.
      fold v. replace (i + 2 + (alen - 2)) with (i + alen) by lia.
      change (byte_at b i :: byte_at b (i + 1) :: v) with ([byte_at b i; byte_at b (i + 1)] ++ v).
      rewrite <- app_assoc. f_equal.
      destruct (drop i b) as [|c0 [|c1 r]] eqn:E.
      { apply (f_equal length) in E. rewrite length_drop in E. simpl in E. lia. }
      { apply (f_equal length) in E. rewrite length_drop in E. simpl in E. lia. }
      assert (∀ k, drop i b !! k = b !! (i + k)) as Hk by (intros; apply lookup_drop).
      rewrite E in Hk. unfold byte_at.
      by rewrite <- (Hk 1), <- (Nat.add_0_r i), <- (Hk 0).
Qed.

(** ** Round trips *)

Lemma encode_length p : length (Authenticator p) = 16 → length (encode p) = total_length p.
Proof. intros H. unfold encode, total_length. rewrite !length_app, H. reflexivity. Qed.

Lemma encode_header_length p rest :
  packet_wf p → Z.to_nat (get_be16 (encode p ++ rest) 2) = total_length p.
Proof.
  intros Hp. unfold encode. rewrite <- !app_assoc.
  change (get_be16 _ 2)
    with (u8 (byte_of (Z.shiftr (Z.of_nat (total_length p)) 8)) * 256
          + u8 (byte_of (Z.of_nat (total_length p))))%Z.
  rewrite be16_bytes; [lia|]. pose proof (wf_total p Hp). lia.
Qed.

Lemma encode_split p :
  encode p = ([Code p; Identifier p] ++ be16 (Z.of_nat (total_length p)) ++ Authenticator p)
             ++ encode_attrs (Attributes p).
Proof. unfold encode. by rewrite <- !app_assoc. Qed.

Lemma header_fields c i z au r :
  byte_at ([c; i] ++ be16 z ++ au ++ r) 0 = c
  ∧ byte_at ([c; i] ++ be16 z ++ au ++ r) 1 = i
  ∧ drop 4 ([c; i] ++ be16 z ++ au ++ r) = au ++ r.
Proof. done. Qed.

(** Decoding an encoded packet gives the packet back, whatever follows it on
    the stream. *)
Lemma parse_encode_app p rest : packet_wf p → parsePacket (encode p ++ rest) = Ok p.
Proof.
  intros Hp. pose proof Hp as [Hauth Hattrs Htot].
  unfold parsePacket. rewrite encode_header_length by done.
  pose proof (encode_length p Hauth) as Hlen.
  rewrite length_app, Hlen.
  assert (20 ≤ total_length p) by (unfold total_length; lia).
  rewrite (proj2 (Nat.ltb_ge _ 20)) by lia.
  rewrite (proj2 (Nat.ltb_ge (total_length p) 20)) by lia.
  rewrite (proj2 (Nat.ltb_ge _ (total_length p))) by lia. cbn [orb].
  set (pre := [Code p; Identifier p] ++ be16 (Z.of_nat (total_length p)) ++ Authenticator p).
  assert (length pre = 20) as Hpre by (unfold pre; rewrite !length_app, Hauth; reflexivity).
  pose proof (parse_loop_encode (Attributes p) pre rest [] (total_length p)) as Hgo.
  rewrite Hpre in Hgo. fold (total_length p) in Hgo.
  rewrite encode_split, <- app_assoc. fold pre.
  change (20 + length (encode_attrs (Attributes p))) with (total_length p) in Hgo.
  rewrite Hgo; [|done|].
  2:{ unfold total_length. pose proof (length_encode_attrs_ge (Attributes p)). lia. }
  cbn [app]. unfold pre. rewrite <- !app_assoc.
  destruct (header_fields (Code p) (Identifier p) (Z.of_nat (total_length p))
              (Authenticator p) (encode_attrs (Attributes p) ++ rest)) as (-> & -> & ->).
  rewrite take_app_length' by done. by destruct p.
Qed.

Lemma header_bytes (b : bytes) : 20 ≤ length b →
  ∃ c i h l au r, b = [c; i; h; l] ++ au ++ r ∧ length au = 16.
Proof.
  intros H. destruct b as [|c [|i [|h [|l b]]]]; simpl in H; try lia.
  exists c, i, h, l, (take 16 b), (drop 16 b). rewrite take_drop, length_take.
  split; [done|lia].
Qed.

(** Every packet the decoder accepts is well formed, and its encoding is the
    declared prefix of the input: decoding loses no byte and invents none. *)
Lemma parse_sound b p :
  parsePacket b = Ok p →
  packet_wf p ∧ encode p = take (total_length p) b
  ∧ total_length p = Z.to_nat (get_be16 b 2) ∧ total_length p ≤ length b.
Proof.
  unfold parsePacket. destruct (Nat.ltb_spec (length b) 20) as [|H20]; [done|].
  set (len := Z.to_nat (get_be16 b 2)).
  destruct (Nat.ltb_spec len 20) as [|Hl]; [done|].
  destruct (Nat.ltb_spec (length b) len) as [|Hb]; [done|]. cbn [orb].
  destruct (parse_loop len b len 20 []) as [[attrs|]|] eqn:E; [|done..].
  intros [= <-]. apply parse_loop_sound in E as (l & -> & Hwf & Htk); [|lia..].
  cbn [app] in *.
  assert (len = Z.to_nat (get_be16 b 2)) as Hlenb by done. clearbody len.
  assert (length (encode_attrs l) = len - 20) as Hlen.
  { rewrite <- Htk, length_take, length_drop. lia. }
  destruct (header_bytes b H20) as (c & i & h & lo & au & r & -> & Hau).
  assert (get_be16 ([c; i; h; lo] ++ au ++ r) 2 = (u8 h * 256 + u8 lo)%Z) as Hg by done.
  pose proof (get_be16_range ([c; i; h; lo] ++ au ++ r) 2).
  change (drop 4 ([c; i; h; lo] ++ au ++ r)) with (au ++ r).
  rewrite take_app_length' by lia.
  assert (total_length (mkPacket c i au l) = len) as Htot.
  { unfold total_length. cbn [Attributes]. lia. }
  change (mkPacket (byte_at ([c; i; h; lo] ++ au ++ r) 0)
            (byte_at ([c; i; h; lo] ++ au ++ r) 1) au l) with (mkPacket c i au l).
  split_and!; [constructor; [done..|]| |lia..].
  - lia.
  - unfold encode. rewrite Htot.
    cbn [Code Identifier Authenticator Attributes].
    rewrite <- Htk.
    assert (Z.of_nat len = u8 h * 256 + u8 lo)%Z as Hz by lia. rewrite Hz, be16_of_bytes.
    assert (drop 20 ([c; i; h; lo] ++ au ++ r) = r) as ->.
    { rewrite drop_app_ge by (simpl; lia). by apply drop_app_length'. }
    rewrite (take_app_ge [c; i; h; lo]) by (simpl; lia).
    rewrite take_app_ge by (simpl; lia). cbn [app length].
    do 5 f_equal. f_equal. lia.
Qed.

(** The decoder never runs out of fuel: the [None] branch of [parsePacket] is
    unreachable, so every error it reports is one of the source's. *)
Lemma parse_loop_fuel_ok b :
  is_Some (parse_loop (Z.to_nat (get_be16 b 2)) b (Z.to_nat (get_be16 b 2)) 20 []).
Proof. apply parse_loop_total. lia. Qed.

(** C4: RADIUS codec round trip.  For every well-formed packet, decoding its
    encoding followed by any further stream bytes returns exactly that packet;
    conversely every packet the decoder accepts is well formed and re-encodes to
    the declared-length prefix of the input. *)
Theorem radius_roundtrip :
  (∀ p rest, packet_wf p → parsePacket (encode p ++ rest) = Ok p) ∧
  (∀ b p, parsePacket b = Ok p →
     packet_wf p ∧ encode p = take (Z.to_nat (get_be16 b 2)) b).
Proof.
  split; [intros; by apply parse_encode_app|].
  intros b p (Hwf & He & Hl & _)%parse_sound. by rewrite <- Hl.
Qed.

Definition sample_packet : packet :=
  mkPacket codeAccessRequest x07 (replicate 16 xab)
    [mkAttr attrNASIdentifier (of_string "nas-1"); mkAttr attrEAPMessage [x02; x01; x00; x04]].

Lemma radius_roundtrip_witness :
  parsePacket (encode sample_packet ++ [xff]) = Ok sample_packet.
Proof.
  apply (proj1 radius_roundtrip). constructor; [done| |vm_compute; discriminate].
  repeat constructor; apply Nat.leb_le; reflexivity.
Defined.

(** ** Message-Authenticator *)

Definition no_msg_auth (l : list attribute) : Prop :=
  Forall (λ a, aType a ≠ attrMessageAuthkey) l.

Lemma has_type_true t a : has_type t a = true ↔ aType a = t.
Proof. apply bool_decide_eq_true. Qed.
Lemma has_type_false t a : has_type t a = false ↔ aType a ≠ t.
Proof. apply bool_decide_eq_false. Qed.

Lemma msg_auth_index_None off l : msg_auth_index off l = None ↔ no_msg_auth l.
Proof.
  unfold no_msg_auth. revert off. induction l as [|a l IH]; intros off; cbn [msg_auth_index].
  - split; [constructor|done].
  - rewrite Forall_cons, <- (IH (off + (2 + length (aValue a)))).
    destruct (has_type _ a) eqn:E.
    + apply has_type_true in E. split; [done|]. by intros [? _].
    + apply has_type_false in E. tauto.
Qed.

Lemma msg_auth_index_Some off l1 a l2 :
  no_msg_auth l1 → aType a = attrMessageAuthkey →
  msg_auth_index off (l1 ++ a :: l2) = Some (off + length (encode_attrs l1) + 2).
Proof.
  intros Hl1 Ha. revert off. induction Hl1 as [|b l1 Hb Hl1 IH]; intros off; cbn [msg_auth_index app].
  - rewrite (proj2 (has_type_true _ _) Ha). f_equal. change (encode_attrs []) with (@nil byte). simpl. lia.
  - rewrite (proj2 (has_type_false _ _) Hb), IH, encode_attrs_cons, length_app, length_encode_attr.
    f_equal. lia.
Qed.

Lemma first_msg_auth l :
  no_msg_auth l ∨
  ∃ l1 a l2, l = l1 ++ a :: l2 ∧ no_msg_auth l1 ∧ aType a = attrMessageAuthkey.
Proof.
  induction l as [|a l IH]; [left; constructor|].
  destruct (decide (aType a = attrMessageAuthkey)).
  - right. exists [], a, l. split_and!; [done|constructor|done].
  - destruct IH as [IH|(l1 & b & l2 & -> & H1 & H2)]; [left; by constructor|].
    right. exists (a :: l1), b, l2. split_and!; [done|by constructor|done].
Qed.

(** The packet bytes around the first Message-Authenticator value. *)
Lemma encode_around p l1 t v l2 :
  length (Authenticator p) = 16 → Attributes p = l1 ++ mkAttr t v :: l2 →
  ∃ pre, length pre = 20 + length (encode_attrs l1) + 2
    ∧ encode p = pre ++ v ++ encode_attrs l2.
Proof.
  intros Hau Hat.
  exists (([Code p; Identifier p] ++ be16 (Z.of_nat (total_length p)) ++ Authenticator p)
          ++ encode_attrs l1 ++ [t; byte_of (Z.of_nat (2 + length v))]).
  split.
  - rewrite !length_app, Hau. cbn [length be16]. lia.
  - rewrite encode_split, Hat, encode_attrs_app, encode_attrs_cons.
    unfold encode_attr. cbn [aType aValue]. by rewrite <- !app_assoc.
Qed.

Lemma verify_first p l1 a l2 raw :
  Attributes p = l1 ++ a :: l2 → no_msg_auth l1 → aType a = attrMessageAuthkey →
  verifyMessageAuthenticator p raw =
    let idx := 20 + length (encode_attrs l1) + 2 in
    want ← slice raw idx (idx + 16);
    Some (bool_decide (hmac_md5 radsecSecret (zero_at idx raw) = want)).
Proof.
  intros Hat Hl1 Ha. unfold verifyMessageAuthenticator.
  by rewrite Hat, msg_auth_index_Some.
Qed.

(** Soundness and completeness of the request check.  On the wire bytes of a
    well-formed packet whose first Message-Authenticator has the 16 bytes RFC 3579
    prescribes, the check accepts exactly when that value is the HMAC-MD5, under
    the RadSec secret, of the packet with the attribute zeroed; a packet without
    the attribute is accepted. *)
Theorem verify_accepts_iff p l1 v l2 :
  packet_wf p → Attributes p = l1 ++ mkAttr attrMessageAuthkey v :: l2 →
  no_msg_auth l1 → length v = 16 →
  verifyMessageAuthenticator p (encode p) = Some true ↔
  v = hmac_md5 radsecSecret
        (encode (mkPacket (Code p) (Identifier p) (Authenticator p)
                   (l1 ++ mkAttr attrMessageAuthkey zeros16 :: l2))).
Proof.
  intros Hwf Hat Hl1 Hv. pose proof (wf_auth p Hwf) as Hau.
  rewrite (verify_first _ _ _ _ _ Hat Hl1 eq_refl). cbv zeta.
  set (q := mkPacket _ _ _ _).
  destruct (encode_around p l1 _ v l2 Hau Hat) as (pre & Hpre & He).
  rewrite <- Hpre, <- Hv, He, slice_app. cbn [mbind option_bind].
  assert (zero_at (length pre) (pre ++ v ++ encode_attrs l2) = encode q) as ->.
  { unfold zero_at. rewrite take_app_length.
    rewrite (app_assoc pre v), drop_app_length' by (rewrite length_app, Hv; done).
    assert (total_length q = total_length p) as Ht.
    { unfold total_length, q. cbn [Attributes]. rewrite Hat, !encode_attrs_app, !length_app,
        !encode_attrs_cons, !length_app, !length_encode_attr. cbn [aValue]. by rewrite Hv. }
    assert (pre = [Code p; Identifier p] ++ be16 (Z.of_nat (total_length p)) ++ Authenticator p
                  ++ encode_attrs l1 ++ [attrMessageAuthkey; byte_of (Z.of_nat 18)]) as ->.
    { apply (app_inj_1 _ _ (v ++ encode_attrs l2) (v ++ encode_attrs l2)).
      - rewrite Hpre, !length_app, Hau. cbn [length be16]. lia.
      - rewrite <- He, encode_split, Hat, encode_attrs_app, encode_attrs_cons.
        unfold encode_attr. cbn [aType aValue]. rewrite Hv. by rewrite <- !app_assoc. }
    unfold encode. rewrite Ht. unfold q. cbn [Code Identifier Authenticator Attributes].
    rewrite encode_attrs_app, encode_attrs_cons. unfold encode_attr. cbn [aType aValue].
    by rewrite <- !app_assoc. }
  split; [intros [= H%bool_decide_eq_true]; done|].
  intros H. rewrite bool_decide_eq_true_2; done.
Qed.

(** A request signed the way a RADIUS client signs it. *)
Definition request_with (mac : bytes) : packet :=
  mkPacket codeAccessRequest x07 (replicate 16 xab)
    [mkAttr attrMessageAuthkey mac; mkAttr attrNASIdentifier (of_string "nas-1")].
Definition request_mac : bytes := hmac_md5 radsecSecret (encode (request_with zeros16)).
Definition signed_request : packet := request_with request_mac.

Lemma verify_accepts_witness :
  verifyMessageAuthenticator signed_request (encode signed_request) = Some true.
Proof.
  apply (verify_accepts_iff signed_request [] request_mac [mkAttr attrNASIdentifier (of_string "nas-1")]);
    [|reflexivity|constructor|apply length_hmac_md5|reflexivity].
  constructor; [done| |vm_compute; discriminate].
  apply Forall_cons; split; [|apply Forall_singleton; apply Nat.leb_le; reflexivity].
  unfold attr_wf, request_mac. cbn [aValue]. rewrite length_hmac_md5. lia.
Defined.

(** The request check panics.  On a packet the decoder accepted, the check
    takes an out-of-range slice (a run-time panic, with no recovery in the
    connection goroutine) exactly when fewer than 16 bytes follow the header of
    the first Message-Authenticator attribute, that is when the attribute is
    shorter than 16 bytes and the attributes after it do not make up for it. *)
Theorem verify_panics_iff raw p :
  parsePacket raw = Ok p → total_length p = length raw →
  verifyMessageAuthenticator p raw = None ↔
  ∃ l1 a l2, Attributes p = l1 ++ a :: l2 ∧ no_msg_auth l1
    ∧ aType a = attrMessageAuthkey
    ∧ length (aValue a) + length (encode_attrs l2) < 16.
Proof.
  intros (Hwf & He & _ & _)%parse_sound Ht. rewrite Ht, firstn_all in He. subst raw.
  pose proof (wf_auth p Hwf) as Hau.
  assert (∀ l1 a l2, Attributes p = l1 ++ a :: l2 → no_msg_auth l1 →
            aType a = attrMessageAuthkey →
            verifyMessageAuthenticator p (encode p) = None ↔
            length (aValue a) + length (encode_attrs l2) < 16) as Hkey.
  { intros l1 [t v] l2 Hat Hl1 Ha. rewrite (verify_first _ _ _ _ _ Hat Hl1 Ha). cbv zeta.
    destruct (encode_around p l1 t v l2 Hau Hat) as (pre & Hpre & ->).
    rewrite <- Hpre. unfold slice. rewrite !length_app. cbn [aValue].
    rewrite (proj2 (Nat.leb_le (length pre) _)) by lia. cbn [andb].
    destruct (Nat.leb_spec (length pre + 16) (length pre + (length v + length (encode_attrs l2))));
      cbn [mbind option_bind]; split; (done || lia). }
  split.
  - intros Hn. destruct (first_msg_auth (Attributes p)) as [Hno|(l1 & a & l2 & Hat & H1 & H2)].
    + unfold verifyMessageAuthenticator in Hn.
      by rewrite (proj2 (msg_auth_index_None 20 _) Hno) in Hn.
    + exists l1, a, l2. split_and!; [done..|]. by apply (Hkey l1 a l2).
  - intros (l1 & a & l2 & Hat & H1 & H2 & H3). by apply (Hkey l1 a l2).
Qed.

(** A 22-byte Access-Request with an empty Message-Authenticator. *)
Definition crash_packet : bytes :=
  [x01; x00; x00; x16] ++ replicate 16 x00 ++ [x50; x02].

Lemma verify_panics_witness :
  parsePacket crash_packet
    = Ok (mkPacket x01 x00 (replicate 16 x00) [mkAttr attrMessageAuthkey []])
  ∧ verifyMessageAuthenticator
      (mkPacket x01 x00 (replicate 16 x00) [mkAttr attrMessageAuthkey []]) crash_packet = None.
Proof.
  split; [reflexivity|].
  apply (verify_panics_iff crash_packet); [reflexivity..|].
  exists [], (mkAttr attrMessageAuthkey []), []. split_and!; [done|constructor|done|].
  cbn. lia.
Defined.

(** ** Replies *)

Lemma set_msg_auth_attr_twice v w a :
  set_msg_auth_attr v (set_msg_auth_attr w a) = set_msg_auth_attr v a.
Proof.
  unfold set_msg_auth_attr. destruct (has_type _ a) eqn:E; [|by rewrite E].
  change (has_type attrMessageAuthkey (mkAttr (aType a) w))
    with (has_type attrMessageAuthkey a). by rewrite E.
Qed.

Lemma has_type_set t v a : has_type t (set_msg_auth_attr v a) = has_type t a.
Proof. unfold set_msg_auth_attr. by destruct (has_type attrMessageAuthkey a). Qed.

Lemma set_msg_auth_twice v w p : set_msg_auth v (set_msg_auth w p) = set_msg_auth v p.
Proof.
  unfold set_msg_auth. cbn. f_equal. rewrite map_map.
  apply map_ext, set_msg_auth_attr_twice.
Qed.

Lemma set_msg_auth_absent v p :
  existsb (has_type attrMessageAuthkey) (Attributes p) = false → set_msg_auth v p = p.
Proof.
  destruct p as [c i au l]. unfold set_msg_auth. cbn. intros H. f_equal.
  induction l as [|a l IH]; [done|]. simpl in *.
  apply orb_false_iff in H as [Ha Hl]. rewrite IH by done. f_equal.
  unfold set_msg_auth_attr. by rewrite Ha.
Qed.

Lemma set_msg_auth_wf v p :
  length v = 16 → packet_wf (set_msg_auth zeros16 p) → packet_wf (set_msg_auth v p).
Proof.
  intros Hv [Hau Hat Htot].
  assert (∀ a, length (aValue (set_msg_auth_attr v a))
             = length (aValue (set_msg_auth_attr zeros16 a))) as Hlen.
  { intros a. unfold set_msg_auth_attr. by destruct (has_type _ a). }
  constructor.
  - done.
  - cbn in *. rewrite Forall_map in *. eapply Forall_impl; [exact Hat|].
    intros a. unfold attr_wf, compose. by rewrite Hlen.
  - revert Htot. unfold total_length, set_msg_auth. cbn [Attributes].
    assert (∀ l, length (encode_attrs (map (set_msg_auth_attr v) l))
               = length (encode_attrs (map (set_msg_auth_attr zeros16) l))) as ->; [|done].
    induction l as [|a l IH]; [done|].
    cbn [map]. rewrite !encode_attrs_cons, !length_app, !length_encode_attr, Hlen. lia.
Qed.

Definition other_attrs (p : packet) : list attribute :=
  List.filter (λ a, negb (has_type attrMessageAuthkey a)) (Attributes p).

Lemma other_attrs_set v p : other_attrs (set_msg_auth v p) = other_attrs p.
Proof.
  unfold other_attrs, set_msg_auth. cbn. induction (Attributes p) as [|a l IH]; [done|].
  cbn [map List.filter]. rewrite has_type_set, IH.
  destruct (has_type attrMessageAuthkey a) eqn:E; [done|].
  cbn. unfold set_msg_auth_attr. by rewrite E.
Qed.

(** The value RFC 3579 prescribes for the Message-Authenticator of reply [q] to
    a request with authenticator [ra]. *)
Definition reply_msg_auth (ra : bytes) (q : packet) : bytes :=
  hmac_md5 radsecSecret (encode (with_auth ra (set_msg_auth zeros16 q))).
(** The Response-Authenticator of RFC 2865. *)
Definition reply_auth (ra : bytes) (q : packet) : bytes :=
  md5 (encode (with_auth ra q) ++ radsecSecret).

Lemma finalize_shape p ra :
  ∃ v, length v = 16 ∧
    (fst (finalize p ra)) = with_auth (reply_auth ra (fst (finalize p ra))) (set_msg_auth v p)
    ∧ (existsb (has_type attrMessageAuthkey) (Attributes p) = true →
       v = reply_msg_auth ra (fst (finalize p ra))).
Proof.
  unfold finalize. cbn [Attributes with_auth].
  destruct (existsb (has_type attrMessageAuthkey) (Attributes p)) eqn:E.
  - set (v := hmac_md5 _ _). rewrite set_msg_auth_twice. cbn [fst].
    exists v. split_and!; [apply length_hmac_md5|reflexivity|]. intros _.
    unfold reply_msg_auth.
    change (with_auth ra (set_msg_auth zeros16
              (with_auth (md5 (encode (set_msg_auth v (with_auth ra p)) ++ radsecSecret))
                 (set_msg_auth v (with_auth ra p)))))
      with (set_msg_auth zeros16 (set_msg_auth v (with_auth ra p))).
    by rewrite set_msg_auth_twice.
  - exists zeros16. split_and!; [done|reflexivity|done].
Qed.

(** Replies are authenticated as the RFCs prescribe.  For a reply whose
    attributes fit a packet, [finalize] emits bytes that decode to a packet with
    the same code, identifier and other attributes in order, whose every
    Message-Authenticator is the HMAC of the packet under the request's
    authenticator with those attributes zeroed, and whose authenticator is the
    Response-Authenticator over the final attributes. *)
Theorem finalize_authenticates p ra :
  length ra = 16 → packet_wf (with_auth ra (set_msg_auth zeros16 p)) →
  ∃ q, finalize p ra = (q, encode q)
    ∧ parsePacket (encode q) = Ok q
    ∧ Code q = Code p ∧ Identifier q = Identifier p ∧ other_attrs q = other_attrs p
    ∧ Authenticator q = reply_auth ra q
    ∧ Forall (λ a, aType a = attrMessageAuthkey → aValue a = reply_msg_auth ra q) (Attributes q).
Proof.
  intros Hra Hwf. destruct (finalize_shape p ra) as (v & Hv & Hq & Hmac).
  destruct (finalize p ra) as [q out] eqn:E. cbn [fst] in *. exists q.
  assert (out = encode q) as -> by (unfold finalize in E; congruence).
  split_and!; [done| |by rewrite Hq..| |by rewrite Hq at 1|].
  - rewrite <- (app_nil_r (encode q)). apply parse_encode_app. rewrite Hq.
    destruct Hwf as [H1 H2 H3].
    destruct (set_msg_auth_wf v (with_auth ra p) Hv) as [_ H5 H6]; [by constructor|].
    constructor; [apply length_md5|done|done].
  - rewrite Hq. apply (other_attrs_set v p).
  - assert (Attributes q = map (set_msg_auth_attr v) (Attributes p)) as -> by (by rewrite Hq).
    apply Forall_map, Forall_forall. intros a Hin. unfold compose.
    unfold set_msg_auth_attr. destruct (has_type _ a) eqn:Ha; cbn.
    + intros _. apply Hmac. apply existsb_exists. exists a. by rewrite <- list_elem_of_In.
    + by intros Ht%has_type_true; rewrite Ht in Ha.
Qed.

Lemma finalize_authenticates_witness :
  ∃ q, parsePacket (snd (finalize (request_with []) (replicate 16 x11))) = Ok q
       ∧ Authenticator q = reply_auth (replicate 16 x11) q.
Proof.
  destruct (finalize_authenticates (request_with []) (replicate 16 x11)) as (q & E & H & H').
  - reflexivity.
  - constructor; [done| |vm_compute; discriminate].
    apply Forall_cons; split; [|apply Forall_singleton]; apply Nat.leb_le; reflexivity.
  - exists q. rewrite E. split; [apply H|apply H'].
Defined.

End Radius.
