(* ===== verification/Eap.v ===== *)
(** * EAP and EAP-TLS framing (internal/radsec/eap.go)

    The EAP codec, the EAP-TLS flag header, outbound fragmentation and the
    spreading of an EAP packet over RADIUS EAP-Message attributes.

    [buildEAPTLSFragment] slices the TLS message at the caller's offset: an
    offset beyond the message is a slice panic, [None] in the model.  The loop of
    [addEAPMessage] runs on fuel equal to the payload length; every turn removes
    at least one byte ([split_eap_concat]). *)

From S2P Require Import Prelude GoStrings Md5 Radius.

Module Eap.
Import Radius.

Definition eapRequest : byte := x01.
Definition eapResponse : byte := x02.
Definition eapSuccess : byte := x03.
Definition eapFailure : byte := x04.

Definition eapTypeIdentity : byte := x01.
Definition eapTypeNak : byte := x03.
Definition eapTypeTLS : byte := x0d.

Definition eapTLSFlagLength : byte := x80.
Definition eapTLSFlagMore : byte := x40.
Definition eapTLSFlagStart : byte := x20.

Definition eapFragmentSize : nat := 1000.

Record eapPacket := mkEap {
  eCode : byte;
  eIdentifier : byte;
  eType : byte;
  eData : bytes;
}.

#[global] Instance eapPacket_eq_dec : EqDecision eapPacket.
Proof. solve_decision. Defined.

Inductive eap_error := errBadEAP.

Definition parseEAP (b : bytes) : result eap_error eapPacket :=
  if length b <? 4 then Err errBadEAP
  else
    let len := Z.to_nat (get_be16 b 2) in
    if (len <? 4) || (length b <? len) then Err errBadEAP
    else
      let code := byte_at b 0 in
      let id := byte_at b 1 in
      if bool_decide (code = eapRequest) || bool_decide (code = eapResponse) then
        if len <? 5 then Err errBadEAP
        else Ok (mkEap code id (byte_at b 4) (take (len - 5) (drop 5 b)))
      else Ok (mkEap code id x00 []).

(** [eapPacket.encode]. *)
Definition encodeEAP (e : eapPacket) : bytes :=
  let total := 5 + length (eData e) in
  [eCode e; eIdentifier e] ++ be16 (Z.of_nat total) ++ eType e :: eData e.

Definition encodeEAPResult (code id : byte) : bytes := [code; id] ++ be16 4.

(** The EAP-TLS payload, the S flag and the M flag. *)
Definition eapTLSData (data : bytes) : result eap_error (bytes * bool * bool) :=
  match data with
  | [] => Err errBadEAP
  | flags :: _ =>
      let start := bool_decide (band flags eapTLSFlagStart ≠ x00) in
      let more := bool_decide (band flags eapTLSFlagMore ≠ x00) in
      if bool_decide (band flags eapTLSFlagLength ≠ x00) then
        if length data <? 5 then Err errBadEAP
        else Ok (drop 5 data, start, more)
      else Ok (drop 1 data, start, more)
  end.

Definition buildEAPTLSStart (id : byte) : bytes :=
  encodeEAP (mkEap eapRequest id eapTypeTLS [eapTLSFlagStart]).

Definition buildEAPTLSAck (id : byte) : bytes :=
  encodeEAP (mkEap eapRequest id eapTypeTLS [x00]).

Definition buildEAPTLSFragment (id : byte) (tlsData : bytes) (offset : nat)
  : option (bytes * nat * bool) :=
  if length tlsData <? offset then None
  else
    let remaining := length tlsData - offset in
    let is_first := offset =? 0 in
    let chunk := if eapFragmentSize <? remaining then eapFragmentSize else remaining in
    let more := chunk <? remaining in
    let flags := if more then eapTLSFlagMore else x00 in
    let part := take chunk (drop offset tlsData) in
    let data :=
      if is_first
      then bor flags eapTLSFlagLength :: be32 (wrap_u32 (Z.of_nat (length tlsData))) ++ part
      else flags :: part in
    Some (encodeEAP (mkEap eapRequest id eapTypeTLS data), offset + chunk, more).

Definition collectEAPMessage (p : packet) : bytes := concat (all p attrEAPMessage).

Fixpoint split_eap (fuel : nat) (eap : bytes) : list bytes :=
  match fuel with
  | O => []
  | S fuel =>
      if 0 <? length eap then
        let n := if 253 <? length eap then 253 else length eap in
        take n eap :: split_eap fuel (drop n eap)
      else []
  end.

Definition addEAPMessage (p : packet) (eap : bytes) : packet :=
  foldl (λ p v, add p attrEAPMessage v) p (split_eap (length eap) eap).

(** ** The EAP codec *)

Lemma encodeEAP_length e : length (encodeEAP e) = 5 + length (eData e).
Proof. reflexivity. Qed.

Lemma parse_encode_eap e rest :
  (eCode e = eapRequest ∨ eCode e = eapResponse) →
  (Z.of_nat (length (eData e)) <= 65530)%Z →
  parseEAP (encodeEAP e ++ rest) = Ok e.
Proof.
  intros Hc Hlen. unfold parseEAP.
  assert (Z.to_nat (get_be16 (encodeEAP e ++ rest) 2) = 5 + length (eData e)) as ->.
  { change (get_be16 _ 2)
      with (u8 (byte_of (Z.shiftr (Z.of_nat (5 + length (eData e))) 8)) * 256
            + u8 (byte_of (Z.of_nat (5 + length (eData e)))))%Z.
    rewrite be16_bytes; lia. }
  rewrite length_app, encodeEAP_length.
  rewrite (proj2 (Nat.ltb_ge _ 4)) by lia.
  rewrite (proj2 (Nat.ltb_ge (5 + length (eData e)) 4)) by lia.
  rewrite (proj2 (Nat.ltb_ge _ (5 + length (eData e)))) by lia. cbn [orb].
  change (byte_at (encodeEAP e ++ rest) 0) with (eCode e).
  change (byte_at (encodeEAP e ++ rest) 1) with (eIdentifier e).
  change (byte_at (encodeEAP e ++ rest) 4) with (eType e).
  change (drop 5 (encodeEAP e ++ rest)) with (eData e ++ rest).
  replace (bool_decide (eCode e = eapRequest) || bool_decide (eCode e = eapResponse)) with true
    by (symmetry; destruct Hc as [->| ->]; reflexivity).
  rewrite (proj2 (Nat.ltb_ge _ 5)) by lia.
  rewrite take_app_length' by lia. by destruct e.
Qed.

(** ** EAP-Message attributes *)

Lemma split_eap_concat fuel eap : length eap ≤ fuel → concat (split_eap fuel eap) = eap.
Proof.
  revert eap. induction fuel as [|fuel IH]; intros eap Hf; cbn [split_eap].
  - by destruct eap; simpl in *; [|lia].
  - destruct (Nat.ltb_spec 0 (length eap)); [|by destruct eap; simpl in *; [|lia]].
    cbn [concat]. rewrite IH; [apply take_drop|].
    rewrite length_drop. destruct (Nat.ltb_spec 253 (length eap)); lia.
Qed.

Lemma split_eap_bound fuel eap : Forall (λ v, length v ≤ 253) (split_eap fuel eap).
Proof.
  revert eap. induction fuel as [|fuel IH]; intros eap; cbn [split_eap]; [constructor|].
  destruct (Nat.ltb_spec 0 (length eap)); [|constructor].
  constructor; [|apply IH]. rewrite length_take.
  destruct (Nat.ltb_spec 253 (length eap)); lia.
Qed.

Lemma add_all_attributes p t vs :
  Attributes (foldl (λ p v, add p t v) p vs) = Attributes p ++ map (mkAttr t) vs.
Proof.
  revert p. induction vs as [|v vs IH]; intros p; cbn [foldl map]; [by rewrite app_nil_r|].
  rewrite IH. cbn. by rewrite <- app_assoc.
Qed.

Lemma addEAPMessage_attributes p eap :
  Attributes (addEAPMessage p eap)
  = Attributes p ++ map (mkAttr attrEAPMessage) (split_eap (length eap) eap).
Proof. apply add_all_attributes. Qed.

Lemma addEAPMessage_header p eap :
  Code (addEAPMessage p eap) = Code p ∧ Identifier (addEAPMessage p eap) = Identifier p.
Proof.
  unfold addEAPMessage. generalize (split_eap (length eap) eap) as vs. intros vs.
  revert p. induction vs as [|v vs IH]; intros p; cbn [foldl]; [done|]. apply (IH (add p attrEAPMessage v)).
Qed.

Lemma all_app p t l1 l2 :
  Attributes p = l1 ++ l2 →
  all p t = map aValue (List.filter (has_type t) l1) ++ map aValue (List.filter (has_type t) l2).
Proof. intros H. unfold all. by rewrite H, List.filter_app, map_app. Qed.

Lemma all_same_type t vs :
  map aValue (List.filter (has_type t) (map (mkAttr t) vs)) = vs.
Proof.
  induction vs as [|v vs IH]; [done|]. cbn [map List.filter].
  rewrite (proj2 (has_type_true t (mkAttr t v)) eq_refl). cbn [map aValue]. by rewrite IH.
Qed.

(** EAP-Message round trip.  Adding an EAP packet to a RADIUS packet and
    collecting the EAP-Message attributes gives the packet back after whatever
    was there; every attribute added fits the 253-byte limit of RADIUS, and no
    other attribute is touched. *)
Theorem eap_message_roundtrip p eap :
  collectEAPMessage (addEAPMessage p eap) = collectEAPMessage p ++ eap
  ∧ ∃ vs, Attributes (addEAPMessage p eap) = Attributes p ++ map (mkAttr attrEAPMessage) vs
          ∧ Forall (λ v, length v ≤ 253) vs.
Proof.
  split; [|exists (split_eap (length eap) eap); split;
           [apply addEAPMessage_attributes|apply split_eap_bound]].
  unfold collectEAPMessage. rewrite (all_app _ _ _ _ (addEAPMessage_attributes p eap)).
  fold (all p attrEAPMessage). rewrite concat_app. f_equal.
  rewrite all_same_type. by apply split_eap_concat.
Qed.

(** ** Outbound fragmentation *)

(** The flags and payload a peer sees in one outbound fragment. *)
Definition peer_view (pkt : bytes) : option (byte * bytes * bool * bool) :=
  match parseEAP pkt with
  | Ok e =>
      if bool_decide (eCode e = eapRequest) && bool_decide (eType e = eapTypeTLS) then
        match eapTLSData (eData e) with
        | Ok (payload, start, more) => Some (eIdentifier e, payload, start, more)
        | Err _ => None
        end
      else None
  | Err _ => None
  end.

Lemma flags_first (more : bool) :
  let flags := bor (if more then eapTLSFlagMore else x00) eapTLSFlagLength in
  band flags eapTLSFlagStart = x00 ∧ band flags eapTLSFlagLength ≠ x00
  ∧ bool_decide (band flags eapTLSFlagMore ≠ x00) = more.
Proof. destruct more; cbv zeta; split_and!; vm_compute; done. Qed.

Lemma flags_next (more : bool) :
  let flags := if more then eapTLSFlagMore else x00 in
  band flags eapTLSFlagStart = x00 ∧ band flags eapTLSFlagLength = x00
  ∧ bool_decide (band flags eapTLSFlagMore ≠ x00) = more.
Proof. destruct more; cbv zeta; split_and!; vm_compute; done. Qed.

(** One fragment: the peer reads back the chunk at [offset], the M flag says
    whether bytes remain, and the next offset is past the chunk. *)
Lemma fragment_spec id tls offset :
  offset ≤ length tls →
  ∃ pkt, buildEAPTLSFragment id tls offset
         = Some (pkt, offset + Nat.min 1000 (length tls - offset),
                 1000 <? length tls - offset)
    ∧ peer_view pkt = Some (id, take 1000 (drop offset tls), false,
                            1000 <? length tls - offset).
Proof.
  intros Ho. unfold buildEAPTLSFragment.
  rewrite (proj2 (Nat.ltb_ge _ offset)) by lia.
  set (rem := length tls - offset). unfold eapFragmentSize.
  assert ((if 1000 <? rem then 1000 else rem) = Nat.min 1000 rem) as ->
    by (destruct (Nat.ltb_spec 1000 rem); lia).
  assert ((Nat.min 1000 rem <? rem) = (1000 <? rem)) as ->
    by (destruct (Nat.ltb_spec 1000 rem), (Nat.ltb_spec (Nat.min 1000 rem) rem); lia).
  assert (take (Nat.min 1000 rem) (drop offset tls) = take 1000 (drop offset tls)) as ->.
  { destruct (decide (1000 ≤ rem)); [f_equal; lia|].
    rewrite !take_ge by (rewrite length_drop; lia). done. }
  set (part := take 1000 (drop offset tls)). set (more := 1000 <? rem).
  assert (length part ≤ 1000) as Hp by (unfold part; rewrite length_take; lia).
  eexists. split; [reflexivity|]. unfold peer_view.
  rewrite <- (app_nil_r (encodeEAP _)), parse_encode_eap; [|by left|].
  2:{ cbn [eData]. destruct (offset =? 0); cbn [length]; rewrite ?length_app; cbn [length be32]; lia. }
  cbn [eCode eType eData eIdentifier]. rewrite !bool_decide_eq_true_2 by done. cbn [andb].
  destruct (offset =? 0); unfold eapTLSData.
  - destruct (flags_first more) as (Hs & Hl & Hm). rewrite Hm.
    rewrite (bool_decide_eq_true_2 _ Hl), bool_decide_eq_false_2 by (rewrite Hs; tauto).
    cbn [length be32 app]. rewrite (proj2 (Nat.ltb_ge _ 5)) by lia. done.
  - destruct (flags_next more) as (Hs & Hl & Hm). rewrite Hm.
    rewrite !bool_decide_eq_false_2 by (rewrite ?Hs, ?Hl; tauto). done.
Qed.

(** The fragments the server sends for one TLS message: each acknowledged by the
    peer, the EAP identifier growing by one (modulo 256) each time. *)
Fixpoint fragments (fuel : nat) (id : byte) (tls : bytes) (offset : nat)
  : option (list bytes) :=
  match fuel with
  | O => None
  | S fuel =>
      '(pkt, next, _) ← buildEAPTLSFragment id tls offset;
      if length tls <=? next then Some [pkt]
      else rest ← fragments fuel (byte_of (u8 id + 1)) tls next; Some (pkt :: rest)
  end.

(** What the peer reassembles: payloads concatenated, all but the last fragment
    flagged M. *)
Fixpoint reassemble (pkts : list bytes) : option bytes :=
  match pkts with
  | [] => None
  | pkt :: rest =>
      match peer_view pkt with
      | Some (_, payload, _, more) =>
          match rest with
          | [] => if more then None else Some payload
          | _ => if more then (payload ++.) <$> reassemble rest else None
          end
      | None => None
      end
  end.

Lemma fragments_reassemble fuel id tls offset :
  offset ≤ length tls → length tls - offset < 1000 * fuel ∨ (offset = length tls ∧ 0 < fuel) →
  ∃ pkts, fragments fuel id tls offset = Some pkts
    ∧ reassemble pkts = Some (drop offset tls)
    ∧ 1000 * (length pkts - 1) ≤ length tls - offset.
Proof.
  revert id offset. induction fuel as [|fuel IH]; intros id offset Ho Hf; [lia|].
  cbn [fragments]. destruct (fragment_spec id tls offset Ho) as (pkt & Hb & Hv).
  rewrite Hb. cbn [mbind option_bind].
  destruct (Nat.leb_spec (length tls) (offset + Nat.min 1000 (length tls - offset))) as [Hle|Hgt].
  - exists [pkt]. split_and!; [done| |simpl; lia]. cbn [reassemble]. rewrite Hv.
    rewrite (proj2 (Nat.ltb_ge 1000 _)) by lia. rewrite take_ge by (rewrite length_drop; lia). done.
  - destruct (IH (byte_of (u8 id + 1)) (offset + Nat.min 1000 (length tls - offset)))
      as (pkts & Hp & Hr & Hn); [lia|left; lia|].
    rewrite Hp. exists (pkt :: pkts). split_and!; [done| |].
    + cbn [reassemble]. rewrite Hv, (proj2 (Nat.ltb_lt 1000 _)), Hr by lia.
      destruct pkts as [|q qs]; [done|]. cbn [fmap option_fmap option_map]. f_equal.
      replace (offset + Nat.min 1000 (length tls - offset)) with (offset + 1000) by lia.
      by rewrite <- drop_drop, take_drop.
    + cbn [length]. destruct (length pkts); lia.
Qed.

(** EAP-TLS fragmentation is lossless and terminates.  For every TLS message
    the server's sequence of fragments is finite (at most one more than the
    length over 1000), and a peer that reads each fragment with the EAP codec
    and follows the M flags reassembles exactly the message. *)
Theorem fragmentation_lossless id tls :
  ∃ pkts, fragments (S (length tls)) id tls 0 = Some pkts
    ∧ reassemble pkts = Some tls
    ∧ 1000 * (length pkts - 1) ≤ length tls.
Proof.
  destruct (fragments_reassemble (S (length tls)) id tls 0) as (pkts & H1 & H2 & H3); [lia|lia|].
  exists pkts. rewrite Nat.sub_0_r in H3. done.
Qed.

End Eap.
