(* ===== verification/Mppe.v ===== *)
(** * MS-MPPE key attributes (internal/radsec/mppe.go)

    RFC 2548 salt encryption of the two link keys an Access-Accept carries.  The
    random salt of each attribute is an argument ([None] when [rand.Read]
    fails).  [unsalt] and [mppe_decode] are the receiver of the RFC, used as the
    specification the encryption is proved against. *)

From S2P Require Import Prelude GoStrings Md5 Radius.

Module Mppe.
Import Md5 Radius.

Definition vendorMicrosoft : Z := 311.
Definition msMPPESendKey : byte := x10.
Definition msMPPERecvKey : byte := x11.
Definition mskLen : nat := 64.

Inductive rand_error := errRand.

(** [for len(plain)%16 != 0 { plain = append(plain, 0) }]. *)
Definition pad16 (l : bytes) : bytes := l ++ replicate ((16 - length l mod 16) mod 16) x00.

Definition xor_block (a b : bytes) : bytes := zip_with bxor a b.

(** The block loop: [seed] is [requestAuth ++ salt] for the first block and the
    previous ciphertext block after. *)
Fixpoint encrypt_blocks (n : nat) (seed plain : bytes) : bytes :=
  match n with
  | O => []
  | S n =>
      let c := xor_block (take 16 plain) (md5 (radsecSecret ++ seed)) in
      c ++ encrypt_blocks n c (drop 16 plain)
  end.

Definition saltEncrypt (rnd : option (byte * byte)) (key requestAuth : bytes)
  : result rand_error (bytes * bytes) :=
  match rnd with
  | None => Err errRand
  | Some (r0, r1) =>
      let salt := [bor r0 x80; r1] in
      let plain := pad16 (byte_of (Z.of_nat (length key)) :: key) in
      Ok (salt, encrypt_blocks (length plain / 16) (requestAuth ++ salt) plain)
  end.

Definition mppeVendorAttr (rnd : option (byte * byte)) (vendorType : byte)
    (key requestAuth : bytes) : result rand_error bytes :=
  match saltEncrypt rnd key requestAuth with
  | Err e => Err e
  | Ok (salt, enc) =>
      let vsdata := salt ++ enc in
      Ok (be32 vendorMicrosoft ++ vendorType
          :: byte_of (Z.of_nat (2 + length vsdata)) :: vsdata)
  end.

Definition addMPPEKeys (rnd1 rnd2 : option (byte * byte)) (p : packet)
    (msk requestAuth : bytes) : result rand_error packet :=
  if length msk <? mskLen then Ok p
  else
    let recvKey := take 32 msk in
    let sendKey := take 32 (drop 32 msk) in
    match mppeVendorAttr rnd1 msMPPESendKey sendKey requestAuth with
    | Err e => Err e
    | Ok sendAttr =>
        match mppeVendorAttr rnd2 msMPPERecvKey recvKey requestAuth with
        | Err e => Err e
        | Ok recvAttr =>
            Ok (add (add p attrVendorSpecific sendAttr) attrVendorSpecific recvAttr)
        end
    end.

(** ** The receiver of RFC 2548 *)

Fixpoint decrypt_blocks (n : nat) (seed cipher : bytes) : bytes :=
  match n with
  | O => []
  | S n =>
      xor_block (take 16 cipher) (md5 (radsecSecret ++ seed))
      ++ decrypt_blocks n (take 16 cipher) (drop 16 cipher)
  end.

Definition unsalt (requestAuth salt cipher : bytes) : option bytes :=
  match decrypt_blocks (length cipher / 16) (requestAuth ++ salt) cipher with
  | [] => None
  | n :: l => Some (take (Z.to_nat (u8 n)) l)
  end.

(** A Vendor-Specific value: Microsoft vendor id, vendor type, a vendor length
    that spans the rest, two salt bytes with the top bit of the first set. *)
Definition mppe_decode (requestAuth v : bytes) : option (byte * bytes) :=
  if bool_decide (take 4 v = be32 vendorMicrosoft)
     && bool_decide (Z.to_nat (u8 (byte_at v 5)) = length (drop 4 v))
     && bool_decide (band (byte_at v 6) x80 ≠ x00)
  then (λ k, (byte_at v 4, k)) <$> unsalt requestAuth (take 2 (drop 6 v)) (drop 8 v)
  else None.

(** ** Lemmas *)

Lemma pad16_length l : ∃ n, length (pad16 l) = 16 * n ∧ length l ≤ 16 * n < length l + 16.
Proof.
  unfold pad16. rewrite length_app, length_replicate.
  pose proof (Nat.div_mod_eq (length l) 16).
  pose proof (Nat.mod_upper_bound (length l) 16).
  destruct (decide (length l mod 16 = 0)) as [E|E].
  - exists (length l / 16). rewrite E. change ((16 - 0) mod 16) with 0. lia.
  - exists (S (length l / 16)). rewrite (Nat.mod_small (16 - length l mod 16)) by lia. lia.
Qed.

Lemma xor_block_length a b : length a = 16 → length b = 16 → length (xor_block a b) = 16.
Proof. intros. unfold xor_block. rewrite length_zip_with. lia. Qed.

Lemma xor_block_twice a b : length a ≤ length b → xor_block (xor_block a b) b = a.
Proof.
  unfold xor_block. revert b. induction a as [|x a IH]; intros [|y b] H; simpl in *; [done..|lia|].
  rewrite bxor_involutive, IH by lia. done.
Qed.

Lemma encrypt_blocks_length n seed plain :
  length plain = 16 * n → length (encrypt_blocks n seed plain) = 16 * n.
Proof.
  revert seed plain. induction n as [|n IH]; intros seed plain H; [done|].
  cbn [encrypt_blocks]. rewrite length_app, IH by (rewrite length_drop; lia).
  rewrite xor_block_length; [lia|rewrite length_take; lia|apply length_md5].
Qed.

Lemma decrypt_encrypt n seed plain :
  length plain = 16 * n → decrypt_blocks n seed (encrypt_blocks n seed plain) = plain.
Proof.
  revert seed plain. induction n as [|n IH]; intros seed plain H; [by destruct plain|].
  cbn [encrypt_blocks decrypt_blocks].
  set (c := xor_block (take 16 plain) (md5 (radsecSecret ++ seed))).
  assert (length c = 16) as Hc
    by (apply xor_block_length; [rewrite length_take; lia|apply length_md5]).
  rewrite take_app_length', drop_app_length' by done.
  rewrite IH by (rewrite length_drop; lia).
  unfold c. rewrite xor_block_twice by (rewrite length_md5, length_take; lia).
  apply take_drop.
Qed.

Lemma bor_top_bit r : band (bor r x80) x80 ≠ x00.
Proof. destruct r; vm_compute; discriminate. Qed.

Lemma mppeVendorAttr_spec r0 r1 t key ra :
  length key = 32 →
  ∃ v, mppeVendorAttr (Some (r0, r1)) t key ra = Ok v
    ∧ length v = 56 ∧ mppe_decode ra v = Some (t, key).
Proof.
  intros Hk. unfold mppeVendorAttr, saltEncrypt.
  set (plain := pad16 _). set (salt := [bor r0 x80; r1]).
  assert (length plain = 48) as Hp.
  { unfold plain. destruct (pad16_length (byte_of (Z.of_nat (length key)) :: key)) as (n & -> & Hn).
    simpl length in Hn. rewrite Hk in Hn. lia. }
  rewrite Hp. change (48 / 16) with 3.
  set (enc := encrypt_blocks 3 (ra ++ salt) plain).
  assert (length enc = 48) as He by (apply encrypt_blocks_length; done).
  eexists. split; [reflexivity|]. split; [cbn [length be32 app salt]; rewrite He; done|].
  unfold mppe_decode. cbn [be32 app]. cbn [take drop].
  change (byte_at _ 4) with t. change (byte_at _ 6) with (bor r0 x80).
  rewrite bool_decide_eq_true_2 by reflexivity.
  rewrite bool_decide_eq_true_2; last first.
  { change (byte_at _ 5) with (byte_of (Z.of_nat (2 + length (salt ++ enc)))).
    cbn [length salt app]. rewrite He, u8_byte_of_small by lia. reflexivity. }
  rewrite bool_decide_eq_true_2 by apply bor_top_bit. cbn [andb].
  change (take 2 _) with salt. change (drop 2 _) with enc. unfold unsalt. rewrite He.
  change (48 / 16) with 3. unfold enc. rewrite decrypt_encrypt by (rewrite Hp; done).
  unfold plain, pad16. cbn [app fmap option_fmap option_map]. do 2 f_equal.
  rewrite u8_byte_of_small by lia. rewrite Nat2Z.id. by apply take_app_length'.
Qed.

(** The link keys reach the authenticator.  For a master session key of at
    least 64 bytes, [addMPPEKeys] appends exactly two Vendor-Specific attributes
    of 56 bytes; an RFC 2548 receiver that knows the secret and the request
    authenticator decodes them to the MS-MPPE-Send-Key (bytes 32 to 63 of the
    MSK) and the MS-MPPE-Recv-Key (bytes 0 to 31).  A shorter key adds nothing. *)
Theorem mppe_keys_recoverable p msk ra r1 r2 :
  if length msk <? 64 then addMPPEKeys (Some r1) (Some r2) p msk ra = Ok p
  else ∃ v1 v2,
    addMPPEKeys (Some r1) (Some r2) p msk ra
      = Ok (add (add p attrVendorSpecific v1) attrVendorSpecific v2)
    ∧ length v1 = 56 ∧ length v2 = 56
    ∧ mppe_decode ra v1 = Some (msMPPESendKey, take 32 (drop 32 msk))
    ∧ mppe_decode ra v2 = Some (msMPPERecvKey, take 32 msk).
Proof.
  unfold addMPPEKeys, mskLen. destruct (Nat.ltb_spec (length msk) 64) as [|Hl]; [done|].
  destruct r1 as [a1 b1], r2 as [a2 b2].
  destruct (mppeVendorAttr_spec a1 b1 msMPPESendKey (take 32 (drop 32 msk)) ra) as (v1 & E1 & L1 & D1).
  { rewrite length_take, length_drop. lia. }
  destruct (mppeVendorAttr_spec a2 b2 msMPPERecvKey (take 32 msk) ra) as (v2 & E2 & L2 & D2).
  { rewrite length_take. lia. }
  exists v1, v2. by rewrite E1, E2.
Qed.

End Mppe.
