(* ===== verification/MemConn.v ===== *)
(** * The in-memory connection (internal/radsec/conn.go)

    [memConn] carries the inner TLS handshake between the RADIUS request loop
    and the [tls.Server] goroutine.  Every method runs under the mutex, so each
    critical section is one atomic function on the record: a turn of the [Read]
    loop is [read_try], a turn of the [collectOutbound] loop is [collect_try],
    both of which may report that the caller waits on the condition variable.

    [step] interleaves the two threads.  Its state adds ghost histories (all
    bytes pushed, consumed, written and collected) and whether the goroutine is
    inside [Read].  Waiting, the periodic wake-up of [wakeAfter] and fairness
    are the scheduler's; the theorems hold for every interleaving. *)

From S2P Require Import Prelude.

Module MemConn.

Record memConn := mkConn {
  inbound : bytes;
  outbound : bytes;
  readWaiting : bool;
  closed : bool;
  readDL : option Z;
}.

Definition newMemConn : memConn := mkConn [] [] false false None.

Inductive read_result :=
| ReadData (b : bytes)
| ReadClosed
| ReadTimeout
| ReadWait.

(** One turn of [Read] with a buffer of [n] bytes at time [now]. *)
Definition read_try (now : Z) (n : nat) (c : memConn) : memConn * read_result :=
  match inbound c with
  | [] =>
      if closed c then (c, ReadClosed)
      else if match readDL c with Some dl => (dl <=? now)%Z | None => false end
      then (c, ReadTimeout)
      else (mkConn [] (outbound c) true (closed c) (readDL c), ReadWait)
  | _ =>
      (mkConn (drop n (inbound c)) (outbound c) false (closed c) (readDL c),
       ReadData (take n (inbound c)))
  end.

(** [Write]: [None] is [errConnClosed]. *)
Definition write (b : bytes) (c : memConn) : option memConn :=
  if closed c then None
  else Some (mkConn (inbound c) (outbound c ++ b) (readWaiting c) (closed c) (readDL c)).

Definition pushInbound (b : bytes) (c : memConn) : memConn :=
  mkConn (inbound c ++ b) (outbound c) (readWaiting c) (closed c) (readDL c).

Definition drain (c : memConn) : memConn * bytes :=
  (mkConn (inbound c) [] (readWaiting c) (closed c) (readDL c), outbound c).

(** One turn of [collectOutbound]: [None] means it waits. *)
Definition collect_try (done : bool) (now deadline : Z) (c : memConn)
  : option (memConn * bytes) :=
  if done then Some (drain c)
  else if (0 <? length (outbound c)) && readWaiting c then Some (drain c)
  else if closed c || (deadline <=? now)%Z then Some (drain c)
  else None.

Definition close (c : memConn) : memConn :=
  mkConn (inbound c) (outbound c) (readWaiting c) true (readDL c).

Definition SetReadDeadline (t : option Z) (c : memConn) : memConn :=
  mkConn (inbound c) (outbound c) (readWaiting c) (closed c) t.

(** ** Interleavings *)

Record sys := mkSys {
  conn : memConn;
  in_read : bool;      (** the goroutine is inside [Read] *)
  failed : bool;       (** a [Read] has returned an error *)
  pushed : bytes;
  consumed : bytes;
  written : bytes;
  collected : bytes;
}.

Definition init : sys := mkSys newMemConn false false [] [] [] [].

(** The relay pushes a peer flight only between two flights of the server, that
    is when the previous one has been collected. *)
Inductive step : sys → sys → Prop :=
| step_read_data now n s c b :
    read_try now n (conn s) = (c, ReadData b) →
    step s (mkSys c false (failed s) (pushed s) (consumed s ++ b) (written s) (collected s))
| step_read_wait now n s c :
    read_try now n (conn s) = (c, ReadWait) →
    step s (mkSys c true (failed s) (pushed s) (consumed s) (written s) (collected s))
| step_read_error now n s c r :
    read_try now n (conn s) = (c, r) → r = ReadClosed ∨ r = ReadTimeout →
    step s (mkSys c false true (pushed s) (consumed s) (written s) (collected s))
| step_write b s c :
    in_read s = false → write b (conn s) = Some c →
    step s (mkSys c false (failed s) (pushed s) (consumed s) (written s ++ b) (collected s))
| step_push b s :
    outbound (conn s) = [] →
    step s (mkSys (pushInbound b (conn s)) (in_read s) (failed s)
              (pushed s ++ b) (consumed s) (written s) (collected s))
| step_collect done now deadline s c out :
    collect_try done now deadline (conn s) = Some (c, out) →
    step s (mkSys c (in_read s) (failed s) (pushed s) (consumed s) (written s) (collected s ++ out))
| step_close s :
    step s (mkSys (close (conn s)) (in_read s) (failed s)
              (pushed s) (consumed s) (written s) (collected s))
| step_deadline t s :
    step s (mkSys (SetReadDeadline t (conn s)) (in_read s) (failed s)
              (pushed s) (consumed s) (written s) (collected s)).

Definition reachable (s : sys) : Prop := rtc step init s.

(** ** Invariant *)

Record inv (s : sys) : Prop := {
  inv_in : pushed s = consumed s ++ inbound (conn s);
  inv_out : written s = collected s ++ outbound (conn s);
  inv_wait : readWaiting (conn s) = true → in_read s = true ∨ failed s = true;
  inv_flight : failed s = false → readWaiting (conn s) = true →
               inbound (conn s) = [] ∨ outbound (conn s) = [];
}.

Lemma read_data_inv now n c c' b :
  read_try now n c = (c', ReadData b) →
  inbound c = b ++ inbound c' ∧ outbound c' = outbound c ∧ readWaiting c' = false.
Proof.
  unfold read_try. destruct (inbound c) as [|x l] eqn:E.
  - destruct (closed c); [done|]. by destruct (match readDL c with Some _ => _ | None => _ end).
  - intros [= <- <-]. cbn [inbound outbound readWaiting]. by rewrite take_drop.
Qed.

Lemma read_wait_inv now n c c' :
  read_try now n c = (c', ReadWait) →
  inbound c = [] ∧ inbound c' = [] ∧ outbound c' = outbound c.
Proof.
  unfold read_try. destruct (inbound c) as [|x l] eqn:E; [|done].
  destruct (closed c); [done|]. destruct (match readDL c with Some _ => _ | None => _ end); [done|].
  by intros [= <-].
Qed.

Lemma read_error_inv now n c c' r :
  read_try now n c = (c', r) → r = ReadClosed ∨ r = ReadTimeout → c' = c.
Proof.
  unfold read_try. intros H Hr. destruct (inbound c) as [|x l] eqn:E.
  - destruct (closed c); [congruence|].
    destruct (match readDL c with Some _ => _ | None => _ end); [congruence|].
    destruct Hr; congruence.
  - destruct Hr; congruence.
Qed.

Lemma collect_drains done now dl c c' out :
  collect_try done now dl c = Some (c', out) → (c', out) = drain c.
Proof.
  unfold collect_try. destruct done; [congruence|].
  destruct (_ && _); [congruence|]. destruct (_ || _); congruence.
Qed.

Lemma relay_step_inv s s' : inv s → step s s' → inv s'.
Proof.
  intros [Hin Hout Hw Hf] Hs.
  destruct Hs as [now n s c b Hr|now n s c Hr|now n s c r Hr He|b s c Hi Hwr|b s Hb
                 |done now dl s c out Hc|s|t s]; constructor; cbn in *.
  all: try (apply read_data_inv in Hr as (Hi' & Ho & Hrw)).
  all: try (apply read_wait_inv in Hr as (Hi' & Hi'' & Ho)).
  all: try (pose proof (read_error_inv _ _ _ _ _ Hr He); subst c).
  all: try (unfold write in Hwr; destruct (closed (conn s)); [done|]; injection Hwr as <-; cbn).
  all: try (apply collect_drains in Hc; injection Hc as -> ->; cbn).
  all: rewrite <- ?app_assoc; try congruence; auto.
  - by rewrite Hout, <- app_assoc.
  - intros Hrw. destruct (Hw Hrw); [congruence|by right].
  - intros Hfl Hrw. destruct (Hw Hrw); congruence.
  - by rewrite Hin, <- app_assoc.
  - by rewrite app_nil_r.
Qed.

Lemma inv_init : inv init.
Proof. by constructor. Qed.

Lemma relay_reachable_inv s : reachable s → inv s.
Proof.
  intros H. unfold reachable in H. pose proof inv_init as Hi.
  induction H as [|x y z Hxy _ IH]; [done|]. apply IH. by eapply relay_step_inv.
Qed.

(** The relay is lossless and ordered.  In every interleaving of the TLS
    goroutine with the request loop, what the goroutine has read is a prefix of
    what was pushed, and what was collected followed by what is still buffered is
    exactly what the goroutine wrote. *)
Theorem relay_lossless s :
  reachable s →
  pushed s = consumed s ++ inbound (conn s)
  ∧ written s = collected s ++ outbound (conn s).
Proof. intros []%relay_reachable_inv. done. Qed.

Lemma relay_lossless_witness :
  let s := mkSys (mkConn [] [x16] true false None) true false [x01] [x01] [x16] [] in
  reachable s ∧ pushed s = consumed s ++ inbound (conn s)
  ∧ written s = collected s ++ outbound (conn s).
Proof.
  intros s.
  assert (reachable s) as Hs.
  { eapply rtc_l; [apply (step_push [x01]); reflexivity|].
    eapply rtc_l; [apply (step_read_data 0 5); reflexivity|].
    eapply rtc_l; [apply (step_write [x16]); reflexivity|].
    eapply rtc_l; [apply (step_read_wait 0 5); reflexivity|]. apply rtc_refl. }
  split; [exact Hs|]. apply (relay_lossless s Hs).
Defined.

(** A flight is collected whole.  Whenever [collectOutbound] returns without
    the handshake being done, the connection closed or the deadline passed (and
    no read has failed), the goroutine is blocked in [Read] having consumed
    everything the peer sent, and the bytes returned complete its output; once
    the deadline has passed [collectOutbound] always returns. *)
Theorem flight_complete s now deadline :
  reachable s → failed s = false → closed (conn s) = false → (now < deadline)%Z →
  (∀ c out, collect_try false now deadline (conn s) = Some (c, out) →
     in_read s = true ∧ consumed s = pushed s ∧ collected s ++ out = written s ∧ out ≠ [])
  ∧ ∀ now' done, (deadline <= now')%Z → is_Some (collect_try done now' deadline (conn s)).
Proof.
  intros [Hin Hout Hw Hf]%relay_reachable_inv Hfail Hcl Hnow. split.
  - intros c out Hc. pose proof (collect_drains _ _ _ _ _ _ Hc) as Hd.
    unfold collect_try in Hc. rewrite Hcl in Hc. cbn [orb] in Hc.
    rewrite (proj2 (Z.leb_gt deadline now)) in Hc by done.
    destruct (Nat.ltb_spec 0 (length (outbound (conn s)))) as [Hlt|]; [|done].
    destruct (readWaiting (conn s)) eqn:Hrw; [|done]. injection Hd as -> ->.
    split_and!.
    + destruct (Hw eq_refl); congruence.
    + destruct (Hf Hfail eq_refl) as [E|E]; [by rewrite Hin, E, app_nil_r|].
      by rewrite E in Hlt; simpl in Hlt; lia.
    + done.
    + intros E. rewrite E in Hlt. simpl in Hlt. lia.
  - intros now' done Hd. unfold collect_try. destruct done; [done|].
    destruct (_ && _); [done|]. rewrite (proj2 (Z.leb_le deadline now') Hd), orb_true_r. done.
Qed.

Lemma flight_complete_witness :
  let s := mkSys (mkConn [] [x16] true false None) true false [x01] [x01] [x16] [] in
  collect_try false 0 8 (conn s) = Some (mkConn [] [] true false None, [x16])
  ∧ in_read s = true.
Proof.
  intros s. split; [reflexivity|].
  assert (reachable s) as Hs.
  { eapply rtc_l; [apply (step_push [x01]); reflexivity|].
    eapply rtc_l; [apply (step_read_data 0 5); reflexivity|].
    eapply rtc_l; [apply (step_write [x16]); reflexivity|].
    eapply rtc_l; [apply (step_read_wait 0 5); reflexivity|]. apply rtc_refl. }
  eapply (proj1 (flight_complete s 0 8 Hs eq_refl eq_refl eq_refl)). reflexivity.
Defined.

End MemConn.
