(* ===== verification/Dot1x.v ===== *)
(** * The 802.1X authenticator (internal/dot1x/authenticator.go)

    The policy decision point of the port-access design: EAP-TLS, password and
    MAC-bypass authentication, authorization, accounting and the MAB registry.

    State: the session map and the MAB map, as [gmap]s.  [clk i] is the i-th
    reading of the clock along one call, in nanoseconds.  The identity backend is
    the [UserStore] interface the package declares; the server installs a nil
    one, and calling a nil interface panics, so [users] is an [option] and the
    operations that may call it return an [option] whose [None] is the panic.
    PEM and X.509 decoding are the [CertLib] argument: [pem.Decode],
    [pem.EncodeToMemory] and [x509.ParseCertificate], with the documented facts
    that decoding undoes encoding and that a parsed certificate keeps its DER. *)

From S2P Require Import Prelude GoStrings NetMac.
From Stdlib Require Import Ascii.
#[local] Open Scope string_scope.

Module Dot1x.
Import GoStrings.

Record certificate := mkCert {
  Raw : bytes;
  NotBefore : Z;
  NotAfter : Z;
  CommonName : string;
  Organization : list string;
}.

Class CertLib := {
  pem_decode : string → option bytes;
  pem_encode : bytes → string;
  parse_cert : bytes → option certificate;
  pem_decode_encode : ∀ der, pem_decode (pem_encode der) = Some der;
  pem_encode_nonempty : ∀ der, pem_encode der ≠ "";
  parse_cert_raw : ∀ der c, parse_cert der = Some c → Raw c = der;
}.

Definition EAPTLS : string := "EAP-TLS".
Definition EAPTTLS : string := "EAP-TTLS".
Definition PEAP : string := "PEAP".
Definition MABEAP : string := "MAB".

Inductive AuthResult := AuthSuccess | AuthReject | AuthChallenge.
#[global] Instance AuthResult_eq_dec : EqDecision AuthResult.
Proof. solve_decision. Defined.

Record AuthRequest := mkAuthRequest {
  rq_SwitchID : string;
  rq_PortID : string;
  rq_MACAddress : string;
  rq_EAPMethod : string;
  rq_Username : string;
  rq_Password : string;
  rq_ClientCertPEM : string;
  rq_NASIdentifier : string;
  rq_CalledStation : string;
  rq_OrgID : string;
}.

Record AuthResponse := mkAuthResponse {
  rs_Result : AuthResult;
  rs_SessionID : string;
  rs_Username : string;
  rs_AssignedVLAN : Z;
  rs_SegmentGroup : string;
  rs_ACLName : string;
  rs_SessionTimeout : Z;
  rs_ReauthPeriod : Z;
  rs_Message : string;
  rs_Attributes : gmap string string;
}.

Definition reject (msg : string) : AuthResponse :=
  mkAuthResponse AuthReject "" "" 0 "" "" 0 0 msg ∅.

Record AuthzRequest := mkAuthzRequest {
  az_SessionID : string;
  az_SwitchID : string;
  az_PortID : string;
  az_MACAddress : string;
  az_Username : string;
  az_DeviceType : string;
  az_OrgID : string;
}.

Record AuthzResponse := mkAuthzResponse {
  zs_Allowed : bool;
  zs_VLAN : Z;
  zs_SegmentGroup : string;
  zs_ACLName : string;
  zs_QoSPolicy : string;
  zs_MaxBandwidth : Z;
  zs_Message : string;
}.

Record AcctRequest := mkAcctRequest {
  ac_SessionID : string;
  ac_Type : string;
  ac_SwitchID : string;
  ac_PortID : string;
  ac_MACAddress : string;
  ac_Username : string;
  ac_InputBytes : Z;
  ac_OutputBytes : Z;
  ac_Duration : Z;
  ac_Reason : string;
  ac_OrgID : string;
}.

Record Session := mkSession {
  s_ID : string;
  s_SwitchID : string;
  s_PortID : string;
  s_MACAddress : string;
  s_Username : string;
  s_EAPMethod : string;
  s_VLAN : Z;
  s_SegmentGroup : string;
  s_State : string;
  s_StartedAt : Z;
  s_LastActivity : Z;
  s_InputBytes : Z;
  s_OutputBytes : Z;
  s_OrgID : string;
}.

Record MACAuthEntry := mkMACAuthEntry {
  m_MACAddress : string;
  m_DeviceName : string;
  m_DeviceType : string;
  m_VLAN : Z;
  m_SegmentGroup : string;
  m_OrgID : string;
  m_CreatedAt : Z;
}.

(** [ValidateCredentials] returns [None] on error; [GetUserGroups] returns the
    groups and whether there was an error (logged and otherwise ignored). *)
Record UserStore := mkUserStore {
  ValidateCredentials : string → string → string → option bool;
  GetUserGroups : string → string → list string * bool;
}.

Record Authenticator := mkAuthenticator {
  sessions : gmap string Session;
  macDB : gmap string MACAuthEntry;
  users : option UserStore;
}.

Definition NewAuthenticator (us : option UserStore) : Authenticator :=
  mkAuthenticator ∅ ∅ us.

Definition with_sessions (a : Authenticator) (m : gmap string Session) : Authenticator :=
  mkAuthenticator m (macDB a) (users a).
Definition with_macDB (a : Authenticator) (m : gmap string MACAuthEntry) : Authenticator :=
  mkAuthenticator (sessions a) m (users a).

Definition normalizeMAC (mac : string) : string :=
  match NetMac.ParseMAC mac with
  | None => mac
  | Some hw => NetMac.MacString hw
  end.

(** ** Sessions *)

(** [time.Now().UnixMilli()]. *)
Definition unix_milli (t : Z) : Z := (t / 1000000)%Z.

Definition session_id (req : AuthRequest) (t : Z) : string :=
  "dot1x-" +:+ rq_SwitchID req +:+ "-" +:+ rq_PortID req +:+ "-" +:+ itoa (unix_milli t).

Definition createSession (a : Authenticator) (clk : nat → Z) (req : AuthRequest)
    (username : string) : Authenticator * AuthResponse :=
  let sessionID := session_id req (clk 1) in
  let sess := mkSession sessionID (rq_SwitchID req) (rq_PortID req)
                (normalizeMAC (rq_MACAddress req)) username (rq_EAPMethod req)
                100 "default" "authenticated" (clk 2) (clk 3) 0 0 (rq_OrgID req) in
  (with_sessions a (<[sessionID := sess]> (sessions a)),
   mkAuthResponse AuthSuccess sessionID username (s_VLAN sess) (s_SegmentGroup sess) ""
     28800 3600 "Authenticated" ∅).

Section WithCertLib.
Context `{CertLib}.

Definition authenticateEAPTLS (a : Authenticator) (clk : nat → Z) (req : AuthRequest)
  : Authenticator * AuthResponse :=
  if bool_decide (rq_ClientCertPEM req = "") then
    (a, reject "Client certificate required for EAP-TLS")
  else
    match pem_decode (rq_ClientCertPEM req) with
    | None => (a, reject "Invalid certificate format")
    | Some block =>
        match parse_cert block with
        | None => (a, reject "Certificate parse failed")
        | Some cert =>
            if (clk 0%nat <? NotBefore cert)%Z || (NotAfter cert <? clk 0%nat)%Z
            then (a, reject "Certificate expired or not yet valid")
            else if bool_decide (CommonName cert = "")
            then (a, reject "Certificate has no Common Name")
            else createSession a clk req (CommonName cert)
        end
    end.

Definition authenticatePassword (a : Authenticator) (clk : nat → Z) (req : AuthRequest)
  : option (Authenticator * AuthResponse) :=
  if bool_decide (rq_Username req = "") || bool_decide (rq_Password req = "") then
    Some (a, reject "Username and password required")
  else
    us ← users a;
    match ValidateCredentials us (rq_Username req) (rq_Password req) (rq_OrgID req) with
    | None => Some (a, reject "Authentication service error")
    | Some false => Some (a, reject "Invalid credentials")
    | Some true => Some (createSession a clk req (rq_Username req))
    end.

Definition authenticateMAB (a : Authenticator) (clk : nat → Z) (req : AuthRequest)
  : Authenticator * AuthResponse :=
  match macDB a !! normalizeMAC (rq_MACAddress req) with
  | None => (a, reject "MAC address not in whitelist")
  | Some entry =>
      let '(a', resp) := createSession a clk req ("mab:" +:+ m_DeviceName entry) in
      (a', mkAuthResponse (rs_Result resp) (rs_SessionID resp) (rs_Username resp)
             (m_VLAN entry) (m_SegmentGroup entry) (rs_ACLName resp)
             (rs_SessionTimeout resp) (rs_ReauthPeriod resp) (rs_Message resp) (rs_Attributes resp))
  end.

Definition Authenticate (a : Authenticator) (clk : nat → Z) (req : AuthRequest)
  : option (Authenticator * AuthResponse) :=
  if bool_decide (rq_EAPMethod req = EAPTLS) then Some (authenticateEAPTLS a clk req)
  else if bool_decide (rq_EAPMethod req = EAPTTLS) || bool_decide (rq_EAPMethod req = PEAP)
  then authenticatePassword a clk req
  else if bool_decide (rq_EAPMethod req = MABEAP) then Some (authenticateMAB a clk req)
  else Some (a, reject "Unsupported EAP method").

End WithCertLib.

(** ** Authorization *)

Definition apply_group (r : AuthzResponse) (g : string) : AuthzResponse :=
  if bool_decide (g = "network-admins") then
    mkAuthzResponse (zs_Allowed r) (zs_VLAN r) (zs_SegmentGroup r) "full-access"
      (zs_QoSPolicy r) (zs_MaxBandwidth r) (zs_Message r)
  else if bool_decide (g = "contractors") then
    mkAuthzResponse (zs_Allowed r) (zs_VLAN r) (zs_SegmentGroup r) "restricted"
      (zs_QoSPolicy r) 10000 (zs_Message r)
  else if bool_decide (g = "iot-devices") then
    mkAuthzResponse (zs_Allowed r) (zs_VLAN r) (zs_SegmentGroup r) "iot-restricted"
      (zs_QoSPolicy r) 5000 (zs_Message r)
  else r.

Definition Authorize (a : Authenticator) (req : AuthzRequest) : option AuthzResponse :=
  match sessions a !! az_SessionID req with
  | None => Some (mkAuthzResponse false 0 "" "" "" 0 "Session not found")
  | Some sess =>
      us ← users a;
      let '(groups, _) := GetUserGroups us (az_Username req) (az_OrgID req) in
      Some (foldl apply_group
              (mkAuthzResponse true (s_VLAN sess) (s_SegmentGroup sess) "" "" 0 "") groups)
  end.

(** ** Accounting and session administration *)

Definition set_state (st : string) (s : Session) : Session :=
  mkSession (s_ID s) (s_SwitchID s) (s_PortID s) (s_MACAddress s) (s_Username s)
    (s_EAPMethod s) (s_VLAN s) (s_SegmentGroup s) st (s_StartedAt s) (s_LastActivity s)
    (s_InputBytes s) (s_OutputBytes s) (s_OrgID s).

Definition account (now : Z) (req : AcctRequest) (s : Session) : Session :=
  if bool_decide (ac_Type req = "start") then
    mkSession (s_ID s) (s_SwitchID s) (s_PortID s) (s_MACAddress s) (s_Username s)
      (s_EAPMethod s) (s_VLAN s) (s_SegmentGroup s) "authenticated" now (s_LastActivity s)
      (s_InputBytes s) (s_OutputBytes s) (s_OrgID s)
  else if bool_decide (ac_Type req = "interim-update") then
    mkSession (s_ID s) (s_SwitchID s) (s_PortID s) (s_MACAddress s) (s_Username s)
      (s_EAPMethod s) (s_VLAN s) (s_SegmentGroup s) (s_State s) (s_StartedAt s) now
      (ac_InputBytes req) (ac_OutputBytes req) (s_OrgID s)
  else if bool_decide (ac_Type req = "stop") then
    mkSession (s_ID s) (s_SwitchID s) (s_PortID s) (s_MACAddress s) (s_Username s)
      (s_EAPMethod s) (s_VLAN s) (s_SegmentGroup s) "disconnected" (s_StartedAt s)
      (s_LastActivity s) (ac_InputBytes req) (ac_OutputBytes req) (s_OrgID s)
  else s.

Definition RecordAccounting (a : Authenticator) (now : Z) (req : AcctRequest) : Authenticator :=
  match sessions a !! ac_SessionID req with
  | None => a
  | Some s => with_sessions a (<[ac_SessionID req := account now req s]> (sessions a))
  end.

Definition ListSessions (ro : range_order) (a : Authenticator) (orgID : string) : list Session :=
  List.filter (λ s, bool_decide (orgID = "") || bool_decide (s_OrgID s = orgID))
    (values ro (sessions a)).

Definition GetSession (a : Authenticator) (id : string) : option Session := sessions a !! id.

Definition DisconnectSession (a : Authenticator) (id : string) : Authenticator * bool :=
  match sessions a !! id with
  | None => (a, false)
  | Some s => (with_sessions a (<[id := set_state "disconnected" s]> (sessions a)), true)
  end.

(** ** The MAB registry *)

Definition RegisterMAC (a : Authenticator) (now : Z) (e : MACAuthEntry) : Authenticator :=
  let mac := normalizeMAC (m_MACAddress e) in
  with_macDB a
    (<[mac := mkMACAuthEntry mac (m_DeviceName e) (m_DeviceType e) (m_VLAN e)
                (m_SegmentGroup e) (m_OrgID e) now]> (macDB a)).

Definition RemoveMAC (a : Authenticator) (mac : string) : Authenticator * bool :=
  let mac := normalizeMAC mac in
  match macDB a !! mac with
  | None => (a, false)
  | Some _ => (with_macDB a (delete mac (macDB a)), true)
  end.

Definition ListMACs (ro : range_order) (a : Authenticator) (orgID : string) : list MACAuthEntry :=
  List.filter (λ e, bool_decide (orgID = "") || bool_decide (m_OrgID e = orgID))
    (values ro (macDB a)).


(** ** Properties *)

Lemma normalizeMAC_idem mac : normalizeMAC (normalizeMAC mac) = normalizeMAC mac.
Proof.
  unfold normalizeMAC. destruct (NetMac.ParseMAC mac) as [hw|] eqn:E; [|by rewrite E].
  rewrite NetMac.parse_print; [done|]. by eapply NetMac.parse_size.
Qed.

(** Group policies change the ACL and the bandwidth only. *)
Lemma authorize_groups_frame gs r :
  zs_Allowed (foldl apply_group r gs) = zs_Allowed r
  ∧ zs_VLAN (foldl apply_group r gs) = zs_VLAN r
  ∧ zs_SegmentGroup (foldl apply_group r gs) = zs_SegmentGroup r.
Proof.
  revert r. induction gs as [|g gs IH]; intros r; [done|]. cbn [foldl].
  destruct (IH (apply_group r g)) as (-> & -> & ->).
  unfold apply_group. repeat case_bool_decide; done.
Qed.

Section Properties.
Context `{CertLib}.

(** Who a request authenticates as, stated without the code's control flow. *)
Inductive granted (a : Authenticator) (t : Z) (req : AuthRequest) : string → Prop :=
| granted_tls der cert :
    rq_EAPMethod req = EAPTLS → rq_ClientCertPEM req ≠ "" →
    pem_decode (rq_ClientCertPEM req) = Some der → parse_cert der = Some cert →
    (NotBefore cert <= t <= NotAfter cert)%Z → CommonName cert ≠ "" →
    granted a t req (CommonName cert)
| granted_password us :
    rq_EAPMethod req = EAPTTLS ∨ rq_EAPMethod req = PEAP →
    rq_Username req ≠ "" → rq_Password req ≠ "" → users a = Some us →
    ValidateCredentials us (rq_Username req) (rq_Password req) (rq_OrgID req) = Some true →
    granted a t req (rq_Username req)
| granted_mab e :
    rq_EAPMethod req = MABEAP → macDB a !! normalizeMAC (rq_MACAddress req) = Some e →
    granted a t req ("mab:" +:+ m_DeviceName e).

Definition new_session (clk : nat → Z) (req : AuthRequest) (u : string) : Session :=
  mkSession (session_id req (clk 1%nat)) (rq_SwitchID req) (rq_PortID req)
    (normalizeMAC (rq_MACAddress req)) u (rq_EAPMethod req)
    100 "default" "authenticated" (clk 2%nat) (clk 3%nat) 0 0 (rq_OrgID req).

Definition opens (a a' : Authenticator) (clk : nat → Z) (req : AuthRequest)
    (r : AuthResponse) : Prop :=
  ∃ u, granted a (clk 0%nat) req u
    ∧ rs_Result r = AuthSuccess ∧ rs_Username r = u
    ∧ rs_SessionID r = session_id req (clk 1%nat)
    ∧ a' = with_sessions a (<[session_id req (clk 1%nat) := new_session clk req u]> (sessions a)).

Definition refuses (a a' : Authenticator) (clk : nat → Z) (req : AuthRequest)
    (r : AuthResponse) : Prop :=
  rs_Result r = AuthReject ∧ a' = a ∧ ∀ u, ¬ granted a (clk 0%nat) req u.

Ltac no_grant :=
  split_and!; [done|done|]; intros ? Hg; destruct Hg;
  unfold EAPTLS, EAPTTLS, PEAP, MABEAP in *; destruct_or?; simplify_eq; first [congruence|lia].

Lemma authenticateEAPTLS_spec a clk req :
  rq_EAPMethod req = EAPTLS →
  let '(a', r) := authenticateEAPTLS a clk req in
  opens a a' clk req r ∨ refuses a a' clk req r.
Proof.
  intros Hm. unfold authenticateEAPTLS.
  case_bool_decide as Hp; [right; no_grant|].
  destruct (pem_decode (rq_ClientCertPEM req)) as [der|] eqn:Hd; [|right; no_grant].
  destruct (parse_cert der) as [cert|] eqn:Hc; [|right; no_grant].
  destruct (Z.ltb_spec (clk 0%nat) (NotBefore cert)); [right; no_grant|].
  destruct (Z.ltb_spec (NotAfter cert) (clk 0%nat)); [right; no_grant|]. cbn [orb].
  case_bool_decide as Hn; [right; no_grant|].
  left. exists (CommonName cert). split_and!; [by eapply granted_tls|done..].
Qed.

Lemma authenticatePassword_spec a clk req a' r :
  rq_EAPMethod req = EAPTTLS ∨ rq_EAPMethod req = PEAP →
  authenticatePassword a clk req = Some (a', r) →
  opens a a' clk req r ∨ refuses a a' clk req r.
Proof.
  intros Hm. unfold authenticatePassword.
  assert (rq_EAPMethod req ≠ EAPTLS ∧ rq_EAPMethod req ≠ MABEAP) as [Hm1 Hm2]
    by (destruct Hm as [-> | ->]; done).
  case_bool_decide as Hu; [intros [= <- <-]; right; no_grant|].
  case_bool_decide as Hw; [intros [= <- <-]; right; no_grant|]. cbn [orb].
  destruct (users a) as [us|] eqn:Hus; [|done]. cbn [mbind option_bind].
  destruct (ValidateCredentials us _ _ _) as [[]|] eqn:Hv; intros [= <- <-].
  - left. exists (rq_Username req). split_and!; [by eapply granted_password|done..].
  - right; no_grant.
  - right; no_grant.
Qed.

Lemma authenticateMAB_spec a clk req :
  rq_EAPMethod req = MABEAP →
  let '(a', r) := authenticateMAB a clk req in
  opens a a' clk req r ∨ refuses a a' clk req r.
Proof.
  intros Hm. unfold authenticateMAB.
  destruct (macDB a !! normalizeMAC (rq_MACAddress req)) as [e|] eqn:He; [|right; no_grant].
  left. exists ("mab:" +:+ m_DeviceName e). split_and!; [by eapply granted_mab|done..].
Qed.

Lemma authenticate_cases a clk req a' r :
  Authenticate a clk req = Some (a', r) →
  opens a a' clk req r ∨ refuses a a' clk req r.
Proof.
  unfold Authenticate.
  case_bool_decide as H1.
  { intros [= E]. pose proof (authenticateEAPTLS_spec a clk req H1) as Hs. by rewrite E in Hs. }
  case_bool_decide as H2; [intros E; by eapply authenticatePassword_spec; [left|]|].
  case_bool_decide as H3; [intros E; by eapply authenticatePassword_spec; [right|]|]. cbn [orb].
  case_bool_decide as H4.
  { intros [= E]. pose proof (authenticateMAB_spec a clk req H4) as Hs. by rewrite E in Hs. }
  intros [= <- <-]. right. no_grant.
Qed.

(** C5: Authentication is sound and complete for the stated policy.  A call that
    returns either succeeds, and then the credential presented is one the policy
    grants, the session opened is exactly the described one and nothing else
    changes; or rejects, and then no credential rule applies and the state is
    untouched.  (For EAP-TLS the rule is a parsable certificate inside its
    validity window with a Common Name: the issuer is not consulted.) *)
Theorem authenticate_sound_complete a clk req a' r :
  Authenticate a clk req = Some (a', r) →
  (rs_Result r = AuthSuccess ↔ ∃ u, granted a (clk 0%nat) req u)
  ∧ (rs_Result r = AuthSuccess → opens a a' clk req r)
  ∧ (rs_Result r ≠ AuthSuccess → rs_Result r = AuthReject ∧ a' = a).
Proof.
  intros [Ho|(Hr & -> & Hn)]%authenticate_cases.
  - pose proof Ho as (u & Hg & Hs & _). split_and!; [|done..]. split; [by exists u|done].
  - rewrite Hr. split_and!; [|done..]. split; [done|]. intros [u Hu]. by destruct (Hn u).
Qed.

End Properties.



(** ** A concrete certificate library, for the witnesses *)

Definition toy_pem_decode (s : string) : option bytes :=
  match s with
  | String "P"%char r => Some (of_string r)
  | _ => None
  end.
#[local] Instance toy_certlib : CertLib.
Proof.
  refine {| pem_decode := toy_pem_decode;
            pem_encode := λ der, String "P"%char (to_string der);
            parse_cert := λ der, Some (mkCert der 0 100 (to_string der) ["org-1"]) |}.
  - intros der. cbn. by rewrite of_to_string.
  - done.
  - by intros der c [= <-].
Defined.

Definition toy_users : UserStore :=
  mkUserStore (λ u p o, Some (bool_decide (p = "secret"))) (λ u o, (["contractors"], false)).
Definition toy_request (method mac pem : string) : AuthRequest :=
  mkAuthRequest "sw1" "p1" mac method "alice" "secret" pem "" "" "org-1".
Definition toy_clock (i : nat) : Z := 50.

Lemma authenticate_witness :
  ∃ a' r, Authenticate (NewAuthenticator (Some toy_users)) toy_clock
            (toy_request EAPTLS "" "Pdevice-7") = Some (a', r)
    ∧ rs_Result r = AuthSuccess ∧ rs_Username r = "device-7".
Proof.
  destruct (Authenticate _ _ _) as [[a' r]|] eqn:E; [|vm_compute in E; discriminate].
  exists a', r. split; [reflexivity|].
  destruct (authenticate_sound_complete _ _ _ _ _ E) as ((_ & Hiff) & Ho & _).
  assert (rs_Result r = AuthSuccess) as Hr.
  { apply Hiff. exists "device-7".
    apply (granted_tls _ _ _ (of_string "device-7")
             (mkCert (of_string "device-7") 0 100 "device-7" ["org-1"]));
      [reflexivity|discriminate|reflexivity|reflexivity|split; discriminate|discriminate]. }
  split; [exact Hr|]. destruct (Ho Hr) as (u & Hg & _ & Hu & _). rewrite Hu.
  destruct Hg; [cbn in *; simplify_eq; reflexivity|by destruct_or!|done].
Defined.

(** ** The reachable states *)

Section Reachable.
Context `{CertLib}.

Inductive step : Authenticator → Authenticator → Prop :=
| step_auth a clk req a' r : Authenticate a clk req = Some (a', r) → step a a'
| step_acct a now req : step a (RecordAccounting a now req)
| step_disconnect a id : step a (fst (DisconnectSession a id))
| step_register a now e : step a (RegisterMAC a now e)
| step_remove a mac : step a (fst (RemoveMAC a mac)).

Record wf (a : Authenticator) : Prop := {
  wf_sessions : map_Forall (λ id s,
    s_ID s = id ∧ (s_State s = "authenticated" ∨ s_State s = "disconnected")) (sessions a);
  wf_macs : map_Forall (λ mac e,
    m_MACAddress e = mac ∧ normalizeMAC mac = mac) (macDB a);
}.

Lemma account_wf now req s :
  s_ID (account now req s) = s_ID s
  ∧ (s_State s = "authenticated" ∨ s_State s = "disconnected" →
     s_State (account now req s) = "authenticated"
     ∨ s_State (account now req s) = "disconnected").
Proof. unfold account. repeat case_bool_decide; cbn; auto. Qed.


Lemma dot1x_step_wf a a' : wf a → step a a' → wf a'.
Proof.
  intros Hwf Hstep. destruct Hstep as [a clk req a' r Ha|a now req|a id|a now e|a mac].
  - apply authenticate_cases in Ha as [(u & _ & _ & _ & _ & ->)|(_ & -> & _)]; [|done].
    destruct Hwf as [Hs Hm]. constructor; [|done]. cbn.
    apply map_Forall_insert_2; [|done]. by split; [|left].
  - unfold RecordAccounting. destruct (sessions a !! ac_SessionID req) as [s|] eqn:E; [|done].
    destruct Hwf as [Hs Hm]. destruct (account_wf now req s) as [H1 H2].
    constructor; [|done]. apply map_Forall_insert_2; [|done].
    destruct (Hs _ _ E) as [E1 E2]. by rewrite H1; split; [|apply H2].
  - unfold DisconnectSession. destruct (sessions a !! id) as [s|] eqn:E; [|done].
    destruct Hwf as [Hs Hm]. constructor; [|done]. apply map_Forall_insert_2; [|done].
    by destruct (Hs _ _ E); split; [|right].
  - destruct Hwf as [Hs Hm]. constructor; [done|]. apply map_Forall_insert_2; [|done].
    split; [done|apply normalizeMAC_idem].
  - unfold RemoveMAC. destruct (macDB a !! _) eqn:E; [|done].
    destruct Hwf as [Hs Hm]. constructor; [done|]. by apply map_Forall_delete.
Qed.

(** Authenticator invariant.  In every state reachable from the empty
    authenticator by authentication, accounting, disconnection and MAB
    registration, each session is stored under its own identifier in state
    authenticated or disconnected, and each MAB entry under its canonical
    address. *)
Theorem dot1x_invariant us a : rtc step (NewAuthenticator us) a → wf a.
Proof.
  intros Hr. assert (wf (NewAuthenticator us)) as Hi by (constructor; apply map_Forall_empty).
  induction Hr as [|x y z Hxy _ IH]; [done|]. apply IH. by eapply dot1x_step_wf.
Qed.

End Reachable.

Definition toy_entry : MACAuthEntry :=
  mkMACAuthEntry "AA-BB-CC-00-11-22" "printer" "printer" 30 "iot" "org-1" 0.

Lemma dot1x_invariant_witness :
  wf (RegisterMAC (NewAuthenticator None) 5 toy_entry)
  ∧ is_Some (macDB (RegisterMAC (NewAuthenticator None) 5 toy_entry) !! "aa:bb:cc:00:11:22").
Proof.
  split; [|by eexists; vm_compute].
  apply (dot1x_invariant None). eapply rtc_once. apply step_register.
Defined.

(** The MAB registry answers by address, not by spelling.  After an entry is
    registered, a MAB request with any spelling of the same hardware address
    authenticates as that device with the entry's VLAN and segment group; after
    removal under any spelling, no spelling does. *)
Theorem mab_spelling_independent `{CertLib} a now e clk req mac :
  rq_EAPMethod req = MABEAP →
  normalizeMAC (rq_MACAddress req) = normalizeMAC (m_MACAddress e) →
  normalizeMAC mac = normalizeMAC (m_MACAddress e) →
  let a1 := RegisterMAC a now e in
  (∃ a' r, Authenticate a1 clk req = Some (a', r) ∧ rs_Result r = AuthSuccess
     ∧ rs_Username r = "mab:" +:+ m_DeviceName e
     ∧ rs_AssignedVLAN r = m_VLAN e ∧ rs_SegmentGroup r = m_SegmentGroup e)
  ∧ ∃ a2, RemoveMAC a1 mac = (a2, true)
     ∧ ∃ r, Authenticate a2 clk req = Some (a2, r) ∧ rs_Result r = AuthReject.
Proof.
  intros Hm Hr Hmac. cbv zeta. unfold Authenticate. rewrite Hm.
  change (bool_decide (MABEAP = EAPTLS)) with false.
  change (bool_decide (MABEAP = EAPTTLS) || bool_decide (MABEAP = PEAP)) with false.
  change (bool_decide (MABEAP = MABEAP)) with true. cbv iota.
  unfold authenticateMAB, RemoveMAC, RegisterMAC. cbn [macDB with_macDB].
  rewrite Hr, Hmac, lookup_insert_eq. split.
  - eexists _, _. split; [reflexivity|]. done.
  - eexists. split; [reflexivity|]. cbn [macDB with_macDB]. rewrite lookup_delete_eq.
    eexists. split; reflexivity.
Qed.

Lemma mab_spelling_witness :
  ∃ a' r, Authenticate (RegisterMAC (NewAuthenticator None) 5 toy_entry) toy_clock
            (toy_request MABEAP "aabb.cc00.1122" "") = Some (a', r)
    ∧ rs_Result r = AuthSuccess ∧ rs_AssignedVLAN r = 30%Z.
Proof.
  destruct (mab_spelling_independent (NewAuthenticator None) 5 toy_entry toy_clock
              (toy_request MABEAP "aabb.cc00.1122" "") "aa:bb:cc:00:11:22")
    as ((a' & r & H1 & H2 & _ & H3 & _) & _); [reflexivity..|].
  exists a', r. split; [exact H1|]. split; [exact H2|]. rewrite H3. reflexivity.
Defined.

(** The VLAN of a MAB device is lost at authorization.  A MAB authentication
    answers with the VLAN and segment group of the registry entry, but the
    session it stores has VLAN 100 and group default, and that is what
    [Authorize] then returns for it, whatever the entry says. *)
Theorem mab_authorize_default_vlan `{CertLib} a clk req e us azreq :
  rq_EAPMethod req = MABEAP →
  macDB a !! normalizeMAC (rq_MACAddress req) = Some e →
  users a = Some us → az_SessionID azreq = session_id req (clk 1%nat) →
  ∃ a' r z, Authenticate a clk req = Some (a', r) ∧ rs_AssignedVLAN r = m_VLAN e
    ∧ rs_SegmentGroup r = m_SegmentGroup e
    ∧ Authorize a' azreq = Some z ∧ zs_Allowed z = true
    ∧ zs_VLAN z = 100%Z ∧ zs_SegmentGroup z = "default".
Proof.
  intros Hm He Hus Haz. unfold Authenticate. rewrite Hm.
  change (bool_decide (MABEAP = EAPTLS)) with false.
  change (bool_decide (MABEAP = EAPTTLS) || bool_decide (MABEAP = PEAP)) with false.
  change (bool_decide (MABEAP = MABEAP)) with true. cbv iota.
  unfold authenticateMAB. rewrite He. cbn [createSession].
  destruct (GetUserGroups us (az_Username azreq) (az_OrgID azreq)) as [gs b] eqn:Hg.
  eexists _, _, _. split; [reflexivity|]. split; [done|]. split; [done|].
  unfold Authorize. cbn [sessions with_sessions users]. rewrite Haz, lookup_insert_eq, Hus.
  cbn [mbind option_bind]. rewrite Hg. split; [reflexivity|]. apply authorize_groups_frame.
Qed.





Definition toy_authz : AuthzRequest :=
  mkAuthzRequest "dot1x-sw1-p1-0" "sw1" "p1" "" "alice" "" "org-1".

Lemma mab_authorize_witness :
  ∃ z, (a ← fst <$> Authenticate (RegisterMAC (NewAuthenticator (Some toy_users)) 5 toy_entry)
                      toy_clock (toy_request MABEAP "aabb.cc00.1122" "");
        Authorize a toy_authz) = Some z
    ∧ zs_VLAN z = 100%Z.
Proof.
  destruct (mab_authorize_default_vlan
              (RegisterMAC (NewAuthenticator (Some toy_users)) 5 toy_entry) toy_clock
              (toy_request MABEAP "aabb.cc00.1122" "")
              (mkMACAuthEntry "aa:bb:cc:00:11:22" "printer" "printer" 30 "iot" "org-1" 5)
              toy_users toy_authz) as (a' & r & z & H1 & _ & _ & H2 & _ & H3 & _);
    [reflexivity..|].
  exists z. rewrite H1. split; [exact H2|exact H3].
Defined.

(** Disconnection does not revoke access.  After an administrator disconnects
    a session (or accounting stops it), [Authorize] still allows it, with the
    same VLAN and segment group: the session state is never consulted. *)
Theorem disconnected_still_authorized a id s us azreq :
  sessions a !! id = Some s → users a = Some us → az_SessionID azreq = id →
  ∃ a' s', DisconnectSession a id = (a', true)
    ∧ GetSession a' id = Some s' ∧ s_State s' = "disconnected"
    ∧ ∃ z, Authorize a' azreq = Some z ∧ zs_Allowed z = true
        ∧ zs_VLAN z = s_VLAN s ∧ zs_SegmentGroup z = s_SegmentGroup s.
Proof.
  intros Hs Hus Haz.
  destruct (GetUserGroups us (az_Username azreq) (az_OrgID azreq)) as [gs b] eqn:Hg.
  eexists _, (set_state "disconnected" s). unfold DisconnectSession. rewrite Hs.
  split; [reflexivity|]. unfold GetSession. cbn [sessions with_sessions].
  rewrite lookup_insert_eq. split; [done|]. split; [done|].
  unfold Authorize. cbn [sessions with_sessions users]. rewrite Haz, lookup_insert_eq, Hus.
  cbn [mbind option_bind]. rewrite Hg. eexists. split; [reflexivity|]. apply authorize_groups_frame.
Qed.

Definition toy_session : Session :=
  new_session toy_clock (toy_request PEAP "" "") "alice".

Lemma disconnected_witness :
  ∃ z, Authorize (fst (DisconnectSession
         (mkAuthenticator {["dot1x-sw1-p1-0" := toy_session]} ∅ (Some toy_users))
         "dot1x-sw1-p1-0")) toy_authz = Some z ∧ zs_Allowed z = true.
Proof.
  destruct (disconnected_still_authorized
              (mkAuthenticator {["dot1x-sw1-p1-0" := toy_session]} ∅ (Some toy_users))
              "dot1x-sw1-p1-0" toy_session toy_users toy_authz)
    as (a' & s' & H1 & _ & _ & z & H2 & H3 & _); [reflexivity..|].
  exists z. rewrite H1. split; [exact H2|exact H3].
Defined.

End Dot1x.
