(* ===== verification/RadsecServer.v ===== *)
(** * The RadSec server (internal/radsec/server.go, cmd/server/radsec_pdp.go)

    The request-driven EAP-TLS state machine: one [session] per State token, a
    PDP that decides on the verified certificate, replies built with the RADIUS
    and EAP codecs, the reaper, the connection loop and the feature-flag switch.

    - The inner TLS engine ([crypto/tls] behind [memConn]) is the [TlsServer]
      interface: [tls_flight t b] is the engine after a peer flight was pushed
      and a reply collected, [tls_done] the state of [doneCh] and [hsErr]
      ([Some true] a completed handshake, [Some false] a failed one).  Its laws
      are that a finished handshake stays finished with the same result, and
      that with [RequireAndVerifyClientCert] a completed one has a first peer
      certificate the trust store accepts.
    - The PDP is the [PolicyEngine] interface of the package; the adapter to the
      802.1X authenticator is an instance of it at the end of the file.
    - [env] holds what one request reads from outside: clock, random bytes.
    - A session pointer of the source is the map entry at its token: every
      operation that mutates it writes the entry back.  Requests are handled one
      after the other, as on one proxy connection.  The source looks the session up
      under its mutex and then uses it without: requests with one State on two
      connections, or the reaper during a request, can overlap there, which the
      theorems do not cover.
    - [None] is a run-time panic. *)

From S2P Require Import Prelude GoStrings Md5 Radius Eap Mppe NetMac Dot1x.
#[local] Open Scope string_scope.
#[local] Open Scope nat_scope.
#[local] Open Scope list_scope.

Module RadsecServer.
Import Radius Eap Mppe.
Import Dot1x (certificate, CommonName, Organization, Raw).

Record Decision := mkDecision {
  Accept : bool;
  Username : string;
  VLAN : Z;
  ACL : string;
  SessionTimeout : Z;
  Message : string;
}.

(** [PolicyEngine.Decide(cert, nasIdentifier, callingStation, orgID)], on a PDP
    state; a PDP that does not accept keeps its state. *)
Class PolicyEngine (P : Type) := {
  Decide : P → (nat → Z) → certificate → string → string → string → P * Decision;
  decide_reject_frame : ∀ p clk c nas cs org,
    Accept (snd (Decide p clk c nas cs org)) = false → fst (Decide p clk c nas cs org) = p;
}.

Class TlsServer (T : Type) := {
  tls_new : T;
  tls_flight : T → bytes → T * bytes;
  tls_done : T → option bool;
  tls_peer_certs : T → list certificate;
  tls_export : T → option bytes;
  trusted : certificate → Prop;
  tls_done_stable : ∀ t b r, tls_done t = Some r → tls_done (fst (tls_flight t b)) = Some r;
  tls_client_verified : ∀ t, tls_done t = Some true →
    ∃ c cs, tls_peer_certs t = c :: cs ∧ trusted c;
}.

Record env := mkEnv {
  e_clk : nat → Z;
  e_token_rand : option bytes;
  e_now_text : string;
  e_salt1 : option (byte * byte);
  e_salt2 : option (byte * byte);
}.

Section Server.
Context {T P : Type} `{TlsServer T, PolicyEngine P}.

Record session := mkSess {
  id : string;
  es : T;
  eapID : byte;
  reassembly : bytes;
  outFrags : bytes;
  outOffset : nat;
  hsComplete : bool;
  nasIdentifier : string;
  callingStation : string;
  orgID : string;
  created : Z;
}.

Record Server := mkServer {
  pdp : P;
  sessions : gmap string session;
  live : gmap string nat;   (** Acct-Session-Id to connection number *)
  enabled : bool;
}.

Definition with_pdp (s : Server) (p : P) : Server :=
  mkServer p (sessions s) (live s) (enabled s).
Definition with_sessions (s : Server) (m : gmap string session) : Server :=
  mkServer (pdp s) m (live s) (enabled s).
Definition with_live (s : Server) (m : gmap string nat) : Server :=
  mkServer (pdp s) (sessions s) m (enabled s).

(** ** Replies *)

Definition newResponse (code : byte) (req : packet) : packet :=
  mkPacket code (Identifier req) zeros16 [].

Definition reject (p : packet) : bytes :=
  snd (finalize (add (newResponse codeAccessReject p) attrReplyMessage
                   (of_string "access denied")) (Authenticator p)).

Definition challenge (p : packet) (sess : session) (eap : bytes) : bytes :=
  let resp := newResponse codeAccessChallenge p in
  let resp := add resp attrMessageAuthkey zeros16 in
  let resp := addEAPMessage resp eap in
  let resp := add resp attrState (of_string (id sess)) in
  snd (finalize resp (Authenticator p)).

Definition destroy (s : Server) (sess : session) : Server :=
  with_sessions s (delete (id sess) (sessions s)).

Definition put (s : Server) (sess : session) : Server :=
  with_sessions s (<[id sess := sess]> (sessions s)).

Definition rejectSession (s : Server) (p : packet) (sess : session) : Server * bytes :=
  (destroy s sess, reject p).

Definition addVLAN (p : packet) (vlan : Z) : packet :=
  let tag := x01 in
  let p := add p attrTunnelType [tag; x00; x00; tunnelTypeVLAN] in
  let p := add p attrTunnelMediumType [tag; x00; x00; tunnelMediumType802] in
  add p attrTunnelPrivateGroup (tag :: of_string (GoStrings.itoa vlan)).

Definition nonEmpty (a b : string) : string := if bool_decide (a ≠ "") then a else b.

Definition newStateToken (rnd : option bytes) (now_text : string) : string :=
  match rnd with
  | Some b => Hex.encode b
  | None => Hex.encode (of_string now_text)
  end.

Definition next_id (b : byte) : byte := byte_of (u8 b + 1).

(** ** Session updates *)

Definition bump (sess : session) : session :=
  mkSess (id sess) (es sess) (next_id (eapID sess)) (reassembly sess) (outFrags sess)
    (outOffset sess) (hsComplete sess) (nasIdentifier sess) (callingStation sess)
    (orgID sess) (created sess).
Definition set_reassembly (sess : session) (b : bytes) : session :=
  mkSess (id sess) (es sess) (eapID sess) b (outFrags sess) (outOffset sess)
    (hsComplete sess) (nasIdentifier sess) (callingStation sess) (orgID sess) (created sess).
Definition set_out (sess : session) (b : bytes) (off : nat) : session :=
  mkSess (id sess) (es sess) (eapID sess) (reassembly sess) b off (hsComplete sess)
    (nasIdentifier sess) (callingStation sess) (orgID sess) (created sess).
Definition set_es (sess : session) (t : T) : session :=
  mkSess (id sess) t (eapID sess) (reassembly sess) (outFrags sess) (outOffset sess)
    (hsComplete sess) (nasIdentifier sess) (callingStation sess) (orgID sess) (created sess).
Definition set_complete (sess : session) : session :=
  mkSess (id sess) (es sess) (eapID sess) (reassembly sess) (outFrags sess) (outOffset sess)
    true (nasIdentifier sess) (callingStation sess) (orgID sess) (created sess).

(** ** The state machine *)

Definition sendNextFragment (s : Server) (p : packet) (sess : session)
  : option (Server * bytes) :=
  let sess := bump sess in
  '(pkt, next, _) ← buildEAPTLSFragment (eapID sess) (outFrags sess) (outOffset sess);
  let sess := if length (outFrags sess) <=? next
              then set_out sess [] 0
              else set_out sess (outFrags sess) next in
  Some (put s sess, challenge p sess pkt).

(** The attributes of an Access-Accept, without the keys. *)
Definition accept_response (p : packet) (eid : byte) (cert : certificate) (d : Decision)
  : packet :=
  let resp := newResponse codeAccessAccept p in
  let resp := add resp attrMessageAuthkey zeros16 in
  let resp := addEAPMessage resp (encodeEAPResult eapSuccess eid) in
  let resp := add resp attrUserName (of_string (nonEmpty (Username d) (CommonName cert))) in
  let resp := if (0 <? VLAN d)%Z then addVLAN resp (VLAN d) else resp in
  let resp := if bool_decide (ACL d ≠ "") then add resp attrFilterID (of_string (ACL d)) else resp in
  if (0 <? SessionTimeout d)%Z
  then add resp attrSessionTimeout (be32 (wrap_u32 (SessionTimeout d)))
  else resp.

Definition reject_response (p : packet) (eid : byte) (d : Decision) : packet :=
  let resp := newResponse codeAccessReject p in
  let resp := addEAPMessage resp (encodeEAPResult eapFailure eid) in
  if bool_decide (Message d ≠ "") then add resp attrReplyMessage (of_string (Message d)) else resp.

(** Attach the MS-MPPE keys when the MSK can be exported and encrypted. *)
Definition attach_keys (e : env) (t : T) (resp : packet) (ra : bytes) : packet :=
  match tls_export t with
  | None => resp
  | Some msk =>
      match addMPPEKeys (e_salt1 e) (e_salt2 e) resp msk ra with
      | Ok resp => resp
      | Err _ => resp
      end
  end.

Definition session_org (sess : session) (cert : certificate) : string :=
  match Organization cert with
  | o :: _ => if bool_decide (orgID sess = "") then o else orgID sess
  | [] => orgID sess
  end.

Definition finish (s : Server) (e : env) (conn : nat) (p : packet) (sess : session)
  : Server * bytes :=
  match tls_peer_certs (es sess) with
  | [] => rejectSession s p sess
  | deviceCert :: _ =>
      let org := session_org sess deviceCert in
      let '(pdp', decision) :=
        Decide (pdp s) (e_clk e) deviceCert (nasIdentifier sess) (callingStation sess) org in
      let s := with_pdp s pdp' in
      let sess := bump sess in
      if negb (Accept decision) then
        (destroy s sess,
         snd (finalize (reject_response p (eapID sess) decision) (Authenticator p)))
      else
        let resp := accept_response p (eapID sess) deviceCert decision in
        let resp := attach_keys e (es sess) resp (Authenticator p) in
        let acct := to_string (first p attrAcctSessionID) in
        let s := if bool_decide (acct ≠ "") then with_live s (<[acct := conn]> (live s)) else s in
        (destroy s sess, snd (finalize resp (Authenticator p)))
  end.

Definition advance (s : Server) (e : env) (conn : nat) (p : packet) (sess : session)
    (eap : eapPacket) : option (Server * bytes) :=
  match eapTLSData (eData eap) with
  | Err _ => Some (rejectSession s p sess)
  | Ok (tlsBytes, _, more) =>
      if (length tlsBytes =? 0) && negb more then
        if outOffset sess <? length (outFrags sess) then sendNextFragment s p sess
        else if hsComplete sess then Some (finish s e conn p sess)
        else Some (rejectSession s p sess)
      else
        let sess := set_reassembly sess (reassembly sess ++ tlsBytes) in
        if more then
          let sess := bump sess in
          Some (put s sess, challenge p sess (buildEAPTLSAck (eapID sess)))
        else
          let flight := reassembly sess in
          let sess := set_reassembly sess [] in
          let '(t, serverFlight) := tls_flight (es sess) flight in
          let sess := set_es sess t in
          if bool_decide (tls_done t = Some false) then Some (rejectSession s p sess)
          else
            let sess := if bool_decide (tls_done t = Some true) then set_complete sess else sess in
            if length serverFlight =? 0 then
              if hsComplete sess then Some (finish s e conn p sess)
              else Some (rejectSession s p sess)
            else sendNextFragment s p (set_out sess serverFlight 0)
  end.

Definition startConversation (s : Server) (e : env) (p : packet) (eap : eapPacket)
  : Server * bytes :=
  let tok := newStateToken (e_token_rand e) (e_now_text e) in
  let sess := mkSess tok tls_new (next_id (eIdentifier eap)) [] [] 0 false
                (to_string (first p attrNASIdentifier))
                (to_string (first p attrCallingStationID)) "" (e_clk e 0%nat) in
  (put s sess, challenge p sess (buildEAPTLSStart (eapID sess))).

Definition handleAccessRequest (s : Server) (e : env) (conn : nat) (p : packet)
  : option (Server * bytes) :=
  let eapRaw := collectEAPMessage p in
  if length eapRaw =? 0 then Some (s, reject p)
  else
    match parseEAP eapRaw with
    | Err _ => Some (s, reject p)
    | Ok eap =>
        let stateTok := to_string (first p attrState) in
        if bool_decide (stateTok = "") then
          if negb (bool_decide (eCode eap = eapResponse))
             || negb (bool_decide (eType eap = eapTypeIdentity))
          then Some (s, reject p)
          else Some (startConversation s e p eap)
        else
          match sessions s !! stateTok with
          | None => Some (s, reject p)
          | Some sess =>
              if bool_decide (eType eap = eapTypeTLS) then advance s e conn p sess eap
              else Some (s, reject p)
          end
    end.

(** ** The reaper *)

Definition two_minutes : Z := 120000000000.

Definition reap (now : Z) (s : Server) : Server :=
  with_sessions s
    (filter (λ kv, ¬ (created (snd kv) < now - two_minutes)%Z) (sessions s)).

(** ** The connection loop *)

Inductive read_error := errEOF | errIllegalLength.

(** [readRADIUS] on the bytes the connection still delivers. *)
Definition readRADIUS (r : bytes) : result read_error (bytes * bytes) :=
  if length r <? 20 then Err errEOF
  else
    let len := Z.to_nat (get_be16 r 2) in
    if len <? 20 then Err errIllegalLength
    else if length r <? len then Err errEOF
    else Ok (take len r, drop len r).

(** One turn of [handleConn]: what it does with a raw packet. *)
Definition serve_packet (s : Server) (e : env) (conn : nat) (raw : bytes)
  : option (Server * option bytes) :=
  match parsePacket raw with
  | Err _ => Some (s, None)
  | Ok p =>
      if negb (bool_decide (Code p = codeAccessRequest)) then Some (s, None)
      else
        ok ← verifyMessageAuthenticator p raw;
        if negb ok then Some (s, None)
        else '(s, resp) ← handleAccessRequest s e conn p; Some (s, Some resp)
  end.

(** The loop over the stream from its n-th turn, with the replies in order; [envs n]
    is the outside of the n-th turn and [write_ok] whether a reply can be written.
    Fuel: every turn consumes at least 20 bytes, so the length of the stream is
    enough ([handleConn_fuel]). *)
Fixpoint handleConn (fuel n : nat) (s : Server) (envs : nat → env) (write_ok : bytes → bool)
    (conn : nat) (r : bytes) : option (Server * list bytes) :=
  match fuel with
  | O => Some (s, [])
  | S fuel =>
      match readRADIUS r with
      | Err _ => Some (s, [])
      | Ok (raw, rest) =>
          '(s, resp) ← serve_packet s (envs n) conn raw;
          match resp with
          | Some b =>
              if write_ok b then
                '(s, out) ← handleConn fuel (S n) s envs write_ok conn rest; Some (s, b :: out)
              else Some (s, [])
          | None => handleConn fuel (S n) s envs write_ok conn rest
          end
      end
  end.

(** ** Feature flag and accept loop *)

(** A tick of [featureFlagPoller]: no checker, the poller has returned; a failing
    check keeps the flag. *)
Definition poll (checker : option (option bool)) (s : Server) : Server :=
  match checker with
  | Some (Some v) => mkServer (pdp s) (sessions s) (live s) v
  | _ => s
  end.

Definition NewServer (p : P) : Server := mkServer p ∅ ∅ false.

(** [Run] closes an accepted connection unread while disabled. *)
Definition accept_conn (s : Server) (envs : nat → env) (write_ok : bytes → bool)
    (conn : nat) (r : bytes) : option (Server * list bytes) :=
  if enabled s then handleConn (length r) 0 s envs write_ok conn r else Some (s, []).

(** ** Change of authorization *)

(** [Disconnect]: the request sent on the tracked connection, or an error. *)
Definition Disconnect (s : Server) (now : Z) (acct : string) : option (nat * bytes) :=
  conn ← live s !! acct;
  let req := mkPacket codeDisconnectReq (byte_of now) zeros16 [] in
  let req := add req attrAcctSessionID (of_string acct) in
  Some (conn, snd (finalize req zeros16)).

Lemma readRADIUS_consumes r raw rest :
  readRADIUS r = Ok (raw, rest) → r = raw ++ rest ∧ 20 ≤ length raw.
Proof.
  unfold readRADIUS. destruct (Nat.ltb_spec (length r) 20); [done|].
  set (len := Z.to_nat (get_be16 r 2)). destruct (Nat.ltb_spec len 20); [done|].
  destruct (Nat.ltb_spec (length r) len); [done|]. intros [= <- <-].
  rewrite take_drop, length_take. split; [done|lia].
Qed.

(** Fuel for the whole stream is enough: more does not change the result. *)
Lemma handleConn_fuel fuel extra n s envs write_ok conn r :
  length r ≤ fuel →
  handleConn (fuel + extra) n s envs write_ok conn r = handleConn fuel n s envs write_ok conn r.
Proof.
  revert n s r. induction fuel as [|fuel IH]; intros n s r Hr.
  { destruct r; [|cbn in Hr; lia]. by destruct extra. }
  cbn [Nat.add handleConn]. destruct (readRADIUS r) as [[raw rest]|] eqn:E; [|done].
  apply readRADIUS_consumes in E as [-> Hl]. rewrite length_app in Hr.
  destruct (serve_packet s (envs n) conn raw) as [[s' [b|]]|]; cbn [mbind option_bind]; [|..|done].
  - destruct (write_ok b); [|done]. by rewrite IH by lia.
  - by rewrite IH by lia.
Qed.

(** ** Invariant *)

Record sess_wf (sess : session) : Prop := {
  wf_offset : outOffset sess ≤ length (outFrags sess);
  wf_complete : hsComplete sess = true → tls_done (es sess) = Some true;
}.

Definition srv_wf (s : Server) : Prop :=
  map_Forall (λ tok sess, id sess = tok ∧ sess_wf sess) (sessions s).

Lemma put_wf s sess : srv_wf s → sess_wf sess → srv_wf (put s sess).
Proof. intros Hs Hw. apply map_Forall_insert_2; [by split|done]. Qed.

Lemma destroy_wf s sess : srv_wf s → srv_wf (destroy s sess).
Proof. intros Hs. by apply map_Forall_delete. Qed.

(** ** Replies *)

(** A reply to [p] with code [c]: same identifier, authenticated under the
    request's authenticator. *)
Definition reply_to (p : packet) (c : byte) (out : bytes) : Prop :=
  ∃ q, out = encode q ∧ Code q = c ∧ Identifier q = Identifier p
       ∧ Authenticator q = reply_auth (Authenticator p) q.

Lemma finalize_reply p q :
  Identifier q = Identifier p →
  reply_to p (Code q) (snd (finalize q (Authenticator p))).
Proof.
  intros Hi. destruct (finalize_shape q (Authenticator p)) as (v & _ & Hq & _).
  exists (fst (finalize q (Authenticator p))). split_and!.
  - reflexivity.
  - by rewrite Hq.
  - by rewrite Hq.
  - by rewrite Hq at 1.
Qed.

Lemma reply_code p c out : reply_to p c out → byte_at out 0 = c.
Proof. intros (q & -> & <- & _). done. Qed.

Lemma reject_reply p : reply_to p codeAccessReject (reject p).
Proof. by apply (finalize_reply p). Qed.

Lemma challenge_reply p sess eap : reply_to p codeAccessChallenge (challenge p sess eap).
Proof.
  unfold challenge.
  set (r := addEAPMessage (add (newResponse codeAccessChallenge p) attrMessageAuthkey zeros16) eap).
  destruct (addEAPMessage_header
              (add (newResponse codeAccessChallenge p) attrMessageAuthkey zeros16) eap) as [H1 H2].
  fold r in H1, H2. clearbody r. cbn [add newResponse Code Identifier] in H1, H2.
  rewrite <- H1. by apply (finalize_reply p (add r attrState (of_string (id sess)))).
Qed.

Lemma reject_response_header p eid d :
  Code (reject_response p eid d) = codeAccessReject
  ∧ Identifier (reject_response p eid d) = Identifier p.
Proof.
  unfold reject_response.
  pose proof (addEAPMessage_header (newResponse codeAccessReject p)
                (encodeEAPResult eapFailure eid)) as [H1 H2].
  case_bool_decide; cbn [add Code Identifier]; by rewrite H1, H2.
Qed.

Lemma accept_response_header p eid c d :
  Code (accept_response p eid c d) = codeAccessAccept
  ∧ Identifier (accept_response p eid c d) = Identifier p.
Proof.
  unfold accept_response.
  pose proof (addEAPMessage_header
                (add (newResponse codeAccessAccept p) attrMessageAuthkey zeros16)
                (encodeEAPResult eapSuccess eid)) as [H1 H2].
  destruct (0 <? VLAN d)%Z, (0 <? SessionTimeout d)%Z; case_bool_decide;
    unfold addVLAN; cbn [add Code Identifier]; by rewrite H1, H2.
Qed.

Lemma attach_keys_header e t resp ra :
  Code (attach_keys e t resp ra) = Code resp
  ∧ Identifier (attach_keys e t resp ra) = Identifier resp.
Proof.
  unfold attach_keys, addMPPEKeys. destruct (tls_export t) as [msk|]; [|done].
  destruct (length msk <? mskLen); [done|].
  destruct (mppeVendorAttr _ msMPPESendKey _ _); [|done].
  by destruct (mppeVendorAttr _ msMPPERecvKey _ _).
Qed.

(** ** One step of a conversation *)

Lemma sendNextFragment_spec s p sess :
  sess_wf sess →
  ∃ sess' pkt, sendNextFragment s p sess = Some (put s sess', challenge p sess' pkt)
    ∧ id sess' = id sess ∧ sess_wf sess'.
Proof.
  intros [Ho Hc]. unfold sendNextFragment.
  destruct (fragment_spec (eapID (bump sess)) (outFrags (bump sess)) (outOffset (bump sess)) Ho)
    as (pkt & -> & _). cbn [mbind option_bind].
  set (next := outOffset (bump sess) + _).
  destruct (Nat.leb_spec (length (outFrags (bump sess))) next).
  - eexists _, pkt. split_and!; [reflexivity|done|by constructor].
  - eexists _, pkt. split_and!; [reflexivity|done|]. constructor; [cbn; cbn in *; lia|done].
Qed.

(** What [finish] does once the handshake is complete. *)
Lemma finish_spec s e conn p sess :
  tls_done (es sess) = Some true →
  ∃ c, head (tls_peer_certs (es sess)) = Some c ∧ trusted c ∧
    let r := Decide (pdp s) (e_clk e) c (nasIdentifier sess) (callingStation sess)
               (session_org sess c) in
    let '(s', out) := finish s e conn p sess in
    pdp s' = fst r ∧ sessions s' = delete (id sess) (sessions s)
    ∧ reply_to p (if Accept (snd r) then codeAccessAccept else codeAccessReject) out.
Proof.
  intros Hd. destruct (tls_client_verified _ Hd) as (c & cs & Hc & Ht).
  exists c. unfold finish. rewrite Hc. split; [done|]. split; [done|]. cbv zeta.
  destruct (Decide _ _ c _ _ _) as [p' d]. cbn [fst snd].
  destruct (Accept d); cbn [negb].
  - split; [by case_bool_decide|]. split; [by case_bool_decide|].
    destruct (accept_response_header p (eapID (bump sess)) c d) as [H1 H2].
    destruct (attach_keys_header e (es (bump sess))
                (accept_response p (eapID (bump sess)) c d) (Authenticator p)) as [H3 H4].
    rewrite <- H1, <- H3. apply finalize_reply. by rewrite H4.
  - split; [done|]. split; [done|].
    destruct (reject_response_header p (eapID (bump sess)) d) as [H1 H2].
    rewrite <- H1. by apply finalize_reply.
Qed.

(** The possible results of [advance]. *)
Inductive advanced (s : Server) (e : env) (conn : nat) (p : packet) (sess : session)
  : Server → bytes → Prop :=
| adv_challenge sess' pkt :
    id sess' = id sess → sess_wf sess' →
    advanced s e conn p sess (put s sess') (challenge p sess' pkt)
| adv_reject :
    advanced s e conn p sess (destroy s sess) (reject p)
| adv_finish sess' :
    id sess' = id sess → nasIdentifier sess' = nasIdentifier sess →
    callingStation sess' = callingStation sess → orgID sess' = orgID sess →
    (es sess' = es sess ∨ ∃ b, es sess' = fst (tls_flight (es sess) b)) →
    tls_done (es sess') = Some true →
    advanced s e conn p sess (fst (finish s e conn p sess')) (snd (finish s e conn p sess')).

Lemma advance_spec s e conn p sess eap :
  sess_wf sess →
  ∃ s' out, advance s e conn p sess eap = Some (s', out) ∧ advanced s e conn p sess s' out.
Proof.
  intros Hw. pose proof Hw as [Ho Hc]. unfold advance.
  destruct (eapTLSData (eData eap)) as [[[tlsBytes start] more]|]; last first.
  { eexists _, _. split; [reflexivity|constructor]. }
  destruct ((length tlsBytes =? 0) && negb more).
  { destruct (outOffset sess <? length (outFrags sess)).
    { destruct (sendNextFragment_spec s p sess Hw) as (sess' & pkt & -> & Hid & Hw').
      eexists _, _. split; [reflexivity|by constructor]. }
    destruct (hsComplete sess) eqn:Hh.
    - destruct (finish s e conn p sess) as [s' out] eqn:E. exists s', out. split; [done|].
      pose proof (adv_finish s e conn p sess sess) as Hf. rewrite E in Hf.
      apply Hf; auto.
    - eexists _, _. split; [reflexivity|constructor]. }
  destruct more.
  { eexists _, _. split; [reflexivity|]. apply adv_challenge; [done|]. by constructor. }
  cbn [es set_reassembly reassembly].
  destruct (tls_flight (es sess) (reassembly sess ++ tlsBytes)) as [t fl] eqn:Ht.
  case_bool_decide as Hfail.
  { exists (destroy s sess), (reject p). split; [reflexivity|constructor]. }
  assert (hsComplete sess = true → tls_done t = Some true) as Hkeep.
  { intros Hh. pose proof (tls_done_stable (es sess) (reassembly sess ++ tlsBytes) true (Hc Hh)) as Hst.
    by rewrite Ht in Hst. }
  set (sess1 := set_es (set_reassembly (set_reassembly sess (reassembly sess ++ tlsBytes)) []) t).
  set (sess2 := if bool_decide (tls_done t = Some true) then set_complete sess1 else sess1).
  assert (id sess2 = id sess ∧ nasIdentifier sess2 = nasIdentifier sess
          ∧ callingStation sess2 = callingStation sess ∧ orgID sess2 = orgID sess
          ∧ es sess2 = t ∧ (hsComplete sess2 = true → tls_done t = Some true))
    as (H1 & H2 & H3 & H4 & H5 & H6).
  { unfold sess2. case_bool_decide; by split_and!. }
  destruct (length fl =? 0).
  - destruct (hsComplete sess2) eqn:Hh.
    + destruct (finish s e conn p sess2) as [s' out] eqn:E. exists s', out. split; [done|].
      pose proof (adv_finish s e conn p sess sess2) as Hf. rewrite E in Hf.
      apply Hf; try done; [|rewrite H5; auto].
      right. exists (reassembly sess ++ tlsBytes). by rewrite Ht, H5.
    + eexists _, _. unfold rejectSession. split; [reflexivity|].
      unfold destroy. rewrite H1. constructor.
  - destruct (sendNextFragment_spec s p (set_out sess2 fl 0)) as (sess' & pkt & -> & Hid & Hw').
    { constructor; cbn; [lia|]. by rewrite H5. }
    eexists _, _. split; [reflexivity|]. constructor; [|done]. rewrite Hid. exact H1.
Qed.

(** ** Handling a request *)

Inductive handled (s : Server) (e : env) (conn : nat) (p : packet) : Server → bytes → Prop :=
| h_reject : handled s e conn p s (reject p)
| h_start eap :
    to_string (first p attrState) = "" →
    handled s e conn p (fst (startConversation s e p eap)) (snd (startConversation s e p eap))
| h_advance sess s' out :
    to_string (first p attrState) ≠ "" →
    sessions s !! to_string (first p attrState) = Some sess →
    advanced s e conn p sess s' out → handled s e conn p s' out.

Lemma handle_spec s e conn p :
  srv_wf s →
  ∃ s' out, handleAccessRequest s e conn p = Some (s', out) ∧ handled s e conn p s' out.
Proof.
  intros Hwf. unfold handleAccessRequest.
  destruct (length (collectEAPMessage p) =? 0); [eexists _, _; split; [reflexivity|constructor]|].
  destruct (parseEAP (collectEAPMessage p)) as [eap|]; [|eexists _, _; split; [reflexivity|constructor]].
  case_bool_decide as Hst.
  { destruct (_ || _); [eexists _, _; split; [reflexivity|constructor]|].
    eexists _, _; split; [reflexivity|]. by apply (h_start s e conn p eap). }
  destruct (sessions s !! to_string (first p attrState)) as [sess|] eqn:Hs;
    [|eexists _, _; split; [reflexivity|constructor]].
  case_bool_decide; [|eexists _, _; split; [reflexivity|constructor]].
  destruct (advance_spec s e conn p sess eap) as (s' & out & Ha & Had).
  { by destruct (Hwf _ _ Hs). }
  exists s', out. split; [done|]. by eapply h_advance.
Qed.

Lemma handled_wf s e conn p s' out : srv_wf s → handled s e conn p s' out → srv_wf s'.
Proof.
  intros Hwf [|eap _|sess s1 out1 Hne Hs Ha]; [done| |].
  - by apply put_wf; [|constructor; cbn; lia || done].
  - destruct Ha as [sess' pkt Hid Hw| |sess' Hid _ _ _ _ Hd].
    + by apply put_wf.
    + by apply destroy_wf.
    + destruct (finish_spec s e conn p sess' Hd) as (c & _ & _ & Hf).
      destruct (finish s e conn p sess') as [s2 out2]. destruct Hf as (_ & Hss & _).
      unfold srv_wf. cbn [fst]. rewrite Hss. by apply map_Forall_delete.
Qed.

Lemma handled_reply s e conn p s' out :
  handled s e conn p s' out → ∃ c, reply_to p c out
    ∧ (c = codeAccessAccept ∨ c = codeAccessReject ∨ c = codeAccessChallenge).
Proof.
  intros [|eap _|sess s1 out1 Hne Hs Ha].
  - exists codeAccessReject. split; [apply reject_reply|auto].
  - exists codeAccessChallenge. split; [apply challenge_reply|auto].
  - destruct Ha as [sess' pkt Hid Hw| |sess' Hid _ _ _ _ Hd].
    + exists codeAccessChallenge. split; [apply challenge_reply|auto].
    + exists codeAccessReject. split; [apply reject_reply|auto].
    + destruct (finish_spec s e conn p sess' Hd) as (c & _ & _ & Hf).
      destruct (finish s e conn p sess') as [s2 out2]. destruct Hf as (_ & _ & Hr).
      eexists. split; [exact Hr|]. destruct (Accept _); auto.
Qed.

Lemma reject_not_accept p : byte_at (reject p) 0 ≠ codeAccessAccept.
Proof. rewrite (reply_code _ _ _ (reject_reply p)). discriminate. Qed.

Lemma challenge_not_accept p sess eap : byte_at (challenge p sess eap) 0 ≠ codeAccessAccept.
Proof. rewrite (reply_code _ _ _ (challenge_reply p sess eap)). discriminate. Qed.

(** An Access-Accept comes from a finished conversation. *)
Lemma handled_accept s e conn p s' out :
  handled s e conn p s' out → byte_at out 0 = codeAccessAccept →
  ∃ sess sess',
    to_string (first p attrState) ≠ ""
    ∧ sessions s !! to_string (first p attrState) = Some sess
    ∧ id sess' = id sess ∧ nasIdentifier sess' = nasIdentifier sess
    ∧ callingStation sess' = callingStation sess ∧ orgID sess' = orgID sess
    ∧ (es sess' = es sess ∨ ∃ b, es sess' = fst (tls_flight (es sess) b))
    ∧ tls_done (es sess') = Some true
    ∧ finish s e conn p sess' = (s', out).
Proof.
  intros Hd Hcode. destruct Hd as [|eap _|sess s1 out1 Hne Hs Ha].
  - destruct (reject_not_accept p Hcode).
  - unfold startConversation in Hcode. cbn [snd] in Hcode.
    destruct (challenge_not_accept _ _ _ Hcode).
  - destruct Ha as [sess' pkt Hid Hw| |sess' Hid Hnas Hcs Horg Hes Hdone].
    + destruct (challenge_not_accept _ _ _ Hcode).
    + destruct (reject_not_accept p Hcode).
    + exists sess, sess'. split_and!; try assumption. apply surjective_pairing.
Qed.

End Server.

(** ** Theorems about the server *)

Section Theorems.
Context {T P : Type} `{TlsServer T, PolicyEngine P}.
Implicit Types s : Server (T := T) (P := P).

(** C1: No access without a verified certificate.  From a well-formed state, an
    Access-Accept is sent only for a request that names a live session whose
    inner TLS handshake has completed without error, for a first peer
    certificate in the trust store, and only if the PDP accepts that very
    certificate with the station and tenant of the session; the PDP state
    afterwards is the one of that decision. *)
Theorem accept_only_verified s e conn p s' out :
  srv_wf s → handleAccessRequest s e conn p = Some (s', out) →
  byte_at out 0 = codeAccessAccept →
  ∃ sess t c,
    sessions s !! to_string (first p attrState) = Some sess
    ∧ (t = es sess ∨ ∃ b, t = fst (tls_flight (es sess) b))
    ∧ tls_done t = Some true ∧ head (tls_peer_certs t) = Some c ∧ trusted c
    ∧ let r := Decide (pdp s) (e_clk e) c (nasIdentifier sess) (callingStation sess)
                 (session_org sess c) in
      Accept (snd r) = true ∧ pdp s' = fst r.
Proof.
  intros Hwf Hh Hcode.
  destruct (handle_spec s e conn p Hwf) as (s1 & out1 & Hh' & Hd). simplify_eq.
  destruct (handled_accept _ _ _ _ _ _ Hd Hcode)
    as (sess & sess' & Hne & Hs & Hid & Hnas & Hcs & Horg & Hes & Hdone & Hfin).
  destruct (finish_spec s e conn p sess' Hdone) as (c & Hc & Ht & Hf). rewrite Hfin in Hf.
  exists sess, (es sess'), c. split_and!; [done..|].
  assert (session_org sess' c = session_org sess c) as Ho
    by (unfold session_org; by rewrite Horg).
  rewrite Hnas, Hcs, Ho in Hf. destruct Hf as (Hp & _ & Hr). split; [|done].
  apply reply_code in Hr. rewrite Hcode in Hr. by destruct (Accept _).
Qed.

(** C9: A conversation yields at most one Access-Accept.  After the reply that
    accepts, the State token is gone: as long as no
    new conversation is started under it, every further request that carries it
    is rejected and changes nothing. *)
Theorem accept_not_replayable s e conn p s' out :
  srv_wf s → handleAccessRequest s e conn p = Some (s', out) →
  byte_at out 0 = codeAccessAccept →
  let tok := to_string (first p attrState) in
  sessions s' = delete tok (sessions s)
  ∧ ∀ e2 conn2 p2, to_string (first p2 attrState) = tok →
      handleAccessRequest s' e2 conn2 p2 = Some (s', reject p2).
Proof.
  intros Hwf Hh Hcode tok.
  assert (sessions s' = delete tok (sessions s) ∧ tok ≠ "") as [Hdel Hne].
  { destruct (handle_spec s e conn p Hwf) as (s1 & out1 & Hh' & Hd). simplify_eq.
    destruct (handled_accept _ _ _ _ _ _ Hd Hcode)
      as (sess & sess' & Hne & Hs & Hid & _ & _ & _ & _ & Hdone & Hfin).
    destruct (finish_spec s e conn p sess' Hdone) as (c & _ & _ & Hf). rewrite Hfin in Hf.
    destruct Hf as (_ & -> & _). destruct (Hwf _ _ Hs) as [Hk _].
    rewrite Hid, Hk. by split. }
  split; [done|]. intros e2 conn2 p2 Hst. unfold handleAccessRequest. rewrite Hst, Hdel.
  rewrite bool_decide_eq_false_2, lookup_delete_eq by done.
  destruct (length (collectEAPMessage p2) =? 0); [done|]. by destruct (parseEAP _).
Qed.

(** ** Reachable states *)

Inductive step : Server → Server → Prop :=
| step_request s e conn p s' out :
    handleAccessRequest s e conn p = Some (s', out) → step s s'
| step_reap s now : step s (reap now s)
| step_poll s checker : step s (poll checker s).

Lemma step_wf s s' : srv_wf s → step s s' → srv_wf s'.
Proof.
  intros Hwf Hst. destruct Hst as [s0 e conn p s1 out Hh|s0 now|s0 checker].
  - destruct (handle_spec s0 e conn p Hwf) as (s2 & out2 & Hh' & Hd). simplify_eq.
    by eapply handled_wf.
  - unfold srv_wf, reap. cbn. intros k sess Hk.
    apply map_lookup_filter_Some in Hk as [Hk _]. by apply Hwf.
  - by destruct checker as [[]|].
Qed.

Lemma reachable_wf (p0 : P) s : rtc step (NewServer p0) s → srv_wf s.
Proof.
  intros Hr. assert (srv_wf (NewServer p0)) as Hi by apply map_Forall_empty.
  induction Hr as [|x y z Hxy _ IH]; [done|]. apply IH. by eapply step_wf.
Qed.

(** C2: Every request gets one authenticated reply.  In every reachable state
    every Access-Request is answered (the handler does not panic), with an
    Accept, a Reject or a Challenge that carries the request's identifier and
    the Response-Authenticator computed from the request's authenticator; the
    invariant (sessions under their own token, fragment offsets in range,
    completion flags true to the TLS engine) holds again afterwards. *)
Theorem every_request_answered (p0 : P) s e conn p :
  rtc step (NewServer p0) s →
  ∃ s' out c, handleAccessRequest s e conn p = Some (s', out)
    ∧ reply_to p c out
    ∧ (c = codeAccessAccept ∨ c = codeAccessReject ∨ c = codeAccessChallenge)
    ∧ srv_wf s'.
Proof.
  intros Hwf%reachable_wf. destruct (handle_spec s e conn p Hwf) as (s' & out & Hh & Hd).
  destruct (handled_reply _ _ _ _ _ _ Hd) as (c & Hr & Hc).
  exists s', out, c. split_and!; [done..|]. by eapply handled_wf.
Qed.

(** The only panic of the connection loop is the Message-Authenticator check.
    In every reachable state a raw packet is served without panic exactly when
    it is not an Access-Request on which [verifyMessageAuthenticator] panics;
    and one 22-byte packet with an empty Message-Authenticator does panic,
    taking the process down whatever the state. *)
Theorem serve_panics_only_in_verify (p0 : P) s e conn :
  rtc step (NewServer p0) s →
  (∀ raw, serve_packet s e conn raw = None ↔
     ∃ p, parsePacket raw = Ok p ∧ Code p = codeAccessRequest
          ∧ verifyMessageAuthenticator p raw = None)
  ∧ ∀ n envs write_ok rest,
      handleConn (length (crash_packet ++ rest)) n s envs write_ok conn (crash_packet ++ rest)
      = None.
Proof.
  intros Hwf%reachable_wf. split.
  - intros raw. unfold serve_packet. destruct (parsePacket raw) as [p|err]; last first.
    { split; [done|]. by intros (p & Hp & _). }
    case_bool_decide as Hc; cbn [negb]; last first.
    { split; [done|]. intros (q & Hq & Hcq & _). by simplify_eq. }
    destruct (verifyMessageAuthenticator p raw) as [ok|] eqn:Hv; cbn [mbind option_bind].
    + destruct (negb ok).
      * split; [done|]. intros (q & Hq & _ & Hn). simplify_eq.
      * destruct (handle_spec s e conn p Hwf) as (s' & out & -> & _). cbn [mbind option_bind].
        split; [done|]. intros (q & Hq & _ & Hn). simplify_eq.
    + split; [|done]. by intros _; exists p.
  - intros n envs write_ok rest.
    change (length (crash_packet ++ rest)) with (S (length (drop 1 crash_packet ++ rest))).
    cbn [handleConn].
    assert (readRADIUS (crash_packet ++ rest) = Ok (crash_packet, rest)) as ->.
    { unfold readRADIUS. rewrite length_app. change (length crash_packet) with 22.
      change (Z.to_nat (get_be16 (crash_packet ++ rest) 2)) with 22.
      rewrite (proj2 (Nat.ltb_ge _ 20)) by lia. rewrite (proj2 (Nat.ltb_ge 22 20)) by lia.
      rewrite (proj2 (Nat.ltb_ge _ 22)) by lia. done. }
    reflexivity.
Qed.

(** Without a feature checker the server never serves.  The constructor takes
    a nil checker to mean "always enabled", but it starts disabled and a nil
    checker makes the poller return at once: after any number of polls an
    accepted connection is closed unread, whatever it would send. *)
Theorem nil_checker_never_serves (p0 : P) n envs write_ok conn r :
  let s : Server (T := T) (P := P) := Nat.iter n (poll None) (NewServer p0) in
  accept_conn s envs write_ok conn r = Some (s, []).
Proof.
  assert (∀ n, Nat.iter n (poll None) (NewServer (T := T) p0) = NewServer p0) as Hn.
  { clear n. intros n. induction n as [|k IH]; [done|exact IH]. }
  cbv zeta. by rewrite Hn.
Qed.

(** The reaper drops exactly the conversations older than two minutes and
    leaves everything else alone. *)
Theorem reap_exact s now tok :
  sessions (reap now s) !! tok =
    match sessions s !! tok with
    | Some sess => if bool_decide (created sess < now - two_minutes)%Z then None else Some sess
    | None => None
    end
  ∧ live (reap now s) = live s ∧ pdp (reap now s) = pdp s.
Proof.
  split; [|done]. unfold reap. cbn. destruct (sessions s !! tok) as [sess|] eqn:E.
  - case_bool_decide as Hc.
    + apply map_lookup_filter_None. right. intros x Hx. simplify_eq. cbn. tauto.
    + apply map_lookup_filter_Some. by split.
  - apply map_lookup_filter_None. by left.
Qed.

End Theorems.

(** ** The adapter to the 802.1X authenticator *)

Section Adapter.
Context `{Dot1x.CertLib}.

Definition pdp_request (cert : certificate) (nas cs org : string) : Dot1x.AuthRequest :=
  Dot1x.mkAuthRequest nas "radsec" cs Dot1x.EAPTLS "" "" (Dot1x.pem_encode (Raw cert)) nas "" org.

(** [radsecPDP.Decide]. The method is EAP-TLS, on which [Authenticate] does not
    consult the user store, so the second branch is not reached. *)
Definition radsecPDP_Decide (a : Dot1x.Authenticator) (clk : nat → Z) (cert : certificate)
    (nas cs org : string) : Dot1x.Authenticator * Decision :=
  match Dot1x.Authenticate a clk (pdp_request cert nas cs org) with
  | Some (a', r) =>
      (a', mkDecision (bool_decide (Dot1x.rs_Result r = Dot1x.AuthSuccess)) (Dot1x.rs_Username r)
             (Dot1x.rs_AssignedVLAN r) (Dot1x.rs_ACLName r) (Dot1x.rs_SessionTimeout r)
             (Dot1x.rs_Message r))
  | None => (a, mkDecision false "" 0 "" 0 "")
  end.

#[export] Instance dot1x_pdp : PolicyEngine Dot1x.Authenticator.
Proof.
  refine {| Decide := radsecPDP_Decide |}. intros p clk c nas cs org. unfold radsecPDP_Decide.
  destruct (Dot1x.Authenticate p clk (pdp_request c nas cs org)) as [[a' r]|] eqn:E; [|done].
  cbn. rewrite bool_decide_eq_false. intros Hr.
  apply Dot1x.authenticate_cases in E as [(u & _ & Hs & _)|(_ & -> & _)]; done.
Defined.

(** What the PDP decides on a device certificate.  For a certificate that
    came out of the parser, the adapter accepts exactly when the clock is inside
    the validity window and the subject has a Common Name; it then answers with
    that name, VLAN 100, no ACL and an eight-hour session timeout, and opens one
    802.1X session for the station; otherwise the authenticator is unchanged. *)
Theorem radsec_pdp_decision (a : Dot1x.Authenticator) clk c nas cs org :
  Dot1x.parse_cert (Raw c) = Some c →
  let '(a', d) := radsecPDP_Decide a clk c nas cs org in
  (Accept d = true ↔
     (Dot1x.NotBefore c <= clk 0%nat <= Dot1x.NotAfter c)%Z ∧ CommonName c ≠ "")
  ∧ (Accept d = true →
     Username d = CommonName c ∧ VLAN d = 100%Z ∧ ACL d = "" ∧ SessionTimeout d = 28800%Z
     ∧ a' = Dot1x.with_sessions a
              (<[Dot1x.session_id (pdp_request c nas cs org) (clk 1) :=
                 Dot1x.new_session clk (pdp_request c nas cs org) (CommonName c)]>
               (Dot1x.sessions a)))
  ∧ (Accept d = false → a' = a).
Proof.
  intros Hp. unfold radsecPDP_Decide, Dot1x.Authenticate, Dot1x.authenticateEAPTLS.
  cbn [pdp_request Dot1x.rq_EAPMethod Dot1x.rq_ClientCertPEM].
  rewrite (bool_decide_eq_true_2 (Dot1x.EAPTLS = _)) by done.
  rewrite (bool_decide_eq_false_2 (Dot1x.pem_encode _ = "")) by apply Dot1x.pem_encode_nonempty.
  rewrite Dot1x.pem_decode_encode, Hp.
  destruct (Z.ltb_spec (clk 0) (Dot1x.NotBefore c)); cbn [orb].
  { split; [|done]. split; [done|]. lia. }
  destruct (Z.ltb_spec (Dot1x.NotAfter c) (clk 0)).
  { split; [|done]. split; [done|]. lia. }
  case_bool_decide.
  { split; [|done]. split; [done|]. tauto. }
  split_and!; [|done..]. split; [|done]. intros _. split; [lia|done].
Qed.

End Adapter.

(** ** A concrete conversation, for the witnesses *)

Definition demo_cert : certificate :=
  Dot1x.mkCert [x41; x42] 0 100 "AB" ["org-1"].

(** An engine that answers the first flight with one byte and completes on the
    second. *)
#[local] Instance demo_tls : TlsServer nat.
Proof.
  refine {| tls_new := 0;
            tls_flight t b := (S t, if t <? 1 then [x16] else []);
            tls_done t := if 2 <=? t then Some true else None;
            tls_peer_certs t := [demo_cert];
            tls_export t := Some (replicate 64 x2a);
            trusted c := c = demo_cert |}.
  - intros t b r. cbn [fst]. destruct (Nat.leb_spec 2 t); [|done].
    by rewrite (proj2 (Nat.leb_le 2 (S t))) by lia.
  - intros t _. by exists demo_cert, [].
Defined.

#[local] Existing Instance Dot1x.toy_certlib.

Definition demo_env : env := mkEnv (λ _, 50%Z) (Some [x0a]) "" (Some (x80, x01)) (Some (x80, x02)).
Definition demo_packet (eap : bytes) (state : option string) : packet :=
  mkPacket codeAccessRequest x07 zeros16
    (mkAttr attrEAPMessage eap
     :: match state with Some t => [mkAttr attrState (of_string t)] | None => [] end).
Definition demo_identity := demo_packet [x02; x01; x00; x06; x01; x61] None.
Definition demo_flight (b : byte) := demo_packet [x02; x02; x00; x07; x0d; x00; b] (Some "0a").

Definition demo_server : Server (T := nat) := NewServer (Dot1x.NewAuthenticator None).
Definition demo_turn (s : Server) (p : packet) : Server * bytes :=
  default (s, []) (handleAccessRequest s demo_env 1 p).
(** After the identity response and the first TLS flight. *)
Definition demo_mid : Server :=
  fst (demo_turn (fst (demo_turn demo_server demo_identity)) (demo_flight x01)).
Definition demo_end : Server * bytes := demo_turn demo_mid (demo_flight x02).

Lemma demo_turn_step s p : srv_wf s → step s (fst (demo_turn s p)).
Proof.
  intros Hwf. unfold demo_turn.
  destruct (handle_spec s demo_env 1 p Hwf) as (s' & out & Hh & _). rewrite Hh.
  by eapply step_request.
Qed.

Lemma demo_reachable : rtc step demo_server demo_mid.
Proof.
  assert (step demo_server (fst (demo_turn demo_server demo_identity))) as H1
    by apply demo_turn_step, map_Forall_empty.
  eapply rtc_l; [exact H1|]. apply rtc_once. apply demo_turn_step.
  eapply step_wf; [|exact H1]. apply map_Forall_empty.
Qed.

Lemma demo_accepts :
  handleAccessRequest demo_mid demo_env 1 (demo_flight x02)
  = Some (fst demo_end, snd demo_end)
  ∧ byte_at (snd demo_end) 0 = codeAccessAccept.
Proof. by vm_compute. Qed.

Lemma accept_only_verified_witness :
  byte_at (snd demo_end) 0 = codeAccessAccept
  ∧ ∃ sess, sessions demo_mid !! "0a" = Some sess.
Proof.
  destruct demo_accepts as [Hh Hc]. split; [exact Hc|].
  destruct (accept_only_verified demo_mid demo_env 1 (demo_flight x02)
              (fst demo_end) (snd demo_end) (reachable_wf _ _ demo_reachable) Hh Hc)
    as (sess & t & c & Hs & _).
  exists sess. exact Hs.
Defined.

Lemma accept_not_replayable_witness :
  handleAccessRequest (fst demo_end) demo_env 2 (demo_flight x02)
  = Some (fst demo_end, reject (demo_flight x02)).
Proof.
  destruct demo_accepts as [Hh Hc].
  apply (accept_not_replayable demo_mid demo_env 1 (demo_flight x02)
           (fst demo_end) (snd demo_end) (reachable_wf _ _ demo_reachable) Hh Hc).
  reflexivity.
Defined.

Lemma every_request_answered_witness :
  ∃ s' out c, handleAccessRequest demo_mid demo_env 1 demo_identity = Some (s', out)
    ∧ reply_to demo_identity c out.
Proof.
  destruct (every_request_answered (Dot1x.NewAuthenticator None) demo_mid demo_env 1
              demo_identity demo_reachable) as (s' & out & c & H1 & H2 & _).
  exists s', out, c. split; [exact H1|exact H2].
Defined.

Lemma serve_panics_witness :
  handleConn 22 0 demo_mid (λ _, demo_env) (λ _, true) 1 crash_packet = None.
Proof.
  destruct (serve_panics_only_in_verify (Dot1x.NewAuthenticator None) demo_mid demo_env 1
              demo_reachable) as [_ Hp].
  exact (Hp 0 (λ _, demo_env) (λ _, true) []).
Defined.

Lemma radsec_pdp_decision_witness :
  Accept (snd (radsecPDP_Decide (Dot1x.NewAuthenticator None) (λ _, 50%Z) demo_cert "nas" "cs" ""))
  = true.
Proof.
  pose proof (radsec_pdp_decision (Dot1x.NewAuthenticator None) (λ _, 50%Z) demo_cert
                "nas" "cs" "" eq_refl) as Hd.
  destruct (radsecPDP_Decide _ _ demo_cert "nas" "cs" "") as [a' d].
  apply Hd. split; [split; discriminate|discriminate].
Defined.

End RadsecServer.
