(* ===== verification/PolicyStore.v ===== *)
(** * The policy store (internal/policy/store.go)

    The versioned policy configuration: a map of policies, a window of the last
    ten configuration snapshots, an edit lock with an expiry, and the buffered
    channel that tells the WebSocket hub about each commit.

    [clk i] is the i-th reading of the clock along one call (nanoseconds); [ro]
    is the order in which [range] visits the policy map.  [sort.Slice] is not
    stable: a stable sort of a map in any order gives every outcome it can have.
    [json.Marshal], which the comparison of two policies goes through, is the
    argument [marshal] ([None] an error, whose result the source discards).

    The abstract store at the end of the definitions keeps the whole history as
    an append-only log indexed by version number; the source's store is shown to
    implement it. *)

From S2P Require Import Prelude GoStrings.
#[local] Open Scope string_scope.
#[local] Open Scope nat_scope.
#[local] Open Scope list_scope.

Module PolicyStore.
Import GoStrings.

Definition maxVersions : nat := 10.
Definition queueCap : nat := 64.

(** A [[]string] field: [None] is the nil slice, which marshals differently from an
    empty one. *)
Definition slice : Type := option (list string).

(** [json.RawMessage] fields are their text, [""] the nil message. *)
Record SecurityPolicy := mkPolicy {
  ID : string;
  OrgID : string;
  Name : string;
  Sequence : Z;
  Enabled : bool;
  TrafficSteering : slice;
  AccessMethods : slice;
  SourceUsers : slice;
  SourceUserGroups : slice;
  SourceDevices : slice;
  SourceDeviceGroups : slice;
  SourceDevicePosture : string;
  SourceAddresses : string;
  SourceIPNegate : bool;
  DestAddresses : string;
  DestCloudApps : string;
  DestURLCategories : slice;
  DestIPNegate : bool;
  Services : string;
  HTTPMethods : slice;
  CRUDOperations : slice;
  Action : string;
  ForwardProxyAddr : string;
  ForwardProxyPort : Z;
  SSLProfile : string;
  ATPProfiles : string;
  DNSFilterEnabled : bool;
  DNSBlockCategories : slice;
  DNSAllowCategories : slice;
  DNSCustomBlocklist : slice;
  DNSCustomAllowlist : slice;
  DNSSafeSearch : bool;
  WebFilterEnabled : bool;
  WebBlockCategories : slice;
  WebAllowCategories : slice;
  WebCustomBlocklist : slice;
  WebCustomAllowlist : slice;
  WebSafeSearch : bool;
  WebBlockUncategorized : bool;
  CloudTenantRestrict : bool;
  CloudAllowedTenants : slice;
  LogTraffic : bool;
  LogSecurityEvents : bool;
}.

(** A policy with the other fields at their zero values. *)
Definition base_policy (id org name : string) (seq : Z) (enabled : bool) (action : string)
    (dns : bool) (block : slice) (lt ls : bool) : SecurityPolicy :=
  mkPolicy id org name seq enabled None None None None None None "" "" false "" "" None false ""
    None None action "" 0 "" "" dns None None block None false false None None None None false
    false false None lt ls.

Definition set_sequence (p : SecurityPolicy) (n : Z) : SecurityPolicy :=
  match p with
  | mkPolicy a1 a2 a3 _ a5 a6 a7 a8 a9 a10 a11 a12 a13 a14 a15 a16 a17 a18 a19 a20 a21 a22
      a23 a24 a25 a26 a27 a28 a29 a30 a31 a32 a33 a34 a35 a36 a37 a38 a39 a40 a41 a42 a43 =>
    mkPolicy a1 a2 a3 n a5 a6 a7 a8 a9 a10 a11 a12 a13 a14 a15 a16 a17 a18 a19 a20 a21 a22
      a23 a24 a25 a26 a27 a28 a29 a30 a31 a32 a33 a34 a35 a36 a37 a38 a39 a40 a41 a42 a43
  end.

Record ConfigVersion := mkVersion {
  Version : Z;
  Policies : list SecurityPolicy;
  Author : string;
  Message : string;
  ChangeType : string;
  PolicyID : string;
  CreatedAt : Z;
}.

Record ConfigLock := mkLock {
  LockedBy : string;
  LockedAt : Z;
  ExpiresAt : Z;
}.

Record Store := mkStore {
  policies : gmap string SecurityPolicy;
  versions : list ConfigVersion;
  version : Z;
  lock : option ConfigLock;
  onChange : list Z;   (** sent and not yet received *)
}.

Definition NewStore : Store := mkStore ∅ [] 0 None [].

Definition with_policies (s : Store) (m : gmap string SecurityPolicy) : Store :=
  mkStore m (versions s) (version s) (lock s) (onChange s).
Definition with_lock (s : Store) (l : option ConfigLock) : Store :=
  mkStore (policies s) (versions s) (version s) l (onChange s).

(** ** Reading *)

Definition before (p q : SecurityPolicy) : Prop := (Sequence p <= Sequence q)%Z.
#[global] Instance before_dec p q : Decision (before p q).
Proof. unfold before. apply _. Defined.

Definition sorted_values (ro : range_order) (m : gmap string SecurityPolicy)
  : list SecurityPolicy := merge_sort before (values ro m).

Definition List (ro : range_order) (s : Store) : list SecurityPolicy :=
  sorted_values ro (policies s).

Definition Get (s : Store) (id : string) : option SecurityPolicy := policies s !! id.

Definition ListVersions (s : Store) : list ConfigVersion := versions s.

(** The search loop of [GetVersion] and [Revert]. *)
Fixpoint find_version (l : list ConfigVersion) (v : Z) : option ConfigVersion :=
  match l with
  | [] => None
  | cv :: l => if (Version cv =? v)%Z then Some cv else find_version l v
  end.

Definition GetVersion (s : Store) (v : Z) : option ConfigVersion :=
  find_version (versions s) v.

(** [Diff] has no [break]: its loop keeps the last match. *)
Definition last_version (l : list ConfigVersion) (v : Z) : option ConfigVersion :=
  foldl (λ r cv, if (Version cv =? v)%Z then Some cv else r) None l.

(** ** The edit lock *)

Definition lockDuration : Z := 30 * 60 * 1000000000.

Definition Lock (s : Store) (clk : nat → Z) (author : string)
  : Store * (option ConfigLock * bool) :=
  match lock s with
  | Some l =>
      if (clk 0%nat <? ExpiresAt l)%Z && negb (bool_decide (LockedBy l = author))
      then (s, (Some l, false))
      else let l' := mkLock author (clk 1%nat) (clk 2%nat + lockDuration) in
           (with_lock s (Some l'), (Some l', true))
  | None => let l' := mkLock author (clk 1%nat) (clk 2%nat + lockDuration) in
            (with_lock s (Some l'), (Some l', true))
  end.

Definition Unlock (s : Store) (author : string) (force : bool) : Store * bool :=
  match lock s with
  | None => (s, true)
  | Some l =>
      if negb force && negb (bool_decide (LockedBy l = author)) then (s, false)
      else (with_lock s None, true)
  end.

Definition GetLock (s : Store) (clk : nat → Z) : Store * option ConfigLock :=
  match lock s with
  | Some l => if (ExpiresAt l <? clk 0%nat)%Z then (with_lock s None, None) else (s, Some l)
  | None => (s, None)
  end.

Definition checkLock (s : Store) (now : Z) (author : string) : string :=
  match lock s with
  | None => ""
  | Some l =>
      if (ExpiresAt l <? now)%Z then ""
      else if negb (bool_decide (LockedBy l = author)) then "config locked by " +:+ LockedBy l
      else ""
  end.

(** ** Writing *)

(** The non-blocking send on [onChange]. *)
Definition notify (q : list Z) (v : Z) : list Z :=
  if length q <? queueCap then q ++ [v] else q.

Definition push_version (l : list ConfigVersion) (cv : ConfigVersion) : list ConfigVersion :=
  (if maxVersions <=? length l then drop 1 l else l) ++ [cv].

Definition commit (ro : range_order) (now : Z) (s : Store)
    (author message changeType policyID : string) : Store * Z :=
  let v := wrap_i64 (version s + 1) in
  let cv := mkVersion v (sorted_values ro (policies s)) author message changeType policyID now in
  (mkStore (policies s) (push_version (versions s) cv) v (lock s) (notify (onChange s) v), v).

Definition max_sequence (ro : range_order) (m : gmap string SecurityPolicy) : Z :=
  foldl (λ mx p, if (mx <? Sequence p)%Z then Sequence p else mx) 0%Z (values ro m).

Definition Create (ro : range_order) (clk : nat → Z) (s : Store) (p : SecurityPolicy)
    (author : string) : Store * (Z * string) :=
  let msg := checkLock s (clk 0%nat) author in
  if bool_decide (msg ≠ "") then (s, (0%Z, msg))
  else
    let p := if (Sequence p <=? 0)%Z
             then set_sequence p (wrap_i64 (max_sequence ro (policies s) + 10)) else p in
    let s := with_policies s (<[ID p := p]> (policies s)) in
    let '(s, v) := commit ro (clk 1%nat) s author ("Policy created: " +:+ Name p) "create" (ID p) in
    (s, (v, "")).

Definition Update (ro : range_order) (clk : nat → Z) (s : Store) (p : SecurityPolicy)
    (author : string) : Store * (Z * bool * string) :=
  let msg := checkLock s (clk 0%nat) author in
  if bool_decide (msg ≠ "") then (s, (0%Z, false, msg))
  else
    match policies s !! ID p with
    | None => (s, (0%Z, false, ""))
    | Some _ =>
        let s := with_policies s (<[ID p := p]> (policies s)) in
        let '(s, v) := commit ro (clk 1%nat) s author ("Policy updated: " +:+ Name p) "update" (ID p) in
        (s, (v, true, ""))
    end.

Definition Delete (ro : range_order) (clk : nat → Z) (s : Store) (id author : string)
  : Store * (Z * bool * string) :=
  let msg := checkLock s (clk 0%nat) author in
  if bool_decide (msg ≠ "") then (s, (0%Z, false, msg))
  else
    match policies s !! id with
    | None => (s, (0%Z, false, ""))
    | Some p =>
        let s := with_policies s (delete id (policies s)) in
        let '(s, v) := commit ro (clk 1%nat) s author ("Policy deleted: " +:+ Name p) "delete" id in
        (s, (v, true, ""))
    end.

Definition policySnapshotMap (l : list SecurityPolicy) : gmap string SecurityPolicy :=
  foldl (λ m p, <[ID p := p]> m) ∅ l.

Definition Revert (ro : range_order) (clk : nat → Z) (s : Store) (target : Z) (author : string)
  : Store * (Z * bool) :=
  match find_version (versions s) target with
  | None => (s, (0%Z, false))
  | Some cv =>
      let s := with_policies s (policySnapshotMap (Policies cv)) in
      let '(s, v) := commit ro (clk 0%nat) s author ("Reverted to version " +:+ itoa target)
                       "revert" "" in
      (s, (v, true))
  end.

Definition default_org : string := "a0000000-0000-0000-0000-000000000001".
Definition defaults : list SecurityPolicy :=
  [base_policy "default-allow-all" default_org "Allow All (Dev)" 1000 true "allow" false None true true;
   base_policy "block-malware-domains" default_org "Block Known Malware Domains" 10 true "deny" true
     (Some ["*.malware.test"; "*.phishing.test"; "evil.example.com"]) true true].

Definition LoadDefaults (ro : range_order) (clk : nat → Z) (s : Store) : Store :=
  let s := with_policies s (foldl (λ m p, <[ID p := p]> m) (policies s) defaults) in
  fst (commit ro (clk 0%nat) s "system" "Default policies loaded" "create" "").

(** The hub's receive from [OnChange]. *)
Definition receive (s : Store) : Store * option Z :=
  match onChange s with
  | [] => (s, None)
  | v :: q => (mkStore (policies s) (versions s) (version s) (lock s) q, Some v)
  end.

(** ** Comparing two versions *)

Section Marshal.
Context (marshal : SecurityPolicy → option string).

Definition policyEqual (a b : SecurityPolicy) : bool :=
  bool_decide (default "" (marshal a) = default "" (marshal b)).

(** Each map is visited once; [range] only changes the order of the writes, which
    go to different keys. *)
Definition diff_maps (ro : range_order) (fromMap toMap : gmap string SecurityPolicy)
  : gmap string string :=
  let changes :=
    foldl (λ m kv, match fromMap !! fst kv with
                   | Some _ => m
                   | None => <[fst kv := "added"]> m
                   end) ∅ (range ro toMap) in
  foldl (λ m kv, match toMap !! fst kv with
                 | None => <[fst kv := "removed"]> m
                 | Some tp => if negb (policyEqual (snd kv) tp)
                              then <[fst kv := "modified"]> m else m
                 end) changes (range ro fromMap).

Definition Diff (ro : range_order) (s : Store) (fromVersion toVersion : Z)
  : option (gmap string string) :=
  match last_version (versions s) fromVersion, last_version (versions s) toVersion with
  | Some from, Some to =>
      Some (diff_maps ro (policySnapshotMap (Policies from)) (policySnapshotMap (Policies to)))
  | _, _ => None
  end.

End Marshal.

(** ** Commands *)

Inductive cmd :=
| CCreate (p : SecurityPolicy) (author : string)
| CUpdate (p : SecurityPolicy) (author : string)
| CDelete (id author : string)
| CRevert (v : Z) (author : string)
| CLoadDefaults
| CLock (author : string)
| CUnlock (author : string) (force : bool)
| CGetLock
| CReceive.

Inductive reply :=
| REdit (v : Z) (ok : bool) (msg : string)
| RLock (l : option ConfigLock) (ok : bool)
| RNone
| RVersion (v : option Z).

Definition exec (ro : range_order) (clk : nat → Z) (s : Store) (c : cmd) : Store * reply :=
  match c with
  | CCreate p author =>
      let '(s, (v, msg)) := Create ro clk s p author in (s, REdit v (bool_decide (msg = "")) msg)
  | CUpdate p author =>
      let '(s, (v, ok, msg)) := Update ro clk s p author in (s, REdit v ok msg)
  | CDelete id author =>
      let '(s, (v, ok, msg)) := Delete ro clk s id author in (s, REdit v ok msg)
  | CRevert v author => let '(s, (v, ok)) := Revert ro clk s v author in (s, REdit v ok "")
  | CLoadDefaults => (LoadDefaults ro clk s, RNone)
  | CLock author => let '(s, (l, ok)) := Lock s clk author in (s, RLock l ok)
  | CUnlock author force => let '(s, ok) := Unlock s author force in (s, RLock None ok)
  | CGetLock => let '(s, l) := GetLock s clk in (s, RLock l true)
  | CReceive => let '(s, v) := receive s in (s, RVersion v)
  end.

Fixpoint run (s : Store) (cs : list (range_order * (nat → Z) * cmd)) : Store * list reply :=
  match cs with
  | [] => (s, [])
  | (ro, clk, c) :: cs =>
      let '(s, r) := exec ro clk s c in
      let '(s, rs) := run s cs in (s, r :: rs)
  end.

(** ** The abstract store: the whole history *)

Record Abs := mkAbs {
  log : list ConfigVersion;      (** version [n] is entry [n - 1] *)
  cur : gmap string SecurityPolicy;
  holder : option ConfigLock;
  seen : Z;                      (** the last version the hub received *)
}.

Definition abs_init : Abs := mkAbs [] ∅ None 0.

(** What is still available of the history: the last ten entries. *)
Definition retained (l : list ConfigVersion) (v : Z) : option ConfigVersion :=
  if (0 <? v)%Z && (Z.of_nat (length l) - Z.of_nat maxVersions <? v)%Z
  then l !! Z.to_nat (v - 1) else None.

Definition is_snapshot (m : gmap string SecurityPolicy) (l : list SecurityPolicy) : Prop :=
  l ≡ₚ values canonical_order m ∧ StronglySorted before l.

Definition is_max (m : gmap string SecurityPolicy) (mx : Z) : Prop :=
  (0 <= mx)%Z ∧ map_Forall (λ _ q, (Sequence q <= mx)%Z) m
  ∧ (mx = 0%Z ∨ ∃ k q, m !! k = Some q ∧ Sequence q = mx).

Inductive abs_commit (a : Abs) (m : gmap string SecurityPolicy)
    (author msg ct pid : string) : Abs → Prop :=
| abs_commit_intro snap t :
    is_snapshot m snap →
    abs_commit a m author msg ct pid
      (mkAbs (log a ++ [mkVersion (Z.of_nat (S (length (log a)))) snap author msg ct pid t])
         m (holder a) (seen a)).

Definition free (a : Abs) (t : Z) (author : string) : Prop :=
  ∀ l, holder a = Some l → (t <= ExpiresAt l)%Z → LockedBy l = author.

Definition editor (c : cmd) : option string :=
  match c with
  | CCreate _ author | CUpdate _ author | CDelete _ author => Some author
  | _ => None
  end.

Definition head_version (a : Abs) : Z := Z.of_nat (length (log a)).

Inductive abs_step (clk : nat → Z) (a : Abs) : cmd → reply → Abs → Prop :=
| abs_blocked c author l :
    editor c = Some author → holder a = Some l → (clk 0%nat <= ExpiresAt l)%Z →
    LockedBy l ≠ author →
    abs_step clk a c (REdit 0 false ("config locked by " +:+ LockedBy l)) a
| abs_create p author n a' :
    free a (clk 0%nat) author →
    ((0 < Sequence p)%Z → n = Sequence p) →
    ((Sequence p <= 0)%Z → ∃ mx, is_max (cur a) mx ∧ n = wrap_i64 (mx + 10)) →
    abs_commit a (<[ID p := set_sequence p n]> (cur a)) author
      ("Policy created: " +:+ Name p) "create" (ID p) a' →
    abs_step clk a (CCreate p author) (REdit (head_version a') true "") a'
| abs_update p author q a' :
    free a (clk 0%nat) author → cur a !! ID p = Some q →
    abs_commit a (<[ID p := p]> (cur a)) author
      ("Policy updated: " +:+ Name p) "update" (ID p) a' →
    abs_step clk a (CUpdate p author) (REdit (head_version a') true "") a'
| abs_update_missing p author :
    free a (clk 0%nat) author → cur a !! ID p = None →
    abs_step clk a (CUpdate p author) (REdit 0 false "") a
| abs_delete id author q a' :
    free a (clk 0%nat) author → cur a !! id = Some q →
    abs_commit a (delete id (cur a)) author ("Policy deleted: " +:+ Name q) "delete" id a' →
    abs_step clk a (CDelete id author) (REdit (head_version a') true "") a'
| abs_delete_missing id author :
    free a (clk 0%nat) author → cur a !! id = None →
    abs_step clk a (CDelete id author) (REdit 0 false "") a
| abs_revert v author cv m a' :
    retained (log a) v = Some cv → is_snapshot m (Policies cv) →
    map_Forall (λ id p, ID p = id) m →
    abs_commit a m author ("Reverted to version " +:+ itoa v) "revert" "" a' →
    abs_step clk a (CRevert v author) (REdit (head_version a') true "") a'
| abs_revert_missing v author :
    retained (log a) v = None →
    abs_step clk a (CRevert v author) (REdit 0 false "") a
| abs_defaults a' :
    abs_commit a (foldl (λ m p, <[ID p := p]> m) (cur a) defaults)
      "system" "Default policies loaded" "create" "" a' →
    abs_step clk a CLoadDefaults RNone a'
| abs_lock_refused author l :
    holder a = Some l → (clk 0%nat < ExpiresAt l)%Z → LockedBy l ≠ author →
    abs_step clk a (CLock author) (RLock (Some l) false) a
| abs_lock_granted author :
    (∀ l, holder a = Some l → (clk 0%nat < ExpiresAt l)%Z → LockedBy l = author) →
    let l := mkLock author (clk 1%nat) (clk 2%nat + lockDuration) in
    abs_step clk a (CLock author) (RLock (Some l) true) (mkAbs (log a) (cur a) (Some l) (seen a))
| abs_unlock_refused author l :
    holder a = Some l → LockedBy l ≠ author →
    abs_step clk a (CUnlock author false) (RLock None false) a
| abs_unlock author force :
    (∀ l, holder a = Some l → force = true ∨ LockedBy l = author) →
    abs_step clk a (CUnlock author force) (RLock None true) (mkAbs (log a) (cur a) None (seen a))
| abs_getlock_expired l :
    holder a = Some l → (ExpiresAt l < clk 0%nat)%Z →
    abs_step clk a CGetLock (RLock None true) (mkAbs (log a) (cur a) None (seen a))
| abs_getlock :
    (∀ l, holder a = Some l → (clk 0%nat <= ExpiresAt l)%Z) →
    abs_step clk a CGetLock (RLock (holder a) true) a
| abs_receive v :
    (seen a < v <= head_version a)%Z →
    abs_step clk a CReceive (RVersion (Some v)) (mkAbs (log a) (cur a) (holder a) v)
| abs_receive_none : abs_step clk a CReceive (RVersion None) a.

Inductive abs_run : Abs → list (range_order * (nat → Z) * cmd) → list reply → Abs → Prop :=
| abs_nil a : abs_run a [] [] a
| abs_cons a ro clk c cs r a1 rs a2 :
    abs_step clk a c r a1 → abs_run a1 cs rs a2 →
    abs_run a ((ro, clk, c) :: cs) (r :: rs) a2.

(** ** The refinement relation *)

Definition keyed (m : gmap string SecurityPolicy) : Prop := map_Forall (λ id p, ID p = id) m.

Record log_ok (a : Abs) : Prop := {
  ok_number : ∀ i cv, log a !! i = Some cv → Version cv = Z.of_nat (S i);
  ok_snap : ∀ i cv, log a !! i = Some cv →
    keyed (policySnapshotMap (Policies cv))
    ∧ is_snapshot (policySnapshotMap (Policies cv)) (Policies cv);
  ok_keyed : keyed (cur a);
  ok_cur : policySnapshotMap (from_option Policies [] (last (log a))) = cur a;
}.

Definition window (l : list ConfigVersion) : list ConfigVersion :=
  drop (length l - maxVersions) l.

Record implements (s : Store) (a : Abs) : Prop := {
  im_policies : policies s = cur a;
  im_versions : versions s = window (log a);
  im_version : version s = head_version a;
  im_lock : lock s = holder a;
  im_seen : (seen a <= head_version a)%Z;
  im_queue : StronglySorted Z.lt (seen a :: onChange s);
  im_queue_max : Forall (λ v, (v <= head_version a)%Z) (onChange s);
  im_queue_cap : length (onChange s) ≤ queueCap;
  im_log : log_ok a;
}.

(** ** Snapshots *)

Lemma foldl_insert_lookup (l : list SecurityPolicy) (m : gmap string SecurityPolicy) id p :
  NoDup (map ID l) →
  (foldl (λ m p, <[ID p := p]> m) m l) !! id = Some p
  ↔ (p ∈ l ∧ ID p = id) ∨ ((id ∉ map ID l) ∧ m !! id = Some p).
Proof.
  revert m. induction l as [|q l IH]; intros m Hnd; cbn [foldl map] in *.
  { set_solver. }
  apply NoDup_cons in Hnd as [Hq Hnd]. rewrite IH by done. rewrite elem_of_cons, not_elem_of_cons.
  destruct (decide (ID q = id)) as [<-|Hne].
  - rewrite lookup_insert_eq. split.
    + intros [[Hp Hid]|[_ [= <-]]]; [|by left; split; [left|]].
      destruct Hq. rewrite <- Hid. apply list_elem_of_In, in_map, list_elem_of_In, Hp.
    + intros [[[->|Hp] Hid]|[[[] _] _]]; [by right|by left|done].
  - rewrite lookup_insert_ne by done. split.
    + intros [[Hp Hid]|[Hp Hm]]; [left; by split; [right|]|right]. by split_and!; [congruence|..].
    + intros [[[->|Hp] Hid]|[[_ Hp] Hm]]; [done|by left|by right].
Qed.

Lemma snapshot_lookup l id p :
  NoDup (map ID l) → policySnapshotMap l !! id = Some p ↔ p ∈ l ∧ ID p = id.
Proof.
  intros Hnd. unfold policySnapshotMap. rewrite foldl_insert_lookup by done.
  rewrite lookup_empty. naive_solver.
Qed.

Lemma keyed_NoDup ro m : keyed m → NoDup (map ID (values ro m)).
Proof.
  intros Hk. unfold values. replace (map ID (map snd (range ro m))) with (range ro m).*1.
  { apply NoDup_range_keys. }
  change (map snd (range ro m)) with (snd <$> range ro m).
  change (map ID) with (fmap (M := list) ID). rewrite <- list_fmap_compose.
  apply Forall_fmap_ext, Forall_forall. intros [k p] Hkp. apply elem_of_range in Hkp. cbn.
  symmetry. by apply (Hk k p).
Qed.

Lemma snapshot_map m l : keyed m → is_snapshot m l → policySnapshotMap l = m.
Proof.
  intros Hk [Hp _]. apply map_eq. intros id. apply option_eq. intros p.
  rewrite snapshot_lookup.
  - rewrite Hp, elem_of_values. split; [|by intros Hm; split; [by eexists|apply Hk]].
    intros [[k Hm] <-]. by rewrite (Hk k p Hm).
  - rewrite Hp. by apply keyed_NoDup.
Qed.

#[local] Instance before_total : Total before.
Proof. intros p q. unfold before. lia. Qed.
#[local] Instance before_trans : Transitive before.
Proof. intros p q r. unfold before. lia. Qed.

Lemma values_perm {V} ro ro' (m : gmap string V) : values ro m ≡ₚ values ro' m.
Proof. unfold values. by rewrite (range_perm ro m), (range_perm ro' m). Qed.

Lemma sorted_values_snapshot ro m : is_snapshot m (sorted_values ro m).
Proof.
  split; [|unfold sorted_values; apply (StronglySorted_merge_sort before)].
  unfold sorted_values. rewrite merge_sort_Permutation. apply values_perm.
Qed.

(** ** The version window *)

Lemma push_window l cv : push_version (window l) cv = window (l ++ [cv]).
Proof.
  unfold push_version, window. rewrite length_drop, length_app. cbn [length].
  destruct (Nat.leb_spec maxVersions (length l - (length l - maxVersions))).
  - unfold maxVersions in *. rewrite drop_drop, drop_app_le by lia. do 2 f_equal. lia.
  - unfold maxVersions in *. rewrite drop_app_le by lia. do 2 f_equal. lia.
Qed.

Definition numbered (n : Z) (l : list ConfigVersion) : Prop :=
  ∀ i cv, l !! i = Some cv → Version cv = (n + Z.of_nat i)%Z.

Lemma numbered_tail n cv l : numbered n (cv :: l) → Version cv = n ∧ numbered (n + 1) l.
Proof.
  intros Hn. split; [rewrite (Hn 0 cv eq_refl); lia|].
  intros i c Hi. rewrite (Hn (S i) c Hi). lia.
Qed.

Lemma find_numbered n l v :
  numbered n l →
  find_version l v = if (n <=? v)%Z then l !! Z.to_nat (v - n) else None.
Proof.
  revert n. induction l as [|cv l IH]; intros n Hn; cbn [find_version].
  { by destruct (n <=? v)%Z. }
  destruct (numbered_tail _ _ _ Hn) as [Hv Hn']. rewrite (IH _ Hn'), Hv.
  destruct (Z.eqb_spec n v) as [<-|Hne].
  { rewrite Z.leb_refl, Z.sub_diag. done. }
  destruct (Z.leb_spec (n + 1) v), (Z.leb_spec n v); try lia; [|done].
  replace (Z.to_nat (v - n)) with (S (Z.to_nat (v - (n + 1)))) by lia. done.
Qed.

Lemma last_numbered n l v : numbered n l → last_version l v = find_version l v.
Proof.
  unfold last_version. revert n. induction l as [|cv l IH]; intros n Hn; [done|].
  destruct (numbered_tail _ _ _ Hn) as [Hv Hn']. cbn [foldl find_version].
  destruct (Z.eqb_spec (Version cv) v) as [He|He]; [|by eapply IH].
  assert (∀ l n r, numbered n l → (v < n)%Z →
    foldl (λ r cv, if (Version cv =? v)%Z then Some cv else r) r l = r) as Hskip.
  { clear. induction l as [|c l IH]; intros n r Hn Hlt; [done|].
    destruct (numbered_tail _ _ _ Hn) as [Hv Hn']. cbn [foldl].
    rewrite (proj2 (Z.eqb_neq _ _)) by lia. by apply (IH (n + 1)%Z); [|lia]. }
  apply (Hskip l (n + 1)%Z); [done|lia].
Qed.

Lemma window_numbered l :
  numbered 1 l → numbered (Z.of_nat (length l - maxVersions) + 1) (window l).
Proof.
  intros Hn i cv Hi. unfold window in Hi. rewrite lookup_drop in Hi. rewrite (Hn _ _ Hi). lia.
Qed.

Lemma find_window l v : numbered 1 l → find_version (window l) v = retained l v.
Proof.
  intros Hn. rewrite (find_numbered _ _ _ (window_numbered _ Hn)).
  unfold retained, window, maxVersions.
  destruct (Z.leb_spec (Z.of_nat (length l - 10) + 1) v).
  - rewrite lookup_drop, (proj2 (Z.ltb_lt 0 v)), (proj2 (Z.ltb_lt _ v)) by lia.
    cbn [andb]. f_equal. lia.
  - destruct (Z.ltb_spec 0 v), (Z.ltb_spec (Z.of_nat (length l) - Z.of_nat 10) v); try done; lia.
Qed.

(** ** The simulation *)

Lemma notify_ok sn v q :
  StronglySorted Z.lt (sn :: q) → Forall (λ x, (x <= v)%Z) q → (sn <= v)%Z →
  length q ≤ queueCap →
  let q' := notify q (v + 1) in
  StronglySorted Z.lt (sn :: q') ∧ Forall (λ x, (x <= v + 1)%Z) q' ∧ length q' ≤ queueCap.
Proof.
  intros Hs Hm Hsn Hc. cbv zeta. unfold notify. destruct (Nat.ltb_spec (length q) queueCap).
  - split_and!.
    + change (sn :: q ++ [(v + 1)%Z]) with ((sn :: q) ++ [(v + 1)%Z]).
      apply StronglySorted_app. split_and!; [|done|repeat constructor].
      intros x y Hx ->%list_elem_of_singleton. apply elem_of_cons in Hx as [->|Hx]; [lia|].
      rewrite Forall_forall in Hm. specialize (Hm x Hx). lia.
    + apply Forall_app. split; [|by repeat constructor].
      eapply Forall_impl; [exact Hm|]. cbn. lia.
    + rewrite length_app. cbn. lia.
  - split_and!; [done| |done]. eapply Forall_impl; [exact Hm|]. cbn. lia.
Qed.

Lemma log_ok_numbered a : log_ok a → numbered 1 (log a).
Proof. intros [Hn _ _ _] i cv Hi. rewrite (Hn i cv Hi). lia. Qed.

Lemma commit_log_ok a m snap author msg ct pid t :
  log_ok a → keyed m → is_snapshot m snap →
  log_ok (mkAbs (log a ++ [mkVersion (Z.of_nat (S (length (log a)))) snap author msg ct pid t])
            m (holder a) (seen a)).
Proof.
  intros [Hn Hs Hk Hc] Hm Hsnap. constructor; cbn [log cur].
  - intros i cv [Hi|[Hlen Hi]]%lookup_app_Some; [by apply Hn|].
    apply list_lookup_singleton_Some in Hi as [H0 <-]. cbn. lia.
  - intros i cv [Hi|[_ Hi]]%lookup_app_Some; [by apply (Hs i)|].
    apply list_lookup_singleton_Some in Hi as [_ <-]. cbn [Policies].
    by rewrite (snapshot_map m snap).
  - done.
  - rewrite last_snoc. cbn. by apply snapshot_map.
Qed.

Lemma commit_sim s a m ro now author msg ct pid :
  implements s a → keyed m → (head_version a < 2 ^ 63 - 1)%Z →
  ∃ s' a', commit ro now (with_policies s m) author msg ct pid = (s', head_version a')
    ∧ abs_commit a m author msg ct pid a' ∧ implements s' a'.
Proof.
  intros [Hp Hv Hver Hl Hsn Hq Hqm Hqc Hlog] Hm Hmax.
  assert (wrap_i64 (version s + 1) = Z.of_nat (S (length (log a)))) as Hw.
  { rewrite Hver. unfold head_version in *. rewrite wrap_i64_id; [lia|unfold in_i64; lia]. }
  destruct (notify_ok (seen a) (head_version a) (onChange s)) as (Q1 & Q2 & Q3); [done..|].
  replace (head_version a + 1)%Z with (Z.of_nat (S (length (log a)))) in Q1, Q2, Q3
    by (unfold head_version; lia).
  eexists _, (mkAbs (log a ++ [mkVersion (Z.of_nat (S (length (log a)))) (sorted_values ro m)
                                 author msg ct pid now]) m (holder a) (seen a)).
  unfold commit, head_version. cbn [version versions policies lock onChange with_policies log].
  rewrite Hw, length_app. cbn [length].
  replace (length (log a) + 1) with (S (length (log a))) by lia. split; [reflexivity|].
  split; [constructor; apply sorted_values_snapshot|].
  constructor; cbn [policies versions version lock onChange log cur holder seen];
    unfold head_version in *; cbn [log]; rewrite ?length_app; cbn [length];
    rewrite ?Nat.add_1_r; try done.
  - rewrite Hv. apply push_window.
  - lia.
  - apply commit_log_ok; [done..|apply sorted_values_snapshot].
Qed.

Lemma max_sequence_spec ro m : is_max m (max_sequence ro m).
Proof.
  unfold max_sequence.
  assert (∀ l mx0, let mx := foldl (λ mx p, if (mx <? Sequence p)%Z then Sequence p else mx) mx0 l in
    (mx0 <= mx)%Z ∧ Forall (λ q, (Sequence q <= mx)%Z) l
    ∧ (mx = mx0 ∨ ∃ q, q ∈ l ∧ Sequence q = mx)) as Hf.
  { induction l as [|p l IH]; intros mx0; cbn [foldl]; [split_and!; [lia|constructor|by left]|].
    destruct (IH (if (mx0 <? Sequence p)%Z then Sequence p else mx0)) as (H1 & H2 & H3).
    destruct (Z.ltb_spec mx0 (Sequence p)); split_and!; try lia;
      try (constructor; [lia|done]); destruct H3 as [H3|(q & Hq & H3)];
      try (right; exists q; split; [by right|done]).
    - right. exists p. split; [by left|done].
    - by left. }
  destruct (Hf (values ro m) 0%Z) as (H1 & H2 & H3). split_and!; [done| |].
  - intros k q Hk. rewrite Forall_forall in H2. apply H2, elem_of_values. by exists k.
  - destruct H3 as [H3|(q & Hq & H3)]; [by left|right].
    apply elem_of_values in Hq as [k Hk]. by exists k, q.
Qed.

Lemma checkLock_free s a now author :
  lock s = holder a →
  (checkLock s now author = "" ∧ free a now author)
  ∨ ∃ l, holder a = Some l ∧ (now <= ExpiresAt l)%Z ∧ LockedBy l ≠ author
         ∧ checkLock s now author = "config locked by " +:+ LockedBy l.
Proof.
  intros Hl. unfold checkLock, free. rewrite Hl. destruct (holder a) as [l|]; [|left; by split].
  destruct (Z.ltb_spec (ExpiresAt l) now).
  { left. split; [done|]. intros ? [= <-]. lia. }
  case_bool_decide; cbn [negb]; [left; split; [done|]; by intros ? [= <-]|].
  right. by exists l.
Qed.

Lemma keyed_insert m p : keyed m → keyed (<[ID p := p]> m).
Proof. intros Hm. by apply map_Forall_insert_2. Qed.

Lemma set_sequence_fields p n :
  ID (set_sequence p n) = ID p ∧ Name (set_sequence p n) = Name p.
Proof. by destruct p. Qed.

Lemma set_sequence_same p : set_sequence p (Sequence p) = p.
Proof. by destruct p. Qed.

Lemma config_locked_nonempty (x : string) : "config locked by " +:+ x ≠ "".
Proof. discriminate. Qed.

Definition simulated (clk : nat → Z) (a : Abs) (c : cmd) (sr : Store * reply) : Prop :=
  ∃ a', abs_step clk a c (snd sr) a' ∧ implements (fst sr) a'.

Section Simulation.
Context (s : Store) (a : Abs) (ro : range_order) (clk : nat → Z).
Context (Him : implements s a) (Hmax : (head_version a < 2 ^ 63 - 1)%Z).

Lemma create_sim p author : simulated clk a (CCreate p author) (exec ro clk s (CCreate p author)).
Proof.
  unfold simulated, exec, Create.
  destruct (checkLock_free s a (clk 0%nat) author (im_lock _ _ Him)) as
    [[-> Hfree]|(l & Hl & He & Hb & ->)]; last first.
  { rewrite bool_decide_eq_true_2 by apply config_locked_nonempty.
    rewrite bool_decide_eq_false_2 by apply config_locked_nonempty.
    exists a. split; [by eapply abs_blocked|done]. }
  rewrite bool_decide_eq_false_2 by (intros Hn; by apply Hn).
  set (n := if (Sequence p <=? 0)%Z
            then wrap_i64 (max_sequence ro (policies s) + 10) else Sequence p).
  replace (if (Sequence p <=? 0)%Z then _ else p) with (set_sequence p n)
    by (unfold n; destruct (Sequence p <=? 0)%Z; [done|apply set_sequence_same]).
  destruct (set_sequence_fields p n) as [Hid Hname]. rewrite Hid, Hname.
  rewrite (im_policies _ _ Him).
  destruct (commit_sim s a (<[ID p := set_sequence p n]> (cur a)) ro (clk 1%nat) author
              ("Policy created: " +:+ Name p) "create" (ID p) Him) as (s' & a' & -> & Hc & Hi).
  { rewrite <- Hid at 1. apply keyed_insert, Him. }
  { done. }
  exists a'. split; [|done]. cbn [snd]. rewrite bool_decide_eq_true_2 by done.
  apply (abs_create _ _ _ _ n); [done| | |done]; unfold n; intros Hs.
  - by rewrite (proj2 (Z.leb_gt _ _)).
  - rewrite (proj2 (Z.leb_le _ _)) by done. eexists. split; [|reflexivity].
    rewrite (im_policies _ _ Him). apply max_sequence_spec.
Qed.

Lemma update_sim p author : simulated clk a (CUpdate p author) (exec ro clk s (CUpdate p author)).
Proof.
  unfold simulated, exec, Update.
  destruct (checkLock_free s a (clk 0%nat) author (im_lock _ _ Him)) as
    [[-> Hfree]|(l & Hl & He & Hb & ->)]; last first.
  { rewrite bool_decide_eq_true_2 by apply config_locked_nonempty.
    exists a. split; [by eapply abs_blocked|done]. }
  rewrite bool_decide_eq_false_2 by (intros Hn; by apply Hn).
  rewrite (im_policies _ _ Him). destruct (cur a !! ID p) as [q|] eqn:Hq.
  - destruct (commit_sim s a (<[ID p := p]> (cur a)) ro (clk 1%nat) author
                ("Policy updated: " +:+ Name p) "update" (ID p) Him) as (s' & a' & -> & Hc & Hi);
      [apply keyed_insert, Him|done|].
    exists a'. split; [by eapply abs_update|done].
  - exists a. split; [by apply abs_update_missing|done].
Qed.

Lemma delete_sim id author :
  simulated clk a (CDelete id author) (exec ro clk s (CDelete id author)).
Proof.
  unfold simulated, exec, Delete.
  destruct (checkLock_free s a (clk 0%nat) author (im_lock _ _ Him)) as
    [[-> Hfree]|(l & Hl & He & Hb & ->)]; last first.
  { rewrite bool_decide_eq_true_2 by apply config_locked_nonempty.
    exists a. split; [by eapply abs_blocked|done]. }
  rewrite bool_decide_eq_false_2 by (intros Hn; by apply Hn).
  rewrite (im_policies _ _ Him). destruct (cur a !! id) as [q|] eqn:Hq.
  - destruct (commit_sim s a (delete id (cur a)) ro (clk 1%nat) author
                ("Policy deleted: " +:+ Name q) "delete" id Him) as (s' & a' & -> & Hc & Hi);
      [apply map_Forall_delete, Him|done|].
    exists a'. split; [by eapply abs_delete|done].
  - exists a. split; [by apply abs_delete_missing|done].
Qed.

Lemma find_retained v : find_version (versions s) v = retained (log a) v.
Proof.
  rewrite (im_versions _ _ Him). apply find_window, log_ok_numbered, (im_log _ _ Him).
Qed.

Lemma retained_snapshot v cv :
  retained (log a) v = Some cv →
  keyed (policySnapshotMap (Policies cv))
  ∧ is_snapshot (policySnapshotMap (Policies cv)) (Policies cv).
Proof.
  unfold retained. destruct (_ && _); [|done]. apply (ok_snap _ (im_log _ _ Him)).
Qed.

Lemma revert_sim v author : simulated clk a (CRevert v author) (exec ro clk s (CRevert v author)).
Proof.
  unfold simulated, exec, Revert. rewrite find_retained.
  destruct (retained (log a) v) as [cv|] eqn:Hr.
  - destruct (retained_snapshot v cv Hr) as [Hk Hs].
    destruct (commit_sim s a (policySnapshotMap (Policies cv)) ro (clk 0%nat) author
                ("Reverted to version " +:+ itoa v) "revert" "" Him) as (s' & a' & -> & Hc & Hi);
      [done..|].
    exists a'. split; [by eapply abs_revert|done].
  - exists a. split; [by apply abs_revert_missing|done].
Qed.

Lemma defaults_sim : simulated clk a CLoadDefaults (exec ro clk s CLoadDefaults).
Proof.
  unfold simulated, exec, LoadDefaults. rewrite (im_policies _ _ Him).
  destruct (commit_sim s a (foldl (λ m p, <[ID p := p]> m) (cur a) defaults) ro (clk 0%nat)
              "system" "Default policies loaded" "create" "" Him) as (s' & a' & -> & Hc & Hi).
  { unfold defaults. cbn [foldl]. do 2 apply keyed_insert. apply Him. }
  { done. }
  exists a'. split; [by constructor|done].
Qed.

(** A step that touches neither the policies nor the history. *)
Lemma frame_sim s' a' :
  policies s' = policies s → versions s' = versions s → version s' = version s →
  log a' = log a → cur a' = cur a → lock s' = holder a' →
  StronglySorted Z.lt (seen a' :: onChange s') → (seen a' <= head_version a)%Z →
  Forall (λ v, (v <= head_version a)%Z) (onChange s') → length (onChange s') ≤ queueCap →
  implements s' a'.
Proof.
  intros Hp Hv Hn Hl Hc Hlk Hq Hsn Hqm Hcap. destruct Him as [I1 I2 I3 _ _ _ _ _ [L1 L2 L3 L4]].
  assert (head_version a' = head_version a) as Hh by (unfold head_version; by rewrite Hl).
  constructor; rewrite ?Hh; try done; try congruence.
  constructor; rewrite ?Hl, ?Hc; done.
Qed.

Lemma locks_sim c :
  match c with CLock _ | CUnlock _ _ | CGetLock => True | _ => False end →
  simulated clk a c (exec ro clk s c).
Proof.
  assert (∀ l, implements (with_lock s l) (mkAbs (log a) (cur a) l (seen a))) as Hset.
  { intros l. destruct Him. by apply frame_sim. }
  unfold simulated. destruct c as [| | | | |author|author force| |]; try done; intros _; cbn [exec].
  - unfold Lock. rewrite (im_lock _ _ Him). destruct (holder a) as [l|] eqn:Hl.
    + destruct (Z.ltb_spec (clk 0%nat) (ExpiresAt l)); case_bool_decide; cbn [andb negb].
      2:{ exists a. split; [by apply abs_lock_refused|done]. }
      all: eexists; split; [apply abs_lock_granted|apply Hset]; intros l' Hl' ?; simplify_eq; lia || done.
    + eexists. split; [apply abs_lock_granted|apply Hset]. by rewrite Hl.
  - unfold Unlock. rewrite (im_lock _ _ Him). destruct (holder a) as [l|] eqn:Hl.
    + destruct force; cbn [negb andb].
      { eexists. split; [apply abs_unlock|apply Hset]. by left. }
      case_bool_decide; cbn [negb].
      * eexists. split; [apply abs_unlock|apply Hset]. intros l' Hl'. simplify_eq. by right.
      * exists a. split; [by eapply abs_unlock_refused|done].
    + exists (mkAbs (log a) (cur a) None (seen a)). split; [apply abs_unlock; by rewrite Hl|].
      destruct Him. apply frame_sim; cbn; try done; congruence.
  - unfold GetLock. rewrite (im_lock _ _ Him). destruct (holder a) as [l|] eqn:Hl.
    + destruct (Z.ltb_spec (ExpiresAt l) (clk 0%nat)).
      * eexists. split; [by eapply abs_getlock_expired|apply Hset].
      * exists a. split; [|done]. rewrite <- Hl. apply abs_getlock. by intros l' [= <-]%(eq_trans (eq_sym Hl)).
    + exists a. split; [|done]. rewrite <- Hl. apply abs_getlock. by rewrite Hl.
Qed.

Lemma receive_sim : simulated clk a CReceive (exec ro clk s CReceive).
Proof.
  unfold simulated, exec, receive. destruct (onChange s) as [|v q] eqn:Hq.
  { exists a. split; [apply abs_receive_none|done]. }
  destruct Him as [_ _ _ Hl Hsn Hqs Hqm Hqc _]. rewrite Hq in Hqs, Hqm, Hqc.
  apply Forall_cons in Hqm as [Hv Hqm]. apply StronglySorted_inv in Hqs as [Hqs Hlt].
  apply Forall_cons in Hlt as [Hlt _]. cbn in Hqc.
  eexists. split; [apply abs_receive; lia|]. by apply frame_sim; [..|cbn; lia].
Qed.

Lemma exec_sim c : simulated clk a c (exec ro clk s c).
Proof.
  destruct c; [apply create_sim|apply update_sim|apply delete_sim|apply revert_sim
              |apply defaults_sim|by apply locks_sim..|apply receive_sim].
Qed.

End Simulation.

Lemma abs_step_length clk a c r a' : abs_step clk a c r a' → length (log a') ≤ S (length (log a)).
Proof.
  destruct 1; cbn [log]; try lia;
    match goal with H : abs_commit _ _ _ _ _ _ _ |- _ => destruct H end;
    cbn [log]; rewrite length_app; cbn; lia.
Qed.

Lemma abs_run_length a cs rs a' :
  abs_run a cs rs a' → length (log a') ≤ length (log a) + length cs.
Proof.
  induction 1 as [|a ro clk c cs r a1 rs a2 Hs Hr IH]; [cbn; lia|].
  apply abs_step_length in Hs. cbn [length]. lia.
Qed.

Lemma run_sim cs s a :
  implements s a → (Z.of_nat (length (log a) + length cs) < 2 ^ 63)%Z →
  ∃ a', abs_run a cs (snd (run s cs)) a' ∧ implements (fst (run s cs)) a'.
Proof.
  revert s a. induction cs as [|[[ro clk] c] cs IH]; intros s a Him Hlen.
  { exists a. split; [constructor|done]. }
  cbn [length] in Hlen.
  destruct (exec_sim s a ro clk Him) with (c := c) as (a1 & Hs & Hi); [unfold head_version; lia|].
  cbn [run]. destruct (exec ro clk s c) as [s1 r]. cbn [fst snd] in *.
  pose proof (abs_step_length _ _ _ _ _ Hs).
  destruct (IH s1 a1 Hi) as (a2 & Hr & Hi2); [lia|].
  destruct (run s1 cs) as [s2 rs]. exists a2. split; [by econstructor|done].
Qed.

Lemma init_implements : implements NewStore abs_init.
Proof.
  constructor; cbn; try lia; try by repeat constructor.
Qed.

(** ** Properties *)

(** C3: The policy store implements the append-only history.  Any sequence of
    fewer than 2^63 commands, under any clock and map order, gives replies the
    abstract store can give (version numbers are positions in the full log, edits
    respect the lock, received notifications strictly increase), and ends in a
    state that represents the abstract one: the policy map is the last committed
    snapshot and the version list is exactly the last ten entries of the log. *)
Theorem policy_store_refines cs :
  (Z.of_nat (length cs) < 2 ^ 63)%Z →
  ∃ a, abs_run abs_init cs (snd (run NewStore cs)) a ∧ implements (fst (run NewStore cs)) a.
Proof. intros Hlen. by apply run_sim; [apply init_implements|]. Qed.

Definition demo_policy (id : string) (seq : Z) : SecurityPolicy :=
  base_policy id "org-1" ("P " +:+ id) seq true "deny" false None true false.
Definition demo_clk (n : nat) : Z := 1000.
Definition demo_cmds : list (range_order * (nat → Z) * cmd) :=
  map (λ c, (canonical_order, demo_clk, c))
    [CCreate (demo_policy "a" 0) "ann"; CCreate (demo_policy "b" 5) "bob"; CLock "ann";
     CUpdate (demo_policy "b" 7) "bob"; CDelete "a" "ann"; CRevert 2 "bob"; CReceive].

Lemma policy_store_refines_witness :
  ∃ a, implements (fst (run NewStore demo_cmds)) a ∧ length (log a) = 4.
Proof.
  destruct (policy_store_refines demo_cmds) as (a & Hr & Hi); [vm_compute; reflexivity|].
  exists a. split; [exact Hi|]. pose proof (im_version _ _ Hi) as Hv. unfold head_version in Hv.
  assert (version (fst (run NewStore demo_cmds)) = 4%Z) as H4 by (vm_compute; reflexivity).
  rewrite H4 in Hv. lia.
Defined.

(** A commit's own version is retained, and is the current policy set. *)
Lemma implements_head s a :
  implements s a → log a ≠ [] →
  ∃ cv, GetVersion s (version s) = Some cv ∧ policySnapshotMap (Policies cv) = policies s.
Proof.
  intros Him Hne. unfold GetVersion. rewrite (find_retained _ _ Him), (im_version _ _ Him).
  destruct (exists_last Hne) as (l & cv & Hl).
  assert (last (log a) = Some cv) as Hlast by (rewrite Hl; apply last_snoc).
  exists cv. unfold retained, head_version. rewrite Hl, length_app. cbn [length].
  rewrite (proj2 (Z.ltb_lt 0 _)), (proj2 (Z.ltb_lt _ (Z.of_nat _))) by (unfold maxVersions; lia).
  cbn [andb]. split.
  - replace (Z.to_nat _) with (length l) by lia. by apply list_lookup_middle.
  - rewrite (im_policies _ _ Him), <- (ok_cur _ (im_log _ _ Him)), Hlast. done.
Qed.

(** Reverting restores the snapshot.  In every reachable state, reverting to
    a version that is still retained succeeds, replaces the policy set by exactly
    the policies of that snapshot and records it as the next version; reverting
    to any other version fails and changes nothing. *)
Theorem revert_restores cs ro clk v author :
  (Z.of_nat (length cs) < 2 ^ 63 - 1)%Z →
  let s := fst (run NewStore cs) in
  match GetVersion s v with
  | None => Revert ro clk s v author = (s, (0%Z, false))
  | Some cv =>
      ∃ s' cv', Revert ro clk s v author = (s', ((version s + 1)%Z, true))
        ∧ policies s' = policySnapshotMap (Policies cv)
        ∧ List ro s' ≡ₚ Policies cv
        ∧ GetVersion s' (version s + 1) = Some cv'
        ∧ policySnapshotMap (Policies cv') = policySnapshotMap (Policies cv)
  end.
Proof.
  intros Hlen. cbv zeta. destruct (run_sim cs NewStore abs_init init_implements) as (a & Hr & Him);
    [cbn; lia|]. set (s := fst (run NewStore cs)) in *.
  assert (head_version a < 2 ^ 63 - 1)%Z as Hmax.
  { apply abs_run_length in Hr. unfold head_version. cbn in Hr. lia. }
  unfold GetVersion at 1, Revert. rewrite (find_retained _ _ Him).
  destruct (retained (log a) v) as [cv|] eqn:Hret; [|done].
  destruct (retained_snapshot _ _ Him v cv Hret) as [Hk Hs].
  destruct (commit_sim s a (policySnapshotMap (Policies cv)) ro (clk 0%nat) author
              ("Reverted to version " +:+ itoa v) "revert" "" Him Hk Hmax)
    as (s' & a' & -> & Hc & Hi).
  assert (head_version a' = (version s + 1)%Z ∧ log a' ≠ [] ∧ cur a' = policySnapshotMap (Policies cv))
    as (Hh & Hne & Hcur).
  { rewrite (im_version _ _ Him). unfold head_version. destruct Hc. cbn [log cur].
    rewrite length_app. cbn [length]. split_and!; [lia| |done]. by destruct (log a). }
  destruct (implements_head s' a' Hi Hne) as (cv' & Hg & Hm).
  rewrite (im_version _ _ Hi), Hh in Hg.
  exists s', cv'. rewrite Hh, Hm, (im_policies _ _ Hi). split_and!; try done.
  unfold List. rewrite (im_policies _ _ Hi), Hcur.
  etransitivity; [apply sorted_values_snapshot|]. symmetry. apply Hs.
Qed.

Lemma revert_restores_witness :
  ∃ s', Revert canonical_order demo_clk (fst (run NewStore demo_cmds)) 1 "bob" = (s', (5%Z, true))
    ∧ policies s' = {["a" := demo_policy "a" 10]}.
Proof.
  pose proof (revert_restores demo_cmds canonical_order demo_clk 1 "bob") as Hr.
  assert (∃ cv, GetVersion (fst (run NewStore demo_cmds)) 1 = Some cv
                ∧ policySnapshotMap (Policies cv) = {["a" := demo_policy "a" 10]}) as (cv & Hg & Hm)
    by (eexists; split; vm_compute; reflexivity).
  assert (version (fst (run NewStore demo_cmds)) = 4%Z) as H4 by (vm_compute; reflexivity).
  cbv zeta in Hr. rewrite Hg, H4, Hm in Hr.
  destruct Hr as (s' & cv' & E & Hp & _); [vm_compute; reflexivity|].
  exists s'. split; [exact E|exact Hp].
Defined.

(** ** The lock *)

(** Commands another author can issue without force, reverting apart. *)
Definition by_other (holder : string) (c : cmd) : Prop :=
  match c with
  | CCreate _ b | CUpdate _ b | CDelete _ b | CLock b => b ≠ holder
  | CUnlock b force => b ≠ holder ∧ force = false
  | CGetLock | CReceive => True
  | CRevert _ _ | CLoadDefaults => False
  end.

Definition same_config (s s' : Store) : Prop :=
  policies s' = policies s ∧ versions s' = versions s ∧ version s' = version s ∧ lock s' = lock s.

Lemma checkLock_held s l now b :
  lock s = Some l → (now <= ExpiresAt l)%Z → b ≠ LockedBy l →
  checkLock s now b = "config locked by " +:+ LockedBy l.
Proof.
  intros Hl Hnow Hb. unfold checkLock. rewrite Hl, (proj2 (Z.ltb_ge _ _)) by lia.
  by rewrite bool_decide_eq_false_2 by done.
Qed.

Lemma exec_held s l ro clk c :
  lock s = Some l → (clk 0%nat < ExpiresAt l)%Z → by_other (LockedBy l) c →
  same_config s (fst (exec ro clk s c)).
Proof.
  intros Hl Hnow Hc. destruct c as [p b|p b|id b| | |b|b f| |]; cbn in Hc |- *; try done.
  - unfold Create. rewrite (checkLock_held s l) by (done || lia).
    by rewrite bool_decide_eq_true_2 by apply config_locked_nonempty.
  - unfold Update. rewrite (checkLock_held s l) by (done || lia).
    by rewrite bool_decide_eq_true_2 by apply config_locked_nonempty.
  - unfold Delete. rewrite (checkLock_held s l) by (done || lia).
    by rewrite bool_decide_eq_true_2 by apply config_locked_nonempty.
  - unfold Lock. rewrite Hl, (proj2 (Z.ltb_lt _ _)), bool_decide_eq_false_2 by done. done.
  - destruct Hc as [Hb ->]. unfold Unlock. rewrite Hl, bool_decide_eq_false_2 by done. done.
  - unfold GetLock. rewrite Hl, (proj2 (Z.ltb_ge _ _)) by lia. done.
  - unfold receive. by destruct (onChange s).
Qed.

(** The edit lock excludes the other editors, until it expires, is released by
    its holder or is forced: while one author holds it, no sequence of create,
    update, delete, lock and unforced unlock commands by others changes the
    policies, the history, the version number or the lock. *)
Theorem lock_excludes_others s l cs :
  lock s = Some l →
  Forall (λ x, (snd (fst x) 0%nat < ExpiresAt l)%Z ∧ by_other (LockedBy l) (snd x)) cs →
  same_config s (fst (run s cs)).
Proof.
  revert s. induction cs as [|[[ro clk] c] cs IH]; intros s Hl Hcs; [done|].
  apply Forall_cons in Hcs as [[Hnow Hc] Hcs]. cbn in Hnow, Hc. cbn [run].
  pose proof (exec_held s l ro clk c Hl Hnow Hc) as (H1 & H2 & H3 & H4).
  destruct (exec ro clk s c) as [s1 r]. cbn [fst] in *.
  destruct (IH s1) as (K1 & K2 & K3 & K4); [congruence|done|].
  destruct (run s1 cs) as [s2 rs]. cbn [fst] in *. split_and!; congruence.
Qed.

Definition demo_locked : Store := fst (run NewStore demo_cmds).

Lemma lock_excludes_others_witness :
  same_config demo_locked
    (fst (run demo_locked [(canonical_order, demo_clk, CDelete "b" "bob");
                           (reverse_order, demo_clk, CLock "bob");
                           (canonical_order, demo_clk, CCreate (demo_policy "c" 0) "eve")])).
Proof.
  apply (lock_excludes_others demo_locked (mkLock "ann" 1000 1800000001000)).
  - vm_compute. reflexivity.
  - repeat constructor; discriminate.
Defined.

(** Reverting bypasses the edit lock.  With an unexpired lock held by someone
    else, an author whose updates are all refused can still replace the whole
    policy set: [Revert] does not consult the lock and succeeds on every retained
    version. *)
Theorem revert_bypasses_lock s l ro clk v cv author :
  lock s = Some l → (clk 0%nat <= ExpiresAt l)%Z → author ≠ LockedBy l →
  GetVersion s v = Some cv →
  (∀ p, Update ro clk s p author = (s, (0%Z, false, "config locked by " +:+ LockedBy l)))
  ∧ ∃ s', Revert ro clk s v author = (s', (wrap_i64 (version s + 1), true))
      ∧ policies s' = policySnapshotMap (Policies cv) ∧ lock s' = Some l.
Proof.
  intros Hl Hnow Ha Hg. split.
  - intros p. unfold Update. rewrite (checkLock_held s l) by done.
    by rewrite bool_decide_eq_true_2 by apply config_locked_nonempty.
  - unfold Revert. unfold GetVersion in Hg. rewrite Hg. eexists. split; [reflexivity|]. by split.
Qed.

Lemma revert_bypasses_lock_witness :
  ∃ s', Revert canonical_order demo_clk demo_locked 1 "bob" = (s', (5%Z, true))
        ∧ policies s' ≠ policies demo_locked.
Proof.
  assert (∃ cv, GetVersion demo_locked 1 = Some cv
                ∧ policySnapshotMap (Policies cv) = {["a" := demo_policy "a" 10]}) as (cv & Hg & Hm)
    by (eexists; split; vm_compute; reflexivity).
  destruct (revert_bypasses_lock demo_locked (mkLock "ann" 1000 1800000001000)
              canonical_order demo_clk 1 cv "bob") as (_ & s' & E & Hp & _);
    [vm_compute; reflexivity|vm_compute; discriminate|discriminate|exact Hg|].
  exists s'. split; [rewrite E; vm_compute; reflexivity|].
  rewrite Hp, Hm. vm_compute. discriminate.
Defined.

(** ** Differences *)

Lemma foldl_writes {V} (g : string * V → option string) (l : list (string * V))
    (m0 : gmap string string) id :
  NoDup l.*1 →
  let m := foldl (λ m kv, match g kv with Some x => <[fst kv := x]> m | None => m end) m0 l in
  (∀ v, (id, v) ∈ l → m !! id = match g (id, v) with Some x => Some x | None => m0 !! id end)
  ∧ (id ∉ l.*1 → m !! id = m0 !! id).
Proof.
  revert m0. induction l as [|[k w] l IH]; intros m0 Hnd; cbv zeta.
  { split; [|done]. by intros v ?%not_elem_of_nil. }
  cbn [fmap list_fmap fst] in Hnd. apply NoDup_cons in Hnd as [Hk Hnd]. cbn [foldl fst].
  destruct (IH (match g (k, w) with Some x => <[k := x]> m0 | None => m0 end) Hnd) as [H1 H2].
  split.
  - intros v [[= -> ->]|Hin]%elem_of_cons.
    + rewrite H2 by done. by destruct (g (k, w)); [rewrite lookup_insert_eq|].
    + rewrite (H1 v Hin). assert (k ≠ id).
      { intros ->. apply Hk. apply (list_elem_of_fmap_2' fst _ (id, v)); done. }
      destruct (g (id, v)); [done|]. destruct (g (k, w)); [by rewrite lookup_insert_ne|done].
  - cbn [fmap list_fmap fst]. intros [Hne Hin]%not_elem_of_cons. rewrite H2 by done.
    destruct (g (k, w)); [by rewrite lookup_insert_ne|done].
Qed.

Lemma not_in_range {V} ro (m : gmap string V) id : m !! id = None → id ∉ (range ro m).*1.
Proof.
  intros Hn ([k v] & -> & Hin)%list_elem_of_fmap. apply elem_of_range in Hin. cbn in Hn. congruence.
Qed.

(** The change a policy underwent between two versions. *)
Definition change_of (marshal : SecurityPolicy → option string)
    (from to : option SecurityPolicy) : option string :=
  match from, to with
  | None, None => None
  | None, Some _ => Some "added"
  | Some _, None => Some "removed"
  | Some p, Some q => if policyEqual marshal p q then None else Some "modified"
  end.

Lemma diff_maps_spec marshal ro m1 m2 id :
  diff_maps marshal ro m1 m2 !! id = change_of marshal (m1 !! id) (m2 !! id).
Proof.
  unfold diff_maps.
  pose proof (foldl_writes (λ kv, match m1 !! fst kv with Some _ => None | None => Some "added" end)
                (range ro m2) ∅ id (NoDup_range_keys ro m2)) as [A1 A2].
  rewrite (foldl_ext _ (λ m kv, match
      (match m1 !! fst kv with Some _ => None | None => Some "added" end)
      with Some x => <[fst kv := x]> m | None => m end) ∅ (range ro m2))
    by (intros m [k v]; cbn; by destruct (m1 !! k)).
  set (ch := foldl _ ∅ (range ro m2)) in *.
  pose proof (foldl_writes (λ kv, match m2 !! fst kv with
                | None => Some "removed"
                | Some tp => if negb (policyEqual marshal (snd kv) tp) then Some "modified" else None
                end) (range ro m1) ch id (NoDup_range_keys ro m1)) as [B1 B2].
  rewrite (foldl_ext _ (λ m kv, match (match m2 !! fst kv with
                | None => Some "removed"
                | Some tp => if negb (policyEqual marshal (snd kv) tp) then Some "modified" else None
                end) with Some x => <[fst kv := x]> m | None => m end) ch (range ro m1))
    by (intros m [k v]; cbn; destruct (m2 !! k) as [q|]; [by destruct (policyEqual _ _ _)|done]).
  cbn [fst snd] in *. destruct (m1 !! id) as [p|] eqn:E1, (m2 !! id) as [q|] eqn:E2; cbn.
  - rewrite (B1 p) by by apply elem_of_range. rewrite (A1 q) by by apply elem_of_range.
    by destruct (policyEqual marshal p q).
  - by rewrite (B1 p) by by apply elem_of_range.
  - rewrite B2 by by apply not_in_range. by rewrite (A1 q) by by apply elem_of_range.
  - rewrite B2 by by apply not_in_range. by rewrite A2 by by apply not_in_range.
Qed.

(** [Diff] is exact.  In every reachable state the difference of two retained
    versions reports for each policy identifier precisely whether it was added,
    removed or modified (up to its JSON form) between the two snapshots, whatever
    the map order; it is absent exactly when one of the versions is not retained. *)
Theorem diff_exact marshal cs ro v1 v2 :
  (Z.of_nat (length cs) < 2 ^ 63)%Z →
  let s := fst (run NewStore cs) in
  match GetVersion s v1, GetVersion s v2 with
  | Some c1, Some c2 =>
      ∃ d, Diff marshal ro s v1 v2 = Some d
        ∧ ∀ id, d !! id = change_of marshal (policySnapshotMap (Policies c1) !! id)
                            (policySnapshotMap (Policies c2) !! id)
  | _, _ => Diff marshal ro s v1 v2 = None
  end.
Proof.
  intros Hlen. cbv zeta.
  destruct (run_sim cs NewStore abs_init init_implements) as (a & _ & Him); [cbn; lia|].
  set (s := fst (run NewStore cs)) in *. unfold Diff, GetVersion.
  assert (∀ v, last_version (versions s) v = find_version (versions s) v) as Hlf.
  { intros v. rewrite (im_versions _ _ Him). eapply last_numbered, window_numbered, log_ok_numbered, Him. }
  rewrite !Hlf. destruct (find_version (versions s) v1), (find_version (versions s) v2); try done.
  eexists. split; [done|]. intros id. apply diff_maps_spec.
Qed.

Lemma diff_exact_witness :
  ∃ d, Diff (λ p, Some (Name p +:+ itoa (Sequence p))) reverse_order
         (fst (run NewStore demo_cmds)) 1 2 = Some d ∧ d !! "b" = Some "added" ∧ d !! "a" = None.
Proof.
  pose proof (diff_exact (λ p, Some (Name p +:+ itoa (Sequence p))) demo_cmds reverse_order 1 2) as Hd.
  cbv zeta in Hd.
  destruct (GetVersion (fst (run NewStore demo_cmds)) 1) as [c1|] eqn:E1;
    [|vm_compute in E1; discriminate].
  destruct (GetVersion (fst (run NewStore demo_cmds)) 2) as [c2|] eqn:E2;
    [|vm_compute in E2; discriminate].
  destruct Hd as (d & Hd & Hs); [vm_compute; reflexivity|].
  exists d. split; [exact Hd|]. rewrite !Hs.
  vm_compute in E1, E2. simplify_eq. split; vm_compute; reflexivity.
Defined.

End PolicyStore.
