(* ===== verification/Segment.v ===== *)
(** * Security group tags and branch sites (internal/segment/store.go)

    Tags with a unique 16-bit value, policies between two tags, branch sites, the
    per-organization tag index and the context classifier.  The store keeps the
    pointers it is given; its callers hand over freshly decoded values, so maps of
    values model it.  [now] is the clock, [ro] the order of [range] over a map.
    Errors are the constructors of [seg_error], one per message of the source. *)

From S2P Require Import Prelude GoStrings.
#[local] Open Scope string_scope.
#[local] Open Scope nat_scope.
#[local] Open Scope list_scope.

Module Segment.
Import GoStrings.

Record DomainContext := mkDomain {
  Domain : string;
  Attributes : list string;
  Weight : Z;
}.

Record TagAssignment := mkAssignment {
  ta_Type : string;
  ta_Value : string;
  ta_Provider : string;
}.

Record SecurityGroupTag := mkTag {
  t_ID : string;
  t_Name : string;
  t_Description : string;
  t_OrgID : string;
  TagValue : Z;   (** [uint16] *)
  t_Color : string;
  Domains : list DomainContext;
  PropagationMethod : string;
  Enforcement : string;
  AssignedTo : list TagAssignment;
  t_CreatedAt : Z;
  t_UpdatedAt : Z;
}.

Record SGTPolicy := mkPolicy {
  p_ID : string;
  p_Name : string;
  p_Description : string;
  p_OrgID : string;
  SourceSGT : string;
  DestinationSGT : string;
  Action : string;
  Protocols : list string;
  Ports : list string;
  ApplicationIDs : list string;
  LogEnabled : bool;
  Priority : Z;
  Enabled : bool;
  p_CreatedAt : Z;
  p_UpdatedAt : Z;
}.

Record SGTMatrix := mkMatrix {
  mx_OrgID : string;
  mx_Tags : list SecurityGroupTag;
  mx_Policies : list SGTPolicy;
}.

Record BranchSite := mkSite {
  b_ID : string;
  b_Name : string;
  b_OrgID : string;
  b_Address : string;
  b_Country : string;
  SGTProfileID : string;
  SDNSwitchIDs : list string;
  MeshPeerID : string;
  GatewayEndpoint : string;
  b_Status : string;
  b_CreatedAt : Z;
  b_UpdatedAt : Z;
}.

Record Store := mkStore {
  tags : gmap string SecurityGroupTag;
  policies : gmap string SGTPolicy;
  sites : gmap string BranchSite;
  orgIndex : gmap string (list string);
  tagValues : gmap Z string;
}.

Inductive seg_error :=
| ErrTagExists (id : string)
| ErrInvalidValue (v : Z)
| ErrValueTaken (v : Z) (id : string)
| ErrNoDomain
| ErrInvalidDomain (d : string)
| ErrTagNotFound (id : string)
| ErrReferenced (id policy : string)
| ErrPolicyExists (id : string)
| ErrSourceNotFound (id : string)
| ErrDestinationNotFound (id : string)
| ErrPolicyNotFound (id : string)
| ErrSiteExists (id : string)
| ErrSiteNotFound (id : string).

(** ** Time stamps *)

Definition stamp_tag (created updated : Z) (t : SecurityGroupTag) : SecurityGroupTag :=
  mkTag (t_ID t) (t_Name t) (t_Description t) (t_OrgID t) (TagValue t) (t_Color t) (Domains t)
    (PropagationMethod t) (Enforcement t) (AssignedTo t) created updated.
Definition stamp_policy (created updated : Z) (p : SGTPolicy) : SGTPolicy :=
  mkPolicy (p_ID p) (p_Name p) (p_Description p) (p_OrgID p) (SourceSGT p) (DestinationSGT p)
    (Action p) (Protocols p) (Ports p) (ApplicationIDs p) (LogEnabled p) (Priority p)
    (Enabled p) created updated.
Definition stamp_site (status : string) (created updated : Z) (b : BranchSite) : BranchSite :=
  mkSite (b_ID b) (b_Name b) (b_OrgID b) (b_Address b) (b_Country b) (SGTProfileID b)
    (SDNSwitchIDs b) (MeshPeerID b) (GatewayEndpoint b) status created updated.

(** ** Defaults *)

Definition template_tag (id name : string) (v : Z) (desc color prop : string)
    (doms : list DomainContext) (asg : list TagAssignment) : SecurityGroupTag :=
  mkTag id name desc "template" v color doms prop "sgacl" asg 0 0.

Definition default_tags : list SecurityGroupTag :=
  [template_tag "sgt-corporate" "Corporate Users" 10
     "Authenticated corporate employees with managed devices" "#3B82F6" "inline"
     [mkDomain "identity" ["employee"; "contractor-full-time"] 40;
      mkDomain "device" ["managed"; "compliant"; "encrypted-disk"] 30;
      mkDomain "location" ["office"; "vpn"] 15;
      mkDomain "time" ["business-hours"; "after-hours"] 15]
     [mkAssignment "user-group" "Corporate-Employees" "idp";
      mkAssignment "device-posture" "compliant" "posture-check"];
   template_tag "sgt-guest" "Guest" 20
     "Guest and BYOD users with limited access" "#F59E0B" "inline"
     [mkDomain "identity" ["guest"; "visitor"; "byod"] 50;
      mkDomain "device" ["unmanaged"; "unknown"] 30;
      mkDomain "application" ["internet-only"] 20]
     [mkAssignment "user-group" "Guest-WiFi" "dot1x"];
   template_tag "sgt-iot" "IoT / OT Devices" 30
     "Internet of Things and operational technology devices" "#F97316" "sxp"
     [mkDomain "device" ["iot-sensor"; "ot-controller"; "camera"; "hvac"] 50;
      mkDomain "data" ["telemetry"; "control-plane"] 30;
      mkDomain "application" ["mqtt"; "coap"; "modbus"] 20]
     [mkAssignment "device-posture" "iot-profile" "posture-check";
      mkAssignment "application" "iot-protocols" "api"];
   template_tag "sgt-servers" "Production Servers" 100
     "Production server workloads — application and database tiers" "#10B981" "inline"
     [mkDomain "application" ["production"; "tier-1"; "tier-2"] 40;
      mkDomain "data" ["confidential"; "pii"; "financial"] 35;
      mkDomain "device" ["server"; "vm"; "container"] 25]
     [mkAssignment "application" "production-workloads" "api"];
   template_tag "sgt-restricted" "Restricted / Management" 999
     "Highly restricted infrastructure management access" "#EF4444" "inline"
     [mkDomain "identity" ["admin"; "network-ops"; "security-ops"] 40;
      mkDomain "device" ["managed"; "hardened"; "mfa-verified"] 35;
      mkDomain "location" ["secure-zone"; "jump-host"] 25]
     [mkAssignment "user-group" "Infrastructure-Admins" "idp";
      mkAssignment "device-posture" "hardened" "posture-check"]].

Definition template_policy (id name src dst action : string) (protos ports : list string)
    (prio : Z) : SGTPolicy :=
  mkPolicy id name "" "template" src dst action protos ports [] true prio true 0 0.

Definition default_policies : list SGTPolicy :=
  [template_policy "sgp-corp-servers" "Corporate → Servers" "sgt-corporate" "sgt-servers"
     "allow" ["TCP"] ["443"; "8443"] 10;
   template_policy "sgp-guest-deny-servers" "Guest → Servers DENY" "sgt-guest" "sgt-servers"
     "deny" ["any"] ["any"] 5;
   template_policy "sgp-guest-deny-restricted" "Guest → Restricted DENY" "sgt-guest"
     "sgt-restricted" "deny" ["any"] ["any"] 5;
   template_policy "sgp-iot-servers-monitor" "IoT → Servers MONITOR" "sgt-iot" "sgt-servers"
     "monitor" ["TCP"; "UDP"] ["1883"; "8883"] 15;
   template_policy "sgp-iot-deny-restricted" "IoT → Restricted DENY" "sgt-iot" "sgt-restricted"
     "deny" ["any"] ["any"] 5;
   template_policy "sgp-corp-restricted" "Corporate → Restricted" "sgt-corporate"
     "sgt-restricted" "monitor" ["TCP"] ["22"; "443"; "3389"] 20].

Definition add_default_tag (now : Z) (s : Store) (t : SecurityGroupTag) : Store :=
  mkStore (<[t_ID t := stamp_tag now now t]> (tags s)) (policies s) (sites s) (orgIndex s)
    (<[TagValue t := t_ID t]> (tagValues s)).
Definition add_default_policy (now : Z) (s : Store) (p : SGTPolicy) : Store :=
  mkStore (tags s) (<[p_ID p := stamp_policy now now p]> (policies s)) (sites s) (orgIndex s)
    (tagValues s).

Definition loadDefaults (now : Z) (s : Store) : Store :=
  foldl (add_default_policy now) (foldl (add_default_tag now) s default_tags) default_policies.

Definition NewStore (now : Z) : Store := loadDefaults now (mkStore ∅ ∅ ∅ ∅ ∅).

(** ** Tags *)

Definition valid_domain (d : string) : bool :=
  bool_decide (ToLower d ∈ ["identity"; "device"; "application"; "data"; "location"; "time"]).

Fixpoint first_invalid (ds : list DomainContext) : option string :=
  match ds with
  | [] => None
  | d :: ds => if negb (valid_domain (Domain d)) then Some (Domain d) else first_invalid ds
  end.

Definition CreateTag (now : Z) (s : Store) (tag : SecurityGroupTag) : result seg_error Store :=
  match tags s !! t_ID tag with
  | Some _ => Err (ErrTagExists (t_ID tag))
  | None =>
      if (TagValue tag =? 0)%Z || (65534 <=? TagValue tag)%Z
      then Err (ErrInvalidValue (TagValue tag))
      else
        match tagValues s !! TagValue tag with
        | Some existing => Err (ErrValueTaken (TagValue tag) existing)
        | None =>
            if length (Domains tag) =? 0 then Err ErrNoDomain
            else
              match first_invalid (Domains tag) with
              | Some d => Err (ErrInvalidDomain d)
              | None =>
                  Ok (mkStore (<[t_ID tag := stamp_tag now now tag]> (tags s)) (policies s) (sites s)
                        (<[t_OrgID tag := default [] (orgIndex s !! t_OrgID tag) ++ [t_ID tag]]>
                           (orgIndex s))
                        (<[TagValue tag := t_ID tag]> (tagValues s)))
              end
        end
  end.

Definition GetTag (s : Store) (id : string) : result seg_error SecurityGroupTag :=
  match tags s !! id with Some t => Ok t | None => Err (ErrTagNotFound id) end.

Definition UpdateTag (now : Z) (s : Store) (tag : SecurityGroupTag) : result seg_error Store :=
  match tags s !! t_ID tag with
  | None => Err (ErrTagNotFound (t_ID tag))
  | Some existing =>
      let tv :=
        if negb (TagValue tag =? TagValue existing)%Z then
          if (TagValue tag =? 0)%Z || (65534 <=? TagValue tag)%Z
          then Err (ErrInvalidValue (TagValue tag))
          else
            match tagValues s !! TagValue tag with
            | Some otherID =>
                if negb (bool_decide (otherID = t_ID tag))
                then Err (ErrValueTaken (TagValue tag) otherID)
                else Ok (<[TagValue tag := t_ID tag]> (delete (TagValue existing) (tagValues s)))
            | None => Ok (<[TagValue tag := t_ID tag]> (delete (TagValue existing) (tagValues s)))
            end
        else Ok (tagValues s) in
      match tv with
      | Err e => Err e
      | Ok tv =>
          Ok (mkStore (<[t_ID tag := stamp_tag (t_CreatedAt tag) now tag]> (tags s)) (policies s)
                (sites s) (orgIndex s) tv)
      end
  end.

Fixpoint referencing (id : string) (ps : list SGTPolicy) : option string :=
  match ps with
  | [] => None
  | p :: ps => if bool_decide (SourceSGT p = id) || bool_decide (DestinationSGT p = id)
               then Some (p_Name p) else referencing id ps
  end.

Definition drop_index (id org : string) (ix : gmap string (list string))
  : gmap string (list string) :=
  match ix !! org with
  | Some l => <[org := List.filter (λ tid, negb (bool_decide (tid = id))) l]> ix
  | None => ix
  end.

Definition DeleteTag (ro : range_order) (s : Store) (id : string) : result seg_error Store :=
  match tags s !! id with
  | None => Err (ErrTagNotFound id)
  | Some tag =>
      match referencing id (values ro (policies s)) with
      | Some name => Err (ErrReferenced id name)
      | None =>
          Ok (mkStore (delete id (tags s)) (policies s) (sites s)
                (drop_index id (t_OrgID tag) (orgIndex s)) (delete (TagValue tag) (tagValues s)))
      end
  end.

Definition ListTags (ro : range_order) (s : Store) (orgID : string) : list SecurityGroupTag :=
  if bool_decide (orgID = "") then values ro (tags s)
  else omap (λ id, tags s !! id) (default [] (orgIndex s !! orgID)).

(** ** Policies *)

Definition CreatePolicy (now : Z) (s : Store) (pol : SGTPolicy) : result seg_error Store :=
  match policies s !! p_ID pol with
  | Some _ => Err (ErrPolicyExists (p_ID pol))
  | None =>
      match tags s !! SourceSGT pol with
      | None => Err (ErrSourceNotFound (SourceSGT pol))
      | Some _ =>
          match tags s !! DestinationSGT pol with
          | None => Err (ErrDestinationNotFound (DestinationSGT pol))
          | Some _ =>
              Ok (mkStore (tags s) (<[p_ID pol := stamp_policy now now pol]> (policies s))
                    (sites s) (orgIndex s) (tagValues s))
          end
      end
  end.

Definition GetPolicy (s : Store) (id : string) : result seg_error SGTPolicy :=
  match policies s !! id with Some p => Ok p | None => Err (ErrPolicyNotFound id) end.

Definition UpdatePolicy (now : Z) (s : Store) (pol : SGTPolicy) : result seg_error Store :=
  match policies s !! p_ID pol with
  | None => Err (ErrPolicyNotFound (p_ID pol))
  | Some _ =>
      Ok (mkStore (tags s)
            (<[p_ID pol := stamp_policy (p_CreatedAt pol) now pol]> (policies s))
            (sites s) (orgIndex s) (tagValues s))
  end.

Definition DeletePolicy (s : Store) (id : string) : result seg_error Store :=
  match policies s !! id with
  | None => Err (ErrPolicyNotFound id)
  | Some _ => Ok (mkStore (tags s) (delete id (policies s)) (sites s) (orgIndex s) (tagValues s))
  end.

Definition ListPolicies (ro : range_order) (s : Store) (orgID : string) : list SGTPolicy :=
  List.filter (λ p, bool_decide (orgID = "") || bool_decide (p_OrgID p = orgID))
    (values ro (policies s)).

Definition GetMatrix (ro : range_order) (s : Store) (orgID : string) : SGTMatrix :=
  mkMatrix orgID (ListTags ro s orgID) (ListPolicies ro s orgID).

(** ** Classification *)

(** One domain: its weight is added once per pair of equal attributes. *)
Definition add_domain (contexts : gmap string (list string)) (score : Z) (d : DomainContext) : Z :=
  match contexts !! Domain d with
  | None => score
  | Some provided =>
      foldl (λ score attr,
        foldl (λ score p, if EqualFold attr p then wrap_i64 (score + Weight d) else score)
          score provided) score (Attributes d)
  end.

Definition tag_score (contexts : gmap string (list string)) (tag : SecurityGroupTag) : Z :=
  foldl (add_domain contexts) 0%Z (Domains tag).

Definition visible (orgID : string) (tag : SecurityGroupTag) : bool :=
  bool_decide (t_OrgID tag = orgID) || bool_decide (t_OrgID tag = "template").

Definition classify_step (orgID : string) (contexts : gmap string (list string))
    (best : option SecurityGroupTag * Z) (tag : SecurityGroupTag) : option SecurityGroupTag * Z :=
  if negb (visible orgID tag) then best
  else
    let score := tag_score contexts tag in
    if (snd best <? score)%Z then (Some tag, score) else best.

Definition ClassifyByContext (ro : range_order) (s : Store) (orgID : string)
    (contexts : gmap string (list string)) : option SecurityGroupTag * Z :=
  foldl (classify_step orgID contexts) (None, 0%Z) (values ro (tags s)).

(** ** Sites *)

Definition with_sites (s : Store) (m : gmap string BranchSite) : Store :=
  mkStore (tags s) (policies s) m (orgIndex s) (tagValues s).

Definition CreateSite (now : Z) (s : Store) (site : BranchSite) : result seg_error Store :=
  match sites s !! b_ID site with
  | Some _ => Err (ErrSiteExists (b_ID site))
  | None => Ok (with_sites s (<[b_ID site := stamp_site "provisioning" now now site]> (sites s)))
  end.

Definition GetSite (s : Store) (id : string) : result seg_error BranchSite :=
  match sites s !! id with Some b => Ok b | None => Err (ErrSiteNotFound id) end.

Definition UpdateSite (now : Z) (s : Store) (site : BranchSite) : result seg_error Store :=
  match sites s !! b_ID site with
  | None => Err (ErrSiteNotFound (b_ID site))
  | Some _ => Ok (with_sites s (<[b_ID site := stamp_site (b_Status site) (b_CreatedAt site) now site]>
                                  (sites s)))
  end.

Definition DeleteSite (s : Store) (id : string) : result seg_error Store :=
  match sites s !! id with
  | None => Err (ErrSiteNotFound id)
  | Some _ => Ok (with_sites s (delete id (sites s)))
  end.

Definition ListSites (ro : range_order) (s : Store) (orgID : string) : list BranchSite :=
  List.filter (λ b, bool_decide (orgID = "") || bool_decide (b_OrgID b = orgID))
    (values ro (sites s)).

(** ** The invariant *)

Definition is_u16 (v : Z) : Prop := (0 <= v <= 65535)%Z.

(** The successful operations; [gp] and [gt] restrict the policy and tag updates a
    theorem allows. *)
Inductive step (gp : Store → SGTPolicy → Prop) (gt : Store → SecurityGroupTag → Prop)
  : Store → Store → Prop :=
| step_create_tag s now t s' :
    is_u16 (TagValue t) → CreateTag now s t = Ok s' → step gp gt s s'
| step_update_tag s now t s' :
    is_u16 (TagValue t) → gt s t → UpdateTag now s t = Ok s' → step gp gt s s'
| step_delete_tag s ro id s' : DeleteTag ro s id = Ok s' → step gp gt s s'
| step_create_policy s now p s' : CreatePolicy now s p = Ok s' → step gp gt s s'
| step_update_policy s now p s' : gp s p → UpdatePolicy now s p = Ok s' → step gp gt s s'
| step_delete_policy s id s' : DeletePolicy s id = Ok s' → step gp gt s s'
| step_create_site s now b s' : CreateSite now s b = Ok s' → step gp gt s s'
| step_update_site s now b s' : UpdateSite now s b = Ok s' → step gp gt s s'
| step_delete_site s id s' : DeleteSite s id = Ok s' → step gp gt s s'.

Definition any {A} (s : Store) (x : A) : Prop := True.

Record tags_ok (tm : gmap string SecurityGroupTag) (vm : gmap Z string) : Prop := {
  ok_tag_key : map_Forall (λ id t, t_ID t = id) tm;
  ok_tag_value : map_Forall (λ id t, (1 <= TagValue t <= 65533)%Z ∧ vm !! TagValue t = Some id) tm;
  ok_value_tag : map_Forall (λ v id, ∃ t, tm !! id = Some t ∧ TagValue t = v) vm;
}.

Record inv (s : Store) : Prop := {
  inv_tags : tags_ok (tags s) (tagValues s);
  inv_policies : map_Forall (λ id p, p_ID p = id) (policies s);
  inv_sites : map_Forall (λ id b, b_ID b = id) (sites s);
}.

Lemma tags_ok_create tm vm t :
  tags_ok tm vm → tm !! t_ID t = None → vm !! TagValue t = None → (1 <= TagValue t <= 65533)%Z →
  tags_ok (<[t_ID t := t]> tm) (<[TagValue t := t_ID t]> vm).
Proof.
  intros [Hk Hv Hb] Hnew Hfree Hr. constructor.
  - by apply map_Forall_insert_2.
  - apply map_Forall_insert_2; [by rewrite lookup_insert_eq|].
    intros id u Hu. destruct (Hv id u Hu) as [H1 H2]. split; [done|].
    rewrite lookup_insert_ne; [done|]. intros He. congruence.
  - apply map_Forall_insert_2; [exists t; by rewrite lookup_insert_eq|].
    intros v id Hid. destruct (Hb v id Hid) as (u & Hu & Hval). exists u. split; [|done].
    rewrite lookup_insert_ne; [done|]. intros He. congruence.
Qed.

Lemma tags_ok_delete tm vm id t :
  tags_ok tm vm → tm !! id = Some t → tags_ok (delete id tm) (delete (TagValue t) vm).
Proof.
  intros [Hk Hv Hb] Ht. destruct (Hv _ _ Ht) as [_ Hvt]. constructor.
  - by apply map_Forall_delete.
  - intros k u [Hne Hu]%lookup_delete_Some. destruct (Hv k u Hu) as [H1 H2]. split; [done|].
    rewrite lookup_delete_ne; [done|]. intros He. congruence.
  - intros v k [Hne Hvk]%lookup_delete_Some. destruct (Hb v k Hvk) as (u & Hu & Hval).
    exists u. split; [|done]. rewrite lookup_delete_ne; [done|]. intros <-. congruence.
Qed.

Lemma tags_ok_same_value tm vm t t' :
  tags_ok tm vm → tm !! t_ID t = Some t' → TagValue t = TagValue t' →
  tags_ok (<[t_ID t := t]> tm) vm.
Proof.
  intros [Hk Hv Hb] Ht He. destruct (Hv _ _ Ht) as [H1 H2]. constructor.
  - by apply map_Forall_insert_2.
  - apply map_Forall_insert_2; [by rewrite He|done].
  - intros v id Hvid. destruct (Hb v id Hvid) as (u & Hu & Hval).
    destruct (decide (t_ID t = id)) as [<-|Hne].
    + exists t. rewrite lookup_insert_eq. split; [done|]. congruence.
    + exists u. by rewrite lookup_insert_ne.
Qed.

(** The two shapes of an accepted update. *)
Lemma UpdateTag_ok now s t s' :
  UpdateTag now s t = Ok s' →
  ∃ t0 tv, tags s !! t_ID t = Some t0
    ∧ s' = mkStore (<[t_ID t := stamp_tag (t_CreatedAt t) now t]> (tags s)) (policies s) (sites s)
             (orgIndex s) tv
    ∧ ((TagValue t = TagValue t0 ∧ tv = tagValues s)
       ∨ (TagValue t ≠ TagValue t0 ∧ TagValue t ≠ 0%Z ∧ (TagValue t < 65534)%Z
          ∧ (∀ o, tagValues s !! TagValue t = Some o → o = t_ID t)
          ∧ tv = <[TagValue t := t_ID t]> (delete (TagValue t0) (tagValues s)))).
Proof.
  unfold UpdateTag. destruct (tags s !! t_ID t) as [t0|]; [|done].
  destruct (Z.eqb_spec (TagValue t) (TagValue t0)) as [He|He]; cbn [negb].
  { intros [= <-]. exists t0, (tagValues s). split_and!; [done..|by left]. }
  destruct (Z.eqb_spec (TagValue t) 0); [done|]. cbn [orb].
  destruct (Z.leb_spec 65534 (TagValue t)); [done|].
  destruct (tagValues s !! TagValue t) as [o|] eqn:Ho.
  - case_bool_decide as Hoid; cbn [negb]; [|done]. intros [= <-].
    eexists t0, _. split_and!; [done..|right]. split_and!; [done..|by intros ? [= <-]|done].
  - intros [= <-]. eexists t0, _. split_and!; [done..|right]. by split_and!.
Qed.

Lemma UpdateTag_tags_ok now s t s' :
  tags_ok (tags s) (tagValues s) → is_u16 (TagValue t) → UpdateTag now s t = Ok s' →
  tags_ok (tags s') (tagValues s').
Proof.
  intros Hok Hu (t0 & tv & Ht & -> & [[He ->]|(Hne & H0 & H1 & Ho & ->)])%UpdateTag_ok;
    cbn [tags tagValues].
  - by apply (tags_ok_same_value _ _ (stamp_tag (t_CreatedAt t) now t) t0).
  - rewrite <- (insert_delete_eq (tags s)).
    apply (tags_ok_create (delete (t_ID t) (tags s)) _ (stamp_tag (t_CreatedAt t) now t)).
    + by apply tags_ok_delete.
    + apply lookup_delete_eq.
    + cbn. rewrite lookup_delete_ne by done.
      destruct (tagValues s !! TagValue t) as [o|] eqn:E; [|done].
      destruct (ok_value_tag _ _ Hok _ _ E) as (u & Hu' & Hval).
      rewrite (Ho o eq_refl) in Hu'. congruence.
    + cbn. unfold is_u16 in Hu. lia.
Qed.

Lemma CreateTag_ok now s t s' :
  CreateTag now s t = Ok s' →
  tags s !! t_ID t = None ∧ tagValues s !! TagValue t = None
  ∧ TagValue t ≠ 0%Z ∧ (TagValue t < 65534)%Z
  ∧ Domains t ≠ [] ∧ first_invalid (Domains t) = None
  ∧ s' = mkStore (<[t_ID t := stamp_tag now now t]> (tags s)) (policies s) (sites s)
           (<[t_OrgID t := default [] (orgIndex s !! t_OrgID t) ++ [t_ID t]]> (orgIndex s))
           (<[TagValue t := t_ID t]> (tagValues s)).
Proof.
  unfold CreateTag. destruct (tags s !! t_ID t); [done|].
  destruct (Z.eqb_spec (TagValue t) 0); [done|]. cbn [orb].
  destruct (Z.leb_spec 65534 (TagValue t)); [done|].
  destruct (tagValues s !! TagValue t); [done|].
  destruct (Domains t) as [|d ds]; [done|]. cbn [length Nat.eqb].
  destruct (first_invalid (d :: ds)); [done|]. intros [= <-]. by split_and!.
Qed.

Lemma DeleteTag_ok ro s id s' :
  DeleteTag ro s id = Ok s' →
  ∃ t, tags s !! id = Some t
    ∧ map_Forall (λ _ p, SourceSGT p ≠ id ∧ DestinationSGT p ≠ id) (policies s)
    ∧ s' = mkStore (delete id (tags s)) (policies s) (sites s)
             (drop_index id (t_OrgID t) (orgIndex s)) (delete (TagValue t) (tagValues s)).
Proof.
  unfold DeleteTag. destruct (tags s !! id) as [t|]; [|done].
  destruct (referencing id (values ro (policies s))) eqn:Hr; [done|]. intros [= <-].
  exists t. split_and!; [done| |done]. intros k p Hp.
  assert (p ∈ values ro (policies s)) as Hin by (apply elem_of_values; by exists k).
  clear Hp. revert Hr Hin. generalize (values ro (policies s)).
  induction l as [|q l IH]; cbn [referencing]; [by intros _ ?%not_elem_of_nil|].
  case_bool_decide as H1; [done|]. case_bool_decide as H2; [done|]. cbn [orb].
  intros Hr [->|Hin]%elem_of_cons; [done|]. by apply IH.
Qed.

Lemma step_inv gp gt s s' : inv s → step gp gt s s' → inv s'.
Proof.
  intros [Ht Hp Hs] Hst. destruct Hst as [s now t s' Hu H|s now t s' Hu _ H|s ro id s' H|s now p s' H
    |s now p s' _ H|s id s' H|s now b s' H|s now b s' H|s id s' H].
  - apply CreateTag_ok in H as (H1 & H2 & H3 & H4 & _ & _ & ->). constructor; [|done..].
    unfold is_u16 in Hu. apply (tags_ok_create _ _ (stamp_tag now now t)); try done. cbn. lia.
  - pose proof H as (t0 & tv & _ & E & _)%UpdateTag_ok.
    constructor; [by eapply UpdateTag_tags_ok|by subst..].
  - apply DeleteTag_ok in H as (t & H1 & _ & ->). constructor; [by apply tags_ok_delete|done..].
  - unfold CreatePolicy in H. repeat (case_match; simplify_eq). constructor; cbn; eauto with go.
  - unfold UpdatePolicy in H. repeat (case_match; simplify_eq). constructor; cbn; eauto with go.
  - unfold DeletePolicy in H. repeat (case_match; simplify_eq). constructor; cbn; eauto with go.
  - unfold CreateSite in H. repeat (case_match; simplify_eq). constructor; cbn; eauto with go.
  - unfold UpdateSite in H. repeat (case_match; simplify_eq). constructor; cbn; eauto with go.
  - unfold DeleteSite in H. repeat (case_match; simplify_eq). constructor; cbn; eauto with go.
Qed.

Lemma add_default_tags_inv now l s :
  inv s → NoDup (map t_ID l) → NoDup (map TagValue l) →
  Forall (λ t, tags s !! t_ID t = None ∧ tagValues s !! TagValue t = None
               ∧ (1 <= TagValue t <= 65533)%Z) l →
  inv (foldl (add_default_tag now) s l).
Proof.
  revert s. induction l as [|t l IH]; intros s [Ht Hp Hs] Hid Hval Hl; [done|].
  apply Forall_cons in Hl as [(H1 & H2 & H3) Hl]. cbn [map] in Hid, Hval.
  apply NoDup_cons in Hid as [Hi Hid]. apply NoDup_cons in Hval as [Hv Hval].
  cbn [foldl]. apply IH; [|done..|].
  - constructor; [|done..]. by apply (tags_ok_create _ _ (stamp_tag now now t)).
  - rewrite Forall_forall in Hl |- *. intros u Hu. destruct (Hl u Hu) as (K1 & K2 & K3).
    cbn. rewrite !lookup_insert_ne; [done|..].
    + intros He. apply Hv. rewrite He. apply list_elem_of_In, in_map, list_elem_of_In, Hu.
    + intros He. apply Hi. rewrite He. apply list_elem_of_In, in_map, list_elem_of_In, Hu.
Qed.

Lemma add_default_policies_inv now l s : inv s → inv (foldl (add_default_policy now) s l).
Proof.
  revert s. induction l as [|p l IH]; intros s [Ht Hp Hs]; [done|]. apply IH.
  constructor; [done|by apply map_Forall_insert_2|done].
Qed.

Lemma NewStore_inv now : inv (NewStore now).
Proof.
  apply add_default_policies_inv, add_default_tags_inv.
  - constructor; [constructor|..]; apply map_Forall_empty.
  - by_evaluation.
  - by_evaluation.
  - by_evaluation.
Qed.

Lemma reachable_inv gp gt now s : rtc (step gp gt) (NewStore now) s → inv s.
Proof.
  generalize (NewStore_inv now). generalize (NewStore now). intros s0 H0 Hr.
  induction Hr as [|x y z Hxy _ IH]; [done|]. apply IH. by eapply step_inv.
Qed.

(** C10: Tag values identify tags.  In every reachable state of the segment store
    each tag is stored under its identifier with a value between 1 and 65533, and
    the value index is exact in both directions, so no two tags share a value and
    no value is reserved for a tag that is gone. *)
Theorem segment_invariant now s :
  rtc (step any any) (NewStore now) s →
  inv s ∧ ∀ i j t u, tags s !! i = Some t → tags s !! j = Some u → TagValue t = TagValue u → i = j.
Proof.
  intros Hi%reachable_inv. split; [done|]. intros i j t u Ht Hu He. destruct Hi as [[_ Hv _] _ _].
  pose proof (proj2 (Hv i t Ht)) as E1. pose proof (proj2 (Hv j u Hu)) as E2. congruence.
Qed.

Definition demo_tag (id org : string) (v : Z) : SecurityGroupTag :=
  mkTag id id "" org v "" [mkDomain "Identity" ["admin"] 90] "inline" "sgacl" [] 0 0.

Definition get_ok {E A} (d : A) (r : result E A) : A := match r with Ok a => a | Err _ => d end.
Definition demo_store : Store := get_ok (NewStore 0) (CreateTag 5 (NewStore 0) (demo_tag "t1" "org-a" 42)).

Lemma segment_invariant_witness :
  inv demo_store ∧ tagValues demo_store !! 42%Z = Some "t1".
Proof.
  split; [|vm_compute; reflexivity].
  apply (segment_invariant 0). eapply rtc_once.
  apply (step_create_tag _ _ _ 5 (demo_tag "t1" "org-a" 42)); [split; discriminate|].
  vm_compute. reflexivity.
Defined.

(** ** Referential integrity of the policies *)

Definition refs_exist (s : Store) (p : SGTPolicy) : Prop :=
  is_Some (tags s !! SourceSGT p) ∧ is_Some (tags s !! DestinationSGT p).

Definition refs_ok (s : Store) : Prop := map_Forall (λ _ p, refs_exist s p) (policies s).

Lemma refs_mono s s' p :
  (∀ id, is_Some (tags s !! id) → is_Some (tags s' !! id)) → refs_exist s p → refs_exist s' p.
Proof. intros Hm [H1 H2]. split; auto. Qed.

Lemma refs_step s s' : refs_ok s → step refs_exist any s s' → refs_ok s'.
Proof.
  intros Hr Hst. destruct Hst as [s now t s' Hu H|s now t s' Hu _ H|s ro id s' H|s now p s' H
    |s now p s' Hp H|s id s' H|s now b s' H|s now b s' H|s id s' H].
  - apply CreateTag_ok in H as (_ & _ & _ & _ & _ & _ & ->). intros k p Hk.
    eapply refs_mono; [|by apply (Hr k)]. intros id Hid. cbn. rewrite lookup_insert_is_Some'. by right.
  - apply UpdateTag_ok in H as (t0 & tv & _ & -> & _). intros k p Hk.
    eapply refs_mono; [|by apply (Hr k)]. intros id Hid. cbn. rewrite lookup_insert_is_Some'. by right.
  - apply DeleteTag_ok in H as (t & _ & Hno & ->). intros k p Hk. cbn in Hk.
    destruct (Hno k p Hk) as [N1 N2]. destruct (Hr k p Hk) as [R1 R2].
    split; cbn; by rewrite lookup_delete_ne.
  - unfold CreatePolicy in H. repeat case_match; try discriminate. injection H as <-.
    apply map_Forall_insert_2; [by split; eexists|done].
  - unfold UpdatePolicy in H. repeat case_match; try discriminate. injection H as <-.
    by apply map_Forall_insert_2.
  - unfold DeletePolicy in H. repeat case_match; try discriminate. injection H as <-.
    by apply map_Forall_delete.
  - unfold CreateSite in H. repeat case_match; try discriminate. by injection H as <-.
  - unfold UpdateSite in H. repeat case_match; try discriminate. by injection H as <-.
  - unfold DeleteSite in H. repeat case_match; try discriminate. by injection H as <-.
Qed.

Lemma NewStore_refs now : refs_ok (NewStore now).
Proof.
  assert (bool_decide (map_Forall (λ _ p, is_Some (tags (NewStore 0) !! SourceSGT p)
            ∧ is_Some (tags (NewStore 0) !! DestinationSGT p)) (policies (NewStore 0))) = true)
    as H0%bool_decide_eq_true by (vm_compute; reflexivity).
  intros k p Hp.
  assert (∀ id, is_Some (tags (NewStore 0) !! id) → is_Some (tags (NewStore now) !! id)) as Hm.
  { intros id. cbn -[lookup insert]. rewrite !lookup_insert_is_Some'. tauto. }
  assert (∃ q, policies (NewStore 0) !! k = Some q ∧ SourceSGT q = SourceSGT p
               ∧ DestinationSGT q = DestinationSGT p) as (q & Hq & E1 & E2).
  { revert Hp. cbn -[lookup insert].
    repeat (rewrite lookup_insert_Some; intros [[<- <-]|[? Hp]];
      [by eexists; split; [by rewrite ?lookup_insert_ne, ?lookup_insert_eq by done|done]|revert Hp]).
    by rewrite lookup_empty. }
  destruct (H0 k q Hq) as [H1 H2]. rewrite E1 in H1. rewrite E2 in H2. by split; apply Hm.
Qed.

(** A tag in use cannot be removed.  As long as policy updates name existing
    tags, every policy of a reachable state refers to existing tags: deletion is
    refused while a policy refers to the tag, and creation checks both ends.  The
    condition on updates is needed: [UpdatePolicy] itself accepts any reference. *)
Theorem policy_refs_resolve now s :
  rtc (step refs_exist any) (NewStore now) s →
  refs_ok s
  ∧ ∀ p t, is_Some (policies s !! p_ID p) → tags s !! SourceSGT p = None →
      ∃ s', UpdatePolicy t s p = Ok s' ∧ ¬ refs_ok s'.
Proof.
  intros Hr. split.
  - generalize (NewStore_refs now). generalize dependent (NewStore now). intros s0 Hr H0.
    induction Hr as [|x y z Hxy _ IH]; [done|]. apply IH. by eapply refs_step.
  - intros p t [q Hq] Hno. unfold UpdatePolicy. rewrite Hq. eexists. split; [done|].
    intros Hok. destruct (Hok (p_ID p) (stamp_policy (p_CreatedAt p) t p)) as [[u Hu] _];
      [apply lookup_insert_eq|]. cbn in Hu. congruence.
Qed.

Lemma policy_refs_witness :
  refs_ok demo_store
  ∧ ∃ s', UpdatePolicy 7 demo_store (template_policy "sgp-corp-servers" "" "gone" "sgt-iot" "allow"
                                       [] [] 1) = Ok s' ∧ ¬ refs_ok s'.
Proof.
  assert (rtc (step refs_exist any) (NewStore 0) demo_store) as Hr.
  { eapply rtc_once. apply (step_create_tag _ _ _ 5 (demo_tag "t1" "org-a" 42)); [split; discriminate|].
    vm_compute. reflexivity. }
  destruct (policy_refs_resolve 0 demo_store Hr) as [H1 H2]. split; [exact H1|].
  apply H2; [eexists; vm_compute; reflexivity|vm_compute; reflexivity].
Defined.

(** ** The organization index *)

Definition keeps_org (s : Store) (t : SecurityGroupTag) : Prop :=
  ∀ t0, tags s !! t_ID t = Some t0 → t_OrgID t0 = t_OrgID t.

Definition index_of (s : Store) (org : string) : list string := default [] (orgIndex s !! org).

Definition owned (s : Store) (org id : string) : Prop :=
  ∃ t, tags s !! id = Some t ∧ t_OrgID t = org.

Definition index_ok (s : Store) : Prop :=
  ∀ org, NoDup (index_of s org)
    ∧ (∀ id, id ∈ index_of s org → owned s org id)
    ∧ (org ≠ "template" → ∀ id, owned s org id → id ∈ index_of s org).

Lemma index_create s now t s' : index_ok s → CreateTag now s t = Ok s' → index_ok s'.
Proof.
  intros Hok (Hnew & _ & _ & _ & _ & _ & ->)%CreateTag_ok org.
  destruct (Hok org) as (Hnd & Hin & Hout).
  assert (∀ id, owned (mkStore (<[t_ID t := stamp_tag now now t]> (tags s)) (policies s) (sites s)
      (<[t_OrgID t := default [] (orgIndex s !! t_OrgID t) ++ [t_ID t]]> (orgIndex s))
      (<[TagValue t := t_ID t]> (tagValues s))) org id
    ↔ (id = t_ID t ∧ org = t_OrgID t) ∨ owned s org id) as Hown.
  { intros id. unfold owned. cbn [tags]. destruct (decide (t_ID t = id)) as [<-|Hne].
    - rewrite lookup_insert_eq, Hnew. naive_solver.
    - rewrite lookup_insert_ne by done. naive_solver. }
  unfold index_of. cbn [orgIndex]. destruct (decide (t_OrgID t = org)) as [<-|Hne].
  - rewrite lookup_insert_eq.
    change (default [] (Some ?l)) with l. fold (index_of s (t_OrgID t)).
    split_and!.
    + apply NoDup_app. split_and!; [done| |apply NoDup_singleton].
      intros id Hid ->%list_elem_of_singleton. destruct (Hin _ Hid) as (u & Hu & _). congruence.
    + intros id. rewrite elem_of_app, list_elem_of_singleton, Hown. naive_solver.
    + intros Ht id. rewrite elem_of_app, list_elem_of_singleton, Hown. naive_solver.
  - rewrite lookup_insert_ne by done. fold (index_of s org). split_and!; [done|..].
    + intros id Hid. apply Hown. auto.
    + intros Ht id Hid. apply Hown in Hid as [[_ ->]|Hid]; [done|auto].
Qed.

Lemma index_update s now t s' :
  index_ok s → keeps_org s t → UpdateTag now s t = Ok s' → index_ok s'.
Proof.
  intros Hok Hkeep (t0 & tv & Ht & -> & _)%UpdateTag_ok org.
  destruct (Hok org) as (Hnd & Hin & Hout). specialize (Hkeep t0 Ht).
  assert (∀ id, owned (mkStore (<[t_ID t := stamp_tag (t_CreatedAt t) now t]> (tags s)) (policies s)
      (sites s) (orgIndex s) tv) org id ↔ owned s org id) as Hown.
  { intros id. unfold owned. cbn [tags]. destruct (decide (t_ID t = id)) as [<-|Hne].
    - rewrite lookup_insert_eq, Ht. split; intros (u & [= <-] & He);
        eexists; (split; [reflexivity|cbn in *; congruence]).
    - by rewrite lookup_insert_ne. }
  unfold index_of. cbn [orgIndex]. fold (index_of s org).
  split_and!; [done|intros id Hid; apply Hown; auto|intros Hne id Hid; apply Hown in Hid; auto].
Qed.

Lemma index_delete s ro id s' : index_ok s → DeleteTag ro s id = Ok s' → index_ok s'.
Proof.
  intros Hok (t & Ht & _ & ->)%DeleteTag_ok org. destruct (Hok org) as (Hnd & Hin & Hout).
  assert (∀ k, owned (mkStore (delete id (tags s)) (policies s) (sites s)
      (drop_index id (t_OrgID t) (orgIndex s)) (delete (TagValue t) (tagValues s))) org k
    ↔ k ≠ id ∧ owned s org k) as Hown.
  { intros k. unfold owned. cbn [tags]. setoid_rewrite lookup_delete_Some. naive_solver. }
  assert (index_of (mkStore (delete id (tags s)) (policies s) (sites s)
      (drop_index id (t_OrgID t) (orgIndex s)) (delete (TagValue t) (tagValues s))) org
    = if bool_decide (t_OrgID t = org)
      then List.filter (λ tid, negb (bool_decide (tid = id))) (index_of s org)
      else index_of s org) as Hix.
  { unfold index_of, drop_index. cbn [orgIndex]. case_bool_decide as He.
    - rewrite He. destruct (orgIndex s !! org) eqn:E; [by rewrite lookup_insert_eq|by rewrite E].
    - destruct (orgIndex s !! t_OrgID t); [|done]. by rewrite lookup_insert_ne. }
  rewrite Hix. case_bool_decide as He.
  - split_and!.
    + by apply NoDup_ListNoDup, List.NoDup_filter, NoDup_ListNoDup.
    + intros k. rewrite list_elem_of_In, filter_In, <- list_elem_of_In.
      intros [Hk Hb%negb_true_iff%bool_decide_eq_false]. apply Hown. auto.
    + intros Hne k [Hk Ho]%Hown. rewrite list_elem_of_In, filter_In, <- list_elem_of_In.
      split; [auto|]. by apply negb_true_iff, bool_decide_eq_false.
  - split_and!; [done| |intros Hne k [_ Ho]%Hown; auto].
    intros k Hk. apply Hown. split; [|auto]. intros ->.
    destruct (Hin _ Hk) as (u & Hu & Ho). congruence.
Qed.

Lemma index_step s s' : index_ok s → step any keeps_org s s' → index_ok s'.
Proof.
  intros Hok Hst. destruct Hst as [s now t s' Hu H|s now t s' Hu Hk H|s ro id s' H|s now p s' H
    |s now p s' _ H|s id s' H|s now b s' H|s now b s' H|s id s' H];
    [by eapply index_create|by eapply index_update|by eapply index_delete|..];
    [unfold CreatePolicy in H|unfold UpdatePolicy in H|unfold DeletePolicy in H
    |unfold CreateSite in H|unfold UpdateSite in H|unfold DeleteSite in H];
    repeat case_match; try discriminate; by injection H as <-.
Qed.

Lemma NewStore_index now : index_ok (NewStore now).
Proof.
  intros org. assert (index_of (NewStore now) org = []) as ->.
  { unfold index_of. cbn -[lookup]. by rewrite lookup_empty. }
  split_and!; [constructor|by intros id ?%not_elem_of_nil|].
  intros Hne id (t & Ht & <-). destruct Hne. revert Ht. cbn -[lookup insert].
  repeat (rewrite lookup_insert_Some; intros [[_ <-]|[_ Ht]]; [done|revert Ht]).
  by rewrite lookup_empty.
Qed.

Lemma listed_ids s l :
  map_Forall (λ id t, t_ID t = id) (tags s) → (∀ id, id ∈ l → is_Some (tags s !! id)) →
  map t_ID (omap (λ id, tags s !! id) l) = l.
Proof.
  intros Hk. induction l as [|id l IH]; intros Hl; [done|].
  destruct (Hl id) as [t Ht]; [by left|]. cbn. rewrite Ht. cbn. rewrite (Hk id t Ht).
  f_equal. apply IH. intros k Hin. apply Hl. by right.
Qed.

(** Tag listing is exact per tenant.  As long as updates do not move a tag to
    another organization, listing an organization (not the template one) returns
    each of its tags once and no tag of another organization. *)
Theorem list_tags_exact now s ro org :
  rtc (step any keeps_org) (NewStore now) s → org ≠ "" → org ≠ "template" →
  NoDup (map t_ID (ListTags ro s org))
  ∧ ∀ t, t ∈ ListTags ro s org ↔ tags s !! t_ID t = Some t ∧ t_OrgID t = org.
Proof.
  intros Hr Hne Hnt. pose proof (reachable_inv _ _ _ _ Hr) as [[Hk _ _] _ _].
  assert (index_ok s) as Hok.
  { generalize (NewStore_index now). generalize dependent (NewStore now). intros s0 Hr H0.
    induction Hr as [|x y z Hxy _ IH]; [done|]. by apply IH; [|eapply index_step]. }
  destruct (Hok org) as (Hnd & Hin & Hout). unfold ListTags.
  rewrite bool_decide_eq_false_2 by done. fold (index_of s org).
  rewrite listed_ids; [|done|by intros id (t & Ht & _)%Hin; exists t]. split; [done|].
  intros t. rewrite list_elem_of_omap. split.
  - intros (id & Hid & Ht). destruct (Hin _ Hid) as (u & Hu & Ho). simplify_eq.
    by rewrite (Hk id t Ht).
  - intros [Ht Ho]. exists (t_ID t). split; [|done]. apply Hout; [done|]. by exists t.
Qed.

Lemma list_tags_witness :
  map t_ID (ListTags canonical_order demo_store "org-a") = ["t1"]
  ∧ ∀ t, t ∈ ListTags canonical_order demo_store "org-a" → t_OrgID t = "org-a".
Proof.
  split; [vm_compute; reflexivity|]. intros t Ht.
  apply (list_tags_exact 0 demo_store canonical_order "org-a"); [|discriminate|discriminate|exact Ht].
  eapply rtc_once. apply (step_create_tag _ _ _ 5 (demo_tag "t1" "org-a" 42)); [split; discriminate|].
  vm_compute. reflexivity.
Defined.

(** A moved tag stays visible to its old tenant.  Updating a tag listed for one
    organization so that it belongs to another is accepted, and afterwards the
    first organization's listing still returns it, with the new owner's data,
    while the new owner's listing does not (unless it was indexed there before):
    the index is not updated. *)
Theorem moved_tag_leaks now s ro org t t0 :
  org ≠ "" → t_OrgID t ≠ "" → tags s !! t_ID t = Some t0 → TagValue t = TagValue t0 →
  t_ID t ∈ index_of s org → t_OrgID t ≠ org → t_ID t ∉ index_of s (t_OrgID t) →
  map_Forall (λ id t, t_ID t = id) (tags s) →
  ∃ s', UpdateTag now s t = Ok s'
    ∧ stamp_tag (t_CreatedAt t) now t ∈ ListTags ro s' org
    ∧ stamp_tag (t_CreatedAt t) now t ∉ ListTags ro s' (t_OrgID t).
Proof.
  intros Hne Hne' Ht Hv Hin Hmove Hnin Hk. unfold UpdateTag. rewrite Ht, Hv, Z.eqb_refl. cbn [negb].
  eexists. split; [reflexivity|]. unfold ListTags. rewrite !bool_decide_eq_false_2 by done.
  cbn [orgIndex tags]. fold (index_of s org) (index_of s (t_OrgID t)). split.
  - apply list_elem_of_omap. exists (t_ID t). split; [done|]. apply lookup_insert_eq.
  - intros (id & Hid & Hid')%list_elem_of_omap. apply Hnin. destruct (decide (t_ID t = id)) as [<-|Hd];
      [done|]. rewrite lookup_insert_ne in Hid' by done. apply Hk in Hid'. by destruct Hd.
Qed.

Lemma moved_tag_witness :
  ∃ s', UpdateTag 9 demo_store (demo_tag "t1" "org-b" 42) = Ok s'
    ∧ stamp_tag 0 9 (demo_tag "t1" "org-b" 42) ∈ ListTags reverse_order s' "org-a".
Proof.
  destruct (moved_tag_leaks 9 demo_store reverse_order "org-a" (demo_tag "t1" "org-b" 42)
              (stamp_tag 5 5 (demo_tag "t1" "org-a" 42))) as (s' & H1 & H2 & _);
    [discriminate|discriminate|vm_compute; reflexivity|reflexivity| |discriminate| | |].
  - by_evaluation.
  - by_evaluation.
  - by_evaluation.
  - exists s'. split; [exact H1|exact H2].
Defined.

(** ** Classification *)

Definition visible_scores (s : Store) (org : string) (ctx : gmap string (list string)) (b : Z) : Prop :=
  ∀ id u, tags s !! id = Some u → visible org u = true → (tag_score ctx u <= b)%Z.

Lemma classify_fold org ctx l best :
  let r := foldl (classify_step org ctx) best l in
  (snd best <= snd r)%Z
  ∧ (∀ u, u ∈ l → visible org u = true → (tag_score ctx u <= snd r)%Z)
  ∧ (r = best ∨ ∃ t, t ∈ l ∧ r = (Some t, tag_score ctx t) ∧ visible org t = true
                     ∧ (snd best < tag_score ctx t)%Z).
Proof.
  revert best. induction l as [|t l IH]; intros best; cbv zeta; cbn [foldl].
  { split_and!; [lia|by intros u ?%not_elem_of_nil|by left]. }
  destruct (IH (classify_step org ctx best t)) as (H1 & H2 & H3).
  set (r := foldl _ (classify_step org ctx best t) l) in *. clearbody r.
  unfold classify_step in H1, H3. destruct (visible org t) eqn:Hv; cbn [negb] in H1, H3.
  - destruct (Z.ltb_spec (snd best) (tag_score ctx t)); cbn [snd] in H1, H3.
    + split_and!; [lia| |].
      * intros u [->|Hu]%elem_of_cons; [done|auto].
      * right. destruct H3 as [->|(u & Hu & -> & Hvu & Hlt)].
        -- exists t. by split_and!; [left|..].
        -- exists u. split_and!; [by right|done..|lia].
    + split_and!; [done| |].
      * intros u [->|Hu]%elem_of_cons; [lia|auto].
      * destruct H3 as [->|(u & Hu & H3)]; [by left|right]. exists u. split; [by right|done].
  - split_and!; [done| |].
    + intros u [->|Hu]%elem_of_cons; [congruence|auto].
    + destruct H3 as [->|(u & Hu & H3)]; [by left|right]. exists u. split; [by right|done].
Qed.

(** Classification is optimal and tenant-isolated.  The classifier returns a
    stored tag of the organization or of the templates whose score is positive
    and maximal among those, or no tag when none of them scores; the score does
    not depend on the map order. *)
Theorem classification_optimal s ro org ctx :
  let '(best, score) := ClassifyByContext ro s org ctx in
  match best with
  | Some t => (∃ id, tags s !! id = Some t)
      ∧ (t_OrgID t = org ∨ t_OrgID t = "template") ∧ score = tag_score ctx t ∧ (0 < score)%Z
  | None => score = 0%Z
  end
  ∧ visible_scores s org ctx score
  ∧ ∀ ro', snd (ClassifyByContext ro' s org ctx) = score.
Proof.
  assert (∀ ro, let r := ClassifyByContext ro s org ctx in
    (r = (None, 0%Z) ∨ ∃ t, t ∈ values ro (tags s) ∧ r = (Some t, tag_score ctx t)
       ∧ visible org t = true ∧ (0 < tag_score ctx t)%Z) ∧ visible_scores s org ctx (snd r)) as Hall.
  { intros ro1. cbv zeta. unfold ClassifyByContext.
    destruct (classify_fold org ctx (values ro1 (tags s)) (None, 0%Z)) as (_ & H2 & H3).
    split; [exact H3|]. intros id u Hu. apply H2, elem_of_values. by exists id. }
  assert (∀ ro1 ro2, (snd (ClassifyByContext ro1 s org ctx)
                      <= snd (ClassifyByContext ro2 s org ctx))%Z) as Hle.
  { intros ro1 ro2. destruct (Hall ro1) as [[H1|(t & Ht & H1 & Hv & _)] _], (Hall ro2) as [H2 Hs2].
    - rewrite H1. destruct H2 as [->|(t & _ & -> & _ & Hpos)]; cbn; lia.
    - rewrite H1. apply elem_of_values in Ht as [id Ht]. by apply (Hs2 id). }
  destruct (Hall ro) as [H1 Hs].
  assert (∀ ro', snd (ClassifyByContext ro' s org ctx) = snd (ClassifyByContext ro s org ctx)) as He.
  { intros ro'. apply Z.le_antisymm; apply Hle. }
  destruct (ClassifyByContext ro s org ctx) as [best score]. cbn [snd] in *.
  split; [|done]. destruct H1 as [[= -> ->]|(t & Ht & [= -> ->] & Hv & Hpos)]; [done|].
  apply elem_of_values in Ht. split_and!; [done| |done..].
  unfold visible in Hv. apply orb_true_iff in Hv as [?%bool_decide_eq_true|?%bool_decide_eq_true]; auto.
Qed.

(** A domain spelt with capitals passes validation but is not found under the
    lower-case key. *)
Example capital_domain_unmatched :
  is_Some (tags demo_store !! "t1")
  ∧ tag_score {["identity" := ["admin"]]} (demo_tag "t1" "org-a" 42) = 0%Z
  ∧ tag_score {["Identity" := ["ADMIN"]]} (demo_tag "t1" "org-a" 42) = 90%Z.
Proof. split_and!; [eexists|..]; vm_compute; reflexivity. Qed.

End Segment.
