(* ===== verification/Gateway.v ===== *)
(** * Gateways (internal/gateway/registry.go, internal/gateway/mesh.go,
      internal/db/gateway_store.go)

    [Registry]: the in-memory gateway registry, its private-access and policy-stream
    marks, and the cleanup tick.  [GatewayStore]: the table behind it, each SQL
    statement as its effect on the rows.  [Mesh]: the peer-to-peer coordinator.

    Writes to the table happen in goroutines that the registry starts; an operation
    returns the calls it starts ([call]), and a call that runs has the effect
    [apply_call] gives it, a call that fails has none.  Of the fields an [Upsert]
    sends, the model takes the values at registration.  Times are nanoseconds;
    [clk id] is the clock when the cleanup loop visits gateway [id]. *)

From S2P Require Import Prelude GoStrings.
#[local] Open Scope string_scope.
#[local] Open Scope nat_scope.
#[local] Open Scope list_scope.

Module Registry.
Import GoStrings.

Definition minute : Z := 60000000000.
Definition offlineAfter : Z := 5 * minute.
Definition staleRemoveAfter : Z := 120 * minute.

(** A nil [Metadata] reads like an empty one. *)
Record GatewayNode := mkNode {
  ID : string;
  Region : string;
  Name : string;
  Location : string;
  Country : string;
  Provider : string;
  PublicHost : string;
  QUICEndpoint : string;
  TLSEndpoint : string;
  PingEndpoint : string;
  Version : string;
  Status : string;
  DeployMode : string;
  MTLSIssued : bool;
  CertNotAfter : option Z;
  PolicyVersion : Z;
  LastHeartbeat : Z;
  Metadata : gmap string string;
  RegisteredAt : Z;
}.

Definition set_live (status : string) (hb pv : Z) (g : GatewayNode) : GatewayNode :=
  mkNode (ID g) (Region g) (Name g) (Location g) (Country g) (Provider g) (PublicHost g)
    (QUICEndpoint g) (TLSEndpoint g) (PingEndpoint g) (Version g) status (DeployMode g)
    (MTLSIssued g) (CertNotAfter g) pv hb (Metadata g) (RegisteredAt g).
Definition set_mtls (issued : bool) (na : option Z) (g : GatewayNode) : GatewayNode :=
  mkNode (ID g) (Region g) (Name g) (Location g) (Country g) (Provider g) (PublicHost g)
    (QUICEndpoint g) (TLSEndpoint g) (PingEndpoint g) (Version g) (Status g) (DeployMode g)
    issued na (PolicyVersion g) (LastHeartbeat g) (Metadata g) (RegisteredAt g).
Definition set_registered (t : Z) (g : GatewayNode) : GatewayNode :=
  mkNode (ID g) (Region g) (Name g) (Location g) (Country g) (Provider g) (PublicHost g)
    (QUICEndpoint g) (TLSEndpoint g) (PingEndpoint g) (Version g) (Status g) (DeployMode g)
    (MTLSIssued g) (CertNotAfter g) (PolicyVersion g) (LastHeartbeat g) (Metadata g) t.
Definition set_status (st : string) (g : GatewayNode) : GatewayNode :=
  set_live st (LastHeartbeat g) (PolicyVersion g) g.

(** ** The table *)

Definition table := gmap string GatewayNode.

(** ON CONFLICT keeps [registered_at]. *)
Definition Upsert (g : GatewayNode) (t : table) : table :=
  match t !! ID g with
  | Some old => <[ID g := set_registered (RegisteredAt old) g]> t
  | None => <[ID g := g]> t
  end.

Definition UpdateHeartbeat (now : Z) (id : string) (pv : Z) (t : table) : table :=
  alter (set_live "online" now pv) id t.

Definition MarkOffline (now olderThan : Z) (t : table) : table :=
  (λ g, if (LastHeartbeat g <? now - olderThan)%Z && negb (bool_decide (Status g = "offline"))
        then set_status "offline" g else g) <$> t.

Definition DeleteStale (now olderThan : Z) (t : table) : table :=
  filter (λ kv, ¬ (LastHeartbeat (snd kv) < now - olderThan)%Z) t.

Definition db_MarkMTLSIssued (id : string) (na : Z) (t : table) : table :=
  alter (set_mtls true (Some na)) id t.

(** The rows in order of registration; ties in any order. *)
Definition registered_before (g h : GatewayNode) : Prop := (RegisteredAt g <= RegisteredAt h)%Z.
#[global] Instance registered_before_dec g h : Decision (registered_before g h).
Proof. unfold registered_before. apply _. Defined.
Definition LoadAll (ro : range_order) (t : table) : list GatewayNode :=
  merge_sort registered_before (values ro t).

Inductive call :=
| CallUpsert (g : GatewayNode)
| CallHeartbeat (id : string) (pv : Z)
| CallMTLS (id : string) (na : Z).

Definition apply_call (now : Z) (c : call) (t : table) : table :=
  match c with
  | CallUpsert g => Upsert g t
  | CallHeartbeat id pv => UpdateHeartbeat now id pv t
  | CallMTLS id na => db_MarkMTLSIssued id na t
  end.

(** ** The registry *)

Record Registry := mkRegistry {
  gateways : gmap string GatewayNode;
  apiKeys : gmap string string;
  hasStore : bool;
  privateAccessIDs : gset string;
  streamConnected : gset string;
}.

Definition NewRegistry : Registry := mkRegistry ∅ ∅ false ∅ ∅.

Definition with_gateways (r : Registry) (m : gmap string GatewayNode) : Registry :=
  mkRegistry m (apiKeys r) (hasStore r) (privateAccessIDs r) (streamConnected r).

Definition SetStore (r : Registry) : Registry :=
  mkRegistry (gateways r) (apiKeys r) true (privateAccessIDs r) (streamConnected r).

Definition SetStreamConnected (now : Z) (r : Registry) (id : string) (connected : bool) : Registry :=
  if connected then
    mkRegistry (alter (λ g, set_live "online" now (PolicyVersion g) g) id (gateways r))
      (apiKeys r) (hasStore r) (privateAccessIDs r) ({[id]} ∪ streamConnected r)
  else
    mkRegistry (gateways r) (apiKeys r) (hasStore r) (privateAccessIDs r)
      (streamConnected r ∖ {[id]}).

Definition SetPrivateAccessIDs (r : Registry) (ids : list string) : Registry :=
  mkRegistry (gateways r) (apiKeys r) (hasStore r)
    (foldl (λ m id, let id := TrimSpace id in
                    if negb (bool_decide (id = "")) then {[id]} ∪ m else m) ∅ ids)
    (streamConnected r).

Definition isPrivateAccess (r : Registry) (g : GatewayNode) : bool :=
  bool_decide (Metadata g !! "kind" = Some "private-access")
  || bool_decide (ID g ∈ privateAccessIDs r).

(** [rows] is what [LoadAll] returned, [None] its error. *)
Definition LoadFromDB (r : Registry) (rows : option (list GatewayNode)) : Registry * bool :=
  if negb (hasStore r) then (r, true)
  else
    match rows with
    | None => (r, false)
    | Some gs => (with_gateways r (foldl (λ m g, <[ID g := g]> m) (gateways r) gs), true)
    end.

Definition Register (clk : nat → Z) (r : Registry) (node : GatewayNode) : Registry * list call :=
  let node := set_live (Status node) (clk 0) (PolicyVersion node) node in
  let node :=
    match gateways r !! ID node with
    | Some ex => set_registered (RegisteredAt ex) (set_mtls (MTLSIssued ex) (CertNotAfter ex) node)
    | None => set_registered (clk 1) node
    end in
  let node := set_status "online" node in
  (with_gateways r (<[ID node := node]> (gateways r)),
   if hasStore r then [CallUpsert node] else []).

Definition Heartbeat (now : Z) (r : Registry) (id : string) (pv : Z)
  : Registry * bool * list call :=
  match gateways r !! id with
  | None => (r, false, [])
  | Some g =>
      (with_gateways r (<[id := set_live "online" now pv g]> (gateways r)), true,
       if hasStore r then [CallHeartbeat id pv] else [])
  end.

Definition Get (r : Registry) (id : string) : option GatewayNode := gateways r !! id.

Definition List (ro : range_order) (r : Registry) : list GatewayNode := values ro (gateways r).

Definition ListAvailable (ro : range_order) (r : Registry) : list GatewayNode :=
  List.filter (λ g, bool_decide (Status g = "online") && negb (isPrivateAccess r g))
    (values ro (gateways r)).

Definition ListPrivateAccess (ro : range_order) (r : Registry) : list GatewayNode :=
  List.filter (λ g, bool_decide (Status g = "online") && isPrivateAccess r g)
    (values ro (gateways r)).

Definition MarkMTLSIssued (r : Registry) (id : string) (na : Z) : Registry * list call :=
  (with_gateways r (alter (set_mtls true (Some na)) id (gateways r)),
   if hasStore r then [CallMTLS id na] else []).

Definition ValidateAPIKey (r : Registry) (key : string) : option string := apiKeys r !! key.

Definition RegisterAPIKey (r : Registry) (key id : string) : Registry :=
  mkRegistry (gateways r) (<[key := id]> (apiKeys r)) (hasStore r) (privateAccessIDs r)
    (streamConnected r).

(** What a tick of [StartCleanupLoop] does to one gateway; [None] removes it. *)
Definition cleanup_one (r : Registry) (now : Z) (id : string) (g : GatewayNode)
  : option GatewayNode :=
  if bool_decide (id ∈ streamConnected r) then Some g
  else
    let since := (now - LastHeartbeat g)%Z in
    if (staleRemoveAfter <? since)%Z then None
    else if (offlineAfter <? since)%Z && negb (bool_decide (Status g = "offline"))
    then Some (set_status "offline" g)
    else Some g.

Definition cleanup_memory (clk : string → Z) (r : Registry) : Registry :=
  with_gateways r (map_imap (λ id g, cleanup_one r (clk id) id g) (gateways r)).

(** The statements of a tick on the table; [ok1] and [ok2] whether they succeed. *)
Definition cleanup_table (now1 now2 : Z) (ok1 ok2 : bool) (t : table) : table :=
  let t := if ok1 then MarkOffline now1 offlineAfter t else t in
  if ok2 then DeleteStale now2 staleRemoveAfter t else t.

Definition cleanup_tick (clk : string → Z) (now1 now2 : Z) (ok1 ok2 : bool)
    (rt : Registry * table) : Registry * table :=
  (cleanup_memory clk (fst rt),
   if hasStore (fst rt) then cleanup_table now1 now2 ok1 ok2 (snd rt) else snd rt).

(** ** Connected gateways stay online *)

(** The operations; [gd] limits which gateways may be disconnected. *)
Inductive rstep (gd : string → Prop) : Registry → Registry → Prop :=
| r_connect r now id : rstep gd r (SetStreamConnected now r id true)
| r_disconnect r now id : gd id → rstep gd r (SetStreamConnected now r id false)
| r_private r ids : rstep gd r (SetPrivateAccessIDs r ids)
| r_register r clk node : rstep gd r (fst (Register clk r node))
| r_heartbeat r now id pv : rstep gd r (fst (fst (Heartbeat now r id pv)))
| r_mtls r id na : rstep gd r (fst (MarkMTLSIssued r id na))
| r_apikey r key id : rstep gd r (RegisterAPIKey r key id)
| r_tick r clk : rstep gd r (cleanup_memory clk r).

Definition online_inv (r : Registry) : Prop :=
  ∀ id g, id ∈ streamConnected r → gateways r !! id = Some g → Status g = "online".

Definition boot (rows : option (list GatewayNode)) : Registry :=
  fst (LoadFromDB (SetStore NewRegistry) rows).

Lemma boot_inv rows : online_inv (boot rows).
Proof. unfold boot, LoadFromDB. cbn. destruct rows; intros id g Hid; set_solver. Qed.

Lemma cleanup_lookup clk r id :
  gateways (cleanup_memory clk r) !! id = gateways r !! id ≫= cleanup_one r (clk id) id.
Proof. unfold cleanup_memory. cbn [gateways with_gateways]. by rewrite map_lookup_imap. Qed.

Lemma Register_lookup clk r node :
  ∃ g, gateways (fst (Register clk r node)) = <[ID node := g]> (gateways r)
       ∧ Status g = "online" ∧ LastHeartbeat g = clk 0.
Proof.
  unfold Register.
  change (ID (set_live (Status node) (clk 0) (PolicyVersion node) node)) with (ID node).
  destruct (gateways r !! ID node) as [ex|]; eexists; (split; [reflexivity|split; reflexivity]).
Qed.

Lemma rstep_inv gd r r' : online_inv r → rstep gd r r' → online_inv r'.
Proof.
  intros Hi Hst. destruct Hst as [r now id|r now id _|r ids|r clk node|r now id pv|r id na|r key id
    |r clk]; intros k g Hk Hg.
  - cbn in Hk, Hg. apply lookup_alter_Some in Hg as [(-> & h & _ & ->)|[Hne Hg]]; [done|].
    apply (Hi k); [set_solver|done].
  - cbn in Hk, Hg. apply (Hi k); [set_solver|done].
  - by apply (Hi k).
  - destruct (Register_lookup clk r node) as (h & E & Hs & _). rewrite E in Hg.
    apply lookup_insert_Some in Hg as [[_ <-]|[_ Hg]]; [done|by apply (Hi k)].
  - unfold Heartbeat in *. destruct (gateways r !! id) as [h|] eqn:E; [|by apply (Hi k)].
    cbn in Hk, Hg. apply lookup_insert_Some in Hg as [[_ <-]|[_ Hg]]; [done|by apply (Hi k)].
  - cbn in Hk, Hg. apply lookup_alter_Some in Hg as [(-> & h & Hh & ->)|[_ Hg]]; [|by apply (Hi k)].
    by apply (Hi k h).
  - by apply (Hi k).
  - rewrite cleanup_lookup in Hg. destruct (gateways r !! k) as [h|] eqn:E; [|done].
    cbn [mbind option_bind] in Hg. unfold cleanup_one in Hg. cbn in Hk.
    rewrite bool_decide_eq_true_2 in Hg by done. injection Hg as <-. by apply (Hi k).
Qed.

Lemma rstep_connected id r r' :
  id ∈ streamConnected r → is_Some (gateways r !! id) → rstep (λ k, k ≠ id) r r' →
  id ∈ streamConnected r' ∧ is_Some (gateways r' !! id).
Proof.
  intros Hc Hs Hst. destruct Hst as [r now k|r now k Hk|r ids|r clk node|r now k pv|r k na|r key k
    |r clk]; cbn.
  - split; [set_solver|by apply lookup_alter_is_Some].
  - split; [set_solver|done].
  - done.
  - destruct (Register_lookup clk r node) as (h & E & _). unfold Register in E. cbn in E.
    split; [done|]. rewrite E, lookup_insert_is_Some'. by right.
  - unfold Heartbeat. destruct (gateways r !! k); [|done]. split; [done|].
    cbn. rewrite lookup_insert_is_Some'. by right.
  - split; [done|by apply lookup_alter_is_Some].
  - done.
  - split; [done|]. destruct Hs as [g Hg].
    change (is_Some (gateways (cleanup_memory clk r) !! id)). rewrite cleanup_lookup, Hg.
    cbn [mbind option_bind]. unfold cleanup_one. by rewrite bool_decide_eq_true_2.
Qed.

(** C6: A gateway with a live policy stream is never dropped from discovery.  Once
    connected in a state reached from a restart, a registered gateway stays
    registered and online through any sequence of registrations, heartbeats,
    certificate marks, other gateways' disconnects and cleanup ticks, however old
    its heartbeat, and is listed by exactly one of the two discovery lists. *)
Theorem connected_stays_online rows id r r' ro :
  rtc (rstep (λ _, True)) (boot rows) r → id ∈ streamConnected r → is_Some (gateways r !! id) →
  rtc (rstep (λ k, k ≠ id)) r r' →
  ∃ g, gateways r' !! id = Some g ∧ Status g = "online"
    ∧ ((g ∈ ListAvailable ro r' ∧ ¬ g ∈ ListPrivateAccess ro r')
       ∨ (¬ g ∈ ListAvailable ro r' ∧ g ∈ ListPrivateAccess ro r')).
Proof.
  intros Hr Hc Hs Hr'. assert (online_inv r) as Hi.
  { clear Hc Hs Hr'. generalize (boot_inv rows). generalize dependent (boot rows). intros r0 Hr H0.
    induction Hr as [|x y z Hxy _ IH]; [done|]. apply IH. by eapply rstep_inv. }
  clear Hr. induction Hr' as [r|x y z Hxy _ IH].
  2:{ destruct (rstep_connected id x y Hc Hs Hxy). by apply IH; [..|eapply rstep_inv]. }
  destruct Hs as [g Hg]. exists g. pose proof (Hi id g Hc Hg) as Hon. split_and!; [done..|].
  assert (g ∈ values ro (gateways r)) as Hv by (apply elem_of_values; by exists id).
  unfold ListAvailable, ListPrivateAccess.
  rewrite !list_elem_of_In, !filter_In, <- !list_elem_of_In, (bool_decide_eq_true_2 _ Hon). cbn [andb].
  destruct (isPrivateAccess r g); cbn [negb]; [right|left]; naive_solver.
Qed.

Definition demo_node (id : string) (hb : Z) : GatewayNode :=
  mkNode id "eu" "gw" "" "" "" "" "" "" "" "1" "offline" "cloud" false None 0 hb ∅ 0.
Definition demo_registry : Registry :=
  SetStreamConnected 10 (boot (Some [demo_node "g1" 3])) "g1" true.

Lemma connected_witness :
  ∃ g, gateways (cleanup_memory (λ _, (1000 * minute)%Z) demo_registry) !! "g1" = Some g
       ∧ Status g = "online".
Proof.
  destruct (connected_stays_online (Some [demo_node "g1" 3]) "g1" demo_registry
              (cleanup_memory (λ _, (1000 * minute)%Z) demo_registry) canonical_order)
    as (g & H1 & H2 & _).
  - eapply rtc_once. apply (r_connect _ _ 10 "g1").
  - by_evaluation.
  - eexists. vm_compute. reflexivity.
  - eapply rtc_once. apply r_tick.
  - exists g. split; [exact H1|exact H2].
Defined.

(** ** Memory and table *)

Lemma cleanup_table_lookup now t id :
  cleanup_table now now true true t !! id =
    t !! id ≫= λ g,
      if (LastHeartbeat g <? now - staleRemoveAfter)%Z then None
      else if (LastHeartbeat g <? now - offlineAfter)%Z && negb (bool_decide (Status g = "offline"))
      then Some (set_status "offline" g) else Some g.
Proof.
  change (cleanup_table now now true true t)
    with (DeleteStale now staleRemoveAfter (MarkOffline now offlineAfter t)).
  unfold DeleteStale, MarkOffline, table in *. rewrite map_lookup_filter, lookup_fmap.
  destruct (t !! id) as [g|]; [|done]. cbn -[Z.sub].
  assert (∀ b : bool, LastHeartbeat (if b then set_status "offline" g else g) = LastHeartbeat g) as Hh
    by by intros [].
  rewrite Hh. destruct (Z.ltb_spec (LastHeartbeat g) (now - staleRemoveAfter)).
  - rewrite option_guard_False by lia. done.
  - rewrite option_guard_True by lia. by destruct (_ && _).
Qed.

Lemma boot_absent gs id :
  (∀ h, h ∈ gs → ID h ≠ id) → gateways (boot (Some gs)) !! id = None.
Proof.
  unfold boot, LoadFromDB. cbn [SetStore NewRegistry hasStore negb fst with_gateways gateways].
  assert (∀ l (m : gmap string GatewayNode), m !! id = None → (∀ h, h ∈ l → ID h ≠ id) →
    foldl (λ m g, <[ID g := g]> m) m l !! id = None) as Hf.
  { induction l as [|h l IH]; intros m Hm Hl; [done|]. cbn [foldl]. apply IH.
    - rewrite lookup_insert_ne; [done|]. apply Hl. by left.
    - intros k Hk. apply Hl. by right. }
  intros Hh. by apply Hf.
Qed.

(** The cleanup treats memory and table alike, unless a stream is connected.
    For a gateway without a policy stream whose row equals its entry, a tick that
    reads one time leaves entry and row equal again: removed in both when silent
    for more than 120 minutes, offline in both after more than 5.  For one with a
    stream, whose row is that old, the same tick keeps the entry but deletes the
    row, so that after a restart the connected gateway is unknown. *)
Theorem cleanup_memory_and_table clk now r t id g :
  clk id = now → hasStore r = true → gateways r !! id = Some g →
  let '(r', t') := cleanup_tick clk now now true true (r, t) in
  (id ∉ streamConnected r → t !! id = Some g →
     gateways r' !! id = t' !! id
     ∧ (t' !! id = None ↔ (staleRemoveAfter < now - LastHeartbeat g)%Z))
  ∧ (∀ row, id ∈ streamConnected r → t !! id = Some row →
     (staleRemoveAfter < now - LastHeartbeat row)%Z →
     gateways r' !! id = Some g ∧ t' !! id = None
     ∧ ∀ ro, map_Forall (λ k h, ID h = k) t →
         gateways (boot (Some (LoadAll ro t'))) !! id = None).
Proof.
  intros Hclk Hst Hg. unfold cleanup_tick. cbn [fst snd]. rewrite Hst.
  rewrite cleanup_lookup, Hg, cleanup_table_lookup, Hclk. cbn [mbind option_bind].
  unfold cleanup_one. split.
  - intros Hn ->. cbn [mbind option_bind]. rewrite bool_decide_eq_false_2 by done.
    destruct (Z.ltb_spec staleRemoveAfter (now - LastHeartbeat g)),
      (Z.ltb_spec (LastHeartbeat g) (now - staleRemoveAfter)); try lia; [done|].
    destruct (Z.ltb_spec offlineAfter (now - LastHeartbeat g)),
      (Z.ltb_spec (LastHeartbeat g) (now - offlineAfter)); try lia; cbn [andb];
      [destruct (negb _)|]; (split; [done|]); (split; [done|lia]).
  - intros row Hc Hrow Hold. rewrite bool_decide_eq_true_2 by done. split; [done|].
    assert (cleanup_table now now true true t !! id = None) as Hnone.
    { rewrite cleanup_table_lookup, Hrow. cbn [mbind option_bind].
      by rewrite (proj2 (Z.ltb_lt _ _)) by lia. }
    rewrite Hrow. cbn [mbind option_bind]. rewrite (proj2 (Z.ltb_lt _ _)) by lia.
    split; [done|]. intros ro Hk. apply boot_absent. intros h Hh Hid.
    unfold LoadAll in Hh. rewrite merge_sort_Permutation, elem_of_values in Hh.
    destruct Hh as [k Hh]. rewrite cleanup_table_lookup in Hh.
    destruct (t !! k) as [h0|] eqn:E; [|done]. cbn [mbind option_bind] in Hh.
    assert (ID h = ID h0) as Hih by (revert Hh; repeat case_match; intros; simplify_eq; done).
    rewrite Hih, (Hk k h0 E) in Hid. subst k. rewrite Hrow in E. injection E as ->.
    by rewrite (proj2 (Z.ltb_lt _ _)) in Hh by lia.
Qed.

Lemma cleanup_witness :
  let t := {["g1" := demo_node "g1" 3]} : table in
  let '(r', t') := cleanup_tick (λ _, (1000 * minute)%Z) (1000 * minute) (1000 * minute) true true
                     (demo_registry, t) in
  is_Some (gateways r' !! "g1") ∧ t' !! "g1" = None.
Proof.
  pose proof (cleanup_memory_and_table (λ _, (1000 * minute)%Z) (1000 * minute) demo_registry
    ({["g1" := demo_node "g1" 3]} : table) "g1" (set_live "online" 10 0 (demo_node "g1" 3))) as H.
  cbv zeta. destruct (cleanup_tick _ _ _ _ _ _) as [r' t'].
  destruct H as [_ H]; [reflexivity|reflexivity|vm_compute; reflexivity|].
  destruct (H (demo_node "g1" 3)) as (H1 & H2 & _).
  - by_evaluation.
  - reflexivity.
  - reflexivity.
  - split; [exists (set_live "online" 10 0 (demo_node "g1" 3)); exact H1|exact H2].
Defined.

End Registry.

Module Mesh.

Record PeerEndpoint := mkEndpoint {
  pe_Type : string;
  pe_Address : string;
  pe_Priority : Z;
}.

Record MeshPeer := mkPeer {
  mp_ID : string;
  mp_OrgID : string;
  mp_UserID : string;
  PeerType : string;
  PublicKey : string;
  Endpoints : list PeerEndpoint;
  Capabilities : list string;
  mp_Status : string;
  mp_Metadata : gmap string string;
  mp_RegisteredAt : Z;
  LastSeen : Z;
}.

Definition set_peer (status : string) (reg seen : Z) (p : MeshPeer) : MeshPeer :=
  mkPeer (mp_ID p) (mp_OrgID p) (mp_UserID p) (PeerType p) (PublicKey p) (Endpoints p)
    (Capabilities p) status (mp_Metadata p) reg seen.

Record RelayAllocation := mkRelay {
  ra_ID : string;
  ra_PeerID : string;
  RelayAddr : string;
  ra_GatewayID : string;
  ra_ExpiresAt : Z;
  AllocatedAt : Z;
}.

Record MeshLink := mkLink {
  PeerA : string;
  PeerB : string;
  ml_Protocol : string;
  Latency : Z;
  ml_Status : string;
}.

Record MeshTopology := mkTopology {
  Peers : list MeshPeer;
  Links : list MeshLink;
  Relays : list RelayAllocation;
  TotalPeers : nat;
  OnlinePeers : nat;
}.

Record SignalMessage := mkSignal {
  FromPeerID : string;
  ToPeerID : string;
  sm_Type : string;
  Payload : string;
  sm_Timestamp : Z;
}.

Record MeshCoordinator := mkMesh {
  peers : gmap string MeshPeer;
  relays : gmap string RelayAllocation;
}.

Definition NewMeshCoordinator : MeshCoordinator := mkMesh ∅ ∅.

Definition RegisterPeer (clk : nat → Z) (mc : MeshCoordinator) (peer : MeshPeer)
  : MeshCoordinator :=
  let reg := match peers mc !! mp_ID peer with
             | None => clk 1
             | Some _ => mp_RegisteredAt peer
             end in
  mkMesh (<[mp_ID peer := set_peer "online" reg (clk 0) peer]> (peers mc)) (relays mc).

Definition DeregisterPeer (mc : MeshCoordinator) (id : string) : MeshCoordinator :=
  mkMesh (delete id (peers mc)) (relays mc).

Definition GetPeer (mc : MeshCoordinator) (id : string) : option MeshPeer := peers mc !! id.

Definition ListPeers (ro : range_order) (mc : MeshCoordinator) (orgID : string) : list MeshPeer :=
  List.filter (λ p, bool_decide (mp_OrgID p = orgID)) (values ro (peers mc)).

Definition is_online (p : MeshPeer) : bool := bool_decide (mp_Status p = "online").

(** The two nested loops over the online peers. *)
Fixpoint mesh_links (l : list MeshPeer) : list MeshLink :=
  match l with
  | [] => []
  | p :: l => map (λ q, mkLink (mp_ID p) (mp_ID q) "quic" 0 "active") l ++ mesh_links l
  end.

Definition GetTopology (ro : range_order) (mc : MeshCoordinator) (orgID : string) : MeshTopology :=
  let ps := ListPeers ro mc orgID in
  let online := List.filter is_online ps in
  mkTopology ps (mesh_links online)
    (List.filter (λ r, match peers mc !! ra_PeerID r with
                       | Some p => bool_decide (mp_OrgID p = orgID)
                       | None => false
                       end) (values ro (relays mc)))
    (length ps) (length online).

Definition ten_minutes : Z := 600000000000.
Definition two_minutes : Z := 120000000000.

(** [rnd] are the sixteen bytes [generateID] draws. *)
Definition generateID (rnd : bytes) : string := Hex.encode rnd.

Definition AllocateRelay (clk : nat → Z) (rnd : bytes) (mc : MeshCoordinator)
    (peerID gatewayID relayAddr : string) : MeshCoordinator * RelayAllocation :=
  let id := generateID rnd in
  let alloc := mkRelay id peerID relayAddr gatewayID (clk 0%nat + ten_minutes)%Z (clk 1) in
  (mkMesh (peers mc) (<[id := alloc]> (relays mc)), alloc).

(** [Signal] only logs; it reports no error, known peer or not. *)
Definition Signal (mc : MeshCoordinator) (msg : SignalMessage) : result Empty_set unit :=
  match peers mc !! ToPeerID msg with
  | None => Ok tt
  | Some _ => Ok tt
  end.

Definition cleanup (now : Z) (mc : MeshCoordinator) : MeshCoordinator :=
  mkMesh
    ((λ p, if (two_minutes <? now - LastSeen p)%Z
           then set_peer "offline" (mp_RegisteredAt p) (LastSeen p) p else p) <$> peers mc)
    (filter (λ kv, ¬ (ra_ExpiresAt (snd kv) < now)%Z) (relays mc)).

(** ** Properties *)

Inductive mstep : MeshCoordinator → MeshCoordinator → Prop :=
| m_register mc clk p : mstep mc (RegisterPeer clk mc p)
| m_deregister mc id : mstep mc (DeregisterPeer mc id)
| m_relay mc clk rnd a b c : mstep mc (fst (AllocateRelay clk rnd mc a b c))
| m_cleanup mc now : mstep mc (cleanup now mc).

Definition keyed (mc : MeshCoordinator) : Prop := map_Forall (λ id p, mp_ID p = id) (peers mc).

Lemma mstep_keyed mc mc' : keyed mc → mstep mc mc' → keyed mc'.
Proof.
  intros Hk Hst. destruct Hst as [mc clk p|mc id|mc clk rnd a b c|mc now].
  - by apply map_Forall_insert_2.
  - by apply map_Forall_delete.
  - done.
  - intros id p Hp. cbn in Hp. rewrite lookup_fmap in Hp.
    destruct (peers mc !! id) as [q|] eqn:E; [|done]. cbn in Hp. injection Hp as <-.
    destruct (_ <? _)%Z; by apply (Hk id q).
Qed.

Lemma reachable_keyed mc : rtc mstep NewMeshCoordinator mc → keyed mc.
Proof.
  intros Hr. assert (keyed NewMeshCoordinator) as H0 by apply map_Forall_empty.
  induction Hr as [|x y z Hxy _ IH]; [done|]. apply IH. by eapply mstep_keyed.
Qed.

Definition link (a b : string) : MeshLink := mkLink a b "quic" 0 "active".

Lemma elem_of_links l x :
  x ∈ mesh_links l ↔
  ∃ i j p q, l !! i = Some p ∧ l !! j = Some q ∧ i < j ∧ x = link (mp_ID p) (mp_ID q).
Proof.
  induction l as [|r l IH]; cbn [mesh_links].
  { rewrite elem_of_nil. split; [done|]. by intros (i & j & p & q & Hi & _). }
  rewrite elem_of_app, IH. split.
  - intros [Hx|(i & j & p & q & Hi & Hj & Hij & ->)].
    + apply list_elem_of_In, in_map_iff in Hx as (q & <- & Hq).
      apply list_elem_of_In, list_elem_of_lookup in Hq as [j Hj].
      exists 0, (S j), r, q. split_and!; [done|done|lia|done].
    + exists (S i), (S j), p, q. split_and!; [done|done|lia|done].
  - intros (i & j & p & q & Hi & Hj & Hij & ->). destruct j as [|j]; [lia|].
    destruct i as [|i].
    + injection Hi as ->. left. apply list_elem_of_In, in_map_iff. exists q. split; [done|].
      apply list_elem_of_In. by eapply list_elem_of_lookup_2.
    + right. exists i, j, p, q. split_and!; [done|done|lia|done].
Qed.

Lemma length_links l : 2 * length (mesh_links l) = length l * (length l - 1).
Proof.
  induction l as [|p l IH]; [done|]. cbn [mesh_links length]. rewrite length_app, length_map. nia.
Qed.

Lemma online_ids ro mc org :
  keyed mc → NoDup (map mp_ID (List.filter is_online (ListPeers ro mc org))).
Proof.
  intros Hk. unfold ListPeers. generalize (NoDup_range_keys ro (peers mc)). unfold values.
  assert (∀ k p, (k, p) ∈ range ro (peers mc) → mp_ID p = k) as Hr
    by (intros k p Hp; apply elem_of_range in Hp; by apply (Hk k p)).
  revert Hr. induction (range ro (peers mc)) as [|[k p] l IH]; intros Hr Hnd; [constructor|].
  cbn [map fmap list_fmap fst snd] in *. apply NoDup_cons in Hnd as [Hn Hnd].
  assert (NoDup (map mp_ID (List.filter is_online (List.filter (λ p, bool_decide (mp_OrgID p = org))
            (map snd l))))) as IH' by (apply IH; [intros; apply Hr; by right|done]).
  cbn [List.filter]. destruct (bool_decide _); [|done]. cbn [List.filter].
  destruct (is_online p); [|done]. cbn [map]. constructor; [|done].
  intros (q & Hq & Hin)%list_elem_of_In%in_map_iff. apply Hn.
  apply filter_In in Hin as [Hin _]. apply filter_In in Hin as [Hin _].
  apply in_map_iff in Hin as ([k' q'] & <- & Hin). cbn [snd] in Hq.
  apply list_elem_of_In in Hin. apply list_elem_of_fmap. exists (k', q'). split; [|done].
  cbn. rewrite <- (Hr k p) by by left. rewrite <- (Hr k' q') by by right. done.
Qed.

(** The reported topology is the full mesh.  In every reachable state the links
    of an organization's topology join each two different online peers of it
    exactly once, never a peer with itself, an offline peer or another tenant's;
    with n online peers there are n(n-1)/2. *)
Theorem full_mesh mc ro org :
  rtc mstep NewMeshCoordinator mc →
  let topo := GetTopology ro mc org in
  let up p := GetPeer mc (mp_ID p) = Some p ∧ mp_OrgID p = org ∧ mp_Status p = "online" in
  2 * length (Links topo) = OnlinePeers topo * (OnlinePeers topo - 1)
  ∧ (∀ x, x ∈ Links topo → ∃ p q, up p ∧ up q ∧ mp_ID p ≠ mp_ID q ∧ x = link (mp_ID p) (mp_ID q))
  ∧ (∀ p q, up p → up q → mp_ID p ≠ mp_ID q →
      (link (mp_ID p) (mp_ID q) ∈ Links topo ∧ ¬ link (mp_ID q) (mp_ID p) ∈ Links topo)
      ∨ (¬ link (mp_ID p) (mp_ID q) ∈ Links topo ∧ link (mp_ID q) (mp_ID p) ∈ Links topo)).
Proof.
  intros Hk%reachable_keyed. cbv zeta. unfold GetTopology, GetPeer. cbn [Links OnlinePeers].
  pose proof (online_ids ro mc org Hk) as Hnd.
  assert (∀ p, p ∈ List.filter is_online (ListPeers ro mc org) ↔
    peers mc !! mp_ID p = Some p ∧ mp_OrgID p = org ∧ mp_Status p = "online") as Hup.
  { intros p. unfold ListPeers, is_online.
    rewrite list_elem_of_In, !filter_In, <- list_elem_of_In, elem_of_values, !bool_decide_eq_true.
    split; [|intros (? & ? & ?); split_and!; [by eexists|done..]].
    intros [[[k Hp] Ho] Hs]. by rewrite (Hk k p Hp). }
  revert Hnd Hup. generalize (List.filter is_online (ListPeers ro mc org)) as l. intros l Hnd Hup.
  assert (∀ i j p q, l !! i = Some p → l !! j = Some q → mp_ID p = mp_ID q → i = j) as Hinj.
  { intros i j p q Hi Hj He. eapply (NoDup_lookup (map mp_ID l) i j (mp_ID p)); [done|..];
      rewrite list_lookup_fmap; [by rewrite Hi|by rewrite Hj, He]. }
  split_and!; [apply length_links|..].
  - intros x (i & j & p & q & Hi & Hj & Hij & ->)%elem_of_links. exists p, q.
    rewrite <- !Hup. split_and!; [by eapply list_elem_of_lookup_2..| |done].
    intros He. pose proof (Hinj i j p q Hi Hj He). lia.
  - intros p q Hp Hq Hne. apply Hup, list_elem_of_lookup in Hp as [i Hi].
    apply Hup, list_elem_of_lookup in Hq as [j Hj].
    assert (∀ a b pa pb, l !! a = Some pa → l !! b = Some pb →
      link (mp_ID pa) (mp_ID pb) ∈ mesh_links l → a < b) as Hord.
    { intros a b pa pb Ha Hb (a' & b' & pa' & pb' & Ha' & Hb' & Hlt & [= E1 E2])%elem_of_links.
      rewrite (Hinj a a' pa pa'), (Hinj b b' pb pb') by done. done. }
    destruct (Nat.lt_trichotomy i j) as [Hlt|[->|Hlt]]; [left| |right].
    + split; [apply elem_of_links; by exists i, j, p, q|].
      intros Hx. specialize (Hord j i q p Hj Hi Hx). lia.
    + congruence.
    + split; [|apply elem_of_links; by exists j, i, q, p].
      intros Hx. specialize (Hord i j p q Hi Hj Hx). lia.
Qed.

Definition demo_peer (id org : string) : MeshPeer :=
  mkPeer id org "" "endpoint" "" [] [] "" ∅ 0 0.
Definition demo_mesh : MeshCoordinator :=
  foldl (RegisterPeer (λ _, 7%Z)) NewMeshCoordinator
    [demo_peer "a" "o1"; demo_peer "b" "o1"; demo_peer "c" "o2"; demo_peer "d" "o1"].

Lemma full_mesh_witness :
  2 * length (Links (GetTopology reverse_order demo_mesh "o1")) = 6.
Proof.
  destruct (full_mesh demo_mesh reverse_order "o1") as [H _].
  { unfold demo_mesh. cbn [foldl].
    do 4 (eapply rtc_r; [|apply m_register]). apply rtc_refl. }
  exact H.
Defined.

(** Registering a peer again replaces its registration time by whatever the new
    record carries, here zero. *)
Example reregistration_loses_date :
  mp_RegisteredAt <$> peers (RegisterPeer (λ _, 9%Z) demo_mesh (demo_peer "a" "o1")) !! "a"
  = Some 0%Z
  ∧ mp_RegisteredAt <$> peers demo_mesh !! "a" = Some 7%Z.
Proof. split; vm_compute; reflexivity. Qed.

End Mesh.
