(* ===== verification/Window.v ===== *)
(** * Logs of bounded length

    A log in memory keeps the newest entries: when it is full, the oldest tenth is dropped
    before an entry is appended ([push]).  A query walks from the newest entry and stops at
    its limit ([query_loop]).  The traffic log and the audit log are both of this kind. *)

From S2P Require Import Prelude.
#[local] Open Scope nat_scope.
#[local] Open Scope list_scope.

Module Window.

Section Window.
Context {E : Type}.

Definition push (mx : nat) (l : list E) (e : E) : list E :=
  (if mx <=? length l then drop (mx / 10) l else l) ++ [e].

(** The loop of a query, on the entries from the newest. *)
Fixpoint query_loop (p : E → bool) (limit : Z) (newest results : list E) : list E :=
  match newest with
  | [] => results
  | e :: newest =>
      if negb (p e) then query_loop p limit newest results
      else
        let results := results ++ [e] in
        if (0 <? limit)%Z && (limit <=? Z.of_nat (length results))%Z then results
        else query_loop p limit newest results
  end.

Lemma query_loop_spec p limit l results :
  ((0 < limit)%Z → (Z.of_nat (length results) < limit)%Z) →
  query_loop p limit l results =
    results ++ (if (0 <? limit)%Z then take (Z.to_nat limit - length results) else id) (List.filter p l).
Proof.
  revert results. induction l as [|e l IH]; intros results Hr; cbn [query_loop List.filter].
  { destruct (0 <? limit)%Z; [rewrite take_nil|cbn]; by rewrite app_nil_r. }
  destruct (p e); cbn [negb]; [|by apply IH].
  rewrite length_app. cbn [length].
  destruct (Z.ltb_spec 0 limit) as [Hpos|Hneg]; cbn [andb].
  - specialize (Hr Hpos). destruct (Z.leb_spec limit (Z.of_nat (length results + 1))).
    + replace (Z.to_nat limit - length results) with 1 by lia. done.
    + rewrite IH by (rewrite length_app; cbn; lia). rewrite length_app. cbn [length]. rewrite <- app_assoc. cbn [app].
      replace (Z.to_nat limit - length results) with (S (Z.to_nat limit - (length results + 1))) by lia. done.
  - rewrite IH by lia. by rewrite <- app_assoc.
Qed.

(** The log is what is left of a history [l] after its first [d] entries, and holds at least
    nine tenths of its size once something was dropped. *)
Definition window (mx d : nat) (l : list E) : Prop :=
  length (drop d l) ≤ mx ∧ d ≤ length l ∧ (d = 0 ∨ mx - mx / 10 + 1 ≤ length (drop d l)).

Lemma push_within mx l d e : 10 ≤ mx → window mx d l → ∃ d', push mx (drop d l) e = drop d' (l ++ [e]) ∧ window mx d' (l ++ [e]).
Proof.
  intros Hmx (Hlen & Hd & Hw). unfold push, window. rewrite length_drop in *.
  assert (1 ≤ mx / 10 ∧ mx / 10 ≤ mx) as [H1 H2].
  { split; [apply Nat.div_le_lower_bound; lia|apply Nat.Div0.div_le_upper_bound; lia]. }
  destruct (Nat.leb_spec mx (length l - d)).
  - exists (d + mx / 10). rewrite drop_drop, drop_app_le, !length_app, length_drop by lia.
    cbn [length]. split_and!; [done|lia|lia|right; lia].
  - exists d. rewrite drop_app_le, !length_app, length_drop by lia. cbn [length].
    split_and!; [done|lia|lia|destruct Hw; [by left|right; lia]].
Qed.
Lemma foldl_push mx l : 10 ≤ mx → ∃ d, foldl (push mx) [] l = drop d l ∧ window mx d l.
Proof.
  intros Hmx. induction l as [|e l IH] using rev_ind; [exists 0; split; [done|]; split_and!; [apply Nat.le_0_l|done|by left]|].
  destruct IH as (d & Hd & Hw). rewrite foldl_app. cbn [foldl]. rewrite Hd. by apply push_within.
Qed.

End Window.
End Window.
