(* ===== verification/TrafficLog.v ===== *)
(** * The traffic log (internal/trafficlog/store.go)

    The bounded list of entries (the oldest tenth is dropped when it is full), the
    newest-first query, the statistics and the subscribers, each a channel buffered
    for 256 entries that a slow reader misses entries of.  A [float64] duration is
    its bit pattern; [Export] is [Query] followed by the JSON encoder. *)

From S2P Require Import Prelude GoStrings Window.
#[local] Open Scope string_scope.
#[local] Open Scope nat_scope.
#[local] Open Scope list_scope.

Module TrafficLog.

(** The zero [time.Time], in nanoseconds relative to the Unix epoch. *)
Definition zero_time : Z := -62135596800 * 1000000000.

Record Entry := mkEntry {
  ID : string;
  Timestamp : Z;
  GatewayID : string;
  OrgID : string;
  UserID : string;
  DeviceID : string;
  ClientIP : string;
  DestHost : string;
  DestIP : string;
  DestPort : Z;
  Protocol : string;
  HTTPMethod : string;
  URL : string;
  UserAgent : string;
  Action : string;
  PolicyName : string;
  PolicyID : string;
  BlockReason : string;
  BytesSent : Z;
  BytesRecv : Z;
  Duration : Z;
  SSLInspected : bool;
  SSLVersion : string;
  ATPVerdict : string;
  DLPViolation : bool;
  CASBApp : string;
  CASBClassify : string;
  RBIIsolated : bool;
  FWaaSAction : string;
  DNSQuery : string;
  DNSBlocked : bool;
  TenantRestrict : bool;
}.

Definition set_timestamp (t : Z) (e : Entry) : Entry :=
  match e with
  | mkEntry a1 _ a3 a4 a5 a6 a7 a8 a9 a10 a11 a12 a13 a14 a15 a16 a17 a18 a19 a20 a21 a22 a23
      a24 a25 a26 a27 a28 a29 a30 a31 a32 =>
    mkEntry a1 t a3 a4 a5 a6 a7 a8 a9 a10 a11 a12 a13 a14 a15 a16 a17 a18 a19 a20 a21 a22 a23
      a24 a25 a26 a27 a28 a29 a30 a31 a32
  end.

Definition defaultMaxEntries : nat := Z.to_nat 100000.
Definition subCap : nat := 256.

Record Store := mkStore {
  entries : list Entry;
  maxEntries : nat;
  subs : gmap string (list Entry);   (** what each channel holds *)
}.

Definition NewStore : Store := mkStore [] defaultMaxEntries ∅.

Definition stamp (now : Z) (e : Entry) : Entry :=
  if (Timestamp e =? zero_time)%Z then set_timestamp now e else e.

Definition append_entry (mx : nat) (l : list Entry) (e : Entry) : list Entry := Window.push mx l e.

Definition offer (e : Entry) (q : list Entry) : list Entry :=
  if length q <? subCap then q ++ [e] else q.

Definition Ingest (now : Z) (s : Store) (e : Entry) : Store :=
  let e := stamp now e in
  mkStore (append_entry (maxEntries s) (entries s) e) (maxEntries s) (offer e <$> subs s).

Record Filter := mkFilter {
  f_OrgID : string;
  f_UserID : string;
  f_GatewayID : string;
  f_DestHost : string;
  f_Action : string;
  Since : Z;
  Until : Z;
  Limit : Z;
}.

Definition matchesFilter (e : Entry) (f : Filter) : bool :=
  if negb (bool_decide (f_OrgID f = "")) && negb (bool_decide (OrgID e = f_OrgID f)) then false
  else if negb (bool_decide (f_UserID f = "")) && negb (bool_decide (UserID e = f_UserID f))
  then false
  else if negb (bool_decide (f_GatewayID f = "")) && negb (bool_decide (GatewayID e = f_GatewayID f))
  then false
  else if negb (bool_decide (f_DestHost f = "")) && negb (bool_decide (DestHost e = f_DestHost f))
  then false
  else if negb (bool_decide (f_Action f = "")) && negb (bool_decide (Action e = f_Action f))
  then false
  else if negb (Since f =? zero_time)%Z && (Timestamp e <? Since f)%Z then false
  else if negb (Until f =? zero_time)%Z && (Until f <? Timestamp e)%Z then false
  else true.

(** The loop of [Query], on the entries from the newest. *)
Definition query_loop (f : Filter) (newest results : list Entry) : list Entry :=
  Window.query_loop (λ e, matchesFilter e f) (Limit f) newest results.

Definition Query (s : Store) (f : Filter) : list Entry := query_loop f (reverse (entries s)) [].

Definition Subscribe (s : Store) (id : string) : Store :=
  mkStore (entries s) (maxEntries s) (<[id := []]> (subs s)).
Definition Unsubscribe (s : Store) (id : string) : Store :=
  mkStore (entries s) (maxEntries s) (delete id (subs s)).
Definition Count (s : Store) : nat := length (entries s).

Record TrafficStats := mkStats {
  TotalEntries : Z;
  Allowed : Z;
  Denied : Z;
  Monitored : Z;
  Isolated : Z;
  st_BytesSent : Z;
  st_BytesRecv : Z;
  DLPViolations : Z;
  ATPDetections : Z;
  st_SSLInspected : Z;
  st_DNSBlocked : Z;
}.

Definition zero_stats : TrafficStats := mkStats 0 0 0 0 0 0 0 0 0 0 0.

Definition bump (b : bool) (n : Z) : Z := if b then wrap_i64 (n + 1) else n.

(** The cases of the [switch] on the action are disjoint. *)
Definition add_entry (orgID : string) (st : TrafficStats) (e : Entry) : TrafficStats :=
  if negb (bool_decide (orgID = "")) && negb (bool_decide (OrgID e = orgID)) then st
  else
    mkStats (wrap_i64 (TotalEntries st + 1))
      (bump (bool_decide (Action e = "allow")) (Allowed st))
      (bump (bool_decide (Action e = "deny")) (Denied st))
      (bump (bool_decide (Action e = "monitor")) (Monitored st))
      (bump (bool_decide (Action e = "isolate")) (Isolated st))
      (wrap_i64 (st_BytesSent st + BytesSent e)) (wrap_i64 (st_BytesRecv st + BytesRecv e))
      (bump (DLPViolation e) (DLPViolations st))
      (bump (negb (bool_decide (ATPVerdict e = "")) && negb (bool_decide (ATPVerdict e = "clean")))
         (ATPDetections st))
      (bump (SSLInspected e) (st_SSLInspected st))
      (bump (DNSBlocked e) (st_DNSBlocked st)).

Definition Stats (s : Store) (orgID : string) : TrafficStats :=
  foldl (add_entry orgID) zero_stats (entries s).

(** ** Properties *)

(** The history: what has been ingested, stamped. *)
Definition ingest_all (s : Store) (es : list (Z * Entry)) : Store :=
  foldl (λ s ne, Ingest (fst ne) s (snd ne)) s es.

Lemma ingest_window es :
  let s := ingest_all NewStore es in
  let h := map (λ ne, stamp (fst ne) (snd ne)) es in
  maxEntries s = defaultMaxEntries ∧ ∃ d, entries s = drop d h ∧ Window.window defaultMaxEntries d h.
Proof.
  induction es as [|e es IH] using rev_ind; cbv zeta.
  { split; [done|]. exists 0. split; [done|]. split_and!; [apply Nat.le_0_l|done|by left]. }
  destruct IH as (Hm & d & He & Hw).
  unfold ingest_all. rewrite foldl_app, map_app. cbn [foldl map].
  fold (ingest_all NewStore es). unfold Ingest. cbn [maxEntries entries]. split; [done|]. rewrite Hm, He.
  apply Window.push_within; [|done]. apply Nat.leb_le. vm_compute. reflexivity.
Qed.

(** A query returns the newest matching entries, newest first.  After any
    sequence of ingested entries the store holds a suffix of them, at most 100000
    and, once any was dropped, at least the 90001 newest; a query returns exactly
    the entries of that suffix that match its filter, from the newest, cut at its
    limit when that is positive. *)
Theorem query_newest_first es f :
  let s := ingest_all NewStore es in
  let h := map (λ ne, stamp (fst ne) (snd ne)) es in
  ∃ d, entries s = drop d h ∧ length (entries s) ≤ Z.to_nat 100000
    ∧ (d = 0 ∨ Z.to_nat 90001 ≤ length (entries s))
    ∧ Query s f = (if (0 <? Limit f)%Z then take (Z.to_nat (Limit f)) else id)
                    (List.filter (λ e, matchesFilter e f) (reverse (drop d h))).
Proof.
  cbv zeta. destruct (ingest_window es) as (Hm & d & He & Hl & Hd & Hw).
  exists d. rewrite He. split_and!; [done|exact Hl| |].
  - destruct Hw as [->|Hw]; [by left|right].
    assert (defaultMaxEntries - defaultMaxEntries / 10 + 1 = Z.to_nat 90001) as <-; [|exact Hw].
    apply Nat.eqb_eq. vm_compute. reflexivity.
  - unfold Query, query_loop. rewrite He, Window.query_loop_spec by (cbn [length]; lia).
    cbn [app length]. by rewrite Nat.sub_0_r.
Qed.

(** Every entry is counted under at most one action. *)
Lemma stats_partition l org st :
  (0 <= TotalEntries st)%Z → (TotalEntries st + Z.of_nat (length l) < 2 ^ 63)%Z →
  (0 <= Allowed st ∧ 0 <= Denied st ∧ 0 <= Monitored st ∧ 0 <= Isolated st)%Z →
  (Allowed st + Denied st + Monitored st + Isolated st <= TotalEntries st)%Z →
  let r := foldl (add_entry org) st l in
  (Allowed r + Denied r + Monitored r + Isolated r <= TotalEntries r)%Z.
Proof.
  revert st. induction l as [|e l IH]; intros st H0 Hb Hp Hs; [done|]. cbn [foldl length] in *.
  apply IH; unfold add_entry, bump; destruct (_ && _); cbn [TotalEntries Allowed Denied Monitored Isolated];
    repeat case_bool_decide; try congruence;
    rewrite ?(wrap_i64_id) by (unfold in_i64; lia); lia.
Qed.

End TrafficLog.
