(* ===== verification/Dns.v ===== *)
(** * DNS security (internal/dnssecurity/policy.go, internal/dnsrisk/engine.go,
      internal/dnsrisk/policy_resolver.go)

    The per-group category policy with its guard, and the risk engine that scores a
    domain.  The database is reached through three lookups that are arguments: the
    threat entry of a domain ([None] for a miss or an error), the time of the last
    log of a domain, and the client configuration of a device.  Decoding the stored
    settings is the argument [unmarshal] ([json.Unmarshal] into the struct of the
    source).

    The vowel ratio is compared without floating point: [v/n < 0.15] and
    [v/n < 0.25] are [20v < 3n] and [4v < n], which for label lengths far below
    2^48 is what the rounded quotient gives. *)

From S2P Require Import Prelude GoStrings.
From Stdlib Require Import Ascii.
#[local] Open Scope string_scope.
#[local] Open Scope nat_scope.
#[local] Open Scope list_scope.

Module DnsSecurity.

Definition Categories : list string := ["nrd"; "nod"; "dga"; "malicious"; "spyware"].
Definition ActionAllow : string := "allow".
Definition ActionDeny : string := "deny".

Record Policy := mkPolicy {
  Enabled : bool;
  PCategories : gmap string string;
}.

Definition disabled : Policy := mkPolicy false ∅.

Definition category_action (categories : gmap string string) (cat : string) : string :=
  match categories !! cat with
  | Some v => if bool_decide (v = ActionAllow) || bool_decide (v = ActionDeny) then v else ActionDeny
  | None => ActionDeny
  end.

Definition FromFlags (flagEnabled : bool) (categories : gmap string string) : Policy :=
  if negb flagEnabled then disabled
  else mkPolicy true
         (foldl (λ m cat, <[cat := category_action categories cat]> m) ∅ Categories).

(** The decoded settings, as far as the code looks into them. *)
Inductive json :=
| JString (s : string)
| JObject (fields : list (string * json))
| JOther.

Definition FromSettings (flagEnabled : bool) (settings : gmap string json) : Policy :=
  let raw := match settings !! "categories" with
             | Some (JObject fields) => fields
             | _ => []
             end in
  FromFlags flagEnabled
    (foldl (λ m kv, match snd kv with JString s => <[fst kv := s]> m | _ => m end) ∅ raw).

Definition Denies (p : Policy) (category : string) : bool :=
  if negb (Enabled p) || bool_decide (category = "") then false
  else negb (bool_decide (default "" (PCategories p !! category) = ActionAllow)).

Lemma FromFlags_lookup categories cat :
  PCategories (FromFlags true categories) !! cat =
    if bool_decide (cat ∈ Categories) then Some (category_action categories cat) else None.
Proof.
  cbn. repeat (destruct (decide (cat = _)) as [->|];
    [rewrite ?lookup_insert_ne, lookup_insert_eq by done; reflexivity|]).
  case_bool_decide as Hin.
  - unfold Categories in Hin. set_solver.
  - rewrite !lookup_insert_ne; [apply lookup_empty|..]; intros <-; apply Hin;
      unfold Categories; set_solver.
Qed.

(** The DNS guard is safe when off and fail-secure when on.  With the feature
    flag off no category is ever denied, whatever is stored; with it on, a known
    category is denied unless the stored decision for it is exactly "allow", and
    any other non-empty category is denied. *)
Theorem dns_guard flag categories cat :
  Denies (FromFlags flag categories) cat = true ↔
    flag = true ∧ cat ≠ "" ∧ ¬ (cat ∈ Categories ∧ categories !! cat = Some ActionAllow).
Proof.
  unfold Denies. destruct flag; [|cbn; naive_solver].
  change (negb (Enabled (FromFlags true categories))) with false. cbn [orb].
  case_bool_decide as Hne; [naive_solver|].
  rewrite negb_true_iff, bool_decide_eq_false, FromFlags_lookup.
  case_bool_decide as Hin; cbn [default from_option]; unfold id, category_action.
  - destruct (categories !! cat) as [v|] eqn:E; [|naive_solver].
    case_bool_decide as H1; cbn [orb]; [naive_solver|].
    case_bool_decide as H2; [naive_solver|]. unfold ActionAllow, ActionDeny in *. naive_solver.
  - unfold ActionAllow. naive_solver.
Qed.

End DnsSecurity.

Module DnsRisk.
Import GoStrings DnsSecurity.

Definition VerdictAllow : string := "allow".
Definition VerdictMonitor : string := "monitor".
Definition VerdictDeny : string := "deny".

Record Signals := mkSignals {
  DGALike : bool;
  DomainAge : string;
  GeoRisk : string;
  NewlyObserved : bool;
  Reputation : string;
}.

Record Assessment := mkAssessment {
  ADomain : string;
  Score : Z;
  Verdict : string;
  Confidence : string;
  Source : string;
  ASignals : Signals;
  TopFactors : list string;
  Rationale : string;
}.

Definition dot : ascii := "."%char.

Definition normalizeDomain (d : string) : string :=
  let d := ToLower (TrimSpace d) in
  let d := TrimPrefix d "http://" in
  let d := TrimPrefix d "https://" in
  let d := TrimPrefix d "www." in
  let d := before "/"%char d in
  before ":"%char d.

Definition clampScore (s : Z) : Z :=
  if (s <? 0)%Z then 0%Z else if (100 <? s)%Z then 100%Z else s.

(** ** Signals *)

Definition level_score (category level : string) : string * string * string * Z :=
  if bool_decide (level = "critical") then ("malicious", category, level, 55%Z)
  else if bool_decide (level = "high") then ("malicious", category, level, 45%Z)
  else if bool_decide (level = "medium") then ("suspicious", category, level, 30%Z)
  else ("suspicious", category, level, 20%Z).

(** The walk over the suffixes; an entry is its category and its level. *)
Fixpoint walk (query : string → option (string * string)) (parts : list string)
  : string * string * string * Z :=
  match parts with
  | [] => ("clean", "", "", 0%Z)
  | _ :: rest =>
      match query (Join parts ".") with
      | Some (category, level) => level_score category level
      | None => walk query rest
      end
  end.

Definition reputation (threats : option (string → option (string * string))) (domain : string)
  : string * string * string * Z :=
  match threats with
  | None => ("unknown", "", "", 0%Z)
  | Some query => walk query (Split dot domain)
  end.

Definition seven_days : Z := 7 * 24 * 3600 * 1000000000.

(** [logs]: no store; or the lookup of the newest log's time, [None] for no log or
    an error. *)
Definition estimateNewlyObserved (now : Z) (logs : option (string → option Z)) (domain : string)
  : bool * Z :=
  match logs with
  | None => (false, 0%Z)
  | Some last =>
      match last domain with
      | None => (true, 10%Z)
      | Some created => if (seven_days <? now - created)%Z then (true, 5%Z) else (false, 0%Z)
      end
  end.

Definition is_vowel (c : ascii) : bool :=
  bool_decide (c ∈ ["a"%char; "e"%char; "i"%char; "o"%char; "u"%char]).

Fixpoint count_vowels (s : string) : nat :=
  match s with
  | EmptyString => 0
  | String c s => (if is_vowel c then 1 else 0) + count_vowels s
  end.

Definition dgaLike (domain : string) : bool * Z :=
  match Split dot domain with
  | label :: _ :: _ =>
      let n := String.length label in
      if n <? 12 then (false, 0%Z)
      else
        let v := count_vowels label in
        if 20 * v <? 3 * n then (true, 25%Z)
        else if 4 * v <? n then (true, 15%Z)
        else (false, 0%Z)
  | _ => (false, 0%Z)
  end.

Definition isDictionaryWord (s : string) : bool :=
  bool_decide (ToLower s ∈ ["internet"; "bad"; "guys"; "mail"; "web"; "www"; "api"; "app";
                            "login"; "secure"]).

Definition estimateDomainAge (domain : string) : string * Z :=
  match Split dot domain with
  | label :: _ :: _ =>
      let lower := ToLower domain in
      if Contains lower "opendns" || Contains lower "cisco" then ("established", (-5)%Z)
      else if (String.length label <=? 6) && isDictionaryWord label then ("established", (-5)%Z)
      else if 15 <? String.length label then ("new", 10%Z)
      else ("established", 0%Z)
  | _ => ("unknown", 0%Z)
  end.

Definition estimateGeoRisk (domain : string) : string * Z :=
  let lower := ToLower domain in
  if HasSuffix lower ".ru" || HasSuffix lower ".cn" || HasSuffix lower ".tk" then ("medium", 10%Z)
  else if HasSuffix lower ".ml" || HasSuffix lower ".ga" then ("high", 15%Z)
  else ("low", 0%Z).

(** ** Verdict *)

Definition verdictFromScore (score : Z) : string :=
  if (70 <=? score)%Z then VerdictDeny
  else if (40 <=? score)%Z then VerdictMonitor
  else VerdictAllow.

Definition confidenceFromScore (score : Z) : string :=
  if (70 <=? score)%Z || (score <? 20)%Z then "High Confidence"
  else if (40 <=? score)%Z then "Medium Confidence"
  else "Low Confidence".

(** [%q] on a byte string: quotes and backslashes escaped, control bytes as Go
    escapes them, other bytes as they are (valid printable UTF-8). *)
Definition hex_byte (n : nat) : string :=
  String (Hex.digit (Z.of_nat (n / 16))) (String (Hex.digit (Z.of_nat (n mod 16))) EmptyString).
Definition quote_char (c : ascii) : string :=
  let n := nat_of_ascii c in
  let bs := String (ascii_of_nat 92) EmptyString in
  if n =? 34 then bs +:+ String c EmptyString
  else if n =? 92 then bs +:+ bs
  else if n =? 7 then bs +:+ "a" else if n =? 8 then bs +:+ "b" else if n =? 12 then bs +:+ "f"
  else if n =? 10 then bs +:+ "n" else if n =? 13 then bs +:+ "r" else if n =? 9 then bs +:+ "t"
  else if n =? 11 then bs +:+ "v"
  else if (n <? 32) || (n =? 127) then bs +:+ "x" +:+ hex_byte n
  else String c EmptyString.
Fixpoint quote_chars (s : string) : string :=
  match s with
  | EmptyString => EmptyString
  | String c s => quote_char c +:+ quote_chars s
  end.
Definition quote (s : string) : string :=
  let q := String (ascii_of_nat 34) EmptyString in q +:+ quote_chars s +:+ q.

Definition note_enabled : string := " DNS security policy is enabled for your group.".
Definition note_disabled : string :=
  " DNS security policy is currently disabled for your group, so the verdict was downgraded to monitor-only.".

Definition explain (domain rep category level : string) (dga : bool) (age geo : string)
    (newly : bool) (score : Z) (verdict : string) (policy : Policy) : list string * string :=
  let '(factors, parts) :=
    if bool_decide (rep = "malicious") then
      (["Threat-feed hit: " +:+ category +:+ " (" +:+ level +:+ ")"],
       ["The domain " +:+ quote domain +:+ " matches a " +:+ category
        +:+ " threat-intelligence entry (" +:+ level +:+ " confidence)."])
    else if bool_decide (rep = "suspicious") then
      (["Suspicious reputation: " +:+ category],
       ["The domain " +:+ quote domain +:+ " has a suspicious reputation flag (" +:+ category +:+ ")."])
    else ([], []) in
  let '(factors, parts) :=
    if dga then (factors ++ ["DGA-like label detected"],
                 parts ++ ["The subdomain has low vowel entropy, consistent with algorithmically generated names."])
    else (factors ++ ["No DGA-like pattern"], parts) in
  let '(factors, parts) :=
    if newly then (factors ++ ["Newly observed domain"],
                   parts ++ ["This domain has not been seen on the network recently."])
    else (factors ++ ["Domain previously observed"], parts) in
  let factors := factors ++ ["Domain age: " +:+ age; "Geo risk: " +:+ geo] in
  let action := if bool_decide (verdict = VerdictDeny) then "blocked"
                else if bool_decide (verdict = VerdictMonitor)
                then "allowed but logged for monitoring" else "allowed" in
  let policyNote := if Enabled policy then note_enabled else note_disabled in
  (factors,
   Join parts " " +:+ " Risk score " +:+ itoa score +:+ "/100. The policy decision for "
   +:+ quote domain +:+ " is " +:+ action +:+ "." +:+ policyNote).

Inductive assess_error := ErrDomainRequired | ErrResolve.

(** [policy]: what [ResolvePolicy] returns, [None] its error. *)
Definition Assess (threats : option (string → option (string * string)))
    (logs : option (string → option Z)) (policy : option Policy) (now : Z) (domain : string)
  : result assess_error Assessment :=
  let domain := normalizeDomain domain in
  if bool_decide (domain = "") then Err ErrDomainRequired
  else
    match policy with
    | None => Err ErrResolve
    | Some policy =>
        let '(rep, category, level, repScore) := reputation threats domain in
        let '(dga, dgaScore) := dgaLike domain in
        let '(age, ageScore) := estimateDomainAge domain in
        let '(geo, geoScore) := estimateGeoRisk domain in
        let '(newly, obsScore) := estimateNewlyObserved now logs domain in
        let score := clampScore (repScore + dgaScore + ageScore + geoScore + obsScore) in
        let verdict := verdictFromScore score in
        let verdict := if bool_decide (verdict = VerdictDeny) && negb (Enabled policy)
                       then VerdictMonitor else verdict in
        let '(factors, rationale) :=
          explain domain rep category level dga age geo newly score verdict policy in
        Ok (mkAssessment domain score verdict (confidenceFromScore score) "cache"
              (mkSignals dga age geo newly rep) factors rationale)
    end.

(** ** Resolving the policy *)

Definition extractDNSSecuritySettings
    (unmarshal : string → option (bool * option (gmap string json))) (raw : string)
  : bool * gmap string json :=
  if String.length raw =? 0 then (false, ∅)
  else
    match unmarshal raw with
    | None => (false, ∅)
    | Some (flag, settings) => (flag, default ∅ settings)
    end.

(** [config]: no store, or the effective configuration of the device ([None] an
    error). *)
Definition ResolvePolicy (unmarshal : string → option (bool * option (gmap string json)))
    (config : option (option string)) (orgID : string) : Policy :=
  match config with
  | None => disabled
  | Some cfg =>
      if bool_decide (orgID = "") then disabled
      else
        match cfg with
        | None => disabled
        | Some raw => let '(flag, settings) := extractDNSSecuritySettings unmarshal raw in
                      FromSettings flag settings
        end
  end.

(** ** Properties *)

Lemma clamp_range s : (0 <= clampScore s <= 100)%Z.
Proof. unfold clampScore. repeat case_match; lia. Qed.

(** The risk verdict follows the score and the feature flag, nothing else.
    Every assessment has a score between 0 and 100; it denies exactly at 70 and
    above with the policy enabled, allows exactly below 40 and monitors otherwise,
    and is of high confidence exactly at 70 and above or below 20.  The per-category
    decisions of the policy are not consulted: two enabled policies give the same
    assessment. *)
Theorem assess_verdict threats logs p now domain a :
  Assess threats logs (Some p) now domain = Ok a →
  ADomain a = normalizeDomain domain ∧ ADomain a ≠ ""
  ∧ (0 <= Score a <= 100)%Z
  ∧ (Verdict a = VerdictDeny ↔ (70 <= Score a)%Z ∧ Enabled p = true)
  ∧ (Verdict a = VerdictAllow ↔ (Score a < 40)%Z)
  ∧ (Confidence a = "High Confidence" ↔ (70 <= Score a ∨ Score a < 20)%Z)
  ∧ ∀ p', Enabled p' = Enabled p → Assess threats logs (Some p') now domain = Ok a.
Proof.
  unfold Assess. case_bool_decide as Hd; [done|].
  destruct (reputation threats (normalizeDomain domain)) as [[[rep cat] lvl] s1].
  destruct (dgaLike (normalizeDomain domain)) as [dga s2].
  destruct (estimateDomainAge (normalizeDomain domain)) as [age s3].
  destruct (estimateGeoRisk (normalizeDomain domain)) as [geo s4].
  destruct (estimateNewlyObserved now logs (normalizeDomain domain)) as [nw s5].
  pose proof (clamp_range (s1 + s2 + s3 + s4 + s5)) as Hr.
  set (sc := clampScore (s1 + s2 + s3 + s4 + s5)) in *. clearbody sc.
  intros Ha.
  assert (∀ v p', Enabled p' = Enabled p →
    explain (normalizeDomain domain) rep cat lvl dga age geo nw sc v p'
    = explain (normalizeDomain domain) rep cat lvl dga age geo nw sc v p) as Hexp
    by (intros v p' Hp; unfold explain; by rewrite Hp).
  refine (conj _ (conj _ (conj _ (conj _ (conj _ (conj _ _))))));
    [..|intros p' Hp; rewrite Hp, Hexp by done; exact Ha];
    (destruct (explain _ _ _ _ _ _ _ _ _ _ _) as [fs ra]; injection Ha as <-;
                   cbn [ADomain Score Verdict Confidence]).
  - done.
  - done.
  - lia.
  - unfold verdictFromScore, VerdictDeny, VerdictMonitor, VerdictAllow.
    destruct (Z.leb_spec 70 sc), (Z.leb_spec 40 sc), (Enabled p); cbn; naive_solver lia.
  - unfold verdictFromScore, VerdictDeny, VerdictMonitor, VerdictAllow.
    destruct (Z.leb_spec 70 sc), (Z.leb_spec 40 sc), (Enabled p); cbn; naive_solver lia.
  - unfold confidenceFromScore.
    destruct (Z.leb_spec 70 sc), (Z.ltb_spec sc 20), (Z.leb_spec 40 sc); cbn;
      (split; intros Hx; first [discriminate Hx|reflexivity|lia|exfalso; lia]).
Qed.

Definition demo_policy : Policy := FromFlags true {["malicious" := "allow"]}.
Definition demo_threats (d : string) : option (string * string) :=
  if bool_decide (d = "evil.ru") then Some ("malicious", "critical") else None.

Lemma assess_verdict_witness :
  ∃ a, Assess (Some demo_threats) (Some (λ _, None)) (Some demo_policy) 0 "https://www.Evil.ru/x" = Ok a
    ∧ Score a = 75%Z ∧ Verdict a = VerdictDeny ∧ Denies demo_policy "malicious" = false.
Proof.
  destruct (Assess (Some demo_threats) (Some (λ _, None)) (Some demo_policy) 0 "https://www.Evil.ru/x")
    as [a|] eqn:E; [|vm_compute in E; discriminate].
  exists a. split; [reflexivity|].
  assert (Score a = 75%Z) as Hs by (vm_compute in E; injection E as <-; reflexivity).
  split; [exact Hs|]. split; [|vm_compute; reflexivity].
  apply (assess_verdict _ _ _ _ _ _ E). rewrite Hs. split; [lia|reflexivity].
Defined.

(** With the policy disabled, the rationale claims a downgrade to monitor-only also
    for a harmless domain whose verdict is allow. *)
Example rationale_claims_downgrade :
  match Assess None None (Some disabled) 0 "mail.example.com" with
  | Ok a => Verdict a = VerdictAllow
            ∧ HasSuffix (Rationale a) "so the verdict was downgraded to monitor-only." = true
  | Err _ => False
  end.
Proof. vm_compute. split; reflexivity. Qed.

End DnsRisk.
