(* ===== verification/Signing.v ===== *)
(** * Code signing and command signing (internal/security/code_signing.go,
      command_signing.go, helpers.go)

    Ed25519 is the [Ed25519] interface: key generation from random bytes, signing
    and verification, with the scheme's correctness (a signature made with the
    private half verifies under the public one).  Random bytes are arguments,
    [None] a failing source; clock readings are [clk i].  [ro] is the order of
    [range] over a map. *)

From S2P Require Import Prelude GoStrings Sha256.
#[local] Open Scope string_scope.
#[local] Open Scope nat_scope.
#[local] Open Scope list_scope.

Module Signing.

Class Ed25519 := {
  ed_key : bytes → bytes * bytes;
  ed_sign : bytes → bytes → bytes;
  ed_verify : bytes → bytes → bytes → bool;
  ed_correct : ∀ seed m, ed_verify (fst (ed_key seed)) m (ed_sign (snd (ed_key seed)) m) = true;
}.

Definition generateID (prefix : string) (rnd : option bytes) : string :=
  match rnd with
  | None => prefix +:+ "-" +:+ GoStrings.itoa 0
  | Some b => prefix +:+ "-" +:+ Hex.encode b
  end.

Definition sha256Hex (data : bytes) : string := Hex.encode (Sha256.sha256 data).

(** ** Artifacts *)

Record SignedArtifact := mkArtifact {
  a_ID : string;
  ArtifactName : string;
  ArtifactType : string;
  a_Version : string;
  a_SHA256 : string;
  a_Signature : string;
  a_SigningKeyID : string;
  SignedAt : Z;
  a_ExpiresAt : Z;
  SignedBy : string;
  VerifiedAt : option Z;
  Verified : bool;
}.

Record SigningKey := mkKey {
  k_ID : string;
  Label : string;
  PublicKey : bytes;
  PrivateKey : bytes;
  PublicHex : string;
  k_CreatedAt : Z;
  Active : bool;
}.

Record SignRequest := mkSignRequest {
  sr_Name : string;
  sr_Type : string;
  sr_Version : string;
  sr_SHA256 : string;
}.

Record VerifyRequest := mkVerifyRequest {
  vr_SHA256 : string;
  vr_Signature : string;
  vr_KeyID : string;
}.

Record VerifyResponse := mkVerifyResponse {
  Valid : bool;
  KeyID : string;
  ArtifactID : string;
  Message : string;
}.

Record CodeSigningService := mkCode {
  keys : gmap string SigningKey;
  artifacts : gmap string SignedArtifact;
  activeKey : string;
}.

Inductive sign_error :=
| ErrKeyGeneration
| ErrNoActiveKey
| ErrInvalidDigest
| ErrInvalidSignature
| ErrKeyNotFound (id : string)
| ErrNonce
| ErrCommandNotFound (id : string).

Definition year : Z := 365 * 24 * 3600 * 1000000000.

Definition boolMsg (valid : bool) : string :=
  if valid then "Signature verified" else "Signature verification failed".

Section WithEd25519.
Context `{Ed25519}.

Definition GenerateKey (now : Z) (seed rnd : option bytes) (s : CodeSigningService)
    (label : string) : result sign_error (CodeSigningService * SigningKey) :=
  match seed with
  | None => Err ErrKeyGeneration
  | Some seed =>
      let '(pub, priv) := ed_key seed in
      let id := generateID "csk" rnd in
      let key := mkKey id label pub priv (Hex.encode pub) now true in
      Ok (mkCode (<[id := key]> (keys s)) (artifacts s) (activeKey s), key)
  end.

(** The constructor ignores the error of [GenerateKey] and dereferences the key:
    [None] is the panic. *)
Definition NewCodeSigningService (now : Z) (seed rnd : option bytes) : option CodeSigningService :=
  match GenerateKey now seed rnd (mkCode ∅ ∅ "") "root-signing-key" with
  | Err _ => None
  | Ok (s, key) => Some (mkCode (keys s) (artifacts s) (k_ID key))
  end.

Definition Sign (clk : nat → Z) (rnd : option bytes) (s : CodeSigningService) (req : SignRequest)
    (signedBy : string) : result sign_error (CodeSigningService * SignedArtifact) :=
  match keys s !! activeKey s with
  | None => Err ErrNoActiveKey
  | Some key =>
      let '(digest, ok) := Hex.decode (sr_SHA256 req) in
      if negb ok then Err ErrInvalidDigest
      else
        let sig := ed_sign (PrivateKey key) digest in
        let art := mkArtifact (generateID "art" rnd) (sr_Name req) (sr_Type req) (sr_Version req)
                     (sr_SHA256 req) (Hex.encode sig) (k_ID key) (clk 0) (clk 1%nat + year)%Z
                     signedBy None true in
        Ok (mkCode (keys s) (<[a_ID art := art]> (artifacts s)) (activeKey s), art)
  end.

Fixpoint first_verifying (ks : list SigningKey) (digest sig : bytes) : option SigningKey :=
  match ks with
  | [] => None
  | k :: ks => if ed_verify (PublicKey k) digest sig then Some k else first_verifying ks digest sig
  end.

Fixpoint find_artifact (l : list SignedArtifact) (req : VerifyRequest) : string :=
  match l with
  | [] => ""
  | a :: l => if bool_decide (a_SHA256 a = vr_SHA256 req)
                 && bool_decide (a_Signature a = vr_Signature req)
              then a_ID a else find_artifact l req
  end.

Definition Verify (ro : range_order) (s : CodeSigningService) (req : VerifyRequest)
  : result sign_error VerifyResponse :=
  let '(digest, ok) := Hex.decode (vr_SHA256 req) in
  if negb ok then Err ErrInvalidDigest
  else
    let '(sig, ok) := Hex.decode (vr_Signature req) in
    if negb ok then Err ErrInvalidSignature
    else if negb (bool_decide (vr_KeyID req = "")) then
      match keys s !! vr_KeyID req with
      | None => Ok (mkVerifyResponse false "" "" "Unknown signing key")
      | Some key =>
          let valid := ed_verify (PublicKey key) digest sig in
          Ok (mkVerifyResponse valid (vr_KeyID req) "" (boolMsg valid))
      end
    else
      match first_verifying (values ro (keys s)) digest sig with
      | Some key =>
          Ok (mkVerifyResponse true (k_ID key) (find_artifact (values ro (artifacts s)) req)
                "Signature verified")
      | None => Ok (mkVerifyResponse false "" "" "Signature verification failed — no matching key")
      end.

Definition ListArtifacts (ro : range_order) (s : CodeSigningService) : list SignedArtifact :=
  values ro (artifacts s).
Definition ListKeys (ro : range_order) (s : CodeSigningService) : list SigningKey :=
  values ro (keys s).
Definition GetPublicKey (s : CodeSigningService) (id : string) : result sign_error string :=
  match keys s !! id with Some k => Ok (PublicHex k) | None => Err (ErrKeyNotFound id) end.

(** ** Commands *)

Record SignedCommand := mkCommand {
  c_ID : string;
  CommandType : string;
  TargetID : string;
  Payload : string;
  PayloadHash : string;
  c_Signature : string;
  c_SigningKeyID : string;
  IssuedBy : string;
  IssuedAt : Z;
  c_ExpiresAt : Z;
  Executed : bool;
  ExecutedAt : option Z;
  Nonce : string;
}.

Definition set_executed (now : Z) (c : SignedCommand) : SignedCommand :=
  mkCommand (c_ID c) (CommandType c) (TargetID c) (Payload c) (PayloadHash c) (c_Signature c)
    (c_SigningKeyID c) (IssuedBy c) (IssuedAt c) (c_ExpiresAt c) true (Some now) (Nonce c).

Record IssueCommandRequest := mkIssueRequest {
  ir_Type : string;
  ir_Target : string;
  ir_Payload : string;
  TTLMinutes : Z;
}.

Record CommandVerifyRequest := mkCommandVerify {
  cv_CommandID : string;
  cv_PayloadHash : string;
  cv_Signature : string;
  cv_Nonce : string;
}.

Record CommandVerifyResponse := mkCommandResponse {
  cr_Valid : bool;
  cr_Expired : bool;
  cr_Message : string;
}.

Record CommandSigningService := mkCommands {
  commands : gmap string SignedCommand;
  nonces : gset string;
}.

Definition NewCommandSigningService : CommandSigningService := mkCommands ∅ ∅.

Definition minute : Z := 60000000000.

Definition IssueCommand (clk : nat → Z) (rnd rnd_id : option bytes) (code : CodeSigningService)
    (s : CommandSigningService) (req : IssueCommandRequest) (issuedBy : string)
  : result sign_error (CommandSigningService * SignedCommand) :=
  match keys code !! activeKey code with
  | None => Err ErrNoActiveKey
  | Some key =>
      let payloadHash := sha256Hex (of_string (ir_Payload req)) in
      let '(digest, _) := Hex.decode payloadHash in
      let sig := ed_sign (PrivateKey key) digest in
      match rnd with
      | None => Err ErrNonce
      | Some nonceBytes =>
          let ttl := wrap_i64 (TTLMinutes req * minute) in
          let ttl := if (ttl <=? 0)%Z then (15 * minute)%Z else ttl in
          let id := generateID "cmd" rnd_id in
          let cmd := mkCommand id (ir_Type req) (ir_Target req) (ir_Payload req) payloadHash
                       (Hex.encode sig) (k_ID key) issuedBy (clk 0) (clk 1%nat + ttl)%Z false None
                       (Hex.encode nonceBytes) in
          Ok (mkCommands (<[id := cmd]> (commands s)) (nonces s), cmd)
      end
  end.

Definition refuse (s : CommandSigningService) (expired : bool) (msg : string)
  : CommandSigningService * CommandVerifyResponse := (s, mkCommandResponse false expired msg).

Definition VerifyCommand (clk : nat → Z) (code : CodeSigningService) (s : CommandSigningService)
    (req : CommandVerifyRequest) : CommandSigningService * CommandVerifyResponse :=
  match commands s !! cv_CommandID req with
  | None => refuse s false "Unknown command"
  | Some cmd =>
      if (c_ExpiresAt cmd <? clk 0%nat)%Z then refuse s true "Command has expired"
      else if bool_decide (cv_Nonce req ∈ nonces s)
      then refuse s false "Nonce already used (replay detected)"
      else if negb (bool_decide (cv_Nonce req = Nonce cmd)) then refuse s false "Nonce mismatch"
      else if negb (bool_decide (cv_PayloadHash req = PayloadHash cmd))
      then refuse s false "Payload hash mismatch"
      else if negb (bool_decide (cv_Signature req = c_Signature cmd))
      then refuse s false "Signature mismatch"
      else
        match keys code !! c_SigningKeyID cmd with
        | None => refuse s false "Signing key not found"
        | Some key =>
            let '(digest, _) := Hex.decode (PayloadHash cmd) in
            let '(sigBytes, _) := Hex.decode (c_Signature cmd) in
            if negb (ed_verify (PublicKey key) digest sigBytes)
            then refuse s false "Signature verification failed"
            else
              (mkCommands (<[cv_CommandID req := set_executed (clk 1%nat) cmd]> (commands s))
                 ({[cv_Nonce req]} ∪ nonces s),
               mkCommandResponse true false "Command verified — proceed with execution")
        end
  end.

Definition ListCommands (ro : range_order) (s : CommandSigningService) : list SignedCommand :=
  values ro (commands s).

Definition GetCommand (s : CommandSigningService) (id : string) : result sign_error SignedCommand :=
  match commands s !! id with Some c => Ok c | None => Err (ErrCommandNotFound id) end.

(** [now c] is the reading when the loop visits command [c]. *)
Definition GetPendingCommands (ro : range_order) (now : string → Z) (s : CommandSigningService)
    (targetID : string) : list SignedCommand :=
  List.filter (λ c, negb (Executed c) && negb (c_ExpiresAt c <? now (c_ID c))%Z
                    && (bool_decide (TargetID c = targetID) || bool_decide (TargetID c = "*")))
    (values ro (commands s)).

(** ** Properties *)

(** A key under its own identifier, both halves from one generation. *)
Definition key_ok (id : string) (k : SigningKey) : Prop :=
  k_ID k = id ∧ ∃ seed, (PublicKey k, PrivateKey k) = ed_key seed.

Definition code_ok (s : CodeSigningService) : Prop :=
  map_Forall key_ok (keys s) ∧ is_Some (keys s !! activeKey s).

Inductive code_step : CodeSigningService → CodeSigningService → Prop :=
| code_generate s now seed rnd label s' k :
    GenerateKey now seed rnd s label = Ok (s', k) → code_step s s'
| code_sign s clk rnd req by_ s' art :
    Sign clk rnd s req by_ = Ok (s', art) → code_step s s'.

Lemma generate_ok s now seed rnd label s' k :
  map_Forall key_ok (keys s) → GenerateKey now seed rnd s label = Ok (s', k) →
  map_Forall key_ok (keys s') ∧ activeKey s' = activeKey s ∧ keys s' = <[k_ID k := k]> (keys s).
Proof.
  unfold GenerateKey. destruct seed as [seed|]; [|done]. intros Hk.
  destruct (ed_key seed) as [pub priv] eqn:E. intros [= <- <-]. split_and!; [|done..].
  cbn. apply map_Forall_insert_2; [|done]. split; [done|]. by exists seed.
Qed.

Lemma new_code_ok now seed rnd s : NewCodeSigningService now seed rnd = Some s → code_ok s.
Proof.
  unfold NewCodeSigningService.
  destruct (GenerateKey _ _ _ _ _) as [[s' k]|] eqn:E; [|done]. intros [= <-].
  destruct (generate_ok _ _ _ _ _ _ _ (map_Forall_empty _) E) as (H1 & _ & H2).
  split; [done|]. cbn. rewrite H2. eexists. apply lookup_insert_eq.
Qed.

Lemma code_step_ok s s' : code_ok s → code_step s s' → code_ok s'.
Proof.
  intros [Hk Ha] Hst. destruct Hst as [s now seed rnd label s' k E|s clk rnd req b s' art E].
  - destruct (generate_ok _ _ _ _ _ _ _ Hk E) as (H1 & H2 & H3). split; [done|].
    rewrite H2, H3, lookup_insert_is_Some'. by right.
  - unfold Sign in E. repeat (case_match; simplify_eq). by split.
Qed.

Lemma key_verifies s id k m :
  map_Forall key_ok (keys s) → keys s !! id = Some k →
  ed_verify (PublicKey k) m (ed_sign (PrivateKey k) m) = true.
Proof.
  intros Hk Hid. destruct (Hk id k Hid) as [_ [seed E]].
  pose proof (ed_correct seed m) as Hc. rewrite <- E in Hc. exact Hc.
Qed.

(** What the service signs, it verifies.  In every reachable state of the code
    signing service an artifact with a well-formed digest is signed, and checking
    the returned signature against the same digest succeeds, both with the key it
    names and when all keys are tried in any order. *)
Theorem sign_then_verify now seed rnd s0 s clk rnd' req by_ digest ro :
  NewCodeSigningService now seed rnd = Some s0 → rtc code_step s0 s →
  Hex.decode (sr_SHA256 req) = (digest, true) →
  ∃ s' art, Sign clk rnd' s req by_ = Ok (s', art)
    ∧ ∀ key, key = "" ∨ key = a_SigningKeyID art →
        ∃ r, Verify ro s' (mkVerifyRequest (sr_SHA256 req) (a_Signature art) key) = Ok r
             ∧ Valid r = true.
Proof.
  intros H0 Hr Hd. assert (code_ok s) as [Hk [k Ha]].
  { apply new_code_ok in H0. induction Hr as [|x y z Hxy _ IH]; [done|].
    apply IH. by eapply code_step_ok. }
  unfold Sign. rewrite Ha, Hd. cbn [negb]. eexists _, _. split; [reflexivity|].
  intros key Hkey. unfold Verify. cbn [vr_SHA256 vr_Signature vr_KeyID a_Signature a_SigningKeyID] in *.
  rewrite Hd, Hex.decode_encode. cbn [negb keys].
  pose proof (key_verifies s (activeKey s) k digest Hk Ha) as Hv.
  case_bool_decide as He; cbn [negb].
  - assert (k ∈ values ro (keys s)) as Hin by (apply elem_of_values; by eexists).
    destruct (first_verifying (values ro (keys s)) digest (ed_sign (PrivateKey k) digest))
      as [k'|] eqn:Ef; [eexists; split; reflexivity|].
    exfalso. revert Hin Ef. induction (values ro (keys s)) as [|q l IH];
      [by intros ?%not_elem_of_nil|]. cbn [first_verifying].
    intros [->|Hin]%elem_of_cons; [by rewrite Hv|].
    destruct (ed_verify (PublicKey q) _ _); [done|auto].
  - destruct Hkey as [Hkey|Hkey]; subst key; [done|]. destruct (Hk _ _ Ha) as [Hid _]. rewrite Hid, Ha.
    eexists. split; [reflexivity|]. cbn. exact Hv.
Qed.

(** ** Replay *)

(** Events at the command service: an issue, or a verification whose answer is
    recorded with its nonce. *)
Inductive cmd_trace : CommandSigningService → list (string * bool) → CommandSigningService → Prop :=
| tr_nil s : cmd_trace s [] s
| tr_issue s clk rnd rnd_id code req by_ s1 c tr s2 :
    IssueCommand clk rnd rnd_id code s req by_ = Ok (s1, c) →
    cmd_trace s1 tr s2 → cmd_trace s tr s2
| tr_verify s clk code req s1 r tr s2 :
    VerifyCommand clk code s req = (s1, r) →
    cmd_trace s1 tr s2 → cmd_trace s ((cv_Nonce req, cr_Valid r) :: tr) s2.

Definition accepted (n : string) (tr : list (string * bool)) : nat :=
  length (List.filter (λ e, bool_decide (fst e = n) && snd e) tr).

Lemma VerifyCommand_nonces clk code s req s' r :
  VerifyCommand clk code s req = (s', r) →
  (cr_Valid r = false ∧ s' = s)
  ∨ (cr_Valid r = true ∧ ¬ cv_Nonce req ∈ nonces s ∧ nonces s' = {[cv_Nonce req]} ∪ nonces s).
Proof.
  unfold VerifyCommand, refuse. intros E.
  repeat (case_match; simplify_eq; try (left; by split)).
  right. split_and!; [done| |done]. by eapply bool_decide_eq_false.
Qed.

Lemma IssueCommand_nonces clk rnd rnd_id code s req by_ s1 c :
  IssueCommand clk rnd rnd_id code s req by_ = Ok (s1, c) → nonces s1 = nonces s.
Proof. unfold IssueCommand. intros E. by repeat (case_match; simplify_eq). Qed.

Lemma accepted_once s tr s' n :
  cmd_trace s tr s' → accepted n tr + (if bool_decide (n ∈ nonces s) then 1 else 0) ≤ 1.
Proof.
  unfold accepted.
  induction 1 as [s|s clk rnd rid code req b s1 c tr s2 E _ IH|s clk code req s1 r tr s2 E _ IH].
  - cbn. case_bool_decide; lia.
  - by rewrite (IssueCommand_nonces _ _ _ _ _ _ _ _ _ E) in IH.
  - apply VerifyCommand_nonces in E as [[Hv ->]|(Hv & Hn & Hs)]; rewrite Hv; cbn [List.filter fst snd].
    + by rewrite andb_false_r.
    + rewrite andb_true_r. rewrite Hs in IH. destruct (decide (cv_Nonce req = n)) as [<-|He].
      * rewrite (bool_decide_eq_true_2 (cv_Nonce req = _)) by done.
        rewrite bool_decide_eq_true_2 in IH by set_solver.
        rewrite bool_decide_eq_false_2 by done. cbn [length]. lia.
      * rewrite (bool_decide_eq_false_2 (cv_Nonce req = n)) by done.
        rewrite (bool_decide_ext (n ∈ {[cv_Nonce req]} ∪ nonces s) (n ∈ nonces s)) in IH by set_solver.
        exact IH.
Qed.

(** C7: A signed command runs at most once, and runs when it should.  In any
    interleaving of issuing and verifying commands each nonce is accepted at most
    once; and a freshly issued command, verified before it expires with the fields
    it was issued with and a nonce not seen before, is accepted. *)
Theorem command_exactly_once s :
  (∀ tr s' n, cmd_trace s tr s' → accepted n tr ≤ 1)
  ∧ ∀ code clk rnd rnd_id req by_ s1 c clk2,
      code_ok code → IssueCommand clk rnd rnd_id code s req by_ = Ok (s1, c) →
      Nonce c ∉ nonces s → (clk2 0%nat <= c_ExpiresAt c)%Z →
      cr_Valid (snd (VerifyCommand clk2 code s1
        (mkCommandVerify (c_ID c) (PayloadHash c) (c_Signature c) (Nonce c)))) = true.
Proof.
  split.
  { intros tr s' n Htr. pose proof (accepted_once s tr s' n Htr). lia. }
  intros code clk rnd rnd_id req by_ s1 c clk2 [Hk [k Ha]]. unfold IssueCommand. rewrite Ha.
  unfold sha256Hex. rewrite Hex.decode_encode. destruct rnd as [nb|]; [|done].
  intros [= <- <-] Hn Hexp. unfold VerifyCommand.
  cbn [commands nonces cv_CommandID cv_Nonce cv_PayloadHash cv_Signature c_ID PayloadHash c_Signature
       Nonce c_ExpiresAt c_SigningKeyID] in *.
  rewrite lookup_insert_eq. cbn [c_ExpiresAt Nonce PayloadHash c_Signature c_SigningKeyID].
  rewrite (proj2 (Z.ltb_ge _ _)) by exact Hexp.
  rewrite bool_decide_eq_false_2 by exact Hn. rewrite !bool_decide_eq_true_2 by done. cbn [negb].
  destruct (Hk _ _ Ha) as [Hid _]. rewrite Hid, Ha, !Hex.decode_encode.
  by rewrite (key_verifies code _ k _ Hk Ha).
Qed.

End WithEd25519.

(** ** A concrete instance, for the witness *)

#[local] Instance toy_ed : Ed25519.
Proof.
  refine {| ed_key seed := (seed, seed);
            ed_sign k m := k ++ m;
            ed_verify k m sig := bool_decide (sig = k ++ m) |}.
  intros seed m. by apply bool_decide_eq_true.
Defined.

Lemma sign_then_verify_witness :
  ∃ s s' art r, NewCodeSigningService 0 (Some [x01]) (Some [x02]) = Some s
    ∧ Sign (λ _, 5%Z) (Some [x03]) s (mkSignRequest "gw" "binary" "1" "0aff") "ann" = Ok (s', art)
    ∧ Verify canonical_order s' (mkVerifyRequest "0aff" (a_Signature art) "") = Ok r
    ∧ Valid r = true.
Proof.
  destruct (NewCodeSigningService 0 (Some [x01]) (Some [x02])) as [s|] eqn:E0;
    [|vm_compute in E0; discriminate].
  destruct (sign_then_verify 0 (Some [x01]) (Some [x02]) s s (λ _, 5%Z) (Some [x03])
              (mkSignRequest "gw" "binary" "1" "0aff") "ann" [x0a; xff] canonical_order E0)
    as (s' & art & H1 & H2); [apply rtc_refl|vm_compute; reflexivity|].
  destruct (H2 "") as (r & H3 & H4); [left; reflexivity|].
  exists s, s', art, r. split; [reflexivity|]. split; [exact H1|]. split; [exact H3|exact H4].
Defined.

Definition demo_code : CodeSigningService :=
  default (mkCode ∅ ∅ "") (NewCodeSigningService 0 (Some [x01]) (Some [x02])).

Lemma command_exactly_once_witness :
  ∃ s1 c, IssueCommand (λ _, 5%Z) (Some [x0b]) (Some [x0c]) demo_code NewCommandSigningService
            (mkIssueRequest "tunnel_restart" "agt-1" "{}" 0) "ann" = Ok (s1, c)
    ∧ cr_Valid (snd (VerifyCommand (λ _, 6%Z) demo_code s1
        (mkCommandVerify (c_ID c) (PayloadHash c) (c_Signature c) (Nonce c)))) = true.
Proof.
  destruct (IssueCommand (λ _, 5%Z) (Some [x0b]) (Some [x0c]) demo_code NewCommandSigningService
              (mkIssueRequest "tunnel_restart" "agt-1" "{}" 0) "ann") as [[s1 c]|] eqn:E;
    [|vm_compute in E; discriminate].
  exists s1, c. split; [reflexivity|].
  destruct (command_exactly_once NewCommandSigningService) as [_ H].
  assert (NewCodeSigningService 0 (Some [x01]) (Some [x02]) = Some demo_code) as Hc
    by (vm_compute; reflexivity).
  apply (H _ _ _ _ _ _ _ _ _ (new_code_ok 0 (Some [x01]) (Some [x02]) demo_code Hc) E).
  - apply not_elem_of_empty.
  - vm_compute in E. injection E as _ <-. discriminate.
Defined.

End Signing.
