(* ===== verification/Enrollment.v ===== *)
(** * Agent enrollment (internal/security/enrollment.go)

    Enrollment tokens with an expiry, a use limit and revocation, the agents they
    admit, and device certificates.  The certificate authority is an argument:
    [sign_csr agent csr days] is its [SignDeviceCSR] ([None] an error) and a string
    its CA certificate; [None] for the authority is the unconfigured service.
    Random bytes are arguments, [None] a failing source; [clk i] are the clock
    readings of one call. *)

From S2P Require Import Prelude GoStrings NetMac Dot1x Sha256 Signing.
#[local] Open Scope string_scope.
#[local] Open Scope nat_scope.
#[local] Open Scope list_scope.

Module Enrollment.
Import Signing (generateID).

Record EnrollmentToken := mkToken {
  t_ID : string;
  Token : string;
  t_Label : string;
  t_GroupID : string;
  t_GroupName : string;
  CreatedBy : string;
  t_CreatedAt : Z;
  t_ExpiresAt : Z;
  MaxUses : Z;
  UsedCount : Z;
  Revoked : bool;
  LastUsedAt : option Z;
  LastUsedBy : string;
}.

Definition use_token (now : Z) (device : string) (t : EnrollmentToken) : EnrollmentToken :=
  mkToken (t_ID t) (Token t) (t_Label t) (t_GroupID t) (t_GroupName t) (CreatedBy t) (t_CreatedAt t)
    (t_ExpiresAt t) (MaxUses t) (wrap_i64 (UsedCount t + 1)) (Revoked t) (Some now) device.
Definition revoke (t : EnrollmentToken) : EnrollmentToken :=
  mkToken (t_ID t) (Token t) (t_Label t) (t_GroupID t) (t_GroupName t) (CreatedBy t) (t_CreatedAt t)
    (t_ExpiresAt t) (MaxUses t) (UsedCount t) true (LastUsedAt t) (LastUsedBy t).

Record EnrolledAgent := mkAgent {
  g_ID : string;
  DeviceName : string;
  DeviceOS : string;
  DeviceArch : string;
  TokenID : string;
  g_GroupID : string;
  g_GroupName : string;
  EnrolledAt : Z;
  EnrolledBy : string;
  LastSeen : Z;
  AgentSecret : string;
  g_Active : bool;
}.

Definition set_agent (secret : string) (active : bool) (g : EnrolledAgent) : EnrolledAgent :=
  mkAgent (g_ID g) (DeviceName g) (DeviceOS g) (DeviceArch g) (TokenID g) (g_GroupID g)
    (g_GroupName g) (EnrolledAt g) (EnrolledBy g) (LastSeen g) secret active.

Record CreateTokenRequest := mkCreate {
  cr_Label : string;
  cr_GroupID : string;
  cr_GroupName : string;
  cr_MaxUses : Z;
  TTLHours : Z;
}.

Record EnrollAgentRequest := mkEnroll {
  er_Token : string;
  er_DeviceName : string;
  er_DeviceOS : string;
  er_DeviceArch : string;
}.

Record EnrollDeviceCertificateRequest := mkEnrollCert {
  ec_Agent : EnrollAgentRequest;
  CSRPEM : string;
  ValidDays : Z;
}.

Record EnrollDeviceCertificateResponse := mkCertResponse {
  AgentID : string;
  CertPEM : string;
  CACertPEM : string;
  NotAfter : Z;
  cr_Group : string;
  cr_GroupLabel : string;
  cr_Device : string;
}.

Record EnrollmentService := mkService {
  tokens : gmap string EnrollmentToken;
  agents : gmap string EnrolledAgent;
}.

Definition NewEnrollmentService : EnrollmentService := mkService ∅ ∅.

Inductive enroll_error :=
| ErrRandom
| ErrInvalidToken
| ErrRevoked
| ErrExpired
| ErrMaxUses
| ErrSecret
| ErrNoCA
| ErrCSR
| ErrTokenNotFound (id : string)
| ErrAgentNotFound (id : string).

Definition hour : Z := 3600000000000.

Definition CreateToken (clk : nat → Z) (rnd rnd_id : option bytes) (s : EnrollmentService)
    (req : CreateTokenRequest) (createdBy : string)
  : result enroll_error (EnrollmentService * EnrollmentToken) :=
  match rnd with
  | None => Err ErrRandom
  | Some tokenBytes =>
      let maxUses := if (cr_MaxUses req <=? 0)%Z then 1%Z else cr_MaxUses req in
      let ttl := wrap_i64 (TTLHours req * hour) in
      let ttl := if (ttl <=? 0)%Z then (24 * hour)%Z else ttl in
      let id := generateID "etk" rnd_id in
      let token := mkToken id (Hex.encode tokenBytes) (cr_Label req) (cr_GroupID req)
                     (cr_GroupName req) createdBy (clk 0) (clk 1%nat + ttl)%Z maxUses 0 false None "" in
      Ok (mkService (<[id := token]> (tokens s)) (agents s), token)
  end.

Fixpoint find_token (l : list (string * EnrollmentToken)) (value : string)
  : option (string * EnrollmentToken) :=
  match l with
  | [] => None
  | kt :: l => if bool_decide (Token (snd kt) = value) then Some kt else find_token l value
  end.

Definition EnrollAgent (ro : range_order) (clk : nat → Z) (rnd rnd_id : option bytes)
    (s : EnrollmentService) (req : EnrollAgentRequest)
  : result enroll_error (EnrollmentService * EnrolledAgent) :=
  match find_token (range ro (tokens s)) (er_Token req) with
  | None => Err ErrInvalidToken
  | Some (key, token) =>
      if Revoked token then Err ErrRevoked
      else if (t_ExpiresAt token <? clk 0%nat)%Z then Err ErrExpired
      else if (MaxUses token <=? UsedCount token)%Z then Err ErrMaxUses
      else
        match rnd with
        | None => Err ErrSecret
        | Some secretBytes =>
            let now := clk 1%nat in
            let agentID := generateID "agt" rnd_id in
            let agent := mkAgent agentID (er_DeviceName req) (er_DeviceOS req) (er_DeviceArch req)
                           (t_ID token) (t_GroupID token) (t_GroupName token) now (CreatedBy token)
                           now (Hex.encode secretBytes) true in
            Ok (mkService (<[key := use_token now (er_DeviceName req) token]> (tokens s))
                  (<[agentID := agent]> (agents s)), agent)
        end
  end.

Definition valid_days (d : Z) : Z :=
  let d := if (d <=? 0)%Z then 365%Z else d in
  if (825 <? d)%Z then 825%Z else d.

(** The state is returned on every branch: a failure after the agent was enrolled
    does not undo it. *)
Definition EnrollDeviceCertificate `{Dot1x.CertLib}
    (ca : option ((string → string → Z → option string) * string))
    (ro : range_order) (clk : nat → Z) (rnd rnd_id : option bytes) (s : EnrollmentService)
    (req : EnrollDeviceCertificateRequest)
  : EnrollmentService * result enroll_error EnrollDeviceCertificateResponse :=
  match ca with
  | None => (s, Err ErrNoCA)
  | Some (sign_csr, caPEM) =>
      match EnrollAgent ro clk rnd rnd_id s (ec_Agent req) with
      | Err e => (s, Err e)
      | Ok (s, agent) =>
          let validDays := valid_days (ValidDays req) in
          match sign_csr (g_ID agent) (CSRPEM req) validDays with
          | None => (s, Err ErrCSR)
          | Some certPEM =>
              let notAfter := (clk 2%nat + validDays * 24 * hour)%Z in
              let notAfter :=
                match Dot1x.pem_decode certPEM with
                | None => notAfter
                | Some der => match Dot1x.parse_cert der with
                              | Some cert => Dot1x.NotAfter cert
                              | None => notAfter
                              end
                end in
              (s, Ok (mkCertResponse (g_ID agent) certPEM caPEM notAfter (g_GroupID agent)
                        (g_GroupName agent) (DeviceName agent)))
          end
      end
  end.

Definition ListTokens (ro : range_order) (s : EnrollmentService) : list EnrollmentToken :=
  values ro (tokens s).

Definition RevokeToken (s : EnrollmentService) (id : string) : result enroll_error EnrollmentService :=
  match tokens s !! id with
  | None => Err (ErrTokenNotFound id)
  | Some t => Ok (mkService (<[id := revoke t]> (tokens s)) (agents s))
  end.

Definition ListAgents (ro : range_order) (s : EnrollmentService) : list EnrolledAgent :=
  map (λ g, set_agent "" (g_Active g) g) (values ro (agents s)).

Definition DeactivateAgent (s : EnrollmentService) (id : string)
  : result enroll_error EnrollmentService :=
  match agents s !! id with
  | None => Err (ErrAgentNotFound id)
  | Some g => Ok (mkService (tokens s) (<[id := set_agent (AgentSecret g) false g]> (agents s)))
  end.

(** ** Invariant *)

Record token_ok (id : string) (t : EnrollmentToken) : Prop := {
  tok_key : t_ID t = id;
  tok_uses : (0 <= UsedCount t <= MaxUses t)%Z;
  tok_width : in_i64 (MaxUses t);
}.

Definition wf (s : EnrollmentService) : Prop := map_Forall token_ok (tokens s).

Lemma find_token_spec ro (m : gmap string EnrollmentToken) v k t :
  find_token (range ro m) v = Some (k, t) → m !! k = Some t ∧ Token t = v.
Proof.
  intros Hf. rewrite <- (elem_of_range ro m k t). revert Hf. generalize (range ro m).
  induction l as [|[k' t'] l IH]; cbn [find_token snd]; [done|].
  case_bool_decide as Hv; [intros [= <- <-]; by split; [left|]|].
  intros Hf. destruct (IH Hf). by split; [right|].
Qed.

Lemma find_token_none ro (m : gmap string EnrollmentToken) v :
  find_token (range ro m) v = None → map_Forall (λ _ t, Token t ≠ v) m.
Proof.
  intros Hf k t Hk. rewrite <- (elem_of_range ro m k t) in Hk. revert Hf Hk.
  generalize (range ro m). induction l as [|[k' t'] l IH]; cbn [find_token snd];
    [by intros _ ?%not_elem_of_nil|].
  case_bool_decide; [done|]. intros Hf [[= -> ->]|Hin]%elem_of_cons; [done|by apply IH].
Qed.

(** When a token admits a device at a time. *)
Definition admits (t : EnrollmentToken) (value : string) (now : Z) : Prop :=
  Token t = value ∧ Revoked t = false ∧ (now <= t_ExpiresAt t)%Z ∧ (UsedCount t < MaxUses t)%Z.

Lemma EnrollAgent_ok ro clk rnd rnd_id s req s' g :
  EnrollAgent ro clk rnd rnd_id s req = Ok (s', g) →
  ∃ k t, tokens s !! k = Some t ∧ admits t (er_Token req) (clk 0%nat)
    ∧ TokenID g = t_ID t ∧ g_GroupID g = t_GroupID t ∧ g_Active g = true
    ∧ s' = mkService (<[k := use_token (clk 1%nat) (er_DeviceName req) t]> (tokens s))
             (<[g_ID g := g]> (agents s)).
Proof.
  unfold EnrollAgent.
  destruct (find_token (range ro (tokens s)) (er_Token req)) as [[k t]|] eqn:Hf; [|done].
  apply find_token_spec in Hf as [Hk Hv].
  destruct (Revoked t) eqn:Hr; [done|].
  destruct (Z.ltb_spec (t_ExpiresAt t) (clk 0%nat)); [done|].
  destruct (Z.leb_spec (MaxUses t) (UsedCount t)); [done|].
  destruct rnd as [b|]; [|done]. intros [= <- <-]. exists k, t. split_and!; done.
Qed.

Lemma use_token_ok id t now d :
  token_ok id t → (UsedCount t < MaxUses t)%Z →
  token_ok id (use_token now d t) ∧ UsedCount (use_token now d t) = (UsedCount t + 1)%Z.
Proof.
  intros [H1 H2 H3] Hlt. unfold in_i64 in H3.
  assert (wrap_i64 (UsedCount t + 1) = (UsedCount t + 1)%Z) as Hw
    by (apply wrap_i64_id; unfold in_i64; lia).
  split; [|exact Hw]. constructor; cbn; [done|rewrite Hw; lia|done].
Qed.

(** ** Traces *)

(** The token of each admitted device, in order.  A new token has an identifier
    not in use. *)
Inductive trace `{Dot1x.CertLib} : EnrollmentService → list string → EnrollmentService → Prop :=
| tr_nil s : trace s [] s
| tr_create s clk rnd rnd_id req by_ s1 t tr s2 :
    CreateToken clk rnd rnd_id s req by_ = Ok (s1, t) → tokens s !! t_ID t = None →
    in_i64 (cr_MaxUses req) → trace s1 tr s2 → trace s tr s2
| tr_enroll s ro clk rnd rnd_id req s1 g tr s2 :
    EnrollAgent ro clk rnd rnd_id s req = Ok (s1, g) →
    trace s1 tr s2 → trace s (TokenID g :: tr) s2
| tr_certificate s ca ro clk rnd rnd_id req s1 r tr s2 :
    EnrollDeviceCertificate ca ro clk rnd rnd_id s req = (s1, r) →
    trace s1 tr s2 →
    trace s (match EnrollAgent ro clk rnd rnd_id s (ec_Agent req), ca with
             | Ok (_, g), Some _ => TokenID g :: tr
             | _, _ => tr
             end) s2
| tr_revoke s id s1 tr s2 : RevokeToken s id = Ok s1 → trace s1 tr s2 → trace s tr s2
| tr_deactivate s id s1 tr s2 : DeactivateAgent s id = Ok s1 → trace s1 tr s2 → trace s tr s2.

Definition uses (id : string) (tr : list string) : Z :=
  Z.of_nat (length (List.filter (λ x, bool_decide (x = id)) tr)).

(** What is left of a token. *)
Definition budget (s : EnrollmentService) (id : string) : Z :=
  match tokens s !! id with
  | None => 0%Z
  | Some t => if Revoked t then 0%Z else (MaxUses t - UsedCount t)%Z
  end.

Lemma uses_cons id x tr : uses id (x :: tr) = ((if bool_decide (x = id) then 1 else 0) + uses id tr)%Z.
Proof. unfold uses. cbn [List.filter]. case_bool_decide; cbn [length]; lia. Qed.

Lemma enroll_budget ro clk rnd rnd_id s req s1 g id :
  wf s → EnrollAgent ro clk rnd rnd_id s req = Ok (s1, g) →
  wf s1 ∧ budget s id = ((if bool_decide (TokenID g = id) then 1 else 0) + budget s1 id)%Z
  ∧ (is_Some (tokens s !! id) ↔ is_Some (tokens s1 !! id)).
Proof.
  intros Hwf (k & t & Hk & (Hv & Hr & He & Hu) & Hg & _ & _ & ->)%EnrollAgent_ok.
  pose proof (Hwf k t Hk) as Hok. pose proof (tok_key _ _ Hok) as Hid.
  destruct (use_token_ok k t (clk 1%nat) (er_DeviceName req) Hok Hu) as [Hok' Hc].
  split; [by apply map_Forall_insert_2|]. rewrite Hg, Hid. unfold budget. cbn [tokens].
  case_bool_decide as Hki.
  - subst id. rewrite lookup_insert_eq, Hk, Hr.
    change (Revoked (use_token _ _ t)) with (Revoked t). rewrite Hr, Hc. cbn [MaxUses use_token].
    split; [lia|]. split; by eexists.
  - rewrite lookup_insert_ne by congruence. split; [lia|done].
Qed.

Lemma create_budget clk rnd rnd_id s req by_ s1 t id :
  wf s → in_i64 (cr_MaxUses req) → CreateToken clk rnd rnd_id s req by_ = Ok (s1, t) →
  wf s1 ∧ (id ≠ t_ID t → tokens s1 !! id = tokens s !! id).
Proof.
  intros Hwf Hw. unfold CreateToken. destruct rnd as [b|]; [|done]. intros [= <- <-].
  split; [|intros Hne; by apply lookup_insert_ne].
  apply map_Forall_insert_2; [|done]. unfold in_i64 in *.
  constructor; cbn [t_ID UsedCount MaxUses]; [done|..];
    destruct (Z.leb_spec (cr_MaxUses req) 0); unfold in_i64; lia.
Qed.

Lemma revoke_budget s id s1 k :
  wf s → RevokeToken s id = Ok s1 →
  wf s1 ∧ (budget s1 k <= budget s k)%Z ∧ (is_Some (tokens s !! k) ↔ is_Some (tokens s1 !! k)).
Proof.
  intros Hwf. unfold RevokeToken. destruct (tokens s !! id) as [t|] eqn:E; [|done]. intros [= <-].
  pose proof (Hwf id t E) as [H1 H2 H3]. split; [by apply map_Forall_insert_2|].
  unfold budget. cbn [tokens]. destruct (decide (id = k)) as [<-|Hne].
  - rewrite lookup_insert_eq, E. cbn [revoke Revoked].
    split; [destruct (Revoked t); lia|split; by eexists].
  - rewrite lookup_insert_ne by done. done.
Qed.

(** C8: Token uses are bounded.  From any well-formed state, in any interleaving of
    enrollments (with or without a certificate), revocations, new tokens and
    deactivations, the number of devices admitted by an existing token is at most
    its remaining uses, and none once it is revoked; the state stays well formed. *)
Theorem token_uses_bounded `{Dot1x.CertLib} s tr s' id :
  wf s → is_Some (tokens s !! id) → trace s tr s' → (uses id tr <= budget s id)%Z ∧ wf s'.
Proof.
  intros Hwf Hid Htr. revert Hwf Hid.
  induction Htr as [s|s clk rnd rid req b s1 t tr s2 E Hfresh Hw _ IH|s ro clk rnd rid req s1 g tr s2 E _ IH
    |s ca ro clk rnd rid req s1 r tr s2 E _ IH|s k s1 tr s2 E _ IH|s k s1 tr s2 E _ IH]; intros Hwf Hid.
  - split; [|done]. destruct Hid as [t Ht]. pose proof (Hwf id t Ht) as [_ H2 _].
    unfold budget, uses. cbn. rewrite Ht. destruct (Revoked t); lia.
  - destruct (create_budget _ _ _ _ _ _ _ _ id Hwf Hw E) as [Hwf' Hsame].
    assert (id ≠ t_ID t) as Hne by (intros ->; by destruct Hid; congruence).
    unfold budget in *. rewrite <- (Hsame Hne). apply IH; [done|]. by rewrite Hsame.
  - destruct (enroll_budget _ _ _ _ _ _ _ _ id Hwf E) as (Hwf' & Hb & Hs).
    rewrite uses_cons, Hb. destruct (IH Hwf') as [Hu Hw]; [by apply Hs|]. split; [lia|done].
  - unfold EnrollDeviceCertificate in E. destruct ca as [[sign pem]|].
    2:{ injection E as <- _. destruct (EnrollAgent _ _ _ _ _ _) as [[]|]; by apply IH. }
    destruct (EnrollAgent ro clk rnd rid s (ec_Agent req)) as [[s3 g]|] eqn:Ea.
    2:{ injection E as <- _. by apply IH. }
    assert (s1 = s3) as -> by (destruct (sign _ _ _); by injection E as <- _).
    destruct (enroll_budget _ _ _ _ _ _ _ _ id Hwf Ea) as (Hwf' & Hb & Hs).
    rewrite uses_cons, Hb. destruct (IH Hwf') as [Hu Hw]; [by apply Hs|]. split; [lia|done].
  - destruct (revoke_budget s k s1 id Hwf E) as (Hwf' & Hb & Hs).
    destruct (IH Hwf') as [Hu Hw]; [by apply Hs|]. split; [lia|done].
  - unfold DeactivateAgent in E. destruct (agents s !! k); [|done]. injection E as <-.
    by apply IH.
Qed.

Definition demo_service : EnrollmentService :=
  match CreateToken (λ _, 0%Z) (Some [xaa]) (Some [x01]) NewEnrollmentService
          (mkCreate "lab" "grp" "Lab" 0 0) "ann" with
  | Ok (s, _) => s
  | Err _ => NewEnrollmentService
  end.
Definition demo_enroll : EnrollAgentRequest := mkEnroll "aa" "laptop" "linux" "amd64".

Lemma demo_tokens :
  tokens demo_service
  = {["etk-01" := mkToken "etk-01" "aa" "lab" "grp" "Lab" "ann" 0 (24 * hour) 1 0 false None ""]}.
Proof. vm_compute. reflexivity. Qed.

#[local] Existing Instance Dot1x.toy_certlib.

Lemma token_uses_witness :
  ∃ s1 g, EnrollAgent canonical_order (λ _, 7%Z) (Some [xbb]) (Some [x02]) demo_service demo_enroll
          = Ok (s1, g) ∧ (uses "etk-01" [TokenID g] <= 1)%Z ∧ wf s1.
Proof.
  destruct (EnrollAgent canonical_order (λ _, 7%Z) (Some [xbb]) (Some [x02]) demo_service demo_enroll)
    as [[s1 g]|] eqn:E; [|vm_compute in E; discriminate].
  exists s1, g. split; [reflexivity|].
  apply (token_uses_bounded demo_service [TokenID g] s1 "etk-01").
  - intros k t Hk. rewrite demo_tokens in Hk. apply lookup_singleton_Some in Hk as [<- <-].
    repeat constructor; discriminate.
  - eexists. vm_compute. reflexivity.
  - eapply tr_enroll; [exact E|]. apply tr_nil.
Defined.

(** Enrollment admits exactly the holders of a live token.  With a working
    random source, enrolling succeeds for a value iff some stored token with that
    value is live, provided values are unique; the new agent is active in the
    token's group, and a failed attempt is a refusal that leaves no trace.  A
    failing certificate request, though, costs a use: the agent is registered and
    the use counted although no certificate is issued. *)
Theorem enroll_exact `{Dot1x.CertLib} ro clk secret rnd_id s req :
  (∀ i j t u, tokens s !! i = Some t → tokens s !! j = Some u → Token t = Token u → i = j) →
  ((∃ s' g, EnrollAgent ro clk (Some secret) rnd_id s req = Ok (s', g))
   ↔ ∃ k t, tokens s !! k = Some t ∧ admits t (er_Token req) (clk 0%nat))
  ∧ (∀ s' g, EnrollAgent ro clk (Some secret) rnd_id s req = Ok (s', g) →
      agents s' !! g_ID g = Some g ∧ g_Active g = true
      ∧ ∃ k t, tokens s !! k = Some t ∧ admits t (er_Token req) (clk 0%nat)
               ∧ g_GroupID g = t_GroupID t)
  ∧ (∀ s' g sign_csr pem csr days,
      EnrollAgent ro clk (Some secret) rnd_id s req = Ok (s', g) →
      sign_csr (g_ID g) csr (valid_days days) = None →
      EnrollDeviceCertificate (Some (sign_csr, pem)) ro clk (Some secret) rnd_id s
        (mkEnrollCert req csr days) = (s', Err ErrCSR)).
Proof.
  intros Huniq. split; [split|split].
  - intros (s' & g & (k & t & Hk & Ha & _)%EnrollAgent_ok). by exists k, t.
  - intros (k & t & Hk & Hv & Hr & He & Hu). unfold EnrollAgent.
    destruct (find_token (range ro (tokens s)) (er_Token req)) as [[k' t']|] eqn:Hf.
    + apply find_token_spec in Hf as [Hk' Hv'].
      assert (k' = k) as -> by (apply (Huniq k' k t' t); congruence). simplify_eq.
      rewrite Hr, (proj2 (Z.ltb_ge _ _)), (proj2 (Z.leb_gt _ _)) by lia. by eexists _, _.
    + by destruct (find_token_none _ _ _ Hf k t Hk).
  - intros s' g Hok. pose proof Hok as (k & t & Hk & Ha & _ & Hg & Hact & ->)%EnrollAgent_ok.
    cbn [agents]. rewrite lookup_insert_eq. split_and!; [done..|]. by exists k, t.
  - intros s' g sign_csr pem csr days Hok Hcsr. unfold EnrollDeviceCertificate.
    cbn [ec_Agent CSRPEM ValidDays]. by rewrite Hok, Hcsr.
Qed.

Lemma enroll_exact_witness :
  ∃ s' g, EnrollAgent reverse_order (λ _, 7%Z) (Some [xbb]) (Some [x02]) demo_service demo_enroll
          = Ok (s', g)
    ∧ EnrollDeviceCertificate (Some (λ _ _ _, None, "")) reverse_order (λ _, 7%Z) (Some [xbb])
        (Some [x02]) demo_service (mkEnrollCert demo_enroll "junk" 0) = (s', Err ErrCSR).
Proof.
  destruct (enroll_exact reverse_order (λ _, 7%Z) [xbb] (Some [x02]) demo_service demo_enroll)
    as ([_ Hex] & _ & Hburn).
  - intros i j t u Hi Hj _.
    rewrite demo_tokens in Hi, Hj. apply lookup_singleton_Some in Hi as [<- _].
    apply lookup_singleton_Some in Hj as [<- _]. reflexivity.
  - destruct Hex as (s' & g & Hok).
    { eexists "etk-01", _. split; [vm_compute; reflexivity|].
      split; [reflexivity|]. split; [reflexivity|]. split; [discriminate|reflexivity]. }
    exists s', g. split; [exact Hok|]. apply (Hburn s' g _ _ _ _ Hok). reflexivity.
Defined.

End Enrollment.
