(* ===== verification/Jwt.v ===== *)
(** * The JWT library

    github.com/golang-jwt/jwt/v5 is not part of the repository: it is the [JwtLib]
    interface that token exchange and the authentication store are built on.
    [jwt_parse keyf now s] is [jwt.Parse]: the token object, [None] for nil, and
    whether there was no error; [keyf hmac] is what the key callback answers for a
    token whose method is, or is not, HMAC, [None] its error.  [jwt_sign c key] is
    [NewWithClaims(HS256, c).SignedString(key)].  The laws are what the library
    documents: without an error the token is there and valid, the callback gave a
    key, and the token has not expired; a token signed with a key parses under the
    same key, without error and with its claims, while it has not expired; and a
    well-formed token is handed back with its claims also when its validation fails,
    next to the error.
    The round trip is a law for the claims the sources sign: texts in UTF-8 (what a
    text column or a decoded JSON string holds), numbers, and no [nbf].  For other texts
    the JSON encoder replaces bytes, and the theorems say nothing about such a library.
    [toy_jwt] is a concrete library, for the witnesses. *)

From S2P Require Import Prelude GoStrings.
From Stdlib Require Import Ascii.
#[local] Open Scope string_scope.
#[local] Open Scope nat_scope.
#[local] Open Scope list_scope.

Module Jwt.

(** A claim as the code tells claims apart; a list element is a string or
    something else. *)
Inductive claim :=
| CString (s : string)
| CList (l : list (option string))
| CNumber (n : Z)
| CBool (b : bool)
| COther.

#[global] Instance claim_eq_dec : EqDecision claim.
Proof. solve_decision. Defined.

Abbreviation claims := (gmap string claim).

Record jtoken := mkJToken {
  hmac : bool;
  MapClaims : option claims;   (** [None]: not a [jwt.MapClaims] *)
  jValid : bool;
}.

Definition expired (c : claims) (now : Z) : bool :=
  match c !! "exp" with Some (CNumber e) => (e <=? now)%Z | _ => false end.

Class JwtLib := {
  jwt_parse : (bool → option bytes) → Z → string → option jtoken * bool;
  jwt_sign : claims → bytes → option string;
  parse_valid : ∀ keyf now s t ok, jwt_parse keyf now s = (t, ok) → ok = true →
    ∃ t', t = Some t' ∧ jValid t' = true;
  parse_keyed : ∀ keyf now s t, jwt_parse keyf now s = (Some t, true) →
    is_Some (keyf (hmac t));
  parse_not_expired : ∀ keyf now s t c, jwt_parse keyf now s = (Some t, true) →
    MapClaims t = Some c → expired c now = false;
  parse_signed : ∀ c key s keyf now, jwt_sign c key = Some s → keyf true = Some key →
    expired c now = false → jwt_parse keyf now s = (Some (mkJToken true (Some c) true), true);
  parse_returns_token : ∀ c key s keyf now, jwt_sign c key = Some s →
    ∃ v ok, jwt_parse keyf now s = (Some (mkJToken true (Some c) v), ok);
}.

(** ** A concrete library *)

#[global] Instance claim_countable : Countable claim.
Proof.
  refine (inj_countable'
    (λ c, match c with
          | CString s => inl (inl s) | CList l => inl (inr l)
          | CNumber n => inr (inl (inl n)) | CBool b => inr (inl (inr b)) | COther => inr (inr tt)
          end)
    (λ x, match x with
          | inl (inl s) => CString s | inl (inr l) => CList l
          | inr (inl (inl n)) => CNumber n | inr (inl (inr b)) => CBool b | inr (inr tt) => COther
          end) _).
  by intros [].
Defined.

Definition toy_parse (keyf : bool → option bytes) (now : Z) (s : string) : option jtoken * bool :=
  match of_text (A := claims * string) s with
  | None => (None, false)
  | Some (c, k) =>
      let ok := bool_decide (keyf true = Some (of_string k)) && negb (expired c now) in
      (Some (mkJToken true (Some c) ok), ok)
  end.

Lemma toy_parse_text keyf now c k :
  toy_parse keyf now (to_text (c, k)) =
    let ok := bool_decide (keyf true = Some (of_string k)) && negb (expired c now) in
    (Some (mkJToken true (Some c) ok), ok).
Proof. unfold toy_parse. by rewrite of_to_text. Qed.

Definition toy_jwt : JwtLib.
Proof.
  refine {| jwt_parse := toy_parse;
            jwt_sign c key := Some (to_text (c, to_string key)) |}.
  - intros keyf now s t ok. unfold toy_parse. destruct (of_text s) as [[c k]|].
    + intros [= <- <-] Hok. eexists. by split.
    + by intros [= <- <-].
  - intros keyf now s t. unfold toy_parse. destruct (of_text s) as [[c k]|]; [|done].
    intros [= <- Hok]. apply andb_prop in Hok as [Hk _]. apply bool_decide_eq_true in Hk.
    by rewrite Hk.
  - intros keyf now s t c. unfold toy_parse. destruct (of_text s) as [[c' k]|]; [|done].
    intros [= <- Hok] [= <-]. apply andb_prop in Hok as [_ H]. by apply negb_true_iff in H.
  - intros c key s keyf now [= <-] Hk He. rewrite toy_parse_text, Hk, He.
    by rewrite bool_decide_eq_true_2 by (by rewrite of_to_string).
  - intros c key s keyf now [= <-]. rewrite toy_parse_text. by eexists _, _.
Defined.

End Jwt.
