(* ===== verification/TokenExchange.v ===== *)
(** * Token exchange and introspection (internal/identity/token_exchange.go)

    RFC 8693 exchange of a subject token for a session token and RFC 7662
    introspection, on the [JwtLib] interface of [Jwt]. *)

From S2P Require Import Prelude GoStrings Jwt.
From Stdlib Require Import Ascii.
#[local] Open Scope string_scope.
#[local] Open Scope nat_scope.
#[local] Open Scope list_scope.

Module TokenExchange.
Import GoStrings Jwt.

Record ExchangeRequest := mkRequest {
  SubjectToken : string;
  SubjectTokenType : string;
  RequestedAudience : string;
  Scope_ : string;
  TenantID : string;
}.

Record ExchangeResponse := mkResponse {
  AccessToken : string;
  TokenType : string;
  ExpiresIn : Z;
  IssuedTokenType : string;
  r_Scope : string;
}.

Definition extractStringClaim (c : claims) (key : string) : string :=
  match c !! key with Some (CString s) => s | _ => "" end.

Fixpoint group_role (groups : list string) : string :=
  match groups with
  | [] => "client_user"
  | g :: groups =>
      let gl := ToLower g in
      if Contains gl "admin" then "org_admin"
      else if Contains gl "security" || Contains gl "soc" then "security_admin"
      else group_role groups
  end.

Definition mapExternalRole (externalRole : string) (groups : list string) : string :=
  let r := ToLower externalRole in
  if bool_decide (r ∈ ["super_admin"; "global_admin"; "globaladmin"]) then "super_admin"
  else if bool_decide (r ∈ ["admin"; "org_admin"; "securityadmin"]) then "org_admin"
  else if bool_decide (r ∈ ["security_admin"; "soc_analyst"]) then "security_admin"
  else if bool_decide (r ∈ ["operator"; "noc"]) then "operator"
  else if bool_decide (r ∈ ["client_user"; "user"]) then "client_user"
  else group_role groups.

Definition claim_groups (c : claims) : list string :=
  match c !! "groups" with
  | Some (CList l) => omap (λ x, x) l
  | _ => []
  end.

Definition fifteen_minutes : Z := 900.

(** Times in seconds; [jti] the random identifier. *)
Definition session_claims (now : Z) (jti userID email orgID role : string) (groups : list string)
    (audience : string) : claims :=
  let c : claims :=
    <["sub" := CString userID]> (<["email" := CString email]> (<["org_id" := CString orgID]>
    (<["role" := CString role]> (<["groups" := CList (Some <$> groups)]>
    (<["iat" := CNumber now]> (<["exp" := CNumber (now + fifteen_minutes)]>
    (<["iss" := CString "apexaegis-idp"]> (<["jti" := CString jti]> ∅)))))))) in
  if bool_decide (audience ≠ "") then <["aud" := CString audience]> c else c.

Inductive exchange_error := ErrRequired | ErrInvalidSubject | ErrClaims | ErrGenerate.

Section WithJwt.
Context `{JwtLib}.

Definition exchange_key (secret : bytes) (is_hmac : bool) : option bytes :=
  Some (if is_hmac then secret else of_string "skip-validation").

Definition generateSessionToken (secret : bytes) (now : Z) (jti userID email orgID role : string)
    (groups : list string) (audience : string) : option string :=
  jwt_sign (session_claims now jti userID email orgID role groups audience) secret.

Definition exchange_org (c : claims) (req : ExchangeRequest) : string :=
  let orgID := extractStringClaim c "org_id" in
  let orgID := if bool_decide (orgID = "") && negb (bool_decide (TenantID req = ""))
               then TenantID req else orgID in
  if bool_decide (orgID = "") then "default" else orgID.

Definition Exchange (secret : bytes) (now : Z) (jti : string) (req : ExchangeRequest)
  : result exchange_error ExchangeResponse :=
  if bool_decide (SubjectToken req = "") then Err ErrRequired
  else
    let '(token, ok) := jwt_parse (exchange_key secret) now (SubjectToken req) in
    match token with
    | None => Err ErrInvalidSubject   (** a nil token always comes with an error *)
    | Some t =>                       (** with or without an error *)
        match MapClaims t with
        | None => Err ErrClaims
        | Some c =>
            let userID := extractStringClaim c "sub" in
            let email := extractStringClaim c "email" in
            let role := extractStringClaim c "role" in
            let groups := claim_groups c in
            let orgID := exchange_org c req in
            let internalRole := mapExternalRole role groups in
            match generateSessionToken secret now jti userID email orgID internalRole groups
                    (RequestedAudience req) with
            | None => Err ErrGenerate
            | Some tok =>
                Ok (mkResponse tok "Bearer" 900 "urn:ietf:params:oauth:token-type:access_token"
                      (Scope_ req))
            end
        end
    end.

(** [None]: [{"active": false}]; otherwise the claims it reports. *)
Definition Introspect (secret : bytes) (now : Z) (s : string) : option claims :=
  let '(token, ok) := jwt_parse (λ _, Some secret) now s in
  match token with
  | Some t => if negb ok || negb (jValid t) then None else MapClaims t
  | None => None
  end.

(** ** Properties *)

Lemma session_claims_fields now jti u e o r gs aud :
  let c := session_claims now jti u e o r gs aud in
  c !! "sub" = Some (CString u) ∧ c !! "org_id" = Some (CString o) ∧ c !! "role" = Some (CString r)
  ∧ c !! "exp" = Some (CNumber (now + fifteen_minutes)).
Proof. cbv zeta. unfold session_claims. case_bool_decide; split_and!; reflexivity. Qed.

(** Token exchange accepts forged tokens.  A subject token signed with any key
    whatsoever, expired or not, is exchanged for a session token signed with the
    service's secret: the caller chooses the subject, the organization and, by the
    role claim, up to super administrator.  Introspection then reports the session
    token as active for fifteen minutes. *)
Theorem exchange_accepts_forged secret key now now' jti req c sub tok :
  jwt_sign c key = Some (SubjectToken req) → SubjectToken req ≠ "" →
  c !! "sub" = Some (CString sub) → c !! "role" = Some (CString "super_admin") →
  jwt_sign (session_claims now jti sub (extractStringClaim c "email") (exchange_org c req)
              "super_admin" (claim_groups c) (RequestedAudience req)) secret = Some tok →
  (now' < now + fifteen_minutes)%Z →
  ∃ r out, Exchange secret now jti req = Ok r ∧ AccessToken r = tok
    ∧ Introspect secret now' tok = Some out
    ∧ out !! "sub" = Some (CString sub) ∧ out !! "role" = Some (CString "super_admin").
Proof.
  intros Hforged Hne Hsub Hrole Htok Hnow.
  destruct (parse_returns_token c key (SubjectToken req) (exchange_key secret) now Hforged)
    as (v & ok & Hp).
  assert (extractStringClaim c "sub" = sub ∧ extractStringClaim c "role" = "super_admin") as [E1 E2].
  { unfold extractStringClaim. by rewrite Hsub, Hrole. }
  eexists _, (session_claims now jti sub (extractStringClaim c "email") (exchange_org c req)
              "super_admin" (claim_groups c) (RequestedAudience req)).
  split; [|split; [|split]].
  - unfold Exchange. rewrite bool_decide_eq_false_2, Hp by done. cbn [MapClaims].
    rewrite E1, E2. change (mapExternalRole "super_admin" (claim_groups c)) with "super_admin".
    unfold generateSessionToken. rewrite Htok. reflexivity.
  - reflexivity.
  - unfold Introspect. rewrite (parse_signed _ secret tok (λ _, Some secret) now' Htok); [done..|].
    unfold expired. destruct (session_claims_fields now jti sub (extractStringClaim c "email")
      (exchange_org c req) "super_admin" (claim_groups c) (RequestedAudience req)) as (_ & _ & _ & ->).
    apply Z.leb_gt. lia.
  - destruct (session_claims_fields now jti sub (extractStringClaim c "email")
      (exchange_org c req) "super_admin" (claim_groups c) (RequestedAudience req)) as (-> & _ & -> & _).
    done.
Qed.

(** Whatever key signed the subject token, a role claim of super_admin ends up in a token
    signed with the service's secret. *)
Lemma exchange_forged_claims secret key now jti req c tok :
  jwt_sign c key = Some (SubjectToken req) → SubjectToken req ≠ "" →
  c !! "role" = Some (CString "super_admin") → Exchange secret now jti req = Ok tok →
  ∃ c', jwt_sign c' secret = Some (AccessToken tok) ∧ c' !! "role" = Some (CString "super_admin")
    ∧ c' !! "exp" = Some (CNumber (now + fifteen_minutes)).
Proof.
  intros Hforged Hne Hrole.
  destruct (parse_returns_token c key (SubjectToken req) (exchange_key secret) now Hforged)
    as (v & ok & Hp).
  assert (extractStringClaim c "role" = "super_admin") as E.
  { unfold extractStringClaim. by rewrite Hrole. }
  unfold Exchange. rewrite bool_decide_eq_false_2, Hp by done. cbn [MapClaims].
  rewrite E. change (mapExternalRole "super_admin" (claim_groups c)) with "super_admin".
  unfold generateSessionToken. destruct (jwt_sign _ secret) as [s|] eqn:Hs; [|done].
  intros [= <-]. eexists. split; [exact Hs|].
  destruct (session_claims_fields now jti (extractStringClaim c "sub") (extractStringClaim c "email")
    (exchange_org c req) "super_admin" (claim_groups c) (RequestedAudience req)) as (_ & _ & ? & ?).
  done.
Qed.

(** Introspection reports only tokens the library accepted without error. *)
Lemma introspect_sound secret now s out :
  Introspect secret now s = Some out →
  ∃ t, jwt_parse (λ _, Some secret) now s = (Some t, true) ∧ jValid t = true ∧ MapClaims t = Some out.
Proof.
  unfold Introspect. destruct (jwt_parse _ now s) as [[t|] ok]; [|done].
  destruct ok, (jValid t) eqn:Hv; cbn; try done. intros Hm. by exists t.
Qed.

(** Every role the mapping yields is one of the five internal ones. *)
Lemma mapExternalRole_range r gs :
  mapExternalRole r gs ∈ ["super_admin"; "org_admin"; "security_admin"; "operator"; "client_user"].
Proof.
  unfold mapExternalRole. do 5 (destruct (bool_decide _); [by_evaluation|]).
  induction gs as [|g gs IH]; cbn [group_role]; [by_evaluation|].
  destruct (Contains _ "admin"); [by_evaluation|]. destruct (_ || _); [by_evaluation|done].
Qed.

End WithJwt.

(** ** Witness *)

#[local] Existing Instance toy_jwt.

Definition forged_claims : claims :=
  {["sub" := CString "mallory"; "role" := CString "super_admin"]}.
Definition forged_request : ExchangeRequest :=
  mkRequest (default "" (jwt_sign forged_claims (of_string "guess"))) "jwt" "" "" "acme".

Lemma toy_sign (c : claims) (key : bytes) :
  jwt_sign c key = Some (default "" (jwt_sign c key)).
Proof. reflexivity. Qed.

Lemma forged_nonempty : SubjectToken forged_request ≠ "".
Proof. unfold forged_request. cbn [SubjectToken jwt_sign toy_jwt default from_option id].
  unfold to_text. by destruct (encode _). Qed.

Definition forged_session : claims :=
  session_claims 1000 "id" "mallory" (extractStringClaim forged_claims "email")
    (exchange_org forged_claims forged_request) "super_admin" (claim_groups forged_claims)
    (RequestedAudience forged_request).

Lemma exchange_accepts_forged_witness :
  ∃ r out, Exchange (of_string "secret") 1000 "id" forged_request = Ok r
    ∧ Introspect (of_string "secret") 1500 (AccessToken r) = Some out
    ∧ out !! "role" = Some (CString "super_admin").
Proof.
  destruct (exchange_accepts_forged (of_string "secret") (of_string "guess") 1000 1500 "id"
              forged_request forged_claims "mallory"
              (default "" (jwt_sign forged_session (of_string "secret")))
              (toy_sign forged_claims (of_string "guess")) forged_nonempty)
    as (r & out & H1 & H2 & H3 & _ & H4);
    [reflexivity|reflexivity|exact (toy_sign forged_session (of_string "secret"))|reflexivity|].
  exists r, out. rewrite H2. split; [exact H1|]. split; [exact H3|exact H4].
Defined.

End TokenExchange.
