(* ===== verification/AuthStore.v ===== *)
(** * The authentication store (internal/db/auth_store.go)

    Users, login sessions and the access tokens the API middleware checks.  The
    tables are maps: [users] by primary key, [login_sessions] by the unique
    [refresh_token]; each SQL statement is its effect on them, with the constraints
    of the schema (internal/db/migrations: unique e-mail and OAuth link, role and
    status checks, sessions that cascade with their user).  Row order is arbitrary
    ([e_ro]).  [e_ok i] tells whether the i-th statement of a call succeeds, [e_clk i]
    is the i-th reading of the clock in nanoseconds.  bcrypt is the argument
    [compare], the case-insensitive pattern match of the database the argument
    [ilike]; JWT signing and parsing are the [JwtLib] interface. *)

From S2P Require Import Prelude GoStrings Jwt.
#[local] Open Scope string_scope.
#[local] Open Scope nat_scope.
#[local] Open Scope list_scope.

Module AuthStore.
Import GoStrings Jwt.

(** A row of [system_mgmt.users]. *)
Record user_row := mkRow {
  u_id : string;
  u_org_id : string;
  u_email : string;
  u_name : string;
  u_role : string;
  u_mfa_enabled : bool;
  u_status : string;
  u_oauth_provider : option string;
  u_oauth_subject : option string;
  u_password_hash : option string;
  u_last_login_at : option Z;
  u_created_at : option Z;
}.

Record AuthUser := mkUser {
  ID : string;
  OrgID : string;
  Email : string;
  Name : string;
  Role : string;
  MFAEnabled : bool;
  Status : string;
  OAuthProvider : string;
  LastLoginAt : option Z;
  CreatedAt : option Z;
}.

Record LoginResult := mkLogin {
  AccessToken : string;
  RefreshToken : string;
  ExpiresIn : Z;
  User : AuthUser;
}.

Record login_session := mkSession {
  s_user_id : string;
  s_ip : string;
  s_user_agent : string;
  s_expires_at : Z;
  s_revoked_at : option Z;
}.

Record DB := mkDB {
  users : gmap string user_row;
  login_sessions : gmap string login_session;
  organizations : list string;
}.

Record env := mkEnv {
  e_clk : nat → Z;
  e_ok : nat → bool;
  e_rand : option bytes;
  e_ro : range_order;
  e_new_id : string;
}.

Inductive auth_error :=
| ErrInvalidCredentials | ErrAuthFailed | ErrSuspended | ErrNoPassword | ErrToken | ErrSession
| ErrInvalidRefresh | ErrValidation | ErrRevoked | ErrExpired | ErrUserNotFound
| ErrNoAutoProvision | ErrNoOrg | ErrProvision | ErrCertIdentity | ErrBadToken | ErrQuery.

Definition nanos : Z := 1000000000.
Definition unix (t : Z) : Z := (t / nanos)%Z.
Definition access_ttl : Z := 15 * 60 * nanos.
Definition refresh_ttl : Z := 7 * 24 * 3600 * nanos.

Definition with_users (db : DB) (m : gmap string user_row) : DB :=
  mkDB m (login_sessions db) (organizations db).
Definition with_sessions (db : DB) (m : gmap string login_session) : DB :=
  mkDB (users db) m (organizations db).

(** The columns the login queries scan. *)
Definition scan_user (r : user_row) : AuthUser :=
  mkUser (u_id r) (u_org_id r) (u_email r) (u_name r) (u_role r) (u_mfa_enabled r) (u_status r)
    "" None None.
(** The columns of the administration queries. *)
Definition scan_full (r : user_row) : AuthUser :=
  mkUser (u_id r) (u_org_id r) (u_email r) (u_name r) (u_role r) (u_mfa_enabled r) (u_status r)
    (default "" (u_oauth_provider r)) (u_last_login_at r) (u_created_at r).

Definition set_last_login (t : Z) (r : user_row) : user_row :=
  mkRow (u_id r) (u_org_id r) (u_email r) (u_name r) (u_role r) (u_mfa_enabled r) (u_status r)
    (u_oauth_provider r) (u_oauth_subject r) (u_password_hash r) (Some t) (u_created_at r).
Definition set_oauth (p s : string) (t : Z) (r : user_row) : user_row :=
  mkRow (u_id r) (u_org_id r) (u_email r) (u_name r) (u_role r) (u_mfa_enabled r) (u_status r)
    (Some p) (Some s) (u_password_hash r) (Some t) (u_created_at r).
Definition set_profile (name role status : string) (mfa : bool) (r : user_row) : user_row :=
  mkRow (u_id r) (u_org_id r) (u_email r) name role mfa status
    (u_oauth_provider r) (u_oauth_subject r) (u_password_hash r) (u_last_login_at r) (u_created_at r).

(** [SELECT ... WHERE p LIMIT 1]: the first matching row in the database's order. *)
Definition select_user (ro : range_order) (p : user_row → bool) (m : gmap string user_row)
  : option user_row := head (List.filter p (values ro m)).

Definition by_email (email : string) (r : user_row) : bool := bool_decide (u_email r = email).
Definition by_oauth (p s : string) (r : user_row) : bool :=
  bool_decide (u_oauth_provider r = Some p) && bool_decide (u_oauth_subject r = Some s).

Definition role_check (role : string) : bool :=
  bool_decide (role ∈ ["super_admin"; "org_admin"; "security_admin"; "read_only"; "billing_admin"]).
Definition status_check (st : string) : bool :=
  bool_decide (st ∈ ["active"; "suspended"; "invited"]).

Section Store.
Context `{JwtLib}.
Context (compare : string → string → bool) (ilike : string → string → bool) (jwtSecret : bytes).

(** ** Tokens *)

Definition access_claims (now : Z) (u : AuthUser) : claims :=
  <["sub" := CString (ID u)]> (<["email" := CString (Email u)]> (<["name" := CString (Name u)]>
  (<["role" := CString (Role u)]> (<["org_id" := CString (OrgID u)]>
  (<["iat" := CNumber (unix now)]> (<["exp" := CNumber (unix (now + access_ttl))]>
  (<["iss" := CString "apexaegis-management-plane"]> ∅))))))).

Definition generateAccessToken (now : Z) (u : AuthUser) : option string :=
  jwt_sign (access_claims now u) jwtSecret.

(** The key callback rejects tokens that are not HMAC-signed. *)
Definition access_key (is_hmac : bool) : option bytes := if is_hmac then Some jwtSecret else None.

Definition ValidateAccessToken (now : Z) (tokenString : string) : result auth_error claims :=
  match jwt_parse access_key (unix now) tokenString with
  | (Some t, true) =>
      match MapClaims t with
      | Some c => if jValid t then Ok c else Err ErrBadToken
      | None => Err ErrBadToken
      end
  | _ => Err ErrBadToken
  end.

Definition agent_claims (now : Z) (orgID deviceID fp serial : string) (groups : list string)
    (joined : bool) (upn : string) : claims :=
  let c : claims :=
    <["sub" := CString deviceID]> (<["agent_id" := CString deviceID]>
    (<["device_id" := CString deviceID]> (<["device_cert_fingerprint_sha256" := CString fp]>
    (<["device_cert_serial" := CString serial]> (<["role" := CString "agent"]>
    (<["org_id" := CString orgID]> (<["iat" := CNumber (unix now)]>
    (<["exp" := CNumber (unix (now + access_ttl))]>
    (<["iss" := CString "apexaegis-management-plane"]> ∅))))))))) in
  let c := if 0 <? length groups then <["groups" := CList (Some <$> groups)]> c else c in
  let c := <["domain_joined" := CBool joined]> c in
  if bool_decide (TrimSpace upn ≠ "") then <["upn" := CString upn]> c else c.

Definition IssueAgentToken (now : Z) (orgID deviceID fp serial : string) (groups : list string)
    (joined : bool) (upn : string) : result auth_error (string * Z) :=
  let deviceID := if bool_decide (deviceID = "") then "unknown-device" else deviceID in
  if bool_decide (TrimSpace fp = "") || bool_decide (TrimSpace serial = "") then Err ErrCertIdentity
  else
    match jwt_sign (agent_claims now orgID deviceID fp serial groups joined upn) jwtSecret with
    | None => Err ErrToken
    | Some s => Ok (s, (now + access_ttl)%Z)
    end.

Definition portal_claims (now : Z) (id email name orgID : string) : claims :=
  <["sub" := CString id]> (<["email" := CString email]> (<["name" := CString name]>
  (<["role" := CString "client_user"]> (<["aud" := CString "apexaegis-user-portal"]>
  (<["org_id" := CString orgID]> (<["iat" := CNumber (unix now)]>
  (<["exp" := CNumber (unix (now + access_ttl))]>
  (<["iss" := CString "apexaegis-management-plane"]> ∅)))))))).

Definition IssuePortalToken (now : Z) (id email name orgID : string) : result auth_error (string * Z) :=
  match jwt_sign (portal_claims now id email name orgID) jwtSecret with
  | None => Err ErrToken
  | Some s => Ok (s, 900%Z)
  end.

(** ** Sessions *)

(** The INSERT fails on a used token or a missing user. *)
Definition generateRefreshToken (e : env) (i : nat) (db : DB) (userID ip ua : string)
  : option (DB * string) :=
  match e_rand e with
  | None => None
  | Some b =>
      let token := Hex.encode b in
      if e_ok e i && bool_decide (login_sessions db !! token = None)
         && bool_decide (is_Some (users db !! userID))
      then Some (with_sessions db (<[token := mkSession userID ip ua (e_clk e (S i) + refresh_ttl) None]>
                                     (login_sessions db)), token)
      else None
  end.

Definition IssueTokens (e : env) (i : nat) (db : DB) (u : AuthUser) (ip ua : string)
  : DB * result auth_error LoginResult :=
  match generateAccessToken (e_clk e i) u with
  | None => (db, Err ErrToken)
  | Some at_ =>
      match generateRefreshToken e i db (ID u) ip ua with
      | None => (db, Err ErrSession)
      | Some (db, rt) => (db, Ok (mkLogin at_ rt 900 u))
      end
  end.

Definition touch_login (e : env) (i : nat) (db : DB) (id : string) : DB :=
  if e_ok e i then with_users db (alter (set_last_login (e_clk e i)) id (users db)) else db.

Definition Authenticate (e : env) (db : DB) (email password ip ua : string)
  : DB * result auth_error LoginResult :=
  let email := ToLower (TrimSpace email) in
  let password := TrimSpace password in
  if bool_decide (email = "") || bool_decide (password = "")
     || (320 <? String.length email) || (256 <? String.length password)
  then (db, Err ErrInvalidCredentials)
  else if negb (e_ok e 0) then (db, Err ErrAuthFailed)
  else
    match select_user (e_ro e) (by_email email) (users db) with
    | None => (db, Err ErrInvalidCredentials)
    | Some r =>
        if negb (bool_decide (u_status r = "active")) then (db, Err ErrSuspended)
        else
          match u_password_hash r with
          | None => (db, Err ErrNoPassword)
          | Some h =>
              if bool_decide (h = "") then (db, Err ErrNoPassword)
              else if negb (compare h password) then (db, Err ErrInvalidCredentials)
              else IssueTokens e 2 (touch_login e 1 db (u_id r)) (scan_user r) ip ua
          end
    end.

Definition RefreshAccessToken (e : env) (db : DB) (refreshToken : string)
  : result auth_error LoginResult :=
  if negb (e_ok e 0) then Err ErrValidation
  else
    match login_sessions db !! refreshToken with
    | None => Err ErrInvalidRefresh
    | Some s =>
        if bool_decide (is_Some (s_revoked_at s)) then Err ErrRevoked
        else if (s_expires_at s <? e_clk e 0)%Z then Err ErrExpired
        else if negb (e_ok e 1) then Err ErrUserNotFound
        else
          match users db !! s_user_id s with
          | None => Err ErrUserNotFound
          | Some r =>
              let u := scan_user r in
              if negb (bool_decide (Status u = "active")) then Err ErrSuspended
              else
                match generateAccessToken (e_clk e 1) u with
                | None => Err ErrToken
                | Some at_ => Ok (mkLogin at_ refreshToken 900 u)
                end
          end
    end.

Definition revoke (t : Z) (s : login_session) : login_session :=
  match s_revoked_at s with
  | Some _ => s
  | None => mkSession (s_user_id s) (s_ip s) (s_user_agent s) (s_expires_at s) (Some t)
  end.

Definition Logout (e : env) (db : DB) (refreshToken : string) : DB * bool :=
  if e_ok e 0
  then (with_sessions db (alter (revoke (e_clk e 0)) refreshToken (login_sessions db)), true)
  else (db, false).

(** ** Users *)

Definition GetUser (e : env) (db : DB) (id : string) : result auth_error AuthUser :=
  if negb (e_ok e 0) then Err ErrQuery
  else
    match users db !! id with
    | None => Err ErrUserNotFound
    | Some r =>
        let u := scan_user r in
        Ok (mkUser (ID u) (OrgID u) (Email u) (Name u) (Role u) (MFAEnabled u) (Status u)
              "" (u_last_login_at r) None)
    end.

Definition newer (a b : user_row) : Prop :=
  (default 0 (u_created_at b) <= default 0 (u_created_at a))%Z.
#[global] Instance newer_dec a b : Decision (newer a b).
Proof. unfold newer. apply _. Defined.

Definition ListUsers (e : env) (db : DB) (search : string) : result auth_error (list AuthUser) :=
  if negb (e_ok e 0) then Err ErrQuery
  else
    let hit r := bool_decide (search = "") || ilike (u_name r) ("%" +:+ search +:+ "%")
                 || ilike (u_email r) ("%" +:+ search +:+ "%") in
    Ok (scan_full <$> merge_sort newer (List.filter hit (values (e_ro e) (users db)))).

Definition UpdateUser (e : env) (db : DB) (id name role status : string) (mfa : bool)
  : DB * result auth_error AuthUser :=
  if negb (e_ok e 0) then (db, Err ErrQuery)
  else
    match users db !! id with
    | None => (db, Err ErrUserNotFound)
    | Some r =>
        if negb (role_check role) || negb (status_check status) then (db, Err ErrQuery)
        else
          let r := set_profile name role status mfa r in
          (with_users db (<[id := r]> (users db)), Ok (scan_full r))
    end.

(** Deleting a user deletes its sessions. *)
Definition DeleteUser (e : env) (db : DB) (id : string) : DB * option auth_error :=
  if negb (e_ok e 0) then (db, Some ErrQuery)
  else
    match users db !! id with
    | None => (db, Some ErrUserNotFound)
    | Some _ =>
        (mkDB (delete id (users db))
           (filter (λ kv, s_user_id (snd kv) ≠ id) (login_sessions db)) (organizations db), None)
    end.

Definition FindOrCreateOAuthUser (e : env) (db : DB) (provider subject email name orgID : string)
    (autoProvision : bool) : DB * result auth_error (AuthUser * bool) :=
  match (if e_ok e 0 then select_user (e_ro e) (by_oauth provider subject) (users db) else None) with
  | Some r => (touch_login e 1 db (u_id r), Ok (scan_user r, false))
  | None =>
      match (if e_ok e 2 then select_user (e_ro e) (by_email email) (users db) else None) with
      | Some r =>
          let linked := if e_ok e 3 && bool_decide (select_user (e_ro e) (by_oauth provider subject)
                                                     (users db) = None)
                        then with_users db (alter (set_oauth provider subject (e_clk e 3)) (u_id r)
                                              (users db))
                        else db in
          (linked, Ok (scan_user r, false))
      | None =>
          if negb autoProvision then (db, Err ErrNoAutoProvision)
          else
            let org := if bool_decide (orgID = "")
                       then (if e_ok e 4 then default "" (head (organizations db)) else "")
                       else orgID in
            if bool_decide (org = "") then (db, Err ErrNoOrg)
            else if e_ok e 5
                    && bool_decide (select_user (e_ro e) (by_email email) (users db) = None)
                    && bool_decide (select_user (e_ro e) (by_oauth provider subject) (users db) = None)
                    && bool_decide (org ∈ organizations db)
                    && bool_decide (users db !! e_new_id e = None)
            then
              let r := mkRow (e_new_id e) org email name "read_only" false "active" (Some provider)
                         (Some subject) None (Some (e_clk e 5)) (Some (e_clk e 5)) in
              (with_users db (<[e_new_id e := r]> (users db)),
               Ok (mkUser (e_new_id e) org email name "read_only" false "" "" None None, true))
            else (db, Err ErrProvision)
      end
  end.

End Store.

(** ** The schema *)

Record schema (db : DB) : Prop := {
  sc_key : map_Forall (λ k r, u_id r = k) (users db);
  sc_checks : map_Forall (λ _ r, role_check (u_role r) = true ∧ status_check (u_status r) = true)
                (users db);
  sc_email : ∀ k1 k2 r1 r2, users db !! k1 = Some r1 → users db !! k2 = Some r2 →
    u_email r1 = u_email r2 → k1 = k2;
  sc_oauth : ∀ k1 k2 r1 r2 p s, users db !! k1 = Some r1 → users db !! k2 = Some r2 →
    by_oauth p s r1 = true → by_oauth p s r2 = true → k1 = k2;
  sc_session : map_Forall (λ _ s, is_Some (users db !! s_user_id s)) (login_sessions db);
}.

Lemma select_user_Some ro p m r :
  select_user ro p m = Some r → p r = true ∧ ∃ k, m !! k = Some r.
Proof.
  unfold select_user. intros Hh.
  assert (r ∈ List.filter p (values ro m)) as Hin.
  { destruct (List.filter p (values ro m)); [done|]. injection Hh as ->. by left. }
  apply list_elem_of_In, filter_In in Hin as [Hin Hp]. split; [done|].
  by apply list_elem_of_In, elem_of_values in Hin.
Qed.

Lemma select_user_None ro p m k r : select_user ro p m = None → m !! k = Some r → p r = false.
Proof.
  unfold select_user. intros Hh Hk. destruct (p r) eqn:Hp; [|done].
  assert (r ∈ List.filter p (values ro m)) as Hin.
  { apply list_elem_of_In, filter_In. split; [|done].
    apply list_elem_of_In, elem_of_values. by exists k. }
  destruct (List.filter p (values ro m)); [by apply elem_of_nil in Hin|done].
Qed.

(** Updating columns outside the constraints keeps the schema. *)
Record same_identity (r r' : user_row) : Prop := {
  si_id : u_id r' = u_id r;
  si_email : u_email r' = u_email r;
  si_checks : role_check (u_role r) = true → status_check (u_status r) = true →
    role_check (u_role r') = true ∧ status_check (u_status r') = true;
}.

Lemma schema_alter db k f :
  schema db → (∀ r, users db !! k = Some r → same_identity r (f r)) →
  (∀ r k' r' p s, users db !! k = Some r → users db !! k' = Some r' → k' ≠ k →
     by_oauth p s (f r) = true → by_oauth p s r' = true → False) →
  schema (with_users db (alter f k (users db))).
Proof.
  intros [Hk Hc He Ho Hs] Hf Hlink.
  assert (∀ j r, alter f k (users db) !! j = Some r →
    ∃ r0, users db !! j = Some r0 ∧ (j = k ∧ r = f r0 ∨ j ≠ k ∧ r = r0)) as Hget.
  { intros j r [(-> & r0 & H0 & ->)|[Hne Hj]]%lookup_alter_Some; [exists r0|exists r]; auto. }
  assert (∀ j r, alter f k (users db) !! j = Some r →
    ∃ r0, users db !! j = Some r0 ∧ u_email r = u_email r0) as Hmail.
  { intros j r (r0 & H0 & [[-> ->]|[_ ->]])%Hget; exists r0; [|done]. by destruct (Hf _ H0). }
  split; cbn.
  - intros j r (r0 & H0 & [[-> ->]|[_ ->]])%Hget; pose proof (Hk _ _ H0) as Hid; [|done].
    destruct (Hf _ H0) as [Hi _ _]. by rewrite Hi.
  - intros j r (r0 & H0 & [[-> ->]|[_ ->]])%Hget; destruct (Hc _ _ H0); [|done].
    by destruct (Hf _ H0) as [_ _ Hch]; apply Hch.
  - intros k1 k2 r1 r2 (q1 & H1 & E1)%Hmail (q2 & H2 & E2)%Hmail Heq.
    eapply He; [done..|congruence].
  - intros k1 k2 r1 r2 p s (q1 & H1 & [[-> ->]|[N1 ->]])%Hget (q2 & H2 & [[-> ->]|[N2 ->]])%Hget O1 O2.
    + done.
    + exfalso. by eapply (Hlink q1 k2 q2).
    + exfalso. by eapply (Hlink q2 k1 q1).
    + by eapply Ho.
  - intros t s Ht. destruct (Hs _ _ Ht) as [r Hr]. apply lookup_alter_is_Some. by exists r.
Qed.

(** An update that keeps identity and link. *)
Lemma schema_alter_same db k f :
  schema db → (∀ r, users db !! k = Some r → same_identity r (f r)) →
  (∀ r p s, by_oauth p s (f r) = by_oauth p s r) →
  schema (with_users db (alter f k (users db))).
Proof.
  intros Hw Hf Hl. apply schema_alter; [done..|].
  intros r k' r' p s Hr Hr' Hne O1 O2. rewrite Hl in O1.
  apply Hne. by eapply (sc_oauth db Hw).
Qed.

Lemma touch_login_schema e i db id : schema db → schema (touch_login e i db id).
Proof.
  intros Hw. unfold touch_login. destruct (e_ok e i); [|done].
  by apply schema_alter_same.
Qed.

Lemma with_sessions_schema db m :
  schema db → map_Forall (λ _ s, is_Some (users db !! s_user_id s)) m → schema (with_sessions db m).
Proof. intros [Hk Hc He Ho _] Hm. by split. Qed.

Section Properties.
Context `{JwtLib}.
Context (compare : string → string → bool) (ilike : string → string → bool) (jwtSecret : bytes).

Abbreviation Authenticate := (Authenticate compare jwtSecret).
Abbreviation IssueTokens := (IssueTokens jwtSecret).
Abbreviation RefreshAccessToken := (RefreshAccessToken jwtSecret).
Abbreviation ValidateAccessToken := (ValidateAccessToken jwtSecret).

Lemma IssueTokens_Ok e i db u ip ua db' r :
  IssueTokens e i db u ip ua = (db', Ok r) →
  ∃ b, e_rand e = Some b ∧ RefreshToken r = Hex.encode b ∧ User r = u
    ∧ login_sessions db !! RefreshToken r = None ∧ is_Some (users db !! ID u)
    ∧ jwt_sign (access_claims (e_clk e i) u) jwtSecret = Some (AccessToken r)
    ∧ db' = with_sessions db (<[RefreshToken r :=
              mkSession (ID u) ip ua (e_clk e (S i) + refresh_ttl) None]> (login_sessions db)).
Proof.
  unfold IssueTokens, generateAccessToken, generateRefreshToken.
  destruct (jwt_sign _ _) as [at_|] eqn:Hs; [|done]. destruct (e_rand e) as [b|]; [|done].
  destruct (e_ok e i); [|done]. cbn. case_bool_decide as Hn; [|done].
  case_bool_decide as Hu; [|done]. cbn. intros [= <- <-]. exists b. by split_and!.
Qed.

Lemma IssueTokens_schema e i db u ip ua :
  schema db → schema (fst (IssueTokens e i db u ip ua)).
Proof.
  intros Hw. destruct (IssueTokens e i db u ip ua) as [db' [r|err]] eqn:E.
  - apply IssueTokens_Ok in E as (b & _ & _ & _ & _ & Hu & _ & ->). cbn [fst].
    apply with_sessions_schema; [done|]. apply map_Forall_insert_2; [done|]. apply (sc_session _ Hw).
  - revert E. unfold IssueTokens, AuthStore.IssueTokens, generateRefreshToken.
    destruct (generateAccessToken _ _) ; [|by intros [= <- _]].
    destruct (e_rand e); [|by intros [= <- _]]. by destruct (_ && _); intros [= <- _].
Qed.

(** Every operation that writes. *)
Inductive step (fresh : string → Prop) : DB → DB → Prop :=
| st_auth e db email pw ip ua : (∀ b, e_rand e = Some b → fresh (Hex.encode b)) →
    step fresh db (fst (Authenticate e db email pw ip ua))
| st_issue e i db u ip ua : (∀ b, e_rand e = Some b → fresh (Hex.encode b)) →
    step fresh db (fst (IssueTokens e i db u ip ua))
| st_logout e db rt : step fresh db (fst (Logout e db rt))
| st_update e db id name role status mfa :
    step fresh db (fst (UpdateUser e db id name role status mfa))
| st_delete e db id : step fresh db (fst (DeleteUser e db id))
| st_oauth e db p s email name org auto :
    step fresh db (fst (FindOrCreateOAuthUser e db p s email name org auto)).

Lemma Authenticate_cases (P : DB → Prop) e db email pw ip ua :
  P db →
  (∀ r, select_user (e_ro e) (by_email (ToLower (TrimSpace email))) (users db) = Some r →
     P (fst (IssueTokens e 2 (touch_login e 1 db (u_id r)) (scan_user r) ip ua))) →
  P (fst (Authenticate e db email pw ip ua)).
Proof.
  intros Hd Hi. unfold Authenticate, AuthStore.Authenticate.
  destruct (_ || _); [done|]. destruct (e_ok e 0); [|done]. cbn [negb].
  destruct (select_user _ _ _) as [r|]; [|done].
  destruct (bool_decide (u_status r = _)); [|done]. destruct (u_password_hash r) as [h|]; [|done].
  destruct (bool_decide (h = "")); [done|]. destruct (compare h _); [|done]. cbn. by apply Hi.
Qed.

Lemma UpdateUser_schema e db id name role status mfa :
  schema db → schema (fst (UpdateUser e db id name role status mfa)).
Proof.
  intros Hw. unfold UpdateUser. destruct (e_ok e 0); [|done]. cbn [negb].
  destruct (users db !! id) as [r|] eqn:Hr; [|done].
  destruct (role_check role) eqn:H1; [|done]. destruct (status_check status) eqn:H2; [|done]. cbn.
  replace (<[id := set_profile name role status mfa r]> (users db))
    with (alter (set_profile name role status mfa) id (users db)).
  - by apply schema_alter_same.
  - rewrite <- (insert_id (users db) id r) at 1 by done. by rewrite alter_insert_eq.
Qed.

Lemma DeleteUser_schema e db id : schema db → schema (fst (DeleteUser e db id)).
Proof.
  intros [Hk Hc He Ho Hs]. unfold DeleteUser. destruct (e_ok e 0); [|by split]. cbn [negb].
  destruct (users db !! id); [|by split]. split; cbn.
  - by apply map_Forall_delete.
  - by apply map_Forall_delete.
  - intros k1 k2 r1 r2 [_ H1]%lookup_delete_Some [_ H2]%lookup_delete_Some. by apply He.
  - intros k1 k2 r1 r2 p s [_ H1]%lookup_delete_Some [_ H2]%lookup_delete_Some. by apply Ho.
  - intros t s [Ht Hne]%map_lookup_filter_Some. cbn in Hne.
    rewrite lookup_delete_ne by done. by apply (Hs t).
Qed.

Lemma oauth_schema e db p s email name org auto :
  schema db → schema (fst (FindOrCreateOAuthUser e db p s email name org auto)).
Proof.
  intros Hw. unfold FindOrCreateOAuthUser.
  destruct (if e_ok e 0 then _ else None) as [r|]; [by apply touch_login_schema|].
  destruct (if e_ok e 2 then _ else None) as [r|].
  - cbn [fst]. destruct (e_ok e 3); [|done]. cbn [andb]. case_bool_decide as Hn; [|done].
    apply schema_alter; [done|done|].
    intros r0 k' r' p' s' Hr0 Hr' Hne O1 O2.
    assert (p' = p ∧ s' = s) as [-> ->].
    { unfold by_oauth in O1. cbn in O1. apply andb_prop in O1 as [O1 O3].
      apply bool_decide_eq_true in O1, O3. by simplify_eq. }
    rewrite (select_user_None _ _ _ _ _ Hn Hr') in O2. done.
  - destruct auto; [|done]. cbn [negb]. set (o := if bool_decide (org = "") then _ else _).
    destruct (bool_decide (o = "")); [done|]. destruct (_ && _) eqn:Hg; [|done].
    apply andb_prop in Hg as [Hg Hid%bool_decide_eq_true]. apply andb_prop in Hg as [Hg Horg].
    apply andb_prop in Hg as [Hg Hoa%bool_decide_eq_true].
    apply andb_prop in Hg as [_ Hem%bool_decide_eq_true]. cbn [fst].
    destruct Hw as [Hk Hc He Ho Hs]. split; cbn.
    + by apply map_Forall_insert_2.
    + by apply map_Forall_insert_2.
    + intros k1 k2 r1 r2 [[<- <-]|[Hn1 H1]]%lookup_insert_Some [[<- <-]|[Hn2 H2]]%lookup_insert_Some Heq;
        [done|..|by eapply He]; cbn in Heq.
      * pose proof (select_user_None _ _ _ _ _ Hem H2) as X. unfold by_email in X.
        by apply bool_decide_eq_false in X.
      * pose proof (select_user_None _ _ _ _ _ Hem H1) as X. unfold by_email in X.
        by apply bool_decide_eq_false in X.
    + assert (∀ p' s', by_oauth p' s' (mkRow (e_new_id e) o email name "read_only" false "active"
        (Some p) (Some s) None (Some (e_clk e 5)) (Some (e_clk e 5))) = true → p' = p ∧ s' = s) as Hps.
      { intros p' s' [A B]%andb_prop. apply bool_decide_eq_true in A, B. by simplify_eq/=. }
      intros k1 k2 r1 r2 p' s' [[<- <-]|[Hn1 H1]]%lookup_insert_Some [[<- <-]|[Hn2 H2]]%lookup_insert_Some O1 O2;
        [done|..|by eapply Ho].
      * apply Hps in O1 as [-> ->]. by rewrite (select_user_None _ _ _ _ _ Hoa H2) in O2.
      * apply Hps in O2 as [-> ->]. by rewrite (select_user_None _ _ _ _ _ Hoa H1) in O1.
    + intros t x Ht. destruct (Hs _ _ Ht) as [r Hr]. destruct (decide (s_user_id x = e_new_id e)) as [E|E].
      * rewrite E, lookup_insert_eq. by eexists.
      * rewrite lookup_insert_ne by done. by exists r.
Qed.

Lemma auth_step_schema fresh db db' : schema db → step fresh db db' → schema db'.
Proof.
  intros Hw Hst. revert Hw.
  destruct Hst as [e d email pw ip ua _|e i d u ip ua _|e d rt|e d id n r st m|e d id|e d p s em n o a];
    intros Hw.
  - apply (Authenticate_cases schema); [done|]. intros r _. by apply IssueTokens_schema, touch_login_schema.
  - by apply IssueTokens_schema.
  - unfold Logout. destruct (e_ok e 0); [|done]. apply with_sessions_schema; [done|].
    intros t x Hx. apply lookup_alter_Some in Hx as [(-> & x0 & H0 & ->)|[_ Hx]].
    + replace (s_user_id (revoke (e_clk e 0) x0)) with (s_user_id x0) by (by unfold revoke; destruct (s_revoked_at x0)).
      by apply (sc_session _ Hw t).
    + by apply (sc_session _ Hw t).
  - by apply UpdateUser_schema.
  - by apply DeleteUser_schema.
  - by apply oauth_schema.
Qed.

(** The user tables keep their schema.  Whatever logins, token grants, logouts,
    account updates, deletions and single-sign-on provisionings happen, with any
    statement failing at any point, rows stay under their key, roles and statuses stay
    in their domains, e-mail addresses and OAuth links stay unique, and every session
    belongs to an existing user. *)
Theorem auth_schema_invariant db db' : schema db → rtc (step (λ _, True)) db db' → schema db'.
Proof.
  intros Hw Hr. induction Hr as [|x y z Hxy _ IH]; [done|]. apply IH. by eapply auth_step_schema.
Qed.

End Properties.

Section Sessions.
Context `{JwtLib}.
Context (compare : string → string → bool) (jwtSecret : bytes).

Abbreviation Authenticate := (Authenticate compare jwtSecret).
Abbreviation RefreshAccessToken := (RefreshAccessToken jwtSecret).
Abbreviation ValidateAccessToken := (ValidateAccessToken jwtSecret).
Abbreviation step := (step compare jwtSecret).

(** A refresh token that no longer works: revoked or gone. *)
Definition dead (rt : string) (db : DB) : Prop :=
  ∀ s, login_sessions db !! rt = Some s → is_Some (s_revoked_at s).

Lemma dead_refresh e rt db : dead rt db → ∃ err, RefreshAccessToken e db rt = Err err.
Proof.
  intros Hd. unfold RefreshAccessToken, AuthStore.RefreshAccessToken. destruct (e_ok e 0); [|by eexists].
  cbn [negb]. destruct (login_sessions db !! rt) as [s|] eqn:E; [|by eexists].
  rewrite bool_decide_eq_true_2 by (by apply Hd). by eexists.
Qed.

Lemma IssueTokens_dead e i db u ip ua rt :
  (∀ b, e_rand e = Some b → Hex.encode b ≠ rt) → dead rt db →
  dead rt (fst (IssueTokens jwtSecret e i db u ip ua)).
Proof.
  intros Hf Hd. destruct (IssueTokens jwtSecret e i db u ip ua) as [db' [r|err]] eqn:E.
  - apply IssueTokens_Ok in E as (b & Hb & Hr & _ & _ & _ & _ & ->). intros s. cbn.
    rewrite Hr, lookup_insert_ne by auto. apply Hd.
  - revert E. unfold IssueTokens, generateRefreshToken.
    destruct (generateAccessToken _ _) ; [|by intros [= <- _]].
    destruct (e_rand e); [|by intros [= <- _]]. by destruct (_ && _); intros [= <- _].
Qed.

Lemma touch_login_sessions e i db id : login_sessions (touch_login e i db id) = login_sessions db.
Proof. unfold touch_login. by destruct (e_ok e i). Qed.

Lemma step_dead rt db db' : step (λ t, t ≠ rt) db db' → dead rt db → dead rt db'.
Proof.
  destruct 1 as [e d email pw ip ua Hf|e i d u ip ua Hf|e d rt'|e d id n r st m|e d id|e d p s em n o a];
    intros Hd.
  - apply (Authenticate_cases compare jwtSecret (dead rt)); [done|]. intros r _.
    apply IssueTokens_dead; [done|]. unfold dead. by rewrite touch_login_sessions.
  - by apply IssueTokens_dead.
  - unfold Logout. destruct (e_ok e 0); [|done]. intros x. cbn.
    intros [(-> & x0 & H0 & ->)|[_ Hx]]%lookup_alter_Some; [|by apply Hd].
    apply Hd in H0 as [t Ht]. unfold revoke. rewrite Ht. rewrite Ht. by eexists.
  - unfold UpdateUser. destruct (e_ok e 0); [|done]. cbn. destruct (users d !! id); [|done].
    by destruct (_ || _).
  - unfold DeleteUser. destruct (e_ok e 0); [|done]. cbn. destruct (users d !! id); [|done].
    intros x [Hx _]%map_lookup_filter_Some. by apply Hd.
  - unfold FindOrCreateOAuthUser. destruct (if e_ok e 0 then _ else None).
    { unfold dead. cbn [fst]. by rewrite touch_login_sessions. }
    destruct (if e_ok e 2 then _ else None); [by destruct (_ && _)|]. destruct a; [|done]. cbn [negb].
    destruct (bool_decide _); [done|]. by destruct (_ && _).
Qed.

(** Logging out is final.  After a successful logout the refresh token is refused
    for ever, in every interleaving of logins, grants, updates, deletions and
    provisionings that do not draw the same random token again. *)
Theorem logout_final e db rt db1 db2 :
  Logout e db rt = (db1, true) → rtc (step (λ t, t ≠ rt)) db1 db2 →
  ∀ e', ∃ err, RefreshAccessToken e' db2 rt = Err err.
Proof.
  intros Hl Hr e'. apply dead_refresh. assert (dead rt db1) as Hd.
  { revert Hl. unfold Logout. destruct (e_ok e 0); [|done]. intros [= <-] x. cbn.
    rewrite lookup_alter_eq. intros (x0 & _ & ->)%fmap_Some. unfold revoke.
    destruct (s_revoked_at x0) eqn:E; [by rewrite E|by eexists]. }
  clear Hl. induction Hr as [|x y z Hxy _ IH]; [done|]. apply IH. by eapply step_dead.
Qed.

Lemma access_claims_expired t now u :
  (unix t < unix (now + access_ttl))%Z → expired (access_claims now u) (unix t) = false.
Proof.
  intros Hu. unfold expired.
  replace (access_claims now u !! "exp") with (Some (CNumber (unix (now + access_ttl)))) by reflexivity.
  by apply Z.leb_gt.
Qed.

Lemma validate_signed t c s :
  jwt_sign c jwtSecret = Some s → expired c (unix t) = false → ValidateAccessToken t s = Ok c.
Proof.
  intros Hs He. unfold ValidateAccessToken, AuthStore.ValidateAccessToken.
  by rewrite (parse_signed c jwtSecret s (access_key jwtSecret) (unix t) Hs eq_refl He).
Qed.

(** Who may log in: the row of the normalized address, active, with a password that
    matches. *)
Definition may_login (db : DB) (email password : string) (r : user_row) : Prop :=
  users db !! u_id r = Some r ∧ u_email r = ToLower (TrimSpace email)
  ∧ u_email r ≠ "" ∧ TrimSpace password ≠ ""
  ∧ String.length (u_email r) ≤ 320 ∧ String.length (TrimSpace password) ≤ 256
  ∧ u_status r = "active"
  ∧ ∃ h, u_password_hash r = Some h ∧ h ≠ "" ∧ compare h (TrimSpace password) = true.

Lemma authenticate_sound e db email pw ip ua db' l :
  schema db → Authenticate e db email pw ip ua = (db', Ok l) →
  ∃ r, may_login db email pw r
    ∧ IssueTokens jwtSecret e 2 (touch_login e 1 db (u_id r)) (scan_user r) ip ua = (db', Ok l).
Proof.
  intros Hw. unfold Authenticate, AuthStore.Authenticate.
  destruct (_ || _) eqn:Hg; [done|]. destruct (e_ok e 0); [|done]. cbn [negb].
  apply orb_false_elim in Hg as [Hg H4%Nat.ltb_ge]. apply orb_false_elim in Hg as [Hg H3%Nat.ltb_ge].
  apply orb_false_elim in Hg as [H1%bool_decide_eq_false H2%bool_decide_eq_false].
  destruct (select_user _ _ _) as [r|] eqn:Hsel; [|done].
  apply select_user_Some in Hsel as [Hem%bool_decide_eq_true [k Hk]].
  pose proof (sc_key _ Hw _ _ Hk) as Hid. cbn in Hid. subst k.
  case_bool_decide as Hst; [|done]. destruct (u_password_hash r) as [h|] eqn:Hh; [|done].
  case_bool_decide as Hh0; [done|]. destruct (compare h (TrimSpace pw)) eqn:Hc; [|done]. cbn.
  intros Hi. exists r. split; [|done]. unfold may_login. rewrite Hem. split_and!; try done. by exists h.
Qed.

Lemma authenticate_complete e db email pw ip ua r :
  schema db → e_ok e 0 = true → may_login db email pw r →
  Authenticate e db email pw ip ua
  = IssueTokens jwtSecret e 2 (touch_login e 1 db (u_id r)) (scan_user r) ip ua.
Proof.
  intros Hw Hok (Hr & Hem & H1 & H2 & H3 & H4 & Hst & h & Hh & Hh0 & Hc).
  unfold Authenticate, AuthStore.Authenticate. rewrite <- Hem, Hok.
  rewrite !bool_decide_eq_false_2 by done. cbn [orb negb].
  rewrite (proj2 (Nat.ltb_ge _ _)) by done. rewrite (proj2 (Nat.ltb_ge _ _)) by done. cbn [orb].
  destruct (select_user _ _ _) as [r'|] eqn:Hsel.
  - apply select_user_Some in Hsel as [Hem'%bool_decide_eq_true [k Hk]].
    pose proof (sc_email _ Hw _ _ _ _ Hr Hk (eq_sym Hem')) as <-. simplify_eq.
    rewrite bool_decide_eq_true_2 by done. cbn [negb]. rewrite Hh.
    by rewrite bool_decide_eq_false_2, Hc by done.
  - pose proof (select_user_None _ _ _ _ _ Hsel Hr) as X.
    by apply bool_decide_eq_false in X.
Qed.

(** A login works exactly for an active account with a matching password, and what
    it returns works: the access token validates for fifteen minutes with the account's
    identity, organization and role, and the refresh token renews it for seven days as
    long as the account is active.  Completeness assumes that the statements succeed,
    the drawn token is unused and signing works. *)
Theorem login_exact e db email pw ip ua :
  schema db →
  (∀ db' l, Authenticate e db email pw ip ua = (db', Ok l) →
     ∃ r, may_login db email pw r ∧ User l = scan_user r
       ∧ (∀ t, (unix t < unix (e_clk e 2 + access_ttl))%Z →
            ValidateAccessToken t (AccessToken l) = Ok (access_claims (e_clk e 2) (scan_user r)))
       ∧ (∀ e', e_ok e' 0 = true → e_ok e' 1 = true → (e_clk e' 0%nat ≤ e_clk e 3%nat + refresh_ttl)%Z →
            is_Some (generateAccessToken jwtSecret (e_clk e' 1) (scan_user r)) →
            ∃ l', RefreshAccessToken e' db' (RefreshToken l) = Ok l' ∧ User l' = scan_user r))
  ∧ (∀ r b, may_login db email pw r → (∀ i, e_ok e i = true) → e_rand e = Some b →
       login_sessions db !! Hex.encode b = None →
       is_Some (generateAccessToken jwtSecret (e_clk e 2) (scan_user r)) →
       ∃ db' l, Authenticate e db email pw ip ua = (db', Ok l)).
Proof.
  intros Hw. split.
  - intros db' l (r & Hm & Hi)%authenticate_sound; [|done].
    apply IssueTokens_Ok in Hi as (b & _ & _ & Hu & _ & _ & Hs & ->).
    exists r. split_and!; [done..| |].
    + intros t Ht. by apply validate_signed, access_claims_expired.
    + intros e' O0 O1 Ht [at_ Hat]. destruct Hm as (Hr & _ & _ & _ & _ & _ & Hst & _).
      unfold RefreshAccessToken, AuthStore.RefreshAccessToken. rewrite O0. cbn [negb login_sessions with_sessions].
      rewrite lookup_insert_eq. cbn [s_revoked_at s_expires_at s_user_id].
      rewrite bool_decide_eq_false_2 by (by intros [? ?]). rewrite (proj2 (Z.ltb_ge _ _)) by done.
      rewrite O1. cbn [negb users with_sessions ID scan_user].
      assert (∃ r', users (touch_login e 1 db (u_id r)) !! u_id r = Some r' ∧ scan_user r' = scan_user r)
        as (r' & -> & ->).
      { unfold touch_login. destruct (e_ok e 1); cbn; [|by exists r].
        rewrite lookup_alter_eq, Hr. by eexists. }
      cbn [Status scan_user]. rewrite bool_decide_eq_true_2 by done. cbn [negb]. rewrite Hat. by eexists.
  - intros r b Hm Hok Hb Hfree [at_ Hat]. rewrite (authenticate_complete _ _ _ _ _ _ r) by auto.
    unfold IssueTokens. rewrite Hat. unfold generateRefreshToken. rewrite Hb, Hok, touch_login_sessions.
    rewrite bool_decide_eq_true_2 by done. cbn [andb].
    destruct Hm as (Hr & _). rewrite bool_decide_eq_true_2; [by eexists _, _|].
    unfold touch_login. rewrite Hok. cbn. apply lookup_alter_is_Some. by exists r.
Qed.

End Sessions.

(** ** Witnesses *)

Section Witness.
#[local] Existing Instance toy_jwt.

Definition w_compare (h p : string) : bool := bool_decide (h = "hash:" +:+ p).
Definition w_secret : bytes := of_string "0123456789abcdef0123456789abcdef".
Definition w_row : user_row :=
  mkRow "u1" "org1" "ann@example.com" "Ann" "org_admin" false "active" None None
    (Some "hash:pw") None (Some 0%Z).
Definition w_db : DB := mkDB {["u1" := w_row]} ∅ ["org1"].
Definition w_env : env := mkEnv (λ i, (1000 * nanos + Z.of_nat i)%Z) (λ _, true) (Some [x01; x02])
  canonical_order "u2".
Definition w_env' : env := mkEnv (λ i, (2000 * nanos + Z.of_nat i)%Z) (λ _, true) (Some [x03; x04])
  canonical_order "u3".

Lemma w_schema : schema w_db.
Proof.
  assert (∀ k r, users w_db !! k = Some r → k = "u1" ∧ r = w_row) as Hg.
  { intros k r. cbn. by intros [-> ->]%lookup_singleton_Some. }
  split.
  - by intros k r [-> ->]%Hg.
  - by intros k r [-> ->]%Hg.
  - by intros k1 k2 r1 r2 [-> _]%Hg [-> _]%Hg.
  - by intros k1 k2 r1 r2 p s [-> _]%Hg [-> _]%Hg.
  - apply map_Forall_empty.
Qed.

Definition w_logged_in : DB := fst (Authenticate w_compare w_secret w_env w_db " Ann@Example.com" "pw" "" "").

Lemma w_may_login : may_login w_compare w_db " Ann@Example.com" "pw" w_row.
Proof. split_and!; try by_evaluation; try done. by exists "hash:pw". Qed.

Lemma auth_schema_invariant_witness : schema (fst (DeleteUser w_env' w_logged_in "u1")).
Proof.
  apply (auth_schema_invariant w_compare w_secret w_db); [exact w_schema|].
  eapply rtc_l; [apply (st_auth w_compare w_secret (λ _, True) w_env w_db " Ann@Example.com" "pw" "" ""); done|].
  eapply rtc_l; [apply st_delete|apply rtc_refl].
Defined.

Lemma logout_final_witness :
  ∃ err, RefreshAccessToken w_secret w_env'
           (fst (Authenticate w_compare w_secret w_env' (fst (Logout w_env w_logged_in "0102"))
                   "ann@example.com" "pw" "" "")) "0102" = Err err.
Proof.
  apply (logout_final w_compare w_secret w_env w_logged_in "0102" (fst (Logout w_env w_logged_in "0102")));
    [reflexivity|].
  eapply rtc_l; [|apply rtc_refl]. apply st_auth. intros b [= <-]. by_evaluation.
Defined.

Lemma login_exact_witness :
  ∃ db' l, Authenticate w_compare w_secret w_env w_db " Ann@Example.com" "pw" "" "" = (db', Ok l)
    ∧ ValidateAccessToken w_secret (1500 * nanos) (AccessToken l)
      = Ok (access_claims (e_clk w_env 2) (scan_user w_row)).
Proof.
  destruct (login_exact w_compare w_secret w_env w_db " Ann@Example.com" "pw" "" "" w_schema) as [Hs Hc].
  destruct (Hc w_row [x01; x02]) as (db' & l & E);
    [exact w_may_login|done|done|reflexivity|by eexists|].
  exists db', l. split; [exact E|].
  destruct (Hs db' l E) as (r & Hm & _ & Hv & _).
  replace w_row with r; [apply Hv; by_evaluation|].
  destruct Hm as (Hr & _). cbn in Hr. apply lookup_singleton_Some in Hr as [_ <-]. done.
Defined.

End Witness.

End AuthStore.
