(* ===== verification/Access.v ===== *)
(** * The API middleware (internal/api/middleware/auth.go, errors.go)

    Authentication and authorization in front of every API handler.  A middleware
    reads the request, may set context keys and response headers, and either passes
    the request on ([Next]) or answers it ([Abort]); [run] is a chain of them, as gin
    runs the handlers of a route until one aborts.  [header] is [c.GetHeader]; a
    context key that was never set reads as the empty string ([GetString]).

    What a middleware asks another component is an argument: the access token check
    ([AuthStore.ValidateAccessToken]), the API key check ([Registry.ValidateAPIKey]),
    the device and SCIM token checks of the database stores, PEM and X.509 parsing
    ([parse_leaf]), the environment ([getenv]).  An argument of type [option] is an
    interface value that may be nil. *)

From S2P Require Import Prelude GoStrings Sha256 Jwt.
From Stdlib Require Import Ascii.
#[local] Open Scope string_scope.
#[local] Open Scope nat_scope.
#[local] Open Scope list_scope.

Module Access.
Import GoStrings Jwt.

Record peer_cert := mkPeer {
  c_subject : string;      (** [Subject.String()] *)
  c_cn : string;
  c_serial : string;
  c_raw : bytes;
}.

Record request := mkReq {
  Method : string;
  header : string → string;
  peers : list peer_cert;  (** empty also when the connection is not TLS *)
}.

Record context := mkCtx {
  keys : gmap string string;
  out : gmap string string;
}.

Inductive outcome :=
| Next (c : context)
| Abort (status : Z) (msg : string) (c : context).

Definition middleware := request → context → outcome.

Definition new_context : context := mkCtx ∅ ∅.
Definition GetString (c : context) (k : string) : string := default "" (keys c !! k).
Definition Set_ (k v : string) (c : context) : context := mkCtx (<[k := v]> (keys c)) (out c).
Definition Header (k v : string) (c : context) : context := mkCtx (keys c) (<[k := v]> (out c)).

Fixpoint run (ms : list middleware) (req : request) (c : context) : outcome :=
  match ms with
  | [] => Next c
  | m :: ms =>
      match m req c with
      | Next c => run ms req c
      | a => a
      end
  end.

(** ** errors.go *)

Definition SafeMessage (status : Z) : string :=
  if (status =? 400)%Z then "The request was invalid. Please check your input and try again."
  else if (status =? 401)%Z then "Authentication required. Please provide valid credentials."
  else if (status =? 403)%Z then "You do not have permission to perform this action."
  else if (status =? 404)%Z then "The requested resource was not found."
  else if (status =? 409)%Z then "The request conflicts with the current state of the resource."
  else if (status =? 429)%Z then "Too many requests. Please try again later."
  else if (status =? 503)%Z then "The service is temporarily unavailable. Please try again later."
  else "An unexpected error occurred. Please try again later.".

Definition AbortWithSafeError (c : context) (status : Z) : outcome :=
  Abort status (SafeMessage status) c.

(** ** Request identifier, CORS, headers *)

Definition RequestID (rnd : bytes) : middleware := λ req c,
  let id := header req "X-Request-ID" in
  let id := if bool_decide (id = "") then Hex.encode rnd else id in
  Next (Header "X-Request-ID" id (Set_ "request_id" id c)).

Fixpoint drop_slash (l : list ascii) : list ascii :=
  match l with
  | c :: l' => if Ascii.eqb c "/" then drop_slash l' else l
  | [] => []
  end.
(** [strings.TrimRight(s, "/")]. *)
Definition TrimRightSlash (s : string) : string :=
  String.string_of_list_ascii (reverse (drop_slash (reverse (String.list_ascii_of_string s)))).

Definition allowedWebOrigins (getenv : string → string) : gset string :=
  let origins : gset string :=
    list_to_set ["https://www.apexaegis.app"; "https://apexaegis.app";
                 "https://storefront.apexaegis.app"; "https://store.apexaegis.app"] in
  let extra := getenv "WEB_UI_ALLOWED_ORIGINS" in
  let origins :=
    if bool_decide (extra ≠ "") then
      foldl (λ os o, let o := TrimRightSlash (TrimSpace o) in
                     if bool_decide (o ≠ "") then {[o]} ∪ os else os) origins (Split "," extra)
    else origins in
  if bool_decide (getenv "DEPLOY_MODE" ≠ "cloud") then
    list_to_set ["http://localhost:3000"; "http://127.0.0.1:3000"; "http://localhost:3001";
                 "http://127.0.0.1:3001"; "http://localhost:3100"; "http://127.0.0.1:3100"] ∪ origins
  else origins.

Definition CORS (getenv : string → string) : middleware := λ req c,
  let origin := header req "Origin" in
  let cors_headers c :=
    Header "Access-Control-Max-Age" "86400"
      (Header "Access-Control-Allow-Headers"
         "Authorization, Content-Type, X-Gateway-Key, X-Request-ID, X-ApexAegis-Tenant-ID, X-Tenant-ID, X-Scope-Tenant-ID"
         (Header "Access-Control-Allow-Methods" "GET, POST, PUT, DELETE, PATCH, OPTIONS" c)) in
  let rest c :=
    let c := cors_headers c in
    if bool_decide (Method req = "OPTIONS") then Abort 204 "" c else Next c in
  if bool_decide (origin ≠ "") then
    if negb (bool_decide (origin ∈ allowedWebOrigins getenv)) then Abort 403 "" c
    else rest (Header "Access-Control-Allow-Credentials" "false"
                 (Header "Access-Control-Allow-Origin" origin c))
  else rest c.

Definition SecurityHeaders : middleware := λ _ c,
  Next (Header "Content-Security-Policy" "default-src 'none'; frame-ancestors 'none'"
          (Header "Referrer-Policy" "strict-origin-when-cross-origin"
             (Header "X-Frame-Options" "DENY"
                (Header "X-Content-Type-Options" "nosniff" c)))).

(** ** Percent decoding: [url.QueryUnescape] ([+] is a space) and [url.PathUnescape] *)

Fixpoint unescape (query : bool) (s : string) : option string :=
  match s with
  | EmptyString => Some EmptyString
  | String c rest =>
      if Ascii.eqb c "%" then
        match rest with
        | String p (String q rest) =>
            a ← Hex.value p; b ← Hex.value q; r ← unescape query rest;
            Some (String (ascii_of_N (Z.to_N (16 * a + b))) r)
        | _ => None
        end
      else
        r ← unescape query rest;
        Some (String (if query && Ascii.eqb c "+" then " "%char else c) r)
  end.

Definition bearerPrefix : string := "Bearer ".

(** ** Gateways *)

Definition extractCN (subject : string) : string :=
  (fix go (parts : list string) :=
     match parts with
     | [] => ""
     | part :: parts =>
         let part := TrimSpace part in
         if HasPrefix part "CN=" then TrimPrefix part "CN=" else go parts
     end) (Split "," subject).

(** The key a gateway presents. *)
Definition gateway_key (req : request) : string :=
  let apiKey := header req "X-Gateway-Key" in
  if bool_decide (apiKey = "") then
    let auth := header req "Authorization" in
    if HasPrefix auth bearerPrefix then TrimPrefix auth bearerPrefix else apiKey
  else apiKey.

(** The identity in the load balancer's client certificate header. *)
Definition mtls_gateway (mtlsEnabled : bool) (req : request) : string :=
  if mtlsEnabled then
    let subjectHeader := header req "X-Amzn-Mtls-Clientcert-Subject" in
    if bool_decide (subjectHeader ≠ "") then
      extractCN (default subjectHeader (unescape true subjectHeader))
    else ""
  else "".

Definition GatewayAuth (mtlsEnabled : bool) (ValidateAPIKey : string → option string) : middleware :=
  λ req c,
  let gatewayID := mtls_gateway mtlsEnabled req in
  if bool_decide (gatewayID ≠ "") then
    Next (Set_ "gateway_auth_method" "mtls" (Set_ "gateway_id" gatewayID c))
  else
    let apiKey := gateway_key req in
    if bool_decide (apiKey = "") then AbortWithSafeError c 401
    else
      match ValidateAPIKey apiKey with
      | None => AbortWithSafeError c 401
      | Some gatewayID =>
          Next (Set_ "gateway_auth_method" "api_key" (Set_ "gateway_id" gatewayID c))
      end.

(** ** Access tokens *)

Definition set_claim (c : claims) (claim key : string) (x : context) : context :=
  match c !! claim with Some (CString s) => Set_ key s x | _ => x end.

Definition set_org (c : claims) (x : context) : context :=
  match c !! "org_id" with
  | Some (CString s) =>
      let x := Set_ "user_org_id" s x in
      if bool_decide (GetString x "org_id" = "") then Set_ "org_id" s x else x
  | _ => x
  end.

Definition scope_tenant (req : request) (x : context) : context :=
  let scope := TrimSpace (header req "X-Scope-Tenant-ID") in
  if bool_decide (scope ≠ "") && bool_decide (GetString x "role" = "super_admin")
  then Set_ "scoped_tenant" scope (Set_ "user_org_id" scope (Set_ "org_id" scope x))
  else x.

Definition JWTAuth (validator : option (string → option claims)) : middleware := λ req x,
  let auth := header req "Authorization" in
  if negb (HasPrefix auth bearerPrefix) then AbortWithSafeError x 401
  else
    let token := TrimPrefix auth bearerPrefix in
    match validator with
    | None => AbortWithSafeError x 401
    | Some v =>
        match v token with
        | None => AbortWithSafeError x 401
        | Some c =>
            let x := set_claim c "sub" "user_id" x in
            let x := set_org c x in
            let x := set_claim c "role" "role" x in
            let x := set_claim c "email" "email" x in
            Next (scope_tenant req x)
        end
    end.

Definition write_roles : list string := ["super_admin"; "org_admin"; "security_admin"].
Definition safe_method (m : string) : bool := bool_decide (m ∈ ["GET"; "HEAD"; "OPTIONS"]).

Definition RequireWriteAccess : middleware := λ req c,
  if safe_method (Method req) then Next c
  else
    let role := TrimSpace (GetString c "role") in
    if negb (bool_decide (role ∈ write_roles))
    then Abort 403 "write access requires an administrator role" c
    else Next c.

Definition RequireRole (roles : list string) : middleware := λ req c,
  if negb (bool_decide (GetString c "role" ∈ TrimSpace <$> roles))
  then Abort 403 "insufficient permissions" c
  else Next c.

(** ** Certificates *)

Definition MTLSIdentity : middleware := λ req c,
  match peers req with
  | [] => AbortWithSafeError c 401
  | cert :: _ => Next (Set_ "cert_serial" (c_serial cert) (Set_ "gateway_cn" (c_cn cert) c))
  end.

Record deviceMTLSIdentity := mkIdentity {
  subject : string;
  serial : string;
  fingerprint : string;
}.

Definition decodeMTLSHeader (value : string) : string :=
  if bool_decide (value = "") then ""
  else TrimSpace (default value (unescape false value)).

Definition cert_fingerprint (cert : peer_cert) : string := Hex.encode (Sha256.sha256 (c_raw cert)).

Definition deviceCertificateIdentity (parse_leaf : string → option peer_cert) (req : request)
  : option deviceMTLSIdentity :=
  match peers req with
  | cert :: _ => Some (mkIdentity (c_subject cert) (c_serial cert) (cert_fingerprint cert))
  | [] =>
      let subject := decodeMTLSHeader (header req "X-Amzn-Mtls-Clientcert-Subject") in
      let serial := decodeMTLSHeader (header req "X-Amzn-Mtls-Clientcert-Serial-Number") in
      let leaf := decodeMTLSHeader (header req "X-Amzn-Mtls-Clientcert-Leaf") in
      let leaf := if bool_decide (leaf = "")
                  then decodeMTLSHeader (header req "X-Amzn-Mtls-Clientcert") else leaf in
      if bool_decide (subject = "") && bool_decide (serial = "") && bool_decide (leaf = "") then None
      else
        let fingerprint := TrimSpace (header req "X-Amzn-Mtls-Clientcert-Fingerprint") in
        let '(subject, serial, fingerprint) :=
          if bool_decide (leaf ≠ "") then
            match parse_leaf leaf with
            | Some cert =>
                (if bool_decide (subject = "") then c_subject cert else subject,
                 if bool_decide (serial = "") then c_serial cert else serial,
                 cert_fingerprint cert)
            | None => (subject, serial, fingerprint)
            end
          else (subject, serial, fingerprint) in
        let fingerprint :=
          if bool_decide (fingerprint = "")
          then Hex.encode (Sha256.sha256 (of_string (subject +:+ "|" +:+ serial)))
          else fingerprint in
        Some (mkIdentity subject serial fingerprint)
  end.

Definition tenant_header (req : request) : string :=
  let t := TrimSpace (header req "X-ApexAegis-Tenant-ID") in
  if bool_decide (t = "") then TrimSpace (header req "X-Tenant-ID") else t.

Definition DeviceMTLSAuth (parse_leaf : string → option peer_cert)
    (validator : option (string → string → string → option string)) : middleware := λ req c,
  match deviceCertificateIdentity parse_leaf req with
  | None => AbortWithSafeError c 401
  | Some identity =>
      let tenantID := tenant_header req in
      if bool_decide (tenantID = "") then AbortWithSafeError c 401
      else
        match validator with
        | None => AbortWithSafeError c 401
        | Some v =>
            match v tenantID (fingerprint identity) (serial identity) with
            | None => AbortWithSafeError c 401
            | Some deviceID =>
                let c := Set_ "org_id" tenantID c in
                let c := Set_ "device_org_id" tenantID c in
                let c := Set_ "device_id" deviceID c in
                let c := Set_ "device_cn" (extractCN (subject identity)) c in
                let c := Set_ "device_cert_subject" (subject identity) c in
                let c := Set_ "device_cert_serial" (serial identity) c in
                Next (Set_ "device_cert_fingerprint_sha256" (fingerprint identity) c)
            end
        end
  end.

(** ** SCIM *)

Definition SCIMContentType : middleware := λ _ c,
  Next (Header "Content-Type" "application/scim+json" c).

Definition SCIMAuth (ValidateSCIMToken : string → option string) : middleware := λ req c,
  let auth := header req "Authorization" in
  if negb (HasPrefix auth bearerPrefix) then Abort 401 "Bearer token required" c
  else
    match ValidateSCIMToken (TrimPrefix auth bearerPrefix) with
    | None => Abort 401 "Invalid SCIM bearer token" c
    | Some orgID => Next (Set_ "scim_org_id" orgID c)
    end.

(** ** Reading the context back *)

Lemma GetString_Set k v c k' :
  GetString (Set_ k v c) k' = if String.eqb k k' then v else GetString c k'.
Proof.
  unfold GetString, Set_. cbn [keys]. destruct (String.eqb_spec k k') as [->|Hne].
  - by rewrite lookup_insert_eq.
  - by rewrite lookup_insert_ne.
Qed.

Definition claim_string (c : claims) (k : string) : string :=
  match c !! k with Some (CString s) => s | _ => "" end.

Lemma GetString_set_claim c cl k x k' :
  GetString (set_claim c cl k x) k' =
    if String.eqb k k' then match c !! cl with Some (CString s) => s | _ => GetString x k' end
    else GetString x k'.
Proof.
  unfold set_claim. destruct (c !! cl) as [[]|]; rewrite ?GetString_Set; by destruct (String.eqb k k').
Qed.

Lemma GetString_set_org c x k :
  GetString (set_org c x) k =
    match c !! "org_id" with
    | Some (CString s) =>
        if String.eqb "user_org_id" k then s
        else if String.eqb "org_id" k && bool_decide (GetString x "org_id" = "") then s
        else GetString x k
    | _ => GetString x k
    end.
Proof.
  unfold set_org. destruct (c !! "org_id") as [[s| | | |]|]; try done.
  rewrite GetString_Set. change (String.eqb "user_org_id" "org_id") with false. cbv iota.
  case_bool_decide as E.
  - rewrite !GetString_Set. destruct (String.eqb_spec "org_id" k) as [<-|]; [done|].
    by destruct (String.eqb "user_org_id" k).
  - rewrite GetString_Set. destruct (String.eqb "user_org_id" k); [done|].
    by destruct (String.eqb "org_id" k).
Qed.

Lemma GetString_scope req x k :
  GetString (scope_tenant req x) k =
    let scope := TrimSpace (header req "X-Scope-Tenant-ID") in
    if bool_decide (scope ≠ "") && bool_decide (GetString x "role" = "super_admin")
       && (String.eqb "scoped_tenant" k || String.eqb "user_org_id" k || String.eqb "org_id" k)
    then scope else GetString x k.
Proof.
  unfold scope_tenant. cbv zeta. destruct (_ && _); [|done]. cbn [andb]. rewrite !GetString_Set.
  destruct (String.eqb "scoped_tenant" k); [done|]. destruct (String.eqb "user_org_id" k); [done|].
  by destruct (String.eqb "org_id" k).
Qed.

(** Reads a key through the operations, comparing the literal keys after every step. *)
Ltac ctx :=
  repeat (first [rewrite GetString_Set | rewrite GetString_set_claim
                |rewrite GetString_set_org | rewrite GetString_scope];
          cbn [String.eqb Ascii.eqb Bool.eqb andb orb]).

(** ** Chains *)

Lemma run_app ms1 ms2 req c :
  run (ms1 ++ ms2) req c =
    match run ms1 req c with Next c => run ms2 req c | a => a end.
Proof.
  revert c. induction ms1 as [|m ms1 IH]; intros c; [done|]. cbn. by destruct (m req c).
Qed.

Lemma run_Next ms req c c' m ms' :
  ms = m :: ms' → run ms req c = Next c' → ∃ c1, m req c = Next c1 ∧ run ms' req c1 = Next c'.
Proof. intros ->. cbn. destruct (m req c) as [c1|]; [|done]. intros Hr. by exists c1. Qed.

(** The bearer token of a request. *)
Definition bearer (req : request) : option string :=
  let auth := header req "Authorization" in
  if HasPrefix auth bearerPrefix then Some (TrimPrefix auth bearerPrefix) else None.

Lemma JWTAuth_Next v req x x' :
  JWTAuth v req x = Next x' ↔
  ∃ f tok c, v = Some f ∧ bearer req = Some tok ∧ f tok = Some c
    ∧ x' = scope_tenant req (set_claim c "email" "email" (set_claim c "role" "role"
             (set_org c (set_claim c "sub" "user_id" x)))).
Proof.
  unfold JWTAuth, bearer. destruct (HasPrefix _ _); cbn [negb].
  - destruct v as [f|].
    + destruct (f _) as [c|] eqn:E.
      * split; [intros [= <-]; by eexists f, _, c|].
        by intros (? & ? & ? & [= <-] & [= <-] & ? & ->); simplify_eq.
      * split; [done|]. by intros (? & ? & ? & [= <-] & [= <-] & ? & _); simplify_eq.
    + split; [done|]. by intros (? & ? & ? & ? & _).
  - split; [done|]. by intros (? & ? & ? & _ & ? & _).
Qed.

(** C12: Tenant scoping.  A request that passes the token check on a fresh context runs
    as the subject and the role of its token.  Its organization is the one of the token,
    whatever tenant headers it carries, unless the role is super_admin and the scope
    header names a tenant; then it is that tenant.  Two requests with the same token
    that is not a super_admin's are indistinguishable to the handlers. *)
Theorem tenant_scope f req x' :
  JWTAuth (Some f) req new_context = Next x' →
  ∃ tok c, bearer req = Some tok ∧ f tok = Some c
    ∧ GetString x' "user_id" = claim_string c "sub"
    ∧ GetString x' "role" = claim_string c "role"
    ∧ (let scope := TrimSpace (header req "X-Scope-Tenant-ID") in
       GetString x' "org_id" =
         if bool_decide (claim_string c "role" = "super_admin" ∧ scope ≠ "") then scope
         else claim_string c "org_id")
    ∧ (claim_string c "role" ≠ "super_admin" →
       ∀ req2, header req2 "Authorization" = header req "Authorization" →
         JWTAuth (Some f) req2 new_context = Next x').
Proof.
  intros (f' & tok & c & [= <-] & Hb & Hf & ->)%JWTAuth_Next. exists tok, c.
  set (y := set_claim c "email" "email" _).
  assert (GetString y "role" = claim_string c "role") as Hrole.
  { subst y. ctx. unfold claim_string. by destruct (c !! "role") as [[]|], (c !! "org_id") as [[]|]. }
  assert (GetString y "org_id" = claim_string c "org_id") as Horg.
  { subst y. ctx. unfold claim_string. by destruct (c !! "org_id") as [[]|]. }
  split_and!; [done|done|..].
  - rewrite GetString_scope. cbn [String.eqb Ascii.eqb Bool.eqb orb]. rewrite andb_false_r. subst y. ctx.
    unfold claim_string. by destruct (c !! "sub") as [[]|], (c !! "org_id") as [[]|].
  - rewrite GetString_scope. cbn [String.eqb Ascii.eqb Bool.eqb orb]. by rewrite andb_false_r.
  - cbv zeta. rewrite GetString_scope, Hrole, Horg. cbn [String.eqb Ascii.eqb Bool.eqb orb].
    rewrite andb_true_r. rewrite andb_comm, <- bool_decide_and. done.
  - intros Hns req2 Ha. apply JWTAuth_Next. exists f, tok, c. split_and!; [done| |done|].
    + unfold bearer. rewrite Ha. exact Hb.
    + fold y. unfold scope_tenant. rewrite Hrole. rewrite !(bool_decide_eq_false_2 (claim_string _ _ = _)) by done.
      by rewrite !andb_false_r.
Qed.

(** ** Binding a user to a device (client_runtime_handler.go) *)

Inductive bind_reply := BindStatus (code : Z) | BindCall (orgID deviceID userID : string).

(** [BindUser] up to its call of [LinkClientUser]. *)
Definition BindUser (hasStore : bool) (c : context) : bind_reply :=
  let orgID := GetString c "device_org_id" in
  let orgID := if bool_decide (orgID = "") then GetString c "org_id" else orgID in
  let deviceID := GetString c "device_id" in
  let userID := GetString c "user_id" in
  let userOrgID := GetString c "user_org_id" in
  if bool_decide (orgID = "") || bool_decide (deviceID = "") then BindStatus 401
  else if bool_decide (userID = "") || negb (bool_decide (GetString c "role" = "client_user"))
  then BindStatus 403
  else if negb (bool_decide (userOrgID = "")) && negb (bool_decide (userOrgID = orgID))
  then BindStatus 403
  else if negb hasStore then BindStatus 500
  else BindCall orgID deviceID userID.

(** The middleware of the route. *)
Definition bind_chain (parse_leaf : string → option peer_cert)
    (device : string → string → string → option string) (f : string → option claims)
  : list middleware :=
  [DeviceMTLSAuth parse_leaf (Some device); JWTAuth (Some f); RequireRole ["client_user"]].

Lemma DeviceMTLSAuth_Next pl v req c c' :
  DeviceMTLSAuth pl (Some v) req c = Next c' →
  ∃ i dev, deviceCertificateIdentity pl req = Some i
    ∧ tenant_header req ≠ "" ∧ v (tenant_header req) (fingerprint i) (serial i) = Some dev
    ∧ GetString c' "org_id" = tenant_header req ∧ GetString c' "device_org_id" = tenant_header req
    ∧ GetString c' "device_id" = dev ∧ GetString c' "device_cn" = extractCN (subject i)
    ∧ (∀ k, k ∈ ["role"; "user_id"; "user_org_id"] → GetString c' k = GetString c k).
Proof.
  unfold DeviceMTLSAuth. destruct (deviceCertificateIdentity pl req) as [i|]; [|done].
  case_bool_decide as Ht; [done|]. destruct (v _ _ _) as [dev|] eqn:Hv; [|done]. intros [= <-].
  exists i, dev. split_and!; try done; try by ctx.
  intros k Hk. repeat (apply elem_of_cons in Hk as [->|Hk]; [by ctx|]). by apply elem_of_nil in Hk.
Qed.

(** C14: A user is bound to a device only across both proofs.  When the route's
    middleware passes and the handler calls the store, the device store has accepted
    the presented certificate for the organization of the call, and the token is a
    valid client-user token of the bound user, of the same organization if it names
    one; the tenant scope header plays no part. *)
Theorem bind_user_dual_auth pl device f req c' hasStore org dev user :
  run (bind_chain pl device f) req new_context = Next c' →
  BindUser hasStore c' = BindCall org dev user →
  ∃ i tok c, deviceCertificateIdentity pl req = Some i
    ∧ device org (fingerprint i) (serial i) = Some dev ∧ org = tenant_header req
    ∧ bearer req = Some tok ∧ f tok = Some c
    ∧ claim_string c "role" = "client_user" ∧ claim_string c "sub" = user
    ∧ (claim_string c "org_id" = "" ∨ claim_string c "org_id" = org).
Proof.
  intros Hrun Hb.
  eapply run_Next in Hrun as (c1 & Hd & Hrun); [|done].
  eapply run_Next in Hrun as (c2 & Hj & Hrun); [|done].
  eapply run_Next in Hrun as (c3 & Hr & Hc3); [|done].
  injection Hc3 as <-.
  apply DeviceMTLSAuth_Next in Hd as (i & d & Hi & Hne & Hv & Horg & Hdorg & Hdev & _ & Hfr).
  apply JWTAuth_Next in Hj as (f' & tok & c & [= <-] & Hbt & Hf & ->).
  set (y := set_claim c "email" "email" _) in Hr.
  assert (GetString y "role" = claim_string c "role") as Hrole.
  { subst y. ctx. unfold claim_string. rewrite (Hfr "role") by set_solver.
    by destruct (c !! "role") as [[]|], (c !! "org_id") as [[]|]. }
  revert Hr. unfold RequireRole. rewrite GetString_scope. cbn [String.eqb Ascii.eqb Bool.eqb orb].
  rewrite andb_false_r, Hrole. case_bool_decide as Hcu; [|done]. intros [= <-].
  assert (claim_string c "role" = "client_user") as Hcl.
  { by apply list_elem_of_singleton in Hcu. }
  assert (scope_tenant req y = y) as Hsc.
  { unfold scope_tenant. rewrite Hrole, Hcl. by rewrite andb_false_r. }
  rewrite Hsc in Hb. exists i, tok, c. revert Hb. unfold BindUser.
  assert (GetString y "device_org_id" = tenant_header req) as ->.
  { subst y. ctx. by destruct (c !! "org_id") as [[]|]. }
  assert (GetString y "device_id" = d) as ->.
  { subst y. ctx. by destruct (c !! "org_id") as [[]|]. }
  assert (GetString y "user_id" = claim_string c "sub") as ->.
  { subst y. ctx. unfold claim_string. rewrite (Hfr "user_id") by set_solver.
    by destruct (c !! "sub") as [[]|], (c !! "org_id") as [[]|]. }
  assert (GetString y "user_org_id" = claim_string c "org_id") as ->.
  { subst y. ctx. unfold claim_string. rewrite (Hfr "user_org_id") by set_solver.
    by destruct (c !! "org_id") as [[]|]. }
  rewrite (bool_decide_eq_false_2 (tenant_header req = "")) by done.
  destruct (_ || _); [done|]. destruct (_ || _); [done|].
  destruct (_ && _) eqn:Hg; [done|]. destruct hasStore; [|done]. intros [= <- <- <-].
  split_and!; try done. apply andb_false_iff in Hg as [Hg|Hg]; apply negb_false_iff in Hg;
    apply bool_decide_eq_true in Hg; auto.
Qed.

(** ** Witnesses *)

Definition demo_claims (role : string) : claims :=
  {["sub" := CString "u1"; "role" := CString role; "org_id" := CString "acme"]}.
Definition demo_tokens (tok : string) : option claims :=
  if String.eqb tok "user-token" then Some (demo_claims "client_user")
  else if String.eqb tok "root-token" then Some (demo_claims "super_admin")
  else None.
Definition demo_request (tok : string) : request :=
  mkReq "POST"
    (λ h, if String.eqb h "Authorization" then bearerPrefix +:+ tok
          else if String.eqb h "X-Scope-Tenant-ID" then " globex "
          else if String.eqb h "X-ApexAegis-Tenant-ID" then "acme"
          else "")
    [mkPeer "CN=laptop-7,O=acme" "laptop-7" "42" (of_string "cert")].
Definition demo_device (org fp serial : string) : option string :=
  if String.eqb org "acme" && String.eqb serial "42" then Some "dev-7" else None.
Definition final (o : outcome) : context := match o with Next c => c | Abort _ _ c => c end.

Lemma tenant_scope_witness :
  GetString (final (JWTAuth (Some demo_tokens) (demo_request "root-token") new_context)) "org_id"
    = "globex"
  ∧ GetString (final (JWTAuth (Some demo_tokens) (demo_request "user-token") new_context)) "org_id"
    = "acme".
Proof.
  split.
  - destruct (tenant_scope demo_tokens (demo_request "root-token")
      (final (JWTAuth (Some demo_tokens) (demo_request "root-token") new_context)) eq_refl)
      as (tok & c & Hb & Hf & _ & _ & Ho & _).
    rewrite Ho. injection Hb as <-. injection Hf as <-. vm_compute. reflexivity.
  - destruct (tenant_scope demo_tokens (demo_request "user-token")
      (final (JWTAuth (Some demo_tokens) (demo_request "user-token") new_context)) eq_refl)
      as (tok & c & Hb & Hf & _ & _ & Ho & _).
    rewrite Ho. injection Hb as <-. injection Hf as <-. vm_compute. reflexivity.
Defined.

Lemma bind_user_dual_auth_witness :
  ∃ i, deviceCertificateIdentity (λ _, None) (demo_request "user-token") = Some i
    ∧ demo_device "acme" (fingerprint i) (serial i) = Some "dev-7".
Proof.
  destruct (bind_user_dual_auth (λ _, None) demo_device demo_tokens (demo_request "user-token")
    (final (run (bind_chain (λ _, None) demo_device demo_tokens) (demo_request "user-token") new_context))
    true "acme" "dev-7" "u1") as (i & tok & c & Hi & Hd & _);
    [vm_compute; reflexivity|vm_compute; reflexivity|].
  exists i. split; [exact Hi|exact Hd].
Defined.

End Access.
