(* ===== verification/Routes.v ===== *)
(** * The route table (cmd/server/main.go)

    Which middleware stands in front of which handler.  A [route] is what one
    registration adds to the router: method, path, the middleware of its group
    ([router.Group(...)] with its [Use] calls) followed by its own, and the handler;
    each group of the source is a definition with its routes in order.  [guard] names
    the middleware, [interp] gives it the meaning it has in [Access] for the services
    main wires in: one [AuthStore], the gateway registry, the device and SCIM stores.
    [dispatch] is what gin runs for a request of a route: the global middleware (request
    identifier, security headers, CORS; the recovery and error middleware act only
    after the handler), then the guards.  Path matching is the router's; the theorems
    range over all routes.

    The table is composed with [AuthStore] and [TokenExchange]: who reaches which
    handlers, and with which tenant. *)

From S2P Require Import Prelude GoStrings Jwt AuthStore TokenExchange Access.
#[local] Open Scope string_scope.
#[local] Open Scope nat_scope.
#[local] Open Scope list_scope.

Module Routes.
Import GoStrings Jwt Access.

Inductive guard :=
| GJWT | GWrite | GRole (roles : list string) | GGateway | GDevice | GSCIMType | GSCIM.
#[global] Instance guard_eq_dec : EqDecision guard.
Proof. solve_decision. Defined.

Record route := R_ {
  r_method : string;
  r_path : string;
  r_guards : list guard;
  r_handler : string;
}.
#[global] Instance route_eq_dec : EqDecision route.
Proof. solve_decision. Defined.

Definition group (prefix : string) (use : list guard) (rs : list route) : list route :=
  (λ r, R_ (r_method r) (prefix +:+ r_path r) (use ++ r_guards r) (r_handler r)) <$> rs.

(** ** The groups *)

Definition public_wellknown : list route :=
  group "" []
  [R_ "GET" "/health" [] "inline";
   R_ "GET" "/.well-known/jwks.json" [] "inline"].

Definition oidc_routes : list route :=
  group "" []
  [R_ "GET" "/.well-known/openid-configuration" [] "oidcHandler.Discovery";
   R_ "GET" "/oidc/.well-known/jwks.json" [] "oidcHandler.JWKS";
   R_ "GET" "/authorize" [] "oidcHandler.Authorize";
   R_ "POST" "/authorize" [] "oidcHandler.AuthorizeLogin";
   R_ "POST" "/token" [] "oidcHandler.Token";
   R_ "POST" "/device/code" [] "oidcHandler.DeviceCode";
   R_ "GET" "/device" [] "oidcHandler.DevicePage";
   R_ "POST" "/device" [] "oidcHandler.DeviceVerify";
   R_ "GET" "/userinfo" [] "oidcHandler.UserInfo";
   R_ "POST" "/revoke" [] "oidcHandler.Revoke"].

Definition drsAPI : list route :=
  group "/drs/v1" []
  [R_ "POST" "/register" [] "drsHandler.Register";
   R_ "POST" "/complete" [] "drsHandler.Complete";
   R_ "GET" "/device/:id" [] "drsHandler.GetDevice";
   R_ "PUT" "/device/:id/posture" [] "drsHandler.UpdatePosture";
   R_ "POST" "/device/:id/renew" [] "drsHandler.RenewCert";
   R_ "DELETE" "/device/:id" [] "drsHandler.Deregister"].

Definition windows_drs : list route :=
  group "" []
  [R_ "POST" "/enrollmentserver/devicejoin" [] "windowsDRSHandler.HandleDeviceJoin";
   R_ "POST" "/enrollmentserver/devicejoin/status" [] "windowsDRSHandler.HandleDeviceJoinStatus";
   R_ "GET" "/enrollmentserver/scp" [] "windowsDRSHandler.SCPResponse";
   R_ "GET" "/windows-hello/policy" [] "windowsDRSHandler.HandleWindowsHelloPolicy";
   R_ "POST" "/windows-hello/attest" [] "windowsDRSHandler.HandleWindowsHelloAttest";
   R_ "GET" "/mdm/enrollment" [] "windowsDRSHandler.HandleMDMEnrollment";
   R_ "GET" "/autodiscover/autodiscover.xml" [] "windowsDRSHandler.HandleAutodiscover"].

Definition enrollmentGroup : list route :=
  group "/enrollment" []
  [R_ "POST" "/admin-verify" [] "drsHandler.HandleAdminVerify";
   R_ "POST" "/device-join" [] "drsHandler.HandleDeviceJoin"].

Definition portalGroup : list route :=
  group "/portal" []
  [R_ "GET" "/scripts/ps1" [] "h.HandleDownloadPS1";
   R_ "GET" "/scripts/bat" [] "h.HandleDownloadBAT";
   R_ "GET" "/scripts/registry" [] "h.HandleDownloadRegistry"].

Definition authAPI : list route :=
  group "/api/v1/auth" []
  [R_ "POST" "/login" [] "authHandler.Login";
   R_ "POST" "/refresh" [] "authHandler.Refresh";
   R_ "POST" "/logout" [] "authHandler.Logout";
   R_ "GET" "/me" [GJWT] "authHandler.Me";
   R_ "GET" "/sso/providers" [] "ssoHandler.ListSSOProviders";
   R_ "GET" "/sso/:idp_id/authorize" [] "ssoHandler.Authorize";
   R_ "GET" "/sso/callback" [] "ssoHandler.CallbackRedirect";
   R_ "POST" "/sso/callback" [] "ssoHandler.Callback"].

Definition onboardAPI : list route :=
  group "/api/v1/onboard" []
  [R_ "POST" "/otp/request" [] "onboardHandler.RequestOTP";
   R_ "POST" "/otp/verify" [] "onboardHandler.VerifyOTP"].

Definition portalAPI : list route :=
  group "/api/v1/portal" [GJWT; GRole ["client_user"]]
  [R_ "GET" "/profile" [] "portalHandler.Profile";
   R_ "GET" "/artifacts" [] "portalHandler.Artifacts";
   R_ "POST" "/devices/certificates" [] "portalHandler.IssueDeviceCertificate"].

Definition connectorAPI : list route :=
  group "/api/v1/connector" []
  [R_ "GET" "/config" [] "connectorHandler.GetConfig";
   R_ "POST" "/sync" [] "connectorHandler.PostSync"].

Definition userAPI : list route :=
  group "/api/v1/users" [GJWT; GWrite]
  [R_ "GET" "" [] "userHandler.ListUsers";
   R_ "GET" "/:id" [] "userHandler.GetUser";
   R_ "PUT" "/:id" [] "userHandler.UpdateUser";
   R_ "DELETE" "/:id" [] "userHandler.DeleteUser"].

Definition clientAPI : list route :=
  group "/api/v1/client-users" [GJWT; GWrite]
  [R_ "GET" "" [] "inline";
   R_ "GET" "/:id/status-events" [] "inline";
   R_ "POST" "/:id/reactivate" [] "inline"].

Definition deviceAPI : list route :=
  group "/api/v1/devices" [GJWT; GWrite]
  [R_ "GET" "" [] "deviceHandler.ListDevices";
   R_ "GET" "/:id" [] "deviceHandler.GetDevice"].

Definition objectsAPI : list route :=
  group "/api/v1/objects" [GJWT; GWrite]
  [R_ "GET" "/url-categories" [] "urlCatHandler.ListCategories";
   R_ "GET" "/url-categories/:id" [] "urlCatHandler.GetCategory";
   R_ "GET" "/categorize" [] "urlCatHandler.Categorize";
   R_ "GET" "/cloud-apps" [] "objHandler.ListCloudApps";
   R_ "GET" "/device-groups" [] "objHandler.ListDeviceGroups"].

Definition groupAPI : list route :=
  group "/api/v1/groups" [GJWT; GWrite]
  [R_ "GET" "" [] "groupHandler.ListGroups";
   R_ "POST" "" [] "groupHandler.CreateGroup";
   R_ "PUT" "/:id" [] "groupHandler.UpdateGroup";
   R_ "DELETE" "/:id" [] "groupHandler.DeleteGroup";
   R_ "PUT" "/:id/import" [] "inline"].

Definition scimAPI : list route :=
  group "/scim/v2" [GSCIMType; GSCIM]
  [R_ "GET" "/ServiceProviderConfig" [] "scimHandler.ServiceProviderConfig";
   R_ "GET" "/Schemas" [] "scimHandler.Schemas";
   R_ "GET" "/ResourceTypes" [] "scimHandler.ResourceTypes";
   R_ "GET" "/AdminUsers" [] "scimHandler.ListAdminUsers";
   R_ "POST" "/AdminUsers" [] "scimHandler.CreateAdminUser";
   R_ "GET" "/AdminUsers/:id" [] "scimHandler.GetAdminUser";
   R_ "PUT" "/AdminUsers/:id" [] "scimHandler.UpdateAdminUser";
   R_ "PATCH" "/AdminUsers/:id" [] "scimHandler.PatchAdminUser";
   R_ "DELETE" "/AdminUsers/:id" [] "scimHandler.DeleteAdminUser";
   R_ "GET" "/Users" [] "scimHandler.ListClientUsers";
   R_ "POST" "/Users" [] "scimHandler.CreateClientUser";
   R_ "GET" "/Users/:id" [] "scimHandler.GetClientUser";
   R_ "PUT" "/Users/:id" [] "scimHandler.UpdateClientUser";
   R_ "PATCH" "/Users/:id" [] "scimHandler.PatchClientUser";
   R_ "DELETE" "/Users/:id" [] "scimHandler.DeleteClientUser";
   R_ "GET" "/Groups" [] "scimHandler.ListGroups";
   R_ "POST" "/Groups" [] "scimHandler.CreateGroup";
   R_ "GET" "/Groups/:id" [] "scimHandler.GetGroup";
   R_ "PUT" "/Groups/:id" [] "scimHandler.UpdateGroup";
   R_ "PATCH" "/Groups/:id" [] "scimHandler.PatchGroup";
   R_ "DELETE" "/Groups/:id" [] "scimHandler.DeleteGroup"].

Definition gwAPI : list route :=
  group "/api/v1/gateway" [GGateway]
  [R_ "POST" "/register" [] "gwHandler.Register";
   R_ "GET" "/policies" [] "gwHandler.GetPolicies";
   R_ "POST" "/heartbeat" [] "gwHandler.Heartbeat";
   R_ "POST" "/certs/issue" [] "gwHandler.IssueCertificate";
   R_ "POST" "/certs/renew" [] "gwHandler.RenewCertificate";
   R_ "GET" "/certs/ca" [] "gwHandler.GetCACert";
   R_ "GET" "/policies/sync" [] "gwHandler.SyncPolicies";
   R_ "GET" "/policies/version" [] "gwHandler.GetPolicyVersion";
   R_ "GET" "/policies/ws" [] "wsHub.HandleSubscribe"].

Definition publicGWAPI : list route :=
  group "/api/v1/gateways" [GDevice]
  [R_ "GET" "/available" [] "gwHandler.ListAvailableGateways"].

Definition privateGWAPI : list route :=
  group "/api/v1/private-gateways" [GDevice]
  [R_ "GET" "/available" [] "pgwHandler.ListAvailablePrivateGateways"].

Definition agentAPI : list route :=
  group "/api/v1/agent" []
  [R_ "POST" "/auth" [] "agentAuthHandler.Authenticate";
   R_ "POST" "/sso/kerberos" [] "kerberosSSOHandler.Authenticate";
   R_ "GET" "/download/versions" [] "agentFileHandler.HandleListVersions";
   R_ "GET" "/download/latest" [] "agentFileHandler.HandleLatest";
   R_ "GET" "/download/file" [] "agentFileHandler.HandleDownload"].

Definition deviceClientAPI : list route :=
  group "/api/v1/client" [GDevice]
  [R_ "POST" "/bind-user" [GJWT; GRole ["client_user"]] "clientRuntimeHandler.BindUser";
   R_ "GET" "/profile" [] "clientRuntimeHandler.GetProfile";
   R_ "GET" "/route-policies" [] "clientRuntimeHandler.GetRoutePolicies";
   R_ "POST" "/posture" [] "clientRuntimeHandler.ReportPosture";
   R_ "POST" "/logs" [] "clientRuntimeHandler.ReportLogs";
   R_ "POST" "/dns-risk/assess" [] "Assess"].

Definition dc_grant_route : list route :=
  group "/api/v1/client" [GDevice]
  [R_ "POST" "/dc-grant" [] "deviceGrantHandler.IssueDCGrant"].

Definition agentPolicyAPI : list route :=
  group "/api/v1/agent" [GDevice]
  [R_ "GET" "/policies" [] "agentHandler.GetPolicies"].

Definition meshAPI : list route :=
  group "/api/v1/mesh" [GJWT; GWrite]
  [R_ "POST" "/peers/register" [] "meshHandler.RegisterPeer";
   R_ "DELETE" "/peers/:peer_id" [] "meshHandler.DeregisterPeer";
   R_ "GET" "/peers" [] "meshHandler.ListPeers";
   R_ "POST" "/peers/:peer_id/signal" [] "meshHandler.Signal";
   R_ "GET" "/topology" [] "meshHandler.GetTopology";
   R_ "POST" "/relay/allocate" [] "meshHandler.AllocateRelay"].

Definition admin_core : list route :=
  group "/api/v1/admin" [GJWT; GWrite]
  [R_ "GET" "/gateways" [] "adminHandler.ListGateways";
   R_ "GET" "/gateways/:id" [] "adminHandler.GetGateway";
   R_ "GET" "/gateways/available" [] "adminHandler.ListAvailableGateways";
   R_ "POST" "/policies" [] "adminHandler.CreatePolicy";
   R_ "PUT" "/policies/:id" [] "adminHandler.UpdatePolicy";
   R_ "GET" "/policies" [] "adminHandler.ListPolicies";
   R_ "DELETE" "/policies/:id" [] "adminHandler.DeletePolicy";
   R_ "GET" "/mesh/topology" [] "adminHandler.GetMeshTopology";
   R_ "GET" "/features" [] "featureFlagHandler.ListFlags";
   R_ "GET" "/features/:name" [] "featureFlagHandler.GetFlag";
   R_ "PUT" "/features/:name" [] "featureFlagHandler.SetFlag";
   R_ "GET" "/organization/deployment-info" [] "inline"].

Definition admin_config : list route :=
  group "/api/v1/admin" [GJWT; GWrite]
  [R_ "GET" "/config/versions" [] "adminHandler.ListConfigVersions";
   R_ "GET" "/config/versions/:version" [] "adminHandler.GetConfigVersion";
   R_ "POST" "/config/revert/:version" [] "adminHandler.RevertConfig";
   R_ "GET" "/config/diff" [] "adminHandler.DiffConfigVersions";
   R_ "POST" "/config/lock" [] "adminHandler.AcquireConfigLock";
   R_ "DELETE" "/config/lock" [] "adminHandler.ReleaseConfigLock";
   R_ "GET" "/config/lock" [] "adminHandler.GetConfigLock"].

Definition admin_idp : list route :=
  group "/api/v1/admin" [GJWT; GWrite]
  [R_ "GET" "/idp/logs" [] "idpLogsHandler.GetIdPLogs";
   R_ "GET" "/idp/logs/summary" [] "idpLogsHandler.GetIdPLogSummary";
   R_ "GET" "/idp/logs/provider/:provider_type" [] "idpLogsHandler.GetProviderLogs";
   R_ "POST" "/idp/:id/test" [] "idpTestHandler.TestConnection"].

Definition admin_connectors : list route :=
  group "/api/v1/admin" [GJWT; GWrite]
  [R_ "GET" "/connectors/:connector_id/config" [] "connectorAdminHandler.GetConnectorConfig";
   R_ "PUT" "/connectors/:connector_id/config" [] "connectorAdminHandler.UpdateConnectorConfig";
   R_ "GET" "/connectors/:connector_id/users" [] "connectorAdminHandler.ListConnectorUsers";
   R_ "GET" "/connectors/:connector_id/groups" [] "connectorAdminHandler.ListConnectorGroups";
   R_ "PATCH" "/connectors/:connector_id/groups/:sid/sync" [] "connectorAdminHandler.SetGroupSyncEnabled"].

Definition admin_assistant : list route :=
  group "/api/v1/admin" [GJWT; GWrite]
  [R_ "POST" "/assistant/chat" [] "assistantHandler.Chat";
   R_ "POST" "/assistant/voice" [] "assistantHandler.Voice";
   R_ "POST" "/assistant/speak" [] "assistantHandler.Speak";
   R_ "POST" "/assistant/explain-access" [] "assistantHandler.ExplainAccess";
   R_ "POST" "/assistant/grant-access" [] "assistantHandler.GrantAccess";
   R_ "POST" "/assistant/bridge" [] "assistantHandler.Bridge";
   R_ "POST" "/assistant/seed-demo" [] "assistantHandler.SeedDemo"].

Definition admin_secrets : list route :=
  group "/api/v1/admin" [GJWT; GWrite]
  [R_ "POST" "/enrol-secrets" [] "enrolHandler.GenerateSecret";
   R_ "GET" "/enrol-secrets" [] "enrolHandler.ListSecrets";
   R_ "DELETE" "/enrol-secrets/:id" [] "enrolHandler.RevokeSecret"].

Definition admin_itsm : list route :=
  group "/api/v1/admin" [GJWT; GWrite]
  [R_ "GET" "/itsm/tickets" [] "itmHandler.ListRequests";
   R_ "GET" "/itsm/tickets/:id" [] "itmHandler.GetRequest";
   R_ "PATCH" "/itsm/tickets/:id" [] "itmHandler.UpdateRequest";
   R_ "DELETE" "/itsm/tickets/:id" [] "itmHandler.DeleteRequest";
   R_ "GET" "/itsm/stats" [] "itmHandler.GetStats"].

Definition itsmAPI : list route :=
  group "/api/v1/itsm" [GJWT]
  [R_ "POST" "/requests" [] "itmHandler.CreateRequest";
   R_ "GET" "/requests/:id" [] "itmHandler.GetRequest"].

Definition scannerAPI : list route :=
  group "/api/v1/scanner" [GJWT; GWrite]
  [R_ "POST" "/sources" [] "scanHandler.AddSource";
   R_ "GET" "/sources" [] "scanHandler.ListSources";
   R_ "DELETE" "/sources/:id" [] "scanHandler.RemoveSource";
   R_ "POST" "/scan" [] "scanHandler.ScanAll";
   R_ "POST" "/scan/host" [] "scanHandler.ScanHost";
   R_ "GET" "/results" [] "scanHandler.ListResults";
   R_ "GET" "/results/:id" [] "scanHandler.GetResult";
   R_ "POST" "/outreach/:id" [] "scanHandler.SendOutreach";
   R_ "GET" "/opportunities" [] "scanHandler.ListOpportunities";
   R_ "GET" "/opportunities/:id" [] "scanHandler.GetOpportunity";
   R_ "PUT" "/opportunities/:id/status" [] "scanHandler.UpdateOpportunityStatus"].

Definition auditAPI : list route :=
  group "/api/v1/audit" [GJWT; GWrite]
  [R_ "GET" "/logs" [] "auditHandler.ListAuditLogs";
   R_ "POST" "/logs/query" [] "auditHandler.QueryAuditLogs"].

Definition dot1xAPI : list route :=
  group "/api/v1/dot1x" [GGateway]
  [R_ "POST" "/authenticate" [] "dot1xHandler.Authenticate";
   R_ "POST" "/authorize" [] "dot1xHandler.Authorize";
   R_ "POST" "/accounting" [] "dot1xHandler.Accounting";
   R_ "GET" "/sessions" [] "dot1xHandler.ListSessions";
   R_ "GET" "/sessions/:id" [] "dot1xHandler.GetSession";
   R_ "POST" "/sessions/:id/disconnect" [] "dot1xHandler.DisconnectSession";
   R_ "POST" "/mac/register" [] "dot1xHandler.RegisterMAC";
   R_ "DELETE" "/mac/:mac" [] "dot1xHandler.RemoveMAC";
   R_ "GET" "/mac" [] "dot1xHandler.ListMACs"].

Definition sgtAPI : list route :=
  group "/api/v1/sgt" [GJWT; GWrite]
  [R_ "GET" "/tags" [] "sgtHandler.ListTags";
   R_ "GET" "/tags/:id" [] "sgtHandler.GetTag";
   R_ "POST" "/tags" [] "sgtHandler.CreateTag";
   R_ "PUT" "/tags/:id" [] "sgtHandler.UpdateTag";
   R_ "DELETE" "/tags/:id" [] "sgtHandler.DeleteTag";
   R_ "GET" "/policies" [] "sgtHandler.ListPolicies";
   R_ "GET" "/policies/:id" [] "sgtHandler.GetPolicy";
   R_ "POST" "/policies" [] "sgtHandler.CreatePolicy";
   R_ "PUT" "/policies/:id" [] "sgtHandler.UpdatePolicy";
   R_ "DELETE" "/policies/:id" [] "sgtHandler.DeletePolicy";
   R_ "GET" "/matrix" [] "sgtHandler.GetMatrix";
   R_ "POST" "/classify" [] "sgtHandler.Classify";
   R_ "GET" "/sites" [] "sgtHandler.ListSites";
   R_ "GET" "/sites/:id" [] "sgtHandler.GetSite";
   R_ "POST" "/sites" [] "sgtHandler.CreateSite";
   R_ "PUT" "/sites/:id" [] "sgtHandler.UpdateSite";
   R_ "DELETE" "/sites/:id" [] "sgtHandler.DeleteSite"].

Definition sdnAPI : list route :=
  group "/api/v1/sdn" [GJWT; GWrite]
  [R_ "GET" "/switches" [] "sdnHandler.ListSwitches";
   R_ "GET" "/switches/:id" [] "sdnHandler.GetSwitch";
   R_ "POST" "/switches" [] "sdnHandler.RegisterSwitch";
   R_ "DELETE" "/switches/:id" [] "sdnHandler.DeregisterSwitch";
   R_ "POST" "/switches/:id/heartbeat" [] "sdnHandler.SwitchHeartbeat";
   R_ "POST" "/switches/:id/config" [] "sdnHandler.PushConfig";
   R_ "GET" "/vendors" [] "sdnHandler.ListVendors";
   R_ "GET" "/vendors/:id" [] "sdnHandler.GetVendor"].

Definition idAPI : list route :=
  group "/api/v1/identity" [GJWT; GWrite]
  [R_ "GET" "/providers" [] "idHandler.ListIdPs";
   R_ "GET" "/providers/:id" [] "idHandler.GetIdP";
   R_ "POST" "/providers" [] "idHandler.CreateIdP";
   R_ "PUT" "/providers/:id" [] "idHandler.UpdateIdP";
   R_ "DELETE" "/providers/:id" [] "idHandler.DeleteIdP";
   R_ "GET" "/auth-profiles" [] "idHandler.ListAuthProfiles";
   R_ "PUT" "/auth-profiles" [] "idHandler.UpdateAuthProfiles";
   R_ "POST" "/token/exchange" [] "idHandler.ExchangeToken";
   R_ "GET" "/sessions" [] "idHandler.ListSessions";
   R_ "GET" "/sessions/:id" [] "idHandler.GetSession";
   R_ "DELETE" "/sessions/:id" [] "idHandler.RevokeSession"].

Definition featureAPI : list route :=
  group "/api/v1/features" [GJWT; GWrite]
  [R_ "GET" "" [] "featHandler.ListFeatures";
   R_ "GET" "/:id" [] "featHandler.GetFeature";
   R_ "PUT" "/:id/toggle" [] "featHandler.ToggleFeature";
   R_ "POST" "/:id/trial" [] "featHandler.StartTrial"].

Definition tenantAPI : list route :=
  group "/api/v1/admin/tenants" [GJWT; GWrite]
  [R_ "GET" "" [] "tenantHandler.ListTenants";
   R_ "GET" "/:id" [] "tenantHandler.GetTenant";
   R_ "GET" "/:id/entitlements" [] "tenantHandler.GetEntitlements"].

Definition operatorAPI : list route :=
  group "/api/v1/admin/operators" [GJWT; GWrite]
  [R_ "GET" "" [] "tenantHandler.ListOperators"].

Definition tierAPI : list route :=
  group "/api/v1/admin/tiers" [GJWT; GWrite]
  [R_ "GET" "" [] "tenantHandler.ListTiers"].

Definition policyDetailAPI : list route :=
  group "/api/v1/admin/policy" [GJWT; GWrite]
  [R_ "GET" "/:id" [] "tenantHandler.GetPolicy"].

Definition ghostedAdminAPI : list route :=
  group "/api/v1/admin/ghosted" [GJWT; GWrite]
  [R_ "GET" "" [] "tenantHandler.ListGhosted"].

Definition deviceInvAPI : list route :=
  group "/api/v1/admin/devices-inventory" [GJWT; GWrite]
  [R_ "GET" "" [] "tenantHandler.ListDevices"].

Definition reportAPI : list route :=
  group "/api/v1/admin/report" [GJWT; GWrite]
  [R_ "POST" "/email" [] "tenantHandler.EmailReport"].

Definition postureAPI : list route :=
  group "/api/v1/admin/posture-profile" [GJWT; GWrite]
  [R_ "GET" "" [] "tenantHandler.GetPostureProfile";
   R_ "PUT" "" [] "tenantHandler.UpdatePostureProfile"].

Definition rbacAPI : list route :=
  group "/api/v1/admin/rbac" [GJWT; GWrite]
  [R_ "GET" "/tenants" [] "rbacHandler.ListTenants";
   R_ "GET" "/pages" [] "rbacHandler.ListPages";
   R_ "GET" "/effective-pages" [] "rbacHandler.EffectivePages";
   R_ "GET" "/roles" [] "rbacHandler.ListRoles";
   R_ "POST" "/roles" [] "rbacHandler.CreateRole";
   R_ "PUT" "/roles/:id" [] "rbacHandler.UpdateRole";
   R_ "DELETE" "/roles/:id" [] "rbacHandler.DeleteRole"].

Definition profileAPI : list route :=
  group "/api/v1/profiles" [GJWT; GWrite]
  [R_ "GET" "/:type" [] "profHandler.ListProfiles";
   R_ "POST" "/:type" [] "profHandler.CreateProfile";
   R_ "GET" "/:type/:id" [] "profHandler.GetProfile";
   R_ "PUT" "/:type/:id" [] "profHandler.UpdateProfile";
   R_ "DELETE" "/:type/:id" [] "profHandler.DeleteProfile";
   R_ "PUT" "/:type/:id/toggle" [] "profHandler.ToggleProfile"].

Definition ghostAPI : list route :=
  group "/api/v1/ghosted-apps" [GJWT; GWrite]
  [R_ "GET" "" [] "ghostHandler.ListAgents";
   R_ "GET" "/:id" [] "ghostHandler.GetAgent";
   R_ "POST" "/rescan" [] "ghostHandler.Rescan";
   R_ "GET" "/scan/last" [] "ghostHandler.GetLastScan"].

Definition ccAdminAPI : list route :=
  group "/api/v1/admin/client-config" [GJWT; GWrite]
  [R_ "GET" "" [] "clientConfigHandler.ListClientConfigs";
   R_ "GET" "/:group_id" [] "clientConfigHandler.GetClientConfig";
   R_ "POST" "" [] "clientConfigHandler.CreateClientConfig";
   R_ "PUT" "/:group_id" [] "clientConfigHandler.UpdateClientConfig";
   R_ "DELETE" "/:group_id" [] "clientConfigHandler.DeleteClientConfig";
   R_ "GET" "/audit-logs" [] "clientConfigHandler.GetAuditLogs";
   R_ "POST" "/validate" [] "clientConfigHandler.ValidateConfig"].

Definition threatAPI : list route :=
  group "/api/v1/admin/threat-intel" [GJWT; GWrite]
  [R_ "GET" "/sources" [] "threatIntelHandler.ListSources";
   R_ "GET" "/stats" [] "threatIntelHandler.GetSourceStats";
   R_ "POST" "/sync" [] "threatIntelHandler.ManualSync";
   R_ "POST" "/lookup" [] "threatIntelHandler.LookupThreat";
   R_ "POST" "/cleanup" [] "threatIntelHandler.EvictStale"].

Definition dnsLogsAPI : list route :=
  group "/api/v1/admin/dns-logs" [GJWT; GWrite]
  [R_ "GET" "" [] "dnsLogsHandler.GetDNSLogs";
   R_ "GET" "/summary" [] "dnsLogsHandler.GetDNSSummary";
   R_ "GET" "/stats" [] "dnsLogsHandler.GetDNSLogsStats";
   R_ "POST" "/cleanup" [] "dnsLogsHandler.DeleteOldLogs"].

Definition validationAPI : list route :=
  group "/api/v1/validation" [GJWT; GWrite]
  [R_ "GET" "/tests" [] "valHandler.ListTests";
   R_ "GET" "/environments" [] "valHandler.ListEnvironments";
   R_ "POST" "/provision" [] "valHandler.ProvisionEnvironment";
   R_ "GET" "/environments/:id" [] "valHandler.GetEnvironmentStatus";
   R_ "DELETE" "/environments/:id" [] "valHandler.DestroyEnvironment";
   R_ "POST" "/environments/:id/run" [] "valHandler.RunTests";
   R_ "GET" "/runs/:runId" [] "valHandler.GetRunResult";
   R_ "POST" "/simulate" [] "valHandler.SimulatePolicy"].

Definition securityAPI : list route :=
  group "/api/v1/security" [GJWT; GWrite]
  [R_ "POST" "/sign" [] "secHandler.SignArtifact";
   R_ "POST" "/verify" [] "secHandler.VerifyArtifact";
   R_ "GET" "/artifacts" [] "secHandler.ListArtifacts";
   R_ "GET" "/keys" [] "secHandler.ListSigningKeys";
   R_ "GET" "/keys/:id" [] "secHandler.GetPublicKey";
   R_ "GET" "/enrollment/agents" [] "secHandler.ListEnrolledAgents";
   R_ "DELETE" "/enrollment/agents/:id" [] "secHandler.DeactivateAgent";
   R_ "POST" "/commands/issue" [] "secHandler.IssueCommand";
   R_ "POST" "/commands/verify" [] "secHandler.VerifyCommand";
   R_ "GET" "/commands" [] "secHandler.ListCommands";
   R_ "GET" "/commands/pending/:targetId" [] "secHandler.GetPendingCommands"].

Definition identityAPI : list route :=
  group "/api/v1/auth" []
  [R_ "POST" "/token/exchange" [] "tokenExchange.ExchangeHandler";
   R_ "POST" "/token/introspect" [] "tokenExchange.IntrospectHandler"].

Definition enroll_route : list route :=
  group "" []
  [R_ "POST" "/api/v1/enroll" [] "enrolHandler.Enroll"].

Definition scep_routes : list route :=
  group "" []
  [R_ "GET" "/scep" [] "scepHandler.ServeHTTP";
   R_ "POST" "/scep" [] "scepHandler.ServeHTTP"].

Definition mdmAPI : list route :=
  group "/api/v1/mdm" []
  [R_ "POST" "/checkin" [] "h.Checkin";
   R_ "POST" "/management" [] "h.Management";
   R_ "POST" "/webhook/android" [] "h.AndroidWebhook"].

(** What is registered depends on the configuration. *)
Record config := mkConfig {
  oidc_ok : bool;               (** the OIDC provider started *)
  gateway_rest : bool;          (** GATEWAY_REST_ENABLED *)
  device_grants : bool;         (** a device-grant issuer is configured *)
  scep_ok : bool;               (** the SCEP CA started *)
}.

Definition when (b : bool) (l : list route) : list route := if b then l else [].

Definition routes (cfg : config) : list route :=
  public_wellknown ++ when (oidc_ok cfg) oidc_routes ++ drsAPI ++ windows_drs ++ enrollmentGroup
  ++ portalGroup ++ authAPI ++ onboardAPI ++ portalAPI ++ connectorAPI ++ userAPI ++ clientAPI
  ++ deviceAPI ++ objectsAPI ++ groupAPI ++ scimAPI ++ when (gateway_rest cfg) gwAPI ++ publicGWAPI
  ++ privateGWAPI ++ agentAPI ++ deviceClientAPI ++ when (device_grants cfg) dc_grant_route
  ++ enroll_route ++ agentPolicyAPI ++ meshAPI ++ admin_core ++ admin_config ++ admin_idp
  ++ admin_connectors ++ admin_assistant ++ admin_secrets ++ admin_itsm ++ itsmAPI ++ scannerAPI
  ++ auditAPI ++ dot1xAPI ++ sgtAPI ++ sdnAPI ++ idAPI ++ featureAPI ++ tenantAPI ++ operatorAPI
  ++ tierAPI ++ policyDetailAPI ++ ghostedAdminAPI ++ deviceInvAPI ++ reportAPI ++ postureAPI
  ++ rbacAPI ++ profileAPI ++ ghostAPI ++ ccAdminAPI ++ threatAPI ++ dnsLogsAPI ++ validationAPI
  ++ securityAPI ++ when (scep_ok cfg) scep_routes ++ identityAPI ++ mdmAPI.

(** ** Meaning *)

(** What main wires into the middleware. *)
Record services := mkServices {
  s_token : string → option claims;                       (** [authStore.ValidateAccessToken] *)
  s_gateway_mtls : bool;
  s_api_key : string → option string;                     (** [gwRegistry.ValidateAPIKey] *)
  s_leaf : string → option peer_cert;
  s_device : string → string → string → option string;    (** [deviceStore.ValidateMTLSDevice] *)
  s_scim : string → option string;                        (** [scimStore.ValidateSCIMToken] *)
  s_getenv : string → string;
  s_rand : bytes;
}.

Definition interp (s : services) (g : guard) : middleware :=
  match g with
  | GJWT => JWTAuth (Some (s_token s))
  | GWrite => RequireWriteAccess
  | GRole roles => RequireRole roles
  | GGateway => GatewayAuth (s_gateway_mtls s) (s_api_key s)
  | GDevice => DeviceMTLSAuth (s_leaf s) (Some (s_device s))
  | GSCIMType => SCIMContentType
  | GSCIM => SCIMAuth (s_scim s)
  end.

Definition global (s : services) : list middleware :=
  [RequestID (s_rand s); SecurityHeaders; CORS (s_getenv s)].

Definition dispatch (s : services) (r : route) (req : request) : outcome :=
  run (global s ++ (interp s <$> r_guards r)) req new_context.

(** The context with which a request reaches the handler of a route. *)
Definition reaches (s : services) (r : route) (req : request) (c : context) : Prop :=
  Method req = r_method r ∧ dispatch s r req = Next c.

(** ** The credentials behind a route *)

Definition token_role (s : services) (req : request) (role : string) : Prop :=
  ∃ tok c, bearer req = Some tok ∧ s_token s tok = Some c ∧ claim_string c "role" = role.

(** What a mutation must carry.  This is written by the paths of the interface, without the
    table above: the resources of a protocol want that protocol's credential, and every path
    not named here, so the whole administration, wants an administrator. *)
Inductive requirement :=
| NeedsAdmin                 (** a token with a role that may write *)
| NeedsToken                 (** a token, whatever its role *)
| NeedsClientUser            (** a token of a client user *)
| NeedsGateway | NeedsDevice | NeedsSCIM
| NeedsDeviceAndClientUser.

Definition required (path : string) : requirement :=
  if HasPrefix path "/scim/v2/" then NeedsSCIM
  else if HasPrefix path "/api/v1/gateway/" || HasPrefix path "/api/v1/dot1x/" then NeedsGateway
  else if bool_decide (path = "/api/v1/client/bind-user") then NeedsDeviceAndClientUser
  else if HasPrefix path "/api/v1/client/" then NeedsDevice
  else if bool_decide (path = "/api/v1/portal/devices/certificates") then NeedsClientUser
  else if bool_decide (path = "/api/v1/itsm/requests") then NeedsToken
  else NeedsAdmin.

Definition gateway_credential (s : services) (req : request) : Prop :=
  s_gateway_mtls s = true ∧ header req "X-Amzn-Mtls-Clientcert-Subject" ≠ ""
  ∨ ∃ key, (key = header req "X-Gateway-Key" ∨ bearer req = Some key) ∧ key ≠ "" ∧ is_Some (s_api_key s key).
Definition device_credential (s : services) (req : request) : Prop :=
  ∃ i, deviceCertificateIdentity (s_leaf s) req = Some i ∧ tenant_header req ≠ ""
    ∧ is_Some (s_device s (tenant_header req) (fingerprint i) (serial i)).

Definition satisfied (s : services) (q : requirement) (req : request) : Prop :=
  match q with
  | NeedsAdmin => ∃ role, token_role s req role ∧ TrimSpace role ∈ ["super_admin"; "org_admin"; "security_admin"]
  | NeedsToken => ∃ role, token_role s req role
  | NeedsClientUser => token_role s req "client_user"
  | NeedsGateway => gateway_credential s req
  | NeedsDevice => device_credential s req
  | NeedsSCIM => ∃ tok, bearer req = Some tok ∧ is_Some (s_scim s tok)
  | NeedsDeviceAndClientUser => device_credential s req ∧ token_role s req "client_user"
  end.

(** The mutating routes that main registers without any middleware. *)
Definition open_mutations : list (string * string) :=
  [("POST", "/authorize"); ("POST", "/token"); ("POST", "/device/code"); ("POST", "/device");
   ("POST", "/revoke"); ("POST", "/drs/v1/register"); ("POST", "/drs/v1/complete");
   ("PUT", "/drs/v1/device/:id/posture"); ("POST", "/drs/v1/device/:id/renew");
   ("DELETE", "/drs/v1/device/:id"); ("POST", "/enrollmentserver/devicejoin");
   ("POST", "/enrollmentserver/devicejoin/status"); ("POST", "/windows-hello/attest");
   ("POST", "/enrollment/admin-verify"); ("POST", "/enrollment/device-join");
   ("POST", "/api/v1/auth/login"); ("POST", "/api/v1/auth/refresh"); ("POST", "/api/v1/auth/logout");
   ("POST", "/api/v1/auth/sso/callback"); ("POST", "/api/v1/onboard/otp/request");
   ("POST", "/api/v1/onboard/otp/verify"); ("POST", "/api/v1/connector/sync");
   ("POST", "/api/v1/agent/auth"); ("POST", "/api/v1/agent/sso/kerberos"); ("POST", "/api/v1/enroll");
   ("POST", "/scep"); ("POST", "/api/v1/auth/token/exchange"); ("POST", "/api/v1/auth/token/introspect");
   ("POST", "/api/v1/mdm/checkin"); ("POST", "/api/v1/mdm/management");
   ("POST", "/api/v1/mdm/webhook/android")].

(** The middleware that checks a requirement. *)
Definition guards_for (q : requirement) : list guard :=
  match q with
  | NeedsAdmin => [GJWT; GWrite]
  | NeedsToken => [GJWT]
  | NeedsClientUser => [GJWT; GRole ["client_user"]]
  | NeedsGateway => [GGateway]
  | NeedsDevice => [GDevice]
  | NeedsSCIM => [GSCIMType; GSCIM]
  | NeedsDeviceAndClientUser => [GDevice; GJWT; GRole ["client_user"]]
  end.

(** Every mutating route has the middleware its path requires, or is on the list. *)
Definition guarded_or_open (r : route) : bool :=
  safe_method (r_method r) || bool_decide (r_guards r = guards_for (required (r_path r)))
  || bool_decide ((r_method r, r_path r) ∈ open_mutations).

Lemma all_guarded cfg r : r ∈ routes cfg → guarded_or_open r = true.
Proof.
  intros Hr. assert (forallb guarded_or_open (routes cfg) = true) as Hall.
  { destruct cfg as [[] [] [] []]; vm_compute; reflexivity. }
  rewrite forallb_forall in Hall. by apply Hall, list_elem_of_In.
Qed.

(** The list has nothing else: each of its routes exists and has no middleware. *)
Lemma open_mutations_open cfg r :
  r ∈ routes cfg → safe_method (r_method r) = false → (r_method r, r_path r) ∈ open_mutations ↔ r_guards r = [].
Proof.
  intros Hr Hs. set (f r := safe_method (r_method r)
    || bool_decide ((r_method r, r_path r) ∈ open_mutations ↔ r_guards r = [])).
  assert (forallb f (routes cfg) = true) as Hall.
  { destruct cfg as [[] [] [] []]; vm_compute; reflexivity. }
  rewrite forallb_forall in Hall. specialize (Hall r). unfold f in Hall. rewrite Hs in Hall.
  apply (bool_decide_eq_true_1 _), Hall. by apply list_elem_of_In.
Qed.

Lemma global_Next s req c : run (global s) req new_context = Next c → ∃ id o,
  c = mkCtx {["request_id" := id]} o.
Proof.
  cbn [run global]. unfold RequestID, SecurityHeaders, CORS. cbv zeta.
  destruct (bool_decide (header req "Origin" ≠ "")); [destruct (negb _); [done|]|];
    (destruct (bool_decide (Method req = "OPTIONS")); [done|]); intros [= <-]; by eexists _, _.
Qed.

Lemma JWTAuth_role s req x c :
  JWTAuth (Some (s_token s)) req x = Next c → GetString x "role" = "" → token_role s req (GetString c "role").
Proof.
  intros (f & tok & cl & [= <-] & Hb & Hf & ->)%JWTAuth_Next Hx. exists tok, cl. split_and!; [done..|].
  rewrite GetString_scope. cbn [String.eqb Ascii.eqb Bool.eqb orb]. rewrite andb_false_r. ctx.
  unfold claim_string. by destruct (cl !! "role") as [[]|], (cl !! "org_id") as [[]|].
Qed.
Lemma client_user_only role : role ∈ TrimSpace <$> ["client_user"] → role = "client_user".
Proof. intros Hr. by apply list_elem_of_singleton in Hr. Qed.

Lemma GatewayAuth_credential s req x c :
  GatewayAuth (s_gateway_mtls s) (s_api_key s) req x = Next c → gateway_credential s req.
Proof.
  unfold GatewayAuth. cbv zeta. destruct (decide (mtls_gateway (s_gateway_mtls s) req = "")) as [Hm|Hm].
  - rewrite Hm, (bool_decide_eq_false_2 ("" ≠ "")) by tauto. case_bool_decide as Hk; [done|]. destruct (s_api_key s (gateway_key req)) eqn:Hv; [|done]. intros _. right.
    exists (gateway_key req). rewrite Hv. split_and!; [|done|by eexists]. unfold gateway_key, bearer.
    repeat (case_bool_decide || case_match); auto.
  - intros _. left. revert Hm. unfold mtls_gateway. destruct (s_gateway_mtls s); [|done]. cbv zeta. case_bool_decide; [by split|done].
Qed.

Lemma GetString_request_id id o : GetString (mkCtx {["request_id" := id]} o) "role" = "".
Proof. reflexivity. Qed.

(** The middleware of a requirement checks it. *)
Lemma guards_satisfied s q req x c :
  GetString x "role" = "" → safe_method (Method req) = false →
  run (interp s <$> guards_for q) req x = Next c → satisfied s q req.
Proof.
  intros Hx Hs Hr. destruct q; cbn [guards_for fmap list_fmap interp satisfied] in Hr |- *;
    (eapply run_Next in Hr as (c1 & H1 & Hr); [|done]);
    try (eapply run_Next in Hr as (c2 & H2 & Hr); [|done]).
  - apply JWTAuth_role in H1; [|done]. exists (GetString c1 "role"). split; [done|]. revert H2. unfold RequireWriteAccess. rewrite Hs.
    by case_bool_decide.
  - apply JWTAuth_role in H1; eauto.
  - apply JWTAuth_role in H1; [|done]. revert H2. unfold RequireRole. case_bool_decide as Hc; [|done].
    by apply client_user_only in Hc as <-.
  - by eapply GatewayAuth_credential.
  - apply DeviceMTLSAuth_Next in H1 as (i & d & Hi & Ht & Hd & _). exists i. split_and!; [done|done|by eexists].
  - revert H2. unfold SCIMAuth, bearer. destruct (HasPrefix _ _); [|done]. cbn [negb].
    destruct (s_scim s _) eqn:E; [|done]. eexists. split; [done|by rewrite E].
  - apply DeviceMTLSAuth_Next in H1 as (i & d & Hi & Ht & Hd & _ & _ & _ & _ & Hkeep).
    split; [exists i; split_and!; [done|done|by eexists]|]. apply JWTAuth_role in H2; [|rewrite Hkeep; [done|set_solver]].
    eapply run_Next in Hr as (c3 & H3 & _); [|done]. revert H3. unfold RequireRole. case_bool_decide as Hc; [|done].
    by apply client_user_only in Hc as <-.
Qed.


(** ** Composition with the token services *)

Section Composition.
Context `{JwtLib} (jwtSecret : bytes).

(** The token check main passes to the middleware at time [now]. *)
Definition check_token (now : Z) (tok : string) : option claims :=
  match AuthStore.ValidateAccessToken jwtSecret now tok with Ok c => Some c | Err _ => None end.

Definition with_token_check (s : services) (now : Z) : services :=
  mkServices (check_token now) (s_gateway_mtls s) (s_api_key s) (s_leaf s) (s_device s) (s_scim s)
    (s_getenv s) (s_rand s).

(** A request from outside a browser with a bearer token and a tenant scope. *)
Definition bearer_request (method tok scope : string) : request :=
  mkReq method
    (λ h, if String.eqb h "Authorization" then bearerPrefix +:+ tok
          else if String.eqb h "X-Scope-Tenant-ID" then scope else "") [].

Lemma bearer_bearer_request m tok scope : bearer (bearer_request m tok scope) = Some tok.
Proof.
  unfold bearer, bearer_request. cbn [header String.eqb Ascii.eqb Bool.eqb].
  by rewrite HasPrefix_app, TrimPrefix_app.
Qed.

Lemma global_bearer s m tok scope :
  m ≠ "OPTIONS" → ∃ id o, run (global s) (bearer_request m tok scope) new_context
    = Next (mkCtx {["request_id" := id]} o).
Proof.
  intros Hm. cbn [run global]. unfold RequestID, SecurityHeaders, CORS. cbv zeta.
  change (header (bearer_request m tok scope) "Origin") with "".
  rewrite bool_decide_eq_false_2 by tauto. cbn [Method bearer_request].
  rewrite bool_decide_eq_false_2 by done. by eexists _, _.
Qed.

(** A token check that accepts [c] takes the request through an administration route, if
    it is a read or the role may write. *)
Lemma admin_reach s r m tok scope c :
  r_guards r = [GJWT; GWrite] → r_method r = m → m ≠ "OPTIONS" →
  s_token s tok = Some c →
  safe_method m = true ∨ TrimSpace (claim_string c "role") ∈ write_roles →
  ∃ x, reaches s r (bearer_request m tok scope) x
    ∧ GetString x "role" = claim_string c "role" ∧ GetString x "user_id" = claim_string c "sub"
    ∧ GetString x "org_id" =
        if bool_decide (claim_string c "role" = "super_admin" ∧ TrimSpace scope ≠ "")
        then TrimSpace scope else claim_string c "org_id".
Proof.
  intros Hg Hm Ho Ht Hw. destruct (global_bearer s m tok scope Ho) as (id & o & Hgl).
  set (req := bearer_request m tok scope) in *. set (x0 := mkCtx {["request_id" := id]} o) in *.
  set (y := set_claim c "email" "email" (set_claim c "role" "role"
              (set_org c (set_claim c "sub" "user_id" x0)))).
  assert (GetString y "role" = claim_string c "role") as Hrole.
  { subst y. ctx. unfold claim_string. by destruct (c !! "role") as [[]|], (c !! "org_id") as [[]|]. }
  assert (GetString y "org_id" = claim_string c "org_id") as Horg.
  { subst y. ctx. unfold claim_string. by destruct (c !! "org_id") as [[]|]. }
  assert (GetString y "user_id" = claim_string c "sub") as Hsub.
  { subst y. ctx. unfold claim_string. by destruct (c !! "sub") as [[]|], (c !! "org_id") as [[]|]. }
  assert (∀ k, String.eqb "scoped_tenant" k || String.eqb "user_org_id" k || String.eqb "org_id" k = false →
    GetString (scope_tenant req y) k = GetString y k) as Hsc.
  { intros k Hk. rewrite GetString_scope. cbv zeta. by rewrite Hk, andb_false_r. }
  exists (scope_tenant req y). split_and!.
  - split; [done|]. unfold dispatch. rewrite run_app, Hgl, Hg. cbn [fmap list_fmap run interp].
    rewrite (proj2 (JWTAuth_Next (Some (s_token s)) req x0 (scope_tenant req y))).
    + unfold RequireWriteAccess. rewrite Hsc by reflexivity. rewrite Hrole.
      destruct Hw as [Hw|Hw].
      * change (Method req) with m. by rewrite Hw.
      * destruct (safe_method (Method req)); [done|]. by rewrite bool_decide_eq_true_2.
    + exists (s_token s), tok, c. split_and!; [done|apply bearer_bearer_request|done|done].
  - by rewrite Hsc.
  - by rewrite Hsc.
  - rewrite GetString_scope. cbv zeta. rewrite Hrole, Horg.
    change (header req "X-Scope-Tenant-ID") with scope. cbn [String.eqb Ascii.eqb Bool.eqb orb].
    rewrite andb_true_r, andb_comm, <- bool_decide_and. done.
Qed.

(** Read access is not restricted to administrators.  A portal token, which the
    authentication store issues to an ordinary client user, reaches every read handler
    behind the administration middleware for fifteen minutes, with the user's own
    organization: the write check lets every authenticated read pass.  The handlers
    under /api/v1/admin/tenants, among them, answer across tenants. *)
Theorem portal_token_reads_admin s now t id email name org tok n r scope :
  AuthStore.IssuePortalToken jwtSecret now id email name org = Ok (tok, n) →
  (AuthStore.unix t < AuthStore.unix (now + AuthStore.access_ttl))%Z →
  r_guards r = [GJWT; GWrite] → r_method r = "GET" →
  ∃ x, reaches (with_token_check s t) r (bearer_request "GET" tok scope) x
    ∧ GetString x "role" = "client_user" ∧ GetString x "org_id" = org.
Proof.
  unfold AuthStore.IssuePortalToken. destruct (jwt_sign _ _) as [tok'|] eqn:Hs; [|done].
  intros [= -> _] Ht Hg Hm.
  destruct (admin_reach (with_token_check s t) r "GET" tok scope
              (AuthStore.portal_claims now id email name org) Hg Hm) as (x & Hx & Hr & _ & Ho);
    [done| |by left|].
  - cbn [s_token with_token_check]. unfold check_token. erewrite AuthStore.validate_signed; [done|done|].
    unfold expired. replace (_ !! "exp") with (Some (CNumber (AuthStore.unix (now + AuthStore.access_ttl))))
      by reflexivity. by apply Z.leb_gt.
  - exists x. split; [done|]. rewrite Hr, Ho. split; [reflexivity|].
    by rewrite bool_decide_eq_false_2 by (by intros [? _]).
Qed.

(** The token exchange endpoint breaks the authorization of the whole API.  The
    exchange service is registered without a guard and signs with the secret of the
    authentication store.  So anyone who presents a token signed with a key of their
    own, with a super_admin role claim, obtains a token with which every handler behind
    the administration middleware, reads and mutations alike, runs as super_admin for
    any tenant the caller names. *)
Theorem forged_token_owns_api s cfg key now t jti er c tok m r tenant :
  jwt_sign c key = Some (TokenExchange.SubjectToken er) → TokenExchange.SubjectToken er ≠ "" →
  c !! "role" = Some (CString "super_admin") →
  R_ "POST" "/api/v1/auth/token/exchange" [] "tokenExchange.ExchangeHandler" ∈ routes cfg →
  TokenExchange.Exchange jwtSecret now jti er = Ok tok →
  (AuthStore.unix t < now + TokenExchange.fifteen_minutes)%Z →
  r_guards r = [GJWT; GWrite] → r_method r = m → m ≠ "OPTIONS" →
  TrimSpace tenant = tenant → tenant ≠ "" →
  ∃ x, reaches (with_token_check s t) r
         (bearer_request m (TokenExchange.AccessToken tok) tenant) x
    ∧ GetString x "role" = "super_admin" ∧ GetString x "org_id" = tenant.
Proof.
  intros Hforged Hne Hrole _ Hex Ht Hg Hm Ho Htr Hten.
  apply (TokenExchange.exchange_forged_claims jwtSecret key now jti er c tok Hforged Hne Hrole) in Hex
    as (c' & Hs & Hr' & Hexp).
  destruct (admin_reach (with_token_check s t) r m (TokenExchange.AccessToken tok) tenant c' Hg Hm Ho)
    as (x & Hx & Hrx & _ & Hox).
  - cbn [s_token with_token_check]. unfold check_token. erewrite AuthStore.validate_signed; [done|done|].
    unfold expired. rewrite Hexp. by apply Z.leb_gt.
  - right. unfold claim_string. rewrite Hr'. by_evaluation.
  - exists x. split; [done|]. unfold claim_string in *. rewrite Hr' in Hrx, Hox. split; [done|].
    rewrite Hox, Htr. by rewrite bool_decide_eq_true_2.
Qed.

End Composition.

(** ** Witnesses *)

#[local] Existing Instance toy_jwt.

Definition demo_services : services :=
  mkServices demo_tokens false (λ _, None) (λ _, None) demo_device (λ _, None) (λ _, "")
    (of_string "rand").
Definition demo_config : config := mkConfig true true true true.
Definition create_policy : route :=
  R_ "POST" "/api/v1/admin/policies" [GJWT; GWrite] "adminHandler.CreatePolicy".
Definition list_tenants : route :=
  R_ "GET" "/api/v1/admin/tenants" [GJWT; GWrite] "tenantHandler.ListTenants".
Definition demo_secret : bytes := of_string "secret".
Definition demo_portal_token : string :=
  match AuthStore.IssuePortalToken demo_secret 0 "u1" "u@acme" "U" "acme" with
  | Ok (tok, _) => tok
  | Err _ => ""
  end.
Definition demo_exchange : TokenExchange.ExchangeResponse :=
  match TokenExchange.Exchange demo_secret 1000 "id" TokenExchange.forged_request with
  | Ok r => r
  | Err _ => TokenExchange.mkResponse "" "" 0 "" ""
  end.


Lemma portal_token_reads_admin_witness :
  ∃ x, reaches (with_token_check demo_secret demo_services 1000) list_tenants
         (bearer_request "GET" demo_portal_token "") x
    ∧ GetString x "role" = "client_user" ∧ GetString x "org_id" = "acme".
Proof.
  apply (portal_token_reads_admin demo_secret demo_services 0 1000 "u1" "u@acme" "U" "acme"
           demo_portal_token 900%Z list_tenants ""); reflexivity.
Defined.

Lemma forged_token_owns_api_witness :
  ∃ x, reaches (with_token_check demo_secret demo_services 0) create_policy
         (bearer_request "POST" (TokenExchange.AccessToken demo_exchange) "globex") x
    ∧ GetString x "role" = "super_admin" ∧ GetString x "org_id" = "globex".
Proof.
  refine (forged_token_owns_api demo_secret demo_services demo_config (of_string "guess") 1000 0 "id"
    TokenExchange.forged_request TokenExchange.forged_claims demo_exchange "POST" create_policy "globex"
    (TokenExchange.toy_sign _ _) TokenExchange.forged_nonempty _ _ _ _ _ _ _ _ _).
  - reflexivity.
  - apply (bool_decide_unpack _). vm_compute. exact I.
  - vm_compute. reflexivity.
  - reflexivity.
  - reflexivity.
  - reflexivity.
  - discriminate.
  - reflexivity.
  - discriminate.
Defined.

End Routes.
