(* ===== verification/Grant.v ===== *)
(** * Session grants (internal/grant/issuer.go, api/handlers/device_grant_handler.go)

    The issuer mints compact HS256 tokens that gateways verify offline: [marshal] is
    [json.Marshal] of the claims with the tags of the source, [sign] the three dotted
    parts.  [verify] is the reference reading of a token: the signature is recomputed
    over the first two parts and the payload is read back.  The device-grant handler is
    the client: it runs behind [Access.DeviceMTLSAuth] and mints a grant for the
    domain-controller segment of the tenant.

    [DEVICE_GRANT_DC_SEGMENTS] is read by [json.Unmarshal], an argument here. *)

From S2P Require Import Prelude GoStrings Encoding Sha256 Access.
From Stdlib Require Import Ascii.
#[local] Open Scope string_scope.
#[local] Open Scope list_scope.
#[local] Open Scope Z_scope.

Module Grant.
Import GoStrings Base64 Json.

Definition TypeUser : string := "user".
Definition TypeDevice : string := "device".
Definition DefaultIssuer : string := "device-api.apexaegis.app".

Record Claims := mkClaims {
  c_Issuer : string;
  Subject : string;
  DeviceID : string;
  Type_ : string;
  AppID : string;
  TargetHost : string;
  TargetPort : Z;
  TargetPorts : list Z;
  Protocol : string;
  IssuedAt : Z;
  ExpiresAt : Z;
  JWTID : string;
}.

Record Issuer := mkIssuer {
  signingKey : bytes;
  issuer : string;
  ttl : Z;
}.

Definition Option_ := Issuer → Issuer.
Definition WithIssuer (iss : string) : Option_ := λ i,
  if bool_decide (iss ≠ "") then mkIssuer (signingKey i) iss (ttl i) else i.
Definition WithTTL (d : Z) : Option_ := λ i,
  if 0 <? d then mkIssuer (signingKey i) (issuer i) d else i.

Inductive grant_error := ErrShortKey (n : nat) | ErrNoUser | ErrNoHost | ErrNoPort | ErrNoDevice.

(** Times in nanoseconds. *)
Definition second : Z := 1000000000.
Definition minute : Z := 60 * second.

Definition NewIssuer (signingKeyBase64 : string) (opts : list Option_) : result grant_error Issuer :=
  let key := default (of_string signingKeyBase64) (decode_std signingKeyBase64) in
  if (length key <? 32)%nat then Err (ErrShortKey (length key))
  else Ok (foldl (λ i o, o i) (mkIssuer key DefaultIssuer (5 * minute)) opts).

(** ** The token *)

(** A JSON literal, written with single quotes. *)
Definition lit (s : string) : string := smap (λ c, if Ascii.eqb c "'" then dq else c) s.

Fixpoint commas (l : list Z) : string :=
  match l with
  | [] => ""
  | n :: l => "," +:+ itoa n +:+ commas l
  end.
Definition int_array (l : list Z) : string :=
  match l with
  | [] => "[]"
  | n :: l => "[" +:+ itoa n +:+ commas l +:+ "]"
  end.

Definition ports_field (l : list Z) : string :=
  if bool_decide (l = []) then "" else lit ",'tgt_ports':" +:+ int_array l.

Definition marshal (c : Claims) : string :=
  lit "{'iss':" +:+ quote (c_Issuer c)
  +:+ (if bool_decide (Subject c = "") then "" else lit ",'sub':" +:+ quote (Subject c))
  +:+ lit ",'did':" +:+ quote (DeviceID c) +:+ lit ",'typ':" +:+ quote (Type_ c)
  +:+ lit ",'app':" +:+ quote (AppID c) +:+ lit ",'tgt_host':" +:+ quote (TargetHost c)
  +:+ lit ",'tgt_port':" +:+ itoa (TargetPort c)
  +:+ ports_field (TargetPorts c)
  +:+ lit ",'proto':" +:+ quote (Protocol c) +:+ lit ",'iat':" +:+ itoa (IssuedAt c)
  +:+ lit ",'exp':" +:+ itoa (ExpiresAt c) +:+ lit ",'jti':" +:+ quote (JWTID c) +:+ "}".

Definition jwt_header : string := encode_raw true (of_string (lit "{'alg':'HS256','typ':'JWT'}")).

Definition sign (key : bytes) (c : Claims) : string :=
  let payload := encode_raw true (of_string (marshal c)) in
  let sig := encode_raw true (Sha256.hmac_sha256 key (of_string (jwt_header +:+ "." +:+ payload))) in
  jwt_header +:+ "." +:+ payload +:+ "." +:+ sig.

Definition newJTI (rnd : bytes) : string := Hex.encode rnd.

Definition unix (t : Z) : Z := t / second.

(** The claims as [mint] completes them. *)
Definition filled (i : Issuer) (now : Z) (rnd : bytes) (c : Claims) : Claims :=
  mkClaims (issuer i) (Subject c) (DeviceID c) (Type_ c) (AppID c) (TargetHost c) (TargetPort c)
    (TargetPorts c) (Protocol c) (unix now) (unix (now + ttl i))
    (if bool_decide (JWTID c = "") then newJTI rnd else JWTID c).

Definition mint (i : Issuer) (now : Z) (rnd : bytes) (c : Claims) : result grant_error string :=
  if bool_decide (DeviceID c = "") then Err ErrNoDevice
  else Ok (sign (signingKey i) (filled i now rnd c)).

Definition UserGrant (i : Issuer) (now : Z) (rnd : bytes) (userID deviceID appID targetHost : string)
    (targetPort : Z) : result grant_error string :=
  if bool_decide (userID = "") then Err ErrNoUser
  else mint i now rnd (mkClaims "" userID deviceID TypeUser appID targetHost targetPort [] "tcp" 0 0 "").

Definition DeviceGrant (i : Issuer) (now : Z) (rnd : bytes) (deviceID appID targetHost : string)
    (targetPort : Z) : result grant_error string :=
  mint i now rnd (mkClaims "" "" deviceID TypeDevice appID targetHost targetPort [] "tcp" 0 0 "").

Definition DCScopeGrant (i : Issuer) (now : Z) (rnd : bytes) (deviceID appID dcHost : string)
    (ports : list Z) : result grant_error string :=
  if bool_decide (dcHost = "") then Err ErrNoHost
  else if bool_decide (ports = []) then Err ErrNoPort
  else mint i now rnd (mkClaims "" "" deviceID TypeDevice appID dcHost 0 ports "tcp" 0 0 "").

(** ** Reading a token back *)

Fixpoint read_commas (fuel : nat) (s : string) : option (list Z * string) :=
  match expect "," s, fuel with
  | Some s, S fuel =>
      '(n, s) ← read_int s; '(l, s) ← read_commas fuel s; Some (n :: l, s)
  | Some _, O => None
  | None, _ => Some ([], s)
  end.
Definition read_array (s : string) : option (list Z * string) :=
  s ← expect "[" s; '(n, s) ← read_int s; '(l, s) ← read_commas (String.length s) s;
  s ← expect "]" s; Some (n :: l, s).

Definition optional {A} (key : string) (d : A) (read : string → option (A * string)) (s : string)
  : option (A * string) :=
  match expect key s with Some s => read s | None => Some (d, s) end.

Definition read_claims (s : string) : option Claims :=
  s ← expect (lit "{'iss':") s; '(iss, s) ← unquote s;
  '(sub, s) ← optional (lit ",'sub':") "" unquote s;
  s ← expect (lit ",'did':") s; '(did, s) ← unquote s;
  s ← expect (lit ",'typ':") s; '(typ, s) ← unquote s;
  s ← expect (lit ",'app':") s; '(app, s) ← unquote s;
  s ← expect (lit ",'tgt_host':") s; '(host, s) ← unquote s;
  s ← expect (lit ",'tgt_port':") s; '(port, s) ← read_int s;
  '(ports, s) ← optional (lit ",'tgt_ports':") [] read_array s;
  s ← expect (lit ",'proto':") s; '(proto, s) ← unquote s;
  s ← expect (lit ",'iat':") s; '(iat, s) ← read_int s;
  s ← expect (lit ",'exp':") s; '(exp, s) ← read_int s;
  s ← expect (lit ",'jti':") s; '(jti, s) ← unquote s;
  s ← expect "}" s;
  if bool_decide (s = "") then Some (mkClaims iss sub did typ app host port ports proto iat exp jti)
  else None.

Definition verify (key : bytes) (token : string) : option Claims :=
  match Split "." token with
  | [h; p; g] =>
      if bool_decide (h = jwt_header)
         && bool_decide (g = encode_raw true (Sha256.hmac_sha256 key (of_string (h +:+ "." +:+ p))))
      then payload ← decode_raw true p; read_claims (to_string payload)
      else None
  | _ => None
  end.

(** ** Round trip *)

Definition texts (c : Claims) : list string :=
  [c_Issuer c; Subject c; DeviceID c; Type_ c; AppID c; TargetHost c; Protocol c; JWTID c].
Definition utf8_claims (c : Claims) : bool := forallb utf8 (texts c).

Lemma read_commas_roundtrip l : ∀ fuel rest,
  (length l <= fuel)%nat → starts_digit rest = false → expect "," rest = None →
  read_commas fuel (commas l +:+ rest) = Some (l, rest).
Proof.
  induction l as [|n l IH]; intros fuel rest Hf Hd He.
  - change (commas [] +:+ rest) with rest. destruct fuel; cbn [read_commas]; by rewrite He.
  - destruct fuel as [|fuel]; [cbn in Hf; lia|]. cbn [commas].
    rewrite !sapp_assoc. cbn [read_commas]. rewrite expect_app, read_int_itoa.
    + cbn [mbind option_bind]. rewrite IH; [done|cbn in Hf; lia|done|done].
    + by destruct l.
Qed.

Lemma commas_length l rest : (length l <= String.length (commas l +:+ rest))%nat.
Proof.
  induction l as [|n l IH]; [cbn; lia|]. cbn [commas length]. rewrite !sapp_assoc.
  rewrite !length_string_app in *. cbn [String.length]. lia.
Qed.

Lemma read_array_roundtrip n l rest : read_array (int_array (n :: l) +:+ rest) = Some (n :: l, rest).
Proof.
  unfold read_array, int_array. rewrite !sapp_assoc, expect_app. cbn [mbind option_bind].
  rewrite read_int_itoa by (by destruct l). cbn [mbind option_bind].
  rewrite read_commas_roundtrip; [|apply commas_length|done|done].
  cbn [mbind option_bind]. by rewrite expect_app.
Qed.

Lemma read_marshal c : utf8_claims c = true → read_claims (marshal c) = Some c.
Proof.
  destruct c as [iss sub did typ app host port ports proto iat exp jti]. unfold utf8_claims, texts.
  cbn [forallb c_Issuer Subject DeviceID Type_ AppID TargetHost Protocol JWTID].
  rewrite !andb_true_iff. intros (H1 & H2 & H3 & H4 & H5 & H6 & H7 & H8 & _).
  unfold marshal, read_claims.
  cbn [c_Issuer Subject DeviceID Type_ AppID TargetHost TargetPort TargetPorts Protocol IssuedAt ExpiresAt JWTID].
  rewrite expect_app. cbn [mbind option_bind]. rewrite unquote_quote by done. cbn [mbind option_bind].
  assert (∀ s, optional (lit ",'sub':") "" unquote
    ((if bool_decide (sub = "") then "" else lit ",'sub':" +:+ quote sub) +:+ lit ",'did':" +:+ s)
    = Some (sub, lit ",'did':" +:+ s)) as Hsub.
  { intros s. unfold optional. case_bool_decide as E; [by subst|].
    by rewrite sapp_assoc, expect_app, unquote_quote. }
  rewrite Hsub. cbn [mbind option_bind]. clear Hsub.
  do 4 (rewrite expect_app; cbn [mbind option_bind]; rewrite unquote_quote by done; cbn [mbind option_bind]).
  rewrite expect_app. cbn [mbind option_bind]. rewrite read_int_itoa by (by destruct ports).
  cbn [mbind option_bind].
  assert (∀ s, optional (lit ",'tgt_ports':") [] read_array
    (ports_field ports +:+ lit ",'proto':" +:+ s)
    = Some (ports, lit ",'proto':" +:+ s)) as Hports.
  { intros s. unfold optional, ports_field. destruct ports as [|n l]; [done|].
    rewrite bool_decide_eq_false_2 by done.
    by rewrite sapp_assoc, expect_app, read_array_roundtrip. }
  rewrite Hports. cbn [mbind option_bind]. clear Hports.
  rewrite expect_app. cbn [mbind option_bind]. rewrite unquote_quote by done. cbn [mbind option_bind].
  do 2 (rewrite expect_app; cbn [mbind option_bind]; rewrite read_int_itoa by done; cbn [mbind option_bind]).
  rewrite expect_app. cbn [mbind option_bind]. rewrite unquote_quote by done. reflexivity.
Qed.

Lemma verify_sign key c : utf8_claims c = true → verify key (sign key c) = Some c.
Proof.
  intros H. unfold verify, sign. cbv zeta. unfold jwt_header.
  set (h := encode_raw true (of_string (lit _))). set (p := encode_raw true (of_string (marshal c))).
  change (h +:+ "." +:+ p +:+ "." +:+ ?g) with (h +:+ String "." (p +:+ String "." g)).
  rewrite !Split_app by apply encode_raw_nodot. rewrite Split_nodot by apply encode_raw_nodot.
  rewrite !bool_decide_eq_true_2 by done. cbn [andb]. subst p.
  rewrite decode_encode_raw. cbn [mbind option_bind]. rewrite to_of_string. by apply read_marshal.
Qed.

(** Tokens of the same key differ when their claims do. *)
Lemma sign_inj key c1 c2 : utf8_claims c1 = true → utf8_claims c2 = true →
  sign key c1 = sign key c2 → c1 = c2.
Proof.
  intros H1 H2 E. apply (f_equal (verify key)) in E. rewrite !verify_sign in E by done. congruence.
Qed.

(** ** Domain-controller grants (device_grant_handler.go) *)

Record DCSegment := mkSegment {
  Host : string;
  Ports : list Z;
}.

Definition DefaultDCPorts : list Z := [88; 389; 445; 464; 636; 3268].

Definition configDCSegments : Type := gmap string DCSegment.
#[global] Typeclasses Transparent configDCSegments.

Definition default_ports (seg : DCSegment) : DCSegment :=
  if bool_decide (Ports seg = []) then mkSegment (Host seg) DefaultDCPorts else seg.

(** [Unmarshal] is [json.Unmarshal] into the map; [None] is its error. *)
Definition NewConfigDCSegments (Unmarshal : string → option configDCSegments) (jsonSpec : string)
  : option configDCSegments :=
  match (if bool_decide (TrimSpace jsonSpec ≠ "") then Unmarshal jsonSpec else Some ∅) with
  | None => None
  | Some m => Some (default_ports <$> m)
  end.

Definition Resolve (r : configDCSegments) (orgID : string) : option DCSegment :=
  let use key := match r !! key with
                 | Some seg => if bool_decide (Host seg ≠ "") then Some seg else None
                 | None => None
                 end in
  match use orgID with Some seg => Some seg | None => use "*" end.

Definition DCSegmentAppID : string := "dc-segment".

Inductive grant_reply := GrantStatus (code : Z) | GrantOk (token : string) (seg : DCSegment).

Section Handler.
(** [GetDeviceDetail]: the status of the device, [None] when there is an error or no row. *)
Context (GetDeviceDetail : string → string → option string).

Definition IssueDCGrant (i : Issuer) (segments : configDCSegments) (now : Z) (rnd : bytes)
    (c : Access.context) : grant_reply :=
  let orgID := Access.GetString c "org_id" in
  let deviceID := Access.GetString c "device_id" in
  if bool_decide (orgID = "") || bool_decide (deviceID = "") then GrantStatus 401
  else
    let deviceCN := Access.GetString c "device_cn" in
    if bool_decide (deviceCN = "") then GrantStatus 401
    else
      match GetDeviceDetail orgID deviceID with
      | None => GrantStatus 403
      | Some status =>
          if bool_decide (status ≠ "") && bool_decide (status ≠ "active") then GrantStatus 403
          else
            match Resolve segments orgID with
            | None => GrantStatus 404
            | Some seg =>
                match DCScopeGrant i now rnd deviceCN DCSegmentAppID (Host seg) (Ports seg) with
                | Err _ => GrantStatus 500
                | Ok token => GrantOk token seg
                end
            end
      end.

Lemma resolve_configured Unmarshal spec segs org seg :
  NewConfigDCSegments Unmarshal spec = Some segs → Resolve segs org = Some seg →
  Host seg ≠ "" ∧ Ports seg ≠ [].
Proof.
  intros Hn Hr. unfold NewConfigDCSegments, Resolve, configDCSegments in *. destruct (if bool_decide _ then _ else _) as [m|]; [|done].
  injection Hn as <-.
  assert (∀ key seg, match (default_ports <$> m : gmap string DCSegment) !! key with
      | Some seg => if bool_decide (Host seg ≠ "") then Some seg else None
      | None => None end = Some seg → Host seg ≠ "" ∧ Ports seg ≠ []) as Huse.
  { intros key s. rewrite lookup_fmap. destruct (m !! key) as [s'|]; [|done]. cbn.
    case_bool_decide as Hh; [|done]. intros [= <-]. split; [done|].
    unfold default_ports. case_bool_decide; done. }
  cbv zeta in Hr.
  destruct (match _ !! org with Some _ => _ | None => _ end) eqn:E; [|by apply (Huse "*")].
  injection Hr as <-. by apply (Huse org).
Qed.

(** What a machine-tunnel grant says. *)
Definition dc_claims (i : Issuer) (now : Z) (rnd : bytes) (cn : string) (seg : DCSegment) : Claims :=
  mkClaims (issuer i) "" cn TypeDevice DCSegmentAppID (Host seg) 0 (Ports seg) "tcp"
    (unix now) (unix (now + ttl i)) (newJTI rnd).

Definition active_device (org dev : string) : Prop :=
  GetDeviceDetail org dev = Some "" ∨ GetDeviceDetail org dev = Some "active".

(** The handler on every context. *)
Lemma IssueDCGrant_cases i Unmarshal spec segs now rnd c :
  NewConfigDCSegments Unmarshal spec = Some segs →
  let org := Access.GetString c "org_id" in
  let dev := Access.GetString c "device_id" in
  let cn := Access.GetString c "device_cn" in
  (∃ code, IssueDCGrant i segs now rnd c = GrantStatus code ∧ code ∈ [401; 403; 404]
     ∧ ¬ (org ≠ "" ∧ dev ≠ "" ∧ cn ≠ "" ∧ active_device org dev ∧ is_Some (Resolve segs org)))
  ∨ ∃ seg, IssueDCGrant i segs now rnd c
             = GrantOk (sign (signingKey i) (dc_claims i now rnd cn seg)) seg
     ∧ org ≠ "" ∧ dev ≠ "" ∧ cn ≠ "" ∧ active_device org dev ∧ Resolve segs org = Some seg.
Proof.
  intros Hsegs. cbv zeta. unfold IssueDCGrant, active_device.
  set (org := Access.GetString c "org_id"). set (dev := Access.GetString c "device_id").
  set (cn := Access.GetString c "device_cn").
  case_bool_decide as Ho; [left; exists 401; split_and!; [done|set_solver|tauto]|].
  case_bool_decide as Hd; [left; exists 401; split_and!; [done|set_solver|tauto]|]. cbn [orb].
  case_bool_decide as Hc; [left; exists 401; split_and!; [done|set_solver|tauto]|].
  destruct (GetDeviceDetail org dev) as [st|] eqn:Hst;
    [|left; exists 403; split_and!; [done|set_solver|by intros (_ & _ & _ & [?|?] & _)]].
  destruct (_ && _) eqn:Hact.
  - left; exists 403; split_and!; [done|set_solver|].
    apply andb_prop in Hact as [H1%bool_decide_eq_true H2%bool_decide_eq_true].
    intros (_ & _ & _ & [?|?] & _); congruence.
  - destruct (Resolve segs org) as [seg|] eqn:Hr;
      [|left; exists 404; split_and!; [done|set_solver|by intros (_ & _ & _ & _ & [? ?])]].
    right. exists seg. destruct (resolve_configured _ _ _ _ _ Hsegs Hr) as [Hh Hp].
    unfold DCScopeGrant, mint. rewrite !bool_decide_eq_false_2 by done. split_and!; try done.
    apply andb_false_iff in Hact as [Hb|Hb]; apply bool_decide_eq_false in Hb.
    + left. f_equal. by destruct (decide (st = "")).
    + right. f_equal. by destruct (decide (st = "active")).
Qed.

(** The machine-tunnel grant is bound to the authenticated device.  Behind device
    authentication, with segments read from the configuration, the handler answers with a
    grant exactly for an active device of the tenant (an unset status counts as active)
    whose certificate has a common name and whose tenant has a segment, and otherwise with
    status 401, 403 or 404; minting never fails.  The grant verifies under the shared key
    and says: no user, the common name of the presented certificate, the host and the
    nonempty port set of the segment, and the issuer's time to live. *)
Theorem dc_grant_exact i Unmarshal spec segs pl v req c now rnd :
  NewConfigDCSegments Unmarshal spec = Some segs →
  Access.DeviceMTLSAuth pl (Some v) req Access.new_context = Access.Next c →
  let org := Access.tenant_header req in
  ∃ id dev, Access.deviceCertificateIdentity pl req = Some id
    ∧ v org (Access.fingerprint id) (Access.serial id) = Some dev
    ∧ let cn := Access.extractCN (Access.subject id) in
      ((∃ code, IssueDCGrant i segs now rnd c = GrantStatus code ∧ code ∈ [401; 403; 404]
          ∧ ¬ (dev ≠ "" ∧ cn ≠ "" ∧ active_device org dev ∧ is_Some (Resolve segs org)))
       ∨ ∃ token seg, IssueDCGrant i segs now rnd c = GrantOk token seg
          ∧ dev ≠ "" ∧ cn ≠ "" ∧ active_device org dev ∧ Resolve segs org = Some seg
          ∧ Ports seg ≠ []
          ∧ (forallb utf8 [issuer i; cn; Host seg] = true →
             verify (signingKey i) token
             = Some (mkClaims (issuer i) "" cn "device" "dc-segment" (Host seg) 0 (Ports seg) "tcp"
                       (unix now) (unix (now + ttl i)) (Hex.encode rnd)))).
Proof.
  intros Hsegs Hauth. cbv zeta.
  apply Access.DeviceMTLSAuth_Next in Hauth as (id & dev & Hid & Hten & Hv & Horg & _ & Hdev & Hcn & _).
  exists id, dev. split; [done|]. split; [done|].
  pose proof (IssueDCGrant_cases i Unmarshal spec segs now rnd c Hsegs) as Hc. cbv zeta in Hc.
  rewrite Horg, Hdev, Hcn in Hc.
  destruct Hc as [(code & Hc & Hin & Hn)|(seg & Hc & _ & Hd & Hcne & Hact & Hr)].
  - left. exists code. split_and!; [done|done|]. tauto.
  - right. eexists _, seg. split_and!; try done.
    + by destruct (resolve_configured _ _ _ _ _ Hsegs Hr).
    + cbn [forallb]. rewrite !andb_true_iff. intros (H1 & H2 & H3 & _).
      rewrite verify_sign; [done|]. unfold utf8_claims, texts, dc_claims, newJTI.
      cbn [forallb c_Issuer Subject DeviceID Type_ AppID TargetHost Protocol JWTID].
      by rewrite H1, H2, H3, utf8_hex.
Qed.

(** Grants round trip.  A token minted for a user or for a device verifies under the
    signing key and reads back as exactly the requested target with the issuer's name and
    lifetime; minting fails exactly for a missing user, device, host or port list, and
    tokens of different claims differ. *)
Theorem grant_roundtrip i now rnd :
  (∀ user dev app host port,
     UserGrant i now rnd user dev app host port =
       (if bool_decide (user = "") then Err ErrNoUser
        else if bool_decide (dev = "") then Err ErrNoDevice
        else Ok (sign (signingKey i) (mkClaims (issuer i) user dev "user" app host port [] "tcp"
                   (unix now) (unix (now + ttl i)) (Hex.encode rnd)))))
  ∧ (∀ dev app host port,
     DeviceGrant i now rnd dev app host port =
       (if bool_decide (dev = "") then Err ErrNoDevice
        else Ok (sign (signingKey i) (mkClaims (issuer i) "" dev "device" app host port [] "tcp"
                   (unix now) (unix (now + ttl i)) (Hex.encode rnd)))))
  ∧ (∀ key c, utf8_claims c = true → verify key (sign key c) = Some c)
  ∧ (∀ key c c', utf8_claims c = true → utf8_claims c' = true → sign key c = sign key c' → c = c')
  ∧ (ttl i `mod` second = 0 → unix (now + ttl i) - unix now = ttl i / second).
Proof.
  split_and!.
  - intros. unfold UserGrant, mint. by repeat case_bool_decide.
  - intros. unfold DeviceGrant, mint. by repeat case_bool_decide.
  - apply verify_sign.
  - apply sign_inj.
  - intros H. unfold unix. apply Z.mod_divide in H as [k ->]; [|done].
    rewrite Z.div_add, Z.div_mul by done. lia.
Qed.

End Handler.

(** ** Witnesses *)

Definition demo_issuer : Issuer :=
  mkIssuer (of_string "0123456789abcdef0123456789abcdef") DefaultIssuer (20 * minute).
Definition demo_segments : configDCSegments := {["acme" := mkSegment "10.10.1.4" []]}.
Definition demo_devices (org dev : string) : option string :=
  if String.eqb org "acme" && String.eqb dev "dev-7" then Some "active" else None.

Lemma dc_grant_exact_witness :
  ∃ token seg, IssueDCGrant demo_devices demo_issuer (default_ports <$> demo_segments) (7 * second)
      (of_string "rand")
      (Access.final (Access.DeviceMTLSAuth (λ _, None) (Some Access.demo_device)
         (Access.demo_request "user-token") Access.new_context)) = GrantOk token seg
    ∧ Ports seg = DefaultDCPorts
    ∧ option_map DeviceID (verify (signingKey demo_issuer) token) = Some "laptop-7".
Proof.
  destruct (dc_grant_exact demo_devices demo_issuer (λ _, Some demo_segments) "spec"
    (default_ports <$> demo_segments) (λ _, None) Access.demo_device (Access.demo_request "user-token")
    (Access.final (Access.DeviceMTLSAuth (λ _, None) (Some Access.demo_device)
         (Access.demo_request "user-token") Access.new_context)) (7 * second) (of_string "rand"))
    as (id & dev & Hid & Hv & [(code & Hc & _ & Hn)|(token & seg & Hc & _ & _ & _ & Hr & _ & Hver)]).
  - reflexivity.
  - vm_compute. reflexivity.
  - exfalso. apply Hn. vm_compute in Hid. injection Hid as <-. vm_compute in Hv. injection Hv as <-.
    split; [discriminate|]. split; [discriminate|]. split; [right; reflexivity|]. eexists. reflexivity.
  - exists token, seg. split; [exact Hc|]. vm_compute in Hid. injection Hid as <-.
    assert (seg = mkSegment "10.10.1.4" DefaultDCPorts) as ->.
    { vm_compute in Hr. injection Hr as <-. reflexivity. }
    split; [reflexivity|]. rewrite Hver by (vm_compute; reflexivity). reflexivity.
Defined.

End Grant.
