(* ===== verification/KeyVault.v ===== *)
(** * Key vault (internal/security/key_vault.go)

    Envelope encryption of key material: every entry has a data key of its own, wrapped
    by the master key.  AES-GCM is the [AesGcm] interface with the scheme's correctness;
    a nonce that is not twelve bytes long makes the library panic.  Argon2id is an
    argument.  The vault file is part of the state ([file], [None]: absent); [io = None]
    is a successful write, [io = Some f] a failed one that leaves [f].  [encoding/json] is
    a pair of functions; what is assumed of it is that a map it can represent (entries
    that are not null, texts in UTF-8, times in the years of RFC 3339) reads back as it
    was written.

    A file that holds [null] leaves a nil map, in which [Seal] panics, and a [null] entry
    is a nil pointer, on which [Unseal], [ListEntries] and [MarkRotated] panic; so
    [entries] is an optional map of optional entries ([null_file], [null_entry]).

    The abstract vault is a map from identifiers to key material: [vault_refines]. *)

From S2P Require Import Prelude GoStrings Encoding Sha256.
#[local] Open Scope string_scope.
#[local] Open Scope nat_scope.
#[local] Open Scope list_scope.

Module KeyVault.

Class AesGcm := {
  gcm_seal : bytes → bytes → bytes → bytes;          (** key, nonce, plaintext *)
  gcm_open : bytes → bytes → bytes → option bytes;   (** key, nonce, ciphertext *)
  gcm_correct : ∀ k n p, gcm_open k n (gcm_seal k n p) = Some p;
}.

Record VaultEntry := mkEntry {
  ID : string;
  Label : string;
  EncryptedDEK : string;
  DEKNonce : string;
  EncryptedData : string;
  DataNonce : string;
  CreatedAt : Z;
  RotatedAt : option Z;
  KeyType : string;
}.

Record KeyVault := mkVault {
  kek : bytes;
  entries : option (gmap string (option VaultEntry));   (** [None]: the nil map; [Some None]: a nil pointer *)
  storePath : string;
  file : option string;
}.

Inductive vault_error :=
| ErrPassphrase | ErrDEK | ErrWrapDEK | ErrEncrypt | ErrPersist
| ErrNotFound (id : string) | ErrHex | ErrUnwrapDEK | ErrDecrypt.

(** What a call that may panic gives. *)
Inductive outcome (A : Type) := Val (a : A) | Fail (e : vault_error) | Panic.
Arguments Val {A} a.
Arguments Fail {A} e.
Arguments Panic {A}.

Definition aes_key (key : bytes) : bool := bool_decide (length key ∈ [16; 24; 32]).
Definition nonce_size : nat := 12.

Section WithLibraries.
Context `{AesGcm}.
Context (marshal : option (gmap string (option VaultEntry)) → option string)
  (unmarshal : string → option (option (gmap string (option VaultEntry)))).
Context (argon2 : bytes → bytes → bytes).

(** [rnd]: the nonce, [None] a failing source. *)
Definition aesGCMEncrypt (key plaintext : bytes) (rnd : option bytes) : option (bytes * bytes) :=
  if aes_key key then
    match rnd with Some nonce => Some (gcm_seal key nonce plaintext, nonce) | None => None end
  else None.

(** [Val None] is the error. *)
Definition aesGCMDecrypt (key ciphertext nonce : bytes) : outcome (option bytes) :=
  if negb (aes_key key) then Val None
  else if negb (length nonce =? nonce_size) then Panic
  else Val (gcm_open key nonce ciphertext).

Definition deriveVaultSalt (storePath : string) : bytes :=
  take 16 (Sha256.sha256 (of_string ("apexaegis-keyvault-v1:" +:+ storePath))).

Definition saveToDisk (io : option (option string)) (v : KeyVault) : KeyVault * bool :=
  if bool_decide (storePath v = "") then (v, true)
  else
    match io with
    | None =>
        match marshal (entries v) with
        | Some data => (mkVault (kek v) (entries v) (storePath v) (Some data), true)
        | None => (v, false)
        end
    | Some f => (mkVault (kek v) (entries v) (storePath v) f, false)
    end.

(** [None]: the file is missing or unreadable. *)
Definition loadFromDisk (v : KeyVault) : option KeyVault :=
  match file v with
  | None => None
  | Some data =>
      match unmarshal data with
      | None => None
      | Some es => Some (mkVault (kek v) es (storePath v) (file v))
      end
  end.

Definition NewKeyVault (passphrase path : string) (f : option string) : result vault_error KeyVault :=
  if bool_decide (passphrase = "") then Err ErrPassphrase
  else
    let v := mkVault (argon2 (of_string passphrase) (deriveVaultSalt path)) (Some ∅) path f in
    Ok (default v (loadFromDisk v)).

Record seal_env := mkSealEnv {
  r_dek : option bytes;
  r_dek_nonce : option bytes;
  r_data_nonce : option bytes;
  s_now : Z;
  s_io : option (option string);
}.

Definition with_entries (v : KeyVault) (es : option (gmap string (option VaultEntry))) : KeyVault :=
  mkVault (kek v) es (storePath v) (file v).

Definition Seal (e : seal_env) (v : KeyVault) (id label keyType : string) (plainKey : bytes)
  : KeyVault * outcome unit :=
  match r_dek e with
  | None => (v, Fail ErrDEK)
  | Some dek =>
      match aesGCMEncrypt (kek v) dek (r_dek_nonce e) with
      | None => (v, Fail ErrWrapDEK)
      | Some (encDEK, dekNonce) =>
          match aesGCMEncrypt dek plainKey (r_data_nonce e) with
          | None => (v, Fail ErrEncrypt)
          | Some (encData, dataNonce) =>
              let entry := mkEntry id label (Hex.encode encDEK) (Hex.encode dekNonce)
                             (Hex.encode encData) (Hex.encode dataNonce) (s_now e) None keyType in
              match entries v with
              | None => (v, Panic)
              | Some es =>
                  let '(v, ok) := saveToDisk (s_io e) (with_entries v (Some (<[id := Some entry]> es))) in
                  (v, if ok then Val tt else Fail ErrPersist)
              end
          end
      end
  end.

(** The part of [Unseal] after the lookup. *)
Definition open_entry (kek : bytes) (entry : VaultEntry) : outcome bytes :=
  let '(encDEK, ok1) := Hex.decode (EncryptedDEK entry) in
  let '(dekNonce, ok2) := Hex.decode (DEKNonce entry) in
  let '(encData, ok3) := Hex.decode (EncryptedData entry) in
  let '(dataNonce, ok4) := Hex.decode (DataNonce entry) in
  if negb (ok1 && ok2 && ok3 && ok4) then Fail ErrHex
  else
    match aesGCMDecrypt kek encDEK dekNonce with
    | Panic => Panic
    | Fail e => Fail e
    | Val None => Fail ErrUnwrapDEK
    | Val (Some dek) =>
        match aesGCMDecrypt dek encData dataNonce with
        | Panic => Panic
        | Fail e => Fail e
        | Val None => Fail ErrDecrypt
        | Val (Some plainKey) => Val plainKey
        end
    end.

(** [v.entries[id]]: a nil map has no entries. *)
Definition get (v : KeyVault) (id : string) : option (option VaultEntry) := entries v ≫= (.!! id).

Definition Unseal (v : KeyVault) (id : string) : outcome bytes :=
  match get v id with
  | None => Fail (ErrNotFound id)
  | Some None => Panic
  | Some (Some entry) => open_entry (kek v) entry
  end.

Definition Has (v : KeyVault) (id : string) : bool := bool_decide (is_Some (get v id)).

Definition Delete (io : option (option string)) (v : KeyVault) (id : string) : KeyVault * bool :=
  saveToDisk io (with_entries v (delete id <$> entries v)).

Fixpoint list_entries (es : list (option VaultEntry)) : outcome (list VaultEntry) :=
  match es with
  | [] => Val []
  | None :: _ => Panic
  | Some e :: es =>
      match list_entries es with
      | Val l => Val (mkEntry (ID e) (Label e) "" "" "" "" (CreatedAt e) (RotatedAt e) (KeyType e) :: l)
      | r => r
      end
  end.
Definition ListEntries (ro : range_order) (v : KeyVault) : outcome (list VaultEntry) :=
  list_entries (values ro (default ∅ (entries v))).

Definition set_rotated (now : Z) (e : VaultEntry) : VaultEntry :=
  mkEntry (ID e) (Label e) (EncryptedDEK e) (DEKNonce e) (EncryptedData e) (DataNonce e)
    (CreatedAt e) (Some now) (KeyType e).

Definition MarkRotated (now : Z) (io : option (option string)) (v : KeyVault) (id : string)
  : KeyVault * outcome unit :=
  match get v id with
  | None => (v, Val tt)
  | Some None => (v, Panic)
  | Some (Some entry) =>
      (fst (saveToDisk io (with_entries v (insert id (Some (set_rotated now entry)) <$> entries v))), Val tt)
  end.

(** ** The abstract vault *)

Abbreviation content := (gmap string bytes).

(** The map is there, and [Unseal], through which every operation sees an entry, gives
    what the abstract vault has. *)
Definition holds (v : KeyVault) (m : content) : Prop :=
  aes_key (kek v) = true ∧ is_Some (entries v)
  ∧ ∀ id, Unseal v id = match m !! id with Some p => Val p | None => Fail (ErrNotFound id) end.

(** The random source of the platform delivers what it is asked for. *)
Definition good_env (e : seal_env) : Prop :=
  (∀ d, r_dek e = Some d → length d = 32)
  ∧ (∀ n, r_dek_nonce e = Some n → length n = 12) ∧ (∀ n, r_data_nonce e = Some n → length n = 12).

Lemma save_keeps io v v' ok : saveToDisk io v = (v', ok) →
  kek v' = kek v ∧ entries v' = entries v ∧ storePath v' = storePath v
  ∧ (ok = true → storePath v ≠ "" → file v' = marshal (entries v') ∧ is_Some (file v')).
Proof.
  unfold saveToDisk. case_bool_decide; [by intros [= <- <-]|].
  destruct io; [by intros [= <- <-]|].
  destruct (marshal (entries v)) as [t|] eqn:Em; intros [= <- <-]; [|done].
  split_and!; by eauto.
Qed.

Lemma Unseal_ext v v' id :
  kek v' = kek v → get v' id = get v id → Unseal v' id = Unseal v id.
Proof. unfold Unseal. by intros -> ->. Qed.

Lemma gcm_decrypt_encrypt key p rnd c n :
  (∀ n, rnd = Some n → length n = 12) → aesGCMEncrypt key p rnd = Some (c, n) →
  aesGCMDecrypt key c n = Val (Some p).
Proof.
  intros Hn. unfold aesGCMEncrypt, aesGCMDecrypt. destruct (aes_key key); [|done].
  destruct rnd as [nonce|]; [|done]. intros [= <- <-]. cbn [negb].
  rewrite (Hn nonce) by done. cbn. by rewrite gcm_correct.
Qed.

(** An entry made by [Seal] opens to the sealed key. *)
Lemma open_sealed e kek dek p encDEK dn encData n id label kt :
  good_env e → aesGCMEncrypt kek dek (r_dek_nonce e) = Some (encDEK, dn) →
  aesGCMEncrypt dek p (r_data_nonce e) = Some (encData, n) →
  open_entry kek (mkEntry id label (Hex.encode encDEK) (Hex.encode dn) (Hex.encode encData)
                    (Hex.encode n) (s_now e) None kt) = Val p.
Proof.
  intros (_ & H1 & H2) E1 E2. unfold open_entry.
  cbn [EncryptedDEK DEKNonce EncryptedData DataNonce]. rewrite !Hex.decode_encode. cbn [negb andb].
  rewrite (gcm_decrypt_encrypt _ _ _ _ _ H1 E1). by rewrite (gcm_decrypt_encrypt _ _ _ _ _ H2 E2).
Qed.

Lemma Seal_cases e v id label kt p v' r :
  good_env e → is_Some (entries v) → Seal e v id label kt p = (v', r) →
  (v' = v ∧ ∃ er, r = Fail er ∧ er ≠ ErrPersist)
  ∨ (kek v' = kek v ∧ storePath v' = storePath v ∧ Unseal v' id = Val p
     ∧ (∃ es en, entries v = Some es ∧ entries v' = Some (<[id := Some en]> es)
        ∧ ID en = id ∧ Label en = label ∧ KeyType en = kt ∧ CreatedAt en = s_now e ∧ RotatedAt en = None
        ∧ ∃ b1 b2 b3 b4, EncryptedDEK en = Hex.encode b1 ∧ DEKNonce en = Hex.encode b2
          ∧ EncryptedData en = Hex.encode b3 ∧ DataNonce en = Hex.encode b4)
     ∧ (r = Val tt ∨ r = Fail ErrPersist)
     ∧ (r = Val tt → storePath v ≠ "" → file v' = marshal (entries v') ∧ is_Some (file v'))).
Proof.
  intros He [es Hes]. unfold Seal. destruct (r_dek e) as [dek|]; [|intros [= <- <-]; left; by eauto].
  destruct (aesGCMEncrypt (kek v) dek _) as [[encDEK dn]|] eqn:E1; [|intros [= <- <-]; left; by eauto].
  destruct (aesGCMEncrypt dek p _) as [[encData n]|] eqn:E2; [|intros [= <- <-]; left; by eauto].
  cbv zeta. rewrite Hes. destruct (saveToDisk _ _) as [v1 ok] eqn:Es.
  intros [= <- <-]. right. apply save_keeps in Es as (Hk & Hen & Hsp & Hf).
  cbn [kek entries storePath with_entries] in *.
  split_and!; [done|done|..].
  - unfold Unseal, get. rewrite Hen, Hk. cbn [mbind option_bind]. rewrite lookup_insert_eq. by eapply open_sealed.
  - eexists es, _. split; [done|]. split; [exact Hen|]. cbn. split_and!; try done. by eauto 10.
  - destruct ok; auto.
  - intros Hr. apply Hf. by destruct ok.
Qed.

(** One call on the vault, its answer, and what it does to the abstract vault. *)
Inductive call :=
| CSeal (e : seal_env) (id label kt : string) (p : bytes)
| CDelete (io : option (option string)) (id : string)
| CMark (now : Z) (io : option (option string)) (id : string).

Definition exec (c : call) (v : KeyVault) : KeyVault :=
  match c with
  | CSeal e id label kt p => fst (Seal e v id label kt p)
  | CDelete io id => fst (Delete io v id)
  | CMark now io id => fst (MarkRotated now io v id)
  end.

Definition answer (c : call) (v : KeyVault) : outcome unit :=
  match c with
  | CSeal e id label kt p => snd (Seal e v id label kt p)
  | CDelete io id => if snd (Delete io v id) then Val tt else Fail ErrPersist
  | CMark now io id => snd (MarkRotated now io v id)
  end.

(** A sealing that fails before the entry is stored has no effect; one that only fails
    to persist has. *)
Definition sealed (e : seal_env) (v : KeyVault) (id label kt : string) (p : bytes) : bool :=
  match snd (Seal e v id label kt p) with Val _ | Fail ErrPersist => true | _ => false end.
Definition abstract (c : call) (v : KeyVault) (m : content) : content :=
  match c with
  | CSeal e id label kt p => if sealed e v id label kt p then <[id := p]> m else m
  | CDelete _ id => delete id m
  | CMark _ _ _ => m
  end.
Definition good_call (c : call) : Prop := match c with CSeal e _ _ _ _ => good_env e | _ => True end.

Lemma save_const io v : kek (fst (saveToDisk io v)) = kek v
  ∧ storePath (fst (saveToDisk io v)) = storePath v ∧ entries (fst (saveToDisk io v)) = entries v.
Proof. destruct (saveToDisk io v) as [v1 ok] eqn:Es. by apply save_keeps in Es as (? & ? & ? & _). Qed.

Lemma exec_const c v : kek (exec c v) = kek v ∧ storePath (exec c v) = storePath v.
Proof.
  destruct c as [e id label kt p|io id|now io id]; cbn [exec].
  - unfold Seal. destruct (r_dek e) as [dek|]; [|done].
    destruct (aesGCMEncrypt (kek v) dek _) as [[encDEK dn]|]; [|done].
    destruct (aesGCMEncrypt dek p _) as [[encData n]|]; [|done]. cbv zeta.
    destruct (entries v) as [es|]; [|done]. set (w := with_entries _ _).
    destruct (save_const (s_io e) w) as (? & ? & _). by destruct (saveToDisk _ w).
  - unfold Delete. by destruct (save_const io (with_entries v (delete id <$> entries v))) as (? & ? & _).
  - unfold MarkRotated. destruct (get v id) as [[en|]|]; [|done|done].
    by destruct (save_const io (with_entries v (insert id (Some (set_rotated now en)) <$> entries v))) as (? & ? & _).
Qed.
Lemma exec_kek c v : kek (exec c v) = kek v.
Proof. apply exec_const. Qed.

Lemma holds_not_nil v m id : holds v m → get v id ≠ Some None.
Proof. intros (_ & _ & Hm) E. specialize (Hm id). unfold Unseal in Hm. rewrite E in Hm. by destruct (m !! id). Qed.

Lemma exec_holds c v m : good_call c → holds v m → holds (exec c v) (abstract c v m).
Proof.
  intros Hc (Hk & [es Hes] & Hm). split; [by rewrite exec_kek|].
  destruct c as [e id label kt p|io id|now io id]; cbn [exec abstract] in *.
  - unfold sealed. destruct (Seal e v id label kt p) as [v' r] eqn:E. cbn [fst snd] in *.
    apply Seal_cases in E as [(-> & er & -> & Hne)|(Hk' & _ & Hp & (es' & en & Ho & Ho' & _) & Hr & _)]; [..|done|done].
    + split; [done|]. by destruct er.
    + replace (match r with Val _ | Fail ErrPersist => true | _ => false end) with true
        by (by destruct Hr as [-> | ->]). cbv match.
      split; [by eexists|]. intros i. destruct (decide (i = id)) as [->|Hne]; [by rewrite lookup_insert_eq|].
      rewrite lookup_insert_ne by done. rewrite <- Hm. apply Unseal_ext; [done|]. unfold get.
      rewrite Ho, Ho'. cbn. by rewrite lookup_insert_ne.
  - unfold Delete in *. destruct (saveToDisk _ _) as [v1 ok] eqn:Es. cbn [fst] in *.
    apply save_keeps in Es as (Hk1 & Hen & _). cbn [entries with_entries] in Hen. rewrite Hes in Hen. cbn in Hen.
    split; [by eexists|]. intros i. destruct (decide (i = id)) as [->|Hne].
    + unfold Unseal, get. rewrite Hen. cbn. by rewrite !lookup_delete_eq.
    + rewrite lookup_delete_ne by done. rewrite <- Hm. apply Unseal_ext; [done|]. unfold get.
      rewrite Hen, Hes. cbn. by rewrite lookup_delete_ne.
  - pose proof (exec_kek (CMark now io id) v) as Hkk. cbn [exec] in Hkk.
    unfold MarkRotated in *. destruct (get v id) as [[en|]|] eqn:Hid; [|by cbn; eauto..].
    destruct (saveToDisk _ _) as [v1 ok] eqn:Es. cbn [fst] in *.
    apply save_keeps in Es as (_ & Hen & _). cbn [entries with_entries] in Hen. rewrite Hes in Hen. cbn in Hen.
    split; [by eexists|]. intros i. rewrite <- Hm. unfold Unseal. rewrite Hkk. unfold get in *. rewrite Hen.
    rewrite Hes in Hid |- *. cbn in Hid |- *. destruct (decide (i = id)) as [->|Hne].
    + by rewrite lookup_insert_eq, Hid.
    + by rewrite lookup_insert_ne.
Qed.

(** A call on a vault that holds a map does not panic. *)
Lemma holds_answer c v m : good_call c → holds v m → answer c v ≠ Panic.
Proof.
  intros Hc Hh. pose proof Hh as (_ & Hes & _).
  destruct c as [e id label kt p|io id|now io id]; cbn [answer].
  - destruct (Seal e v id label kt p) as [v' r] eqn:E.
    apply Seal_cases in E as [(_ & er & -> & _)|(_ & _ & _ & _ & [-> | ->] & _)]; done.
  - by destruct (snd _).
  - unfold MarkRotated. pose proof (holds_not_nil v m id Hh) as Hn. by destruct (get v id) as [[]|].
Qed.

Fixpoint execs (cs : list call) (v : KeyVault) : KeyVault :=
  match cs with [] => v | c :: cs => execs cs (exec c v) end.
Fixpoint abstracts (cs : list call) (v : KeyVault) (m : content) : content :=
  match cs with [] => m | c :: cs => abstracts cs (exec c v) (abstract c v m) end.

Lemma execs_inv cs : ∀ v m, Forall good_call cs → holds v m →
  holds (execs cs v) (abstracts cs v m) ∧ kek (execs cs v) = kek v ∧ storePath (execs cs v) = storePath v.
Proof.
  induction cs as [|c cs IH]; intros v m Hg Hh; [done|]. inversion_clear Hg.
  cbn [execs abstracts].
  destruct (IH (exec c v) (abstract c v m)) as (? & -> & ->); [done|by apply exec_holds|].
  destruct (exec_const c v) as [-> ->]. done.
Qed.

(** ** What the file can carry *)

(** Nanoseconds from 1970 to the last day but one of 9999, whatever the time zone. *)
Definition in_years (t : Z) : Prop := (0 ≤ t < 253402214400 * 1000000000)%Z.
Definition storable_entry (e : VaultEntry) : Prop :=
  forallb Json.utf8 [ID e; Label e; EncryptedDEK e; DEKNonce e; EncryptedData e; DataNonce e; KeyType e] = true
  ∧ in_years (CreatedAt e) ∧ ∀ t, RotatedAt e = Some t → in_years t.
Definition storable (es : option (gmap string (option VaultEntry))) : Prop :=
  ∃ m, es = Some m ∧ ∀ id x, m !! id = Some x → ∃ e, x = Some e ∧ ID e = id ∧ storable_entry e.

Definition storable_call (c : call) : Prop :=
  match c with
  | CSeal e id label kt _ => forallb Json.utf8 [id; label; kt] = true ∧ in_years (s_now e)
  | CDelete _ _ => True
  | CMark now _ _ => in_years now
  end.

(** What the vault relies on of its libraries. *)
Definition libraries_ok : Prop :=
  (∀ es, storable es → ∃ data, marshal es = Some data ∧ unmarshal data = Some es)
  ∧ (∀ p s, length (argon2 p s) = 32).

Lemma exec_storable c v m : good_call c → storable_call c → holds v m → storable (entries v) →
  storable (entries (exec c v)).
Proof.
  intros Hg Hc Hh (es & Hes & Hst). pose proof (holds_not_nil v m) as Hnn.
  destruct c as [e id label kt p|io id|now io id]; cbn [exec storable_call] in *.
  - destruct (Seal e v id label kt p) as [v' r] eqn:E.
    apply Seal_cases in E as [(-> & _)|(_ & _ & _ & (es' & en & Ho & Ho' & H1 & H2 & H3 & H4 & H5 & Hx) & _)];
      [by exists es| |done|by eexists].
    destruct Hx as (b1 & b2 & b3 & b4 & E1 & E2 & E3 & E4). cbn [fst]. eexists. split; [exact Ho'|].
    assert (es' = es) as -> by congruence. intros i x. destruct (decide (i = id)) as [->|Hne].
    + rewrite lookup_insert_eq. intros [= <-]. exists en. split_and!; [done|done|].
      destruct Hc as [Hu Hy]. cbn [forallb] in Hu. apply andb_prop in Hu as [U1 [U2 U3]%andb_prop].
      split_and!; [|by rewrite H4|by rewrite H5]. cbn [forallb].
      rewrite H1, H2, H3, E1, E2, E3, E4, !Json.utf8_hex, U1, U2. cbn. exact U3.
    + rewrite lookup_insert_ne by done. apply Hst.
  - unfold Delete. destruct (save_const io (with_entries v (delete id <$> entries v))) as (_ & _ & ->).
    cbn [entries with_entries]. rewrite Hes. eexists. split; [reflexivity|]. intros i x [_ Hx]%lookup_delete_Some. by apply Hst.
  - unfold MarkRotated. destruct (get v id) as [[en|]|] eqn:Hid; [|by exists es..].
    cbn [fst]. destruct (save_const io (with_entries v (insert id (Some (set_rotated now en)) <$> entries v))) as (_ & _ & ->).
    cbn [entries with_entries]. rewrite Hes. eexists. split; [reflexivity|]. intros i x.
    destruct (decide (i = id)) as [->|Hne]; [|rewrite lookup_insert_ne by done; apply Hst].
    rewrite lookup_insert_eq. intros [= <-]. unfold get in Hid. rewrite Hes in Hid.
    destruct (Hst id _ Hid) as (e0 & [= <-] & Hi & H1 & H2 & _). eexists. split; [done|]. split; [done|].
    split_and!; [done|done|]. by intros t [= <-].
Qed.

Lemma NewKeyVault_kek pass path f v :
  NewKeyVault pass path f = Ok v →
  pass ≠ "" ∧ kek v = argon2 (of_string pass) (deriveVaultSalt path) ∧ storePath v = path.
Proof.
  unfold NewKeyVault. case_bool_decide; [done|]. intros [= <-]. unfold loadFromDisk. cbn [file].
  destruct f as [data|]; [|done]. by destruct (unmarshal data).
Qed.

(** A new vault without a file is empty. *)
Lemma fresh_vault pass path v :
  libraries_ok → NewKeyVault pass path None = Ok v → holds v ∅ ∧ storable (entries v).
Proof.
  intros [_ Ha] Hn. pose proof (NewKeyVault_kek _ _ _ _ Hn) as (_ & Hk & _).
  assert (entries v = Some ∅) as He.
  { revert Hn. unfold NewKeyVault. case_bool_decide; [done|]. by intros [= <-]. }
  split; [split; [|split]|].
  - unfold aes_key. rewrite Hk, Ha. by_evaluation.
  - by rewrite He.
  - intros id. unfold Unseal, get. by rewrite He.
  - exists ∅. by rewrite He.
Qed.

(** A vault reopened from its file has the same entries. *)
Lemma reopen pass path v m :
  libraries_ok → pass ≠ "" → kek v = argon2 (of_string pass) (deriveVaultSalt path) → holds v m →
  storable (entries v) → file v = marshal (entries v) →
  ∃ v', NewKeyVault pass path (file v) = Ok v' ∧ holds v' m ∧ entries v' = entries v.
Proof.
  intros [Hj _] Hp Hk (Ha & Hs & Hm) Hst Hf. unfold NewKeyVault. rewrite bool_decide_eq_false_2 by done.
  destruct (Hj _ Hst) as (data & Em & Eu).
  eexists. split; [reflexivity|]. unfold loadFromDisk. cbn [file]. rewrite Hf, Em, Eu. cbn [default].
  split; [|done]. split_and!; cbn [kek]; [by rewrite <- Hk|done|].
  intros id. rewrite <- Hm. apply Unseal_ext; [by rewrite Hk|done].
Qed.

(** The vaults of one installation: opened without a file, then calls, and restarts from
    a file whose last write went through. *)
Inductive opened (pass path : string) : KeyVault → content → Prop :=
| opened_new v : NewKeyVault pass path None = Ok v → opened pass path v ∅
| opened_call v m c : opened pass path v m → good_call c → storable_call c →
    opened pass path (exec c v) (abstract c v m)
| opened_again v m v' : opened pass path v m → file v = marshal (entries v) →
    NewKeyVault pass path (file v) = Ok v' → opened pass path v' m.

Lemma opened_inv pass path v m : libraries_ok → opened pass path v m →
  pass ≠ "" ∧ kek v = argon2 (of_string pass) (deriveVaultSalt path) ∧ storePath v = path
  ∧ holds v m ∧ storable (entries v).
Proof.
  intros Hlib. induction 1 as [v Hn|v m c _ (Hp & Hk & Hs & Hh & Hst) Hg Hc|v m v' _ (Hp & Hk & Hs & Hh & Hst) Hf Hn].
  - destruct (NewKeyVault_kek _ _ _ _ Hn) as (? & ? & ?). by destruct (fresh_vault _ _ _ Hlib Hn).
  - destruct (exec_const c v) as [-> ->]. split_and!; [done..|by apply exec_holds|by eapply exec_storable].
  - destruct (reopen pass path v m Hlib Hp Hk Hh Hst Hf) as (v2 & Hn2 & Hh2 & He2).
    assert (v2 = v') as -> by congruence. destruct (NewKeyVault_kek _ _ _ _ Hn) as (? & ? & ?).
    by rewrite He2.
Qed.

(** The metadata of the entries, in some order. *)
Lemma list_entries_ids (l : list (string * option VaultEntry)) :
  (∀ id x, (id, x) ∈ l → ∃ e, x = Some e ∧ ID e = id) →
  ∃ es, list_entries (map snd l) = Val es ∧ ID <$> es = l.*1 ∧ Forall (λ e, EncryptedDEK e = "" ∧ EncryptedData e = "") es.
Proof.
  induction l as [|[id x] l IH]; intros Hl; [by exists []|].
  destruct (Hl id x) as (e & -> & He); [by left|].
  destruct IH as (es & IH1 & IH2 & IH3); [intros i y Hy; apply Hl; by right|].
  cbn [map snd list_entries]. rewrite IH1. eexists. split; [reflexivity|]. rewrite fmap_cons, IH2.
  cbn. split; [by f_equal|]. by constructor.
Qed.

Lemma range_keys_dom {V} ro (es : gmap string V) : (range ro es).*1 ≡ₚ elements (dom es).
Proof.
  apply NoDup_Permutation; [apply NoDup_range_keys|apply NoDup_elements|]. intros id.
  rewrite elem_of_elements, elem_of_dom, list_elem_of_fmap. split.
  - intros ([i x] & -> & Hx%elem_of_range). by exists x.
  - intros [x Hx]. exists (id, x). by rewrite elem_of_range.
Qed.

Lemma holds_dom v m es : entries v = Some es → holds v m → dom es = dom m.
Proof.
  intros He Hh. apply set_eq. intros id. rewrite !elem_of_dom. pose proof (holds_not_nil v m id Hh) as Hn.
  destruct Hh as (_ & _ & Hm). specialize (Hm id). unfold Unseal in Hm. unfold get in *. rewrite He in Hn, Hm. cbn in *.
  destruct (es !! id) as [[en|]|], (m !! id); try done.
  - split; [|by intros []]. intros _. exfalso. revert Hm. unfold open_entry, aesGCMDecrypt. by repeat case_match.
Qed.

(** C17: The vault is a map from identifiers to key material.  Take a vault that was opened
    with a passphrase where there was no file, and then went through any number of
    sealings, deletions and rotation marks, with any of the writes failing, and of restarts
    from its file when the last write went through; identifiers, labels and key types are
    UTF-8 and the clock is between 1970 and 9999.  Unsealing an identifier gives exactly
    the key last sealed under it and not deleted since, or not found; [Has] says which;
    [ListEntries] gives every identifier once, without key material; and no further call
    panics.  (A vault whose file holds [null], or a [null] entry, is not such a vault:
    [null_file], [null_entry].)  When a sealing reports success, a vault opened from the
    file with the same passphrase and path has that key and all the others. *)
Theorem vault_refines pass path v m :
  libraries_ok → opened pass path v m →
  (∀ id, Unseal v id = match m !! id with Some p => Val p | None => Fail (ErrNotFound id) end)
  ∧ (∀ id, Has v id = bool_decide (id ∈ dom m))
  ∧ (∀ ro, ∃ l, ListEntries ro v = Val l ∧ ID <$> l ≡ₚ elements (dom m)
       ∧ Forall (λ e, EncryptedDEK e = "" ∧ EncryptedData e = "") l)
  ∧ (∀ c, good_call c → answer c v ≠ Panic)
  ∧ (∀ e id label kt p v', good_env e → storable_call (CSeal e id label kt p) →
     Seal e v id label kt p = (v', Val tt) → path ≠ "" →
     ∃ v2, NewKeyVault pass path (file v') = Ok v2
       ∧ ∀ i, Unseal v2 i = match <[id := p]> m !! i with
                            | Some p => Val p
                            | None => Fail (ErrNotFound i)
                            end).
Proof.
  intros Hlib Ho. destruct (opened_inv _ _ _ _ Hlib Ho) as (Hp & Hk & Hsp & Hh & Hst).
  pose proof Hst as (es & He & Hes). pose proof (holds_dom v m es He Hh) as Hd.
  split_and!; [apply Hh| | |by intros c ?; eapply holds_answer|].
  - intros id. unfold Has, get. rewrite He. cbn. apply bool_decide_ext. by rewrite <- elem_of_dom, Hd.
  - intros ro. unfold ListEntries, values. rewrite He. cbn [default].
    destruct (list_entries_ids (range ro es)) as (l & Hl & Hi & Hf).
    { intros id x Hx%elem_of_range. destruct (Hes id x Hx) as (e & -> & ? & _). by exists e. }
    exists l. split; [done|]. split; [|done]. rewrite Hi. by rewrite <- Hd, <- range_keys_dom.
  - intros e id label kt p v' Hg Hc Hs Hpath.
    pose proof (exec_holds (CSeal e id label kt p) _ _ Hg Hh) as Hv'.
    pose proof (exec_storable (CSeal e id label kt p) _ _ Hg Hc Hh Hst) as Hst'.
    cbn [exec abstract] in Hv', Hst'. unfold sealed in Hv'. rewrite Hs in Hv', Hst'. cbn [fst snd] in Hv', Hst'.
    apply Seal_cases in Hs as [(_ & ? & ? & _)|(Hkk & Hss & _ & _ & _ & Hf)]; [done| |done|by eexists].
    destruct (reopen pass path v' _ Hlib Hp ltac:(congruence) Hv' Hst') as (v2 & Hn & (_ & _ & Hu) & _).
    + apply Hf; [done|congruence].
    + by exists v2.
Qed.

(** A file that holds [null] opens as a vault without keys in which sealing panics, as
    long as the random source and the cipher do their part; deleting from it works. *)
Theorem null_file pass path data v e id label kt p io dek n1 n2 :
  (∀ p s, length (argon2 p s) = 32) → unmarshal data = Some None →
  NewKeyVault pass path (Some data) = Ok v →
  r_dek e = Some dek → length dek = 32 → r_dek_nonce e = Some n1 → r_data_nonce e = Some n2 →
  Seal e v id label kt p = (v, Panic) ∧ Unseal v id = Fail (ErrNotFound id)
  ∧ entries (fst (Delete io v id)) = None.
Proof.
  intros Ha Hu Hn Hd Hl H1 H2. assert (kek v = argon2 (of_string pass) (deriveVaultSalt path) ∧ entries v = None) as [Hk He].
  { revert Hn. unfold NewKeyVault. case_bool_decide; [done|]. unfold loadFromDisk. cbn [file]. rewrite Hu.
    by intros [= <-]. }
  split_and!.
  - unfold Seal, aesGCMEncrypt. rewrite Hd, H1, H2, He, Hk. unfold aes_key. by rewrite Ha, Hl.
  - unfold Unseal, get. by rewrite He.
  - unfold Delete. destruct (save_const io (with_entries v (delete id <$> entries v))) as (_ & _ & ->). cbn. by rewrite He.
Qed.

(** An entry that is [null] in the file panics when it is unsealed, marked or listed. *)
Theorem null_entry pass path data es v id now io ro :
  unmarshal data = Some (Some es) → es !! id = Some None → NewKeyVault pass path (Some data) = Ok v →
  Unseal v id = Panic ∧ MarkRotated now io v id = (v, Panic) ∧ ListEntries ro v = Panic.
Proof.
  intros Hu Hid Hn. assert (entries v = Some es) as He.
  { revert Hn. unfold NewKeyVault. case_bool_decide; [done|]. unfold loadFromDisk. cbn [file]. rewrite Hu.
    by intros [= <-]. }
  unfold Unseal, MarkRotated, get, ListEntries, values. rewrite He.
  change (default ∅ (Some es)) with es. cbn [mbind option_bind]. rewrite Hid.
  split_and!; [done|done|]. apply (elem_of_range ro) in Hid. induction (range ro es) as [|[i x] l IH]; [by apply elem_of_nil in Hid|].
  apply elem_of_cons in Hid as [[= <- <-]|Hid]; [done|]. cbn [map snd list_entries]. destruct x as [x|]; [|done].
  by rewrite IH.
Qed.

End WithLibraries.

(** ** Witness *)

(** Libraries that satisfy the laws: a cipher that leaves the text as it is, and the
    canonical text of a map. *)
#[local] Instance toy_gcm : AesGcm.
Proof. by refine {| gcm_seal _ _ p := p; gcm_open _ _ c := Some c |}. Defined.

#[local] Instance entry_eq_dec : EqDecision VaultEntry.
Proof. solve_decision. Defined.
#[local] Instance entry_countable : Countable VaultEntry.
Proof.
  refine (inj_countable'
    (λ e, (ID e, Label e, EncryptedDEK e, DEKNonce e, EncryptedData e, DataNonce e, CreatedAt e,
           RotatedAt e, KeyType e))
    (λ '(a, b, c, d, e, f, g, h, i), mkEntry a b c d e f g h i) _).
  by intros [].
Defined.

Definition toy_marshal (es : option (gmap string (option VaultEntry))) : option string := Some (to_text es).
Definition toy_argon (p s : bytes) : bytes := replicate 32 x07.
Definition toy_env : seal_env :=
  mkSealEnv (Some (replicate 32 x01)) (Some (replicate 12 x02)) (Some (replicate 12 x03)) 5 None.
Definition toy_vault : KeyVault := mkVault (replicate 32 x07) (Some ∅) "/vault" None.
Definition toy_first : KeyVault :=
  exec toy_marshal (CSeal toy_env "b" "second" "ed25519" [x02])
    (exec toy_marshal (CMark 6 (Some None) "a") (exec toy_marshal (CSeal toy_env "a" "first" "ed25519" [x01]) toy_vault)).
Definition toy_again : KeyVault := mkVault (replicate 32 x07) (entries toy_first) "/vault" (file toy_first).
Definition toy_last : KeyVault := exec toy_marshal (CDelete None "b") toy_again.

Lemma toy_good : good_env toy_env.
Proof. split_and!; by intros ? [= <-]. Qed.

Lemma toy_libraries : libraries_ok toy_marshal of_text toy_argon.
Proof. split; [|reflexivity]. intros es _. eexists. split; [reflexivity|apply of_to_text]. Qed.

Lemma toy_saved : file toy_first = toy_marshal (entries toy_first).
Proof. reflexivity. Qed.
Lemma toy_reopened : NewKeyVault of_text toy_argon "pass" "/vault" (file toy_first) = Ok toy_again.
Proof.
  unfold toy_again. rewrite toy_saved. unfold NewKeyVault, loadFromDisk. cbn [file toy_marshal].
  rewrite of_to_text. reflexivity.
Qed.

(** Two sealings and a mark whose write fails, a restart, a deletion. *)
Lemma vault_refines_witness :
  Unseal toy_last "a" = Val [x01] ∧ Unseal toy_last "b" = Fail (ErrNotFound "b")
  ∧ answer toy_marshal (CSeal toy_env "c" "third" "ed25519" [x03]) toy_last ≠ Panic.
Proof.
  destruct (vault_refines toy_marshal of_text toy_argon "pass" "/vault" toy_last {["a" := [x01]]})
    as (Hu & _ & _ & Hp & _).
  - exact toy_libraries.
  - pose proof (opened_new toy_marshal of_text toy_argon "pass" "/vault" toy_vault eq_refl) as H.
    eapply (opened_call _ _ _ _ _ _ _ (CSeal toy_env "a" "first" "ed25519" [x01])) in H;
      [|exact toy_good|split; [reflexivity|by split]].
    eapply (opened_call _ _ _ _ _ _ _ (CMark 6 (Some None) "a")) in H; [|done|by split].
    eapply (opened_call _ _ _ _ _ _ _ (CSeal toy_env "b" "second" "ed25519" [x02])) in H;
      [|exact toy_good|split; [reflexivity|by split]].
    eapply (opened_again _ _ _ _ _ _ _ toy_again) in H; [|exact toy_saved|exact toy_reopened].
    eapply (opened_call _ _ _ _ _ _ _ (CDelete None "b")) in H; [|done|done].
    refine (eq_ind _ (opened toy_marshal of_text toy_argon "pass" "/vault" toy_last) H _ _).
    vm_compute. reflexivity.
  - split; [rewrite Hu; vm_compute; reflexivity|]. split; [rewrite Hu; vm_compute; reflexivity|].
    apply Hp. exact toy_good.
Defined.

Example null_file_opens :
  snd (Seal toy_marshal toy_env (mkVault (replicate 32 x07) None "/vault" None) "a" "" "" []) = Panic.
Proof. reflexivity. Qed.

End KeyVault.
