(* ===== verification/Jwks.v ===== *)
(** * Key rotation (internal/security/jwks.go)

    The service keeps the published key set, seals every private key in the vault
    ([KeyVault]) and installs the rotated Ed25519 key in the code signing service
    ([Signing]); the three states are one record here, as the pointers of the source
    make them.  Ed25519 is the interface of [Signing] with the seed of a private key
    added; elliptic curve keys are the [EcLib] interface.  The clock readings of a call
    are [clk i]; [io i] says how the [i]-th write of the vault file ends.  A panic of the
    vault ([KeyVault.null_file], [KeyVault.null_entry]) ends the call: [Panicked], with the
    state it leaves.

    The theorems follow the keys through any sequence of calls, in the order of time:
    the key the code signing service signs with is always published, is the only active
    Ed25519 key and can be unsealed; a key that is rotated out stays published for the
    overlap; cleaning up is invisible. *)

From S2P Require Import Prelude GoStrings Encoding Sha256 Signing KeyVault.
#[local] Open Scope string_scope.
#[local] Open Scope nat_scope.
#[local] Open Scope list_scope.

Module Jwks.
Import Signing KeyVault.
#[local] Open Scope Z_scope.

Record JWK := mkJWK {
  KTY : string;
  CRV : string;
  KID : string;
  USE : string;
  ALG : string;
  X : string;
  Y : string;
  j_CreatedAt : Z;
  j_ExpiresAt : Z;
  RetiredAt : option Z;
  Status : string;
  VaultID : string;
}.

Record JWKSService := mkService {
  jkeys : list JWK;
  vault : KeyVault;
  codeSvc : option CodeSigningService;
  rotationInterval : Z;
  overlapDuration : Z;
}.

Definition day : Z := 24 * 3600 * 1000000000.

Definition NewJWKSService (v : KeyVault) (cs : option CodeSigningService) (ri od : Z) : JWKSService :=
  mkService [] v cs (if ri <=? 0 then 90 * day else ri) (if od <=? 0 then 7 * day else od).

Definition with_keys (s : JWKSService) (ks : list JWK) (v : KeyVault) : JWKSService :=
  mkService ks v (codeSvc s) (rotationInterval s) (overlapDuration s).
Definition with_code (s : JWKSService) (cs : option CodeSigningService) : JWKSService :=
  mkService (jkeys s) (vault s) cs (rotationInterval s) (overlapDuration s).

(** ** Publication *)

Definition published (now : Z) (k : JWK) : bool :=
  if bool_decide (Status k = "active") then true
  else if bool_decide (Status k = "retiring") then now <? j_ExpiresAt k
  else false.

Definition GetJWKS (now : Z) (s : JWKSService) : list JWK := filter (λ k, published now k = true) (jkeys s).

Fixpoint first_active (ks : list JWK) : option string :=
  match ks with
  | [] => None
  | k :: ks => if bool_decide (Status k = "active") then Some (KID k) else first_active ks
  end.
Definition GetActiveSigningKeyID (s : JWKSService) : option string := first_active (jkeys s).

Definition generateKID (keyType : string) (pubBytes : bytes) : string :=
  Hex.encode (take 8 (Sha256.sha256 (of_string (keyType +:+ ":") ++ pubBytes))).

(** ** Keys *)

Class EdSeed `{Ed25519} := {
  ed_seed : bytes → bytes;
  ed_seed_correct : ∀ seed, length seed = 32%nat → ed_seed (snd (ed_key seed)) = seed;
}.

Inductive ec_curve := P256 | P384 | OtherCurve (bits : Z).
#[global] Instance ec_curve_eq_dec : EqDecision ec_curve.
Proof. solve_decision. Defined.

Record ec_private := mkEc {
  ec_c : ec_curve;
  ec_x : Z;
  ec_y : Z;
  ec_d : Z;
}.

Definition BitSize (c : ec_curve) : Z := match c with P256 => 256 | P384 => 384 | OtherCurve n => n end.
Definition byteLen (c : ec_curve) : nat := Z.to_nat ((BitSize c + 7) / 8).

Class EcLib := {
  ec_generate : ec_curve → bytes → ec_private;
  ec_marshal : ec_private → option bytes;         (** [x509.MarshalECPrivateKey] *)
  ec_parse : bytes → option ec_private;           (** [x509.ParseECPrivateKey] *)
  ec_generate_curve : ∀ c r, ec_c (ec_generate c r) = c;
  ec_roundtrip : ∀ k der, ec_marshal k = Some der → ec_parse der = Some k;
}.

(** [(big.Int).Bytes]: big-endian without leading zeros. *)
Fixpoint be_fixed (n : nat) (z : Z) : bytes :=
  match n with
  | O => []
  | S n => be_fixed n (z / 256) ++ [byte_of z]
  end.
Definition byte_count (z : Z) : nat := if z =? 0 then 0 else Z.to_nat (Z.log2 z / 8 + 1).
Definition be_bytes (z : Z) : bytes := be_fixed (byte_count z) z.

Definition padOrTrim (b : bytes) (size : nat) : bytes :=
  if (size <=? length b)%nat then take size b else replicate (size - length b) x00 ++ b.

(** [elliptic.Marshal]: the uncompressed point. *)
Definition point (c : ec_curve) (x y : Z) : bytes :=
  x04 :: be_fixed (byteLen c) x ++ be_fixed (byteLen c) y.

Definition b64 (l : bytes) : string := Base64.encode_raw true l.

Inductive jwks_error := ErrGenerate | ErrSeal | ErrCurve | ErrMarshal | ErrNoKey (kid : string) | ErrUnseal | Panicked.

(** ** Rotation *)

Record rot_env := mkRot {
  g_rand : option bytes;              (** the key generator's randomness *)
  g_seal : seal_env;
  g_clk : nat → Z;
  g_io : nat → option (option string);
}.

Definition is_active (crv : string) (k : JWK) : bool :=
  bool_decide (Status k = "active") && bool_decide (CRV k = crv).

Definition retire (now overlap : Z) (k : JWK) : JWK :=
  mkJWK (KTY k) (CRV k) (KID k) (USE k) (ALG k) (X k) (Y k) (j_CreatedAt k) (now + overlap)
    (Some now) "retiring" (VaultID k).

Section WithLibraries.
Context `{EdSeed} `{EcLib} `{AesGcm}.
Context (marshal : option (gmap string (option VaultEntry)) → option string).

(** The loop over the keys; [false]: the vault panicked on the way. *)
Fixpoint retire_all (e : rot_env) (crv : string) (now overlap : Z) (i : nat) (ks : list JWK)
    (v : KeyVault) : list JWK * KeyVault * bool :=
  match ks with
  | [] => ([], v, true)
  | k :: ks =>
      if is_active crv k then
        match MarkRotated marshal (g_clk e (10 + i)%nat) (g_io e i) v (VaultID k) with
        | (v, Panic) => (retire now overlap k :: ks, v, false)
        | (v, _) =>
            let '(ks, v, ok) := retire_all e crv now overlap (S i) ks v in
            (retire now overlap k :: ks, v, ok)
        end
      else
        let '(ks, v, ok) := retire_all e crv now overlap (S i) ks v in (k :: ks, v, ok)
  end.

(** What a failed sealing gives the caller. *)
Definition seal_failed (r : outcome unit) : jwks_error := match r with Panic => Panicked | _ => ErrSeal end.

Definition deactivate (k : SigningKey) : SigningKey :=
  mkKey (k_ID k) (Signing.Label k) (PublicKey k) (PrivateKey k) (PublicHex k) (k_CreatedAt k) false.

(** The rotated key becomes the signing key. *)
Definition install (cs : CodeSigningService) (key : SigningKey) : CodeSigningService :=
  mkCode (<[k_ID key := key]> (deactivate <$> Signing.keys cs)) (artifacts cs) (k_ID key).

Definition RotateEd25519Key (e : rot_env) (s : JWKSService) : JWKSService * result jwks_error JWK :=
  match g_rand e with
  | None => (s, Err ErrGenerate)
  | Some seed =>
      let '(pub, priv) := ed_key seed in
      let kid := generateKID "ed25519" pub in
      let vaultID := "jwks-" +:+ kid in
      match Seal marshal (g_seal e) (vault s) vaultID "JWKS Ed25519 signing key" "ed25519" (ed_seed priv) with
      | (v, Val _) =>
          let jwk := mkJWK "OKP" "Ed25519" kid "sig" "EdDSA" (b64 pub) "" (g_clk e 0)
                       (g_clk e 1 + (rotationInterval s + overlapDuration s)) None "active" vaultID in
          let now := g_clk e 2 in
          let '(ks, v, ok) := retire_all e "Ed25519" now (overlapDuration s) 0 (jkeys s) v in
          if negb ok then (with_keys s ks v, Err Panicked)
          else
            let key := mkKey kid ("jwks-rotated-" +:+ kid) pub priv (Hex.encode pub) (g_clk e 3) true in
            (with_code (with_keys s (ks ++ [jwk]) v) ((λ cs, install cs key) <$> codeSvc s), Ok jwk)
      | (v, r) => (with_keys s (jkeys s) v, Err (seal_failed r))
      end
  end.

Definition curve_names (c : ec_curve) : option (string * string) :=
  match c with
  | P256 => Some ("P-256", "ES256")
  | P384 => Some ("P-384", "ES384")
  | OtherCurve _ => None
  end.

Definition RotateECDSAKey (e : rot_env) (s : JWKSService) (curve : ec_curve)
  : JWKSService * result jwks_error JWK :=
  match g_rand e with
  | None => (s, Err ErrGenerate)
  | Some r =>
      let key := ec_generate curve r in
      match curve_names curve with
      | None => (s, Err ErrCurve)
      | Some (crvName, alg) =>
          let kid := generateKID crvName (point curve (ec_x key) (ec_y key)) in
          match ec_marshal key with
          | None => (s, Err ErrMarshal)
          | Some privDER =>
              let vaultID := "jwks-" +:+ kid in
              match Seal marshal (g_seal e) (vault s) vaultID ("JWKS ECDSA " +:+ crvName +:+ " key")
                      ("ecdsa-" +:+ crvName) privDER with
              | (v, Val _) =>
                  let jwk := mkJWK "EC" crvName kid "sig" alg (b64 (be_bytes (ec_x key)))
                               (b64 (be_bytes (ec_y key))) (g_clk e 0)
                               (g_clk e 1 + (rotationInterval s + overlapDuration s)) None "active" vaultID in
                  let now := g_clk e 2 in
                  let '(ks, v, ok) := retire_all e crvName now (overlapDuration s) 0 (jkeys s) v in
                  if negb ok then (with_keys s ks v, Err Panicked)
                  else (with_keys s (ks ++ [jwk]) v, Ok jwk)
              | (v, r) => (with_keys s (jkeys s) v, Err (seal_failed r))
              end
          end
      end
  end.

(** ** Import *)

Definition ImportExistingEd25519Key (e : rot_env) (s : JWKSService) (kid : string) (pub priv : bytes)
  : JWKSService * result jwks_error unit :=
  let vaultID := "jwks-" +:+ kid in
  match Seal marshal (g_seal e) (vault s) vaultID "Imported Ed25519 key" "ed25519" (ed_seed priv) with
  | (v, Val _) =>
      let jwk := mkJWK "OKP" "Ed25519" kid "sig" "EdDSA" (b64 pub) "" (g_clk e 0)
                   (g_clk e 1 + (rotationInterval s + overlapDuration s)) None "active" vaultID in
      (with_keys s (jkeys s ++ [jwk]) v, Ok tt)
  | (v, r) => (with_keys s (jkeys s) v, Err (seal_failed r))
  end.

(** [ImportActiveKeyIntoJWKS] of the code signing service. *)
Definition ImportActiveKeyIntoJWKS (e : rot_env) (cs : CodeSigningService) (s : JWKSService) : JWKSService :=
  match Signing.keys cs !! activeKey cs with
  | None => s
  | Some key => fst (ImportExistingEd25519Key e s (k_ID key) (PublicKey key) (PrivateKey key))
  end.

Definition import_names (c : ec_curve) : string * string :=
  match c with
  | P256 => ("P-256", "ES256")
  | P384 => ("P-384", "ES384")
  | OtherCurve _ => ("unknown", "")
  end.

Definition ImportExistingECDSAKey (e : rot_env) (s : JWKSService) (kid : string) (key : ec_private)
  : JWKSService * result jwks_error unit :=
  match ec_marshal key with
  | None => (s, Err ErrMarshal)
  | Some privDER =>
      let '(crvName, alg) := import_names (ec_c key) in
      let vaultID := "jwks-" +:+ kid in
      match Seal marshal (g_seal e) (vault s) vaultID ("Imported ECDSA " +:+ crvName +:+ " CA key")
              ("ecdsa-" +:+ crvName) privDER with
      | (v, Val _) =>
          let n := byteLen (ec_c key) in
          let jwk := mkJWK "EC" crvName kid "sig" alg (b64 (padOrTrim (be_bytes (ec_x key)) n))
                       (b64 (padOrTrim (be_bytes (ec_y key)) n)) (g_clk e 0)
                       (g_clk e 1 + (rotationInterval s + overlapDuration s)) None "active" vaultID in
          (with_keys s (jkeys s ++ [jwk]) v, Ok tt)
      | (v, r) => (with_keys s (jkeys s) v, Err (seal_failed r))
      end
  end.

(** ** Unsealing, cleaning, the loop *)

Fixpoint vault_id (ks : list JWK) (kid : string) : string :=
  match ks with
  | [] => ""
  | k :: ks => if bool_decide (KID k = kid) then VaultID k else vault_id ks kid
  end.

(** [NewKeyFromSeed] panics on a seed that is not 32 bytes long. *)
Definition UnsealEd25519Key (s : JWKSService) (kid : string) : outcome (result jwks_error bytes) :=
  let vaultID := vault_id (jkeys s) kid in
  if bool_decide (vaultID = "") then Val (Err (ErrNoKey kid))
  else
    match Unseal (vault s) vaultID with
    | Panic => Panic
    | Fail _ => Val (Err ErrUnseal)
    | Val seed => if negb (length seed =? 32)%nat then Panic else Val (Ok (snd (ed_key seed)))
    end.

Definition UnsealECDSAKey (s : JWKSService) (kid : string) : outcome (result jwks_error ec_private) :=
  let vaultID := vault_id (jkeys s) kid in
  if bool_decide (vaultID = "") then Val (Err (ErrNoKey kid))
  else
    match Unseal (vault s) vaultID with
    | Panic => Panic
    | Fail _ => Val (Err ErrUnseal)
    | Val der => match ec_parse der with Some k => Val (Ok k) | None => Val (Err ErrMarshal) end
    end.

Definition is_expired (now : Z) (k : JWK) : bool :=
  bool_decide (Status k = "retiring") && (j_ExpiresAt k <? now).

Fixpoint clean (io : nat → option (option string)) (now : Z) (i : nat) (ks : list JWK) (v : KeyVault)
  : list JWK * KeyVault * nat :=
  match ks with
  | [] => ([], v, 0%nat)
  | k :: ks =>
      if is_expired now k then
        let '(ks, v, n) := clean io now (S i) ks (fst (Delete marshal (io i) v (VaultID k))) in (ks, v, S n)
      else
        let '(ks, v, n) := clean io now (S i) ks v in (k :: ks, v, n)
  end.

Definition CleanExpired (io : nat → option (option string)) (now : Z) (s : JWKSService) : JWKSService * nat :=
  let '(ks, v, n) := clean io now 0 (jkeys s) (vault s) in (with_keys s ks v, n).

Fixpoint needsRotation (now overlap : Z) (ks : list JWK) : bool :=
  match ks with
  | [] => true
  | k :: ks =>
      if is_active "Ed25519" k then negb (overlap <? j_ExpiresAt k - now)
      else needsRotation now overlap ks
  end.

(** One tick of [RotationLoop]. *)
Definition tick (io : nat → option (option string)) (t0 t1 : Z) (e : rot_env) (s : JWKSService) : JWKSService :=
  let s := fst (CleanExpired io t0 s) in
  if needsRotation t1 (overlapDuration s) (jkeys s) then fst (RotateEd25519Key e s) else s.

(** ** What the loops do *)

(** Some of the active keys of the curve are retired, all of them when nothing panics. *)
Definition retired (now ov : Z) (crv : string) (ks : list JWK) : list JWK :=
  (λ k, if is_active crv k then retire now ov k else k) <$> ks.
Definition partly_retired (now ov : Z) (crv : string) : list JWK → list JWK → Prop :=
  Forall2 (λ k k', k' = k ∨ is_active crv k = true ∧ k' = retire now ov k).

Lemma retire_all_partly e crv now ov i ks v :
  partly_retired now ov crv ks (retire_all e crv now ov i ks v).1.1
  ∧ ((retire_all e crv now ov i ks v).2 = true → (retire_all e crv now ov i ks v).1.1 = retired now ov crv ks).
Proof.
  revert i v. induction ks as [|k ks IH]; intros i v; [by split; [constructor|]|]. cbn [retire_all].
  destruct (is_active crv k) eqn:Ea.
  - destruct (MarkRotated _ _ _ v _) as [v1 r].
    specialize (IH (S i) v1). destruct (retire_all _ _ _ _ _ ks v1) as [[ks' v'] ok]. destruct IH as [IH1 IH2].
    unfold retired. rewrite fmap_cons, Ea. cbn in IH1, IH2.
    destruct r; cbn; (split; [constructor; auto|]); try (intros; by rewrite IH2); [|done].
    apply Forall2_same_length_lookup_2; [done|]. intros j x y Hx Hy. left. congruence.
  - specialize (IH (S i) v). destruct (retire_all _ _ _ _ _ ks v) as [[ks' v'] ok]. destruct IH as [IH1 IH2].
    unfold retired. rewrite fmap_cons, Ea. cbn in *. split; [constructor; auto|]. intros; by rewrite IH2.
Qed.

Lemma retire_all_vault e crv now ov i ks v m :
  holds v m → holds (retire_all e crv now ov i ks v).1.2 m ∧ (retire_all e crv now ov i ks v).2 = true.
Proof.
  revert i v. induction ks as [|k ks IH]; intros i v Hv; [done|]. cbn [retire_all].
  destruct (is_active crv k).
  - pose proof (exec_holds marshal (CMark (g_clk e (10 + i)) (g_io e i) (VaultID k)) v m I Hv) as He.
    pose proof (holds_answer marshal (CMark (g_clk e (10 + i)) (g_io e i) (VaultID k)) v m I Hv) as Hn.
    cbn [exec abstract answer] in He, Hn. destruct (MarkRotated _ _ _ v _) as [v1 r]. cbn [fst snd] in *.
    specialize (IH (S i) v1 He). destruct (retire_all _ _ _ _ _ ks v1) as [[ks' v'] ok]. by destruct r.
  - specialize (IH (S i) v Hv). by destruct (retire_all _ _ _ _ _ ks v) as [[ks' v'] ok].
Qed.

Lemma clean_keys io now i ks v :
  (clean io now i ks v).1.1 = filter (λ k, is_expired now k = false) ks.
Proof.
  revert i v. induction ks as [|k ks IH]; intros i v; [done|]. cbn [clean]. rewrite filter_cons.
  destruct (is_expired now k).
  - rewrite decide_False by done.
    specialize (IH (S i) (fst (Delete marshal (io i) v (VaultID k)))).
    by destruct (clean _ _ _ ks _) as [[ks' v'] n].
  - rewrite decide_True by done. specialize (IH (S i) v).
    destruct (clean _ _ _ ks _) as [[ks' v'] n]. cbn in *. by rewrite IH.
Qed.

(** The vault after cleaning: the entries of the expired keys are gone. *)
Lemma clean_vault io now i ks v m : holds v m →
  ∃ m', holds (clean io now i ks v).1.2 m'
    ∧ ∀ id, (∀ k, k ∈ ks → is_expired now k = true → VaultID k ≠ id) → m' !! id = m !! id.
Proof.
  revert i v m. induction ks as [|k ks IH]; intros i v m Hv; [by exists m|]. cbn [clean].
  destruct (is_expired now k) eqn:He.
  - pose proof (exec_holds marshal (CDelete (io i) (VaultID k)) v m I Hv) as Hd. cbn [exec abstract] in Hd.
    destruct (IH (S i) _ _ Hd) as (m' & Hm' & Hl).
    destruct (clean _ _ _ ks _) as [[ks' v'] n]. cbn in *. exists m'. split; [done|].
    intros id Hid. rewrite Hl.
    + apply lookup_delete_ne. apply Hid; [left|done].
    + intros k' Hk'. apply Hid. by right.
  - destruct (IH (S i) v m Hv) as (m' & Hm' & Hl).
    destruct (clean _ _ _ ks _) as [[ks' v'] n]. cbn in *. exists m'. split; [done|].
    intros id Hid. apply Hl. intros k' Hk'. apply Hid. by right.
Qed.

(** Cleaning up is invisible.  Removing the expired keys changes neither the
    published key set, at the time of the cleaning or later, nor, for keys with vault
    entries of their own, what can be unsealed of the keys that remain. *)
Theorem clean_invisible io now t s m :
  now <= t → holds (vault s) m → NoDup (VaultID <$> jkeys s) →
  let s' := fst (CleanExpired io now s) in
  GetJWKS t s' = GetJWKS t s
  ∧ ∀ k, k ∈ jkeys s' → k ∈ jkeys s ∧ Unseal (vault s') (VaultID k) = Unseal (vault s) (VaultID k).
Proof.
  intros Hle Hv Hnd. cbv zeta. unfold CleanExpired.
  pose proof (clean_keys io now 0 (jkeys s) (vault s)) as Hk.
  destruct (clean_vault io now 0 (jkeys s) (vault s) m Hv) as (m' & Hm' & Hl).
  destruct (clean _ _ _ _ _) as [[ks v] n]. cbn [fst snd] in *. cbn [vault jkeys with_keys]. subst ks.
  split.
  - unfold GetJWKS. cbn [jkeys with_keys]. clear Hnd Hl. induction (jkeys s) as [|k ks IH]; [done|].
    rewrite !filter_cons. destruct (is_expired now k) eqn:He.
    + rewrite decide_False by done. rewrite IH. rewrite decide_False; [done|].
      unfold is_expired in He. apply andb_prop in He as [Hr Hx]. apply bool_decide_eq_true in Hr.
      unfold published. rewrite Hr. cbn. apply Z.ltb_lt in Hx.
      replace (t <? j_ExpiresAt k) with false; [done|]. symmetry. apply Z.ltb_ge. lia.
    + rewrite decide_True by done. rewrite filter_cons. by destruct (decide _); rewrite IH.
  - intros k Hk. apply list_elem_of_filter in Hk as [Hne Hin]. split; [done|].
    destruct Hv as (_ & _ & Hu), Hm' as (_ & _ & Hu'). rewrite Hu, Hu'. rewrite Hl; [done|].
    intros k' Hk' He' Heq.
    assert (k' = k) as ->; [by apply (NoDup_fmap_eq VaultID (jkeys s))|congruence].
Qed.

(** ** Executions

    One call on the service, or one of the code signing service, at a time.  The
    identifiers of new keys are new: they are hashes of new public keys, or random. *)
Definition fresh_kid (s : JWKSService) (kid : string) : Prop := ∀ k, k ∈ jkeys s → KID k ≠ kid.

Inductive step : Z → JWKSService → JWKSService → Prop :=
| step_ed e s :
    good_env (g_seal e) →
    (∀ seed, g_rand e = Some seed →
       length seed = 32%nat ∧ fresh_kid s (generateKID "ed25519" (fst (ed_key seed)))) →
    step (g_clk e 2) s (fst (RotateEd25519Key e s))
| step_ec e s c :
    good_env (g_seal e) →
    (∀ r crv alg, g_rand e = Some r → curve_names c = Some (crv, alg) →
       let key := ec_generate c r in fresh_kid s (generateKID crv (point c (ec_x key) (ec_y key)))) →
    step (g_clk e 2) s (fst (RotateECDSAKey e s c))
| step_clean io now s : step now s (fst (CleanExpired io now s))
| step_sign now clk rnd s cs cs' req by_ art :
    codeSvc s = Some cs → Sign clk rnd cs req by_ = Ok (cs', art) → step now s (with_code s (Some cs'))
| step_generate now seed rnd label s cs cs' key :
    codeSvc s = Some cs → GenerateKey now seed rnd cs label = Ok (cs', key) →
    Signing.keys cs !! k_ID key = None → step now s (with_code s (Some cs')).

(** Executions between two moments. *)
Definition steps (lo hi : Z) : JWKSService → JWKSService → Prop :=
  rtc (λ s s', ∃ t, lo <= t <= hi ∧ step t s s').

(** The outcomes of a rotation on the key list. *)
Lemma partly_refl now ov crv ks : partly_retired now ov crv ks ks.
Proof. induction ks; constructor; auto. Qed.

Lemma ed_keys e s :
  partly_retired (g_clk e 2) (overlapDuration s) "Ed25519" (jkeys s) (jkeys (fst (RotateEd25519Key e s)))
  ∨ ∃ seed, g_rand e = Some seed ∧
      jkeys (fst (RotateEd25519Key e s)) =
        retired (g_clk e 2) (overlapDuration s) "Ed25519" (jkeys s)
        ++ [mkJWK "OKP" "Ed25519" (generateKID "ed25519" (fst (ed_key seed))) "sig" "EdDSA"
              (b64 (fst (ed_key seed))) "" (g_clk e 0)
              (g_clk e 1 + (rotationInterval s + overlapDuration s)) None "active"
              ("jwks-" +:+ generateKID "ed25519" (fst (ed_key seed)))].
Proof.
  unfold RotateEd25519Key. destruct (g_rand e) as [seed|]; [|left; apply partly_refl].
  destruct (ed_key seed) as [pub priv] eqn:Hkey. cbv zeta.
  destruct (Seal _ _ _ _ _ _ _) as [v [[]| |]]; [|left; apply partly_refl..].
  destruct (retire_all_partly e "Ed25519" (g_clk e 2) (overlapDuration s) 0 (jkeys s) v) as [Hp Hr].
  destruct (retire_all _ _ _ _ _ _ _) as [[ks v'] ok]. destruct ok; cbn [negb fst snd] in *; [|by left].
  right. exists seed. split; [done|]. cbn [jkeys with_code with_keys]. by rewrite Hr, Hkey.
Qed.

Lemma ec_keys e s c :
  (∃ crv, partly_retired (g_clk e 2) (overlapDuration s) crv (jkeys s) (jkeys (fst (RotateECDSAKey e s c))))
  ∨ ∃ r crv alg jwk, g_rand e = Some r ∧ curve_names c = Some (crv, alg)
      ∧ CRV jwk = crv ∧ KID jwk = generateKID crv (point c (ec_x (ec_generate c r)) (ec_y (ec_generate c r)))
      ∧ VaultID jwk = "jwks-" +:+ KID jwk ∧ Status jwk = "active"
      ∧ jkeys (fst (RotateECDSAKey e s c)) =
        retired (g_clk e 2) (overlapDuration s) crv (jkeys s) ++ [jwk].
Proof.
  assert (∀ ks, ∃ crv, partly_retired (g_clk e 2) (overlapDuration s) crv ks ks) as Hrefl.
  { intros ks. exists "". apply partly_refl. }
  unfold RotateECDSAKey. destruct (g_rand e) as [r|]; [|left; apply Hrefl]. cbv zeta.
  destruct (curve_names c) as [[crv alg]|]; [|left; apply Hrefl].
  destruct (ec_marshal _) as [der|]; [|left; apply Hrefl].
  destruct (Seal _ _ _ _ _ _ _) as [v [[]| |]]; [|left; apply Hrefl..].
  destruct (retire_all_partly e crv (g_clk e 2) (overlapDuration s) 0 (jkeys s) v) as [Hp Hr].
  destruct (retire_all _ _ _ _ _ _ _) as [[ks v'] ok]. destruct ok; cbn [negb fst snd] in *; [|by left; eexists].
  right. eexists r, crv, alg, _. split; [done|]. split; [done|]. cbn [jkeys with_keys]. rewrite Hr by done.
  split_and!; [..|reflexivity]; reflexivity.
Qed.

Lemma step_overlap t s s' : step t s s' → overlapDuration s' = overlapDuration s.
Proof.
  intros []; [..|done|done].
  - unfold RotateEd25519Key. destruct (g_rand e) as [seed|]; [|done]. destruct (ed_key seed). cbv zeta.
    destruct (Seal _ _ _ _ _ _ _) as [v [[]| |]]; [|done..]. by destruct (retire_all _ _ _ _ _ _ _) as [[? ?] []].
  - unfold RotateECDSAKey. destruct (g_rand e); [|done]. cbv zeta.
    destruct (curve_names c) as [[crv alg]|]; [|done]. destruct (ec_marshal _); [|done].
    destruct (Seal _ _ _ _ _ _ _) as [v [[]| |]]; [|done..]. by destruct (retire_all _ _ _ _ _ _ _) as [[? ?] []].
  - unfold CleanExpired. by destruct (clean _ _ _ _ _) as [[? ?] ?].
Qed.

(** ** Retention *)

(** The same key, whatever its status. *)
Definition same_key (k k' : JWK) : Prop :=
  KID k' = KID k ∧ X k' = X k ∧ Y k' = Y k ∧ CRV k' = CRV k ∧ ALG k' = ALG k.

Lemma published_cases t k : published t k = true ↔
  Status k = "active" ∨ (Status k = "retiring" ∧ t < j_ExpiresAt k).
Proof.
  unfold published. case_bool_decide as Ha; [tauto|]. case_bool_decide as Hr.
  - rewrite Z.ltb_lt. tauto.
  - split; [done|]. tauto.
Qed.

Lemma retire_published now ov t crv k (ks : list JWK) :
  t < now + ov → k ∈ ks → published t k = true →
  ∃ k', k' ∈ retired now ov crv ks ∧ same_key k k' ∧ published t k' = true.
Proof.
  intros Ht Hk Hp. exists (if is_active crv k then retire now ov k else k). split_and!.
  - apply list_elem_of_fmap. by exists k.
  - by destruct (is_active crv k).
  - destruct (is_active crv k); [|done]. apply published_cases. by right.
Qed.

Lemma partly_published now ov t crv k ks ks' :
  t < now + ov → partly_retired now ov crv ks ks' → k ∈ ks → published t k = true →
  ∃ k', k' ∈ ks' ∧ same_key k k' ∧ published t k' = true.
Proof.
  intros Ht Hp Hk Hpub. apply list_elem_of_lookup in Hk as [i Hi].
  destruct (Forall2_lookup_l _ _ _ _ _ Hp Hi) as (k' & Hk' & Hr). exists k'.
  split; [by eapply list_elem_of_lookup_2|]. destruct Hr as [-> |[_ ->]]; [done|]. split; [done|].
  apply published_cases. by right.
Qed.

Lemma step_published lo t τ s s' k :
  step τ s s' → lo <= τ <= t → t < lo + overlapDuration s → k ∈ GetJWKS t s →
  ∃ k', k' ∈ GetJWKS t s' ∧ same_key k k'.
Proof.
  unfold GetJWKS. intros Hs Hτ Ht [Hp Hk]%list_elem_of_filter.
  assert (∀ ks : list JWK, (∃ k', k' ∈ ks ∧ same_key k k' ∧ published t k' = true) →
    ∃ k', k' ∈ filter (λ k, published t k = true) ks ∧ same_key k k') as Hin.
  { intros ks (k' & H1' & H2' & H3'). exists k'. by rewrite list_elem_of_filter. }
  apply Hin. destruct Hs.
  - destruct (ed_keys e s) as [Hp' | (seed & _ & ->)]; [eapply partly_published; [|done..]; lia|].
    destruct (retire_published (g_clk e 2) (overlapDuration s) t "Ed25519" k (jkeys s)) as (k' & ? & ?);
      [lia|done|done|]. exists k'. rewrite elem_of_app. auto.
  - destruct (ec_keys e s c) as [[crv Hp'] | (r & crv & alg & jwk & _ & _ & _ & _ & _ & _ & ->)];
      [eapply partly_published; [|done..]; lia|].
    destruct (retire_published (g_clk e 2) (overlapDuration s) t crv k (jkeys s)) as (k' & ? & ?);
      [lia|done|done|]. exists k'. rewrite elem_of_app. auto.
  - exists k. split; [|done]. unfold CleanExpired.
    pose proof (clean_keys io now 0 (jkeys s) (vault s)) as Hc.
    destruct (clean _ _ _ _ _) as [[ks v] n]. cbn [fst jkeys with_keys] in *. subst ks.
    apply list_elem_of_filter. split; [|done]. unfold is_expired.
    apply published_cases in Hp as [-> |[-> Hx]]; [done|]. cbn. apply Z.ltb_ge. lia.
  - by exists k.
  - by exists k.
Qed.

(** Rotated keys stay verifiable.  A key that is active at a moment [lo] is
    published at every moment [t] less than the overlap later, with the same identifier
    and public key, whatever rotations, cleanings and signings happen in between in the
    order of time; the same holds for a key that is being retired and has not expired at
    [t]. *)
Theorem rotated_keys_published lo t s s' k :
  lo <= t → t < lo + overlapDuration s → steps lo t s s' → k ∈ GetJWKS t s →
  ∃ k', k' ∈ GetJWKS t s' ∧ same_key k k'.
Proof.
  intros Hle Ht Hs. revert k. induction Hs as [s|s s1 s2 (τ & Hτ & Hst) _ IH]; intros k Hk.
  - by exists k.
  - pose proof (step_overlap _ _ _ Hst) as Ho.
    destruct (step_published lo t τ s s1 k Hst Hτ Ht Hk) as (k1 & Hk1 & Hs1).
    destruct (IH ltac:(lia) k1 Hk1) as (k2 & Hk2 & Hs2). exists k2. split; [done|].
    unfold same_key in *. intuition congruence.
Qed.

(** ** The signing key *)

(** The state of a running service: the signing key of the code signing service is the
    one active Ed25519 key of the set, and the vault holds its seed. *)
Record service_inv (s : JWKSService) (cs : CodeSigningService) (key : SigningKey) (k : JWK)
    (seed : bytes) (m : gmap string bytes) : Prop := mkInv {
  inv_kids : NoDup (KID <$> jkeys s);
  inv_vault_ids : ∀ k, k ∈ jkeys s → VaultID k = "jwks-" +:+ KID k;
  inv_vault : holds (vault s) m;
  inv_code : codeSvc s = Some cs;
  inv_key : Signing.keys cs !! activeKey cs = Some key;
  inv_key_id : k_ID key = activeKey cs;
  inv_seed : length seed = 32%nat ∧ ed_key seed = (PublicKey key, PrivateKey key);
  inv_in : k ∈ jkeys s;
  inv_kid : KID k = activeKey cs;
  inv_x : X k = b64 (PublicKey key);
  inv_active : is_active "Ed25519" k = true;
  inv_only : ∀ k', k' ∈ jkeys s → is_active "Ed25519" k' = true → k' = k;
  inv_sealed : m !! ("jwks-" +:+ KID k) = Some seed;
}.

Definition inv (s : JWKSService) : Prop := ∃ cs key k seed m, service_inv s cs key k seed m.

Lemma prefix_inj (p a b : string) : p +:+ a = p +:+ b → a = b.
Proof.
  induction p as [|c p IH]; [done|]. intros E. apply IH. by injection E.
Qed.

Lemma is_active_retired now ov k crv : is_active crv (retire now ov k) = false.
Proof. reflexivity. Qed.

Lemma fmap_retire_KID now ov crv (ks : list JWK) :
  KID <$> retired now ov crv ks = KID <$> ks.
Proof. unfold retired. rewrite <- list_fmap_compose. apply list_fmap_ext. intros i k _. cbn. by destruct (is_active crv k). Qed.

Lemma retired_vault_ids now ov crv (ks : list JWK) k :
  (∀ k, k ∈ ks → VaultID k = "jwks-" +:+ KID k) →
  k ∈ retired now ov crv ks → VaultID k = "jwks-" +:+ KID k.
Proof.
  intros Hv (k0 & -> & Hk0)%list_elem_of_fmap. specialize (Hv k0 Hk0). by destruct (is_active crv k0).
Qed.

(** A sealing under an identifier no key of the set uses. *)
Lemma seal_fresh e v id label kt p v' r m :
  good_env e → holds v m → Seal marshal e v id label kt p = (v', r) →
  ∃ m', holds v' m' ∧ (r = Val tt → m' !! id = Some p) ∧ ∀ i, i ≠ id → m' !! i = m !! i.
Proof.
  intros He Hv Hs.
  pose proof (exec_holds marshal (CSeal e id label kt p) v m He Hv) as Hx. cbn [exec abstract] in Hx.
  unfold sealed in Hx. rewrite Hs in Hx. cbn [fst snd] in Hx.
  eexists. split; [exact Hx|]. split.
  - intros ->. by rewrite lookup_insert_eq.
  - intros i Hi. destruct r as [[]|[]|]; try done; by rewrite lookup_insert_ne.
Qed.

(** Nothing but the vault contents under other identifiers changes. *)
Lemma inv_vault_change s cs key k seed m v' m' :
  service_inv s cs key k seed m → holds v' m' → m' !! ("jwks-" +:+ KID k) = m !! ("jwks-" +:+ KID k) →
  service_inv (with_keys s (jkeys s) v') cs key k seed m'.
Proof. intros [] Hv Hm. constructor; try done. by rewrite Hm. Qed.

Lemma inv_ed e s : good_env (g_seal e) →
  (∀ seed, g_rand e = Some seed →
     length seed = 32%nat ∧ fresh_kid s (generateKID "ed25519" (fst (ed_key seed)))) →
  inv s → inv (fst (RotateEd25519Key e s)).
Proof.
  intros He Hf (cs & key & k & sd & m & Hi). pose proof (ed_keys e s) as Hks. revert Hks.
  unfold RotateEd25519Key. destruct (g_rand e) as [seed|] eqn:Hr; [|by exists cs, key, k, sd, m].
  destruct (Hf seed eq_refl) as [Hlen Hfresh]. destruct (ed_key seed) as [pub priv] eqn:Hkey.
  cbn [fst] in Hfresh. cbv zeta. set (kid := generateKID "ed25519" pub) in *.
  destruct (Seal _ _ _ _ _ _ _) as [v r] eqn:Hseal.
  destruct (seal_fresh _ _ _ _ _ _ _ _ _ He (inv_vault _ _ _ _ _ _ Hi) Hseal) as (m1 & Hm1 & Hm1s & Hm1o).
  assert (∀ k', k' ∈ jkeys s → m1 !! ("jwks-" +:+ KID k') = m !! ("jwks-" +:+ KID k')) as Hother.
  { intros k' Hk'. apply Hm1o. intros E%prefix_inj. by apply (Hfresh k' Hk'). }
  destruct r as [[]| |]; [|intros _; exists cs, key, k, sd, m1; eapply inv_vault_change; [done|done|]; apply Hother, Hi..].
  destruct (retire_all_vault e "Ed25519" (g_clk e 2) (overlapDuration s) 0 (jkeys s) v m1 Hm1) as [Hv' Hdone].
  destruct (retire_all_partly e "Ed25519" (g_clk e 2) (overlapDuration s) 0 (jkeys s) v) as [_ Hl].
  destruct (retire_all _ _ _ _ _ _ _) as [[ks v'] ok]. cbn [fst snd] in Hv', Hdone, Hl. subst ok. specialize (Hl eq_refl).
  cbn [negb fst jkeys with_code with_keys]. intros [Hks|(seed' & [= <-] & Hks)].
  { exfalso. subst ks. apply Forall2_length in Hks. unfold retired in Hks.
    rewrite length_app, length_fmap in Hks. cbn in Hks. lia. }
  rewrite Hkey in Hks. cbn [fst] in Hks. fold kid in Hks.
  destruct Hi as [Hnd Hvid _ Hcs Hckey Hckid _ _ _ _ _ Honly _].
  set (jwk := mkJWK _ _ _ _ _ _ _ _ _ _ _ _) in *.
  eexists _, _, jwk, seed, m1. rewrite Hcs. constructor; cbn [jkeys vault codeSvc with_code with_keys fmap option_fmap option_map].
  - rewrite Hks, fmap_app, fmap_retire_KID. apply NoDup_app. split_and!; [done|..|apply NoDup_singleton].
    intros i (k' & -> & Hk')%list_elem_of_fmap. cbn. rewrite list_elem_of_singleton. by apply Hfresh.
  - intros k' Hk'. rewrite Hks, elem_of_app, list_elem_of_singleton in Hk'.
    destruct Hk' as [Hk'| ->]; [by eapply retired_vault_ids|done].
  - exact Hv'.
  - reflexivity.
  - cbn. by rewrite lookup_insert_eq.
  - reflexivity.
  - cbn [PublicKey PrivateKey]. by rewrite Hkey.
  - rewrite Hks, elem_of_app. right. by left.
  - reflexivity.
  - reflexivity.
  - reflexivity.
  - intros k' Hk' Hact. rewrite Hks, elem_of_app, list_elem_of_singleton in Hk'.
    destruct Hk' as [(k0 & -> & _)%list_elem_of_fmap| ->]; [|done].
    destruct (is_active "Ed25519" k0) eqn:E; [done|congruence].
  - change (m1 !! ("jwks-" +:+ kid) = Some seed). rewrite Hm1s by done. f_equal. replace priv with (snd (ed_key seed)) by (by rewrite Hkey).
    by apply ed_seed_correct.
Qed.

Lemma inv_ec e s c : good_env (g_seal e) →
  (∀ r crv alg, g_rand e = Some r → curve_names c = Some (crv, alg) →
     let key := ec_generate c r in fresh_kid s (generateKID crv (point c (ec_x key) (ec_y key)))) →
  inv s → inv (fst (RotateECDSAKey e s c)).
Proof.
  intros He Hf (cs & key & k & sd & m & Hi). pose proof (ec_keys e s c) as Hks. revert Hks.
  unfold RotateECDSAKey. destruct (g_rand e) as [r|] eqn:Hr; [|by exists cs, key, k, sd, m]. cbv zeta.
  destruct (curve_names c) as [[crv alg]|] eqn:Hc; [|by exists cs, key, k, sd, m].
  specialize (Hf r crv alg eq_refl eq_refl). cbv zeta in Hf.
  destruct (ec_marshal _) as [der|]; [|by exists cs, key, k, sd, m].
  destruct (Seal _ _ _ _ _ _ _) as [v rs] eqn:Hseal.
  destruct (seal_fresh _ _ _ _ _ _ _ _ _ He (inv_vault _ _ _ _ _ _ Hi) Hseal) as (m1 & Hm1 & _ & Hm1o).
  assert (∀ k', k' ∈ jkeys s → m1 !! ("jwks-" +:+ KID k') = m !! ("jwks-" +:+ KID k')) as Hother.
  { intros k' Hk'. apply Hm1o. intros E%prefix_inj. by apply (Hf k' Hk'). }
  destruct rs as [[]| |]; [|intros _; exists cs, key, k, sd, m1; eapply inv_vault_change; [done|done|]; apply Hother, Hi..].
  destruct (retire_all_vault e crv (g_clk e 2) (overlapDuration s) 0 (jkeys s) v m1 Hm1) as [Hv' Hdone].
  destruct (retire_all_partly e crv (g_clk e 2) (overlapDuration s) 0 (jkeys s) v) as [_ Hl].
  destruct (retire_all _ _ _ _ _ _ _) as [[ks v'] ok]. cbn [fst snd] in Hv', Hdone, Hl. subst ok. specialize (Hl eq_refl).
  cbn [negb fst jkeys with_keys].
  intros [[crv' Hks]|(r' & crv' & alg' & jwk & [= <-] & [= <- <-] & Hcrv & Hkid & Hvid' & Hst & Hks)].
  { exfalso. subst ks. apply Forall2_length in Hks. unfold retired in Hks.
    rewrite length_app, length_fmap in Hks. cbn in Hks. lia. }
  assert (crv ≠ "Ed25519") as Hne by (destruct c; cbn in Hc; congruence).
  assert (∀ k', is_active "Ed25519" k' = true → is_active crv k' = false) as Hned.
  { intros k' [_ ?%bool_decide_eq_true]%andb_prop. unfold is_active. rewrite (bool_decide_eq_false_2 (CRV k' = crv)).
    - by rewrite andb_false_r.
    - congruence. }
  destruct Hi as [Hnd Hvid _ Hcs Hckey Hckid Hsd Hin Hkk Hx Hact Honly Hsl].
  exists cs, key, k, sd, m1. constructor; cbn [jkeys vault codeSvc with_keys]; try done.
  - rewrite Hks, fmap_app, fmap_retire_KID. apply NoDup_app. split_and!; [done|..|apply NoDup_singleton].
    intros i (k' & -> & Hk')%list_elem_of_fmap. cbn. rewrite list_elem_of_singleton, Hkid. by apply Hf.
  - intros k' Hk'. rewrite Hks, elem_of_app, list_elem_of_singleton in Hk'.
    destruct Hk' as [Hk'| ->]; [by eapply retired_vault_ids|done].
  - rewrite Hks, elem_of_app. left. apply list_elem_of_fmap. exists k. by rewrite Hned.
  - intros k' Hk' Ha. rewrite Hks, elem_of_app, list_elem_of_singleton in Hk'.
    destruct Hk' as [(k0 & -> & Hk0)%list_elem_of_fmap| ->].
    + destruct (is_active crv k0) eqn:E; [done|]. by apply Honly.
    + apply Hned in Ha. unfold is_active in Ha. rewrite Hst, Hcrv in Ha.
      by rewrite !bool_decide_eq_true_2 in Ha by done.
  - rewrite Hother; done.
Qed.

Lemma inv_clean io now s : inv s → inv (fst (CleanExpired io now s)).
Proof.
  intros (cs & key & k & sd & m & [Hnd Hvid Hv Hcs Hckey Hckid Hsd Hin Hkk Hx Hact Honly Hsl]).
  unfold CleanExpired. pose proof (clean_keys io now 0 (jkeys s) (vault s)) as Hk.
  destruct (clean_vault io now 0 (jkeys s) (vault s) m Hv) as (m' & Hm' & Hl).
  destruct (clean _ _ _ _ _) as [[ks v] n]. cbn [fst snd] in *. subst ks.
  assert (is_expired now k = false) as Hne.
  { unfold is_active in Hact. apply andb_prop in Hact as [Ha%bool_decide_eq_true _].
    unfold is_expired. by rewrite Ha. }
  exists cs, key, k, sd, m'. constructor; cbn [jkeys vault codeSvc with_keys]; try done.
  - eapply sublist_NoDup; [exact Hnd|]. apply fmap_sublist, sublist_filter.
  - intros k' [_ Hk']%list_elem_of_filter. by apply Hvid.
  - by apply list_elem_of_filter.
  - intros k' [_ Hk']%list_elem_of_filter. by apply Honly.
  - rewrite Hl; [done|]. intros k' Hk' He' E. rewrite Hvid in E by done. apply prefix_inj in E.
    assert (k' = k) as ->; [by apply (NoDup_fmap_eq KID (jkeys s))|congruence].
Qed.

Lemma inv_step t s s' : step t s s' → inv s → inv s'.
Proof.
  intros []; [by apply inv_ed|by apply inv_ec|apply inv_clean|..].
  - intros (cs0 & key & k & sd & m & Hi). pose proof (inv_code _ _ _ _ _ _ Hi) as E.
    assert (cs0 = cs) as -> by congruence. clear E.
    assert (Signing.keys cs' = Signing.keys cs ∧ activeKey cs' = activeKey cs) as [E1 E2].
    { match goal with H : Sign _ _ _ _ _ = _ |- _ => revert H end. unfold Sign.
      destruct (_ !! _); [|done]. destruct (Hex.decode _) as [? []]; [|done]. by intros [= <- _]. }
    exists cs', key, k, sd, m. destruct Hi. by constructor; rewrite ?E1, ?E2.
  - intros (cs0 & key0 & k & sd & m & Hi). pose proof (inv_code _ _ _ _ _ _ Hi) as E.
    assert (cs0 = cs) as -> by congruence. clear E.
    exists cs', key0, k, sd, m.
    match goal with H : GenerateKey _ _ _ _ _ = _ |- _ => revert H end. unfold GenerateKey.
    destruct seed as [sd'|]; [|done]. destruct (ed_key sd') as [pub priv]. intros [= <- <-].
    destruct Hi. constructor; try done. cbn [Signing.keys activeKey codeSvc with_code].
    rewrite lookup_insert_ne; [done|]. intros E. cbn [k_ID] in *. congruence.
Qed.

Lemma vault_id_in ks k : NoDup (KID <$> ks) → k ∈ ks → vault_id ks (KID k) = VaultID k.
Proof.
  induction ks as [|k0 ks IH]; intros Hnd Hk; [by apply elem_of_nil in Hk|]. cbn [vault_id].
  rewrite fmap_cons in Hnd. apply NoDup_cons in Hnd as [Hn Hnd]. apply elem_of_cons in Hk as [->|Hk].
  - by rewrite bool_decide_eq_true_2.
  - rewrite bool_decide_eq_false_2; [by apply IH|]. intros E. apply Hn. rewrite E.
    apply list_elem_of_fmap. by exists k.
Qed.

(** What the invariant gives to the users of the key set. *)
Lemma inv_signing s : inv s →
  ∃ cs key k, codeSvc s = Some cs ∧ Signing.keys cs !! activeKey cs = Some key
    ∧ KID k = activeKey cs ∧ Base64.decode_raw true (X k) = Some (PublicKey key)
    ∧ (∀ now, k ∈ GetJWKS now s)
    ∧ (∀ k', k' ∈ jkeys s → is_active "Ed25519" k' = true → k' = k)
    ∧ UnsealEd25519Key s (KID k) = Val (Ok (PrivateKey key))
    ∧ (∀ clk rnd req by_ cs' art, Sign clk rnd cs req by_ = Ok (cs', art) →
         a_SigningKeyID art = KID k
         ∧ ∃ digest sig, Hex.decode (sr_SHA256 req) = (digest, true)
           ∧ Hex.decode (a_Signature art) = (sig, true)
           ∧ ed_verify (PublicKey key) digest sig = true).
Proof.
  intros (cs & key & k & sd & m & [Hnd Hvid (_ & _ & Hv) Hcs Hckey Hckid [Hlen Hsd] Hin Hkk Hx Hact Honly Hsl]).
  exists cs, key, k. split_and!; try done.
  - rewrite Hx. apply Base64.decode_encode_raw.
  - intros now. apply list_elem_of_filter. split; [|done]. apply published_cases. left.
    unfold is_active in Hact. by apply andb_prop in Hact as [?%bool_decide_eq_true _].
  - unfold UnsealEd25519Key. rewrite vault_id_in, Hvid by done. rewrite bool_decide_eq_false_2 by done.
    rewrite Hv, Hsl, Hlen. cbn. by rewrite Hsd.
  - intros clk rnd req by_ cs' art. unfold Sign. rewrite Hckey.
    destruct (Hex.decode (sr_SHA256 req)) as [digest []] eqn:Hd; [|done]. intros [= _ <-].
    cbn [a_SigningKeyID a_Signature]. split; [congruence|].
    eexists digest, _. split; [done|]. rewrite Hex.decode_encode. split; [done|].
    pose proof (ed_correct sd digest) as Hc. by rewrite Hsd in Hc.
Qed.

(** ** Start-up (cmd/server/main.go) *)

Definition boot (e1 e2 : rot_env) (cs : CodeSigningService) (v : KeyVault) (ca : ec_private) : JWKSService :=
  let s := NewJWKSService v (Some cs) (90 * day) (7 * day) in
  let s := ImportActiveKeyIntoJWKS e1 cs s in
  fst (ImportExistingECDSAKey e2 s "ca-root" ca).

(** The import of the signing key was not stopped by the vault. *)
Definition import_ok (e : rot_env) (cs : CodeSigningService) (v : KeyVault) : Prop :=
  length (jkeys (ImportActiveKeyIntoJWKS e cs (NewJWKSService v (Some cs) (90 * day) (7 * day)))) = 1%nat.

Lemma import_active e cs v m key seed :
  good_env (g_seal e) → holds v m → import_ok e cs v →
  Signing.keys cs !! activeKey cs = Some key → k_ID key = activeKey cs →
  length seed = 32%nat → ed_key seed = (PublicKey key, PrivateKey key) →
  ∃ k m', service_inv (ImportActiveKeyIntoJWKS e cs (NewJWKSService v (Some cs) (90 * day) (7 * day)))
            cs key k seed m' ∧ jkeys (ImportActiveKeyIntoJWKS e cs (NewJWKSService v (Some cs) (90 * day) (7 * day))) = [k].
Proof.
  intros He Hv Hok Hkey Hid Hlen Hsd. revert Hok. unfold import_ok, ImportActiveKeyIntoJWKS. rewrite Hkey.
  unfold ImportExistingEd25519Key. cbn [jkeys NewJWKSService vault]. cbv zeta.
  destruct (Seal _ _ _ _ _ _ _) as [v' r] eqn:Hseal.
  destruct (seal_fresh _ _ _ _ _ _ _ _ _ He Hv Hseal) as (m1 & Hm1 & Hm1s & _).
  destruct r as [[]| |]; [|done..]. intros _. cbn [fst jkeys with_keys app].
  set (k := mkJWK _ _ _ _ _ _ _ _ _ _ _ _). exists k, m1. split; [|done].
  constructor; cbn [jkeys vault codeSvc with_keys NewJWKSService]; try done.
  - apply NoDup_singleton.
  - intros k' ->%list_elem_of_singleton. done.
  - by left.
  - by intros k' ->%list_elem_of_singleton.
  - change (m1 !! ("jwks-" +:+ k_ID key) = Some seed). rewrite Hm1s by done. f_equal.
    replace (PrivateKey key) with (snd (ed_key seed)) by (by rewrite Hsd). by apply ed_seed_correct.
Qed.

Lemma import_ec_inv e s kid ca : good_env (g_seal e) → fresh_kid s kid → inv s →
  inv (fst (ImportExistingECDSAKey e s kid ca)).
Proof.
  intros He Hf (cs & key & k & sd & m & Hi). unfold ImportExistingECDSAKey.
  destruct (ec_marshal ca) as [der|]; [|by exists cs, key, k, sd, m].
  destruct (import_names (ec_c ca)) as [crv alg] eqn:Hn. cbv zeta.
  destruct (Seal _ _ _ _ _ _ _) as [v r] eqn:Hseal.
  destruct (seal_fresh _ _ _ _ _ _ _ _ _ He (inv_vault _ _ _ _ _ _ Hi) Hseal) as (m1 & Hm1 & _ & Hm1o).
  assert (m1 !! ("jwks-" +:+ KID k) = m !! ("jwks-" +:+ KID k)) as Hk.
  { apply Hm1o. intros E%prefix_inj. by apply (Hf k (inv_in _ _ _ _ _ _ Hi)). }
  exists cs, key, k, sd, m1.
  destruct r as [[]| |]; [|by eapply inv_vault_change..]. cbn [fst].
  destruct Hi as [Hnd Hvid _ Hcs Hckey Hckid Hsd Hin Hkk Hx Hact Honly Hsl].
  constructor; cbn [jkeys vault codeSvc with_keys]; try done.
  - rewrite fmap_app. apply NoDup_app. split_and!; [done|..|apply NoDup_singleton].
    intros i (k' & -> & Hk')%list_elem_of_fmap. cbn. rewrite list_elem_of_singleton. by apply Hf.
  - intros k' [Hk'| ->%list_elem_of_singleton]%elem_of_app; [by apply Hvid|done].
  - apply elem_of_app. by left.
  - intros k' [Hk'| ->%list_elem_of_singleton]%elem_of_app Ha; [by apply Honly|].
    exfalso. unfold is_active in Ha. cbn [Status CRV] in Ha.
    destruct (ec_c ca); injection Hn as <- <-; vm_compute in Ha; done.
  - by rewrite Hk.
Qed.

(** The signing key is always published.  From start-up on, through any sequence of
    rotations of either kind, cleanings, new signing keys and signings, with the vault
    failing at any of them, there is exactly one active Ed25519 key in the set; it is the
    key the code signing service signs with, it is published at every moment and
    [UnsealEd25519Key] gives its private half back.  So every artifact the service signs
    verifies under the public key published for the identifier it carries. *)
Theorem signing_key_published now seed rnd cs e1 e2 v m ca lo hi s :
  NewCodeSigningService now (Some seed) rnd = Some cs → length seed = 32%nat →
  holds v m → good_env (g_seal e1) → good_env (g_seal e2) → import_ok e1 cs v →
  steps lo hi (boot e1 e2 cs v ca) s →
  ∃ cs key k, codeSvc s = Some cs ∧ Signing.keys cs !! activeKey cs = Some key
    ∧ KID k = activeKey cs ∧ Base64.decode_raw true (X k) = Some (PublicKey key)
    ∧ (∀ now, k ∈ GetJWKS now s)
    ∧ (∀ k', k' ∈ jkeys s → is_active "Ed25519" k' = true → k' = k)
    ∧ UnsealEd25519Key s (KID k) = Val (Ok (PrivateKey key))
    ∧ (∀ clk rnd req by_ cs' art, Sign clk rnd cs req by_ = Ok (cs', art) →
         a_SigningKeyID art = KID k
         ∧ ∃ digest sig, Hex.decode (sr_SHA256 req) = (digest, true)
           ∧ Hex.decode (a_Signature art) = (sig, true)
           ∧ ed_verify (PublicKey key) digest sig = true).
Proof.
  intros Hnew Hlen Hv He1 He2 Hok Hs. apply inv_signing. revert Hnew. unfold NewCodeSigningService, GenerateKey.
  destruct (ed_key seed) as [pub priv] eqn:Hkey. intros [= Hcs].
  assert (inv (boot e1 e2 cs v ca)) as Hb.
  { destruct (import_active e1 cs v m (mkKey (generateID "csk" rnd) "root-signing-key" pub priv (Hex.encode pub) now true) seed)
      as (k & m' & Hi & Hks); try done.
    - subst cs. cbn. by rewrite lookup_insert_eq.
    - by subst cs.
    - unfold boot. apply import_ec_inv; [done| |by eexists _, _, _, _, _].
      intros k' Hk'. rewrite Hks in Hk'. apply list_elem_of_singleton in Hk' as ->.
      rewrite (inv_kid _ _ _ _ _ _ Hi). subst cs. cbn [activeKey k_ID]. by destruct rnd. }
  induction Hs as [|s0 s1 s2 (t & _ & Hst) _ IH]; [done|]. apply IH. by eapply inv_step.
Qed.

(** ** Coordinates of published elliptic-curve keys *)

Lemma length_be_fixed n z : length (be_fixed n z) = n.
Proof. revert z. induction n as [|n IH]; intros z; [done|]. cbn [be_fixed]. rewrite length_app, IH. cbn. lia. Qed.

Lemma be_fixed_pad k n z : 0 <= z < 256 ^ Z.of_nat n → be_fixed (k + n) z = replicate k x00 ++ be_fixed n z.
Proof.
  revert z. induction n as [|n IH]; intros z Hz.
  - change (256 ^ Z.of_nat 0) with 1 in Hz. assert (z = 0) as -> by lia. rewrite Nat.add_0_r, app_nil_r.
    induction k as [|k IHk]; [done|]. cbn [be_fixed]. rewrite Z.div_0_l, IHk by done.
    by rewrite <- replicate_cons_app.
  - rewrite Nat.add_succ_r. cbn [be_fixed]. rewrite IH, app_assoc; [done|].
    rewrite Nat2Z.inj_succ, Z.pow_succ_r in Hz by lia.
    split; [apply Z.div_pos; lia|apply Z.div_lt_upper_bound; lia].
Qed.

Lemma byte_count_bound z : 0 <= z → z < 256 ^ Z.of_nat (byte_count z).
Proof.
  intros Hz. unfold byte_count. destruct (Z.eqb_spec z 0) as [->|Hne]; [done|].
  pose proof (Z.log2_nonneg z) as Hl. rewrite Z2Nat.id by (assert (0 <= Z.log2 z / 8) by (apply Z.div_pos; lia); lia).
  change 256 with (2 ^ 8). rewrite <- Z.pow_mul_r by (assert (0 <= Z.log2 z / 8) by (apply Z.div_pos; lia); lia).
  apply Z.log2_lt_pow2; [lia|]. pose proof (Z.div_mod (Z.log2 z) 8). pose proof (Z.mod_pos_bound (Z.log2 z) 8). lia.
Qed.

Lemma byte_count_le z n : 0 <= z < 256 ^ Z.of_nat n → (byte_count z <= n)%nat.
Proof.
  intros Hz. unfold byte_count. destruct (Z.eqb_spec z 0) as [->|Hne]; [lia|].
  assert (Z.log2 z < 8 * Z.of_nat n) as Hl.
  { apply Z.log2_lt_pow2; [lia|]. rewrite Z.pow_mul_r by lia. apply Hz. }
  assert (Z.log2 z / 8 < Z.of_nat n) by (apply Z.div_lt_upper_bound; lia). lia.
Qed.

Lemma padOrTrim_fixed z n : 0 <= z < 256 ^ Z.of_nat n → padOrTrim (be_bytes z) n = be_fixed n z.
Proof.
  intros Hz. pose proof (byte_count_le z n Hz) as Hc. pose proof (byte_count_bound z ltac:(lia)) as Hb.
  unfold padOrTrim, be_bytes. rewrite length_be_fixed. destruct (Nat.leb_spec n (byte_count z)) as [Hle|Hlt].
  - assert (byte_count z = n) as -> by lia. rewrite take_ge; [done|]. by rewrite length_be_fixed.
  - rewrite <- be_fixed_pad by lia. f_equal. lia.
Qed.

Lemma be_bytes_length z n : (0 < n)%nat → 0 <= z < 256 ^ Z.of_nat n →
  length (be_bytes z) = n ↔ 256 ^ Z.of_nat (n - 1) <= z.
Proof.
  intros Hn Hx. unfold be_bytes. rewrite length_be_fixed. split.
  - intros Hc. destruct (Z.le_gt_cases (256 ^ Z.of_nat (n - 1)) z) as [?|Hlt]; [done|exfalso].
    pose proof (byte_count_le z (n - 1) ltac:(lia)). lia.
  - intros Hge. pose proof (byte_count_le z n Hx). pose proof (byte_count_bound z ltac:(lia)) as Hb.
    destruct (decide (byte_count z = n)); [done|exfalso].
    assert (256 ^ Z.of_nat (byte_count z) <= 256 ^ Z.of_nat (n - 1)) by (apply Z.pow_le_mono_r; lia). lia.
Qed.

(** Imported keys are published with coordinates of the length of the curve, as the
    key format requires; rotated keys are published with the leading zero bytes dropped.
    The coordinate of an imported key always decodes to the curve's number of bytes; that
    of a rotated key does so exactly when its first byte is not zero. *)
Theorem coordinate_length :
  (∀ e s kid key s', ImportExistingECDSAKey e s kid key = (s', Ok tt) →
     0 <= ec_x key < 256 ^ Z.of_nat (byteLen (ec_c key)) →
     ∃ jwk, jkeys s' = jkeys s ++ [jwk]
       ∧ Base64.decode_raw true (X jwk) = Some (be_fixed (byteLen (ec_c key)) (ec_x key)))
  ∧ (∀ e s c r s' jwk, RotateECDSAKey e s c = (s', Ok jwk) → g_rand e = Some r →
     let x := ec_x (ec_generate c r) in
     0 <= x < 256 ^ Z.of_nat (byteLen c) →
     ∃ l, Base64.decode_raw true (X jwk) = Some l
       ∧ (length l = byteLen c ↔ 256 ^ Z.of_nat (byteLen c - 1) <= x)).
Proof.
  split.
  - intros e s kid key s'. unfold ImportExistingECDSAKey. destruct (ec_marshal key); [|done].
    destruct (import_names _) as [crv alg]. cbv zeta. destruct (Seal _ _ _ _ _ _ _) as [v [[]| |]]; [|done..].
    intros [= <-] Hx. eexists. split; [reflexivity|]. cbn [X]. unfold b64.
    by rewrite Base64.decode_encode_raw, padOrTrim_fixed.
  - intros e s c r s' jwk Hrot Hr. cbv zeta. revert Hrot. unfold RotateECDSAKey. rewrite Hr. cbv zeta.
    destruct (curve_names c) as [[crv alg]|] eqn:Hc; [|done]. destruct (ec_marshal _); [|done].
    destruct (Seal _ _ _ _ _ _ _) as [v [[]| |]]; [|done..]. destruct (retire_all _ _ _ _ _ _ _) as [[? ?] []]; [|done].
    intros [= _ <-] Hx. cbn [X]. unfold b64. rewrite Base64.decode_encode_raw. eexists. split; [done|].
    apply be_bytes_length; [|done]. destruct c; [apply Nat.ltb_lt; reflexivity..|done].
Qed.

End WithLibraries.

(** ** Witnesses *)

#[local] Existing Instances KeyVault.toy_gcm KeyVault.entry_eq_dec KeyVault.entry_countable.
#[local] Instance toy_ed' : Ed25519.
Proof.
  refine {| ed_key seed := (x01 :: seed, seed);
            ed_sign k m := k ++ m;
            ed_verify k m sig := bool_decide (sig = tail k ++ m) |}.
  intros seed m. by apply bool_decide_eq_true.
Defined.
#[local] Instance toy_seed : EdSeed.
Proof. by refine {| ed_seed k := k |}. Defined.
#[local] Instance ec_eq_dec : EqDecision ec_private.
Proof. solve_decision. Defined.
#[local] Instance ec_countable : Countable ec_private.
Proof.
  refine (inj_countable'
    (λ k, (match ec_c k with P256 => inl true | P384 => inl false | OtherCurve n => inr n end,
           ec_x k, ec_y k, ec_d k))
    (λ '(c, x, y, d), mkEc (match c with inl true => P256 | inl false => P384 | inr n => OtherCurve n end) x y d) _).
  by intros [[] ? ? ?].
Defined.
#[local] Instance toy_ec : EcLib.
Proof.
  refine {| ec_generate c r := mkEc c 7 9 11; ec_marshal k := Some (of_string (to_text k));
            ec_parse der := of_text (to_string der) |}; [done|].
  intros k der [= <-]. by rewrite to_of_string, of_to_text.
Defined.

Definition demo_seed : bytes := replicate 32 x05.
Definition demo_rot (seed : bytes) (t : Z) : rot_env := mkRot (Some seed) KeyVault.toy_env (λ _, t) (λ _, None).
Definition demo_code : CodeSigningService :=
  default (mkCode ∅ ∅ "") (NewCodeSigningService 0 (Some demo_seed) (Some [x09])).
Definition demo_ca : ec_private := mkEc P256 7 9 11.
Definition demo_boot : JWKSService :=
  boot KeyVault.toy_marshal (demo_rot demo_seed 1) (demo_rot demo_seed 1) demo_code KeyVault.toy_vault demo_ca.
Definition demo_seed2 : bytes := replicate 32 x06.
Definition demo_rotated : JWKSService := fst (RotateEd25519Key KeyVault.toy_marshal (demo_rot demo_seed2 (30 * day)) demo_boot).

Lemma demo_vault_empty : holds KeyVault.toy_vault ∅.
Proof. split; [reflexivity|]. split; [by eexists|]. intros id. reflexivity. Qed.

Lemma demo_steps : steps KeyVault.toy_marshal (30 * day) (31 * day) demo_boot demo_rotated.
Proof.
  apply rtc_once. exists (30 * day). split; [split; vm_compute; discriminate|].
  apply (step_ed KeyVault.toy_marshal (demo_rot demo_seed2 (30 * day)) demo_boot); [apply KeyVault.toy_good|].
  intros seed [= <-]. split; [reflexivity|]. intros k Hk.
  assert (k ∈ jkeys demo_boot → bool_decide (Forall (λ k, KID k ≠ generateKID "ed25519" (fst (ed_key demo_seed2)))
    (jkeys demo_boot)) = true → KID k ≠ generateKID "ed25519" (fst (ed_key demo_seed2))) as Hx.
  { intros Hin Hb. apply bool_decide_eq_true in Hb. rewrite Forall_forall in Hb. by apply Hb. }
  apply Hx; [done|]. vm_compute. reflexivity.
Qed.

Lemma signing_key_published_witness :
  ∃ cs key k, codeSvc demo_rotated = Some cs ∧ Signing.keys cs !! activeKey cs = Some key
    ∧ KID k = activeKey cs ∧ (∀ now, k ∈ GetJWKS now demo_rotated)
    ∧ UnsealEd25519Key demo_rotated (KID k) = Val (Ok (PrivateKey key)).
Proof.
  destruct (signing_key_published KeyVault.toy_marshal 0 demo_seed (Some [x09]) demo_code (demo_rot demo_seed 1)
    (demo_rot demo_seed 1) KeyVault.toy_vault ∅ demo_ca (30 * day) (31 * day) demo_rotated)
    as (cs & key & k & H1 & H2 & H3 & _ & H4 & _ & H5 & _).
  - reflexivity.
  - reflexivity.
  - exact demo_vault_empty.
  - exact KeyVault.toy_good.
  - exact KeyVault.toy_good.
  - vm_compute. reflexivity.
  - exact demo_steps.
  - exists cs, key, k. split; [exact H1|]. split; [exact H2|]. split; [exact H3|]. split; [exact H4|exact H5].
Defined.

Lemma rotated_keys_published_witness :
  ∃ k', k' ∈ GetJWKS (31 * day) demo_rotated ∧ KID k' = activeKey demo_code.
Proof.
  destruct (rotated_keys_published KeyVault.toy_marshal (30 * day) (31 * day) demo_boot demo_rotated
    (hd (mkJWK "" "" "" "" "" "" "" 0 0 None "" "") (jkeys demo_boot))) as (k' & Hk' & Hs & _).
  - vm_compute. discriminate.
  - vm_compute. reflexivity.
  - exact demo_steps.
  - apply list_elem_of_In. left. vm_compute. reflexivity.
  - exists k'. split; [exact Hk'|]. rewrite Hs. vm_compute. reflexivity.
Defined.

Definition demo_jwk (kid status : string) (expires : Z) : JWK :=
  mkJWK "OKP" "Ed25519" kid "sig" "EdDSA" "" "" 0 expires None status ("jwks-" +:+ kid).
Definition demo_calls : list call :=
  [CSeal KeyVault.toy_env "jwks-old" "" "ed25519" [x01]; CSeal KeyVault.toy_env "jwks-new" "" "ed25519" [x02]].
Definition demo_set : JWKSService :=
  mkService [demo_jwk "old" "retiring" 10; demo_jwk "new" "active" 90] (execs KeyVault.toy_marshal demo_calls KeyVault.toy_vault)
    None 90 7.

Lemma clean_invisible_witness :
  GetJWKS 20 (fst (CleanExpired KeyVault.toy_marshal (λ _, None) 15 demo_set)) = GetJWKS 20 demo_set
  ∧ length (jkeys (fst (CleanExpired KeyVault.toy_marshal (λ _, None) 15 demo_set))) = 1%nat.
Proof.
  split; [|vm_compute; reflexivity].
  refine (proj1 (clean_invisible KeyVault.toy_marshal (λ _, None) 15 20 demo_set
    (abstracts KeyVault.toy_marshal demo_calls KeyVault.toy_vault ∅) _ _ _)).
  - discriminate.
  - apply execs_inv; [|exact demo_vault_empty]. repeat constructor; apply KeyVault.toy_good.
  - apply (bool_decide_unpack _). vm_compute. exact I.
Defined.

End Jwks.
