(* ===== verification/Push.v ===== *)
(** * Pushing policy updates to gateways (internal/websocket/hub.go,
      internal/grpcserver/server.go)

    Two servers read the notifications of the policy store and forward them to the
    gateways connected to them: the WebSocket hub and the gRPC server.  What they need of
    the store is the [PolicyFeed] interface, which [PolicyStore.Store] implements: the
    current version, the notifications sent and not yet received, a receive.

    Each server is a step relation on its state together with the feed; a step is one
    action of a goroutine between two synchronizations (a lock section, a channel
    operation), so the relations contain every interleaving.  A channel is its buffer and
    whether it is closed; a step to [None] is a panic (a send on a closed channel, a
    second close), which ends the process. *)

From S2P Require Import Prelude GoStrings PolicyStore Gateway.
From Stdlib Require Import Ascii.
#[local] Open Scope string_scope.
#[local] Open Scope nat_scope.
#[local] Open Scope list_scope.

Module Feed.

Class PolicyFeed (S : Type) := {
  feed_version : S → Z;                  (** [Version()] *)
  feed_queue : S → list Z;               (** sent on [OnChange()] and not received *)
  feed_pop : S → S;
  feed_write : S → S → Prop;             (** a commit *)
  feed_pop_version : ∀ s, feed_version (feed_pop s) = feed_version s;
  feed_pop_queue : ∀ s, feed_queue (feed_pop s) = tail (feed_queue s);
  feed_write_version : ∀ s s', feed_write s s' → (feed_version s < feed_version s')%Z;
  feed_write_queue : ∀ s s', feed_write s s' →
    feed_queue s' = feed_queue s ∨ feed_queue s' = feed_queue s ++ [feed_version s'];
}.

Definition receive {S} `{PolicyFeed S} (s : S) : option (S * Z) :=
  match feed_queue s with [] => None | v :: _ => Some (feed_pop s, v) end.

#[global] Instance store_feed : PolicyFeed PolicyStore.Store.
Proof.
  refine {| feed_version := PolicyStore.version;
            feed_queue := PolicyStore.onChange;
            feed_pop s := fst (PolicyStore.receive s);
            feed_write s s' :=
              (0 <= PolicyStore.version s < 2 ^ 63 - 1)%Z
              ∧ ∃ ro now author msg kind id, s' = fst (PolicyStore.commit ro now s author msg kind id) |}.
  - intros s. unfold PolicyStore.receive. by destruct (PolicyStore.onChange s).
  - intros s. unfold PolicyStore.receive. by destruct (PolicyStore.onChange s) as [|v q] eqn:E; cbn; rewrite ?E.
  - intros s s' [Hv (ro & now & a & m & k & id & ->)]. cbn.
    rewrite wrap_i64_id by (unfold in_i64; lia). lia.
  - intros s s' [Hv (ro & now & a & m & k & id & ->)]. cbn. unfold PolicyStore.notify.
    destruct (_ <? _); auto.
Defined.

(** A receive is the one of the store. *)
Lemma receive_store s :
  receive s = match snd (PolicyStore.receive s) with
              | Some v => Some (fst (PolicyStore.receive s), v)
              | None => None
              end.
Proof. unfold receive. cbn. unfold PolicyStore.receive. by destruct (PolicyStore.onChange s). Qed.

End Feed.

(** ** The WebSocket hub *)

Module Hub.
Import Feed.

Record Event := mkEvent {
  Type_ : string;
  Version : Z;
  Time : Z;
}.

Record client := mkClient {
  gatewayID : string;
  send : list Event;
  closed : bool;
  greeted : bool;     (** [HandleSubscribe] has sent the first event and started the pumps *)
}.

(** Clients are pointers: [heap] has every client created, [clients] the registered ones. *)
Record Hub := mkHub {
  clients : gset nat;
  heap : gmap nat client;
  stopped : bool;     (** [Run] has returned *)
}.

Definition NewHub : Hub := mkHub ∅ ∅ false.
Definition sendCap : nat := 64.

Definition with_send (l : list Event) (c : client) : client := mkClient (gatewayID c) l (closed c) (greeted c).
Definition with_closed (c : client) : client := mkClient (gatewayID c) (send c) true (greeted c).
Definition with_greeted (c : client) : client := mkClient (gatewayID c) (send c) (closed c) true.

Definition register (i : nat) (gid : string) (h : Hub) : Hub :=
  mkHub ({[i]} ∪ clients h) (<[i := mkClient gid [] false false]> (heap h)) (stopped h).

(** [close(cl.send)]. *)
Definition close_send (i : nat) (h : Hub) : option Hub :=
  match heap h !! i with
  | Some c => if closed c then None else Some (mkHub (clients h) (<[i := with_closed c]> (heap h)) (stopped h))
  | None => None
  end.

Definition unregister (i : nat) (h : Hub) : option Hub :=
  if bool_decide (i ∈ clients h)
  then close_send i (mkHub (clients h ∖ {[i]}) (heap h) (stopped h))
  else Some h.

(** The non-blocking send of a broadcast, on a channel that is open. *)
Definition offer (evt : Event) (c : client) : client :=
  if length (send c) <? sendCap then with_send (send c ++ [evt]) c else c.

Definition is_closed (h : Hub) (i : nat) : bool :=
  match heap h !! i with Some c => closed c | None => false end.

Definition broadcast (evt : Event) (h : Hub) : option Hub :=
  if existsb (is_closed h) (elements (clients h)) then None
  else Some (mkHub (clients h)
               (map_imap (λ i c, Some (if bool_decide (i ∈ clients h) then offer evt c else c)) (heap h))
               (stopped h)).

Definition closeAll (h : Hub) : option Hub :=
  if existsb (is_closed h) (elements (clients h)) then None
  else Some (mkHub ∅ (map_imap (λ i c, Some (if bool_decide (i ∈ clients h) then with_closed c else c)) (heap h))
               true).

Definition ConnectedCount (h : Hub) : nat := size (clients h).

Section WithFeed.
Context {S : Type} `{PolicyFeed S}.

(** The hub beside the store. *)
Record sys := mkSys {
  store : S;
  hub : Hub;
}.
Definition on_hub (s : sys) (o : option Hub) : option sys := (λ h, mkSys (store s) h) <$> o.

Definition set_client (s : sys) (i : nat) (c : client) : sys :=
  mkSys (store s) (mkHub (clients (hub s)) (<[i := c]> (heap (hub s))) (stopped (hub s))).

Inductive step (s : sys) : option sys → Prop :=
| st_store st : step s (Some (mkSys st (hub s)))
| st_update st v t :
    stopped (hub s) = false → receive (store s) = Some (st, v) →
    step s (on_hub (mkSys st (hub s)) (broadcast (mkEvent "policy_update" v t) (hub s)))
| st_heartbeat t :
    stopped (hub s) = false →
    step s (on_hub s (broadcast (mkEvent "heartbeat" (feed_version (store s)) t) (hub s)))
| st_stop : stopped (hub s) = false → step s (on_hub s (closeAll (hub s)))
| st_register i gid : heap (hub s) !! i = None → step s (Some (mkSys (store s) (register i gid (hub s))))
(** the blocking send of [HandleSubscribe], and the start of the pumps *)
| st_greet i c t :
    heap (hub s) !! i = Some c → greeted c = false → closed c = false → length (send c) < sendCap →
    step s (Some (set_client s i
      (with_greeted (with_send (send c ++ [mkEvent "policy_update" (feed_version (store s)) t]) c))))
| st_greet_panic i c :
    heap (hub s) !! i = Some c → greeted c = false → closed c = true → step s None
(** [writePump]: a message goes out, or the loop ends and the client is unregistered *)
| st_write i c e rest :
    heap (hub s) !! i = Some c → greeted c = true → send c = e :: rest →
    step s (Some (set_client s i (with_send rest c)))
| st_write_end i c :
    heap (hub s) !! i = Some c → greeted c = true → send c ≠ [] ∨ closed c = true →
    step s (on_hub s (unregister i (hub s)))
(** [readPump] *)
| st_read_end i c :
    heap (hub s) !! i = Some c → greeted c = true → step s (on_hub s (unregister i (hub s))).

Record inv (h : Hub) : Prop := {
  inv_open : ∀ i c, heap h !! i = Some c → closed c = false ↔ i ∈ clients h;
  inv_heap : ∀ i, i ∈ clients h → is_Some (heap h !! i);
  inv_cap : ∀ i c, heap h !! i = Some c → length (send c) ≤ sendCap;
  inv_pending : ∀ i c, heap h !! i = Some c → greeted c = false → closed c = true → stopped h = true;
}.

Lemma hub_inv_none_closed h : inv h → existsb (is_closed h) (elements (clients h)) = false.
Proof.
  intros Hi. apply not_true_is_false. intros (i & Hin & Hc)%existsb_exists.
  apply list_elem_of_In, elem_of_elements in Hin. unfold is_closed in Hc.
  destruct (heap h !! i) as [c|] eqn:E; [|done]. apply (inv_open h Hi i c E) in Hin. congruence.
Qed.

Lemma offer_keeps evt c :
  closed (offer evt c) = closed c ∧ greeted (offer evt c) = greeted c
  ∧ (length (send c) ≤ sendCap → length (send (offer evt c)) ≤ sendCap).
Proof.
  unfold offer. destruct (Nat.ltb_spec (length (send c)) sendCap); [|done].
  cbn [closed greeted send with_send]. rewrite length_app. cbn. repeat split; lia.
Qed.

Lemma hub_broadcast_inv evt h : inv h → ∃ h', broadcast evt h = Some h' ∧ inv h' ∧ clients h' = clients h
  ∧ stopped h' = stopped h
  ∧ ∀ i, heap h' !! i = (λ c, if bool_decide (i ∈ clients h) then offer evt c else c) <$> heap h !! i.
Proof.
  intros Hi. unfold broadcast. rewrite hub_inv_none_closed by done. eexists. split; [done|].
  assert (∀ i, map_imap (λ i c, Some (if bool_decide (i ∈ clients h) then offer evt c else c)) (heap h) !! i
    = (λ c, if bool_decide (i ∈ clients h) then offer evt c else c) <$> heap h !! i) as Hl.
  { intros i. rewrite map_lookup_imap. by destruct (heap h !! i). }
  split; [|by repeat split]. destruct Hi as [Ho Hh Hc Hp].
  assert (∀ i c', map_imap (λ i c, Some (if bool_decide (i ∈ clients h) then offer evt c else c)) (heap h) !! i
    = Some c' → ∃ c, heap h !! i = Some c ∧ closed c' = closed c ∧ greeted c' = greeted c
      ∧ length (send c') ≤ sendCap) as Hx.
  { intros i c'. rewrite Hl. destruct (heap h !! i) as [c|] eqn:E; [|done]. intros [= <-]. exists c.
    specialize (Hc i c E). destruct (offer_keeps evt c) as (? & ? & ?).
    destruct (bool_decide _); repeat split; auto. }
  constructor; cbn [clients heap stopped].
  - intros i c' (c & E & -> & _)%Hx. by apply Ho.
  - intros i Hin. rewrite Hl. destruct (Hh i Hin) as [c ->]. by eexists.
  - by intros i c' (c & _ & _ & _ & ?)%Hx.
  - intros i c' (c & E & -> & -> & _)%Hx. by apply (Hp i c).
Qed.

Lemma closeAll_inv h : inv h → ∃ h', closeAll h = Some h' ∧ inv h'.
Proof.
  intros Hi. unfold closeAll. rewrite hub_inv_none_closed by done. eexists. split; [done|].
  destruct Hi as [Ho Hh Hc Hp]. constructor; cbn [clients heap stopped].
  - intros i c'. rewrite map_lookup_imap. destruct (heap h !! i) as [c|] eqn:E; [|done].
    cbn. intros [= <-]. split; [|set_solver]. case_bool_decide as Hin; [done|].
    intros Hcl. by apply (Ho i c E) in Hcl.
  - set_solver.
  - intros i c'. rewrite map_lookup_imap. destruct (heap h !! i) as [c|] eqn:E; [|done].
    cbn. intros [= <-]. specialize (Hc i c E). by destruct (bool_decide _).
  - done.
Qed.

Lemma unregister_inv i c h : inv h → heap h !! i = Some c → greeted c = true →
  ∃ h', unregister i h = Some h' ∧ inv h'.
Proof.
  intros Hi E Hg. unfold unregister. case_bool_decide as Hin; [|by eexists].
  unfold close_send. cbn [heap clients stopped]. rewrite E.
  destruct (closed c) eqn:Hcl; [apply (inv_open h Hi i c E) in Hin; congruence|].
  eexists. split; [done|]. destruct Hi as [Ho Hh Hc Hp]. constructor; cbn [clients heap stopped].
  - intros j d. insert_cases j i.
    + intros [= <-]. cbn. split; [done|set_solver].
    + intros Hd. rewrite (Ho j d Hd). set_solver.
  - intros j Hj. insert_cases j i; [done|].
    apply Hh. set_solver.
  - intros j d. insert_cases j i.
    + intros [= <-]. by apply (Hc i c).
    + apply Hc.
  - intros j d. insert_cases j i.
    + intros [= <-]. cbn. congruence.
    + apply Hp.
Qed.

Lemma set_client_inv s i c c' :
  inv (hub s) → heap (hub s) !! i = Some c → closed c' = closed c → length (send c') ≤ sendCap →
  (greeted c' = false → greeted c = false) → inv (hub (set_client s i c')).
Proof.
  intros [Ho Hh Hc Hp] E Hcl Hlen Hg. constructor; cbn [hub set_client clients heap stopped].
  - intros j d. insert_cases j i.
    + intros [= <-]. rewrite Hcl. by apply Ho.
    + apply Ho.
  - intros j Hj. insert_cases j i; [done|].
    by apply Hh.
  - intros j d. insert_cases j i.
    + by intros [= <-].
    + apply Hc.
  - intros j d. insert_cases j i.
    + intros [= <-] Hg' Hcl'. apply (Hp i c E); [auto|congruence].
    + apply Hp.
Qed.

Lemma register_inv i gid h : heap h !! i = None → inv h → inv (register i gid h).
Proof.
  intros E [Ho Hh Hc Hp]. assert (i ∉ clients h) as Hni by (intros Hin; apply Hh in Hin as [? ?]; congruence).
  constructor; cbn [register clients heap stopped].
  - intros j d. insert_cases j i.
    + intros [= <-]. cbn. split; [set_solver|done].
    + intros Hd. rewrite (Ho j d Hd). set_solver.
  - intros j Hj. insert_cases j i; [done|].
    apply Hh. set_solver.
  - intros j d. insert_cases j i.
    + intros [= <-]. cbn. lia.
    + apply Hc.
  - intros j d. insert_cases j i.
    + by intros [= <-].
    + apply Hp.
Qed.

Definition steps : sys → sys → Prop := rtc (λ s s', step s (Some s')).

Lemma hub_step_inv s o : step s o → inv (hub s) →
  match o with Some s' => inv (hub s') | None => stopped (hub s) = true end.
Proof.
  intros Hs Hi. destruct Hs; try done.
  - destruct (hub_broadcast_inv (mkEvent "policy_update" v t) (hub s) Hi) as (h' & -> & ? & _). done.
  - destruct (hub_broadcast_inv (mkEvent "heartbeat" (feed_version (store s)) t) (hub s) Hi) as (h' & -> & ? & _). done.
  - destruct (closeAll_inv (hub s) Hi) as (h' & -> & ?). done.
  - by apply register_inv.
  - eapply set_client_inv; [done..| |by intros [=]]. cbn. rewrite length_app. cbn. lia.
  - by eapply inv_pending.
  - eapply set_client_inv; [done..| |done]. pose proof (inv_cap _ Hi _ _ H0) as Hc. cbn. rewrite H2 in Hc.
    cbn in Hc. lia.
  - destruct (unregister_inv i c (hub s) Hi) as (h' & -> & ?); done.
  - destruct (unregister_inv i c (hub s) Hi) as (h' & -> & ?); done.
Qed.

Lemma NewHub_inv : inv NewHub.
Proof. by constructor; set_solver. Qed.

Lemma hub_steps_inv s s' : steps s s' → inv (hub s) → inv (hub s').
Proof.
  induction 1 as [|s s1 s2 Hs _ IH]; [done|]. intros Hi. apply IH. exact (hub_step_inv s (Some s1) Hs Hi).
Qed.

(** The hub does not crash while it runs.  In every interleaving of broadcasts,
    subscriptions, pumps and store updates, a client's channel is open exactly while the
    client is registered, so that it is closed exactly once and no broadcast sends on a
    closed channel, and buffers at most 64 events.  A panic is possible only once the hub
    has been stopped: in a subscription that was registered before the stop and had not
    yet sent its first event. *)
Theorem hub_channels_safe st s :
  steps (mkSys st NewHub) s →
  (∀ i c, heap (hub s) !! i = Some c →
     (closed c = false ↔ i ∈ clients (hub s)) ∧ length (send c) ≤ 64)
  ∧ (∀ o, step s o → stopped (hub s) = false → ∃ s', o = Some s')
  ∧ (step s None → ∃ i c, heap (hub s) !! i = Some c ∧ greeted c = false ∧ closed c = true
                     ∧ stopped (hub s) = true).
Proof.
  intros Hs. apply hub_steps_inv in Hs as Hi; [|apply NewHub_inv]. split_and!.
  - intros i c Hc. split; [by apply (inv_open _ Hi)|by apply (inv_cap _ Hi i c)].
  - intros [s'|] Hst Hr; [by eexists|]. apply hub_step_inv in Hst; [|done]. congruence.
  - intros Hst. assert (stopped (hub s) = true) as Hr by exact (hub_step_inv s None Hst Hi).
    remember None as o eqn:Ho.
    destruct Hst as [| | | | | |i c Hc Hg Hcl| |i c Hc Hg _|i c Hc Hg]; try congruence.
    + by exists i, c.
    + destruct (unregister_inv i c _ Hi Hc Hg) as (h' & E & _). by rewrite E in Ho.
    + destruct (unregister_inv i c _ Hi Hc Hg) as (h' & E & _). by rewrite E in Ho.
Qed.

(** Heartbeats bring every subscriber up to date.  In every reachable state of a
    running hub a heartbeat succeeds, and afterwards the last event buffered for each
    registered client whose buffer was not full is the heartbeat with the store's current
    version, whatever notifications were dropped before; the events that were already
    buffered keep their order, and clients that are not registered are not touched. *)
Theorem heartbeat_converges st s t :
  steps (mkSys st NewHub) s → stopped (hub s) = false →
  ∃ s', step s (Some s') ∧ store s' = store s
    ∧ ∀ i c, heap (hub s) !! i = Some c →
        ∃ c', heap (hub s') !! i = Some c'
          ∧ send c' = if bool_decide (i ∈ clients (hub s)) && (length (send c) <? 64)
                      then send c ++ [mkEvent "heartbeat" (feed_version (store s)) t] else send c.
Proof.
  intros Hs Hr. apply hub_steps_inv in Hs as Hi; [|apply NewHub_inv].
  destruct (hub_broadcast_inv (mkEvent "heartbeat" (feed_version (store s)) t) _ Hi) as (h' & Hb & _ & _ & _ & Hl).
  exists (mkSys (store s) h'). split_and!; [|done|].
  - change (Some (mkSys (store s) h')) with (on_hub s (Some h')). rewrite <- Hb. by apply st_heartbeat.
  - intros i c Hc. cbn [hub]. rewrite Hl, Hc. eexists. split; [done|]. case_bool_decide; [|done].
    cbn [andb]. unfold offer. by destruct (_ <? _).
Qed.

End WithFeed.

(** ** Witnesses *)

Definition demo_store : PolicyStore.Store :=
  PolicyStore.LoadDefaults canonical_order (λ _, 0%Z) PolicyStore.NewStore.
Definition demo_sys : sys (S := PolicyStore.Store) := mkSys demo_store (register 0 "gw-1" NewHub).

Lemma hub_demo_reachable : steps (mkSys demo_store NewHub) demo_sys.
Proof. apply rtc_once. by apply (st_register (mkSys demo_store NewHub) 0 "gw-1"). Qed.

Lemma hub_channels_safe_witness :
  ∃ c, heap (hub demo_sys) !! 0 = Some c ∧ length (send c) ≤ 64.
Proof.
  eexists. split; [reflexivity|].
  destruct (hub_channels_safe demo_store demo_sys hub_demo_reachable) as (Hx & _). apply (Hx 0 _). reflexivity.
Defined.

Lemma heartbeat_converges_witness :
  ∃ s' c', step demo_sys (Some s') ∧ heap (hub s') !! 0 = Some c'
    ∧ last (send c') = Some (mkEvent "heartbeat" 1 7).
Proof.
  destruct (heartbeat_converges demo_store demo_sys 7 hub_demo_reachable eq_refl) as (s' & Hs & _ & Hc).
  destruct (Hc 0 (mkClient "gw-1" [] false false) eq_refl) as (c' & Hc' & Hse). exists s', c'.
  split; [exact Hs|]. split; [exact Hc'|]. rewrite Hse. vm_compute. reflexivity.
Defined.

End Hub.

(** ** The gRPC server *)

Module Grpc.
Import GoStrings Feed Gateway.Registry.

(** *** Authorization *)

Inductive grpc_error := InvalidArgument | Unauthenticated | PermissionDenied.

(** What a call carries: the common name of the verified peer certificate, and the first
    value of each metadata key. *)
Record call_context := mkCallContext {
  peer_cn : option string;
  metadata : string → option string;
}.

Section Authorize.
(** [url.QueryUnescape], with the fallback to the raw value. *)
Context (unescape : string → string).

Definition extractCN (subject : string) : string :=
  (fix go (parts : list string) :=
     match parts with
     | [] => ""
     | part :: parts =>
         let part := TrimSpace part in
         if HasPrefix part "CN=" then TrimPrefix part "CN=" else go parts
     end) (Split "," subject).

Definition gatewayIDFromPeerCertificate (ctx : call_context) : string := default "" (peer_cn ctx).

Fixpoint first_cn (ctx : call_context) (keys : list string) : string :=
  match keys with
  | [] => ""
  | key :: keys =>
      match metadata ctx key with
      | None => first_cn ctx keys
      | Some v =>
          let cn := extractCN (unescape v) in
          if bool_decide (cn ≠ "") then cn else first_cn ctx keys
      end
  end.
Definition gatewayIDFromALBMTLSMetadata (ctx : call_context) : string :=
  first_cn ctx ["x-amzn-mtls-clientcert-subject"; "x-amzn-mtls-clientcert-subjectdn"].

Definition gatewayIDMatchesCertificate (claimed certCN : string) : bool :=
  let certGatewayID := TrimPrefix certCN "apexaegis-gw-" in
  bool_decide (claimed = certCN) || bool_decide (claimed = certGatewayID).

Definition authorizeGateway (requireIdentity : bool) (ctx : call_context) (gatewayID : string)
  : result grpc_error unit :=
  if bool_decide (gatewayID = "") then Err InvalidArgument
  else if negb requireIdentity then Ok tt
  else
    let certGatewayID := gatewayIDFromPeerCertificate ctx in
    let certGatewayID := if bool_decide (certGatewayID = "") then gatewayIDFromALBMTLSMetadata ctx
                         else certGatewayID in
    if bool_decide (certGatewayID = "") then Err Unauthenticated
    else if negb (gatewayIDMatchesCertificate gatewayID certGatewayID) then Err PermissionDenied
    else Ok tt.
End Authorize.

(** *** The server *)

Record PolicyEvent := mkEvent {
  e_Type : string;
  e_Version : Z;
  e_Timestamp : Z;
}.

Record channel := mkChan {
  buf : list PolicyEvent;
  ch_closed : bool;
}.
Definition chanCap : nat := 32.

(** Where a [PolicyStream] call is: after marking the gateway connected; subscribed;
    streaming; returned, with its deferred calls ahead; after each of them. *)
Inductive phase := Announced | Subscribed | Streaming | Leaving | Unsubscribed | Closed | Done.
#[global] Instance phase_eq_dec : EqDecision phase.
Proof. solve_decision. Defined.

(** A call is its number; it has a channel of its own. *)
Record stream := mkStream {
  gid : string;
  chan : channel;
  ph : phase;
}.

Record Server := mkServer {
  subs : gmap string nat;
  streams : gmap nat stream;
  registry : Registry;
}.

Definition NewServer (r : Registry) : Server := mkServer ∅ ∅ r.

Definition set_stream (s : Server) (i : nat) (st : stream) : Server :=
  mkServer (subs s) (<[i := st]> (streams s)) (registry s).
Definition set_phase (p : phase) (st : stream) : stream := mkStream (gid st) (chan st) p.
Definition set_buf (l : list PolicyEvent) (st : stream) : stream :=
  mkStream (gid st) (mkChan l (ch_closed (chan st))) (ph st).
Definition close_chan (st : stream) : stream := mkStream (gid st) (mkChan (buf (chan st)) true) (ph st).

Definition offer (evt : PolicyEvent) (st : stream) : stream :=
  if length (buf (chan st)) <? chanCap then set_buf (buf (chan st) ++ [evt]) st else st.

Definition subscribed (s : Server) (i : nat) : bool :=
  match streams s !! i with Some st => bool_decide (subs s !! gid st = Some i) | None => false end.

(** Whether a channel of the subscription map is closed. *)
Definition some_closed (s : Server) : bool :=
  existsb (λ '(_, i), match streams s !! i with Some st => ch_closed (chan st) | None => false end)
    (map_to_list (subs s)).

Definition broadcastEvent (evt : PolicyEvent) (s : Server) : option Server :=
  if some_closed s then None
  else Some (mkServer (subs s)
               (map_imap (λ i st, Some (if bool_decide (subs s !! gid st = Some i) then offer evt st else st))
                  (streams s))
               (registry s)).

Definition ConnectedGateways (s : Server) : nat := size (subs s).

(** *** Unary calls *)

Record RegisterResponse := mkRegisterResponse {
  Accepted : bool;
  rr_PolicyVersion : Z;
}.
Record HeartbeatResponse := mkHeartbeatResponse {
  Acknowledged : bool;
  CurrentPolicyVersion : Z;
  ForceSync : bool;
}.
Record SyncPoliciesResponse (P : Type) := mkSyncResponse {
  sr_Version : Z;
  FullSync : bool;
  Policies : list P;
}.
Arguments mkSyncResponse {P}.
Arguments sr_Version {P}.
Arguments FullSync {P}.
Arguments Policies {P}.

Section Calls.
Context {S : Type} `{PolicyFeed S} (unescape : string → string) (requireIdentity : bool).

Definition RegisterRPC (clk : nat → Z) (ctx : call_context) (node : GatewayNode) (st : S) (r : Registry)
  : Registry * result grpc_error RegisterResponse :=
  match authorizeGateway unescape requireIdentity ctx (ID node) with
  | Err e => (r, Err e)
  | Ok _ => (fst (Register clk r (set_status "online" node)), Ok (mkRegisterResponse true (feed_version st)))
  end.

Definition HeartbeatRPC (now : Z) (ctx : call_context) (gatewayID : string) (pv : Z) (st : S) (r : Registry)
  : Registry * result grpc_error HeartbeatResponse :=
  match authorizeGateway unescape requireIdentity ctx gatewayID with
  | Err e => (r, Err e)
  | Ok _ =>
      match Heartbeat now r gatewayID pv with
      | (r, false, _) => (r, Ok (mkHeartbeatResponse false 0 true))
      | (r, true, _) =>
          (r, Ok (mkHeartbeatResponse true (feed_version st) (pv <? feed_version st)%Z))
      end
  end.

(** The conversion to messages is a stub. *)
Definition convertJSONPolicies {P} (jsonData : string) : option (list P) := Some [].

Inductive sync_reply P := SyncRefused (e : grpc_error) | SyncFailed | SyncOk (r : SyncPoliciesResponse P).
Arguments SyncRefused {P}.
Arguments SyncFailed {P}.
Arguments SyncOk {P}.

Definition SyncPolicies {A P} (list_ : S → list A) (marshal : list A → option string)
    (ctx : call_context) (gatewayID : string) (st : S) : sync_reply P :=
  match authorizeGateway unescape requireIdentity ctx gatewayID with
  | Err e => SyncRefused e
  | Ok _ =>
      match marshal (list_ st) with
      | None => SyncFailed
      | Some json =>
          match convertJSONPolicies json with
          | None => SyncFailed
          | Some ps => SyncOk (mkSyncResponse (feed_version st) true ps)
          end
      end
  end.
End Calls.

(** *** Streams and broadcasts *)

Section Streams.
Context {S : Type} `{PolicyFeed S} (unescape : string → string) (requireIdentity : bool).

Record sys := mkSys {
  store : S;
  srv : Server;
}.
Definition with_srv (s : sys) (v : Server) : sys := mkSys (store s) v.
Definition put (s : sys) (i : nat) (st : stream) : sys := with_srv s (set_stream (srv s) i st).

Inductive step (s : sys) : option sys → Prop :=
| st_store st : step s (Some (mkSys st (srv s)))
| st_registry r : streamConnected r = streamConnected (registry (srv s)) →
    step s (Some (with_srv s (mkServer (subs (srv s)) (streams (srv s)) r)))
(** [PolicyStream] from the call to the loop *)
| st_open i g ctx now :
    streams (srv s) !! i = None → authorizeGateway unescape requireIdentity ctx g = Ok tt →
    step s (Some (with_srv s (mkServer (subs (srv s)) (<[i := mkStream g (mkChan [] false) Announced]> (streams (srv s)))
                     (SetStreamConnected now (registry (srv s)) g true))))
| st_subscribe i st :
    streams (srv s) !! i = Some st → ph st = Announced →
    step s (Some (with_srv s (mkServer (<[gid st := i]> (subs (srv s)))
                     (<[i := set_phase Subscribed st]> (streams (srv s))) (registry (srv s)))))
| st_initial i st (ok : bool) :
    streams (srv s) !! i = Some st → ph st = Subscribed →
    step s (Some (put s i (set_phase (if ok then Streaming else Leaving) st)))
(** the loop *)
| st_send i st e rest (ok : bool) :
    streams (srv s) !! i = Some st → ph st = Streaming → buf (chan st) = e :: rest →
    step s (Some (put s i (set_phase (if ok then Streaming else Leaving) (set_buf rest st))))
| st_done i st :
    streams (srv s) !! i = Some st → ph st = Streaming → step s (Some (put s i (set_phase Leaving st)))
(** the deferred calls *)
| st_unsubscribe i st :
    streams (srv s) !! i = Some st → ph st = Leaving →
    step s (Some (with_srv s (mkServer (delete (gid st) (subs (srv s)))
                     (<[i := set_phase Unsubscribed st]> (streams (srv s))) (registry (srv s)))))
| st_close i st :
    streams (srv s) !! i = Some st → ph st = Unsubscribed →
    step s (if ch_closed (chan st) then None else Some (put s i (set_phase Closed (close_chan st))))
| st_disconnect i st now :
    streams (srv s) !! i = Some st → ph st = Closed →
    step s (Some (with_srv s (mkServer (subs (srv s)) (<[i := set_phase Done st]> (streams (srv s)))
                     (SetStreamConnected now (registry (srv s)) (gid st) false))))
(** [broadcastLoop] *)
| st_update st v t :
    receive (store s) = Some (st, v) →
    step s (mkSys st <$> broadcastEvent (mkEvent "policy_update" v t) (srv s))
| st_heartbeat t :
    step s (with_srv s <$> broadcastEvent (mkEvent "heartbeat" (feed_version (store s)) t) (srv s)).

Definition steps : sys → sys → Prop := rtc (λ s s', step s (Some s')).

(** A stream is in the loop or about to enter it. *)
Definition live (p : phase) : bool := bool_decide (p ∈ [Subscribed; Streaming; Leaving]).

Definition stream_ok (sb : gmap string nat) (i : nat) (st : stream) : Prop :=
  (ch_closed (chan st) = false ↔ ph st ≠ Closed ∧ ph st ≠ Done)
  ∧ length (buf (chan st)) ≤ chanCap
  ∧ ∀ g, sb !! g = Some i → g = gid st ∧ live (ph st) = true.

Record inv (s : Server) : Prop := {
  inv_streams : ∀ i st, streams s !! i = Some st → stream_ok (subs s) i st;
  inv_subs : ∀ g i, subs s !! g = Some i → is_Some (streams s !! i);
}.

Lemma grpc_inv_none_closed s : inv s → some_closed s = false.
Proof.
  intros Hi. apply not_true_is_false. unfold some_closed. intros ([g i] & Hin & Hc)%existsb_exists.
  apply list_elem_of_In, elem_of_map_to_list in Hin.
  destruct (streams s !! i) as [st|] eqn:E; [|done].
  destruct (inv_streams s Hi i st E) as (Ho & _ & Hl). destruct (Hl g Hin) as [_ Hp].
  assert (ch_closed (chan st) = false); [|congruence]. apply Ho.
  by destruct (ph st).
Qed.

(** One stream changes and no subscription is added. *)
Lemma inv_put sb s i st st' r :
  inv s → streams s !! i = Some st → (∀ g j, sb !! g = Some j → subs s !! g = Some j) →
  stream_ok sb i st' → inv (mkServer sb (<[i := st']> (streams s)) r).
Proof.
  intros [Hst Hsub] E Hsb Hok. constructor; cbn [subs streams].
  - intros j st0. insert_cases j i; [by intros [= <-]|]. intros Hj.
    destruct (Hst j st0 Hj) as (H1 & H2 & H3). split_and!; [done|done|]. intros g Hg. by apply H3, Hsb.
  - intros g j Hg. insert_cases j i; [done|]. by apply (Hsub g), Hsb.
Qed.

Lemma grpc_broadcast_inv evt s : inv s → ∃ s', broadcastEvent evt s = Some s' ∧ inv s'
  ∧ subs s' = subs s ∧ registry s' = registry s
  ∧ ∀ i, streams s' !! i =
      (λ st, if bool_decide (subs s !! gid st = Some i) then offer evt st else st) <$> streams s !! i.
Proof.
  intros Hi. unfold broadcastEvent. rewrite grpc_inv_none_closed by done. eexists. split; [done|].
  assert (∀ i, map_imap (λ i st, Some (if bool_decide (subs s !! gid st = Some i) then offer evt st else st))
    (streams s) !! i = (λ st, if bool_decide (subs s !! gid st = Some i) then offer evt st else st) <$> streams s !! i) as Hl.
  { intros i. rewrite map_lookup_imap. by destruct (streams s !! i). }
  split; [|by repeat split]. destruct Hi as [Hst Hsub]. constructor; cbn [subs streams].
  - intros i st'. rewrite Hl. destruct (streams s !! i) as [st|] eqn:E; [|done]. intros [= <-].
    destruct (Hst i st E) as (H1 & H2 & H3). case_bool_decide; [|done]. unfold offer.
    destruct (Nat.ltb_spec (length (buf (chan st))) chanCap); [|done]. split_and!; [done| |done].
    cbn. rewrite length_app. cbn. lia.
  - intros g i Hg. rewrite Hl. destruct (Hsub g i Hg) as [st ->]. by eexists.
Qed.

Lemma NewServer_inv r : inv (NewServer r).
Proof. by constructor. Qed.

Lemma grpc_step_inv s o : step s o → inv (srv s) → ∃ s', o = Some s' ∧ inv (srv s').
Proof.
  intros Hs Hi. destruct Hs as [st|r Hr|i g ctx now Hn _|i st E Hp|i st ok E Hp|i st e rest ok E Hp Hb|i st E Hp
    |i st E Hp|i st E Hp|i st now E Hp|st v t Hr|t].
  - by eexists.
  - eexists. split; [done|]. by destruct Hi.
  - eexists. split; [done|]. cbn [srv with_srv]. destruct Hi as [Hst Hsub]. constructor; cbn [subs streams].
    + intros j st0. insert_cases j i; [|apply Hst]. intros [= <-]. split_and!; cbn; [by split|lia|].
      intros g' Hg'. destruct (Hsub g' i Hg') as [? ?]. congruence.
    + intros g' j Hg'. insert_cases j i; [done|]. by apply (Hsub g').
  - eexists. split; [done|]. cbn [srv with_srv]. destruct Hi as [Hst Hsub].
    destruct (Hst i st E) as (H1 & H2 & H3). constructor; cbn [subs streams].
    + intros j st0. insert_cases j i.
      * intros [= <-]. split_and!; cbn; [by rewrite H1, Hp|done|]. intros g. insert_cases g (gid st); [done|].
        intros Hg. by apply H3 in Hg as [? _].
      * intros Hj. destruct (Hst j st0 Hj) as (H4 & H5 & H6). split_and!; [done|done|].
        intros g. insert_cases g (gid st); [intros [= ->]; done|]. apply H6.
    + intros g j. insert_cases g (gid st).
      * intros [= <-]. by rewrite lookup_insert_eq.
      * intros Hg. insert_cases j i; [done|]. by apply (Hsub g).
  - eexists. split; [done|]. destruct (inv_streams _ Hi i st E) as (H1 & H2 & H3).
    eapply inv_put; [done..|]. split_and!; cbn; [rewrite H1, Hp; by destruct ok|done|].
    intros g Hg. apply H3 in Hg as [? _]. by destruct ok.
  - eexists. split; [done|]. destruct (inv_streams _ Hi i st E) as (H1 & H2 & H3).
    eapply inv_put; [done..|]. split_and!; cbn; [rewrite H1, Hp; by destruct ok| |].
    + rewrite Hb in H2. cbn in H2. lia.
    + intros g Hg. apply H3 in Hg as [? _]. by destruct ok.
  - eexists. split; [done|]. destruct (inv_streams _ Hi i st E) as (H1 & H2 & H3).
    eapply inv_put; [done..|]. split_and!; cbn; [by rewrite H1, Hp|done|].
    intros g Hg. by apply H3 in Hg as [? _].
  - eexists. split; [done|]. destruct (inv_streams _ Hi i st E) as (H1 & H2 & H3).
    eapply inv_put; [done..| |].
    + intros g j Hg. by apply lookup_delete_Some in Hg as [_ ?].
    + split_and!; cbn; [by rewrite H1, Hp|done|].
      intros g Hg. apply lookup_delete_Some in Hg as [Hne Hg]. apply H3 in Hg as [-> _]. done.
  - destruct (inv_streams _ Hi i st E) as (H1 & H2 & H3).
    assert (ch_closed (chan st) = false) as -> by (apply H1; by rewrite Hp).
    eexists. split; [done|]. eapply inv_put; [done..|]. split_and!; cbn; [|done|].
    + split; [done|]. by intros [? _].
    + intros g Hg. apply H3 in Hg as [_ Hl]. by rewrite Hp in Hl.
  - eexists. split; [done|]. destruct (inv_streams _ Hi i st E) as (H1 & H2 & H3).
    eapply inv_put; [done..|]. split_and!; cbn; [|done|].
    + rewrite H1, Hp. split; intros [? ?]; done.
    + intros g Hg. apply H3 in Hg as [_ Hl]. by rewrite Hp in Hl.
  - destruct (grpc_broadcast_inv (mkEvent "policy_update" v t) _ Hi) as (s' & -> & ? & _). by eexists.
  - destruct (grpc_broadcast_inv (mkEvent "heartbeat" (feed_version (store s)) t) _ Hi) as (s' & -> & ? & _).
    by eexists.
Qed.

Lemma grpc_steps_inv s s' : steps s s' → inv (srv s) → inv (srv s').
Proof.
  induction 1 as [|s s1 s2 Hs _ IH]; [done|]. intros Hi. apply IH.
  by destruct (grpc_step_inv s (Some s1) Hs Hi) as (? & [= <-] & ?).
Qed.

(** The gRPC server never panics on a channel.  In every interleaving of streams
    that open, are served, fail and end, also several of one gateway, with broadcasts and
    registry calls, no step panics: a channel is closed once, by its own stream, after it
    has left the subscription map, a broadcast finds only open channels, and at most 32
    events wait in one. *)
Theorem grpc_streams_safe st r s o :
  steps (mkSys st (NewServer r)) s → step s o →
  (∃ s', o = Some s')
  ∧ (∀ i x, streams (srv s) !! i = Some x → length (buf (chan x)) ≤ 32)
  ∧ (∀ g i, subs (srv s) !! g = Some i →
       ∃ x, streams (srv s) !! i = Some x ∧ gid x = g ∧ ch_closed (chan x) = false).
Proof.
  intros Hs Ho. apply grpc_steps_inv in Hs as Hi; [|apply NewServer_inv]. split_and!.
  - destruct (grpc_step_inv s o Ho Hi) as (s' & -> & _). by eexists.
  - intros i x E. by destruct (inv_streams _ Hi i x E) as (_ & ? & _).
  - intros g i Hg. destruct (inv_subs _ Hi g i Hg) as [x E]. exists x. split; [done|].
    destruct (inv_streams _ Hi i x E) as (H1 & _ & H3). destruct (H3 g Hg) as [-> Hl]. split; [done|].
    apply H1. by destruct (ph x).
Qed.

(** *** One stream per gateway *)

(** A gateway opens a stream only when its earlier streams have ended completely. *)
Definition exclusive_open (s s' : sys) : Prop :=
  ∀ i x, streams (srv s) !! i = None → streams (srv s') !! i = Some x →
    ∀ j y, streams (srv s) !! j = Some y → gid y = gid x → ph y = Done.
Definition exclusive_steps : sys → sys → Prop := rtc (λ s s', step s (Some s') ∧ exclusive_open s s').

Record served (s : Server) : Prop := {
  sv_sub : ∀ i x, streams s !! i = Some x → live (ph x) = true → subs s !! gid x = Some i;
  sv_conn : ∀ i x, streams s !! i = Some x → ph x ≠ Done → gid x ∈ streamConnected (registry s);
  sv_one : ∀ i j x y, streams s !! i = Some x → streams s !! j = Some y → gid x = gid y → i ≠ j →
    ph x = Done ∨ ph y = Done;
}.

(** A stream moves to another phase without leaving the map. *)
Lemma served_put s i x x' : served s → streams s !! i = Some x → gid x' = gid x →
  (live (ph x') = true → live (ph x) = true) → ph x ≠ Done → ph x' ≠ Done →
  served (mkServer (subs s) (<[i := x']> (streams s)) (registry s)).
Proof.
  intros [H1 H2 H3] E Hg Hl Hd Hd'. constructor; cbn [subs streams registry].
  - intros j y. insert_cases j i; [|apply H1]. intros [= <-] Hy. rewrite Hg. by apply H1; auto.
  - intros j y. insert_cases j i; [|apply H2]. intros [= <-] _. rewrite Hg. by apply (H2 i x).
  - intros j k y z. insert_cases j i; insert_cases k i; [done|..|apply H3].
    + intros [= <-] Hz Hgz Hne. destruct (H3 i k x z E Hz) as [?|?]; [congruence|done|done|auto].
    + intros Hy [= <-] Hgy Hne. destruct (H3 j i y x Hy E) as [?|?]; [congruence|done|auto|done].
Qed.

Lemma served_broadcast evt s s' : inv s → broadcastEvent evt s = Some s' → served s → served s'.
Proof.
  intros Hi Hb [H1 H2 H3]. destruct (grpc_broadcast_inv evt s Hi) as (s1 & E & _ & Hs & Hr & Hl).
  assert (s1 = s') as -> by congruence.
  assert (∀ i x, streams s' !! i = Some x → ∃ y, streams s !! i = Some y ∧ gid x = gid y ∧ ph x = ph y) as Hx.
  { intros i x. rewrite Hl. destruct (streams s !! i) as [y|]; [|done]. intros [= <-]. exists y.
    case_bool_decide; [|done]. unfold offer. by destruct (_ <? _). }
  constructor.
  - intros i x (y & E' & -> & ->)%Hx. rewrite Hs. by apply H1.
  - intros i x (y & E' & -> & ->)%Hx. rewrite Hr. by apply (H2 i).
  - intros i j x x' (y & E1 & -> & ->)%Hx (y' & E2 & -> & ->)%Hx. by apply H3.
Qed.

Lemma served_step s s' : inv (srv s) → step s (Some s') → exclusive_open s s' →
  served (srv s) → served (srv s').
Proof.
  intros Hi Hs Hx Hsv. remember (Some s') as o eqn:Ho.
  destruct Hs as [st|r Hr|i g ctx now Hn _|i x E Hp|i x ok E Hp|i x e rest ok E Hp Hb|i x E Hp
    |i x E Hp|i x E Hp|i x now E Hp|st v t Hr|t]; try (injection Ho as <-).
  - done.
  - destruct Hsv as [H1 H2 H3]. constructor; cbn [srv with_srv subs streams registry]; try done.
    intros j y Hj Hd. rewrite Hr. by apply (H2 j).
  - destruct Hsv as [H1 H2 H3]. constructor; cbn [srv with_srv subs streams registry].
    + intros j y. insert_cases j i; [by intros [= <-]|apply H1].
    + intros j y. cbn. insert_cases j i; [intros [= <-] _; cbn; set_solver|].
      intros Hj Hd. specialize (H2 j y Hj Hd). set_solver.
    + assert (∀ j y, streams (srv s) !! j = Some y → gid y = g → ph y = Done) as Hall.
      { intros j y Hj Hg. refine (Hx i (mkStream g (mkChan [] false) Announced) Hn _ j y Hj Hg).
        cbn [srv with_srv streams]. by rewrite lookup_insert_eq. }
      intros j k y z. insert_cases j i; insert_cases k i; [done|..|apply H3].
      * intros [= <-] Hz Hg _. right. by apply (Hall k).
      * intros Hy [= <-] Hg _. left. by apply (Hall j).
  - destruct Hsv as [H1 H2 H3]. constructor; cbn [srv with_srv subs streams registry].
    + intros j y. insert_cases j i; [intros [= <-] _; cbn; by rewrite lookup_insert_eq|].
      intros Hj Hl. destruct (decide (gid y = gid x)) as [Hg|Hg]; [|rewrite lookup_insert_ne by done; by apply H1].
      destruct (H3 j i y x Hj E) as [Hd|Hd]; [done|done|by rewrite Hd in Hl|congruence].
    + intros j y. insert_cases j i; [|apply H2]. intros [= <-] _. apply (H2 i x E). by rewrite Hp.
    + intros j k y z. insert_cases j i; insert_cases k i; [done|..|apply H3].
      * intros [= <-] Hz Hg Hne. destruct (H3 i k x z E Hz) as [?|?]; [done|done|congruence|auto].
      * intros Hy [= <-] Hg Hne. destruct (H3 j i y x Hy E) as [?|?]; [done|done|auto|congruence].
  - eapply served_put; [done|done|done|by rewrite Hp|by rewrite Hp|by destruct ok].
  - eapply served_put; [done|done|done|by rewrite Hp|by rewrite Hp|by destruct ok].
  - eapply served_put; [done|done|done|by rewrite Hp|by rewrite Hp|done].
  - destruct Hsv as [H1 H2 H3]. constructor; cbn [srv with_srv subs streams registry].
    + intros j y. insert_cases j i; [by intros [= <-]|]. intros Hj Hl. apply lookup_delete_Some.
      split; [|by apply H1]. intros Hg.
      destruct (H3 j i y x Hj E) as [Hd|Hd]; [done|done|by rewrite Hd in Hl|congruence].
    + intros j y. insert_cases j i; [|apply H2]. intros [= <-] _. apply (H2 i x E). by rewrite Hp.
    + intros j k y z. insert_cases j i; insert_cases k i; [done|..|apply H3].
      * intros [= <-] Hz Hg Hne. destruct (H3 i k x z E Hz) as [?|?]; [done|done|congruence|auto].
      * intros Hy [= <-] Hg Hne. destruct (H3 j i y x Hy E) as [?|?]; [done|done|auto|congruence].
  - destruct (ch_closed (chan x)); [done|]. injection Ho as <-.
    eapply served_put; [done|done|done|done|by rewrite Hp|done].
  - destruct Hsv as [H1 H2 H3]. constructor; cbn [srv with_srv subs streams registry].
    + intros j y. insert_cases j i; [by intros [= <-]|apply H1].
    + intros j y. cbn. insert_cases j i; [by intros [= <-] ?|]. intros Hj Hd. specialize (H2 j y Hj Hd).
      assert (gid y ≠ gid x); [|set_solver]. intros Hg.
      destruct (H3 j i y x Hj E) as [?|?]; congruence.
    + intros j k y z. insert_cases j i; insert_cases k i; [done|..|apply H3].
      * intros [= <-] _ _ _. by left.
      * intros _ [= <-] _ _. by right.
  - destruct (broadcastEvent _ _) as [v'|] eqn:Hb; [|done]. injection Ho as <-. by eapply served_broadcast.
  - destruct (broadcastEvent _ _) as [v'|] eqn:Hb; [|done]. injection Ho as <-. by eapply served_broadcast.
Qed.

(** A gateway with one stream at a time is served.  In every interleaving in which a
    gateway opens a stream only after its earlier ones have ended, every stream in its
    loop is the subscription of its gateway, so that it gets the events of every
    broadcast that finds room, and the registry counts the gateway as connected from the
    opening of the stream until its end. *)
Theorem exclusive_stream_served st r s i x :
  exclusive_steps (mkSys st (NewServer r)) s → streams (srv s) !! i = Some x →
  (ph x = Streaming → subs (srv s) !! gid x = Some i
     ∧ ∀ evt, ∃ v y, broadcastEvent evt (srv s) = Some v ∧ streams v !! i = Some y
         ∧ buf (chan y) = if length (buf (chan x)) <? 32 then buf (chan x) ++ [evt] else buf (chan x))
  ∧ (ph x ≠ Done → gid x ∈ streamConnected (registry (srv s))).
Proof.
  intros Hs E. assert (inv (srv s) ∧ served (srv s)) as [Hi Hsv].
  { clear E. remember (mkSys st (NewServer r)) as s0 eqn:E0.
    assert (inv (srv s0) ∧ served (srv s0)) as H0.
    { subst s0. split; [apply NewServer_inv|by constructor]. }
    clear E0. induction Hs as [|s0 s1 s2 [Hst Hx] _ IH]; [done|]. apply IH. destruct H0 as [Hi Hsv].
    destruct (grpc_step_inv s0 (Some s1) Hst Hi) as (? & [= <-] & ?). split; [done|]. exact (served_step s0 s1 Hi Hst Hx Hsv). }
  split; [|by apply (sv_conn _ Hsv i x)]. intros Hp.
  assert (subs (srv s) !! gid x = Some i) as Hsub.
  { apply (sv_sub _ Hsv i x E). rewrite Hp. reflexivity. }
  split; [done|]. intros evt. destruct (grpc_broadcast_inv evt _ Hi) as (v & Hb & _ & _ & _ & Hl).
  exists v. rewrite Hl, E. eexists. split; [done|]. split; [done|].
  rewrite bool_decide_eq_true_2 by done. unfold offer. by destruct (_ <? _).
Qed.

(** A reconnecting gateway loses its stream.  While a stream of a gateway is served,
    let the gateway open a second one, as it does when its connection breaks before the
    server notices, and let the first one then end: its deferred calls remove the
    subscription of the second stream and mark the gateway as not connected.  The second
    stream stays in its loop, but no broadcast reaches it any more, neither updates nor
    heartbeats. *)
Theorem reconnect_loses_stream s i j g x ctx :
  streams (srv s) !! i = Some x → ph x = Streaming → gid x = g → ch_closed (chan x) = false →
  streams (srv s) !! j = None → authorizeGateway unescape requireIdentity ctx g = Ok tt →
  ∃ s' y, steps s s' ∧ streams (srv s') !! j = Some y ∧ ph y = Streaming ∧ gid y = g
    ∧ subs (srv s') !! g = None ∧ (g ∉ streamConnected (registry (srv s')))
    ∧ (∀ evt v, broadcastEvent evt (srv s') = Some v → streams v !! j = Some y).
Proof.
  intros E Hp Hg Hc Hj Ha. assert (i ≠ j) as Hne by congruence. pose (now := 0%Z).
  pose (y0 := mkStream g (mkChan [] false) Announced).
  pose (r1 := SetStreamConnected now (registry (srv s)) g true).
  pose (s1 := with_srv s (mkServer (subs (srv s)) (<[j := y0]> (streams (srv s))) r1)).
  pose (s2 := with_srv s1 (mkServer (<[g := j]> (subs (srv s1))) (<[j := set_phase Subscribed y0]> (streams (srv s1))) r1)).
  pose (y := set_phase Streaming (set_phase Subscribed y0)).
  pose (s3 := put s2 j y).
  pose (s4 := put s3 i (set_phase Leaving x)).
  pose (x5 := set_phase Unsubscribed (set_phase Leaving x)).
  pose (s5 := with_srv s4 (mkServer (delete g (subs (srv s4))) (<[i := x5]> (streams (srv s4))) r1)).
  pose (x6 := set_phase Closed (close_chan x5)).
  pose (s6 := put s5 i x6).
  pose (s7 := with_srv s6 (mkServer (subs (srv s6)) (<[i := set_phase Done x6]> (streams (srv s6)))
                 (SetStreamConnected now (registry (srv s6)) (gid x6) false))).
  exists s7, y. split_and!.
  - eapply rtc_l; [apply (st_open s j g ctx now); done|].
    eapply (rtc_l _ s1 s2). { apply (st_subscribe s1 j y0); [|done]. cbn. by rewrite lookup_insert_eq. }
    eapply (rtc_l _ s2 s3). { apply (st_initial s2 j (set_phase Subscribed y0) true); [|done]. cbn. by rewrite lookup_insert_eq. }
    eapply (rtc_l _ s3 s4).
    { apply (st_done s3 i x); [|done]. cbn. by rewrite !lookup_insert_ne by done. }
    eapply (rtc_l _ s4 s5).
    { pose proof (st_unsubscribe s4 i (set_phase Leaving x)) as Hst. cbn [gid set_phase] in Hst. rewrite Hg in Hst.
      apply Hst; [|done]. cbn. by rewrite lookup_insert_eq. }
    eapply (rtc_l _ s5 s6).
    { pose proof (st_close s5 i x5) as Hst. cbn [chan ch_closed x5 set_phase] in Hst. rewrite Hc in Hst.
      apply Hst; [|done]. cbn. by rewrite lookup_insert_eq. }
    apply rtc_once. apply (st_disconnect s6 i x6 now); [|done]. cbn. by rewrite lookup_insert_eq.
  - cbn. rewrite !(lookup_insert_ne _ i j) by done. by rewrite lookup_insert_eq.
  - done.
  - done.
  - cbn. by rewrite lookup_delete_eq.
  - cbn. rewrite Hg. set_solver.
  - intros evt v. unfold broadcastEvent. destruct (some_closed _); [done|]. intros [= <-].
    cbn [streams]. rewrite map_lookup_imap. cbn [s7 srv with_srv streams s6 s5 s4 s3 put set_stream].
    rewrite !(lookup_insert_ne _ i j) by done. rewrite lookup_insert_eq. cbn. by rewrite lookup_delete_eq.
Qed.

End Streams.

(** *** Identity *)

(** The identity a call proves: the peer certificate, or else the load balancer's. *)
Definition proven_cn (unescape : string → string) (ctx : call_context) : string :=
  if bool_decide (gatewayIDFromPeerCertificate ctx = "") then gatewayIDFromALBMTLSMetadata unescape ctx
  else gatewayIDFromPeerCertificate ctx.

(** Gateways act only under their own name.  With client identity required, a call
    is authorized exactly when it names a gateway and proves a certificate whose common
    name is that name, with or without the prefix apexaegis-gw-; and a registration or a
    heartbeat that is not authorized leaves the registry as it was. *)
Theorem gateway_identity_enforced {S} `{PolicyFeed S} unescape ctx g :
  (authorizeGateway unescape true ctx g = Ok tt ↔
     g ≠ "" ∧ proven_cn unescape ctx ≠ ""
     ∧ (proven_cn unescape ctx = g ∨ proven_cn unescape ctx = "apexaegis-gw-" +:+ g))
  ∧ (∀ clk node (st : S) r, ID node = g → authorizeGateway unescape true ctx g ≠ Ok tt →
       fst (RegisterRPC unescape true clk ctx node st r) = r)
  ∧ (∀ now pv (st : S) r, authorizeGateway unescape true ctx g ≠ Ok tt →
       fst (HeartbeatRPC unescape true now ctx g pv st r) = r).
Proof.
  split_and!.
  - unfold authorizeGateway, proven_cn. cbn [negb]. cbv zeta.
    set (cn := if bool_decide (gatewayIDFromPeerCertificate ctx = "") then _ else _). unfold gatewayIDMatchesCertificate.
    case_bool_decide as Hg; [split; [done|tauto]|]. case_bool_decide as Hc; [split; [done|tauto]|].
    case_bool_decide as H1; cbn [orb negb].
    { split; [|done]. intros _. auto. }
    case_bool_decide as H2; cbn [negb].
    + split; [|done]. intros _. split; [done|]. split; [done|].
      symmetry in H2. apply TrimPrefix_spec in H2 as [?|[? _]]; [auto|congruence].
    + split; [done|]. intros (_ & _ & [?|E]); [congruence|]. exfalso. apply H2. symmetry.
      apply TrimPrefix_spec. by left.
  - intros clk node st r <- Hn. unfold RegisterRPC. by destruct (authorizeGateway _ _ _ _) as [[]|].
  - intros now pv st r Hn. unfold HeartbeatRPC. by destruct (authorizeGateway _ _ _ _) as [[]|].
Qed.

(** A policy sync delivers nothing.  Whatever policies the store has, an authorized
    sync that succeeds answers with an empty list, marked as a full synchronization to
    the current version. *)
Theorem sync_delivers_nothing {S A P} `{PolicyFeed S} unescape require (list_ : S → list A) marshal ctx g (st : S) r :
  SyncPolicies (P := P) unescape require list_ marshal ctx g st = SyncOk P r →
  Policies r = [] ∧ FullSync r = true ∧ sr_Version r = feed_version st.
Proof.
  unfold SyncPolicies. destruct (authorizeGateway _ _ _ _); [|done]. destruct (marshal _); [|done].
  cbn. by intros [= <-].
Qed.

(** ** Both servers on one feed

    main starts the hub's and the gRPC server's loop on the same policy store; here
    [h] and [g] collect the versions each of them has received and broadcast. *)
Section Split.
Context {S : Type} `{PolicyFeed S}.

Inductive feed_step : S * list Z * list Z → S * list Z * list Z → Prop :=
| fs_commit s s' h g : feed_write s s' → feed_step (s, h, g) (s', h, g)
| fs_hub s s' v h g : receive s = Some (s', v) → feed_step (s, h, g) (s', h ++ [v], g)
| fs_grpc s s' v h g : receive s = Some (s', v) → feed_step (s, h, g) (s', h, g ++ [v]).

Definition feed_inv (x : S * list Z * list Z) : Prop :=
  let '(s, h, g) := x in
  NoDup (h ++ g ++ feed_queue s) ∧ Forall (λ v, (v <= feed_version s)%Z) (h ++ g ++ feed_queue s).

Lemma receive_queue s s' v : receive s = Some (s', v) →
  feed_queue s = v :: feed_queue s' ∧ feed_version s' = feed_version s.
Proof.
  unfold receive. destruct (feed_queue s) as [|w q] eqn:E; [done|]. intros [= <- <-].
  by rewrite feed_pop_queue, feed_pop_version, E.
Qed.

Lemma feed_step_inv x y : feed_step x y → feed_inv x → feed_inv y.
Proof.
  intros [s s' h g Hw|s s' v h g Hr|s s' v h g Hr]; unfold feed_inv; intros [Hn Hf].
  - pose proof (feed_write_version _ _ Hw) as Hv.
    assert (Forall (λ v, (v <= feed_version s')%Z) (h ++ g ++ feed_queue s)) as Hf'.
    { eapply Forall_impl; [exact Hf|]. intros v ?. cbn in *. lia. }
    destruct (feed_write_queue _ _ Hw) as [-> | ->]; [done|]. rewrite !app_assoc in *. split.
    + apply NoDup_app. split; [done|]. split; [|apply NoDup_singleton]. intros v Hin.
      rewrite Forall_forall in Hf. apply Hf in Hin. rewrite list_elem_of_singleton. lia.
    + apply Forall_app. split; [done|]. constructor; [lia|done].
  - apply receive_queue in Hr as [Hq ->]. rewrite Hq in *.
    assert (h ++ g ++ v :: feed_queue s' ≡ₚ (h ++ [v]) ++ g ++ feed_queue s') as Hp by solve_Permutation.
    by rewrite <- Hp.
  - apply receive_queue in Hr as [Hq ->]. rewrite Hq in *.
    assert (h ++ g ++ v :: feed_queue s' ≡ₚ h ++ (g ++ [v]) ++ feed_queue s') as Hp by solve_Permutation.
    by rewrite <- Hp.
Qed.

(** A policy update reaches the gateways of one transport only.  Whatever the
    interleaving of commits and of the two loops, no version is received, and so pushed
    as an update, by both the WebSocket hub and the gRPC server; each loop broadcasts a
    version at most once. *)
Theorem update_reaches_one_transport s0 s h g :
  feed_queue s0 = [] → rtc feed_step (s0, [], []) (s, h, g) →
  NoDup h ∧ NoDup g ∧ ∀ v, v ∈ h → v ∉ g.
Proof.
  intros Hq Hs. assert (feed_inv (s, h, g)) as [Hn _].
  { assert (feed_inv (s0, [], [])) as H0 by (unfold feed_inv; cbn; rewrite Hq; split; constructor).
    revert H0. generalize (s0, @nil Z, @nil Z) as x, (s, h, g) as y, Hs. clear.
    induction 1 as [|x y z Hxy _ IH]; [done|]. intros Hx. apply IH. by eapply feed_step_inv. }
  apply NoDup_app in Hn as (Hh & Hd & Hn). apply NoDup_app in Hn as (Hg & _ & _).
  split_and!; [done|done|]. intros v Hv Hv'. apply (Hd v Hv). apply elem_of_app. by left.
Qed.
End Split.

(** ** Witnesses *)

Definition demo_ctx : call_context := mkCallContext (Some "apexaegis-gw-gw-1") (λ _, None).
Definition demo_streaming : sys (S := PolicyStore.Store) :=
  mkSys Hub.demo_store
    (mkServer {["gw-1" := 0]} {[0 := mkStream "gw-1" (mkChan [] false) Streaming]}
       (SetStreamConnected 0 NewRegistry "gw-1" true)).

Lemma demo_opened :
  exclusive_steps id true (mkSys Hub.demo_store (NewServer NewRegistry)) demo_streaming.
Proof.
  pose (x := mkStream "gw-1" (mkChan [] false) Announced).
  pose (r := SetStreamConnected 0 NewRegistry "gw-1" true).
  pose (s0 := mkSys Hub.demo_store (NewServer NewRegistry)).
  pose (s1 := mkSys Hub.demo_store (mkServer ∅ {[0 := x]} r)).
  pose (s2 := mkSys Hub.demo_store (mkServer {["gw-1" := 0]} {[0 := set_phase Subscribed x]} r)).
  eapply (rtc_l _ s0 s1).
  { split; [apply (st_open id true s0 0 "gw-1" demo_ctx 0); [done|by vm_compute]|].
    intros i y _ _ j z Hz. done. }
  eapply (rtc_l _ s1 s2).
  { split; [exact (st_subscribe id true s1 0 x eq_refl eq_refl)|].
    intros i y Hi Hy. exfalso. cbn in Hi, Hy. destruct (decide (i = 0)) as [->|]; [done|].
    by rewrite lookup_singleton_ne in Hy by done. }
  apply rtc_once. split; [exact (st_initial id true s2 0 (set_phase Subscribed x) true eq_refl eq_refl)|].
  intros i y Hi Hy. exfalso. cbn in Hi, Hy. destruct (decide (i = 0)) as [->|]; [done|].
  by rewrite lookup_singleton_ne in Hy by done.
Qed.

Lemma exclusive_stream_served_witness :
  "gw-1" ∈ streamConnected (registry (srv demo_streaming)).
Proof.
  apply (exclusive_stream_served id true Hub.demo_store NewRegistry demo_streaming 0
    (mkStream "gw-1" (mkChan [] false) Streaming) demo_opened); [reflexivity|discriminate].
Defined.

Lemma grpc_demo_steps : steps id true (mkSys Hub.demo_store (NewServer NewRegistry)) demo_streaming.
Proof. eapply rtc_subrel; [|exact demo_opened]. by intros ? ? [? _]. Qed.

Lemma grpc_streams_safe_witness :
  ∃ s' : sys (S := PolicyStore.Store),
    broadcastEvent (mkEvent "heartbeat" 1 7) (srv demo_streaming) = Some (srv s').
Proof.
  destruct (grpc_streams_safe id true Hub.demo_store NewRegistry demo_streaming
    (with_srv demo_streaming <$> broadcastEvent (mkEvent "heartbeat" 1 7) (srv demo_streaming))
    grpc_demo_steps (st_heartbeat id true demo_streaming 7)) as ([s' Hs'] & _).
  exists s'. destruct (broadcastEvent _ _); [|discriminate Hs']. cbn in Hs'. injection Hs' as <-. reflexivity.
Defined.

Lemma reconnect_loses_stream_witness :
  ∃ s' y, steps id true demo_streaming s' ∧ streams (srv s') !! 1 = Some y ∧ ph y = Streaming
    ∧ subs (srv s') !! "gw-1" = None.
Proof.
  destruct (reconnect_loses_stream id true demo_streaming 0 1 "gw-1"
    (mkStream "gw-1" (mkChan [] false) Streaming) demo_ctx) as (s' & y & H1 & H2 & H3 & _ & H4 & _);
    [reflexivity|reflexivity|reflexivity|reflexivity|reflexivity|vm_compute; reflexivity|].
  exists s', y. split; [exact H1|]. split; [exact H2|]. split; [exact H3|exact H4].
Defined.

Lemma sync_delivers_nothing_witness :
  ∃ r : SyncPoliciesResponse string,
    SyncPolicies id true (λ s, map snd (map_to_list (PolicyStore.policies s))) (λ _, Some "json") demo_ctx
      "gw-1" Hub.demo_store = SyncOk string r
    ∧ Policies r = [] ∧ map_to_list (PolicyStore.policies Hub.demo_store) ≠ [].
Proof.
  eexists. split; [vm_compute; reflexivity|]. split; [|vm_compute; discriminate].
  apply (sync_delivers_nothing id true (λ s, map snd (map_to_list (PolicyStore.policies s)))
    (λ _, Some "json") demo_ctx "gw-1" Hub.demo_store). vm_compute. reflexivity.
Defined.

Lemma update_reaches_one_transport_witness :
  (∀ v : Z, v ∈ [1%Z] → v ∉ [2%Z]).
Proof.
  pose (c1 := fst (PolicyStore.commit canonical_order 0 PolicyStore.NewStore "a" "" "" "")).
  pose (c2 := fst (PolicyStore.commit canonical_order 0 c1 "a" "" "" "")).
  refine (proj2 (proj2 (update_reaches_one_transport PolicyStore.NewStore (feed_pop (feed_pop c2)) [1%Z] [2%Z] eq_refl _))).
  eapply (rtc_l _ _ (c1, [], [])).
  { constructor. split; [by vm_compute|]. by eexists _, _, _, _, _, _. }
  eapply (rtc_l _ _ (c2, [], [])).
  { constructor. split; [by vm_compute|]. by eexists _, _, _, _, _, _. }
  eapply (rtc_l _ _ (feed_pop c2, [1%Z], [])); [by apply (fs_hub c2 _ 1 [] [])|].
  apply rtc_once. by apply (fs_grpc (feed_pop c2) _ 2 [1%Z] []).
Defined.

End Grpc.
