(* ===== verification/Oidc.v ===== *)
(** * The OIDC provider (internal/oidc/provider.go, handler.go,
      internal/db/oidc_drs_store.go)

    Authorization codes with PKCE, refresh tokens, device codes and client credentials.
    The tables are maps by primary key with the lengths of their columns; users are the
    rows of [AuthStore].  A handler takes the request's form ([form], absent fields read
    as empty) and basic authentication, the clock readings [clk i], the random bytes
    [rnd i] and the outcomes [ok i] of its statements, in their order.  RS256 tokens are
    the [RsaJwt] interface, bcrypt the argument [compare]; [unmarshal] reads the JSON
    object in the login state.

    Rendering pages is not modelled: [Page msg] is a page with its message. *)

From S2P Require Import Prelude GoStrings Encoding Sql Sha256 Jwt AuthStore.
From Stdlib Require Import Ascii.
#[local] Open Scope string_scope.
#[local] Open Scope nat_scope.
#[local] Open Scope list_scope.

Module Oidc.
Import GoStrings Sql Jwt.

(** The JWT library with the provider's RSA key: signing with RS256, and parsing a token
    that must be signed with RS256 and that key at a time. *)
Class RsaJwt := {
  rs_sign : claims → option string;
  rs_parse : Z → string → option claims;
  rs_parse_signed : ∀ c s now, rs_sign c = Some s → expired c now = false → rs_parse now s = Some c;
}.

Record OIDCClient := mkOIDCClient {
  ClientSecretHash : string;
  c_Name : string;
  ClientType : string;
  RedirectURIs : list string;
  GrantTypes : list string;
  c_Scopes : list string;
  Enabled : bool;
}.

Record AuthCode := mkAuthCode {
  ac_ClientID : string;
  ac_UserID : string;
  ac_OrgID : string;
  ac_Scopes : list string;
  ac_RedirectURI : string;
  CodeChallenge : string;
  CodeChallengeMethod : string;
  ac_ExpiresAt : Z;
  Used : bool;
}.

Record TokenRecord := mkToken {
  t_ClientID : string;
  t_UserID : string;
  t_OrgID : string;
  TokenType : string;
  t_Scopes : list string;
  t_ExpiresAt : Z;
  Revoked : bool;
}.

Record DeviceCodeRecord := mkDevice {
  dc_DeviceCode : string;
  dc_ClientID : string;
  dc_Scopes : list string;
  dc_Interval : Z;
  dc_ExpiresAt : Z;
  UserAuthorized : bool;
  dc_UserID : string;
  dc_OrgID : string;
  VerificationURI : string;
}.

Record UserInfo := mkUserInfo {
  ui_UserID : string;
  ui_OrgID : string;
  ui_Email : string;
  ui_Name : string;
  ui_Role : string;
}.

(** ** The tables *)

(** The [scopes] column holds a list of scopes, or the details of a device code. *)
Inductive scopes_json := SList (l : list string) | SDetails (verification_uri : string) (interval : Z).

(** A row of [oidc_auth_codes]; [None] is a null. *)
Record code_row := mkCode {
  r_client : string;
  r_user : string;
  r_org : string;
  r_scopes : scopes_json;
  r_redirect : string;
  r_challenge : option string;
  r_method : option string;
  r_expires : Z;
  r_used : bool;
}.

Record DB := mkDB {
  clients : gmap string OIDCClient;
  codes : gmap string code_row;
  tokens : gmap string TokenRecord;
  users : gmap string AuthStore.user_row;
}.

Definition with_codes (db : DB) (m : gmap string code_row) : DB := mkDB (clients db) m (tokens db) (users db).
Definition with_tokens (db : DB) (m : gmap string TokenRecord) : DB := mkDB (clients db) (codes db) m (users db).

Definition GetOIDCClient (ok : bool) (db : DB) (clientID : string) : option OIDCClient :=
  if ok then clients db !! clientID else None.

Definition insert_code (ok : bool) (db : DB) (code : string) (r : code_row) : DB * bool :=
  if ok && bool_decide (codes db !! code = None) && fits 255 code && fits 128 (r_client r)
     && fits 128 (r_user r) && fits 64 (r_org r) && fits 1024 (r_redirect r)
     && fits 255 (default "" (r_challenge r)) && fits 16 (default "" (r_method r))
  then (with_codes db (<[code := r]> (codes db)), true)
  else (db, false).

Definition SaveAuthCode (ok : bool) (db : DB) (code : string) (ac : AuthCode) : DB * bool :=
  insert_code ok db code
    (mkCode (ac_ClientID ac) (ac_UserID ac) (ac_OrgID ac) (SList (ac_Scopes ac)) (ac_RedirectURI ac)
       (Some (CodeChallenge ac)) (Some (CodeChallengeMethod ac)) (ac_ExpiresAt ac) false).

Definition GetAuthCode (ok : bool) (db : DB) (code : string) : option AuthCode :=
  if negb ok then None
  else
    match codes db !! code with
    | None => None
    | Some r =>
        Some (mkAuthCode (r_client r) (r_user r) (r_org r)
                (match r_scopes r with SList l => l | SDetails _ _ => [] end) (r_redirect r)
                (default "" (r_challenge r)) (default "S256" (r_method r)) (r_expires r) (r_used r))
    end.

Definition set_used (r : code_row) : code_row :=
  mkCode (r_client r) (r_user r) (r_org r) (r_scopes r) (r_redirect r) (r_challenge r) (r_method r)
    (r_expires r) true.
Definition ConsumeAuthCode (ok : bool) (db : DB) (code : string) : DB :=
  if ok then with_codes db (alter set_used code (codes db)) else db.

Definition SaveToken (ok : bool) (db : DB) (id : string) (t : TokenRecord) : DB :=
  if ok && fits 255 id && fits 128 (t_ClientID t) && fits 128 (t_UserID t) && fits 64 (t_OrgID t)
  then with_tokens db (match tokens db !! id with Some _ => tokens db | None => <[id := t]> (tokens db) end)
  else db.

Definition GetToken (ok : bool) (db : DB) (id : string) : option TokenRecord :=
  if ok then tokens db !! id else None.

Definition revoke (t : TokenRecord) : TokenRecord :=
  mkToken (t_ClientID t) (t_UserID t) (t_OrgID t) (TokenType t) (t_Scopes t) (t_ExpiresAt t) true.
Definition RevokeToken (ok : bool) (db : DB) (id : string) : DB :=
  if ok then with_tokens db (alter revoke id (tokens db)) else db.
Definition RevokeRefreshTokensForClient (ok : bool) (db : DB) (clientID userID : string) : DB :=
  if ok then
    with_tokens db ((λ t, if bool_decide (t_ClientID t = clientID) && bool_decide (t_UserID t = userID)
                             && bool_decide (TokenType t = "refresh")
                          then revoke t else t) <$> tokens db)
  else db.

Definition dc_key (deviceCode : string) : string := "dc:" +:+ deviceCode.

Definition SaveDeviceCode (ok : bool) (db : DB) (dc : DeviceCodeRecord) : DB * bool :=
  insert_code ok db (dc_key (dc_DeviceCode dc))
    (mkCode (dc_ClientID dc) "" "" (SDetails (VerificationURI dc) (dc_Interval dc)) (VerificationURI dc)
       None (Some "S256") (dc_ExpiresAt dc) false).

Definition GetDeviceCode (ok : bool) (db : DB) (deviceCode : string) : option DeviceCodeRecord :=
  if negb ok then None
  else
    match codes db !! dc_key deviceCode with
    | None => None
    | Some r =>
        Some (mkDevice deviceCode (r_client r) []
                (match r_scopes r with SDetails _ i => i | SList _ => 5 end)
                (r_expires r) (negb (bool_decide (r_user r = ""))) (r_user r) (r_org r) (r_redirect r))
    end.

Definition set_user (userID orgID : string) (r : code_row) : code_row :=
  mkCode (r_client r) userID orgID (r_scopes r) (r_redirect r) (r_challenge r) (r_method r)
    (r_expires r) (r_used r).
Definition CompleteDeviceCode (ok : bool) (db : DB) (deviceCode userID orgID : string) : DB * bool :=
  if ok && fits 128 userID && fits 64 orgID
  then (with_codes db (alter (set_user userID orgID) (dc_key deviceCode) (codes db)), true)
  else (db, false).

Section Provider.
Context `{RsaJwt} (compare : string → string → bool) (ro : range_order).
Context (issuer : string) (unmarshal : string → option (gmap string string)).

(** The two statements are [ok] and [ok']. *)
Definition AuthenticateUser (ok ok' : bool) (db : DB) (email password : string) : option UserInfo :=
  if negb ok then None
  else
    match AuthStore.select_user ro
            (λ r, AuthStore.by_email email r && bool_decide (AuthStore.u_status r = "active")) (users db) with
    | None => None
    | Some u =>
        if negb ok' then None
        else
          match AuthStore.select_user ro (AuthStore.by_email email) (users db) with
          | None => None
          | Some v =>
              match AuthStore.u_password_hash v with
              | None => None
              | Some h =>
                  if bool_decide (h = "") then None
                  else if compare h password
                  then Some (mkUserInfo (AuthStore.u_id u) (AuthStore.u_org_id u) (AuthStore.u_email u)
                               (AuthStore.u_name u) (AuthStore.u_role u))
                  else None
              end
          end
    end.

(** ** provider.go *)

Definition code_text (rnd : option bytes) : option string := Base64.encode_raw true <$> rnd.
Definition GenerateAuthCode := code_text.
Definition GenerateRefreshToken := code_text.

Definition upper (s : string) : string :=
  smap (λ c, if Json.between 97 (Base64.code c) 122 then Base64.char_of (Base64.code c - 32) else c) s.
Definition GenerateDeviceCode (r1 r2 : option bytes) : option (string * string) :=
  match r1, r2 with
  | Some dc, Some uc =>
      Some (Base64.encode_raw true dc, upper (Hex.encode (take 2 uc)) +:+ "-" +:+ upper (Hex.encode (take 2 (drop 2 uc))))
  | _, _ => None
  end.

Definition ValidatePKCE (codeVerifier codeChallenge method : string) : bool :=
  if bool_decide (codeChallenge = "") then true
  else if bool_decide (method = "S256") then
    bool_decide (Base64.encode_raw true (Sha256.sha256 (of_string codeVerifier)) = codeChallenge)
  else if bool_decide (method = "plain") then bool_decide (codeVerifier = codeChallenge)
  else false.

Definition scope_claim (extra : claims) (c : claims) (scope : string) : claims :=
  let copy k := match extra !! k with Some (CString s) => <[k := CString s]> c | _ => c end in
  if bool_decide (scope = "profile") then copy "name"
  else if bool_decide (scope = "email") then copy "email"
  else if bool_decide (scope = "device") then copy "device_id"
  else c.

Definition id_claims (now : Z) (nonce : bytes) (sub aud : string) (scopes : list string) (extra : claims) : claims :=
  let c : claims :=
    <["iss" := CString issuer]> (<["sub" := CString sub]> (<["aud" := CString aud]>
    (<["iat" := CNumber (AuthStore.unix now)]>
    (<["exp" := CNumber (AuthStore.unix (now + 3600 * AuthStore.nanos))]>
    (<["nonce" := CString (Base64.encode_raw true nonce)]> ∅))))) in
  foldl (scope_claim extra) c scopes ∪ extra.
Definition IssueIDToken (now : Z) (nonce : bytes) (sub aud : string) (scopes : list string) (extra : claims)
  : option string := rs_sign (id_claims now nonce sub aud scopes extra).

Definition access_claims (now : Z) (clientID sub : string) (scopes : list string) (extra : claims) : claims :=
  extra ∪
    (<["iss" := CString issuer]> (<["sub" := CString sub]> (<["iat" := CNumber (AuthStore.unix now)]>
    (<["exp" := CNumber (AuthStore.unix (now + 900 * AuthStore.nanos))]>
    (<["scope" := CString (Join scopes " ")]> (<["client_id" := CString clientID]> ∅)))))).
Definition IssueAccessToken (now : Z) (clientID sub : string) (scopes : list string) (extra : claims)
  : option string := rs_sign (access_claims now clientID sub scopes extra).

Definition ValidateJWT (now : Z) (tokenStr : string) : option claims := rs_parse (AuthStore.unix now) tokenStr.

Definition VerifyClientSecret (secret hash : string) : bool :=
  bool_decide (hash = "$2a$12$placeholder_hash").

(** ** handler.go *)

Record request := mkRequest {
  form : string → string;
  basic : option (string * string);   (** [BasicAuth] *)
}.

Record env := mkEnv {
  clk : nat → Z;
  rnd : nat → option bytes;
  ok : nat → bool;
}.

Inductive reply :=
| Fail (status : Z) (error : string)
| Page (error : string)
| Redirect (url : string)
| Tokens (access refresh id_token : string) (scope : string)
| Device (device_code user_code : string)
| Authorized
| Empty
| Info (c : claims).

Definition fifteen_minutes : Z := 900 * AuthStore.nanos.
Definition seven_days : Z := 7 * 24 * 3600 * AuthStore.nanos.

(** [GET /authorize]: the login page carries the parameters in its state. *)
Definition login_data (req : request) : gmap string string :=
  let method := form req "code_challenge_method" in
  let method := if bool_decide (method = "") then "S256" else method in
  <["client_id" := form req "client_id"]> (<["redirect_uri" := form req "redirect_uri"]>
  (<["response_type" := form req "response_type"]> (<["scope" := form req "scope"]>
  (<["state" := form req "state"]> (<["code_challenge" := form req "code_challenge"]>
  (<["code_challenge_method" := method]> ∅)))))).

Definition Authorize (marshal : gmap string string → string) (e : env) (db : DB) (req : request)
  : reply + string :=
  if bool_decide (form req "client_id" = "") || bool_decide (form req "redirect_uri" = "")
     || bool_decide (form req "response_type" = "")
  then inl (Fail 400 "missing required parameters")
  else
    match GetOIDCClient (ok e 0) db (form req "client_id") with
    | Some client =>
        if Enabled client then inr (Base64.encode_raw true (of_string (marshal (login_data req))))
        else inl (Fail 400 "invalid or disabled client")
    | None => inl (Fail 400 "invalid or disabled client")
    end.

Definition get (m : gmap string string) (k : string) : string := default "" (m !! k).

Definition redirect_url (m : gmap string string) (code : string) : string :=
  let url := get m "redirect_uri" in
  let url := url +:+ (if Contains url "?" then "&" else "?") +:+ "code=" +:+ code in
  if bool_decide (get m "state" = "") then url else url +:+ "&state=" +:+ get m "state".

Definition AuthorizeLogin (e : env) (db : DB) (req : request) : DB * reply :=
  let state := form req "state" in
  let email := form req "email" in
  let password := form req "password" in
  if bool_decide (state = "") || bool_decide (email = "") || bool_decide (password = "")
  then (db, Fail 400 "missing required fields")
  else
    match Base64.decode_raw true state with
    | None => (db, Fail 400 "invalid state")
    | Some json =>
        match unmarshal (to_string json) with
        | None => (db, Fail 400 "invalid state data")
        | Some m =>
            match AuthenticateUser (ok e 0) (ok e 1) db email password with
            | None => (db, Page "Invalid email or password")
            | Some user =>
                match GenerateAuthCode (rnd e 0) with
                | None => (db, Fail 500 "failed to generate code")
                | Some code =>
                    let ac := mkAuthCode (get m "client_id") (ui_UserID user) (ui_OrgID user)
                                (Split " " (get m "scope")) (get m "redirect_uri")
                                (get m "code_challenge") (get m "code_challenge_method")
                                (clk e 0 + 600 * AuthStore.nanos)%Z false in
                    let '(db, saved) := SaveAuthCode (ok e 2) db code ac in
                    if saved then (db, Redirect (redirect_url m code)) else (db, Fail 500 "internal error")
                end
            end
        end
    end.

Definition org_claim (orgID : string) : claims := {["org_id" := CString orgID]}.

(** The credentials of a token request. *)
Definition client_credentials (req : request) : string * string :=
  let '(id, secret) := default ("", "") (basic req) in
  if bool_decide (id = "") then (form req "client_id", form req "client_secret") else (id, secret).

(** The first half of [handleAuthorizationCode]: everything up to the consumption of the
    code. *)
Definition check_code (e : env) (db : DB) (req : request) : result reply (string * AuthCode) :=
  let code := form req "code" in
  let '(clientID, clientSecret) := client_credentials req in
  if bool_decide (code = "") || bool_decide (clientID = "") then Err (Fail 400 "missing code or client_id")
  else
    match GetOIDCClient (ok e 0) db clientID with
    | None => Err (Fail 401 "invalid client")
    | Some client =>
        if negb (Enabled client) then Err (Fail 401 "invalid client")
        else if bool_decide (ClientType client = "confidential")
                && negb (VerifyClientSecret clientSecret (ClientSecretHash client))
        then Err (Fail 401 "invalid client_secret")
        else
          match GetAuthCode (ok e 1) db code with
          | None => Err (Fail 400 "invalid code")
          | Some ac =>
              if Used ac then Err (Fail 400 "code already used")
              else if (ac_ExpiresAt ac <? clk e 0)%Z then Err (Fail 400 "code expired")
              else if negb (bool_decide (ac_ClientID ac = clientID))
              then Err (Fail 400 "code was not issued to this client")
              else if negb (bool_decide (ac_RedirectURI ac = ""))
                      && negb (bool_decide (ac_RedirectURI ac = form req "redirect_uri"))
              then Err (Fail 400 "redirect_uri mismatch")
              else if negb (ValidatePKCE (form req "code_verifier") (CodeChallenge ac) (CodeChallengeMethod ac))
              then Err (Fail 400 "invalid code_verifier")
              else Ok (clientID, ac)
          end
    end.

(** Minting and storing a token pair; [i] numbers the readings and statements. *)
Definition mint (e : env) (db : DB) (clientID userID orgID : string) (scopes : list string)
    (store : DB → string → string → DB) (scope : string) : DB * reply :=
  match IssueIDToken (clk e 1) (default [] (rnd e 1)) userID clientID scopes (org_claim orgID) with
  | None => (db, Fail 500 "failed to issue id_token")
  | Some idt =>
      match IssueAccessToken (clk e 2) clientID userID scopes (org_claim orgID) with
      | None => (db, Fail 500 "failed to issue access_token")
      | Some at_ =>
          match GenerateRefreshToken (rnd e 2) with
          | None => (db, Fail 500 "failed to generate refresh_token")
          | Some rt => (store db at_ rt, Tokens at_ rt idt scope)
          end
      end
  end.

Definition access_record (e : env) (i : nat) (clientID userID orgID : string) (scopes : list string) : TokenRecord :=
  mkToken clientID userID orgID "access" scopes (clk e i + fifteen_minutes)%Z false.
Definition refresh_record (e : env) (i : nat) (clientID userID orgID : string) (scopes : list string) : TokenRecord :=
  mkToken clientID userID orgID "refresh" scopes (clk e i + seven_days)%Z false.

(** The second half: the code is consumed and the tokens are issued. *)
Definition issue_for_code (e : env) (db : DB) (code clientID : string) (ac : AuthCode) : DB * reply :=
  let db := ConsumeAuthCode (ok e 2) db code in
  let u := ac_UserID ac in
  let o := ac_OrgID ac in
  let sc := ac_Scopes ac in
  mint e db clientID u o sc
    (λ db at_ rt, SaveToken (ok e 4) (SaveToken (ok e 3) db at_ (access_record e 3 clientID u o sc))
                    rt (refresh_record e 4 clientID u o sc))
    (Join sc " ").

Definition handleAuthorizationCode (e : env) (db : DB) (req : request) : DB * reply :=
  match check_code e db req with
  | Err r => (db, r)
  | Ok (clientID, ac) => issue_for_code e db (form req "code") clientID ac
  end.

Definition handleRefreshToken (e : env) (db : DB) (req : request) : DB * reply :=
  let refreshToken := form req "refresh_token" in
  let '(clientID, _) := default ("", "") (basic req) in
  let clientID := if bool_decide (clientID = "") then form req "client_id" else clientID in
  if bool_decide (refreshToken = "") || bool_decide (clientID = "")
  then (db, Fail 400 "missing refresh_token or client_id")
  else
    match GetToken (ok e 0) db refreshToken with
    | None => (db, Fail 401 "invalid refresh_token")
    | Some t =>
        if negb (bool_decide (TokenType t = "refresh")) || Revoked t then (db, Fail 401 "invalid refresh_token")
        else if (t_ExpiresAt t <? clk e 0)%Z then (db, Fail 401 "refresh_token expired")
        else
          let u := t_UserID t in
          let o := t_OrgID t in
          let sc := t_Scopes t in
          mint e db clientID u o sc
            (λ db at_ rt,
               SaveToken (ok e 3)
                 (SaveToken (ok e 2) (RevokeToken (ok e 1) db refreshToken) rt (refresh_record e 3 clientID u o sc))
                 at_ (access_record e 4 clientID u o sc)) ""
    end.

Definition handleDeviceCodeToken (e : env) (db : DB) (req : request) : DB * reply :=
  let deviceCode := form req "device_code" in
  let clientID := form req "client_id" in
  if bool_decide (deviceCode = "") || bool_decide (clientID = "")
  then (db, Fail 400 "missing device_code or client_id")
  else
    match GetDeviceCode (ok e 0) db deviceCode with
    | None => (db, Fail 400 "invalid_device_code")
    | Some dc =>
        if (dc_ExpiresAt dc <? clk e 0)%Z then (db, Fail 400 "expired_token")
        else if negb (bool_decide (dc_ClientID dc = clientID)) then (db, Fail 400 "invalid_client")
        else if negb (UserAuthorized dc) then (db, Fail 403 "authorization_pending")
        else
          let u := dc_UserID dc in
          let o := dc_OrgID dc in
          let sc := dc_Scopes dc in
          mint e db clientID u o sc
            (λ db at_ rt, SaveToken (ok e 2) (SaveToken (ok e 1) db at_ (access_record e 3 clientID u o sc))
                            rt (refresh_record e 4 clientID u o sc))
            (Join sc " ")
    end.

Definition handleClientCredentials (e : env) (db : DB) (req : request) : DB * reply :=
  let '(clientID, clientSecret) :=
    match basic req with Some p => p | None => (form req "client_id", form req "client_secret") end in
  if bool_decide (clientID = "") || bool_decide (clientSecret = "")
  then (db, Fail 401 "missing client credentials")
  else
    match GetOIDCClient (ok e 0) db clientID with
    | None => (db, Fail 401 "invalid client")
    | Some client =>
        if negb (Enabled client) then (db, Fail 401 "invalid client")
        else if negb (VerifyClientSecret clientSecret (ClientSecretHash client))
        then (db, Fail 401 "invalid client_secret")
        else
          let scopes := Split " " (form req "scope") in
          match IssueAccessToken (clk e 0) clientID clientID scopes ∅ with
          | None => (db, Fail 500 "failed to issue access_token")
          | Some at_ =>
              (SaveToken (ok e 1) db at_ (access_record e 1 clientID "" "" scopes),
               Tokens at_ "" "" (form req "scope"))
          end
    end.

Definition Token (e : env) (db : DB) (req : request) : DB * reply :=
  let grantType := form req "grant_type" in
  if bool_decide (grantType = "authorization_code") then handleAuthorizationCode e db req
  else if bool_decide (grantType = "refresh_token") then handleRefreshToken e db req
  else if bool_decide (grantType = "device_code") then handleDeviceCodeToken e db req
  else if bool_decide (grantType = "client_credentials") then handleClientCredentials e db req
  else (db, Fail 400 "unsupported grant_type").

Definition DeviceCode (e : env) (db : DB) (req : request) : DB * reply :=
  let clientID := form req "client_id" in
  if bool_decide (clientID = "") then (db, Fail 400 "missing client_id")
  else
    match GetOIDCClient (ok e 0) db clientID with
    | None => (db, Fail 400 "invalid or disabled client")
    | Some client =>
        if negb (Enabled client) then (db, Fail 400 "invalid or disabled client")
        else
          match GenerateDeviceCode (rnd e 0) (rnd e 1) with
          | None => (db, Fail 500 "failed to generate device code")
          | Some (deviceCode, userCode) =>
              let dc := mkDevice deviceCode clientID (Split " " (form req "scope")) 5
                          (clk e 0 + fifteen_minutes)%Z false "" ""
                          (issuer +:+ "/device?user_code=" +:+ userCode) in
              let '(db, saved) := SaveDeviceCode (ok e 1) db dc in
              if saved then (db, Device deviceCode userCode) else (db, Fail 500 "internal error")
          end
    end.

Definition DeviceVerify (e : env) (db : DB) (req : request) : DB * reply :=
  let userCode := form req "user_code" in
  let email := form req "email" in
  let password := form req "password" in
  if bool_decide (userCode = "") then (db, Page "Please enter the code from your device")
  else
    match GetDeviceCode (ok e 0) db userCode with
    | None => (db, Page "Code not found or expired")
    | Some dc =>
        if (dc_ExpiresAt dc <? clk e 0)%Z then (db, Page "Code expired")
        else if bool_decide (email = "") || bool_decide (password = "") then (db, Page "")
        else
          match AuthenticateUser (ok e 1) (ok e 2) db email password with
          | None => (db, Page "Invalid email or password")
          | Some user =>
              let '(db, done_) := CompleteDeviceCode (ok e 3) db (dc_DeviceCode dc) (ui_UserID user) (ui_OrgID user) in
              if done_ then (db, Authorized) else (db, Page "Internal error")
          end
    end.

Definition Revoke (e : env) (db : DB) (req : request) : DB * reply :=
  let token := form req "token" in
  if bool_decide (token = "") then (db, Empty) else (RevokeToken (ok e 0) db token, Empty).

(** A missing [sub] is a null. *)
Definition UserInfo_ (now : Z) (authHeader : string) : reply :=
  if negb (HasPrefix (ToLower authHeader) "bearer ") then Fail 401 "missing bearer token"
  else
    let tokenStr := TrimSpace (String.substring 7 (String.length authHeader - 7) authHeader) in
    match ValidateJWT now tokenStr with
    | None => Fail 401 "invalid token"
    | Some c =>
        let copy k (out : claims) := match c !! k with Some (CString s) => <[k := CString s]> out | _ => out end in
        Info (copy "org_id" (copy "email" (copy "name" (match c !! "sub" with Some v => {["sub" := v]} | None => ∅ end))))
    end.

(** ** The provider's history

    [Tables] replaces the rows other components own. *)
Inductive endpoint := EpAuthorizeLogin | EpToken | EpDeviceCode | EpDeviceVerify | EpRevoke.
Inductive event :=
| Serve (ep : endpoint) (e : env) (req : request)
| Tables (cs : gmap string OIDCClient) (us : gmap string AuthStore.user_row).

Definition handle (ep : endpoint) : env → DB → request → DB * reply :=
  match ep with
  | EpAuthorizeLogin => AuthorizeLogin
  | EpToken => Token
  | EpDeviceCode => DeviceCode
  | EpDeviceVerify => DeviceVerify
  | EpRevoke => Revoke
  end.
Definition next (db : DB) (ev : event) : DB :=
  match ev with
  | Serve ep e req => (handle ep e db req).1
  | Tables cs us => mkDB cs (codes db) (tokens db) us
  end.
Definition run (db : DB) (evs : list event) : DB := foldl next db evs.

(** The user that proved a password in an event. *)
Definition logged_in (db : DB) (ev : event) : option UserInfo :=
  match ev with
  | Serve EpAuthorizeLogin e req => AuthenticateUser (ok e 0) (ok e 1) db (form req "email") (form req "password")
  | Serve EpDeviceVerify e req => AuthenticateUser (ok e 1) (ok e 2) db (form req "email") (form req "password")
  | _ => None
  end.

(** [u] logged in during [evs]. *)
Fixpoint Logged (db : DB) (evs : list event) (u : string) : Prop :=
  match evs with
  | [] => False
  | ev :: evs => (∃ i, logged_in db ev = Some i ∧ ui_UserID i = u) ∨ Logged (next db ev) evs u
  end.

(** ** Codes are consumed for good, users come from logins *)

(** Every code and token belongs to a user that satisfies [P]. *)
Definition Users (P : string → Prop) (db : DB) : Prop :=
  map_Forall (λ _ r, P (r_user r)) (codes db) ∧ map_Forall (λ _ t, P (t_UserID t)) (tokens db).

(** Codes stay, and stay used. *)
Definition Keeps (db db' : DB) : Prop :=
  ∀ c r, codes db !! c = Some r → ∃ r', codes db' !! c = Some r' ∧ (r_used r = true → r_used r' = true).

#[export] Instance Keeps_preorder : PreOrder Keeps.
Proof.
  split; [intros db c r Hr; eauto|]. intros db1 db2 db3 H1 H2 c r Hr.
  destruct (H1 _ _ Hr) as (r2 & Hr2 & Hu2). destruct (H2 _ _ Hr2) as (r3 & Hr3 & Hu3). eauto.
Qed.

Lemma Keeps_alter f c db :
  (∀ r, r_used r = true → r_used (f r) = true) → Keeps db (with_codes db (alter f c (codes db))).
Proof.
  intros Hf c' r Hr. cbn. rewrite lookup_alter. case_decide as Hc; [subst c'|eauto].
  rewrite Hr. cbn. eauto.
Qed.

Lemma Users_alter_code P f c db :
  Users P db → (∀ r, P (r_user r) → P (r_user (f r))) → Users P (with_codes db (alter f c (codes db))).
Proof.
  intros [Hc Ht] Hf. split; [|exact Ht]. intros c' r. cbn. rewrite lookup_alter.
  case_decide; [|by apply Hc]. intros (r0 & Hr0 & ->)%fmap_Some. eapply Hf, Hc, Hr0.
Qed.

Lemma insert_code_spec b db c r :
  insert_code b db c r = (db, false)
  ∨ codes db !! c = None ∧ insert_code b db c r = (with_codes db (<[c := r]> (codes db)), true).
Proof.
  unfold insert_code. destruct (bool_decide_reflect (codes db !! c = None)) as [Hn|Hn].
  2: { left. by rewrite andb_false_r. }
  case_match; eauto.
Qed.

Lemma Keeps_insert c r db : codes db !! c = None → Keeps db (with_codes db (<[c := r]> (codes db))).
Proof. intros Hn c' r' Hr. cbn. rewrite lookup_insert_ne; [eauto|]. intros ->. congruence. Qed.

Lemma Users_insert_code P c r db :
  Users P db → P (r_user r) → Users P (with_codes db (<[c := r]> (codes db))).
Proof. intros [Hc Ht] Hr. split; [by apply map_Forall_insert_2|exact Ht]. Qed.

Lemma Keeps_tokens db m : Keeps db (with_tokens db m).
Proof. intros c r Hr. eauto. Qed.

Lemma SaveToken_codes b db id t : ∃ m, SaveToken b db id t = with_tokens db m.
Proof.
  unfold SaveToken. case_match; [eauto|]. exists (tokens db). by destruct db.
Qed.
Lemma SaveToken_Keeps b db id t : Keeps db (SaveToken b db id t).
Proof. destruct (SaveToken_codes b db id t) as [m ->]. apply Keeps_tokens. Qed.
Lemma RevokeToken_Keeps b db id : Keeps db (RevokeToken b db id).
Proof. unfold RevokeToken. destruct b; [apply Keeps_tokens|reflexivity]. Qed.
Lemma ConsumeAuthCode_Keeps b db c : Keeps db (ConsumeAuthCode b db c).
Proof. unfold ConsumeAuthCode. destruct b; [by apply Keeps_alter|reflexivity]. Qed.

Lemma SaveToken_Users P b db id t : Users P db → P (t_UserID t) → Users P (SaveToken b db id t).
Proof.
  intros [Hc Ht] HP. unfold SaveToken. case_match; [|done]. split; [exact Hc|]. cbn.
  case_match; [done|by apply map_Forall_insert_2].
Qed.
Lemma RevokeToken_Users P b db id : Users P db → Users P (RevokeToken b db id).
Proof.
  intros [Hc Ht]. unfold RevokeToken. destruct b; [|done]. split; [exact Hc|].
  intros id' t. cbn. rewrite lookup_alter. case_decide; [|by apply Ht].
  intros (t0 & Ht0 & ->)%fmap_Some. exact (Ht _ _ Ht0).
Qed.
Lemma ConsumeAuthCode_Users P b db c : Users P db → Users P (ConsumeAuthCode b db c).
Proof. unfold ConsumeAuthCode. destruct b; [|done]. intros HU. by apply Users_alter_code. Qed.

#[local] Hint Resolve SaveToken_Keeps RevokeToken_Keeps ConsumeAuthCode_Keeps SaveToken_Users
  RevokeToken_Users ConsumeAuthCode_Users : core.

(** [mint] either fails before it stores anything, or stores and answers the tokens. *)
Lemma mint_spec e db c u o sc store scope :
  (∃ m, mint e db c u o sc store scope = (db, Fail 500 m))
  ∨ ∃ at_ rt idt,
      mint e db c u o sc store scope = (store db at_ rt, Tokens at_ rt idt scope)
      ∧ rs_sign (id_claims (clk e 1) (default [] (rnd e 1)) u c sc (org_claim o)) = Some idt
      ∧ rs_sign (access_claims (clk e 2) c u sc (org_claim o)) = Some at_
      ∧ GenerateRefreshToken (rnd e 2) = Some rt.
Proof.
  unfold mint, IssueIDToken, IssueAccessToken.
  repeat (case_match; [|left; eauto]). right. eauto 10.
Qed.

Lemma check_code_ok e db req cid ac :
  check_code e db req = Ok (cid, ac) →
  cid = (client_credentials req).1 ∧ cid ≠ "" ∧ form req "code" ≠ ""
  ∧ (∃ cl, clients db !! cid = Some cl ∧ Enabled cl = true
       ∧ (ClientType cl = "confidential" → VerifyClientSecret (client_credentials req).2 (ClientSecretHash cl) = true))
  ∧ GetAuthCode true db (form req "code") = Some ac
  ∧ Used ac = false ∧ (clk e 0 ≤ ac_ExpiresAt ac)%Z ∧ ac_ClientID ac = cid
  ∧ (ac_RedirectURI ac = "" ∨ ac_RedirectURI ac = form req "redirect_uri")
  ∧ ValidatePKCE (form req "code_verifier") (CodeChallenge ac) (CodeChallengeMethod ac) = true.
Proof.
  unfold check_code. destruct (client_credentials req) as [i s].
  destruct (bool_decide_reflect (form req "code" = "")); [done|].
  destruct (bool_decide_reflect (i = "")); [done|]. cbn [orb].
  unfold GetOIDCClient. destruct (ok e 0); [|done].
  destruct (clients db !! i) as [cl|] eqn:Hcl; [|done].
  destruct (Enabled cl) eqn:He; [|done]. cbn [negb].
  destruct (bool_decide (ClientType cl = "confidential") && _) eqn:Hs; [done|].
  destruct (ok e 1); [|done].
  destruct (GetAuthCode true db (form req "code")) as [a|] eqn:Ha; [|done].
  destruct (Used a) eqn:Hu; [done|]. destruct (Z.ltb_spec (ac_ExpiresAt a) (clk e 0)) as [|Hx]; [done|].
  destruct (bool_decide_reflect (ac_ClientID a = i)) as [Hi|]; [|done]. cbn [negb].
  destruct (negb (bool_decide (ac_RedirectURI a = "")) && _) eqn:Hr; [done|].
  destruct (ValidatePKCE _ _ _) eqn:HP; [|done]. cbn [negb]. intros [= <- <-]. cbn [fst snd].
  split_and!; try done.
  - exists cl. split_and!; try done. intros Hc. rewrite bool_decide_true in Hs by done.
    by destruct (VerifyClientSecret _ _).
  - destruct (bool_decide_reflect (ac_RedirectURI a = "")) as [|]; [auto|].
    destruct (bool_decide_reflect (ac_RedirectURI a = form req "redirect_uri")); auto. done.
Qed.

Lemma check_code_err e db req r : check_code e db req = Err r → ∃ st m, r = Fail st m.
Proof. unfold check_code. destruct (client_credentials req). repeat case_match; intros; simplify_eq; eauto. Qed.

Lemma GetAuthCode_row b db c ac :
  GetAuthCode b db c = Some ac →
  ∃ r, codes db !! c = Some r ∧ ac_UserID ac = r_user r ∧ Used ac = r_used r.
Proof.
  unfold GetAuthCode. destruct b; [|done]. cbn.
  destruct (codes db !! c) as [r|]; [|done]. intros [= <-]. eauto.
Qed.

(** A handler's effect is a sequence of statements on rows of users in [P]. *)
Inductive writes (P : string → Prop) (db : DB) : DB → Prop :=
| w_done : writes P db db
| w_code db' c r :
    writes P db db' → codes db' !! c = None → P (r_user r) → writes P db (with_codes db' (<[c := r]> (codes db')))
| w_consume db' b c : writes P db db' → writes P db (ConsumeAuthCode b db' c)
| w_complete db' c u o :
    writes P db db' → P u → writes P db (with_codes db' (alter (set_user u o) c (codes db')))
| w_save db' b id t : writes P db db' → P (t_UserID t) → writes P db (SaveToken b db' id t)
| w_revoke db' b id : writes P db db' → writes P db (RevokeToken b db' id).
#[local] Hint Constructors writes : core.

Lemma writes_Keeps P db db' : writes P db db' → Keeps db db'.
Proof.
  induction 1 as [|db' c r _ IH Hn _|db' b c _ IH|db' c u o _ IH _|db' b id t _ IH _|db' b id _ IH];
    [reflexivity|..]; (etrans; [exact IH|]); eauto using Keeps_insert, Keeps_alter.
Qed.

Lemma writes_Users P db db' : writes P db db' → Users P db → Users P db'.
Proof. induction 1; intros HU; eauto using Users_insert_code, Users_alter_code. Qed.

Lemma mint_writes P e db0 db c u o sc store scope :
  writes P db0 db → (∀ at_ rt, writes P db0 (store db at_ rt)) →
  writes P db0 (mint e db c u o sc store scope).1.
Proof.
  intros Hdb Hst. by destruct (mint_spec e db c u o sc store scope) as [[m ->]|(a & r & i & -> & _)]; cbn; auto.
Qed.

Lemma insert_code_writes P b db c r db' d :
  insert_code b db c r = (db', d) → P (r_user r) → writes P db db'.
Proof. intros Hi HP. destruct (insert_code_spec b db c r) as [Heq|[Hn Heq]];
  rewrite Heq in Hi; injection Hi as <- <-; eauto. Qed.

Lemma GetDeviceCode_row b db c dc :
  GetDeviceCode b db c = Some dc → ∃ r, codes db !! dc_key c = Some r ∧ dc_UserID dc = r_user r.
Proof.
  unfold GetDeviceCode. destruct b; [|done]. cbn. destruct (codes db !! dc_key c); [|done]. intros [= <-]. eauto.
Qed.

(** Peels the statements of a handler off [writes]. *)
Ltac stored := intros; repeat first [apply w_done|apply w_save|apply w_revoke|apply w_consume]; cbn; auto.

Lemma Token_writes P e db req : P "" → Users P db → writes P db (Token e db req).1.
Proof.
  intros HP [Hc Ht]. unfold Token.
  repeat case_match; auto.
  - unfold handleAuthorizationCode. destruct (check_code e db req) as [[cid ac]|] eqn:Hck; [|auto].
    apply check_code_ok in Hck as (_ & _ & _ & _ & (r & Hr & Hu & _)%GetAuthCode_row & _).
    apply Hc in Hr. rewrite <- Hu in Hr. unfold issue_for_code.
    apply mint_writes; stored.
  - unfold handleRefreshToken. destruct (default _ (basic req)) as [i s].
    generalize (if bool_decide (i = "") then form req "client_id" else i). intros cid. case_match; [auto|].
    destruct (GetToken _ _ _) as [t|] eqn:Hg; [|auto]. repeat (case_match; [auto|]).
    unfold GetToken in Hg. destruct (ok e 0); [|done]. apply Ht in Hg. apply mint_writes; stored.
  - unfold handleDeviceCodeToken. case_match; [auto|].
    destruct (GetDeviceCode _ _ _) as [dc|] eqn:Hg; [|auto]. repeat (case_match; [auto|]).
    apply GetDeviceCode_row in Hg as (r & Hr & Hu). apply Hc in Hr. rewrite <- Hu in Hr.
    apply mint_writes; stored.
  - unfold handleClientCredentials. destruct (match basic req with Some p => p | None => _ end) as [i s].
    repeat case_match; cbn; stored.
Qed.

Lemma next_writes P db ev :
  P "" → Users P db → (∀ i, logged_in db ev = Some i → P (ui_UserID i)) →
  ∃ cs us, writes P (mkDB cs (codes db) (tokens db) us) (next db ev).
Proof.
  intros HP HU Hlog. destruct ev as [ep e req|cs us]; [|exists cs, us; constructor].
  exists (clients db), (users db). replace (mkDB _ _ _ _) with db by by destruct db.
  destruct ep; cbn [next handle]; [| |unfold DeviceCode|unfold DeviceVerify|unfold Revoke].
  - unfold AuthorizeLogin. cbn [logged_in] in Hlog.
    destruct (AuthenticateUser _ _ _ _ _) as [u|]; [specialize (Hlog _ eq_refl)|];
      repeat case_match; try done; simplify_eq/=; auto; eapply insert_code_writes; eauto.
  - by apply Token_writes.
  - repeat case_match; try done; simplify_eq/=; auto; eapply insert_code_writes; eauto.
  - cbn [logged_in] in Hlog. unfold CompleteDeviceCode.
    destruct (AuthenticateUser _ _ _ _ _) as [u|]; [specialize (Hlog _ eq_refl)|];
      repeat case_match; simplify_eq/=; eauto.
  - case_match; cbn; eauto.
Qed.

Lemma run_Users (Q : string → Prop) evs db :
  Users (λ u, u = "" ∨ Q u) db → (∀ u, Logged db evs u → Q u) → Users (λ u, u = "" ∨ Q u) (run db evs).
Proof.
  revert db. induction evs as [|ev evs IH]; intros db HU HL; [exact HU|]. cbn in HL.
  apply IH; [|eauto].
  destruct (next_writes (λ u, u = "" ∨ Q u) db ev) as (cs & us & Hw); auto.
  { intros i Hi. right. eauto. }
  by apply (writes_Users _ _ _ Hw).
Qed.

Lemma org_scope_claims o scs c : foldl (scope_claim (org_claim o)) c scs = c.
Proof.
  revert c. induction scs as [|s scs IH]; intros c; [done|]. cbn. rewrite IH. unfold scope_claim, org_claim.
  rewrite !lookup_singleton_ne by done. by repeat case_match.
Qed.

Lemma issued_sub now now' n c u sc o :
  id_claims now n u c sc (org_claim o) !! "sub" = Some (CString u)
  ∧ access_claims now' c u sc (org_claim o) !! "sub" = Some (CString u).
Proof.
  unfold id_claims, access_claims. rewrite org_scope_claims. split.
  - apply lookup_union_Some_l. by simplify_map_eq.
  - rewrite lookup_union_r by (unfold org_claim; by simplify_map_eq). by simplify_map_eq.
Qed.

(** The tokens of a user grant carry a user of the tables. *)
Lemma Token_subject P e db req db' at_ rt idt sc :
  Users P db → Token e db req = (db', Tokens at_ rt idt sc) → form req "grant_type" ≠ "client_credentials" →
  ∃ ca ci u, rs_sign ca = Some at_ ∧ rs_sign ci = Some idt
    ∧ ca !! "sub" = Some (CString u) ∧ ci !! "sub" = Some (CString u) ∧ P u.
Proof.
  intros [Hc Ht] HT Hg.
  assert (HM : ∀ db0 c u o sc' store sc'',
             mint e db0 c u o sc' store sc'' = (db', Tokens at_ rt idt sc) → P u →
             ∃ ca ci u, rs_sign ca = Some at_ ∧ rs_sign ci = Some idt
               ∧ ca !! "sub" = Some (CString u) ∧ ci !! "sub" = Some (CString u) ∧ P u).
  { intros db0 c u o sc' store sc'' Hm HP.
    destruct (mint_spec e db0 c u o sc' store sc'') as [[m Heq]|(a & r & i & Heq & Hi & Ha & _)];
      rewrite Heq in Hm; [done|]. injection Hm as <- <- <- <- <-.
    destruct (issued_sub (clk e 1) (clk e 2) (default [] (rnd e 1)) c u sc' o) as [H1 H2]. eauto 10. }
  unfold Token in HT. rewrite (bool_decide_false (_ = "client_credentials")) in HT by done.
  repeat case_match; try done.
  - unfold handleAuthorizationCode in HT. destruct (check_code e db req) as [[cid ac]|r] eqn:Hck.
    2: { destruct (check_code_err _ _ _ _ Hck) as (st & m & ->). done. }
    apply check_code_ok in Hck as (_ & _ & _ & _ & (r & Hr & Hu & _)%GetAuthCode_row & _).
    apply Hc in Hr. rewrite <- Hu in Hr. exact (HM _ _ _ _ _ _ _ HT Hr).
  - unfold handleRefreshToken in HT. destruct (default _ (basic req)) as [i s].
    destruct (GetToken _ _ _) as [t|] eqn:Hgt; repeat case_match; try done.
    all: unfold GetToken in Hgt; destruct (ok e 0); [|done]; apply Ht in Hgt; eauto.
  - unfold handleDeviceCodeToken in HT.
    destruct (GetDeviceCode _ _ _) as [dc|] eqn:Hgd; repeat case_match; try done.
    apply GetDeviceCode_row in Hgd as (r & Hr & Hu). apply Hc in Hr. rewrite <- Hu in Hr. eauto.
Qed.

(** C16: Tokens for a user come from a login of that user.  Along every history of the
    provider that starts without codes and tokens, with the clients and users changing at
    will, an access token and an ID token issued for an authorization code, a refresh
    token or a device code have one subject, and it is empty or the id of a user that
    proved its password to the provider earlier in the history. *)
Theorem tokens_trace_to_login cs us evs e req db' at_ rt idt sc :
  Token e (run (mkDB cs ∅ ∅ us) evs) req = (db', Tokens at_ rt idt sc) →
  form req "grant_type" ≠ "client_credentials" →
  ∃ ca ci u, rs_sign ca = Some at_ ∧ rs_sign ci = Some idt
    ∧ ca !! "sub" = Some (CString u) ∧ ci !! "sub" = Some (CString u)
    ∧ (u = "" ∨ Logged (mkDB cs ∅ ∅ us) evs u).
Proof.
  intros HT Hg. eapply (Token_subject (λ u, u = "" ∨ Logged (mkDB cs ∅ ∅ us) evs u)); [|exact HT|exact Hg].
  apply run_Users; [|done]. split; apply map_Forall_empty.
Qed.

(** Tokens stay, and stay revoked. *)
Definition KeepsT (db db' : DB) : Prop :=
  ∀ id t, tokens db !! id = Some t → ∃ t', tokens db' !! id = Some t' ∧ (Revoked t = true → Revoked t' = true).

Lemma writes_KeepsT P db db' : writes P db db' → KeepsT db db'.
Proof.
  induction 1 as [|db' c r _ IH Hn _|db' b c _ IH|db' c u o _ IH _|db' b id t _ IH _|db' b id _ IH];
    intros id0 t0 Ht0; [eauto|..]; destruct (IH _ _ Ht0) as (t1 & Ht1 & Hr1); [eauto| |eauto| |].
  - unfold ConsumeAuthCode. destruct b; eauto.
  - unfold SaveToken. case_match; [|eauto]. cbn. case_match; [eauto|]. rewrite lookup_insert_ne; [eauto|congruence].
  - unfold RevokeToken. destruct b; [|eauto]. cbn. rewrite lookup_alter. case_decide; [subst|eauto].
    rewrite Ht1. cbn. eauto.
Qed.

Lemma run_KeepsT evs db : KeepsT db (run db evs).
Proof.
  revert db. induction evs as [|ev evs IH]; intros db id t Ht; [by exists t|].
  destruct (next_writes (λ _, True) db ev) as (cs & us & Hw%writes_KeepsT); [done|by split; intros ? ? ?|done|].
  destruct (Hw id t Ht) as (t1 & Ht1 & Hr1). destruct (IH _ _ _ Ht1) as (t2 & Ht2 & Hr2). eauto.
Qed.

Lemma Token_refresh e db req :
  form req "grant_type" = "refresh_token" → Token e db req = handleRefreshToken e db req.
Proof. intros Hg. unfold Token. by rewrite Hg. Qed.

Lemma revoked_refused e db req t :
  tokens db !! form req "refresh_token" = Some t → Revoked t = true →
  ∃ st m, handleRefreshToken e db req = (db, Fail st m).
Proof.
  intros Ht Hr. unfold handleRefreshToken, GetToken. destruct (default _ (basic req)) as [i s].
  generalize (if bool_decide (i = "") then form req "client_id" else i). intros cid.
  case_match; [eauto|]. destruct (ok e 0); [|eauto]. rewrite Ht, Hr, orb_true_r. eauto.
Qed.

(** A refresh token is used once.  A refresh that is answered with tokens presented a
    stored refresh token that was neither revoked nor expired; when the statement that
    revokes it went through, every later refresh with this token fails and changes
    nothing, whatever the provider served in between. *)
Theorem refresh_rotates e db req db' at_ rt idt sc :
  Token e db req = (db', Tokens at_ rt idt sc) → form req "grant_type" = "refresh_token" → ok e 1 = true →
  (∃ t, tokens db !! form req "refresh_token" = Some t ∧ TokenType t = "refresh" ∧ Revoked t = false
     ∧ (clk e 0 ≤ t_ExpiresAt t)%Z)
  ∧ ∀ evs e' req', form req' "grant_type" = "refresh_token" → form req' "refresh_token" = form req "refresh_token" →
      ∃ st m, Token e' (run db' evs) req' = (run db' evs, Fail st m).
Proof.
  intros HT Hg Hok. rewrite Token_refresh in HT by done. unfold handleRefreshToken, GetToken in HT.
  destruct (default _ (basic req)) as [i s].
  revert HT. generalize (if bool_decide (i = "") then form req "client_id" else i). intros cid HT.
  case_match; [done|]. destruct (ok e 0); [|done].
  destruct (tokens db !! form req "refresh_token") as [t|] eqn:Ht; [|done].
  destruct (bool_decide_reflect (TokenType t = "refresh")) as [Hty|]; [|done].
  destruct (Revoked t) eqn:Hr; [done|]. cbn [negb orb] in HT.
  destruct (Z.ltb_spec (t_ExpiresAt t) (clk e 0)) as [|Hx]; [done|].
  split; [by exists t|]. intros evs e' req' Hg' Hrt. rewrite Token_refresh by done.
  match type of HT with mint ?e ?d ?c ?u ?o ?s ?st ?x = _ =>
    destruct (mint_spec e d c u o s st x) as [[m Heq]|(a & r & j & Heq & _)] end;
    rewrite Heq in HT; [done|]. injection HT as <- <- <- <- <-.
  assert (Hrev : tokens (RevokeToken (ok e 1) db (form req "refresh_token")) !! form req "refresh_token"
                 = Some (revoke t)) by (rewrite Hok; cbn; by rewrite lookup_alter_eq, Ht).
  match goal with |- context [run ?d evs] =>
    assert (Hw : writes (λ _, True) (RevokeToken (ok e 1) db (form req "refresh_token")) d) by stored
  end.
  destruct (writes_KeepsT _ _ _ Hw _ _ Hrev) as (t1 & Ht1 & Hr1).
  destruct (run_KeepsT evs _ _ _ Ht1) as (t2 & Ht2 & Hr2).
  eapply revoked_refused; [rewrite Hrt; exact Ht2|auto].
Qed.

(** A refresh does not authenticate the client and does not compare it with the
    client the token was issued to: any non-empty client id, registered or not, is
    answered with tokens that name this client and the user of the refresh token. *)
Theorem refresh_any_client e db req t rb at_ idt :
  form req "grant_type" = "refresh_token" → basic req = None →
  form req "client_id" ≠ "" → form req "refresh_token" ≠ "" → ok e 0 = true →
  tokens db !! form req "refresh_token" = Some t → TokenType t = "refresh" → Revoked t = false →
  (clk e 0 ≤ t_ExpiresAt t)%Z → rnd e 2 = Some rb →
  rs_sign (id_claims (clk e 1) (default [] (rnd e 1)) (t_UserID t) (form req "client_id") (t_Scopes t)
             (org_claim (t_OrgID t))) = Some idt →
  rs_sign (access_claims (clk e 2) (form req "client_id") (t_UserID t) (t_Scopes t) (org_claim (t_OrgID t)))
    = Some at_ →
  (Token e db req).2 = Tokens at_ (Base64.encode_raw true rb) idt "".
Proof.
  intros Hg Hb Hc Hrt Hok Ht Hty Hr Hx Hrnd Hid Hat. rewrite Token_refresh by done.
  unfold handleRefreshToken, GetToken, mint, IssueIDToken, IssueAccessToken. rewrite Hb, Hok, Ht, Hr.
  cbn [default from_option id fst]. rewrite (bool_decide_true ("" = "")) by done.
  rewrite (bool_decide_false (form req "refresh_token" = "")), (bool_decide_false (form req "client_id" = "")),
    (bool_decide_true (TokenType t = "refresh")) by done. cbn [orb negb].
  destruct (Z.ltb_spec (t_ExpiresAt t) (clk e 0)); [lia|]. by rewrite Hid, Hat, Hrnd.
Qed.

(** The device flow does not work and can be bypassed.  After a device code was
    issued, the page that should authorise it answers the user code with a failure and
    changes nothing; and the client itself redeems the pending device code at the token
    endpoint as if it were an authorization code, for tokens without a user: all the
    checks of the exchange pass. *)
Theorem device_flow_broken e db req db' dc uc cl :
  DeviceCode e db req = (db', Device dc uc) →
  clients db !! form req "client_id" = Some cl → ClientType cl ≠ "confidential" → uc ≠ dc →
  codes db !! dc_key uc = None →
  (∀ e' req', form req' "user_code" = uc → ∃ m, DeviceVerify e' db' req' = (db', Page m))
  ∧ ∀ e' req', basic req' = None → form req' "client_id" = form req "client_id" →
      form req' "code" = dc_key dc → form req' "redirect_uri" = issuer +:+ "/device?user_code=" +:+ uc →
      ok e' 0 = true → ok e' 1 = true → (clk e' 0 ≤ clk e 0 + fifteen_minutes)%Z →
      ∃ ac, check_code e' db' req' = Ok (form req "client_id", ac) ∧ ac_UserID ac = "".
Proof.
  intros HD Hcl Hty Hne Hfree. unfold DeviceCode in HD.
  destruct (bool_decide_reflect (form req "client_id" = "")) as [|Hcid]; [done|].
  unfold GetOIDCClient in HD. destruct (ok e 0); [|done]. rewrite Hcl in HD.
  destruct (Enabled cl) eqn:He; [|done]. cbn [negb] in HD.
  destruct (GenerateDeviceCode _ _) as [[dc0 uc0]|]; [|done].
  unfold SaveDeviceCode in HD.
  match type of HD with context [insert_code ?b ?d ?c ?r] =>
    destruct (insert_code_spec b d c r) as [Heq|[Hn Heq]]; rewrite Heq in HD; [done|] end.
  injection HD as <- <- <-. cbn [dc_DeviceCode dc_ClientID VerificationURI dc_Interval dc_ExpiresAt] in *.
  split.
  - intros e' req' Hu. unfold DeviceVerify. rewrite Hu.
    case_match; [eauto|]. unfold GetDeviceCode. destruct (ok e' 0); [|eauto]. cbn.
    rewrite lookup_insert_ne, Hfree; [eauto|]. intros Hk. apply Hne.
    unfold dc_key in Hk. by injection Hk.
  - intros e' req' Hb Hc Hcode Hru Ho0 Ho1 Hx.
    unfold check_code, client_credentials, GetOIDCClient, GetAuthCode. rewrite Hb, Hc, Hcode, Ho0, Ho1, Hru. cbn.
    rewrite (bool_decide_true ("" = "")) by done.
    rewrite (bool_decide_false (form req "client_id" = "")), Hcl, He by done. cbn.
    rewrite (bool_decide_false (ClientType cl = "confidential")), lookup_insert_eq by done. cbn.
    destruct (Z.ltb_spec (clk e 0 + fifteen_minutes)%Z (clk e' 0)); [lia|].
    set (u := issuer +:+ _). rewrite (bool_decide_true (u = u)), (bool_decide_true (_ = form req "client_id")) by done.
    cbn [negb]. rewrite andb_false_r. unfold ValidatePKCE. rewrite (bool_decide_true ("" = "")) by done.
    rewrite (bool_decide_false (dc_key dc0 = "")) by done.
    cbn. eexists. done.
Qed.

Lemma redirect_url_prefix m code : ∃ rest, redirect_url m code = get m "redirect_uri" +:+ rest.
Proof.
  unfold redirect_url. case_match; [by eexists|]. rewrite Json.sapp_assoc. by eexists.
Qed.

(** The login does not consult the registered clients.  The answer of the login page
    and the code it stores do not depend on the table of clients; the browser is sent,
    with the code, to the address the caller's state names. *)
Theorem login_ignores_clients e db req cs :
  AuthorizeLogin e (mkDB cs (codes db) (tokens db) (users db)) req
  = (mkDB cs (codes (AuthorizeLogin e db req).1) (tokens db) (users db), (AuthorizeLogin e db req).2)
  ∧ ∀ url, (AuthorizeLogin e db req).2 = Redirect url →
      ∃ st m rest, Base64.decode_raw true (form req "state") = Some st ∧ unmarshal (to_string st) = Some m
        ∧ url = get m "redirect_uri" +:+ rest.
Proof.
  unfold AuthorizeLogin, AuthenticateUser, SaveAuthCode, insert_code. cbn. split.
  - repeat case_match; simplify_eq/=; done.
  - intros url. repeat case_match; try done; simplify_eq/=; intros [= <-].
    all: match goal with |- context [redirect_url ?m ?c] => destruct (redirect_url_prefix m c) as [rest Hrest] end;
      do 3 eexists; split_and!; [done|done|exact Hrest].
Qed.

End Provider.

(** ** A concrete provider *)

(** Signatures that carry the claims, a comparison on equality. *)
#[local] Instance toy_rsa : RsaJwt.
Proof.
  refine {| rs_sign c := Some (to_text c);
            rs_parse now s := match of_text s with Some c => if expired c now then None else Some c | None => None end |}.
  abstract (intros c s now [= <-] He; by rewrite of_to_text, He).
Defined.

Definition demo_client : OIDCClient := mkOIDCClient "" "portal" "public" ["https://app/cb"] [] [] true.
Definition demo_user : AuthStore.user_row :=
  AuthStore.mkRow "u1" "org" "a@b.c" "A" "user" false "active" None None (Some "pw") None None.
Definition demo_db : DB := mkDB {["web" := demo_client]} ∅ ∅ {["u1" := demo_user]}.
Definition demo_login : gmap string string :=
  <["client_id" := "web"]> (<["redirect_uri" := "https://app/cb"]> (<["scope" := "openid"]> ∅)).
Definition demo_env : env := mkEnv (λ _, 0%Z) (λ i, Some (of_string "0123456789")) (λ _, true).
Definition demo_form (l : list (string * string)) : request :=
  mkRequest (λ k, default "" ((list_to_map l : gmap string string) !! k)) None.
Definition demo_code : string := Base64.encode_raw true (of_string "0123456789").
Definition demo_post : request :=
  demo_form [("state", Base64.encode_raw true (of_string "x")); ("email", "a@b.c"); ("password", "pw")].
Definition demo_exchange : request :=
  demo_form [("grant_type", "authorization_code"); ("code", demo_code); ("client_id", "web");
             ("redirect_uri", "https://app/cb")].
Definition demo_refresh : request :=
  demo_form [("grant_type", "refresh_token"); ("refresh_token", demo_code); ("client_id", "evil")].

Abbreviation demo_Token := (Token "https://idp").
Abbreviation demo_run := (run String.eqb canonical_order "https://idp" (λ _, Some demo_login)).
Definition demo_hist : list event := [Serve EpAuthorizeLogin demo_env demo_post].
Definition demo_db1 : DB := demo_run demo_db demo_hist.
Definition demo_db2 : DB := (demo_Token demo_env demo_db1 demo_exchange).1.

Lemma tokens_trace_to_login_witness :
  ∃ at_ (ca : claims) u, rs_sign ca = Some at_ ∧ ca !! "sub" = Some (CString u)
    ∧ (u = "" ∨ Logged String.eqb canonical_order "https://idp" (λ _, Some demo_login) demo_db demo_hist u).
Proof.
  destruct (demo_Token demo_env demo_db1 demo_exchange) as [d r] eqn:E.
  assert (Hr : r = (demo_Token demo_env demo_db1 demo_exchange).2) by by rewrite E.
  destruct r as [| | |a rt i sc| | | |]; try (vm_compute in Hr; discriminate Hr).
  destruct (tokens_trace_to_login String.eqb canonical_order "https://idp" (λ _, Some demo_login)
    (clients demo_db) (users demo_db) demo_hist demo_env demo_exchange d a rt i sc E)
    as (ca & ci & u & Ha & Hi & Hca & Hci & Hu); [vm_compute; discriminate|].
  exists a, ca, u. auto.
Defined.

Lemma refresh_rotates_witness :
  ∃ st m, demo_Token demo_env (demo_Token demo_env demo_db2 demo_refresh).1 demo_refresh
          = ((demo_Token demo_env demo_db2 demo_refresh).1, Fail st m).
Proof.
  destruct (demo_Token demo_env demo_db2 demo_refresh) as [d r] eqn:E.
  assert (Hr : r = (demo_Token demo_env demo_db2 demo_refresh).2) by by rewrite E.
  destruct r as [| | |a rt i sc| | | |]; try (vm_compute in Hr; discriminate Hr).
  destruct (refresh_rotates String.eqb canonical_order "https://idp" (λ _, Some demo_login)
              demo_env demo_db2 demo_refresh d a rt i sc E) as [_ HH]; [vm_compute; reflexivity|reflexivity|].
  apply (HH [] demo_env demo_refresh); vm_compute; reflexivity.
Defined.

Lemma refresh_any_client_witness :
  ∃ at_ idt, (demo_Token demo_env demo_db2 demo_refresh).2 = Tokens at_ demo_code idt "".
Proof.
  destruct (tokens demo_db2 !! demo_code) as [t|] eqn:Et; [|vm_compute in Et; discriminate Et].
  do 2 eexists. eapply (refresh_any_client "https://idp" demo_env demo_db2 demo_refresh t).
  - vm_compute. reflexivity.
  - reflexivity.
  - vm_compute. discriminate.
  - vm_compute. discriminate.
  - reflexivity.
  - exact Et.
  - vm_compute in Et. injection Et as <-. reflexivity.
  - vm_compute in Et. injection Et as <-. reflexivity.
  - vm_compute in Et. injection Et as <-. vm_compute. discriminate.
  - reflexivity.
  - reflexivity.
  - reflexivity.
Defined.

Definition demo_device_env : env := mkEnv (λ _, 0%Z) (λ i, Some (of_string (if (i =? 0)%nat then "0123456789" else "wxyz"))) (λ _, true).
Definition demo_device : request := demo_form [("client_id", "web")].
Lemma device_flow_broken_witness :
  ∃ db' dc uc, DeviceCode "https://idp" demo_device_env demo_db demo_device = (db', Device dc uc)
    ∧ ∃ m, DeviceVerify String.eqb canonical_order demo_env db' (demo_form [("user_code", uc)]) = (db', Page m).
Proof.
  do 3 eexists. split; [vm_compute; reflexivity|].
  eapply (device_flow_broken String.eqb canonical_order "https://idp" demo_device_env demo_db demo_device _ _ _ demo_client).
  - vm_compute. reflexivity.
  - vm_compute. reflexivity.
  - vm_compute. discriminate.
  - vm_compute. discriminate.
  - vm_compute. reflexivity.
  - vm_compute. reflexivity.
Defined.

End Oidc.
