(* ===== verification/Migrations.v ===== *)
(** * Database migrations (internal/db/db.go)

    [splitStatements] cuts a migration script at its semicolons, outside comments,
    quoted strings and dollar-quoted strings; [Migrate] applies the scripts of a
    directory in the order of their names and remembers them in a tracking table.

    A script is a list of characters; a position [i] of the code's loop is the suffix
    [raw[i:]] that is left.  The loop has fuel, and [splitStatements] gives it the length
    of the script: every round consumes a character.  The database behind the statements
    is an argument: its states [D], the effect [exec] of a statement, and whether the
    schema of the tracking table exists. *)

From S2P Require Import Prelude GoStrings.
From Stdlib Require Import Ascii.
From stdpp Require Import sorting.
#[local] Open Scope string_scope.
#[local] Open Scope nat_scope.
#[local] Open Scope list_scope.

Module Migrations.
Import GoStrings.

Abbreviation text := (list ascii).
Definition str : text → string := String.string_of_list_ascii.
Definition chars : string → text := String.list_ascii_of_string.

(** ** Searching *)

Fixpoint is_prefix (p s : text) : bool :=
  match p, s with
  | [], _ => true
  | a :: p, b :: s => Ascii.eqb a b && is_prefix p s
  | _ :: _, [] => false
  end.

(** [strings.Index] *)
Fixpoint Index (s p : text) : option nat :=
  if is_prefix p s then Some 0
  else match s with [] => None | _ :: s => S <$> Index s p end.

(** ** Statements *)

Definition newline : ascii := "010".
Definition squote : ascii := "'".
Definition dollar : ascii := "$".
Definition semicolon : ascii := ";".

(** The rest of a quoted string, what follows it, and whether it is closed. *)
Fixpoint quoted (s : text) : text * text * bool :=
  match s with
  | [] => ([], [], false)
  | d :: s' =>
      if Ascii.eqb d squote then
        match s' with
        | e :: s'' =>
            if Ascii.eqb e squote then let '(q, r, b) := quoted s'' in (d :: e :: q, r, b) else ([d], s', true)
        | [] => ([d], [], true)
        end
      else let '(q, r, b) := quoted s' in (d :: q, r, b)
  end.

Definition tag_char (c : ascii) : bool :=
  let n := Ascii.nat_of_ascii c in
  Ascii.eqb c "_" || ((97 <=? n) && (n <=? 122)) || ((65 <=? n) && (n <=? 90)) || ((48 <=? n) && (n <=? 57)).
Fixpoint tag_length (s : text) : nat :=
  match s with c :: s => if tag_char c then S (tag_length s) else 0 | [] => 0 end.

Inductive lexeme := Semi | Text (t : text).

(** One round of the loop on [raw[i:] = c :: s]: what it writes, what is left, and whether
    the comment or string it read is closed. *)
Definition lex1 (c : ascii) (s : text) : lexeme * text * bool :=
  if Ascii.eqb c "-" && is_prefix ["-"%char] s then
    match Index s [newline] with
    | None => (Text (c :: s), [], false)
    | Some k => (Text (c :: take (k + 1) s), drop (k + 1) s, true)
    end
  else if Ascii.eqb c "/" && is_prefix ["*"%char] s then
    match Index (drop 1 s) ["*"%char; "/"%char] with
    | None => (Text (c :: s), [], false)
    | Some k => (Text (c :: take (1 + k + 2) s), drop (1 + k + 2) s, true)
    end
  else if Ascii.eqb c squote then let '(q, r, b) := quoted s in (Text (c :: q), r, b)
  else if Ascii.eqb c dollar then
    match drop (tag_length s) s with
    | d :: r =>
        if Ascii.eqb d dollar then
          let tag := c :: take (tag_length s) s ++ [d] in
          match Index r tag with
          | None => (Text (tag ++ r), [], false)
          | Some k => (Text (tag ++ take k r ++ tag), drop (k + length tag) r, true)
          end
        else (Text [c], s, true)
    | [] => (Text [c], s, true)
    end
  else if Ascii.eqb c semicolon then (Semi, s, true)
  else (Text [c], s, true).

Definition stmtHasSQL (s : string) : bool :=
  existsb (λ line, let l := TrimSpace line in negb (bool_decide (l = "")) && negb (HasPrefix l "--"))
    (Split newline s).

Definition keep (stmt : string) : bool := negb (bool_decide (stmt = "")) && stmtHasSQL stmt.

(** The end of a statement: [cur] is what was written since the last one. *)
Definition flush (cur : text) (out : list string) : list string :=
  let stmt := TrimSpace (str cur) in if keep stmt then out ++ [stmt] else out.

Fixpoint split_loop (fuel : nat) (raw cur : text) (out : list string) : option (list string) :=
  match raw with
  | [] => Some (flush cur out)
  | c :: s =>
      match fuel with
      | O => None
      | S fuel =>
          match lex1 c s with
          | (Semi, r, _) => split_loop fuel r [] (flush cur out)
          | (Text t, r, _) => split_loop fuel r (cur ++ t) out
          end
      end
  end.

Definition splitStatements (raw : string) : option (list string) :=
  split_loop (String.length raw) (chars raw) [] [].

(** ** Applying migrations *)

Record mdb (D : Type) := mkMdb { data : D; tracking : option (gset string) }.
Arguments mkMdb {D} _ _.
Arguments data {D} _.
Arguments tracking {D} _.

Inductive migrate_error := ReadDirFailed | ReadFailed (file : string) | StatementFailed (file : string) (i : nat).

(** The outcomes of the statements on the tracking table, by file. *)
Record menv := mkMenv { ensure_ok : string → bool; query_ok : string → bool; record_ok : string → bool }.

Section Migrate.
Context {D : Type} (exec : D → string → option D) (schema : D → bool).
Context (ReadDir : option (list (string * bool))) (ReadFile : string → option string).

Definition ensureMigrationTable (ok : bool) (d : mdb D) : mdb D :=
  if ok && schema (data d) then mkMdb (data d) (Some (default ∅ (tracking d))) else d.

Definition migrationApplied (ok : bool) (d : mdb D) (filename : string) : bool :=
  ok && match tracking d with Some t => bool_decide (filename ∈ t) | None => false end.

Definition recordMigration (ok : bool) (d : mdb D) (filename : string) : mdb D :=
  if ok then mkMdb (data d) ((λ t, {[filename]} ∪ t) <$> tracking d) else d.

(** The statements of a file, from number [i]; [Err i] is the one that failed. *)
Fixpoint exec_all (d : D) (i : nat) (stmts : list string) : D * result nat unit :=
  match stmts with
  | [] => (d, Ok tt)
  | s :: stmts => match exec d s with None => (d, Err i) | Some d => exec_all d (S i) stmts end
  end.

Definition sql_files (entries : list (string * bool)) : list string :=
  merge_sort (λ a b, String.leb a b) (map fst (filter (λ e, negb (snd e) && HasSuffix (fst e) ".sql") entries)).

(** The loop over the files, with the files it executed. *)
Fixpoint migrate_files (e : menv) (d : mdb D) (applied : nat) (fs : list string)
  : mdb D * result migrate_error nat :=
  match fs with
  | [] => (d, Ok applied)
  | f :: fs =>
      if migrationApplied (query_ok e f) d f then migrate_files e d applied fs
      else
        match ReadFile f with
        | None => (d, Err (ReadFailed f))
        | Some body =>
            match exec_all (data d) 1 (default [] (splitStatements body)) with
            | (x, Err i) => (mkMdb x (tracking d), Err (StatementFailed f i))
            | (x, Ok _) =>
                let d := ensureMigrationTable (ensure_ok e f) (mkMdb x (tracking d)) in
                migrate_files e (recordMigration (record_ok e f) d f) (S applied) fs
            end
        end
  end.

Definition Migrate (e : menv) (d : mdb D) : mdb D * result migrate_error nat :=
  let d := ensureMigrationTable (ensure_ok e "") d in
  match ReadDir with
  | None => (d, Err ReadDirFailed)
  | Some entries => migrate_files e d 0 (sql_files entries)
  end.

End Migrate.

(** ** Splitting loses nothing and ends *)

Lemma is_prefix_spec p s : is_prefix p s = true ↔ ∃ r, s = p ++ r.
Proof.
  revert s. induction p as [|a p IH]; intros s; cbn; [split; [by exists s|done]|].
  destruct s as [|b s]; [split; [done|by intros [? ?]]|]. rewrite andb_true_iff, IH, Ascii.eqb_eq. split.
  - intros [-> [r ->]]. by exists r.
  - intros [r [= -> ->]]. eauto.
Qed.

Lemma Index_Some s p k : Index s p = Some k → s = take k s ++ p ++ drop (k + length p) s.
Proof.
  revert k. induction s as [|c s IH]; intros k; cbn; destruct (is_prefix p _) eqn:Hp.
  2,4: intros Hk.
  - intros [= <-]. apply is_prefix_spec in Hp as [r Hr]. destruct p; [done|discriminate Hr].
  - done.
  - apply fmap_Some in Hk as (k' & Hk' & ->). cbn. f_equal. by apply IH.
  - intros [= <-]. cbn. apply is_prefix_spec in Hp as [r ->]. by rewrite drop_app_length.
Qed.

Lemma quoted_app n s q r b : length s ≤ n → quoted s = (q, r, b) → q ++ r = s.
Proof.
  revert s q r b. induction n as [|n IH]; intros [|d s'] q r b Hn; cbn in *.
  1,3: by intros [= <- <- <-].
  { lia. }
  destruct (Ascii.eqb d squote).
  - destruct s' as [|e s'']; [by intros [= <- <- <-]|]. destruct (Ascii.eqb e squote); [|by intros [= <- <- <-]].
    destruct (quoted s'') as [[q' r'] b'] eqn:E. intros [= <- <- <-]. cbn. do 2 f_equal.
    eapply IH; [|done]. cbn in Hn. lia.
  - destruct (quoted s') as [[q' r'] b'] eqn:E. intros [= <- <- <-]. cbn. f_equal. eapply IH; [|done]. lia.
Qed.

Definition lexeme_text (l : lexeme) : text := match l with Semi => [semicolon] | Text t => t end.

(** A round consumes exactly what it writes, at least one character. *)
Lemma lex1_consumes c s l r b :
  lex1 c s = (l, r, b) → c :: s = lexeme_text l ++ r ∧ length r ≤ length s.
Proof.
  intros Hl. assert (Heq : c :: s = lexeme_text l ++ r ∧ head (lexeme_text l) = Some c).
  { revert Hl. unfold lex1. repeat (destruct (_ && _)).
    - destruct (Index s _) as [k|]; intros [= <- <- <-]; cbn; by rewrite ?take_drop, ?app_nil_r.
    - destruct (Index _ _) as [k|]; intros [= <- <- <-]; cbn [lexeme_text head app]; by rewrite ?take_drop, ?app_nil_r.
    - destruct (Ascii.eqb c squote).
      { destruct (quoted s) as [[q r'] b'] eqn:E. intros [= <- <- <-]. cbn.
        by rewrite (quoted_app (length s) s q r' b'). }
      destruct (Ascii.eqb c dollar).
      { destruct (drop (tag_length s) s) as [|d r'] eqn:Hd; [by intros [= <- <- <-]|].
        destruct (Ascii.eqb d dollar); [|by intros [= <- <- <-]].
        assert (Hs : s = take (tag_length s) s ++ d :: r') by by rewrite <- Hd, take_drop.
        destruct (Index r' _) as [k|] eqn:Hk; intros [= <- <- <-]; cbn [lexeme_text head]; (split; [|done]).
        - apply Index_Some in Hk. rewrite Hs at 1. rewrite Hk at 1. cbn. by rewrite <- !app_assoc; cbn; rewrite <- !app_assoc.
        - rewrite Hs at 1. cbn. by rewrite app_nil_r, <- app_assoc. }
      destruct (Ascii.eqb_spec c semicolon) as [->|]; by intros [= <- <- <-]. }
  destruct Heq as [Heq Hh]. split; [exact Heq|].
  apply (f_equal length) in Heq. rewrite length_app in Heq. cbn [length] in Heq.
  destruct (lexeme_text l); [done|]. cbn [length] in Heq. lia.
Qed.

(** With enough fuel the loop does not depend on it. *)
Lemma split_loop_enough f raw cur out :
  length raw ≤ f → split_loop f raw cur out = split_loop (length raw) raw cur out.
Proof.
  enough (HH : ∀ n f f' raw cur out, length raw ≤ n → length raw ≤ f → length raw ≤ f' →
            split_loop f raw cur out = split_loop f' raw cur out) by (intros; eapply HH; eauto).
  clear. induction n as [|n IH]; intros f f' [|c s] cur out Hn Hf Hf'; cbn in *;
    try (by destruct f, f'); try lia.
  destruct f as [|f], f' as [|f']; try lia. cbn. destruct (lex1 c s) as [[l r] b] eqn:Hl.
  apply lex1_consumes in Hl as [_ Hr]. destruct l; apply IH; lia.
Qed.

Lemma split_loop_step c s cur out :
  split_loop (length (c :: s)) (c :: s) cur out
  = match lex1 c s with
    | (Semi, r, _) => split_loop (length r) r [] (flush cur out)
    | (Text t, r, _) => split_loop (length r) r (cur ++ t) out
    end.
Proof.
  cbn. destruct (lex1 c s) as [[l r] b] eqn:Hl. apply lex1_consumes in Hl as [_ Hr].
  destruct l; by apply split_loop_enough.
Qed.

(** What the loop computes, without the accumulators. *)
Definition statements (ps : list text) : list string := List.filter keep (map (TrimSpace ∘ str) ps).

Lemma flush_statements cur ps : statements (ps ++ [cur]) = flush cur (statements ps).
Proof.
  unfold statements, flush. rewrite map_app, List.filter_app. cbn. unfold compose.
  by destruct (keep _); rewrite ?app_nil_r.
Qed.

Lemma chars_length s : length (chars s) = String.length s.
Proof. unfold chars. induction s as [|c s IH]; [done|]. cbn. by rewrite IH. Qed.

(** ** The grammar of a script

    Written without the loop: a script is a sequence of items and of semicolons between them. *)

Definition occurs (p s : text) : Prop := ∃ a b, s = a ++ p ++ b.
(** [body ++ p] has [p] only at its end. *)
Definition upto (p body : text) : Prop := ¬ occurs p (body ++ removelast p).

Definition word_chars : text := chars "_abcdefghijklmnopqrstuvwxyzABCDEFGHIJKLMNOPQRSTUVWXYZ0123456789".
Abbreviation word := (Forall (.∈ word_chars)).
Definition star_slash : text := chars "*/".

(** The inside of a quoted string: a quote is written twice. *)
Inductive inside : text → Prop :=
| inside_nil : inside []
| inside_char c s : c ≠ squote → inside s → inside (c :: s)
| inside_quote s : inside s → inside (squote :: squote :: s).

(** [item u r]: where [u ++ r] is left, [u] is one comment, one string or one character that is
    neither a semicolon nor the start of a comment or a string.  One that is not closed extends
    to the end of the script. *)
Inductive item : text → text → Prop :=
| item_line body r : newline ∉ body → item ("-"%char :: "-"%char :: body ++ [newline]) r
| item_line_open body : newline ∉ body → item ("-"%char :: "-"%char :: body) []
| item_block body r : upto star_slash body → item ("/"%char :: "*"%char :: body ++ star_slash) r
| item_block_open body : ¬ occurs star_slash body → item ("/"%char :: "*"%char :: body) []
| item_quoted body r : inside body → head r ≠ Some squote → item (squote :: body ++ [squote]) r
| item_quoted_open body : inside body → item (squote :: body) []
| item_dollar tag body r :
    word tag → upto (dollar :: tag ++ [dollar]) body →
    item ((dollar :: tag ++ [dollar]) ++ body ++ (dollar :: tag ++ [dollar])) r
| item_dollar_open tag body :
    word tag → ¬ occurs (dollar :: tag ++ [dollar]) body → item ((dollar :: tag ++ [dollar]) ++ body) []
| item_lone_dollar r : (∀ tag r', word tag → r ≠ tag ++ dollar :: r') → item [dollar] r
| item_char c r :
    c ∉ [semicolon; squote; dollar] → ¬ (c = "-"%char ∧ head r = Some "-"%char) →
    ¬ (c = "/"%char ∧ head r = Some "*"%char) → item [c] r.

(** The pieces of a script between the semicolons that separate statements. *)
Inductive cut : text → list text → Prop :=
| cut_end : cut [] [[]]
| cut_semicolon r ps : cut r ps → cut (semicolon :: r) ([] :: ps)
| cut_item u r p ps : item u r → cut r (p :: ps) → cut (u ++ r) ((u ++ p) :: ps).

(** Some line is neither blank nor a comment. *)
Definition worth (s : string) : Prop :=
  Exists (λ line, TrimSpace line ≠ "" ∧ HasPrefix (TrimSpace line) "--" = false) (Split newline s).
#[export] Instance worth_dec s : Decision (worth s).
Proof. unfold worth. apply _. Defined.

(** *** Searching finds the first occurrence *)

Lemma is_prefix_app p s t : length p ≤ length s → is_prefix p (s ++ t) = is_prefix p s.
Proof.
  revert s. induction p as [|a p IH]; intros [|b s] Hl; cbn in *; [done|by destruct t|lia|].
  by rewrite IH by lia.
Qed.
Lemma occurs_cons p c s : occurs p (c :: s) ↔ is_prefix p (c :: s) = true ∨ occurs p s.
Proof.
  rewrite is_prefix_spec. split.
  - intros ([|x a] & b & Heq); [by left; exists b|]. right. injection Heq as -> ->. by exists a, b.
  - intros [[r Hr]|(a & b & ->)]; [by exists [], r|by exists (c :: a), b].
Qed.
Lemma Index_None s p : p ≠ [] → Index s p = None ↔ ¬ occurs p s.
Proof.
  intros Hp. induction s as [|c s IH].
  - destruct p; [done|]. cbn. split; [|done]. by intros _ ([|] & b & Heq).
  - rewrite occurs_cons. cbn [Index]. destruct (is_prefix p (c :: s)); [split; [done|naive_solver]|].
    rewrite fmap_None, IH. naive_solver.
Qed.
Lemma removelast_length (p : text) : p ≠ [] → length p = S (length (removelast p)).
Proof. intros Hp. rewrite (app_removelast_last "0"%char Hp) at 1. rewrite length_app. cbn. lia. Qed.
Lemma upto_nil p : p ≠ [] → upto p [].
Proof.
  intros Hp (a & b & Heq%(f_equal length)). rewrite !length_app in Heq. cbn in Heq.
  pose proof (removelast_length p Hp). lia.
Qed.
Lemma upto_cons p c s r : p ≠ [] → upto p (c :: s) ↔ is_prefix p ((c :: s) ++ p ++ r) = false ∧ upto p s.
Proof.
  intros Hp. unfold upto. cbn [app]. rewrite occurs_cons.
  assert (is_prefix p ((c :: s) ++ p ++ r) = is_prefix p (c :: s ++ removelast p)) as <-.
  { rewrite <- (is_prefix_app p (c :: s ++ removelast p) ([List.last p "0"%char] ++ r)).
    - assert (Hs : p ++ r = removelast p ++ [List.last p "0"%char] ++ r) by by rewrite app_assoc, <- app_removelast_last.
      rewrite Hs. by rewrite app_comm_cons, <- app_assoc.
    - cbn. rewrite length_app, (removelast_length p Hp). lia. }
  cbn [app]. destruct (is_prefix p _); naive_solver.
Qed.
Lemma Index_upto p s r : p ≠ [] → upto p s → Index (s ++ p ++ r) p = Some (length s).
Proof.
  intros Hp. induction s as [|c s IH]; intros Hs.
  - cbn. assert (Ht : is_prefix p (p ++ r) = true) by (apply is_prefix_spec; eauto). destruct p; [done|]. cbn in *. by rewrite Ht.
  - apply (upto_cons p c s r Hp) in Hs as [Hc Hs]. cbn in Hc |- *. by rewrite Hc, IH.
Qed.
Lemma Index_first s p k : p ≠ [] → Index s p = Some k → ∃ body r, s = body ++ p ++ r ∧ length body = k ∧ upto p body.
Proof.
  intros Hp. revert k. induction s as [|c s IH]; intros k; cbn [Index]; destruct (is_prefix p _) eqn:Hc.
  - intros [= <-]. apply is_prefix_spec in Hc as [r ->]. exists [], r. auto using upto_nil.
  - done.
  - intros [= <-]. apply is_prefix_spec in Hc as [r ->]. exists [], r. auto using upto_nil.
  - intros (k' & (body & r & -> & <- & Hb)%IH & ->)%fmap_Some. exists (c :: body), r. split_and!; [done|done|].
    by apply (upto_cons p c body r Hp).
Qed.

(** *** The rounds of the loop read the items *)

Lemma upto_newline body : newline ∉ body → upto [newline] body.
Proof.
  intros Hn (a & b & Heq). unfold removelast in Heq. rewrite app_nil_r in Heq. apply Hn. rewrite Heq. set_solver.
Qed.
Lemma occurs_newline s : occurs [newline] s ↔ newline ∈ s.
Proof.
  split; [intros (a & b & ->); set_solver|]. intros (a & b & ->)%list_elem_of_split. by exists a, b.
Qed.
Lemma tag_char_word c : tag_char c = true ↔ c ∈ word_chars.
Proof.
  assert (H : ∀ b, tag_char (Ascii.ascii_of_nat b) = bool_decide (Ascii.ascii_of_nat b ∈ word_chars) ∨ 256 ≤ b).
  { intros b. destruct (Nat.le_gt_cases 256 b) as [|Hb]; [by right|]. left.
    assert (Forall (λ b, tag_char (Ascii.ascii_of_nat b) = bool_decide (Ascii.ascii_of_nat b ∈ word_chars)) (seq 0 256)) as HF
      by (repeat constructor). rewrite Forall_forall in HF. apply HF, elem_of_seq. lia. }
  destruct (H (Ascii.nat_of_ascii c)) as [Hc|Hc]; [|pose proof (Ascii.nat_ascii_bounded c); lia].
  rewrite Ascii.ascii_nat_embedding in Hc. rewrite Hc. apply bool_decide_eq_true.
Qed.
Lemma tag_length_word s : word (take (tag_length s) s).
Proof. induction s as [|c s IH]; cbn; [done|]. destruct (tag_char c) eqn:Hc; cbn; [|done]. constructor; [by apply tag_char_word|done]. Qed.
Lemma tag_length_tag tag c r : word tag → c ∉ word_chars → tag_length (tag ++ c :: r) = length tag.
Proof.
  intros Ht Hc. induction Ht as [|x tag Hx Ht IH]; cbn.
  - destruct (tag_char c) eqn:E; [|done]. by apply tag_char_word in E.
  - apply tag_char_word in Hx. by rewrite Hx, IH.
Qed.
Lemma dollar_not_word : dollar ∉ word_chars.
Proof. apply (bool_decide_unpack _). vm_compute. exact I. Qed.

Lemma quoted_item n s q r b : length s ≤ n → quoted s = (q, r, b) →
  if b then ∃ body, q = body ++ [squote] ∧ inside body ∧ head r ≠ Some squote else r = [] ∧ inside q.
Proof.
  revert s q r b. induction n as [|n IH]; intros [|d s'] q r b Hn; cbn in *; try lia.
  1,2: intros [= <- <- <-]; auto using inside.
  destruct (Ascii.eqb_spec d squote) as [->|Hd].
  - destruct s' as [|e s'']; [intros [= <- <- <-]; exists []; auto using inside|].
    destruct (Ascii.eqb_spec e squote) as [->|He].
    + destruct (quoted s'') as [[q' r'] b'] eqn:E. intros [= <- <- <-]. specialize (IH s'' q' r' b' ltac:(cbn in Hn; lia) E).
      destruct b'; [|naive_solver eauto using inside]. destruct IH as (body & -> & Hb & Hr). exists (squote :: squote :: body). auto using inside.
    + intros [= <- <- <-]. exists []. cbn. naive_solver eauto using inside.
  - destruct (quoted s') as [[q' r'] b'] eqn:E. intros [= <- <- <-]. specialize (IH s' q' r' b' ltac:(lia) E).
    destruct b'; [|naive_solver eauto using inside]. destruct IH as (body & -> & Hb & Hr). exists (d :: body). auto using inside.
Qed.
Lemma quoted_closed body r : inside body → head r ≠ Some squote → quoted (body ++ squote :: r) = (body ++ [squote], r, true).
Proof.
  intros Hb Hr. induction Hb as [|c s Hc _ IH|s _ IH]; cbn [app quoted].
  - destruct r as [|e r]; [done|]. cbn in *. destruct (Ascii.eqb_spec e squote); naive_solver.
  - destruct (Ascii.eqb_spec c squote); [done|]. by rewrite IH.
  - by rewrite IH.
Qed.
Lemma quoted_open body : inside body → quoted body = (body, [], false).
Proof.
  induction 1 as [|c s Hc _ IH|s _ IH]; cbn [quoted]; [done| |by rewrite IH].
  destruct (Ascii.eqb_spec c squote); [done|]. by rewrite IH.
Qed.

(** Each round reads a semicolon or a item, *)
Lemma lex1_item c s l r b : lex1 c s = (l, r, b) →
  match l with Semi => c :: s = semicolon :: r | Text t => item t r end.
Proof.
  unfold lex1. destruct (Ascii.eqb c "-" && is_prefix ["-"%char] s) eqn:Hline.
  { apply andb_true_iff in Hline as [->%Ascii.eqb_eq (s' & ->)%is_prefix_spec]. cbn [app].
    destruct (Index _ _) as [k|] eqn:Hk.
    - apply Index_first in Hk as (body & r' & Heq & <- & Hb); [|done].
      destruct body as [|x body]; [discriminate Heq|]. injection Heq as <- ->.
      assert (Hn : newline ∉ body) by (intros Hin; apply Hb, occurs_newline; cbn; set_solver).
      replace (length ("-"%char :: body) + 1) with (S (length (body ++ [newline]))) by (rewrite length_app; cbn; lia).
      change (body ++ newline :: r') with (body ++ [newline] ++ r'). rewrite (app_assoc body [newline] r'). cbn [take drop]. rewrite take_app_length, drop_app_length. intros [= <- <- <-]. by apply item_line.
    - apply Index_None in Hk; [|done]. intros [= <- <- <-]. apply item_line_open. intros Hin. apply Hk, occurs_newline. set_solver. }
  destruct (Ascii.eqb c "/" && is_prefix ["*"%char] s) eqn:Hblock.
  { apply andb_true_iff in Hblock as [->%Ascii.eqb_eq (s' & ->)%is_prefix_spec]. cbn [app drop]. rewrite drop_0.
    destruct (Index _ _) as [k|] eqn:Hk.
    - apply Index_first in Hk as (body & r' & -> & <- & Hb); [|done]. rewrite app_assoc.
      replace (1 + length body + 2) with (S (length (body ++ star_slash))) by (rewrite length_app; cbn; lia).
      cbn [take drop]. rewrite take_app_length, drop_app_length. intros [= <- <- <-]. by apply item_block.
    - apply Index_None in Hk; [|done]. intros [= <- <- <-]. by apply item_block_open. }
  destruct (Ascii.eqb_spec c squote) as [->|Hq].
  { destruct (quoted s) as [[q r'] b'] eqn:E. intros [= <- <- <-]. apply (quoted_item (length s)) in E; [|done].
    destruct b'; [destruct E as (body & -> & ? & ?); by apply item_quoted|destruct E as [-> ?]; by apply item_quoted_open]. }
  destruct (Ascii.eqb_spec c dollar) as [->|Hd].
  { assert (Hlone : ∀ e r0, drop (tag_length s) s = e :: r0 → e ≠ dollar → item [dollar] s).
    { intros e r0 He Hne. apply item_lone_dollar. intros tag r1 Ht ->. rewrite tag_length_tag, drop_app_length in He by auto using dollar_not_word. naive_solver. }
    destruct (drop (tag_length s) s) as [|d r'] eqn:Hr.
    { intros [= <- <- <-]. apply item_lone_dollar. intros tag r1 Ht ->. by rewrite tag_length_tag, drop_app_length in Hr by auto using dollar_not_word. }
    destruct (Ascii.eqb_spec d dollar) as [->|Hne]; [|intros [= <- <- <-]; by eapply Hlone].
    pose proof (tag_length_word s) as Hw. set (tag := take (tag_length s) s) in *. destruct (Index r' _) as [k|] eqn:Hk.
    - apply Index_first in Hk as (body & r1 & -> & <- & Hb); [|done].
      rewrite take_app_length, <- length_app, (app_assoc body), drop_app_length. intros [= <- <- <-]. by apply (item_dollar tag).
    - apply Index_None in Hk; [|done]. intros [= <- <- <-]. by apply (item_dollar_open tag). }
  destruct (Ascii.eqb_spec c semicolon) as [->|Hs]; intros [= <- <- <-]; [done|].
  apply item_char; [set_solver| |]; intros [-> Hh]; destruct s as [|x s]; try done; injection Hh as ->; [done|done].
Qed.

(** and every item is read so. *)
Lemma item_lex1 u r : item u r → ∃ c s b, u ++ r = c :: s ∧ lex1 c s = (Text u, r, b).
Proof.
  intros [body r0 Hn|body Hn|body r0 Hb|body Hb|body r0 Hb Hr|body Hb|tag body r0 Ht Hb|tag body Ht Hb|r0 Hr|c r0 Hc H1 H2].
  - exists "-"%char, ("-"%char :: body ++ [newline] ++ r0), true. split; [cbn; by rewrite <- app_assoc|]. unfold lex1. cbn [is_prefix Ascii.eqb andb Bool.eqb].
    change ("-"%char :: body ++ [newline] ++ r0) with (("-"%char :: body) ++ [newline] ++ r0).
    rewrite Index_upto; [|done|apply upto_newline; set_solver].
    cbn [app length]. rewrite (Nat.add_comm _ 1). cbn [Nat.add take drop].
    replace (S (length body)) with (length (body ++ [newline])) by (rewrite length_app; cbn; lia).
    change (body ++ newline :: r0) with (body ++ [newline] ++ r0). by rewrite app_assoc, take_app_length, drop_app_length.
  - exists "-"%char, ("-"%char :: body), false. rewrite app_nil_r. split; [done|]. unfold lex1. cbn [is_prefix Ascii.eqb andb Bool.eqb].
    assert (Index ("-"%char :: body) [newline] = None) as -> by (apply Index_None; [done|]; rewrite occurs_newline; set_solver). done.
  - exists "/"%char, ("*"%char :: body ++ star_slash ++ r0), true. split; [cbn; by rewrite <- app_assoc|]. unfold lex1.
    cbn [is_prefix Ascii.eqb andb Bool.eqb drop]. rewrite drop_0. change ["*"%char; "/"%char] with star_slash. rewrite Index_upto by done.
    replace (1 + length body + 2) with (S (length (body ++ star_slash))) by (rewrite length_app; cbn; lia).
    cbn [take drop]. by rewrite app_assoc, take_app_length, drop_app_length.
  - exists "/"%char, ("*"%char :: body), false. rewrite app_nil_r. split; [done|]. unfold lex1. cbn [is_prefix Ascii.eqb andb Bool.eqb drop]. rewrite drop_0.
    by assert (Index body ["*"%char; "/"%char] = None) as -> by by apply Index_None.
  - exists squote, (body ++ squote :: r0), true. split; [cbn; by rewrite <- app_assoc|].
    unfold lex1. cbn [is_prefix Ascii.eqb andb Bool.eqb]. change (Ascii.eqb squote squote) with true. cbn iota. by rewrite quoted_closed.
  - exists squote, body, false. rewrite app_nil_r. split; [done|].
    unfold lex1. cbn [is_prefix Ascii.eqb andb Bool.eqb]. change (Ascii.eqb squote squote) with true. cbn iota. by rewrite quoted_open.
  - exists dollar, (tag ++ dollar :: body ++ (dollar :: tag ++ [dollar]) ++ r0), true.
    split; [cbn; by rewrite <- !app_assoc; cbn; rewrite <- !app_assoc|]. unfold lex1. cbn [is_prefix Ascii.eqb andb Bool.eqb].
    change (Ascii.eqb dollar squote) with false. change (Ascii.eqb dollar dollar) with true. cbn iota.
    rewrite tag_length_tag, drop_app_length, take_app_length by auto using dollar_not_word. change (Ascii.eqb dollar dollar) with true. cbn iota.
    rewrite Index_upto by done. by rewrite take_app_length, <- length_app, (app_assoc body), drop_app_length.
  - exists dollar, (tag ++ dollar :: body), false. split; [rewrite app_nil_r; cbn; by rewrite <- !app_assoc|]. unfold lex1. cbn [is_prefix Ascii.eqb andb Bool.eqb].
    change (Ascii.eqb dollar squote) with false. change (Ascii.eqb dollar dollar) with true. cbn iota.
    rewrite tag_length_tag, drop_app_length, take_app_length by auto using dollar_not_word. change (Ascii.eqb dollar dollar) with true. cbn iota.
    by assert (Index body (dollar :: tag ++ [dollar]) = None) as -> by by apply Index_None.
  - exists dollar, r0, true. split; [done|]. unfold lex1. cbn [is_prefix Ascii.eqb andb Bool.eqb].
    change (Ascii.eqb dollar squote) with false. change (Ascii.eqb dollar dollar) with true. cbn iota.
    destruct (drop (tag_length r0) r0) as [|d r1] eqn:Hd; [done|]. destruct (Ascii.eqb_spec d dollar) as [->|]; [|done].
    destruct (Hr (take (tag_length r0) r0) r1); [apply tag_length_word|]. by rewrite <- Hd, take_drop.
  - exists c, r0, true. split; [done|]. unfold lex1.
    assert (Hno : ∀ a e, ¬ (c = a ∧ head r0 = Some e) → Ascii.eqb c a && is_prefix [e] r0 = false).
    { intros a e H. destruct (Ascii.eqb_spec c a) as [->|]; [|done]. destruct r0 as [|x r0]; [done|]. cbn.
      destruct (Ascii.eqb_spec e x) as [->|]; [by destruct H|done]. }
    rewrite !Hno by done. destruct (Ascii.eqb_spec c squote); [set_solver|]. destruct (Ascii.eqb_spec c dollar); [set_solver|].
    destruct (Ascii.eqb_spec c semicolon); [set_solver|done].
Qed.

Lemma keep_worth s : keep s = bool_decide (worth s).
Proof.
  apply eq_true_iff_eq. rewrite bool_decide_eq_true. unfold keep, stmtHasSQL, worth.
  rewrite andb_true_iff, existsb_exists, Exists_exists. setoid_rewrite andb_true_iff. setoid_rewrite negb_true_iff.
  setoid_rewrite bool_decide_eq_false. setoid_rewrite list_elem_of_In. split; [naive_solver|].
  intros (line & Hin & Hl & Hp). split; [|eauto]. intros ->. cbn in Hin. by destruct Hin as [<-|[]].
Qed.
Lemma statements_worth ps : statements ps = filter worth (TrimSpace ∘ str <$> ps).
Proof.
  unfold statements. induction ps as [|p ps IH]; [done|]. change ((TrimSpace ∘ str <$> p :: ps)) with ((TrimSpace ∘ str) p :: (TrimSpace ∘ str <$> ps)).
  rewrite filter_cons, <- IH. cbn. rewrite keep_worth. unfold compose.
  case_decide as Hd; [rewrite bool_decide_true by done|rewrite bool_decide_false by done]; done.
Qed.

(** A cut is what the loop computes, *)
Lemma cut_loop raw p ps : cut raw (p :: ps) → ∀ cur done_,
  split_loop (length raw) raw cur (statements done_) = Some (statements (done_ ++ (cur ++ p) :: ps)).
Proof.
  remember (p :: ps) as qs eqn:Hq. intros Hc. revert p ps Hq. induction Hc as [|r qs Hc IH|u r p' ps' Hu Hc IH]; intros p ps [= <- <-] cur done_.
  - cbn. by rewrite app_nil_r, flush_statements.
  - rewrite split_loop_step. cbn [lex1 Ascii.eqb Bool.eqb andb]. change (lex1 semicolon r) with (Semi, r, true). cbn iota.
    rewrite <- flush_statements. destruct qs as [|q qs]; [inversion Hc|]. by rewrite (IH q qs), <- app_assoc, app_nil_r.
  - destruct (item_lex1 _ _ Hu) as (c & s & b & Heq & Hl). rewrite Heq, split_loop_step, Hl.
    by rewrite (IH p' ps'), <- app_assoc.
Qed.
(** there is one, *)
Lemma cut_exists raw : ∃ p ps, cut raw (p :: ps).
Proof.
  remember (length raw) as n eqn:Hn. assert (Hle : length raw ≤ n) by lia. clear Hn. revert raw Hle.
  induction n as [|n IH]; intros [|c s] Hle; try (eexists _, _; by constructor); [cbn in Hle; lia|].
  destruct (lex1 c s) as [[l r] b] eqn:Hl. destruct (lex1_consumes _ _ _ _ _ Hl) as [Heq Hr].
  destruct (IH r) as (p & ps & Hc); [cbn in Hle; lia|]. apply lex1_item in Hl. destruct l as [|t].
  - rewrite Hl. eexists _, _. by apply cut_semicolon.
  - rewrite Heq. eexists _, _. by apply cut_item.
Qed.
(** and only one. *)
Lemma cut_unique raw ps qs : cut raw ps → cut raw qs → ps = qs.
Proof.
  intros Hc. revert qs. induction Hc as [|r ps Hc IH|u r p ps Hu Hc IH]; intros qs Hq.
  - inversion Hq as [| |u r p ps Hu Hc Heq]; subst; [done|]. destruct (item_lex1 _ _ Hu) as (c & s & b & Heq' & _). by rewrite Heq in Heq'.
  - inversion Hq as [|r' ps' Hc'|u r' p ps' Hu Hc' Heq]; subst; [f_equal; by apply IH|].
    destruct (item_lex1 _ _ Hu) as (c & s & b & Heq' & Hl). rewrite Heq in Heq'. injection Heq' as <- <-. done.
  - destruct (item_lex1 _ _ Hu) as (c & s & b & Heq & Hl). rewrite Heq in Hq.
    inversion Hq as [|r' ps' Hc'|u' r' p' ps' Hu' Hc' Heq']; subst; [done|].
    destruct (item_lex1 _ _ Hu') as (c' & s' & b' & Heq'' & Hl'). rewrite Heq' in Heq''. injection Heq'' as <- <-.
    rewrite Hl in Hl'. injection Hl' as <- <- <-. by injection (IH _ Hc') as <- <-.
Qed.


(** ** Closed statements survive a script *)

(** A statement whose comments and strings are closed and that has no semicolon outside
    them. *)
Inductive closed : text → Prop :=
| closed_nil : closed []
| closed_step c s t r : lex1 c s = (Text t, r, true) → closed r → closed (c :: s).

Lemma Index_length s p k : Index s p = Some k → k + length p ≤ length s.
Proof.
  intros Hk. apply Index_Some in Hk as Heq. apply (f_equal length) in Heq.
  rewrite !length_app, length_take, length_drop in Heq.
  destruct (Nat.le_gt_cases k (length s)); [lia|].
  exfalso. revert k Hk H Heq. induction s as [|c s IH]; intros k; cbn; destruct (is_prefix p _); try done.
  - intros [= <-]. lia.
  - intros [= <-]. lia.
  - intros (k' & Hk' & ->)%fmap_Some ? ?. eapply IH; [done|lia|]. apply Index_Some in Hk'. apply (f_equal length) in Hk'.
    rewrite !length_app, length_take, length_drop in Hk'. lia.
Qed.

Lemma Index_app s p k t : Index s p = Some k → Index (s ++ t) p = Some k.
Proof.
  revert k. induction s as [|c s IH]; intros k Hk; apply Index_length in Hk as Hl; cbn in *.
  - destruct p; [|done]. by destruct t.
  - pose proof (is_prefix_app p (c :: s) t ltac:(cbn; lia)) as Happ. cbn [app] in Happ. rewrite Happ.
    destruct (is_prefix p (c :: s)) eqn:Hp; [done|].
    apply fmap_Some in Hk as (k' & Hk' & ->). by rewrite (IH _ Hk').
Qed.

Lemma quoted_closed_app n s q r t :
  length s ≤ n → quoted s = (q, r, true) → quoted (s ++ semicolon :: t) = (q, r ++ semicolon :: t, true).
Proof.
  revert s q r. induction n as [|n IH]; intros [|d s'] q r Hn; cbn in *; try done; try lia.
  destruct (Ascii.eqb d squote).
  - destruct s' as [|e s'']; [by intros [= <- <-]|]. cbn. destruct (Ascii.eqb e squote); [|by intros [= <- <-]].
    destruct (quoted s'') as [[q' r'] b'] eqn:E. intros [= <- <- ->]. cbn in Hn.
    by rewrite (IH s'' q' r') by (done || lia).
  - destruct (quoted s') as [[q' r'] b'] eqn:E. intros [= <- <- ->]. by rewrite (IH s' q' r') by (done || lia).
Qed.

Lemma tag_length_app s t : tag_length (s ++ semicolon :: t) = tag_length s.
Proof. induction s as [|c s IH]; [done|]. cbn. by rewrite IH. Qed.
Lemma tag_length_le s : tag_length s ≤ length s.
Proof. induction s as [|c s IH]; cbn; [done|]. destruct (tag_char c); lia. Qed.

Lemma is_prefix1_app c s t : c ≠ semicolon → is_prefix [c] (s ++ semicolon :: t) = is_prefix [c] s.
Proof. intros Hc. destruct s; cbn; [|done]. by destruct (Ascii.eqb_spec c semicolon). Qed.

(** A closed comment, string or character is read alike when a semicolon follows. *)
Lemma lex1_app c s x r t :
  lex1 c s = (Text x, r, true) → lex1 c (s ++ semicolon :: t) = (Text x, r ++ semicolon :: t, true).
Proof.
  unfold lex1. rewrite !is_prefix1_app by done.
  destruct (_ && _) eqn:Hline; [|destruct (Ascii.eqb c "/" && _) eqn:Hblock].
  - destruct (Index s _) as [k|] eqn:Hk; [|done]. intros [= <- <-].
    apply Index_length in Hk as Hl. rewrite (Index_app _ _ _ _ Hk). cbn in Hl.
    by rewrite take_app_le, drop_app_le by lia.
  - destruct (Index (drop 1 s) _) as [k|] eqn:Hk; [|done]. intros [= <- <-].
    apply Index_length in Hk as Hl. rewrite length_drop in Hl. cbn in Hl.
    rewrite drop_app_le by lia. rewrite (Index_app _ _ _ _ Hk).
    by rewrite take_app_le, (drop_app_le _ _ (1 + k + 2)) by lia.
  - destruct (Ascii.eqb c squote).
    { destruct (quoted s) as [[q r'] b] eqn:E. intros [= <- <- ->]. by rewrite (quoted_closed_app (length s) s q r'). }
    destruct (Ascii.eqb c dollar).
    { rewrite tag_length_app, drop_app_le, take_app_le by apply tag_length_le.
      destruct (drop (tag_length s) s) as [|d r'] eqn:Hd; cbn [app].
      - by intros [= <- <-].
      - destruct (Ascii.eqb d dollar); [|by intros [= <- <-]].
        destruct (Index r' _) as [k|] eqn:Hk; [|done]. intros [= <- <-].
        apply Index_length in Hk as Hl. rewrite (Index_app _ _ _ _ Hk).
        by rewrite take_app_le, drop_app_le by lia. }
    destruct (Ascii.eqb c semicolon); [done|]. by intros [= <- <-].
Qed.

Lemma split_closed s t cur out :
  closed s →
  split_loop (length (s ++ semicolon :: t)) (s ++ semicolon :: t) cur out
  = split_loop (length t) t [] (flush (cur ++ s) out).
Proof.
  intros Hc. revert cur. induction Hc as [|c s x r Hl Hc IH]; intros cur.
  - rewrite app_nil_r. cbn [app]. by rewrite split_loop_step.
  - cbn [app]. rewrite split_loop_step, (lex1_app _ _ _ _ _ Hl), IH.
    apply lex1_consumes in Hl as [-> _]. cbn [lexeme_text]. by rewrite app_assoc.
Qed.

(** One statement per line block: each ends with a semicolon and a line break. *)
Definition script (stmts : list text) : text := concat (map (λ s, s ++ [semicolon; newline]) stmts).

Lemma flush_newline s out : flush (newline :: s) out = flush s out.
Proof.
  unfold flush. replace (TrimSpace (str (newline :: s))) with (TrimSpace (str s)); [done|].
  unfold TrimSpace, str. by rewrite !String.list_ascii_of_string_of_list_ascii.
Qed.

Lemma split_script stmts out :
  Forall (λ s, closed s ∧ TrimSpace (str s) = str s ∧ keep (str s) = true) stmts →
  split_loop (length (newline :: script stmts)) (newline :: script stmts) [] out = Some (out ++ map str stmts).
Proof.
  intros HF. revert out. induction HF as [|s stmts (Hc & Ht & Hk) _ IH]; intros out.
  - cbn. by rewrite app_nil_r.
  - assert (Hc' : closed (newline :: s)) by by eapply closed_step.
    unfold script. cbn [map concat]. fold (script stmts).
    change (newline :: (s ++ [semicolon; newline]) ++ script stmts)
      with (((newline :: s) ++ [semicolon; newline]) ++ script stmts).
    rewrite <- app_assoc. change ([semicolon; newline] ++ script stmts) with (semicolon :: newline :: script stmts).
    rewrite split_closed by done. cbn [app]. rewrite flush_newline, IH. unfold flush. rewrite Ht, Hk.
    by rewrite <- app_assoc.
Qed.

(** Splitting gives back the statements of a script.  A script written as a sequence
    of trimmed statements, each with closed comments, strings and dollar quotes and at
    least one line of SQL, each followed by a semicolon and a line break, is split into
    exactly these statements, in order: semicolons inside comments, strings and function
    bodies do not cut. *)
Theorem split_script_roundtrip stmts :
  Forall (λ s, closed s ∧ TrimSpace (str s) = str s ∧ keep (str s) = true) stmts →
  splitStatements (str (newline :: script stmts)) = Some (map str stmts).
Proof.
  intros HF. unfold splitStatements. rewrite <- chars_length. unfold chars, str.
  rewrite String.list_ascii_of_string_of_list_ascii. by rewrite (split_script stmts []).
Qed.

(** ** What a run of the migrations does *)

Section MigrateSpec.
Context {D : Type} (exec : D → string → option D) (schema : D → bool).
Context (ReadDir : option (list (string * bool))) (ReadFile : string → option string).

Abbreviation migrate_files := (migrate_files exec schema ReadFile).
Abbreviation Migrate := (Migrate exec schema ReadDir ReadFile).

Definition stmts_of (f : string) : list string := default [] (ReadFile f ≫= splitStatements).

(** The effect of a list of statements, when all succeed. *)
Fixpoint apply (d : D) (ss : list string) : option D :=
  match ss with [] => Some d | s :: ss => exec d s ≫= λ d, apply d ss end.

Lemma apply_app d ss ss' : apply d (ss ++ ss') = apply d ss ≫= λ x, apply x ss'.
Proof.
  revert d. induction ss as [|s ss IH]; intros d; [done|]. cbn. destruct (exec d s); cbn; auto.
Qed.

Lemma exec_all_spec d i ss :
  (∃ x, exec_all exec d i ss = (x, Ok tt) ∧ apply d ss = Some x)
  ∨ ∃ k s x, exec_all exec d i ss = (x, Err (i + k)) ∧ ss !! k = Some s
      ∧ apply d (take k ss) = Some x ∧ exec x s = None.
Proof.
  revert d i. induction ss as [|s ss IH]; intros d i; cbn; [left; eauto|].
  destruct (exec d s) as [d'|] eqn:He; cbn.
  - destruct (IH d' (S i)) as [(x & -> & Hx)|(k & s' & x & -> & Hk & Ha & Hn)]; [left; eauto|].
    right. exists (S k), s', x. rewrite Nat.add_succ_r. cbn. by rewrite He.
  - right. exists 0, s, d. by rewrite Nat.add_0_r.
Qed.

Hypothesis schema_kept : ∀ d s d', exec d s = Some d' → schema d = true → schema d' = true.

Lemma apply_schema d ss d' : apply d ss = Some d' → schema d = true → schema d' = true.
Proof.
  revert d. induction ss as [|s ss IH]; intros d; cbn; [by intros [= ->]|].
  destruct (exec d s) as [x|] eqn:He; [|done]. cbn. eauto.
Qed.

(** The environments in which the statements on the tracking table succeed. *)
Definition all_ok (e : menv) : Prop := ∀ f, ensure_ok e f = true ∧ query_ok e f = true ∧ record_ok e f = true.

(** What is left of [pending] after [done_], and how the run ended. *)
Definition ended (d d' : mdb D) (n : nat) (done_ rest : list string) (r : result migrate_error nat) : Prop :=
  match rest with
  | [] => r = Ok (n + length done_) ∧ apply (data d) (mjoin (map stmts_of done_)) = Some (data d')
  | f :: _ =>
      ReadFile f = None ∧ r = Err (ReadFailed f) ∧ apply (data d) (mjoin (map stmts_of done_)) = Some (data d')
      ∨ ∃ k s, r = Err (StatementFailed f (S k)) ∧ stmts_of f !! k = Some s ∧ exec (data d') s = None
          ∧ apply (data d) (mjoin (map stmts_of done_) ++ take k (stmts_of f)) = Some (data d')
  end.

Lemma filter_ext_pending (t t' : gset string) (fs : list string) :
  (∀ f, f ∈ fs → f ∈ t ↔ f ∈ t') → filter (λ f, f ∉ t) fs = filter (λ f, f ∉ t') fs.
Proof.
  induction fs as [|f fs IH]; intros Hx; [done|]. rewrite !filter_cons, IH by set_solver.
  specialize (Hx f ltac:(set_solver)). repeat case_decide; tauto || done.
Qed.

Lemma migrate_files_spec e d t n fs :
  all_ok e → tracking d = Some t → schema (data d) = true → NoDup fs →
  ∃ done_ rest d' r, migrate_files e d n fs = (d', r) ∧ filter (λ f, f ∉ t) fs = done_ ++ rest
    ∧ tracking d' = Some (list_to_set done_ ∪ t) ∧ schema (data d') = true ∧ ended d d' n done_ rest r.
Proof.
  intros Hok. revert d t n. induction fs as [|f fs IH]; intros d t n Ht Hs Hnd.
  { exists [], [], d, (Ok n). cbn. rewrite Ht, Nat.add_0_r. split_and!; try done. f_equal. set_solver. }
  apply NoDup_cons in Hnd as [Hf Hnd]. destruct (Hok f) as (He & Hq & Hr). cbn [Migrations.migrate_files].
  unfold migrationApplied. rewrite Hq, Ht, filter_cons. cbn [andb].
  destruct (decide (f ∈ t)) as [Hin|Hout].
  { rewrite bool_decide_true, decide_False by (done || tauto). by apply IH. }
  rewrite bool_decide_false, decide_True by done.
  destruct (ReadFile f) as [body|] eqn:Hb.
  2: { exists [], (f :: filter (λ f, f ∉ t) fs), d, (Err (ReadFailed f)). split_and!; try done.
       - rewrite Ht. f_equal. set_solver.
       - left. done. }
  assert (Hst : stmts_of f = default [] (splitStatements body)) by (unfold stmts_of; by rewrite Hb).
  rewrite <- Hst.
  destruct (exec_all_spec (data d) 1 (stmts_of f)) as [(x & -> & Hx)|(k & s & x & -> & Hk & Ha & Hn)].
  2: { exists [], (f :: filter (λ f, f ∉ t) fs), (mkMdb x (Some t)), (Err (StatementFailed f (S k))).
       split_and!; try done.
       - cbn. f_equal. set_solver.
       - eapply apply_schema; eauto.
       - right. by exists k, s. }
  assert (Hsx : schema x = true) by (eapply apply_schema; eauto).
  unfold ensureMigrationTable, recordMigration. rewrite He, Hr. cbn. rewrite Hsx. cbn.
  destruct (IH (mkMdb x (Some ({[f]} ∪ t))) ({[f]} ∪ t) (S n)) as (dn & rest & d' & r & Hm & Hfl & Htr & Hsd & Hend);
    try done.
  rewrite Hm. exists (f :: dn), rest, d', r. split_and!; try done.
  - cbn. rewrite <- Hfl. f_equal. apply filter_ext_pending. intros g Hg. set_solver.
  - rewrite Htr. f_equal. set_solver.
  - unfold ended in *. destruct rest as [|g rest]; cbn [data length map mjoin] in *.
    + destruct Hend as [-> Hap]. split; [f_equal; lia|]. cbn. rewrite apply_app, Hx. done.
    + destruct Hend as [(Hg & -> & Hap)|(k & s & -> & Hk & Hns & Hap)].
      * left. split_and!; try done. cbn. by rewrite apply_app, Hx.
      * right. exists k, s. split_and!; try done. cbn. rewrite <- app_assoc, apply_app, Hx. done.
Qed.

(** A run of the migrations executes exactly the statements of the scripts that are
    not recorded, in the order of their names.  On a database with the tracking schema,
    with the statements on the tracking table succeeding, the scripts that were not
    recorded are cut into those that were executed completely, which are recorded, and
    the rest; the run succeeds when nothing is left and otherwise stops at the first
    script of the rest, before an unreadable file or at the first statement that fails,
    and the statements of that script executed before stay in effect. *)
Theorem migrate_exact e d entries :
  all_ok e → schema (data d) = true → ReadDir = Some entries → NoDup (map fst entries) →
  ∃ done_ rest d' r, Migrate e d = (d', r)
    ∧ filter (λ f, f ∉ default ∅ (tracking d)) (sql_files entries) = done_ ++ rest
    ∧ tracking d' = Some (list_to_set done_ ∪ default ∅ (tracking d)) ∧ ended d d' 0 done_ rest r.
Proof.
  intros Hok Hs Hdir Hnd. unfold Migrate, Migrations.Migrate, ensureMigrationTable.
  destruct (Hok "") as (-> & _ & _). rewrite Hs, Hdir. cbn [andb].
  destruct (migrate_files_spec e (mkMdb (data d) (Some (default ∅ (tracking d)))) (default ∅ (tracking d)) 0
              (sql_files entries)) as (dn & rest & d' & r & Hm & Hf & Ht & _ & Hend); try done; [|eauto 10].
  unfold sql_files. rewrite merge_sort_Permutation.
  eapply sublist_NoDup; [exact Hnd|]. apply (fmap_sublist fst), sublist_filter.
Qed.

(** Migrating again does nothing: after a run that succeeded on a database with the
    tracking schema, another run executes no statement and changes nothing. *)
Theorem migrate_idempotent e e' d d' n entries :
  all_ok e → all_ok e' → schema (data d) = true → ReadDir = Some entries → NoDup (map fst entries) →
  Migrate e d = (d', Ok n) → Migrate e' d' = (d', Ok 0).
Proof.
  intros Hok Hok' Hs Hdir Hnd Hm.
  destruct (migrate_exact e d entries Hok Hs Hdir Hnd) as (dn & rest & d1 & r & Hm1 & Hf & Ht & Hend).
  rewrite Hm in Hm1. injection Hm1 as <- <-. unfold ended in Hend.
  destruct rest as [|f rest]; [|by destruct Hend as [(? & ? & ?)|(? & ? & ? & ?)]].
  destruct Hend as [_ Hap]. rewrite app_nil_r in Hf.
  destruct (migrate_exact e' d' entries Hok' (apply_schema _ _ _ Hap Hs) Hdir Hnd)
    as (dn2 & rest2 & d2 & r2 & Hm2 & Hf2 & Ht2 & Hend2).
  rewrite Ht in Hf2, Ht2. cbn [default from_option id] in Hf2, Ht2.
  assert (Hnil : filter (λ f, f ∉ (list_to_set dn ∪ default ∅ (tracking d) : gset string)) (sql_files entries) = []).
  { apply elem_of_nil_inv. intros g [Hng Hg]%list_elem_of_filter. apply Hng. destruct (decide (g ∈ default ∅ (tracking d))); [set_solver|].
    apply elem_of_union_l, elem_of_list_to_set. rewrite <- Hf. by apply list_elem_of_filter. }
  rewrite Hnil in Hf2. symmetry in Hf2. apply app_eq_nil in Hf2 as [-> ->].
  destruct Hend2 as [-> [= Hd]]. rewrite Hm2. f_equal. destruct d', d2; cbn in *. subst. do 2 f_equal. set_solver.
Qed.

End MigrateSpec.

(** ** A concrete run *)

Definition demo_stmts : list text :=
  map chars ["CREATE TABLE t (a INT) -- not; here" +:+ String newline ", x"; "INSERT INTO t VALUES ('it''s; ok')";
             "CREATE FUNCTION f() AS $b$ SELECT 1; $b$ /* ; */"].

(** Evaluates the rounds of a closed statement. *)
Ltac closed_by_eval := repeat first [apply closed_nil|eapply closed_step; [vm_compute; reflexivity|]].

Lemma split_script_roundtrip_witness :
  splitStatements (str (newline :: script demo_stmts)) = Some (map str demo_stmts).
Proof.
  apply split_script_roundtrip. repeat constructor; try (vm_compute; reflexivity); vm_compute; closed_by_eval.
Defined.

(** A database that records its statements, and two scripts. *)
Definition demo_exec (d : list string) (s : string) : option (list string) :=
  if bool_decide (s = "BAD") then None else Some (d ++ [s]).
Definition demo_dir : list (string * bool) := [("002.sql", false); ("old", true); ("001.sql", false)].
Definition demo_file (f : string) : option string := Some (if bool_decide (f = "001.sql") then "A; B" else "C;").
Definition demo_menv : menv := mkMenv (λ _, true) (λ _, true) (λ _, true).

Lemma demo_dir_NoDup : NoDup (map fst demo_dir).
Proof. apply (bool_decide_unpack _). vm_compute. exact I. Qed.

Lemma migrate_exact_witness :
  ∃ done_ rest d' r, Migrate demo_exec (λ _, true) (Some demo_dir) demo_file demo_menv (mkMdb [] None) = (d', r)
    ∧ filter (λ f, f ∉ (default ∅ None : gset string)) (sql_files demo_dir) = done_ ++ rest
    ∧ ended demo_exec demo_file (mkMdb [] None) d' 0 done_ rest r.
Proof.
  destruct (migrate_exact demo_exec (λ _, true) (Some demo_dir) demo_file (λ _ _ _ _ H, H) demo_menv (mkMdb [] None)
              demo_dir) as (dn & rest & d' & r & Hm & Hf & _ & He); [by intros f|reflexivity|reflexivity|exact demo_dir_NoDup|].
  exists dn, rest, d', r. split_and!; [exact Hm|exact Hf|exact He].
Defined.

Lemma migrate_idempotent_witness :
  Migrate demo_exec (λ _, true) (Some demo_dir) demo_file demo_menv (mkMdb ["A"; "B"; "C"] (Some {["001.sql"; "002.sql"]}))
  = (mkMdb ["A"; "B"; "C"] (Some {["001.sql"; "002.sql"]}), Ok 0).
Proof.
  apply (migrate_idempotent demo_exec (λ _, true) (Some demo_dir) demo_file (λ _ _ _ _ H, H) demo_menv demo_menv
           (mkMdb [] None) _ 2 demo_dir); [by intros f|by intros f|reflexivity|reflexivity|exact demo_dir_NoDup|].
  vm_compute. reflexivity.
Defined.

End Migrations.
