(* ===== verification/ScimStore.v ===== *)
(** * The SCIM store (internal/db/scim_store.go)

    Administrators, endpoint users, groups with their members, and the status history of
    endpoint users, as tables.  The tables are the rows the connection sees under the
    row-level security of the schema.  A row of [users] has here only the columns this
    store reads or writes.

    An operation takes the environment of its statements: [now], the identifier the
    database draws, the outcome [e_ok i] of its [i]-th statement and the order in which
    the database finds rows.  An identifier that is no UUID is answered like one of no
    row.  [ilike] is the pattern matching of the database. *)

From S2P Require Import Prelude GoStrings Encoding Sql Sha256.
#[local] Open Scope string_scope.
#[local] Open Scope nat_scope.
#[local] Open Scope list_scope.

Module ScimStore.
Import GoStrings Sql.

(** ** Resources *)

Record SCIMUser := mkUser {
  ID : string;
  OrgID : string;
  Email : string;
  Name : string;
  Department : string;
  Title : string;
  Status : string;
  StatusReason : string;
  StatusSource : string;
  StatusUpdatedAt : option Z;
  StatusUpdatedBy : string;
  SCIMExternalID : string;
  IdPID : string;
  OAuthProvider : string;
  OAuthSubject : string;
  CreatedAt : option Z;
  UpdatedAt : option Z;
}.

Record SCIMGroup := mkGroup {
  g_ID : string;
  g_OrgID : string;
  DisplayName : string;
  ExternalID : string;
  g_IdPID : string;
  Source : string;
  ImportEnabled : bool;
  Members : list string;
  g_CreatedAt : option Z;
  g_UpdatedAt : option Z;
}.

Record ClientUserStatusEvent := mkEvent {
  ev_OrgID : string;
  ev_UserID : string;
  PreviousStatus : string;
  NewStatus : string;
  ev_Reason : string;
  ev_Source : string;
  ActorID : string;
  ev_CreatedAt : Z;
}.

(** ** Tables *)

Record admin_row := mkAdmin {
  a_org : string;
  a_email : string;
  a_name : string;
  a_role : string;
  a_status : string;
  a_ext : option string;
  a_created : Z;
  a_updated : Z;
}.

Record client_row := mkClient {
  c_org : string;
  c_email : string;
  c_name : string;
  c_department : option string;
  c_title : option string;
  c_provider : option string;
  c_subject : option string;
  c_ext : option string;
  c_idp : option string;
  c_status : string;
  c_reason : option string;
  c_source : option string;
  c_status_at : option Z;
  c_by : option string;
  c_login : option Z;
  c_created : Z;
  c_updated : Z;
}.

Record group_row := mkGroupRow {
  r_org : string;
  r_name : string;
  r_ext : option string;
  r_idp : option string;
  r_source : string;
  r_import : bool;
  r_created : Z;
  r_updated : Z;
}.

Record idp_row := mkIdp { i_org : string; i_hash : option string; i_enabled : bool }.

Record DB := mkDB {
  admins : gmap string admin_row;
  clients : gmap string client_row;
  groups : gmap string group_row;
  admin_groups : gset (string * string);    (** user, group *)
  client_groups : gset (string * string);
  events : list ClientUserStatusEvent;      (** in the order of insertion *)
  organizations : gset string;
  idps : list idp_row;
}.

Definition with_admins (db : DB) (m : gmap string admin_row) : DB :=
  mkDB m (clients db) (groups db) (admin_groups db) (client_groups db) (events db) (organizations db) (idps db).
Definition with_clients (db : DB) (m : gmap string client_row) : DB :=
  mkDB (admins db) m (groups db) (admin_groups db) (client_groups db) (events db) (organizations db) (idps db).
Definition with_groups (db : DB) (m : gmap string group_row) : DB :=
  mkDB (admins db) (clients db) m (admin_groups db) (client_groups db) (events db) (organizations db) (idps db).
Definition with_members (db : DB) (a c : gset (string * string)) : DB :=
  mkDB (admins db) (clients db) (groups db) a c (events db) (organizations db) (idps db).
Definition with_events (db : DB) (l : list ClientUserStatusEvent) : DB :=
  mkDB (admins db) (clients db) (groups db) (admin_groups db) (client_groups db) l (organizations db) (idps db).

Record env := mkEnv {
  now : Z;
  new_id : string;
  e_ok : nat → bool;
  e_ro : range_order;
}.

(** The constraints of the columns. *)
Definition admin_ok (r : admin_row) : bool :=
  fits 320 (a_email r) && fits 255 (a_name r) && fits_opt 255 (a_ext r)
  && bool_decide (a_role r ∈ ["super_admin"; "org_admin"; "security_admin"; "read_only"; "billing_admin"])
  && bool_decide (a_status r ∈ ["active"; "suspended"; "invited"]).
Definition client_ok (r : client_row) : bool :=
  fits 320 (c_email r) && fits 255 (c_name r) && fits_opt 255 (c_department r) && fits_opt 255 (c_title r)
  && fits_opt 30 (c_provider r) && fits_opt 255 (c_subject r) && fits_opt 255 (c_ext r) && fits_opt 64 (c_idp r)
  && fits_opt 40 (c_source r) && fits_opt 255 (c_by r)
  && bool_decide (c_status r ∈ ["active"; "suspended"; "disabled"]).
Definition group_ok (r : group_row) : bool :=
  fits 255 (r_name r) && fits_opt 255 (r_ext r) && fits_opt 64 (r_idp r)
  && bool_decide (r_source r ∈ ["local"; "scim"; "saml"; "ldap"]).

(** A row may be written under [id]: constraints, unique columns, foreign keys. *)
Definition admin_writable (db : DB) (id : string) (r : admin_row) : bool :=
  admin_ok r && negb (taken (λ x, bool_decide (a_email x = a_email r)) (admins db) id)
  && bool_decide (a_org r ∈ organizations db).
Definition same_oauth (a b : client_row) : bool :=
  bool_decide (is_Some (c_provider a) ∧ is_Some (c_subject a) ∧ c_provider a = c_provider b ∧ c_subject a = c_subject b).
Definition client_writable (db : DB) (id : string) (r : client_row) : bool :=
  client_ok r && negb (taken (λ x, bool_decide (c_email x = c_email r) || same_oauth x r) (clients db) id)
  && bool_decide (c_org r ∈ organizations db).
Definition group_writable (db : DB) (id : string) (r : group_row) : bool :=
  group_ok r && negb (taken (λ x, bool_decide (r_org x = r_org r ∧ r_name x = r_name r)) (groups db) id)
  && bool_decide (r_org r ∈ organizations db).

(** The columns the queries scan. *)
Definition scan_admin (id : string) (r : admin_row) : SCIMUser :=
  mkUser id (a_org r) (a_email r) (a_name r) "" "" (a_status r) "" "" None "" (default "" (a_ext r)) "" "" ""
    (Some (a_created r)) (Some (a_updated r)).
Definition scan_client (id : string) (r : client_row) : SCIMUser :=
  mkUser id (c_org r) (c_email r) (c_name r) (default "" (c_department r)) (default "" (c_title r)) (c_status r)
    (default "" (c_reason r)) (default "" (c_source r)) (c_status_at r) (default "" (c_by r))
    (default "" (c_ext r)) (default "" (c_idp r)) (default "" (c_provider r)) (default "" (c_subject r))
    (Some (c_created r)) (Some (c_updated r)).

Definition hashSCIMToken (token : string) : string := Hex.encode (Sha256.sha256 (of_string token)).

Section Store.
Context (ilike : string → string → bool).

(** ** Administrators *)

Definition CreateAdminUser (e : env) (db : DB) (u : SCIMUser) : DB * result string SCIMUser :=
  let r := mkAdmin (OrgID u) (Email u) (Name u) "read_only" (Status u) (Some (SCIMExternalID u)) (now e) (now e) in
  if e_ok e 0 && bool_decide (admins db !! new_id e = None) && admin_writable db (new_id e) r
  then (with_admins db (<[new_id e := r]> (admins db)), Ok (scan_admin (new_id e) r))
  else (db, Err "scim create admin user").

(** [Ok None]: there is no such row. *)
Definition GetAdminUserBySCIMID (e : env) (db : DB) (externalID : string) : result string (option SCIMUser) :=
  if e_ok e 0 then
    Ok (uncurry scan_admin <$> head (select (e_ro e) (λ _ r, bool_decide (a_ext r = Some externalID)) (admins db)))
  else Err "scim get admin user".

Definition GetAdminUser (e : env) (i : nat) (db : DB) (id : string) : result string (option SCIMUser) :=
  if e_ok e i then Ok (scan_admin id <$> admins db !! id) else Err "scim get admin user".

Definition set_admin (t : Z) (u : SCIMUser) (r : admin_row) : admin_row :=
  mkAdmin (a_org r) (Email u) (Name u) (a_role r) (Status u) (Some (SCIMExternalID u)) (a_created r) t.

Definition UpdateAdminUser (e : env) (i : nat) (db : DB) (id : string) (u : SCIMUser) : DB * result string SCIMUser :=
  if negb (e_ok e i) then (db, Err "scim update admin user")
  else
    match admins db !! id with
    | None => (db, Err "admin user not found")
    | Some r =>
        let r := set_admin (now e) u r in
        if admin_writable db id r then (with_admins db (<[id := r]> (admins db)), Ok (scan_admin id r))
        else (db, Err "scim update admin user")
    end.

(** The memberships of a deleted user go with it. *)
Definition drop_member (id : string) (m : gset (string * string)) : gset (string * string) :=
  filter (λ p, fst p ≠ id) m.
Definition drop_group (id : string) (m : gset (string * string)) : gset (string * string) :=
  filter (λ p, snd p ≠ id) m.

Definition DeleteAdminUser (e : env) (db : DB) (id : string) : DB * result string unit :=
  if negb (e_ok e 0) then (db, Err "scim delete admin user")
  else
    match admins db !! id with
    | None => (db, Err "admin user not found")
    | Some _ =>
        (with_members (with_admins db (delete id (admins db))) (drop_member id (admin_groups db)) (client_groups db),
         Ok tt)
    end.

Definition clamp_start (startIndex : Z) : Z := if (startIndex <? 1)%Z then 1 else startIndex.
Definition clamp_count (max count : Z) : Z := if (count <? 1)%Z || (max <? count)%Z then 100 else count.

(** The rows of a page and the number of all. *)
Definition list_page {V} (e : env) (key : V → Z) (p : string → V → bool) (m : gmap string V)
    (startIndex count : Z) : result string (list (string * V) * nat) :=
  let rows := select (e_ro e) p m in
  if e_ok e 0 && e_ok e 1
  then Ok (page key (Z.to_nat count) (Z.to_nat (startIndex - 1)) rows, length rows)
  else Err "scim list".

Definition matches (filter : string) (email name : string) : bool :=
  bool_decide (filter = "") || ilike email ("%" +:+ filter +:+ "%") || ilike name ("%" +:+ filter +:+ "%").

Definition ListAdminUsers (e : env) (db : DB) (filter : string) (startIndex count : Z)
  : result string (list SCIMUser * nat) :=
  match list_page e a_created (λ _ r, matches filter (a_email r) (a_name r)) (admins db)
          (clamp_start startIndex) (clamp_count 200 count) with
  | Ok (rows, total) => Ok (map (uncurry scan_admin) rows, total)
  | Err x => Err x
  end.

(** ** Endpoint users *)

Definition or_else (s d : string) : string := if bool_decide (s = "") then d else s.

Definition normalizeClientUserStatusFields (u : SCIMUser) : SCIMUser :=
  let status := or_else (Status u) "active" in
  mkUser (ID u) (OrgID u) (Email u) (Name u) (Department u) (Title u) status
    (or_else (StatusReason u)
       (if bool_decide (status = "suspended") then "SCIM active=false from identity provider"
        else "SCIM active=true from identity provider"))
    (or_else (StatusSource u) "scim") (StatusUpdatedAt u) (or_else (StatusUpdatedBy u) "scim")
    (SCIMExternalID u) (IdPID u) (OAuthProvider u) (OAuthSubject u) (CreatedAt u) (UpdatedAt u).

(** The row must refer to an existing endpoint user and organization. *)
Definition logClientUserStatusEvent (ok : bool) (t : Z) (db : DB)
    (orgID userID previousStatus newStatus reason source actorID : string) : DB :=
  if ok && bool_decide (is_Some (clients db !! userID)) && bool_decide (orgID ∈ organizations db)
     && fits 20 previousStatus && fits 20 newStatus && fits 40 source && fits 255 actorID
  then with_events db (events db ++ [mkEvent orgID userID previousStatus newStatus reason source actorID t])
  else db.

Definition CreateClientUser (e : env) (db : DB) (u : SCIMUser) : DB * result string SCIMUser :=
  let u := normalizeClientUserStatusFields u in
  let id := new_id e in
  let r := mkClient (OrgID u) (Email u) (Name u) (nilIfEmpty (Department u)) (nilIfEmpty (Title u))
             (nilIfEmpty (OAuthProvider u)) (nilIfEmpty (OAuthSubject u)) (nilIfEmpty (SCIMExternalID u))
             (nilIfEmpty (IdPID u)) (Status u) (nilIfEmpty (StatusReason u)) (nilIfEmpty (StatusSource u))
             (Some (now e)) (nilIfEmpty (StatusUpdatedBy u)) None (now e) (now e) in
  if e_ok e 0 && bool_decide (clients db !! id = None) && client_writable db id r
  then
    let created := scan_client id r in
    let db := with_clients db (<[id := r]> (clients db)) in
    (logClientUserStatusEvent (e_ok e 1) (now e) db (OrgID created) id "" (Status created) (StatusReason created)
       (StatusSource created) (StatusUpdatedBy created), Ok created)
  else (db, Err "scim create client user").

Definition GetClientUserBySCIMID (e : env) (db : DB) (externalID : string) : result string (option SCIMUser) :=
  if e_ok e 0 then
    Ok (uncurry scan_client <$> head (select (e_ro e) (λ _ r, bool_decide (c_ext r = Some externalID)) (clients db)))
  else Err "scim get client user".

Definition GetClientUser (e : env) (i : nat) (db : DB) (id : string) : result string (option SCIMUser) :=
  if e_ok e i then Ok (scan_client id <$> clients db !! id) else Err "scim get client user".

Definition set_client (t : Z) (u : SCIMUser) (r : client_row) : client_row :=
  mkClient (c_org r) (Email u) (Name u) (nilIfEmpty (Department u)) (nilIfEmpty (Title u)) (c_provider r)
    (c_subject r) (nilIfEmpty (SCIMExternalID u)) (c_idp r) (Status u) (nilIfEmpty (StatusReason u))
    (nilIfEmpty (StatusSource u)) (Some t) (nilIfEmpty (StatusUpdatedBy u)) (c_login r) (c_created r) t.

(** The read, the update and the event are statements [i], [i+1] and [i+2]. *)
Definition UpdateClientUser (e : env) (i : nat) (db : DB) (id : string) (u : SCIMUser)
  : DB * result string SCIMUser :=
  match GetClientUser e i db id with
  | Err x => (db, Err x)
  | Ok None => (db, Err "client user not found")
  | Ok (Some existing) =>
      let u := normalizeClientUserStatusFields u in
      if negb (e_ok e (i + 1)) then (db, Err "scim update client user")
      else
        match clients db !! id with
        | None => (db, Err "client user not found")
        | Some r =>
            let r := set_client (now e) u r in
            if client_writable db id r then
              let updated := scan_client id r in
              let db := with_clients db (<[id := r]> (clients db)) in
              let db :=
                if negb (bool_decide (Status existing = Status updated))
                   || negb (bool_decide (StatusReason existing = StatusReason updated))
                   || negb (bool_decide (StatusSource existing = StatusSource updated))
                then logClientUserStatusEvent (e_ok e (i + 2)) (now e) db (OrgID updated) id (Status existing)
                       (Status updated) (StatusReason updated) (StatusSource updated) (StatusUpdatedBy updated)
                else db in
              (db, Ok updated)
            else (db, Err "scim update client user")
        end
  end.

Definition DeleteClientUser (e : env) (db : DB) (id : string) : DB * result string unit :=
  if negb (e_ok e 0) then (db, Err "scim delete client user")
  else
    match clients db !! id with
    | None => (db, Err "client user not found")
    | Some _ =>
        (with_events
           (with_members (with_clients db (delete id (clients db))) (admin_groups db) (drop_member id (client_groups db)))
           (filter (λ ev, ev_UserID ev ≠ id) (events db)), Ok tt)
    end.

Definition ListClientUsers (e : env) (db : DB) (orgID filter : string) (startIndex count : Z)
  : result string (list SCIMUser * nat) :=
  match list_page e c_created (λ _ r, bool_decide (c_org r = orgID) && matches filter (c_email r) (c_name r))
          (clients db) (clamp_start startIndex) (clamp_count 200 count) with
  | Ok (rows, total) => Ok (map (uncurry scan_client) rows, total)
  | Err x => Err x
  end.

Definition set_login (t : Z) (r : client_row) : client_row :=
  mkClient (c_org r) (c_email r) (c_name r) (c_department r) (c_title r) (c_provider r) (c_subject r) (c_ext r)
    (c_idp r) (c_status r) (c_reason r) (c_source r) (c_status_at r) (c_by r) (Some t) (c_created r) (c_updated r).
Definition set_link (provider subject : string) (t : Z) (r : client_row) : client_row :=
  mkClient (c_org r) (c_email r) (c_name r) (c_department r) (c_title r) (Some provider) (Some subject) (c_ext r)
    (c_idp r) (c_status r) (c_reason r) (c_source r) (c_status_at r) (c_by r) (Some t) (c_created r) (c_updated r).

Definition touch_client (ok : bool) (t : Z) (db : DB) (id : string) : DB :=
  if ok then with_clients db (alter (set_login t) id (clients db)) else db.

(** The statement that links an account; it fails when the link is taken. *)
Definition link_client (ok : bool) (t : Z) (db : DB) (id provider subject : string) : DB * bool :=
  match clients db !! id with
  | None => (db, ok)
  | Some r =>
      let r := set_link provider subject t r in
      if ok && client_writable db id r then (with_clients db (<[id := r]> (clients db)), true) else (db, false)
  end.

Definition with_link (provider subject : string) (u : SCIMUser) : SCIMUser :=
  mkUser (ID u) (OrgID u) (Email u) (Name u) (Department u) (Title u) (Status u) (StatusReason u) (StatusSource u)
    (StatusUpdatedAt u) (StatusUpdatedBy u) (SCIMExternalID u) (IdPID u) provider subject (CreatedAt u) (UpdatedAt u).

Definition by_link (provider subject : string) (r : client_row) : bool :=
  bool_decide (c_provider r = Some provider) && bool_decide (c_subject r = Some subject).

(** The boolean tells whether the account is new. *)
Definition FindOrCreateClientUser (e : env) (db : DB) (provider subject email name orgID : string)
  : DB * result string (SCIMUser * bool) :=
  match (if e_ok e 0 then head (select (e_ro e) (λ _ r, by_link provider subject r) (clients db)) else None) with
  | Some (id, r) => (touch_client (e_ok e 1) (now e) db id, Ok (scan_client id r, false))
  | None =>
      match (if e_ok e 2 then head (select (e_ro e) (λ _ r, bool_decide (c_email r = email)) (clients db)) else None) with
      | Some (id, r) =>
          let '(db, _) := link_client (e_ok e 3) (now e) db id provider subject in
          (db, Ok (with_link provider subject (scan_client id r), false))
      | None =>
          let resolved :=
            if negb (bool_decide (orgID = "")) then orgID
            else if e_ok e 4 then default "" (head (elements (organizations db))) else "" in
          if bool_decide (resolved = "") then (db, Err "no organization found for auto-provisioning")
          else
            let id := new_id e in
            let r := mkClient resolved email name None None (Some provider) (Some subject) None None "active" None
                       (Some "scim") None None (Some (now e)) (now e) (now e) in
            if e_ok e 5 && bool_decide (clients db !! id = None) && client_writable db id r
            then (with_clients db (<[id := r]> (clients db)), Ok (scan_client id r, true))
            else (db, Err "auto-provision client user failed")
      end
  end.

(** The row with the link comes first. *)
Definition FindAndLinkProvisionedClientUser (e : env) (db : DB) (provider subject email orgID : string)
  : DB * result string SCIMUser :=
  if negb (e_ok e 0) then (db, Err "find provisioned client user")
  else
    let found p := head (select (e_ro e) (λ _ r, bool_decide (c_org r = orgID) && p r) (clients db)) in
    match (match found (by_link provider subject) with
           | Some x => Some x
           | None => found (λ r, bool_decide (ToLower (c_email r) = ToLower email))
           end) with
    | None => (db, Err "user is not provisioned for the ApexAegis user portal")
    | Some (id, r) =>
        let u := scan_client id r in
        if negb (bool_decide (OAuthProvider u = provider)) || negb (bool_decide (OAuthSubject u = subject))
        then
          let '(db, linked) := link_client (e_ok e 1) (now e) db id provider subject in
          if linked then (db, Ok (with_link provider subject u)) else (db, Err "link provisioned client user")
        else (touch_client (e_ok e 1) (now e) db id, Ok u)
    end.

Definition set_status (t : Z) (actorID : option string) (reason : string) (r : client_row) : client_row :=
  mkClient (c_org r) (c_email r) (c_name r) (c_department r) (c_title r) (c_provider r) (c_subject r) (c_ext r)
    (c_idp r) "active" (Some reason) (Some "admin_override") (Some t) actorID (c_login r) (c_created r) t.

Definition ReactivateClientUser (e : env) (db : DB) (orgID id actorID reason : string) : DB * result string SCIMUser :=
  match GetClientUser e 0 db id with
  | Err x => (db, Err x)
  | Ok None => (db, Err "client user not found")
  | Ok (Some existing) =>
      if negb (bool_decide (OrgID existing = orgID)) then (db, Err "client user not found")
      else if bool_decide (Status existing = "active") then (db, Ok existing)
      else if bool_decide (StatusSource existing = "idp_policy")
      then (db, Err "cannot locally reactivate an IdP policy suspension")
      else
        let reason := or_else reason "Administrator reactivated user after verification" in
        match clients db !! id with
        | None => (db, Err "client user not found")
        | Some r =>
            let r := set_status (now e) (nilIfEmpty actorID) reason r in
            if e_ok e 1 && client_writable db id r then
              let updated := scan_client id r in
              let db := with_clients db (<[id := r]> (clients db)) in
              (logClientUserStatusEvent (e_ok e 2) (now e) db (OrgID updated) id (Status existing) (Status updated)
                 (StatusReason updated) (StatusSource updated) actorID, Ok updated)
            else (db, Err "reactivate client user")
        end
  end.

(** Newest first; events of one instant in some order. *)
Definition ListClientUserStatusEvents (ok : bool) (db : DB) (orgID userID : string) (limit : Z)
  : result string (list ClientUserStatusEvent) :=
  let limit := if (limit <? 1)%Z || (100 <? limit)%Z then 25%Z else limit in
  if ok then
    Ok (take (Z.to_nat limit)
          (map snd (newest ev_CreatedAt
             (map (pair "") (List.filter (λ ev, bool_decide (ev_OrgID ev = orgID) && bool_decide (ev_UserID ev = userID))
                               (reverse (events db)))))))
  else Err "list client user status events".

(** ** Groups *)

Definition getGroupMembers (ok : bool) (db : DB) (groupID : string) : result string (list string) :=
  if ok then
    Ok (map fst (elements (filter (λ p, snd p = groupID) (admin_groups db)))
        ++ map fst (elements (filter (λ p, snd p = groupID) (client_groups db))))
  else Err "get group members".

Definition scan_group (id : string) (r : group_row) (members : list string) : SCIMGroup :=
  mkGroup id (r_org r) (r_name r) (default "" (r_ext r)) (default "" (r_idp r)) (r_source r) false members
    (Some (r_created r)) (Some (r_updated r)).

Definition CreateGroup (e : env) (i : nat) (db : DB) (g : SCIMGroup) : DB * result string SCIMGroup :=
  let r := mkGroupRow (g_OrgID g) (DisplayName g) (nilIfEmpty (ExternalID g)) (nilIfEmpty (g_IdPID g)) (Source g)
             false (now e) (now e) in
  if e_ok e i && bool_decide (groups db !! new_id e = None) && group_writable db (new_id e) r
  then (with_groups db (<[new_id e := r]> (groups db)), Ok (scan_group (new_id e) r []))
  else (db, Err "scim create group").

(** A row with its members. *)
Definition load_group (ok : bool) (db : DB) (id : string) (r : group_row) : result string SCIMGroup :=
  match getGroupMembers ok db id with Ok l => Ok (scan_group id r l) | Err x => Err x end.

Definition GetGroup (e : env) (i : nat) (db : DB) (id : string) : result string (option SCIMGroup) :=
  if negb (e_ok e i) then Err "scim get group"
  else
    match groups db !! id with
    | None => Ok None
    | Some r => match load_group (e_ok e (i + 1)) db id r with Ok g => Ok (Some g) | Err x => Err x end
    end.

Definition GetGroupBySCIMID (e : env) (db : DB) (externalID : string) : result string (option SCIMGroup) :=
  if negb (e_ok e 0) then Err "scim get group by ext"
  else
    match head (select (e_ro e) (λ _ r, bool_decide (r_ext r = Some externalID)) (groups db)) with
    | None => Ok None
    | Some (id, r) => match load_group (e_ok e 1) db id r with Ok g => Ok (Some g) | Err x => Err x end
    end.

(** An update of the row [id] with the members read back. *)
Definition update_group (e : env) (i : nat) (db : DB) (id : string) (p : group_row → bool) (f : group_row → group_row)
  : DB * result string SCIMGroup :=
  if negb (e_ok e i) then (db, Err "scim update group")
  else
    match groups db !! id with
    | None => (db, Err "group not found")
    | Some r =>
        if negb (p r) then (db, Err "group not found")
        else if group_writable db id (f r)
        then (with_groups db (<[id := f r]> (groups db)), load_group (e_ok e (i + 1)) db id (f r))
        else (db, Err "scim update group")
    end.

Definition set_group (t : Z) (g : SCIMGroup) (r : group_row) : group_row :=
  mkGroupRow (r_org r) (DisplayName g) (nilIfEmpty (ExternalID g)) (r_idp r) (r_source r) (r_import r) (r_created r) t.
Definition UpdateGroup (e : env) (i : nat) (db : DB) (id : string) (g : SCIMGroup) : DB * result string SCIMGroup :=
  update_group e i db id (λ _, true) (set_group (now e) g).

Definition set_name (t : Z) (displayName : string) (r : group_row) : group_row :=
  mkGroupRow (r_org r) displayName (r_ext r) (r_idp r) (r_source r) (r_import r) (r_created r) t.
Definition UpdateGroupForOrg (e : env) (db : DB) (orgID id displayName : string) : DB * result string SCIMGroup :=
  update_group e 0 db id (λ r, bool_decide (r_org r = orgID)) (set_name (now e) displayName).

(** A deletion takes the memberships along. *)
Definition delete_group (ok : bool) (db : DB) (id : string) (p : group_row → bool) : DB * result string unit :=
  if negb ok then (db, Err "scim delete group")
  else
    match groups db !! id with
    | None => (db, Err "group not found")
    | Some r =>
        if p r then
          (with_members (with_groups db (delete id (groups db))) (drop_group id (admin_groups db))
             (drop_group id (client_groups db)), Ok tt)
        else (db, Err "group not found")
    end.
Definition DeleteGroup (e : env) (db : DB) (id : string) : DB * result string unit :=
  delete_group (e_ok e 0) db id (λ _, true).
Definition DeleteGroupForOrg (e : env) (db : DB) (orgID id : string) : DB * result string unit :=
  delete_group (e_ok e 0) db id (λ r, bool_decide (r_org r = orgID)).

(** The members of the [k]-th listed group are statement [2 + k]. *)
Fixpoint load_groups (e : env) (k : nat) (db : DB) (imported : bool) (rows : list (string * group_row))
  : result string (list SCIMGroup) :=
  match rows with
  | [] => Ok []
  | (id, r) :: rows =>
      match load_group (e_ok e (2 + k)) db id r with
      | Err x => Err x
      | Ok g =>
          let g := mkGroup (g_ID g) (g_OrgID g) (DisplayName g) (ExternalID g) (g_IdPID g) (Source g)
                     (imported && r_import r) (Members g) (g_CreatedAt g) (g_UpdatedAt g) in
          match load_groups e (S k) db imported rows with Ok l => Ok (g :: l) | Err x => Err x end
      end
  end.

Definition list_groups (e : env) (db : DB) (imported : bool) (p : group_row → bool) (filter : string)
    (startIndex count : Z) : result string (list SCIMGroup * nat) :=
  match list_page e r_created
          (λ _ r, p r && (bool_decide (filter = "") || ilike (r_name r) ("%" +:+ filter +:+ "%"))) (groups db)
          startIndex count with
  | Ok (rows, total) => match load_groups e 0 db imported rows with Ok l => Ok (l, total) | Err x => Err x end
  | Err x => Err x
  end.
Definition ListGroups (e : env) (db : DB) (filter : string) (startIndex count : Z) : result string (list SCIMGroup * nat) :=
  list_groups e db false (λ _, true) filter (clamp_start startIndex) (clamp_count 200 count).
Definition ListGroupsForOrg (e : env) (db : DB) (orgID filter : string) (startIndex count : Z)
  : result string (list SCIMGroup * nat) :=
  if bool_decide (orgID = "") then Err "orgID is required"
  else list_groups e db true (λ r, bool_decide (r_org r = orgID)) filter (clamp_start startIndex) (clamp_count 500 count).

Definition set_import (t : Z) (b : bool) (r : group_row) : group_row :=
  mkGroupRow (r_org r) (r_name r) (r_ext r) (r_idp r) (r_source r) b (r_created r) t.
Definition SetGroupImportEnabled (e : env) (db : DB) (orgID id : string) (enabled : bool) : DB * result string unit :=
  if negb (e_ok e 0) then (db, Err "set import_enabled")
  else
    match groups db !! id with
    | Some r =>
        if bool_decide (r_org r = orgID) && bool_decide (r_source r = "ldap")
        then (with_groups db (<[id := set_import (now e) enabled r]> (groups db)), Ok tt)
        else (db, Err "group not found or not a directory (ldap) group")
    | None => (db, Err "group not found or not a directory (ldap) group")
    end.

(** Statements [i], [i+1], ...: one or two per identifier. *)
Fixpoint classify (e : env) (i : nat) (db : DB) (orgID : string) (seen : gset string) (ids : list string)
  : result string (list string * list string) :=
  match ids with
  | [] => Ok ([], [])
  | id :: ids =>
      if bool_decide (id = "") || bool_decide (id ∈ seen) then classify e i db orgID seen ids
      else
        let seen := {[id]} ∪ seen in
        if negb (e_ok e i) then Err "classify admin group member"
        else if bool_decide (a_org <$> admins db !! id = Some orgID) then
          match classify e (i + 1) db orgID seen ids with Ok (a, c) => Ok (id :: a, c) | Err x => Err x end
        else if negb (e_ok e (i + 1)) then Err "classify client group member"
        else if bool_decide (c_org <$> clients db !! id = Some orgID) then
          match classify e (i + 2) db orgID seen ids with Ok (a, c) => Ok (a, id :: c) | Err x => Err x end
        else Err ("group member " +:+ id +:+ " was not found in this tenant")
  end.
Definition ClassifyGroupMemberIDs (e : env) (i : nat) (db : DB) (orgID : string) (memberIDs : list string)
  : result string (list string * list string) := classify e i db orgID ∅ memberIDs.

(** Inserting memberships: [exists_] is the foreign key on the users. *)
Fixpoint insert_members (ok : nat → bool) (i : nat) (exists_ : string → bool) (groupOK : bool) (groupID : string)
    (m : gset (string * string)) (ids : list string) : option (gset (string * string)) :=
  match ids with
  | [] => Some m
  | id :: ids =>
      if ok i && exists_ id && groupOK
      then insert_members ok (S i) exists_ groupOK groupID ({[(id, groupID)]} ∪ m) ids
      else None
  end.

(** One transaction: [i] begins it, then the two deletions, the insertions and the commit. *)
Definition SetGroupMembers (e : env) (i : nat) (db : DB) (groupID : string) (adminIDs clientIDs : list string)
  : DB * result string unit :=
  if negb (e_ok e i) then (db, Err "scim set members tx")
  else if negb (e_ok e (i + 1)) then (db, Err "clear admin groups")
  else if negb (e_ok e (i + 2)) then (db, Err "clear client groups")
  else
    let ag := drop_group groupID (admin_groups db) in
    let cg := drop_group groupID (client_groups db) in
    let g := bool_decide (is_Some (groups db !! groupID)) in
    let ia := i + 3 in
    let ic := ia + length adminIDs in
    match insert_members (e_ok e) ia (λ u, bool_decide (is_Some (admins db !! u))) g groupID ag adminIDs with
    | None => (db, Err "add admin member")
    | Some ag =>
        match insert_members (e_ok e) ic (λ u, bool_decide (is_Some (clients db !! u))) g groupID cg clientIDs with
        | None => (db, Err "add client member")
        | Some cg => if e_ok e (ic + length clientIDs) then (with_members db ag cg, Ok tt) else (db, Err "commit")
        end
    end.

(** The statements of the three calls are numbered by their positions. *)
Definition SetGroupMemberIDs (e : env) (db : DB) (groupID : string) (memberIDs : list string) : DB * result string unit :=
  match GetGroup e 0 db groupID with
  | Err x => (db, Err x)
  | Ok None => (db, Err "group not found")
  | Ok (Some g) =>
      match ClassifyGroupMemberIDs e 2 db (g_OrgID g) memberIDs with
      | Err x => (db, Err x)
      | Ok (a, c) => SetGroupMembers e (2 + 2 * length memberIDs) db groupID a c
      end
  end.

Definition ValidateSCIMToken (ok : bool) (db : DB) (token : string) : result string string :=
  if negb ok then Err "scim token validation"
  else
    match List.filter (λ r, bool_decide (i_hash r = Some (hashSCIMToken token)) && i_enabled r) (idps db) with
    | r :: _ => Ok (i_org r)
    | [] => Err "invalid SCIM bearer token"
    end.

End Store.
(** ** Steps of the store

    [upd] restricts the endpoint users that the identity provider updates or deletes, and
    [good] the environments. *)
Section Steps.
Context (ilike : string → string → bool) (upd : string → Prop) (good : env → Prop).

Inductive step (db : DB) : DB → Prop :=
| s_create_admin e u : good e → step db (CreateAdminUser e db u).1
| s_update_admin e i id u : good e → step db (UpdateAdminUser e i db id u).1
| s_delete_admin e id : good e → step db (DeleteAdminUser e db id).1
| s_create_client e u : good e → step db (CreateClientUser e db u).1
| s_update_client e i id u : good e → upd id → step db (UpdateClientUser e i db id u).1
| s_delete_client e id : good e → upd id → step db (DeleteClientUser e db id).1
| s_find_or_create e p s em n o : good e → step db (FindOrCreateClientUser e db p s em n o).1
| s_find_and_link e p s em o : good e → step db (FindAndLinkProvisionedClientUser e db p s em o).1
| s_reactivate e o id a r : good e → step db (ReactivateClientUser e db o id a r).1
| s_create_group e i g : good e → step db (CreateGroup e i db g).1
| s_update_group e i id g : good e → step db (UpdateGroup e i db id g).1
| s_rename_group e o id n : good e → step db (UpdateGroupForOrg e db o id n).1
| s_delete_group e id : good e → step db (DeleteGroup e db id).1
| s_delete_group_org e o id : good e → step db (DeleteGroupForOrg e db o id).1
| s_import e o id b : good e → step db (SetGroupImportEnabled e db o id b).1
| s_members e e' i j g r ids a c :
    good e → groups db !! g = Some r → ClassifyGroupMemberIDs e' j db (r_org r) ids = Ok (a, c) →
    step db (SetGroupMembers e i db g a c).1.

End Steps.

(** What a change keeps: rows that stay keep their organization, memberships that stay are
    of rows that stay. *)
Definition keeps {V} (org : V → string) (m m' : gmap string V) (id : string) : Prop :=
  ∀ v, m !! id = Some v → ∃ v', m' !! id = Some v' ∧ org v' = org v.

Lemma keeps_refl {V} (org : V → string) m id : keeps org m m id.
Proof. intros v Hv. eauto. Qed.
Lemma keeps_insert {V} (org : V → string) (m : gmap string V) k v id :
  (∀ v0, m !! k = Some v0 → org v = org v0) → keeps org m (<[k := v]> m) id.
Proof.
  intros Hk v0 Hv0. destruct (decide (id = k)) as [->|Hne].
  - exists v. split; [by rewrite lookup_insert_eq|]. by apply Hk.
  - exists v0. by rewrite lookup_insert_ne.
Qed.
Lemma keeps_delete {V} (org : V → string) (m : gmap string V) k id : id ≠ k → keeps org m (delete k m) id.
Proof. intros Hne v Hv. exists v. by rewrite lookup_delete_ne. Qed.
Lemma keeps_alter {V} (org : V → string) (m : gmap string V) f k id :
  (∀ v, org (f v) = org v) → keeps org m (alter f k m) id.
Proof.
  intros Hf v Hv. rewrite lookup_alter. case_decide; [subst; rewrite Hv; cbn; eauto|eauto].
Qed.
#[local] Hint Resolve keeps_refl : core.

(** Memberships are of existing users and groups of one tenant. *)
Definition tenancy (db : DB) : Prop :=
  (∀ u g, (u, g) ∈ admin_groups db →
     ∃ a r, admins db !! u = Some a ∧ groups db !! g = Some r ∧ a_org a = r_org r)
  ∧ (∀ u g, (u, g) ∈ client_groups db →
     ∃ c r, clients db !! u = Some c ∧ groups db !! g = Some r ∧ c_org c = r_org r).

Lemma tenancy_keeps db db' :
  tenancy db →
  (∀ u g, (u, g) ∈ admin_groups db' →
     (u, g) ∈ admin_groups db ∧ keeps a_org (admins db) (admins db') u ∧ keeps r_org (groups db) (groups db') g) →
  (∀ u g, (u, g) ∈ client_groups db' →
     (u, g) ∈ client_groups db ∧ keeps c_org (clients db) (clients db') u ∧ keeps r_org (groups db) (groups db') g) →
  tenancy db'.
Proof.
  intros [Ha Hc] Ka Kc. split; intros u g Hug.
  - destruct (Ka _ _ Hug) as (Hold & Ku & Kg). destruct (Ha _ _ Hold) as (a & r & H1 & H2 & H3).
    destruct (Ku _ H1) as (a' & ? & ?), (Kg _ H2) as (r' & ? & ?). exists a', r'. split_and!; congruence.
  - destruct (Kc _ _ Hug) as (Hold & Ku & Kg). destruct (Hc _ _ Hold) as (a & r & H1 & H2 & H3).
    destruct (Ku _ H1) as (a' & ? & ?), (Kg _ H2) as (r' & ? & ?). exists a', r'. split_and!; congruence.
Qed.

Lemma tenancy_admins db m : tenancy db → (∀ u, keeps a_org (admins db) m u) → tenancy (with_admins db m).
Proof. intros Ht Hk. apply (tenancy_keeps db); [done|..]; intros u g Hug; auto. Qed.
Lemma tenancy_clients db m : tenancy db → (∀ u, keeps c_org (clients db) m u) → tenancy (with_clients db m).
Proof. intros Ht Hk. apply (tenancy_keeps db); [done|..]; intros u g Hug; auto. Qed.
Lemma tenancy_groups db m : tenancy db → (∀ u, keeps r_org (groups db) m u) → tenancy (with_groups db m).
Proof. intros Ht Hk. apply (tenancy_keeps db); [done|..]; intros u g Hug; auto. Qed.
Lemma tenancy_events db l : tenancy db → tenancy (with_events db l).
Proof. done. Qed.
Lemma tenancy_log b t db o u p n r s a : tenancy db → tenancy (logClientUserStatusEvent b t db o u p n r s a).
Proof. unfold logClientUserStatusEvent. by case_match. Qed.

Lemma insert_members_spec ok i ex gk g m ids m' :
  insert_members ok i ex gk g m ids = Some m' →
  (ids ≠ [] → gk = true) ∧ (∀ u, u ∈ ids → ex u = true)
  ∧ ∀ p, p ∈ m' ↔ p ∈ m ∨ (snd p = g ∧ fst p ∈ ids).
Proof.
  revert i m. induction ids as [|id ids IH]; intros i m; cbn.
  - intros [= <-]. split; [done|]. split; [set_solver|]. set_solver.
  - destruct (ok i && ex id && gk) eqn:E; [|done]. intros (_ & Hx & Hm)%IH.
    apply andb_true_iff in E as [[_ He]%andb_true_iff Hg]. split; [done|]. split.
    + intros u [->|Hu]%elem_of_cons; auto.
    + intros [u g']. rewrite Hm, elem_of_union, elem_of_singleton, elem_of_cons. cbn. split.
      * intros [[[= -> ->]|?]|[? ?]]; auto.
      * intros [?|[-> [->|?]]]; auto.
Qed.

Lemma classify_spec e i db o seen ids a c :
  classify e i db o seen ids = Ok (a, c) →
  (∀ u, u ∈ a → a_org <$> admins db !! u = Some o) ∧ (∀ u, u ∈ c → c_org <$> clients db !! u = Some o)
  ∧ (∀ u, u ∈ a ∨ u ∈ c ↔ u ∈ ids ∧ u ≠ "" ∧ u ∉ seen) ∧ NoDup (a ++ c).
Proof.
  revert i seen a c. induction ids as [|id ids IH]; intros i seen a c; cbn [classify].
  { intros [= <- <-]. split_and!; try set_solver. constructor. }
  destruct (bool_decide (id = "") || _) eqn:Hskip.
  { intros (H1 & H2 & H3 & H4)%IH. split_and!; [done|done| |done]. intros u. rewrite H3.
    apply orb_true_iff in Hskip as [->%bool_decide_eq_true|Hs%bool_decide_eq_true]; set_solver. }
  apply orb_false_iff in Hskip as [Hne%bool_decide_eq_false Hs%bool_decide_eq_false].
  destruct (e_ok e i); [|done]. cbn [negb].
  destruct (bool_decide_reflect (a_org <$> admins db !! id = Some o)) as [Ha|_].
  { destruct (classify e (i + 1) db o _ ids) as [[a' c']|] eqn:E; [|done]. intros [= <- <-].
    apply IH in E as (H1 & H2 & H3 & H4). split_and!; [set_solver|done| |].
    - intros u. rewrite elem_of_cons. specialize (H3 u). destruct (decide (u = id)); set_solver.
    - cbn. constructor; [|done]. rewrite elem_of_app. rewrite H3. set_solver. }
  destruct (e_ok e (i + 1)); [|done]. cbn [negb].
  destruct (bool_decide_reflect (c_org <$> clients db !! id = Some o)) as [Hc|_]; [|done].
  destruct (classify e (i + 2) db o _ ids) as [[a' c']|] eqn:E; [|done]. intros [= <- <-].
  apply IH in E as (H1 & H2 & H3 & H4). split_and!; [done|set_solver| |].
  - intros u. rewrite elem_of_cons. specialize (H3 u). destruct (decide (u = id)); set_solver.
  - rewrite <- Permutation_middle. constructor; [|done]. rewrite elem_of_app, H3. set_solver.
Qed.

Lemma link_client_tenancy b t db id p s : tenancy db → tenancy (link_client b t db id p s).1.
Proof.
  intros Ht. unfold link_client. destruct (clients db !! id) as [r|] eqn:Hr; [|done].
  case_match; [|done]. apply tenancy_clients; [done|]. intros u. apply keeps_insert. intros r0 Hr0. by simplify_eq.
Qed.
Lemma touch_client_tenancy b t db id : tenancy db → tenancy (touch_client b t db id).
Proof.
  intros Ht. unfold touch_client. destruct b; [|done]. apply tenancy_clients; [done|]. intros u. by apply keeps_alter.
Qed.

Lemma update_group_tenancy e i db id p f :
  (∀ r, r_org (f r) = r_org r) → tenancy db → tenancy (update_group e i db id p f).1.
Proof.
  intros Hf Ht. unfold update_group. case_match; [done|]. destruct (groups db !! id) as [r|] eqn:Hr; [|done].
  repeat case_match; try done. apply tenancy_groups; [done|]. intros u. apply keeps_insert. intros r0 Hr0.
  simplify_eq. apply Hf.
Qed.

Lemma delete_group_tenancy ok db id p : tenancy db → tenancy (delete_group ok db id p).1.
Proof.
  intros Ht. unfold delete_group. repeat case_match; try done. cbn [fst].
  apply (tenancy_keeps db); [done|..]; intros u gr [Hne Hug]%elem_of_filter; (split; [done|]; split; [auto|]);
    by apply keeps_delete.
Qed.

Lemma SetGroupMembers_tenancy e e' i j db g r ids a c :
  tenancy db → groups db !! g = Some r → ClassifyGroupMemberIDs e' j db (r_org r) ids = Ok (a, c) →
  tenancy (SetGroupMembers e i db g a c).1.
Proof.
  intros [Ha Hc] Hg (Hca & Hcc & _)%classify_spec. unfold SetGroupMembers.
  destruct (e_ok e i), (e_ok e (i + 1)), (e_ok e (i + 2)); cbn [negb fst]; try done.
  destruct (insert_members _ _ _ _ _ _ a) as [ag|] eqn:Eag; [|done].
  destruct (insert_members _ _ _ _ _ _ c) as [cg|] eqn:Ecg; [|done].
  apply insert_members_spec in Eag as (_ & _ & Hag). apply insert_members_spec in Ecg as (_ & _ & Hcg).
  destruct (e_ok e _); [|done]. cbn [fst]. split; intros u g'.
  - cbn. rewrite Hag. intros [[_ Hin]%elem_of_filter|[Heq Hin]]; [by apply Ha|]. cbn in *. subst g'.
    apply Hca, fmap_Some in Hin as (x & Hx & Ho). eauto.
  - cbn. rewrite Hcg. intros [[_ Hin]%elem_of_filter|[Heq Hin]]; [by apply Hc|]. cbn in *. subst g'.
    apply Hcc, fmap_Some in Hin as (x & Hx & Ho). eauto.
Qed.

Lemma step_tenancy upd good db db' : step upd good db db' → tenancy db → tenancy db'.
Proof.
  intros Hs Ht. destruct Hs.
  - unfold CreateAdminUser. case_match; [|done]. apply tenancy_admins; [done|]. intros x. apply keeps_insert.
    intros v Hv. apply andb_true_iff in H0 as [[_ Hn%bool_decide_eq_true]%andb_true_iff _]. congruence.
  - unfold UpdateAdminUser. repeat case_match; try done. apply tenancy_admins; [done|]. intros x. apply keeps_insert.
    intros v Hv. by simplify_eq.
  - unfold DeleteAdminUser. repeat case_match; try done. cbn [fst].
    apply (tenancy_keeps db); [done|..]; intros u0 gr.
    + intros [Hne Hug]%elem_of_filter. split; [done|]. split; [by apply keeps_delete|auto].
    + auto.
  - unfold CreateClientUser. case_match; [|done]. cbn [fst]. apply tenancy_log, tenancy_clients; [done|]. intros x.
    apply keeps_insert. intros v Hv. apply andb_true_iff in H0 as [[_ Hn%bool_decide_eq_true]%andb_true_iff _]. congruence.
  - unfold UpdateClientUser. destruct (GetClientUser e i db id) as [[ex|]|]; try done.
    destruct (negb _); [done|]. destruct (clients db !! id) as [r|] eqn:Hr; [|done].
    destruct (client_writable _ _ _); [|done]. cbn [fst].
    match goal with |- tenancy (if ?b then _ else _) => destruct b end; [apply tenancy_log|];
      (apply tenancy_clients; [done|]; intros x; apply keeps_insert; intros v Hv; by simplify_eq).
  - unfold DeleteClientUser. repeat case_match; try done. cbn [fst]. apply tenancy_events.
    apply (tenancy_keeps db); [done|..]; intros u0 gr; [by auto|].
    intros [Hne Hug]%elem_of_filter. split; [done|]. split; [by apply keeps_delete|auto].
  - unfold FindOrCreateClientUser. destruct (if e_ok e 0 then _ else None) as [[k r]|]; [by apply touch_client_tenancy|].
    destruct (if e_ok e 2 then _ else None) as [[k r]|].
    { pose proof (link_client_tenancy (e_ok e 3) (now e) db k p s Ht). by destruct (link_client _ _ _ _ _ _). }
    match goal with |- context [if negb (bool_decide (o = "")) then ?x else ?y] =>
      generalize (if negb (bool_decide (o = "")) then x else y); intros org end.
    case_match; [done|]. destruct (e_ok e 5 && _ && _) eqn:Hok; [|done]. apply tenancy_clients; [done|].
    intros x. apply keeps_insert.
    intros v Hv. apply andb_true_iff in Hok as [[_ Hn%bool_decide_eq_true]%andb_true_iff _]. congruence.
  - unfold FindAndLinkProvisionedClientUser. case_match; [done|].
    destruct (match head _ with Some _ => _ | None => _ end) as [[k r]|]; [|done].
    case_match; [|by apply touch_client_tenancy].
    pose proof (link_client_tenancy (e_ok e 1) (now e) db k p s Ht). destruct (link_client _ _ _ _ _ _) as [d b].
    by destruct b.
  - unfold ReactivateClientUser. destruct (GetClientUser e 0 db id) as [[ex|]|]; try done.
    repeat case_match; try done; cbn [fst]. apply tenancy_log, tenancy_clients; [done|]. intros x. apply keeps_insert.
    intros v Hv. by simplify_eq.
  - unfold CreateGroup. case_match; [|done]. apply tenancy_groups; [done|]. intros x. apply keeps_insert.
    intros v Hv. apply andb_true_iff in H0 as [[_ Hn%bool_decide_eq_true]%andb_true_iff _]. congruence.
  - by apply update_group_tenancy.
  - by apply update_group_tenancy.
  - by apply delete_group_tenancy.
  - by apply delete_group_tenancy.
  - unfold SetGroupImportEnabled. repeat case_match; try done. apply tenancy_groups; [done|]. intros x. apply keeps_insert.
    intros v Hv. by simplify_eq.
  - by eapply SetGroupMembers_tenancy.
Qed.

(** ** What a step does to the endpoint users and their history *)

Definition rows_ok (db : DB) : Prop :=
  map_Forall (λ _ r, client_ok r = true ∧ c_org r ∈ organizations db) (clients db).

Definition same_status (r r' : client_row) : Prop :=
  c_status r' = c_status r ∧ default "" (c_reason r') = default "" (c_reason r)
  ∧ default "" (c_source r') = default "" (c_source r).

(** [ev] records that the user [id], before in status [prev], is now as in [r]. *)
Definition records (ev : ClientUserStatusEvent) (id prev : string) (r : client_row) : Prop :=
  ev_OrgID ev = c_org r ∧ ev_UserID ev = id ∧ PreviousStatus ev = prev ∧ NewStatus ev = c_status r
  ∧ ev_Reason ev = default "" (c_reason r) ∧ ev_Source ev = default "" (c_source r).

Inductive effect (upd : string → Prop) (good : env → Prop) (db db' : DB) : Prop :=
| ef_same : clients db' = clients db → events db' = events db → effect upd good db db'
| ef_new id r :
    clients db !! id = None → client_ok r = true → c_org r ∈ organizations db →
    clients db' = <[id := r]> (clients db) →
    (events db' = events db ∨ ∃ ev, records ev id "" r ∧ events db' = events db ++ [ev]) → effect upd good db db'
| ef_silent id r r' :
    clients db !! id = Some r → client_ok r' = true → c_org r' = c_org r → same_status r r' →
    clients db' = <[id := r']> (clients db) → events db' = events db → effect upd good db db'
| ef_status id r r' :
    clients db !! id = Some r → client_ok r' = true → c_org r' = c_org r →
    upd id ∨ c_status r ≠ "active" ∧ default "" (c_source r) ≠ "idp_policy" →
    clients db' = <[id := r']> (clients db) →
    ((∃ ev, records ev id (c_status r) r' ∧ events db' = events db ++ [ev])
     ∨ events db' = events db ∧ ∃ e i, good e ∧ e_ok e i = false) → effect upd good db db'
| ef_delete id :
    upd id → clients db' = delete id (clients db) → events db' = filter (λ ev, ev_UserID ev ≠ id) (events db) →
    effect upd good db db'.

Lemma status_fits r : client_ok r = true →
  fits 20 (c_status r) = true ∧ fits 40 (default "" (c_source r)) = true ∧ fits 255 (default "" (c_by r)) = true.
Proof.
  unfold client_ok, fits_opt. rewrite !andb_true_iff, bool_decide_eq_true.
  intros (((? & Hs) & Hb) & Hst). split_and!; [|done|done].
  repeat (apply elem_of_cons in Hst as [->|Hst]; [done|]). by apply elem_of_nil in Hst.
Qed.

Lemma log_event b t db o u p n re so ac r :
  clients db !! u = Some r → o ∈ organizations db → fits 20 p = true → fits 20 n = true → fits 40 so = true →
  fits 255 ac = true →
  logClientUserStatusEvent b t db o u p n re so ac
  = if b then with_events db (events db ++ [mkEvent o u p n re so ac t]) else db.
Proof.
  intros Hu Ho Hp Hn Hs Ha. unfold logClientUserStatusEvent.
  rewrite Hp, Hn, Hs, Ha, !bool_decide_true by (rewrite ?Hu; done). by destruct b.
Qed.

Lemma client_writable_ok db id r : client_writable db id r = true → client_ok r = true ∧ c_org r ∈ organizations db.
Proof. unfold client_writable. rewrite !andb_true_iff, bool_decide_eq_true. tauto. Qed.

Lemma touch_effect upd good b t db id : rows_ok db → effect upd good db (touch_client b t db id).
Proof.
  intros Hrows. unfold touch_client. destruct b; [|by apply ef_same].
  destruct (clients db !! id) as [r|] eqn:Hr.
  - eapply (ef_silent _ _ _ _ id r (set_login t r)); [done|by apply Hrows in Hr as [? _]|done|done| |done].
    cbn. apply map_eq. intros k. rewrite lookup_alter, lookup_insert. repeat case_decide; subst; try done. by rewrite Hr.
  - apply ef_same; [|done]. cbn. by apply alter_id'.
Qed.

Lemma link_effect upd good b t db id p s : rows_ok db → effect upd good db (link_client b t db id p s).1.
Proof.
  intros Hrows. unfold link_client. destruct (clients db !! id) as [r|] eqn:Hr; [|by apply ef_same].
  destruct (b && _) eqn:E; [|by apply ef_same]. apply andb_true_iff in E as [_ [Hok _]%client_writable_ok].
  by eapply (ef_silent _ _ _ _ id r (set_link p s t r)).
Qed.

Lemma UpdateClientUser_effect (upd : string → Prop) (good : env → Prop) e i db id u :
  rows_ok db → good e → upd id → effect upd good db (UpdateClientUser e i db id u).1.
Proof.
  intros Hrows Hg Hu. unfold UpdateClientUser, GetClientUser. destruct (e_ok e i); [|by apply ef_same].
  destruct (clients db !! id) as [r|] eqn:Hr; [|by apply ef_same]. cbn [fmap option_fmap option_map].
  destruct (negb _); [by apply ef_same|].
  destruct (client_writable _ _ _) eqn:Hw; [|by apply ef_same]. apply client_writable_ok in Hw as [Hok Ho].
  destruct (Hrows _ _ Hr) as [Hok0 _]. destruct (status_fits _ Hok) as (F1 & F2 & F3), (status_fits _ Hok0) as (G1 & _).
  cbn [fst]. match goal with |- effect _ _ _ (if ?b then _ else _) => destruct b eqn:Hchg end.
  - rewrite (log_event _ _ _ _ _ _ _ _ _ _ (set_client (now e) (normalizeClientUserStatusFields u) r));
      [|cbn; by rewrite lookup_insert_eq|done|done|done|done|done].
    eapply (ef_status _ _ _ _ id r); [done|exact Hok|done|by left| |].
    + by destruct (e_ok e (i + 2)).
    + destruct (e_ok e (i + 2)) eqn:Ei; [|right; eauto]. left. eexists. split; [|reflexivity]. by split_and!.
  - apply orb_false_iff in Hchg as [[H1 H2]%orb_false_iff H3].
    apply negb_false_iff, bool_decide_eq_true in H1, H2, H3. cbn in H1, H2, H3.
    eapply (ef_silent _ _ _ _ id r); [done|exact Hok|done| |done|done]. by split_and!.
Qed.

Lemma ReactivateClientUser_effect upd (good : env → Prop) e db o id a re :
  rows_ok db → good e → effect upd good db (ReactivateClientUser e db o id a re).1.
Proof.
  intros Hrows Hg. unfold ReactivateClientUser, GetClientUser. destruct (e_ok e 0); [|by apply ef_same].
  destruct (clients db !! id) as [r|] eqn:Hr; [|by apply ef_same]. cbn [fmap option_fmap option_map].
  destruct (negb _); [by apply ef_same|]. cbn [Status scan_client StatusSource].
  destruct (bool_decide_reflect (c_status r = "active")) as [|Hna]; [by apply ef_same|].
  destruct (bool_decide_reflect (default "" (c_source r) = "idp_policy")) as [|Hni]; [by apply ef_same|].
  destruct (e_ok e 1 && _) eqn:Hw; [|by apply ef_same]. apply andb_true_iff in Hw as [_ [Hok Ho]%client_writable_ok].
  destruct (Hrows _ _ Hr) as [Hok0 _]. destruct (status_fits _ Hok) as (F1 & F2 & F3), (status_fits _ Hok0) as (G1 & _).
  cbn [fst]. cbn in F3. rewrite default_nilIfEmpty in F3.
  erewrite log_event; [|cbn; by rewrite lookup_insert_eq|done|done|done|done|done].
  eapply (ef_status _ _ _ _ id r); [done|exact Hok|done|by right| |].
  - by destruct (e_ok e 2).
  - destruct (e_ok e 2) eqn:Ei; [|right; eauto]. left. eexists. split; [|reflexivity]. by split_and!.
Qed.

Lemma step_effect upd good db db' : rows_ok db → step upd good db db' → effect upd good db db'.
Proof.
  intros Hrows Hs. destruct Hs.
  - unfold CreateAdminUser. case_match; by apply ef_same.
  - unfold UpdateAdminUser. repeat case_match; by apply ef_same.
  - unfold DeleteAdminUser. repeat case_match; by apply ef_same.
  - unfold CreateClientUser. destruct (e_ok e 0 && _ && _) eqn:E; [|by apply ef_same].
    apply andb_true_iff in E as [[_ Hn%bool_decide_eq_true]%andb_true_iff [Hok Ho]%client_writable_ok].
    destruct (status_fits _ Hok) as (F1 & F2 & F3). cbn [fst].
    erewrite log_event; [|cbn; by rewrite lookup_insert_eq|done|done|done|done|done].
    eapply (ef_new _ _ _ _ (new_id e)); [done|exact Hok|done| |].
    + by destruct (e_ok e 1).
    + destruct (e_ok e 1); [right|by left]. eexists. split; [|reflexivity]. by split_and!.
  - by apply UpdateClientUser_effect.
  - unfold DeleteClientUser. repeat case_match; try by apply ef_same. by apply (ef_delete _ _ _ _ id).
  - unfold FindOrCreateClientUser. destruct (if e_ok e 0 then _ else None) as [[k r]|]; [by apply touch_effect|].
    destruct (if e_ok e 2 then _ else None) as [[k r]|].
    { pose proof (link_effect upd good (e_ok e 3) (now e) db k p s Hrows). by destruct (link_client _ _ _ _ _ _). }
    match goal with |- context [if negb (bool_decide (o = "")) then ?x else ?y] =>
      generalize (if negb (bool_decide (o = "")) then x else y); intros org end.
    case_match; [by apply ef_same|]. destruct (e_ok e 5 && _ && _) eqn:E; [|by apply ef_same].
    apply andb_true_iff in E as [[_ Hn%bool_decide_eq_true]%andb_true_iff [Hok Ho]%client_writable_ok].
    eapply (ef_new _ _ _ _ (new_id e)); [done|exact Hok|done|done|by left].
  - unfold FindAndLinkProvisionedClientUser. case_match; [by apply ef_same|].
    destruct (match head _ with Some _ => _ | None => _ end) as [[k r]|]; [|by apply ef_same].
    case_match; [|by apply touch_effect].
    pose proof (link_effect upd good (e_ok e 1) (now e) db k p s Hrows). destruct (link_client _ _ _ _ _ _) as [d b].
    by destruct b.
  - by apply ReactivateClientUser_effect.
  - unfold CreateGroup. case_match; by apply ef_same.
  - unfold UpdateGroup, update_group. repeat case_match; by apply ef_same.
  - unfold UpdateGroupForOrg, update_group. repeat case_match; by apply ef_same.
  - unfold DeleteGroup, delete_group. repeat case_match; by apply ef_same.
  - unfold DeleteGroupForOrg, delete_group. repeat case_match; by apply ef_same.
  - unfold SetGroupImportEnabled. repeat case_match; by apply ef_same.
  - unfold SetGroupMembers. repeat case_match; by apply ef_same.
Qed.

Lemma effect_orgs upd good db db' : step upd good db db' → organizations db' = organizations db.
Proof.
  intros Hs. destruct Hs; cbn.
  all: unfold CreateAdminUser, UpdateAdminUser, DeleteAdminUser, CreateClientUser, UpdateClientUser, DeleteClientUser,
    FindOrCreateClientUser, FindAndLinkProvisionedClientUser, ReactivateClientUser, CreateGroup, UpdateGroup,
    UpdateGroupForOrg, update_group, DeleteGroup, DeleteGroupForOrg, delete_group, SetGroupImportEnabled,
    SetGroupMembers, GetClientUser, link_client, touch_client, logClientUserStatusEvent.
  all: try (repeat case_match; simplify_eq/=; reflexivity).
Qed.

Lemma step_rows_ok upd good db db' : step upd good db db' → rows_ok db → rows_ok db'.
Proof.
  intros Hs Hrows. pose proof (effect_orgs _ _ _ _ Hs) as Ho. apply step_effect in Hs; [|done].
  unfold rows_ok. rewrite Ho.
  destruct Hs as [Hc _|id r Hn Hok Hin Hc _|id r r' Hr Hok Hor _ Hc _|id r r' Hr Hok Hor _ Hc _|id _ Hc _]; rewrite Hc.
  - done.
  - by apply map_Forall_insert_2.
  - apply map_Forall_insert_2; [|done]. rewrite Hor. split; [done|]. by apply Hrows in Hr as [_ ?].
  - apply map_Forall_insert_2; [|done]. rewrite Hor. split; [done|]. by apply Hrows in Hr as [_ ?].
  - intros k r [_ Hk]%lookup_delete_Some. by apply (Hrows k).
Qed.

(** The steps of the store keep every member of a group in the organization of the group. *)
Lemma membership_tenant_closed db db' :
  tenancy db → rtc (step (λ _, True) (λ _, True)) db db' → tenancy db'.
Proof. intros Ht Hs. induction Hs as [|x y z Hxy _ IH]; [done|]. apply IH. by eapply step_tenancy. Qed.

(** The identity provider has suspended the user. *)
Definition idp_suspended (db : DB) (id : string) : Prop :=
  ∃ r, clients db !! id = Some r ∧ c_status r ≠ "active" ∧ default "" (c_source r) = "idp_policy".

Lemma step_idp_suspended upd good db db' id :
  rows_ok db → ¬ upd id → step upd good db db' → idp_suspended db id → idp_suspended db' id.
Proof.
  intros Hrows Hu Hs (r0 & Hr0 & Hst & Hsrc). apply step_effect in Hs; [|done].
  destruct Hs as [Hc _|k r Hn _ _ Hc _|k r r' Hr _ _ (E1 & E2 & E3) Hc _|k r r' Hr _ _ Hwhy Hc _|k Hk Hc _];
    unfold idp_suspended; rewrite Hc.
  - eauto.
  - rewrite lookup_insert_ne by congruence. eauto.
  - destruct (decide (k = id)) as [->|Hne].
    + simplify_eq. exists r'. rewrite lookup_insert_eq. split_and!; congruence.
    + rewrite lookup_insert_ne by done. eauto.
  - destruct (decide (k = id)) as [->|Hne]; [|rewrite lookup_insert_ne by done; eauto].
    simplify_eq. by destruct Hwhy as [?|[_ ?]].
  - rewrite lookup_delete_ne by congruence. eauto.
Qed.

(** A suspension by the identity provider holds until the provider lifts it.  Whatever
    logins, account linkings, local reactivations and changes of other users happen, and
    whichever statements fail, an endpoint user suspended by the provider stays
    suspended by it as long as the provider does not update or delete this user. *)
Theorem idp_suspension_sticks db db' id :
  rows_ok db → idp_suspended db id → rtc (step (λ k, k ≠ id) (λ _, True)) db db' → idp_suspended db' id.
Proof.
  intros Hrows Hsus Hs. induction Hs as [|x y z Hxy _ IH]; [done|].
  apply IH; [by eapply step_rows_ok|]. eapply step_idp_suspended; [done| |done|done]. tauto.
Qed.

(** The status events of a user, in the order of insertion. *)
Definition history (db : DB) (id : string) : list ClientUserStatusEvent :=
  filter (λ ev, ev_UserID ev = id) (events db).

Definition chained (l : list ClientUserStatusEvent) : Prop :=
  ∀ i a b, l !! i = Some a → l !! S i = Some b → PreviousStatus b = NewStatus a.

(** The history agrees with the row, and only users that exist have one. *)
Definition audited (db : DB) : Prop :=
  (∀ id, clients db !! id = None → history db id = [])
  ∧ ∀ id r, clients db !! id = Some r →
      chained (history db id)
      ∧ ∀ ev, last (history db id) = Some ev → records ev id (PreviousStatus ev) r.

Lemma chained_snoc l ev :
  chained l → (∀ a, last l = Some a → PreviousStatus ev = NewStatus a) → chained (l ++ [ev]).
Proof.
  intros Hl He i a b Ha Hb. destruct (decide (S i < length l)) as [Hlt|Hge].
  - rewrite lookup_app_l in Ha, Hb by lia. by apply (Hl i).
  - assert (i < length l) as Hi.
    { apply lookup_lt_Some in Hb. rewrite length_app in Hb. cbn in Hb. lia. }
    rewrite lookup_app_r in Hb by lia. replace (S i - length l) with 0 in Hb by lia. injection Hb as <-.
    rewrite lookup_app_l in Ha by lia. apply He. rewrite last_lookup. by replace (pred (length l)) with i by lia.
Qed.

Lemma history_snoc db db' ev id :
  events db' = events db ++ [ev] →
  history db' id = history db id ++ (if decide (ev_UserID ev = id) then [ev] else []).
Proof. intros He. unfold history. rewrite He, filter_app, filter_cons, filter_nil. by case_decide. Qed.

Lemma history_same db db' id : events db' = events db → history db' id = history db id.
Proof. intros He. unfold history. by rewrite He. Qed.

Lemma effect_audited upd good db db' :
  (∀ e i, good e → e_ok e i = true) → effect upd good db db' → audited db → audited db'.
Proof.
  intros Hgood Hs [Hnone Hsome].
  destruct Hs as [Hc He|k r Hn _ _ Hc He|k r r' Hr _ Ho (E1 & E2 & E3) Hc He|k r r' Hr _ _ _ Hc [(ev & Hrec & He)|(_ & e & i & Hg & Hi)]|k Hk Hc He];
    unfold audited; rewrite ?Hc.
  - split; intros id; rewrite (history_same db db' id He); auto.
  - split; intros id.
    + intros [Hid Hne]%lookup_insert_None. destruct He as [He|(ev & (_ & Hu & _) & He)].
      * rewrite (history_same db db' id He). auto.
      * rewrite (history_snoc _ _ _ id He), decide_False by congruence. rewrite app_nil_r. auto.
    + intros r0 [[<- <-]|[Hne Hr0]]%lookup_insert_Some.
      * destruct He as [He|(ev & Hrec & He)].
        -- rewrite (history_same db db' k He), (Hnone k Hn). by split; [intros ? ? ? ?|].
        -- destruct Hrec as (R1 & R2 & R3 & R4 & R5 & R6).
           rewrite (history_snoc _ _ _ k He), decide_True, (Hnone k Hn) by done. cbn. split.
           ++ intros i a b Ha Hb. by destruct i.
           ++ intros ? [= <-]. by split_and!.
      * destruct He as [He|(ev & (_ & Hu & _) & He)].
        -- rewrite (history_same db db' id He). auto.
        -- rewrite (history_snoc _ _ _ id He), decide_False by congruence. rewrite app_nil_r. auto.
  - split; intros id; rewrite (history_same db db' id He).
    + intros [Hid _]%lookup_insert_None. auto.
    + intros r0 [[<- <-]|[Hne Hr0]]%lookup_insert_Some; [|auto]. destruct (Hsome k r Hr) as [Hch Hl]. split; [done|].
      intros ev Hev. destruct (Hl ev Hev) as (R1 & R2 & R3 & R4 & R5 & R6). split_and!; congruence.
  - destruct Hrec as (R1 & R2 & R3 & R4 & R5 & R6). split; intros id; rewrite (history_snoc _ _ _ id He).
    + intros [Hid Hne]%lookup_insert_None. rewrite decide_False, app_nil_r by congruence. auto.
    + intros r0 [[<- <-]|[Hne Hr0]]%lookup_insert_Some.
      * rewrite decide_True by done. destruct (Hsome k r Hr) as [Hch Hl]. split.
        -- apply chained_snoc; [done|]. intros a Ha. destruct (Hl a Ha) as (_ & _ & _ & Hs & _). congruence.
        -- intros ev0. rewrite last_snoc. intros [= <-]. by split_and!.
      * rewrite decide_False, app_nil_r by congruence. auto.
  - by rewrite Hgood in Hi.
  - assert (Hh : ∀ id, history db' id = if decide (id = k) then [] else history db id).
    { intros id. unfold history. rewrite He, list_filter_filter. case_decide; [subst|].
      - apply elem_of_nil_inv. intros x [[? ?] _]%list_elem_of_filter. done.
      - apply list_filter_iff. intros x. split; [tauto|]. intros ->. split; [done|]. congruence. }
    split; intros id; rewrite Hh; case_decide as Hd; try done.
    + intros [?|?]%lookup_delete_None; [congruence|auto].
    + intros r [_ Hr]%lookup_delete_Some. auto.
Qed.

(** The status history of endpoint users is complete.  In every state the store
    reaches while its statements succeed, the events of a user form a chain, each
    starting in the status the one before ended in, and the last one has the status,
    the reason and the source of the user's row; deleted users have no events. *)
Theorem status_history_complete db db' :
  rows_ok db → audited db → rtc (step (λ _, True) (λ e, ∀ i, e_ok e i = true)) db db' → audited db'.
Proof.
  intros Hrows Ha Hs. induction Hs as [|x y z Hxy _ IH]; [done|].
  apply IH; [by eapply step_rows_ok|]. apply step_effect in Hxy; [|done].
  eapply effect_audited; [|done|done]. auto.
Qed.

(** ** Witnesses *)

Definition demo_env : env := mkEnv 1 "u1" (λ _, true) canonical_order.
Definition demo_db : DB := mkDB ∅ ∅ ∅ ∅ ∅ [] {["org"]} [].
Definition demo_user : SCIMUser :=
  mkUser "" "org" "a@b.c" "A" "" "" "suspended" "" "idp_policy" None "" "" "" "" "" None None.
Definition demo_db1 : DB := (CreateClientUser demo_env demo_db demo_user).1.

Lemma demo_rows_ok : rows_ok demo_db.
Proof. apply map_Forall_empty. Qed.
Lemma demo_audited : audited demo_db.
Proof. split; [done|]. intros id r Hr. vm_compute in Hr. discriminate Hr. Qed.

Lemma idp_suspension_sticks_witness :
  idp_suspended (ReactivateClientUser demo_env demo_db1 "org" "u1" "admin" "").1 "u1".
Proof.
  apply (idp_suspension_sticks demo_db1).
  - eapply (step_rows_ok (λ _, True) (λ _, True) demo_db); [|exact demo_rows_ok].
    exact (s_create_client _ _ demo_db demo_env demo_user I).
  - eexists. split; [vm_compute; reflexivity|]. split; [discriminate|reflexivity].
  - apply rtc_once. exact (s_reactivate _ _ demo_db1 demo_env "org" "u1" "admin" "" I).
Defined.

Lemma status_history_complete_witness : audited demo_db1.
Proof.
  apply (status_history_complete demo_db demo_db1 demo_rows_ok demo_audited), rtc_once.
  exact (s_create_client _ _ demo_db demo_env demo_user (λ _, eq_refl)).
Defined.

End ScimStore.
