(* ===== verification/ScimHandler.v ===== *)
(** * The SCIM endpoints (internal/api/handlers/scim_handler.go)

    The handlers of administrators, endpoint users and groups on the store of
    [ScimStore].  A body is a JSON value, [None] for text that is not JSON; the
    definitions named [decode_] are the decoder's treatment of the request types: names
    match without regard to case, a null leaves a field as it is, and any other value of
    a wrong kind fails the request.  Of a repeated name the last value counts.

    [scim_org_id] of the context is the argument [org] of the handlers that read it. *)

From S2P Require Import Prelude GoStrings JsonValue Sql ScimStore.
From Stdlib Require Import Ascii.
#[local] Open Scope string_scope.
#[local] Open Scope nat_scope.
#[local] Open Scope list_scope.

Module ScimHandler.
Import GoStrings JsonValue Sql ScimStore.

(** ** Requests *)

Record scimName := mkName { Formatted : string; GivenName : string; FamilyName : string }.
Definition decode_name (old : scimName) : json → option scimName :=
  decode_fields (λ k v n,
    if bool_decide (k = "formatted") then (λ s, mkName s (GivenName n) (FamilyName n)) <$> decode_string (Formatted n) v
    else if bool_decide (k = "givenname") then (λ s, mkName (Formatted n) s (FamilyName n)) <$> decode_string (GivenName n) v
    else if bool_decide (k = "familyname") then (λ s, mkName (Formatted n) (GivenName n) s) <$> decode_string (FamilyName n) v
    else Some n) old.

Record scimAttr := mkAttr { at_Value : string; at_Type : string; Primary : bool }.
Definition decode_attr : json → option scimAttr :=
  decode_fields (λ k v a,
    if bool_decide (k = "value") then (λ s, mkAttr s (at_Type a) (Primary a)) <$> decode_string (at_Value a) v
    else if bool_decide (k = "type") then (λ s, mkAttr (at_Value a) s (Primary a)) <$> decode_string (at_Type a) v
    else if bool_decide (k = "primary") then (λ b, mkAttr (at_Value a) (at_Type a) b) <$> decode_bool (Primary a) v
    else Some a) (mkAttr "" "" false).

Record scimGroupMember := mkMember { m_Value : string; m_Display : string; m_Type : string }.
Definition decode_member : json → option scimGroupMember :=
  decode_fields (λ k v m,
    if bool_decide (k = "value") then (λ s, mkMember s (m_Display m) (m_Type m)) <$> decode_string (m_Value m) v
    else if bool_decide (k = "display") then (λ s, mkMember (m_Value m) s (m_Type m)) <$> decode_string (m_Display m) v
    else if bool_decide (k = "$type") then (λ s, mkMember (m_Value m) (m_Display m) s) <$> decode_string (m_Type m) v
    else Some m) (mkMember "" "" "").

Record scimUserRequest := mkUserReq {
  u_ExternalID : string;
  UserName : string;
  Active : option bool;
  u_Name : scimName;
  Emails : list scimAttr;
  u_Department : string;
  u_Title : string;
}.
Definition no_name : scimName := mkName "" "" "".
Definition decode_strings : json → option (list string) := decode_list (decode_string "").
Definition decode_user_request : json → option scimUserRequest :=
  decode_fields (λ k v r,
    if bool_decide (k = "schemas") then (λ _, r) <$> decode_strings v
    else if bool_decide (k = "externalid") then
      (λ s, mkUserReq s (UserName r) (Active r) (u_Name r) (Emails r) (u_Department r) (u_Title r))
        <$> decode_string (u_ExternalID r) v
    else if bool_decide (k = "username") then
      (λ s, mkUserReq (u_ExternalID r) s (Active r) (u_Name r) (Emails r) (u_Department r) (u_Title r))
        <$> decode_string (UserName r) v
    else if bool_decide (k = "active") then
      (λ b, mkUserReq (u_ExternalID r) (UserName r) b (u_Name r) (Emails r) (u_Department r) (u_Title r))
        <$> match v with JNull => Some None | JBool b => Some (Some b) | _ => None end
    else if bool_decide (k = "name") then
      (λ n, mkUserReq (u_ExternalID r) (UserName r) (Active r) n (Emails r) (u_Department r) (u_Title r))
        <$> decode_name (u_Name r) v
    else if bool_decide (k = "emails") then
      (λ l, mkUserReq (u_ExternalID r) (UserName r) (Active r) (u_Name r) l (u_Department r) (u_Title r))
        <$> decode_list decode_attr v
    else if bool_decide (k = "department") then
      (λ s, mkUserReq (u_ExternalID r) (UserName r) (Active r) (u_Name r) (Emails r) s (u_Title r))
        <$> decode_string (u_Department r) v
    else if bool_decide (k = "title") then
      (λ s, mkUserReq (u_ExternalID r) (UserName r) (Active r) (u_Name r) (Emails r) (u_Department r) s)
        <$> decode_string (u_Title r) v
    else Some r) (mkUserReq "" "" None no_name [] "" "").

(** [None] members: the field is absent or null. *)
Record scimGroupRequest := mkGroupReq {
  gr_ExternalID : string;
  gr_DisplayName : string;
  gr_Members : option (list scimGroupMember);
}.
Definition decode_group_request : json → option scimGroupRequest :=
  decode_fields (λ k v r,
    if bool_decide (k = "schemas") then (λ _, r) <$> decode_strings v
    else if bool_decide (k = "externalid") then
      (λ s, mkGroupReq s (gr_DisplayName r) (gr_Members r)) <$> decode_string (gr_ExternalID r) v
    else if bool_decide (k = "displayname") then
      (λ s, mkGroupReq (gr_ExternalID r) s (gr_Members r)) <$> decode_string (gr_DisplayName r) v
    else if bool_decide (k = "members") then
      match v with
      | JNull => Some (mkGroupReq (gr_ExternalID r) (gr_DisplayName r) None)
      | _ => (λ l, mkGroupReq (gr_ExternalID r) (gr_DisplayName r) (Some l)) <$> decode_list decode_member v
      end
    else Some r) (mkGroupReq "" "" None).

(** [None]: the operation has no value. *)
Record scimPatchOperation := mkOp { Op : string; Path : string; Value : option json }.
Definition decode_op : json → option scimPatchOperation :=
  decode_fields (λ k v o,
    if bool_decide (k = "op") then (λ s, mkOp s (Path o) (Value o)) <$> decode_string (Op o) v
    else if bool_decide (k = "path") then (λ s, mkOp (Op o) s (Value o)) <$> decode_string (Path o) v
    else if bool_decide (k = "value") then Some (mkOp (Op o) (Path o) (Some v))
    else Some o) (mkOp "" "" None).
Definition decode_patch : json → option (list scimPatchOperation) :=
  decode_fields (λ k v ops,
    if bool_decide (k = "schemas") then (λ _, ops) <$> decode_strings v
    else if bool_decide (k = "operations") then decode_list decode_op v
    else Some ops) [].

(** ** Helpers *)

Definition scimEmail (emails : list scimAttr) (userName : string) : string :=
  match List.find (λ a, Primary a || bool_decide (at_Type a = "work")) emails with
  | Some a => at_Value a
  | None => match emails with a :: _ => at_Value a | [] => userName end
  end.

Definition scimDisplayName (name : scimName) (userName : string) : string :=
  if negb (bool_decide (Formatted name = "")) then Formatted name
  else
    let joined := TrimSpace (Join [GivenName name; FamilyName name] " ") in
    if negb (bool_decide (joined = "")) then joined else userName.

Definition is_active (active : option bool) : bool := default true active.
Definition scimActiveToStatus (active : option bool) : string := if is_active active then "active" else "suspended".

Definition set_metadata (user : SCIMUser) (status source reason : string) : SCIMUser :=
  mkUser (ID user) (OrgID user) (Email user) (Name user) (Department user) (Title user) status reason source
    (StatusUpdatedAt user) "scim" (SCIMExternalID user) (IdPID user) (OAuthProvider user) (OAuthSubject user)
    (CreatedAt user) (UpdatedAt user).
Definition setSCIMUserStatusMetadata (user : SCIMUser) (active : option bool) : SCIMUser :=
  if is_active active then set_metadata user (Status user) "scim" "SCIM active=true from identity provider"
  else set_metadata user (Status user) "idp_policy" "SCIM active=false from identity provider".

Definition memberValues (members : list scimGroupMember) : list string := map m_Value members.

(** The spaces of the regular expression. *)
Fixpoint skip_spaces (s : string) : string :=
  match s with String c s' => if is_space c && negb (Ascii.eqb c "011") then skip_spaces s' else s | "" => "" end.
(** At least one of them. *)
Definition some_spaces (s : string) : option string :=
  let r := skip_spaces s in if bool_decide (r = s) then None else Some r.
(** A literal, without regard to case. *)
Definition literal (p s : string) : option string :=
  if HasPrefix (ToLower s) p then Some (String.substring (String.length p) (String.length s) s) else None.
Fixpoint until_quote (s : string) : option (string * string) :=
  match s with
  | "" => None
  | String c s' =>
      if Ascii.eqb c "034" then Some ("", s')
      else match until_quote s' with Some (a, b) => Some (String c a, b) | None => None end
  end.
Definition dquote : string := String "034" "".

(** [members[value eq "..."]], without regard to case. *)
Definition memberPathValue (path : string) : string :=
  default "" (
    s ← literal "members[value" (TrimSpace path);
    s ← some_spaces s;
    s ← literal "eq" s;
    s ← some_spaces s;
    s ← literal dquote s;
    p ← until_quote s;
    if bool_decide (snd p = "]") then Some (fst p) else None).

Definition patchString (value : option json) : option string := TrimSpace <$> (value ≫= decode_string "").

Definition patchMembers (value : option json) : result string (list string) :=
  match (match value ≫= decode_list decode_member with
         | Some l => Some l
         | None => (λ m, [m]) <$> (value ≫= decode_member)
         end) with
  | None => Err "members patch value must be an array or member object"
  | Some members =>
      let values := memberValues members in
      if existsb (λ v, bool_decide (TrimSpace v = "")) values then Err "member value must be a non-empty user ID"
      else Ok values
  end.

Fixpoint unique (seen : gset string) (l : list string) : list string :=
  match l with
  | [] => []
  | v :: l =>
      if negb (bool_decide (v = "")) && negb (bool_decide (v ∈ seen)) then v :: unique ({[v]} ∪ seen) l
      else unique seen l
  end.
Definition appendUnique (existing values : list string) : list string := unique ∅ (existing ++ values).
Definition removeValues (existing values : list string) : list string :=
  List.filter (λ v, negb (bool_decide (v ∈ values))) existing.

(** ** Patching a user *)

Definition set_email (u : SCIMUser) (x : string) : SCIMUser :=
  mkUser (ID u) (OrgID u) x (Name u) (Department u) (Title u) (Status u) (StatusReason u) (StatusSource u)
    (StatusUpdatedAt u) (StatusUpdatedBy u) (SCIMExternalID u) (IdPID u) (OAuthProvider u) (OAuthSubject u)
    (CreatedAt u) (UpdatedAt u).
Definition set_uname (u : SCIMUser) (x : string) : SCIMUser :=
  mkUser (ID u) (OrgID u) (Email u) x (Department u) (Title u) (Status u) (StatusReason u) (StatusSource u)
    (StatusUpdatedAt u) (StatusUpdatedBy u) (SCIMExternalID u) (IdPID u) (OAuthProvider u) (OAuthSubject u)
    (CreatedAt u) (UpdatedAt u).
Definition set_department (u : SCIMUser) (x : string) : SCIMUser :=
  mkUser (ID u) (OrgID u) (Email u) (Name u) x (Title u) (Status u) (StatusReason u) (StatusSource u)
    (StatusUpdatedAt u) (StatusUpdatedBy u) (SCIMExternalID u) (IdPID u) (OAuthProvider u) (OAuthSubject u)
    (CreatedAt u) (UpdatedAt u).
Definition set_title (u : SCIMUser) (x : string) : SCIMUser :=
  mkUser (ID u) (OrgID u) (Email u) (Name u) (Department u) x (Status u) (StatusReason u) (StatusSource u)
    (StatusUpdatedAt u) (StatusUpdatedBy u) (SCIMExternalID u) (IdPID u) (OAuthProvider u) (OAuthSubject u)
    (CreatedAt u) (UpdatedAt u).
Definition set_external (u : SCIMUser) (x : string) : SCIMUser :=
  mkUser (ID u) (OrgID u) (Email u) (Name u) (Department u) (Title u) (Status u) (StatusReason u) (StatusSource u)
    (StatusUpdatedAt u) (StatusUpdatedBy u) x (IdPID u) (OAuthProvider u) (OAuthSubject u)
    (CreatedAt u) (UpdatedAt u).

(** The removal of an attribute. *)
Definition remove_path (user : SCIMUser) (path : string) : result string SCIMUser :=
  if bool_decide (path = "department") then Ok (set_department user "")
  else if bool_decide (path = "title") then Ok (set_title user "")
  else if bool_decide (path = "externalid") then Ok (set_external user "")
  else Err "unsupported user remove patch path".

Definition nonempty (o : option string) (msg : string) : result string string :=
  match o with Some s => if bool_decide (s = "") then Err msg else Ok s | None => Err msg end.
Definition present (o : option string) (msg : string) : result string string :=
  match o with Some s => Ok s | None => Err msg end.
Definition rmap {A B} (f : A → B) (r : result string A) : result string B :=
  match r with Ok a => Ok (f a) | Err x => Err x end.

Definition work_value : string := "emails[type eq " +:+ dquote +:+ "work" +:+ dquote +:+ "].value".
Definition work : string := "emails[type eq " +:+ dquote +:+ "work" +:+ dquote +:+ "]".

(** [add] and [replace] of an attribute. *)
Definition set_path (user : SCIMUser) (path : string) (value : option json) : result string SCIMUser :=
  if bool_decide (path = "active") then
    match value ≫= decode_bool false with
    | None => Err "active patch value must be a boolean"
    | Some true => Ok (set_metadata user "active" "scim" "SCIM active=true from identity provider")
    | Some false => Ok (set_metadata user "suspended" "idp_policy" "SCIM active=false from identity provider")
    end
  else if bool_decide (path = "username") then
    rmap (set_email user) (nonempty (patchString value) "userName patch value must be a non-empty string")
  else if bool_decide (path = "displayname") || bool_decide (path = "name.formatted") then
    rmap (set_uname user) (nonempty (patchString value) "name patch value must be a non-empty string")
  else if bool_decide (path = "name") then
    match value ≫= decode_name no_name with
    | None => Err "name patch value must be an object"
    | Some n => Ok (set_uname user (scimDisplayName n (Email user)))
    end
  else if bool_decide (path = "emails") then
    match value ≫= decode_list decode_attr with
    | None => Err "emails patch value must be an array"
    | Some l => Ok (set_email user (scimEmail l (Email user)))
    end
  else if bool_decide (path = work_value) || bool_decide (path = work) then
    rmap (set_email user) (nonempty (patchString value) "work email patch value must be a non-empty string")
  else if bool_decide (path = "department") then
    rmap (set_department user) (present (patchString value) "department patch value must be a string")
  else if bool_decide (path = "title") then
    rmap (set_title user) (present (patchString value) "title patch value must be a string")
  else if bool_decide (path = "externalid") then
    rmap (set_external user) (present (patchString value) "externalId patch value must be a string")
  else Err "unsupported user patch path".

(** The nesting of objects in objects. *)
Fixpoint depth (j : json) : nat :=
  match j with
  | JObject l => S (list_max (map (λ kv, depth (snd kv)) l))
  | _ => 0
  end.

(** [None]: the fuel is used up. *)
Fixpoint apply_patch (fuel : nat) (ro : range_order) (user : SCIMUser) (op path : string) (value : option json)
  : option (result string SCIMUser) :=
  match fuel with
  | O => None
  | S fuel =>
      let op := ToLower (TrimSpace op) in
      if negb (bool_decide (op = "add")) && negb (bool_decide (op = "replace")) && negb (bool_decide (op = "remove"))
      then Some (Err "unsupported user patch operation")
      else
        let path := ToLower (TrimSpace path) in
        if bool_decide (path = "") then
          match value ≫= decode_object with
          | None => Some (Err "pathless user patch value must be an object")
          | Some values =>
              foldl (λ acc kv, match acc with
                               | Some (Ok u) => apply_patch fuel ro u op (fst kv) (Some (snd kv))
                               | r => r
                               end) (Some (Ok user)) (range ro values)
          end
        else Some (if bool_decide (op = "remove") then remove_path user path else set_path user path value)
  end.

Definition applyUserPatch (ro : range_order) (user : SCIMUser) (o : scimPatchOperation) : result string SCIMUser :=
  default (Err "unsupported user patch operation")
    (apply_patch (S (default 0 (depth <$> Value o))) ro user (Op o) (Path o) (Value o)).

Fixpoint apply_ops (ro : range_order) (user : SCIMUser) (ops : list scimPatchOperation) : result string SCIMUser :=
  match ops with
  | [] => Ok user
  | o :: ops => match applyUserPatch ro user o with Ok u => apply_ops ro u ops | Err x => Err x end
  end.

(** ** Replies *)

Inductive reply :=
| SErr (status : Z) (detail : string)
| RUser (status : Z) (admin : bool) (u : SCIMUser)
| RGroup (status : Z) (g : SCIMGroup)
| RUsers (admin : bool) (us : list SCIMUser) (total : nat) (startIndex count : Z)
| RGroups (gs : list SCIMGroup) (total : nat) (startIndex count : Z)
| NoContent.

(** The parts of a rendered user that vary. *)
Record user_resource := mkResource {
  res_id : string;
  res_externalId : string;
  res_userName : string;
  res_formatted : string;
  res_email : string;
  res_active : bool;
  res_department : option string;
  res_title : option string;
  res_type : string;
  res_location : string;
}.
Definition scimLocation (tls : bool) (host resourceType id : string) : string :=
  (if tls then "https" else "http") +:+ "://" +:+ host +:+ "/scim/v2/" +:+ resourceType +:+ "/" +:+ id.
Definition adminUserToSCIM (tls : bool) (host : string) (u : SCIMUser) : user_resource :=
  mkResource (ID u) (SCIMExternalID u) (Email u) (Name u) (Email u) (bool_decide (Status u = "active")) None None
    "AdminUser" (scimLocation tls host "AdminUsers" (ID u)).
Definition clientUserToSCIM (tls : bool) (host : string) (u : SCIMUser) : user_resource :=
  mkResource (ID u) (SCIMExternalID u) (Email u) (Name u) (Email u) (bool_decide (Status u = "active"))
    (nilIfEmpty (Department u)) (nilIfEmpty (Title u)) "User" (scimLocation tls host "Users" (ID u)).

(** The value of [userName eq "x"]; otherwise the whole text. *)
Fixpoint after_eq (s : string) : option string :=
  if HasPrefix s " eq " then Some (String.substring 4 (String.length s) s)
  else match s with String _ s' => after_eq s' | "" => None end.
Definition trim_char (c : ascii) : bool := Ascii.eqb c "034" || Ascii.eqb c "'" || Ascii.eqb c " ".
Fixpoint drop_trim (l : list ascii) : list ascii :=
  match l with c :: l' => if trim_char c then drop_trim l' else l | [] => [] end.
Definition trim_quotes (s : string) : string :=
  String.string_of_list_ascii (reverse (drop_trim (reverse (drop_trim (String.list_ascii_of_string s))))).

(** [Atoi] is the conversion with its error dropped; [None]: the parameter is absent. *)
Definition parseSCIMListParams (Atoi : string → Z) (filter : string) (startIndex count : option string)
  : string * Z * Z :=
  (match after_eq filter with Some v => trim_quotes v | None => filter end,
   Atoi (default "1" startIndex), Atoi (default "100" count)).

Section Handlers.
Context (ilike : string → string → bool) (Atoi : string → Z).

Record list_query := mkQuery { q_filter : string; q_start : option string; q_count : option string }.

(** ** Administrators *)

Definition ListAdminUsers (e : env) (db : DB) (q : list_query) : reply :=
  let '(filter, startIndex, count) := parseSCIMListParams Atoi (q_filter q) (q_start q) (q_count q) in
  match ScimStore.ListAdminUsers ilike e db filter startIndex count with
  | Err x => SErr 500 x
  | Ok (us, total) => RUsers true us total startIndex count
  end.

Definition user_of (org : string) (req : scimUserRequest) : SCIMUser :=
  setSCIMUserStatusMetadata
    (mkUser "" org (scimEmail (Emails req) (UserName req)) (scimDisplayName (u_Name req) (UserName req))
       (u_Department req) (u_Title req) (scimActiveToStatus (Active req)) "" "" None "" (u_ExternalID req) "" "" ""
       None None) (Active req).
(** An administrator has no department and no title. *)
Definition admin_of (org : string) (req : scimUserRequest) : SCIMUser :=
  set_title (set_department (user_of org req) "") "".

Definition CreateAdminUser (e : env) (org : string) (db : DB) (body : option json) : DB * reply :=
  match body ≫= decode_user_request with
  | None => (db, SErr 400 "invalid SCIM request body")
  | Some req =>
      match ScimStore.CreateAdminUser e db (admin_of org req) with
      | (db, Ok u) => (db, RUser 201 true u)
      | (db, Err x) => (db, SErr 409 x)
      end
  end.

Definition GetAdminUser (e : env) (db : DB) (id : string) : reply :=
  match ScimStore.GetAdminUser e 0 db id with
  | Ok (Some u) => RUser 200 true u
  | _ => SErr 404 "Admin user not found"
  end.

Definition UpdateAdminUser (e : env) (db : DB) (id : string) (body : option json) : DB * reply :=
  match body ≫= decode_user_request with
  | None => (db, SErr 400 "invalid SCIM request body")
  | Some req =>
      match ScimStore.UpdateAdminUser e 0 db id (admin_of "" req) with
      | (db, Ok u) => (db, RUser 200 true u)
      | (db, Err x) => (db, SErr 404 x)
      end
  end.

Definition DeleteAdminUser (e : env) (db : DB) (id : string) : DB * reply :=
  match ScimStore.DeleteAdminUser e db id with (db, Ok _) => (db, NoContent) | (db, Err x) => (db, SErr 404 x) end.

(** ** Endpoint users *)

Definition ListClientUsers (e : env) (org : string) (db : DB) (q : list_query) : reply :=
  let '(filter, startIndex, count) := parseSCIMListParams Atoi (q_filter q) (q_start q) (q_count q) in
  match ScimStore.ListClientUsers ilike e db org filter startIndex count with
  | Err x => SErr 500 x
  | Ok (us, total) => RUsers false us total startIndex count
  end.

Definition CreateClientUser (e : env) (org : string) (db : DB) (body : option json) : DB * reply :=
  match body ≫= decode_user_request with
  | None => (db, SErr 400 "invalid SCIM request body")
  | Some req =>
      match ScimStore.CreateClientUser e db (user_of org req) with
      | (db, Ok u) => (db, RUser 201 false u)
      | (db, Err x) => (db, SErr 409 x)
      end
  end.

Definition GetClientUser (e : env) (db : DB) (id : string) : reply :=
  match ScimStore.GetClientUser e 0 db id with
  | Ok (Some u) => RUser 200 false u
  | _ => SErr 404 "User not found"
  end.

Definition UpdateClientUser (e : env) (db : DB) (id : string) (body : option json) : DB * reply :=
  match body ≫= decode_user_request with
  | None => (db, SErr 400 "invalid SCIM request body")
  | Some req =>
      match ScimStore.UpdateClientUser e 0 db id (user_of "" req) with
      | (db, Ok u) => (db, RUser 200 false u)
      | (db, Err x) => (db, SErr 404 x)
      end
  end.

Definition DeleteClientUser (e : env) (db : DB) (id : string) : DB * reply :=
  match ScimStore.DeleteClientUser e db id with (db, Ok _) => (db, NoContent) | (db, Err x) => (db, SErr 404 x) end.

Definition patchUser (e : env) (db : DB) (admin : bool) (id : string) (body : option json) : DB * reply :=
  match body ≫= decode_patch with
  | None => (db, SErr 400 "invalid SCIM PatchOp request body")
  | Some ops =>
      match (if admin then ScimStore.GetAdminUser e 0 db id else ScimStore.GetClientUser e 0 db id) with
      | Ok (Some user) =>
          match apply_ops (e_ro e) user ops with
          | Err x => (db, SErr 400 x)
          | Ok user =>
              match (if admin then ScimStore.UpdateAdminUser e 1 db (ID user) user
                     else ScimStore.UpdateClientUser e 1 db (ID user) user) with
              | (db, Ok u) => (db, RUser 200 admin u)
              | (db, Err x) => (db, SErr 400 x)
              end
          end
      | _ => (db, SErr 404 "User not found")
      end
  end.

(** ** Groups *)

Definition ListGroups (e : env) (db : DB) (q : list_query) : reply :=
  let '(filter, startIndex, count) := parseSCIMListParams Atoi (q_filter q) (q_start q) (q_count q) in
  match ScimStore.ListGroups ilike e db filter startIndex count with
  | Err x => SErr 500 x
  | Ok (gs, total) => RGroups gs total startIndex count
  end.

Definition with_member_list (g : SCIMGroup) (l : list string) : SCIMGroup :=
  mkGroup (g_ID g) (g_OrgID g) (DisplayName g) (ExternalID g) (g_IdPID g) (Source g) (ImportEnabled g) l
    (g_CreatedAt g) (g_UpdatedAt g).

(** The statements of the classification are numbered first, then those of the group and
    of its members. *)
Definition CreateGroup (e : env) (org : string) (db : DB) (body : option json) : DB * reply :=
  match body ≫= decode_group_request with
  | None => (db, SErr 400 "invalid SCIM request body")
  | Some req =>
      let members := default [] (gr_Members req) in
      let n := 2 * length members in
      match ClassifyGroupMemberIDs e 0 db org (memberValues members) with
      | Err x => (db, SErr 400 x)
      | Ok (adminIDs, clientIDs) =>
          match ScimStore.CreateGroup e n db
                  (mkGroup "" org (gr_DisplayName req) (gr_ExternalID req) "" "scim" false [] None None) with
          | (db, Err x) => (db, SErr 409 x)
          | (db, Ok created) =>
              if bool_decide (members = []) then (db, RGroup 201 created)
              else
                match SetGroupMembers e (n + 1) db (g_ID created) adminIDs clientIDs with
                | (db, Err x) => (db, SErr 400 x)
                | (db, Ok _) => (db, RGroup 201 (with_member_list created (memberValues members)))
                end
          end
      end
  end.

Definition GetGroup (e : env) (db : DB) (id : string) : reply :=
  match ScimStore.GetGroup e 0 db id with Ok (Some g) => RGroup 200 g | _ => SErr 404 "Group not found" end.

Definition UpdateGroup (e : env) (db : DB) (id : string) (body : option json) : DB * reply :=
  match body ≫= decode_group_request with
  | None => (db, SErr 400 "invalid SCIM request body")
  | Some req =>
      let members := default [] (gr_Members req) in
      let n := 2 + 2 * length members in
      match ScimStore.GetGroup e 0 db id with
      | Ok (Some existing) =>
          match ClassifyGroupMemberIDs e 2 db (g_OrgID existing) (memberValues members) with
          | Err x => (db, SErr 400 x)
          | Ok (adminIDs, clientIDs) =>
              match ScimStore.UpdateGroup e n db id
                      (mkGroup "" "" (gr_DisplayName req) (gr_ExternalID req) "" "" false [] None None) with
              | (db, Err x) => (db, SErr 404 x)
              | (db, Ok updated) =>
                  match gr_Members req with
                  | None => (db, RGroup 200 updated)
                  | Some _ =>
                      match SetGroupMembers e (n + 2) db (g_ID updated) adminIDs clientIDs with
                      | (db, Err x) => (db, SErr 400 x)
                      | (db, Ok _) => (db, RGroup 200 (with_member_list updated (memberValues members)))
                      end
                  end
              end
          end
      | _ => (db, SErr 404 "Group not found")
      end
  end.

(** One operation on the name and the members. *)
Definition group_op (st : string * list string) (o : scimPatchOperation) : result string (string * list string) :=
  let '(name, members) := st in
  let op := ToLower (TrimSpace (Op o)) in
  let path := TrimSpace (Path o) in
  let name_error := "displayName patch value must be a non-empty string" in
  if EqualFold path "displayName" then rmap (λ v, (v, members)) (nonempty (patchString (Value o)) name_error)
  else if EqualFold path "members" then
    match patchMembers (Value o) with
    | Err x => Err x
    | Ok values =>
        if bool_decide (op = "add") then Ok (name, appendUnique members values)
        else if bool_decide (op = "remove") then Ok (name, removeValues members values)
        else if bool_decide (op = "replace") then Ok (name, values)
        else Err "unsupported group members patch operation"
    end
  else if negb (bool_decide (memberPathValue path = "")) then
    if bool_decide (op = "remove") then Ok (name, removeValues members [memberPathValue path])
    else Err "filtered members patch only supports remove"
  else if bool_decide (path = "") then
    match Value o ≫= decode_object with
    | None => Err "pathless group patch value must be an object"
    | Some values =>
        match (match values !! "displayName" with
               | None => Ok name
               | Some raw => nonempty (patchString (Some raw)) name_error
               end) with
        | Err x => Err x
        | Ok name =>
            match values !! "members" with
            | None => Ok (name, members)
            | Some raw =>
                match patchMembers (Some raw) with
                | Err x => Err x
                | Ok values => Ok (name, if bool_decide (op = "add") then appendUnique members values else values)
                end
            end
        end
    end
  else Err "unsupported group patch path".

Fixpoint group_ops (st : string * list string) (ops : list scimPatchOperation) : result string (string * list string) :=
  match ops with
  | [] => Ok st
  | o :: ops => match group_op st o with Ok st => group_ops st ops | Err x => Err x end
  end.

Definition PatchGroup (e : env) (db : DB) (id : string) (body : option json) : DB * reply :=
  match body ≫= decode_patch with
  | None => (db, SErr 400 "invalid SCIM PatchOp request body")
  | Some ops =>
      match ScimStore.GetGroup e 0 db id with
      | Ok (Some group) =>
          match group_ops (DisplayName group, Members group) ops with
          | Err x => (db, SErr 400 x)
          | Ok (name, members) =>
              let n := 2 + 2 * length members in
              match ClassifyGroupMemberIDs e 2 db (g_OrgID group) members with
              | Err x => (db, SErr 400 x)
              | Ok (adminIDs, clientIDs) =>
                  match ScimStore.UpdateGroup e n db (g_ID group)
                          (mkGroup (g_ID group) (g_OrgID group) name (ExternalID group) (g_IdPID group) (Source group)
                             (ImportEnabled group) (Members group) (g_CreatedAt group) (g_UpdatedAt group)) with
                  | (db, Err x) => (db, SErr 400 x)
                  | (db, Ok updated) =>
                      match SetGroupMembers e (n + 2) db (g_ID group) adminIDs clientIDs with
                      | (db, Err x) => (db, SErr 400 x)
                      | (db, Ok _) => (db, RGroup 200 (with_member_list updated members))
                      end
                  end
              end
          end
      | _ => (db, SErr 404 "Group not found")
      end
  end.

Definition DeleteGroup (e : env) (db : DB) (id : string) : DB * reply :=
  match ScimStore.DeleteGroup e db id with (db, Ok _) => (db, NoContent) | (db, Err x) => (db, SErr 404 x) end.

End Handlers.

(** ** Patching ends *)

Lemma decode_object_elem j m k v : decode_object j = Some m → m !! k = Some v → depth v < depth j.
Proof.
  destruct j as [| | | | |l]; try done; cbn [decode_object]; [by intros [= <-]|].
  intros [= <-]. cbn [depth].
  assert (HH : ∀ (m0 : gmap string json), foldl (λ m kv, <[fst kv := snd kv]> m) m0 l !! k = Some v →
            m0 !! k = Some v ∨ ∃ kv, kv ∈ l ∧ snd kv = v).
  { induction l as [|[a b] l IH]; intros m0; cbn; [auto|]. intros [Hi|(kv & Hin & <-)]%IH.
    - apply lookup_insert_Some in Hi as [[-> ->]|[_ ?]]; [|auto]. right. exists (k, v). set_solver.
    - right. exists kv. set_solver. }
  intros [?|(kv & Hin & <-)]%HH; [done|]. apply Nat.lt_succ_r.
  pose proof (proj1 (list_max_le (map (λ kv, depth (snd kv)) l) _) (le_n _)) as Hall.
  rewrite List.Forall_forall in Hall. apply Hall. apply in_map_iff. exists kv. split; [done|]. by apply list_elem_of_In.
Qed.

(** Applying a patch operation ends: fuel above the nesting of the operation's value is
    always enough, and more fuel does not change the result; so the value that stands
    for running out of fuel in [applyUserPatch] is never used. *)
Theorem patch_terminates ro user op path value fuel :
  default 0 (depth <$> value) < fuel →
  ∃ r, apply_patch fuel ro user op path value = Some r
    ∧ apply_patch (S (default 0 (depth <$> value))) ro user op path value = Some r.
Proof.
  enough (HH : ∀ n n' value user op path, default 0 (depth <$> value) < n → default 0 (depth <$> value) < n' →
            ∃ r, apply_patch n ro user op path value = Some r ∧ apply_patch n' ro user op path value = Some r)
    by (intros; apply HH; lia).
  clear. induction n as [|n IH]; intros n' value user op path Hn Hn'; [lia|]. destruct n' as [|n']; [lia|]. cbn.
  case_match; [eauto|]. case_match; [|eauto].
  destruct value as [j|]; [|cbn; eauto]. cbn [default fmap option_fmap option_map mbind option_bind from_option id] in *.
  destruct (decode_object j) as [m|] eqn:Hm; [|eauto].
  assert (Hr : ∀ kv, kv ∈ range ro m → depth (snd kv) < depth j).
  { intros [k v] Hkv. apply elem_of_range in Hkv. by eapply decode_object_elem. }
  generalize (Ok user : result string SCIMUser). revert Hr. generalize (range ro m). intros l Hl.
  induction l as [|[k v] l IHl]; intros acc; cbn; [eauto|]. destruct acc as [u|x].
  - destruct (IH n' (Some v) u (ToLower (TrimSpace op)) k) as (r & -> & ->); cbn.
    + specialize (Hl (k, v) ltac:(set_solver)). cbn in Hl. lia.
    + specialize (Hl (k, v) ltac:(set_solver)). cbn in Hl. lia.
    + apply IHl. set_solver.
  - apply IHl. set_solver.
Qed.

(** ** The handlers are steps of the store *)

Inductive call :=
| CCreateAdmin (org : string) (body : option json)
| CUpdateAdmin (id : string) (body : option json)
| CPatchUser (admin : bool) (id : string) (body : option json)
| CDeleteAdmin (id : string)
| CCreateClient (org : string) (body : option json)
| CUpdateClient (id : string) (body : option json)
| CDeleteClient (id : string)
| CCreateGroup (org : string) (body : option json)
| CUpdateGroup (id : string) (body : option json)
| CPatchGroup (id : string) (body : option json)
| CDeleteGroup (id : string).

Definition handle (c : call) (e : env) (db : DB) : DB * reply :=
  match c with
  | CCreateAdmin org b => CreateAdminUser e org db b
  | CUpdateAdmin id b => UpdateAdminUser e db id b
  | CPatchUser a id b => patchUser e db a id b
  | CDeleteAdmin id => DeleteAdminUser e db id
  | CCreateClient org b => CreateClientUser e org db b
  | CUpdateClient id b => UpdateClientUser e db id b
  | CDeleteClient id => DeleteClientUser e db id
  | CCreateGroup org b => CreateGroup e org db b
  | CUpdateGroup id b => UpdateGroup e db id b
  | CPatchGroup id b => PatchGroup e db id b
  | CDeleteGroup id => DeleteGroup e db id
  end.

(** The endpoint user a call of the identity provider is about. *)
Definition about (c : call) (id : string) : Prop :=
  match c with CPatchUser false k _ | CUpdateClient k _ | CDeleteClient k => k = id | _ => False end.

Lemma classify_groups e i db db' o ids :
  admins db' = admins db → clients db' = clients db →
  ClassifyGroupMemberIDs e i db' o ids = ClassifyGroupMemberIDs e i db o ids.
Proof.
  intros Ha Hc. unfold ClassifyGroupMemberIDs. generalize (∅ : gset string). revert i.
  induction ids as [|x ids IH]; intros i seen; cbn; [done|]. rewrite Ha, Hc, !IH. done.
Qed.

Lemma apply_patch_ID n ro u op p v u' : apply_patch n ro u op p v = Some (Ok u') → ID u' = ID u.
Proof.
  revert u op p v u'. induction n as [|n IH]; intros u op p v u'; cbn; [done|].
  case_match; [done|]. case_match.
  - destruct (v ≫= decode_object) as [m|]; [|done]. generalize (range ro m). intros l.
    assert (HH : ∀ acc, foldl (λ acc kv, match acc with
                   | Some (Ok u) => apply_patch n ro u (ToLower (TrimSpace op)) (fst kv) (Some (snd kv))
                   | r => r end) acc l = Some (Ok u') → ∃ w, acc = Some (Ok w) ∧ ID u' = ID w).
    { induction l as [|kv l IHl]; intros acc; cbn; [eauto|]. intros (w & Hw & ->)%IHl.
      destruct acc as [[w0|]|]; try done. exists w0. split; [done|]. by eapply IH. }
    intros (w & [= <-] & ?)%HH. done.
  - intros [= Hr]. revert Hr. unfold remove_path, set_path, rmap. repeat case_match; intros; simplify_eq/=; done.
Qed.

Lemma apply_ops_ID ro u ops u' : apply_ops ro u ops = Ok u' → ID u' = ID u.
Proof.
  revert u. induction ops as [|o ops IH]; intros u; cbn [apply_ops]; [by intros [= ->]|].
  destruct (applyUserPatch ro u o) as [w|] eqn:E; [|done]. intros ->%IH. unfold applyUserPatch in E.
  destruct (apply_patch _ _ _ _ _ _) as [r|] eqn:Ep; [|done]. cbn in E. subst. by eapply apply_patch_ID.
Qed.

Lemma GetGroup_row e i db id g :
  ScimStore.GetGroup e i db id = Ok (Some g) →
  ∃ r ms, groups db !! id = Some r ∧ g = scan_group id r ms ∧ getGroupMembers true db id = Ok ms.
Proof.
  unfold ScimStore.GetGroup, load_group, getGroupMembers. destruct (e_ok e i); [|done]. cbn [negb].
  destruct (groups db !! id) as [r|]; [|done]. destruct (e_ok e (i + 1)); [|done]. intros [= <-]. eauto.
Qed.

Lemma UpdateGroup_ok e i db id g db' u :
  ScimStore.UpdateGroup e i db id g = (db', Ok u) →
  ∃ r ms, groups db !! id = Some r ∧ u = scan_group id (set_group (now e) g r) ms
    ∧ db' = with_groups db (<[id := set_group (now e) g r]> (groups db)).
Proof.
  unfold ScimStore.UpdateGroup, update_group, load_group. destruct (e_ok e i); [|done]. cbn [negb].
  destruct (groups db !! id) as [r|]; [|done]. cbn. destruct (group_writable _ _ _); [|done].
  destruct (getGroupMembers _ _ _) as [ms|]; [|done]. intros [= <- <-]. eauto.
Qed.

Lemma CreateGroup_ok e i db g db' u :
  ScimStore.CreateGroup e i db g = (db', Ok u) →
  ∃ r, u = scan_group (new_id e) r [] ∧ r_org r = g_OrgID g ∧ db' = with_groups db (<[new_id e := r]> (groups db)).
Proof. unfold ScimStore.CreateGroup. case_match; [|done]. intros [= <- <-]. eauto. Qed.

(** Setting members that were classified before the row of the group was written. *)
Lemma members_step upd (good : env → Prop) e i j db r id org ids a c :
  good e → ClassifyGroupMemberIDs e j db org ids = Ok (a, c) → r_org r = org →
  step upd good (with_groups db (<[id := r]> (groups db)))
    (SetGroupMembers e i (with_groups db (<[id := r]> (groups db))) id a c).1.
Proof.
  intros Hg Hc Ho. eapply (s_members _ _ _ e e i j id r ids); [done|cbn; by rewrite lookup_insert_eq|].
  rewrite Ho, <- Hc. by apply classify_groups.
Qed.

Lemma CreateGroup_steps upd (good : env → Prop) e org db b :
  good e → rtc (step upd good) db (CreateGroup e org db b).1.
Proof.
  intros Hg. unfold CreateGroup. destruct (b ≫= _) as [req|]; [|reflexivity].
  destruct (ClassifyGroupMemberIDs _ _ _ _ _) as [[a c]|] eqn:Hc; [|reflexivity].
  match goal with |- context [ScimStore.CreateGroup e ?n db ?g] =>
    pose proof (s_create_group upd good db e n g Hg) as Hs;
    destruct (ScimStore.CreateGroup e n db g) as [d [u|x]] eqn:Hcr end; [|by apply rtc_once].
  case_match; [by apply rtc_once|].
  apply CreateGroup_ok in Hcr as (r & -> & Ho & ->). cbn [g_ID scan_group].
  match goal with |- context [SetGroupMembers e ?i ?d ?k a c] =>
    pose proof (members_step upd good e i 0 db r k org _ a c Hg Hc Ho) as Hm;
    destruct (SetGroupMembers e i d k a c) as [d' [v|x]] end; (eapply rtc_l; [exact Hs|]; apply rtc_once; exact Hm).
Qed.

Lemma UpdateGroup_steps upd (good : env → Prop) e db id b :
  good e → rtc (step upd good) db (UpdateGroup e db id b).1.
Proof.
  intros Hg. unfold UpdateGroup. destruct (b ≫= _) as [req|]; [|reflexivity].
  destruct (ScimStore.GetGroup e 0 db id) as [[g|]|] eqn:Hget; try reflexivity.
  destruct (ClassifyGroupMemberIDs _ _ _ _ _) as [[a c]|] eqn:Hc; [|reflexivity].
  match goal with |- context [ScimStore.UpdateGroup e ?n db id ?g] =>
    pose proof (s_update_group upd good db e n id g Hg) as Hs;
    destruct (ScimStore.UpdateGroup e n db id g) as [d [u|x]] eqn:Hup end; [|by apply rtc_once].
  destruct (gr_Members req) as [ms|]; [|by apply rtc_once].
  apply UpdateGroup_ok in Hup as (r & ms' & Hr & -> & ->). cbn [g_ID scan_group].
  apply GetGroup_row in Hget as (r0 & ms0 & Hr0 & -> & _). simplify_eq.
  match goal with |- context [SetGroupMembers e ?i (with_groups db (<[_ := ?x]> _)) ?k a c] =>
    pose proof (members_step upd good e i 2 db x k (r_org r0) _ a c Hg Hc eq_refl) as Hm;
    destruct (SetGroupMembers e i (with_groups db (<[k := x]> (groups db))) k a c) as [d' [v|y]] end;
    (eapply rtc_l; [exact Hs|]; apply rtc_once; exact Hm).
Qed.

Lemma PatchGroup_steps upd (good : env → Prop) e db id b :
  good e → rtc (step upd good) db (PatchGroup e db id b).1.
Proof.
  intros Hg. unfold PatchGroup. destruct (b ≫= _) as [ops|]; [|reflexivity].
  destruct (ScimStore.GetGroup e 0 db id) as [[g|]|] eqn:Hget; try reflexivity.
  destruct (group_ops _ ops) as [[name members]|]; [|reflexivity].
  destruct (ClassifyGroupMemberIDs _ _ _ _ _) as [[a c]|] eqn:Hc; [|reflexivity].
  apply GetGroup_row in Hget as (r0 & ms0 & Hr0 & -> & _). cbn [g_ID scan_group] in *.
  match goal with |- context [ScimStore.UpdateGroup e ?n db id ?g] =>
    pose proof (s_update_group upd good db e n id g Hg) as Hs;
    destruct (ScimStore.UpdateGroup e n db id g) as [d [u|x]] eqn:Hup end; [|by apply rtc_once].
  apply UpdateGroup_ok in Hup as (r & ms' & Hr & -> & ->). simplify_eq.
  match goal with |- context [SetGroupMembers e ?i (with_groups db (<[_ := ?x]> _)) ?k a c] =>
    pose proof (members_step upd good e i 2 db x k (r_org r0) _ a c Hg Hc eq_refl) as Hm;
    destruct (SetGroupMembers e i (with_groups db (<[k := x]> (groups db))) k a c) as [d' [v|y]] end;
    (eapply rtc_l; [exact Hs|]; apply rtc_once; exact Hm).
Qed.

(** The SCIM endpoints use the store as it is meant to be used: the effect of every
    call, whatever its body and whichever statements fail, is a sequence of steps of the
    store, in which member lists were classified within the tenant of their group and
    only the endpoint user the call is about is updated or deleted by the provider.  So
    every invariant of the store's steps holds along every history of calls. *)
Theorem scim_calls_are_steps (upd : string → Prop) (good : env → Prop) c e db :
  good e → (∀ id, about c id → upd id) → rtc (step upd good) db (handle c e db).1.
Proof.
  intros Hg Hup. destruct c as [org b|id b|adm id b|id|org b|id b|id|org b|id b|id b|id]; cbn [handle].
  - unfold CreateAdminUser. destruct (b ≫= _) as [req|]; [|reflexivity].
    pose proof (s_create_admin upd good db e (admin_of org req) Hg) as Hs.
    destruct (ScimStore.CreateAdminUser e db (admin_of org req)) as [d [u|x]]; by apply rtc_once.
  - unfold UpdateAdminUser. destruct (b ≫= _) as [req|]; [|reflexivity].
    pose proof (s_update_admin upd good db e 0 id (admin_of "" req) Hg) as Hs.
    destruct (ScimStore.UpdateAdminUser e 0 db id (admin_of "" req)) as [d [u|x]]; by apply rtc_once.
  - unfold patchUser. destruct (b ≫= _) as [ops|]; [|reflexivity].
    destruct (if adm then _ else _) as [[user|]|] eqn:Hget; try reflexivity.
    assert (Hid : ID user = id).
    { destruct adm; unfold ScimStore.GetAdminUser, ScimStore.GetClientUser in Hget; destruct (e_ok e 0); try done.
      - destruct (admins db !! id); [|done]. by injection Hget as <-.
      - destruct (clients db !! id); [|done]. by injection Hget as <-. }
    destruct (apply_ops _ user ops) as [u'|] eqn:Hops; [|reflexivity].
    apply apply_ops_ID in Hops. rewrite Hops, Hid. destruct adm.
    + pose proof (s_update_admin upd good db e 1 id u' Hg) as Hs.
      destruct (ScimStore.UpdateAdminUser e 1 db id u') as [d [u|x]]; by apply rtc_once.
    + pose proof (s_update_client upd good db e 1 id u' Hg (Hup id eq_refl)) as Hs.
      destruct (ScimStore.UpdateClientUser e 1 db id u') as [d [u|x]]; by apply rtc_once.
  - unfold DeleteAdminUser. pose proof (s_delete_admin upd good db e id Hg) as Hs.
    destruct (ScimStore.DeleteAdminUser e db id) as [d [u|x]]; by apply rtc_once.
  - unfold CreateClientUser. destruct (b ≫= _) as [req|]; [|reflexivity].
    pose proof (s_create_client upd good db e (user_of org req) Hg) as Hs.
    destruct (ScimStore.CreateClientUser e db (user_of org req)) as [d [u|x]]; by apply rtc_once.
  - unfold UpdateClientUser. destruct (b ≫= _) as [req|]; [|reflexivity].
    pose proof (s_update_client upd good db e 0 id (user_of "" req) Hg (Hup id eq_refl)) as Hs.
    destruct (ScimStore.UpdateClientUser e 0 db id (user_of "" req)) as [d [u|x]]; by apply rtc_once.
  - unfold DeleteClientUser. pose proof (s_delete_client upd good db e id Hg (Hup id eq_refl)) as Hs.
    destruct (ScimStore.DeleteClientUser e db id) as [d [u|x]]; by apply rtc_once.
  - by apply CreateGroup_steps.
  - by apply UpdateGroup_steps.
  - by apply PatchGroup_steps.
  - unfold DeleteGroup. pose proof (s_delete_group upd good db e id Hg) as Hs.
    destruct (ScimStore.DeleteGroup e db id) as [d [u|x]]; by apply rtc_once.
Qed.

(** C19: Groups stay within their tenant.  Along every history of SCIM requests, each handled to its end
    before the next, whatever their bodies and whichever statements fail: if every member of a
    group is an existing user of the organization of that group, this is so after each request.  A
    list of members, also one built by patches, is set only with the identifiers of users of the
    group's own organization, and memberships of deleted users and groups disappear. *)
Theorem scim_tenancy_kept db (l : list (call * env)) :
  tenancy db → tenancy (foldl (λ d ce, (handle (fst ce) (snd ce) d).1) db l).
Proof.
  revert db. induction l as [|[c e] l IH]; intros db Hdb; [done|]. apply IH. apply (membership_tenant_closed db); [done|].
  by apply scim_calls_are_steps.
Qed.

(** ** Groups are patched exactly *)

Lemma elem_of_unique seen l u : u ∈ unique seen l ↔ u ∈ l ∧ u ≠ "" ∧ u ∉ seen.
Proof.
  revert seen. induction l as [|v l IH]; intros seen; cbn; [set_solver|].
  destruct (bool_decide_reflect (v = "")) as [->|Hv]; cbn [negb andb].
  { rewrite IH. set_solver. }
  destruct (bool_decide_reflect (v ∈ seen)) as [Hs|Hs]; cbn [negb].
  { rewrite IH. set_solver. }
  rewrite elem_of_cons, IH. destruct (decide (u = v)); set_solver.
Qed.

(** Adding is a union and removing a difference. *)
Lemma elem_of_appendUnique l vs u : u ∈ appendUnique l vs ↔ (u ∈ l ∨ u ∈ vs) ∧ u ≠ "".
Proof. unfold appendUnique. rewrite elem_of_unique, elem_of_app. set_solver. Qed.
Lemma elem_of_removeValues l vs u : u ∈ removeValues l vs ↔ u ∈ l ∧ u ∉ vs.
Proof.
  unfold removeValues. rewrite !list_elem_of_In, filter_In, <- !list_elem_of_In.
  by rewrite negb_true_iff, bool_decide_eq_false.
Qed.

Lemma SetGroupMembers_exact e i db g a c db' :
  SetGroupMembers e i db g a c = (db', Ok tt) →
  groups db' = groups db
  ∧ (∀ u k, (u, k) ∈ admin_groups db' ↔ k ≠ g ∧ (u, k) ∈ admin_groups db ∨ k = g ∧ u ∈ a)
  ∧ (∀ u k, (u, k) ∈ client_groups db' ↔ k ≠ g ∧ (u, k) ∈ client_groups db ∨ k = g ∧ u ∈ c).
Proof.
  unfold SetGroupMembers. destruct (e_ok e i), (e_ok e (i + 1)), (e_ok e (i + 2)); cbn [negb]; try done.
  destruct (insert_members _ _ _ _ _ _ a) as [ag|] eqn:Eag; [|done].
  destruct (insert_members _ _ _ _ _ _ c) as [cg|] eqn:Ecg; [|done].
  destruct (e_ok e _); [|done]. intros [= <-]. split; [done|].
  apply insert_members_spec in Eag as (_ & _ & Hag). apply insert_members_spec in Ecg as (_ & _ & Hcg).
  split; intros u k; cbn; [rewrite Hag|rewrite Hcg]; unfold drop_group; rewrite elem_of_filter; done.
Qed.

(** A group patch that is answered with success has exactly the described effect: the
    operations are applied in order to the name and the members the group had, the name
    is stored, the members of the group are afterwards exactly the non-empty
    identifiers of the resulting list, all of them users of the group's tenant, and the
    members of every other group are as before. *)
Theorem patch_group_exact e db id body db' g :
  PatchGroup e db id body = (db', RGroup 200 g) →
  ∃ ops r ms, body ≫= decode_patch = Some ops ∧ groups db !! id = Some r ∧ getGroupMembers true db id = Ok ms
    ∧ group_ops (r_name r, ms) ops = Ok (DisplayName g, Members g)
    ∧ r_name <$> groups db' !! id = Some (DisplayName g)
    ∧ (∀ u, (u, id) ∈ admin_groups db' ∨ (u, id) ∈ client_groups db' ↔ u ∈ Members g ∧ u ≠ "")
    ∧ (∀ u, u ∈ Members g → u ≠ "" →
         a_org <$> admins db !! u = Some (r_org r) ∨ c_org <$> clients db !! u = Some (r_org r))
    ∧ ∀ u k, k ≠ id → ((u, k) ∈ admin_groups db' ↔ (u, k) ∈ admin_groups db)
                    ∧ ((u, k) ∈ client_groups db' ↔ (u, k) ∈ client_groups db).
Proof.
  unfold PatchGroup. destruct (body ≫= _) as [ops|]; [|done].
  destruct (ScimStore.GetGroup e 0 db id) as [[g0|]|] eqn:Hget; try done.
  apply GetGroup_row in Hget as (r & ms & Hr & -> & Hms).
  destruct (group_ops _ ops) as [[name members]|] eqn:Hops; [|done].
  destruct (ClassifyGroupMemberIDs _ _ _ _ _) as [[a c]|] eqn:Hc; [|done].
  destruct (ScimStore.UpdateGroup _ _ _ _ _) as [d [u|x]] eqn:Hup; [|done].
  apply UpdateGroup_ok in Hup as (r' & ms' & Hr' & -> & ->). cbn [g_ID scan_group] in *. simplify_eq.
  destruct (SetGroupMembers _ _ _ _ _ _) as [d' [[]|x]] eqn:Hset; [|done]. intros [= <- <-].
  apply SetGroupMembers_exact in Hset as (Hgr & Ha & Hcl). apply classify_spec in Hc as (C1 & C2 & C3 & _).
  exists ops, r, ms. cbn [DisplayName Members with_member_list scan_group r_name set_group]. split_and!; try done.
  - rewrite Hgr. cbn. by rewrite lookup_insert_eq.
  - intros u. rewrite Ha, Hcl. specialize (C3 u). set_solver.
  - intros u Hu Hne. destruct (proj2 (C3 u)) as [Hin|Hin]; [set_solver|left; auto|right; auto].
  - intros u k Hk. rewrite Ha, Hcl. cbn. split; set_solver.
Qed.

(** ** Findings *)

Definition demo_target : SCIMUser :=
  mkUser "u1" "org" "old@b.c" "A" "" "" "active" "r" "scim" None "scim" "" "" "" "" None None.

(** The result of a pathless patch with a user name and an e-mail address depends on the
    order in which the map of its values is visited. *)
Theorem patch_order_dependent :
  ∃ o ro1 ro2 u1 u2, applyUserPatch ro1 demo_target o = Ok u1 ∧ applyUserPatch ro2 demo_target o = Ok u2
    ∧ Email u1 ≠ Email u2.
Proof.
  exists (mkOp "replace" "" (Some (JObject [("userName", JString "login@b.c");
            ("emails", JArray [JObject [("value", JString "mail@b.c")]])]))), canonical_order, reverse_order.
  do 2 eexists. split; [vm_compute; reflexivity|]. split; [vm_compute; reflexivity|]. vm_compute. discriminate.
Qed.

(** Replacing [active] by a null suspends the user. *)
Theorem null_active_suspends ro u :
  rmap Status (applyUserPatch ro u (mkOp "replace" "active" (Some JNull))) = Ok "suspended".
Proof. reflexivity. Qed.

(** ** Witnesses *)

Definition demo_group_db : DB :=
  mkDB ∅ (clients demo_db1) {["g1" := mkGroupRow "org" "ops" None None "scim" false 0 0]} ∅ ∅ [] {["org"]} [].
Definition demo_body : option json :=
  Some (JObject [("Operations", JArray [JObject [("op", JString "add"); ("path", JString "members");
    ("value", JArray [JObject [("value", JString "u1")]])]])]).

Lemma patch_terminates_witness :
  ∃ r, apply_patch 7 canonical_order demo_target "replace" "" (Some (JObject [("title", JString "x")])) = Some r.
Proof.
  destruct (patch_terminates canonical_order demo_target "replace" "" (Some (JObject [("title", JString "x")])) 7)
    as (r & Hr & _); [cbn; lia|]. exists r. exact Hr.
Defined.

Lemma scim_calls_are_steps_witness :
  rtc (step (λ _, False) (λ _, True)) demo_group_db (handle (CPatchGroup "g1" demo_body) demo_env demo_group_db).1.
Proof. apply (scim_calls_are_steps (λ _, False) (λ _, True)); [exact I|intros id []]. Defined.

Definition added_db : DB := foldl (λ d ce, (handle (fst ce) (snd ce) d).1) demo_group_db [(CPatchGroup "g1" demo_body, demo_env)].
Lemma scim_tenancy_kept_witness :
  tenancy added_db ∧ ("u1", "g1") ∈ client_groups added_db.
Proof.
  split.
  - apply (scim_tenancy_kept demo_group_db [(CPatchGroup "g1" demo_body, demo_env)]).
    split; intros u g Hug; vm_compute in Hug; discriminate Hug.
  - apply (bool_decide_unpack _). vm_compute. exact I.
Defined.

Lemma patch_group_exact_witness :
  ("u1", "g1") ∈ client_groups (PatchGroup demo_env demo_group_db "g1" demo_body).1.
Proof.
  destruct (PatchGroup demo_env demo_group_db "g1" demo_body) as [d r] eqn:E.
  assert (Hr : r = (PatchGroup demo_env demo_group_db "g1" demo_body).2) by by rewrite E.
  vm_compute in Hr. rewrite Hr in E.
  destruct (patch_group_exact _ _ _ _ _ _ E) as (ops & r0 & ms & _ & _ & _ & _ & _ & Hm & _).
  destruct (proj2 (Hm "u1")) as [Ha|Hc]; [split; [apply list_elem_of_here|discriminate]| |exact Hc].
  exfalso. assert (Hd : d = (PatchGroup demo_env demo_group_db "g1" demo_body).1) by by rewrite E.
  rewrite Hd in Ha. vm_compute in Ha. discriminate Ha.
Defined.

End ScimHandler.
