(* ===== verification/Devices.v ===== *)
(** * The device store (internal/db/device_store.go)

    Devices with a client certificate, the licenses they consume, their posture reports and
    logs.  The tables are those of the SCIM store and three more; the conventions are those of [ScimStore]: an
    operation takes the environment of its statements, and a failed statement of a
    transaction undoes the ones before it.

    [ilike] and [like] are the pattern matching of the database, [json_ok] whether it takes
    a text as JSON. *)

From S2P Require Import Prelude GoStrings GoTime Encoding Sql ScimStore.
From Stdlib Require Import Ascii.
#[local] Open Scope string_scope.
#[local] Open Scope nat_scope.
#[local] Open Scope list_scope.

Module Devices.
Import GoStrings GoTime Sql.

Definition env := ScimStore.env.
Definition now (e : env) : Z := ScimStore.now e.
Definition ok (e : env) (i : nat) : bool := ScimStore.e_ok e i.
Definition order (e : env) : range_order := ScimStore.e_ro e.

(** [Message]: an error with that text; [Db]: a statement failed. *)
Inductive store_error := Message (s : string) | LicenseLimit | NoRows | Db.

(** ** Tables *)

Record device_row := mkDevice {
  d_org : string;
  d_user : option string;
  d_device_id : string;
  d_name : option string;
  d_type : option string;
  d_os : option string;
  d_os_version : option string;
  d_client_version : option string;
  d_thumbprint : option string;
  d_compliance : option string;
  d_last_ip : option string;
  d_last_seen : option Z;
  d_status : option string;
  d_subject : option string;
  d_serial : option string;
  d_fingerprint : option string;
  d_not_after : option Z;
  d_via : string;
  d_client_user : option string;
  d_created : option Z;
  d_updated : option Z;
}.

Record org_row := mkOrg { o_licenses : option Z; o_consumed : option Z }.

Record DevicePostureReport := mkPosture {
  CheckedAt : Z;
  Compliant : bool;
  Score : Z;
  DiskEncrypted : bool;
  FirewallEnabled : bool;
  AntivirusRunning : bool;
  AntivirusName : string;
  OSVersion : string;
  Raw : string;
}.

Record DeviceClientLog := mkLog {
  LoggedAt : Z;
  Level : string;
  Source : string;
  l_Message : string;
  Metadata : string;
  Hash : string;
}.

Record DB := mkDB {
  scim : ScimStore.DB;
  devices : gmap string device_row;
  orgs : gmap string org_row;
  postures : list (string * string * DevicePostureReport);   (** organization, device *)
  logs : list (string * string * DeviceClientLog);
}.

Definition with_devices (db : DB) (m : gmap string device_row) : DB :=
  mkDB (scim db) m (orgs db) (postures db) (logs db).
Definition with_orgs (db : DB) (m : gmap string org_row) : DB :=
  mkDB (scim db) (devices db) m (postures db) (logs db).
Definition with_postures (db : DB) l : DB := mkDB (scim db) (devices db) (orgs db) l (logs db).
Definition with_logs (db : DB) l : DB := mkDB (scim db) (devices db) (orgs db) (postures db) l.

(** The constraints of the columns and of the unique index on the certificates. *)
Definition device_ok (r : device_row) : bool :=
  fits 255 (d_device_id r) && fits_opt 255 (d_name r) && fits_opt 100 (d_os_version r)
  && fits_opt 128 (d_thumbprint r) && fits_opt 64 (d_fingerprint r)
  && match d_os r with
     | Some o => bool_decide (o ∈ ["windows"; "macos"; "linux"; "ios"; "android"; "chromeos"])
     | None => true
     end.
Definition same_certificate (a b : device_row) : bool :=
  bool_decide (d_org a = d_org b ∧ is_Some (d_fingerprint a) ∧ d_fingerprint a = d_fingerprint b).
Definition device_writable (db : DB) (id : string) (r : device_row) : bool :=
  device_ok r && negb (taken (λ x, same_certificate x r) (devices db) id)
  && match d_client_user r with
     | Some u => bool_decide (is_Some (ScimStore.clients (scim db) !! u))
     | None => true
     end.

Definition active (org : string) (r : device_row) : bool :=
  bool_decide (d_org r = org) && bool_decide (d_status r = Some "active").
(** [count( * )] of the active devices of an organization. *)
Definition active_devices (db : DB) (org : string) : Z :=
  Z.of_nat (size (filter (λ kv, active org (snd kv) = true) (devices db))).

Definition by_device_id (e : env) (db : DB) (device : string) : option (string * device_row) :=
  head (select (order e) (λ _ r, bool_decide (d_device_id r = device)) (devices db)).

(** [CHECK (licenses_consumed >= 0 AND licenses_consumed <= subscription_licenses)] *)
Definition org_ok (o : org_row) : bool :=
  match o_consumed o with
  | None => true
  | Some c => (0 <=? c)%Z && match o_licenses o with Some l => (c <=? l)%Z | None => true end
  end.

Definition set_consumed (db : DB) (org : string) : option DB :=
  match orgs db !! org with
  | None => Some db
  | Some o =>
      let o := mkOrg (o_licenses o) (Some (active_devices db org)) in
      if org_ok o then Some (with_orgs db (<[org := o]> (orgs db))) else None
  end.

Definition nilIfEmptyString (s : string) : option string := if bool_decide (TrimSpace s = "") then None else Some s.

(** ** Certificates *)

Record DeviceRegistration := mkReg {
  OrgID : string;
  DeviceID : string;
  DeviceName : string;
  OSType : string;
  CertSubject : string;
  CertSerial : string;
  CertFingerprintSHA256 : string;
  CertNotAfter : Z;
  ClientUserID : string;
}.

Definition new_device (t : Z) (g : DeviceRegistration) : device_row :=
  mkDevice (OrgID g) None (DeviceID g) (Some (DeviceName g)) None (Some (OSType g)) None None
    (Some (CertFingerprintSHA256 g)) (Some "unknown") None (Some t) (Some "active")
    (Some (CertSubject g)) (Some (CertSerial g)) (Some (CertFingerprintSHA256 g)) (Some (CertNotAfter g)) "mtls"
    (nilIfEmptyString (ClientUserID g)) (Some t) (Some t).
(** [ON CONFLICT (device_id) DO UPDATE]: the organization stays. *)
Definition re_register (t : Z) (g : DeviceRegistration) (r : device_row) : device_row :=
  mkDevice (d_org r) (d_user r) (d_device_id r) (Some (DeviceName g)) (d_type r) (Some (OSType g))
    (d_os_version r) (d_client_version r) (Some (CertFingerprintSHA256 g)) (d_compliance r) (d_last_ip r)
    (Some t) (Some "active") (Some (CertSubject g)) (Some (CertSerial g)) (Some (CertFingerprintSHA256 g))
    (Some (CertNotAfter g)) (d_via r)
    (match nilIfEmptyString (ClientUserID g) with Some u => Some u | None => d_client_user r end)
    (d_created r) (Some t).

(** The row the insertion of the registration leads to, with its identifier. *)
Definition registered (e : env) (db : DB) (g : DeviceRegistration) : option (string * device_row) :=
  match by_device_id e db (DeviceID g) with
  | Some (id, r) => Some (id, re_register (now e) g r)
  | None =>
      if bool_decide (devices db !! ScimStore.new_id e = None)
      then Some (ScimStore.new_id e, new_device (now e) g) else None
  end.

Definition RegisterMTLSDevice (e : env) (db : DB) (g : DeviceRegistration) : DB * result store_error string :=
  if bool_decide (OrgID g = "") || bool_decide (DeviceID g = "") || bool_decide (CertFingerprintSHA256 g = "")
  then (db, Err (Message "org_id, device_id, and certificate fingerprint are required"))
  else if negb (ok e 0) || negb (ok e 1) then (db, Err Db)
  else
    match orgs db !! OrgID g with
    | None => (db, Err (Message "organization not found"))
    | Some o =>
        let existing := match by_device_id e db (DeviceID g) with
                        | Some (_, r) => active (OrgID g) r
                        | None => false
                        end in
        if negb existing && (default 0%Z (o_licenses o) <=? active_devices db (OrgID g))%Z
        then (db, Err LicenseLimit)
        else
          match (if ok e 2 then registered e db g else None) with
          | None => (db, Err Db)
          | Some (id, r) =>
              if negb (device_writable db id r) then (db, Err Db)
              else
                match (if ok e 3 then set_consumed (with_devices db (<[id := r]> (devices db))) (OrgID g) else None) with
                | None => (db, Err Db)
                | Some db' => if ok e 4 then (db', Ok id) else (db, Err Db)
                end
          end
    end.

Definition holds (t : Z) (org fingerprint serial : string) (r : device_row) : bool :=
  active org r
  && match d_not_after r with Some n => (t <? n)%Z | None => false end
  && ((negb (bool_decide (fingerprint = "")) && bool_decide (d_fingerprint r = Some fingerprint))
      || (negb (bool_decide (serial = "")) && bool_decide (d_serial r = Some serial))).
Definition touch (t : Z) (r : device_row) : device_row :=
  mkDevice (d_org r) (d_user r) (d_device_id r) (d_name r) (d_type r) (d_os r) (d_os_version r)
    (d_client_version r) (d_thumbprint r) (d_compliance r) (d_last_ip r) (Some t) (d_status r) (d_subject r)
    (d_serial r) (d_fingerprint r) (d_not_after r) (d_via r) (d_client_user r) (d_created r) (Some t).

(** The [UPDATE] touches every row that matches; the identifier is that of the first. *)
Definition ValidateMTLSDevice (e : env) (db : DB) (org fingerprint serial : string)
  : DB * result store_error string :=
  if bool_decide (org = "") || (bool_decide (fingerprint = "") && bool_decide (serial = ""))
  then (db, Err (Message "org_id and certificate identity are required"))
  else if negb (ok e 0) then (db, Err Db)
  else
    let p := holds (now e) org fingerprint serial in
    (with_devices db ((λ r, if p r then touch (now e) r else r) <$> devices db),
     match head (select (order e) (λ _ r, p r) (devices db)) with
     | Some (id, _) => Ok id
     | None => Err (Message "device certificate is not registered or active for this tenant")
     end).

(** ** Licenses *)

Record DeploymentInfo := mkInfo {
  i_OrgID : string;
  TenantID : string;
  SubscriptionLicenses : Z;
  LicensesConsumed : Z;
  LicensesAvailable : Z;
}.

Definition GetDeploymentInfo (e : env) (i : nat) (db : DB) (org : string) : result store_error DeploymentInfo :=
  if bool_decide (org = "") then Err (Message "orgID is required")
  else if negb (ok e i) then Err Db
  else
    match orgs db !! org with
    | None => Err (Message "organization not found")
    | Some o =>
        let l := default 0%Z (o_licenses o) in
        let c := default (active_devices db org) (o_consumed o) in
        Ok (mkInfo org org l c (wrap_i64 (l - c)))
    end.

Definition RefreshLicenseConsumption (e : env) (db : DB) (org : string) : DB * result store_error unit :=
  match (if ok e 0 then set_consumed db org else None) with
  | Some db' => (db', Ok tt)
  | None => (db, Err Db)
  end.

(** ** Posture and logs *)

Section Store.
Context (ilike like : string → string → bool) (json_ok : string → bool).

Definition clamp_score (n : Z) : Z := Z.min 100 (Z.max 0 n).
Definition normal_report (t : Z) (p : DevicePostureReport) : DevicePostureReport :=
  mkPosture (if IsZero (CheckedAt p) then t else CheckedAt p) (Compliant p) (clamp_score (Score p))
    (DiskEncrypted p) (FirewallEnabled p) (AntivirusRunning p) (AntivirusName p) (OSVersion p)
    (if bool_decide (Raw p = "") then "{}" else Raw p).
Definition compliance (p : DevicePostureReport) : string := if Compliant p then "compliant" else "non_compliant".
Definition set_compliance (t : Z) (p : DevicePostureReport) (r : device_row) : device_row :=
  mkDevice (d_org r) (d_user r) (d_device_id r) (d_name r) (d_type r) (d_os r)
    (if bool_decide (OSVersion p = "") then d_os_version r else Some (OSVersion p))
    (d_client_version r) (d_thumbprint r) (Some (compliance p)) (d_last_ip r) (Some t) (d_status r) (d_subject r)
    (d_serial r) (d_fingerprint r) (d_not_after r) (d_via r) (d_client_user r) (d_created r) (Some t).

(** Both ends of the foreign keys of a report or a log exist. *)
Definition referenced (db : DB) (org device : string) : bool :=
  bool_decide (is_Some (orgs db !! org)) && bool_decide (is_Some (devices db !! device)).

Definition SavePostureReport (e : env) (db : DB) (org device : string) (p : DevicePostureReport)
  : DB * result store_error unit :=
  let p := normal_report (now e) p in
  if negb (ok e 0 && referenced db org device && json_ok (Raw p)) then (db, Err Db)
  else
    let db := with_postures db (postures db ++ [(org, device, p)]) in
    if negb (ok e 1) then (db, Err Db)
    else
      match devices db !! device with
      | Some r =>
          if bool_decide (d_org r = org) then
            let r := set_compliance (now e) p r in
            if device_ok r then (with_devices db (<[device := r]> (devices db)), Ok tt) else (db, Err Db)
          else (db, Ok tt)
      | None => (db, Ok tt)
      end.

Definition normal_log (t : Z) (l : DeviceClientLog) : DeviceClientLog :=
  mkLog (if IsZero (LoggedAt l) then t else LoggedAt l) (Level l) (Source l) (l_Message l)
    (if bool_decide (Metadata l = "") then "{}" else Metadata l) (Hash l).
Definition logged (db : DB) (org device hash : string) : bool :=
  existsb (λ x, bool_decide (fst x = (org, device)) && bool_decide (Hash (snd x) = hash)) (logs db).

(** The insertions, from statement [i]; each is its own transaction. *)
Fixpoint SaveClientLogs (e : env) (i : nat) (db : DB) (org device : string) (ls : list DeviceClientLog)
  : DB * result store_error unit :=
  match ls with
  | [] => (db, Ok tt)
  | l :: ls =>
      if bool_decide (TrimSpace (l_Message l) = "") || bool_decide (Hash l = "")
      then SaveClientLogs e i db org device ls
      else
        let l := normal_log (now e) l in
        if negb (ok e i && referenced db org device && json_ok (Metadata l)) then (db, Err Db)
        else
          let db := if logged db org device (Hash l) then db
                    else with_logs db (logs db ++ [(org, device, l)]) in
          SaveClientLogs e (S i) db org device ls
  end.

(** ** The inventory *)

Record DeviceInventoryItem := mkItem {
  it_ID : string;
  it_OrgID : string;
  it_DeviceID : string;
  it_DeviceName : string;
  it_DeviceType : string;
  it_OSType : string;
  it_OSVersion : string;
  it_ClientVersion : string;
  it_UserID : string;
  it_UserName : string;
  it_UserEmail : string;
  it_ComplianceStatus : string;
  it_Status : string;
  it_RegisteredVia : string;
  it_Subject : string;
  it_Serial : string;
  it_Fingerprint : string;
  it_NotAfter : option Z;
  it_LastIP : string;
  it_LastSeen : option Z;
  it_CreatedAt : option Z;
  it_UpdatedAt : option Z;
}.

(** [COALESCE(cu.x, u.x, '')] over the two left joins. *)
Definition owner (db : DB) (r : device_row) (client : ScimStore.client_row → string)
    (admin : ScimStore.admin_row → string) : string :=
  match d_client_user r ≫= λ u, client <$> ScimStore.clients (scim db) !! u with
  | Some x => x
  | None => default "" (d_user r ≫= λ u, admin <$> ScimStore.admins (scim db) !! u)
  end.
Definition inventory_item (db : DB) (id : string) (r : device_row) : DeviceInventoryItem :=
  mkItem id (d_org r) (d_device_id r) (default "" (d_name r)) (default "" (d_type r)) (default "" (d_os r))
    (default "" (d_os_version r)) (default "" (d_client_version r))
    (match d_client_user r with Some u => u | None => default "" (d_user r) end)
    (owner db r ScimStore.c_name ScimStore.a_name) (owner db r ScimStore.c_email ScimStore.a_email)
    (default "unknown" (d_compliance r)) (default "unknown" (d_status r)) (d_via r) (default "" (d_subject r))
    (default "" (d_serial r)) (default "" (d_fingerprint r)) (d_not_after r) (default "" (d_last_ip r))
    (d_last_seen r) (d_created r) (d_updated r).

(** [ORDER BY last_seen DESC NULLS LAST, created_at DESC], nulls last in both. *)
Definition later (a b : option Z) : Prop :=
  match a, b with Some s, Some t => (t <= s)%Z | None, Some _ => False | _, None => True end.
#[global] Instance later_dec a b : Decision (later a b).
Proof. unfold later. repeat case_match; apply _. Defined.
Definition seen_before (a b : string * device_row) : Prop :=
  later (d_last_seen (snd a)) (d_last_seen (snd b)) ∧
  (later (d_last_seen (snd b)) (d_last_seen (snd a)) → later (d_created (snd a)) (d_created (snd b))).
#[global] Instance seen_before_dec a b : Decision (seen_before a b).
Proof. unfold seen_before. apply _. Defined.

Definition found (db : DB) (search : string) (r : device_row) : bool :=
  let s := TrimSpace search in
  if bool_decide (s = "") then true
  else
    let pat := "%" +:+ s +:+ "%" in
    ilike (d_device_id r) pat
    || match d_name r with Some n => ilike n pat | None => false end
    || match d_os r with Some n => ilike n pat | None => false end
    || ilike (owner db r ScimStore.c_email ScimStore.a_email) pat
    || ilike (owner db r ScimStore.c_name ScimStore.a_name) pat.

Definition ListDevices (e : env) (i : nat) (db : DB) (org search : string) (limit : Z)
  : result store_error (list DeviceInventoryItem) :=
  if bool_decide (org = "") then Err (Message "orgID is required")
  else
    let limit := if (limit <=? 0)%Z || (500 <? limit)%Z then 200%Z else limit in
    if negb (ok e i) then Err Db
    else
      Ok (map (uncurry (inventory_item db))
            (take (Z.to_nat limit)
               (merge_sort seen_before
                  (select (order e) (λ _ r, bool_decide (d_org r = org) && found db search r) (devices db))))).

Record DeviceDetail := mkDetail {
  Device : DeviceInventoryItem;
  Posture : option DevicePostureReport;
  Logs : list DeviceClientLog;
}.

Definition of_device {A} (org device : string) (l : list (string * string * A)) : list A :=
  map snd (List.filter (λ x, bool_decide (fst x = (org, device))) l).
Definition newest_first {A} (key : A → Z) (l : list A) : list A := merge_sort (λ a b, (key b <=? key a)%Z) l.

Definition GetDeviceDetail (e : env) (db : DB) (org device : string) : result store_error DeviceDetail :=
  match ListDevices e 0 db org "" 500 with
  | Err x => Err x
  | Ok items =>
      match List.find (λ it, bool_decide (it_ID it = device)) items with
      | None => Err NoRows
      | Some it =>
          if negb (ok e 1) || negb (ok e 2) then Err Db
          else Ok (mkDetail it (head (newest_first CheckedAt (of_device org device (postures db))))
                     (take 200 (newest_first LoggedAt (of_device org device (logs db)))))
      end
  end.

(** ** Users and groups *)

Definition set_client_user (t : Z) (seen : bool) (u : string) (r : device_row) : device_row :=
  mkDevice (d_org r) (d_user r) (d_device_id r) (d_name r) (d_type r) (d_os r) (d_os_version r)
    (d_client_version r) (d_thumbprint r) (d_compliance r) (d_last_ip r)
    (if seen then Some t else d_last_seen r) (d_status r) (d_subject r)
    (d_serial r) (d_fingerprint r) (d_not_after r) (d_via r) (Some u) (d_created r) (Some t).

Definition active_client (db : DB) (org u : string) : bool :=
  match ScimStore.clients (scim db) !! u with
  | Some c => bool_decide (ScimStore.c_org c = org) && bool_decide (ScimStore.c_status c = "active")
  | None => false
  end.

Definition LinkClientUser (e : env) (i : nat) (db : DB) (org device user : string) : DB * result store_error unit :=
  if bool_decide (org = "") || bool_decide (device = "") || bool_decide (user = "")
  then (db, Err (Message "org_id, device_id, and client_user_id are required"))
  else if negb (ok e i) then (db, Err Db)
  else
    match devices db !! device with
    | Some r =>
        if bool_decide (d_org r = org) && active_client db org user
        then (with_devices db (<[device := set_client_user (now e) true user r]> (devices db)), Ok tt)
        else (db, Err (Message "device or active client user not found for tenant"))
    | None => (db, Err (Message "device or active client user not found for tenant"))
    end.

(** The display names of the groups of the linked user, sorted. *)
Definition name_le (a b : string) : Prop := String.leb a b = true.
#[global] Instance name_le_dec a b : Decision (name_le a b).
Proof. unfold name_le. apply _. Defined.

Definition group_names (db : DB) (user : string) : list string :=
  merge_sort name_le
    (omap (λ p : string * string,
            if bool_decide (fst p = user) then ScimStore.r_name <$> ScimStore.groups (scim db) !! snd p else None)
       (elements (ScimStore.client_groups (scim db)))).
Definition GroupNamesForDevice (e : env) (i : nat) (db : DB) (device : string) : result store_error (list string) :=
  if ok e i then
    Ok (default [] (r ← devices db !! device; u ← d_client_user r; Some (group_names db u)))
  else Err Db.

Definition demo_owner (e : env) (db : DB) (org : string) (r : device_row) : option string :=
  if bool_decide (d_org r = org) && like (d_device_id r) "demo-dev-%" && bool_decide (d_client_user r = None) then
    match d_name r with
    | None => None
    | Some n =>
        fst <$> head (select (order e)
          (λ _ c, bool_decide (ScimStore.c_org c = org)
                  && like (ToLower (ScimStore.c_name c)) (ToLower (before "-"%char n) +:+ "%"))
          (ScimStore.clients (scim db)))
    end
  else None.
Definition LinkDemoDevicesByName (e : env) (db : DB) (org : string) : DB * result store_error Z :=
  if bool_decide (org = "") then (db, Err (Message "orgID is required"))
  else if negb (ok e 0) then (db, Err Db)
  else
    (with_devices db
       ((λ r, match demo_owner e db org r with Some u => set_client_user (now e) false u r | None => r end)
          <$> devices db),
     Ok (Z.of_nat (size (filter (λ kv, is_Some (demo_owner e db org (snd kv))) (devices db))))).

End Store.

(** ** Calls *)

Inductive call :=
| KRegister (g : DeviceRegistration)
| KValidate (org fingerprint serial : string)
| KRefresh (org : string)
| KPosture (org device : string) (p : DevicePostureReport)
| KLogs (org device : string) (ls : list DeviceClientLog)
| KLink (org device user : string)
| KDemo (org : string).

Definition exec (like : string → string → bool) (json_ok : string → bool) (e : env) (db : DB) (c : call) : DB :=
  match c with
  | KRegister g => fst (RegisterMTLSDevice e db g)
  | KValidate o f s => fst (ValidateMTLSDevice e db o f s)
  | KRefresh o => fst (RefreshLicenseConsumption e db o)
  | KPosture o d p => fst (SavePostureReport json_ok e db o d p)
  | KLogs o d ls => fst (SaveClientLogs json_ok e 0 db o d ls)
  | KLink o d u => fst (LinkClientUser e 0 db o d u)
  | KDemo o => fst (LinkDemoDevicesByName like e db o)
  end.

(** ** The rows of the table *)

Record store_ok (db : DB) : Prop := mkStoreOk {
  ids_unique : ∀ i j r s, devices db !! i = Some r → devices db !! j = Some s → d_device_id r = d_device_id s → i = j;
  certificates_unique : ∀ i j r s, devices db !! i = Some r → devices db !! j = Some s →
    same_certificate r s = true → i = j;
  rows_fit : ∀ i r, devices db !! i = Some r → device_ok r = true;
  users_exist : ∀ i r u, devices db !! i = Some r → d_client_user r = Some u →
    is_Some (ScimStore.clients (scim db) !! u);
  orgs_fit : ∀ o r, orgs db !! o = Some r → org_ok r = true;
}.

(** A row keeps its identity: what the unique columns and the count of licenses read. *)
Definition same_device (r s : device_row) : Prop :=
  d_org r = d_org s ∧ d_device_id r = d_device_id s ∧ d_fingerprint r = d_fingerprint s
  ∧ d_status r = d_status s.

Lemma same_certificate_sym r s : same_certificate r s = same_certificate s r.
Proof. unfold same_certificate. apply bool_decide_ext. split; intros (H & [x Hx] & Hf); (split_and!; [congruence|exists x; congruence|congruence]). Qed.

Lemma same_certificate_same r r' s s' :
  same_device r r' → same_device s s' → same_certificate r s = same_certificate r' s'.
Proof. unfold same_certificate. intros (-> & _ & -> & _) (-> & _ & -> & _). done. Qed.

Lemma active_same org r s : same_device r s → active org r = active org s.
Proof. unfold active. by intros (-> & _ & _ & ->). Qed.

(** Rewriting rows in place, each into one that is the same device. *)
Lemma map_rows_ok (f : device_row → device_row) db :
  (∀ i r, devices db !! i = Some r → same_device (f r) r ∧ device_ok (f r) = device_ok r ∧
     (∀ u, d_client_user (f r) = Some u → d_client_user r = Some u ∨ is_Some (ScimStore.clients (scim db) !! u))) →
  store_ok db → store_ok (with_devices db (f <$> devices db)).
Proof.
  intros Hf [H1 H2 H3 H4 H5]. split; cbn [devices scim orgs with_devices]; [| | | |done].
  all: setoid_rewrite lookup_fmap_Some.
  - intros i j ? ? (r & <- & Hr) (s & <- & Hs) He. apply (H1 i j r s); [done..|].
    destruct (Hf _ _ Hr) as [(_ & <- & _) _], (Hf _ _ Hs) as [(_ & <- & _) _]. done.
  - intros i j ? ? (r & <- & Hr) (s & <- & Hs) He. apply (H2 i j r s); [done..|].
    destruct (Hf _ _ Hr) as [Hr' _], (Hf _ _ Hs) as [Hs' _]. by rewrite <- (same_certificate_same _ _ _ _ Hr' Hs').
  - intros i ? (r & <- & Hr). destruct (Hf _ _ Hr) as (_ & -> & _). eauto.
  - intros i ? u (r & <- & Hr) Hu. destruct (Hf _ _ Hr) as (_ & _ & H). destruct (H u Hu) as [Hu'|]; eauto.
Qed.

Lemma map_rows_active (f : device_row → device_row) db org :
  (∀ i r, devices db !! i = Some r → same_device (f r) r) →
  active_devices (with_devices db (f <$> devices db)) org = active_devices db org.
Proof.
  intros Hf. unfold active_devices. cbn [devices with_devices]. apply (f_equal Z.of_nat).
  rewrite map_filter_fmap, map_size_fmap. apply (f_equal size),  map_filter_ext.
  intros i r Hr. cbn. by rewrite (active_same org _ _ (Hf i r Hr)).
Qed.

Definition b2z (b : bool) : Z := if b then 1 else 0.
Definition was_active (db : DB) (org id : string) : bool :=
  match devices db !! id with Some r => active org r | None => false end.

(** Writing one row changes the count by the difference of that row. *)
Lemma active_insert db id r org :
  active_devices (with_devices db (<[id := r]> (devices db))) org =
  (active_devices db org - b2z (was_active db org id) + b2z (active org r))%Z.
Proof.
  unfold active_devices, was_active. cbn [devices with_devices]. set (m := devices db).
  set (P := λ kv : string * device_row, active org (snd kv) = true).
  assert (Hold : size (filter P m) = (size (filter P (delete id m)) +
    match m !! id with Some s => if active org s then 1 else 0 | None => 0 end)%nat).
  { destruct (m !! id) as [s|] eqn:Hs; [|rewrite delete_id by done; lia].
    rewrite <- (insert_delete_id _ _ _ Hs) at 1. rewrite map_filter_insert. subst P. cbn.
    destruct (active org s).
    - rewrite decide_True by done. rewrite map_size_insert_None; [lia|].
      by rewrite map_lookup_filter_None, lookup_delete_eq; left.
    - rewrite decide_False by done. rewrite delete_delete_eq. lia. }
  assert (Hnew : size (filter P (<[id := r]> m)) = (size (filter P (delete id m)) + if active org r then 1 else 0)%nat).
  { rewrite <- (insert_delete_eq m id r), map_filter_insert. subst P. cbn.
    destruct (active org r).
    - rewrite decide_True by done. rewrite map_size_insert_None; [lia|].
      by rewrite map_lookup_filter_None, lookup_delete_eq; left.
    - rewrite decide_False by done. rewrite delete_delete_eq. lia. }
  rewrite Hold, Hnew. destruct (m !! id) as [s|]; [destruct (active org s)|]; destruct (active org r); cbn; lia.
Qed.

(** Writing one row that the checks of the database accept. *)
Lemma write_row_ok db id r :
  device_writable db id r = true →
  (∀ j s, devices db !! j = Some s → d_device_id s = d_device_id r → j = id) →
  store_ok db → store_ok (with_devices db (<[id := r]> (devices db))).
Proof.
  unfold device_writable. intros [[Hok Ht%negb_true_iff]%andb_true_iff Hu]%andb_true_iff Hid [H1 H2 H3 H4 H5].
  split; cbn [devices scim orgs with_devices]; [| | | |done].
  all: setoid_rewrite lookup_insert_Some.
  - intros i j x y [[<- <-]|[Hi Hx]] [[<- <-]|[Hj Hy]] He; eauto. symmetry. by eapply Hid.
  - intros i j x y [[<- <-]|[Hi Hx]] [[<- <-]|[Hj Hy]] He; eauto.
    + exfalso. rewrite same_certificate_sym in He. rewrite (taken_false _ _ _ Ht _ _ Hy) in He; done.
    + exfalso. rewrite (taken_false _ _ _ Ht _ _ Hx) in He; done.
  - intros i x [[<- <-]|[Hi Hx]]; eauto.
  - intros i x u [[<- <-]|[Hi Hx]] Hc; [|eauto]. rewrite Hc in Hu. by apply bool_decide_eq_true in Hu.
Qed.

Lemma set_consumed_ok db org db' : set_consumed db org = Some db' → store_ok db → store_ok db'.
Proof.
  unfold set_consumed. destruct (orgs db !! org) as [o|]; [|by intros [= <-]].
  destruct (org_ok _) eqn:Ho; [|done]. intros [= <-] [H1 H2 H3 H4 H5]. split; try done.
  cbn [orgs with_orgs]. intros i x. rewrite lookup_insert_Some. intros [[<- <-]|[_ Hx]]; eauto.
Qed.

Lemma set_consumed_devices db org db' : set_consumed db org = Some db' → devices db' = devices db ∧ scim db' = scim db.
Proof.
  unfold set_consumed. destruct (orgs db !! org) as [o|]; [|by intros [= <-]]. by destruct (org_ok _); [intros [= <-]|].
Qed.

Lemma by_device_id_spec e db d :
  match by_device_id e db d with
  | Some (id, r) => devices db !! id = Some r ∧ d_device_id r = d
  | None => ∀ j s, devices db !! j = Some s → d_device_id s ≠ d
  end.
Proof.
  unfold by_device_id. pose proof (select_head (order e) (λ _ r, bool_decide (d_device_id r = d)) (devices db)) as H.
  destruct (head _) as [[id r]|].
  - destruct H as [H1 H2]. by apply bool_decide_eq_true in H2.
  - intros j s Hj Hd. specialize (H j s Hj). by rewrite bool_decide_true in H.
Qed.

(** ** Registration *)

Definition known (e : env) (db : DB) (g : DeviceRegistration) : bool :=
  match by_device_id e db (DeviceID g) with Some (_, r) => active (OrgID g) r | None => false end.

Lemma registration_inv e db g :
  let '(db', res) := RegisterMTLSDevice e db g in
  match res with
  | Err _ => db' = db
  | Ok id => ∃ o r, orgs db !! OrgID g = Some o ∧ registered e db g = Some (id, r)
      ∧ device_writable db id r = true
      ∧ (known e db g = true ∨ active_devices db (OrgID g) < default 0 (o_licenses o))%Z
      ∧ set_consumed (with_devices db (<[id := r]> (devices db))) (OrgID g) = Some db'
      ∧ CertFingerprintSHA256 g ≠ ""
  end.
Proof.
  unfold RegisterMTLSDevice. destruct (_ || bool_decide (CertFingerprintSHA256 g = "")) eqn:Hin; [done|].
  destruct (negb (ok e 0) || _); [done|].
  destruct (orgs db !! OrgID g) as [o|] eqn:Ho; [|done]. fold (known e db g).
  destruct (_ && _) eqn:Hl; [done|]. destruct (ok e 2); [|done].
  destruct (registered e db g) as [[id r]|] eqn:Hr; [|done].
  destruct (device_writable db id r) eqn:Hw; [|done]. cbn [negb]. destruct (ok e 3); [|done].
  destruct (set_consumed _ _) as [db'|] eqn:Hs; [|done]. destruct (ok e 4); [|done].
  exists o, r. apply orb_false_iff in Hin as [_ Hf%bool_decide_eq_false].
  split_and!; try done. destruct (known e db g); [by left|right]. cbn in Hl. by apply Z.leb_gt.
Qed.

Lemma registered_spec e db g id r :
  registered e db g = Some (id, r) →
  d_device_id r = DeviceID g ∧ d_fingerprint r = Some (CertFingerprintSHA256 g) ∧ d_serial r = Some (CertSerial g)
  ∧ d_status r = Some "active" ∧ d_not_after r = Some (CertNotAfter g)
  ∧ match devices db !! id with
    | Some s => d_device_id s = DeviceID g ∧ d_org r = d_org s ∧ by_device_id e db (DeviceID g) = Some (id, s)
    | None => d_org r = OrgID g ∧ by_device_id e db (DeviceID g) = None
    end.
Proof.
  unfold registered. pose proof (by_device_id_spec e db (DeviceID g)) as Hb.
  destruct (by_device_id e db (DeviceID g)) as [[i s]|].
  - intros [= <- <-]. destruct Hb as [Hi Hd]. rewrite Hi. by split_and!.
  - case_bool_decide as Hn; [|done]. intros [= <- <-]. rewrite Hn. by split_and!.
Qed.

Lemma register_ok e db g : store_ok db → store_ok (fst (RegisterMTLSDevice e db g)).
Proof.
  intros Hok. pose proof (registration_inv e db g) as H. destruct (RegisterMTLSDevice e db g) as [db' [id|x]]; cbn [fst].
  - destruct H as (o & r & Ho & Hr & Hw & _ & Hs & _). apply (set_consumed_ok _ _ _ Hs), write_row_ok; [done| |done].
    destruct (registered_spec _ _ _ _ _ Hr) as (Hd & _ & _ & _ & _ & Hi). intros j s Hj Hjs. rewrite Hd in Hjs.
    destruct (devices db !! id) as [s'|] eqn:Hid.
    + destruct Hi as (Hd' & _ & _). by apply (ids_unique db Hok j id s s'); [..|congruence].
    + destruct Hi as [_ Hnone]. pose proof (by_device_id_spec e db (DeviceID g)) as Hb. rewrite Hnone in Hb.
      by destruct (Hb j s).
  - by subst.
Qed.

Lemma touch_rows_ok (p : device_row → bool) t db :
  store_ok db → store_ok (with_devices db ((λ r, if p r then touch t r else r) <$> devices db)).
Proof.
  apply map_rows_ok. intros i r Hr. destruct (p r); split_and!; try done; by left.
Qed.

Lemma update_row_ok db id r r' :
  store_ok db → devices db !! id = Some r → same_device r' r → device_ok r' = true →
  (∀ u, d_client_user r' = Some u → d_client_user r = Some u ∨ is_Some (ScimStore.clients (scim db) !! u)) →
  store_ok (with_devices db (<[id := r']> (devices db))).
Proof.
  intros Hok Hr Hsame Hfit Hu. apply write_row_ok; [| |done].
  - unfold device_writable. rewrite Hfit. apply andb_true_iff. split.
    + destruct (taken _ _ _) eqn:Ht; [|done]. apply taken_true in Ht as (k & v & Hk & Hne & Hs).
      destruct Hne. apply (certificates_unique db Hok k id v r); [done..|].
      rewrite <- Hs. apply same_certificate_same; [done|]. unfold same_device. by destruct Hsame as (-> & -> & -> & ->).
    + destruct (d_client_user r') as [u|]; [|done]. apply bool_decide_eq_true.
      destruct (Hu u eq_refl); [by eapply (users_exist db Hok)|done].
  - intros j s Hj Hs. destruct Hsame as (_ & Hd & _). apply (ids_unique db Hok j id s r); [done..|congruence].
Qed.

Lemma store_ok_ext db db' :
  devices db' = devices db → scim db' = scim db → orgs db' = orgs db → store_ok db → store_ok db'.
Proof. intros Hd Hs Ho [H1 H2 H3 H4 H5]. split; rewrite ?Hd, ?Hs, ?Ho; done. Qed.

Lemma logs_frame jok e i db org device ls :
  let db' := fst (SaveClientLogs jok e i db org device ls) in
  devices db' = devices db ∧ scim db' = scim db ∧ orgs db' = orgs db ∧ postures db' = postures db.
Proof.
  revert i db. induction ls as [|l ls IH]; intros i db; cbn [SaveClientLogs]; [done|].
  destruct (bool_decide (TrimSpace _ = "") || _); [apply IH|]. destruct (negb _); [done|].
  destruct (logged _ _ _ _); [apply IH|]. apply (IH (S i) (with_logs db _)).
Qed.

(** What every call but a registration and a refresh does to the devices. *)
Lemma posture_frame jok e db org device p :
  let db' := fst (SavePostureReport jok e db org device p) in
  scim db' = scim db ∧ orgs db' = orgs db ∧
  (devices db' = devices db ∨
   ∃ r, devices db !! device = Some r ∧ d_org r = org ∧
     let r' := set_compliance (now e) (normal_report (now e) p) r in
     device_ok r' = true ∧ devices db' = <[device := r']> (devices db)).
Proof.
  unfold SavePostureReport. destruct (negb _); [by eauto|]. destruct (negb _); [by eauto|]. cbn [devices with_postures].
  destruct (devices db !! device) as [r|] eqn:Hr; [|by eauto]. case_bool_decide as Ho; [|by eauto].
  destruct (device_ok _) eqn:Hd; [|by eauto]. cbn. split_and!; [done|done|]. right. exists r. by split_and!.
Qed.

Lemma demo_owner_client like e db org r u :
  demo_owner like e db org r = Some u → is_Some (ScimStore.clients (scim db) !! u).
Proof.
  unfold demo_owner. destruct (_ && bool_decide (d_client_user r = None)); [|done]. destruct (d_name r) as [n|]; [|done].
  set (p := λ _ c, _). pose proof (select_head (order e) p (ScimStore.clients (scim db))) as H.
  destruct (head _) as [[k c]|]; [|done]. intros [= <-]. destruct H as [H _]. by exists c.
Qed.

(** The device table stays well formed under every call of the store, whatever its
    statements return: device identifiers are unique, certificates are unique in their
    organization, every row fits its columns, linked users exist, and no organization
    records more consumed licenses than it has. *)
Theorem device_store_invariant like jok e db c : store_ok db → store_ok (exec like jok e db c).
Proof.
  intros Hok. destruct c; cbn [exec].
  - by apply register_ok.
  - unfold ValidateMTLSDevice. destruct (_ || _ && _); [done|]. destruct (negb _); [done|]. by apply touch_rows_ok.
  - unfold RefreshLicenseConsumption. destruct (ok e 0); [|done].
    destruct (set_consumed db org) eqn:Hs; [|done]. by eapply set_consumed_ok.
  - destruct (posture_frame jok e db org device p) as (Hs & Ho & [Hd|(r & Hr & _ & Hfit & Hd)]).
    + by eapply store_ok_ext.
    + apply (store_ok_ext (with_devices db (<[device := set_compliance (now e) (normal_report (now e) p) r]> (devices db))));
        [exact Hd|exact Hs|exact Ho|]. by apply (update_row_ok db device r); [..|by left].
  - destruct (logs_frame jok e 0 db org device ls) as (Hd & Hs & Ho & _). by eapply store_ok_ext.
  - unfold LinkClientUser. destruct (_ || _ || _); [done|]. destruct (negb _); [done|].
    destruct (devices db !! device) as [r|] eqn:Hr; [|done].
    destruct (bool_decide (d_org r = org) && _) eqn:Ha; [|done]. cbn [fst].
    apply (update_row_ok db device r); [done..| |].
    + exact (rows_fit db Hok device r Hr).
    + intros u [= <-]. right. apply andb_true_iff in Ha as [_ Ha]. unfold active_client in Ha.
      by destruct (ScimStore.clients _ !! _).
  - unfold LinkDemoDevicesByName. case_bool_decide; [done|]. destruct (negb _); [done|].
    apply map_rows_ok; [|done]. intros i r Hr. destruct (demo_owner like e db org r) as [u|] eqn:Hu.
    + split_and!; try done. intros u' [= <-]. right. by eapply demo_owner_client.
    + split_and!; try done. by left.
Qed.

(** ** Licenses *)

Definition licenses (db : DB) (org : string) : Z :=
  match orgs db !! org with Some o => default 0%Z (o_licenses o) | None => 0%Z end.
Definition licensed (db : DB) : Prop :=
  ∀ org, is_Some (orgs db !! org) → (active_devices db org <= licenses db org)%Z.

(** The identifier of a registration is new or of a device of its own organization. *)
Definition own_device (e : env) (db : DB) (c : call) : Prop :=
  match c with
  | KRegister g => match by_device_id e db (DeviceID g) with Some (_, r) => d_org r = OrgID g | None => True end
  | _ => True
  end.

Definition execs like jok (db : DB) (cs : list (env * call)) : DB := foldl (λ db ec, exec like jok (fst ec) db (snd ec)) db cs.
Fixpoint own_devices like jok (db : DB) (cs : list (env * call)) : Prop :=
  match cs with
  | [] => True
  | (e, c) :: cs => own_device e db c ∧ own_devices like jok (exec like jok e db c) cs
  end.

Lemma active_devices_ext db db' org : devices db' = devices db → active_devices db' org = active_devices db org.
Proof. unfold active_devices. by intros ->. Qed.

Lemma set_consumed_licenses db org db' o : set_consumed db org = Some db' → licenses db' o = licenses db o ∧
  (is_Some (orgs db' !! o) ↔ is_Some (orgs db !! o)).
Proof.
  unfold set_consumed, licenses. destruct (orgs db !! org) as [x|] eqn:Hx; [|by intros [= <-]].
  destruct (org_ok _); [|done]. intros [= <-]. cbn [orgs with_orgs]. destruct (decide (o = org)) as [->|Hne].
  - rewrite lookup_insert_eq, Hx. cbn. split; [done|]. split; intros _; eauto.
  - by rewrite lookup_insert_ne by done.
Qed.

(** Every call but a registration leaves the active devices and the licenses as they are. *)
Lemma other_calls_active like jok e db c o :
  match c with KRegister _ => True | _ =>
    active_devices (exec like jok e db c) o = active_devices db o
    ∧ licenses (exec like jok e db c) o = licenses db o
    ∧ (is_Some (orgs (exec like jok e db c) !! o) ↔ is_Some (orgs db !! o)) end.
Proof.
  destruct c; cbn [exec]; [done|..].
  - unfold ValidateMTLSDevice. destruct (_ || _ && _); [done|]. destruct (negb _); [done|]. cbn [fst].
    split; [|done]. apply map_rows_active. intros i r _. by destruct (holds _ _ _ _ r).
  - unfold RefreshLicenseConsumption. destruct (ok e 0); [|done].
    destruct (set_consumed db org) eqn:Hs; [|done]. cbn [fst].
    split; [apply active_devices_ext, (set_consumed_devices _ _ _ Hs)|by apply (set_consumed_licenses _ _ _ _ Hs)].
  - destruct (posture_frame jok e db org device p) as (_ & Ho & Hd). unfold licenses. rewrite Ho. split; [|done].
    destruct Hd as [Hd|(r & Hr & _ & _ & Hd)]; [by apply active_devices_ext|].
    etrans; [eapply (active_devices_ext (with_devices db _)); exact Hd|]. rewrite active_insert.
    unfold was_active. rewrite Hr. change (active o (set_compliance _ _ _)) with (active o r). lia.
  - destruct (logs_frame jok e 0 db org device ls) as (Hd & _ & Ho & _). unfold licenses. rewrite Ho.
    split; [by apply active_devices_ext|done].
  - unfold LinkClientUser. destruct (_ || _ || _); [done|]. destruct (negb _); [done|].
    destruct (devices db !! device) as [r|] eqn:Hr; [|done].
    destruct (bool_decide (d_org r = org) && _); [|done]. cbn [fst]. split; [|done]. rewrite active_insert.
    unfold was_active. rewrite Hr. change (active o (set_client_user _ _ _ _)) with (active o r). lia.
  - unfold LinkDemoDevicesByName. case_bool_decide; [done|]. destruct (negb _); [done|]. cbn [fst].
    split; [|done]. apply map_rows_active. intros i r _. by destruct (demo_owner _ _ _ _ r).
Qed.

Lemma register_licensed e db g : own_device e db (KRegister g) → licensed db → licensed (fst (RegisterMTLSDevice e db g)).
Proof.
  intros Hown Hl. pose proof (registration_inv e db g) as H. destruct (RegisterMTLSDevice e db g) as [db' [id|x]]; cbn [fst];
    [|by subst]. destruct H as (o & r & Ho & Hr & _ & Hfree & Hs & _). intros org Horg.
  apply (set_consumed_licenses _ _ _ org) in Hs as Hlic. destruct Hlic as [-> Hiff]. apply Hiff in Horg.
  apply set_consumed_devices in Hs as [Hd _]. rewrite (active_devices_ext _ _ _ Hd), active_insert.
  specialize (Hl org Horg). unfold licenses in *. cbn [orgs with_devices] in *.
  destruct (registered_spec _ _ _ _ _ Hr) as (_ & _ & _ & Hst & _ & Hi). unfold known, own_device in *.
  assert (Horg_r : d_org r = OrgID g).
  { destruct (devices db !! id) as [s|]; [|by destruct Hi]. destruct Hi as (_ & -> & Hb). by rewrite Hb in Hown. }
  assert (Hact : active org r = bool_decide (OrgID g = org)).
  { unfold active. by rewrite Horg_r, Hst, andb_true_r. }
  rewrite Hact. unfold was_active. case_bool_decide as Heq.
  - subst org. rewrite Ho in *. destruct (devices db !! id) as [s|] eqn:Hid.
    + destruct Hi as (_ & _ & Hb). rewrite Hb in Hfree. destruct (active (OrgID g) s); cbn; [lia|].
      destruct Hfree; [done|lia].
    + destruct Hi as [_ Hb]. rewrite Hb in Hfree. cbn. destruct Hfree; [done|lia].
  - destruct (devices db !! id) as [s|]; cbn; [|lia]. destruct (active org s); cbn; lia.
Qed.

(** C21: Licenses bound devices.  As long as no organization registers a device identifier
    that another one holds, a store that starts within its licenses never has more active
    devices in an organization than the organization has licenses. *)
Theorem license_bound like jok db cs :
  licensed db → own_devices like jok db cs → licensed (execs like jok db cs).
Proof.
  revert db. induction cs as [|[e c] cs IH]; intros db Hl Hown; [done|]. destruct Hown as [Ho Hown]. cbn.
  apply IH; [|done]. pose proof (λ o, other_calls_active like jok e db c o) as Hc. destruct c; cbn [exec fst snd] in *.
  1: by apply register_licensed.
  all: intros o Horg; destruct (Hc o) as (-> & -> & Hiff); by apply Hl, Hiff.
Qed.

(** ** Recognition *)

Lemma validate_spec e db org fp sn :
  match snd (ValidateMTLSDevice e db org fp sn) with
  | Ok id => ∃ r, devices db !! id = Some r ∧ holds (now e) org fp sn r = true
  | Err _ => org = "" ∨ (fp = "" ∧ sn = "") ∨ ok e 0 = false ∨
             ∀ id r, devices db !! id = Some r → holds (now e) org fp sn r = false
  end.
Proof.
  unfold ValidateMTLSDevice. destruct (_ || _ && _) eqn:Hin; cbn [snd].
  - apply orb_true_iff in Hin as [->%bool_decide_eq_true|[H1%bool_decide_eq_true H2%bool_decide_eq_true]%andb_true_iff]; auto.
  - destruct (ok e 0); cbn [negb snd]; [|auto].
    pose proof (select_head (order e) (λ _ r, holds (now e) org fp sn r) (devices db)) as H.
    destruct (head _) as [[id r]|]; [by exists r|auto].
Qed.

Lemma holds_true t org fp sn r :
  holds t org fp sn r = true ↔
  d_org r = org ∧ d_status r = Some "active" ∧ (∃ n, d_not_after r = Some n ∧ (t < n)%Z)
  ∧ ((fp ≠ "" ∧ d_fingerprint r = Some fp) ∨ (sn ≠ "" ∧ d_serial r = Some sn)).
Proof.
  unfold holds, active. rewrite !andb_true_iff, orb_true_iff, !andb_true_iff, !negb_true_iff.
  rewrite !bool_decide_eq_true, !bool_decide_eq_false.
  assert (Hn : match d_not_after r with Some n => (t <? n)%Z | None => false end = true ↔
    ∃ n, d_not_after r = Some n ∧ (t < n)%Z).
  { destruct (d_not_after r) as [n|]; [|naive_solver]. rewrite Z.ltb_lt. naive_solver. }
  rewrite Hn. tauto.
Qed.

(** A registered certificate is recognised.  After [RegisterMTLSDevice] returns an
    identifier for a device of the organization, a validation of that certificate before
    its end returns the same identifier, provided no other active device of the
    organization has the same serial number; the certificate of an active device of one
    organization is never accepted for another, nor after its end. *)
Theorem registration_recognised e db g db' id e' :
  store_ok db → own_device e db (KRegister g) → RegisterMTLSDevice e db g = (db', Ok id) →
  ok e' 0 = true → (now e' < CertNotAfter g)%Z →
  (∀ j s, devices db' !! j = Some s → active (OrgID g) s = true → CertSerial g ≠ "" →
     d_serial s = Some (CertSerial g) → j = id) →
  OrgID g ≠ "" →
  snd (ValidateMTLSDevice e' db' (OrgID g) (CertFingerprintSHA256 g) (CertSerial g)) = Ok id ∧
  ∀ e'' org fp sn j, snd (ValidateMTLSDevice e'' db' org fp sn) = Ok j →
    ∃ r, devices db' !! j = Some r ∧ d_org r = org ∧ d_status r = Some "active" ∧
      (d_fingerprint r = Some fp ∨ d_serial r = Some sn) ∧ (∃ n, d_not_after r = Some n ∧ (now e'' < n)%Z).
Proof.
  intros Hok Hown Hreg Hok' Ht Hser Horg. split; cycle 1.
  { intros e'' org fp sn j Hj. pose proof (validate_spec e'' db' org fp sn) as H. rewrite Hj in H.
    destruct H as (r & Hr & (Ho & Hs & Hn & Hm)%holds_true). exists r. split_and!; try done.
    destruct Hm as [[_ ?]|[_ ?]]; auto. }
  assert (Hok2 : store_ok db') by (pose proof (register_ok e db g Hok) as H; by rewrite Hreg in H).
  pose proof (registration_inv e db g) as H. rewrite Hreg in H.
  destruct H as (o & r & Ho & Hr & _ & _ & Hs & Hfp). apply set_consumed_devices in Hs as [Hd _].
  destruct (registered_spec _ _ _ _ _ Hr) as (_ & Hf & Hsn & Hst & Hna & Hi).
  assert (Horg_r : d_org r = OrgID g).
  { unfold own_device in Hown. destruct (devices db !! id) as [s|]; [|by destruct Hi].
    destruct Hi as (_ & -> & Hb). by rewrite Hb in Hown. }
  assert (Hrow : devices db' !! id = Some r) by (rewrite Hd; apply lookup_insert_eq).
  assert (Hh : holds (now e') (OrgID g) (CertFingerprintSHA256 g) (CertSerial g) r = true).
  { apply holds_true. split_and!; eauto. }
  pose proof (validate_spec e' db' (OrgID g) (CertFingerprintSHA256 g) (CertSerial g)) as H.
  destruct (snd _) as [j|x].
  - destruct H as (s & Hj & (Ho' & Hs' & _ & Hm)%holds_true). f_equal. destruct Hm as [[_ Hm]|[Hne Hm]].
    + apply (certificates_unique db' Hok2 j id s r); [done..|]. unfold same_certificate.
      apply bool_decide_eq_true. rewrite Ho', Horg_r, Hm, Hf. by eauto.
    + apply (Hser j s); [done| |done|done]. unfold active. by rewrite Ho', Hs', !bool_decide_true.
  - destruct H as [?|[[? _]|[?|Hnone]]]; [done|done|congruence|]. by rewrite (Hnone id r Hrow) in Hh.
Qed.

(** ** Logs *)

Definition skipped (l : DeviceClientLog) : bool := bool_decide (TrimSpace (l_Message l) = "") || bool_decide (Hash l = "").

Lemma logged_snoc db org dev o d l h :
  logged (with_logs db (logs db ++ [(o, d, l)])) org dev h =
  logged db org dev h || (bool_decide ((o, d) = (org, dev)) && bool_decide (Hash l = h)).
Proof. unfold logged. cbn [logs with_logs]. rewrite existsb_app. cbn. by rewrite orb_false_r. Qed.

Lemma save_logs_inv jok e i db org dev ls db' :
  SaveClientLogs jok e i db org dev ls = (db', Ok tt) →
  (∀ h, logged db org dev h = true → logged db' org dev h = true) ∧
  ∀ l, l ∈ ls → skipped l = false →
    logged db' org dev (Hash l) = true ∧ referenced db' org dev = true ∧
    jok (if bool_decide (Metadata l = "") then "{}" else Metadata l) = true.
Proof.
  revert i db. induction ls as [|l ls IH]; intros i db; cbn [SaveClientLogs].
  - intros [= <-]. split; [done|]. intros l Hl. by apply elem_of_nil in Hl.
  - fold (skipped l). destruct (skipped l) eqn:Hsk.
    + intros [H1 H2]%IH. split; [done|]. intros l' [->|Hl']%elem_of_cons Hsk'; [congruence|by apply H2].
    + destruct (_ && _) eqn:Hc; [|done]. apply andb_true_iff in Hc as [[_ Href]%andb_true_iff Hj]. cbn [negb].
      set (x := if logged _ _ _ _ then _ else _).
      assert (Hx : logged x org dev (Hash l) = true ∧ ∀ h, logged db org dev h = true → logged x org dev h = true).
      { subst x. cbn [Hash normal_log]. destruct (logged db org dev (Hash l)) eqn:Hlog; [done|].
        split; [|intros h Hh]; rewrite logged_snoc; [|by rewrite Hh].
        rewrite !bool_decide_true by done. by rewrite orb_true_r. }
      destruct Hx as [Hx1 Hx2]. intros Hsave. pose proof (logs_frame jok e (S i) x org dev ls) as (Hd & _ & Ho & _).
      rewrite Hsave in Hd, Ho. cbn [fst] in Hd, Ho.
      assert (Href' : referenced db' org dev = true).
      { unfold referenced in *. rewrite Hd, Ho. subst x. clear -Href. destruct (logged db org dev _); exact Href. }
      apply IH in Hsave as [H1 H2]. split; [by auto|].
      intros l' [->|Hl']%elem_of_cons Hsk'; [|by apply H2]. split_and!; [by apply H1|done|done].
Qed.

Lemma save_logs_again jok e i db org dev ls :
  (∀ j, ok e j = true) →
  (∀ l, l ∈ ls → skipped l = false → logged db org dev (Hash l) = true ∧ referenced db org dev = true ∧
     jok (if bool_decide (Metadata l = "") then "{}" else Metadata l) = true) →
  SaveClientLogs jok e i db org dev ls = (db, Ok tt).
Proof.
  intros Hok. revert i. induction ls as [|l ls IH]; intros i H; [done|]. cbn [SaveClientLogs]. fold (skipped l).
  assert (Htl : ∀ l', l' ∈ ls → l' ∈ l :: ls) by (intros; by apply elem_of_cons; right).
  destruct (skipped l) eqn:Hsk; [apply IH; by auto|].
  destruct (H l) as (Hlog & Href & Hj); [by apply elem_of_cons; left|done|]. rewrite Hok, Href. cbn [Metadata normal_log].
  rewrite Hj. cbn [andb negb Hash normal_log]. rewrite Hlog. apply IH. by auto.
Qed.

(** Sending client logs again changes nothing: after a batch was saved, saving it a
    second time succeeds and leaves the store as it is. *)
Theorem logs_idempotent jok e e' i j db org dev ls db' :
  SaveClientLogs jok e i db org dev ls = (db', Ok tt) → (∀ k, ok e' k = true) →
  SaveClientLogs jok e' j db' org dev ls = (db', Ok tt).
Proof. intros [_ H]%save_logs_inv Hok. by apply save_logs_again. Qed.

(** ** Witnesses *)

Definition demo_env (t : Z) (id : string) : env := ScimStore.mkEnv t id (λ _, true) canonical_order.
Definition demo_scim : ScimStore.DB := ScimStore.mkDB ∅ ∅ ∅ ∅ ∅ [] {["acme"; "globex"]} [].
Definition demo_reg (org device fp serial : string) : DeviceRegistration :=
  mkReg org device device "linux" ("CN=" +:+ device) serial fp 1000%Z "".
(** A blocked device of one tenant, and a free license of another. *)
Definition demo_blocked : device_row :=
  mkDevice "globex" None "kiosk" None None None None None None None None None (Some "blocked")
    None None (Some "f0") (Some 900%Z) "mtls" None None None.
Definition demo_db : DB :=
  mkDB demo_scim {["d0" := demo_blocked]}
    {["acme" := mkOrg (Some 1%Z) (Some 0%Z); "globex" := mkOrg (Some 1%Z) (Some 0%Z)]} [] [].

Lemma demo_rows i r : devices demo_db !! i = Some r → i = "d0" ∧ r = demo_blocked.
Proof. cbn [devices demo_db]. by intros [-> ->]%lookup_singleton_Some. Qed.

Lemma demo_store_ok : store_ok demo_db.
Proof.
  split.
  - by intros i j r s [-> _]%demo_rows [-> _]%demo_rows.
  - by intros i j r s [-> _]%demo_rows [-> _]%demo_rows.
  - by intros i r [_ ->]%demo_rows.
  - by intros i r u [_ ->]%demo_rows.
  - cbn [orgs demo_db]. intros o r. rewrite lookup_insert_Some, lookup_singleton_Some.
    by intros [[_ <-]|[_ [_ <-]]].
Qed.

Lemma demo_licensed : licensed demo_db.
Proof.
  intros org [o Ho]. unfold licenses. rewrite Ho. revert Ho. cbn [orgs demo_db].
  rewrite lookup_insert_Some, lookup_singleton_Some. by intros [[<- <-]|[_ [<- <-]]].
Qed.

Lemma device_store_invariant_witness :
  store_ok (exec (λ _ _, false) (λ _, true) (demo_env 5 "d1") demo_db (KRegister (demo_reg "acme" "laptop" "f1" "42"))).
Proof. apply device_store_invariant, demo_store_ok. Defined.

(** The second device of an organization with one license is refused. *)
Lemma license_bound_witness :
  let run := execs (λ _ _, false) (λ _, true) demo_db
    [(demo_env 5 "d1", KRegister (demo_reg "acme" "laptop" "f1" "42"));
     (demo_env 6 "d2", KRegister (demo_reg "acme" "tablet" "f2" "43"))] in
  licensed run ∧ active_devices run "acme" = 1%Z.
Proof.
  cbv zeta. split; [|vm_compute; reflexivity]. apply license_bound; [exact demo_licensed|].
  split; [vm_compute; exact I|]. split; [vm_compute; exact I|exact I].
Defined.

Lemma registration_recognised_witness :
  let db' := fst (RegisterMTLSDevice (demo_env 5 "d1") demo_db (demo_reg "acme" "laptop" "f1" "42")) in
  snd (ValidateMTLSDevice (demo_env 7 "d2") db' "acme" "f1" "42") = Ok "d1".
Proof.
  cbv zeta.
  apply (registration_recognised (demo_env 5 "d1") demo_db (demo_reg "acme" "laptop" "f1" "42") _ "d1" (demo_env 7 "d2"));
    [exact demo_store_ok|vm_compute; exact I|vm_compute; reflexivity|reflexivity|reflexivity| |done].
  intros j s Hj Ha _ _. revert Hj Ha.
  assert (Hd : devices (fst (RegisterMTLSDevice (demo_env 5 "d1") demo_db (demo_reg "acme" "laptop" "f1" "42"))) =
    <["d1" := new_device 5 (demo_reg "acme" "laptop" "f1" "42")]> {["d0" := demo_blocked]}) by (vm_compute; reflexivity).
  rewrite Hd.
  rewrite lookup_insert_Some, lookup_singleton_Some. by intros [[<- _]|[_ [_ <-]]].
Defined.

Definition demo_log : DeviceClientLog := mkLog 3 "info" "agent" "started" "" "h1".
Lemma logs_idempotent_witness :
  let db' := fst (SaveClientLogs (λ _, true) (demo_env 5 "") 0 demo_db "acme" "d0" [demo_log; demo_log]) in
  SaveClientLogs (λ _, true) (demo_env 6 "") 0 db' "acme" "d0" [demo_log; demo_log] = (db', Ok tt)
  ∧ length (logs db') = 1.
Proof.
  cbv zeta. split; [|vm_compute; reflexivity].
  apply (logs_idempotent (λ _, true) (demo_env 5 "") (demo_env 6 "") 0 0 demo_db); [vm_compute; reflexivity|done].
Defined.

End Devices.
