(* ===== verification/AgentAuth.v ===== *)
(** * Agent bootstrap (api/handlers/agent_auth_handler.go, portal_handler.go, device_handler.go,
      mdm/handler_helpers.go)

    A device proves itself with a client certificate, is registered in the device store and
    gets an agent token; the portal registers a device with the certificate it issues; the
    check-in of a mobile device registers one without.  A request body is the decoded record,
    [None] when it does not decode.

    Of a certificate, [organization] and [not_after] are the fields the handler reads
    besides those of [Access.peer_cert]; [parse_leaf] is PEM and X.509 parsing. *)

From S2P Require Import Prelude GoStrings GoText GoTime Encoding Sql Sha256 Jwt AuthStore Access ScimStore Devices.
From Stdlib Require Import Ascii.
#[local] Open Scope string_scope.
#[local] Open Scope nat_scope.
#[local] Open Scope list_scope.

Module AgentAuth.
Import GoStrings Jwt Access Devices.Devices.

Record mtlsClientIdentity := mkClientIdentity {
  Subject : string;
  CommonName : string;
  Organizations : list string;
  Serial : string;
  FingerprintSHA256 : string;
  NotAfter : Z;
}.

Definition upper_char (c : ascii) : ascii :=
  let n := nat_of_ascii c in if (97 <=? n) && (n <=? 122) then ascii_of_nat (n - 32) else c.
Definition ToUpper : string → string := smap upper_char.

(** The last [CN] and every [O] of a subject. *)
Definition subject_part (acc : string * list string) (component : string) : string * list string :=
  match GoText.cut "="%char (TrimSpace component) with
  | None => acc
  | Some (k, v) =>
      let k := ToUpper (TrimSpace k) in
      if bool_decide (k = "CN") then (TrimSpace v, snd acc)
      else if bool_decide (k = "O") then (fst acc, snd acc ++ [TrimSpace v])
      else acc
  end.
Definition certificateSubjectIdentity (subject : string) : string * list string :=
  foldl subject_part ("", []) (Split ","%char subject).

Definition contains (values : list string) (expected : string) : bool := existsb (λ v, bool_decide (v = expected)) values.

Definition decodeHeader (value : string) : string :=
  if bool_decide (value = "") then "" else TrimSpace (default value (unescape false value)).

Definition year_ns : Z := 365 * 24 * 3600 * 1000000000.

Section Handlers.
Context (parse_leaf : string → option peer_cert) (organization : peer_cert → list string) (not_after : peer_cert → Z).

Definition clientCertificateIdentity (t : Z) (req : request) : option mtlsClientIdentity :=
  match peers req with
  | cert :: _ =>
      Some (mkClientIdentity (c_subject cert) (c_cn cert) (organization cert) (c_serial cert)
              (cert_fingerprint cert) (not_after cert))
  | [] =>
      let subject := decodeHeader (header req "X-Amzn-Mtls-Clientcert-Subject") in
      let serial := decodeHeader (header req "X-Amzn-Mtls-Clientcert-Serial-Number") in
      let leaf := decodeHeader (header req "X-Amzn-Mtls-Clientcert-Leaf") in
      let leaf := if bool_decide (leaf = "") then decodeHeader (header req "X-Amzn-Mtls-Clientcert") else leaf in
      if bool_decide (subject = "") && bool_decide (serial = "") && bool_decide (leaf = "") then None
      else
        let fingerprint := header req "X-Amzn-Mtls-Clientcert-Fingerprint" in
        let '(commonName, organizations) := certificateSubjectIdentity subject in
        let i0 := mkClientIdentity subject commonName organizations serial fingerprint (t + year_ns) in
        let i :=
          if bool_decide (leaf ≠ "") then
            match parse_leaf leaf with
            | Some cert =>
                mkClientIdentity (if bool_decide (subject = "") then c_subject cert else subject) (c_cn cert)
                  (organization cert) (if bool_decide (serial = "") then c_serial cert else serial)
                  (cert_fingerprint cert) (not_after cert)
            | None => i0
            end
          else i0 in
        Some (mkClientIdentity (Subject i) (CommonName i) (Organizations i) (Serial i)
                (if bool_decide (FingerprintSHA256 i = "")
                 then Hex.encode (Sha256.sha256 (of_string (Subject i +:+ "|" +:+ Serial i)))
                 else FingerprintSHA256 i)
                (NotAfter i))
  end.

(** ** The agent *)

Record agentAuthRequest := mkAgentReq {
  a_TenantID : string;
  a_DeviceID : string;
  Platform : string;
  ClientID : string;
  DomainJoined : string;
  UPN : string;
}.

Inductive agent_reply :=
| AErr (status : Z) (msg : string)
| AOk (token : string) (expires : Z) (agent_id tenant : string) (seats_used seats_total : Z).

Definition error_text (x : store_error) : string :=
  match x with
  | Message s => s
  | LicenseLimit => "device license limit reached"
  | NoRows => "sql: no rows in result set"
  | Db => "database error"
  end.

Context `{JwtLib} (jwtSecret : bytes).

Definition agent_device (req : agentAuthRequest) : string :=
  if bool_decide (a_DeviceID req = "") then ClientID req else a_DeviceID req.
Definition agent_registration (req : agentAuthRequest) (i : mtlsClientIdentity) : DeviceRegistration :=
  mkReg (a_TenantID req) (agent_device req) (agent_device req) (Platform req) (Subject i) (Serial i)
    (FingerprintSHA256 i) (NotAfter i) "".

Definition Authenticate (e : env) (db : DB) (r : request) (body : option agentAuthRequest) : DB * agent_reply :=
  match body with
  | None => (db, AErr 400 "invalid agent auth request")
  | Some req =>
      let deviceID := agent_device req in
      if bool_decide (a_TenantID req = "") || bool_decide (deviceID = "")
      then (db, AErr 400 "tenant_id and device_id are required")
      else
        match clientCertificateIdentity (now e) r with
        | None => (db, AErr 401 "device mTLS certificate is required")
        | Some i =>
            if negb (bool_decide (CommonName i = deviceID)) || negb (contains (Organizations i) (a_TenantID req))
            then (db, AErr 401 "device certificate identity does not match tenant_id and device_id")
            else
              match RegisterMTLSDevice e db (agent_registration req i) with
              | (db, Err LicenseLimit) => (db, AErr 402 "device license limit reached")
              | (db, Err x) => (db, AErr 401 (error_text x))
              | (db, Ok id) =>
                  let groups := match GroupNamesForDevice e 5 db id with Ok l => l | Err _ => [] end in
                  match AuthStore.AuthStore.IssueAgentToken jwtSecret (now e) (a_TenantID req) id (FingerprintSHA256 i)
                          (Serial i) groups (EqualFold (DomainJoined req) "true") (UPN req) with
                  | Err _ => (db, AErr 500 "token generation failed")
                  | Ok (jwt, expiresAt) =>
                      let '(used, total) := match GetDeploymentInfo e 6 db (a_TenantID req) with
                                            | Ok d => (LicensesConsumed d, SubscriptionLicenses d)
                                            | Err _ => (0, 0)%Z
                                            end in
                      (db, AOk jwt expiresAt id (a_TenantID req) used total)
                  end
              end
        end
  end.

(** ** The portal *)

Record portalRequest := mkPortalReq {
  p_DeviceID : string;
  p_DeviceName : string;
  p_OSType : string;
  CSRPEM : string;
  ValidDays : Z;
}.
Record issuedCertificate := mkIssued {
  is_Subject : string;
  is_Serial : string;
  is_Fingerprint : string;
  is_NotAfter : Z;
  CertificatePEM : string;
  CAChainPEM : string;
}.
(** The outcome of the certificate authority; [true]: the request itself was refused. *)
Definition issuer := string → string → string → Z → result (bool * string) issuedCertificate.

Inductive portal_reply :=
| PErr (status : Z) (msg : string)
| PIssued (device_id : string) (c : issuedCertificate).

Definition IssueDeviceCertificate (pca : option issuer) (e : env) (db : DB) (c : context) (body : option portalRequest)
  : DB * portal_reply :=
  match pca with
  | None => (db, PErr 503 "device certificate enrollment is not configured")
  | Some issue =>
      match body with
      | None => (db, PErr 400 "device_id, device_name, os_type, and csr_pem are required")
      | Some req =>
          if bool_decide (p_DeviceID req = "") || bool_decide (p_DeviceName req = "") || bool_decide (p_OSType req = "")
             || bool_decide (CSRPEM req = "")
          then (db, PErr 400 "device_id, device_name, os_type, and csr_pem are required")
          else
            match issue (CSRPEM req) (GetString c "org_id") (p_DeviceID req) (ValidDays req) with
            | Err (true, msg) => (db, PErr 400 msg)
            | Err (false, _) => (db, PErr 400 "device certificate issuance failed")
            | Ok cert =>
                match RegisterMTLSDevice e db
                        (mkReg (GetString c "org_id") (p_DeviceID req) (p_DeviceName req) (p_OSType req)
                           (is_Subject cert) (is_Serial cert) (is_Fingerprint cert) (is_NotAfter cert)
                           (GetString c "user_id")) with
                | (db, Err _) => (db, PErr 500 "device registration failed")
                | (db, Ok _) => (db, PIssued (p_DeviceID req) cert)
                end
            end
      end
  end.

End Handlers.

(** ** The inventory *)

Fixpoint all_digits (s : string) : bool :=
  match s with "" => true | String c s => Json.is_digit c && all_digits s end.
(** [n, _ := strconv.Atoi(s)]: zero for a text that is no number, the nearest value for
    one out of range. *)
Definition Atoi (s : string) : Z :=
  let num r := if all_digits r && negb (bool_decide (r = "")) then fst (Json.read_digits 0 r) else 0%Z in
  let n := match s with
           | String "-"%char r => (- num r)%Z
           | String "+"%char r => num r
           | _ => num s
           end in
  Z.max (- 2 ^ 63) (Z.min (2 ^ 63 - 1) n).

Inductive device_reply :=
| DErr (status : Z) (msg : string)
| DList (l : list DeviceInventoryItem)
| DDetail (d : DeviceDetail).

Definition ListDevices_ (ilike : string → string → bool) (e : env) (db : DB) (c : context) (search : string)
    (limit : option string) : device_reply :=
  let org := GetString c "org_id" in
  if bool_decide (org = "") then DErr 401 "organization context required"
  else
    match ListDevices ilike e 0 db org search (Atoi (default "200" limit)) with
    | Err _ => DErr 500 "failed to list devices"
    | Ok l => DList l
    end.

Definition GetDevice (ilike : string → string → bool) (e : env) (db : DB) (c : context) (id : string) : device_reply :=
  let org := GetString c "org_id" in
  if bool_decide (org = "") then DErr 401 "organization context required"
  else
    match GetDeviceDetail ilike e db org id with
    | Err NoRows => DErr 404 "device not found"
    | Err _ => DErr 500 "failed to get device"
    | Ok d => DDetail d
    end.

(** ** Mobile check-in *)

Record checkinRequest := mkCheckin { k_DeviceID : string; k_TenantID : string }.
Inductive checkin_reply := KErr | KEnrolled (device_id tenant_id platform : string).

Definition handleJSONCheckin (e : env) (db : DB) (body : option checkinRequest) : DB * checkin_reply :=
  match body with
  | None => (db, KErr)
  | Some req =>
      let device := if bool_decide (k_DeviceID req = "") then "unknown-android-device" else k_DeviceID req in
      let tenant := if bool_decide (k_TenantID req = "") then "default" else k_TenantID req in
      let ostype := if Contains (ToLower device) "ios" then "ios" else "android" in
      (fst (RegisterMTLSDevice e db (mkReg tenant device device ostype "" "" "" GoTime.GoTime.zero_time "")),
       KEnrolled device tenant ostype)
  end.

(** ** Properties *)

Section Properties.
Context (parse_leaf : string → option peer_cert) (organization : peer_cert → list string) (not_after : peer_cert → Z).
Context `{JwtLib} (jwtSecret : bytes).

Abbreviation client_identity := (clientCertificateIdentity parse_leaf organization not_after).
Abbreviation auth := (Authenticate parse_leaf organization not_after jwtSecret).

(** C24: The bootstrap and the device middleware read a certificate alike: on every request
    whose fingerprint header has no surrounding space, the subject, serial number and
    fingerprint the agent handler registers are those the middleware validates later, and
    the one finds no certificate exactly when the other finds none. *)
Theorem identities_agree t req :
  TrimSpace (header req "X-Amzn-Mtls-Clientcert-Fingerprint") = header req "X-Amzn-Mtls-Clientcert-Fingerprint" →
  deviceCertificateIdentity parse_leaf req =
  (λ i, mkIdentity (Subject i) (Serial i) (FingerprintSHA256 i)) <$> client_identity t req.
Proof.
  intros Htrim. unfold deviceCertificateIdentity, clientCertificateIdentity. destruct (peers req); [|done].
  change decodeHeader with decodeMTLSHeader. rewrite Htrim.
  set (subj := decodeMTLSHeader (header req "X-Amzn-Mtls-Clientcert-Subject")).
  set (ser := decodeMTLSHeader (header req "X-Amzn-Mtls-Clientcert-Serial-Number")).
  destruct (_ && _); [done|]. destruct (certificateSubjectIdentity subj) as [cn os].
  case_bool_decide; [|done]. by destruct (parse_leaf _).
Qed.

(** The database the bootstrap leaves is that of the registration, once the certificate
    matches. *)
Lemma auth_inv e db req body :
  fst (auth e db req body) = db ∨
  ∃ b i, body = Some b ∧ client_identity (now e) req = Some i ∧ CommonName i = agent_device b
    ∧ a_TenantID b ∈ Organizations i
    ∧ fst (auth e db req body) = fst (RegisterMTLSDevice e db (agent_registration b i)).
Proof.
  unfold Authenticate. destruct body as [b|]; [|by left]. destruct (_ || _); [by left|].
  destruct (client_identity (now e) req) as [i|]; [|by left].
  destruct (negb _ || negb _) eqn:Hm; [by left|]. right. exists b, i.
  apply orb_false_iff in Hm as [H1%negb_false_iff%bool_decide_eq_true H2%negb_false_iff].
  unfold contains in H2. apply existsb_exists in H2 as (x & Hx%list_elem_of_In & ->%bool_decide_eq_true).
  split_and!; try done. destruct (RegisterMTLSDevice _ _ _) as [db' [id|[]]]; try done.
  destruct (AuthStore.AuthStore.IssueAgentToken _ _ _ _ _ _ _ _ _) as [[j x']|]; [|done].
  by destruct (match GetDeploymentInfo e 6 db' (a_TenantID b) with Ok d => _ | Err _ => _ end).
Qed.

Lemma auth_ok e db req body db' tok exp id tenant used total :
  auth e db req body = (db', AOk tok exp id tenant used total) →
  ∃ b i, body = Some b ∧ client_identity (now e) req = Some i ∧ CommonName i = agent_device b
    ∧ tenant = a_TenantID b ∧ tenant ∈ Organizations i ∧ tenant ≠ ""
    ∧ RegisterMTLSDevice e db (agent_registration b i) = (db', Ok id)
    ∧ ∃ groups, (groups = [] ∨ GroupNamesForDevice e 5 db' id = Ok groups)
    ∧ AuthStore.AuthStore.IssueAgentToken jwtSecret (now e) tenant id (FingerprintSHA256 i) (Serial i) groups
        (EqualFold (DomainJoined b) "true") (UPN b) = Ok (tok, exp).
Proof.
  unfold Authenticate. destruct body as [b|]; [|done]. destruct (_ || _) eqn:Hin; [done|].
  destruct (client_identity (now e) req) as [i|]; [|done].
  destruct (negb _ || negb _) eqn:Hm; [done|].
  apply orb_false_iff in Hm as [H1%negb_false_iff%bool_decide_eq_true H2%negb_false_iff].
  unfold contains in H2. apply existsb_exists in H2 as (x & Hx%list_elem_of_In & ->%bool_decide_eq_true).
  apply orb_false_iff in Hin as [Ht%bool_decide_eq_false _].
  destruct (RegisterMTLSDevice _ _ _) as [d [j|[]]] eqn:Hreg; try done.
  set (groups := match GroupNamesForDevice e 5 d j with Ok l => l | Err _ => [] end).
  destruct (AuthStore.AuthStore.IssueAgentToken _ _ _ _ _ _ _ _ _) as [[w x']|] eqn:Htok; [|done].
  destruct (match GetDeploymentInfo e 6 d (a_TenantID b) with Ok d => _ | Err _ => _ end) as [u v].
  intros [= <- <- <- <- <- <- <-]. exists b, i. split_and!; try done. exists groups. split; [|done].
  subst groups. destruct (GroupNamesForDevice e 5 d j) as [l|]; [by right|by left].
Qed.

(** The device store as the middleware asks it. *)
Definition validator (e : env) (db : DB) (org fp sn : string) : option string :=
  match snd (ValidateMTLSDevice e db org fp sn) with Ok id => Some id | Err _ => None end.

Lemma DeviceMTLSAuth_passes v req c i dev :
  deviceCertificateIdentity parse_leaf req = Some i → tenant_header req ≠ "" →
  v (tenant_header req) (fingerprint i) (serial i) = Some dev →
  ∃ c', DeviceMTLSAuth parse_leaf (Some v) req c = Next c' ∧
    GetString c' "org_id" = tenant_header req ∧ GetString c' "device_org_id" = tenant_header req ∧
    GetString c' "device_id" = dev.
Proof.
  intros Hi Ht Hv. assert (Hn : ∃ c', DeviceMTLSAuth parse_leaf (Some v) req c = Next c').
  { unfold DeviceMTLSAuth. rewrite Hi, bool_decide_false, Hv by done. eauto. }
  destruct Hn as [c' Hc]. exists c'. split; [done|].
  destruct (DeviceMTLSAuth_Next _ _ _ _ _ Hc) as (i' & d & Hi' & _ & Hd & Ho & Hdo & Hdev & _).
  rewrite Hi in Hi'. injection Hi' as <-. rewrite Hv in Hd. injection Hd as <-. done.
Qed.

Lemma issue_agent_inv t org dev fp sn groups j u tok exp :
  AuthStore.AuthStore.IssueAgentToken jwtSecret t org dev fp sn groups j u = Ok (tok, exp) →
  jwt_sign (AuthStore.AuthStore.agent_claims t org (if bool_decide (dev = "") then "unknown-device" else dev)
              fp sn groups j u) jwtSecret = Some tok ∧ TrimSpace sn ≠ "" ∧ exp = (t + AuthStore.AuthStore.access_ttl)%Z.
Proof.
  unfold AuthStore.AuthStore.IssueAgentToken. destruct (_ || _) eqn:Hin; [done|].
  apply orb_false_iff in Hin as [_ Hs%bool_decide_eq_false].
  destruct (jwt_sign _ _) as [w|]; [|done]. by intros [= <- <-].
Qed.

Lemma agent_claims_lookup t org dev fp sn groups j u :
  let c := AuthStore.AuthStore.agent_claims t org dev fp sn groups j u in
  c !! "org_id" = Some (CString org) ∧ c !! "device_id" = Some (CString dev) ∧ c !! "role" = Some (CString "agent")
  ∧ c !! "device_cert_fingerprint_sha256" = Some (CString fp)
  ∧ c !! "exp" = Some (CNumber (AuthStore.AuthStore.unix (t + AuthStore.AuthStore.access_ttl))).
Proof.
  unfold AuthStore.AuthStore.agent_claims. cbn zeta. destruct (0 <? length groups); case_bool_decide;
    repeat split; repeat first [rewrite lookup_insert_eq; done | rewrite lookup_insert_ne by done].
Qed.

(** C22: An agent token is a device's.  The bootstrap answers with a token only when the
    certificate names the device as its common name and the tenant among its
    organizations, and the device is registered with that certificate as active; until
    it expires the token validates, with the role of an agent, the tenant and the
    registered device. *)
Theorem agent_token_sound e db req body db' tok exp id tenant used total t :
  auth e db req body = (db', AOk tok exp id tenant used total) → id ≠ "" →
  (AuthStore.AuthStore.unix t < AuthStore.AuthStore.unix exp)%Z →
  ∃ i r c, client_identity (now e) req = Some i ∧ tenant ∈ Organizations i
    ∧ devices db' !! id = Some r ∧ d_device_id r = CommonName i ∧ d_status r = Some "active"
    ∧ d_fingerprint r = Some (FingerprintSHA256 i)
    ∧ AuthStore.AuthStore.ValidateAccessToken jwtSecret t tok = Ok c
    ∧ c !! "role" = Some (CString "agent") ∧ c !! "org_id" = Some (CString tenant)
    ∧ c !! "device_id" = Some (CString id).
Proof.
  intros Ha Hid Ht. apply auth_ok in Ha as (b & i & _ & Hi & Hcn & _ & Hten & _ & Hreg & groups & _ & Htok).
  apply issue_agent_inv in Htok as (Hsign & _ & ->). rewrite (bool_decide_false (id = "")) in Hsign by done.
  pose proof (registration_inv e db (agent_registration b i)) as Hinv. rewrite Hreg in Hinv.
  destruct Hinv as (o & r & _ & Hr & _ & _ & Hs & _). apply set_consumed_devices in Hs as [Hd _].
  destruct (registered_spec _ _ _ _ _ Hr) as (Hdev & Hf & _ & Hst & _ & _).
  destruct (agent_claims_lookup (now e) tenant id (FingerprintSHA256 i) (Serial i) groups
    (EqualFold (DomainJoined b) "true") (UPN b)) as (Ho & Hdi & Hro & _ & He).
  eexists i, r, _. split_and!; [done|done| |by rewrite Hcn|done|done| |exact Hro|exact Ho|exact Hdi].
  - rewrite Hd. apply lookup_insert_eq.
  - unfold AuthStore.AuthStore.ValidateAccessToken.
    erewrite (parse_signed _ _ _ (AuthStore.AuthStore.access_key jwtSecret)); [done|exact Hsign|done|].
    unfold expired. rewrite He. by apply Z.leb_gt.
Qed.

(** C23: A bootstrapped agent is let in.  After the bootstrap, a request with the same
    certificate and the tenant in its header passes the device middleware until the
    certificate ends, as the device the bootstrap named, when the device identifier was
    not another tenant's and no other active device of the tenant has its serial number. *)
Theorem agent_then_device e db req body db' tok exp id tenant used total i e' req' :
  store_ok db → auth e db req body = (db', AOk tok exp id tenant used total) →
  client_identity (now e) req = Some i →
  (∀ j r, devices db !! j = Some r → d_device_id r = CommonName i → d_org r = tenant) →
  (∀ j s, devices db' !! j = Some s → active tenant s = true → d_serial s = Some (Serial i) → j = id) →
  TrimSpace (header req' "X-Amzn-Mtls-Clientcert-Fingerprint") = header req' "X-Amzn-Mtls-Clientcert-Fingerprint" →
  client_identity (now e') req' = Some i → tenant_header req' = tenant →
  ok e' 0 = true → (now e' < NotAfter i)%Z →
  ∃ c', DeviceMTLSAuth parse_leaf (Some (validator e' db')) req' new_context = Next c' ∧
    GetString c' "device_org_id" = tenant ∧ GetString c' "device_id" = id.
Proof.
  intros Hok Ha Hi Hown Hser Htrim Hi' Hth Hok' Hexp.
  apply auth_ok in Ha as (b & i0 & _ & Hi0 & Hcn & Hten & _ & Hne & Hreg & _).
  rewrite Hi in Hi0. injection Hi0 as <-.
  pose proof (identities_agree (now e') req' Htrim) as Hag. rewrite Hi' in Hag. cbn in Hag.
  destruct (DeviceMTLSAuth_passes (validator e' db') req' new_context _ id Hag) as (c' & Hc & _ & Ho & Hd).
  - by rewrite Hth.
  - unfold validator. rewrite Hth. cbn [fingerprint serial].
    destruct (registration_recognised e db (agent_registration b i) db' id e' Hok) as [H1 _]; try done.
    + unfold own_device. cbn [DeviceID agent_registration OrgID].
      pose proof (by_device_id_spec e db (agent_device b)) as Hb.
      destruct (by_device_id _ _ _) as [[j r]|]; [|done]. destruct Hb as [Hj Hdj].
      rewrite <- Hten. apply (Hown j r Hj). by rewrite Hcn.
    + intros j s Hj Has _ Hs. apply (Hser j s Hj); [by rewrite Hten|done].
    + cbn [OrgID agent_registration] in *. by rewrite <- Hten.
    + cbn [OrgID CertFingerprintSHA256 CertSerial agent_registration] in H1. rewrite Hten. by rewrite H1.
  - exists c'. rewrite <- Hth at 1. done.
Qed.

Lemma by_device_id_unique e db id r :
  store_ok db → devices db !! id = Some r → by_device_id e db (d_device_id r) = Some (id, r).
Proof.
  intros Hok Hr. pose proof (by_device_id_spec e db (d_device_id r)) as Hb.
  destruct (by_device_id _ _ _) as [[j s]|]; [|by destruct (Hb id r)]. destruct Hb as [Hj Hd].
  assert (j = id) as -> by by apply (ids_unique db Hok j id s r). by rewrite Hr in Hj; injection Hj as ->.
Qed.

(** A registration under one organization of a device that another one holds. *)
Lemma register_foreign e db g id r o :
  store_ok db → (∀ k, ok e k = true) → devices db !! id = Some r → d_device_id r = DeviceID g → d_org r ≠ OrgID g →
  OrgID g ≠ "" → DeviceID g ≠ "" → CertFingerprintSHA256 g ≠ "" →
  orgs db !! OrgID g = Some o → (active_devices db (OrgID g) < default 0 (o_licenses o))%Z →
  device_writable db id (re_register (now e) g r) = true →
  ∃ db', RegisterMTLSDevice e db g = (db', Ok id) ∧ devices db' = <[id := re_register (now e) g r]> (devices db).
Proof.
  intros Hok Hall Hr Hd Hne Ho Hdev Hfp Horg Hfree Hw. unfold RegisterMTLSDevice.
  rewrite !bool_decide_false by done. cbn [orb]. rewrite !Hall. cbn [negb orb]. rewrite Horg.
  rewrite <- Hd, (by_device_id_unique e db id r Hok Hr).
  assert (Hna : active (OrgID g) r = false) by (unfold active; by rewrite bool_decide_false).
  rewrite Hna. cbn [negb andb]. rewrite (proj2 (Z.leb_gt _ _) Hfree).
  unfold registered. rewrite <- Hd, (by_device_id_unique e db id r Hok Hr), Hw. cbn [negb].
  unfold set_consumed. cbn [orgs with_devices]. rewrite Horg, active_insert.
  assert (Hwas : was_active db (OrgID g) id = false) by (unfold was_active; by rewrite Hr).
  assert (Hnew : active (OrgID g) (re_register (now e) g r) = false).
  { unfold active. cbn [d_org re_register]. by rewrite bool_decide_false. }
  rewrite Hwas, Hnew. cbn [b2z]. rewrite Z.add_0_r, Z.sub_0_r.
  assert (Hfit : org_ok (mkOrg (o_licenses o) (Some (active_devices db (OrgID g)))) = true).
  { unfold org_ok. cbn [o_consumed o_licenses]. apply andb_true_iff. split; [apply Z.leb_le; unfold active_devices; lia|].
    destruct (o_licenses o) as [l|]; [|done]. cbn in Hfree. apply Z.leb_le. lia. }
  rewrite Hfit. by eexists.
Qed.

(** A tenant can take over another tenant's device.  Whoever holds a certificate of
    tenant [A] for a device identifier that belongs to tenant [B] replaces, by one
    bootstrap, the certificate of [B]'s device, whatever the status of that device, and
    is from then on accepted by the device middleware as a device of [B]: the insertion
    resolves conflicts on the device identifier alone, and the middleware takes the tenant
    from a header. *)
Theorem device_takeover e db req b i id r o :
  store_ok db → (∀ k, ok e k = true) →
  devices db !! id = Some r → d_device_id r = agent_device b → d_org r ≠ a_TenantID b →
  a_TenantID b ≠ "" → agent_device b ≠ "" →
  client_identity (now e) req = Some i → CommonName i = agent_device b → a_TenantID b ∈ Organizations i →
  FingerprintSHA256 i ≠ "" → orgs db !! a_TenantID b = Some o →
  (active_devices db (a_TenantID b) < default 0 (o_licenses o))%Z →
  device_writable db id (re_register (now e) (agent_registration b i) r) = true →
  let db' := fst (auth e db req (Some b)) in
  (∃ r', devices db' !! id = Some r' ∧ d_org r' = d_org r ∧ d_status r' = Some "active" ∧
     d_fingerprint r' = Some (FingerprintSHA256 i)) ∧
  ∀ e' req', ok e' 0 = true → (now e' < NotAfter i)%Z → d_org r ≠ "" →
    deviceCertificateIdentity parse_leaf req' = Some (mkIdentity (Subject i) (Serial i) (FingerprintSHA256 i)) →
    tenant_header req' = d_org r →
    ∃ c', DeviceMTLSAuth parse_leaf (Some (validator e' db')) req' new_context = Next c' ∧
      GetString c' "device_org_id" = d_org r.
Proof.
  intros Hok Hall Hr Hd Hne Hten Hdev Hi Hcn Hin Hfp Ho Hfree Hw db'.
  destruct (register_foreign e db (agent_registration b i) id r o) as (db1 & Hreg & Hd1); try done.
  assert (Hdb : devices db' = devices db1).
  { subst db'. unfold Authenticate. rewrite !bool_decide_false by done. cbn [orb]. rewrite Hi.
    rewrite bool_decide_true by done. cbn [negb orb].
    assert (Hc : contains (Organizations i) (a_TenantID b) = true).
    { unfold contains. apply existsb_exists. eexists. split; [by apply list_elem_of_In|by apply bool_decide_true]. }
    rewrite Hc, Hreg. cbn [negb]. destruct (AuthStore.AuthStore.IssueAgentToken _ _ _ _ _ _ _ _ _) as [[j x]|]; [|done].
    by destruct (match GetDeploymentInfo e 6 db1 (a_TenantID b) with Ok d => _ | Err _ => _ end). }
  assert (Hrow : devices db' !! id = Some (re_register (now e) (agent_registration b i) r)).
  { rewrite Hdb, Hd1. apply lookup_insert_eq. }
  split; [by eexists|]. intros e' req' Hok' Hexp Horg Hid Hth.
  pose proof (validate_spec e' db' (d_org r) (FingerprintSHA256 i) (Serial i)) as Hv.
  destruct (snd (ValidateMTLSDevice e' db' (d_org r) (FingerprintSHA256 i) (Serial i))) as [j|x] eqn:Hj.
  - destruct (DeviceMTLSAuth_passes (validator e' db') req' new_context _ j Hid) as (c' & Hc & _ & Hco & _).
    + by rewrite Hth.
    + unfold validator. rewrite Hth. cbn [fingerprint serial]. by rewrite Hj.
    + exists c'. split; [done|]. by rewrite Hco.
  - exfalso. destruct Hv as [?|[[? _]|[?|Hnone]]]; [done|done|congruence|].
    specialize (Hnone id _ Hrow). apply not_true_iff_false in Hnone. apply Hnone, holds_true.
    split_and!; [done|done|by eexists|left; done].
Qed.

(** The check-in of a mobile device registers nothing: it has no certificate, which the
    store requires, yet the answer says enrolled. *)
Theorem checkin_registers_nothing e db req :
  ∃ device tenant os, handleJSONCheckin e db (Some req) = (db, KEnrolled device tenant os).
Proof.
  unfold handleJSONCheckin. do 3 eexists. f_equal. unfold RegisterMTLSDevice. cbn [CertFingerprintSHA256].
  by rewrite (bool_decide_true ("" = "")), orb_true_r.
Qed.

End Properties.
(** ** Witnesses *)

Section Witness.
#[local] Existing Instance toy_jwt.

Definition demo_orgs (c : peer_cert) : list string := ["acme"].
Definition demo_end (c : peer_cert) : Z := 1000000000000.
Definition demo_secret : bytes := of_string "secret".
Definition demo_cert (cn : string) : peer_cert := mkPeer ("CN=" +:+ cn +:+ ",O=acme") cn "42" (of_string cn).
Definition demo_req (cn tenant : string) : request :=
  mkReq "POST" (λ h, if String.eqb h "X-Tenant-ID" then tenant else "") [demo_cert cn].
Definition demo_body (device : string) : agentAuthRequest := mkAgentReq "acme" device "linux" "" "true" "ann@acme.test".
Definition demo_auth (cn : string) : DB * agent_reply :=
  Authenticate (λ _, None) demo_orgs demo_end demo_secret (demo_env 5 "d1") demo_db (demo_req cn "acme")
    (Some (demo_body cn)).
Definition demo_identity (cn : string) : mtlsClientIdentity :=
  mkClientIdentity ("CN=" +:+ cn +:+ ",O=acme") cn ["acme"] "42" (cert_fingerprint (demo_cert cn)) 1000000000000.

Lemma identities_agree_witness :
  deviceCertificateIdentity (λ _, None) (demo_req "laptop" "acme") =
  (λ i, mkIdentity (Subject i) (Serial i) (FingerprintSHA256 i)) <$>
    clientCertificateIdentity (λ _, None) demo_orgs demo_end 0 (demo_req "laptop" "acme").
Proof. apply identities_agree. reflexivity. Defined.

(** What the bootstrap of the laptop answers. *)
Lemma demo_auth_ok :
  match demo_auth "laptop" with
  | (db', AOk _ exp id tenant _ _) =>
      bool_decide (id = "d1" ∧ tenant = "acme" ∧ exp = (5 + AuthStore.AuthStore.access_ttl)%Z)
      && bool_decide (map_Forall (λ j s, active "acme" s = true → j = "d1") (devices db'))
  | _ => false
  end = true.
Proof. vm_compute. reflexivity. Qed.

Lemma agent_token_sound_witness :
  match demo_auth "laptop" with
  | (db', AOk tok exp id tenant _ _) =>
      ∃ c, AuthStore.AuthStore.ValidateAccessToken demo_secret 6 tok = Ok c ∧ c !! "device_id" = Some (CString id)
  | _ => False
  end.
Proof.
  pose proof demo_auth_ok as Hd. destruct (demo_auth "laptop") as [db' [st m|tok exp id tenant used total]] eqn:E; [done|].
  apply andb_true_iff in Hd as [(-> & -> & ->)%bool_decide_eq_true _].
  destruct (agent_token_sound (λ _, None) demo_orgs demo_end demo_secret _ _ _ _ _ _ _ _ _ _ _ 6 E ltac:(discriminate))
    as (i & r & c & _ & _ & _ & _ & _ & _ & Hv & _ & _ & Hdev); [vm_compute; reflexivity|].
  exists c. split; [exact Hv|exact Hdev].
Defined.

Lemma agent_then_device_witness :
  ∃ c', DeviceMTLSAuth (λ _, None) (Some (validator (demo_env 9 "") (fst (demo_auth "laptop"))))
    (demo_req "laptop" "acme") new_context = Next c' ∧ GetString c' "device_id" = "d1".
Proof.
  pose proof demo_auth_ok as Hd. destruct (demo_auth "laptop") as [db' [st m|tok exp id tenant used total]] eqn:E; [done|].
  apply andb_true_iff in Hd as [(-> & -> & ->)%bool_decide_eq_true Hd%bool_decide_eq_true].
  assert (Hi : ∀ t, clientCertificateIdentity (λ _, None) demo_orgs demo_end t (demo_req "laptop" "acme")
    = Some (demo_identity "laptop")) by reflexivity.
  destruct (agent_then_device (λ _, None) demo_orgs demo_end demo_secret _ _ _ _ _ _ _ _ _ _ _
    (demo_identity "laptop") (demo_env 9 "") (demo_req "laptop" "acme") demo_store_ok E (Hi 5%Z)) as (c' & Hc & _ & Hdev).
  - by intros j r [_ ->]%demo_rows.
  - intros j s Hj Ha _. exact (Hd j s Hj Ha).
  - reflexivity.
  - apply Hi.
  - reflexivity.
  - reflexivity.
  - reflexivity.
  - exists c'. split; [exact Hc|exact Hdev].
Defined.

(** Tenant acme takes over the blocked kiosk of tenant globex. *)
Lemma device_takeover_witness :
  ∃ c', DeviceMTLSAuth (λ _, None) (Some (validator (demo_env 9 "") (fst (demo_auth "kiosk"))))
    (demo_req "kiosk" "globex") new_context = Next c' ∧ GetString c' "device_org_id" = "globex".
Proof.
  assert (Hi : clientCertificateIdentity (λ _, None) demo_orgs demo_end 5 (demo_req "kiosk" "acme")
    = Some (demo_identity "kiosk")) by reflexivity.
  assert (Hf : FingerprintSHA256 (demo_identity "kiosk") ≠ "") by (intros E; vm_compute in E; discriminate E).
  assert (Hw : device_writable demo_db "d0"
    (re_register 5 (agent_registration (demo_body "kiosk") (demo_identity "kiosk")) demo_blocked) = true)
    by (vm_compute; reflexivity).
  assert (Hin : "acme" ∈ ["acme"]) by (apply elem_of_cons; by left).
  destruct (device_takeover (λ _, None) demo_orgs demo_end demo_secret (demo_env 5 "d1") demo_db
    (demo_req "kiosk" "acme") (demo_body "kiosk") (demo_identity "kiosk") "d0" demo_blocked
    (mkOrg (Some 1%Z) (Some 0%Z)) demo_store_ok (λ _, eq_refl) eq_refl eq_refl ltac:(discriminate) ltac:(discriminate)
    ltac:(discriminate) Hi eq_refl Hin Hf eq_refl eq_refl Hw) as [_ Ht].
  destruct (Ht (demo_env 9 "") (demo_req "kiosk" "globex") eq_refl eq_refl ltac:(discriminate) eq_refl eq_refl)
    as (c' & Hc & Ho).
  exists c'. split; [exact Hc|exact Ho].
Defined.

End Witness.
End AgentAuth.
