(* ===== verification/ClientConfig.v ===== *)
(** * Client configurations (internal/db/client_config_store.go,
      api/handlers/client_config_handler.go)

    One configuration per group of an organization, with an audit log.  A settings column
    holds a JSON value, [None] a null; an array of strings comes back as the text of an
    array, which the store splits again ([array_text] is how the database prints one).
    Conventions as in [ScimStore]; the tables of [Devices] are consulted for the groups of a
    device. *)

From S2P Require Import Prelude GoStrings JsonValue Sql ScimStore Devices.
From Stdlib Require Import Ascii.
#[local] Open Scope string_scope.
#[local] Open Scope nat_scope.
#[local] Open Scope list_scope.

Module ClientConfig.
Import GoStrings JsonValue Sql.

Definition env := ScimStore.env.
Definition now (e : env) : Z := ScimStore.now e.
Definition ok (e : env) (i : nat) : bool := ScimStore.e_ok e i.

(** ** Arrays of strings *)

Definition quote : ascii := "034".
Definition comma : ascii := ",".
Definition newline : ascii := "010".
Definition return_ : ascii := "013".

(** [encoding/csv] reading one record with [TrimLeadingSpace]: an unquoted field ends at a
    comma or at the end of the line and may not contain a quote; a quoted field ends at a
    quote that is not doubled. *)
Inductive csv_state := Start | Plain (field : string) | Quoted (field : string) | Closed (field : string).
Definition snoc (s : string) (c : ascii) : string := s +:+ String c "".
Fixpoint csv (st : csv_state) (s : string) : option (list string) :=
  match s with
  | "" => match st with
          | Start => Some [""]
          | Plain f | Closed f => Some [f]
          | Quoted _ => None
          end
  | String c s =>
      match st with
      | Start =>
          if Ascii.eqb c newline then Some [""]
          else if is_space c then csv Start s
          else if Ascii.eqb c comma then cons "" <$> csv Start s
          else if Ascii.eqb c quote then csv (Quoted "") s
          else csv (Plain (String c "")) s
      | Plain f =>
          if Ascii.eqb c newline then Some [f]
          else if Ascii.eqb c comma then cons f <$> csv Start s
          else if Ascii.eqb c quote then None
          else csv (Plain (snoc f c)) s
      | Quoted f => if Ascii.eqb c quote then csv (Closed f) s else csv (Quoted (snoc f c)) s
      | Closed f =>
          if Ascii.eqb c quote then csv (Quoted (snoc f c)) s
          else if Ascii.eqb c comma then cons f <$> csv Start s
          else if Ascii.eqb c newline then Some [f]
          else None
      end
  end.

(** Line ends are normalized, and empty lines before the record are skipped; a text with
    no record is an error. *)
Fixpoint drop_returns (s : string) : string :=
  match s with
  | "" => ""
  | String c s' =>
      if Ascii.eqb c return_ then
        match s' with
        | "" => ""
        | String d _ => if Ascii.eqb d newline then drop_returns s' else String c (drop_returns s')
        end
      else String c (drop_returns s')
  end.
Fixpoint skip_lines (s : string) : string :=
  match s with String c s' => if Ascii.eqb c newline then skip_lines s' else s | "" => "" end.
Definition csv_read (s : string) : option (list string) :=
  let s := skip_lines (drop_returns s) in if bool_decide (s = "") then None else csv Start s.

Fixpoint init_string (s : string) : string :=
  match s with "" => "" | String c "" => "" | String c s => String c (init_string s) end.

(** [json_strings] is the decoding of a JSON text as a list of strings. *)
Section Arrays.
Context (json_strings : string → option (list string)).

Definition fromString (raw : string) : option (list string) :=
  let raw := TrimSpace raw in
  if bool_decide (raw = "") || bool_decide (raw = "{}") || bool_decide (raw = "[]") then Some []
  else if HasPrefix raw "[" then json_strings raw
  else
    let raw := if HasPrefix raw "{" && HasSuffix raw "}"
               then init_string (match raw with String _ s => s | "" => "" end) else raw in
    (λ fields, List.filter (λ f, negb (bool_decide (f = ""))) (map TrimSpace fields)) <$> csv_read raw.

(** [Scan]: a null gives a nil slice. *)
Definition scan_slice (src : option string) : option (list string) :=
  match src with None => Some [] | Some raw => fromString raw end.

(** The text of an array: an element is quoted or plain. *)
Definition element (quoted : string → bool) (x : string) : string :=
  if quoted x then String quote (snoc x quote) else x.
Definition array_literal (quoted : string → bool) (l : list string) : string :=
  "{" +:+ Join (map (element quoted) l) "," +:+ "}".

Fixpoint free_of (cs : list ascii) (s : string) : bool :=
  match s with "" => true | String c s => negb (existsb (Ascii.eqb c) cs) && free_of cs s end.
(** An element the array text needs no escape for. *)
Definition simple (quoted : string → bool) (x : string) : Prop :=
  x ≠ "" ∧ TrimSpace x = x ∧ free_of [quote; newline; return_] x = true ∧
  (quoted x = false → free_of [comma] x = true).

Lemma snoc_app f c s : snoc f c +:+ s = f +:+ String c s.
Proof. unfold snoc. induction f as [|d f IH]; [done|]. exact (f_equal (String d) IH). Qed.
Lemma app_empty (s : string) : s +:+ "" = s.
Proof. induction s as [|c s IH]; [done|]. exact (f_equal (String c) IH). Qed.

Lemma csv_quoted f x rest : free_of [quote] x = true → csv (Quoted f) (x +:+ rest) = csv (Quoted (f +:+ x)) rest.
Proof.
  revert f. induction x as [|c x IH]; intros f; [by rewrite app_empty|].
  change (String c x +:+ rest) with (String c (x +:+ rest)). cbn [free_of csv existsb].
  intros [Hc%negb_true_iff Hx]%andb_true_iff. rewrite orb_false_r in Hc. rewrite Hc, IH by done. by rewrite snoc_app.
Qed.
Lemma csv_plain f x rest :
  free_of [quote; newline; return_] x = true → free_of [comma] x = true →
  csv (Plain f) (x +:+ rest) = csv (Plain (f +:+ x)) rest.
Proof.
  revert f. induction x as [|c x IH]; intros f; [by rewrite app_empty|].
  change (String c x +:+ rest) with (String c (x +:+ rest)). cbn [free_of csv existsb].
  intros [[Hq [Hn _]%orb_false_iff]%negb_true_iff%orb_false_iff Hx]%andb_true_iff
    [Hc%negb_true_iff Hx']%andb_true_iff. rewrite orb_false_r in Hc. rewrite Hq, Hn, Hc, IH by done. by rewrite snoc_app.
Qed.
Lemma free_of_mono cs cs' s : (∀ c, c ∈ cs' → c ∈ cs) → free_of cs s = true → free_of cs' s = true.
Proof.
  intros Hi. induction s as [|c s IH]; [done|]. cbn. intros [Hc%negb_true_iff Hs]%andb_true_iff.
  rewrite IH by done. rewrite andb_true_r. apply negb_true_iff, not_true_iff_false.
  intros (d & Hd & He)%existsb_exists. apply not_true_iff_false in Hc. apply Hc, existsb_exists. exists d.
  split; [|done]. by apply list_elem_of_In, Hi, list_elem_of_In.
Qed.

(** After an element comes a comma or the end. *)
Lemma csv_element quoted x rest k :
  simple quoted x → (rest = "" ∧ k = id ∨ ∃ r, rest = String comma r ∧ k = λ _, cons x <$> csv Start r) →
  csv Start (element quoted x +:+ rest) = k (Some [x]).
Proof.
  intros (Hne & Htrim & Hfree & Hcomma) Hk. unfold element. destruct (quoted x).
  - change (String quote (snoc x quote) +:+ rest) with (String quote (snoc x quote +:+ rest)). rewrite snoc_app.
    change (csv Start (String quote ?s)) with (csv (Quoted "") s). rewrite csv_quoted by (revert Hfree; apply free_of_mono; set_solver). cbn.
    by destruct Hk as [[-> ->]|(r & -> & ->)].
  - specialize (Hcomma eq_refl). destruct x as [|c x]; [done|]. pose proof (TrimSpace_head _ _ Htrim) as Hs.
    change (String c x +:+ rest) with (String c (x +:+ rest)). cbn [free_of csv existsb] in *.
    apply andb_true_iff in Hfree as [Hf Hx]. apply andb_true_iff in Hcomma as [Hc Hx'].
    apply negb_true_iff, orb_false_iff in Hf as [Hq [Hn _]%orb_false_iff].
    rewrite orb_false_r in Hc. apply negb_true_iff in Hc. rewrite Hn, Hs, Hc, Hq, csv_plain by done. cbn.
    by destruct Hk as [[-> ->]|(r & -> & ->)].
Qed.

Lemma csv_join quoted l : l ≠ [] → Forall (simple quoted) l → csv Start (Join (map (element quoted) l) ",") = Some l.
Proof.
  intros Hne Hl. induction Hl as [|x l Hx Hl IH]; [done|]. destruct l as [|y l].
  - cbn [map]. unfold Join. cbn [String.concat]. rewrite <- (app_empty (element quoted x)).
    rewrite (csv_element quoted x "" id Hx); auto.
  - cbn [map]. rewrite Join_cons by done. cbn [map] in IH. specialize (IH ltac:(done)).
    rewrite (csv_element quoted x _ (λ _, cons x <$> csv Start (Join (element quoted y :: map (element quoted) l) ",")) Hx).
    + by rewrite IH.
    + right. by eexists.
Qed.

Lemma free_of_app cs a b : free_of cs (a +:+ b) = free_of cs a && free_of cs b.
Proof.
  induction a as [|c a IH]; [done|]. change (String c a +:+ b) with (String c (a +:+ b)). cbn [free_of].
  by rewrite IH, andb_assoc.
Qed.
Lemma drop_returns_id s : free_of [return_] s = true → drop_returns s = s.
Proof.
  induction s as [|c s IH]; [done|]. cbn [free_of existsb drop_returns]. intros [Hc%negb_true_iff Hs]%andb_true_iff.
  rewrite orb_false_r in Hc. by rewrite Hc, IH.
Qed.
Lemma skip_lines_id s : free_of [newline] s = true → skip_lines s = s.
Proof.
  destruct s as [|c s]; [done|]. cbn [free_of existsb skip_lines]. intros [Hc%negb_true_iff _]%andb_true_iff.
  rewrite orb_false_r in Hc. by rewrite Hc.
Qed.
Lemma init_string_app s c : init_string (s +:+ String c "") = s.
Proof.
  induction s as [|d s IH]; [done|]. change (String d s +:+ String c "") with (String d (s +:+ String c "")). cbn [init_string].
  destruct (s +:+ String c "") as [|x r] eqn:E; [by destruct s|]. by rewrite IH.
Qed.
Lemma element_free quoted x : simple quoted x → free_of [newline; return_] (element quoted x) = true.
Proof.
  intros (_ & _ & Hf & _). apply (free_of_mono _ [newline; return_]) in Hf; [|set_solver].
  unfold element, snoc. destruct (quoted x); [|done].
  change (String quote (x +:+ String quote "")) with (String quote "" +:+ (x +:+ String quote "")).
  by rewrite !free_of_app, Hf.
Qed.
Lemma join_free quoted l :
  Forall (simple quoted) l → free_of [newline; return_] (Join (map (element quoted) l) ",") = true.
Proof.
  induction 1 as [|x l Hx Hl IH]; [done|]. destruct l as [|y l]; cbn [map]; [by apply element_free|].
  rewrite Join_cons, !free_of_app by done. rewrite (element_free quoted x Hx). exact IH.
Qed.
Lemma map_trim quoted l : Forall (simple quoted) l → List.filter (λ f, negb (bool_decide (f = ""))) (map TrimSpace l) = l.
Proof.
  induction 1 as [|x l (Hne & Ht & _) Hl IH]; [done|]. cbn [map List.filter]. by rewrite Ht, bool_decide_false, IH.
Qed.
Lemma join_nonempty quoted x l : simple quoted x → Join (map (element quoted) (x :: l)) "," ≠ "".
Proof.
  intros (Hne & _). assert (He : element quoted x ≠ "") by (unfold element; by destruct (quoted x)).
  cbn [map]. destruct (map (element quoted) l); [done|]. rewrite Join_cons by done. by destruct (element quoted x).
Qed.

(** A list of strings survives the database: whichever elements its text quotes, as
    long as it quotes those with a comma, the store reads back the list, for elements that
    are not empty, have no surrounding space, and need no escape in the text. *)
Theorem list_column_roundtrip quoted l :
  l ≠ [] → Forall (simple quoted) l → fromString (array_literal quoted l) = Some l.
Proof.
  intros Hne Hl. unfold fromString, array_literal. set (J := Join (map (element quoted) l) ",").
  assert (HJ : J ≠ "") by (destruct Hl as [|x l Hx Hl]; [done|]; by apply join_nonempty).
  change ("{" +:+ J +:+ "}") with (String "{"%char (J +:+ String "}"%char "")).
  rewrite TrimSpace_ends by done.
  rewrite !bool_decide_false; [|by destruct J|intros [= E]; by destruct J as [|c [|]]|done]. cbn [orb].
  change (HasPrefix (String "{"%char (J +:+ String "}"%char "")) "[") with false.
  change (HasPrefix (String "{"%char (J +:+ String "}"%char "")) "{") with
    (HasPrefix ("{" +:+ (J +:+ "}")) "{"). rewrite HasPrefix_app.
  change (String "{"%char (J +:+ String "}"%char "")) with (("{" +:+ J) +:+ "}") at 1. rewrite HasSuffix_app. cbn [andb].
  rewrite init_string_app. pose proof (join_free quoted l Hl) as Hf. fold J in Hf. unfold csv_read.
  rewrite drop_returns_id by (revert Hf; apply free_of_mono; set_solver).
  rewrite skip_lines_id by (revert Hf; apply free_of_mono; set_solver).
  rewrite bool_decide_false by done. unfold J. rewrite csv_join by done. cbn. by rewrite map_trim with (quoted := quoted).
Qed.

(** ** Records *)

Record ClientConfigRecord := mkConfig {
  ID : string;
  OrgID : string;
  GroupID : string;
  GroupName : string;
  Priority : Z;
  TunnelSettings : option json;
  FeaturesSettings : option json;
  RoutingSettings : option json;
  PrivateAccessSettings : option json;
  InstallSettings : option json;
  TamperproofSettings : option json;
  SessionTimeoutMins : Z;
  PeriodicAuthMins : Z;
  DNSServers : list string;
  AllowedProtocols : list string;
  GatewayPriority : list string;
  Version : Z;
  CreatedAt : Z;
  UpdatedAt : Z;
  CreatedBy : string;
  UpdatedBy : string;
}.

(** What the audit log records of a configuration. *)
Record payload := mkPayload {
  p_GroupID : string;
  p_GroupName : string;
  p_Priority : Z;
  p_settings : list (option json);
  p_mins : Z * Z;
  p_lists : list (list string);
  p_Version : Z;
}.
Definition clientConfigAuditPayload (c : ClientConfigRecord) : payload :=
  mkPayload (GroupID c) (GroupName c) (Priority c)
    [TunnelSettings c; FeaturesSettings c; RoutingSettings c; PrivateAccessSettings c; InstallSettings c;
     TamperproofSettings c]
    (SessionTimeoutMins c, PeriodicAuthMins c) [DNSServers c; AllowedProtocols c; GatewayPriority c] (Version c).

Record ClientConfigAuditLog := mkAudit {
  al_OrgID : string;
  ConfigID : string;
  Action : string;
  ChangedBy : string;
  OldValues : option payload;
  NewValues : option payload;
  ChangeSummary : string;
  al_CreatedAt : Z;
}.

(** The rows are the records; a list column of a row is the list. *)
Record DB := mkDB {
  dev : Devices.Devices.DB;
  configs : gmap string ClientConfigRecord;
  audit : list ClientConfigAuditLog;
}.
Definition with_configs (db : DB) (m : gmap string ClientConfigRecord) : DB := mkDB (dev db) m (audit db).
Definition with_audit (db : DB) (l : list ClientConfigAuditLog) : DB := mkDB (dev db) (configs db) l.

Inductive store_error := NoRows | UniqueViolation | NotNull | Failed.
Definition IsUniqueViolation (x : store_error) : bool := match x with UniqueViolation => true | _ => false end.

Definition empty_object : json := JObject [].
Definition normalizeJSONPayload (raw : option json) : option json :=
  match raw with None => Some empty_object | _ => raw end.

Context (array_text : list string → string).

(** An empty list is a null or the empty array. *)
Definition scan_list (l : list string) : option (list string) :=
  match l with [] => Some [] | _ => scan_slice (Some (array_text l)) end.
Definition scanClientConfig (r : ClientConfigRecord) : option ClientConfigRecord :=
  d ← scan_list (DNSServers r); a ← scan_list (AllowedProtocols r); g ← scan_list (GatewayPriority r);
  Some (mkConfig (ID r) (OrgID r) (GroupID r) (GroupName r) (Priority r) (TunnelSettings r) (FeaturesSettings r)
          (RoutingSettings r) (PrivateAccessSettings r) (InstallSettings r) (TamperproofSettings r)
          (SessionTimeoutMins r) (PeriodicAuthMins r) d a g (Version r) (CreatedAt r) (UpdatedAt r)
          (CreatedBy r) (UpdatedBy r)).

(** The constraints of a row. *)
Definition settings_present (r : ClientConfigRecord) : bool :=
  forallb (λ j : option json, bool_decide (is_Some j))
    [TunnelSettings r; FeaturesSettings r; RoutingSettings r; PrivateAccessSettings r; InstallSettings r;
     TamperproofSettings r].
Definition same_group (org group : string) (r : ClientConfigRecord) : bool :=
  bool_decide (OrgID r = org ∧ GroupID r = group).
Definition org_exists (db : DB) (org : string) : bool := bool_decide (is_Some (Devices.Devices.orgs (dev db) !! org)).

(** The log refers to an existing configuration. *)
Definition logAudit (e : env) (i : nat) (db : DB) (l : ClientConfigAuditLog) : DB :=
  if ok e i && bool_decide (is_Some (configs db !! ConfigID l)) then with_audit db (audit db ++ [l]) else db.

Definition Create (e : env) (db : DB) (org : string) (c : ClientConfigRecord) : DB * result store_error ClientConfigRecord :=
  let id := ScimStore.new_id e in
  let c := mkConfig id org (GroupID c) (GroupName c) (Priority c) (TunnelSettings c) (FeaturesSettings c)
             (normalizeJSONPayload (RoutingSettings c)) (PrivateAccessSettings c) (InstallSettings c)
             (TamperproofSettings c) (SessionTimeoutMins c) (PeriodicAuthMins c) (DNSServers c)
             (AllowedProtocols c) (GatewayPriority c) 1 (now e) (now e) (CreatedBy c) (UpdatedBy c) in
  if negb (ok e 0 && bool_decide (configs db !! id = None) && org_exists db org) then (db, Err Failed)
  else if negb (settings_present c) then (db, Err NotNull)
  else if taken (same_group org (GroupID c)) (configs db) id then (db, Err UniqueViolation)
  else
    let db := with_configs db (<[id := c]> (configs db)) in
    (logAudit e 1 db (mkAudit org id "create" (CreatedBy c) None (Some (clientConfigAuditPayload c))
                        "Client configuration created" (now e)), Ok c).

Definition select_group (e : env) (db : DB) (org group : string) : option (string * ClientConfigRecord) :=
  head (select (ScimStore.e_ro e) (λ _ r, same_group org group r) (configs db)).

Definition GetByGroupID (e : env) (i : nat) (db : DB) (org group : string) : result store_error ClientConfigRecord :=
  if negb (ok e i) then Err Failed
  else
    match select_group e db org group with
    | None => Err NoRows
    | Some (_, r) => match scanClientConfig r with Some c => Ok c | None => Err Failed end
    end.

(** [ORDER BY CASE WHEN group_id = 'default' THEN 1 ELSE 0 END, priority, group_id] *)
Definition is_default (r : ClientConfigRecord) : bool := bool_decide (GroupID r = "default").
Definition preferred (a b : ClientConfigRecord) : bool :=
  match is_default a, is_default b with
  | false, true => true
  | true, false => false
  | _, _ => (Priority a <? Priority b)%Z || ((Priority a =? Priority b)%Z && String.leb (GroupID a) (GroupID b))
  end.
Definition prefers (a b : string * ClientConfigRecord) : Prop := preferred (snd a) (snd b) = true.
#[global] Instance prefers_dec : RelDecision prefers.
Proof. intros a b. unfold prefers. apply _. Defined.

(** The groups of the user linked to a device of the organization. *)
Definition device_groups (db : DB) (org device : string) : gset string :=
  match Devices.Devices.devices (dev db) !! device with
  | Some d =>
      match Devices.Devices.d_client_user d with
      | Some u =>
          if bool_decide (Devices.Devices.d_org d = org)
          then set_map snd (filter (λ p : string * string, fst p = u)
                 (ScimStore.client_groups (Devices.Devices.scim (dev db))))
          else ∅
      | None => ∅
      end
  | None => ∅
  end.
Definition applies (db : DB) (org device : string) (r : ClientConfigRecord) : bool :=
  bool_decide (OrgID r = org) && (is_default r || bool_decide (GroupID r ∈ device_groups db org device)).

Definition GetEffectiveForDevice (e : env) (db : DB) (org device : string) : result store_error ClientConfigRecord :=
  if negb (ok e 0) then Err Failed
  else
    match head (merge_sort prefers (select (ScimStore.e_ro e) (λ _ r, applies db org device r) (configs db))) with
    | None => Err NoRows
    | Some (_, r) => match scanClientConfig r with Some c => Ok c | None => Err Failed end
    end.

(** Rows that do not scan are left out. *)
Definition ListByOrgID (e : env) (db : DB) (org : string) : result store_error (list ClientConfigRecord) :=
  if ok e 0 then
    Ok (omap (λ kv, scanClientConfig (snd kv))
          (newest UpdatedAt (select (ScimStore.e_ro e) (λ _ r, bool_decide (OrgID r = org)) (configs db))))
  else Err Failed.

Definition org_group_le (a b : string * ClientConfigRecord) : Prop :=
  (OrgID (snd a) = OrgID (snd b) ∧ String.leb (GroupID (snd a)) (GroupID (snd b)) = true) ∨
  (OrgID (snd a) ≠ OrgID (snd b) ∧ String.leb (OrgID (snd a)) (OrgID (snd b)) = true).
#[global] Instance org_group_le_dec a b : Decision (org_group_le a b).
Proof. unfold org_group_le. apply _. Defined.
Definition ListAll (e : env) (db : DB) : result store_error (list ClientConfigRecord) :=
  if ok e 0 then
    Ok (omap (λ kv, scanClientConfig (snd kv))
          (merge_sort org_group_le (select (ScimStore.e_ro e) (λ _ _, true) (configs db))))
  else Err Failed.

(** The statement sets neither the version nor the identity of a row. *)
Definition set_config (t : Z) (c r : ClientConfigRecord) : ClientConfigRecord :=
  mkConfig (ID r) (OrgID r) (GroupID r) (GroupName c) (Priority c) (TunnelSettings c) (FeaturesSettings c)
    (RoutingSettings c) (PrivateAccessSettings c) (InstallSettings c) (TamperproofSettings c)
    (SessionTimeoutMins c) (PeriodicAuthMins c) (DNSServers c) (AllowedProtocols c) (GatewayPriority c)
    (Version r) (CreatedAt r) t (CreatedBy r) (UpdatedBy c).

Definition Update (e : env) (db : DB) (org group : string) (c : ClientConfigRecord)
  : DB * result store_error ClientConfigRecord :=
  match GetByGroupID e 2 db org group with
  | Err x => (db, Err x)
  | Ok old =>
      let c := mkConfig (ID old) org (GroupID old)
                 (if bool_decide (GroupName c = "") then GroupName old else GroupName c) (Priority c)
                 (TunnelSettings c) (FeaturesSettings c) (normalizeJSONPayload (RoutingSettings c))
                 (PrivateAccessSettings c) (InstallSettings c) (TamperproofSettings c) (SessionTimeoutMins c)
                 (PeriodicAuthMins c) (DNSServers c) (AllowedProtocols c) (GatewayPriority c) (Version c)
                 (CreatedAt old) (now e) (CreatedBy old) (UpdatedBy c) in
      if negb (ok e 3) then (db, Err Failed)
      else
        match select_group e db org group with
        | None => (db, Err NoRows)
        | Some (id, r) =>
            let r := set_config (now e) c r in
            if negb (settings_present r) then (db, Err NotNull)
            else
              let c := mkConfig (ID c) (OrgID c) (GroupID c) (GroupName c) (Priority c) (TunnelSettings c)
                         (FeaturesSettings c) (RoutingSettings c) (PrivateAccessSettings c) (InstallSettings c)
                         (TamperproofSettings c) (SessionTimeoutMins c) (PeriodicAuthMins c) (DNSServers c)
                         (AllowedProtocols c) (GatewayPriority c) (Version r) (CreatedAt c) (now e)
                         (CreatedBy c) (UpdatedBy c) in
              let db := with_configs db (<[id := r]> (configs db)) in
              (logAudit e 4 db (mkAudit org (ID old) "update" (UpdatedBy c) (Some (clientConfigAuditPayload old))
                                  (Some (clientConfigAuditPayload c)) "Client configuration updated" (now e)), Ok c)
        end
  end.

(** The logs of a deleted configuration go with it ([ON DELETE CASCADE]). *)
Definition Delete (e : env) (db : DB) (org group : string) : DB * result store_error unit :=
  match GetByGroupID e 0 db org group with
  | Err x => (db, Err x)
  | Ok c =>
      if negb (ok e 1) then (db, Err Failed)
      else
        match select_group e db org group with
        | None => (db, Err NoRows)
        | Some (id, _) =>
            let db := mkDB (dev db) (delete id (configs db))
                        (List.filter (λ l, negb (bool_decide (ConfigID l = id))) (audit db)) in
            (logAudit e 2 db (mkAudit org (ID c) "delete" "admin" (Some (clientConfigAuditPayload c)) None
                                "Client configuration deleted" (now e)), Ok tt)
        end
  end.

(** A placeholder of the query, and whether the database reads it as one. *)
Definition placeholder (argIdx : nat) : string := "$" +:+ String (ascii_of_nat argIdx) "".
Definition placeholder_ok (p : string) : bool :=
  match p with
  | String d (String c "") => Ascii.eqb d "$" && (48 <=? nat_of_ascii c) && (nat_of_ascii c <=? 57)
  | _ => false
  end.

Definition audit_newest (l : list ClientConfigAuditLog) : list ClientConfigAuditLog :=
  merge_sort (λ a b, (al_CreatedAt b <=? al_CreatedAt a)%Z) l.
Definition GetAuditLogs (e : env) (db : DB) (org group : string) (limit offset : nat)
  : result store_error (list ClientConfigAuditLog) :=
  let argIdx := 2 in
  let '(used, argIdx) := if bool_decide (group = "") then ([], argIdx) else ([placeholder argIdx], S argIdx) in
  let used := used ++ [placeholder argIdx; placeholder (S argIdx)] in
  if negb (ok e 0 && forallb placeholder_ok used) then Err Failed
  else
    let of_group l := bool_decide (group = "") ||
      match select_group e db org group with Some (id, _) => bool_decide (ConfigID l = id) | None => false end in
    Ok (take limit (drop offset (audit_newest
          (List.filter (λ l, bool_decide (al_OrgID l = org) && of_group l) (audit db))))).

(** ** Handlers *)

(** The request; [binding:"required"] wants group, name and every settings field but the
    routing. *)
Record ClientConfigRequest := mkRequest {
  q_GroupID : string;
  q_GroupName : string;
  q_Priority : Z;
  q_TunnelSettings : option json;
  q_FeaturesSettings : option json;
  q_RoutingSettings : option json;
  q_PrivateAccessSettings : option json;
  q_InstallSettings : option json;
  q_TamperproofSettings : option json;
  q_SessionTimeoutMins : Z;
  q_PeriodicAuthMins : Z;
  q_DNSServers : list string;
  q_AllowedProtocols : list string;
  q_GatewayPriority : list string;
}.
Definition bound (q : ClientConfigRequest) : bool :=
  negb (bool_decide (q_GroupID q = "")) && negb (bool_decide (q_GroupName q = ""))
  && forallb (λ j : option json, bool_decide (is_Some j))
       [q_TunnelSettings q; q_FeaturesSettings q; q_PrivateAccessSettings q; q_InstallSettings q; q_TamperproofSettings q].
Definition ShouldBindJSON (body : option ClientConfigRequest) : option ClientConfigRequest :=
  q ← body; if bound q then Some q else None.

Definition record_of (createdBy updatedBy : string) (q : ClientConfigRequest) : ClientConfigRecord :=
  mkConfig "" "" (q_GroupID q) (q_GroupName q) (q_Priority q) (q_TunnelSettings q) (q_FeaturesSettings q)
    (q_RoutingSettings q) (q_PrivateAccessSettings q) (q_InstallSettings q) (q_TamperproofSettings q)
    (q_SessionTimeoutMins q) (q_PeriodicAuthMins q) (q_DNSServers q) (q_AllowedProtocols q) (q_GatewayPriority q)
    0 0 0 createdBy updatedBy.

Inductive reply :=
| RErr (status : Z) (msg : string)
| RConfig (status : Z) (c : ClientConfigRecord)
| RConfigs (l : list ClientConfigRecord)
| RLogs (l : list ClientConfigAuditLog)
| RNoContent
| RValid (errors : list string).

(** The context has [org_id] and [user] or not. *)
Definition GetClientConfig (e : env) (db : DB) (org : option string) (group : string) : reply :=
  match org with
  | None => RErr 401 "org_id not found in context"
  | Some org =>
      if bool_decide (group = "") then RErr 400 "group_id is required"
      else
        match GetByGroupID e 0 db org group with
        | Ok c => RConfig 200 c
        | Err NoRows => RErr 404 "configuration not found"
        | Err _ => RErr 500 "failed to fetch configuration"
        end
  end.

Definition clientConfigStoreErrorMessage (x : store_error) : string :=
  match x with
  | UniqueViolation => "configuration already exists for this group"
  | NotNull => "client configuration is missing a required value"
  | _ => "failed to create configuration"
  end.

(** The update after a conflict gets the record that [Create] filled in. *)
Definition CreateClientConfig (e : env) (db : DB) (org user : option string) (body : option ClientConfigRequest)
  : DB * reply :=
  match org with
  | None => (db, RErr 401 "org_id not found in context")
  | Some org =>
      match ShouldBindJSON body with
      | None => (db, RErr 400 "invalid request")
      | Some q =>
          let user := default "admin" user in
          match Create e db org (record_of user user q) with
          | (db, Ok c) => (db, RConfig 201 c)
          | (db, Err x) =>
              if IsUniqueViolation x then
                match Update e db org (q_GroupID q) (record_of user user q) with
                | (db, Ok c) => (db, RConfig 200 c)
                | (db, Err x) => (db, RErr 500 (clientConfigStoreErrorMessage x))
                end
              else (db, RErr 500 (clientConfigStoreErrorMessage x))
          end
      end
  end.

Definition UpdateClientConfig (e : env) (db : DB) (org user : option string) (group : string)
    (body : option ClientConfigRequest) : DB * reply :=
  match org with
  | None => (db, RErr 401 "org_id not found in context")
  | Some org =>
      if bool_decide (group = "") then (db, RErr 400 "group_id is required")
      else
        match ShouldBindJSON body with
        | None => (db, RErr 400 "invalid request")
        | Some q =>
            match Update e db org group (record_of "" (default "admin" user) q) with
            | (db, Ok c) => (db, RConfig 200 c)
            | (db, Err NoRows) => (db, RErr 404 "configuration not found")
            | (db, Err _) => (db, RErr 500 "failed to update configuration")
            end
        end
  end.

Definition ListClientConfigs (e : env) (db : DB) (org : option string) : reply :=
  match org with
  | None => RErr 401 "org_id not found in context"
  | Some org => match ListByOrgID e db org with
                | Ok l => RConfigs l
                | Err _ => RErr 500 "failed to fetch configurations"
                end
  end.

Definition DeleteClientConfig (e : env) (db : DB) (org : option string) (group : string) : DB * reply :=
  match org with
  | None => (db, RErr 401 "org_id not found in context")
  | Some org =>
      if bool_decide (group = "") then (db, RErr 400 "group_id is required")
      else
        match Delete e db org group with
        | (db, Ok _) => (db, RNoContent)
        | (db, Err NoRows) => (db, RErr 404 "configuration not found")
        | (db, Err _) => (db, RErr 500 "failed to delete configuration")
        end
  end.

Definition GetAuditLogs_ (e : env) (db : DB) (org : option string) (group : string) : reply :=
  match org with
  | None => RErr 401 "org_id not found in context"
  | Some org => match GetAuditLogs e db org group 50 0 with
                | Ok l => RLogs l
                | Err _ => RErr 500 "failed to fetch audit logs"
                end
  end.

Definition ValidateConfig (body : option ClientConfigRequest) : reply :=
  match ShouldBindJSON body with
  | None => RErr 400 "invalid request"
  | Some q =>
      let below n := (n <? 1)%Z && negb (n =? 0)%Z in
      RValid ((if bool_decide (q_GroupID q = "") then ["group_id is required"] else []) ++
              (if bool_decide (q_GroupName q = "") then ["group_name is required"] else []) ++
              (if below (q_SessionTimeoutMins q) then ["session_timeout_mins must be >= 1"] else []) ++
              (if below (q_PeriodicAuthMins q) then ["periodic_auth_mins must be >= 1"] else []) ++
              match as_map (q_InstallSettings q) !! "config_sync_interval_mins" with
              | Some (JNumber n d) =>
                  if (n <? 5 * Z.pos d)%Z || (15 * Z.pos d <? n)%Z
                  then ["install_settings.config_sync_interval_mins must be between 5 and 15"] else []
              | _ => []
              end)
  end.

(** ** Calls *)

Inductive call :=
| CCreate (org user : option string) (body : option ClientConfigRequest)
| CUpdate (org user : option string) (group : string) (body : option ClientConfigRequest)
| CDelete (org : option string) (group : string).
Definition exec (e : env) (db : DB) (c : call) : DB :=
  match c with
  | CCreate o u b => fst (CreateClientConfig e db o u b)
  | CUpdate o u g b => fst (UpdateClientConfig e db o u g b)
  | CDelete o g => fst (DeleteClientConfig e db o g)
  end.
Definition execs (db : DB) (cs : list (env * call)) : DB := foldl (λ db ec, exec (fst ec) db (snd ec)) db cs.

(** ** The table *)

Record store_ok (db : DB) : Prop := mkStoreOk {
  keyed : ∀ id r, configs db !! id = Some r → ID r = id;
  groups_unique : ∀ i j r s, configs db !! i = Some r → configs db !! j = Some s →
    OrgID r = OrgID s → GroupID r = GroupID s → i = j;
  first_version : ∀ id r, configs db !! id = Some r → Version r = 1%Z;
  logs_refer : ∀ l, l ∈ audit db → is_Some (configs db !! ConfigID l);
}.

Lemma same_group_true org group r : same_group org group r = true ↔ OrgID r = org ∧ GroupID r = group.
Proof. unfold same_group. apply bool_decide_eq_true. Qed.

Lemma select_group_spec e db org group :
  match select_group e db org group with
  | Some (id, r) => configs db !! id = Some r ∧ OrgID r = org ∧ GroupID r = group
  | None => ∀ id r, configs db !! id = Some r → OrgID r = org → GroupID r ≠ group
  end.
Proof.
  unfold select_group. pose proof (select_head (ScimStore.e_ro e) (λ _ r, same_group org group r) (configs db)) as H.
  destruct (head _) as [[id r]|].
  - by destruct H as [H1 H2%same_group_true].
  - intros id r Hr Ho Hg. specialize (H id r Hr). cbn in H.
    by rewrite (proj2 (same_group_true org group r)) in H.
Qed.

Lemma logAudit_configs e i db l : configs (logAudit e i db l) = configs db ∧ dev (logAudit e i db l) = dev db.
Proof. unfold logAudit. by destruct (_ && _). Qed.

Lemma logAudit_ok e i db l : store_ok db → store_ok (logAudit e i db l).
Proof.
  intros [H1 H2 H3 H4]. unfold logAudit. destruct (_ && _) eqn:E; [|by split].
  apply andb_true_iff in E as [_ E%bool_decide_eq_true]. split; try done. cbn [audit with_audit configs].
  intros l' [Hl|Hl]%elem_of_app; [by apply H4|]. apply list_elem_of_singleton in Hl as ->. done.
Qed.

Lemma write_config_ok db id r :
  ID r = id → Version r = 1%Z →
  (∀ j s, configs db !! j = Some s → OrgID s = OrgID r → GroupID s = GroupID r → j = id) →
  store_ok db → store_ok (with_configs db (<[id := r]> (configs db))).
Proof.
  intros Hid Hv Hu [H1 H2 H3 H4]. split; cbn [configs audit with_configs].
  all: repeat setoid_rewrite lookup_insert_Some.
  - intros i x [[<- <-]|[_ Hx]]; eauto.
  - intros i j x y [[<- <-]|[Hi Hx]] [[<- <-]|[Hj Hy]] Ho Hg; eauto. symmetry. by eapply Hu.
  - intros i x [[<- <-]|[_ Hx]]; eauto.
  - intros l Hl. rewrite lookup_insert_is_Some'. right. by apply H4.
Qed.

Lemma Create_ok e db org c : store_ok db → store_ok (fst (Create e db org c)).
Proof.
  intros Hok. unfold Create. destruct (negb (_ && _ && _)); [done|]. destruct (negb _); [done|].
  destruct (taken _ _ _) eqn:Ht; [done|]. cbn [fst]. apply logAudit_ok, write_config_ok; [done|done| |done].
  intros j s Hj Ho Hg. destruct (decide (j = ScimStore.new_id e)) as [->|Hne]; [done|].
  pose proof (taken_false _ _ _ Ht j s Hj Hne) as H. by rewrite (proj2 (same_group_true _ _ s)) in H.
Qed.

Lemma Update_ok e db org group c : store_ok db → store_ok (fst (Update e db org group c)).
Proof.
  intros Hok. unfold Update. destruct (GetByGroupID e 2 db org group) as [old|]; [|done].
  destruct (negb _); [done|]. pose proof (select_group_spec e db org group) as Hs.
  destruct (select_group e db org group) as [[id r]|]; [|done]. destruct (negb _); [done|]. cbn [fst].
  destruct Hs as (Hr & Ho & Hg). apply logAudit_ok, write_config_ok; [| | |done].
  - exact (keyed db Hok id r Hr).
  - exact (first_version db Hok id r Hr).
  - intros j s Hj Hjo Hjg. exact (groups_unique db Hok j id s r Hj Hr Hjo Hjg).
Qed.

Lemma elem_of_filter_iff {A} (p : A → bool) (l : list A) x : x ∈ List.filter p l ↔ x ∈ l ∧ p x = true.
Proof. by rewrite !list_elem_of_In, filter_In. Qed.

Lemma Delete_inv e db org group :
  store_ok db →
  match Delete e db org group with
  | (db', Err _) => db' = db
  | (db', Ok _) => ∃ id r, configs db !! id = Some r ∧ OrgID r = org ∧ GroupID r = group
      ∧ db' = mkDB (dev db) (delete id (configs db)) (List.filter (λ l, negb (bool_decide (ConfigID l = id))) (audit db))
  end.
Proof.
  intros Hok. unfold Delete, GetByGroupID. destruct (negb (ok e 0)); [done|].
  pose proof (select_group_spec e db org group) as Hs.
  destruct (select_group e db org group) as [[id r]|]; [|done]. destruct Hs as (Hr & Ho & Hg).
  destruct (scanClientConfig r) as [c|] eqn:Hc; [|done]. destruct (negb _); [done|]. cbn [fst].
  exists id, r. split_and!; try done. unfold logAudit. cbn [ConfigID configs].
  assert (Hid : ID c = id).
  { unfold scanClientConfig in Hc. repeat (apply bind_Some in Hc as (? & _ & Hc)). injection Hc as <-.
    exact (keyed db Hok id r Hr). }
  rewrite Hid, lookup_delete_eq, bool_decide_false, andb_false_r; [done|]. by intros [? ?].
Qed.

Lemma Delete_ok e db org group : store_ok db → store_ok (fst (Delete e db org group)).
Proof.
  intros Hok. pose proof (Delete_inv e db org group Hok) as H. destruct (Delete e db org group) as [db' [u|x]]; cbn [fst];
    [|by subst]. destruct H as (id & r & _ & _ & _ & ->). destruct Hok as [H1 H2 H3 H4]. split; cbn [configs audit].
  all: repeat setoid_rewrite lookup_delete_Some.
  - intros i x [_ Hx]. eauto.
  - intros i j x y [_ Hx] [_ Hy]. eauto.
  - intros i x [_ Hx]. eauto.
  - intros l [Hl Hn%negb_true_iff%bool_decide_eq_false]%elem_of_filter_iff.
    destruct (H4 l Hl) as [x Hx]. exists x. by apply lookup_delete_Some.
Qed.

(** The configuration table stays well formed under every request: one configuration
    per group of an organization, each stored under its identifier, and every audit entry
    of an existing configuration.  The version of a configuration never moves from one,
    however often it is updated. *)
Theorem config_store_invariant db cs : store_ok db → store_ok (execs db cs).
Proof.
  revert db. induction cs as [|[e c] cs IH]; intros db Hok; [done|]. cbn. apply IH. destruct c as [o u b|o u g b|o g]; cbn.
  - unfold CreateClientConfig. destruct o as [org|]; [|done]. destruct (ShouldBindJSON b) as [q|]; [|done].
    pose proof (Create_ok e db org (record_of (default "admin" u) (default "admin" u) q) Hok) as Hc.
    destruct (Create _ _ _ _) as [db1 [c|x]]; [done|]. cbn [fst] in Hc. destruct (IsUniqueViolation x); [|done].
    pose proof (Update_ok e db1 org (q_GroupID q) (record_of (default "admin" u) (default "admin" u) q) Hc) as Hu.
    by destruct (Update _ _ _ _ _) as [db2 [c|y]].
  - unfold UpdateClientConfig. destruct o as [org|]; [|done]. case_bool_decide; [done|].
    destruct (ShouldBindJSON b) as [q|]; [|done].
    pose proof (Update_ok e db org g (record_of "" (default "admin" u) q) Hok) as Hu.
    by destruct (Update _ _ _ _ _) as [db2 [c|[]]].
  - unfold DeleteClientConfig. destruct o as [org|]; [|done]. case_bool_decide; [done|].
    pose proof (Delete_ok e db org g Hok) as Hd. by destruct (Delete _ _ _ _) as [db2 [c|[]]].
Qed.

(** Deleting a configuration deletes its history: after [Delete] succeeds the log has no
    entry of that configuration, not even the deletion, since entries refer to an existing
    configuration; every other entry stays. *)
Theorem delete_erases_audit e db org group db' :
  store_ok db → Delete e db org group = (db', Ok tt) →
  ∃ id r, configs db !! id = Some r ∧ OrgID r = org ∧ GroupID r = group ∧ configs db' = delete id (configs db)
    ∧ ∀ l, l ∈ audit db' ↔ l ∈ audit db ∧ ConfigID l ≠ id.
Proof.
  intros Hok Hd. pose proof (Delete_inv e db org group Hok) as H. rewrite Hd in H.
  destruct H as (id & r & Hr & Ho & Hg & ->). exists id, r. split_and!; try done. intros l. cbn [audit].
  by rewrite elem_of_filter_iff, negb_true_iff, bool_decide_eq_false.
Qed.

(** The audit log cannot be read: the query writes its parameter numbers as control
    characters, which the database does not take, so [GetAuditLogs] fails on every call. *)
Theorem audit_logs_unreadable e db org group limit offset : GetAuditLogs e db org group limit offset = Err Failed.
Proof. unfold GetAuditLogs. by case_bool_decide; cbn; rewrite andb_false_r. Qed.

(** ** The effective configuration *)

#[local] Instance prefers_total : Total prefers.
Proof.
  intros [i a] [j b]. unfold prefers, preferred. cbn.
  destruct (is_default a), (is_default b); auto.
  all: destruct (Z.ltb_spec (Priority a) (Priority b)), (Z.ltb_spec (Priority b) (Priority a)); auto.
  all: assert (Priority a = Priority b) as -> by lia; rewrite Z.eqb_refl; cbn; apply String.leb_total.
Qed.

Lemma leb_trans a b c : String.leb a b = true → String.leb b c = true → String.leb a c = true.
Proof. intros H1%Is_true_true H2%Is_true_true. apply Is_true_true. exact (transitivity (R := String.le) H1 H2). Qed.

#[local] Instance prefers_trans : Transitive prefers.
Proof.
  intros [i a] [j b] [k c]. unfold prefers, preferred. cbn.
  destruct (is_default a), (is_default b), (is_default c); try done.
  all: rewrite !orb_true_iff, !andb_true_iff, !Z.ltb_lt, !Z.eqb_eq.
  all: intros [?|[??]] [?|[??]]; try (left; lia); right; (split; [lia|by eapply leb_trans]).
Qed.

Lemma prefers_antisym a b : prefers a b → prefers b a → GroupID (snd a) = GroupID (snd b).
Proof.
  unfold prefers, preferred, is_default. repeat case_bool_decide; try done; [congruence|].
  rewrite !orb_true_iff, !andb_true_iff, !Z.ltb_lt, !Z.eqb_eq.
  intros [?|[? Hab]] [?|[? Hba]]; try lia. by apply String.leb_antisym.
Qed.

(** The first of the rows that apply. *)
Definition effective (db : DB) (org device id : string) (r : ClientConfigRecord) : Prop :=
  configs db !! id = Some r ∧ applies db org device r = true ∧
  ∀ j s, configs db !! j = Some s → applies db org device s = true → preferred r s = true.

(** The configuration of a device is the best of its groups.  The query returns the
    configuration of the organization that comes first by priority, and by name between
    equal priorities, among those of the groups of the user linked to the device, the
    default only when there is none of these; there is at most one such row, so the
    answer does not depend on how the database finds rows.  Without any, not even a
    default, it reports no rows, and a chosen row whose lists do not read back is an error. *)
Theorem effective_config_exact e db org device :
  store_ok db → ok e 0 = true →
  match GetEffectiveForDevice e db org device with
  | Ok c => ∃ id r, effective db org device id r ∧ scanClientConfig r = Some c
  | Err NoRows => ∀ id r, configs db !! id = Some r → applies db org device r = false
  | Err _ => ∃ id r, effective db org device id r ∧ scanClientConfig r = None
  end ∧
  ∀ i j r s, effective db org device i r → effective db org device j s → i = j ∧ r = s.
Proof.
  intros Hok He. split.
  - unfold GetEffectiveForDevice. rewrite He. cbn [negb].
    set (rows := select _ _ _). pose proof (merge_sort_head prefers rows) as Hh.
    destruct (head _) as [[id r]|].
    + destruct Hh as [Hin Hmin]. apply elem_of_select in Hin as [Hr Ha].
      assert (Hef : effective db org device id r).
      { split_and!; [done|done|]. intros j s Hj Has. apply (Hmin (j, s)). by apply elem_of_select. }
      destruct (scanClientConfig r) as [c|] eqn:Hc; eauto.
    + intros id r Hr. destruct (applies db org device r) eqn:Ha; [|done].
      assert (Hin : (id, r) ∈ rows) by by apply elem_of_select. rewrite Hh in Hin. by apply elem_of_nil in Hin.
  - intros i j r s (Hr & Har & Hmr) (Hs & Has & Hms).
    assert (Hg : GroupID r = GroupID s).
    { apply (prefers_antisym (i, r) (j, s)); [exact (Hmr j s Hs Has)|exact (Hms i r Hr Har)]. }
    assert (Ho : OrgID r = OrgID s).
    { unfold applies in *. apply andb_true_iff in Har as [->%bool_decide_eq_true _], Has as [->%bool_decide_eq_true _]. done. }
    assert (i = j) as -> by exact (groups_unique db Hok i j r s Hr Hs Ho Hg). rewrite Hr in Hs. by injection Hs.
Qed.

End Arrays.

(** ** Witnesses *)

Definition demo_array : list string → string := array_literal (λ _, true).
Definition demo_json (_ : string) : option (list string) := None.
Definition demo_env (t : Z) (id : string) : env := ScimStore.mkEnv t id (λ _, true) canonical_order.
Definition demo_db : DB := mkDB Devices.Devices.demo_db ∅ [].
Definition demo_request (group : string) (prio : Z) : ClientConfigRequest :=
  let j := Some (JObject []) in
  mkRequest group ("name of " +:+ group) prio j j None j j j 480 60 ["10.0.0.53"; "a,b"] [] [].
Definition demo_run : DB :=
  execs demo_json demo_array demo_db
    [(demo_env 1 "c1", CCreate (Some "acme") None (Some (demo_request "default" 5)));
     (demo_env 2 "c2", CCreate (Some "acme") (Some "ann") (Some (demo_request "sales" 9)));
     (demo_env 3 "c3", CCreate (Some "acme") None (Some (demo_request "sales" 7)))].

Lemma demo_db_ok : store_ok demo_db.
Proof.
  split; cbn [configs audit demo_db].
  - intros id r. by rewrite lookup_empty.
  - intros i j r s. by rewrite lookup_empty.
  - intros id r. by rewrite lookup_empty.
  - intros l Hl. by apply elem_of_nil in Hl.
Qed.

(** The second creation for a group updates it. *)
Lemma config_store_invariant_witness :
  store_ok demo_run ∧ size (configs demo_run) = 2 ∧ map Action (audit demo_run) = ["create"; "create"; "update"].
Proof. split; [|vm_compute; done]. apply config_store_invariant, demo_db_ok. Defined.

Lemma delete_erases_audit_witness :
  let db' := fst (Delete demo_json demo_array (demo_env 4 "") demo_run "acme" "sales") in
  ∃ id, configs db' = delete id (configs demo_run) ∧ ∀ l, l ∈ audit db' → ConfigID l ≠ id.
Proof.
  cbv zeta. destruct (Delete demo_json demo_array (demo_env 4 "") demo_run "acme" "sales") as [db' [[]|x]] eqn:E.
  - destruct (delete_erases_audit demo_json demo_array (demo_env 4 "") demo_run "acme" "sales" db') as (id & r & _ & _ & _ & Hd & Ha).
    + apply config_store_invariant, demo_db_ok.
    + exact E.
    + exists id. split; [exact Hd|]. intros l Hl. apply Ha in Hl as [_ Hl]. exact Hl.
  - exfalso. assert (H : match snd (Delete demo_json demo_array (demo_env 4 "") demo_run "acme" "sales") with
      Ok _ => True | Err _ => False end) by (vm_compute; exact I). by rewrite E in H.
Defined.

Lemma effective_config_exact_witness :
  match GetEffectiveForDevice demo_json demo_array (demo_env 4 "") demo_run "acme" "d0" with
  | Ok c => GroupID c = "default" ∧ ∃ id r, effective demo_run "acme" "d0" id r
  | Err _ => False
  end.
Proof.
  destruct (effective_config_exact demo_json demo_array (demo_env 4 "") demo_run "acme" "d0") as [H _].
  - apply config_store_invariant, demo_db_ok.
  - reflexivity.
  - assert (Hg : match GetEffectiveForDevice demo_json demo_array (demo_env 4 "") demo_run "acme" "d0" with
      Ok c => GroupID c = "default" | Err _ => False end) by (vm_compute; reflexivity).
    destruct (GetEffectiveForDevice _ _ _ _ _ _) as [c|]; [|done]. destruct H as (id & r & He & _). eauto.
Defined.

Lemma list_column_roundtrip_witness :
  fromString demo_json (array_literal (λ _, true) ["10.0.0.53"; "a,b"]) = Some ["10.0.0.53"; "a,b"].
Proof. apply list_column_roundtrip; [done|]. by repeat constructor. Defined.

End ClientConfig.
