(* ===== verification/ClientRuntime.v ===== *)
(** * The runtime interface of the client (api/handlers/client_runtime_handler.go)

    What an endpoint asks the management plane for: its profile and route policies, which are
    read out of the JSON settings of its effective configuration, and where it reports posture
    and logs.  Binding a user is [Access.BindUser].  A decoded posture request is the report
    the store is given, whose raw field is the JSON text of the whole request. *)

From S2P Require Import Prelude GoStrings GoTime JsonValue Sql Sha256 ScimStore Devices ClientConfig.
From Stdlib Require Import Ascii.
#[local] Open Scope string_scope.
#[local] Open Scope nat_scope.
#[local] Open Scope list_scope.

Module ClientRuntime.
Import GoStrings JsonValue.
Import ClientConfig.ClientConfig.

(** ** Settings *)

Abbreviation settings := (gmap string json).

Definition boolSetting (values : settings) (keys : list string) : bool :=
  default false (head (omap (λ k, match values !! k with Some (JBool b) => Some b | _ => None end) keys)).
Definition stringSetting (values : settings) (keys : list string) : string :=
  default "" (head (omap (λ k, match values !! k with Some (JString s) => Some s | _ => None end) keys)).
Definition intSetting (values : settings) (key : string) : Z :=
  match values !! key with Some (JNumber n d) => truncate n d | _ => 0%Z end.
Definition mapSetting (values : settings) (key : string) : settings :=
  match values !! key with Some (JObject l) => as_map (Some (JObject l)) | _ => ∅ end.
Definition strings_of (l : list json) : list string :=
  omap (λ j, match j with JString s => if bool_decide (s = "") then None else Some s | _ => None end) l.
Definition stringSliceSetting (values : settings) (keys : list string) : list string :=
  default [] (head (omap (λ k, match values !! k with Some (JArray l) => Some (strings_of l) | _ => None end) keys)).

Definition field (m : settings) (k : string) : json := default JNull (m !! k).
(** The settings of routing, or what older settings say of it. *)
Definition routingSettingsMap (config : ClientConfigRecord) : settings :=
  let routing := as_map (RoutingSettings config) in
  if negb (bool_decide (routing = ∅)) then routing
  else
    let private := as_map (PrivateAccessSettings config) in
    let legacy : settings :=
      if bool_decide (private = ∅) then ∅
      else {["traffic" := JObject [("route_policies", field private "route_policies");
                                   ("traffic_bypass", field private "traffic_bypass");
                                   ("dns_exceptions", field private "dns_exceptions")]]} in
    let features := as_map (FeaturesSettings config) in
    if bool_decide (mapSetting features "dns_routing" = ∅) then legacy
    else <["dns" := field features "dns_routing"]> legacy.

(** ** The profile *)

Record runtimeDNSRouting := mkDns { dr_Enabled : bool; dr_Resolver : string; Exceptions : list string }.
Record runtimeFailClose := mkFail { fc_Enabled : bool; ProcessNames : list string; FQDNs : list string }.
Record runtimeClientFeatures := mkFeatures {
  SplitTunnelEnabled : bool;
  CollabOptimization : bool;
  BiometricRequired : bool;
  DevicePostureCheck : bool;
  f_DNSRouting : bool;
  DNSSecurity : bool;
  OtherVPNBypass : bool;
  SSLInspection : bool;
  DLPEnabled : bool;
  LogForwarding : bool;
}.
Record runtimeClientProfile := mkProfile {
  rp_GroupName : string;
  rp_GroupID : string;
  Features : runtimeClientFeatures;
  rp_DNSServers : list string;
  rp_AllowedProtocols : list string;
  rp_SessionTimeoutMins : Z;
  rp_PeriodicAuthMins : Z;
  ConfigSyncInterval : Z;
  GatewayPreferences : list string;
  rp_Version : Z;
  PostureIntervalSec : Z;
  DNSRouting : runtimeDNSRouting;
  FailClose : runtimeFailClose;
}.

Definition defaultRuntimeClientProfile : runtimeClientProfile :=
  mkProfile "Default" "default" (mkFeatures false false false true false false false false false true)
    ["100.64.0.1"] ["QUIC"; "TLS"] 480 480 15 [] 1 60 (mkDns true "100.64.0.1" []) (mkFail false [] []).

Definition clampConfigSyncInterval (value : Z) : Z :=
  if (value <? 5)%Z then 15 else if (15 <? value)%Z then 15 else value.

Definition or_default (l d : list string) : list string := match l with [] => d | _ => l end.

Definition clientConfigToRuntimeProfile (config : ClientConfigRecord) : runtimeClientProfile :=
  let d := defaultRuntimeClientProfile in
  let features := as_map (FeaturesSettings config) in
  let install := as_map (InstallSettings config) in
  let routing := routingSettingsMap config in
  let tunnel := as_map (TunnelSettings config) in
  let dns := mapSetting routing "dns" in
  let dns := if bool_decide (dns = ∅) then mapSetting features "dns_routing" else dns in
  let split := boolSetting features ["split_tunnel_enabled"; "splitTunnelEnabled"]
               || bool_decide (stringSetting routing ["mode"; "routing_mode"] = "split_tunnel") in
  let exceptions := stringSliceSetting dns ["bypass_domains"; "exceptions"; "fqdns"] in
  let dnsEnabled := boolSetting dns ["enabled"] || (0 <? length exceptions) in
  let resolver := stringSetting dns ["resolver"] in
  let posture := intSetting tunnel "posture_check_interval_seconds" in
  let sync := clampConfigSyncInterval (intSetting install "config_sync_interval_mins") in
  let failClose := mapSetting (as_map (TamperproofSettings config)) "fail_close_exceptions" in
  mkProfile (GroupName config) (GroupID config)
    (mkFeatures split
       (boolSetting features ["collab_optimization"; "collabOptimization"])
       (boolSetting features ["biometric_required"; "biometricRequired"])
       (boolSetting tunnel ["device_posture_enabled"])
       dnsEnabled
       (boolSetting features ["dns_security"; "dnsSecurity"])
       (boolSetting features ["other_vpn_bypass"; "otherVpnBypass"])
       false
       (boolSetting (mapSetting features "dlp") ["enabled"])
       (boolSetting features ["log_forwarding"; "logForwarding"]))
    (or_default (DNSServers config) (rp_DNSServers d))
    (or_default (AllowedProtocols config) (rp_AllowedProtocols d))
    (SessionTimeoutMins config)
    (if (PeriodicAuthMins config <=? 0)%Z then SessionTimeoutMins config else PeriodicAuthMins config)
    (if (0 <? sync)%Z then sync else ConfigSyncInterval d)
    (or_default (GatewayPriority config) (GatewayPreferences d))
    (Version config)
    (if (15 <=? posture)%Z then posture else PostureIntervalSec d)
    (mkDns dnsEnabled (if bool_decide (resolver = "") then dr_Resolver (DNSRouting d) else resolver) exceptions)
    (mkFail (boolSetting failClose ["enabled"]) (stringSliceSetting failClose ["process_names"; "processes"])
       (stringSliceSetting failClose ["fqdns"; "domains"])).

(** ** Route policies *)

Record runtimeRoutePolicy := mkRoute {
  r_ID : string;
  r_Name : string;
  PolicyAction : string;
  MatchType : string;
  Patterns : list string;
  r_Enabled : bool;
  r_Priority : Z;
  r_Resolver : string;
  Comment : string;
}.

Definition appendPolicyIfPatterns (policies : list runtimeRoutePolicy) (id name action matchType : string)
    (patterns : list string) (priority : Z) (resolver : string) : list runtimeRoutePolicy :=
  match patterns with
  | [] => policies
  | _ => policies ++ [mkRoute id name action matchType patterns true priority resolver ""]
  end.

Definition routePoliciesFromRoutingSettings (values : settings) : list runtimeRoutePolicy :=
  if bool_decide (values = ∅) then []
  else
    let dns := mapSetting values "dns" in
    let traffic := mapSetting values "traffic" in
    let resolver := stringSetting dns ["resolver"] in
    let ps := appendPolicyIfPatterns [] "route-dns-tunnel-exceptions" "DNS tunnel exceptions" "tunnel" "dns_query"
                (stringSliceSetting dns ["tunnel_exceptions"]) 10 resolver in
    let ps := appendPolicyIfPatterns ps "route-traffic-tunnel-process-exceptions" "Tunnel process exceptions" "tunnel"
                "process" (stringSliceSetting traffic ["tunnel_process_exceptions"]) 20 "" in
    let ps := appendPolicyIfPatterns ps "route-traffic-tunnel-domain-exceptions" "Tunnel domain exceptions" "tunnel"
                "domain" (stringSliceSetting traffic ["tunnel_domain_exceptions"]) 30 "" in
    let ps := appendPolicyIfPatterns ps "route-traffic-tunnel-network-exceptions" "Tunnel network exceptions" "tunnel"
                "domain" (stringSliceSetting traffic ["tunnel_network_exceptions"]) 40 "" in
    let ps := appendPolicyIfPatterns ps "route-dns-bypass-domains" "DNS bypass domains" "bypass" "dns_query"
                (stringSliceSetting dns ["bypass_domains"; "exceptions"; "fqdns"]) 100 resolver in
    let ps := appendPolicyIfPatterns ps "route-traffic-bypass-processes" "Bypass processes" "bypass" "process"
                (stringSliceSetting traffic ["bypass_processes"]) 110 "" in
    let ps := appendPolicyIfPatterns ps "route-traffic-bypass-domains" "Bypass domains" "bypass" "domain"
                (stringSliceSetting traffic ["bypass_domains"]) 120 "" in
    appendPolicyIfPatterns ps "route-traffic-bypass-networks" "Bypass networks" "bypass" "domain"
      (stringSliceSetting traffic ["bypass_networks"]) 130 "".

(** [string(rune('a'+(i%26)))] *)
Definition letter (i : nat) : string := String (ascii_of_nat (97 + i mod 26)) "".
Definition if_empty (s d : string) : string := if bool_decide (s = "") then d else s.
Definition enabled_of (m : settings) : bool := match m !! "enabled" with Some (JBool b) => b | _ => true end.

Definition route_of_item (i : nat) (item : json) : option runtimeRoutePolicy :=
  match item with
  | JObject l =>
      let m := as_map (Some (JObject l)) in
      let id := if_empty (stringSetting m ["id"]) ("route-" +:+ letter i) in
      let patterns := stringSliceSetting m ["patterns"] in
      let patterns := match patterns with
                      | [] => let p := stringSetting m ["pattern"] in if bool_decide (p = "") then [] else [p]
                      | _ => patterns
                      end in
      Some (mkRoute id (if_empty (stringSetting m ["name"]) id)
              (if_empty (stringSetting m ["policy_action"; "action"]) "bypass")
              (if_empty (stringSetting m ["match_type"; "type"]) "domain") patterns (enabled_of m)
              (intSetting m "priority") "" (stringSetting m ["comment"; "reason"]))
  | _ => None
  end.
Definition dns_exception_of_item (i : nat) (item : json) : option runtimeRoutePolicy :=
  match item with
  | JObject l =>
      let m := as_map (Some (JObject l)) in
      let id := if_empty (stringSetting m ["id"]) ("dns-exception-" +:+ letter i) in
      Some (mkRoute id (if_empty (stringSetting m ["name"]) id) (if_empty (stringSetting m ["action"]) "bypass")
              "dns_query" (stringSliceSetting m ["domains"; "patterns"]) (enabled_of m) (intSetting m "priority")
              (stringSetting m ["resolver"]) (stringSetting m ["comment"; "reason"]))
  | _ => None
  end.
Definition items_of (f : nat → json → option runtimeRoutePolicy) (value : option json) : list runtimeRoutePolicy :=
  match value with Some (JArray l) => omap id (imap f l) | _ => [] end.
Definition routePoliciesFromSetting : option json → list runtimeRoutePolicy := items_of route_of_item.
Definition dnsExceptionPolicies : option json → list runtimeRoutePolicy := items_of dns_exception_of_item.

Definition normalize (i : nat) (p : runtimeRoutePolicy) : runtimeRoutePolicy :=
  mkRoute (if_empty (r_ID p) ("route-policy-" +:+ letter i)) (r_Name p) (PolicyAction p) (MatchType p) (Patterns p)
    (r_Enabled p) (if (r_Priority p =? 0)%Z then (Z.of_nat i + 1) * 10 else r_Priority p) (r_Resolver p) (Comment p).
Definition normalizeRuntimePolicies (ps : list runtimeRoutePolicy) : list runtimeRoutePolicy := imap normalize ps.

Definition clientConfigToRoutePolicies (config : ClientConfigRecord) : list runtimeRoutePolicy :=
  match routePoliciesFromRoutingSettings (routingSettingsMap config) with
  | [] =>
      let private := as_map (PrivateAccessSettings config) in
      let dns := mapSetting (as_map (FeaturesSettings config)) "dns_routing" in
      let patterns := stringSliceSetting dns ["exceptions"; "fqdns"] in
      normalizeRuntimePolicies
        (routePoliciesFromSetting (private !! "route_policies") ++ routePoliciesFromSetting (private !! "traffic_bypass") ++
         dnsExceptionPolicies (private !! "dns_exceptions") ++
         (if boolSetting dns ["enabled"] && (0 <? length patterns)
          then [mkRoute "dns-routing-exceptions" "DNS routing exceptions" "bypass" "dns_query" patterns true 0
                  (stringSetting dns ["resolver"]) ""]
          else []))
  | ps => normalizeRuntimePolicies ps
  end.

(** ** Handlers *)

Section Handlers.
Context (json_strings : string → option (list string)) (array_text : list string → string) (json_ok : string → bool).

Inductive reply :=
| RErr (status : Z) (msg : string)
| RProfile (p : runtimeClientProfile)
| RPolicies (l : list runtimeRoutePolicy) (last_synced : string) (version : Z)
| RAccepted (count : option nat).

(** The organization and the device are context keys, empty when unset. *)
Definition GetProfile (e : env) (db : DB) (org device : string) : reply :=
  if bool_decide (org = "") then RErr 401 "device tenant context is required"
  else if bool_decide (device = "") then RErr 401 "device identity context is required"
  else
    match GetEffectiveForDevice json_strings array_text e db org device with
    | Ok c => RProfile (clientConfigToRuntimeProfile c)
    | Err NoRows => RProfile defaultRuntimeClientProfile
    | Err _ => RErr 500 "failed to load client profile"
    end.

Definition GetRoutePolicies (e : env) (db : DB) (org device : string) : reply :=
  if bool_decide (org = "") then RErr 401 "device tenant context is required"
  else if bool_decide (device = "") then RErr 401 "device identity context is required"
  else
    match GetEffectiveForDevice json_strings array_text e db org device with
    | Ok c => RPolicies (clientConfigToRoutePolicies c) (GoTime.GoTime.RFC3339 (UpdatedAt c)) (Version c)
    | Err NoRows => RPolicies [] "" 1
    | Err _ => RErr 500 "failed to load route policies"
    end.

(** The report of the request, with the JSON text of the whole request. *)
Definition ReportPosture (e : env) (db : Devices.Devices.DB) (org device : string)
    (body : option (Devices.Devices.DevicePostureReport)) : Devices.Devices.DB * reply :=
  if bool_decide (org = "") || bool_decide (device = "") then (db, RErr 401 "device identity context is required")
  else
    match body with
    | None => (db, RErr 400 "invalid posture report")
    | Some p =>
        match Devices.Devices.SavePostureReport json_ok e db org device p with
        | (db, Ok _) => (db, RAccepted None)
        | (db, Err _) => (db, RErr 500 "failed to save posture")
        end
    end.

Record clientLog := mkClientLog {
  cl_LoggedAt : Z;
  cl_Level : string;
  cl_Source : string;
  cl_Message : string;
  cl_Metadata : string;
}.
Definition log_hash (t : Z) (level source message : string) : string :=
  Hex.encode (Sha256.sha256 (of_string (GoTime.GoTime.RFC3339Nano t +:+ "|" +:+ level +:+ "|" +:+ source +:+ "|" +:+ message))).
Definition log_of (l : clientLog) : option Devices.Devices.DeviceClientLog :=
  let message := TrimSpace (cl_Message l) in
  if bool_decide (message = "") then None
  else Some (Devices.Devices.mkLog (cl_LoggedAt l) (cl_Level l) (cl_Source l) message (cl_Metadata l)
               (log_hash (cl_LoggedAt l) (cl_Level l) (cl_Source l) message)).
Definition ReportLogs (e : env) (db : Devices.Devices.DB) (org device : string) (body : option (list clientLog))
  : Devices.Devices.DB * reply :=
  if bool_decide (org = "") || bool_decide (device = "") then (db, RErr 401 "device identity context is required")
  else
    match body with
    | None => (db, RErr 400 "invalid client logs")
    | Some ls =>
        if 500 <? length ls then (db, RErr 400 "invalid client logs")
        else
          let logs := omap log_of ls in
          match Devices.Devices.SaveClientLogs json_ok e 0 db org device logs with
          | (db, Ok _) => (db, RAccepted (Some (length logs)))
          | (db, Err _) => (db, RErr 500 "failed to save client logs")
          end
    end.

End Handlers.
(** ** Properties *)

Lemma sync_clamped z : (5 ≤ clampConfigSyncInterval z ≤ 15)%Z.
Proof. unfold clampConfigSyncInterval. repeat case_match; lia. Qed.

(** Whatever the settings say, the profile keeps within the limits of the client: it
    synchronizes every 5 to 15 minutes, checks posture no more often than every 15 seconds,
    has resolvers and protocols, never inspects TLS, asks for a new authentication after a
    positive time when the session has one, and routes DNS exactly when it says so. *)
Theorem profile_bounds config :
  let p := clientConfigToRuntimeProfile config in
  (5 ≤ ConfigSyncInterval p ≤ 15)%Z ∧ (15 ≤ PostureIntervalSec p)%Z ∧
  rp_DNSServers p ≠ [] ∧ rp_AllowedProtocols p ≠ [] ∧ SSLInspection (Features p) = false ∧
  ((0 < SessionTimeoutMins config)%Z → (0 < rp_PeriodicAuthMins p)%Z) ∧
  dr_Resolver (DNSRouting p) ≠ "" ∧
  f_DNSRouting (Features p) = dr_Enabled (DNSRouting p) ∧
  (Exceptions (DNSRouting p) ≠ [] → dr_Enabled (DNSRouting p) = true).
Proof.
  cbn. set (z := intSetting (as_map (InstallSettings config)) _). pose proof (sync_clamped z) as Hz.
  split_and!; try done.
  1,2: destruct (0 <? _)%Z eqn:?; lia.
  - destruct (15 <=? _)%Z eqn:?; lia.
  - by destruct (DNSServers config).
  - by destruct (AllowedProtocols config).
  - intros ?. destruct (_ <=? 0)%Z eqn:?; lia.
  - by case_bool_decide.
  - destruct (stringSliceSetting _ _); [done|]. intros _. apply orb_true_r.
Qed.

(** The routes that settings give, with the priority and the action each is made with. *)
Definition candidates (values : settings) : list runtimeRoutePolicy :=
  let dns := mapSetting values "dns" in
  let traffic := mapSetting values "traffic" in
  let resolver := stringSetting dns ["resolver"] in
  let row id name action type (section : settings) keys prio res :=
    mkRoute id name action type (stringSliceSetting section keys) true prio res "" in
  [row "route-dns-tunnel-exceptions" "DNS tunnel exceptions" "tunnel" "dns_query" dns ["tunnel_exceptions"] 10%Z resolver;
   row "route-traffic-tunnel-process-exceptions" "Tunnel process exceptions" "tunnel" "process" traffic
     ["tunnel_process_exceptions"] 20%Z "";
   row "route-traffic-tunnel-domain-exceptions" "Tunnel domain exceptions" "tunnel" "domain" traffic
     ["tunnel_domain_exceptions"] 30%Z "";
   row "route-traffic-tunnel-network-exceptions" "Tunnel network exceptions" "tunnel" "domain" traffic
     ["tunnel_network_exceptions"] 40%Z "";
   row "route-dns-bypass-domains" "DNS bypass domains" "bypass" "dns_query" dns
     ["bypass_domains"; "exceptions"; "fqdns"] 100%Z resolver;
   row "route-traffic-bypass-processes" "Bypass processes" "bypass" "process" traffic ["bypass_processes"] 110%Z "";
   row "route-traffic-bypass-domains" "Bypass domains" "bypass" "domain" traffic ["bypass_domains"] 120%Z "";
   row "route-traffic-bypass-networks" "Bypass networks" "bypass" "domain" traffic ["bypass_networks"] 130%Z ""].
Definition has_patterns (p : runtimeRoutePolicy) : bool := match Patterns p with [] => false | _ => true end.

Lemma append_candidate ps id name action type patterns prio res :
  appendPolicyIfPatterns ps id name action type patterns prio res
  = ps ++ List.filter has_patterns [mkRoute id name action type patterns true prio res ""].
Proof. destruct patterns; cbn; [by rewrite app_nil_r|done]. Qed.

Lemma stringSlice_empty keys : stringSliceSetting ∅ keys = [].
Proof.
  unfold stringSliceSetting. induction keys as [|k keys IH]; [done|]. cbn. by rewrite lookup_empty.
Qed.
Lemma mapSetting_empty k : mapSetting ∅ k = ∅.
Proof. done. Qed.

Lemma routes_candidates values :
  routePoliciesFromRoutingSettings values = List.filter has_patterns (candidates values).
Proof.
  unfold routePoliciesFromRoutingSettings. case_bool_decide as H.
  - subst. unfold candidates. rewrite !mapSetting_empty, !stringSlice_empty. done.
  - cbv zeta. rewrite !append_candidate. unfold candidates. cbv zeta. cbn [List.filter app].
    repeat (destruct (has_patterns (mkRoute _ _ _ _ _ _ _ _ _))); reflexivity.
Qed.

(** Selecting from a list ordered by a relation keeps the order. *)
Lemma filter_sorted {A} (R : A → A → Prop) (f : A → bool) l :
  StronglySorted R l → StronglySorted R (List.filter f l).
Proof.
  induction 1 as [|x l Hs IH Hx]; cbn; [constructor|]. destruct (f x); [|done]. constructor; [done|].
  apply Forall_forall. intros y Hy. rewrite Forall_forall in Hx. apply Hx.
  apply list_elem_of_In in Hy. apply List.filter_In in Hy as [Hy _]. by apply list_elem_of_In.
Qed.
Lemma sorted_lookup {A} (R : A → A → Prop) l i j x y :
  StronglySorted R l → l !! i = Some x → l !! j = Some y → i < j → R x y.
Proof.
  intros Hs. revert i j. induction Hs as [|z l Hs IH Hz]; intros i j Hi Hj Hij; [done|].
  destruct i as [|i], j as [|j]; cbn in Hi, Hj; try lia; simplify_eq.
  - rewrite Forall_forall in Hz. apply Hz. by eapply list_elem_of_lookup_2.
  - eapply IH; eauto; lia.
Qed.
Definition before (p q : runtimeRoutePolicy) : Prop := (r_Priority p < r_Priority q)%Z.
(** A route that is made from a list of patterns: exceptions go through the tunnel, and before
    what bypasses it. *)
Definition route_ok (p : runtimeRoutePolicy) : Prop :=
  Patterns p ≠ [] ∧ r_Enabled p = true ∧ r_ID p ≠ "" ∧
  (PolicyAction p = "tunnel" ∧ (0 < r_Priority p < 100)%Z ∨ PolicyAction p = "bypass" ∧ (100 ≤ r_Priority p)%Z).

Lemma candidates_sorted values : StronglySorted before (candidates values).
Proof. unfold candidates. repeat constructor; cbn; done. Qed.
Lemma candidates_ids values : r_ID <$> candidates values = r_ID <$> candidates ∅.
Proof. reflexivity. Qed.
Lemma candidates_ok values p : p ∈ candidates values → has_patterns p = true → route_ok p.
Proof.
  intros Hp Hpat. unfold route_ok. assert (Patterns p ≠ []) by (unfold has_patterns in Hpat; by destruct (Patterns p)).
  unfold candidates in Hp. cbn zeta in Hp.
  repeat (apply elem_of_cons in Hp as [->|Hp]; [split_and!; [done|done|done|cbn; (left; split; [done|lia]) || (right; split; [done|lia])]|]).
  by apply elem_of_nil in Hp.
Qed.
Lemma filter_ids (f : runtimeRoutePolicy → bool) l : NoDup (r_ID <$> l) → NoDup (r_ID <$> List.filter f l).
Proof.
  induction l as [|p l IH]; [done|]. cbn. intros [Hp Hl]%NoDup_cons. destruct (f p); [|by apply IH]. cbn.
  apply NoDup_cons. split; [|by apply IH]. intros (q & Hq & Hin)%list_elem_of_fmap. apply Hp. rewrite Hq.
  apply list_elem_of_fmap. exists q. split; [done|]. apply list_elem_of_In in Hin. apply List.filter_In in Hin as [Hin _].
  by apply list_elem_of_In.
Qed.

Lemma routes_ok values p : p ∈ routePoliciesFromRoutingSettings values → route_ok p.
Proof.
  rewrite routes_candidates. intros Hp. apply list_elem_of_In, List.filter_In in Hp as [Hp Hpat].
  eapply candidates_ok; [by apply list_elem_of_In|done].
Qed.
Lemma normalize_ok i p : route_ok p → normalize i p = p.
Proof.
  intros (_ & _ & Hid & Hp). destruct p. unfold normalize, if_empty. cbn in *. case_bool_decide; [done|].
  destruct (_ =? 0)%Z eqn:?; [lia|done].
Qed.
Lemma normalize_all ps : Forall route_ok ps → normalizeRuntimePolicies ps = ps.
Proof.
  intros H. unfold normalizeRuntimePolicies. apply list_eq. intros i. rewrite list_lookup_imap.
  destruct (ps !! i) as [p|] eqn:Hp; [|done]. cbn. by rewrite normalize_ok by (eapply Forall_lookup_1; eauto).
Qed.
Lemma routing_routes config :
  routePoliciesFromRoutingSettings (routingSettingsMap config) ≠ [] →
  clientConfigToRoutePolicies config = routePoliciesFromRoutingSettings (routingSettingsMap config).
Proof.
  intros H. unfold clientConfigToRoutePolicies.
  destruct (routePoliciesFromRoutingSettings _) as [|p ps] eqn:E; [done|]. apply normalize_all. rewrite <- E.
  apply Forall_forall. intros q Hq. eapply routes_ok, Hq.
Qed.

(** When the routing settings give any route, the client is sent exactly the ones with
    patterns, in strictly increasing priority, under distinct identifiers, with every exception that
    goes through the tunnel before anything that bypasses it. *)
Theorem route_order config :
  let ps := clientConfigToRoutePolicies config in
  routePoliciesFromRoutingSettings (routingSettingsMap config) ≠ [] →
  ps = List.filter has_patterns (candidates (routingSettingsMap config)) ∧
  StronglySorted before ps ∧ NoDup (r_ID <$> ps) ∧ Forall route_ok ps ∧
  ∀ i j p q, ps !! i = Some p → ps !! j = Some q → PolicyAction p = "tunnel" → PolicyAction q = "bypass" → i < j.
Proof.
  cbv zeta. intros H. rewrite (routing_routes config H). rewrite routes_candidates in *.
  pose proof (filter_sorted before has_patterns _ (candidates_sorted (routingSettingsMap config))) as Hsort.
  assert (Hok : Forall route_ok (List.filter has_patterns (candidates (routingSettingsMap config)))).
  { rewrite <- routes_candidates. apply Forall_forall. intros q Hq. eapply routes_ok, Hq. }
  split_and!; [done|done| |done|].
  - apply filter_ids. rewrite candidates_ids. by apply (bool_decide_unpack _); vm_compute.
  - intros i j p q Hp Hq Ht Hb. apply Nat.nle_gt. intros Hji.
    pose proof (Forall_lookup_1 _ _ _ _ Hok Hp) as (_ & _ & _ & Hp').
    pose proof (Forall_lookup_1 _ _ _ _ Hok Hq) as (_ & _ & _ & Hq').
    destruct Hp' as [[_ Hp']|[? _]]; [|congruence]. destruct Hq' as [[? _]|[_ Hq']]; [congruence|].
    destruct (decide (i = j)) as [->|]; [simplify_eq; congruence|].
    assert (before q p) by (eapply sorted_lookup; [exact Hsort|exact Hq|exact Hp|lia]).
    unfold before in *. lia.
Qed.

(** ** Legacy settings *)

Definition with_private (config : ClientConfigRecord) (j : option json) : ClientConfigRecord :=
  mkConfig (ID config) (OrgID config) (GroupID config) (GroupName config) (Priority config) (TunnelSettings config)
    (FeaturesSettings config) (RoutingSettings config) j (InstallSettings config) (TamperproofSettings config)
    (SessionTimeoutMins config) (PeriodicAuthMins config) (DNSServers config) (AllowedProtocols config)
    (GatewayPriority config) (Version config) (CreatedAt config) (UpdatedAt config) (CreatedBy config) (UpdatedBy config).
Definition legacy_dns (config : ClientConfigRecord) : settings := mapSetting (as_map (FeaturesSettings config)) "dns_routing".

Lemma mapSetting_field m k : mapSetting {["dns" := field m k]} "dns" = mapSetting m k.
Proof. unfold mapSetting, field. rewrite lookup_singleton_eq. by destruct (m !! k). Qed.
Lemma legacy_map config :
  as_map (RoutingSettings config) = ∅ → legacy_dns config ≠ ∅ →
  mapSetting (routingSettingsMap config) "dns" = legacy_dns config ∧
  ∀ k, k ∉ ["route_policies"; "traffic_bypass"; "dns_exceptions"] →
    mapSetting (routingSettingsMap config) "traffic" !! k = None.
Proof.
  intros Hr Hl. unfold routingSettingsMap. rewrite Hr. cbn [negb]. rewrite bool_decide_eq_true_2 by done. cbn [negb].
  fold (legacy_dns config). rewrite (bool_decide_eq_false_2 (legacy_dns config = ∅)) by done. split.
  - unfold legacy_dns, mapSetting, field. rewrite lookup_insert_eq.
    by destruct (as_map (FeaturesSettings config) !! "dns_routing") as [[]|].
  - intros k Hk. unfold mapSetting. rewrite lookup_insert_ne by done. case_bool_decide; [by rewrite lookup_empty|].
    rewrite lookup_singleton_eq. unfold as_map. cbn.
    rewrite !lookup_insert_ne by (intros <-; apply Hk; set_solver). apply lookup_empty.
Qed.
Lemma slice_absent (m : settings) k : m !! k = None → stringSliceSetting m [k] = [].
Proof. intros H. unfold stringSliceSetting. cbn. by rewrite H. Qed.

(** The routes depend on the section of DNS and on the lists of the section of traffic. *)
Lemma candidates_ext v v' :
  mapSetting v "dns" = mapSetting v' "dns" →
  (∀ k, k ∉ ["route_policies"; "traffic_bypass"; "dns_exceptions"] →
     mapSetting v "traffic" !! k = mapSetting v' "traffic" !! k) →
  candidates v = candidates v'.
Proof.
  intros Hd Ht. unfold candidates. cbv zeta. rewrite Hd. unfold stringSliceSetting. cbn.
  rewrite !Ht; [done|set_solver..].
Qed.
Lemma legacy_dns_nonempty config keys : stringSliceSetting (legacy_dns config) keys ≠ [] → legacy_dns config ≠ ∅.
Proof. intros H E. apply H. rewrite E. apply stringSlice_empty. Qed.

(** A configuration with only legacy settings loses its legacy route policies as soon as
    the legacy DNS settings list an exception: whatever the private access settings say (route
    policies, bypasses, DNS exceptions), the client is sent the same routes, all of them for
    DNS queries. *)
Theorem legacy_routes_lost config private :
  as_map (RoutingSettings config) = ∅ →
  stringSliceSetting (legacy_dns config) ["bypass_domains"; "exceptions"; "fqdns"] ≠ [] →
  clientConfigToRoutePolicies (with_private config private) = clientConfigToRoutePolicies config ∧
  clientConfigToRoutePolicies config ≠ [] ∧
  Forall (λ p, MatchType p = "dns_query") (clientConfigToRoutePolicies config).
Proof.
  intros Hr Hx. pose proof (legacy_dns_nonempty config _ Hx) as Hl.
  destruct (legacy_map config Hr Hl) as [Hd Ht]. destruct (legacy_map (with_private config private) Hr Hl) as [Hd' Ht'].
  assert (E : candidates (routingSettingsMap (with_private config private)) = candidates (routingSettingsMap config)).
  { apply candidates_ext; [by rewrite Hd'|]. intros k Hk. by rewrite Ht, Ht'. }
  assert (Hne : List.filter has_patterns (candidates (routingSettingsMap config)) ≠ []
              ∧ Forall (λ p, MatchType p = "dns_query") (List.filter has_patterns (candidates (routingSettingsMap config)))).
  { unfold candidates. cbv zeta. rewrite Hd. rewrite !(slice_absent (mapSetting (routingSettingsMap config) "traffic")) by (apply Ht; set_solver).
    unfold has_patterns. cbn [List.filter Patterns].
    destruct (stringSliceSetting (legacy_dns config) ["bypass_domains"; _; _]) eqn:?; [done|].
    destruct (stringSliceSetting (legacy_dns config) ["tunnel_exceptions"]); split; repeat constructor; done. }
  destruct Hne as [Hne Hall].
  rewrite (routing_routes config), (routing_routes (with_private _ _)), !routes_candidates, E;
    rewrite ?routes_candidates, ?E; done.
Qed.

(** Two bypasses without identifiers, one in each legacy list, get the same one. *)
Example same_generated_ids :
  let item d := JObject [("pattern", JString d)] in
  (r_ID <$> routePoliciesFromSetting (Some (JArray [item "a.example"]))
             ++ routePoliciesFromSetting (Some (JArray [item "b.example"]))) = ["route-a"; "route-a"].
Proof. reflexivity. Qed.

(** ** Reports *)

(** A client may send its logs again: after a batch was accepted, sending it once more is
    accepted too, with the same count, and stores nothing new. *)
Theorem report_logs_idempotent jok e e' db org device body db' n :
  ReportLogs jok e db org device body = (db', RAccepted n) → (∀ k, ok e' k = true) →
  ReportLogs jok e' db' org device body = (db', RAccepted n).
Proof.
  unfold ReportLogs. destruct (_ || _); [done|]. destruct body as [ls|]; [|done]. destruct (500 <? length ls); [done|].
  destruct (Devices.Devices.SaveClientLogs jok e 0 db org device (omap log_of ls)) as [db1 [[]|err]] eqn:Hs; [|done].
  intros [= <- <-] Hok. apply Devices.Devices.save_logs_inv in Hs as [_ Hs].
  by rewrite (Devices.Devices.save_logs_again jok e' 0 db1 org device).
Qed.

(** ** Witnesses *)

Definition demo_settings (routing features : option json) : ClientConfigRecord :=
  mkConfig "c1" "acme" "default" "Default" 1 None features routing
    (Some (JObject [("route_policies", JArray [JObject [("pattern", JString "old.example")]])])) None None
    480 0 [] [] [] 1 0 0 "admin" "admin".
Definition demo_list (s : string) : json := JArray [JString s; JString ""; JBool true].
Definition demo_routing : ClientConfigRecord :=
  demo_settings (Some (JObject [("dns", JObject [("exceptions", demo_list "corp.example")]);
                                ("traffic", JObject [("tunnel_domain_exceptions", demo_list "x.example");
                                                     ("bypass_networks", demo_list "10.0.0.0/8")])])) None.
Lemma route_order_witness :
  r_ID <$> clientConfigToRoutePolicies demo_routing
  = ["route-traffic-tunnel-domain-exceptions"; "route-dns-bypass-domains"; "route-traffic-bypass-networks"]
  ∧ StronglySorted before (clientConfigToRoutePolicies demo_routing).
Proof. split; [vm_compute; reflexivity|]. apply (route_order demo_routing). vm_compute. discriminate. Defined.

Lemma legacy_routes_lost_witness :
  let c x := demo_settings None (Some (JObject [("dns_routing", JObject [("exceptions", JArray x)])])) in
  r_ID <$> clientConfigToRoutePolicies (c []) = ["route-a"] ∧
  clientConfigToRoutePolicies (with_private (c [JString "corp.example"]) None)
  = clientConfigToRoutePolicies (c [JString "corp.example"]).
Proof.
  cbv zeta. split; [vm_compute; reflexivity|]. apply legacy_routes_lost; [reflexivity|]. vm_compute. discriminate.
Defined.

Lemma profile_bounds_witness :
  (0 < rp_PeriodicAuthMins (clientConfigToRuntimeProfile demo_routing))%Z ∧
  ConfigSyncInterval (clientConfigToRuntimeProfile demo_routing) = 15%Z.
Proof. split; [|vm_compute; reflexivity]. apply (profile_bounds demo_routing). cbn. lia. Defined.

Definition demo_batch : option (list clientLog) :=
  Some [mkClientLog 0 "warn" "vpn" " tunnel down " ""; mkClientLog 1 "info" "vpn" "  " ""].
Lemma report_logs_idempotent_witness :
  let run e db := ReportLogs (λ _, true) e db "acme" "d0" demo_batch in
  let db' := fst (run (demo_env 5 "") Devices.Devices.demo_db) in
  run (demo_env 6 "") db' = (db', RAccepted (Some 1)).
Proof.
  cbv zeta. apply (report_logs_idempotent (λ _, true) (demo_env 5 "") (demo_env 6 "") Devices.Devices.demo_db "acme" "d0" demo_batch);
    [vm_compute; reflexivity|done].
Defined.

End ClientRuntime.
