(* ===== verification/Broker.v ===== *)
(** * The identity broker (internal/identity/broker.go, api/handlers/identity_broker_handler.go)

    Identity providers, the keys fetched from them, the exchange of a provider's token for a
    unified identity, and the sessions so opened.

    A call has an environment: the clock, the random bytes it draws, the order in which a map
    is visited, the offset of the server's local time, and what a GET of a URL answers.  The
    database behind the broker is the interface [IdPPersister] of the package; the writes the
    broker starts in goroutines are values that run at a later time, in any order ([system]).
    [OidcJwt] is the JWT library on RSA tokens.  [number_text] is how [%v] prints a number. *)

From S2P Require Import Prelude GoStrings GoTime Encoding JsonValue Sql.
From Stdlib Require Import Ascii.
#[local] Open Scope string_scope.
#[local] Open Scope nat_scope.
#[local] Open Scope list_scope.

Module Broker.
Import GoStrings JsonValue.

(** ** Data *)

Record IdentityDomain := mkIdentity {
  UserID : string;
  Email : string;
  DisplayName : string;
  Groups : list string;
  Department : string;
  Title : string;
  IdPSource : string;
  IdPSessionID : string;
  MFAVerified : bool;
  MFAMethod : string;
  RiskLevel : string;
  Attributes : gmap string string;
}.
Record DeviceDomain := mkDevice {
  DeviceID : string;
  Hostname : string;
  OS : string;
  OSVersion : string;
  AgentVersion : string;
  Managed : bool;
  Compliant : bool;
  DiskEncrypted : bool;
  FirewallActive : bool;
  AntivirusOK : bool;
  DomainJoined : bool;
  EntraJoined : bool;
  JailBroken : bool;
  CertValid : bool;
  MDMSource : string;
}.
(** Coordinates are fractions. *)
Record LocationDomain := mkLocation {
  IPAddress : string;
  Country : string;
  Region : string;
  City : string;
  Latitude : Z * positive;
  Longitude : Z * positive;
  ASN : Z;
  ISP : string;
  NetworkType : string;
  TrustedNet : bool;
  ProxyDetected : bool;
  TorDetected : bool;
}.
Record ApplicationDomain := mkApplication {
  AppID : string;
  AppName : string;
  Category : string;
  app_RiskScore : Z;
  Sanctioned : bool;
  Protocol : string;
  DataExfil : bool;
}.
Record DataDomain := mkData {
  Sensitivity : string;
  Classification : string;
  DLPTriggered : bool;
  DLPPolicies : list string;
}.
Record TimeDomain := mkTime {
  LocalTime : Z;
  UTC : Z;
  BusinessHours : bool;
  Holiday : bool;
  MFAAgeMinutes : Z;
  SessionAge : Z;
}.
Record UnifiedIdentity := mkUnified {
  SessionID : string;
  u_OrgID : string;
  Timestamp : Z;
  Identity : IdentityDomain;
  Device : DeviceDomain;
  Location : LocationDomain;
  Application : ApplicationDomain;
  Data : DataDomain;
  Time : TimeDomain;
  RiskScore : Z;
  ComplianceState : string;
  EffectiveSGTs : list Z;
  Flags : list string;
}.

(** A configuration and its database record have the same fields. *)
Record IdPConfig := mkIdP {
  ID : string;
  OrgID : string;
  Name : string;
  ProviderType : string;
  Enabled : bool;
  IsDefault : bool;
  ClientID : string;
  ClientSecret : string;
  IssuerURL : string;
  JWKSURI : string;
  TokenEndpoint : string;
  Scopes : list string;
  SAMLEntityID : string;
  SAMLSSOURL : string;
  SAMLCertificate : string;
  KerberosEnabled : bool;
  KerberosRealm : string;
  SCIMEnabled : bool;
  SCIMEndpoint : string;
  SCIMToken : string;
  AttributeMap : gmap string string;
  GroupMap : gmap string string;
}.
Record IdPDBRecord := mkRecord {
  r_ID : string;
  r_OrgID : string;
  r_Name : string;
  r_ProviderType : string;
  r_Enabled : bool;
  r_IsDefault : bool;
  r_ClientID : string;
  r_ClientSecret : string;
  r_IssuerURL : string;
  r_JWKSURI : string;
  r_TokenEndpoint : string;
  r_Scopes : list string;
  r_SAMLEntityID : string;
  r_SAMLSSOURL : string;
  r_SAMLCertificate : string;
  r_KerberosEnabled : bool;
  r_KerberosRealm : string;
  r_SCIMEnabled : bool;
  r_SCIMEndpoint : string;
  r_SCIMToken : string;
  r_AttributeMap : gmap string string;
  r_GroupMap : gmap string string;
}.

Definition dbRecordToIdPConfig (r : IdPDBRecord) : IdPConfig :=
  mkIdP (r_ID r) (r_OrgID r) (r_Name r) (r_ProviderType r) (r_Enabled r) (r_IsDefault r) (r_ClientID r)
    (r_ClientSecret r) (r_IssuerURL r) (r_JWKSURI r) (r_TokenEndpoint r) (r_Scopes r) (r_SAMLEntityID r)
    (r_SAMLSSOURL r) (r_SAMLCertificate r) (r_KerberosEnabled r) (r_KerberosRealm r) (r_SCIMEnabled r)
    (r_SCIMEndpoint r) "" (r_AttributeMap r) (r_GroupMap r).
Definition idpConfigToDBRecord (c : IdPConfig) : IdPDBRecord :=
  mkRecord (ID c) (OrgID c) (Name c) (ProviderType c) (Enabled c) (IsDefault c) (ClientID c)
    (ClientSecret c) (IssuerURL c) (JWKSURI c) (TokenEndpoint c) (Scopes c) (SAMLEntityID c)
    (SAMLSSOURL c) (SAMLCertificate c) (KerberosEnabled c) (KerberosRealm c) (SCIMEnabled c)
    (SCIMEndpoint c) (SCIMToken c) (AttributeMap c) (GroupMap c).

Record jwkKey := mkKey { Kid : string; Kty : string; Alg : string; Use : string; N_ : string; E_ : string }.
Record jwksCache := mkCache { Keys : list jwkKey; FetchedAt : Z }.

Record Broker := mkBroker {
  idps : gmap string IdPConfig;
  sessions : gmap string UnifiedIdentity;
  jwks : gmap string jwksCache;
  persistent : bool;             (** a persister is attached *)
}.
Definition with_idps (b : Broker) m := mkBroker m (sessions b) (jwks b) (persistent b).
Definition with_sessions (b : Broker) m := mkBroker (idps b) m (jwks b) (persistent b).
Definition with_jwks (b : Broker) m := mkBroker (idps b) (sessions b) m (persistent b).

(** What a GET answers: no connection, a status other than 200, or a body, [None] when it
    does not decode. *)
Inductive fetched :=
| FetchErr
| FetchStatus (code : Z)
| FetchBody (keys : option (list jwkKey)).
Record env := mkEnv {
  clk : nat → Z;
  zone : Z;
  random : bytes;
  e_ro : range_order;
  fetch : string → fetched;
}.

(** ** Providers *)

Definition plain_map (l : list (string * string)) : gmap string string := list_to_map l.
Definition default_idps : list IdPConfig :=
  [mkIdP "okta-default" "" "Okta (Primary)" "okta" true true "" "" "https://dev-12345.okta.com/oauth2/default"
     "https://dev-12345.okta.com/oauth2/default/v1/keys" "" ["openid"; "profile"; "email"; "groups"] "" "" ""
     false "" true "" ""
     (plain_map [("sub", "user_id"); ("email", "email"); ("name", "display_name"); ("groups", "groups");
                 ("department", "department")]) ∅;
   mkIdP "azure-ad" "" "Microsoft Entra ID" "azure_ad" true false "" ""
     "https://login.microsoftonline.com/{tenant}/v2.0"
     "https://login.microsoftonline.com/{tenant}/discovery/v2.0/keys" ""
     ["openid"; "profile"; "email"; "User.Read"; "GroupMember.Read.All"] "" "" ""
     true "CORP.EXAMPLE.COM" true "https://graph.microsoft.com/v1.0/" ""
     (plain_map [("oid", "user_id"); ("preferred_username", "email"); ("name", "display_name"); ("groups", "groups");
                 ("jobTitle", "title"); ("department", "department")]) ∅;
   mkIdP "saml-generic" "" "SAML Enterprise IdP" "saml" false false "" "" "" "" "" []
     "https://auth.apexaegis.io/saml/metadata" "" "" false "" false "" ""
     (plain_map [("urn:oid:0.9.2342.19200300.100.1.1", "user_id"); ("urn:oid:0.9.2342.19200300.100.1.3", "email");
                 ("urn:oid:2.5.4.3", "display_name"); ("urn:oid:1.3.6.1.4.1.5923.1.1.1.7", "groups")]) ∅;
   mkIdP "ping-identity" "" "Ping Identity (PingOne)" "ping" false false "" "" "https://auth.pingone.com/{envId}/as"
     "" "" ["openid"; "profile"; "email"] "" "" "" false "" false "" ""
     (plain_map [("sub", "user_id"); ("email", "email"); ("name", "display_name")]) ∅;
   mkIdP "ldap-corp" "" "Corporate LDAP/AD" "ldap" false false "" "" "" "" "" [] "" "" "" true "CORP.LOCAL" false "" ""
     (plain_map [("sAMAccountName", "user_id"); ("mail", "email"); ("displayName", "display_name");
                 ("memberOf", "groups"); ("department", "department"); ("title", "title")]) ∅].
Definition add_idp (m : gmap string IdPConfig) (c : IdPConfig) : gmap string IdPConfig := <[ID c := c]> m.
Definition loadDefaults : gmap string IdPConfig := foldl add_idp ∅ default_idps.
Definition NewBroker : Broker := mkBroker loadDefaults ∅ ∅ false.

(** Never with the secrets. *)
Definition public_view (c : IdPConfig) : IdPConfig :=
  mkIdP (ID c) (OrgID c) (Name c) (ProviderType c) (Enabled c) (IsDefault c) (ClientID c) "" (IssuerURL c)
    (JWKSURI c) (TokenEndpoint c) (Scopes c) (SAMLEntityID c) (SAMLSSOURL c) (SAMLCertificate c)
    (KerberosEnabled c) (KerberosRealm c) (SCIMEnabled c) (SCIMEndpoint c) "" (AttributeMap c) (GroupMap c).
Definition ListIdPs (ro : range_order) (b : Broker) : list IdPConfig := public_view <$> values ro (idps b).
Definition GetIdP (b : Broker) (id : string) : option IdPConfig := public_view <$> idps b !! id.
Definition GetIdPClientSecret (b : Broker) (id : string) : string :=
  default "" (ClientSecret <$> idps b !! id).

(** The statement a goroutine is started for. *)
Inductive write := WUpsert (r : IdPDBRecord) | WDelete (id : string).
Definition started (b : Broker) (w : write) : list write := if persistent b then [w] else [].

Definition with_id (c : IdPConfig) (id : string) : IdPConfig :=
  mkIdP id (OrgID c) (Name c) (ProviderType c) (Enabled c) (IsDefault c) (ClientID c) (ClientSecret c) (IssuerURL c)
    (JWKSURI c) (TokenEndpoint c) (Scopes c) (SAMLEntityID c) (SAMLSSOURL c) (SAMLCertificate c)
    (KerberosEnabled c) (KerberosRealm c) (SCIMEnabled c) (SCIMEndpoint c) (SCIMToken c) (AttributeMap c) (GroupMap c).
Definition with_secret (c : IdPConfig) (secret : string) : IdPConfig :=
  mkIdP (ID c) (OrgID c) (Name c) (ProviderType c) (Enabled c) (IsDefault c) (ClientID c) secret (IssuerURL c)
    (JWKSURI c) (TokenEndpoint c) (Scopes c) (SAMLEntityID c) (SAMLSSOURL c) (SAMLCertificate c)
    (KerberosEnabled c) (KerberosRealm c) (SCIMEnabled c) (SCIMEndpoint c) (SCIMToken c) (AttributeMap c) (GroupMap c).
Definition with_org (c : IdPConfig) (org : string) : IdPConfig :=
  mkIdP (ID c) org (Name c) (ProviderType c) (Enabled c) (IsDefault c) (ClientID c) (ClientSecret c) (IssuerURL c)
    (JWKSURI c) (TokenEndpoint c) (Scopes c) (SAMLEntityID c) (SAMLSSOURL c) (SAMLCertificate c)
    (KerberosEnabled c) (KerberosRealm c) (SCIMEnabled c) (SCIMEndpoint c) (SCIMToken c) (AttributeMap c) (GroupMap c).

Definition CreateIdP (e : env) (b : Broker) (cfg : IdPConfig) : Broker * list write * string :=
  let cfg := if bool_decide (ID cfg = "") then with_id cfg ("idp-" +:+ Hex.encode (take 8 (random e))) else cfg in
  (with_idps b (add_idp (idps b) cfg), started b (WUpsert (idpConfigToDBRecord cfg)), ID cfg).

Definition UpdateIdP (b : Broker) (cfg : IdPConfig) : Broker * list write * bool :=
  match idps b !! ID cfg with
  | None => (b, [], false)
  | Some existing =>
      let cfg := if bool_decide (ClientSecret cfg = "") && negb (bool_decide (ClientSecret existing = ""))
                 then with_secret cfg (ClientSecret existing) else cfg in
      (with_idps b (add_idp (idps b) cfg), started b (WUpsert (idpConfigToDBRecord cfg)), true)
  end.

Definition DeleteIdP (b : Broker) (id : string) : Broker * list write * bool :=
  match idps b !! id with
  | None => (b, [], false)
  | Some _ => (with_idps b (delete id (idps b)), started b (WDelete id), true)
  end.

(** ** The keys of a provider *)

Inductive token_error :=
| NoURI | FetchFailed | StatusFailed (code : Z) | BadKeys | BadToken | IssuerMismatch | AudienceMismatch.

Definition hour : Z := 3600 * GoTime.GoTime.second.
Definition cached_or (c : option jwksCache) (err : token_error) : result token_error (list jwkKey) :=
  match c with Some c => Ok (Keys c) | None => Err err end.

Definition getJWKS (e : env) (i : nat) (b : Broker) (idpID uri : string) : Broker * result token_error (list jwkKey) :=
  if bool_decide (uri = "") then (b, Err NoURI)
  else
    let cached := jwks b !! idpID in
    match cached with
    | Some c =>
        if (clk e i - FetchedAt c <? hour)%Z then (b, Ok (Keys c))
        else
          match fetch e uri with
          | FetchErr | FetchStatus _ => (b, Ok (Keys c))
          | FetchBody None => (b, Err BadKeys)
          | FetchBody (Some keys) => (with_jwks b (<[idpID := mkCache keys (clk e (S i))]> (jwks b)), Ok keys)
          end
    | None =>
        match fetch e uri with
        | FetchErr => (b, Err FetchFailed)
        | FetchStatus code => (b, Err (StatusFailed code))
        | FetchBody None => (b, Err BadKeys)
        | FetchBody (Some keys) => (with_jwks b (<[idpID := mkCache keys (clk e (S i))]> (jwks b)), Ok keys)
        end
    end.

(** [big.Int.SetBytes], and the exponent in an [int]. *)
Definition big (l : bytes) : Z := foldl (λ n b, n * 256 + u8 b)%Z 0%Z l.
Definition exponent (l : bytes) : Z := foldl (λ n b, wrap_i64 (n * 256 + u8 b)) 0%Z l.
Definition rsaPublicKeyFromJWK (k : jwkKey) : option (Z * Z) :=
  n ← Base64.decode_raw true (N_ k); e ← Base64.decode_raw true (E_ k); Some (big n, exponent e).

Definition rsa_methods : list string := ["RS256"; "RS384"; "RS512"].
Definition is_rsa (k : jwkKey) : bool := bool_decide (Kty k = "RSA").
(** The key callback: the key of the token's id, or else the first RSA key. *)
Definition key_for (keys : list jwkKey) (alg kid : string) : option (Z * Z) :=
  if negb (bool_decide (alg ∈ rsa_methods)) then None
  else
    match find (λ k, bool_decide (Kid k = kid) && is_rsa k) keys with
    | Some k => rsaPublicKeyFromJWK k
    | None => find is_rsa keys ≫= rsaPublicKeyFromJWK
    end.

Abbreviation claims := (gmap string json).

(** The JWT library on RSA tokens.  [rsa_parse keyf now s] is [jwt.Parse] with the three RSA
    methods as the valid ones: the claims, [None] for an error.  [signed key s alg kid c]:
    [s] is a token with these headers and claims whose signature verifies under the key. *)
Class OidcJwt := {
  rsa_parse : (string → string → option (Z * Z)) → Z → string → option claims;
  signed : Z * Z → string → string → string → claims → Prop;
  fresh : claims → Z → bool;
  rsa_parse_sound : ∀ keyf now s c, rsa_parse keyf now s = Some c →
    ∃ alg kid key, alg ∈ rsa_methods ∧ keyf alg kid = Some key ∧ signed key s alg kid c ∧ fresh c now = true;
  rsa_parse_complete : ∀ keyf now s alg kid key c, signed key s alg kid c → alg ∈ rsa_methods →
    keyf alg kid = Some key → fresh c now = true → rsa_parse keyf now s = Some c;
  fresh_exp : ∀ c now n d, fresh c now = true → c !! "exp" = Some (JNumber n d) → (Z.pos d <= n)%Z →
    (now < truncate n d * GoTime.GoTime.second)%Z;
}.

Definition claimString (c : claims) (key : string) : string :=
  match c !! key with Some (JString s) => s | _ => "" end.
Definition extractAudience (c : claims) : list string :=
  match c !! "aud" with
  | Some (JString s) => [s]
  | Some (JArray l) => omap (λ j, match j with JString s => Some s | _ => None end) l
  | _ => []
  end.
Definition containsStr (l : list string) (s : string) : bool := bool_decide (s ∈ l).

(** ** From claims to an identity *)

Definition isBusinessHours (zone t : Z) : bool :=
  let local := (t + zone * GoTime.GoTime.second)%Z in
  let seconds := (local / GoTime.GoTime.second)%Z in
  let h := ((seconds / 3600) `mod` 24)%Z in
  let wd := ((seconds / 86400 + 4) `mod` 7)%Z in
  ((1 <=? wd) && (wd <=? 5) && (8 <=? h) && (h <? 18))%Z.

Section Claims.
Context (number_text : Z → positive → string).

(** [%v] of a decoded value; a map prints by increasing keys. *)
Definition key_le (a b : string * string) : Prop := String.leb (fst a) (fst b) = true.
#[local] Instance key_le_dec : RelDecision key_le.
Proof. intros a b. unfold key_le. apply _. Defined.
Definition object_text (l : list (string * string)) : string :=
  "map[" +:+ Join ((λ kv, fst kv +:+ ":" +:+ snd kv)
                     <$> merge_sort key_le (map_to_list (foldl (λ m kv, <[fst kv := snd kv]> m) (∅ : gmap string string) l)))
               " " +:+ "]".
Fixpoint sprint (j : json) : string :=
  match j with
  | JNull => "<nil>"
  | JBool b => if b then "true" else "false"
  | JNumber n d => number_text n d
  | JString s => s
  | JArray l => "[" +:+ Join (map sprint l) " " +:+ "]"
  | JObject l => object_text (map (λ kv, (fst kv, sprint (snd kv))) l)
  end.

Definition no_identity : IdentityDomain := mkIdentity "" "" "" [] "" "" "" "" false "" "" ∅.
Definition no_device : DeviceDomain :=
  mkDevice "" "" "" "" "" false false false false false false false false false "".
Definition no_location : LocationDomain := mkLocation "" "" "" "" (0, 1%positive)%Z (0, 1%positive)%Z 0 "" "" false false false.
Definition no_application : ApplicationDomain := mkApplication "" "" "" 0 false "" false.
Definition no_data : DataDomain := mkData "" "" false [].

(** One entry of the attribute map applied to the claim it names. *)
Definition set_attribute (i : IdentityDomain) (field : string) (val : json) : IdentityDomain :=
  let v := sprint val in
  match i with
  | mkIdentity u em dn gs dep ti src sid mfa mm rl at_ =>
      if bool_decide (field = "user_id") then mkIdentity v em dn gs dep ti src sid mfa mm rl at_
      else if bool_decide (field = "email") then mkIdentity u v dn gs dep ti src sid mfa mm rl at_
      else if bool_decide (field = "display_name") then mkIdentity u em v gs dep ti src sid mfa mm rl at_
      else if bool_decide (field = "department") then mkIdentity u em dn gs v ti src sid mfa mm rl at_
      else if bool_decide (field = "title") then mkIdentity u em dn gs dep v src sid mfa mm rl at_
      else if bool_decide (field = "groups") then
        match val with
        | JArray l => mkIdentity u em dn (gs ++ (sprint <$> l)) dep ti src sid mfa mm rl at_
        | _ => i
        end
      else mkIdentity u em dn gs dep ti src sid mfa mm rl (<[field := v]> at_)
  end.
Definition apply_attribute (c : claims) (i : IdentityDomain) (kv : string * string) : IdentityDomain :=
  match c !! fst kv with Some val => set_attribute i (snd kv) val | None => i end.
Definition has_mfa (c : claims) : bool :=
  match c !! "amr" with Some (JArray l) => existsb (λ j, bool_decide (sprint j = "mfa")) l | _ => false end.
Definition verified (i : IdentityDomain) : IdentityDomain :=
  mkIdentity (UserID i) (Email i) (DisplayName i) (Groups i) (Department i) (Title i) (IdPSource i) (IdPSessionID i)
    true (MFAMethod i) (RiskLevel i) (Attributes i).

Definition mapClaims (e : env) (i : nat) (idp : IdPConfig) (c : claims) : UnifiedIdentity :=
  let start := mkIdentity "" "" "" [] "" "" (ProviderType idp) "" false "" "" ∅ in
  let id := foldl (apply_attribute c) start (range (e_ro e) (AttributeMap idp)) in
  let id := if has_mfa c then verified id else id in
  mkUnified "" (OrgID idp) GoTime.GoTime.zero_time id no_device no_location no_application no_data
    (mkTime (clk e i) (clk e (1 + i)) (isBusinessHours (zone e) (clk e (2 + i))) false 0 0) 0 "" [] [].

End Claims.

(** What the caller says of the device; a value of another kind is passed over. *)
Definition posture_string (p : claims) (k old : string) : string :=
  match p !! k with Some (JString s) => s | _ => old end.
Definition posture_bool (p : claims) (k : string) (old : bool) : bool :=
  match p !! k with Some (JBool b) => b | _ => old end.
Definition enrichDevicePosture (d : DeviceDomain) (p : claims) : DeviceDomain :=
  mkDevice (posture_string p "device_id" (DeviceID d)) (posture_string p "hostname" (Hostname d))
    (posture_string p "os" (OS d)) (posture_string p "os_version" (OSVersion d)) (AgentVersion d)
    (posture_bool p "managed" (Managed d)) (posture_bool p "compliant" (Compliant d))
    (posture_bool p "disk_encrypted" (DiskEncrypted d)) (posture_bool p "firewall_active" (FirewallActive d))
    (posture_bool p "antivirus_ok" (AntivirusOK d)) (posture_bool p "domain_joined" (DomainJoined d))
    (posture_bool p "entra_joined" (EntraJoined d)) (JailBroken d) (posture_bool p "cert_valid" (CertValid d)) (MDMSource d).

Definition points (b : bool) (n : Z) : Z := if b then n else 0.
Definition computeRiskScore (u : UnifiedIdentity) : Z :=
  let i := Identity u in let d := Device u in let l := Location u in
  let score :=
    (points (negb (MFAVerified i)) 25
     + (if bool_decide (RiskLevel i = "high") then 30 else if bool_decide (RiskLevel i = "critical") then 50 else 0)
     + points (negb (Managed d)) 15 + points (negb (Compliant d)) 10 + points (negb (DiskEncrypted d)) 10
     + points (negb (FirewallActive d)) 5 + points (negb (AntivirusOK d)) 10 + points (JailBroken d) 40
     + points (TorDetected l) 40 + points (ProxyDetected l) 15 + points (negb (TrustedNet l)) 5
     + points (negb (BusinessHours (Time u))) 5 + points (DLPTriggered (Data u)) 20)%Z in
  if (100 <? score)%Z then 100 else score.

Definition assessCompliance (u : UnifiedIdentity) : string :=
  let d := Device u in
  if JailBroken d || TorDetected (Location u) then "non_compliant"
  else if negb (MFAVerified (Identity u)) then "non_compliant"
  else if Managed d && Compliant d && DiskEncrypted d && FirewallActive d && AntivirusOK d then "compliant"
  else if negb (bool_decide (DeviceID d = "")) then "non_compliant"
  else "unknown".

Definition sgt_of_group (g : string) : Z :=
  if bool_decide (g = "security-admins") || bool_decide (g = "network-ops") then 999
  else if bool_decide (g = "soc-team") then 800
  else if bool_decide (g = "developers") then 200
  else if bool_decide (g = "finance") then 500
  else 10.
Definition resolveSGTs (u : UnifiedIdentity) : list Z := sgt_of_group <$> Groups (Identity u).

(** ** The exchange *)

Record TokenExchangeRequest := mkExchange {
  GrantType : string;
  SubjectToken : string;
  SubjectType : string;
  IdPID : string;
  DevicePosture : option claims;
}.
Record TokenExchangeResponse := mkResponse {
  AccessToken : string;
  TokenType : string;
  ExpiresIn : Z;
  r_Identity : UnifiedIdentity;
}.
Inductive broker_error := UnknownIdP | IdPDisabled | TokenInvalid (err : token_error).

Section Exchange.
Context (number_text : Z → positive → string) `{OidcJwt}.

Definition jwks_uri (idp : IdPConfig) : string :=
  if bool_decide (JWKSURI idp = "") && negb (bool_decide (IssuerURL idp = "")) then IssuerURL idp +:+ "/v1/keys"
  else JWKSURI idp.
(** Issuer and audience, where they are configured. *)
Definition check_claims (idp : IdPConfig) (c : claims) : result token_error claims :=
  if negb (bool_decide (IssuerURL idp = "")) && negb (bool_decide (claimString c "iss" = IssuerURL idp)) then Err IssuerMismatch
  else if negb (bool_decide (ClientID idp = "")) && negb (containsStr (extractAudience c) (ClientID idp)) then Err AudienceMismatch
  else Ok c.

Definition ValidateOIDCToken (e : env) (i : nat) (b : Broker) (idp : IdPConfig) (token : string)
  : Broker * result token_error claims :=
  match getJWKS e i b (ID idp) (jwks_uri idp) with
  | (b, Err err) => (b, Err err)
  | (b, Ok keys) =>
      match rsa_parse (key_for keys) (clk e (2 + i)) token with
      | None => (b, Err BadToken)
      | Some c => (b, check_claims idp c)
      end
  end.

Definition enrich (u : UnifiedIdentity) (posture : option claims) : UnifiedIdentity :=
  match posture with
  | None => u
  | Some p =>
      mkUnified (SessionID u) (u_OrgID u) (Timestamp u) (Identity u) (enrichDevicePosture (Device u) p) (Location u)
        (Application u) (Data u) (Time u) (RiskScore u) (ComplianceState u) (EffectiveSGTs u) (Flags u)
  end.
Definition assessed (u : UnifiedIdentity) (session : string) (t : Z) : UnifiedIdentity :=
  mkUnified session (u_OrgID u) t (Identity u) (Device u) (Location u) (Application u) (Data u) (Time u)
    (computeRiskScore u) (assessCompliance u) (resolveSGTs u) (Flags u).

Definition ExchangeToken (e : env) (b : Broker) (req : TokenExchangeRequest)
  : Broker * result broker_error TokenExchangeResponse :=
  match idps b !! IdPID req with
  | None => (b, Err UnknownIdP)
  | Some idp =>
      if negb (Enabled idp) then (b, Err IdPDisabled)
      else
        match ValidateOIDCToken e 0 b idp (SubjectToken req) with
        | (b, Err err) => (b, Err (TokenInvalid err))
        | (b, Ok c) =>
            let u := enrich (mapClaims number_text e 3 idp c) (DevicePosture req) in
            let u := assessed u (Hex.encode (take 16 (random e))) (clk e 6) in
            (with_sessions b (<[SessionID u := u]> (sessions b)),
             Ok (mkResponse ("aegis_at_" +:+ SessionID u) "Bearer" 900 u))
        end
  end.

Definition GetSession (b : Broker) (id : string) : option UnifiedIdentity := sessions b !! id.
Definition ListSessions (ro : range_order) (b : Broker) : list UnifiedIdentity := values ro (sessions b).
Definition RevokeSession (b : Broker) (id : string) : Broker * bool :=
  match sessions b !! id with
  | None => (b, false)
  | Some _ => (with_sessions b (delete id (sessions b)), true)
  end.

End Exchange.
(** ** Persistence *)

(** The store behind the broker, and what the broker relies on it for: an upsert that
    succeeds stores the record without its SCIM token, and the list gives every record once. *)
Class IdPPersister (T : Type) := {
  List_ : bool → range_order → T → option (list IdPDBRecord);
  Upsert : bool → T → IdPDBRecord → T * bool;
  Delete : bool → T → string → T * bool;
}.
Definition without_token (r : IdPDBRecord) : IdPDBRecord :=
  mkRecord (r_ID r) (r_OrgID r) (r_Name r) (r_ProviderType r) (r_Enabled r) (r_IsDefault r) (r_ClientID r)
    (r_ClientSecret r) (r_IssuerURL r) (r_JWKSURI r) (r_TokenEndpoint r) (r_Scopes r) (r_SAMLEntityID r)
    (r_SAMLSSOURL r) (r_SAMLCertificate r) (r_KerberosEnabled r) (r_KerberosRealm r) (r_SCIMEnabled r)
    (r_SCIMEndpoint r) "" (r_AttributeMap r) (r_GroupMap r).
Class LawfulPersister (T : Type) `{IdPPersister T} := {
  view : T → gmap string IdPDBRecord;
  storable : IdPDBRecord → Prop;
  list_law : ∀ ok ro t l, List_ ok ro t = Some l →
    ∀ r, r ∈ l ↔ view t !! r_ID r = Some r;
  view_keys : ∀ t k r, view t !! k = Some r → r_ID r = k ∧ r_SCIMToken r = "";
  upsert_law : ∀ ok t r t', storable r → Upsert ok t r = (t', true) →
    view t' = <[r_ID r := without_token r]> (view t);
  delete_law : ∀ ok t k t', Delete ok t k = (t', true) → view t' = delete k (view t);
}.

(** [SetPersister] loads the records over what is there; when the list fails, nothing. *)
Definition loadFromDB (b : Broker) (records : list IdPDBRecord) : Broker :=
  with_idps b (foldl add_idp (idps b) (dbRecordToIdPConfig <$> records)).
Definition SetPersister (b : Broker) (records : option (list IdPDBRecord)) : Broker :=
  let b := mkBroker (idps b) (sessions b) (jwks b) true in
  match records with Some l => loadFromDB b l | None => b end.

(** ** The broker's handlers *)

Inductive reply :=
| RErr (status : Z)
| RList (l : list IdPConfig)
| RIdP (c : IdPConfig)
| RCreated (id : string)
| RDone (status : string)
| RToken (r : TokenExchangeResponse)
| RSessions (l : list UnifiedIdentity)
| RSession (u : UnifiedIdentity).

Definition ListIdPs_ (e : env) (b : Broker) : reply := RList (ListIdPs (e_ro e) b).
Definition GetIdP_ (b : Broker) (id : string) : reply :=
  match GetIdP b id with Some c => RIdP c | None => RErr 404 end.
Definition CreateIdP_ (e : env) (b : Broker) (org : string) (body : option IdPConfig) : Broker * list write * reply :=
  match body with
  | None => (b, [], RErr 400)
  | Some cfg => let '(b, w, id) := CreateIdP e b (with_org cfg org) in (b, w, RCreated id)
  end.
(** The organization is the one of the body. *)
Definition UpdateIdP_ (b : Broker) (id : string) (body : option IdPConfig) : Broker * list write * reply :=
  match body with
  | None => (b, [], RErr 400)
  | Some cfg =>
      let '(b, w, ok) := UpdateIdP b (with_id cfg id) in
      (b, w, if ok then RDone "updated" else RErr 404)
  end.
Definition DeleteIdP_ (b : Broker) (id : string) : Broker * list write * reply :=
  let '(b, w, ok) := DeleteIdP b id in (b, w, if ok then RDone "deleted" else RErr 404).
Definition ListSessions_ (e : env) (b : Broker) : reply := RSessions (ListSessions (e_ro e) b).
Definition GetSession_ (b : Broker) (id : string) : reply :=
  match GetSession b id with Some u => RSession u | None => RErr 404 end.
Definition RevokeSession_ (b : Broker) (id : string) : Broker * reply :=
  let '(b, ok) := RevokeSession b id in (b, if ok then RDone "revoked" else RErr 404).

Section System.
Context (number_text : Z → positive → string) `{OidcJwt}.

Definition ExchangeToken_ (e : env) (b : Broker) (body : option TokenExchangeRequest) : Broker * reply :=
  match body with
  | None => (b, RErr 400)
  | Some req =>
      match ExchangeToken number_text e b req with
      | (b, Ok r) => (b, RToken r)
      | (b, Err _) => (b, RErr 401)
      end
  end.

(** The calls that change the broker. *)
Inductive call :=
| CCreate (org : string) (body : option IdPConfig)
| CUpdate (id : string) (body : option IdPConfig)
| CDelete (id : string)
| CExchange (body : option TokenExchangeRequest)
| CRevoke (id : string).
Definition exec (e : env) (b : Broker) (c : call) : Broker * list write * reply :=
  match c with
  | CCreate org body => CreateIdP_ e b org body
  | CUpdate id body => UpdateIdP_ b id body
  | CDelete id => DeleteIdP_ b id
  | CExchange body => let '(b, r) := ExchangeToken_ e b body in (b, [], r)
  | CRevoke id => let '(b, r) := RevokeSession_ b id in (b, [], r)
  end.

(** The broker, its table, and the writes that are under way. *)
Context {T : Type} `{IdPPersister T}.
Record system := mkSystem { broker : Broker; tbl : T; pending : list write }.
Definition run_write (ok : bool) (t : T) (w : write) : T * bool :=
  match w with WUpsert r => Upsert ok t r | WDelete id => Delete ok t id end.
Definition boot (ok : bool) (ro : range_order) (t : T) : Broker := SetPersister NewBroker (List_ ok ro t).

Inductive step : system → system → Prop :=
| step_call e c s b w r :
    exec e (broker s) c = (b, w, r) →
    step s (mkSystem b (tbl s) (pending s ++ w))
| step_write ok ws1 w ws2 s t done :
    pending s = ws1 ++ w :: ws2 →
    run_write ok (tbl s) w = (t, done) →
    step s (mkSystem (broker s) t (ws1 ++ ws2)).

End System.
Arguments system : clear implicits.
Arguments mkSystem {T}.

(** ** The exchange is exact *)

Section ExchangeProofs.
Context (number_text : Z → positive → string) `{OidcJwt}.
Abbreviation ExchangeToken := (ExchangeToken number_text).

(** What the broker accepts from a provider whose keys are [keys]. *)
Definition accepted (idp : IdPConfig) (keys : list jwkKey) (now : Z) (token : string) (c : claims) : Prop :=
  (∃ alg kid key, alg ∈ rsa_methods ∧ key_for keys alg kid = Some key ∧ signed key token alg kid c) ∧
  fresh c now = true ∧
  (IssuerURL idp ≠ "" → claimString c "iss" = IssuerURL idp) ∧
  (ClientID idp ≠ "" → ClientID idp ∈ extractAudience c).

Lemma getJWKS_frame e i b id uri b' r :
  getJWKS e i b id uri = (b', r) → idps b' = idps b ∧ sessions b' = sessions b ∧ persistent b' = persistent b.
Proof.
  unfold getJWKS. case_bool_decide; [by intros [= <- _]|].
  destruct (jwks b !! id); [destruct (_ <? _)%Z; [by intros [= <- _]|]|];
    destruct (fetch e uri) as [| |[]]; by intros [= <- _].
Qed.

Lemma check_claims_spec idp c :
  match check_claims idp c with
  | Ok c' => c' = c ∧ (IssuerURL idp ≠ "" → claimString c "iss" = IssuerURL idp)
             ∧ (ClientID idp ≠ "" → ClientID idp ∈ extractAudience c)
  | Err _ => ¬ ((IssuerURL idp ≠ "" → claimString c "iss" = IssuerURL idp)
                ∧ (ClientID idp ≠ "" → ClientID idp ∈ extractAudience c))
  end.
Proof. unfold check_claims, containsStr. repeat case_bool_decide; cbn; naive_solver. Qed.

Lemma validate_exact e i b idp token :
  match ValidateOIDCToken e i b idp token with
  | (b', Ok c) => ∃ keys, getJWKS e i b (ID idp) (jwks_uri idp) = (b', Ok keys) ∧ accepted idp keys (clk e (2 + i)) token c
  | (b', Err _) => fst (getJWKS e i b (ID idp) (jwks_uri idp)) = b' ∧
      ∀ keys c, snd (getJWKS e i b (ID idp) (jwks_uri idp)) = Ok keys → ¬ accepted idp keys (clk e (2 + i)) token c
  end.
Proof.
  unfold ValidateOIDCToken. destruct (getJWKS e i b (ID idp) (jwks_uri idp)) as [b1 [keys|err]] eqn:Hk; [|naive_solver].
  destruct (rsa_parse _ _ _) as [c|] eqn:Hp.
  - pose proof (check_claims_spec idp c) as Hc. apply rsa_parse_sound in Hp as Hs.
    destruct Hs as (alg & kid & key & Halg & Hkey & Hsig & Hf).
    destruct (check_claims idp c) as [c'|err] eqn:Ec.
    + destruct Hc as (-> & Hi & Ha). exists keys. split; [done|]. split; [by eauto 10|]. done.
    + split; [done|]. intros keys' c' [= <-] ((alg' & kid' & key' & Ha' & Hk' & Hs') & Hf' & Hi' & Hc').
      pose proof (rsa_parse_complete _ _ _ _ _ _ _ Hs' Ha' Hk' Hf') as E. rewrite Hp in E. injection E as ->. by apply Hc.
  - split; [done|]. intros keys' c' [= <-] ((alg' & kid' & key' & Ha' & Hk' & Hs') & Hf' & _).
    pose proof (rsa_parse_complete _ _ _ _ _ _ _ Hs' Ha' Hk' Hf') as E. by rewrite Hp in E.
Qed.

Lemma validate_complete e i b idp token keys c :
  snd (getJWKS e i b (ID idp) (jwks_uri idp)) = Ok keys → accepted idp keys (clk e (2 + i)) token c →
  ValidateOIDCToken e i b idp token = (fst (getJWKS e i b (ID idp) (jwks_uri idp)), Ok c).
Proof.
  intros Hk ((alg & kid & key & Ha & Hkey & Hs) & Hf & Hi & Hc). unfold ValidateOIDCToken.
  destruct (getJWKS e i b (ID idp) (jwks_uri idp)) as [b1 r]. cbn in Hk. subst r. cbn [fst].
  rewrite (rsa_parse_complete _ _ _ _ _ _ _ Hs Ha Hkey Hf). pose proof (check_claims_spec idp c) as Hx.
  destruct (check_claims idp c) as [c'|err]; [by destruct Hx as [-> _]|]. by destruct Hx.
Qed.

(** The identity an exchange makes of the claims and of what the caller says of its device. *)
Definition exchanged (e : env) (idp : IdPConfig) (c : claims) (req : TokenExchangeRequest) : UnifiedIdentity :=
  assessed (enrich (mapClaims number_text e 3 idp c) (DevicePosture req)) (Hex.encode (take 16 (random e))) (clk e 6).

(** The exchange is exact.  It succeeds only for a known, enabled provider and a fresh token
    with an RSA signature by one of the provider's keys, of its issuer and for its client where
    those are configured; it then opens one session, that of the claims, and changes no
    provider.  When it fails, no session is opened and the provider's keys accept the token for
    no claims. *)
Theorem exchange_exact e b req :
  match ExchangeToken e b req with
  | (b', Ok resp) => ∃ idp keys c,
      idps b !! IdPID req = Some idp ∧ Enabled idp = true ∧
      snd (getJWKS e 0 b (ID idp) (jwks_uri idp)) = Ok keys ∧
      accepted idp keys (clk e 2) (SubjectToken req) c ∧
      resp = mkResponse ("aegis_at_" +:+ SessionID (exchanged e idp c req)) "Bearer" 900 (exchanged e idp c req) ∧
      sessions b' = <[SessionID (exchanged e idp c req) := exchanged e idp c req]> (sessions b) ∧ idps b' = idps b
  | (b', Err _) => sessions b' = sessions b ∧ idps b' = idps b ∧
      ∀ idp keys c, idps b !! IdPID req = Some idp → Enabled idp = true →
        snd (getJWKS e 0 b (ID idp) (jwks_uri idp)) = Ok keys → ¬ accepted idp keys (clk e 2) (SubjectToken req) c
  end.
Proof.
  unfold ExchangeToken, Broker.ExchangeToken. destruct (idps b !! IdPID req) as [idp|] eqn:Hi; [|by naive_solver].
  destruct (Enabled idp) eqn:He; cbn [negb]; [|split_and!; [done..|]; intros ? ? ? [= <-]; congruence].
  pose proof (validate_exact e 0 b idp (SubjectToken req)) as Hv.
  destruct (ValidateOIDCToken e 0 b idp (SubjectToken req)) as [b1 [c|err]].
  - destruct Hv as (keys & Hk & Hacc). destruct (getJWKS_frame _ _ _ _ _ _ _ Hk) as (Hi' & Hs' & _).
    exists idp, keys, c. rewrite Hk. split_and!; try done. cbn. by rewrite Hs'.
  - destruct Hv as [Hb Hno]. destruct (getJWKS e 0 b _ _) as [b2 r] eqn:Hk. cbn in Hb. subst b2.
    destruct (getJWKS_frame _ _ _ _ _ _ _ Hk) as (Hi' & Hs' & _). split_and!; [done..|].
    intros idp' keys c [= <-] _. rewrite Hk. apply Hno.
Qed.

(** ** Risk and compliance *)

Definition healthy (p : option claims) : bool :=
  match p with
  | Some p => forallb (λ k, posture_bool p k false) ["managed"; "compliant"; "disk_encrypted"; "firewall_active"; "antivirus_ok"]
  | None => false
  end.

Lemma set_attribute_fixed i f v : MFAVerified (set_attribute number_text i f v) = MFAVerified i
  ∧ RiskLevel (set_attribute number_text i f v) = RiskLevel i.
Proof. destruct i. unfold set_attribute. repeat case_bool_decide; try done. by destruct v. Qed.
Lemma attributes_fixed c l i : MFAVerified (foldl (apply_attribute number_text c) i l) = MFAVerified i
  ∧ RiskLevel (foldl (apply_attribute number_text c) i l) = RiskLevel i.
Proof.
  revert i. induction l as [|[k f] l IH]; intros i; [done|]. cbn. destruct (IH (apply_attribute number_text c i (k, f))) as [-> ->].
  unfold apply_attribute. cbn. destruct (c !! k); [|done]. apply set_attribute_fixed.
Qed.
Lemma mapClaims_mfa e i idp c :
  MFAVerified (Identity (mapClaims number_text e i idp c)) = has_mfa number_text c
  ∧ RiskLevel (Identity (mapClaims number_text e i idp c)) = "".
Proof.
  unfold mapClaims. cbn [Identity].
  set (l := range _ _). set (st := mkIdentity _ _ _ _ _ _ _ _ _ _ _ _).
  destruct (attributes_fixed c l st) as [H1 H2]. destruct (has_mfa number_text c); cbn; rewrite ?H1, ?H2; done.
Qed.

(** What an exchange says of a session's risk: the score is the stated sum, between 5 and
    85; the session is compliant exactly when the provider vouches for a second factor and the
    caller claims all five properties of its device, and then the score is at most 10; without
    the second factor it is non-compliant, with a score of at least 30. *)
Theorem exchange_risk e idp c req :
  let u := exchanged e idp c req in
  let mfa := has_mfa number_text c in
  (5 ≤ RiskScore u ≤ 85)%Z ∧
  (ComplianceState u = "compliant" ↔ mfa = true ∧ healthy (DevicePosture req) = true) ∧
  (ComplianceState u = "compliant" → (RiskScore u ≤ 10)%Z) ∧
  (mfa = false → ComplianceState u = "non_compliant" ∧ (30 ≤ RiskScore u)%Z) ∧
  EffectiveSGTs u = sgt_of_group <$> Groups (Identity u).
Proof.
  cbn zeta. unfold exchanged, assessed. cbn [RiskScore ComplianceState EffectiveSGTs Identity].
  set (m := mapClaims number_text e 3 idp c). set (mfa := has_mfa number_text c).
  assert (Hid : Identity (enrich m (DevicePosture req)) = Identity m) by by destruct (DevicePosture req).
  assert (Hm : MFAVerified (Identity (enrich m (DevicePosture req))) = mfa
             ∧ RiskLevel (Identity (enrich m (DevicePosture req))) = "").
  { rewrite Hid. apply mapClaims_mfa. }
  destruct Hm as [Hmfa Hrl].
  assert (Hloc : Location (enrich m (DevicePosture req)) = no_location ∧ Data (enrich m (DevicePosture req)) = no_data)
    by (by destruct (DevicePosture req)).
  destruct Hloc as [Hloc Hdata].
  unfold computeRiskScore, assessCompliance. rewrite Hmfa, Hrl, Hloc, Hdata.
  assert (Hdev : (JailBroken (Device (enrich m (DevicePosture req))) = false) ∧
    healthy (DevicePosture req) = let d := Device (enrich m (DevicePosture req)) in
      Managed d && (Compliant d && (DiskEncrypted d && (FirewallActive d && (AntivirusOK d && true)))))
    by by destruct (DevicePosture req).
  destruct Hdev as [Hj ->]. destruct (Device (enrich m (DevicePosture req))). cbn in Hj |- *. rewrite Hj.
  generalize (BusinessHours (Time (enrich m (DevicePosture req)))). intros h. clear. clearbody mfa.
  rewrite (bool_decide_eq_false_2 ("" = "high")), (bool_decide_eq_false_2 ("" = "critical")) by done.
  split_and!; [..|done]; try case_bool_decide; destruct mfa, Managed0, Compliant0, DiskEncrypted0, FirewallActive0, AntivirusOK0, h;
    try by vm_compute. all: first [by (split; [intros|intros [? ?]]; vm_compute)|by (intros; split; vm_compute)].
Qed.

End ExchangeProofs.

(** ** The order of the attribute map *)

(** A fold does not depend on the order of a list whose elements commute. *)
Lemma foldl_permutation {A B} (f : A → B → A) l l' x :
  l ≡ₚ l' → NoDup l → (∀ a b y, a ∈ l → b ∈ l → a ≠ b → f (f y a) b = f (f y b) a) → foldl f x l = foldl f x l'.
Proof.
  intros Hp. revert x. induction Hp as [|a l l' Hp IH|a b l|l l1 l2 Hp1 IH1 Hp2 IH2]; intros x Hnd Hc; [done|..].
  - cbn. apply NoDup_cons in Hnd as [_ Hnd]. apply IH; [done|]. intros. apply Hc; [by right..|done].
  - cbn. apply NoDup_cons in Hnd as [Hn _]. rewrite Hc; [done|by apply list_elem_of_here|by right; left|].
    intros <-. apply Hn. by left.
  - rewrite IH1 by done. apply IH2; [by rewrite <- Hp1|]. intros. apply Hc; by rewrite ?Hp1.
Qed.

Section Mapping.
Context (number_text : Z → positive → string).

Lemma set_attribute_comm i f g v w : f ≠ g →
  set_attribute number_text (set_attribute number_text i f v) g w
  = set_attribute number_text (set_attribute number_text i g w) f v.
Proof.
  intros Hne. destruct i. unfold set_attribute.
  repeat (case_bool_decide; subst; try done); destruct v; try done; destruct w; try done; cbn;
    by rewrite insert_insert_ne.
Qed.

(** No two claims go to the same field. *)
Definition unambiguous (m : gmap string string) : Prop :=
  ∀ k k' f, m !! k = Some f → m !! k' = Some f → k = k'.

Lemma mapping_order c m (ro ro' : range_order) i : unambiguous m →
  foldl (apply_attribute number_text c) i (range ro m) = foldl (apply_attribute number_text c) i (range ro' m).
Proof.
  intros Hu. apply foldl_permutation.
  - by rewrite (range_perm ro m), (range_perm ro' m).
  - apply (NoDup_fmap_1 fst). apply NoDup_range_keys.
  - intros [k f] [k' f'] y Ha%elem_of_range Hb%elem_of_range Hne. unfold apply_attribute. cbn.
    destruct (c !! k) as [v|], (c !! k') as [w|]; try done. apply set_attribute_comm. intros ->.
    apply Hne. by rewrite (Hu _ _ _ Ha Hb).
Qed.

(** The identity does not depend on the order in which Go visits the attribute map, when no
    two claims are mapped to one field; the five built-in providers are so configured. *)
Theorem mapping_deterministic e ro' i idp c :
  unambiguous (AttributeMap idp) →
  mapClaims number_text (mkEnv (clk e) (zone e) (random e) ro' (fetch e)) i idp c = mapClaims number_text e i idp c ∧
  Forall (λ d, unambiguous (AttributeMap d)) default_idps.
Proof.
  intros Hu. split.
  - unfold mapClaims. cbn. by rewrite (mapping_order c (AttributeMap idp) ro' (e_ro e)).
  - assert (Hb : ∀ m : gmap string string, bool_decide (NoDup (map_to_list m).*2) = true → unambiguous m).
    { intros m Hm%bool_decide_eq_true k k' f Hk Hk'.
      apply elem_of_map_to_list in Hk, Hk'. by pose proof (NoDup_fmap_eq snd (map_to_list m) _ _ Hm Hk Hk' eq_refl) as [= ->]. }
    repeat constructor; apply Hb; by vm_compute.
Qed.

End Mapping.

(** ** Keys *)

Section KeyProofs.
Context (number_text : Z → positive → string) `{OidcJwt}.

(** The calls that manage providers. *)
Definition manages (c : call) : bool :=
  match c with CCreate _ _ | CUpdate _ _ | CDelete _ => true | CExchange _ | CRevoke _ => false end.
Definition execs (b : Broker) (l : list (env * call)) : Broker :=
  foldl (λ b ec, fst (fst (exec number_text (fst ec) b (snd ec)))) b l.

Lemma manages_keys e b c : manages c = true → jwks (fst (fst (exec number_text e b c))) = jwks b.
Proof.
  destruct c as [org [cfg|]|id [cfg|]|id|body|id]; cbn; try done; intros _.
  - unfold UpdateIdP. by destruct (idps b !! _).
  - unfold DeleteIdP_, DeleteIdP. by destruct (idps b !! _).
Qed.

(** The keys of a provider outlive it.  They are cached under its id for an hour whatever
    becomes of the provider: after any calls that replace it, delete it or create another one
    under its id, with another key address, what its keys signed is exchanged, without asking
    the address. *)
Theorem keys_outlive_provider b id cache calls e req idp c :
  jwks b !! id = Some cache → Forall (λ ec, manages (snd ec) = true) calls →
  let b' := execs b calls in
  idps b' !! IdPID req = Some idp → ID idp = id → Enabled idp = true → jwks_uri idp ≠ "" →
  (clk e 0 - FetchedAt cache < hour)%Z →
  accepted idp (Keys cache) (clk e 2) (SubjectToken req) c →
  ∃ b'' resp, ExchangeToken number_text e b' req = (b'', Ok resp).
Proof.
  intros Hc Hcalls b' Hi Hid He Hu Ht Hacc.
  assert (Hc' : jwks b' !! id = Some cache).
  { subst b'. clear -Hc Hcalls. revert b Hc. induction Hcalls as [|[e' c'] l Hm _ IH]; intros b Hc; [done|].
    cbn. apply IH. by rewrite manages_keys. }
  pose proof (exchange_exact number_text e b' req) as Hx.
  destruct (ExchangeToken number_text e b' req) as [b'' [resp|err]]; [by eauto|].
  destruct Hx as (_ & _ & Hno). exfalso. eapply (Hno idp (Keys cache) c); [done..| |done].
  unfold getJWKS. rewrite bool_decide_eq_false_2 by done. rewrite Hid, Hc'.
  by rewrite (proj2 (Z.ltb_lt _ _) Ht).
Qed.

End KeyProofs.

(** ** Restart *)

Section Restart.
Context (number_text : Z → positive → string) `{OidcJwt} {T : Type} `{LawfulPersister T}.

Definition write_view (m : gmap string IdPDBRecord) (w : write) : gmap string IdPDBRecord :=
  match w with WUpsert r => <[r_ID r := without_token r]> m | WDelete id => delete id m end.
Definition write_storable (w : write) : Prop := match w with WUpsert r => storable r | WDelete _ => True end.
Definition record_of (c : IdPConfig) : IdPDBRecord := without_token (idpConfigToDBRecord c).
(** A configuration as a restart gives it back. *)
Definition scrub (c : IdPConfig) : IdPConfig := dbRecordToIdPConfig (idpConfigToDBRecord c).

(** The runs in which every write is of a storable record and succeeds, in the order of the
    calls. *)
Inductive orderly : system T → system T → Prop :=
| orderly_call e c s b w r :
    exec number_text e (broker s) c = (b, w, r) → Forall write_storable w →
    orderly s (mkSystem b (tbl s) (pending s ++ w))
| orderly_write ok w ws s t :
    pending s = w :: ws → run_write ok (tbl s) w = (t, true) →
    orderly s (mkSystem (broker s) t ws).

Definition matches (m : gmap string IdPConfig) (v : gmap string IdPDBRecord) : Prop :=
  ∀ id, match m !! id with
        | Some c => ID c = id ∧ (v !! id = Some (record_of c) ∨ v !! id = None ∧ loadDefaults !! id = Some c)
        | None => v !! id = None
        end.
Definition consistent (s : system T) : Prop :=
  persistent (broker s) = true ∧ Forall write_storable (pending s) ∧
  matches (idps (broker s)) (foldl write_view (view (tbl s)) (pending s)).

Lemma matches_add m v c : matches m v → matches (add_idp m c) (write_view v (WUpsert (idpConfigToDBRecord c))).
Proof.
  intros Hm id. unfold add_idp. cbn. destruct (decide (ID c = id)) as [<-|].
  - rewrite !lookup_insert_eq. by split; [|left].
  - rewrite !lookup_insert_ne by done. apply Hm.
Qed.
Lemma matches_delete m v id : matches m v → matches (delete id m) (write_view v (WDelete id)).
Proof.
  intros Hm k. cbn. destruct (decide (id = k)) as [<-|]; [by rewrite !lookup_delete_eq|].
  rewrite !lookup_delete_ne by done. apply Hm.
Qed.

(** A call changes the providers as its write says. *)
Lemma exec_idps e b c b' w r :
  exec number_text e b c = (b', w, r) →
  persistent b' = persistent b ∧
  (idps b' = idps b ∧ w = [] ∨
   (∃ cfg, idps b' = add_idp (idps b) cfg ∧ w = started b (WUpsert (idpConfigToDBRecord cfg))) ∨
   ∃ id, idps b' = delete id (idps b) ∧ w = started b (WDelete id)).
Proof.
  destruct c as [org [cfg|]|id [cfg|]|id|[req|]|id]; cbn.
  - intros [= <- <- _]. split; [done|]. right; left. by eexists.
  - intros [= <- <- _]. by split; [|left].
  - unfold UpdateIdP. destruct (idps b !! _); intros [= <- <- _]; (split; [done|]); [right; left; by eexists|by left].
  - intros [= <- <- _]. by split; [|left].
  - unfold DeleteIdP_, DeleteIdP. destruct (idps b !! id); intros [= <- <- _]; (split; [done|]); [right; right; by eexists|by left].
  - unfold ExchangeToken. destruct (idps b !! IdPID req) as [idp|]; [|by intros [= <- <- _]; split; [|left]].
    destruct (Enabled idp); cbn [negb]; [|by intros [= <- <- _]; split; [|left]].
    unfold ValidateOIDCToken. destruct (getJWKS e 0 b _ _) as [b1 [keys|err]] eqn:Hk;
      apply getJWKS_frame in Hk as (Hi & _ & Hp); [|by intros [= <- <- _]; split; [|left]].
    destruct (rsa_parse _ _ _) as [cl|]; [destruct (check_claims idp cl)|];
      (intros [= <- <- _]; split; [done|left; done]).
  - intros [= <- <- _]. by split; [|left].
  - unfold RevokeSession_, RevokeSession. destruct (sessions b !! id); intros [= <- <- _]; (split; [done|by left]).
Qed.

Lemma run_write_view ok t w t' : write_storable w → run_write ok t w = (t', true) → view t' = write_view (view t) w.
Proof. destruct w; cbn; intros ? ?; [by eapply upsert_law|by eapply delete_law]. Qed.

Lemma orderly_consistent s s' : consistent s → orderly s s' → consistent s'.
Proof.
  intros (Hp & Hst & Hm) Hs. destruct Hs as [e c s b w r He Hw|ok w ws s t Hpend Hw].
  - destruct (exec_idps _ _ _ _ _ _ He) as [Hp' Hcase]. split; [cbn; congruence|]. cbn [broker pending tbl].
    split; [by apply Forall_app|]. rewrite foldl_app.
    destruct Hcase as [[-> ->]|[(cfg & -> & ->)|(id & -> & ->)]]; unfold started; rewrite ?Hp; cbn [foldl]; [done|..].
    + by apply matches_add.
    + by apply matches_delete.
  - rewrite Hpend in Hst, Hm. apply Forall_cons in Hst as [Hsw Hst]. split; [done|]. split; [done|].
    cbn [broker tbl pending]. rewrite (run_write_view _ _ _ _ Hsw Hw). done.
Qed.

Lemma foldl_add_idp l m (v : gmap string IdPDBRecord) id :
  (∀ r, r ∈ l → v !! r_ID r = Some r) → (∀ r, v !! id = Some r → r_ID r = id ∧ r ∈ l) →
  foldl add_idp m (dbRecordToIdPConfig <$> l) !! id
  = match v !! id with Some r => Some (dbRecordToIdPConfig r) | None => m !! id end.
Proof.
  intros Hl Hv. revert m Hv. induction l as [|r l IH] using rev_ind; intros m Hv.
  - cbn. destruct (v !! id) as [r|] eqn:E; [|done]. destruct (Hv r eq_refl) as [_ Hnil]. by apply elem_of_nil in Hnil.
  - rewrite fmap_app, foldl_app. cbn. unfold add_idp at 1. cbn.
    destruct (decide (r_ID r = id)) as [<-|Hne].
    + rewrite lookup_insert_eq. rewrite Hl; [done|]. apply elem_of_app. right. by apply list_elem_of_here.
    + rewrite lookup_insert_ne by done. apply IH; [intros; apply Hl, elem_of_app; by left|].
      intros r' Hr'. destruct (Hv r' Hr') as [Hid [Hin|Hin]%elem_of_app]; [done|].
      apply list_elem_of_singleton in Hin as ->. done.
Qed.

Lemma boot_idps ok ro t l id : List_ ok ro t = Some l →
  idps (boot ok ro t) !! id
  = match view t !! id with Some r => Some (dbRecordToIdPConfig r) | None => loadDefaults !! id end.
Proof.
  intros Hl. unfold boot, SetPersister, loadFromDB. rewrite Hl. cbn [idps with_idps NewBroker].
  apply foldl_add_idp.
  - intros r Hr. by apply (list_law _ _ _ _ Hl).
  - intros r Hr. destruct (view_keys _ _ _ Hr) as [Hk _]. split; [done|]. apply (list_law _ _ _ _ Hl). by rewrite Hk.
Qed.

Lemma loadDefaults_keys id c : loadDefaults !! id = Some c → ID c = id ∧ scrub c = c.
Proof.
  assert (Hall : map_Forall (λ k x, ID x = k ∧ scrub x = x) loadDefaults); [|by intros Hd%Hall].
  unfold loadDefaults. cbn [foldl default_idps add_idp].
  repeat (apply map_Forall_insert_2; [done|]). apply map_Forall_empty.
Qed.

Lemma consistent_boot ok ro t l : List_ ok ro t = Some l → consistent (mkSystem (boot ok ro t) t []).
Proof.
  intros Hl. split; [unfold boot, SetPersister; by rewrite Hl|]. split; [constructor|]. cbn [broker pending tbl foldl].
  intros id. rewrite (boot_idps ok ro t l id Hl). destruct (view t !! id) as [r|] eqn:Hv.
  - destruct (view_keys _ _ _ Hv) as [Hk Htok]. split; [done|]. left. f_equal. unfold record_of, without_token. destruct r. cbn in *. by subst.
  - destruct (loadDefaults !! id) as [c|] eqn:Hd; [|done]. split; [by apply loadDefaults_keys|]. by right.
Qed.

(** After an orderly run whose writes are through, a restart has every provider as it was,
    without its SCIM token, and every built-in provider that was deleted. *)
Lemma restart_idps ok ro t l s ok' ro' l' :
  List_ ok ro t = Some l → rtc orderly (mkSystem (boot ok ro t) t []) s → pending s = [] →
  List_ ok' ro' (tbl s) = Some l' →
  idps (boot ok' ro' (tbl s)) = (scrub <$> idps (broker s)) ∪ loadDefaults.
Proof.
  intros Hl Hrun Hpend Hl'.
  assert (Hc : consistent s).
  { assert (Hc0 := consistent_boot ok ro t l Hl). clear Hpend Hl'. remember (mkSystem _ _ _) as s0 eqn:E. clear E.
    induction Hrun; [done|]. eauto using orderly_consistent. }
  destruct Hc as (_ & _ & Hm). rewrite Hpend in Hm. cbn in Hm.
  apply map_eq. intros id. rewrite (boot_idps _ _ _ _ _ Hl'). specialize (Hm id).
  rewrite lookup_union, lookup_fmap. destruct (idps (broker s) !! id) as [c|] eqn:Hi.
  - destruct Hm as [Hid [Hv|[Hv Hd]]]; rewrite Hv.
    + by destruct (loadDefaults !! id).
    + rewrite Hd. destruct (loadDefaults_keys _ _ Hd) as [_ Hs]. cbn. by rewrite Hs.
  - rewrite Hm. by destruct (loadDefaults !! id).
Qed.

End Restart.

(** ** A concrete library, and witnesses *)

(** Tokens are names in a table of headers, keys and claims. *)
Definition toy_fresh (c : claims) (now : Z) : bool :=
  match c !! "exp" with Some (JNumber n d) => (now <? truncate n d * GoTime.GoTime.second)%Z | _ => true end.
Definition toy_oidc (tokens : string → option (string * string * (Z * Z) * claims)) : OidcJwt.
Proof.
  refine {| rsa_parse keyf now s :=
              match tokens s with
              | Some (alg, kid, key, c) =>
                  if bool_decide (alg ∈ rsa_methods) && bool_decide (keyf alg kid = Some key) && toy_fresh c now
                  then Some c else None
              | None => None
              end;
            signed key s alg kid c := tokens s = Some (alg, kid, key, c);
            fresh := toy_fresh |}.
  - intros keyf now s c. destruct (tokens s) as [[[[alg kid] key] c']|] eqn:E; [|done].
    destruct (_ && _) eqn:Hb; [|done]. intros [= <-]. rewrite !andb_true_iff, !bool_decide_eq_true in Hb.
    destruct Hb as [[H1 H2] H3]. by exists alg, kid, key.
  - intros keyf now s alg kid key c -> H1 H2 H3. by rewrite !bool_decide_eq_true_2, H3.
  - unfold toy_fresh. intros c now n d Hf E _. rewrite E in Hf. by apply Z.ltb_lt.
Defined.

Definition demo_key : jwkKey := mkKey "k1" "RSA" "RS256" "sig" "AQAB" "AQAB".
Definition demo_claims : claims :=
  {["iss" := JString "https://id.acme.example"; "aud" := JArray [JString "aegis"]; "exp" := JNumber 100 1;
    "sub" := JString "u1"; "email" := JString "ann@acme.example"; "amr" := JArray [JString "mfa"];
    "groups" := JArray [JString "finance"; JNumber 7 1]]}.
Definition demo_tokens (s : string) : option (string * string * (Z * Z) * claims) :=
  if bool_decide (s = "tok") then Some ("RS256", "k1", (65537, 65537)%Z, demo_claims) else None.
Definition demo_env (t : Z) (f : string → fetched) : env :=
  mkEnv (λ _, t) 0 (repeat x41 16) canonical_order f.
Definition demo_idp (uri : string) : IdPConfig :=
  mkIdP "acme" "acme" "Acme" "okta" true true "aegis" "s3cret" "https://id.acme.example" uri "" ["openid"] "" "" ""
    false "" true "" "" (plain_map [("sub", "user_id"); ("email", "email"); ("groups", "groups")]) ∅.
Definition demo_broker : Broker :=
  mkBroker {["acme" := demo_idp "https://id.acme.example/keys"]} ∅ {["acme" := mkCache [demo_key] 0]} true.
Definition demo_text (n : Z) (_ : positive) : string := itoa n.
Definition demo_exchange : TokenExchangeRequest := mkExchange "" "tok" "" "acme" None.

Lemma demo_accepted uri : @accepted (toy_oidc demo_tokens) (demo_idp uri) [demo_key] 5 "tok" demo_claims.
Proof.
  split; [exists "RS256", "k1", (65537, 65537)%Z; split_and!; [left|vm_compute; reflexivity|reflexivity]|].
  split_and!; [reflexivity|done|intros _; vm_compute; left].
Qed.

Lemma mapping_deterministic_witness :
  let e := demo_env 0 (λ _, FetchErr) in
  mapClaims demo_text (mkEnv (clk e) (zone e) (random e) reverse_order (fetch e)) 3 (demo_idp "") demo_claims
  = mapClaims demo_text e 3 (demo_idp "") demo_claims
  ∧ Groups (Identity (mapClaims demo_text e 3 (demo_idp "") demo_claims)) = ["finance"; "7"].
Proof.
  cbv zeta. split; [|vm_compute; reflexivity].
  apply (mapping_deterministic demo_text (demo_env 0 (λ _, FetchErr)) reverse_order 3 (demo_idp "") demo_claims).
  intros k k' f. cbn [AttributeMap demo_idp plain_map list_to_map foldr fst snd].
  rewrite !lookup_insert_Some, !lookup_empty. naive_solver.
Defined.

(** The provider is deleted and created anew with another key address, which answers with no
    keys. *)
Lemma keys_outlive_provider_witness :
  let e := demo_env 5 (λ _, FetchBody (Some [])) in
  let calls := [(e, CDelete "acme"); (e, CCreate "acme" (Some (demo_idp "https://new.example/keys")))] in
  ∃ b'' resp, @ExchangeToken demo_text (toy_oidc demo_tokens) e
                (@execs demo_text (toy_oidc demo_tokens) demo_broker calls) demo_exchange = (b'', Ok resp).
Proof.
  cbv zeta.
  apply (@keys_outlive_provider demo_text (toy_oidc demo_tokens) demo_broker "acme" (mkCache [demo_key] 0) _ _
           demo_exchange (demo_idp "https://new.example/keys") demo_claims);
    [reflexivity|repeat constructor|vm_compute; reflexivity|reflexivity|reflexivity|done|reflexivity|apply demo_accepted].
Defined.

End Broker.
