(* ===== verification/IdpStore.v ===== *)
(** * Identity providers and their profiles in the database (internal/db/idp_store.go)

    Two tables: the providers, and for every organization the provider to use for each
    purpose.  A profile refers to a provider by a foreign key that a deletion sets to null, and
    the table demands a provider of a profile that does not use the primary one.  The columns
    [created_at] and [updated_at] of a provider, which nothing reads, are left out.

    The store implements the interface [Broker.IdPPersister].  [json_map] is what a JSONB column
    gives back for the JSON text of a map, [None] when it is refused; [time_text] is the text of
    a time. *)

From S2P Require Import Prelude GoStrings GoTime Encoding JsonValue Sql Sha256 Broker.
From Stdlib Require Import Ascii.
#[local] Open Scope string_scope.
#[local] Open Scope nat_scope.
#[local] Open Scope list_scope.

Module IdpStore.
Import GoStrings Sql.
Import Broker.Broker.

(** ** Tables *)

Record idp_row := mkRow {
  i_org : string;
  i_name : string;
  i_type : string;
  i_enabled : bool;
  i_default : bool;
  i_client_id : option string;
  i_client_secret : option string;
  i_issuer : option string;
  i_jwks : option string;
  i_token_endpoint : option string;
  i_scopes : option string;
  i_saml_entity : option string;
  i_saml_sso : option string;
  i_saml_cert : option string;
  i_kerberos : bool;
  i_realm : option string;
  i_scim : bool;
  i_scim_endpoint : option string;
  i_scim_hash : option string;
  i_attributes : option (gmap string string);
  i_groups : option (gmap string string);
}.
Record profile_row := mkProfileRow {
  p_id : string;
  p_display : string;
  p_description : string;
  p_primary : bool;
  p_idp : option string;
  p_enabled : bool;
  p_mfa : bool;
  p_jit : bool;
  p_scim : bool;
  p_contractor : bool;
  p_created : Z;
  p_updated : Z;
}.
(** Profiles by organization and purpose. *)
Record DB := mkDB { providers : gmap string idp_row; profiles : gmap (string * string) profile_row }.
Definition with_providers (db : DB) m := mkDB m (profiles db).
Definition with_profiles (db : DB) m := mkDB (providers db) m.

Record env := mkEnv { now : Z; new_id : nat → string; ok : nat → bool; e_ro : range_order }.

Definition idp_ok (id : string) (r : idp_row) : bool :=
  fits 64 id && fits 64 (i_org r) && fits 128 (i_name r) && fits 30 (i_type r) && fits_opt 255 (i_client_id r)
  && fits_opt 512 (i_client_secret r) && fits_opt 512 (i_issuer r) && fits_opt 512 (i_jwks r)
  && fits_opt 512 (i_token_endpoint r) && fits_opt 512 (i_saml_entity r) && fits_opt 512 (i_saml_sso r)
  && fits_opt 255 (i_realm r) && fits_opt 512 (i_scim_endpoint r) && fits_opt 128 (i_scim_hash r).

Definition purposes : list string :=
  ["admin_console"; "desktop_sso"; "user_portal"; "scim_provisioning"; "access_approval"].
(** The checks of the table, and the foreign key. *)
Definition profile_ok (db : DB) (org purpose : string) (r : profile_row) : bool :=
  fits 64 org && bool_decide (purpose ∈ purposes) && fits 128 (p_display r)
  && (p_primary r || bool_decide (is_Some (p_idp r)))
  && match p_idp r with Some i => bool_decide (is_Some (providers db !! i)) | None => true end.

(** ** Providers *)

Definition hashIdPSCIMToken (token : string) : string := Hex.encode (Sha256.sha256 (of_string token)).

Definition comma : ascii := ",".
Definition scanIdP (id : string) (r : idp_row) : IdPDBRecord :=
  let scopes := default "" (i_scopes r) in
  mkRecord id (i_org r) (i_name r) (i_type r) (i_enabled r) (i_default r) (default "" (i_client_id r))
    (default "" (i_client_secret r)) (default "" (i_issuer r)) (default "" (i_jwks r)) (default "" (i_token_endpoint r))
    (if bool_decide (scopes = "") then [] else Split comma scopes)
    (default "" (i_saml_entity r)) (default "" (i_saml_sso r)) (default "" (i_saml_cert r)) (i_kerberos r)
    (default "" (i_realm r)) (i_scim r) (default "" (i_scim_endpoint r)) ""
    (default ∅ (i_attributes r)) (default ∅ (i_groups r)).

Definition by_name (a b : string * idp_row) : Prop := String.leb (i_name (snd a)) (i_name (snd b)) = true.
#[export] Instance by_name_dec : RelDecision by_name.
Proof. intros a b. unfold by_name. apply _. Defined.

Definition List (ok : bool) (ro : range_order) (db : DB) : option (list IdPDBRecord) :=
  if ok then Some ((λ kv, scanIdP (fst kv) (snd kv)) <$> merge_sort by_name (range ro (providers db))) else None.
Definition Get (ok : bool) (db : DB) (id : string) : option IdPDBRecord :=
  if ok then scanIdP id <$> providers db !! id else None.

Section Store.
Context (json_map : gmap string string → option (gmap string string)).

Definition row_of (r : IdPDBRecord) (attributes groups : gmap string string) : idp_row :=
  let hash := if bool_decide (TrimSpace (r_SCIMToken r) = "") then "" else hashIdPSCIMToken (r_SCIMToken r) in
  mkRow (r_OrgID r) (r_Name r) (r_ProviderType r) (r_Enabled r) (r_IsDefault r) (Some (r_ClientID r))
    (Some (r_ClientSecret r)) (Some (r_IssuerURL r)) (Some (r_JWKSURI r)) (Some (r_TokenEndpoint r))
    (Some (Join (r_Scopes r) ",")) (Some (r_SAMLEntityID r)) (Some (r_SAMLSSOURL r)) (Some (r_SAMLCertificate r))
    (r_KerberosEnabled r) (Some (r_KerberosRealm r)) (r_SCIMEnabled r) (Some (r_SCIMEndpoint r))
    (nilIfEmpty hash) (Some attributes) (Some groups).
(** [COALESCE(EXCLUDED.scim_token_hash, ...)]: an update without a token keeps the one there. *)
Definition keep_hash (old : option idp_row) (r : idp_row) : idp_row :=
  match i_scim_hash r, old with
  | None, Some o =>
      mkRow (i_org r) (i_name r) (i_type r) (i_enabled r) (i_default r) (i_client_id r) (i_client_secret r) (i_issuer r)
        (i_jwks r) (i_token_endpoint r) (i_scopes r) (i_saml_entity r) (i_saml_sso r) (i_saml_cert r) (i_kerberos r)
        (i_realm r) (i_scim r) (i_scim_endpoint r) (i_scim_hash o) (i_attributes r) (i_groups r)
  | _, _ => r
  end.
Definition Upsert (ok : bool) (db : DB) (r : IdPDBRecord) : DB * bool :=
  match json_map (r_AttributeMap r), json_map (r_GroupMap r) with
  | Some a, Some g =>
      let row := row_of r a g in
      if ok && idp_ok (r_ID r) row
      then (with_providers db (<[r_ID r := keep_hash (providers db !! r_ID r) row]> (providers db)), true)
      else (db, false)
  | _, _ => (db, false)
  end.

(** [ON DELETE SET NULL] of the profiles that refer to the provider, which the check of the
    table refuses for a profile that needs one. *)
Definition refers (id : string) (r : profile_row) : bool := bool_decide (p_idp r = Some id).
Definition unset_idp (id : string) (r : profile_row) : profile_row :=
  if refers id r
  then mkProfileRow (p_id r) (p_display r) (p_description r) (p_primary r) None (p_enabled r) (p_mfa r) (p_jit r)
         (p_scim r) (p_contractor r) (p_created r) (p_updated r)
  else r.
Definition pinned (id : string) (db : DB) : bool :=
  existsb (λ kv, refers id (snd kv) && negb (p_primary (snd kv))) (map_to_list (profiles db)).
Definition Delete (ok : bool) (db : DB) (id : string) : DB * bool :=
  if ok && negb (pinned id db)
  then (mkDB (delete id (providers db)) (unset_idp id <$> profiles db), true)
  else (db, false).

End Store.

(** ** Profiles *)

Record IdentityAuthProfile := mkProfile {
  ap_ID : string;
  ap_OrgID : string;
  Purpose : string;
  ap_DisplayName : string;
  Description : string;
  UsePrimaryIdP : bool;
  ap_IdPID : string;
  EffectiveIdPID : string;
  EffectiveIdPName : string;
  ap_Enabled : bool;
  RequireMFA : bool;
  AllowJIT : bool;
  AllowSCIM : bool;
  ContractorAccess : bool;
  ap_CreatedAt : string;
  ap_UpdatedAt : string;
}.
Definition default_profile (purpose display description : string) (mfa jit scim contractor : bool) : IdentityAuthProfile :=
  mkProfile "" "" purpose display description true "" "" "" true mfa jit scim contractor "" "".
Definition defaultIdentityAuthProfiles : list IdentityAuthProfile :=
  [default_profile "admin_console" "Admin console"
     "Administrator authentication for the management Web UI and ABAC-controlled operations." true false false false;
   default_profile "desktop_sso" "Desktop client SSO"
     "User SSO used by desktop, laptop, and mobile clients to pull client and route configuration." true true false false;
   default_profile "user_portal" "User portal"
     "Self-service portal authentication for installers, certificates, instructions, and access requests." true true false true;
   default_profile "scim_provisioning" "SCIM provisioning"
     "User and group provisioning source for employees and contractors." false false true true;
   default_profile "access_approval" "Access approval and ITSM"
     "Identity context for allow/deny approvals, agentic AI workflows, voice approval, and ITSM tickets." true false false true].
Definition defaultAuthProfileForPurpose (purpose : string) : IdentityAuthProfile :=
  default (default_profile purpose purpose "" true false false false)
    (find (λ p, bool_decide (Purpose p = purpose)) defaultIdentityAuthProfiles).

Definition default_org : string := "00000000-0000-0000-0000-000000000001".
Definition org_or_default (org : string) : string := if bool_decide (TrimSpace org = "") then default_org else org.

Inductive store_error := StmtFailed | PurposeRequired | IdPRequired (purpose : string).

Definition profile_row_of (e : env) (i : nat) (p : IdentityAuthProfile) (idp : option string) : profile_row :=
  mkProfileRow (new_id e i) (ap_DisplayName p) (Description p) (UsePrimaryIdP p) idp (ap_Enabled p) (RequireMFA p)
    (AllowJIT p) (AllowSCIM p) (ContractorAccess p) (now e) (now e).
Definition id_free (db : DB) (id : string) : bool :=
  forallb (λ kv, negb (bool_decide (p_id (snd kv) = id))) (map_to_list (profiles db)).

(** [INSERT ... ON CONFLICT (org_id, purpose) DO NOTHING] *)
Definition insert_default (e : env) (i : nat) (db : DB) (org : string) (p : IdentityAuthProfile) : result store_error DB :=
  let row := profile_row_of e i p None in
  if negb (ok e i && profile_ok db org (Purpose p) row) then Err StmtFailed
  else
    match profiles db !! (org, Purpose p) with
    | Some _ => Ok db
    | None => if id_free db (p_id row) then Ok (with_profiles db (<[(org, Purpose p) := row]> (profiles db))) else Err StmtFailed
    end.
Fixpoint insert_defaults (e : env) (i : nat) (db : DB) (org : string) (l : list IdentityAuthProfile)
  : DB * result store_error unit :=
  match l with
  | [] => (db, Ok tt)
  | p :: l =>
      match insert_default e i db org p with
      | Err err => (db, Err err)
      | Ok db => insert_defaults e (S i) db org l
      end
  end.
Definition EnsureDefaultAuthProfiles (e : env) (db : DB) (org : string) : DB * result store_error unit :=
  insert_defaults e 0 db (org_or_default org) defaultIdentityAuthProfiles.

(** [INSERT ... ON CONFLICT (org_id, purpose) DO UPDATE]; a row that is there keeps its id and
    its time of creation. *)
Definition upsert_profile (e : env) (i : nat) (db : DB) (org : string) (p : IdentityAuthProfile) : result store_error DB :=
  let d := defaultAuthProfileForPurpose (Purpose p) in
  let or_else (a b : string) := if bool_decide (a = "") then b else a in
  let idp := nilIfEmpty (TrimSpace (ap_IdPID p)) in
  let p := mkProfile (ap_ID p) (ap_OrgID p) (Purpose p) (or_else (ap_DisplayName p) (ap_DisplayName d))
             (or_else (Description p) (Description d)) (UsePrimaryIdP p) (ap_IdPID p) (EffectiveIdPID p)
             (EffectiveIdPName p) (ap_Enabled p) (RequireMFA p) (AllowJIT p) (AllowSCIM p) (ContractorAccess p)
             (ap_CreatedAt p) (ap_UpdatedAt p) in
  let row := profile_row_of e i p idp in
  if negb (ok e i && profile_ok db org (Purpose p) row) then Err StmtFailed
  else
    match profiles db !! (org, Purpose p) with
    | Some old =>
        Ok (with_profiles db (<[(org, Purpose p) :=
              mkProfileRow (p_id old) (p_display row) (p_description row) (p_primary row) (p_idp row) (p_enabled row)
                (p_mfa row) (p_jit row) (p_scim row) (p_contractor row) (p_created old) (now e)]> (profiles db)))
    | None => if id_free db (p_id row) then Ok (with_profiles db (<[(org, Purpose p) := row]> (profiles db))) else Err StmtFailed
    end.
Fixpoint upsert_profiles (e : env) (i : nat) (db : DB) (org : string) (l : list IdentityAuthProfile)
  : DB * result store_error unit :=
  match l with
  | [] => (db, Ok tt)
  | p :: l =>
      if bool_decide (Purpose p = "") then (db, Err PurposeRequired)
      else if negb (UsePrimaryIdP p) && bool_decide (TrimSpace (ap_IdPID p) = "") then (db, Err (IdPRequired (Purpose p)))
      else
        match upsert_profile e i db org p with
        | Err err => (db, Err err)
        | Ok db => upsert_profiles e (S i) db org l
        end
  end.
Definition UpsertAuthProfiles (e : env) (db : DB) (org : string) (l : list IdentityAuthProfile) : DB * result store_error unit :=
  upsert_profiles e 0 db (org_or_default org) l.

(** [ORDER BY is_default DESC, name ASC] *)
Definition primary_le (a b : string * idp_row) : Prop :=
  (i_default (snd b) = true → i_default (snd a) = true)
  ∧ (i_default (snd a) = i_default (snd b) → String.leb (i_name (snd a)) (i_name (snd b)) = true).
#[export] Instance primary_le_dec : RelDecision primary_le.
Proof. intros a b. unfold primary_le. apply _. Defined.
Definition primaryIdP (ro : range_order) (db : DB) (org : string) : string * string :=
  match head (merge_sort primary_le (select ro (λ _ r, bool_decide (i_org r = org) && i_enabled r) (providers db))) with
  | Some (id, r) => (id, i_name r)
  | None => ("", "")
  end.

Definition purpose_rank (p : string) : nat :=
  match list_find (λ q, q = p) purposes with Some (i, _) => S i | None => 99 end.
Definition by_purpose (a b : (string * string) * profile_row) : Prop :=
  purpose_rank (snd (fst a)) ≤ purpose_rank (snd (fst b)).
#[export] Instance by_purpose_dec : RelDecision by_purpose.
Proof. intros a b. unfold by_purpose. apply _. Defined.

Section Profiles.
Context (time_text : Z → string).

Definition scan_profile (db : DB) (primary : string * string) (kv : (string * string) * profile_row) : IdentityAuthProfile :=
  let r := snd kv in
  let idp := default "" (p_idp r) in
  let name := default "" (p_idp r ≫= λ i, i_name <$> providers db !! i) in
  mkProfile (p_id r) (fst (fst kv)) (snd (fst kv)) (p_display r) (p_description r) (p_primary r) idp
    (if p_primary r then fst primary else idp) (if p_primary r then snd primary else name)
    (p_enabled r) (p_mfa r) (p_jit r) (p_scim r) (p_contractor r) (time_text (p_created r)) (time_text (p_updated r)).
Definition of_org (org : string) (kv : (string * string) * profile_row) : bool := bool_decide (fst (fst kv) = org).

Definition ListAuthProfiles (e : env) (db : DB) (org : string) : DB * result store_error (list IdentityAuthProfile) :=
  match EnsureDefaultAuthProfiles e db org with
  | (db, Err err) => (db, Err err)
  | (db, Ok _) =>
      if negb (ok e 5 && ok e 6) then (db, Err StmtFailed)
      else (db, Ok (scan_profile db (primaryIdP (e_ro e) db org)
                      <$> merge_sort by_purpose (List.filter (of_org org) (map_to_list (profiles db)))))
  end.

(** *** Handlers *)

Inductive profile_reply := PErr (status : Z) | PProfiles (l : list IdentityAuthProfile).
Definition ListAuthProfiles_ (e : env) (db : option DB) (org : string) : option DB * profile_reply :=
  match db with
  | None => (None, PErr 503)
  | Some db =>
      match ListAuthProfiles e db org with
      | (db, Err _) => (Some db, PErr 500)
      | (db, Ok l) => (Some db, PProfiles l)
      end
  end.
(** [e'] is the environment of the listing. *)
Definition UpdateAuthProfiles (e e' : env) (db : option DB) (org : string) (body : option (list IdentityAuthProfile))
  : option DB * profile_reply :=
  match db, body with
  | None, _ => (None, PErr 503)
  | Some db, None => (Some db, PErr 400)
  | Some db, Some l =>
      match UpsertAuthProfiles e db org l with
      | (db, Err _) => (Some db, PErr 400)
      | (db, Ok _) => ListAuthProfiles_ e' (Some db) org
      end
  end.

End Profiles.
(** ** The store is what the broker relies on *)

(** A scope that a comma-separated column gives back. *)
Definition plain_scope (s : string) : Prop := s ≠ "" ∧ comma ∉ String.list_ascii_of_string s.
Lemma scopes_roundtrip ws : Forall plain_scope ws →
  (if bool_decide (Join ws "," = "") then [] else Split comma (Join ws ",")) = ws.
Proof.
  intros Hf. destruct ws as [|w ws]; [done|]. rewrite bool_decide_eq_false_2.
  - apply Split_Join; [done|]. eapply Forall_impl; [exact Hf|]. by intros x [_ ?].
  - apply Forall_cons in Hf as [[Hw _] _]. destruct ws; [done|]. rewrite Join_cons by done. by destruct w.
Qed.

Section Persister.
Context (json_map : gmap string string → option (gmap string string)).

#[global] Instance idp_persister : IdPPersister DB :=
  {| List_ := List; Broker.Upsert := Upsert json_map; Broker.Delete := Delete |}.

Definition record_view (db : DB) : gmap string IdPDBRecord := map_imap (λ k r, Some (scanIdP k r)) (providers db).
(** Maps the database takes as they are, and scopes without commas. *)
Definition record_storable (r : IdPDBRecord) : Prop :=
  json_map (r_AttributeMap r) = Some (r_AttributeMap r) ∧ json_map (r_GroupMap r) = Some (r_GroupMap r)
  ∧ Forall plain_scope (r_Scopes r).

Lemma record_view_lookup db k : record_view db !! k = scanIdP k <$> providers db !! k.
Proof. unfold record_view. rewrite map_lookup_imap. by destruct (providers db !! k). Qed.
Lemma scanIdP_id k r : r_ID (scanIdP k r) = k.
Proof. done. Qed.
Lemma scan_row_of r old : Forall plain_scope (r_Scopes r) →
  scanIdP (r_ID r) (keep_hash old (row_of r (r_AttributeMap r) (r_GroupMap r))) = without_token r.
Proof.
  intros Hf. unfold keep_hash, without_token.
  destruct (i_scim_hash _), old; unfold scanIdP, row_of; cbn -[Join Split]; by rewrite scopes_roundtrip.
Qed.

Lemma list_records ok ro db l : List ok ro db = Some l → ∀ r, r ∈ l ↔ record_view db !! r_ID r = Some r.
Proof.
  unfold List. destruct ok; [|done]. intros [= <-] r. rewrite list_elem_of_fmap, record_view_lookup, fmap_Some. split.
  - intros ([k x] & -> & Hin). rewrite merge_sort_Permutation, elem_of_range in Hin. by exists x.
  - intros (x & Hx & Hr). exists (r_ID r, x). split; [done|]. by rewrite merge_sort_Permutation, elem_of_range.
Qed.

#[global] Instance idp_persister_lawful : LawfulPersister DB.
Proof.
  refine {| view := record_view; storable := record_storable |}.
  - exact list_records.
  - intros db k r. rewrite record_view_lookup, fmap_Some. by intros (x & _ & ->).
  - intros ok db r db' (Ha & Hg & Hs). cbn. unfold Upsert. rewrite Ha, Hg. destruct (_ && _); [|done].
    intros [= <-]. apply map_eq. intros k. rewrite record_view_lookup. cbn. insert_cases k (r_ID r).
    + rewrite lookup_insert_eq. cbn. by rewrite scan_row_of.
    + rewrite lookup_insert_ne by done. by rewrite record_view_lookup.
  - intros ok db k db'. cbn. unfold Delete. destruct (_ && _); [|done]. intros [= <-]. apply map_eq. intros k'.
    rewrite record_view_lookup. cbn. destruct (decide (k = k')) as [<-|]; [by rewrite !lookup_delete_eq|].
    rewrite !lookup_delete_ne by done. by rewrite record_view_lookup.
Defined.

(** A restart of the broker.  When the writes of the calls were of storable records, ran in
    their order and succeeded, the providers after a restart are those before it, with their
    client secrets and without their SCIM tokens, and in addition the built-in ones that had
    been deleted: deleting a built-in provider does not last. *)
Theorem restart_restores (number_text : Z → positive → string) `{OidcJwt} ok ro db l s ok' ro' :
  List ok ro db = Some l → rtc (orderly number_text) (mkSystem (boot ok ro db) db []) s → pending s = [] → ok' = true →
  idps (boot ok' ro' (tbl s)) = (scrub <$> idps (broker s)) ∪ loadDefaults ∧
  (∀ id, idps (broker s) !! id = None → idps (boot ok' ro' (tbl s)) !! id = loadDefaults !! id).
Proof.
  intros Hl Hrun Hp ->.
  assert (E : idps (boot true ro' (tbl s)) = (scrub <$> idps (broker s)) ∪ loadDefaults)
    by (by eapply (restart_idps number_text ok ro db l s true ro')).
  split; [done|]. intros id Hid. rewrite E, lookup_union, lookup_fmap, Hid. by destruct (loadDefaults !! id).
Qed.

End Persister.

(** ** Writes out of order *)

Section Unordered.
Context (json_map : gmap string string → option (gmap string string)) (number_text : Z → positive → string) `{OidcJwt}.
#[local] Instance the_store : IdPPersister DB := idp_persister json_map.
#[local] Instance the_store_lawful : LawfulPersister DB := idp_persister_lawful json_map.

Definition column_ok (c : IdPConfig) : Prop :=
  record_storable json_map (idpConfigToDBRecord c) ∧
  idp_ok (ID c) (row_of (idpConfigToDBRecord c) (AttributeMap c) (GroupMap c)) = true.

Lemma upsert_stored db c : column_ok c → ∃ row,
  Upsert json_map true db (idpConfigToDBRecord c) = (with_providers db (<[ID c := row]> (providers db)), true)
  ∧ scanIdP (ID c) row = record_of c.
Proof.
  intros [(Ha & Hg & Hs) Hok]. unfold Upsert. cbn in Ha, Hg. cbn [r_AttributeMap r_GroupMap r_ID idpConfigToDBRecord].
  rewrite Ha, Hg, Hok. cbn [andb]. eexists. split; [reflexivity|].
  apply (scan_row_of (idpConfigToDBRecord c)), Hs.
Qed.

Lemma update_storing b c : persistent b = true → is_Some (idps b !! ID c) → ClientSecret c ≠ "" →
  exec number_text (Broker.mkEnv (λ _, 0%Z) 0 [] canonical_order (λ _, FetchErr)) b (CUpdate (ID c) (Some c))
  = (with_idps b (add_idp (idps b) c), [WUpsert (idpConfigToDBRecord c)], RDone "updated").
Proof.
  intros Hp [x Hx] Hs. cbn. unfold UpdateIdP_, UpdateIdP. assert (E : with_id c (ID c) = c) by by destruct c.
  rewrite E, Hx, (bool_decide_eq_false_2 (ClientSecret c = "")) by done. cbn [andb]. unfold started. by rewrite Hp.
Qed.

Lemma boot_provider ro db id row : providers db !! id = Some row →
  idps (boot true ro db) !! id = Some (dbRecordToIdPConfig (scanIdP id row)).
Proof.
  intros Hr. assert (Hl : ∃ l, List_ true ro db = Some l) by by eexists.
  destruct Hl as [l Hl]. rewrite (boot_idps true ro db l id Hl). cbn [view the_store_lawful idp_persister_lawful].
  by rewrite record_view_lookup, Hr.
Qed.

(** The goroutines that write to the database are not ordered: of two updates of one
    provider, the first may be written last, and then a restart runs with the older
    configuration, whatever the two are. *)
Theorem unordered_writes ro b db c1 c2 :
  persistent b = true → is_Some (idps b !! ID c1) → ID c2 = ID c1 → ClientSecret c1 ≠ "" → ClientSecret c2 ≠ "" →
  column_ok c1 → column_ok c2 →
  ∃ s, rtc (step number_text) (mkSystem b db []) s ∧ pending s = [] ∧
    idps (broker s) !! ID c1 = Some c2 ∧ idps (boot true ro (tbl s)) !! ID c1 = Some (scrub c1).
Proof.
  intros Hp Hx Hid Hs1 Hs2 Hc1 Hc2. set (b1 := with_idps b (add_idp (idps b) c1)).
  set (b2 := with_idps b1 (add_idp (idps b1) c2)).
  destruct (upsert_stored db c2 Hc2) as (row2 & Hu2 & _).
  set (db2 := with_providers db (<[ID c2 := row2]> (providers db))).
  destruct (upsert_stored db2 c1 Hc1) as (row1 & Hu1 & Hr1).
  set (w1 := WUpsert (idpConfigToDBRecord c1)). set (w2 := WUpsert (idpConfigToDBRecord c2)).
  exists (mkSystem b2 (with_providers db2 (<[ID c1 := row1]> (providers db2))) []).
  split_and!; [|done|..].
  - eapply rtc_l; [apply (step_call _ _ _ (mkSystem b db []) _ _ _ (update_storing b c1 Hp Hx Hs1))|]. cbn [pending tbl app].
    eapply rtc_l; [eapply (step_call _ _ _ (mkSystem b1 db [w1]) b2); apply update_storing; [done| |done]|].
    { rewrite Hid. subst b1. cbn. unfold add_idp. by rewrite lookup_insert_eq. }
    cbn [pending tbl app].
    eapply rtc_l; [eapply (step_write _ true [w1] w2 [] (mkSystem b2 db [w1; w2]) _ true); [reflexivity|exact Hu2]|]. cbn [app].
    eapply rtc_l; [eapply (step_write _ true [] w1 [] (mkSystem b2 db2 [w1]) _ true); [reflexivity|exact Hu1]|]. apply rtc_refl.
  - subst b2. cbn. unfold add_idp. by rewrite Hid, lookup_insert_eq.
  - rewrite (boot_provider ro _ _ row1) by (cbn; by rewrite lookup_insert_eq). by rewrite Hr1.
Qed.

(** A provider that a profile is pinned to cannot be deleted from the database: the foreign
    key sets the reference to null and the check of the profiles refuses that.  The broker
    answers that the provider is deleted, and after a restart it is there. *)
Theorem pinned_provider_returns e b db ro id k r row :
  persistent b = true → is_Some (idps b !! id) →
  profiles db !! k = Some r → p_idp r = Some id → p_primary r = false → providers db !! id = Some row →
  ∃ b', exec number_text e b (CDelete id) = (b', [WDelete id], RDone "deleted") ∧ idps b' !! id = None ∧
    (∀ ok, run_write ok db (WDelete id) = (db, false)) ∧
    idps (boot true ro db) !! id = Some (dbRecordToIdPConfig (scanIdP id row)).
Proof.
  intros Hp [c Hc] Hr Hi Hprim Hrow. eexists. split_and!.
  - cbn. unfold DeleteIdP_, DeleteIdP. rewrite Hc. unfold started. rewrite Hp. reflexivity.
  - apply lookup_delete_eq.
  - intros ok. cbn. unfold Delete. replace (pinned id db) with true; [by rewrite andb_false_r|].
    symmetry. apply existsb_exists. exists (k, r). split; [by apply list_elem_of_In, elem_of_map_to_list|].
    cbn. unfold refers. by rewrite Hi, bool_decide_eq_true_2, Hprim.
  - by apply boot_provider.
Qed.

End Unordered.

(** ** Profiles *)

Definition store_ok (db : DB) : Prop :=
  map_Forall (λ k r, profile_ok db (fst k) (snd k) r = true) (profiles db).

Lemma profile_ok_providers db db' org purpose r :
  (∀ i, p_idp r = Some i → is_Some (providers db !! i) → is_Some (providers db' !! i)) →
  profile_ok db org purpose r = true → profile_ok db' org purpose r = true.
Proof.
  intros Hm. unfold profile_ok. rewrite !andb_true_iff. intros [Ha Hi]. split; [done|].
  destruct (p_idp r) as [i|]; [|done]. cbn. apply bool_decide_eq_true in Hi. by apply bool_decide_eq_true, Hm.
Qed.

Lemma store_ok_insert db org purpose r : store_ok db → profile_ok db org purpose r = true →
  store_ok (with_profiles db (<[(org, purpose) := r]> (profiles db))).
Proof. intros Hs Hr. apply map_Forall_insert_2; [done|exact Hs]. Qed.

Lemma upsert_store_ok json_map ok db r : store_ok db → store_ok (fst (Upsert json_map ok db r)).
Proof.
  intros Hs. unfold Upsert. destruct (json_map (r_AttributeMap r)), (json_map (r_GroupMap r)); try done.
  destruct (ok && _); [|done]. cbn.
  intros k x Hx. apply (profile_ok_providers db); [|by apply Hs]. intros i _ Hi. cbn. insert_cases i (r_ID r); by eauto.
Qed.
Lemma delete_store_ok ok db id : store_ok db → store_ok (fst (Delete ok db id)).
Proof.
  intros Hs. unfold Delete. destruct (_ && _) eqn:Hb; [|done]. apply andb_true_iff in Hb as [_ Hpin%negb_true_iff]. cbn.
  intros k x (r & <- & Hr)%lookup_fmap_Some. pose proof (Hs k r Hr) as Hok. unfold unset_idp.
  destruct (refers id r) eqn:Href; unfold refers in Href.
  - assert (Hprim : p_primary r = true).
    { destruct (p_primary r) eqn:Hp; [done|]. rewrite <- Hpin. unfold pinned. apply existsb_exists. exists (k, r).
      split; [by apply list_elem_of_In, elem_of_map_to_list|]. cbn. unfold refers. by rewrite Href, Hp. }
    unfold profile_ok in *. cbn [p_display p_primary p_idp]. rewrite !andb_true_iff in Hok. rewrite Hprim.
    destruct Hok as [[[[-> ->] ->] _] _]. done.
  - apply bool_decide_eq_false in Href. apply (profile_ok_providers db); [|done].
    intros i Hi Hx. cbn. rewrite lookup_delete_ne; [done|]. intros ->. done.
Qed.

Lemma insert_default_inv e i db org p db' :
  insert_default e i db org p = Ok db' →
  (store_ok db → store_ok db') ∧ providers db' = providers db ∧ profiles db ⊆ profiles db' ∧
  is_Some (profiles db' !! (org, Purpose p)) ∧ ∀ k, fst k ≠ org → profiles db' !! k = profiles db !! k.
Proof.
  unfold insert_default. destruct (_ && _) eqn:Hb; [|done]. apply andb_true_iff in Hb as [_ Hok]. cbn [negb].
  destruct (profiles db !! _) as [old|] eqn:Ho; [intros [= <-]; by split_and!|].
  destruct (id_free _ _); [|done]. intros [= <-]. cbn. split_and!; [|done|by apply insert_subseteq| |].
  - intros Hs. by apply store_ok_insert.
  - by rewrite lookup_insert_eq.
  - intros k Hk. apply lookup_insert_ne. intros <-. done.
Qed.
Lemma insert_defaults_inv e i db org l :
  match insert_defaults e i db org l with
  | (db', r) =>
      (store_ok db → store_ok db') ∧ providers db' = providers db ∧ profiles db ⊆ profiles db' ∧
      (∀ k, fst k ≠ org → profiles db' !! k = profiles db !! k) ∧
      (r = Ok tt → ∀ p, p ∈ l → is_Some (profiles db' !! (org, Purpose p)))
  end.
Proof.
  revert i db. induction l as [|p l IH]; intros i db; cbn.
  - split_and!; try done. intros _ p Hp. by apply elem_of_nil in Hp.
  - destruct (insert_default e i db org p) as [db1|err] eqn:H1; [|by split_and!].
    apply insert_default_inv in H1 as (Hs1 & Hp1 & Hi1 & Hk1 & Ho1). specialize (IH (S i) db1).
    destruct (insert_defaults e (S i) db1 org l) as [db' r]. destruct IH as (Hs & Hp & Hi & Ho & Hk).
    split_and!; [by auto|congruence|by etrans|intros k ?; by rewrite Ho, Ho1|].
    intros Hr q [->|Hq]%elem_of_cons; [|by apply Hk]. destruct Hk1 as [x Hx]. exists x. by eapply lookup_weaken.
Qed.

Lemma upsert_profiles_ok e i db org l : store_ok db → store_ok (fst (upsert_profiles e i db org l)).
Proof.
  revert i db. induction l as [|p l IH]; intros i db Hs; [done|]. cbn.
  case_bool_decide; [done|]. destruct (_ && _); [done|].
  destruct (upsert_profile e i db org p) as [db1|err] eqn:H1; [|done]. apply IH. revert H1. unfold upsert_profile. cbn zeta.
  destruct (ok e i && _) eqn:Hb; [|done]. apply andb_true_iff in Hb as [_ Hok]. cbn [negb Purpose].
  destruct (profiles db !! _) as [old|]; [intros [= <-]; by apply store_ok_insert|].
  destruct (id_free _ _); [|done]. intros [= <-]. by apply store_ok_insert.
Qed.

(** The operations of the store. *)
Inductive op :=
| OUpsert (ok : bool) (r : IdPDBRecord)
| ODelete (ok : bool) (id : string)
| OList (e : env) (org : string)
| OProfiles (e : env) (org : string) (l : list IdentityAuthProfile).
Definition run (json_map : gmap string string → option (gmap string string)) (time_text : Z → string) (db : DB) (o : op) : DB :=
  match o with
  | OUpsert ok r => fst (Upsert json_map ok db r)
  | ODelete ok id => fst (Delete ok db id)
  | OList e org => fst (ListAuthProfiles time_text e db org)
  | OProfiles e org l => fst (UpsertAuthProfiles e db org l)
  end.
Lemma run_store_ok json_map time_text db o : store_ok db → store_ok (run json_map time_text db o).
Proof.
  intros Hs. destruct o as [ok r|ok id|e org|e org l]; cbn.
  - by apply upsert_store_ok.
  - by apply delete_store_ok.
  - unfold ListAuthProfiles, EnsureDefaultAuthProfiles.
    pose proof (insert_defaults_inv e 0 db (org_or_default org) defaultIdentityAuthProfiles) as Hi.
    destruct (insert_defaults _ _ _ _ _) as [db' [[]|err]]; [|by apply Hi].
    destruct (negb _); by apply Hi.
  - by apply upsert_profiles_ok.
Qed.

(** ** The five purposes *)

Lemma by_purpose_total : Total by_purpose.
Proof. intros a b. unfold by_purpose. lia. Qed.
Lemma by_purpose_trans : Transitive by_purpose.
Proof. intros a b c. unfold by_purpose. lia. Qed.

Definition rank_le (p q : string) : Prop := purpose_rank p ≤ purpose_rank q.
Lemma purposes_sorted : StronglySorted rank_le purposes.
Proof. repeat constructor; by_evaluation. Qed.
Lemma rank_inj p q : p ∈ purposes → q ∈ purposes → rank_le p q → rank_le q p → p = q.
Proof.
  intros Hp Hq H1 H2. assert (E : purpose_rank p = purpose_rank q) by (unfold rank_le in *; lia). clear H1 H2. revert E.
  assert (Hall : Forall (λ p, Forall (λ q, purpose_rank p = purpose_rank q → p = q) purposes) purposes) by by_evaluation.
  rewrite Forall_forall in Hall. specialize (Hall p Hp). rewrite Forall_forall in Hall. by apply Hall.
Qed.

Lemma sorted_purposes (l : list ((string * string) * profile_row)) :
  NoDup (snd ∘ fst <$> l) → (∀ p, p ∈ snd ∘ fst <$> l ↔ p ∈ purposes) →
  snd ∘ fst <$> merge_sort by_purpose l = purposes.
Proof.
  intros Hnd Hin. pose proof by_purpose_total. pose proof by_purpose_trans.
  pose proof (StronglySorted_merge_sort by_purpose l) as Hs. pose proof (merge_sort_Permutation by_purpose l) as Hperm.
  assert (Hp : snd ∘ fst <$> merge_sort by_purpose l ≡ₚ purposes).
  { rewrite Hperm. apply NoDup_Permutation; [done|by_evaluation|done]. }
  apply (StronglySorted_unique_strong rank_le); [|..|apply purposes_sorted|done].
  - intros p q Hp1 Hq. rewrite Hp in Hp1. by apply rank_inj.
  - clear -Hs. induction Hs as [|x k Hs IH Hf]; cbn; constructor; [done|].
    apply Forall_fmap. eapply Forall_impl; [exact Hf|]. done.
Qed.

(** The profiles of a tenant are complete.  From a consistent store, listing them, when it
    succeeds, gives exactly the five purposes in their order; profiles that were there stay as
    they were, those of other tenants too; and every profile uses the primary provider or names
    one that exists. *)
Theorem profiles_complete time_text e db org db' l :
  store_ok db → TrimSpace org ≠ "" → ListAuthProfiles time_text e db org = (db', Ok l) →
  Purpose <$> l = purposes ∧ Forall (λ p, ap_OrgID p = org) l ∧
  profiles db ⊆ profiles db' ∧ (∀ k, fst k ≠ org → profiles db' !! k = profiles db !! k) ∧ store_ok db' ∧
  Forall (λ p, UsePrimaryIdP p = true ∨ is_Some (providers db' !! EffectiveIdPID p)) l.
Proof.
  intros Hs Horg. unfold ListAuthProfiles, EnsureDefaultAuthProfiles, org_or_default.
  rewrite bool_decide_eq_false_2 by done.
  pose proof (insert_defaults_inv e 0 db org defaultIdentityAuthProfiles) as Hi.
  destruct (insert_defaults _ _ _ _ _) as [db1 [[]|err]]; [|done]. destruct (negb _); [done|]. intros [= <- <-].
  destruct Hi as (Hs1 & _ & Hsub & Ho & Hk). specialize (Hs1 Hs). specialize (Hk eq_refl).
  set (rows := List.filter (of_org org) (map_to_list (profiles db1))).
  assert (Hrows : ∀ o p r, ((o, p), r) ∈ rows ↔ o = org ∧ profiles db1 !! (o, p) = Some r).
  { intros o p r. subst rows. rewrite list_elem_of_In, filter_In, <- list_elem_of_In, elem_of_map_to_list.
    unfold of_org. cbn. rewrite bool_decide_eq_true. naive_solver. }
  assert (Hsorted : ∀ x, x ∈ merge_sort by_purpose rows ↔ x ∈ rows) by (intros x; by rewrite merge_sort_Permutation).
  split_and!; try done.
  - rewrite <- list_fmap_compose. transitivity (snd ∘ fst <$> merge_sort by_purpose rows); [done|]. apply sorted_purposes.
    + assert (Hnd : NoDup (fst <$> rows)).
      { subst rows. pose proof (NoDup_fst_map_to_list (profiles db1)) as Hm. revert Hm. generalize (map_to_list (profiles db1)).
        intros m. induction m as [|x m IH]; [done|]. cbn. intros [Hn Hm]%NoDup_cons. destruct (of_org org x); [|by apply IH]. cbn.
        apply NoDup_cons. split; [|by apply IH]. intros (y & Hy & Hin)%list_elem_of_fmap. apply Hn, list_elem_of_fmap.
        exists y. split; [done|]. by apply list_elem_of_In, filter_In in Hin as [?%list_elem_of_In _]. }
      rewrite list_fmap_compose. apply NoDup_fmap_2_strong; [|done].
      intros [o1 p1] [o2 p2] ([[o3 p3] r3] & [= -> ->] & [-> _]%Hrows)%list_elem_of_fmap
        ([[o4 p4] r4] & [= -> ->] & [-> _]%Hrows)%list_elem_of_fmap. cbn. congruence.
    + intros p. rewrite list_elem_of_fmap. split.
      * intros ([[o q] r] & -> & [-> Hr]%Hrows). pose proof (Hs1 _ _ Hr) as Hok. unfold profile_ok in Hok.
        rewrite !andb_true_iff in Hok. destruct Hok as [[[[_ Hq] _] _] _]. by apply bool_decide_eq_true in Hq.
      * intros Hp. assert (Hd : ∃ d, d ∈ defaultIdentityAuthProfiles ∧ Purpose d = p).
        { assert (Hq : p ∈ Purpose <$> defaultIdentityAuthProfiles) by exact Hp.
          apply list_elem_of_fmap in Hq as (d & -> & Hd). by exists d. }
        destruct Hd as (d & Hd & <-). destruct (Hk d Hd) as [r Hr]. exists ((org, Purpose d), r). split; [done|]. by apply Hrows.
  - apply Forall_fmap, Forall_forall. intros [[o p] r] [-> _]%Hsorted%Hrows. done.
  - apply Forall_fmap, Forall_forall. intros [[o p] r] [-> Hr]%Hsorted%Hrows. pose proof (Hs1 _ _ Hr) as Hok.
    unfold profile_ok in Hok. rewrite !andb_true_iff in Hok. destruct Hok as [[[[_ _] _] Hprim] Hidp]. cbn in Hprim, Hidp |- *.
    destruct (p_primary r); [by left|right]. destruct (p_idp r) as [i|]; [|done]. cbn. by apply bool_decide_eq_true in Hidp.
Qed.

(** ** Witnesses *)

Definition demo_map (m : gmap string string) : option (gmap string string) := Some m.
Definition empty_db : DB := mkDB ∅ ∅.
Definition demo_boot (db : DB) : Broker :=
  @boot DB (idp_persister demo_map) true canonical_order db.
Definition demo_calls : Broker.env := Broker.demo_env 0 (λ _, FetchErr).

(** A built-in provider is deleted, and is there after the restart. *)
Lemma restart_restores_witness :
  let b := with_idps (demo_boot empty_db) (delete "okta-default" (idps (demo_boot empty_db))) in
  idps b !! "okta-default" = None ∧
  idps (demo_boot empty_db) !! "okta-default" = loadDefaults !! "okta-default".
Proof.
  cbv zeta. set (b := with_idps _ _). split; [apply lookup_delete_eq|].
  refine (proj2 (@restart_restores demo_map demo_text (toy_oidc demo_tokens) true canonical_order empty_db []
                   (mkSystem b empty_db []) true canonical_order _ _ _ _) "okta-default" _);
    [reflexivity| |reflexivity|reflexivity|apply lookup_delete_eq].
  eapply rtc_l.
  - eapply (@orderly_call demo_text (toy_oidc demo_tokens) DB _ _ demo_calls (CDelete "okta-default")
              (mkSystem (demo_boot empty_db) empty_db []) b [WDelete "okta-default"]); [vm_compute; reflexivity|].
    by repeat constructor.
  - eapply rtc_l; [|apply rtc_refl].
    eapply (@orderly_write demo_text (toy_oidc demo_tokens) DB _ _ true (WDelete "okta-default") []
              (mkSystem b empty_db [WDelete "okta-default"]) empty_db); reflexivity.
Defined.

Lemma unordered_writes_witness :
  let c1 := demo_idp "https://old.example/keys" in
  let c2 := demo_idp "https://new.example/keys" in
  ∃ s, rtc (@step demo_text (toy_oidc demo_tokens) DB (idp_persister demo_map)) (mkSystem demo_broker empty_db []) s ∧
    pending s = [] ∧ idps (broker s) !! "acme" = Some c2 ∧ idps (demo_boot (tbl s)) !! "acme" = Some (scrub c1).
Proof.
  assert (Hok : ∀ u, idp_ok "acme" (row_of (idpConfigToDBRecord (demo_idp u)) (AttributeMap (demo_idp u)) ∅) = true →
    column_ok demo_map (demo_idp u)).
  { intros u Hu. split; [|exact Hu]. split_and!; [done|done|]. repeat constructor; [done|by_evaluation]. }
  apply (@unordered_writes demo_map demo_text (toy_oidc demo_tokens) canonical_order demo_broker empty_db
           (demo_idp "https://old.example/keys") (demo_idp "https://new.example/keys"));
    [reflexivity|by eexists|reflexivity|done|done|apply Hok; vm_compute; reflexivity..].
Defined.

Definition demo_profile (idp : string) : IdentityAuthProfile :=
  mkProfile "" "" "admin_console" "" "" false idp "" "" true true false false false "" "".
Definition demo_store_env : env := mkEnv 7 (λ i, "p" +:+ itoa (Z.of_nat i)) (λ _, true) canonical_order.
Definition demo_providers : DB :=
  fst (Upsert demo_map true empty_db (idpConfigToDBRecord (demo_idp "https://id.acme.example/keys"))).
Definition demo_store : DB := fst (UpsertAuthProfiles demo_store_env demo_providers "acme" [demo_profile " acme "]).
Lemma demo_store_consistent : store_ok demo_store.
Proof.
  unfold demo_store, UpsertAuthProfiles. apply upsert_profiles_ok. unfold demo_providers. apply upsert_store_ok.
  unfold store_ok, empty_db. cbn [profiles]. apply map_Forall_empty.
Qed.

Lemma pinned_provider_returns_witness :
  ∃ b' row, exec (H := toy_oidc demo_tokens) demo_text demo_calls demo_broker (CDelete "acme") = (b', [WDelete "acme"], RDone "deleted") ∧
    idps b' !! "acme" = None ∧ idps (demo_boot demo_store) !! "acme" = Some (dbRecordToIdPConfig (scanIdP "acme" row)).
Proof.
  edestruct (@pinned_provider_returns demo_map demo_text (toy_oidc demo_tokens) demo_calls demo_broker demo_store canonical_order
               "acme" ("acme", "admin_console")) as (b' & H1 & H2 & _ & H4);
    [reflexivity|by eexists|vm_compute; reflexivity|reflexivity|reflexivity|vm_compute; reflexivity|].
  eexists b', _. split; [exact H1|]. split; [exact H2|exact H4].
Defined.

Definition demo_listing : DB * result store_error (list IdentityAuthProfile) :=
  ListAuthProfiles itoa (mkEnv 8 (λ i, "q" +:+ itoa (Z.of_nat i)) (λ _, true) canonical_order) demo_store "acme".
Definition demo_names : list string := match snd demo_listing with Ok l => EffectiveIdPName <$> l | Err _ => [] end.
Lemma profiles_complete_witness :
  ∃ db' l, demo_listing = (db', Ok l) ∧ Purpose <$> l = purposes ∧ demo_names = ["Acme"; "Acme"; "Acme"; "Acme"; "Acme"].
Proof.
  assert (Hn : demo_names = ["Acme"; "Acme"; "Acme"; "Acme"; "Acme"]) by (vm_compute; reflexivity).
  destruct demo_listing as [db' [l|err]] eqn:E.
  - exists db', l. split; [reflexivity|]. split; [|exact Hn].
    refine (proj1 (profiles_complete itoa _ demo_store "acme" db' l demo_store_consistent _ E)). vm_compute. discriminate.
  - exfalso. unfold demo_names in Hn. rewrite E in Hn. cbn [snd] in Hn. clear E. discriminate Hn.
Defined.

End IdpStore.
