(* ===== verification/Sso.v ===== *)
(** * Browser single sign-on (api/handlers/sso_handler.go)

    The authorization code flow with an external provider: a random state is remembered, the
    browser is sent to the provider, comes back with a code, and the code is exchanged for an
    identity token that the broker validates.  A portal or desktop login then goes to a
    provisioned client user of [ScimStore], any other to an administrator of [AuthStore].

    A call has the environments of the services it calls, the clock, the random bytes of a
    state ([None]: the source fails), and what a POST to the token endpoint answers.  A URL
    with a query is the pair of the URL and the parameters set in it; [url_ok] tells whether
    [url.Parse] takes a redirect target.  [getenv] is the process environment. *)

From S2P Require Import Prelude GoStrings GoTime Encoding JsonValue Sql Jwt AuthStore ScimStore Broker.
From Stdlib Require Import Ascii.
#[local] Open Scope string_scope.
#[local] Open Scope nat_scope.
#[local] Open Scope list_scope.

Module Sso.
Import GoStrings JsonValue.
Import Broker.Broker.
Import (notations) AuthStore.AuthStore.

Record pendingAuth := mkPending {
  pa_IdPID : string;
  RedirectURI : string;
  CallbackURI : string;
  Audience : string;
  pa_CreatedAt : Z;
}.

(** The parts of a request the handlers read; an absent query value or header is empty. *)
Record request := mkRequest {
  q_audience : string;
  q_origin : string;
  h_origin : string;
  h_forwarded_host : string;
  h_forwarded_proto : string;
  host : string;
  is_tls : bool;
  client_ip : string;
  user_agent : string;
}.

(** The answer of a token endpoint: none, a status other than 200, or the [id_token] of the
    body, [None] when it does not decode. *)
Inductive posted := PostErr | PostStatus (code : Z) | PostBody (id_token : option string).
Record senv := mkSEnv {
  s_clk : nat → Z;
  s_random : option bytes;
  s_post : string → list (string * string) → option (string * string) → posted;
  s_broker : env;
  s_auth : AuthStore.AuthStore.env;
  s_scim : ScimStore.ScimStore.env;
}.

(** The handler's states and the services behind it. *)
Record world := mkWorld {
  pending_ : gmap string pendingAuth;
  w_broker : Broker;
  w_auth : AuthStore.AuthStore.DB;
  w_scim : option (ScimStore.ScimStore.DB);
}.
Definition with_pending (w : world) m := mkWorld m (w_broker w) (w_auth w) (w_scim w).
Definition with_broker (w : world) b := mkWorld (pending_ w) b (w_auth w) (w_scim w).
Definition with_auth (w : world) db := mkWorld (pending_ w) (w_broker w) db (w_scim w).
Definition with_scim (w : world) db := mkWorld (pending_ w) (w_broker w) (w_auth w) (Some db).

Inductive sso_reply :=
| SErr (status : Z) (msg : string)
| SAuthErr (err : AuthStore.AuthStore.auth_error)      (** 403 with the text of the error *)
| SSuspended (source reason : string)                   (** 403 with the status of the account *)
| SAuthorize (endpoint : string) (params : list (string * string)) (state : string)
| SRedirect (uri code state : string)
| SPortal (token : string) (expires : Z) (user : ScimStore.ScimStore.SCIMUser)
| STokens (r : AuthStore.AuthStore.LoginResult)
| SProviders (l : list (string * string * string)).

(** ** URLs *)

(** [strings.Replace(s, old, new, 1)] for a nonempty [old]. *)
Fixpoint replace_first (s old new : string) : string :=
  if HasPrefix s old then new +:+ TrimPrefix s old
  else match s with EmptyString => EmptyString | String c s => String c (replace_first s old new) end.

Definition resolveAuthzEndpoint (idp : IdPConfig) : string :=
  if bool_decide (TokenEndpoint idp = "") then IssuerURL idp +:+ "/v1/authorize"
  else replace_first (TokenEndpoint idp) "/token" "/authorize".
Definition resolveTokenEndpoint (idp : IdPConfig) : string :=
  if bool_decide (TokenEndpoint idp = "") then IssuerURL idp +:+ "/v1/token" else TokenEndpoint idp.

Definition scheme (r : request) : string :=
  if bool_decide (h_forwarded_proto r = "") then (if is_tls r then "https" else "http") else h_forwarded_proto r.
Definition or_else (a b : string) : string := if bool_decide (a = "") then b else a.

Section Handler.
Context (getenv : string → string) (url_ok : string → bool).
Context (number_text : Z → positive → string) `{OidcJwt} `{Jwt.JwtLib} (jwtSecret : bytes).

Definition portalLoginURL : string := or_else (TrimSpace (getenv "USER_PORTAL_LOGIN_URL")) "https://users.apexaegis.app".
Definition desktopLoginURL (r : request) : string :=
  or_else (TrimRight (q_origin r)) (or_else (TrimRight (getenv "DESKTOP_LOGIN_CALLBACK_URL")) "apexaegis://auth").
Definition cloud : bool := bool_decide (getenv "DEPLOY_MODE" = "cloud").
Definition publicAPIBaseURL : string :=
  or_else (TrimSpace (getenv "PUBLIC_API_URL"))
    (or_else (TrimSpace (getenv "API_PUBLIC_BASE_URL"))
       (or_else (TrimSpace (getenv "MANAGEMENT_PUBLIC_URL")) (if cloud then "https://api.apexaegis.app" else ""))).
Definition callbackURL (r : request) : string :=
  let path := "/api/v1/auth/sso/callback" in
  if negb (bool_decide (publicAPIBaseURL = "")) then TrimRight publicAPIBaseURL +:+ path
  else if negb (bool_decide (h_forwarded_host r = "")) then scheme r +:+ "://" +:+ h_forwarded_host r +:+ path
  else scheme r +:+ "://" +:+ host r +:+ path.
Definition webLoginURL (r : request) : string :=
  let base := or_else (TrimRight (q_origin r)) (or_else (TrimRight (h_origin r)) (TrimRight (getenv "WEB_UI_PUBLIC_URL"))) in
  let base := or_else base (if cloud then "https://www.apexaegis.app" else "") in
  or_else base (scheme r +:+ "://" +:+ host r) +:+ "/login".

(** ** Handlers *)

Definition Authorize (e : senv) (w : world) (idpID : string) (r : request) : world * sso_reply :=
  match GetIdP (w_broker w) idpID with
  | None => (w, SErr 404 "identity provider not found")
  | Some idp =>
      if negb (Enabled idp) then (w, SErr 400 "identity provider is disabled")
      else if bool_decide (IssuerURL idp = "") || bool_decide (ClientID idp = "")
           then (w, SErr 400 "provider is not configured for OIDC")
      else
        match s_random e with
        | None => (w, SErr 500 "failed to generate state")
        | Some bytes =>
            let state := Base64.encode_raw true bytes in
            let audience := TrimSpace (q_audience r) in
            let redirectURI := if bool_decide (audience = "user_portal") then portalLoginURL
                               else if bool_decide (audience = "desktop") then desktopLoginURL r
                               else webLoginURL r in
            let callbackURI := callbackURL r in
            let scopes := match Scopes idp with [] => ["openid"; "profile"; "email"] | l => l end in
            (with_pending w (<[state := mkPending idpID redirectURI callbackURI audience (s_clk e 0)]> (pending_ w)),
             SAuthorize (resolveAuthzEndpoint idp)
               [("client_id", ClientID idp); ("response_type", "code"); ("scope", Join scopes " ");
                ("redirect_uri", callbackURI); ("state", state)] state)
        end
  end.

Definition minute : Z := 60 * GoTime.GoTime.second.

Definition CallbackRedirect (e : senv) (w : world) (code state : string) : sso_reply :=
  if bool_decide (code = "") || bool_decide (state = "") then SErr 400 "missing code or state"
  else
    match pending_ w !! state with
    | None => SErr 400 "invalid or expired state parameter"
    | Some p =>
        if (10 * minute <? s_clk e 0 - pa_CreatedAt p)%Z then SErr 400 "invalid or expired state parameter"
        else if negb (url_ok (RedirectURI p)) then SErr 400 "invalid redirect target"
        else SRedirect (RedirectURI p) code state
    end.

(** The form, and basic authentication when there is a secret. *)
Definition exchangeCode (e : senv) (b : Broker) (idp : IdPConfig) (endpoint code redirectURI : string) : option string :=
  let secret := GetIdPClientSecret b (ID idp) in
  let form := [("grant_type", "authorization_code"); ("code", code); ("redirect_uri", redirectURI)] in
  let answer := if bool_decide (secret = "") then s_post e endpoint (form ++ [("client_id", ClientID idp)]) None
                else s_post e endpoint form (Some (ClientID idp, secret)) in
  match answer with
  | PostBody (Some t) => if bool_decide (t = "") then None else Some t
  | _ => None
  end.

(** The claims a login uses, [None] when one is missing: subject, e-mail and name. *)
Definition login_claims (c : claims) : option (string * string * string) :=
  let username := claimString c "preferred_username" in
  let email := or_else (claimString c "email") username in
  let name := or_else (claimString c "name") username in
  let subject := claimString c "sub" in
  if bool_decide (subject = "") || bool_decide (email = "") then None else Some (subject, email, name).

(** A client user: the portal token. *)
Definition portal_login (e : senv) (w : world) (idp : IdPConfig) (subject email : string) : world * sso_reply :=
  match w_scim w with
  | None => (w, SErr 500 "user portal authentication is unavailable")
  | Some db =>
      match ScimStore.ScimStore.FindAndLinkProvisionedClientUser (s_scim e) db (ProviderType idp) subject email (OrgID idp) with
      | (db, Err msg) => (with_scim w db, SErr 403 msg)
      | (db, Ok u) =>
          let w := with_scim w db in
          if negb (bool_decide (ScimStore.ScimStore.Status u = "active"))
          then (w, SSuspended (ScimStore.ScimStore.StatusSource u) (ScimStore.ScimStore.StatusReason u))
          else
            match AuthStore.AuthStore.IssuePortalToken jwtSecret (s_clk e 1) (ScimStore.ScimStore.ID u)
                    (ScimStore.ScimStore.Email u) (ScimStore.ScimStore.Name u) (ScimStore.ScimStore.OrgID u) with
            | Err _ => (w, SErr 500 "token issuance failed")
            | Ok (token, expires) => (w, SPortal token expires u)
            end
      end
  end.

(** An administrator: access and refresh token. *)
Definition admin_login (e : senv) (w : world) (idp : IdPConfig) (subject email name : string) (r : request) : world * sso_reply :=
  match AuthStore.AuthStore.FindOrCreateOAuthUser (s_auth e) (w_auth w) (ProviderType idp) subject email name (OrgID idp)
          (SCIMEnabled idp) with
  | (db, Err err) => (with_auth w db, SAuthErr err)
  | (db, Ok (u, created)) =>
      let w := with_auth w db in
      if negb (bool_decide (AuthStore.AuthStore.Status u = "active")) then (w, SErr 403 "account is suspended")
      else
        match AuthStore.AuthStore.IssueTokens jwtSecret (s_auth e) 6 db u (client_ip r) (user_agent r) with
        | (db, Err _) => (with_auth w db, SErr 500 "token issuance failed")
        | (db, Ok res) => (with_auth w db, STokens res)
        end
  end.

(** What follows once the state is taken. *)
Definition finish_login (e : senv) (w : world) (p : pendingAuth) (code : string) (r : request) : world * sso_reply :=
  match GetIdP (w_broker w) (pa_IdPID p) with
  | None => (w, SErr 400 "identity provider not available")
  | Some idp =>
      if negb (Enabled idp) then (w, SErr 400 "identity provider not available")
      else
        match exchangeCode e (w_broker w) idp (resolveTokenEndpoint idp) code (CallbackURI p) with
        | None => (w, SErr 401 "token exchange failed")
        | Some token =>
            match ValidateOIDCToken (s_broker e) 0 (w_broker w) idp token with
            | (b, Err _) => (with_broker w b, SErr 401 "token validation failed")
            | (b, Ok c) =>
                let w := with_broker w b in
                match login_claims c with
                | None => (w, SErr 401 "ID token missing required claims (sub, email)")
                | Some (subject, email, name) =>
                    if bool_decide (Audience p = "user_portal") || bool_decide (Audience p = "desktop")
                    then portal_login e w idp subject email
                    else admin_login e w idp subject email name r
                end
            end
        end
  end.

(** The body has a code and a state, both required; [None] when it does not bind. *)
Definition Callback (e : senv) (w : world) (body : option (string * string)) (r : request) : world * sso_reply :=
  match body with
  | None => (w, SErr 400 "code and state are required")
  | Some (code, state) =>
      if bool_decide (code = "") || bool_decide (state = "") then (w, SErr 400 "code and state are required")
      else
        match pending_ w !! state with
        | None => (w, SErr 400 "invalid or expired state parameter")
        | Some p =>
            let w := with_pending w (delete state (pending_ w)) in
            if (10 * minute <? s_clk e 0 - pa_CreatedAt p)%Z then (w, SErr 400 "authorization state expired")
            else finish_login e w p code r
        end
  end.

Definition ListSSOProviders (ro : range_order) (w : world) : sso_reply :=
  SProviders (omap (λ idp, if negb (Enabled idp) || bool_decide (IssuerURL idp = "") || bool_decide (ClientID idp = "") then None
                           else Some (ID idp, Name idp, ProviderType idp)) (ListIdPs ro (w_broker w))).

(** A tick of [cleanupLoop]. *)
Definition cleanup (t : Z) (w : world) : world :=
  with_pending w (filter (λ kv, ¬ (15 * minute < t - pa_CreatedAt (snd kv))%Z) (pending_ w)).

(** The calls of the handler, and of the services next to it as far as they change the rest of
    the world. *)
Inductive scall :=
| CAuthorize (e : senv) (idp : string) (r : request)
| CCallback (e : senv) (body : option (string * string)) (r : request)
| CCleanup (t : Z)
| COther (b : Broker) (a : AuthStore.AuthStore.DB) (s : option ScimStore.ScimStore.DB).
Definition srun (w : world) (c : scall) : world :=
  match c with
  | CAuthorize e idp r => fst (Authorize e w idp r)
  | CCallback e body r => fst (Callback e w body r)
  | CCleanup t => cleanup t w
  | COther b a s => mkWorld (pending_ w) b a s
  end.

End Handler.
Section Proofs.
Context (getenv : string → string) (url_ok : string → bool).
Context `{OidcJwt} `{Jwt.JwtLib} (jwtSecret : bytes).
Abbreviation Authorize := (Authorize getenv).
Abbreviation Callback := (Callback jwtSecret).
Abbreviation finish_login := (finish_login jwtSecret).
Abbreviation portal_login := (portal_login jwtSecret).
Abbreviation admin_login := (admin_login jwtSecret).
Abbreviation srun := (srun getenv jwtSecret).

(** ** States *)

(** What follows the check of a state neither reads nor writes the states. *)
Definition moved (m : gmap string pendingAuth) (x : world * sso_reply) : world * sso_reply := (with_pending (fst x) m, snd x).

Lemma portal_login_pending e w m idp su em :
  portal_login e (with_pending w m) idp su em = moved m (portal_login e w idp su em).
Proof.
  unfold portal_login, Sso.portal_login. cbn [w_scim with_pending]. destruct (w_scim w) as [db|]; [|done].
  destruct (ScimStore.ScimStore.FindAndLinkProvisionedClientUser _ _ _ _ _ _) as [db' [u|msg]]; [|done].
  destruct (negb _); [done|]. by destruct (AuthStore.AuthStore.IssuePortalToken _ _ _ _ _ _) as [[]|].
Qed.
Lemma admin_login_pending e w m idp su em na r :
  admin_login e (with_pending w m) idp su em na r = moved m (admin_login e w idp su em na r).
Proof.
  unfold admin_login, Sso.admin_login. cbn [w_auth with_pending].
  destruct (AuthStore.AuthStore.FindOrCreateOAuthUser _ _ _ _ _ _ _ _) as [db' [[u c]|err]]; [|done].
  destruct (negb _); [done|]. by destruct (AuthStore.AuthStore.IssueTokens _ _ _ _ _ _ _) as [db'' []].
Qed.
Lemma finish_login_pending e w m p code r :
  finish_login e (with_pending w m) p code r = moved m (finish_login e w p code r).
Proof.
  unfold finish_login, Sso.finish_login. cbn [w_broker with_pending]. destruct (GetIdP _ _) as [idp|]; [|done].
  destruct (negb (Enabled idp)); [done|]. destruct (exchangeCode _ _ _ _ _ _) as [tok|]; [|done].
  destruct (ValidateOIDCToken _ _ _ _ _) as [b [c|err]]; [|done]. cbv zeta.
  destruct (login_claims c) as [[[su em] na]|]; [|done].
  change (with_broker (with_pending w m) b) with (with_pending (with_broker w b) m).
  destruct (_ || _); [apply portal_login_pending|apply admin_login_pending].
Qed.
Lemma finish_login_keeps e w p code r : pending_ (fst (finish_login e w p code r)) = pending_ w.
Proof.
  pose proof (finish_login_pending e w (pending_ w) p code r) as E.
  assert (Hw : with_pending w (pending_ w) = w) by by destruct w. rewrite Hw in E. rewrite E. done.
Qed.

Definition draws (st : string) (c : scall) : Prop :=
  match c with CAuthorize e _ _ => ∃ b, s_random e = Some b ∧ Base64.encode_raw true b = st | _ => False end.

Lemma srun_spent w c st : ¬ draws st c → pending_ w !! st = None → pending_ (srun w c) !! st = None.
Proof.
  intros Hd Hst. destruct c as [e idp r|e [[code st']|] r|t|b a d]; cbn; try done.
  - unfold Authorize, Sso.Authorize. destruct (GetIdP _ _) as [i|]; [|done]. destruct (negb _); [done|].
    destruct (_ || _); [done|]. destruct (s_random e) as [bs|] eqn:Hr; [|done]. cbn.
    rewrite lookup_insert_ne; [done|]. intros E. apply Hd. cbn. by exists bs.
  - unfold Callback, Sso.Callback. destruct (_ || _); [done|]. destruct (pending_ w !! st') as [p|]; [|done].
    destruct (_ <? _)%Z; [|rewrite finish_login_keeps];
      cbn; by apply lookup_delete_None; right.
  - unfold cleanup. cbn. apply map_lookup_filter_None. by left.
Qed.

(** A state is good for one callback.  Whatever becomes of the first one, and whatever the
    handler, the clean-up and the services behind it do afterwards, a second callback with the
    same state is refused and changes nothing, unless the state is drawn again. *)
Theorem state_single_use e w code st r calls e' code' r' :
  code ≠ "" → st ≠ "" → code' ≠ "" → Forall (λ c, ¬ draws st c) calls →
  let w' := foldl srun (srun w (CCallback e (Some (code, st)) r)) calls in
  Callback e' w' (Some (code', st)) r' = (w', SErr 400 "invalid or expired state parameter").
Proof.
  intros Hc Hs Hc' Hcalls w'.
  assert (Hst : pending_ w' !! st = None).
  { subst w'. assert (H0' : pending_ (srun w (CCallback e (Some (code, st)) r)) !! st = None).
    - cbn. unfold Callback, Sso.Callback. rewrite !bool_decide_eq_false_2 by done. cbn [orb].
      destruct (pending_ w !! st) as [p|] eqn:Hp; [|done].
      destruct (_ <? _)%Z; [|rewrite finish_login_keeps]; cbn; apply lookup_delete_eq.
    - revert H0'. generalize (srun w (CCallback e (Some (code, st)) r)). clear -Hcalls.
      induction Hcalls as [|c l Hd _ IH]; intros w Hw; [done|]. cbn. apply IH. by apply srun_spent. }
  unfold Callback, Sso.Callback. rewrite !bool_decide_eq_false_2 by done. cbn [orb]. by rewrite Hst.
Qed.

(** The clean-up of old states only takes what is useless: before and after a tick that is
    not later than it, a callback has the same reply and the same effect, except that a refusal
    of an old state may have another text. *)
Theorem cleanup_harmless e w body r t :
  (t ≤ s_clk e 0)%Z →
  let x := Callback e w body r in let y := Callback e (cleanup t w) body r in
  w_broker (fst x) = w_broker (fst y) ∧ w_auth (fst x) = w_auth (fst y) ∧ w_scim (fst x) = w_scim (fst y) ∧
  (snd x = snd y ∨ ∃ m m', snd x = SErr 400 m ∧ snd y = SErr 400 m').
Proof.
  intros Ht x y. subst x y. unfold Callback, Sso.Callback. destruct body as [[code st]|]; [|by split_and!; [..|left]].
  destruct (_ || _); [by split_and!; [..|left]|].
  destruct (pending_ w !! st) as [p|] eqn:Hp.
  - destruct (pending_ (cleanup t w) !! st) as [p'|] eqn:Hp'.
    + unfold cleanup in Hp'. cbn in Hp'. apply map_lookup_filter_Some in Hp' as [Hp' _].
      rewrite Hp in Hp'. injection Hp' as <-. destruct (_ <? _)%Z; [by split_and!; [..|left]|].
      change (with_pending (cleanup t w) ?m) with (with_pending w m).
      rewrite !finish_login_pending. by split_and!; [..|left].
    + unfold cleanup in Hp'. cbn in Hp'. apply map_lookup_filter_None in Hp' as [Hp'|Hp']; [congruence|].
      specialize (Hp' p Hp). cbn in Hp'. apply dec_stable in Hp'.
      rewrite (proj2 (Z.ltb_lt (10 * minute) _)) by (unfold minute, GoTime.GoTime.second in *; lia). cbn. split_and!; [done..|]. right. by eexists _, _.
  - replace (pending_ (cleanup t w) !! st) with (@None pendingAuth); [by split_and!; [..|left]|].
    symmetry. apply map_lookup_filter_None. by left.
Qed.

(** ** Who logs in *)

(** The provider has vouched for the claims [c] of the code, within the time of the state. *)
Definition vouched (e : senv) (w : world) (code st : string) (p : pendingAuth) (idp : IdPConfig) (c : claims) : Prop :=
  pending_ w !! st = Some p ∧ (s_clk e 0 - pa_CreatedAt p ≤ 10 * minute)%Z ∧
  GetIdP (w_broker w) (pa_IdPID p) = Some idp ∧ Enabled idp = true ∧
  ∃ token keys,
    exchangeCode e (w_broker w) idp (resolveTokenEndpoint idp) code (CallbackURI p) = Some token ∧
    snd (getJWKS (s_broker e) 0 (w_broker w) (ID idp) (jwks_uri idp)) = Ok keys ∧
    accepted idp keys (clk (s_broker e) 2) token c.
Definition portal_audience (p : pendingAuth) : bool :=
  bool_decide (Audience p = "user_portal") || bool_decide (Audience p = "desktop").

Lemma portal_user_org e db provider su em org db' u :
  ScimStore.ScimStore.FindAndLinkProvisionedClientUser e db provider su em org = (db', Ok u) →
  ScimStore.ScimStore.OrgID u = org.
Proof.
  unfold ScimStore.ScimStore.FindAndLinkProvisionedClientUser. destruct (negb (ScimStore.ScimStore.e_ok e 0)); [done|].
  assert (Hf : ∀ p id r, head (Sql.Sql.select (ScimStore.ScimStore.e_ro e)
      (λ _ r, bool_decide (ScimStore.ScimStore.c_org r = org) && p r) (ScimStore.ScimStore.clients db)) = Some (id, r) →
    ScimStore.ScimStore.c_org r = org).
  { intros p id r Hfound. pose proof (Sql.Sql.select_head (ScimStore.ScimStore.e_ro e)
      (λ _ r, bool_decide (ScimStore.ScimStore.c_org r = org) && p r) (ScimStore.ScimStore.clients db)) as Hh.
    rewrite Hfound in Hh. destruct Hh as [_ [Ho _]%andb_true_iff]. by apply bool_decide_eq_true in Ho. }
  cbv zeta beta.
  match goal with |- (match ?m with Some _ => _ | None => _ end = _) → _ => destruct m as [[id r]|] eqn:Hm; [|done] end.
  assert (Hr : ScimStore.ScimStore.c_org r = org) by (revert Hm; case_match eqn:E1; [intros [= ->]; exact (Hf _ _ _ E1)|intros E2; exact (Hf _ _ _ E2)]).
  destruct (_ || _); [destruct (ScimStore.ScimStore.link_client _ _ _ _ _ _) as [db1 []]; [|done]|];
    by intros [= <- <-].
Qed.

(** Who logs in.  A callback that gives out tokens has a code that the provider of a pending
    state, not older than ten minutes, exchanged for a token that the broker accepts, with a
    subject and an e-mail.  A portal or desktop login is of an active client user of the
    provider's tenant; any other is of the active administrator that the store finds or creates. *)
Theorem sso_login_sound e w body r :
  match Callback e w body r with
  | (w', SPortal token expires u) =>
      ∃ code st p idp c su em na, body = Some (code, st) ∧ vouched e w code st p idp c ∧
        login_claims c = Some (su, em, na) ∧ portal_audience p = true ∧
        ScimStore.ScimStore.Status u = "active" ∧ ScimStore.ScimStore.OrgID u = OrgID idp ∧ w_auth w' = w_auth w
  | (w', STokens res) =>
      ∃ code st p idp c su em na db created, body = Some (code, st) ∧ vouched e w code st p idp c ∧
        login_claims c = Some (su, em, na) ∧ portal_audience p = false ∧
        AuthStore.AuthStore.FindOrCreateOAuthUser (s_auth e) (w_auth w) (ProviderType idp) su em na (OrgID idp)
          (SCIMEnabled idp) = (db, Ok (AuthStore.AuthStore.User res, created)) ∧
        AuthStore.AuthStore.Status (AuthStore.AuthStore.User res) = "active" ∧ w_scim w' = w_scim w
  | _ => True
  end.
Proof.
  unfold Callback, Sso.Callback. destruct body as [[code st]|]; [|done]. destruct (_ || _); [done|].
  destruct (pending_ w !! st) as [p|] eqn:Hp; [|done]. destruct (_ <? _)%Z eqn:Ht; [done|]. apply Z.ltb_ge in Ht.
  rewrite finish_login_pending. unfold finish_login, Sso.finish_login.
  destruct (GetIdP (w_broker w) (pa_IdPID p)) as [idp|] eqn:Hi; [|done].
  destruct (Enabled idp) eqn:He; cbn [negb]; [|done].
  destruct (exchangeCode _ _ _ _ _ _) as [tok|] eqn:Hx; [|done].
  pose proof (validate_exact (s_broker e) 0 (w_broker w) idp tok) as Hv.
  destruct (ValidateOIDCToken _ _ _ _ _) as [b [c|err]]; [|done].
  destruct Hv as (keys & Hk & Hacc). destruct (login_claims c) as [[[su em] na]|] eqn:Hlc; [|done].
  assert (Hvou : vouched e w code st p idp c).
  { split_and!; [done..|]. exists tok, keys. by rewrite Hk. }
  fold (portal_audience p). destruct (portal_audience p) eqn:Ha.
  - unfold portal_login, Sso.portal_login. cbn [w_scim with_broker]. destruct (w_scim w) as [db|]; [|done].
    destruct (ScimStore.ScimStore.FindAndLinkProvisionedClientUser _ _ _ _ _ _) as [db' [u|msg]] eqn:Hf; [|done].
    apply portal_user_org in Hf. case_bool_decide as Hact; [|done]. cbn [negb].
    destruct (AuthStore.AuthStore.IssuePortalToken _ _ _ _ _ _) as [[t ex]|]; [|done]. cbn.
    exists code, st, p, idp, c, su, em, na. by split_and!.
  - unfold admin_login, Sso.admin_login. cbn [w_auth with_broker].
    destruct (AuthStore.AuthStore.FindOrCreateOAuthUser _ _ _ _ _ _ _ _) as [db' [[u cr]|msg]] eqn:Hf; [|done].
    case_bool_decide as Hact; [|done]. cbn [negb].
    destruct (AuthStore.AuthStore.IssueTokens _ _ _ _ _ _ _) as [db'' [res|]] eqn:Hiss; [|done]. cbn.
    apply AuthStore.AuthStore.IssueTokens_Ok in Hiss as (_ & _ & _ & Hu & _).
    exists code, st, p, idp, c, su, em, na, db', cr. rewrite Hu. by split_and!.
Qed.

End Proofs.

(** ** Where it goes wrong *)

Section Flaws.
Context (getenv : string → string) (url_ok : string → bool).
Context `{OidcJwt} `{Jwt.JwtLib} (jwtSecret : bytes).
Abbreviation Callback := (Callback jwtSecret).
Abbreviation admin_login := (admin_login jwtSecret).

Lemma callback_admin e w code st p idp c su em na r :
  code ≠ "" → st ≠ "" → vouched e w code st p idp c → login_claims c = Some (su, em, na) → portal_audience p = false →
  ∃ b, Callback e w (Some (code, st)) r
       = admin_login e (mkWorld (delete st (pending_ w)) b (w_auth w) (w_scim w)) idp su em na r.
Proof.
  intros Hc Hs (Hp & Ht & Hi & He & tok & keys & Hx & Hk & Hacc) Hlc Ha. eexists.
  unfold Callback, Sso.Callback. rewrite !bool_decide_eq_false_2 by done. cbn [orb]. rewrite Hp.
  rewrite (proj2 (Z.ltb_ge (10 * minute) _) Ht). unfold finish_login. cbn [w_broker with_pending]. rewrite Hi, He. cbn [negb].
  rewrite Hx, (validate_complete _ _ _ _ _ _ _ Hk Hacc), Hlc. fold (portal_audience p). rewrite Ha. reflexivity.
Qed.

(** A provider of one tenant logs in administrators of all tenants.  The administrator is
    looked up by the e-mail of the token alone: whoever runs an enabled provider, of whatever
    organization, and signs a token with the e-mail of an active administrator who has not
    linked that subject, is given the tokens of that administrator, with its role and its
    organization. *)
Theorem sso_cross_tenant e w code st p idp c su em na r v bytes token :
  code ≠ "" → st ≠ "" → vouched e w code st p idp c → login_claims c = Some (su, em, na) → portal_audience p = false →
  (∀ i, AuthStore.AuthStore.e_ok (s_auth e) i = true) →
  AuthStore.AuthStore.select_user (AuthStore.AuthStore.e_ro (s_auth e)) (AuthStore.AuthStore.by_oauth (ProviderType idp) su)
    (AuthStore.AuthStore.users (w_auth w)) = None →
  AuthStore.AuthStore.select_user (AuthStore.AuthStore.e_ro (s_auth e)) (AuthStore.AuthStore.by_email em)
    (AuthStore.AuthStore.users (w_auth w)) = Some v →
  AuthStore.AuthStore.users (w_auth w) !! AuthStore.AuthStore.u_id v = Some v →
  AuthStore.AuthStore.u_status v = "active" →
  AuthStore.AuthStore.e_rand (s_auth e) = Some bytes →
  AuthStore.AuthStore.login_sessions (w_auth w) !! Hex.encode bytes = None →
  Jwt.jwt_sign (AuthStore.AuthStore.access_claims (AuthStore.AuthStore.e_clk (s_auth e) 6) (AuthStore.AuthStore.scan_user v)) jwtSecret
  = Some token →
  ∃ w' res, Callback e w (Some (code, st)) r = (w', STokens res) ∧
    AuthStore.AuthStore.User res = AuthStore.AuthStore.scan_user v ∧
    AuthStore.AuthStore.OrgID (AuthStore.AuthStore.User res) = AuthStore.AuthStore.u_org_id v.
Proof.
  intros Hc Hs Hv Hlc Ha Hok Hno Hem Hrow Hact Hrand Hfree Hsign.
  destruct (callback_admin e w code st p idp c su em na r Hc Hs Hv Hlc Ha) as [b ->].
  unfold admin_login, Sso.admin_login, AuthStore.AuthStore.FindOrCreateOAuthUser. cbn [w_auth].
  rewrite !Hok, Hno, Hem. cbn [AuthStore.AuthStore.Status AuthStore.AuthStore.scan_user].
  rewrite Hact, (bool_decide_eq_true_2 ("active" = "active")) by done. cbn [negb].
  unfold AuthStore.AuthStore.IssueTokens, AuthStore.AuthStore.generateAccessToken, AuthStore.AuthStore.generateRefreshToken.
  rewrite Hsign, Hrand, Hok. rewrite bool_decide_eq_true_2 by done. cbn [andb].
  set (users := AuthStore.AuthStore.users _).
  assert (Hin : is_Some (users !! AuthStore.AuthStore.ID (AuthStore.AuthStore.scan_user v))).
  { subst users. cbn [AuthStore.AuthStore.ID AuthStore.AuthStore.scan_user AuthStore.AuthStore.users AuthStore.AuthStore.with_users].
    case_bool_decide; [|by rewrite Hrow]. cbn. by rewrite lookup_alter_eq, Hrow; eexists. }
  assert (Hsess : AuthStore.AuthStore.login_sessions
    (if bool_decide (@None AuthStore.AuthStore.user_row = None) then AuthStore.AuthStore.with_users (w_auth w)
       (alter (AuthStore.AuthStore.set_oauth (ProviderType idp) su (AuthStore.AuthStore.e_clk (s_auth e) 3)) (AuthStore.AuthStore.u_id v)
          (AuthStore.AuthStore.users (w_auth w))) else w_auth w) !! Hex.encode bytes = None) by done.
  rewrite !bool_decide_eq_true_2 by done. by eexists _, _.
Qed.

(** The first login of an administrator who is provisioned on the fly is refused.  The
    account is created, active, and the callback answers that it is suspended: the user it was
    given has no status. *)
Theorem first_login_suspended e w code st p idp c su em na r :
  code ≠ "" → st ≠ "" → vouched e w code st p idp c → login_claims c = Some (su, em, na) → portal_audience p = false →
  (∀ i, AuthStore.AuthStore.e_ok (s_auth e) i = true) → SCIMEnabled idp = true → OrgID idp ≠ "" →
  OrgID idp ∈ AuthStore.AuthStore.organizations (w_auth w) →
  AuthStore.AuthStore.select_user (AuthStore.AuthStore.e_ro (s_auth e)) (AuthStore.AuthStore.by_oauth (ProviderType idp) su)
    (AuthStore.AuthStore.users (w_auth w)) = None →
  AuthStore.AuthStore.select_user (AuthStore.AuthStore.e_ro (s_auth e)) (AuthStore.AuthStore.by_email em)
    (AuthStore.AuthStore.users (w_auth w)) = None →
  AuthStore.AuthStore.users (w_auth w) !! AuthStore.AuthStore.e_new_id (s_auth e) = None →
  ∃ w' row, Callback e w (Some (code, st)) r = (w', SErr 403 "account is suspended") ∧
    AuthStore.AuthStore.users (w_auth w') !! AuthStore.AuthStore.e_new_id (s_auth e) = Some row ∧
    AuthStore.AuthStore.u_status row = "active" ∧ AuthStore.AuthStore.u_email row = em.
Proof.
  intros Hc Hs Hv Hlc Ha Hok Hscim Horg Hin Hno Hem Hnew.
  destruct (callback_admin e w code st p idp c su em na r Hc Hs Hv Hlc Ha) as [b ->].
  unfold admin_login, Sso.admin_login, AuthStore.AuthStore.FindOrCreateOAuthUser. cbn [w_auth].
  rewrite !Hok, Hno, Hem, Hscim. cbn [negb]. cbv zeta. rewrite !(bool_decide_eq_false_2 (OrgID idp = "")) by done.
  rewrite !(bool_decide_eq_true_2 (@None AuthStore.AuthStore.user_row = None)) by done.
  rewrite (bool_decide_eq_true_2 (OrgID idp ∈ _)), (bool_decide_eq_true_2 (_ !! _ = None)) by done.
  cbn. eexists _, _. split; [reflexivity|]. cbn. rewrite lookup_insert_eq. done.
Qed.

(** The code and the state go to any address.  The [origin] of an unauthenticated request
    decides where the browser is sent with them after it has logged in at the provider; the
    state stays pending, so that whoever receives the two can complete the login. *)
Theorem open_redirect e w idpID r w' ep params st o e' code :
  Authorize getenv e w idpID r = (w', SAuthorize ep params st) →
  TrimSpace (q_audience r) ∉ ["user_portal"; "desktop"] → TrimRight (q_origin r) = o → o ≠ "" →
  code ≠ "" → st ≠ "" → (s_clk e' 0 - s_clk e 0 ≤ 10 * minute)%Z → url_ok (o +:+ "/login") = true →
  CallbackRedirect url_ok e' w' code st = SRedirect (o +:+ "/login") code st ∧
  ∃ p, pending_ w' !! st = Some p ∧ pa_IdPID p = idpID ∧ portal_audience p = false.
Proof.
  intros Hauth Haud Ho Hne Hc Hs Ht Hurl. revert Hauth. unfold Authorize. destruct (GetIdP _ _) as [idp|]; [|done].
  destruct (negb _); [done|]. destruct (_ || _); [done|]. destruct (s_random e) as [bs|]; [|done]. cbv zeta.
  rewrite !(bool_decide_eq_false_2 (TrimSpace (q_audience r) = _)) by (intros E; apply Haud; rewrite E; set_solver).
  intros [= <- _ _ <-]. unfold CallbackRedirect. cbn [pending_ with_pending]. rewrite lookup_insert_eq.
  rewrite (bool_decide_eq_false_2 (code = "")), (bool_decide_eq_false_2 (Base64.encode_raw true bs = "")) by done. cbn [orb].
  cbn [pa_CreatedAt RedirectURI]. rewrite (proj2 (Z.ltb_ge (10 * minute) _) Ht).
  assert (E : webLoginURL getenv r = o +:+ "/login").
  { unfold webLoginURL, or_else. rewrite Ho. by rewrite !(bool_decide_eq_false_2 (o = "")). }
  rewrite E, Hurl. split; [done|]. eexists. split; [reflexivity|]. split; [done|]. unfold portal_audience. cbn.
  by rewrite !(bool_decide_eq_false_2 (TrimSpace (q_audience r) = _)) by (intros Ex; apply Haud; rewrite Ex; set_solver).
Qed.

End Flaws.

(** ** Witnesses *)

Section Demo.
#[local] Instance the_oidc : OidcJwt := toy_oidc demo_tokens.
#[local] Instance the_jwt : Jwt.JwtLib := Jwt.toy_jwt.

Definition demo_secret : bytes := of_string "secret".
Definition demo_request : request := mkRequest "" "https://evil.example/" "" "" "" "api.acme.example" true "10.0.0.9" "curl".
Definition demo_pending : pendingAuth :=
  mkPending "acme" "https://www.apexaegis.app/login" "https://api.apexaegis.app/api/v1/auth/sso/callback" "" 0.
Definition demo_admin : AuthStore.AuthStore.user_row :=
  AuthStore.AuthStore.mkRow "a1" "victim" "ann@acme.example" "Ann" "super_admin" true "active" None None None None None.
Definition demo_auth (m : gmap string AuthStore.AuthStore.user_row) : AuthStore.AuthStore.DB :=
  AuthStore.AuthStore.mkDB m ∅ ["evil"; "victim"].
(** The provider is of the tenant "evil". *)
Definition demo_world (m : gmap string AuthStore.AuthStore.user_row) : world :=
  mkWorld {["st" := demo_pending]}
    (mkBroker {["acme" := with_org (demo_idp "https://id.acme.example/keys") "evil"]} ∅ {["acme" := mkCache [demo_key] 0]} true)
    (demo_auth m) None.
Definition demo_senv : senv :=
  mkSEnv (λ _, 5%Z) (Some (repeat x42 24)) (λ _ _ _, PostBody (Some "tok")) (demo_env 5 (λ _, FetchErr))
    (AuthStore.AuthStore.mkEnv (λ _, 5%Z) (λ _, true) (Some (repeat x43 16)) canonical_order "new")
    (ScimStore.ScimStore.mkEnv 5 "" (λ _, true) canonical_order).

Lemma demo_vouched m :
  vouched demo_senv (demo_world m) "code" "st" demo_pending
    (public_view (with_org (demo_idp "https://id.acme.example/keys") "evil")) demo_claims.
Proof.
  split_and!; [reflexivity|vm_compute; discriminate|reflexivity|reflexivity|].
  exists "tok", [demo_key]. split_and!; [reflexivity|reflexivity|exact (demo_accepted "https://id.acme.example/keys")].
Qed.

Lemma state_single_use_witness :
  let w := srun (λ _, "") demo_secret (demo_world ∅) (CCallback demo_senv (Some ("code", "st")) demo_request) in
  Callback demo_secret demo_senv (cleanup 9 w) (Some ("code", "st")) demo_request
  = (cleanup 9 w, SErr 400 "invalid or expired state parameter").
Proof.
  apply (state_single_use (λ _, "") demo_secret demo_senv (demo_world ∅) "code" "st" demo_request [CCleanup 9]
           demo_senv "code" demo_request); [done..|]. repeat constructor. intros [].
Defined.

Lemma cleanup_harmless_witness :
  snd (Callback demo_secret demo_senv (demo_world {["a1" := demo_admin]}) (Some ("code", "st")) demo_request)
  = snd (Callback demo_secret demo_senv (cleanup 4 (demo_world {["a1" := demo_admin]})) (Some ("code", "st")) demo_request).
Proof.
  destruct (cleanup_harmless demo_secret demo_senv (demo_world {["a1" := demo_admin]}) (Some ("code", "st")) demo_request 4)
    as (_ & _ & _ & [E|(m & m' & E & _)]); [cbn; lia|exact E|]. vm_compute in E. discriminate E.
Defined.

Lemma sso_cross_tenant_witness :
  ∃ w' res, Callback demo_secret demo_senv (demo_world {["a1" := demo_admin]}) (Some ("code", "st")) demo_request = (w', STokens res)
    ∧ AuthStore.AuthStore.User res = AuthStore.AuthStore.scan_user demo_admin
    ∧ AuthStore.AuthStore.OrgID (AuthStore.AuthStore.User res) = "victim".
Proof.
  eapply (sso_cross_tenant demo_secret demo_senv (demo_world {["a1" := demo_admin]}) "code" "st" demo_pending _ demo_claims
            "u1" "ann@acme.example" "" demo_request demo_admin (repeat x43 16));
    [done|done|apply demo_vouched|vm_compute; reflexivity|reflexivity|done|vm_compute; reflexivity|vm_compute; reflexivity
    |reflexivity|reflexivity|reflexivity|reflexivity|reflexivity].
Defined.

Lemma first_login_suspended_witness :
  ∃ w' row, Callback demo_secret demo_senv (demo_world ∅) (Some ("code", "st")) demo_request = (w', SErr 403 "account is suspended")
    ∧ AuthStore.AuthStore.users (w_auth w') !! "new" = Some row
    ∧ AuthStore.AuthStore.u_status row = "active" ∧ AuthStore.AuthStore.u_email row = "ann@acme.example".
Proof.
  apply (first_login_suspended demo_secret demo_senv (demo_world ∅) "code" "st" demo_pending
           (public_view (with_org (demo_idp "https://id.acme.example/keys") "evil")) demo_claims
           "u1" "ann@acme.example" "" demo_request);
    [done|done|apply demo_vouched|vm_compute; reflexivity|reflexivity|done|reflexivity|done|vm_compute; left
    |vm_compute; reflexivity|vm_compute; reflexivity|reflexivity].
Defined.

Lemma open_redirect_witness :
  let w' := fst (Authorize (λ _, "") demo_senv (demo_world ∅) "acme" demo_request) in
  CallbackRedirect (λ _, true) demo_senv w' "code" (Base64.encode_raw true (repeat x42 24))
  = SRedirect "https://evil.example/login" "code" (Base64.encode_raw true (repeat x42 24)).
Proof.
  eapply (open_redirect (λ _, "") (λ _, true) demo_senv (demo_world ∅) "acme" demo_request _ _ _ _ "https://evil.example"
            demo_senv "code");
    [vm_compute; reflexivity|vm_compute; intros Hin; repeat (apply elem_of_cons in Hin as [Hin|Hin]; [discriminate Hin|]);
       by apply elem_of_nil in Hin
    |vm_compute; reflexivity|done|done|done|vm_compute; discriminate|reflexivity].
Defined.

End Demo.

End Sso.
