(* ===== verification/Interleave.v ===== *)
(** * Requests that run at the same time on one database

    A request handler is a program of database statements: each statement reads and changes
    the database in one step, and what the handler does next depends on what it read.  The
    requests of a server interleave at the statements; a request that runs alone executes its
    program from end to end.  [pool] is a database with the requests that have arrived, each
    with the call it serves; [istep] lets a request arrive or execute its next statement.

    The proofs use assertions in the style of Owicki and Gries: one holds at the points of a
    program and is kept by the statements of the others. *)

From S2P Require Import Prelude.
#[local] Open Scope nat_scope.
#[local] Open Scope list_scope.

Module Interleave.

(** [Stmt f k] on the database [d]: its effect [f d], and the rest of the program, [k d]. *)
Inductive prog (D R : Type) : Type :=
| Ret (r : R)
| Stmt (f : D → D) (k : D → prog D R).
Arguments Ret {D R} r.
Arguments Stmt {D R} f k.

(** ** Programs *)

Section Programs.
Context {D : Type}.

Fixpoint bind {A B} (p : prog D A) (k : A → prog D B) : prog D B :=
  match p with
  | Ret r => k r
  | Stmt f k0 => Stmt f (λ d, bind (k0 d) k)
  end.

(** A statement that answers with a value. *)
Definition stmt {A} (f : D → D * A) : prog D A := Stmt (λ d, fst (f d)) (λ d, Ret (snd (f d))).
Definition query {A} (f : D → A) : prog D A := stmt (λ d, (d, f d)).

(** The program from end to end, without other requests. *)
Fixpoint exec {A} (p : prog D A) (d : D) : D * A :=
  match p with
  | Ret r => (d, r)
  | Stmt f k => exec (k d) (f d)
  end.

Lemma exec_bind {A B} (p : prog D A) (k : A → prog D B) d :
  exec (bind p k) d = exec (k (snd (exec p d))) (fst (exec p d)).
Proof. revert d. induction p as [r|f k0 IH]; intros d; cbn; [done|]. apply IH. Qed.

(** *** Programs all of whose statements keep a property of the database *)

Inductive keeps {A} (P : D → Prop) : prog D A → Prop :=
| keeps_ret r : keeps P (Ret r)
| keeps_stmt f k : (∀ d, P d → P (f d)) → (∀ d, P d → keeps P (k d)) → keeps P (Stmt f k).

Lemma keeps_bind {A B} P (p : prog D A) (k : A → prog D B) : keeps P p → (∀ a, keeps P (k a)) → keeps P (bind p k).
Proof. intros Hp Hk. induction Hp as [r|f k0 Hf Hk0 IH]; cbn; [apply Hk|by constructor]. Qed.
Lemma keeps_one {A} P (f : D → D * A) : (∀ d, P d → P (fst (f d))) → keeps P (stmt f).
Proof. intros Hf. constructor; [done|]. intros d _. constructor. Qed.
Lemma keeps_query {A} P (f : D → A) : keeps P (query f).
Proof. by apply keeps_one. Qed.
(** What is read is read from a database with the property. *)
Lemma keeps_read {A B} P (f : D → A) (k : A → prog D B) : (∀ d, P d → keeps P (k (f d))) → keeps P (bind (query f) k).
Proof. intros Hk. by constructor. Qed.
Lemma keeps_exec {A} P (p : prog D A) d : keeps P p → P d → P (fst (exec p d)).
Proof. intros Hp. revert d. induction Hp as [r|f k Hf Hk IH]; intros d Hd; cbn; [done|]. by apply IH, Hf. Qed.

(** *** Programs all of whose statements follow a relation *)

Inductive follows {A} (R : D → D → Prop) : prog D A → Prop :=
| follows_ret r : follows R (Ret r)
| follows_stmt f k : (∀ d, R d (f d)) → (∀ d, follows R (k d)) → follows R (Stmt f k).

Lemma follows_bind {A B} R (p : prog D A) (k : A → prog D B) :
  follows R p → (∀ a, follows R (k a)) → follows R (bind p k).
Proof. intros Hp Hk. induction Hp as [r|f k0 Hf Hk0 IH]; cbn; [apply Hk|by constructor]. Qed.
Lemma follows_one {A} R (f : D → D * A) : (∀ d, R d (fst (f d))) → follows R (stmt f).
Proof. intros Hf. constructor; [done|]. intros d. constructor. Qed.
Lemma follows_query {A} R `{!Reflexive R} (f : D → A) : follows R (query f).
Proof. by apply follows_one. Qed.

End Programs.
#[export] Hint Resolve keeps_ret keeps_bind keeps_one keeps_query follows_ret follows_bind follows_one follows_query : go.

(** ** Requests *)

Section Pool.
Context {D R C : Type} (start : C → prog D R).

Record pool := mkPool { data : D; requests : list (C * prog D R) }.

Inductive istep : pool → pool → Prop :=
| arrive c s : istep s (mkPool (data s) (requests s ++ [(c, start c)]))
| run i c f k s :
    requests s !! i = Some (c, Stmt f k) →
    istep s (mkPool (f (data s)) (<[i := (c, k (data s))]> (requests s))).

(** The next statement of request [i], and a schedule of such steps. *)
Definition advance (s : pool) (i : nat) : pool :=
  match requests s !! i with
  | Some (c, Stmt f k) => mkPool (f (data s)) (<[i := (c, k (data s))]> (requests s))
  | _ => s
  end.
Definition schedule (d : D) (cs : list C) (l : list nat) : pool :=
  foldl advance (mkPool d ((λ c, (c, start c)) <$> cs)) l.

Lemma rtc_arrive d ts cs : rtc istep (mkPool d ts) (mkPool d (ts ++ ((λ c, (c, start c)) <$> cs))).
Proof.
  revert ts. induction cs as [|c cs IH]; intros ts; cbn; [by rewrite app_nil_r|].
  eapply rtc_l; [apply (arrive c (mkPool d ts))|]. cbn. specialize (IH (ts ++ [(c, start c)])).
  by rewrite <- app_assoc in IH.
Qed.
Lemma rtc_advance l s : rtc istep s (foldl advance s l).
Proof.
  revert s. induction l as [|i l IH]; intros s; cbn; [done|]. etrans; [|apply IH].
  unfold advance. destruct (requests s !! i) as [[c [r|f k]]|] eqn:Hi; [done| |done].
  apply rtc_once. by apply run.
Qed.
Lemma schedule_reachable d cs l : rtc istep (mkPool d []) (schedule d cs l).
Proof. etrans; [apply (rtc_arrive d [] cs)|apply rtc_advance]. Qed.

(** A property that every statement keeps holds in all interleavings. *)
Lemma reachable_keeps (P : D → Prop) d s :
  (∀ c, keeps P (start c)) → P d → rtc istep (mkPool d []) s → P (data s).
Proof.
  intros Hstart Hd Hr. assert (H : P (data s) ∧ Forall (λ t, keeps P (snd t)) (requests s)); [|by destruct H].
  revert s Hr. apply rtc_ind_r; [by split|]. intros s s' _ Hs [HP Hk]. destruct Hs as [c s0|i c f k s0 Hi]; cbn [data requests].
  - split; [done|]. apply Forall_app. split; [done|]. apply Forall_singleton, Hstart.
  - pose proof (Forall_lookup_1 _ _ _ _ Hk Hi) as Hi'. inversion Hi' as [|? ? Hf Hk']; subst. split; [by apply Hf|].
    apply Forall_insert; [done|by apply Hk'].
Qed.

(** The same with a property that speaks of the requests that have arrived. *)
Definition arrived (s : pool) (c : C) : Prop := c ∈ fst <$> requests s.
Lemma arrived_step s s' c : istep s s' → arrived s c → arrived s' c.
Proof.
  unfold arrived. intros [c0 s0|i c0 f k s0 Hi]; cbn [requests].
  - rewrite fmap_app. set_solver.
  - by rewrite list_fmap_insert, list_insert_id by by rewrite list_lookup_fmap, Hi.
Qed.
Lemma keeps_history (G : (C → Prop) → D → Prop) d s :
  (∀ H c, H c → keeps (G H) (start c)) → (∀ H, G H d) → rtc istep (mkPool d []) s → G (arrived s) (data s).
Proof.
  intros Hstart Hd Hr. assert (Hgen : G (arrived s) (data s) ∧ Forall (λ t, keeps (G (arrived s)) (snd t)) (requests s)); [|apply Hgen].
  assert (Hall : ∀ s0, rtc istep (mkPool d []) s0 → ∀ H, (∀ c, arrived s0 c → H c) → G H (data s0) ∧ Forall (λ t, keeps (G H) (snd t)) (requests s0));
    [|by apply Hall].
  clear s Hr. apply (rtc_ind_r (λ s0, ∀ H, (∀ c, arrived s0 c → H c) → G H (data s0) ∧ Forall (λ t, keeps (G H) (snd t)) (requests s0))); [by split|].
  intros s s' _ Hs IH H HH. destruct (IH H) as [HG HF]; [intros c Hc; apply HH; by eapply arrived_step|].
  destruct Hs as [c s0|i c f k s0 Hi]; cbn [data requests].
  - split; [done|]. apply Forall_app. split; [done|]. apply Forall_singleton, Hstart, HH. unfold arrived. cbn. rewrite fmap_app. set_solver.
  - pose proof (Forall_lookup_1 _ _ _ _ HF Hi) as Hk. inversion Hk as [|? ? Hf Hk']; subst. split; [by apply Hf|]. apply Forall_insert; [done|by apply Hk'].
Qed.

(** *** One request among the others

    [ran s p s' p']: between [s] and [s'] the program [p] has come to [p'], each of its
    statements at a moment of its own, with any steps of the others in between. *)
Inductive ran : pool → prog D R → pool → prog D R → Prop :=
| ran_wait s p s' : rtc istep s s' → ran s p s' p
| ran_stmt s f k s1 s2 s' p' :
    rtc istep s s1 → istep s1 s2 → data s2 = f (data s1) → ran s2 (k (data s1)) s' p' → ran s (Stmt f k) s' p'.

Lemma ran_rtc s p s' p' : ran s p s' p' → rtc istep s s'.
Proof. induction 1 as [|s f k s1 s2 s' p' H1 H2 _ _ IH]; [done|]. etrans; [exact H1|]. by eapply rtc_l. Qed.
Lemma ran_later s p s1 s2 p' : ran s p s1 p' → istep s1 s2 → ran s p s2 p'.
Proof.
  induction 1 as [s p s1 H|s f k s0 s0' s1 p' H1 H2 Hd _ IH]; intros Hs.
  - apply ran_wait. by eapply rtc_r.
  - eapply ran_stmt; eauto.
Qed.
Lemma ran_next s p s1 s2 f k :
  ran s p s1 (Stmt f k) → istep s1 s2 → data s2 = f (data s1) → ran s p s2 (k (data s1)).
Proof.
  remember (Stmt f k) as q eqn:Hq. induction 1 as [s p s1 H|s f0 k0 s0 s0' s1 p' H1 H2 Hd _ IH]; intros Hs Hf; subst.
  - eapply ran_stmt; [done|done|done|]. by apply ran_wait.
  - eapply ran_stmt; eauto.
Qed.

Lemma istep_length s s' : istep s s' → length (requests s) ≤ length (requests s').
Proof. intros []; cbn; rewrite ?length_app, ?length_insert; lia. Qed.
Lemma rtc_length s s' : rtc istep s s' → length (requests s) ≤ length (requests s').
Proof. induction 1 as [|s s1 s2 H%istep_length _ IH]; lia. Qed.

(** Every request that arrives after [s0] has run its program since. *)
Lemma reachable_ran s0 s i c p :
  rtc istep s0 s → length (requests s0) ≤ i → requests s !! i = Some (c, p) → ran s0 (start c) s p.
Proof.
  intros Hr Hle. revert s Hr c p. apply (rtc_ind_r (λ s, ∀ c p, requests s !! i = Some (c, p) → ran s0 (start c) s p)).
  - intros c p Hi%lookup_lt_Some. lia.
  - intros s s' Hr Hs IH c p. pose proof Hs as Hs'. destruct Hs as [c0 s|j c0 f k s Hj]; cbn [requests].
    + intros [Hi|[_ [_ [= <- <-]]%list_lookup_singleton_Some]]%lookup_app_Some.
      * eapply ran_later; [by apply IH|done].
      * apply ran_wait. by eapply rtc_r.
    + destruct (decide (j = i)) as [->|Hne].
      * rewrite list_lookup_insert_eq by by eapply lookup_lt_Some. intros [= <- <-].
        eapply ran_next; [by apply IH|done|done].
      * rewrite list_lookup_insert_ne by done. intros Hi. eapply ran_later; [by apply IH|done].
Qed.

Lemma ran_ret s r s' p : ran s (Ret r) s' p → p = Ret r.
Proof. by inversion 1. Qed.
Lemma ran_query {A} s (q : D → A) k s' p : ran s (bind (query q) k) s' p →
  p = bind (query q) k ∨ ∃ s1, rtc istep s s1 ∧ ran s1 (k (q (data s1))) s' p.
Proof.
  inversion 1 as [|? ? ? s1 s2 ? ? H1 H2 Hd Hk]; subst; [by left|right]. exists s2.
  split; [by eapply rtc_r|]. cbn in Hd, Hk. by rewrite Hd.
Qed.
Lemma ran_effect s (f : D → D) (k : unit → prog D R) s' p : ran s (bind (stmt (λ d, (f d, tt))) k) s' p →
  p = bind (stmt (λ d, (f d, tt))) k
  ∨ ∃ s1 s2, rtc istep s s1 ∧ istep s1 s2 ∧ data s2 = f (data s1) ∧ ran s2 (k tt) s' p.
Proof. inversion 1 as [|? ? ? s1 s2 ? ? H1 H2 Hd Hk]; subst; [by left|right]. cbn in Hd, Hk. by exists s1, s2. Qed.

(** Databases grow along a preorder that every statement follows. *)
Lemma reachable_follows (grows : D → D → Prop) `{!PreOrder grows} d s s' :
  (∀ c, follows grows (start c)) → rtc istep (mkPool d []) s → rtc istep s s' → grows (data s) (data s').
Proof.
  intros Hstart Hr Hs.
  assert (Forall (λ t, follows grows (snd t)) (requests s)) as Hf.
  { clear Hs. revert s Hr. apply (rtc_ind_r (λ s, Forall (λ t, follows grows (snd t)) (requests s))); [done|].
    intros s1 s2 _ [c s0|i c f k s0 Hi] IH; cbn [requests].
    - apply Forall_app. split; [done|]. apply Forall_singleton, Hstart.
    - apply Forall_insert; [done|]. pose proof (Forall_lookup_1 _ _ _ _ IH Hi) as Hk.
      inversion Hk as [|? ? _ Hk']; subst. apply Hk'. }
  clear Hr. revert Hf. induction Hs as [s|s s1 s2 Hst _ IH]; intros Hf; [done|].
  destruct Hst as [c s0|i c f k s0 Hi]; cbn [data requests] in IH.
  - apply IH. apply Forall_app. split; [done|]. apply Forall_singleton, Hstart.
  - pose proof (Forall_lookup_1 _ _ _ _ Hf Hi) as Hk. inversion Hk as [|? ? Hg Hk']; subst.
    etrans; [apply Hg|]. apply IH, Forall_insert; [done|apply Hk'].
Qed.

(** *** Rounds: each request executes one statement *)

Definition effect (d : D) (p : prog D R) : D := match p with Ret _ => d | Stmt f _ => f d end.
Definition next (d : D) (p : prog D R) : prog D R := match p with Ret _ => p | Stmt _ k => k d end.

Lemma advance_middle d pre t ts :
  advance (mkPool d (pre ++ t :: ts)) (length pre) =
  mkPool (effect d (snd t)) ((pre ++ [(fst t, next d (snd t))]) ++ ts).
Proof.
  unfold advance. cbn [requests data]. rewrite list_lookup_middle by done. destruct t as [c [r|f k]]; cbn.
  - by rewrite <- app_assoc.
  - rewrite <- (Nat.add_0_r (length pre)), insert_app_r. cbn. by rewrite <- app_assoc.
Qed.

(** A round in which the requests see databases that satisfy [Q], and do the same next on all
    of those. *)
Lemma round (Q : D → Prop) (q : C * prog D R → prog D R) ts pre d :
  Q d → (∀ t d', t ∈ ts → Q d' → Q (effect d' (snd t)) ∧ next d' (snd t) = q t) →
  let s := foldl advance (mkPool d (pre ++ ts)) (seq (length pre) (length ts)) in
  Q (data s) ∧ requests s = pre ++ ((λ t, (fst t, q t)) <$> ts).
Proof.
  revert pre d. induction ts as [|t ts IH]; intros pre d Hd Ht; cbn [seq length foldl]; [cbn; by rewrite !app_nil_r|].
  rewrite advance_middle. destruct (Ht t d (list_elem_of_here t ts) Hd) as [Hq Hn]. rewrite Hn.
  destruct (IH (pre ++ [(fst t, q t)]) (effect d (snd t)) Hq) as [H1 H2].
  - intros t' d' Hin. apply Ht. by apply list_elem_of_further.
  - rewrite length_app in H1, H2. cbn [length] in H1, H2. rewrite Nat.add_1_r in H1, H2. split; [done|]. rewrite H2. cbn. by rewrite <- app_assoc.
Qed.

(** *** How many requests are at a point *)

Definition count (w : C * prog D R → bool) (ts : list (C * prog D R)) : nat := length (List.filter w ts).

Lemma count_app w ts us : count w (ts ++ us) = count w ts + count w us.
Proof. unfold count. by rewrite List.filter_app, length_app. Qed.
Lemma count_one w t : count w [t] = Nat.b2n (w t).
Proof. unfold count. cbn. by destruct (w t). Qed.
Lemma count_insert w ts i t t' : ts !! i = Some t →
  count w (<[i := t']> ts) + Nat.b2n (w t) = count w ts + Nat.b2n (w t').
Proof.
  intros Hi. rewrite <- (take_drop_middle ts i t Hi) at 2. rewrite (insert_take_drop ts i t') by by eapply lookup_lt_Some.
  rewrite !count_app. change (t :: drop (S i) ts) with ([t] ++ drop (S i) ts).
  change (t' :: drop (S i) ts) with ([t'] ++ drop (S i) ts). rewrite !count_app, !count_one. lia.
Qed.
Lemma count_positive w ts t : t ∈ ts → w t = true → 0 < count w ts.
Proof.
  intros [i Hi]%list_elem_of_lookup_1 Hw. rewrite <- (take_drop_middle ts i t Hi), count_app.
  change (t :: drop (S i) ts) with ([t] ++ drop (S i) ts). rewrite count_app, count_one, Hw. cbn. lia.
Qed.

(** *** Assertions *)

(** [G] describes the database, [A] what a request knows of it at its point. *)
Section Assertions.
Context (G : D → Prop) (A : D → C → prog D R → Prop).
Context (entry : ∀ d c, G d → A d c (start c)).
Context (local : ∀ d c f k, G d → A d c (Stmt f k) → G (f d) ∧ A (f d) c (k d)).
Context (stable : ∀ d c p c' f k, G d → A d c p → A d c' (Stmt f k) → A (f d) c p).

Definition asserted (s : pool) : Prop := G (data s) ∧ ∀ i c p, requests s !! i = Some (c, p) → A (data s) c p.

Lemma asserted_step s s' : istep s s' → asserted s → asserted s'.
Proof using entry local stable.
  intros [c s0|i c f k s0 Hi] [Hg Ha]; split; cbn [data requests].
  - done.
  - intros j c' p [Hj|[_ Hj]]%lookup_app_Some; [by eapply Ha|].
    apply list_lookup_singleton_Some in Hj as [_ [= <- <-]]. by apply entry.
  - by apply (local _ _ _ _ Hg (Ha _ _ _ Hi)).
  - intros j c' p Hj. destruct (decide (i = j)) as [<-|Hne].
    + rewrite list_lookup_insert_eq in Hj by by eapply lookup_lt_Some. injection Hj as <- <-.
      by apply (local _ _ _ _ Hg (Ha _ _ _ Hi)).
    + rewrite list_lookup_insert_ne in Hj by done. eapply stable; eauto.
Qed.
Lemma asserted_reachable s s' : rtc istep s s' → asserted s → asserted s'.
Proof using entry local stable. induction 1; eauto using asserted_step. Qed.

(** A count of requests that follows a measure of the database. *)
Context (w : C * prog D R → bool) (m : D → nat).
Context (entry_count : ∀ c, w (c, start c) = false).
Context (local_count : ∀ d c f k, G d → A d c (Stmt f k) →
  w (c, Stmt f k) = false ∧ m (f d) = m d + Nat.b2n (w (c, k d))).

Lemma count_reachable d s : rtc istep (mkPool d []) s → G d →
  asserted s ∧ m (data s) = m d + count w (requests s).
Proof using entry local stable entry_count local_count.
  intros Hr Hg. revert s Hr. apply rtc_ind_r; [|intros s s' Hr Hs IH].
  - cbn. split; [split; [done|]|]; [|lia]. intros i c p Hi. by destruct i.
  - destruct IH as [Has Hm]. split; [by eapply asserted_step|]. destruct Has as [Hgs Ha].
    destruct Hs as [c s0|i c f k s0 Hi]; cbn [data requests].
    + rewrite count_app, count_one, entry_count. cbn. lia.
    + pose proof (count_insert w _ i _ (c, k (data s0)) Hi) as Hc.
      destruct (local_count (data s0) c f k Hgs (Ha _ _ _ Hi)) as [Hw Hd]. rewrite Hw in Hc. cbn in Hc. lia.
Qed.

End Assertions.

(** *** Histories: what the database holds is explained by the requests that arrived *)

Section Histories.
Context (G : (C → Prop) → D → Prop) (A : D → C → prog D R → Prop).
Context (mono : ∀ H H' d, (∀ c, H c → H' c) → G H d → G H' d).
Context (entry : ∀ d c, A d c (start c)).
Context (local : ∀ H d c f k, G H d → H c → A d c (Stmt f k) → G H (f d) ∧ A (f d) c (k d)).
Context (stable : ∀ d c p c' f k, A d c p → A d c' (Stmt f k) → A (f d) c p).

Lemma history_reachable d s :
  rtc istep (mkPool d []) s → G (λ _, False) d → G (arrived s) (data s).
Proof using mono entry local stable.
  intros Hr Hg. assert (H : G (arrived s) (data s) ∧ Forall (λ t, A (data s) (fst t) (snd t)) (requests s)); [|by destruct H].
  revert s Hr. apply rtc_ind_r; [split; [by apply (mono _ _ _ (λ c (F : False), match F with end) Hg)|done]|]. intros s s' _ [c s0|i c f k s0 Hi] [HG HA].
  - split; [|apply Forall_app; split; [done|by apply Forall_singleton]]. eapply mono; [|done].
    unfold arrived. cbn. intros c'. rewrite fmap_app. set_solver.
  - pose proof (Forall_lookup_1 _ _ _ _ HA Hi) as Hc. cbn in Hc. destruct (local (arrived s0) (data s0) c f k HG) as [HG' Hk]; [|done|].
    { apply list_elem_of_fmap. exists (c, Stmt f k). split; [done|by eapply list_elem_of_lookup_2]. }
    split; cbn [data requests].
    + eapply mono; [|done]. unfold arrived. cbn. intros c'. by rewrite list_fmap_insert, list_insert_id by by rewrite list_lookup_fmap, Hi.
    + apply Forall_insert; [|done]. eapply Forall_impl; [done|]. intros [c' p] Hp. by eapply stable.
Qed.

End Histories.

(** *** Programs that are safe whatever the others do

    All statements change the database only along [grows]; a program is safe when this is so of
    its own statements, and they keep [G], in every database the others may bring about. *)

Section Rely.
Context (grows : D → D → Prop) `{Hpre : !PreOrder grows} (G : (C → Prop) → D → Prop).
Context (mono : ∀ H H' d, (∀ c, H c → H' c) → G H d → G H' d).

Inductive safe (c : C) : D → prog D R → Prop :=
| safe_ret d r : safe c d (Ret r)
| safe_stmt d f k :
    (∀ d', grows d d' → grows d' (f d') ∧ (∀ H : C → Prop, H c → G H d' → G H (f d')) ∧ safe c (f d') (k d')) →
    safe c d (Stmt f k).

Lemma safe_grows c d d' p : grows d d' → safe c d p → safe c d' p.
Proof using Hpre.
  intros Hg Hs. destruct Hs as [d r|d f k Hf]; constructor. intros d2 Hd2. apply Hf. by transitivity d'.
Qed.
Lemma safe_query {A} c d (q : D → A) (k : A → prog D R) : (∀ d', grows d d' → safe c d' (k (q d'))) → safe c d (bind (query q) k).
Proof using Hpre. intros Hk. constructor. intros d' Hd. split_and!; [done|done|]. by apply Hk. Qed.

Lemma safe_reachable d s :
  (∀ c d, safe c d (start c)) → rtc istep (mkPool d []) s → G (λ _, False) d → G (arrived s) (data s).
Proof using Hpre mono.
  intros Hstart. apply (history_reachable G (λ d c p, safe c d p)); [done|done| |].
  - intros H d0 c f k HG Hc Hs. inversion Hs as [|? ? ? Hf]; subst. destruct (Hf d0) as (_ & Hkeep & Hk); [done|]. auto.
  - intros d0 c p c' f k Hp Hs. inversion Hs as [|? ? ? Hf]; subst. destruct (Hf d0) as (Hg & _); [done|]. by eapply safe_grows.
Qed.

End Rely.
End Pool.
Arguments pool D R C : clear implicits.

End Interleave.
