(* ===== verification/CodeExchange.v ===== *)
(** * Exchanging authorization codes at the same time (internal/oidc/handler.go)

    [handleAuthorizationCode] reads the client and the code, marks the code as used and
    stores two tokens, each in a statement of its own and without a transaction.  Here it
    is a program of these statements ([exchange]) that interleaves with other exchanges
    and with every statement the rest of the provider can execute ([Other]); run alone it
    is the handler of [Oidc] ([exchange_alone]), and the other endpoints of [Oidc] are
    sequences of such statements ([event_statements]).

    Reading that a code is unused and marking it are two statements, so exchanges that
    overlap can all be answered with tokens ([overlapping_exchanges]); what holds is that
    an exchange that arrives after one was answered is refused. *)

From S2P Require Import Prelude GoStrings Encoding Sql Sha256 Jwt AuthStore Oidc Interleave.
#[local] Open Scope string_scope.
#[local] Open Scope nat_scope.
#[local] Open Scope list_scope.

Module CodeExchange.
Import GoStrings Oidc.

(** ** The other statements of the provider *)

Inductive statement :=
| SInsert (code : string) (r : code_row)
| SConsume (ok : bool) (code : string)
| SComplete (code user org : string)
| SSave (ok : bool) (id : string) (t : TokenRecord)
| SRevoke (ok : bool) (id : string)
| SDirectory (cs : gmap string OIDCClient) (us : gmap string AuthStore.user_row).   (** clients and users change *)

Definition perform (s : statement) (db : DB) : DB :=
  match s with
  | SInsert c r => if bool_decide (codes db !! c = None) then with_codes db (<[c := r]> (codes db)) else db
  | SConsume b c => ConsumeAuthCode b db c
  | SComplete c u o => with_codes db (alter (set_user u o) c (codes db))
  | SSave b id t => SaveToken b db id t
  | SRevoke b id => RevokeToken b db id
  | SDirectory cs us => mkDB cs (codes db) (tokens db) us
  end.

(** No statement removes a code or makes a used one unused. *)
Lemma perform_keeps s db : Keeps db (perform s db).
Proof.
  destruct s; cbn [perform].
  - case_bool_decide; [by apply Keeps_insert|reflexivity].
  - apply ConsumeAuthCode_Keeps.
  - by apply Keeps_alter.
  - apply SaveToken_Keeps.
  - apply RevokeToken_Keeps.
  - intros c r Hr. by exists r.
Qed.

Section Provider.
Context `{RsaJwt} (issuer : string).

(** ** The handler as a program *)

Definition effect (f : DB → DB) : Interleave.prog DB unit := Interleave.stmt (λ db, (f db, tt)).

(** After the code is consumed: the tokens are issued and stored. *)
Definition issue (e : env) (clientID : string) (ac : AuthCode) : Interleave.prog DB reply :=
  let u := ac_UserID ac in
  let o := ac_OrgID ac in
  let sc := ac_Scopes ac in
  match IssueIDToken issuer (clk e 1) (default [] (rnd e 1)) u clientID sc (org_claim o) with
  | None => Interleave.Ret (Fail 500 "failed to issue id_token")
  | Some idt =>
      match IssueAccessToken issuer (clk e 2) clientID u sc (org_claim o) with
      | None => Interleave.Ret (Fail 500 "failed to issue access_token")
      | Some at_ =>
          match GenerateRefreshToken (rnd e 2) with
          | None => Interleave.Ret (Fail 500 "failed to generate refresh_token")
          | Some rt =>
              Interleave.bind (effect (λ db, SaveToken (ok e 3) db at_ (access_record e 3 clientID u o sc))) (λ _,
              Interleave.bind (effect (λ db, SaveToken (ok e 4) db rt (refresh_record e 4 clientID u o sc))) (λ _,
              Interleave.Ret (Tokens at_ rt idt (Join sc " "))))
          end
      end
  end.

(** With the row of the code: the checks, and the consumption. *)
Definition use_code (e : env) (req : request) (clientID : string) (found : option AuthCode)
  : Interleave.prog DB reply :=
  match found with
  | None => Interleave.Ret (Fail 400 "invalid code")
  | Some ac =>
      if Used ac then Interleave.Ret (Fail 400 "code already used")
      else if (ac_ExpiresAt ac <? clk e 0)%Z then Interleave.Ret (Fail 400 "code expired")
      else if negb (bool_decide (ac_ClientID ac = clientID))
      then Interleave.Ret (Fail 400 "code was not issued to this client")
      else if negb (bool_decide (ac_RedirectURI ac = ""))
              && negb (bool_decide (ac_RedirectURI ac = form req "redirect_uri"))
      then Interleave.Ret (Fail 400 "redirect_uri mismatch")
      else if negb (ValidatePKCE (form req "code_verifier") (CodeChallenge ac) (CodeChallengeMethod ac))
      then Interleave.Ret (Fail 400 "invalid code_verifier")
      else Interleave.bind (effect (λ db, ConsumeAuthCode (ok e 2) db (form req "code"))) (λ _,
           issue e clientID ac)
  end.

(** With the row of the client. *)
Definition use_client (e : env) (req : request) (clientID secret : string) (found : option OIDCClient)
  : Interleave.prog DB reply :=
  match found with
  | None => Interleave.Ret (Fail 401 "invalid client")
  | Some client =>
      if negb (Enabled client) then Interleave.Ret (Fail 401 "invalid client")
      else if bool_decide (ClientType client = "confidential")
              && negb (VerifyClientSecret secret (ClientSecretHash client))
      then Interleave.Ret (Fail 401 "invalid client_secret")
      else Interleave.bind (Interleave.query (λ db, GetAuthCode (ok e 1) db (form req "code")))
             (use_code e req clientID)
  end.

Definition exchange (e : env) (req : request) : Interleave.prog DB reply :=
  let '(clientID, secret) := client_credentials req in
  if bool_decide (form req "code" = "") || bool_decide (clientID = "")
  then Interleave.Ret (Fail 400 "missing code or client_id")
  else Interleave.bind (Interleave.query (λ db, GetOIDCClient (ok e 0) db clientID))
         (use_client e req clientID secret).

(** The program run alone is the handler. *)
Lemma issue_alone e cid ac db c :
  Interleave.exec (issue e cid ac) (ConsumeAuthCode (ok e 2) db c) = issue_for_code issuer e db c cid ac.
Proof. unfold issue, issue_for_code, mint. by repeat case_match. Qed.
Lemma exchange_alone e req db :
  Interleave.exec (exchange e req) db = handleAuthorizationCode issuer e db req.
Proof.
  unfold exchange, handleAuthorizationCode, check_code. destruct (client_credentials req) as [cid secret].
  case_match; [done|]. rewrite Interleave.exec_bind. cbn. unfold use_client.
  destruct (GetOIDCClient _ db cid) as [cl|]; [|done]. case_match; [done|]. case_match; [done|].
  rewrite Interleave.exec_bind. cbn. unfold use_code. destruct (GetAuthCode _ db _) as [ac|]; [|done].
  do 5 (case_match; [done|]). rewrite Interleave.exec_bind. cbn. apply issue_alone.
Qed.

(** ** Requests *)

Inductive call :=
| Exchange (e : env) (req : request)
| Other (s : statement).

Definition serve (c : call) : Interleave.prog DB reply :=
  match c with
  | Exchange e req => exchange e req
  | Other s => Interleave.bind (effect (perform s)) (λ _, Interleave.Ret Empty)
  end.

Lemma serve_follows c : Interleave.follows Keeps (serve c).
Proof.
  assert (∀ f, (∀ db, Keeps db (f db)) → Interleave.follows Keeps (effect f)) as He.
  { intros f Hf. by apply Interleave.follows_one. }
  destruct c as [e req|s]; cbn [serve].
  - unfold exchange, use_client, use_code, issue. destruct (client_credentials req).
    repeat first [apply Interleave.follows_ret | apply Interleave.follows_query; apply _
                 | apply Interleave.follows_bind; [|intros ?] | apply He; intros ? | case_match].
    all: eauto using SaveToken_Keeps, ConsumeAuthCode_Keeps.
  - apply Interleave.follows_bind; [apply He; intros db; apply perform_keeps|]. intros _. constructor.
Qed.

Abbreviation step := (Interleave.istep serve).
Abbreviation pool := (Interleave.pool DB reply call).

Lemma later_keeps db (s s' : pool) : rtc step (Interleave.mkPool db []) s → rtc step s s' →
  Keeps (Interleave.data s) (Interleave.data s').
Proof. apply Interleave.reachable_follows; [apply _|apply serve_follows]. Qed.

(** ** What an exchange must have seen *)

(** The PKCE verifier belongs to the challenge of the code, if it has one (RFC 7636). *)
Definition verifies (verifier challenge method : string) : Prop :=
  challenge = ""
  ∨ (method = "S256" ∧ Base64.encode_raw true (Sha256.sha256 (of_string verifier)) = challenge)
  ∨ (method = "plain" ∧ verifier = challenge).

(** The client that may exchange a code: registered and enabled, and if it is confidential
    its stored hash is the placeholder, whatever the secret it presents. *)
Definition accepted_client (db : DB) (req : request) : Prop :=
  ∃ cl, clients db !! (client_credentials req).1 = Some cl ∧ Enabled cl = true
    ∧ (ClientType cl = "confidential" → ClientSecretHash cl = "$2a$12$placeholder_hash").

(** The code it may exchange: unused, unexpired, its own, with its redirect URI and
    verifier. *)
Definition usable_code (db : DB) (e : env) (req : request) (r : code_row) : Prop :=
  codes db !! form req "code" = Some r ∧ r_used r = false ∧ (clk e 0 ≤ r_expires r)%Z
  ∧ r_client r = (client_credentials req).1
  ∧ (r_redirect r = "" ∨ r_redirect r = form req "redirect_uri")
  ∧ verifies (form req "code_verifier") (default "" (r_challenge r)) (default "S256" (r_method r)).

Definition marked (db : DB) (code : string) : Prop := ∃ r, codes db !! code = Some r ∧ r_used r = true.

Lemma marked_later db db' c : Keeps db db' → marked db c → marked db' c.
Proof. intros Hk (r & Hr & Hu). destruct (Hk c r Hr) as (r' & Hr' & Hu'). exists r'. auto. Qed.

Lemma ValidatePKCE_verifies v c m : ValidatePKCE v c m = true → verifies v c m.
Proof.
  unfold ValidatePKCE, verifies. case_bool_decide; [auto|]. case_bool_decide; [rewrite bool_decide_eq_true; auto|].
  case_bool_decide; [rewrite bool_decide_eq_true; auto|done].
Qed.

Lemma use_code_cases e req cid found :
  (∃ st m, use_code e req cid found = Interleave.Ret (Fail st m))
  ∨ ∃ ac, found = Some ac ∧ Used ac = false ∧ (clk e 0 ≤ ac_ExpiresAt ac)%Z ∧ ac_ClientID ac = cid
      ∧ (ac_RedirectURI ac = "" ∨ ac_RedirectURI ac = form req "redirect_uri")
      ∧ verifies (form req "code_verifier") (CodeChallenge ac) (CodeChallengeMethod ac)
      ∧ use_code e req cid found
        = Interleave.bind (effect (λ db, ConsumeAuthCode (ok e 2) db (form req "code"))) (λ _, issue e cid ac).
Proof.
  destruct found as [ac|]; cbn [use_code]; [|by left; eauto].
  destruct (Used ac) eqn:Hu; [by left; eauto|]. destruct (Z.ltb_spec (ac_ExpiresAt ac) (clk e 0)); [by left; eauto|].
  case_bool_decide; cbn [negb]; [|by left; eauto].
  destruct (negb (bool_decide (ac_RedirectURI ac = "")) && _) eqn:Hr; [by left; eauto|].
  destruct (ValidatePKCE _ _ _) eqn:HP; cbn [negb]; [|by left; eauto]. right. exists ac.
  split_and!; try done; [|by apply ValidatePKCE_verifies].
  revert Hr. case_bool_decide; [auto|]. case_bool_decide; [auto|done].
Qed.

Lemma use_client_cases e req cid secret found :
  (∃ st m, use_client e req cid secret found = Interleave.Ret (Fail st m))
  ∨ ∃ cl, found = Some cl ∧ Enabled cl = true
      ∧ (ClientType cl = "confidential" → ClientSecretHash cl = "$2a$12$placeholder_hash")
      ∧ use_client e req cid secret found
        = Interleave.bind (Interleave.query (λ db, GetAuthCode (ok e 1) db (form req "code"))) (use_code e req cid).
Proof.
  destruct found as [cl|]; cbn [use_client]; [|by left; eauto].
  destruct (Enabled cl) eqn:He; cbn [negb]; [|by left; eauto].
  destruct (bool_decide (ClientType cl = "confidential") && _) eqn:Hs; [by left; eauto|]. right. exists cl.
  split_and!; try done. intros Hc. rewrite bool_decide_true in Hs by done. unfold VerifyClientSecret in Hs.
  by destruct (bool_decide_reflect (ClientSecretHash cl = "$2a$12$placeholder_hash")).
Qed.

Lemma GetAuthCode_usable b db e req ac cid :
  GetAuthCode b db (form req "code") = Some ac → cid = (client_credentials req).1 →
  Used ac = false → (clk e 0 ≤ ac_ExpiresAt ac)%Z → ac_ClientID ac = cid →
  (ac_RedirectURI ac = "" ∨ ac_RedirectURI ac = form req "redirect_uri") →
  verifies (form req "code_verifier") (CodeChallenge ac) (CodeChallengeMethod ac) →
  ∃ r, usable_code db e req r ∧ r_user r = ac_UserID ac.
Proof.
  unfold GetAuthCode. destruct b; [|done]. cbn. destruct (codes db !! form req "code") as [r|] eqn:Hr; [|done].
  intros [= <-] ->. cbn. intros. exists r. by split_and!.
Qed.

(** An exchange that is refused, or that will not change anything with its next
    statement. *)
Definition refused (p : Interleave.prog DB reply) : Prop :=
  match p with
  | Interleave.Ret r => ∃ st m, r = Fail st m
  | Interleave.Stmt f _ => ∀ db, f db = db
  end.

(** How far an exchange can have come: it was refused or has only read so far, or it has
    read a client and a code it may exchange. *)
Lemma exchange_ran e req (s s' : pool) p :
  Interleave.ran serve s (exchange e req) s' p →
  refused p
  ∨ ∃ s1 s2 r, rtc step s s1 ∧ rtc step s1 s2 ∧ rtc step s2 s'
      ∧ accepted_client (Interleave.data s1) req ∧ usable_code (Interleave.data s2) e req r
      ∧ ((∃ f k, p = Interleave.Stmt f k)
         ∨ ∃ s3 s4 ac, rtc step s2 s3 ∧ step s3 s4 ∧ rtc step s4 s' ∧ r_user r = ac_UserID ac
             ∧ Interleave.data s4 = ConsumeAuthCode (ok e 2) (Interleave.data s3) (form req "code")
             ∧ Interleave.ran serve s4 (issue e (client_credentials req).1 ac) s' p).
Proof.
  unfold exchange. destruct (client_credentials req) as [cid secret] eqn:Hcid.
  case_match; [intros ->%Interleave.ran_ret; left; cbn; by eauto|].
  intros [->|(s1 & Hs1 & Hr)]%Interleave.ran_query; [by left|].
  destruct (use_client_cases e req cid secret (GetOIDCClient (ok e 0) (Interleave.data s1) cid))
    as [(st & m & Hp)|(cl & Hcl & He & Hh & Hp)]; rewrite Hp in Hr;
    [apply Interleave.ran_ret in Hr as ->; left; cbn; by eauto|].
  apply Interleave.ran_query in Hr as [->|(s2 & Hs2 & Hr)]; [by left|].
  destruct (use_code_cases e req cid (GetAuthCode (ok e 1) (Interleave.data s2) (form req "code")))
    as [(st & m & Hp2)|(ac & Hac & H1 & H2 & H3 & H4 & H5 & Hp2)]; rewrite Hp2 in Hr;
    [apply Interleave.ran_ret in Hr as ->; left; cbn; by eauto|].
  destruct (GetAuthCode_usable _ _ e _ _ cid Hac) as (r & Hus & Hru); [by rewrite Hcid|done..|].
  right. exists s1, s2, r. pose proof (Interleave.ran_rtc _ _ _ _ _ Hr) as Hs'. split_and!; [done..| |exact Hus|].
  { exists cl. rewrite Hcid. unfold GetOIDCClient in Hcl. destruct (ok e 0); [by split_and!|done]. }
  apply Interleave.ran_effect in Hr as [->|(s3 & s4 & Hs3 & Hst & Hd & Hr)]; [left; by do 2 eexists|right].
  exists s3, s4, ac. split_and!; [done..|by eapply Interleave.ran_rtc|done|done|done].
Qed.

(** The tokens that are issued carry the user of the code. *)
Lemma issue_ran e cid ac (s s' : pool) at_ rt idt sc :
  Interleave.ran serve s (issue e cid ac) s' (Interleave.Ret (Tokens at_ rt idt sc)) →
  ∃ ca ci, rs_sign ca = Some at_ ∧ rs_sign ci = Some idt
    ∧ ca !! "sub" = Some (Jwt.CString (ac_UserID ac)) ∧ ci !! "sub" = Some (Jwt.CString (ac_UserID ac)).
Proof.
  unfold issue. destruct (IssueIDToken _ _ _ _ _ _ _) as [i|] eqn:Hi; [|by intros ?%Interleave.ran_ret].
  destruct (IssueAccessToken _ _ _ _ _ _) as [a|] eqn:Ha; [|by intros ?%Interleave.ran_ret].
  destruct (GenerateRefreshToken _) as [r|]; [|by intros ?%Interleave.ran_ret].
  intros [?|(s1 & s2 & _ & _ & _ & Hr)]%Interleave.ran_effect; [done|].
  apply Interleave.ran_effect in Hr as [?|(s3 & s4 & _ & _ & _ & Hr)]; [done|].
  apply Interleave.ran_ret in Hr as [= -> -> -> ->].
  destruct (issued_sub issuer (clk e 1) (clk e 2) (default [] (rnd e 1)) cid (ac_UserID ac) (ac_Scopes ac) (ac_OrgID ac)).
  by eexists _, _.
Qed.

(** C15: Exchanging an authorization code is sound, and a code that was exchanged is not
    accepted again.  Whatever exchanges and other statements of the provider run at the
    same time: a token request that is answered with tokens read, at one moment since it
    arrived, an enabled client (a confidential one is accepted when its stored hash is the
    placeholder; the secret it presents is not compared) and, later, an unused, unexpired
    code issued to that client, with the redirect URI of the code and the PKCE verifier of
    its challenge; the tokens are for the user of that code.  When its statement that
    marks the code went through, the code is marked, and every exchange of this code that
    arrives from then on is refused and changes nothing, however it interleaves.
    (Exchanges that were under way may all be answered: [overlapping_exchanges].) *)
Theorem code_single_use db (s : pool) i e req at_ rt idt sc :
  rtc step (Interleave.mkPool db []) s →
  Interleave.requests s !! i = Some (Exchange e req, Interleave.Ret (Tokens at_ rt idt sc)) →
  (∃ s1 s2 r ca ci, rtc step (Interleave.mkPool db []) s1 ∧ rtc step s1 s2 ∧ rtc step s2 s
     ∧ accepted_client (Interleave.data s1) req ∧ usable_code (Interleave.data s2) e req r
     ∧ rs_sign ca = Some at_ ∧ ca !! "sub" = Some (Jwt.CString (r_user r))
     ∧ rs_sign ci = Some idt ∧ ci !! "sub" = Some (Jwt.CString (r_user r)))
  ∧ (ok e 2 = true →
     marked (Interleave.data s) (form req "code")
     ∧ ∀ s' j e' req' p, rtc step s s' → length (Interleave.requests s) ≤ j →
         Interleave.requests s' !! j = Some (Exchange e' req', p) → form req' "code" = form req "code" →
         refused p).
Proof.
  intros Hr Hi. pose proof (Interleave.reachable_ran _ _ _ _ _ _ Hr (Nat.le_0_l i) Hi) as Hran.
  destruct (exchange_ran _ _ _ _ _ Hran) as [(st & m & ?)|(s1 & s2 & r & Hs1 & Hs2 & Hs & Hcl & Hus & Hp)]; [done|].
  destruct Hp as [(f & k & ?)|(s3 & s4 & ac & Hs3 & Hst & Hs4 & Hru & Hd & Hiss)]; [done|].
  split.
  { apply issue_ran in Hiss as (ca & ci & ? & ? & ? & ?). exists s1, s2, r, ca, ci. by rewrite Hru. }
  intros Hok.
  assert (rtc step (Interleave.mkPool db []) s2) as Hr2 by by etrans.
  assert (marked (Interleave.data s) (form req "code")) as Hm.
  { apply (marked_later (Interleave.data s4)).
    - eapply later_keeps; [|done]. etrans; [exact Hr2|]. etrans; [exact Hs3|]. by apply rtc_once.
    - destruct (later_keeps db s2 s3 Hr2 Hs3 _ _ (proj1 Hus)) as (r' & Hr' & _).
      exists (set_used r'). rewrite Hd, Hok. cbn. by rewrite lookup_alter_eq, Hr'. }
  split; [done|]. intros s' j e' req' p Hs' Hj Hp Hc.
  pose proof (Interleave.reachable_ran _ _ _ _ _ _ Hs' Hj Hp) as Hran'.
  destruct (exchange_ran _ _ _ _ _ Hran') as [?|(t1 & t2 & r' & Ht1 & Ht2 & _ & _ & (Hrow & Hu & _) & _)]; [done|exfalso].
  rewrite Hc in Hrow. assert (rtc step s t2) as Ht by by etrans.
  destruct (marked_later _ _ _ (later_keeps db s t2 Hr Ht) Hm) as (r2 & Hr2' & Hu2). congruence.
Qed.

(** ** The endpoints are made of these statements *)

Lemma writes_statements P db db' : writes P db db' → ∃ l, db' = foldl (λ d s, perform s d) db l.
Proof.
  assert (∀ l s db0, perform s (foldl (λ d s, perform s d) db0 l) = foldl (λ d s, perform s d) db0 (l ++ [s])) as Hl.
  { intros l st db0. by rewrite foldl_app. }
  induction 1 as [|db' c r _ [l ->] Hn _|db' b c _ [l ->]|db' c u o _ [l ->] _|db' b id t _ [l ->] _|db' b id _ [l ->]].
  - by exists [].
  - exists (l ++ [SInsert c r]). rewrite <- Hl. cbn. by rewrite bool_decide_true.
  - by exists (l ++ [SConsume b c]); rewrite <- Hl.
  - by exists (l ++ [SComplete c u o]); rewrite <- Hl.
  - by exists (l ++ [SSave b id t]); rewrite <- Hl.
  - by exists (l ++ [SRevoke b id]); rewrite <- Hl.
Qed.

(** What a request of any endpoint does to the tables is done by a sequence of the
    statements exchanges are interleaved with. *)
Theorem event_statements compare ro unmarshal db ev :
  ∃ l, next compare ro issuer unmarshal db ev = foldl (λ d s, perform s d) db l.
Proof.
  destruct (next_writes compare ro issuer unmarshal (λ _, True) db ev) as (cs & us & Hw); [done|by split; intros ? ? ?|done|].
  destruct (writes_statements _ _ _ Hw) as [l Hl]. exists (SDirectory cs us :: l). exact Hl.
Qed.

End Provider.

(** ** Exchanges that overlap *)

#[local] Existing Instance Oidc.toy_rsa.
Abbreviation requests_pool := (Interleave.pool DB reply call).
Definition demo_exchange_call : call := Exchange demo_env demo_exchange.
Definition demo_pool (cs : list call) (l : list nat) : requests_pool := Interleave.schedule (serve "https://idp") demo_db1 cs l.
Definition granted (p : call * Interleave.prog DB reply) : bool :=
  match snd p with Interleave.Ret (Tokens _ _ _ _) => true | _ => false end.

(** Two exchanges of one code that both read it before it is marked are both answered with
    tokens. *)
Example overlapping_exchanges :
  forallb granted (Interleave.requests (demo_pool [demo_exchange_call; demo_exchange_call] [0; 1; 0; 1; 0; 1; 0; 1; 0; 1])) = true.
Proof. vm_compute. reflexivity. Qed.

(** One exchange from end to end, then another. *)
Definition demo_first : requests_pool := demo_pool [demo_exchange_call] [0; 0; 0; 0; 0].
Definition demo_second : requests_pool :=
  foldl Interleave.advance
    (Interleave.mkPool (Interleave.data demo_first)
       (Interleave.requests demo_first ++ [(demo_exchange_call, serve "https://idp" demo_exchange_call)])) [1; 1].

Lemma code_single_use_witness :
  marked (Interleave.data demo_first) demo_code
  ∧ ∃ p, Interleave.requests demo_second !! 1 = Some (demo_exchange_call, p) ∧ refused p.
Proof.
  destruct (Interleave.requests demo_first !! 0) as [[c p]|] eqn:E; [|vm_compute in E; discriminate E].
  assert (Hg : forallb granted (Interleave.requests demo_first) = true) by (vm_compute; reflexivity).
  assert (Hc : c = demo_exchange_call) by (unfold demo_first, demo_pool in E; vm_compute in E; injection E as <- _; reflexivity).
  subst c.
  assert (∃ a r i sc, p = Interleave.Ret (Tokens a r i sc)) as (a & r & i & sc & ->).
  { destruct p as [[]|]; vm_compute in E; try discriminate E. by do 4 eexists. }
  destruct (code_single_use "https://idp" demo_db1 demo_first 0 demo_env demo_exchange a r i sc) as [_ HH].
  - apply Interleave.schedule_reachable.
  - exact E.
  - destruct (HH eq_refl) as [Hm Hl]. split; [exact Hm|].
    destruct (Interleave.requests demo_second !! 1) as [[c p]|] eqn:E2; [|vm_compute in E2; discriminate E2].
    assert (c = demo_exchange_call) as -> by (vm_compute in E2; injection E2 as <- _; reflexivity).
    exists p. split; [done|].
    apply (Hl demo_second 1 demo_env demo_exchange p).
    + eapply rtc_l; [apply (Interleave.arrive _ demo_exchange_call demo_first)|]. apply Interleave.rtc_advance.
    + vm_compute. lia.
    + exact E2.
    + reflexivity.
Defined.

End CodeExchange.
