(* ===== verification/DeviceCa.v ===== *)
(** * Certificate authorities for devices

    [src/internal/security/stepca_device.go] and [src/internal/security/aws_private_ca.go]: the
    two implementations of [DeviceCertificateIssuer].  Both check the certificate request of a
    device against the device and the tenant it is made for; the one then presents a one-time
    token to a step-ca, the other asks AWS Private CA and polls for the certificate.  The
    step-ca also mints the enrolment tokens of [EnrolSecrets].

    [CertTools] is what the code uses of [encoding/pem] and [crypto/x509]; [Jose] what it uses
    of the key and token libraries; the answers of the two services are in [ca_env] and
    [aws_env]. *)

From S2P Require Import Prelude GoStrings GoTime Encoding JsonValue Sha256.
From S2P Require Import Jwt AuthStore Access Devices AgentAuth.
From Stdlib Require Import Ascii.
#[local] Open Scope string_scope.
#[local] Open Scope nat_scope.
#[local] Open Scope list_scope.

Module DeviceCa.
Import GoStrings GoTime JsonValue.

(** ** Libraries *)

Record csr := mkCsr { SignatureValid : bool; CommonName : string; Organization : list string }.
Record cert := mkCert { Raw : bytes; SerialNumber : string; SubjectText : string; NotAfter : Z }.

Class CertTools := {
  pem_decode : string → option (string * bytes);
  parse_csr : bytes → option csr;
  parse_cert : bytes → option cert;
}.
(** [open_jwk] parses an encrypted key, decrypts it with a password and gives the EC key, if it
    is one, with its id; [sign_es256] makes a token of a key, its id and the claims. *)
Class Jose := {
  ec_key : Type;
  open_jwk : string → string → option (option ec_key * string);
  sign_es256 : ec_key → string → list (string * json) → option string;
}.

Inductive ca_error :=
| CsrRequired
| CsrInvalid
| CsrName
| CsrOrganization
| CaFailed (msg : string).
Definition Error (e : ca_error) : string :=
  match e with
  | CsrRequired => "a PEM-encoded certificate signing request is required"
  | CsrInvalid => "certificate signing request is invalid"
  | CsrName => "certificate signing request common name must match device_id"
  | CsrOrganization => "certificate signing request organization must match tenant_id"
  | CaFailed msg => msg
  end.
Definition IsDeviceCSRValidationError (e : ca_error) : bool :=
  bool_decide (Error e ∈ Error <$> [CsrRequired; CsrInvalid; CsrName; CsrOrganization]).

Section Ca.
Context `{CertTools}.

Definition decodeCertificateRequest (csrPEM : string) : option (string * bytes) :=
  match pem_decode csrPEM with
  | Some (ty, b) =>
      if bool_decide (ty = "CERTIFICATE REQUEST") || bool_decide (ty = "NEW CERTIFICATE REQUEST") then Some (ty, b) else None
  | None => None
  end.
Definition containsString (values : list string) (expected : string) : bool := existsb (λ v, bool_decide (v = expected)) values.
Definition certificateFingerprint (raw : bytes) : string := Hex.encode (Sha256.sha256 raw).

(** The checks with which both implementations begin. *)
Definition check_request (csrPEM orgID deviceID : string) : result ca_error csr :=
  match decodeCertificateRequest csrPEM with
  | None => Err CsrRequired
  | Some (_, b) =>
      match parse_csr b with
      | None => Err CsrInvalid
      | Some r =>
          if negb (SignatureValid r) then Err CsrInvalid
          else if bool_decide (TrimSpace deviceID = "") || negb (bool_decide (CommonName r = deviceID)) then Err CsrName
          else if bool_decide (TrimSpace orgID = "") || negb (containsString (Organization r) orgID) then Err CsrOrganization
          else Ok r
      end
  end.
Definition clamp_days (validDays : Z) : Z :=
  let d := if (validDays <=? 0)%Z then 365%Z else validDays in if (397 <? d)%Z then 397%Z else d.

(** The issued leaf, from the text a service returned. *)
Definition issued_of (certPEM chainPEM invalid : string) : result ca_error AgentAuth.AgentAuth.issuedCertificate :=
  match pem_decode certPEM with
  | None => Err (CaFailed invalid)
  | Some (_, b) =>
      match parse_cert b with
      | None => Err (CaFailed "parse issued certificate")
      | Some c => Ok (AgentAuth.AgentAuth.mkIssued (SubjectText c) (SerialNumber c) (certificateFingerprint (Raw c)) (NotAfter c)
                        certPEM chainPEM)
      end
  end.

(** ** step-ca *)

Record StepCADeviceCA := mkCA { caURL : string; provisioner : string; fingerprint : string; password : string }.

(** [GET caURL/roots.pem], unverified: [None] when it fails. *)
Definition fetchAndPinRoot (roots : string → option string) (caURL fingerprint : string) : result string cert :=
  match roots (caURL +:+ "/roots.pem") with
  | None => Err "fetch device CA root"
  | Some body =>
      match pem_decode body with
      | None => Err "device CA /roots.pem returned no certificate"
      | Some (_, b) =>
          match parse_cert b with
          | None => Err "parse device CA root"
          | Some root =>
              if bool_decide (certificateFingerprint (Raw root) = fingerprint) then Ok root
              else Err "device CA root fingerprint mismatch"
          end
      end
  end.

(** The configured authority and the root its connections trust. *)
Definition NewStepCADeviceCA (Getenv : string → string) (roots : string → option string)
  : result string (StepCADeviceCA * cert) :=
  let caURL := TrimRight (TrimSpace (Getenv "DEVICE_STEPCA_URL")) in
  if bool_decide (caURL = "") then Err "DEVICE_STEPCA_URL is not configured"
  else
    let fp := ToLower (TrimSpace (Getenv "DEVICE_STEPCA_FINGERPRINT")) in
    if bool_decide (fp = "") then Err "DEVICE_STEPCA_FINGERPRINT is not configured"
    else
      let p := TrimSpace (Getenv "DEVICE_STEPCA_PROVISIONER") in
      let provisioner := if bool_decide (p = "") then "portal" else p in
      let password := TrimSpace (Getenv "PORTAL_DEVICE_JWK_PASSWORD") in
      if bool_decide (password = "") then Err "PORTAL_DEVICE_JWK_PASSWORD is not configured"
      else
        match fetchAndPinRoot roots caURL fp with
        | Err msg => Err msg
        | Ok root => Ok (mkCA caURL provisioner fp password, root)
        end.

(** One request: the answers of the authority, the time and the token id ([rand.Read]'s
    error is ignored). *)
Record ca_env := mkCaEnv {
  get_json : string → option json;
  post_sign : string → string → string → option (Z * option json);
  ca_now : nat → Z;
  jti : bytes;
}.

Section StepCa.
Context `{Jose}.

Record listed := mkListed { l_type : string; l_name : string; l_key : string }.
Definition decode_listed (j : json) : option listed :=
  decode_fields (λ name v r,
    if bool_decide (name = "type") then (λ s, mkListed s (l_name r) (l_key r)) <$> decode_string (l_type r) v
    else if bool_decide (name = "name") then (λ s, mkListed (l_type r) s (l_key r)) <$> decode_string (l_name r) v
    else if bool_decide (name = "encryptedkey") then (λ s, mkListed (l_type r) (l_name r) s) <$> decode_string (l_key r) v
    else Some r) (mkListed "" "" "") j.
Definition decode_provisioners (j : json) : option (list listed) :=
  decode_fields (λ name v r, if bool_decide (name = "provisioners") then decode_list decode_listed v else Some r) [] j.

Definition provisionerKey (s : StepCADeviceCA) (e : ca_env) : result ca_error (ec_key * string) :=
  match get_json e (caURL s +:+ "/provisioners?limit=100") ≫= decode_provisioners with
  | None => Err (CaFailed "decode provisioners")
  | Some l =>
      let enc := default "" (l_key <$> find (λ p, bool_decide (l_name p = provisioner s) && EqualFold (l_type p) "JWK") l) in
      if bool_decide (enc = "") then Err (CaFailed "JWK provisioner not found on the device CA")
      else
        match open_jwk enc (password s) with
        | None => Err (CaFailed "decrypt provisioner key")
        | Some (None, _) => Err (CaFailed "provisioner key is not an EC private key")
        | Some (Some k, kid) => Ok (k, kid)
        end
  end.

Definition unix (t : Z) : Z := (t / second)%Z.
Definition five_minutes : Z := (300 * second)%Z.
Definition number (n : Z) : json := JNumber n 1.
Definition ott_claims (s : StepCADeviceCA) (now : Z) (id : bytes) (deviceID : string) : list (string * json) :=
  [("iss", JString (provisioner s)); ("sub", JString deviceID); ("aud", JString (caURL s +:+ "/1.0/sign"));
   ("iat", number (unix now)); ("nbf", number (unix now)); ("exp", number (unix (now + five_minutes)));
   ("jti", JString (Hex.encode id)); ("sha", JString (fingerprint s)); ("sans", JArray [JString deviceID])].
Definition mintToken (s : StepCADeviceCA) (e : ca_env) (deviceID : string) : result ca_error string :=
  match provisionerKey s e with
  | Err err => Err err
  | Ok (k, kid) =>
      match sign_es256 k kid (ott_claims s (ca_now e 0) (jti e) deviceID) with
      | None => Err (CaFailed "sign provisioner token")
      | Some t => Ok t
      end
  end.

Record EnrolToken := mkEnrolToken {
  Token : string;
  CAURL : string;
  Fingerprint : string;
  Provisioner : string;
  Subject : string;
  ExpiresAt : Z;
}.
Definition MintEnrolToken (s : StepCADeviceCA) (e : ca_env) (subject : string) : result ca_error EnrolToken :=
  let subject := TrimSpace subject in
  if bool_decide (subject = "") then Err (CaFailed "subject (device id) is required")
  else
    match mintToken s e subject with
    | Err err => Err err
    | Ok t => Ok (mkEnrolToken t (caURL s) (fingerprint s) (provisioner s) subject (ca_now e 1 + five_minutes)%Z)
    end.

Definition decode_signed (j : json) : option (string * string) :=
  decode_fields (λ name v r,
    if bool_decide (name = "crt") then (λ x, (x, snd r)) <$> decode_string (fst r) v
    else if bool_decide (name = "ca") then (λ x, (fst r, x)) <$> decode_string (snd r) v
    else Some r) ("", "") j.
Definition sign (s : StepCADeviceCA) (e : ca_env) (csrPEM ott : string) : result ca_error (string * string) :=
  match post_sign e (caURL s +:+ "/1.0/sign") csrPEM ott with
  | None => Err (CaFailed "device step-ca sign")
  | Some (status, body) =>
      if negb (bool_decide (status = 201%Z)) && negb (bool_decide (status = 200%Z)) then Err (CaFailed "device step-ca sign failed")
      else
        match body ≫= decode_signed with
        | None => Err (CaFailed "decode sign response")
        | Some (crt, ca) =>
            if bool_decide (crt = "") then Err (CaFailed "device step-ca returned an empty certificate") else Ok (crt, ca)
        end
  end.

(** [validDays] is clamped and then not used: the authority decides how long. *)
Definition step_IssueDeviceCertificate (s : StepCADeviceCA) (e : ca_env) (csrPEM orgID deviceID : string) (validDays : Z)
  : result ca_error AgentAuth.AgentAuth.issuedCertificate :=
  match check_request csrPEM orgID deviceID with
  | Err err => Err err
  | Ok _ =>
      match mintToken s e deviceID with
      | Err err => Err err
      | Ok ott =>
          match sign s e csrPEM ott with
          | Err err => Err err
          | Ok (crt, chain) => issued_of crt chain "device step-ca returned an invalid certificate"
          end
      end
  end.

End StepCa.

(** ** AWS Private CA *)

Record AWSPrivateCA := mkAws { caARN : string; templateARN : string; algorithm : string }.
(** [config_ok]: the SDK finds its configuration. *)
Definition NewAWSPrivateCA (Getenv : string → string) (config_ok : bool) : result string AWSPrivateCA :=
  let arn := TrimSpace (Getenv "DEVICE_CERTIFICATE_AUTHORITY_ARN") in
  if bool_decide (arn = "") then Err "DEVICE_CERTIFICATE_AUTHORITY_ARN is not configured"
  else if negb config_ok then Err "load AWS config"
  else
    let alg := if EqualFold (Getenv "DEVICE_CERTIFICATE_SIGNING_ALGORITHM") "SHA256WITHECDSA"
               then "SHA256WITHECDSA" else "SHA256WITHRSA" in
    let t := TrimSpace (Getenv "DEVICE_CERTIFICATE_TEMPLATE_ARN") in
    Ok (mkAws arn (if bool_decide (t = "") then "arn:aws:acm-pca:::template/EndEntityClientAuthCertificate/V1" else t) alg).

Record IssueCertificateInput := mkInput {
  in_ca : string;
  in_csr : string;
  in_algorithm : string;
  in_template : string;
  in_days : Z;
}.
(** The answers of the service: [issue] gives the ARN of the certificate to come, [poll i] the
    i-th question for it ([None] an error, [Some (None, _)] without certificate), [cancelled i]
    whether the request ended before the pause after it. *)
Record aws_env := mkAwsEnv {
  issue : IssueCertificateInput → option string;
  poll : string → string → nat → option (option string * option string);
  cancelled : nat → bool;
}.

(** [n] attempts from the one with number [i]. *)
Fixpoint await (ask : nat → option (option string * option string)) (cancelled : nat → bool) (n i : nat)
  : result ca_error (string * string) :=
  match n with
  | O => Err (CaFailed "AWS Private CA certificate was not ready before timeout")
  | S n =>
      match ask i with
      | Some (Some crt, chain) => Ok (crt, default "" chain)
      | _ => if cancelled i then Err (CaFailed "context canceled") else await ask cancelled n (S i)
      end
  end.
Definition attempts : nat := 20.

Definition aws_IssueDeviceCertificate (s : AWSPrivateCA) (e : aws_env) (csrPEM orgID deviceID : string) (validDays : Z)
  : result ca_error AgentAuth.AgentAuth.issuedCertificate :=
  match check_request csrPEM orgID deviceID with
  | Err err => Err err
  | Ok _ =>
      match issue e (mkInput (caARN s) csrPEM (algorithm s) (templateARN s) (clamp_days validDays)) with
      | None => Err (CaFailed "issue AWS Private CA certificate")
      | Some arn =>
          match await (poll e (caARN s) arn) (cancelled e) attempts 0 with
          | Err err => Err err
          | Ok (crt, chain) => issued_of crt chain "AWS Private CA returned an invalid certificate"
          end
      end
  end.

(** ** The interface of the portal *)

Definition as_issuer (f : string → string → string → Z → result ca_error AgentAuth.AgentAuth.issuedCertificate) : AgentAuth.AgentAuth.issuer :=
  λ csrPEM orgID deviceID validDays,
    match f csrPEM orgID deviceID validDays with
    | Ok c => Ok c
    | Err err => Err (IsDeviceCSRValidationError err, Error err)
    end.

End Ca.

(** ** What the authorities guarantee *)

Section Proofs.
Context `{CertTools, Jose}.

(** The two implementations of the interface, with the answers of their service. *)
Inductive backend :=
| StepCa (s : StepCADeviceCA) (e : ca_env)
| AwsCa (s : AWSPrivateCA) (e : aws_env).
Definition IssueDeviceCertificate (b : backend) : string → string → string → Z → result ca_error AgentAuth.AgentAuth.issuedCertificate :=
  match b with
  | StepCa s e => step_IssueDeviceCertificate s e
  | AwsCa s e => aws_IssueDeviceCertificate s e
  end.

(** A certificate request that is signed and names the device and the tenant. *)
Definition requested (csrPEM orgID deviceID : string) : Prop :=
  ∃ ty b r, pem_decode csrPEM = Some (ty, b) ∧ parse_csr b = Some r ∧ SignatureValid r = true
    ∧ CommonName r = deviceID ∧ orgID ∈ Organization r ∧ TrimSpace deviceID ≠ "" ∧ TrimSpace orgID ≠ "".

Lemma containsString_spec l x : containsString l x = true ↔ x ∈ l.
Proof.
  unfold containsString. rewrite existsb_exists. setoid_rewrite bool_decide_eq_true. setoid_rewrite list_elem_of_In.
  split; [by intros (y & Hy & <-)|by eauto].
Qed.
Lemma check_request_spec csrPEM orgID deviceID r : check_request csrPEM orgID deviceID = Ok r → requested csrPEM orgID deviceID.
Proof.
  unfold check_request, decodeCertificateRequest.
  destruct (pem_decode csrPEM) as [[ty b]|] eqn:Hp; [|done]. destruct (_ || _); [|done].
  destruct (parse_csr b) as [q|] eqn:Hq; [|done]. destruct (SignatureValid q) eqn:Hs; [|done]. cbn [negb].
  destruct (bool_decide (TrimSpace deviceID = "")) eqn:Hd; [done|].
  destruct (bool_decide (CommonName q = deviceID)) eqn:Hn; [|done]. cbn [negb orb].
  destruct (bool_decide (TrimSpace orgID = "")) eqn:Ho; [done|].
  destruct (containsString (Organization q) orgID) eqn:Hc; [|done]. intros _.
  exists ty, b, q. apply bool_decide_eq_false in Hd, Ho. apply bool_decide_eq_true in Hn. apply containsString_spec in Hc. by split_and!.
Qed.
Lemma issued_of_spec crt chain msg c : issued_of crt chain msg = Ok c →
  ∃ ty b leaf, pem_decode (AgentAuth.AgentAuth.CertificatePEM c) = Some (ty, b) ∧ parse_cert b = Some leaf
    ∧ AgentAuth.AgentAuth.is_Fingerprint c = certificateFingerprint (Raw leaf).
Proof.
  unfold issued_of. destruct (pem_decode crt) as [[ty b]|] eqn:Hp; [|done].
  destruct (parse_cert b) as [leaf|] eqn:Hl; [|done]. intros [= <-]. by exists ty, b, leaf.
Qed.
Lemma issue_spec b csrPEM orgID deviceID days c : IssueDeviceCertificate b csrPEM orgID deviceID days = Ok c →
  requested csrPEM orgID deviceID ∧
  ∃ ty raw leaf, pem_decode (AgentAuth.AgentAuth.CertificatePEM c) = Some (ty, raw) ∧ parse_cert raw = Some leaf
    ∧ AgentAuth.AgentAuth.is_Fingerprint c = certificateFingerprint (Raw leaf).
Proof.
  destruct b as [s e|s e]; cbn; unfold step_IssueDeviceCertificate, aws_IssueDeviceCertificate;
    (destruct (check_request _ _ _) as [r|] eqn:Hr; [|done]); apply check_request_spec in Hr.
  - destruct (mintToken _ _ _) as [t|]; [|done]. destruct (sign _ _ _ _) as [[crt chain]|]; [|done].
    intros Hc%issued_of_spec. done.
  - destruct (issue _ _) as [arn|]; [|done]. destruct (await _ _ _ _) as [[crt chain]|]; [|done].
    intros Hc%issued_of_spec. done.
Qed.

(** A certificate the portal hands out is bound to its request.  With either authority the
    request is signed with the key it certifies and names the device and the tenant of the
    caller, never another; the device is then registered, active, under the fingerprint of the
    certificate that was handed out.  Whatever fails before, the database is as it was. *)
Theorem portal_certificate_bound b e db c req db' rep :
  AgentAuth.AgentAuth.IssueDeviceCertificate (Some (as_issuer (IssueDeviceCertificate b))) e db c (Some req) = (db', rep) →
  match rep with
  | AgentAuth.AgentAuth.PIssued dev cert =>
      dev = AgentAuth.AgentAuth.p_DeviceID req
      ∧ requested (AgentAuth.AgentAuth.CSRPEM req) (Access.Access.GetString c "org_id") dev
      ∧ ∃ ty raw leaf id row, pem_decode (AgentAuth.AgentAuth.CertificatePEM cert) = Some (ty, raw) ∧ parse_cert raw = Some leaf
          ∧ Devices.Devices.devices db' !! id = Some row ∧ Devices.Devices.d_device_id row = dev
          ∧ Devices.Devices.d_status row = Some "active"
          ∧ Devices.Devices.d_fingerprint row = Some (certificateFingerprint (Raw leaf))
          ∧ (Devices.Devices.devices db !! id = None → Devices.Devices.d_org row = Access.Access.GetString c "org_id")
  | AgentAuth.AgentAuth.PErr _ _ => db' = db
  end.
Proof.
  unfold AgentAuth.AgentAuth.IssueDeviceCertificate. destruct (_ || bool_decide (AgentAuth.AgentAuth.CSRPEM req = "")); [by intros [= <- <-]|].
  unfold as_issuer. destruct (IssueDeviceCertificate b _ _ _ _) as [cert|err] eqn:Hi; [|by destruct (IsDeviceCSRValidationError err); intros [= <- <-]].
  apply issue_spec in Hi as (Hreq & ty & raw & leaf & Hpem & Hleaf & Hfp).
  match goal with |- context [Devices.Devices.RegisterMTLSDevice ?e ?db ?g] =>
    pose proof (Devices.Devices.registration_inv e db g) as Hinv; destruct (Devices.Devices.RegisterMTLSDevice e db g) as [db1 [id|x]] eqn:Hreg end.
  2: by intros [= <- <-]. intros [= <- <-].
  destruct Hinv as (o & row & _ & Hrow & _ & _ & Hs & _).
  apply Devices.Devices.set_consumed_devices in Hs as [Hd _]. apply Devices.Devices.registered_spec in Hrow as (H1 & H2 & _ & H3 & _ & H4).
  split_and!; [done|done|]. exists ty, raw, leaf, id, row. cbn in *. rewrite Hd, <- Hfp. split_and!; try done.
  - apply lookup_insert_eq.
  - intros Hn. rewrite Hn in H4. by destruct H4.
Qed.

(** *** Waiting for AWS *)

Definition ready (ask : nat → option (option string * option string)) (i : nat) : option (string * string) :=
  match ask i with Some (Some crt, chain) => Some (crt, default "" chain) | _ => None end.
Lemma await_step ask stop n i : await ask stop (S n) i =
  match ready ask i with
  | Some r => Ok r
  | None => if stop i then Err (CaFailed "context canceled") else await ask stop n (S i)
  end.
Proof. cbn. unfold ready. by destruct (ask i) as [[[crt|] chain]|]. Qed.
Lemma await_spec ask stop n i r :
  await ask stop n i = Ok r ↔
  ∃ k, i ≤ k < i + n ∧ ready ask k = Some r ∧ ∀ j, i ≤ j < k → ready ask j = None ∧ stop j = false.
Proof.
  revert i. induction n as [|n IH]; intros i; [split; [done|intros (k & ? & _); lia]|]. rewrite await_step.
  destruct (ready ask i) as [r'|] eqn:Hi.
  - split.
    + intros [= ->]. exists i. split_and!; [lia|lia|done|lia].
    + intros (k & Hk & Hr & Hb). destruct (decide (k = i)) as [->|]; [congruence|]. destruct (Hb i); [lia|congruence].
  - destruct (stop i) eqn:Hs.
    + split; [done|]. intros (k & Hk & Hr & Hb). destruct (decide (k = i)) as [->|]; [congruence|].
      destruct (Hb i); [lia|congruence].
    + rewrite IH. split; intros (k & Hk & Hr & Hb).
      * exists k. split_and!; [lia|lia|done|]. intros j Hj. destruct (decide (j = i)) as [->|]; [done|]. apply Hb. lia.
      * exists k. destruct (decide (k = i)) as [->|]; [congruence|]. split_and!; [lia|lia|done|]. intros j Hj. apply Hb. lia.
Qed.

(** AWS Private CA.  What is asked of the service is the request as given, for between 1 and
    397 days.  A certificate is returned exactly when one of the first twenty questions finds
    it, the caller has not gone away before, and its text is one; the earliest that is found
    counts. *)
Theorem aws_issue_exact s e csrPEM orgID deviceID days r arn c :
  let input := mkInput (caARN s) csrPEM (algorithm s) (templateARN s) (clamp_days days) in
  let found := ready (poll e (caARN s) arn) in
  check_request csrPEM orgID deviceID = Ok r → issue e input = Some arn →
  (1 <= in_days input <= 397)%Z ∧ ((1 <= days <= 397)%Z → in_days input = days) ∧
  (aws_IssueDeviceCertificate s e csrPEM orgID deviceID days = Ok c ↔
   ∃ k crt chain, k < 20 ∧ found k = Some (crt, chain) ∧ (∀ j, j < k → found j = None ∧ cancelled e j = false)
     ∧ issued_of crt chain "AWS Private CA returned an invalid certificate" = Ok c).
Proof.
  intros input found Hr Hi. split_and!.
  1, 2, 3: subst input; cbn; unfold clamp_days; destruct (Z.leb_spec days 0); [cbn; lia|destruct (Z.ltb_spec 397 days); lia].
  assert (Hf : ∀ x, await (poll e (caARN s) arn) (cancelled e) attempts 0 = Ok x ↔
    ∃ k, k < 20 ∧ found k = Some x ∧ ∀ j, j < k → found j = None ∧ cancelled e j = false).
  { intros x. rewrite await_spec. subst found. unfold attempts.
    split; intros (k & Hk & Hrd & Hb); exists k; split_and!; try lia; try done; intros j Hj; apply Hb; lia. }
  unfold aws_IssueDeviceCertificate. rewrite Hr. fold input. rewrite Hi.
  destruct (await _ _ _ _) as [[crt chain]|err].
  - destruct (proj1 (Hf (crt, chain)) eq_refl) as (k & Hk & Hfk & Hb). split; [intros Hc; by exists k, crt, chain|].
    intros (k' & crt' & chain' & Hk' & Hfk' & Hb' & Hc). assert (Ok (E:=ca_error) (crt, chain) = Ok (crt', chain')) as [= -> ->]; [|done].
    destruct (lt_eq_lt_dec k k') as [[Hlt| ->]|Hlt]; [destruct (Hb' k Hlt)| |destruct (Hb k' Hlt)]; congruence.
  - split; [done|]. intros (k & crt & chain & Hk & Hfk & Hb & _).
    by discriminate (proj2 (Hf (crt, chain))); exists k.
Qed.

(** The root an authority trusts is the one whose fingerprint was configured. *)
Lemma root_pinned Getenv roots s root : NewStepCADeviceCA Getenv roots = Ok (s, root) →
  certificateFingerprint (Raw root) = fingerprint s ∧ fingerprint s = ToLower (TrimSpace (Getenv "DEVICE_STEPCA_FINGERPRINT"))
  ∧ fingerprint s ≠ "" ∧ password s ≠ "" ∧ caURL s ≠ "".
Proof.
  unfold NewStepCADeviceCA. case_bool_decide; [done|]. case_bool_decide; [done|]. case_bool_decide; [done|].
  unfold fetchAndPinRoot. destruct (roots _) as [body|]; [|done]. destruct (pem_decode body) as [[ty b]|]; [|done].
  destruct (parse_cert b) as [c|]; [|done]. case_bool_decide as Hf; [|done]. intros [= <- <-]. by split_and!.
Qed.

(** How long a certificate of the step-ca is to be valid does not reach it. *)
Lemma step_ca_ignores_validity s e csrPEM orgID deviceID days days' :
  step_IssueDeviceCertificate s e csrPEM orgID deviceID days = step_IssueDeviceCertificate s e csrPEM orgID deviceID days'.
Proof. reflexivity. Qed.

End Proofs.

(** ** Witnesses *)

(** A certificate request is its device's name, and every one is of the tenant [acme]. *)
Definition toy_tools : CertTools := {|
  pem_decode s := if bool_decide (s = "") then None else Some ("CERTIFICATE REQUEST", of_string s);
  parse_csr b := Some (mkCsr true (to_string b) ["acme"]);
  parse_cert b := Some (mkCert b "42" "CN=laptop,O=acme" 1000000000000);
|}.
Definition toy_jose : Jose := {|
  ec_key := string;
  open_jwk enc pass := if bool_decide (pass = "") then None else Some (Some enc, "kid");
  sign_es256 k kid c := Some (k +:+ ":" +:+ kid);
|}.

Section Witness.
#[local] Existing Instances toy_tools toy_jose.

Definition demo_ca : StepCADeviceCA := mkCA "https://ca.test" "portal" "abcd" "secret".
Definition demo_listing : json :=
  JObject [("provisioners", JArray [JObject [("type", JString "ACME"); ("name", JString "portal")];
                                    JObject [("type", JString "jwk"); ("name", JString "portal"); ("encryptedKey", JString "k1")]])].
Definition demo_ca_env : ca_env :=
  mkCaEnv (λ _, Some demo_listing) (λ _ csr _, Some (201%Z, Some (JObject [("crt", JString ("leaf of " +:+ csr)); ("ca", JString "chain")])))
    (λ _, (5 * second)%Z) [].
Definition demo_context : Access.Access.context := Access.Access.mkCtx {["org_id" := "acme"]} ∅.
Definition demo_portal : Devices.Devices.DB * AgentAuth.AgentAuth.portal_reply :=
  AgentAuth.AgentAuth.IssueDeviceCertificate (Some (as_issuer (IssueDeviceCertificate (StepCa demo_ca demo_ca_env))))
    (Devices.Devices.demo_env 5 "d1") Devices.Devices.demo_db demo_context
    (Some (AgentAuth.AgentAuth.mkPortalReq "laptop" "Laptop" "linux" "laptop" 30)).

Lemma portal_certificate_bound_witness :
  ∃ cert row, snd demo_portal = AgentAuth.AgentAuth.PIssued "laptop" cert
    ∧ Devices.Devices.devices (fst demo_portal) !! "d1" = Some row ∧ requested "laptop" "acme" "laptop".
Proof.
  pose proof (portal_certificate_bound (StepCa demo_ca demo_ca_env) (Devices.Devices.demo_env 5 "d1") Devices.Devices.demo_db
    demo_context (AgentAuth.AgentAuth.mkPortalReq "laptop" "Laptop" "linux" "laptop" 30) (fst demo_portal) (snd demo_portal)
    (surjective_pairing demo_portal)) as Hb.
  assert (Hi : ∃ cert, snd demo_portal = AgentAuth.AgentAuth.PIssued "laptop" cert) by (eexists; vm_compute; reflexivity).
  destruct Hi as [cert Hi]. rewrite Hi in Hb. destruct Hb as (_ & Hq & _).
  exists cert. eexists. split; [exact Hi|]. split; [vm_compute; reflexivity|exact Hq].
Defined.

Definition demo_aws : AWSPrivateCA := mkAws "arn:ca" "arn:template" "SHA256WITHRSA".
(** The certificate is there at the third question. *)
Definition demo_aws_env : aws_env :=
  mkAwsEnv (λ _, Some "arn:cert") (λ _ _ i, if i <? 2 then Some (None, None) else Some (Some "leaf", None)) (λ _, false).
Lemma aws_issue_exact_witness : ∃ c, aws_IssueDeviceCertificate demo_aws demo_aws_env "laptop" "acme" "laptop" 1000 = Ok c.
Proof.
  eexists. eapply (aws_issue_exact demo_aws demo_aws_env "laptop" "acme" "laptop" 1000 _ "arn:cert"); [vm_compute; reflexivity..|].
  exists 2, "leaf", "". split_and!; [lia|reflexivity| |vm_compute; reflexivity].
  intros [|[|j]] Hj; [split; reflexivity..|lia].
Defined.

End Witness.

End DeviceCa.
