(* ===== verification/EnrolSecrets.v ===== *)
(** * Device enrolment secrets and the device certificate authority

    [src/internal/db/enrol_secret_store.go], [src/internal/api/handlers/enrol_handler.go] and
    [src/internal/security/stepca_device.go].  An administrator generates a secret of the
    organization; an agent that presents it, without other credentials, is given a one-time
    token of the certificate authority, and the secret is spent.  The store keeps the SHA-256
    of each secret in a table whose organization and hash are unique.  The handlers are
    programs of database statements ([Interleave]), so that requests race as they do on the
    server.

    Arguments: [uuid] is the database's reading of a UUID, its canonical text, or [None] for a
    text that is not one, on which the statement fails; the HTTP answers of the authority, its
    key format ([jose]), the signature of a token and the parsing of PEM and X.509. *)

From S2P Require Import Prelude GoStrings GoTime Encoding JsonValue Sql Sha256 Interleave DeviceCa.
#[local] Open Scope string_scope.
#[local] Open Scope nat_scope.
#[local] Open Scope list_scope.

Module EnrolSecrets.
Import GoStrings GoTime JsonValue Sql Interleave.

(** ** The table *)

Record secret_row := mkSecretRow {
  s_org : string;
  s_hash : string;
  s_label : string;
  s_prefix : string;
  s_status : string;
  s_created_by : option string;
  s_created_at : Z;
  s_last_used_at : option Z;
  s_revoked_at : option Z;
  s_consumed_at : option Z;
}.
Record DB := mkDB { secrets : gmap string secret_row; organizations : gset string; users : gset string }.
Definition with_secrets (d : DB) m := mkDB m (organizations d) (users d).

Definition s_key (r : secret_row) : string * string := (s_org r, s_hash r).
Definition is_active (r : secret_row) : bool := bool_decide (s_status r = "active").

(** One request: the outcome of its statements and the times they see, the random bytes and
    the id of a new row. *)
Record env := mkEnv {
  ok : nat → bool;
  now : nat → Z;
  random : option bytes;
  new_id : string;
  e_ro : range_order;
}.

Record EnrolSecret := mkSecret {
  ID : string;
  OrgID : string;
  Label : string;
  Prefix : string;
  Status : string;
  CreatedAt : Z;
  LastUsedAt : option Z;
  ConsumedAt : option Z;
}.

Definition hashEnrolSecret (s : string) : string := Hex.encode (Sha256.sha256 (of_string (TrimSpace s))).

Section Store.
Context (uuid : string → option string).

(** *** Generate *)

Definition secret_text (raw : bytes) : string := "apx_" +:+ Base64.encode_raw true raw.
Definition prefix_of (secret : string) : string :=
  if 11 <? String.length secret then String.substring 0 11 secret +:+ "…" else secret.

(** [INSERT ... RETURNING id, created_at]: the columns, the foreign keys, the unique pair. *)
Definition insert_secret (e : env) (org hash label prefix createdBy : string) (d : DB) : DB * option (string * Z) :=
  let by_ := if bool_decide (TrimSpace createdBy = "") then Some None else Some <$> uuid createdBy in
  match uuid org, by_ with
  | Some o, Some creator =>
      let row := mkSecretRow o hash label prefix "active" creator (now e 0) None None None in
      if ok e 0 && bool_decide (o ∈ organizations d) && fits 100 label && fits 16 prefix
         && match creator with Some u => bool_decide (u ∈ users d) | None => true end
         && bool_decide (secrets d !! new_id e = None)
         && negb (existsb (λ kv, bool_decide (s_key (snd kv) = (o, hash))) (map_to_list (secrets d)))
      then (with_secrets d (<[new_id e := row]> (secrets d)), Some (new_id e, now e 0))
      else (d, None)
  | _, _ => (d, None)
  end.

Definition Generate (e : env) (orgID label createdBy : string) : prog DB (option (string * EnrolSecret)) :=
  if bool_decide (TrimSpace orgID = "") then Ret None
  else
    match random e with
    | None => Ret None
    | Some raw =>
        let secret := secret_text raw in
        let label := if bool_decide (TrimSpace label = "") then "Device enrolment" else label in
        let prefix := prefix_of secret in
        bind (stmt (insert_secret e orgID (hashEnrolSecret secret) label prefix createdBy)) (λ r,
          Ret (r ≫= λ '(id, created), Some (secret, mkSecret id orgID label prefix "active" created None None)))
    end.

(** *** Validate *)

(** [WHERE org_id = $1 AND secret_hash = $2 AND status = 'active' LIMIT 1]; [None] is a
    failure. *)
Definition find_active (e : env) (orgID hash : string) (d : DB) : option (option string) :=
  match uuid orgID with
  | Some o =>
      if ok e 0
      then Some (fst <$> head (select (e_ro e) (λ _ r, bool_decide (s_key r = (o, hash)) && is_active r) (secrets d)))
      else None
  | None => None
  end.

Definition consumed (t : Z) (r : secret_row) : secret_row :=
  mkSecretRow (s_org r) (s_hash r) (s_label r) (s_prefix r) "consumed" (s_created_by r) (s_created_at r) (Some t)
    (s_revoked_at r) (Some t).
(** [UPDATE ... WHERE id = $1 AND status = 'active']: whether a row was affected. *)
Definition consume_row (e : env) (id : string) (d : DB) : DB * option bool :=
  if ok e 1
  then
    match secrets d !! id with
    | Some r => if is_active r then (with_secrets d (<[id := consumed (now e 1) r]> (secrets d)), Some true) else (d, Some false)
    | None => (d, Some false)
    end
  else (d, None).

Definition Validate (e : env) (orgID plaintext : string) : prog DB (option bool) :=
  if bool_decide (TrimSpace orgID = "") || bool_decide (TrimSpace plaintext = "") then Ret (Some false)
  else
    bind (query (find_active e orgID (hashEnrolSecret plaintext))) (λ r,
      match r with
      | None => Ret None
      | Some None => Ret (Some false)
      | Some (Some id) => stmt (consume_row e id)
      end).

(** *** List and Revoke *)

Definition List (e : env) (orgID : string) : prog DB (option (list EnrolSecret)) :=
  query (λ d,
    match uuid orgID with
    | Some o =>
        if ok e 0
        then Some ((λ '(id, r), mkSecret id (s_org r) (s_label r) (s_prefix r) (s_status r) (s_created_at r)
                                  (s_last_used_at r) (s_consumed_at r))
               <$> newest s_created_at (select (e_ro e) (λ _ r, bool_decide (s_org r = o)) (secrets d)))
        else None
    | None => None
    end).

Definition revoked (t : Z) (r : secret_row) : secret_row :=
  mkSecretRow (s_org r) (s_hash r) (s_label r) (s_prefix r) "revoked" (s_created_by r) (s_created_at r)
    (s_last_used_at r) (Some t) (s_consumed_at r).
(** Whether a row was revoked; both failures are errors. *)
Definition revoke_row (e : env) (orgID id : string) (d : DB) : DB * bool :=
  match uuid orgID, uuid id with
  | Some o, Some i =>
      match secrets d !! i with
      | Some r =>
          if ok e 0 && bool_decide (s_org r = o) && is_active r
          then (with_secrets d (<[i := revoked (now e 0) r]> (secrets d)), true)
          else (d, false)
      | None => (d, false)
      end
  | _, _ => (d, false)
  end.
Definition Revoke (e : env) (orgID id : string) : prog DB bool := stmt (revoke_row e orgID id).

(** ** Handlers *)

Inductive reply :=
| EErr (status : Z) (msg : string)
| EToken (org_id : string) (t : DeviceCa.DeviceCa.EnrolToken)
| ESecret (secret : string) (ref : EnrolSecret)
| ESecrets (l : list EnrolSecret)
| ERevoked.

Record enrol_request := mkEnrol {
  q_OrgID : string;
  q_DeviceID : string;
  q_EnrolSecret : string;
  q_DeviceName : string;
  q_OSType : string;
}.

Section Handlers.
Context `{DeviceCa.DeviceCa.Jose} (ca : option DeviceCa.DeviceCa.StepCADeviceCA).

(** What follows the check of the secret. *)
Definition mint (c : DeviceCa.DeviceCa.StepCADeviceCA) (ce : DeviceCa.DeviceCa.ca_env) (org device : string) (valid : option bool)
  : reply :=
  match valid with
  | None => EErr 500 "enrolment check failed"
  | Some false => EErr 403 "invalid organization or enrolment secret"
  | Some true =>
      match DeviceCa.DeviceCa.MintEnrolToken c ce device with
      | Err _ => EErr 500 "failed to mint enrolment token"
      | Ok t => EToken org t
      end
  end.
(** [None]: the body does not bind. *)
Definition Enroll (e : env) (ce : DeviceCa.DeviceCa.ca_env) (body : option enrol_request) : prog DB reply :=
  match body with
  | None => Ret (EErr 400 "invalid enrol request")
  | Some req =>
      let org := TrimSpace (q_OrgID req) in
      let device := TrimSpace (q_DeviceID req) in
      if bool_decide (org = "") || bool_decide (device = "") || bool_decide (TrimSpace (q_EnrolSecret req) = "")
      then Ret (EErr 400 "org_id, device_id, and enrol_secret are required")
      else
        match ca with
        | None => Ret (EErr 503 "device enrolment is not configured")
        | Some c => bind (Validate e org (q_EnrolSecret req)) (λ v, Ret (mint c ce org device v))
        end
  end.

(** [orgID] and [userID] are those of the token; [label] is what the body has, if it binds. *)
Definition GenerateSecret (e : env) (orgID userID label : string) : prog DB reply :=
  if bool_decide (orgID = "") then Ret (EErr 401 "organization context required")
  else bind (Generate e orgID label userID) (λ r,
    Ret match r with None => EErr 500 "failed to generate secret" | Some (secret, ref) => ESecret secret ref end).
Definition ListSecrets (e : env) (orgID : string) : prog DB reply :=
  if bool_decide (orgID = "") then Ret (EErr 401 "organization context required")
  else bind (List e orgID) (λ r, Ret match r with None => EErr 500 "failed to list secrets" | Some l => ESecrets l end).
Definition RevokeSecret (e : env) (orgID id : string) : prog DB reply :=
  if bool_decide (orgID = "") then Ret (EErr 401 "organization context required")
  else bind (Revoke e orgID id) (λ done,
    Ret (if (done : bool) then ERevoked else EErr 404 "secret not found or already revoked")).

Inductive call :=
| CEnroll (e : env) (ce : DeviceCa.DeviceCa.ca_env) (body : option enrol_request)
| CGenerate (e : env) (orgID userID label : string)
| CList (e : env) (orgID : string)
| CRevoke (e : env) (orgID id : string).
Definition serve (c : call) : prog DB reply :=
  match c with
  | CEnroll e ce body => Enroll e ce body
  | CGenerate e org user label => GenerateSecret e org user label
  | CList e org => ListSecrets e org
  | CRevoke e org id => RevokeSecret e org id
  end.

End Handlers.
End Store.

(** ** A secret enrols one device *)

Section Proofs.
Context (uuid : string → option string) `{DeviceCa.DeviceCa.Jose} (ca : option DeviceCa.DeviceCa.StepCADeviceCA).
#[local] Abbreviation serve := (serve uuid ca).

(** The organization and the hash a request presents. *)
Definition presented (c : call) : option (string * string) :=
  match c with
  | CEnroll e ce (Some req) => (λ o, (o, hashEnrolSecret (q_EnrolSecret req))) <$> uuid (TrimSpace (q_OrgID req))
  | _ => None
  end.
(** A request that was let through: it has a token, or the authority failed. *)
Definition let_through (k : string * string) (t : call * prog DB reply) : bool :=
  bool_decide (presented (fst t) = Some k)
  && match snd t with
     | Ret (EToken _ _) => true
     | Ret (EErr _ msg) => bool_decide (msg = "failed to mint enrolment token")
     | _ => false
     end.

(** The pair of organization and hash is unique. *)
Definition secrets_unique (d : DB) : Prop :=
  ∀ i j r s, secrets d !! i = Some r → secrets d !! j = Some s → s_key r = s_key s → i = j.

(** What a statement may do to a row: nothing, or end its activity; the key stays. *)
Definition row_step (r r' : secret_row) : Prop :=
  s_key r' = s_key r ∧ (r' = r ∨ (is_active r = true ∧ is_active r' = false)).
Definition evolves (d d' : DB) : Prop :=
  (secrets_unique d → secrets_unique d') ∧
  ∀ i r, secrets d !! i = Some r → ∃ r', secrets d' !! i = Some r' ∧ row_step r r'.
(** Moreover no secret is consumed. *)
Definition quiet (d d' : DB) : Prop :=
  evolves d d' ∧ ∀ i r r', secrets d !! i = Some r → secrets d' !! i = Some r' →
    s_status r' = "consumed" → s_status r = "consumed".

Lemma quiet_refl d : quiet d d.
Proof. split; [split; [done|]|congruence]. intros i r Hr. exists r. split; [done|]. split; auto. Qed.

(** A row replaced by one with its key. *)
Lemma replace_evolves d i r r' : secrets d !! i = Some r → row_step r r' →
  evolves d (with_secrets d (<[i := r']> (secrets d))).
Proof.
  intros Hi [Hk Hs]. assert (Hlook : ∀ j x, <[i := r']> (secrets d) !! j = Some x →
    ∃ y, secrets d !! j = Some y ∧ s_key x = s_key y).
  { intros j x [[<- <-]|[_ Hj]]%lookup_insert_Some; eauto. }
  split; cbn.
  - intros Hu j1 j2 x1 x2 H1 H2 Hx. apply Hlook in H1 as (y1 & H1 & E1), H2 as (y2 & H2 & E2).
    apply (Hu j1 j2 y1 y2); congruence.
  - intros j x Hj. destruct (decide (i = j)) as [<-|Hne].
    + rewrite lookup_insert_eq. exists r'. rewrite Hi in Hj. injection Hj as <-. done.
    + rewrite lookup_insert_ne by done. exists x. split; [done|]. split; auto.
Qed.

Lemma insert_quiet e org hash label prefix by_ d : quiet d (fst (insert_secret uuid e org hash label prefix by_ d)).
Proof.
  unfold insert_secret. destruct (uuid org) as [o|]; [|apply quiet_refl].
  destruct (if bool_decide _ then _ else _) as [creator|]; [|apply quiet_refl]. destruct (_ && _) eqn:Hg; [|apply quiet_refl].
  apply andb_true_iff in Hg as [[_ Hid%bool_decide_eq_true]%andb_true_iff Hk%negb_true_iff]. cbn [fst].
  assert (Hfresh : ∀ j x, secrets d !! j = Some x → s_key x ≠ (o, hash)).
  { intros j x Hj Hx. apply not_true_iff_false in Hk. apply Hk, existsb_exists. exists (j, x).
    split; [by apply list_elem_of_In, elem_of_map_to_list|]. by apply bool_decide_eq_true. }
  split; [split|]; cbn.
  - unfold secrets_unique. cbn [secrets with_secrets].
    intros Hu i j r s [[<- <-]|[_ Hi]]%lookup_insert_Some [[<- <-]|[_ Hj]]%lookup_insert_Some Hrs; [done|..].
    + by destruct (Hfresh _ _ Hj).
    + by destruct (Hfresh _ _ Hi).
    + by apply (Hu i j r s).
  - intros i r Hi. rewrite lookup_insert_ne by congruence. exists r. split; [done|]. split; auto.
  - intros i r r' Hi. rewrite lookup_insert_ne by congruence. congruence.
Qed.

Lemma revoke_quiet e org id d : quiet d (fst (revoke_row uuid e org id d)).
Proof.
  unfold revoke_row. destruct (uuid org) as [o|]; [|apply quiet_refl]. destruct (uuid id) as [i|]; [|apply quiet_refl].
  destruct (secrets d !! i) as [r|] eqn:Hi; [|apply quiet_refl]. destruct (_ && is_active r) eqn:Hg; [|apply quiet_refl].
  apply andb_true_iff in Hg as [_ Ha]. split.
  - apply (replace_evolves d i r); [done|]. split; [done|]. right. split; [done|]. by apply bool_decide_eq_false.
  - intros j x x' Hj. cbn. rewrite lookup_insert_Some. intros [[<- <-]|[_ Hj']] Hs; [done|congruence].
Qed.

Lemma consume_evolves e i d : evolves d (fst (consume_row e i d)).
Proof.
  unfold consume_row. destruct (ok e 1); [|apply quiet_refl]. destruct (secrets d !! i) as [r|] eqn:Hi; [|apply quiet_refl].
  destruct (is_active r) eqn:Ha; [|apply quiet_refl]. apply (replace_evolves d i r); [done|]. split; [done|]. right.
  split; [done|]. by apply bool_decide_eq_false.
Qed.

(** *** The points of a request *)

Definition refused : reply := EErr 403 "invalid organization or enrolment secret".
Definition consuming (e : env) (ce : DeviceCa.DeviceCa.ca_env) (req : enrol_request)
  (a : DeviceCa.DeviceCa.StepCADeviceCA) (i : string) : prog DB reply :=
  bind (stmt (consume_row e i)) (λ v, Ret (mint a ce (TrimSpace (q_OrgID req)) (TrimSpace (q_DeviceID req)) v)).

Lemma let_through_mint k c a ce org device v :
  let_through k (c, Ret (mint a ce org device v)) = bool_decide (presented c = Some k) && bool_decide (v = Some true).
Proof. unfold let_through. cbn [fst snd]. f_equal. destruct v as [[]|]; [|reflexivity..]. cbn. by destruct (DeviceCa.DeviceCa.MintEnrolToken _ _ _). Qed.

Section Secret.
Context (id : string) (k : string * string).

Inductive at_point (d : DB) (c : call) : prog DB reply → Prop :=
| at_start : at_point d c (serve c)
| at_consume e ce req a i r :
    c = CEnroll e ce (Some req) → presented c = Some (s_key r) → secrets d !! i = Some r →
    at_point d c (consuming e ce req a i)
| at_end rep :
    (presented c = Some k → rep = refused → ∀ r, secrets d !! id = Some r → is_active r = false) →
    at_point d c (Ret rep).

Definition has_secret (d : DB) : Prop :=
  secrets_unique d ∧ ∃ r, secrets d !! id = Some r ∧ s_key r = k.

Lemma has_secret_evolves d d' : evolves d d' → has_secret d → has_secret d'.
Proof.
  intros [Hu He] [Hd (r & Hr & Hk)]. split; [by apply Hu|]. destruct (He _ _ Hr) as (r' & Hr' & Hk' & _).
  exists r'. split; [done|congruence].
Qed.
Lemma at_point_evolves d d' c p : evolves d d' → has_secret d → at_point d c p → at_point d' c p.
Proof.
  intros [_ He] [_ (r0 & Hr0 & _)] [|e ce req a i r Hc Hp Hr|rep Hrep]; [apply at_start|..].
  - destruct (He _ _ Hr) as (r' & Hr' & Hk' & _). eapply (at_consume _ _ _ _ _ _ _ r'); [done|by rewrite Hk'|done].
  - apply at_end. intros Hk Href r Hr. destruct (He _ _ Hr0) as (r' & Hr' & _ & Hs).
    assert (r' = r) as -> by congruence. destruct Hs as [->|[_ Hs]]; [|done]. by apply (Hrep Hk Href).
Qed.

(** The first statement of a request. *)
Lemma first_statement d c f kont : has_secret d → serve c = Stmt f kont →
  quiet d (f d) ∧ at_point (f d) c (kont d) ∧ let_through k (c, kont d) = false.
Proof.
  intros Hs. destruct c as [e ce [req|]|e org user label|e org|e org i]; unfold EnrolSecrets.serve, Enroll, GenerateSecret, Generate, ListSecrets, List, RevokeSecret, Revoke.
  - case_match eqn:Hb; [done|]. destruct ca as [a|]; [|done]. unfold Validate. case_match; [done|].
    cbn [bind query stmt fst snd]. intros [= <- <-]. cbn beta.
    split; [apply quiet_refl|].
    assert (Hq : ∀ o, uuid (TrimSpace (q_OrgID req)) = Some o →
      presented (CEnroll e ce (Some req)) = Some (o, hashEnrolSecret (q_EnrolSecret req))) by (intros o Ho; cbn; by rewrite Ho).
    unfold find_active. cbn [fst snd]. destruct (uuid (TrimSpace (q_OrgID req))) as [o|] eqn:Ho;
      [|cbn [bind]; by split; [apply at_end; intros _ [=]|rewrite let_through_mint, andb_false_r]].
    destruct (ok e 0); [|cbn [bind]; by split; [apply at_end; intros _ [=]|rewrite let_through_mint, andb_false_r]].
    pose proof (select_head (e_ro e) (λ _ r, bool_decide (s_key r = (o, hashEnrolSecret (q_EnrolSecret req))) && is_active r) (secrets d)) as Hh.
    destruct (head _) as [[i r]|]; cbn [fmap option_fmap option_map fst bind].
    + destruct Hh as [Hi [Hk%bool_decide_eq_true _]%andb_true_iff]. split; [|apply andb_false_r].
      apply (at_consume _ _ e ce req a i r); [done|by rewrite Hk, (Hq o)|done].
    + split; [|by rewrite let_through_mint, andb_false_r]. apply at_end. rewrite (Hq o eq_refl). intros [= Hk] _ r Hr.
      destruct Hs as [_ (r' & Hr' & Hk')]. assert (r' = r) as -> by congruence. specialize (Hh _ _ Hr).
      rewrite bool_decide_eq_true_2 in Hh by congruence. done.
  - done.
  - case_bool_decide; [done|]. case_bool_decide; [done|]. destruct (random e) as [raw|]; [|done]. cbn. intros [= <- <-].
    split; [apply insert_quiet|]. split; [by apply at_end|done].
  - case_bool_decide; [done|]. cbn. intros [= <- <-]. split; [apply quiet_refl|]. split; [by apply at_end|done].
  - case_bool_decide; [done|]. cbn. intros [= <- <-]. split; [apply revoke_quiet|]. split; [by apply at_end|done].
Qed.

Definition spent (d : DB) : nat :=
  match secrets d !! id with Some r => Nat.b2n (bool_decide (s_status r = "consumed")) | None => 0 end.

Lemma quiet_spent d d' : has_secret d → quiet d d' → spent d' = spent d.
Proof.
  intros [_ (r & Hr & _)] [[_ He] Hq]. destruct (He _ _ Hr) as (r' & Hr' & _ & Hs). unfold spent. rewrite Hr, Hr'. f_equal.
  apply bool_decide_ext. split; [by apply (Hq _ _ _ Hr Hr')|]. intros Hc. destruct Hs as [->|[Ha _]]; [done|].
  apply bool_decide_eq_true in Ha. congruence.
Qed.

(** Any statement of a request. *)
Lemma consume_statement d e ce req a i r :
  let c := CEnroll e ce (Some req) in
  let rep := mint a ce (TrimSpace (q_OrgID req)) (TrimSpace (q_DeviceID req)) (snd (consume_row e i d)) in
  has_secret d → presented c = Some (s_key r) → secrets d !! i = Some r →
  at_point (fst (consume_row e i d)) c (Ret rep) ∧
  spent (fst (consume_row e i d)) = spent d + Nat.b2n (let_through k (c, Ret rep)).
Proof.
  cbv zeta. intros [Hu (r0 & Hr0 & Hk0)] Hp Hi. rewrite let_through_mint, Hp. unfold consume_row.
  assert (Hsame : s_key r = k → i = id ∧ r0 = r).
  { intros Hk. assert (i = id) as -> by (apply (Hu i id r r0); congruence). split; [done|congruence]. }
  destruct (ok e 1); cbn [fst snd]; [rewrite Hi; destruct (is_active r) eqn:Ha; cbn [fst snd]|].
  - split; [apply at_end; intros _; cbn; by destruct (DeviceCa.DeviceCa.MintEnrolToken _ _ _)|].
    rewrite (bool_decide_eq_true_2 (Some true = Some true)), andb_true_r by done. unfold spent. cbn [secrets with_secrets].
    destruct (decide (s_key r = k)) as [Hk|Hk].
    + destruct (Hsame Hk) as [-> ->]. rewrite lookup_insert_eq, Hr0, (bool_decide_eq_true_2 (Some _ = _)) by congruence.
      apply bool_decide_eq_true in Ha. rewrite (bool_decide_eq_false_2 (s_status r = _)) by congruence. done.
    + rewrite lookup_insert_ne by congruence. rewrite (bool_decide_eq_false_2 (Some _ = _)) by congruence. cbn. lia.
  - rewrite (bool_decide_eq_false_2 (Some false = Some true)), andb_false_r by done. cbn [Nat.b2n]. split; [|lia].
    apply at_end. rewrite Hp. intros [= Hk] _ r' Hr'. destruct (Hsame Hk) as [-> ->]. congruence.
  - rewrite (bool_decide_eq_false_2 (None = Some true)), andb_false_r by done. cbn [Nat.b2n]. split; [|lia].
    apply at_end. intros _ [=].
Qed.
Lemma statement d c f kont : has_secret d → at_point d c (Stmt f kont) →
  evolves d (f d) ∧ at_point (f d) c (kont d) ∧ spent (f d) = spent d + Nat.b2n (let_through k (c, kont d)).
Proof.
  intros Hs Ha. remember (Stmt f kont) as p eqn:Hp. destruct Ha as [|e ce req a i r -> Hk Hr|rep Hrep]; [..|done].
  - destruct (first_statement _ _ _ _ Hs Hp) as (Hq & Hpt & ->). rewrite (quiet_spent _ _ Hs Hq). split; [apply Hq|].
    split; [done|cbn; lia].
  - injection Hp as <- <-. split; [apply consume_evolves|]. apply (consume_statement d e ce req a i r Hs Hk Hr).
Qed.
Lemma start_not_through c : let_through k (c, serve c) = false.
Proof.
  destruct c as [e ce [req|]|e org user label|e org|e org i]; [|done..].
  cbn [serve EnrolSecrets.serve]. unfold Enroll. case_match; [apply andb_false_r|]. destruct ca as [a|]; [|apply andb_false_r].
  unfold Validate. case_match; cbn [bind query stmt]; [rewrite let_through_mint|]; apply andb_false_r.
Qed.

End Secret.

(** C25: A secret enrols one device, whatever requests run at the same time and however their
    statements interleave.  Of the requests that present an active secret of an organization at
    most one is let through; one is exactly when the secret is consumed, so none when it is
    revoked; and a request that presents it is refused only when it is not active any more. *)
Theorem secret_single_use d s id r :
  secrets_unique d → secrets d !! id = Some r → is_active r = true →
  rtc (istep serve) (mkPool d []) s →
  ∃ r', secrets (data s) !! id = Some r' ∧ s_key r' = s_key r
    ∧ count (let_through (s_key r)) (requests s) = Nat.b2n (bool_decide (s_status r' = "consumed"))
    ∧ ∀ c, (c, Ret refused) ∈ requests s → presented c = Some (s_key r) → is_active r' = false.
Proof.
  intros Hu Hr Ha Hs.
  assert (Hg : has_secret id (s_key r) d) by (split; [done|by exists r]).
  destruct (count_reachable serve (has_secret id (s_key r)) (at_point id (s_key r))) with
    (w := let_through (s_key r)) (m := spent id) (d := d) (s := s) as [[[_ (r' & Hr' & Hk')] Hat] Hcount]; try done.
  - intros. apply at_start.
  - intros d0 c f kont H0 H1. destruct (statement id _ _ _ _ _ H0 H1) as (He & Hp & _). split; [|done].
    by eapply has_secret_evolves.
  - intros d0 c p c' f kont H0 H1 H2. destruct (statement id _ _ _ _ _ H0 H2) as (He & _ & _). by eapply at_point_evolves.
  - apply start_not_through.
  - intros d0 c f kont H0 H1. split; [apply andb_false_r|]. by apply (statement id _ _ _ _ _ H0 H1).
  - exists r'. split_and!; [done|done|..].
    + unfold spent in Hcount. rewrite Hr, Hr' in Hcount. apply bool_decide_eq_true in Ha.
      rewrite (bool_decide_eq_false_2 (s_status r = _)) in Hcount by congruence. cbn in Hcount. by rewrite <- Hcount.
    + intros c [i Hi]%list_elem_of_lookup_1 Hp. apply Hat in Hi. remember (Ret refused) as p eqn:Hpe.
      destruct Hi as [|e ce req a j q -> _ _|rep Hrep]; [|done|injection Hpe as ->; by apply (Hrep Hp)].
      exfalso. revert Hpe Hp. destruct c as [e ce [req|]|e org user label|e org|e org j]; [|done..].
      cbn [serve EnrolSecrets.serve]. unfold Enroll. case_match eqn:Hb; [done|]. destruct ca as [a|]; [|done].
      unfold Validate. rewrite TrimSpace_idem. apply orb_false_iff in Hb as [[-> _]%orb_false_iff ->]. done.
Qed.

(** *** From the administrator to the device *)

Lemma drop_space_snoc l c : is_space c = false → drop_space (l ++ [c]) ≠ [].
Proof. intros Hc. induction l as [|x l IH]; cbn; [by rewrite Hc|]. by destruct (is_space x). Qed.
Lemma TrimSpace_nonblank c s : is_space c = false → TrimSpace (String c s) ≠ "".
Proof.
  intros Hc Ht. apply (f_equal String.list_ascii_of_string) in Ht. unfold TrimSpace in Ht.
  rewrite String.list_ascii_of_string_of_list_ascii in Ht. cbn [String.list_ascii_of_string drop_space] in Ht. rewrite Hc in Ht.
  rewrite reverse_cons in Ht. apply (f_equal reverse) in Ht. rewrite reverse_involutive in Ht.
  by apply (drop_space_snoc (reverse (String.list_ascii_of_string s)) c Hc).
Qed.

(** A row of the table after a successful insertion. *)
Lemma insert_secret_inv e org hash label prefix by_ d d' id t :
  insert_secret uuid e org hash label prefix by_ d = (d', Some (id, t)) →
  ∃ o r, uuid org = Some o ∧ secrets d' = <[id := r]> (secrets d) ∧ s_key r = (o, hash) ∧ is_active r = true
    ∧ ∀ j x, secrets d !! j = Some x → s_key x ≠ (o, hash).
Proof.
  unfold insert_secret. destruct (uuid org) as [o|]; [|done]. destruct (if bool_decide _ then _ else _) as [creator|]; [|done].
  destruct (_ && _) eqn:Hg; [|done]. intros [= <- <- <-]. apply andb_true_iff in Hg as [_ Hk%negb_true_iff].
  eexists o, _. split_and!; [done|reflexivity|done|done|]. intros j x Hj Hx. apply not_true_iff_false in Hk.
  apply Hk, existsb_exists. exists (j, x). split; [by apply list_elem_of_In, elem_of_map_to_list|]. by apply bool_decide_eq_true.
Qed.

(** [Validate] alone, where the table has one row with the key. *)
Lemma validate_alone e org secret d o id r :
  TrimSpace org ≠ "" → TrimSpace secret ≠ "" → uuid org = Some o → ok e 0 = true → ok e 1 = true →
  secrets d !! id = Some r → s_key r = (o, hashEnrolSecret secret) →
  (∀ j x, secrets d !! j = Some x → s_key x = s_key r → j = id) →
  exec (Validate uuid e org secret) d =
    (if is_active r then (with_secrets d (<[id := consumed (now e 1) r]> (secrets d)), Some true) else (d, Some false)).
Proof.
  intros Ho Hs Hu H0 H1 Hr Hk Hone. unfold Validate. rewrite !bool_decide_eq_false_2 by done. cbn [orb].
  rewrite exec_bind. cbn [query stmt exec fst snd]. unfold find_active. rewrite Hu, H0.
  pose proof (select_head (e_ro e) (λ _ r, bool_decide (s_key r = (o, hashEnrolSecret secret)) && is_active r) (secrets d)) as Hh.
  destruct (head _) as [[j x]|]; cbn [fmap option_fmap option_map fst].
  - destruct Hh as [Hj [Hx%bool_decide_eq_true Ha]%andb_true_iff]. assert (j = id) as -> by (apply (Hone j x); congruence).
    assert (x = r) as -> by congruence. rewrite Ha. cbn [stmt exec fst snd]. unfold consume_row. by rewrite H1, Hr, Ha.
  - specialize (Hh _ _ Hr). rewrite bool_decide_eq_true_2 in Hh by done. cbn in Hh. by rewrite Hh.
Qed.

(** From the administrator to the device.  A generated secret, presented with the
    organization it was generated for, yields a token of the authority for the device, the
    plaintext being known from the reply alone; presented again, for whatever device, it is
    refused and nothing changes. *)
Theorem generated_secret_enrols a d e org user label d' secret ref e2 ce t req :
  ca = Some a →
  exec (GenerateSecret uuid e org user label) d = (d', ESecret secret ref) →
  TrimSpace (q_OrgID req) = org → TrimSpace (q_DeviceID req) ≠ "" → q_EnrolSecret req = secret →
  ok e2 0 = true → ok e2 1 = true →
  DeviceCa.DeviceCa.MintEnrolToken a ce (TrimSpace (q_DeviceID req)) = Ok t →
  ∃ d'', exec (Enroll uuid ca e2 ce (Some req)) d' = (d'', EToken org t)
    ∧ DeviceCa.DeviceCa.Subject t = TrimSpace (q_DeviceID req)
    ∧ ∀ e3 ce3 req3, ok e3 0 = true → ok e3 1 = true → TrimSpace (q_OrgID req3) = org → TrimSpace (q_DeviceID req3) ≠ "" →
        q_EnrolSecret req3 = secret → exec (Enroll uuid ca e3 ce3 (Some req3)) d'' = (d'', refused).
Proof.
  intros Hca Hgen Horg Hdev Hsec H0 H1 Hmint. revert Hgen. unfold GenerateSecret, Generate. case_bool_decide as Hne; [done|].
  case_bool_decide as Hblank; [done|]. destruct (random e) as [raw|]; [|done]. cbn [bind stmt exec fst snd].
  destruct (insert_secret _ _ _ _ _ _ _ d) as [d1 [[id created]|]] eqn:Hins; [|done]. cbn [exec mbind option_bind fst snd].
  intros [= <- Hs _]. destruct (insert_secret_inv _ _ _ _ _ _ _ _ _ _ Hins) as (o & r & Hu & Hd1 & Hk & Ha & Hfresh).
  rewrite Hs in Hk, Hfresh.
  assert (Hnb : TrimSpace secret ≠ "") by (rewrite <- Hs; by apply TrimSpace_nonblank).
  assert (Hone : ∀ j x, secrets d1 !! j = Some x → s_key x = s_key r → j = id).
  { rewrite Hd1, Hk. intros j x [[<- _]|[_ Hj]]%lookup_insert_Some Hx; [done|]. by destruct (Hfresh j x). }
  assert (Hrow : secrets d1 !! id = Some r) by (rewrite Hd1; apply lookup_insert_eq).
  assert (Henroll : ∀ ex cex rq dx, ok ex 0 = true → ok ex 1 = true → TrimSpace (q_OrgID rq) = org → TrimSpace (q_DeviceID rq) ≠ "" →
    q_EnrolSecret rq = secret → exec (Enroll uuid ca ex cex (Some rq)) dx =
      (fst (exec (Validate uuid ex org secret) dx), mint a cex org (TrimSpace (q_DeviceID rq)) (snd (exec (Validate uuid ex org secret) dx)))).
  { intros ex cex rq dx _ _ Eo Ed Es. unfold Enroll. rewrite Eo, Es, Hca. rewrite !bool_decide_eq_false_2 by done. cbn [orb].
    by rewrite exec_bind. }
  eexists. split_and!.
  - rewrite (Henroll e2 ce req d1) by done.
    rewrite (validate_alone e2 org secret d1 o id r), Ha by done. cbn [fst snd mint]. by rewrite Hmint.
  - revert Hmint. unfold DeviceCa.DeviceCa.MintEnrolToken. cbv zeta. rewrite TrimSpace_idem, bool_decide_eq_false_2 by done.
    destruct (DeviceCa.DeviceCa.mintToken _ _ _); [|done]. by intros [= <-].
  - intros e3 ce3 req3 K0 K1 Ko Kd Ks. rewrite (Henroll e3 ce3 req3) by done.
    rewrite (validate_alone e3 org secret _ o id (consumed (now e2 1) r)); [done|done|done|done|done|done|..].
    + apply lookup_insert_eq.
    + done.
    + cbn. intros j x [[<- _]|[_ Hj]]%lookup_insert_Some Hx; [done|]. by apply (Hone j x).
Qed.

End Proofs.

(** ** Witnesses *)

Section Witness.
#[local] Existing Instance DeviceCa.DeviceCa.toy_jose.

Definition demo_uuid (s : string) : option string := Some s.
Definition demo_env (id : string) : env := mkEnv (λ _, true) (λ _, 7%Z) (Some (of_string "0123456789abcdefghijklmn")) id canonical_order.
Definition demo_row : secret_row :=
  mkSecretRow "acme" (hashEnrolSecret "apx_demo") "Device enrolment" "apx_" "active" None 1 None None None.
Definition demo_db : DB := mkDB {["s1" := demo_row]} {["acme"]} ∅.
Definition demo_call (device : string) : call :=
  CEnroll (demo_env "") DeviceCa.DeviceCa.demo_ca_env (Some (mkEnrol "acme" device " apx_demo " "" "")).
(** Two devices race for one secret: both find it before one of them consumes it. *)
Definition demo_race : pool DB reply call :=
  schedule (serve demo_uuid (Some DeviceCa.DeviceCa.demo_ca)) demo_db [demo_call "d1"; demo_call "d2"] [0; 1; 1; 0].

Lemma secret_single_use_witness :
  count (let_through demo_uuid ("acme", hashEnrolSecret "apx_demo")) (requests demo_race) = 1
  ∧ snd <$> requests demo_race !! 0 = Some (Ret refused).
Proof.
  split; [|vm_compute; reflexivity].
  destruct (secret_single_use demo_uuid (Some DeviceCa.DeviceCa.demo_ca) demo_db demo_race "s1" demo_row)
    as (r' & Hr' & _ & Hc & _).
  - intros i j r s Hi Hj _. cbn [secrets demo_db] in Hi, Hj. apply lookup_singleton_Some in Hi as [<- _], Hj as [<- _]. reflexivity.
  - reflexivity.
  - reflexivity.
  - apply schedule_reachable.
  - change ("acme", hashEnrolSecret "apx_demo") with (s_key demo_row). rewrite Hc.
    assert (Hs : s_status <$> secrets (data demo_race) !! "s1" = Some "consumed") by (vm_compute; reflexivity).
    rewrite Hr' in Hs. injection Hs as ->. reflexivity.
Defined.

Definition demo_generated : DB * reply := exec (GenerateSecret demo_uuid (demo_env "s2") "acme" "" "Laptops") demo_db.
Definition demo_secret : string := secret_text (of_string "0123456789abcdefghijklmn").
Lemma generated_secret_enrols_witness :
  ∃ d'' t, exec (Enroll demo_uuid (Some DeviceCa.DeviceCa.demo_ca) (demo_env "") DeviceCa.DeviceCa.demo_ca_env
      (Some (mkEnrol " acme" "laptop" demo_secret "" ""))) (fst demo_generated) = (d'', EToken "acme" t)
    ∧ DeviceCa.DeviceCa.Subject t = "laptop".
Proof.
  destruct (generated_secret_enrols demo_uuid (Some DeviceCa.DeviceCa.demo_ca) DeviceCa.DeviceCa.demo_ca demo_db (demo_env "s2")
    "acme" "" "Laptops" (fst demo_generated) demo_secret (mkSecret "s2" "acme" "Laptops" (prefix_of demo_secret) "active" 7 None None)
    (demo_env "") DeviceCa.DeviceCa.demo_ca_env
    (DeviceCa.DeviceCa.mkEnrolToken "k1:kid" "https://ca.test" "abcd" "portal" "laptop" (305 * second))
    (mkEnrol " acme" "laptop" demo_secret "" "")) as (d'' & Hd & Hs & _);
    [reflexivity|vm_compute; reflexivity|reflexivity|vm_compute; discriminate|reflexivity|reflexivity|reflexivity|vm_compute; reflexivity|].
  eexists d'', _. split; [exact Hd|exact Hs].
Defined.

End Witness.

End EnrolSecrets.
