(* ===== verification/Onboard.v ===== *)
(** * One-time passcodes of the onboarding

    [src/internal/api/handlers/onboard_handler.go]: a visitor asks for a passcode of six digits,
    which is mailed, or returned where no mail is configured, and presents it for an onboarding
    token.  Codes are hashed, live four hours and allow five wrong attempts.  The two handlers
    are programs of database statements ([Interleave]).

    Run one after the other, wrong guesses are paid from a budget of five per code issued; run
    at the same time, any number of guesses is tested against one code. *)

From S2P Require Import Prelude GoStrings GoTime Encoding Sql Sha256 Interleave.
From Stdlib Require Import Ascii.
#[local] Open Scope string_scope.
#[local] Open Scope nat_scope.
#[local] Open Scope list_scope.

Module Onboard.
Import GoStrings GoTime Sql Interleave.

(** ** The table *)

Record otp_row := mkOtp {
  o_email : string;
  o_code_hash : string;
  o_token : option string;
  o_expires_at : Z;
  o_consumed_at : option Z;
  o_attempts : Z;
  o_created_at : Z;
}.
Record DB := mkDB { otps : gmap string otp_row }.

(** One request: outcomes and times of its statements, the digits ([None] a failing random
    source), the token bytes, the text of the time, which replaces them on failure, and whether
    mail is configured. *)
Record env := mkEnv {
  ok : nat → bool;
  now : nat → Z;
  digits : nat → option Z;
  token_bytes : option bytes;
  time_String : string;
  new_id : string;
  sesConfigured : bool;
  e_ro : range_order;
}.

Definition onboardOTPTTL : Z := (4 * 3600 * second)%Z.
Definition maxOTPAttempts : Z := 5.

(** [^[^@\s]+@[^@\s]+\.[^@\s]+$] *)
Definition re_space (c : ascii) : bool :=
  existsb (Ascii.eqb c) ["009"%char; "010"%char; "012"%char; "013"%char; " "%char].
Definition word (l : list ascii) : bool :=
  match l with [] => false | _ => forallb (λ c, negb (re_space c)) l end.
Definition onboardEmailRe (s : string) : bool :=
  match String.list_ascii_of_string <$> Split "@"%char s with
  | [a; b] => word a && word b && existsb (Ascii.eqb ".") (removelast (tl b))
  | _ => false
  end.

Definition sha256Hex (s : string) : string := Hex.encode (Sha256.sha256 (of_string s)).
Definition digit (d : option Z) : ascii := Hex.digit (default 0%Z d).
Definition randomDigits (e : env) (n : nat) : string := String.string_of_list_ascii ((λ i, digit (digits e i)) <$> seq 0 n).
Definition randomToken (e : env) : string :=
  match token_bytes e with Some b => Hex.encode b | None => sha256Hex (time_String e) end.

(** ** Handlers *)

Inductive reply :=
| OErr (status : Z) (msg : string)
| OSent
| ODemo (code : string)
| OToken (token expires_at : string).
Definition invalid : reply := OErr 400 "invalid or expired passcode".

Definition normal_email (s : string) : string := ToLower (TrimSpace s).

Definition insert_otp (e : env) (email hash : string) (expires : Z) (d : DB) : DB * bool :=
  if ok e 0 && bool_decide (otps d !! new_id e = None)
  then (mkDB (<[new_id e := mkOtp email hash None expires None 0 (now e 0)]> (otps d)), true)
  else (d, false).
Definition RequestOTP (e : env) (body : option string) : prog DB reply :=
  match body with
  | None => Ret (OErr 400 "invalid request")
  | Some email =>
      let email := normal_email email in
      if negb (onboardEmailRe email) then Ret (OErr 400 "invalid email")
      else
        let code := randomDigits e 6 in
        bind (stmt (insert_otp e email (sha256Hex code) (now e 1 + onboardOTPTTL)%Z)) (λ done,
          Ret (if (done : bool) then (if sesConfigured e then OSent else ODemo code)
               else OErr 500 "could not issue passcode"))
  end.

(** [WHERE email = $1 AND consumed_at IS NULL AND expires_at > now() AND attempts < $2 ORDER BY
    created_at DESC LIMIT 1] *)
Definition live (t : Z) (email : string) (r : otp_row) : bool :=
  bool_decide (o_email r = email) && bool_decide (o_consumed_at r = None) && (t <? o_expires_at r)%Z
  && (o_attempts r <? maxOTPAttempts)%Z.
Definition find_otp (e : env) (email : string) (d : DB) : option (string * string) :=
  if ok e 0
  then (λ '(id, r), (id, o_code_hash r)) <$> head (newest o_created_at (select (e_ro e) (λ _ r, live (now e 0) email r) (otps d)))
  else None.

Definition attempted (r : otp_row) : otp_row :=
  mkOtp (o_email r) (o_code_hash r) (o_token r) (o_expires_at r) (o_consumed_at r) (o_attempts r + 1) (o_created_at r).
Definition verified (t : Z) (token : string) (r : otp_row) : otp_row :=
  mkOtp (o_email r) (o_code_hash r) (Some token) (o_expires_at r) (Some t) (o_attempts r) (o_created_at r).
Definition update (e : env) (f : otp_row → otp_row) (id : string) (d : DB) : DB * bool :=
  if ok e 1 then (mkDB (alter f id (otps d)), true) else (d, false).

(** What follows the query. *)
Definition compare (e : env) (code : string) (found : option (string * string)) : prog DB reply :=
  match found with
  | None => Ret invalid
  | Some (id, hash) =>
      if negb (bool_decide (sha256Hex code = hash))
      then bind (stmt (update e attempted id)) (λ _, Ret invalid)
      else
        let token := randomToken e in
        bind (stmt (update e (verified (now e 1) token) id)) (λ done,
          Ret (if (done : bool) then OToken token (RFC3339 (now e 2 + onboardOTPTTL))
               else OErr 500 "could not complete verification"))
  end.
Definition VerifyOTP (e : env) (body : option (string * string)) : prog DB reply :=
  match body with
  | None => Ret (OErr 400 "invalid request")
  | Some (email, code) =>
      let email := normal_email email in
      let code := TrimSpace code in
      if negb (onboardEmailRe email) || negb (String.length code =? 6) then Ret (OErr 400 "invalid request")
      else bind (query (find_otp e email)) (compare e code)
  end.

Inductive call :=
| CRequest (e : env) (body : option string)
| CVerify (e : env) (body : option (string * string)).
Definition serve (c : call) : prog DB reply :=
  match c with CRequest e body => RequestOTP e body | CVerify e body => VerifyOTP e body end.

(** ** One after the other: a budget of wrong guesses *)

Section Budget.
Context (email : string).

(** The wrong attempts a row still allows. *)
Definition left_over (r : otp_row) : nat :=
  if bool_decide (o_email r = email) then Z.to_nat (maxOTPAttempts - o_attempts r) else 0.
Definition total (m : gmap string otp_row) : nat := sum_list_with (λ kv, left_over (snd kv)) (map_to_list m).
Definition budget (d : DB) : nat := total (otps d).

Lemma total_delete m i r : m !! i = Some r → total m = left_over r + total (delete i m).
Proof. intros Hi. unfold total. by rewrite <- (map_to_list_delete m i r Hi). Qed.
Lemma total_insert m i r : m !! i = None → total (<[i := r]> m) = left_over r + total m.
Proof. intros Hi. unfold total. by rewrite (map_to_list_insert m i r Hi). Qed.
Lemma total_alter m i f r : m !! i = Some r → total (alter f i m) + left_over r = total m + left_over (f r).
Proof.
  intros Hi. rewrite (total_delete m i r Hi), (total_delete (alter f i m) i (f r)) by by rewrite lookup_alter_eq, Hi.
  rewrite delete_alter_eq. lia.
Qed.

(** A code that was issued, and a guess that was tested and wrong. *)
Definition issues (d : DB) (c : call) : bool :=
  match c with
  | CRequest e (Some em) =>
      bool_decide (normal_email em = email)
      && match snd (exec (RequestOTP e (Some em)) d) with OSent | ODemo _ => true | _ => false end
  | _ => false
  end.
Definition guesses_wrong (d : DB) (c : call) : bool :=
  match c with
  | CVerify e (Some (em, code)) =>
      bool_decide (normal_email em = email) && onboardEmailRe email && (String.length (TrimSpace code) =? 6)
      && match find_otp e email d with Some (_, hash) => negb (bool_decide (sha256Hex (TrimSpace code) = hash)) | None => false end
  | _ => false
  end.

(** The calls one after the other, with the two counts. *)
Fixpoint serve_all (d : DB) (l : list call) : DB * nat * nat :=
  match l with
  | [] => (d, 0, 0)
  | c :: l =>
      let '(d', codes, wrong) := serve_all (fst (exec (serve c) d)) l in
      (d', Nat.b2n (issues d c) + codes, Nat.b2n (guesses_wrong d c) + wrong)
  end.

Lemma find_otp_spec e em d id hash : find_otp e em d = Some (id, hash) →
  ∃ r, otps d !! id = Some r ∧ live (now e 0) em r = true ∧ o_code_hash r = hash.
Proof.
  unfold find_otp. destruct (ok e 0); [|done]. unfold newest.
  set (sel := select _ _ _). destruct (merge_sort _ sel) as [|[i r] l] eqn:Hm; [done|]. cbn. intros [= <- <-]. exists r.
  assert (Hin : (i, r) ∈ sel) by
    (rewrite <- (merge_sort_Permutation (λ a b : string * otp_row, (o_created_at (snd b) <=? o_created_at (snd a))%Z) sel), Hm; apply list_elem_of_here).
  apply elem_of_select in Hin as [Hr Hl]. done.
Qed.

Lemma update_budget e f id d r k : otps d !! id = Some r → (left_over r = left_over (f r) + k) → (ok e 1 = true ∨ k = 0) →
  budget (fst (update e f id d)) + k = budget d.
Proof.
  intros Hr Hf Hok. unfold update. destruct (ok e 1); cbn [fst budget]; [|destruct Hok; [done|lia]].
  pose proof (total_alter (otps d) id f r Hr). unfold budget. cbn [otps]. lia.
Qed.

Lemma verify_budget e em code d : ok e 1 = true →
  budget (fst (exec (VerifyOTP e (Some (em, code))) d)) + Nat.b2n (guesses_wrong d (CVerify e (Some (em, code)))) = budget d.
Proof.
  intros Hok. unfold VerifyOTP, guesses_wrong. destruct (onboardEmailRe (normal_email em)) eqn:Hre.
  2: { case_bool_decide as Hem; [rewrite <- Hem, Hre|]; cbn; lia. }
  destruct (String.length (TrimSpace code) =? 6) eqn:Hlen; [|cbn; rewrite !andb_false_r; cbn; lia].
  cbn [negb orb]. rewrite exec_bind. cbn [query stmt exec fst snd]. rewrite andb_true_r.
  assert (Hother : ∀ r, live (now e 0) (normal_email em) r = true → normal_email em ≠ email → left_over r = 0).
  { intros r Hl Hne. unfold live in Hl. unfold left_over. rewrite !andb_true_iff in Hl.
    destruct Hl as [[[Hl%bool_decide_eq_true _] _] _]. by rewrite bool_decide_eq_false_2 by congruence. }
  assert (Hkeep : ∀ t tok r, left_over r = left_over (verified t tok r) + 0) by (intros; unfold left_over; cbn; lia).
  destruct (find_otp e (normal_email em) d) as [[id hash]|] eqn:Hf; cbn [compare].
  - destruct (find_otp_spec _ _ _ _ _ Hf) as (r & Hr & Hl & Hh).
    destruct (bool_decide (sha256Hex (TrimSpace code) = hash)) eqn:Hc; cbn [negb]; rewrite exec_bind; cbn [stmt exec fst snd].
    + replace (Nat.b2n _) with 0; [apply (update_budget e _ _ _ r); [done|apply Hkeep|by left]|].
      destruct (decide (normal_email em = email)) as [Hem|]; [|by rewrite bool_decide_eq_false_2].
      by rewrite <- Hem, Hre, Hf, Hc, andb_false_r.
    + destruct (decide (normal_email em = email)) as [Hem|Hne].
      * replace (Nat.b2n _) with 1; [|by rewrite <- Hem, Hre, Hf, Hc, bool_decide_eq_true_2].
        apply (update_budget e _ _ _ r); [done| |by left]. unfold live in Hl. rewrite !andb_true_iff, Z.ltb_lt in Hl.
        destruct Hl as [[[Hl%bool_decide_eq_true _] _] Ha]. unfold left_over. cbn [o_email attempted o_attempts].
        rewrite bool_decide_eq_true_2 by congruence. unfold maxOTPAttempts in *. lia.
      * rewrite (bool_decide_eq_false_2 (normal_email em = email)) by done. cbn [andb Nat.b2n].
        apply (update_budget e _ _ _ r); [done| |by right]. pose proof (Hother r Hl Hne) as H0. unfold left_over in *. cbn.
        destruct (bool_decide (o_email r = email)); [|done]. lia.
  - replace (Nat.b2n _) with 0; [cbn; lia|]. case_bool_decide as Hem; [|done]. by rewrite <- Hem, Hre, Hf.
Qed.

Lemma request_budget e em d :
  budget (fst (exec (RequestOTP e (Some em)) d)) = budget d + 5 * Nat.b2n (issues d (CRequest e (Some em))).
Proof.
  unfold issues, RequestOTP. destruct (onboardEmailRe (normal_email em)); cbn [negb]; [|cbn [exec fst snd]; rewrite andb_false_r; cbn; lia].
  rewrite exec_bind. cbn [stmt exec fst snd]. unfold insert_otp.
  destruct (ok e 0); cbn [andb fst snd]; [|rewrite andb_false_r; cbn; lia].
  case_bool_decide as Hn; cbn [fst snd]; [|rewrite andb_false_r; cbn; lia].
  replace (match (if sesConfigured e then OSent else ODemo (randomDigits e 6)) with OSent | ODemo _ => true | _ => false end) with true
    by by destruct (sesConfigured e).
  rewrite andb_true_r. unfold budget. cbn [otps]. rewrite total_insert by done. unfold left_over. cbn [o_email o_attempts].
  change (Z.to_nat (maxOTPAttempts - 0)) with 5. destruct (bool_decide _); cbn [Nat.b2n]; lia.
Qed.

(** C27: The budget of wrong guesses.  When calls run one after the other and their counting
    statement succeeds, every wrong guess that is tested for an address is paid from its
    budget, exactly: what is left, and the wrong guesses, are together what was left before and
    five for each code issued.  So there are never more wrong guesses than five per code; and
    whoever asks for codes buys guesses. *)
Theorem otp_guess_budget d l :
  (∀ c, c ∈ l → match c with CVerify e _ => ok e 1 = true | CRequest _ _ => True end) →
  let '(d', codes, wrong) := serve_all d l in
  budget d' + wrong = budget d + 5 * codes ∧ wrong ≤ budget d + 5 * codes.
Proof.
  intros Hok. destruct (serve_all d l) as [[d' codes] wrong] eqn:Hs. cut (budget d' + wrong = budget d + 5 * codes); [lia|].
  revert d d' codes wrong Hs. induction l as [|c l IH]; intros d d' codes wrong; cbn; [intros [= <- <- <-]; lia|].
  destruct (serve_all _ l) as [[d1 codes1] wrong1] eqn:Hl. intros [= <- <- <-].
  apply IH in Hl; [|intros c' Hc'; apply Hok; by apply list_elem_of_further].
  specialize (Hok c (list_elem_of_here c l)).
  destruct c as [e [em|]|e [[em code]|]]; cbn [serve] in Hl |- *.
  - rewrite (request_budget e em d) in Hl. cbn [guesses_wrong Nat.b2n]. lia.
  - cbn in Hl |- *. lia.
  - pose proof (verify_budget e em code d Hok) as Hv. cbn [issues Nat.b2n]. lia.
  - cbn in Hl |- *. lia.
Qed.

End Budget.

(** ** At the same time: any number of guesses *)

(** The answer to a guess at the code with hash [hash]. *)
Definition answer (e : env) (code hash : string) : reply :=
  if bool_decide (sha256Hex (TrimSpace code) = hash) then OToken (randomToken e) (RFC3339 (now e 2 + onboardOTPTTL)) else invalid.

(** Guesses at the same time are not limited.  Take any number of guesses for an address,
    of which each alone would find the one live code.  When the requests execute their queries
    before their updates, each of them is tested against the code, and answered as if it were
    the first: whoever sends the right code, at whatever position, is given a token, and so is
    everyone else who sends it. *)
Theorem otp_race d em id hash (guesses : list (env * string)) :
  onboardEmailRe (normal_email em) = true →
  (∀ e code, (e, code) ∈ guesses → ok e 1 = true ∧ String.length (TrimSpace code) = 6 ∧ find_otp e (normal_email em) d = Some (id, hash)) →
  let calls := (λ g, CVerify (fst g) (Some (em, snd g))) <$> guesses in
  let n := length guesses in
  requests (schedule serve d calls (seq 0 n ++ seq 0 n)) =
    (λ g, (CVerify (fst g) (Some (em, snd g)), Ret (answer (fst g) (snd g) hash))) <$> guesses.
Proof.
  intros Hre Hg calls n. unfold schedule. rewrite foldl_app.
  pose (point := λ t : call * prog DB reply,
    match fst t with CVerify e (Some (_, code)) => compare e (TrimSpace code) (Some (id, hash)) | _ => snd t end).
  pose (final := λ t : call * prog DB reply,
    match fst t with CVerify e (Some (_, code)) => Ret (answer e code hash) | _ => snd t end).
  assert (Hcalls : ∀ t, t ∈ (λ c, (c, serve c)) <$> calls → ∃ e code, (e, code) ∈ guesses ∧ t = (CVerify e (Some (em, code)), VerifyOTP e (Some (em, code)))).
  { intros t (c & -> & Hc)%list_elem_of_fmap. apply list_elem_of_fmap in Hc as ([e code] & -> & Hin). by exists e, code. }
  set (ts := (λ c, (c, serve c)) <$> calls) in *.
  assert (Hn : n = length ts) by (subst n ts calls; by rewrite !length_fmap).
  rewrite Hn. destruct (round (λ d', d' = d) point ts [] d) as [Hd Hr]; [done|..].
  { intros t d' (e & code & Hin & ->)%Hcalls ->. destruct (Hg _ _ Hin) as (_ & Hl & Hf).
    cbn [snd]. unfold VerifyOTP. rewrite Hre, Hl. cbn [negb orb Nat.eqb]. split; [done|]. cbn [next bind query stmt fst snd]. by rewrite Hf. }
  cbn [app length] in Hd, Hr. set (s1 := foldl advance _ _) in *. destruct s1 as [d1 ts1]. cbn in Hd, Hr. subst d1 ts1.
  set (ts2 := (λ t, (fst t, point t)) <$> ts) in *.
  assert (Hn2 : length ts = length ts2) by (subst ts2; by rewrite length_fmap). rewrite Hn2.
  destruct (round (λ _, True) final ts2 [] d) as [_ Hr2]; [done|..].
  { intros t d' (t0 & -> & (e & code & Hin & ->)%Hcalls)%list_elem_of_fmap _. destruct (Hg _ _ Hin) as (Hok & _).
    split; [done|]. unfold point, final, answer. cbn [fst snd compare].
    case_bool_decide; cbn [negb]; cbn [next bind stmt fst snd]; unfold update; by rewrite ?Hok. }
  cbn [app length] in Hr2. rewrite Hr2. subst ts2 ts calls. rewrite <- !list_fmap_compose. apply list_fmap_ext.
  by intros i [e code] _.
Qed.

(** ** Witnesses *)

(** The code is always 424242. *)
Definition demo_env (t : Z) (id : string) : env :=
  mkEnv (λ _, true) (λ _, t) (λ i, Some (if Nat.even i then 4 else 2)%Z) (Some (of_string "token")) "" id true canonical_order.
Definition demo_email : string := " Ann@acme.test".
Definition demo_guess (t : Z) (code : string) : call := CVerify (demo_env t "") (Some (demo_email, code)).
Definition demo_calls : list call :=
  [CRequest (demo_env 1 "o1") (Some demo_email); demo_guess 2 "000000"; demo_guess 3 "111111"; demo_guess 4 "424242"].
Definition demo_db : DB := mkDB {["o1" := mkOtp "ann@acme.test" (sha256Hex "424242") None onboardOTPTTL None 0 1]}.

Lemma otp_guess_budget_witness :
  let '(d', codes, wrong) := serve_all "ann@acme.test" (mkDB ∅) demo_calls in
  codes = 1 ∧ wrong = 2 ∧ budget "ann@acme.test" d' + wrong = 5.
Proof.
  pose proof (otp_guess_budget "ann@acme.test" (mkDB ∅) demo_calls) as Hb.
  assert (Hs : snd (fst (serve_all "ann@acme.test" (mkDB ∅) demo_calls)) = 1 ∧ snd (serve_all "ann@acme.test" (mkDB ∅) demo_calls) = 2)
    by (vm_compute; done).
  destruct (serve_all _ _ demo_calls) as [[d' codes] wrong]. cbn in Hs. destruct Hs as [-> ->].
  destruct Hb as [Hb _]; [|done].
  intros c Hc. unfold demo_calls in Hc. rewrite !elem_of_cons in Hc.
  destruct Hc as [->|[->|[->|[->|Hc%elem_of_nil]]]]; done.
Defined.

(** Seven guesses and the right code, where five are allowed. *)
Lemma otp_race_witness :
  let guesses := (λ c, (demo_env 2 "", c)) <$> ["000000"; "111111"; "222222"; "333333"; "444444"; "555555"; "666666"; "424242"] in
  snd <$> requests (schedule serve demo_db ((λ g, CVerify (fst g) (Some (demo_email, snd g))) <$> guesses)
      (seq 0 8 ++ seq 0 8)) !! 7 =
  Some (Ret (OToken (Hex.encode (of_string "token")) (RFC3339 (2 + onboardOTPTTL)))).
Proof.
  cbv zeta. rewrite (otp_race demo_db demo_email "o1" (sha256Hex "424242") _) at 1; [vm_compute; reflexivity|vm_compute; reflexivity|].
  intros e code (c & [= -> ->] & Hc)%list_elem_of_fmap. split; [reflexivity|].
  rewrite !elem_of_cons in Hc. destruct Hc as [->|[->|[->|[->|[->|[->|[->|[->|Hc%elem_of_nil]]]]]]]]; [split; vm_compute; reflexivity..|done].
Defined.

End Onboard.
