(* ===== verification/Connector.v ===== *)
(** * The directory connector's tables (internal/db/connector_store.go)

    An Active Directory connector pulls its configuration and pushes full snapshots of users
    and groups, by security identifier (SID).  Each connector has its rows of users and groups,
    kept here as a map per connector; an administrator sets per group whether it may flow into
    the system, and a new snapshot keeps that choice.

    A statement has an outcome of its own, by a name and a position ([ok]).  [ilike] is the
    pattern matching of the database, [json_list] what a JSON column gives back of a list of
    strings, [None] when it refuses the text. *)

From S2P Require Import Prelude GoStrings Encoding Sql.
#[local] Open Scope string_scope.
#[local] Open Scope nat_scope.
#[local] Open Scope list_scope.

Module Connector.
Import GoStrings Sql.

(** ** Data *)

Record ConnectorConfig := mkConfig {
  ConnectorID : string;
  OrgID : string;
  Domain : string;
  DCAddr : string;
  BaseDN : string;
  BindDN : string;
  UserFilter : string;
  GroupFilter : string;
  SyncInterval : string;
  TLSInsecure : bool;
}.
Record ConnectorGroup := mkCGroup {
  g_SID : string;
  g_Name : string;
  g_SAMAccountName : string;
  SyncEnabled : bool;
}.
Record ConnectorUser := mkCUser {
  u_SID : string;
  UPN : string;
  SAMAccountName : string;
  DisplayName : string;
  Email : string;
  Enabled : bool;
  GroupSIDs : list string;
}.

Record config_row := mkConfigRow {
  f_org : option string;
  f_domain : string;
  f_dc_addr : string;
  f_base_dn : option string;
  f_bind_dn : option string;
  f_user_filter : option string;
  f_group_filter : option string;
  f_sync_interval : string;
  f_tls_insecure : bool;
  f_updated_at : Z;
}.
Record cgroup_row := mkGroupRow {
  cg_name : option string;
  cg_sam : option string;
  cg_synced_at : Z;
  cg_sync_enabled : bool;
}.
Record cuser_row := mkUserRow {
  cu_upn : option string;
  cu_sam : option string;
  cu_display : option string;
  cu_email : option string;
  cu_enabled : option bool;
  cu_group_sids : option (list string);
  cu_synced_at : Z;
}.
(** Groups and users by connector and SID. *)
Record DB := mkDB {
  configs : gmap string config_row;
  cgroups : gmap string (gmap string cgroup_row);
  cusers : gmap string (gmap string cuser_row);
}.
Definition groups_of (d : DB) (c : string) : gmap string cgroup_row := default ∅ (cgroups d !! c).
Definition users_of (d : DB) (c : string) : gmap string cuser_row := default ∅ (cusers d !! c).

Record env := mkEnv {
  now : Z;
  ok : string → nat → bool;
  new_id : string → nat → string;
  e_ro : range_order;
}.

(** ** Configuration *)

(** [None]: there is no row. *)
Definition GetConfig (e : env) (d : DB) (connectorID : string) : result string (option ConnectorConfig) :=
  if ok e "config" 0
  then Ok ((λ r, mkConfig connectorID (default "" (f_org r)) (f_domain r) (f_dc_addr r) (default "" (f_base_dn r))
                  (default "" (f_bind_dn r)) (default "" (f_user_filter r)) (default "" (f_group_filter r))
                  (f_sync_interval r) (f_tls_insecure r)) <$> configs d !! connectorID)
  else Err "config lookup failed".

(** The stored row is read back; the read may fail after the write. *)
Definition UpsertConfig (e : env) (d : DB) (connectorID orgID : string) (c : ConnectorConfig)
  : DB * result string ConnectorConfig :=
  if negb (ok e "upsert" 0) then (d, Err "upsert connector config")
  else
    let r := mkConfigRow (nilIfEmpty orgID) (Domain c) (DCAddr c) (nilIfEmpty (BaseDN c)) (nilIfEmpty (BindDN c))
               (nilIfEmpty (UserFilter c)) (nilIfEmpty (GroupFilter c)) (SyncInterval c) (TLSInsecure c) (now e) in
    let d := mkDB (<[connectorID := r]> (configs d)) (cgroups d) (cusers d) in
    match GetConfig e d connectorID with
    | Ok (Some c) => (d, Ok c)
    | Ok None => (d, Err "no rows")
    | Err x => (d, Err x)
    end.

(** ** Snapshots *)

Section Store.
Context (ilike : string → string → bool) (json_list : list string → option (list string)).

(** [INSERT ... ON CONFLICT (connector_id, sid) DO UPDATE]: the choice of the administrator
    stays. *)
Definition upsert_group (t : Z) (m : gmap string cgroup_row) (g : ConnectorGroup) : gmap string cgroup_row :=
  <[g_SID g := mkGroupRow (Some (g_Name g)) (Some (g_SAMAccountName g)) t
                 (default false (cg_sync_enabled <$> m !! g_SID g))]> m.
Fixpoint upsert_groups (e : env) (i : nat) (m : gmap string cgroup_row) (l : list ConnectorGroup)
  : option (gmap string cgroup_row) :=
  match l with
  | [] => Some m
  | g :: l => if ok e "group" i then upsert_groups e (S i) (upsert_group (now e) m g) l else None
  end.
Definition user_row (t : Z) (u : ConnectorUser) (sids : list string) : cuser_row :=
  mkUserRow (Some (UPN u)) (Some (SAMAccountName u)) (Some (DisplayName u)) (Some (Email u)) (Some (Enabled u)) (Some sids) t.
(** A SID that is there already violates the primary key. *)
Fixpoint insert_users (e : env) (i : nat) (m : gmap string cuser_row) (l : list ConnectorUser)
  : option (gmap string cuser_row) :=
  match l with
  | [] => Some m
  | u :: l =>
      match json_list (GroupSIDs u) with
      | Some sids =>
          if ok e "user" i && bool_decide (m !! u_SID u = None)
          then insert_users e (S i) (<[u_SID u := user_row (now e) u sids]> m) l else None
      | None => None
      end
  end.
(** One transaction, whose time is [now]. *)
Definition ReplaceSnapshot (e : env) (d : DB) (connectorID : string) (users : list ConnectorUser) (groups : list ConnectorGroup)
  : DB * result string unit :=
  if negb (ok e "begin" 0 && ok e "clear users" 0) then (d, Err "begin tx")
  else
    match upsert_groups e 0 (groups_of d connectorID) groups with
    | None => (d, Err "upsert group")
    | Some m =>
        if negb (ok e "prune" 0) then (d, Err "prune stale groups")
        else
          let m := filter (λ kv, ¬ (cg_synced_at (snd kv) < now e)%Z) m in
          match insert_users e 0 ∅ users with
          | None => (d, Err "insert user")
          | Some us =>
              if ok e "commit" 0
              then (mkDB (configs d) (<[connectorID := m]> (cgroups d)) (<[connectorID := us]> (cusers d)), Ok tt)
              else (d, Err "commit")
          end
    end.

(** ** Reading *)

Definition latest (a b : option Z) : option Z :=
  match a, b with Some x, Some y => Some (x `max` y)%Z | None, o | o, None => o end.
(** Counts and the last synchronisation. *)
Definition Status (e : env) (d : DB) (connectorID : string) : result string (nat * nat * option Z) :=
  if ok e "status" 0
  then Ok (size (users_of d connectorID), size (groups_of d connectorID),
           map_fold (λ _ r acc, latest (Some (cu_synced_at r)) acc) None (users_of d connectorID))
  else Err "status".

Definition clamp_limit (limit : Z) : nat := if (limit <? 1)%Z || (1000 <? limit)%Z then 200 else Z.to_nat limit.
Definition clamp_offset (offset : Z) : nat := if (offset <? 0)%Z then 0 else Z.to_nat offset.
Definition opt_ilike (o : option string) (pattern : string) : bool := match o with Some s => ilike s pattern | None => false end.
(** [ORDER BY column ASC]: nulls first. *)
Definition opt_leb (a b : option string) : bool :=
  match a, b with None, _ => true | Some _, None => false | Some x, Some y => String.leb x y end.
Definition by_column {V} (f : V → option string) (a b : string * V) : Prop := opt_leb (f (snd a)) (f (snd b)) = true.
#[export] Instance by_column_dec {V} (f : V → option string) : RelDecision (by_column f).
Proof. intros a b. unfold by_column. apply _. Defined.

Definition scan_user (sid : string) (r : cuser_row) : ConnectorUser :=
  mkCUser sid (default "" (cu_upn r)) (default "" (cu_sam r)) (default "" (cu_display r)) (default "" (cu_email r))
    (default false (cu_enabled r)) (default [] (cu_group_sids r)).
Definition scan_group (sid : string) (r : cgroup_row) : ConnectorGroup :=
  mkCGroup sid (default "" (cg_name r)) (default "" (cg_sam r)) (cg_sync_enabled r).

(** [ListUsers] scans the flag into a [bool]: a null one is an error, with the first such row. *)
Definition ListUsers (e : env) (d : DB) (connectorID search : string) (offset limit : Z)
  : result string (list ConnectorUser * nat) :=
  let p := "%" +:+ search +:+ "%" in
  let rows := select (e_ro e) (λ _ r, bool_decide (search = "") || opt_ilike (cu_upn r) p || opt_ilike (cu_email r) p
                                      || opt_ilike (cu_display r) p || opt_ilike (cu_sam r) p) (users_of d connectorID) in
  if negb (ok e "count" 0 && ok e "list" 0) then Err "list connector users"
  else
    let page := take (clamp_limit limit) (drop (clamp_offset offset) (merge_sort (by_column cu_upn) rows)) in
    if forallb (λ kv, bool_decide (is_Some (cu_enabled (snd kv)))) page
    then Ok (map (uncurry scan_user) page, length rows) else Err "scan connector user".
Definition ListGroups (e : env) (d : DB) (connectorID search : string) (offset limit : Z)
  : result string (list ConnectorGroup * nat) :=
  let p := "%" +:+ search +:+ "%" in
  let rows := select (e_ro e) (λ _ r, bool_decide (search = "") || opt_ilike (cg_name r) p || opt_ilike (cg_sam r) p)
                (groups_of d connectorID) in
  if negb (ok e "count" 0 && ok e "list" 0) then Err "list connector groups"
  else Ok (map (uncurry scan_group) (take (clamp_limit limit) (drop (clamp_offset offset) (merge_sort (by_column cg_name) rows))),
           length rows).

Definition set_sync (b : bool) (r : cgroup_row) : cgroup_row := mkGroupRow (cg_name r) (cg_sam r) (cg_synced_at r) b.
Definition SetGroupSyncEnabled (e : env) (d : DB) (connectorID sid : string) (enabled : bool) : DB * result string unit :=
  if negb (ok e "toggle" 0) then (d, Err "set sync_enabled")
  else
    match groups_of d connectorID !! sid with
    | None => (d, Err "connector group not found")
    | Some r =>
        (mkDB (configs d) (<[connectorID := <[sid := set_sync enabled r]> (groups_of d connectorID)]> (cgroups d)) (cusers d), Ok tt)
    end.

(** ** A snapshot replaces the previous one, and the choice of groups stays *)

Lemma upsert_groups_lookup e i m l m' sid : upsert_groups e i m l = Some m' →
  m' !! sid = match (list_to_map (reverse ((λ g, (g_SID g, g)) <$> l)) : gmap string ConnectorGroup) !! sid with
              | Some g => Some (mkGroupRow (Some (g_Name g)) (Some (g_SAMAccountName g)) (now e)
                                  (default false (cg_sync_enabled <$> m !! sid)))
              | None => m !! sid
              end.
Proof.
  revert i m. induction l as [|g l IH]; intros i m; cbn [upsert_groups]; [by intros [= <-]|].
  destruct (ok e "group" i); [|done]. intros Hl. rewrite (IH _ _ Hl). clear IH Hl.
  rewrite fmap_cons, reverse_cons, list_to_map_app. cbn. rewrite lookup_union, insert_empty. unfold upsert_group.
  set (rest := list_to_map _ : gmap string ConnectorGroup). destruct (rest !! sid) as [g'|] eqn:Hr; cbn.
  - destruct (decide (g_SID g = sid)) as [<-|Hne]; [rewrite lookup_singleton_eq, lookup_insert_eq|
      rewrite lookup_singleton_ne, lookup_insert_ne by done]; done.
  - destruct (decide (g_SID g = sid)) as [<-|Hne]; [by rewrite lookup_singleton_eq, lookup_insert_eq|].
    by rewrite lookup_singleton_ne, lookup_insert_ne by done.
Qed.

Lemma insert_users_lookup e i m l m' : insert_users e i m l = Some m' →
  NoDup (u_SID <$> l) ∧ (∀ u, u ∈ l → m !! u_SID u = None ∧ ∃ sids, json_list (GroupSIDs u) = Some sids ∧ m' !! u_SID u = Some (user_row (now e) u sids))
  ∧ ∀ sid, sid ∉ u_SID <$> l → m' !! sid = m !! sid.
Proof.
  revert i m. induction l as [|u l IH]; intros i m; cbn [insert_users fmap list_fmap].
  - intros [= <-]. split_and!; [constructor|by intros u Hu%elem_of_nil|done].
  - destruct (json_list (GroupSIDs u)) as [sids|] eqn:Hj; [|done]. destruct (_ && _) eqn:Hg; [|done].
    apply andb_true_iff in Hg as [_ Hnone%bool_decide_eq_true]. intros Hl. destruct (IH _ _ Hl) as (Hnd & Hin & Hout).
    assert (Hfresh : u_SID u ∉ u_SID <$> l).
    { intros (v & Hv & Hvl)%list_elem_of_fmap. destruct (Hin v Hvl) as [Hx _]. rewrite <- Hv, lookup_insert_eq in Hx. done. }
    split_and!.
    + by constructor.
    + intros v [->|Hv]%elem_of_cons.
      * split; [done|]. exists sids. split; [done|]. rewrite (Hout _ Hfresh). apply lookup_insert_eq.
      * destruct (Hin v Hv) as [Hx Hy]. split; [|done].
        rewrite lookup_insert_ne in Hx; [done|]. intros E. apply Hfresh. rewrite E. by apply list_elem_of_fmap_2.
    + intros sid [Hne Hnl]%not_elem_of_cons. rewrite (Hout _ Hnl). by rewrite lookup_insert_ne.
Qed.

(** A snapshot replaces the one before.  When a synchronisation succeeds, later than those
    before it, the users of the connector are exactly those of the snapshot, which names no SID
    twice; its groups are exactly those of the snapshot, a group that was there before with the
    administrator's choice unchanged, a new one not enabled; nothing else changes.  When it
    fails, nothing changes. *)
Theorem snapshot_exact e d c users groups :
  map_Forall (λ _ r, (cg_synced_at r < now e)%Z) (groups_of d c) →
  let '(d', res) := ReplaceSnapshot e d c users groups in
  match res with
  | Err _ => d' = d
  | Ok _ =>
      NoDup (u_SID <$> users)
      ∧ (∀ u, u ∈ users → ∃ sids, json_list (GroupSIDs u) = Some sids ∧ users_of d' c !! u_SID u = Some (user_row (now e) u sids))
      ∧ (∀ sid, is_Some (users_of d' c !! sid) ↔ sid ∈ u_SID <$> users)
      ∧ (∀ sid, is_Some (groups_of d' c !! sid) ↔ sid ∈ g_SID <$> groups)
      ∧ (∀ sid r, groups_of d' c !! sid = Some r → cg_sync_enabled r = default false (cg_sync_enabled <$> groups_of d c !! sid))
      ∧ configs d' = configs d ∧ ∀ c', c' ≠ c → groups_of d' c' = groups_of d c' ∧ users_of d' c' = users_of d c'
  end.
Proof.
  intros Hold. unfold ReplaceSnapshot. destruct (negb (ok e "begin" 0 && _)); [done|].
  destruct (upsert_groups e 0 _ groups) as [m|] eqn:Hm; [|done]. destruct (negb (ok e "prune" 0)); [done|].
  destruct (insert_users e 0 ∅ users) as [us|] eqn:Hu; [|done]. destruct (ok e "commit" 0); [|done].
  destruct (insert_users_lookup _ _ _ _ _ Hu) as (Hnd & Hin & Hout).
  pose proof (λ sid, upsert_groups_lookup _ _ _ _ _ sid Hm) as Hg. unfold groups_of, users_of. cbn [configs cgroups cusers].
  rewrite !lookup_insert_eq. cbn [default from_option]. unfold id.
  set (named := list_to_map (reverse ((λ g, (g_SID g, g)) <$> groups)) : gmap string ConnectorGroup) in *.
  assert (Hnamed : ∀ sid, is_Some (named !! sid) ↔ sid ∈ g_SID <$> groups).
  { intros sid. unfold named. rewrite <- elem_of_dom, dom_list_to_map, elem_of_list_to_set, fmap_reverse, elem_of_reverse.
    by rewrite <- list_fmap_compose. }
  assert (Hkept : ∀ sid r, filter (λ kv : string * cgroup_row, ¬ (cg_synced_at kv.2 < now e)%Z) m !! sid = Some r ↔
    ∃ g, named !! sid = Some g ∧ r = mkGroupRow (Some (g_Name g)) (Some (g_SAMAccountName g)) (now e)
                                     (default false (cg_sync_enabled <$> groups_of d c !! sid))).
  { intros sid r. rewrite map_lookup_filter_Some, (Hg sid). cbn. destruct (named !! sid) as [g|].
    - split; [intros [[= <-] _]; eauto|]. intros (g' & [= <-] & ->). split; [done|]. cbn. lia.
    - split; [|by intros (g & ? & _)]. intros [Hr Hl]. by apply Hold in Hr. }
  split_and!.
  - done.
  - intros u Hul. by apply (Hin u Hul).
  - intros sid. split.
    + intros [r Hr]. destruct (decide (sid ∈ u_SID <$> users)) as [|Hn]; [done|]. by rewrite (Hout _ Hn) in Hr.
    + intros (u & -> & Hul)%list_elem_of_fmap. destruct (Hin u Hul) as (_ & sids & _ & ->). done.
  - intros sid. rewrite <- Hnamed. split.
    + intros [r (g & Hgs & _)%Hkept]. by rewrite Hgs.
    + intros [g Hgs]. eexists. apply Hkept. by exists g.
  - intros sid r (g & _ & ->)%Hkept. done.
  - done.
  - intros c' Hc'. by rewrite !lookup_insert_ne by done.
Qed.

End Store.

(** ** Witness *)

Definition demo_env (t : Z) : env := mkEnv t (λ _ _, true) (λ tag i, tag +:+ itoa (Z.of_nat i)) canonical_order.
Definition demo_group (sid name : string) : ConnectorGroup := mkCGroup sid name name false.
Definition demo_user (sid name : string) (sids : list string) : ConnectorUser :=
  mkCUser sid (name +:+ "@ad.acme.test") name name "" true sids.
(** Sales may flow, Legal may not; the next snapshot has Sales and a new group. *)
Definition demo_db : DB :=
  mkDB ∅ {["ad" := {["g1" := mkGroupRow (Some "Sales") None 1 true; "g2" := mkGroupRow (Some "Legal") None 1 false]}]} ∅.
Definition demo_sync : DB * result string unit :=
  ReplaceSnapshot Some (demo_env 5) demo_db "ad" [demo_user "u1" "ann" ["g1"]] [demo_group "g1" "Sales"; demo_group "g3" "Lab"].

Lemma snapshot_exact_witness :
  ∃ r, groups_of (fst demo_sync) "ad" !! "g1" = Some r ∧ cg_sync_enabled r = true
    ∧ ¬ is_Some (groups_of (fst demo_sync) "ad" !! "g2") ∧ is_Some (users_of (fst demo_sync) "ad" !! "u1").
Proof.
  pose proof (snapshot_exact Some (demo_env 5) demo_db "ad" [demo_user "u1" "ann" ["g1"]] [demo_group "g1" "Sales"; demo_group "g3" "Lab"]) as H.
  fold demo_sync in H. assert (Hr : snd demo_sync = Ok tt) by (vm_compute; reflexivity).
  destruct demo_sync as [d' res]. cbn in Hr. subst res. cbn [fst].
  destruct H as (_ & _ & Hu & Hg & Hs & _); [by apply (bool_decide_unpack _); vm_compute|].
  destruct (proj2 (Hg "g1")) as [r Hr]; [by apply list_elem_of_here|].
  exists r. split_and!; [exact Hr|rewrite (Hs _ _ Hr); vm_compute; reflexivity| |apply Hu, list_elem_of_here].
  rewrite Hg. by_evaluation.
Defined.

End Connector.
