(* ===== verification/Directory.v ===== *)
(** * Directory bridge and provisioning

    [src/internal/db/directory_store.go], [src/internal/db/provisioning_store.go],
    [src/internal/api/handlers/connector_handler.go], [connector_admin_handler.go] and the import
    toggle of [src/cmd/server/main.go].  The groups a connector reports and an administrator
    allows become native groups (source [ldap]); of those, the ones selected for import decide
    which directory users are client users of the organization.  [Reconcile] runs after every
    synchronisation and every change of the selection: it onboards the users of the snapshot who
    are in an imported group, suspends the directory users who are not, and sets the members of
    the imported groups.

    The state is that of the SCIM store and that of the connector's tables.  The statements of a
    run are not one transaction: each has an outcome of its own, by name and position. *)

From S2P Require Import Prelude GoStrings GoText GoTime Encoding Sql ScimStore AgentAuth Connector.
From Stdlib Require Import Ascii.
#[local] Open Scope string_scope.
#[local] Open Scope nat_scope.
#[local] Open Scope list_scope.

Module Directory.
Import GoStrings Sql ScimStore.ScimStore Connector.Connector.

Record world := mkWorld { scim : ScimStore.ScimStore.DB; conn : Connector.Connector.DB }.
Definition with_scim (w : world) db := mkWorld db (conn w).
Definition with_conn (w : world) d := mkWorld (scim w) d.

(** ** The bridge to native groups *)

Record BridgeResult := mkBridge { Created : nat; Linked : nat; Skipped : nat; Removed : nat }.

Definition is_ldap (org : string) (g : group_row) : bool := bool_decide (r_org g = org) && bool_decide (r_source g = "ldap").
Definition find_ldap (ro : range_order) (db : ScimStore.ScimStore.DB) (org sid : string) : option (string * group_row) :=
  head (select ro (λ _ g, is_ldap org g && bool_decide (r_ext g = Some sid)) (groups db)).

(** [COALESCE(NULLIF(name, ''), NULLIF(sam_account_name, ''), sid)] *)
Definition group_name (sid : string) (r : cgroup_row) : string :=
  or_else (default "" (cg_name r)) (or_else (default "" (cg_sam r)) sid).
Definition flowing (e : env) (d : Connector.Connector.DB) (c : string) : list (string * string) :=
  (λ '(sid, r), (sid, group_name sid r)) <$> select (e_ro e) (λ _ r, cg_sync_enabled r) (groups_of d c).

Definition bridge_group (e : env) (i : nat) (db : ScimStore.ScimStore.DB) (org sid name : string) (res : BridgeResult)
  : option (ScimStore.ScimStore.DB * BridgeResult) :=
  if negb (ok e "lookup group" i) then None
  else
    match find_ldap (e_ro e) db org sid with
    | Some (id, g) =>
        let g := set_name (now e) name g in
        let db := if ok e "rename group" i && group_writable db id g then with_groups db (<[id := g]> (groups db)) else db in
        Some (db, mkBridge (Created res) (S (Linked res)) (Skipped res) (Removed res))
    | None =>
        let id := new_id e "group" i in
        let g := ScimStore.ScimStore.mkGroupRow org name (Some sid) None "ldap" false (now e) (now e) in
        if ok e "insert group" i && bool_decide (groups db !! id = None) && group_writable db id g
        then Some (with_groups db (<[id := g]> (groups db)), mkBridge (S (Created res)) (Linked res) (Skipped res) (Removed res))
        else Some (db, mkBridge (Created res) (Linked res) (S (Skipped res)) (Removed res))
    end.
Fixpoint bridge_groups (e : env) (i : nat) (db : ScimStore.ScimStore.DB) (org : string) (l : list (string * string)) (res : BridgeResult)
  : ScimStore.ScimStore.DB * option BridgeResult :=
  match l with
  | [] => (db, Some res)
  | (sid, name) :: l =>
      match bridge_group e i db org sid name res with
      | None => (db, None)
      | Some (db, res) => bridge_groups e (S i) db org l res
      end
  end.

(** Enabled on some connector. *)
Definition allowed (d : Connector.Connector.DB) (sid : string) : bool :=
  existsb (λ cm, match snd cm !! sid with Some r => cg_sync_enabled r | None => false end) (map_to_list (cgroups d)).
Definition none_allowed (d : Connector.Connector.DB) : bool :=
  forallb (λ cm, forallb (λ kv, negb (cg_sync_enabled (snd kv))) (map_to_list (snd cm))) (map_to_list (cgroups d)).
(** [external_id NOT IN (...)]: a null is in no list but is outside of the empty one. *)
Definition stale (d : Connector.Connector.DB) (org : string) (g : group_row) : bool :=
  is_ldap org g && match r_ext g with Some sid => negb (allowed d sid) | None => none_allowed d end.
(** The memberships go with the groups. *)
Definition prune (d : Connector.Connector.DB) (org : string) (db : ScimStore.ScimStore.DB) : ScimStore.ScimStore.DB * nat :=
  let gone := filter (λ kv, stale d org (snd kv) = true) (groups db) in
  let keep (p : string * string) : Prop := gone !! snd p = None in
  (with_members (with_groups db (filter (λ kv, stale d org (snd kv) = false) (groups db)))
     (filter keep (admin_groups db)) (filter keep (client_groups db)), size gone).

Definition BridgeGroups (e : env) (w : world) (connectorID orgID : string) : world * result string BridgeResult :=
  if negb (ok e "read groups" 0) then (w, Err "read connector groups")
  else
    match bridge_groups e 0 (scim w) orgID (flowing e (conn w) connectorID) (mkBridge 0 0 0 0) with
    | (db, None) => (with_scim w db, Err "lookup bridged group")
    | (db, Some res) =>
        if ok e "prune groups" 0
        then let '(db, n) := prune (conn w) orgID db in
             (with_scim w db, Ok (mkBridge (Created res) (Linked res) (Skipped res) n))
        else (with_scim w db, Ok res)
    end.

(** ** Looking up users and groups *)

Record NativeGroupRef := mkRef { n_ID : string; n_DisplayName : string; n_ExternalID : string }.
Definition ref_of (id : string) (g : group_row) : NativeGroupRef := mkRef id (r_name g) (default "" (r_ext g)).

Definition FindLDAPGroupByName (e : env) (w : world) (orgID displayName : string) : result string (option NativeGroupRef) :=
  if ok e "find group" 0
  then Ok (uncurry ref_of <$> head (select (e_ro e) (λ _ g, is_ldap orgID g && bool_decide (r_name g = displayName)) (groups (scim w))))
  else Err "find ldap group by name".
Fixpoint native_groups (e : env) (i : nat) (w : world) (orgID : string) (sids : list string) : result string (list NativeGroupRef) :=
  match sids with
  | [] => Ok []
  | sid :: sids =>
      if negb (ok e "native group" i) then Err "native group for sid"
      else
        match native_groups e (S i) w orgID sids with
        | Err x => Err x
        | Ok l => Ok (option_list (uncurry ref_of <$> find_ldap (e_ro e) (scim w) orgID sid) ++ l)
        end
  end.
Definition NativeGroupsForUser (e : env) (w : world) (orgID : string) (groupSIDs : list string) : result string (list NativeGroupRef) :=
  native_groups e 0 w orgID groupSIDs.

Definition honorifics : list string := ["mr"; "mrs"; "ms"; "mx"; "dr"; "prof"; "sir"; "madam"; "miss"].
Definition is_word_char (c : ascii) : bool :=
  let n := nat_of_ascii c in ((97 <=? n) && (n <=? 122)) || ((48 <=? n) && (n <=? 57)).
(** [strings.Fields] on a text whose only blanks are spaces. *)
Definition Fields (s : string) : list string := List.filter (λ t, negb (bool_decide (t = ""))) (Split " "%char s).
Definition normalizeName (s : string) : string :=
  Join (List.filter (λ t, negb (bool_decide (t ∈ honorifics)))
          (Fields (smap (λ c, if is_word_char c then c else " "%char) (ToLower s)))) " ".
Definition localpart (upn : string) : string := before "@"%char upn.

Section Lookup.
(** [like]: the case-sensitive matching of the database. *)
Context (like : string → string → bool).

Definition lower_like (o : option string) (p : string) : bool := match o with Some s => like (ToLower s) p | None => false end.
Definition is_exact (q : string) (u : ConnectorUser) : bool :=
  bool_decide (ToLower (SAMAccountName u) = q) || bool_decide (ToLower (Connector.Connector.DisplayName u) = q)
  || bool_decide (ToLower (localpart (UPN u)) = q).
Definition ResolveUsers (e : env) (d : Connector.Connector.DB) (connectorID query : string) : result string (list ConnectorUser) :=
  let q := normalizeName query in
  if bool_decide (q = "") then Ok []
  else if negb (ok e "resolve" 0) then Err "resolve users"
  else
    let p := "%" +:+ Join (Split " "%char q) "%" +:+ "%" in
    let rows := select (e_ro e) (λ _ r, lower_like (cu_display r) p || lower_like (cu_sam r) p || lower_like (cu_upn r) p
                                        || lower_like (cu_email r) p) (users_of d connectorID) in
    let out := map (uncurry scan_user) (take 25 (merge_sort (by_column cu_display) rows)) in
    let exact := List.filter (is_exact q) out in
    Ok (if (1 <? length out) && (length exact =? 1) then exact else out).

Inductive principal_error := EmptyPrincipal | NotInDirectory | NotProvisioned | ResolveFailed.
Record ClientUserRef := mkClientRef { cr_ID : string; cr_Email : string; cr_Name : string; cr_Status : string }.

Definition ProvisionSource : string := "ad-connector".
Definition from_directory (org : string) (r : client_row) : bool :=
  bool_decide (c_org r = org) && bool_decide (c_provider r = Some ProvisionSource).
Definition find_client (ro : range_order) (db : ScimStore.ScimStore.DB) (org sid : string) : option (string * client_row) :=
  head (select ro (λ _ r, from_directory org r && bool_decide (c_ext r = Some sid)) (clients db)).

(** The rows of all connectors. *)
Definition all_users (ro : range_order) (d : Connector.Connector.DB) : list (string * cuser_row) :=
  flat_map (λ cm, range ro (snd cm)) (range ro (cusers d)).
Definition named (short principal : string) (r : cuser_row) : bool :=
  let lower (o : option string) := ToLower <$> o in
  bool_decide (lower (cu_sam r) = Some (ToLower short)) || bool_decide (lower (cu_upn r) = Some (ToLower principal))
  || bool_decide (ToLower (localpart (default "" (cu_upn r))) = ToLower short).
Definition ResolveClientUserByPrincipal (e : env) (w : world) (orgID principal : string) : result principal_error ClientUserRef :=
  let principal := TrimSpace principal in
  if bool_decide (principal = "") then Err EmptyPrincipal
  else if negb (ok e "principal" 0) then Err ResolveFailed
  else
    match head (List.filter (λ kv, named (localpart principal) principal (snd kv)) (all_users (e_ro e) (conn w))) with
    | None => Err NotInDirectory
    | Some (sid, _) =>
        if negb (ok e "client" 0) then Err ResolveFailed
        else
          match find_client (e_ro e) (scim w) orgID sid with
          | None => Err NotProvisioned
          | Some (id, r) => Ok (mkClientRef id (c_email r) (c_name r) (c_status r))
          end
    end.

End Lookup.

(** ** Provisioning *)

Record ReconcileResult := mkReconcile {
  Bridged : BridgeResult;
  ImportedGroups : nat;
  Onboarded : nat;
  Offboarded : nat;
  Active : nat;
}.

Definition intersectsGroups (sids : list string) (imported : gmap string string) : bool :=
  existsb (λ s, bool_decide (is_Some (imported !! s))) sids.
Definition containsStr (ss : list string) (want : string) : bool := existsb (λ s, bool_decide (s = want)) ss.
Definition firstNonEmpty (vals : list string) : string :=
  default "" (find (λ v, negb (bool_decide (TrimSpace v = ""))) vals).
Definition pickEmail (email upn sam domain : string) : string :=
  if Contains email "@" then ToLower (TrimSpace email)
  else if Contains upn "@" then ToLower (TrimSpace upn)
  else if negb (bool_decide (sam = "")) && negb (bool_decide (domain = "")) then ToLower (sam +:+ "@" +:+ domain)
  else ToLower (TrimSpace upn).

(** SIDs of the imported groups with their native groups. *)
Definition imported_groups (ro : range_order) (db : ScimStore.ScimStore.DB) (org : string) : gmap string string :=
  foldl (λ m kv, match r_ext (snd kv) with Some sid => <[sid := fst kv]> m | None => m end) ∅
    (select ro (λ _ g, is_ldap org g && r_import g && bool_decide (is_Some (r_ext g))) (groups db)).
Definition loadSnapshot (e : env) (d : Connector.Connector.DB) (connectorID : string) : option (list ConnectorUser) :=
  if ok e "snapshot" 0 then Some (map (uncurry scan_user) (range (e_ro e) (users_of d connectorID))) else None.

Definition logStatusEvent (ok : bool) (t : Z) (db : ScimStore.ScimStore.DB) (orgID userID prev next reason : string)
  : ScimStore.ScimStore.DB :=
  logClientUserStatusEvent ok t db orgID userID prev next reason "connector" ProvisionSource.

Definition set_onboarded (t : Z) (name email : string) (r : client_row) : client_row :=
  mkClient (c_org r) email name (c_department r) (c_title r) (c_provider r) (c_subject r) (c_ext r) (c_idp r) "active"
    (Some "Member of an imported directory group") (Some "connector") (Some t) (c_by r) (c_login r) (c_created r) t.
Definition upsertClientUser (e : env) (i : nat) (db : ScimStore.ScimStore.DB) (orgID connectorID domain : string) (u : ConnectorUser)
  : ScimStore.ScimStore.DB * option (string * bool) :=
  let name := firstNonEmpty [Connector.Connector.DisplayName u; SAMAccountName u; UPN u; u_SID u] in
  let addr := pickEmail (Connector.Connector.Email u) (UPN u) (SAMAccountName u) domain in
  if bool_decide (addr = "") then (db, None)
  else if negb (ok e "find user" i) then (db, None)
  else
    match find_client (e_ro e) db orgID (u_SID u) with
    | Some (id, r) =>
        let changed := negb (bool_decide (c_status r = "active")) in
        let r' := set_onboarded (now e) name addr r in
        if ok e "update user" i && client_writable db id r'
        then
          let db := with_clients db (<[id := r']> (clients db)) in
          (if changed then logStatusEvent (ok e "event" i) (now e) db orgID id (c_status r) "active"
                             "onboarded via imported directory group" else db, Some (id, changed))
        else (db, None)
    | None =>
        let id := new_id e "client" i in
        let r := mkClient orgID addr name None None (Some ProvisionSource) (Some (u_SID u)) (Some (u_SID u)) (Some connectorID)
                   "active" None (Some "connector") (Some (now e)) None None (now e) (now e) in
        if ok e "create user" i && bool_decide (clients db !! id = None) && client_writable db id r
        then (logStatusEvent (ok e "event" i) (now e) (with_clients db (<[id := r]> (clients db))) orgID id "" "active"
                "onboarded via imported directory group", Some (id, true))
        else (db, None)
    end.

Definition in_org (imported : gmap string string) (u : ConnectorUser) : bool :=
  Enabled u && intersectsGroups (GroupSIDs u) imported.
(** The client of each SID that was onboarded, and how many of them changed. *)
Fixpoint onboard (e : env) (i : nat) (db : ScimStore.ScimStore.DB) (orgID connectorID domain : string) (imported : gmap string string)
    (ids : gmap string string) (changed : nat) (l : list ConnectorUser) : ScimStore.ScimStore.DB * gmap string string * nat :=
  match l with
  | [] => (db, ids, changed)
  | u :: l =>
      if negb (in_org imported u) then onboard e (S i) db orgID connectorID domain imported ids changed l
      else
        match upsertClientUser e i db orgID connectorID domain u with
        | (db, None) => onboard e (S i) db orgID connectorID domain imported ids changed l
        | (db, Some (id, c)) =>
            onboard e (S i) db orgID connectorID domain imported (<[u_SID u := id]> ids) (Nat.b2n c + changed) l
        end
  end.

Definition set_offboarded (t : Z) (r : client_row) : client_row :=
  mkClient (c_org r) (c_email r) (c_name r) (c_department r) (c_title r) (c_provider r) (c_subject r) (c_ext r) (c_idp r) "suspended"
    (Some "Offboarded — no longer a member of an imported directory group") (Some "connector") (Some t) (c_by r) (c_login r)
    (c_created r) t.
Fixpoint suspend_all (e : env) (i : nat) (db : ScimStore.ScimStore.DB) (orgID : string) (l : list string) : ScimStore.ScimStore.DB * bool :=
  match l with
  | [] => (db, true)
  | id :: l =>
      if negb (ok e "suspend" i) then (db, false)
      else
        let db := with_clients db (alter (set_offboarded (now e)) id (clients db)) in
        let db := logStatusEvent (ok e "off event" i) (now e) db orgID id "active" "suspended"
                    "offboarded — left all imported directory groups" in
        let db := if ok e "leave groups" i then with_members db (admin_groups db) (drop_member id (client_groups db)) else db in
        suspend_all e (S i) db orgID l
  end.
Definition offboardMissing (e : env) (db : ScimStore.ScimStore.DB) (orgID : string) (inOrg : gset string)
  : ScimStore.ScimStore.DB * option nat :=
  if negb (ok e "load users" 0) then (db, None)
  else
    let gone := map fst (select (e_ro e) (λ _ r, from_directory orgID r && bool_decide (c_status r = "active")
                                                 && negb (bool_decide (default "" (c_ext r) ∈ inOrg))) (clients db)) in
    match suspend_all e 0 db orgID gone with
    | (db, true) => (db, Some (length gone))
    | (db, false) => (db, None)
    end.

(** One transaction per group; the first that fails ends the loop. *)
Definition members_of (users : list ConnectorUser) (ids : gmap string string) (gsid : string) : list string :=
  omap (λ u, if containsStr (GroupSIDs u) gsid then ids !! u_SID u else None) users.
Fixpoint setMemberships (e : env) (i : nat) (db : ScimStore.ScimStore.DB) (l : list (string * string)) (users : list ConnectorUser)
    (ids : gmap string string) : ScimStore.ScimStore.DB :=
  match l with
  | [] => db
  | (gsid, gid) :: l =>
      match insert_members (ok e ("member of " +:+ gsid)) 0 (λ u, bool_decide (is_Some (clients db !! u)))
              (bool_decide (is_Some (groups db !! gid))) gid (drop_group gid (client_groups db)) (members_of users ids gsid) with
      | Some cg => if ok e "membership" i then setMemberships e (S i) (with_members db (admin_groups db) cg) l users ids else db
      | None => db
      end
  end.

Definition Reconcile (e : env) (w : world) (connectorID orgID domain : string) : world * result string ReconcileResult :=
  match BridgeGroups e w connectorID orgID with
  | (w, Err x) => (w, Err x)
  | (w, Ok bridged) =>
      if negb (ok e "imported" 0) then (w, Err "load imported groups")
      else
        let imported := imported_groups (e_ro e) (scim w) orgID in
        match loadSnapshot e (conn w) connectorID with
        | None => (w, Err "load connector users")
        | Some users =>
            let '(db, ids, changed) := onboard e 0 (scim w) orgID connectorID domain imported ∅ 0 users in
            match offboardMissing e db orgID (list_to_set (u_SID <$> List.filter (in_org imported) users)) with
            | (db, None) => (with_scim w db, Err "offboard")
            | (db, Some off) =>
                (with_scim w (setMemberships e 0 db (range (e_ro e) imported) users ids),
                 Ok (mkReconcile bridged (size imported) changed off (size ids)))
            end
        end
  end.

(** ** Handlers *)

Definition SystemThreatOrgID : string := "a0000000-0000-0000-0000-000000000001".

(** The identifier of the connector, or the answer; [issuer] and [id] are headers. *)
Definition requireConnectorMTLS (issuer id : string) : result (Z * string) string :=
  if bool_decide (issuer = "") then Err (401%Z, "client certificate required")
  else if negb (Contains issuer "Infra CA") then Err (403%Z, "certificate not issued by the Infra CA")
  else Ok (or_else (TrimSpace id) "ad-connector").

Record adminConnectorConfig := mkAdminConfig {
  ac_config : ConnectorConfig;   (** with the connector's identifier *)
  UserCount : nat;
  GroupCount : nat;
  LastSyncedAt : option string;
}.
Definition toAdminConfig (id : string) (c : ConnectorConfig) (users groups : nat) (last : option Z) : adminConnectorConfig :=
  mkAdminConfig (mkConfig id (Connector.Connector.OrgID c) (Domain c) (DCAddr c) (BaseDN c) (BindDN c) (UserFilter c) (GroupFilter c)
                   (SyncInterval c) (TLSInsecure c)) users groups (GoTime.RFC3339 <$> last).

Inductive dreply :=
| DErr (status : Z) (msg : string)
| DConfig (c : ConnectorConfig)
| DSynced (users groups : nat)
| DAdmin (c : adminConnectorConfig)
| DUsers (l : list ConnectorUser) (total : nat)
| DGroups (l : list ConnectorGroup) (total : nat)
| DToggled (sid : string) (enabled : bool) (bridge : option BridgeResult)
| DImport (enabled : bool) (res : result string ReconcileResult).

Definition GetConfig_ (e : env) (w : world) (issuer id : string) : dreply :=
  match requireConnectorMTLS issuer id with
  | Err (status, msg) => DErr status msg
  | Ok c =>
      match GetConfig e (conn w) c with
      | Err _ => DErr 500 "config lookup failed"
      | Ok None => DErr 404 ("no config for connector " +:+ c)
      | Ok (Some cfg) => DConfig cfg
      end
  end.

Record syncPayload := mkPayload {
  sp_ConnectorID : string;
  sp_Domain : string;
  sp_SyncedAt : string;
  Users : list ConnectorUser;
  Groups : list ConnectorGroup;
}.
Section Handlers.
Context (ilike : string → string → bool) (json_list : list string → option (list string)).

(** [prov] is absent where provisioning is not configured; its failure is only logged. *)
Definition PostSync (e : env) (prov : bool) (w : world) (issuer id : string) (body : option syncPayload) : world * dreply :=
  match requireConnectorMTLS issuer id with
  | Err (status, msg) => (w, DErr status msg)
  | Ok c =>
      match body with
      | None => (w, DErr 400 "invalid sync payload")
      | Some p =>
          match ReplaceSnapshot json_list e (conn w) c (Users p) (Groups p) with
          | (_, Err _) => (w, DErr 500 "sync store failed")
          | (d, Ok _) =>
              let w := with_conn w d in
              (if prov then fst (Reconcile e w c SystemThreatOrgID (sp_Domain p)) else w, DSynced (length (Users p)) (length (Groups p)))
          end
      end
  end.

(** A failing status leaves the zero values. *)
Definition status_or_zero (e : env) (d : Connector.Connector.DB) (id : string) : nat * nat * option Z :=
  match Connector.Connector.Status e d id with Ok x => x | Err _ => (0, 0, None) end.
Definition GetConnectorConfig (e : env) (w : world) (id : string) : dreply :=
  match GetConfig e (conn w) id with
  | Err _ => DErr 500 "failed to load connector config"
  | Ok None => DErr 404 "connector not configured"
  | Ok (Some cfg) => let '(us, gs, last) := status_or_zero e (conn w) id in DAdmin (toAdminConfig id cfg us gs last)
  end.

(** [time.ParseDuration], as far as whether it fails.  The fraction, which Go adds in floating
    point, is taken exactly; it decides only next to the overflow. *)
Definition units : list (string * Z) :=
  [("ns", 1%Z); ("us", 1000%Z); ("µs", 1000%Z); ("μs", 1000%Z); ("ms", 1000000%Z); ("s", 1000000000%Z);
   ("m", 60000000000%Z); ("h", 3600000000000%Z)].
Fixpoint span (p : ascii → bool) (l : list ascii) : list ascii * list ascii :=
  match l with
  | c :: l' => if p c then let '(a, b) := span p l' in (c :: a, b) else ([], l)
  | [] => ([], [])
  end.
Fixpoint duration_parts (fuel : nat) (acc : Z) (l : list ascii) : option Z :=
  match fuel, l with
  | _, [] => Some acc
  | O, _ => None
  | S fuel, _ =>
      let '(int, l) := span GoText.is_digit l in
      let '(frac, l) := match l with "."%char :: l' => span GoText.is_digit l' | _ => ([], l) end in
      let '(unit, l) := span (λ c, negb (Ascii.eqb c ".") && negb (GoText.is_digit c)) l in
      if bool_decide (int = [] ∧ frac = []) then None
      else
        match find (λ u, bool_decide (fst u = String.string_of_list_ascii unit)) units with
        | None => None
        | Some (_, n) =>
            let v := (GoText.number int * n + GoText.number frac * n / 10 ^ Z.of_nat (length frac))%Z in
            if (2 ^ 63 <? GoText.number int)%Z || (2 ^ 63 <? GoText.number int * n)%Z || (2 ^ 63 <? v)%Z || (2 ^ 63 <? acc + v)%Z then None
            else duration_parts fuel (acc + v)%Z l
        end
  end.
Definition ParseDuration (s : string) : bool :=
  let l := String.list_ascii_of_string s in
  let '(neg, l) := match l with "-"%char :: l => (true, l) | "+"%char :: l => (false, l) | _ => (false, l) end in
  match l with
  | [] => false
  | ["0"%char] => true
  | _ => match duration_parts (length l) 0 l with Some d => neg || (d <? 2 ^ 63)%Z | None => false end
  end.

(** [orgID] is that of the token. *)
Definition UpdateConnectorConfig (e : env) (w : world) (id orgID : string) (body : option ConnectorConfig) : world * dreply :=
  match body with
  | None => (w, DErr 400 "invalid config payload")
  | Some req =>
      if bool_decide (TrimSpace (Domain req) = "") || bool_decide (TrimSpace (DCAddr req) = "")
      then (w, DErr 400 "domain and dc_addr are required")
      else
        let host := before ":"%char (DCAddr req) in
        if negb (Contains (DCAddr req) ":") || bool_decide (host = "")
        then (w, DErr 400 "dc_addr must be host:port (e.g. DC01.ad.example.com:636)")
        else if GoText.ParseIP host then (w, DErr 400 "dc_addr host must be the DC FQDN, not an IP")
        else
          let interval := if bool_decide (TrimSpace (SyncInterval req) = "") then "15m" else SyncInterval req in
          if negb (ParseDuration interval) then (w, DErr 400 "sync_interval must be a Go duration like 15m or 1h")
          else
            let req := mkConfig (ConnectorID req) (Connector.Connector.OrgID req) (Domain req) (DCAddr req) (BaseDN req) (BindDN req)
                         (UserFilter req) (GroupFilter req) interval (TLSInsecure req) in
            match UpsertConfig e (conn w) id orgID req with
            | (d, Err _) => (with_conn w d, DErr 500 "failed to save connector config")
            | (d, Ok saved) =>
                let '(us, gs, last) := status_or_zero e d id in (with_conn w d, DAdmin (toAdminConfig id saved us gs last))
            end
  end.

(** [None]: the query parameter is absent. *)
Definition ListConnectorUsers (e : env) (w : world) (id search : string) (offset limit : option string) : dreply :=
  match ListUsers ilike e (conn w) id search (AgentAuth.AgentAuth.Atoi (default "0" offset)) (AgentAuth.AgentAuth.Atoi (default "500" limit)) with
  | Err _ => DErr 500 "failed to list users"
  | Ok (l, total) => DUsers l total
  end.
Definition ListConnectorGroups (e : env) (w : world) (id search : string) (offset limit : option string) : dreply :=
  match Connector.Connector.ListGroups ilike e (conn w) id search (AgentAuth.AgentAuth.Atoi (default "0" offset))
          (AgentAuth.AgentAuth.Atoi (default "500" limit)) with
  | Err _ => DErr 500 "failed to list groups"
  | Ok (l, total) => DGroups l total
  end.
(** [org] is the organization the handler was made for; [dir]: the directory store is there. *)
Definition SetGroupSyncEnabled_ (e : env) (dir : bool) (org : string) (w : world) (id sid : string) (body : option bool) : world * dreply :=
  match body with
  | None => (w, DErr 400 "enabled (bool) is required")
  | Some enabled =>
      match SetGroupSyncEnabled e (conn w) id sid enabled with
      | (_, Err _) => (w, DErr 404 "group not found")
      | (d, Ok _) =>
          let w := with_conn w d in
          if dir
          then match BridgeGroups e w id org with
               | (w, Ok b) => (w, DToggled sid enabled (Some b))
               | (w, Err _) => (w, DToggled sid enabled None)
               end
          else (w, DToggled sid enabled None)
      end
  end.
(** [PUT /api/v1/groups/:id/import]; [connector] is that of the configuration. *)
Definition import_group (e : env) (se : ScimStore.ScimStore.env) (connector : string) (w : world) (id : string) (body : option bool)
  : world * dreply :=
  match body with
  | None => (w, DErr 400 "invalid payload")
  | Some enabled =>
      match SetGroupImportEnabled se (scim w) SystemThreatOrgID id enabled with
      | (_, Err msg) => (w, DErr 400 msg)
      | (db, Ok _) =>
          let '(w, res) := Reconcile e (with_scim w db) connector SystemThreatOrgID "" in (w, DImport enabled res)
      end
  end.

End Handlers.

(** ** Only directory users and directory groups of the organization change *)

Lemma NoDup_fmap_filter_keys {V} ro (p : string * V → bool) (m : gmap string V) : NoDup (map fst (List.filter p (range ro m))).
Proof.
  pose proof (NoDup_range_keys ro m) as Hnd. change (map fst (range ro m)) with (fst <$> range ro m) in Hnd.
  induction (range ro m) as [|[k v] l IH]; cbn in *; [constructor|]. inversion_clear Hnd as [|? ? Hk Hl].
  destruct (p (k, v)); cbn; [constructor; [|by apply IH]|by apply IH].
  intros (kv & Hkv & [Hin _]%list_elem_of_In%filter_In)%list_elem_of_fmap. apply Hk. rewrite Hkv. by apply list_elem_of_fmap_2, list_elem_of_In.
Qed.

Section Proofs.
Context (org : string).

(** What a run leaves alone. *)
Record frame (db db' : ScimStore.ScimStore.DB) : Prop := {
  frame_clients : ∀ id r, clients db !! id = Some r → from_directory org r = false → clients db' !! id = Some r;
  frame_groups : ∀ id g, groups db !! id = Some g → is_ldap org g = false → groups db' !! id = Some g;
  frame_admins : admins db' = admins db;
  frame_idps : ScimStore.ScimStore.idps db' = ScimStore.ScimStore.idps db;
}.
#[local] Instance frame_preorder : PreOrder frame.
Proof.
  split; [by intros db; split|]. intros a b c [H1 H2 H3 H4] [K1 K2 K3 K4]. split; [eauto..|congruence|congruence].
Qed.
Lemma frame_same db db' : clients db' = clients db → groups db' = groups db → admins db' = admins db →
  ScimStore.ScimStore.idps db' = ScimStore.ScimStore.idps db → frame db db'.
Proof. intros Hc Hg Ha Hi. split; [by rewrite Hc|by rewrite Hg|done|done]. Qed.
Lemma frame_client db id r : match clients db !! id with Some x => from_directory org x = true | None => True end →
  frame db (with_clients db (<[id := r]> (clients db))).
Proof.
  intros Hid. split; [|done..]. intros j x Hj Hx. cbn. destruct (decide (id = j)) as [<-|]; [|by rewrite lookup_insert_ne].
  rewrite Hj in Hid. congruence.
Qed.
Lemma frame_group db id g : match groups db !! id with Some x => is_ldap org x = true | None => True end →
  frame db (with_groups db (<[id := g]> (groups db))).
Proof.
  intros Hid. split; [done| |done..]. intros j x Hj Hx. cbn. destruct (decide (id = j)) as [<-|]; [|by rewrite lookup_insert_ne].
  rewrite Hj in Hid. congruence.
Qed.

Lemma log_same b t db o u p n r : clients (logStatusEvent b t db o u p n r) = clients db
  ∧ groups (logStatusEvent b t db o u p n r) = groups db ∧ frame db (logStatusEvent b t db o u p n r).
Proof. unfold logStatusEvent, logClientUserStatusEvent. destruct (_ && _); split_and!; try done; by apply frame_same. Qed.

Lemma find_ldap_spec ro db sid id g : find_ldap ro db org sid = Some (id, g) →
  groups db !! id = Some g ∧ is_ldap org g = true ∧ r_ext g = Some sid.
Proof.
  unfold find_ldap. intros Hf. pose proof (select_head ro (λ _ g, is_ldap org g && bool_decide (r_ext g = Some sid)) (groups db)) as H.
  rewrite Hf in H. destruct H as [Hg [Hl He%bool_decide_eq_true]%andb_true_iff]. done.
Qed.
Lemma find_client_spec ro db sid id r : find_client ro db org sid = Some (id, r) →
  clients db !! id = Some r ∧ from_directory org r = true ∧ c_ext r = Some sid.
Proof.
  unfold find_client. intros Hf. pose proof (select_head ro (λ _ r, from_directory org r && bool_decide (c_ext r = Some sid)) (clients db)) as H.
  rewrite Hf in H. destruct H as [Hg [Hl He%bool_decide_eq_true]%andb_true_iff]. done.
Qed.

Lemma bridge_group_frame e i db sid name res db' res' : bridge_group e i db org sid name res = Some (db', res') →
  frame db db' ∧ clients db' = clients db.
Proof.
  unfold bridge_group. destruct (negb _); [done|]. destruct (find_ldap _ _ _ _) as [[id g]|] eqn:Hf.
  - apply find_ldap_spec in Hf as (Hg & Hl & _). intros [= <- _]. destruct (_ && _); [|done]. split; [|done].
    apply frame_group. by rewrite Hg.
  - destruct (_ && _) eqn:Hw; intros [= <- _]; [|done]. apply andb_true_iff in Hw as [[_ Hn%bool_decide_eq_true]%andb_true_iff _].
    split; [|done]. apply frame_group. by rewrite Hn.
Qed.
Lemma bridge_groups_frame e i db l res :
  frame db (fst (bridge_groups e i db org l res)) ∧ clients (fst (bridge_groups e i db org l res)) = clients db.
Proof.
  revert i db res. induction l as [|[sid name] l IH]; intros i db res; cbn; [done|].
  destruct (bridge_group _ _ _ _ _ _ _) as [[db1 res1]|] eqn:Hb; [|done]. apply bridge_group_frame in Hb as [Hf Hc].
  destruct (IH (S i) db1 res1) as [Hf' Hc']. split; [by etrans|congruence].
Qed.
Lemma prune_frame d db : frame db (fst (prune d org db)) ∧ clients (fst (prune d org db)) = clients db.
Proof.
  unfold prune. cbn. split; [|done]. split; [done| |done..]. intros id g Hg Hl. cbn. apply map_lookup_filter_Some. split; [done|].
  cbn. unfold stale. by rewrite Hl.
Qed.
Lemma bridge_frame e w c : frame (scim w) (scim (fst (BridgeGroups e w c org)))
  ∧ clients (scim (fst (BridgeGroups e w c org))) = clients (scim w) ∧ conn (fst (BridgeGroups e w c org)) = conn w.
Proof.
  unfold BridgeGroups. destruct (negb _); [done|]. destruct (bridge_groups_frame e 0 (scim w) (flowing e (conn w) c) (mkBridge 0 0 0 0)) as [Hf Hc].
  destruct (bridge_groups _ _ _ _ _ _) as [db [res|]]; cbn [fst] in Hf, Hc; [|done]. destruct (ok e "prune groups" 0); [|done].
  destruct (prune_frame (conn w) db) as [Hf' Hc']. destruct (prune _ _ db) as [db' n]. cbn in *.
  split_and!; [by etrans|congruence|done].
Qed.

Lemma upsert_frame e i db c domain u : frame db (fst (upsertClientUser e i db org c domain u)) ∧ groups (fst (upsertClientUser e i db org c domain u)) = groups db.
Proof.
  unfold upsertClientUser. case_bool_decide; [done|]. destruct (negb _); [done|].
  destruct (find_client _ _ _ _) as [[id r]|] eqn:Hf.
  - apply find_client_spec in Hf as (Hr & Hd & _). destruct (_ && _); [|done]. cbn [fst]. set (db1 := with_clients db _).
    assert (H1 : frame db db1) by (apply frame_client; by rewrite Hr).
    destruct (negb _); [|done]. destruct (log_same (ok e "event" i) (now e) db1 org id (c_status r) "active"
      "onboarded via imported directory group") as (_ & Hg & Hl). split; [by etrans|done].
  - destruct (_ && _) eqn:Hw; [|done]. apply andb_true_iff in Hw as [[_ Hn%bool_decide_eq_true]%andb_true_iff _]. cbn [fst].
    match goal with |- context [logStatusEvent ?b ?t ?db1 ?o ?x ?p ?n ?r] => destruct (log_same b t db1 o x p n r) as (_ & Hg & Hl) end.
    split; [|done]. etrans; [|exact Hl]. apply frame_client. by rewrite Hn.
Qed.
Lemma onboard_frame e i db c domain imported ids n l :
  let db' := fst (fst (onboard e i db org c domain imported ids n l)) in frame db db' ∧ groups db' = groups db.
Proof.
  revert i db ids n. induction l as [|u l IH]; intros i db ids n; cbn; [done|].
  destruct (negb _); [apply IH|]. destruct (upsert_frame e i db c domain u) as [Hf Hg].
  destruct (upsertClientUser _ _ _ _ _ _ _) as [db1 [[id b]|]]; cbn [fst] in Hf, Hg;
    [destruct (IH (S i) db1 (<[u_SID u := id]> ids) (Nat.b2n b + n)) as [Hf' Hg']|destruct (IH (S i) db1 ids n) as [Hf' Hg']];
    (split; [by etrans|congruence]).
Qed.

(** The rows that are suspended, and no others. *)
Lemma suspend_all_spec e i db l : NoDup l → (∀ id, id ∈ l → ∃ r, clients db !! id = Some r ∧ from_directory org r = true) →
  let '(db', done) := suspend_all e i db org l in
  frame db db' ∧ groups db' = groups db ∧
  (done = true → ∀ id, clients db' !! id = if bool_decide (id ∈ l) then set_offboarded (now e) <$> clients db !! id else clients db !! id).
Proof.
  revert i db. induction l as [|id l IH]; intros i db Hnd Hl; cbn [suspend_all].
  { split_and!; [done|done|]. intros _ j. by rewrite bool_decide_eq_false_2 by apply not_elem_of_nil. }
  inversion_clear Hnd as [|? ? Hid Hnd']. destruct (negb _); [by split_and!|].
  destruct (Hl id (list_elem_of_here id l)) as (r & Hr & Hd).
  set (db1 := with_clients db _).
  destruct (log_same (ok e "off event" i) (now e) db1 org id "active" "suspended" "offboarded — left all imported directory groups") as (Hc2 & Hg2 & Hf2).
  set (db2 := logStatusEvent _ _ _ _ _ _ _ _) in *.
  set (db3 := if ok e "leave groups" i then _ else db2).
  assert (H3 : clients db3 = alter (set_offboarded (now e)) id (clients db) ∧ groups db3 = groups db ∧ frame db db3).
  { assert (H1 : frame db db1).
    { subst db1. split; [|done..]. intros j x Hj Hx. cbn. destruct (decide (id = j)) as [<-|]; [congruence|by rewrite lookup_alter_ne]. }
    subst db3. destruct (ok e "leave groups" i); cbn; (split_and!; [by rewrite Hc2|by rewrite Hg2|]); [|by etrans].
    etrans; [exact H1|]. etrans; [exact Hf2|]. by apply frame_same. }
  destruct H3 as (Hc3 & Hg3 & Hf3). specialize (IH (S i) db3 Hnd').
  destruct (suspend_all e (S i) db3 org l) as [db4 done]. destruct IH as (Hf4 & Hg4 & Hs).
  { intros j Hj. destruct (Hl j (list_elem_of_further j _ _ Hj)) as (x & Hx & Hxd). exists x. split; [|done].
    rewrite Hc3, lookup_alter_ne; [done|]. by intros ->. }
  split_and!; [by etrans|congruence|]. intros Hdone j. rewrite (Hs Hdone j), Hc3.
  destruct (decide (id = j)) as [<-|Hne].
  - rewrite (bool_decide_eq_false_2 (id ∈ l)), bool_decide_eq_true_2 by (done || apply list_elem_of_here). apply lookup_alter_eq.
  - rewrite lookup_alter_ne by done. rewrite (bool_decide_ext (j ∈ l) (j ∈ id :: l)); [done|].
    rewrite elem_of_cons. naive_solver.
Qed.

Lemma memberships_same e i db l users ids :
  let db' := setMemberships e i db l users ids in clients db' = clients db ∧ groups db' = groups db ∧ frame db db'.
Proof.
  revert i db. induction l as [|[gsid gid] l IH]; intros i db; cbn; [done|].
  destruct (insert_members _ _ _ _ _ _ _) as [cg|]; [|done]. destruct (ok e "membership" i); [|done].
  destruct (IH (S i) (with_members db (admin_groups db) cg)) as (H1 & H2 & H3). split_and!; [done|done|].
  etrans; [|exact H3]. by apply frame_same.
Qed.

(** *** Who is active after a run *)

(** The client of each SID, while users are onboarded. *)
Definition onboarded (db : ScimStore.ScimStore.DB) (ids : gmap string string) : Prop :=
  ∀ sid id, ids !! sid = Some id →
    ∃ r, clients db !! id = Some r ∧ from_directory org r = true ∧ c_ext r = Some sid ∧ c_status r = "active".

Lemma onboarded_insert db ids j r' :
  match clients db !! j with
  | Some r => c_ext r' = c_ext r ∧ from_directory org r' = true ∧ c_status r' = "active"
  | None => True
  end →
  onboarded db ids → onboarded (with_clients db (<[j := r']> (clients db))) ids.
Proof.
  intros Hj Ho sid id Hid. destruct (Ho sid id Hid) as (r & Hr & Hd & He & Hs). cbn.
  destruct (decide (j = id)) as [->|Hne]; [|rewrite lookup_insert_ne by done; by exists r].
  rewrite Hr in Hj. destruct Hj as (Ee & Ed & Es). exists r'. rewrite lookup_insert_eq. split_and!; [done|done|congruence|done].
Qed.
Lemma onboarded_clients db db' ids : clients db' = clients db → onboarded db ids → onboarded db' ids.
Proof. unfold onboarded. by intros ->. Qed.

Lemma upsert_onboards e i db c domain u ids : onboarded db ids →
  let '(db', res) := upsertClientUser e i db org c domain u in
  onboarded db' ids ∧
  match res with
  | Some (id, changed) => ∃ r, clients db' !! id = Some r ∧ from_directory org r = true ∧ c_ext r = Some (u_SID u) ∧ c_status r = "active"
  | None => db' = db
  end.
Proof.
  intros Ho. unfold upsertClientUser. case_bool_decide; [done|]. destruct (negb (ok e "find user" i)); [done|].
  destruct (find_client _ _ _ _) as [[id r]|] eqn:Hf.
  - apply find_client_spec in Hf as (Hr & Hd & He). destruct (_ && _); [|done].
    set (r' := set_onboarded _ _ _ r). set (db1 := with_clients db _).
    assert (Hd' : from_directory org r' = true) by done.
    assert (H1 : onboarded db1 ids) by (apply onboarded_insert; [rewrite Hr; by split_and!|done]).
    assert (H2 : clients db1 !! id = Some r') by apply lookup_insert_eq.
    destruct (negb (bool_decide (c_status r = "active"))).
    + match goal with |- context [logStatusEvent ?b ?t ?d ?o ?x ?p ?n ?m] => destruct (log_same b t d o x p n m) as (Hc & _ & _) end.
      split; [by apply (onboarded_clients db1)|]. exists r'. rewrite Hc. by split_and!.
    + split; [done|]. exists r'. by split_and!.
  - destruct (_ && _) eqn:Hw; [|done]. apply andb_true_iff in Hw as [[_ Hn%bool_decide_eq_true]%andb_true_iff _].
    match goal with |- context [logStatusEvent ?b ?t ?d ?o ?x ?p ?n ?m] => destruct (log_same b t d o x p n m) as (Hc & _ & _) end.
    split.
    + eapply onboarded_clients; [exact Hc|]. apply onboarded_insert; [by rewrite Hn|done].
    + eexists. rewrite Hc. cbn. rewrite lookup_insert_eq. split_and!; [reflexivity| |done..].
      unfold from_directory. cbn. by rewrite !bool_decide_eq_true_2.
Qed.
Lemma onboard_spec e i db c domain imported ids n l : onboarded db ids →
  let '(db', ids', n') := onboard e i db org c domain imported ids n l in
  onboarded db' ids' ∧ ∀ sid, is_Some (ids' !! sid) → is_Some (ids !! sid) ∨ ∃ u, u ∈ l ∧ u_SID u = sid ∧ in_org imported u = true.
Proof.
  revert i db ids n. induction l as [|u l IH]; intros i db ids n Ho; cbn [onboard]; [auto|].
  assert (Hweak : ∀ (P : Prop) sid, P ∨ (∃ v, v ∈ l ∧ u_SID v = sid ∧ in_org imported v = true) →
    P ∨ ∃ v, v ∈ u :: l ∧ u_SID v = sid ∧ in_org imported v = true).
  { intros P sid [?|(v & Hv & Hrest)]; [by left|right]. exists v. split; [by apply list_elem_of_further|done]. }
  destruct (in_org imported u) eqn:Hin; cbn [negb].
  2: { specialize (IH (S i) db ids n Ho). destruct (onboard _ _ _ _ _ _ _ _ _ _) as [[db' ids'] n']. destruct IH as [H1 H2]. eauto. }
  pose proof (upsert_onboards e i db c domain u ids Ho) as Hup.
  destruct (upsertClientUser _ _ _ _ _ _ _) as [db1 [[id b]|]]; destruct Hup as [Ho1 Hres].
  - specialize (IH (S i) db1 (<[u_SID u := id]> ids) (Nat.b2n b + n)).
    destruct (onboard _ _ _ _ _ _ _ _ _ _) as [[db' ids'] n']. destruct IH as [H1 H2].
    { intros sid j [[<- <-]|[_ Hj]]%lookup_insert_Some; [done|by apply Ho1]. }
    split; [done|]. intros sid Hs. apply H2 in Hs as [[j [[<- _]|[_ Hj]]%lookup_insert_Some]|Hs]; [..|apply Hweak; by right].
    + right. exists u. split; [apply list_elem_of_here|done].
    + left. by exists j.
  - specialize (IH (S i) db1 ids n Ho1). destruct (onboard _ _ _ _ _ _ _ _ _ _) as [[db' ids'] n']. destruct IH as [H1 H2]. eauto.
Qed.

(** A user of the snapshot who belongs to the organization: enabled, and in a group whose native
    group is imported. *)
Definition belongs (w : world) (c sid : string) : Prop :=
  ∃ r gsid id g, users_of (conn w) c !! sid = Some r ∧ cu_enabled r = Some true ∧ gsid ∈ default [] (cu_group_sids r)
    ∧ groups (scim w) !! id = Some g ∧ is_ldap org g = true ∧ r_import g = true ∧ r_ext g = Some gsid.

Lemma imported_groups_spec ro db sid : is_Some (imported_groups ro db org !! sid) →
  ∃ id g, groups db !! id = Some g ∧ is_ldap org g = true ∧ r_import g = true ∧ r_ext g = Some sid.
Proof.
  unfold imported_groups. set (l := select _ _ _).
  assert (Hl : ∀ id g, (id, g) ∈ l → groups db !! id = Some g ∧ is_ldap org g = true ∧ r_import g = true).
  { intros id g [Hg [[Hd Hi]%andb_true_iff _]%andb_true_iff]%elem_of_select. done. }
  clearbody l. induction l as [|[id g] l IH] using rev_ind; [by intros [? ?]|].
  rewrite foldl_app. cbn. destruct (Hl id g) as (H1 & H2 & H3); [apply elem_of_app; right; apply list_elem_of_here|].
  assert (IH' : is_Some (foldl (λ (m : gmap string string) kv, match r_ext kv.2 with Some sid0 => <[sid0:=kv.1]> m | None => m end) ∅ l !! sid) →
    ∃ id0 g0, groups db !! id0 = Some g0 ∧ is_ldap org g0 = true ∧ r_import g0 = true ∧ r_ext g0 = Some sid).
  { apply IH. intros j x Hx. apply Hl, elem_of_app. by left. }
  destruct (r_ext g) as [k|] eqn:Hk; [|done]. destruct (decide (k = sid)) as [->|Hne]; [intros _; by exists id, g|].
  by rewrite lookup_insert_ne.
Qed.
Lemma in_org_belongs ro w c sid r : users_of (conn w) c !! sid = Some r →
  in_org (imported_groups ro (scim w) org) (scan_user sid r) = true → belongs w c sid.
Proof.
  intros Hr [He Hi]%andb_true_iff. cbn in He, Hi. unfold intersectsGroups in Hi.
  apply existsb_exists in Hi as (gsid & Hg%list_elem_of_In & (id & g & H1 & H2 & H3 & H4)%bool_decide_eq_true%imported_groups_spec).
  exists r, gsid, id, g. split_and!; try done. destruct (cu_enabled r) as [[]|]; done.
Qed.

(** C26: Who is active after a run.  When [Reconcile] succeeds, whatever single users could not be
    onboarded, every active directory user of the organization is in the snapshot, enabled and
    in a group whose native group is imported; nobody else is left active.  The users it counts as active
    are so, one for each SID. *)
Theorem reconcile_sound e w c domain w' res :
  Reconcile e w c org domain = (w', Ok res) →
  (∀ id r, clients (scim w') !! id = Some r → from_directory org r = true → c_status r = "active" →
     belongs w' c (default "" (c_ext r)))
  ∧ ∃ ids, size ids = Active res ∧ onboarded (scim w') ids ∧ ∀ sid, is_Some (ids !! sid) → belongs w' c sid.
Proof.
  unfold Reconcile. destruct (bridge_frame e w c) as (_ & _ & Hconn).
  destruct (BridgeGroups e w c org) as [w1 [bridged|]]; [|done]. cbn [fst] in Hconn. destruct (negb (ok e "imported" 0)); [done|].
  set (imported := imported_groups (e_ro e) (scim w1) org). unfold loadSnapshot. destruct (ok e "snapshot" 0); [|done].
  set (users := map _ _).
  pose proof (onboard_spec e 0 (scim w1) c domain imported ∅ 0 users) as Hon.
  destruct (onboard_frame e 0 (scim w1) c domain imported ∅ 0 users) as [_ Hg1].
  destruct (onboard _ _ _ _ _ _ _ _ _ _) as [[db ids] changed]. cbn [fst] in Hg1.
  destruct Hon as [Ho Hids]; [by intros sid id Hsid|].
  unfold offboardMissing. destruct (negb (ok e "load users" 0)); [done|]. set (inOrg := list_to_set _ : gset string).
  set (gone := map fst _).
  assert (Hgone : ∀ id, id ∈ gone ↔ ∃ r, clients db !! id = Some r ∧ from_directory org r = true ∧ c_status r = "active"
    ∧ default "" (c_ext r) ∉ inOrg).
  { intros id. unfold gone. rewrite list_elem_of_fmap. split.
    - intros ([j r] & -> & [Hr Hp]%elem_of_select). apply andb_true_iff in Hp as [[Hd Hs%bool_decide_eq_true]%andb_true_iff
        Hn%negb_true_iff%bool_decide_eq_false]. by exists r.
    - intros (r & Hr & Hd & Hs & Hn). exists (id, r). split; [done|]. apply elem_of_select. split; [done|].
      rewrite Hd, Hs, (bool_decide_eq_true_2 ("active" = _)), (bool_decide_eq_false_2 (_ ∈ inOrg)) by done. done. }
  assert (Hnd : NoDup gone).
  { unfold gone, select. apply (NoDup_fmap_filter_keys (e_ro e)). }
  pose proof (suspend_all_spec e 0 db gone Hnd) as Hsus.
  destruct (suspend_all e 0 db org gone) as [db2 [|]]; [|done]. intros [= <- <-]. cbn [scim with_scim Active].
  destruct Hsus as (_ & Hg2 & Hs); [intros id (r & Hr & Hd & _)%Hgone; by exists r|]. specialize (Hs eq_refl).
  destruct (memberships_same e 0 db2 (range (e_ro e) imported) users ids) as (Hc3 & Hg3 & _).
  set (db3 := setMemberships _ _ _ _ _ _) in *.
  assert (Hbel : ∀ sid, (∃ u, u ∈ users ∧ u_SID u = sid ∧ in_org imported u = true) → belongs (with_scim w1 db3) c sid).
  { intros sid (u & Hu & <- & Hi). apply list_elem_of_fmap in Hu as ([k r] & -> & Hr%elem_of_range). apply (in_org_belongs (e_ro e) _ _ _ r); [done|].
    cbn [scim with_scim]. unfold imported_groups. rewrite Hg3, Hg2, Hg1. exact Hi. }
  assert (Hin : ∀ sid, sid ∈ inOrg → belongs (with_scim w1 db3) c sid).
  { intros sid Hsid. apply Hbel. unfold inOrg in Hsid. rewrite elem_of_list_to_set in Hsid. apply list_elem_of_fmap in Hsid as (u & -> & Hu).
    apply list_elem_of_In, filter_In in Hu as [Hu%list_elem_of_In Hi]. by exists u. }
  split.
  - intros id r Hr Hd Hact. rewrite Hc3, Hs in Hr. case_bool_decide as Hgo.
    + apply Hgone in Hgo as (x & Hx & _). rewrite Hx in Hr. by injection Hr as <-.
    + apply Hin. destruct (decide (default "" (c_ext r) ∈ inOrg)) as [|Hn]; [done|]. exfalso. apply Hgo, Hgone. by exists r.
  - exists ids. split_and!; [done| |].
    + intros sid id Hid. destruct (Ho sid id Hid) as (r & Hr & Hd & He & Hact). exists r. split_and!; try done.
      rewrite Hc3, Hs, bool_decide_eq_false_2; [done|]. intros (x & Hx & _ & _ & Hn)%Hgone. apply Hn.
      assert (x = r) as -> by congruence. rewrite He. cbn. destruct (Hids sid) as [[? ?]|(u & Hu & <- & Hi)]; [by eexists|done|].
      unfold inOrg. rewrite elem_of_list_to_set. apply list_elem_of_fmap_2, list_elem_of_In, filter_In. split; [by apply list_elem_of_In|done].
    + intros sid Hsid. apply Hbel. by destruct (Hids sid Hsid) as [[? ?]|?].
Qed.

(** A run never touches what is not the directory's.  Whether it succeeds or fails half-way,
    with whatever failing statements, the client users that the directory did not provision,
    those of other tenants, the groups that are not directory groups of this tenant, and the
    administrators are as they were; in particular an account with a directory user's e-mail
    address is not taken over. *)
Theorem reconcile_frame e w c domain : frame (scim w) (scim (fst (Reconcile e w c org domain))).
Proof.
  unfold Reconcile. destruct (bridge_frame e w c) as (Hf & _ & _).
  destruct (BridgeGroups e w c org) as [w1 [bridged|]]; cbn [fst] in Hf; [|done]. destruct (negb _); [done|].
  destruct (loadSnapshot e (conn w1) c) as [users|]; [|done].
  set (imported := imported_groups _ _ _).
  destruct (onboard_frame e 0 (scim w1) c domain imported ∅ 0 users) as [Hf1 _].
  destruct (onboard _ _ _ _ _ _ _ _ _ _) as [[db ids] changed]. cbn [fst] in Hf1.
  unfold offboardMissing. destruct (negb (ok e "load users" 0)); [cbn; by etrans|]. set (gone := map fst _).
  pose proof (suspend_all_spec e 0 db gone) as Hsus. destruct (suspend_all e 0 db org gone) as [db2 b].
  destruct Hsus as (Hf2 & _ & _).
  { unfold gone, select. apply (NoDup_fmap_filter_keys (e_ro e)). }
  { intros id ([j r] & -> & [Hr Hp]%elem_of_select)%list_elem_of_fmap. exists r. split; [done|].
    by apply andb_true_iff in Hp as [[Hd _]%andb_true_iff _]. }
  destruct b; cbn [fst scim with_scim]; [|do 2 (etrans; [done|]); done].
  do 3 (etrans; [eassumption|]). apply (memberships_same e 0 db2).
Qed.

(** *** The groups of other tenants *)

(** The groups of other organizations and their members are the same. *)
Definition same_elsewhere (db db' : ScimStore.ScimStore.DB) : Prop :=
  ∀ id g, r_org g ≠ org → (groups db !! id = Some g ↔ groups db' !! id = Some g)
    ∧ (groups db !! id = Some g → ∀ u, ((u, id) ∈ admin_groups db ↔ (u, id) ∈ admin_groups db')
                                      ∧ ((u, id) ∈ client_groups db ↔ (u, id) ∈ client_groups db')).
#[export] Instance same_elsewhere_preorder : PreOrder same_elsewhere.
Proof.
  split; [by intros db id g Hg|]. intros a b c Hab Hbc id g Hg. destruct (Hab id g Hg) as [G1 M1], (Hbc id g Hg) as [G2 M2].
  split; [by rewrite G1|]. intros Hid u. destruct (M1 Hid u) as [A1 C1], (M2 (proj1 G1 Hid) u) as [A2 C2]. split; [by rewrite A1|by rewrite C1].
Qed.
Lemma elsewhere_insert db id g : r_org g = org → (∀ x, groups db !! id = Some x → r_org x = org) →
  same_elsewhere db (with_groups db (<[id := g]> (groups db))).
Proof.
  intros Ho Hid j x Hx. split; [|done]. cbn. destruct (decide (j = id)) as [->|Hne].
  - rewrite lookup_insert_eq. split; [by intros H%Hid|congruence].
  - by rewrite lookup_insert_ne.
Qed.
Lemma elsewhere_delete db id : (∀ g, groups db !! id = Some g → r_org g = org) →
  same_elsewhere db (with_members (with_groups db (delete id (groups db))) (drop_group id (admin_groups db)) (drop_group id (client_groups db))).
Proof.
  intros Hid j g Hg. cbn. destruct (decide (j = id)) as [->|Hne].
  - rewrite lookup_delete_eq. split; [split; [by intros H%Hid|done]|]. intros H%Hid. done.
  - rewrite lookup_delete_ne by done. split; [done|]. intros _ u. unfold drop_group. rewrite !elem_of_filter. cbn. naive_solver.
Qed.
Lemma elsewhere_same db db' : groups db' = groups db → admin_groups db' = admin_groups db → client_groups db' = client_groups db → same_elsewhere db db'.
Proof. intros Hg Ha Hc id g _. by rewrite Hg, Ha, Hc. Qed.
Lemma is_ldap_org g : is_ldap org g = true → r_org g = org.
Proof. unfold is_ldap. intros [H%bool_decide_eq_true _]%andb_true_iff. done. Qed.

Lemma bridge_groups_elsewhere e i db l res : same_elsewhere db (fst (bridge_groups e i db org l res)).
Proof.
  revert i db res. induction l as [|[sid name] l IH]; intros i db res; cbn; [done|].
  destruct (bridge_group _ _ _ _ _ _ _) as [[db1 res1]|] eqn:Hb; [|done]. etrans; [|apply IH]. clear IH. revert Hb.
  unfold bridge_group. destruct (negb _); [done|]. destruct (find_ldap _ _ _ _) as [[id g]|] eqn:Hf.
  - apply find_ldap_spec in Hf as (Hg & Hl%is_ldap_org & _). intros [= <- _]. destruct (_ && _); [|done].
    apply elsewhere_insert; [done|]. intros x Hx. congruence.
  - destruct (_ && _) eqn:Hw; intros [= <- _]; [|done]. apply andb_true_iff in Hw as [[_ Hn%bool_decide_eq_true]%andb_true_iff _].
    apply elsewhere_insert; [done|]. intros x Hx. congruence.
Qed.
Lemma prune_elsewhere d db : same_elsewhere db (fst (prune d org db)).
Proof.
  assert (Hst : ∀ g, r_org g ≠ org → stale d org g = false).
  { intros g Hg. unfold stale. destruct (is_ldap org g) eqn:Hl; [by apply is_ldap_org in Hl|done]. }
  intros id g Hg. unfold prune. cbn. rewrite map_lookup_filter_Some. cbn. specialize (Hst g Hg). split; [naive_solver|].
  intros Hid u. rewrite !elem_of_filter. cbn. assert (Hn : filter (λ kv, stale d org (snd kv) = true) (groups db) !! id = None); [|naive_solver].
  apply map_lookup_filter_None. right. cbn. intros x Hx. rewrite Hid in Hx. injection Hx as <-. by rewrite Hst.
Qed.
Lemma bridge_elsewhere e w c : same_elsewhere (scim w) (scim (fst (BridgeGroups e w c org))).
Proof.
  unfold BridgeGroups. destruct (negb _); [done|]. pose proof (bridge_groups_elsewhere e 0 (scim w) (flowing e (conn w) c) (mkBridge 0 0 0 0)) as Hf.
  destruct (bridge_groups _ _ _ _ _ _) as [db [res|]]; cbn [fst] in Hf; [|done]. destruct (ok e "prune groups" 0); [|done].
  pose proof (prune_elsewhere (conn w) db) as Hp. destruct (prune _ _ db) as [db' n]. cbn in *. by etrans.
Qed.

(** Onboarding changes no membership. *)
Lemma log_members b t db o u p n r : admin_groups (logStatusEvent b t db o u p n r) = admin_groups db
  ∧ client_groups (logStatusEvent b t db o u p n r) = client_groups db.
Proof. unfold logStatusEvent, logClientUserStatusEvent. by destruct (_ && _). Qed.
Lemma upsert_members e i db c domain u :
  let db' := fst (upsertClientUser e i db org c domain u) in admin_groups db' = admin_groups db ∧ client_groups db' = client_groups db.
Proof.
  unfold upsertClientUser. cbv zeta. case_bool_decide; [done|]. destruct (negb (ok e "find user" i)); [done|]. destruct (find_client _ _ _ _) as [[id r]|].
  - destruct (_ && _); [|done]. cbn [fst]. destruct (negb _); [|done]. match goal with |- context [logStatusEvent ?b ?t ?d ?o ?y ?p ?n ?m] => exact (log_members b t d o y p n m) end.
  - destruct (_ && _); [|done]. cbn [fst]. match goal with |- context [logStatusEvent ?b ?t ?d ?o ?y ?p ?n ?m] => exact (log_members b t d o y p n m) end.
Qed.
Lemma onboard_members e i db c domain imported ids n l :
  let db' := fst (fst (onboard e i db org c domain imported ids n l)) in admin_groups db' = admin_groups db ∧ client_groups db' = client_groups db.
Proof.
  revert i db ids n. induction l as [|u l IH]; intros i db ids n; cbn; [done|].
  destruct (negb _); [apply IH|]. destruct (upsert_members e i db c domain u) as [Ha Hc].
  destruct (upsertClientUser _ _ _ _ _ _ _) as [db1 [[id b]|]]; cbn [fst] in Ha, Hc;
    [destruct (IH (S i) db1 (<[u_SID u := id]> ids) (Nat.b2n b + n)) as [Ha' Hc']|destruct (IH (S i) db1 ids n) as [Ha' Hc']]; split; congruence.
Qed.
(** Offboarding changes the memberships of the suspended users only. *)
Lemma suspend_members e i db l :
  let db' := fst (suspend_all e i db org l) in
  groups db' = groups db ∧ admin_groups db' = admin_groups db ∧ client_groups db' ⊆ client_groups db
  ∧ ∀ u id, u ∉ l → (u, id) ∈ client_groups db ↔ (u, id) ∈ client_groups db'.
Proof.
  cbv zeta. revert i db. induction l as [|x l IH]; intros i db; cbn [suspend_all]; [done|]. destruct (negb _); [done|].
  set (db1 := with_clients db _).
  match goal with |- context [logStatusEvent ?b ?t ?d ?o ?y ?p ?n ?m] => destruct (log_same b t d o y p n m) as (_ & Hg & _); destruct (log_members b t d o y p n m) as [Ha Hc]; set (db2 := logStatusEvent b t d o y p n m) in * end.
  set (db3 := if ok e "leave groups" i then _ else db2).
  assert (H3 : groups db3 = groups db ∧ admin_groups db3 = admin_groups db ∧ client_groups db3 ⊆ client_groups db ∧ ∀ u id, u ≠ x → (u, id) ∈ client_groups db ↔ (u, id) ∈ client_groups db3).
  { subst db3. destruct (ok e "leave groups" i); cbn; rewrite ?Hg, ?Ha, ?Hc; split_and!; try done; unfold drop_member; cbn.
    - intros p Hp. by apply elem_of_filter in Hp as [_ Hp].
    - intros u id Hu. rewrite elem_of_filter. cbn. naive_solver. }
  destruct H3 as (G3 & A3 & S3 & C3). destruct (IH (S i) db3) as (G4 & A4 & S4 & C4). split_and!; [congruence|congruence|by etrans|].
  intros u id [Hx Hl]%not_elem_of_cons. rewrite C3 by done. by apply C4.
Qed.
Lemma insert_members_elsewhere (okf : nat → bool) (i : nat) (ex : string → bool) (b : bool) (gid : string) (m m' : gset (string * string)) (ids : list string) (u id : string) :
  insert_members okf i ex b gid m ids = Some m' → id ≠ gid → (u, id) ∈ m ↔ (u, id) ∈ m'.
Proof.
  revert i m. induction ids as [|x ids IH]; intros i m; cbn; [by intros [= <-]|]. destruct (_ && _); [|done]. intros Hm Hne.
  rewrite <- (IH _ _ Hm Hne). set_solver.
Qed.
Lemma setMemberships_elsewhere e i db l users ids id u : id ∉ (snd <$> l) →
  let db' := setMemberships e i db l users ids in admin_groups db' = admin_groups db ∧ ((u, id) ∈ client_groups db ↔ (u, id) ∈ client_groups db').
Proof.
  revert i db. induction l as [|[gsid gid] l IH]; intros i db Hl; cbn; [done|]. apply not_elem_of_cons in Hl as [Hne Hl]. cbn in Hne.
  destruct (insert_members _ _ _ _ _ _ _) as [cg|] eqn:Hm; [|done]. destruct (ok e "membership" i); [|done].
  destruct (IH (S i) (with_members db (admin_groups db) cg) Hl) as [Ha Hc]. split; [done|]. cbn in Hc |- *. rewrite <- Hc.
  rewrite <- (insert_members_elsewhere _ _ _ _ _ _ _ _ u id Hm Hne). unfold drop_group. rewrite elem_of_filter. cbn. naive_solver.
Qed.
Lemma imported_org ro db sid gid : imported_groups ro db org !! sid = Some gid → ∃ g, groups db !! gid = Some g ∧ r_org g = org.
Proof.
  unfold imported_groups. assert (Hl : Forall (λ kv, groups db !! fst kv = Some (snd kv) ∧ r_org (snd kv) = org)
    (select ro (λ _ g, is_ldap org g && r_import g && bool_decide (is_Some (r_ext g))) (groups db))).
  { apply Forall_forall. intros [k g] [Hg [[Hi%is_ldap_org _]%andb_true_iff _]%andb_true_iff]%elem_of_select. done. }
  revert Hl. generalize (select ro (λ _ g, is_ldap org g && r_import g && bool_decide (is_Some (r_ext g))) (groups db)) as l. intros l Hl.
  assert (Hgen : ∀ m : gmap string string, (∀ s g, m !! s = Some g → ∃ x, groups db !! g = Some x ∧ r_org x = org) →
    foldl (λ m kv, match r_ext (snd kv) with Some sid => <[sid := fst kv]> m | None => m end) m l !! sid = Some gid →
    ∃ g, groups db !! gid = Some g ∧ r_org g = org); [|apply Hgen; intros s g Hs; by rewrite lookup_empty in Hs].
  induction Hl as [|[k g] l [Hk Hg] _ IH]; intros m Hm; cbn; [apply Hm|]. apply IH. destruct (r_ext g) as [s0|]; [|done].
  intros s y [[<- <-]|[_ Hs]]%lookup_insert_Some; [by exists g|by eapply Hm].
Qed.

(** A run leaves the groups of other tenants and their members as they are, when the members of groups are users of
    the groups' tenants. *)
Theorem reconcile_elsewhere e w c domain :
  tenancy (scim w) → same_elsewhere (scim w) (scim (fst (Reconcile e w c org domain))).
Proof.
  intros [_ Hten]. unfold Reconcile. pose proof (bridge_elsewhere e w c) as Hb. destruct (bridge_frame e w c) as (_ & Hcl & _).
  destruct (BridgeGroups e w c org) as [w1 [bridged|]]; cbn [fst] in Hb, Hcl; [|done]. destruct (negb _); [done|].
  destruct (loadSnapshot e (conn w1) c) as [users|]; [|done].
  set (imported := imported_groups _ _ _).
  destruct (onboard_frame e 0 (scim w1) c domain imported ∅ 0 users) as [Hf1 Hg1].
  destruct (onboard_members e 0 (scim w1) c domain imported ∅ 0 users) as [Ha1 Hc1].
  destruct (onboard _ _ _ _ _ _ _ _ _ _) as [[db ids] changed]. cbn [fst] in Hf1, Hg1, Ha1, Hc1.
  assert (H1 : same_elsewhere (scim w) db) by (etrans; [exact Hb|by apply elsewhere_same]).
  unfold offboardMissing. destruct (negb (ok e "load users" 0)); [cbn; done|]. set (gone := map fst _).
  assert (Hgone : ∀ u, u ∈ gone → ∃ r, clients db !! u = Some r ∧ c_org r = org).
  { intros u ([j r] & -> & [Hr Hp]%elem_of_select)%list_elem_of_fmap. exists r. split; [done|].
    apply andb_true_iff in Hp as [[Hd _]%andb_true_iff _]. unfold from_directory in Hd. by apply andb_true_iff in Hd as [Hd%bool_decide_eq_true _]. }
  destruct (suspend_members e 0 db gone) as (Hg2 & Ha2 & Hs2 & Hc2). destruct (suspend_all e 0 db org gone) as [db2 b]. cbn [fst] in Hg2, Ha2, Hs2, Hc2.
  assert (H2 : same_elsewhere (scim w) db2).
  { intros id g Hg. destruct (H1 id g Hg) as [G1 M1]. rewrite Hg2. split; [done|]. intros Hid u. destruct (M1 Hid u) as [A1 C1]. rewrite Ha2. split; [done|].
    destruct (decide (u ∈ gone)) as [Hu|Hu]; [|rewrite C1; by apply Hc2]. destruct (Hgone u Hu) as (r & Hr & Ho).
    assert (Hno : (u, id) ∉ client_groups (scim w)).
    { intros Hin. destruct (Hten u id Hin) as (x & y & Hx & Hy & E). rewrite Hid in Hy. injection Hy as <-.
      assert (clients db !! u = Some x) as Hx'.
      { apply (frame_clients _ _ Hf1); [by rewrite Hcl|]. unfold from_directory. rewrite bool_decide_eq_false_2; [done|congruence]. }
      congruence. }
    split; [done|]. intros Hin. exfalso. by apply Hno, C1, Hs2. }
  destruct b; cbn [fst scim with_scim]; [|done]. etrans; [exact H2|]. intros id g Hg.
  destruct (memberships_same e 0 db2 (range (e_ro e) imported) users ids) as (_ & Hg3 & _). rewrite Hg3. split; [done|]. intros Hid u.
  destruct (setMemberships_elsewhere e 0 db2 (range (e_ro e) imported) users ids id u) as [Ha3 Hc3]; [|by rewrite Ha3].
  intros ([sid gid] & -> & Hin%elem_of_range)%list_elem_of_fmap. cbn in Hid. destruct (imported_org _ _ _ _ Hin) as (y & Hy & Ho).
  rewrite Hg2, Hg1 in Hid. congruence.
Qed.

End Proofs.

(** ** Witnesses *)

(** Bob has left the directory; Ann is in the imported group Sales. *)
Definition demo_client (sid email status : string) : client_row :=
  mkClient "acme" email sid None None (Some ProvisionSource) (Some sid) (Some sid) (Some "ad") status None (Some "connector")
    None None None 1 1.
Definition demo_world : world :=
  mkWorld
    (ScimStore.ScimStore.mkDB ∅ {["c9" := demo_client "u9" "bob@acme.test" "active"]}
       {["n1" := ScimStore.ScimStore.mkGroupRow "acme" "Sales" (Some "g1") None "ldap" true 1 1]} ∅ {[("c9", "n1")]} [] {["acme"]} [])
    (fst demo_sync).
Definition demo_run : world * result string ReconcileResult := Reconcile (Connector.Connector.demo_env 9) demo_world "ad" "acme" "acme.test".

Lemma demo_run_result : snd demo_run = Ok (mkReconcile (mkBridge 0 1 0 0) 1 1 1 1).
Proof. vm_compute. reflexivity. Qed.

Lemma reconcile_sound_witness :
  (∀ id r, clients (scim (fst demo_run)) !! id = Some r → from_directory "acme" r = true → c_status r = "active" →
     belongs "acme" (fst demo_run) "ad" (default "" (c_ext r)))
  ∧ c_status <$> clients (scim (fst demo_run)) !! "c9" = Some "suspended"
  ∧ c_email <$> clients (scim (fst demo_run)) !! "client0" = Some "ann@ad.acme.test".
Proof.
  split; [|split; vm_compute; reflexivity].
  destruct (reconcile_sound "acme" (Connector.Connector.demo_env 9) demo_world "ad" "acme.test" (fst demo_run) (mkReconcile (mkBridge 0 1 0 0) 1 1 1 1))
    as [Hs _]; [|exact Hs].
  rewrite <- demo_run_result. fold demo_run. destruct demo_run; reflexivity.
Defined.

End Directory.
