(* ===== verification/Kerberos.v ===== *)
(** * Kerberos single sign-on of a device's user

    [src/internal/security/kerberos.go] and [src/internal/api/handlers/kerberos_sso_handler.go]:
    a device proves itself by its certificate, its user by a Kerberos ticket that is checked
    offline with the keytab of the service; the principal is looked up in the directory
    snapshot, the client user it stands for is bound to the device, and the device is given an
    agent token with the user's groups.

    [Gokrb5] is what the code uses of the Kerberos library: parsing a keytab, and accepting a
    token with it, which yields the credentials of the client.  The database is that of the
    devices, with the SCIM tables in it, and the connector's tables. *)

From S2P Require Import Prelude GoStrings Encoding Jwt AuthStore Access ScimStore Devices AgentAuth Connector Directory.
From Stdlib Require Import Ascii.
#[local] Open Scope string_scope.
#[local] Open Scope nat_scope.
#[local] Open Scope list_scope.

Module Kerberos.
Import GoStrings Jwt Access Devices.Devices AgentAuth.AgentAuth.

(** ** Tickets *)

Record credentials := mkCreds {
  UserName : string;
  Domain : string;
  EffectiveName : string;
  ad_FullName : string;
  GroupMembershipSIDs : list string;
}.
Class Gokrb5 := {
  keytab : Type;
  keytab_Unmarshal : bytes → option keytab;
  AcceptSecContext : keytab → bytes → option credentials;
}.

Record KerberosIdentity := mkKerberos {
  Username : string;
  Realm : string;
  Principal : string;
  FullName : string;
  GroupSIDs : list string;
}.

Section Validator.
Context `{Gokrb5}.

Record KerberosValidator := mkValidator { kt : keytab; spn : string; realm : string }.

Definition NewKerberosValidator (keytabB64 spn realm : string) : result string KerberosValidator :=
  let keytabB64 := TrimSpace keytabB64 in
  if bool_decide (keytabB64 = "") then Err "kerberos: empty keytab"
  else
    match Base64.decode_std keytabB64 with
    | None => Err "kerberos: decode keytab base64"
    | Some raw =>
        match keytab_Unmarshal raw with
        | None => Err "kerberos: parse keytab"
        | Some k => Ok (mkValidator k (TrimSpace spn) (ToUpper (TrimSpace realm)))
        end
    end.

(** The text after [negotiate ]. *)
Definition skip (n : nat) (s : string) : string := String.substring n (String.length s - n) s.
Definition negotiate (s : string) : string := if HasPrefix (ToLower s) "negotiate " then TrimSpace (skip 10 s) else s.

Definition Validate (v : KerberosValidator) (spnegoToken : string) : result string KerberosIdentity :=
  let tok := negotiate (TrimSpace spnegoToken) in
  if bool_decide (tok = "") then Err "kerberos: empty spnego token"
  else
    match Base64.decode_std tok with
    | None => Err "kerberos: decode spnego token"
    | Some raw =>
        match AcceptSecContext (kt v) raw with
        | None => Err "kerberos: spnego validation failed"
        | Some creds =>
            let user := TrimSpace (UserName creds) in
            let r := ToUpper (TrimSpace (Domain creds)) in
            if bool_decide (user = "") then Err "kerberos: validated ticket has empty principal"
            else
              let r := if bool_decide (r = "") then realm v else r in
              if negb (bool_decide (realm v = "")) && negb (EqualFold r (realm v))
              then Err "kerberos: principal realm does not match expected realm"
              else
                let ad := negb (bool_decide (EffectiveName creds = "")) || negb (bool_decide (GroupMembershipSIDs creds = [])) in
                Ok (mkKerberos user r (user +:+ "@" +:+ r) (if ad then ad_FullName creds else "")
                      (if ad then GroupMembershipSIDs creds else []))
        end
    end.

(** ** The handler *)

Record kerberosSSORequest := mkSsoReq {
  k_TenantID : string;
  k_DeviceID : string;
  k_Platform : string;
  SPNEGOToken : string;
}.
Inductive kerberos_reply :=
| KErr (status : Z) (msg : string)
| KOk (token : string) (expires : Z) (agent_id : string) (k : KerberosIdentity) (user : Directory.Directory.ClientUserRef) (groups : list string).

Record world := mkWorld { devs : DB; conns : Connector.Connector.DB }.
Definition directory (w : world) : Directory.Directory.world := Directory.Directory.mkWorld (scim (devs w)) (conns w).
Definition with_devs (w : world) (db : DB) : world := mkWorld db (conns w).

Context (parse_leaf : string → option peer_cert) (organization : peer_cert → list string) (not_after : peer_cert → Z).
Context `{JwtLib} (jwtSecret : bytes).

Definition registration (req : kerberosSSORequest) (i : mtlsClientIdentity) : DeviceRegistration :=
  mkReg (k_TenantID req) (k_DeviceID req) (k_DeviceID req) (k_Platform req) (Subject i) (Serial i) (FingerprintSHA256 i)
    (NotAfter i) "".
(** The token of the body, else that of the header. *)
Definition presented_token (req : kerberosSSORequest) (authorization : string) : string :=
  let t := TrimSpace (SPNEGOToken req) in
  if bool_decide (t = "")
  then (if HasPrefix (ToLower authorization) "negotiate " then TrimSpace (skip 10 authorization) else "")
  else t.

(** Binding the user and issuing the token, once user and device are known. *)
Definition bind_and_issue (e : env) (w : world) (req : kerberosSSORequest) (i : mtlsClientIdentity) (k : KerberosIdentity)
    (user : Directory.Directory.ClientUserRef) (id : string) : world * kerberos_reply :=
  match LinkClientUser e 5 (devs w) (k_TenantID req) id (Directory.Directory.cr_ID user) with
  | (db, Err _) => (with_devs w db, KErr 500 "failed to bind user to device")
  | (db, Ok _) =>
      let w := with_devs w db in
      let groups := match GroupNamesForDevice e 6 db id with Ok l => l | Err _ => [] end in
      match AuthStore.AuthStore.IssueAgentToken jwtSecret (now e) (k_TenantID req) id (FingerprintSHA256 i) (Serial i) groups
              true (Principal k) with
      | Err _ => (w, KErr 500 "token generation failed")
      | Ok (jwt, expiresAt) => (w, KOk jwt expiresAt id k user groups)
      end
  end.

(** [de] is the environment of the lookups in the directory. *)
Definition Authenticate (v : option KerberosValidator) (e : env) (de : Connector.Connector.env) (w : world) (r : request)
    (body : option kerberosSSORequest) : world * kerberos_reply :=
  match v, body with
  | None, _ => (w, KErr 503 "kerberos sso is not configured")
  | Some _, None => (w, KErr 400 "invalid kerberos sso request")
  | Some v, Some req =>
      if bool_decide (k_TenantID req = "") || bool_decide (k_DeviceID req = "")
      then (w, KErr 400 "tenant_id and device_id are required")
      else
        let token := presented_token req (header r "Authorization") in
        if bool_decide (token = "") then (w, KErr 400 "spnego_token (or Authorization: Negotiate header) is required")
        else
          match clientCertificateIdentity parse_leaf organization not_after (now e) r with
          | None => (w, KErr 401 "device mTLS certificate is required")
          | Some i =>
              if negb (bool_decide (CommonName i = k_DeviceID req)) || negb (contains (Organizations i) (k_TenantID req))
              then (w, KErr 401 "device certificate identity does not match tenant_id and device_id")
              else
                match Validate v token with
                | Err _ => (w, KErr 401 "kerberos authentication failed")
                | Ok k =>
                    match Directory.Directory.ResolveClientUserByPrincipal de (directory w) (k_TenantID req) (Principal k) with
                    | Err Directory.Directory.NotProvisioned => (w, KErr 403 "user is not a member of an imported directory group")
                    | Err Directory.Directory.NotInDirectory => (w, KErr 403 "user not recognized")
                    | Err _ => (w, KErr 500 "user resolution failed")
                    | Ok user =>
                        if negb (bool_decide (Directory.Directory.cr_Status user = "active")) then (w, KErr 403 "user account is not active")
                        else
                          match RegisterMTLSDevice e (devs w) (registration req i) with
                          | (db, Err LicenseLimit) => (with_devs w db, KErr 402 "device license limit reached")
                          | (db, Err x) => (with_devs w db, KErr 401 (error_text x))
                          | (db, Ok id) => bind_and_issue e (with_devs w db) req i k user id
                          end
                    end
                end
          end
  end.

(** ** Who is bound to a device *)

(** A connector, any, has the principal; [sid] is that row's, and the client user of the tenant
    with this SID is active and from the directory. *)
Definition directory_user (w : world) (org principal id : string) : Prop :=
  ∃ c sid u r, Connector.Connector.users_of (conns w) c !! sid = Some u
    ∧ Directory.Directory.named (Directory.Directory.localpart (TrimSpace principal)) (TrimSpace principal) u = true
    ∧ ScimStore.ScimStore.clients (scim (devs w)) !! id = Some r ∧ Directory.Directory.from_directory org r = true
    ∧ ScimStore.ScimStore.c_ext r = Some sid ∧ ScimStore.ScimStore.c_status r = "active".

Lemma resolve_spec de w org principal user :
  Directory.Directory.ResolveClientUserByPrincipal de (directory w) org principal = Ok user →
  Directory.Directory.cr_Status user = "active" → directory_user w org principal (Directory.Directory.cr_ID user).
Proof.
  unfold Directory.Directory.ResolveClientUserByPrincipal. case_bool_decide; [done|]. destruct (negb _); [done|].
  destruct (head _) as [[sid u]|] eqn:Hh; [|done]. destruct (negb _); [done|].
  destruct (Directory.Directory.find_client _ _ _ _) as [[id r]|] eqn:Hf; [|done]. intros [= <-]. cbn. intros Hact.
  apply Directory.Directory.find_client_spec in Hf as (Hr & Hd & He).
  set (l := Directory.Directory.all_users _ _) in Hh.
  assert (Hin : (sid, u) ∈ List.filter (λ kv, Directory.Directory.named (Directory.Directory.localpart (TrimSpace principal)) (TrimSpace principal) (snd kv)) l).
  { destruct (List.filter _ l) as [|x k]; [done|]. cbn in Hh. injection Hh as ->. apply list_elem_of_here. }
  apply list_elem_of_In, filter_In in Hin as [Hin Hn]. apply in_flat_map in Hin as ([c m] & Hc%list_elem_of_In%elem_of_range & Hu).
  cbn in Hu. apply list_elem_of_In, elem_of_range in Hu. exists c, sid, u, r. split_and!; try done.
  unfold Connector.Connector.users_of. cbn in Hc. by rewrite Hc.
Qed.

Lemma ticket_spec v token k : Validate v token = Ok k →
  ∃ raw creds, AcceptSecContext (kt v) raw = Some creds ∧ Username k = TrimSpace (UserName creds)
    ∧ (realm v ≠ "" → EqualFold (Realm k) (realm v) = true) ∧ Principal k = Username k +:+ "@" +:+ Realm k.
Proof.
  unfold Validate. case_bool_decide; [done|]. destruct (Base64.decode_std _) as [raw|]; [|done].
  destruct (AcceptSecContext (kt v) raw) as [creds|] eqn:Ha; [|done]. case_bool_decide; [done|].
  set (rl := if bool_decide _ then realm v else _). destruct (negb (bool_decide (realm v = "")) && negb (EqualFold rl (realm v))) eqn:Hr; [done|].
  intros [= <-]. exists raw, creds. split_and!; [done|done| |done]. cbn. intros Hne.
  apply andb_false_iff in Hr as [Hr%negb_false_iff%bool_decide_eq_true|Hr%negb_false_iff]; [done|done].
Qed.
Lemma contains_spec l x : contains l x = true → x ∈ l.
Proof. unfold contains. intros (y & Hy%list_elem_of_In & ->%bool_decide_eq_true)%existsb_exists. done. Qed.

(** Who is bound to a device.  A reply with a token means: the certificate names the device
    and the tenant; the ticket was accepted with the keytab of the service, in the configured
    realm if there is one; its principal is in the directory snapshot, and the client user of
    the tenant with that SID is active and provisioned by the directory; the device is
    registered, of the tenant, and bound to that user; the token is the device's, with the
    principal and with no other groups than the user's.  Every refusal but an internal error
    (status 500) leaves the databases as they were. *)
Theorem kerberos_sso_sound v e de w r body w' rep :
  Authenticate v e de w r body = (w', rep) →
  match rep with
  | KOk tok exp id k user groups =>
      ∃ v' req i raw creds row, v = Some v' ∧ body = Some req
        ∧ clientCertificateIdentity parse_leaf organization not_after (now e) r = Some i
        ∧ CommonName i = k_DeviceID req ∧ k_TenantID req ∈ Organizations i
        ∧ AcceptSecContext (kt v') raw = Some creds ∧ Username k = TrimSpace (UserName creds)
        ∧ (realm v' ≠ "" → EqualFold (Realm k) (realm v') = true) ∧ Principal k = Username k +:+ "@" +:+ Realm k
        ∧ directory_user w (k_TenantID req) (Principal k) (Directory.Directory.cr_ID user)
        ∧ devices (devs w') !! id = Some row ∧ d_device_id row = k_DeviceID req ∧ d_org row = k_TenantID req
        ∧ d_client_user row = Some (Directory.Directory.cr_ID user)
        ∧ (groups = [] ∨ groups = group_names (devs w') (Directory.Directory.cr_ID user))
        ∧ AuthStore.AuthStore.IssueAgentToken jwtSecret (now e) (k_TenantID req) id (FingerprintSHA256 i) (Serial i) groups
            true (Principal k) = Ok (tok, exp)
  | KErr status _ => status = 500%Z ∨ w' = w
  end.
Proof.
  unfold Authenticate. destruct v as [v|], body as [req|]; try (intros [= <- <-]; by right).
  destruct (_ || _); [intros [= <- <-]; by right|].
  set (token := presented_token req (header r "Authorization")). case_bool_decide; [intros [= <- <-]; by right|].
  destruct (clientCertificateIdentity _ _ _ (now e) r) as [i|] eqn:Hi; [|intros [= <- <-]; by right].
  destruct (negb (bool_decide (CommonName i = k_DeviceID req)) || _) eqn:Hc; [intros [= <- <-]; by right|].
  apply orb_false_iff in Hc as [Hcn%negb_false_iff%bool_decide_eq_true Hten%negb_false_iff%contains_spec].
  destruct (Validate v token) as [k|] eqn:Hv; [|intros [= <- <-]; by right].
  apply ticket_spec in Hv as (raw & creds & Hacc & Huser & Hrealm & Hprin).
  destruct (Directory.Directory.ResolveClientUserByPrincipal _ _ _ _) as [user|err] eqn:Hres;
    [|destruct err; intros [= <- <-]; by (left + right)].
  destruct (bool_decide (Directory.Directory.cr_Status user = "active")) eqn:Hact; [|intros [= <- <-]; by right].
  apply bool_decide_eq_true in Hact. apply resolve_spec in Hres; [|done]. cbn [negb].
  pose proof (registration_inv e (devs w) (registration req i)) as Hreg.
  destruct (RegisterMTLSDevice e (devs w) (registration req i)) as [db [id|err]].
  2: { subst db. destruct w as [dw cw]. destruct err; intros [= <- <-]; by right. }
  destruct Hreg as (o & row & _ & Hrow & _ & _ & Hset & _). apply set_consumed_devices in Hset as [Hdev Hscim].
  apply registered_spec in Hrow as (Hid & _).
  unfold bind_and_issue, LinkClientUser. cbn [devs with_devs]. destruct (_ || _); [intros [= <- <-]; by left|].
  destruct (negb (ok e 5)); [intros [= <- <-]; by left|]. rewrite Hdev. cbn [devices with_devices]. rewrite lookup_insert_eq.
  destruct (bool_decide (d_org row = k_TenantID req) && _) eqn:Hl; [|intros [= <- <-]; by left].
  apply andb_true_iff in Hl as [Horg%bool_decide_eq_true _]. cbv zeta.
  set (row' := set_client_user (now e) true (Directory.Directory.cr_ID user) row). set (db2 := with_devices db _).
  assert (Hrow' : devices db2 !! id = Some row') by apply lookup_insert_eq.
  set (groups := match GroupNamesForDevice e 6 db2 id with Ok l => l | Err _ => [] end).
  destruct (AuthStore.AuthStore.IssueAgentToken _ _ _ _ _ _ _ _ _) as [[jwt exp]|] eqn:Htok; intros [= <- <-]; [|by left].
  exists v, req, i, raw, creds, row'. split_and!; try done.
  subst groups. unfold GroupNamesForDevice. destruct (ok e 6); [|by left]. rewrite Hrow'. by right.
Qed.

End Validator.

(** ** The realm of a principal is not compared *)

Lemma lower_at c : Ascii.eqb "@" (lower_char c) = Ascii.eqb "@" c.
Proof. by destruct c as [[] [] [] [] [] [] [] []]. Qed.
Lemma before_lower s : before "@" (ToLower s) = ToLower (before "@" s).
Proof. unfold ToLower. induction s as [|c s IH]; cbn [smap before]; [done|]. rewrite lower_at.
  destruct (Ascii.eqb "@" c); [done|]. cbn [smap]. by rewrite IH. Qed.
Lemma before_at u r : "@"%char ∉ String.list_ascii_of_string u → before "@" (u +:+ "@" +:+ r) = u.
Proof.
  induction u as [|c u IH]; intros Hu; [done|]. cbn [String.list_ascii_of_string] in Hu.
  apply not_elem_of_cons in Hu as [Hc Hu]. change (String c u +:+ ?x) with (String c (u +:+ x)). cbn [before].
  destruct (Ascii.eqb_spec "@" c); [done|]. f_equal. by apply IH.
Qed.
Lemma named_short u r row : "@"%char ∉ String.list_ascii_of_string u →
  Directory.Directory.named u (u +:+ "@" +:+ r) row =
  bool_decide (ToLower <$> Connector.Connector.cu_sam row = Some (ToLower u))
  || bool_decide (ToLower (Directory.Directory.localpart (default "" (Connector.Connector.cu_upn row))) = ToLower u).
Proof.
  intros Hu. unfold Directory.Directory.named. destruct (bool_decide (_ = Some (ToLower u))); [done|]. cbn [orb].
  case_bool_decide as Hp; [|done]. cbn [orb]. symmetry. apply bool_decide_eq_true.
  destruct (Connector.Connector.cu_upn row) as [upn|]; [|done]. cbn in *. injection Hp as Hp.
  unfold Directory.Directory.localpart. rewrite <- before_lower, Hp, before_lower. by rewrite before_at.
Qed.

(** The realm of a principal is not compared.  The client user a principal stands for is the
    same whatever its realm: only the name before the [@] is looked up, among the users that
    all connectors of all tenants reported.  Where the service has no configured realm, a ticket
    of any realm whose keys the keytab has logs in the directory user of that name. *)
Theorem principal_realm_ignored de w org u r1 r2 :
  "@"%char ∉ String.list_ascii_of_string u →
  TrimSpace (u +:+ "@" +:+ r1) = u +:+ "@" +:+ r1 → TrimSpace (u +:+ "@" +:+ r2) = u +:+ "@" +:+ r2 →
  Directory.Directory.ResolveClientUserByPrincipal de w org (u +:+ "@" +:+ r1) =
  Directory.Directory.ResolveClientUserByPrincipal de w org (u +:+ "@" +:+ r2).
Proof.
  intros Hu H1 H2. unfold Directory.Directory.ResolveClientUserByPrincipal. rewrite H1, H2.
  assert (Hne : ∀ r, u +:+ "@" +:+ r ≠ "") by (intros r; by destruct u). rewrite !bool_decide_eq_false_2 by done.
  assert (Hl : ∀ r, Directory.Directory.localpart (u +:+ "@" +:+ r) = u) by (intros r; by apply before_at). rewrite !Hl.
  assert (Hf : ∀ l, List.filter (λ kv : string * Connector.Connector.cuser_row, Directory.Directory.named u (u +:+ "@" +:+ r1) (snd kv)) l =
    List.filter (λ kv, Directory.Directory.named u (u +:+ "@" +:+ r2) (snd kv)) l).
  { intros l. apply filter_ext. intros [sid row]. by rewrite !named_short. }
  by rewrite Hf.
Qed.

(** ** Witnesses *)

(** A ticket is the name of its user. *)
Definition toy_krb : Gokrb5 := {|
  keytab := unit;
  keytab_Unmarshal _ := Some tt;
  AcceptSecContext _ b := Some (mkCreds (to_string b) "ad.acme.test" "" "" []);
|}.

Section Witness.
#[local] Existing Instances toy_krb toy_jwt.

Definition demo_validator : KerberosValidator := mkValidator tt "HTTP/api.acme.test" "AD.ACME.TEST".
(** Ann was provisioned by the directory. *)
Definition demo_scim : ScimStore.ScimStore.DB := Directory.Directory.scim (fst Directory.Directory.demo_run).
Definition demo_world : world :=
  mkWorld (mkDB demo_scim ∅ {["acme" := mkOrg (Some 1%Z) (Some 0%Z)]} [] []) (fst Connector.Connector.demo_sync).
Definition demo_sso : kerberosSSORequest := mkSsoReq "acme" "laptop" "linux" "YW5u".
Definition demo_login : world * kerberos_reply :=
  Authenticate (λ _, None) AgentAuth.AgentAuth.demo_orgs AgentAuth.AgentAuth.demo_end AgentAuth.AgentAuth.demo_secret
    (Some demo_validator) (Devices.Devices.demo_env 5 "d1") (Connector.Connector.demo_env 9) demo_world
    (AgentAuth.AgentAuth.demo_req "laptop" "acme") (Some demo_sso).

Lemma kerberos_sso_sound_witness :
  ∃ row, devices (devs (fst demo_login)) !! "d1" = Some row ∧ d_client_user row = Some "client0"
    ∧ directory_user demo_world "acme" "ann@AD.ACME.TEST" "client0".
Proof.
  assert (Hl : match snd demo_login with
               | KOk _ _ id k user _ => bool_decide (id = "d1" ∧ Principal k = "ann@AD.ACME.TEST" ∧ Directory.Directory.cr_ID user = "client0")
               | _ => false
               end = true) by (vm_compute; reflexivity).
  unfold demo_login in *. destruct (Authenticate _ _ _ _ _ _ _ _ _ _) as [w' rep] eqn:Hrun. cbn [fst snd] in *.
  pose proof (kerberos_sso_sound _ _ _ _ _ _ _ _ _ _ _ _ Hrun) as Hs.
  destruct rep as [status msg|tok exp id k user groups]; [done|].
  apply bool_decide_eq_true in Hl as (-> & Hp & Hu).
  destruct Hs as (v' & req & i & raw & creds & row & _ & [= <-] & _ & _ & _ & _ & _ & _ & _ & Hd & Hrow & _ & _ & Hcu & _).
  rewrite Hp, Hu in Hd. rewrite Hu in Hcu. exists row. split_and!; [exact Hrow|exact Hcu|exact Hd].
Defined.

Lemma principal_realm_ignored_witness :
  Directory.Directory.ResolveClientUserByPrincipal (Connector.Connector.demo_env 9) (directory demo_world) "acme" "ann@EVIL.TEST" =
  Ok (Directory.Directory.mkClientRef "client0" "ann@ad.acme.test" "ann" "active").
Proof.
  change "ann@EVIL.TEST" with ("ann" +:+ "@" +:+ "EVIL.TEST").
  rewrite (principal_realm_ignored _ _ _ "ann" "EVIL.TEST" "AD.ACME.TEST"); [vm_compute; reflexivity|by_evaluation|vm_compute; reflexivity..].
Defined.

End Witness.

End Kerberos.
