(* ===== verification/Calls.v ===== *)
(** * Sequences of calls to a store

    A store answers calls one after the other: [serve s c] is the state after the call [c]
    and its answer.  [run] answers a list of calls.  Two stores that answer each call alike
    and keep a relation between their states answer every list alike ([run_simulates]); a
    property that each call keeps holds after all of them ([run_keeps]). *)

From S2P Require Import Prelude.
#[local] Open Scope list_scope.

Module Calls.

Section Run.
Context {S C A : Type} (serve : S → C → S * A).

Fixpoint run (s : S) (l : list C) : S * list A :=
  match l with
  | [] => (s, [])
  | c :: l => let '(s, a) := serve s c in let '(s, k) := run s l in (s, a :: k)
  end.
Definition after (s : S) (l : list C) : S := fst (run s l).

Lemma after_cons s c l : after s (c :: l) = after (fst (serve s c)) l.
Proof. unfold after. cbn [run]. destruct (serve s c) as [s1 a]. cbn [fst]. by destruct (run s1 l). Qed.
Lemma after_app s l k : after s (l ++ k) = after (after s l) k.
Proof. revert s. induction l as [|c l IH]; intros s; [done|]. cbn [app]. by rewrite !after_cons, IH. Qed.

Lemma run_keeps (P : S → Prop) s l :
  P s → (∀ s c, c ∈ l → P s → P (fst (serve s c))) → P (after s l).
Proof.
  revert s. induction l as [|c l IH]; intros s Hs Hstep; [done|]. rewrite after_cons. apply IH.
  - apply Hstep; [apply list_elem_of_here|done].
  - intros s' c' Hin. apply Hstep. by apply list_elem_of_further.
Qed.

End Run.

Lemma run_simulates {S1 S2 C A} (serve1 : S1 → C → S1 * A) (serve2 : S2 → C → S2 * A) (R : S1 → S2 → Prop) (good : C → Prop) :
  (∀ s1 s2 c, R s1 s2 → good c →
     snd (serve1 s1 c) = snd (serve2 s2 c) ∧ R (fst (serve1 s1 c)) (fst (serve2 s2 c))) →
  ∀ l s1 s2, R s1 s2 → Forall good l →
  snd (run serve1 s1 l) = snd (run serve2 s2 l) ∧ R (after serve1 s1 l) (after serve2 s2 l).
Proof.
  intros Hsim l s1 s2 HR Hl. revert s1 s2 HR. induction Hl as [|c l Hc Hl IH]; intros s1 s2 HR; [done|].
  destruct (Hsim s1 s2 c HR Hc) as [Ha HR']. rewrite !after_cons. destruct (IH _ _ HR') as [Hk HR2]. split; [|done].
  cbn [run]. destruct (serve1 s1 c) as [t1 a1], (serve2 s2 c) as [t2 a2]. cbn [fst snd] in *.
  destruct (run serve1 t1 l), (run serve2 t2 l). cbn in *. by rewrite Ha, Hk.
Qed.

End Calls.
