(* ===== verification/Features.v ===== *)
(** * Feature licensing and feature flags

    [src/internal/features/store.go] (the store in memory, with the catalog),
    [iface.go] (the interface), [src/internal/db/feature_store.go] (the table behind the
    same interface), [src/internal/db/feature_flag_store.go] and the handlers
    [feature_handler.go] and [feature_flag_handler.go].

    Both stores implement [FeatureStore]; the handlers are functions of an implementation.
    Times are printed in UTC.  A [TIMESTAMPTZ] column keeps microseconds. *)

From S2P Require Import Prelude GoStrings GoTime Sql Calls.
From stdpp Require Import sorting.
#[local] Open Scope string_scope.
#[local] Open Scope list_scope.

Module Features.
Import GoStrings GoTime Sql Calls.

Record Feature := mkFeature {
  ID : string;
  Name : string;
  Category : string;
  Description : string;
  Enabled : bool;
  MinPlan : string;
  TrialDays : Z;
  TrialEnd : string;
  UpdatedBy : string;
  UpdatedAt : Z;
}.

(** A name that is not a plan ranks below all. *)
Definition planRank (plan : string) : Z :=
  if bool_decide (plan = "standard") then 1
  else if bool_decide (plan = "professional") then 2
  else if bool_decide (plan = "enterprise") then 3
  else 0.

(** The readings of the clock along a call, that of the database, and which statements fail. *)
Record env := mkEnv { clk : nat → Z; db_now : Z; ok : nat → bool }.

(** What a store promises to the handlers. *)
Class FeatureStore (S : Type) := {
  List : env → S → list Feature;
  Get : env → S → string → option Feature;
  Toggle : env → S → string → bool → string → string → S * result string Feature;
  StartTrial : env → S → string → string → S * result string Feature;
  IsEnabled : env → S → string → bool;
}.

Definition not_found (id : string) : string := "feature " +:+ Quote id +:+ " not found".
Definition needs_plan (f : Feature) (plan : string) : string :=
  "feature " +:+ Quote (Name f) +:+ " requires " +:+ MinPlan f +:+ " plan or higher (current: " +:+ plan +:+ ")".
Definition no_trial (f : Feature) : string := "feature " +:+ Quote (Name f) +:+ " does not offer a trial".
Definition trial_used (f : Feature) : string := "trial for " +:+ Quote (Name f) +:+ " already used".

Definition allowed (f : Feature) (enabled : bool) (plan : string) : bool :=
  negb enabled || (planRank (MinPlan f) <=? planRank plan)%Z.
Definition set_enabled (enabled : bool) (actor : string) (t : Z) (f : Feature) : Feature :=
  mkFeature (ID f) (Name f) (Category f) (Description f) enabled (MinPlan f) (TrialDays f) (TrialEnd f) actor t.
(** [now.Add(time.Duration(days) * 24 * time.Hour)] *)
Definition trial_end (days t : Z) : Z := t + wrap_i64 (days * (24 * 3600 * second)).
Definition set_trial (end_ : Z) (actor : string) (t : Z) (f : Feature) : Feature :=
  mkFeature (ID f) (Name f) (Category f) (Description f) true (MinPlan f) (TrialDays f) (RFC3339 end_) actor t.
(** Not expired: the text of the end is kept, to the second. *)
Definition running (now : Z) (f : Feature) : bool :=
  if bool_decide (TrialEnd f = "") then true
  else match ParseRFC3339 (TrialEnd f) with Some e => (now <=? e)%Z | None => true end.

(** ** The store in memory *)

Definition feature (id name category description : string) (enabled : bool) (plan : string) (days : Z) : Feature :=
  mkFeature id name category description enabled plan days "" "" zero_time.
Definition DefaultFeatures : list Feature :=
  [
   feature "firewall" "Stateful Firewall" "Network Security"
     "L3/L4 stateful packet inspection with zone-based policies" true "standard" 0;
   feature "sdwan" "SD-WAN Optimizer" "Network Security"
     "Application-aware path selection and link quality monitoring" true "standard" 0;
   feature "vpn-ipsec" "IPSec VPN" "Network Security"
     "Site-to-site and remote-access IPSec tunnels" true "standard" 0;
   feature "vpn-ssl" "SSL VPN" "Network Security"
     "Clientless and full-tunnel SSL VPN" true "standard" 0;
   feature "ztna" "Zero Trust Network Access" "Network Security"
     "Identity-aware application access without traditional VPN" true "professional" 0;
   feature "atp" "Advanced Threat Protection" "Threat Protection"
     "Real-time threat detection with sandboxing and behavioral analysis" true "professional" 30;
   feature "ips" "Intrusion Prevention System" "Threat Protection"
     "Signature and anomaly-based intrusion prevention" true "professional" 30;
   feature "antivirus" "AegisAV Engine" "Threat Protection"
     "Multi-engine antivirus with proxy and flow-based inspection" true "professional" 30;
   feature "sandboxing" "AegisSandbox" "Threat Protection"
     "Cloud-based sandbox detonation for zero-day threats" false "enterprise" 14;
   feature "web-filter" "Web Filter" "Content Security"
     "URL categorization and web content filtering" true "professional" 30;
   feature "dns-filter" "DNS Filter" "Content Security"
     "DNS-layer threat blocking and category filtering" true "standard" 0;
   feature "app-control" "Application Control" "Content Security"
     "Deep packet inspection for application identification and control" true "professional" 0;
   feature "dlp" "Data Loss Prevention" "Content Security"
     "Content inspection for sensitive data exfiltration prevention" false "enterprise" 14;
   feature "casb" "Cloud Access Security Broker" "Content Security"
     "Inline and API-based SaaS security and shadow IT discovery" false "enterprise" 14;
   feature "ssl-inspect" "SSL Deep Inspection" "SSL / Inspection"
     "TLS/SSL interception with certificate re-signing" true "professional" 0;
   feature "ssh-inspect" "SSH Inspection" "SSL / Inspection"
     "SSH protocol inspection for command auditing" false "enterprise" 0;
   feature "sso-saml" "SAML SSO" "Identity"
     "SAML 2.0 single sign-on integration" true "standard" 0;
   feature "sso-oidc" "OIDC SSO" "Identity"
     "OpenID Connect single sign-on integration" true "standard" 0;
   feature "mfa" "Multi-Factor Authentication" "Identity"
     "TOTP, FIDO2/WebAuthn, and push-based MFA" true "standard" 0;
   feature "dot1x" "802.1X NAC" "Identity"
     "Network access control with RADIUS/EAP authentication" false "enterprise" 14;
   feature "device-posture" "Device Posture Check" "Identity"
     "Endpoint compliance verification before granting access" true "professional" 0;
   feature "audit-log" "Audit Logging" "Compliance & Visibility"
     "Comprehensive audit trail for all administrative actions" true "standard" 0;
   feature "siem-export" "SIEM Integration" "Compliance & Visibility"
     "Log export to Splunk, Sentinel, Chronicle via syslog/CEF" false "enterprise" 0;
   feature "compliance-report" "Compliance Reporting" "Compliance & Visibility"
     "Automated compliance reports for SOC2, ISO27001, PCI-DSS" true "professional" 0;
   feature "ueba" "User & Entity Behavior Analytics" "Compliance & Visibility"
     "ML-based anomaly detection for insider threats" false "enterprise" 14;
   feature "sdn-microseg" "SDN Micro-segmentation" "Advanced"
     "Software-defined network segmentation with dynamic policy" false "enterprise" 0;
   feature "iap" "Identity-Aware Proxy" "Advanced"
     "Application-level access proxy with per-request authorization" true "professional" 0;
   feature "ghosted-apps" "GhostedApps Detection" "Advanced"
     "Detect and replace legacy security agents with ApexAegis" true "professional" 0;
   feature "scion" "SCION Path-Aware Networking" "Advanced"
     "Multi-path internet routing with cryptographic path control" false "enterprise" 0
  ].

Abbreviation memory := (gmap string Feature).
(** [clk e i] is the time of the [i]-th entry. *)
Fixpoint load (e : env) (i : nat) (s : memory) (l : list Feature) : memory :=
  match l with
  | [] => s
  | f :: l => load e (S i) (<[ID f := set_enabled (Enabled f) "system" (clk e i) f]> s) l
  end.
Definition NewStore (e : env) : memory := load e 0 ∅ DefaultFeatures.

Definition mem_Get (s : memory) (id : string) : option Feature := s !! id.
Definition mem_Toggle (e : env) (s : memory) (id : string) (enabled : bool) (orgPlan actor : string) : memory * result string Feature :=
  match s !! id with
  | None => (s, Err (not_found id))
  | Some f =>
      if negb (allowed f enabled orgPlan) then (s, Err (needs_plan f orgPlan))
      else let f := set_enabled enabled actor (clk e 0) f in (<[id := f]> s, Ok f)
  end.
Definition mem_StartTrial (e : env) (s : memory) (id actor : string) : memory * result string Feature :=
  match s !! id with
  | None => (s, Err (not_found id))
  | Some f =>
      if bool_decide (TrialDays f = 0)%Z then (s, Err (no_trial f))
      else if negb (bool_decide (TrialEnd f = "")) then (s, Err (trial_used f))
      else let f := set_trial (trial_end (TrialDays f) (clk e 0)) actor (clk e 1) f in (<[id := f]> s, Ok f)
  end.
Definition mem_IsEnabled (e : env) (s : memory) (id : string) : bool :=
  match s !! id with
  | None => false
  | Some f => Enabled f && running (clk e 0) f
  end.

#[export] Instance memory_store (ro : range_order) : FeatureStore memory := {|
  List _ s := values ro s;
  Get _ := mem_Get;
  Toggle := mem_Toggle;
  StartTrial := mem_StartTrial;
  IsEnabled := mem_IsEnabled;
|}.

(** ** The table *)

Record row := mkRow {
  f_name : string;
  f_category : string;
  f_description : string;
  f_enabled : bool;
  f_min_plan : string;
  f_trial_days : Z;
  f_trial_end : option Z;
  f_updated_by : string;
  f_updated_at : Z;
}.
Abbreviation table := (gmap string row).

(** The precision of the column. *)
Definition micro (t : Z) : Z := (t + 500) / 1000 * 1000.

Definition scan (id : string) (r : row) : Feature :=
  mkFeature id (f_name r) (f_category r) (f_description r) (f_enabled r) (f_min_plan r) (f_trial_days r)
    (match f_trial_end r with Some t => RFC3339 t | None => "" end) (f_updated_by r) (f_updated_at r).
(** [ORDER BY category, name] *)
Definition by_category (a b : string * row) : Prop :=
  String.ltb (f_category (snd a)) (f_category (snd b))
  || (String.eqb (f_category (snd a)) (f_category (snd b)) && String.leb (f_name (snd a)) (f_name (snd b))) = true.
#[export] Instance by_category_dec : RelDecision by_category.
Proof. intros a b. unfold by_category. apply _. Defined.
Definition sql_List (ro : range_order) (e : env) (db : table) : list Feature :=
  if negb (ok e 0) then [] else (λ kv, scan (fst kv) (snd kv)) <$> merge_sort by_category (range ro db).
Definition sql_Get (e : env) (db : table) (id : string) : option Feature :=
  if negb (ok e 0) then None else scan id <$> db !! id.
Definition row_enabled (enabled : bool) (actor : string) (t : Z) (r : row) : row :=
  mkRow (f_name r) (f_category r) (f_description r) enabled (f_min_plan r) (f_trial_days r) (f_trial_end r) actor t.
Definition row_trial (end_ : Z) (actor : string) (t : Z) (r : row) : row :=
  mkRow (f_name r) (f_category r) (f_description r) true (f_min_plan r) (f_trial_days r) (Some (micro end_)) actor t.
(** The second statement of a call. *)
Definition update (e : env) (actor : string) (f : row → row) (db : table) (id : string) : option table :=
  if ok e 1 && fits 255 actor then Some (alter f id db) else None.
Definition sql_Toggle (e : env) (db : table) (id : string) (enabled : bool) (orgPlan actor : string) : table * result string Feature :=
  match sql_Get e db id with
  | None => (db, Err (not_found id))
  | Some f =>
      if negb (allowed f enabled orgPlan) then (db, Err (needs_plan f orgPlan))
      else
        match update e actor (row_enabled enabled actor (db_now e)) db id with
        | None => (db, Err "toggle feature")
        | Some db => (db, Ok (set_enabled enabled actor (clk e 0) f))
        end
  end.
Definition sql_StartTrial (e : env) (db : table) (id actor : string) : table * result string Feature :=
  match sql_Get e db id with
  | None => (db, Err (not_found id))
  | Some f =>
      if bool_decide (TrialDays f = 0)%Z then (db, Err (no_trial f))
      else if negb (bool_decide (TrialEnd f = "")) then (db, Err (trial_used f))
      else
        let end_ := trial_end (TrialDays f) (clk e 0) in
        match update e actor (row_trial end_ actor (db_now e)) db id with
        | None => (db, Err "start trial")
        | Some db => (db, Ok (set_trial end_ actor (clk e 1) f))
        end
  end.
Definition sql_IsEnabled (e : env) (db : table) (id : string) : bool :=
  match sql_Get e db id with
  | None => false
  | Some f => Enabled f && running (clk e 0) f
  end.

#[export] Instance table_store (ro : range_order) : FeatureStore table := {|
  List := sql_List ro;
  Get := sql_Get;
  Toggle := sql_Toggle;
  StartTrial := sql_StartTrial;
  IsEnabled := sql_IsEnabled;
|}.

(** What the RADIUS server asks; organization and flag are ignored. *)
Definition RadSecFeatureChecker_IsEnabled (e : env) (db : table) (orgID flagName : string) : bool :=
  match sql_Get e db "cloud-radius" with Some f => Enabled f | None => false end.

(** ** The handlers *)

Inductive reply :=
| RErr (status : Z) (msg : string)
| RFeatures (l : list Feature)
| RFeature (f : Feature).

Definition actor_of (user : string) : string := if bool_decide (user = "") then "admin" else user.

Section Handlers.
Context {St : Type} `{!FeatureStore St} (orgPlan : string).

Definition ListFeatures (e : env) (s : St) : reply := RFeatures (List e s).
Definition GetFeature (e : env) (s : St) (id : string) : reply :=
  match Get e s id with Some f => RFeature f | None => RErr 404 "feature not found" end.
Definition ToggleFeature (e : env) (s : St) (id user : string) (body : option bool) : St * reply :=
  match body with
  | None => (s, RErr 400 "invalid request body")
  | Some enabled =>
      match Toggle e s id enabled orgPlan (actor_of user) with
      | (s, Ok f) => (s, RFeature f)
      | (s, Err m) => (s, RErr 403 m)
      end
  end.
Definition StartTrial_ (e : env) (s : St) (id user : string) : St * reply :=
  match StartTrial e s id (actor_of user) with
  | (s, Ok f) => (s, RFeature f)
  | (s, Err m) => (s, RErr 400 m)
  end.

End Handlers.

(** ** The two stores agree *)

(** A feature without the time of its last update, which the stores take from different clocks. *)
Definition erase (f : Feature) : Feature := set_enabled (Enabled f) (UpdatedBy f) 0 f.

Inductive call :=
| CGet (id : string)
| CToggle (id : string) (enabled : bool) (plan actor : string)
| CTrial (id actor : string)
| CEnabled (id : string).
Inductive answer :=
| AFeature (f : option Feature)
| AResult (r : result string Feature)
| ABool (b : bool).

Definition erase_result (r : result string Feature) : result string Feature :=
  match r with Ok f => Ok (erase f) | Err m => Err m end.
Definition serve {St : Type} `{!FeatureStore St} (s : St) (ec : env * call) : St * answer :=
  let e := fst ec in
  match snd ec with
  | CGet id => (s, AFeature (erase <$> Get e s id))
  | CToggle id enabled plan actor => let '(s, r) := Toggle e s id enabled plan actor in (s, AResult (erase_result r))
  | CTrial id actor => let '(s, r) := StartTrial e s id actor in (s, AResult (erase_result r))
  | CEnabled id => (s, ABool (IsEnabled e s id))
  end.
Definition serve_memory (ro : range_order) : memory → env * call → memory * answer := serve (FeatureStore0 := memory_store ro).
Definition serve_table (ro : range_order) : table → env * call → table * answer := serve (FeatureStore0 := table_store ro).

(** No statement fails, the clock is read in whole microseconds, and the author fits its column. *)
Definition calm (ec : env * call) : Prop :=
  (∀ i, ok (fst ec) i = true) ∧ (clk (fst ec) 0 `mod` 1000 = 0)%Z
  ∧ match snd ec with CToggle _ _ _ a | CTrial _ a => fits 255 a = true | _ => True end.
(** The stores hold the same features, with trials of less than three centuries. *)
Definition agree (s : memory) (db : table) : Prop :=
  ∀ id, erase <$> s !! id = (λ r, erase (scan id r)) <$> db !! id
    ∧ ∀ f, s !! id = Some f → (0 <= TrialDays f <= 100000)%Z.

Lemma agree_lookup s db id : agree s db →
  match s !! id, db !! id with
  | Some f, Some r => erase f = erase (scan id r) ∧ (0 <= TrialDays f <= 100000)%Z
  | None, None => True
  | _, _ => False
  end.
Proof. intros Ha. destruct (Ha id) as [He Hd]. destruct (s !! id), (db !! id); cbn in *; try done.
  split; [congruence|by apply Hd]. Qed.
Lemma agree_insert s db id f r g :
  agree s db → db !! id = Some r → erase f = erase (scan id (g r)) → (0 <= TrialDays f <= 100000)%Z →
  agree (<[id := f]> s) (alter g id db).
Proof.
  intros Ha Hr He Hd j. destruct (decide (j = id)) as [->|Hne].
  - rewrite lookup_insert_eq, lookup_alter_eq, Hr. cbn. split; [by rewrite He|]. by intros ? [= <-].
  - rewrite lookup_insert_ne, lookup_alter_ne by done. apply Ha.
Qed.

Lemma erase_fields f g : erase f = erase g →
  Enabled f = Enabled g ∧ MinPlan f = MinPlan g ∧ TrialDays f = TrialDays g ∧ TrialEnd f = TrialEnd g ∧ Name f = Name g
  ∧ (∀ b a t t', erase (set_enabled b a t f) = erase (set_enabled b a t' g))
  ∧ ∀ x a t t', erase (set_trial x a t f) = erase (set_trial x a t' g).
Proof. destruct f, g. unfold erase, set_trial, set_enabled. cbn. intros [= -> -> -> -> -> -> -> -> ->]. done. Qed.
Lemma micro_whole t : (t `mod` 1000 = 0)%Z → micro t = t.
Proof. unfold micro. intros H. Z.div_mod_to_equations. lia. Qed.
Lemma trial_end_exact days t : (0 <= days <= 100000)%Z → trial_end days t = (t + days * (86400 * second))%Z.
Proof. intros H. unfold trial_end. rewrite wrap_i64_id; unfold in_i64, second; lia. Qed.
Lemma trial_end_whole days t : (0 <= days <= 100000)%Z → (t `mod` 1000 = 0)%Z → micro (trial_end days t) = trial_end days t.
Proof. intros H Ht. apply micro_whole. rewrite trial_end_exact by done. unfold second. Z.div_mod_to_equations. lia. Qed.

(** One call: the same answer, and the stores agree afterwards. *)
Lemma serve_agree ro ro' s db ec :
  agree s db → calm ec →
  snd (serve_memory ro s ec) = snd (serve_table ro' db ec) ∧ agree (fst (serve_memory ro s ec)) (fst (serve_table ro' db ec)).
Proof.
  unfold serve_memory, serve_table.
  destruct ec as [e c]. intros Ha (Hok & Hclk & Hfit). cbn [fst snd] in *.
  destruct c as [id|id b plan a|id a|id]; unfold serve; cbn [fst snd Get Toggle StartTrial IsEnabled memory_store table_store];
    unfold mem_Get, mem_Toggle, mem_StartTrial, mem_IsEnabled, sql_Toggle, sql_StartTrial, sql_IsEnabled, sql_Get, update;
    rewrite ?Hok, ?Hfit; cbn [negb andb]; pose proof (agree_lookup s db id Ha) as Hl;
    destruct (s !! id) as [f|], (db !! id) as [r|] eqn:Hr; try done; cbn [fmap option_fmap option_map];
    destruct Hl as [He Hd]; destruct (erase_fields _ _ He) as (E1 & E2 & E3 & E4 & E5 & Hset & Htrial).
  - split; [by rewrite He|done].
  - unfold allowed, needs_plan. rewrite E2, E5. destruct (negb (negb b || _)); [done|].
    split; [unfold erase_result; cbn [fst snd]; do 2 f_equal; apply Hset|]. apply agree_insert with r; [done|done| |done].
    rewrite (Hset b a (clk e 0) (db_now e)). done.
  - unfold no_trial, trial_used. rewrite E3, E4, E5. case_bool_decide; [done|]. destruct (negb _); [done|].
    rewrite <- E3. split; [unfold erase_result; cbn [fst snd]; do 2 f_equal; apply Htrial|].
    apply agree_insert with r; [done|done| |done].
    rewrite (Htrial _ a _ (db_now e)). unfold erase, set_enabled, set_trial, scan, row_trial. cbn. by rewrite trial_end_whole.
  - unfold running. by rewrite E1, E4.
Qed.

(** C28: The two stores agree.  The store in memory and the table, holding the same features,
    give the same answers to every sequence of lookups, toggles, trials and checks, and hold
    the same features afterwards, the time of the last update apart; as long as no statement
    fails, the clock is read in whole microseconds, the precision of the column, and in UTC,
    the author of a change fits the 255 characters of its column, and a trial has between 0
    and 100000 days. *)
Theorem feature_stores_agree ro ro' s db l :
  agree s db → Forall calm l →
  snd (run (serve_memory ro) s l) = snd (run (serve_table ro') db l)
  ∧ agree (after (serve_memory ro) s l) (after (serve_table ro') db l).
Proof. intros Ha Hl. by apply (run_simulates _ _ agree calm); [apply serve_agree|..]. Qed.

(** ** What a feature needs to be enabled *)

Lemma rfc3339_nonempty t : RFC3339 t ≠ "".
Proof. unfold RFC3339. by destruct (seconds_text t). Qed.

(** What a call does to a row. *)
Inductive row_step (e : env) (c : call) (id : string) (r : row) : row → Prop :=
| step_same : row_step e c id r r
| step_toggle b plan actor : c = CToggle id b plan actor → (b = true → planRank (f_min_plan r) <= planRank plan)%Z →
    row_step e c id r (row_enabled b actor (db_now e) r)
| step_trial actor : c = CTrial id actor → f_trial_end r = None →
    row_step e c id r (row_trial (trial_end (f_trial_days r) (clk e 0)) actor (db_now e) r).

(** The call left the row [r] as it was. *)
Ltac same_row r := exists r; split; [done|constructor].

Section Table.
Context (ro : range_order).
Abbreviation served db l := (after (serve_table ro) db l).

Lemma update_row e actor g db db' id j r : update e actor g db id = Some db' → db !! j = Some r →
  db' !! j = Some (if bool_decide (j = id) then g r else r).
Proof.
  unfold update. destruct (ok e 1 && _); [|done]. intros [= <-] Hr. case_bool_decide as Hj.
  - subst. by rewrite lookup_alter_eq, Hr.
  - by rewrite lookup_alter_ne by done.
Qed.
Lemma serve_row e c db id r : db !! id = Some r →
  ∃ r', fst (serve_table ro db (e, c)) !! id = Some r' ∧ row_step e c id r r'.
Proof.
  intros Hr. unfold serve_table, serve.
  destruct c as [j|j b plan a|j a|j]; cbn [fst snd Toggle StartTrial table_store];
    [same_row r| | |same_row r].
  - unfold sql_Toggle, sql_Get. destruct (negb (ok e 0)); [same_row r|].
    destruct (db !! j) as [rj|] eqn:Hj; cbn [fmap option_fmap option_map]; [|same_row r].
    destruct (allowed _ b plan) eqn:Hal; cbn [negb]; [|same_row r].
    destruct (update _ _ _ _ _) as [db'|] eqn:Hu; [|same_row r].
    cbn. rewrite (update_row _ _ _ _ _ _ _ _ Hu Hr). eexists; split; [done|].
    case_bool_decide as E; [subst j|constructor]. rewrite Hr in Hj. injection Hj as ->.
    apply step_toggle with plan; [done|]. intros ->. by apply Z.leb_le in Hal.
  - unfold sql_StartTrial, sql_Get. destruct (negb (ok e 0)); [same_row r|].
    destruct (db !! j) as [rj|] eqn:Hj; cbn [fmap option_fmap option_map]; [|same_row r].
    case_bool_decide; [same_row r|].
    destruct (bool_decide (TrialEnd _ = "")) eqn:Hte; cbn [negb]; [|same_row r].
    apply bool_decide_eq_true in Hte.
    destruct (update _ _ _ _ _) as [db'|] eqn:Hu; [|same_row r].
    cbn. rewrite (update_row _ _ _ _ _ _ _ _ Hu Hr). eexists; split; [done|].
    case_bool_decide as E; [subst j|constructor]. rewrite Hr in Hj. injection Hj as ->.
    apply step_trial; [done|]. cbn in Hte.
    destruct (f_trial_end rj); [|done]. by apply rfc3339_nonempty in Hte.
Qed.
(** A property of a row that every step keeps holds after all of them. *)
Lemma after_row (P : row → Prop) l db id r :
  db !! id = Some r → P r → (∀ e c r r', (e, c) ∈ l → P r → row_step e c id r r' → P r') →
  ∃ r', served db l !! id = Some r' ∧ P r'.
Proof.
  intros Hr HP Hstep. apply (run_keeps (serve_table ro) (λ db, ∃ r', db !! id = Some r' ∧ P r')); [by exists r|].
  intros db' [e c] Hin (r1 & Hr1 & HP1). destruct (serve_row e c db' id r1 Hr1) as (r2 & Hr2 & Hs). by exists r2; eauto.
Qed.
Lemma after_none l db id : db !! id = None → served db l !! id = None.
Proof.
  intros Hdb. apply (run_keeps (serve_table ro) (λ db, db !! id = None)); [done|]. intros db' [e c] _ Hn.
  assert (Hu : ∀ a g j db2, update e a g db' j = Some db2 → db2 !! id = None).
  { unfold update. intros a g j db2. destruct (_ && _); [|done]. intros [= <-].
    destruct (decide (id = j)) as [->|]; [by rewrite lookup_alter_eq, Hn|by rewrite lookup_alter_ne]. }
  unfold serve_table, serve. destruct c as [j|j b plan a|j a|j]; cbn [fst snd Toggle StartTrial table_store]; try done.
  - unfold sql_Toggle. destruct (sql_Get e db' j); [|done]. destruct (negb _); [done|].
    destruct (update _ _ _ _ _) eqn:E; [|done]. by eapply Hu.
  - unfold sql_StartTrial. destruct (sql_Get e db' j); [|done]. case_bool_decide; [done|]. destruct (negb _); [done|].
    destruct (update _ _ _ _ _) eqn:E; [|done]. by eapply Hu.
Qed.

(** Until the year 9000. *)
Definition contemporary (e : env) : Prop := (0 <= clk e 0 < 221845392000 * second)%Z.
Lemma trial_printable days e : (0 <= days <= 100000)%Z → contemporary e → printable (micro (trial_end days (clk e 0))).
Proof. intros Hd [H1 H2]. rewrite trial_end_exact by done. unfold printable, micro, second in *. Z.div_mod_to_equations. lia. Qed.
Lemma running_printable now f x : TrialEnd f = RFC3339 x → printable x → running now f = (now <=? x / second * second)%Z.
Proof. intros Hf Hx. unfold running. rewrite Hf, bool_decide_eq_false_2 by apply rfc3339_nonempty. by rewrite rfc3339_roundtrip. Qed.

(** How a row came to be as it is, from [r0] by the calls of [l]. *)
Definition licensed (l : list (env * call)) (id : string) (r0 r : row) : Prop :=
  f_min_plan r = f_min_plan r0 ∧ f_trial_days r = f_trial_days r0
  ∧ (f_trial_end r = None ∨ ∃ e a, (e, CTrial id a) ∈ l ∧ f_trial_end r = Some (micro (trial_end (f_trial_days r0) (clk e 0))))
  ∧ (f_enabled r = true → f_enabled r0 = true
       ∨ (∃ e plan a, (e, CToggle id true plan a) ∈ l ∧ (planRank (f_min_plan r0) <= planRank plan)%Z) ∨ f_trial_end r ≠ None).
Lemma licensed_step l id r0 e c r r' : (e, c) ∈ l → licensed l id r0 r → row_step e c id r r' → licensed l id r0 r'.
Proof.
  intros Hin (Hp & Hd & Ht & He) [|b plan a -> Hr|a -> Hn]; [done|..]; unfold licensed; cbn; rewrite Hp, Hd in *.
  - split_and!; try done. intros ->. right; left. by exists e, plan, a; auto.
  - split_and!; try done; [|by right; right]. right. by exists e, a.
Qed.

(** Licensing.  A feature the table reports as enabled was enabled before, or was switched
    on under a plan that covers it, or is in a trial that somebody started and that has not
    ended; for every sequence of calls, whichever statements fail. *)
Theorem feature_licensed db l e id :
  (∀ r, db !! id = Some r → f_trial_end r = None ∧ (0 <= f_trial_days r <= 100000)%Z) →
  Forall (λ ec, contemporary (fst ec)) l →
  sql_IsEnabled e (served db l) id = true →
  ∃ r, db !! id = Some r
    ∧ (f_enabled r = true
       ∨ (∃ e' plan actor, (e', CToggle id true plan actor) ∈ l ∧ (planRank (f_min_plan r) <= planRank plan)%Z)
       ∨ ∃ e' actor, (e', CTrial id actor) ∈ l ∧ (clk e 0 <= micro (trial_end (f_trial_days r) (clk e' 0)))%Z).
Proof.
  intros Hdb Hl Hen. destruct (db !! id) as [r|] eqn:Hr.
  2: { apply after_none with (l := l) in Hr. unfold sql_IsEnabled, sql_Get in Hen. rewrite Hr in Hen. by destruct (ok e 0). }
  destruct (Hdb r eq_refl) as [Hnone Hdays]. exists r. split; [done|].
  destruct (after_row (licensed l id r) l db id r Hr) as (r' & Hr' & _ & Hd & Ht & He);
    [split_and!; auto|by intros; eapply licensed_step|].
  unfold sql_IsEnabled, sql_Get in Hen. rewrite Hr' in Hen. destruct (ok e 0); [|done]. cbn in Hen.
  apply andb_true_iff in Hen as [He'%He Hrun]. destruct He' as [?|[?|Hne]]; [by left|by right; left|right; right].
  destruct Ht as [|(e' & a & Hin & Hx)]; [done|]. exists e', a. split; [done|].
  rewrite Forall_forall in Hl. pose proof (trial_printable _ _ Hdays (Hl _ Hin)) as Hp.
  rewrite (running_printable (clk e 0) (scan id r') _ ltac:(cbn; by rewrite Hx) Hp) in Hrun. apply Z.leb_le in Hrun.
  unfold second in Hrun. Z.div_mod_to_equations. lia.
Qed.

(** A trial that ended disables its feature for good.  Toggling the feature on under a
    plan that covers it is answered with the enabled feature, but the end of the trial stays,
    and the feature is reported as disabled from then on, whatever calls follow. *)
Theorem expired_trial_blocks db l e id r x :
  db !! id = Some r → f_trial_end r = Some x → printable x → (x < clk e 0)%Z →
  sql_IsEnabled e (served db l) id = false
  ∧ ∀ e' actor, ok e' 0 = true → ok e' 1 = true → fits 255 actor = true →
      ∃ f, snd (sql_Toggle e' (served db l) id true (f_min_plan r) actor) = Ok f ∧ Enabled f = true.
Proof.
  intros Hr Hx Hp Hlt.
  destruct (after_row (λ r', f_trial_end r' = Some x ∧ f_min_plan r' = f_min_plan r) l db id r Hr) as (r' & Hr' & Hx' & Hm).
  { done. } { intros e0 c r1 r2 _ [H1 H2] [|b plan a -> _|a -> Hn]; [done|done|congruence]. }
  split.
  - unfold sql_IsEnabled, sql_Get. rewrite Hr'. destruct (ok e 0); [|done]. cbn. apply andb_false_iff. right.
    rewrite (running_printable _ _ x); [|cbn; by rewrite Hx'|done]. apply Z.leb_gt. unfold second. Z.div_mod_to_equations. lia.
  - intros e' a H0 H1 Hf. unfold sql_Toggle, sql_Get, update, allowed. rewrite Hr', H0, H1, Hf. cbn. rewrite Hm, Z.leb_refl. eauto.
Qed.

End Table.

(** ** Feature flags of an organization *)

Record flag_row := mkFlagRow {
  ff_id : string;
  ff_enabled : bool;
  ff_updated_by : option string;
  ff_updated_at : Z;
  ff_created_at : Z;
}.
Record FeatureFlag := mkFlag {
  fl_ID : string;
  fl_OrgID : string;
  fl_FlagName : string;
  fl_Enabled : bool;
  fl_UpdatedBy : option string;
  fl_UpdatedAt : Z;
  fl_CreatedAt : Z;
}.
(** Keyed by organization and name, which are unique together. *)
Record flag_db := mkFlagDB { flags : gmap (string * string) flag_row; organizations : gset string }.

Section Flags.
(** The canonical text of a [UUID], if the argument is one, and the identifier of a new row. *)
Context (parse_uuid : string → option string) (new_id : string).

Definition flag_of (org name : string) (r : flag_row) : FeatureFlag :=
  mkFlag (ff_id r) org name (ff_enabled r) (ff_updated_by r) (ff_updated_at r) (ff_created_at r).
(** [INSERT ... ON CONFLICT DO UPDATE ... RETURNING]: [fresh] is the row of a new flag, [change]
    what happens to an existing one. *)
Definition upsert (e : env) (d : flag_db) (orgID name : string) (fresh : flag_row) (change : flag_row → flag_row) : flag_db * option FeatureFlag :=
  match parse_uuid orgID with
  | Some org =>
      if ok e 0 && fits 100 name && bool_decide (org ∈ organizations d)
      then
        let r := match flags d !! (org, name) with Some r => change r | None => fresh end in
        (mkFlagDB (<[(org, name) := r]> (flags d)) (organizations d), Some (flag_of org name r))
      else (d, None)
  | None => (d, None)
  end.
Definition flag_Get (e : env) (d : flag_db) (orgID name : string) : flag_db * option FeatureFlag :=
  upsert e d orgID name (mkFlagRow new_id false None (db_now e) (db_now e)) (λ r, r).
(** The author is a [UUID] column as well. *)
Definition flag_Set (e : env) (d : flag_db) (orgID name : string) (enabled : bool) (updatedBy : option string) : flag_db * option FeatureFlag :=
  match updatedBy with
  | Some u =>
      match parse_uuid u with
      | Some u =>
          upsert e d orgID name (mkFlagRow new_id enabled (Some u) (db_now e) (db_now e))
            (λ r, mkFlagRow (ff_id r) enabled (Some u) (db_now e) (ff_created_at r))
      | None => (d, None)
      end
  | None =>
      upsert e d orgID name (mkFlagRow new_id enabled None (db_now e) (db_now e))
        (λ r, mkFlagRow (ff_id r) enabled None (db_now e) (ff_created_at r))
  end.
Definition flag_IsEnabled (e : env) (d : flag_db) (orgID name : string) : option bool :=
  match parse_uuid orgID with
  | Some org => if ok e 0 then Some (match flags d !! (org, name) with Some r => ff_enabled r | None => false end) else None
  | None => None
  end.
Definition by_name (a b : FeatureFlag) : Prop := String.leb (fl_FlagName a) (fl_FlagName b) = true.
#[export] Instance by_name_dec : RelDecision by_name.
Proof. intros a b. unfold by_name. apply _. Defined.
(** The name is unique in the list, so the order of the scan does not matter. *)
Definition flag_List (e : env) (d : flag_db) (orgID : string) : option (list FeatureFlag) :=
  match parse_uuid orgID with
  | Some org =>
      if ok e 0
      then Some (merge_sort by_name (omap (λ kv, if bool_decide (fst (fst kv) = org) then Some (flag_of org (snd (fst kv)) (snd kv)) else None)
                                       (map_to_list (flags d))))
      else None
  | None => None
  end.

Inductive flag_reply :=
| FErr (status : Z) (msg : string)
| FFlags (l : list FeatureFlag)
| FFlag (f : FeatureFlag).

Definition ListFlags (e : env) (d : flag_db) (orgID : string) : flag_reply :=
  if bool_decide (orgID = "") then FErr 400 "org_id required"
  else match flag_List e d orgID with Some l => FFlags l | None => FErr 500 "failed to list features" end.
Definition GetFlag (e : env) (d : flag_db) (orgID name : string) : flag_db * flag_reply :=
  if bool_decide (orgID = "") || bool_decide (name = "") then (d, FErr 400 "org_id and flag name required")
  else
    match flag_Get e d orgID name with
    | (d, Some f) => (d, FFlag f)
    | (d, None) => (d, FErr 500 "failed to get feature")
    end.
Definition SetFlag (e : env) (d : flag_db) (orgID userID name : string) (body : option bool) : flag_db * flag_reply :=
  if bool_decide (orgID = "") || bool_decide (name = "") then (d, FErr 400 "org_id and flag name required")
  else
    match body with
    | None => (d, FErr 400 "invalid request body")
    | Some enabled =>
        match flag_Set e d orgID name enabled (Some userID) with
        | (d, Some f) => (d, FFlag f)
        | (d, None) => (d, FErr 500 "failed to update feature")
        end
    end.

(** Setting a flag is what a check reports from then on, and it changes no other flag. *)
Theorem flag_set_exact e d orgID name enabled by_ d' f :
  flag_Set e d orgID name enabled by_ = (d', Some f) →
  fl_Enabled f = enabled
  ∧ (∀ e', ok e' 0 = true → flag_IsEnabled e' d' orgID name = Some enabled)
  ∧ ∀ e' org' name', parse_uuid org' ≠ parse_uuid orgID ∨ name' ≠ name →
      flag_IsEnabled e' d' org' name' = flag_IsEnabled e' d org' name'.
Proof.
  assert (Hup : ∀ fresh change, ff_enabled fresh = enabled → (∀ r, ff_enabled (change r) = enabled) →
    upsert e d orgID name fresh change = (d', Some f) →
    fl_Enabled f = enabled ∧ (∀ e', ok e' 0 = true → flag_IsEnabled e' d' orgID name = Some enabled)
    ∧ ∀ e' org' name', parse_uuid org' ≠ parse_uuid orgID ∨ name' ≠ name →
        flag_IsEnabled e' d' org' name' = flag_IsEnabled e' d org' name').
  { intros fresh change Hf Hc. unfold upsert, flag_IsEnabled. destruct (parse_uuid orgID) as [org|]; [|done].
    destruct (_ && _); [|done]. intros [= <- <-]. cbn. split_and!.
    - by destruct (flags d !! _).
    - intros e' ->. rewrite lookup_insert_eq. by destruct (flags d !! _); rewrite ?Hf, ?Hc.
    - intros e' org' name' Hne. destruct (parse_uuid org') as [o|]; [|done]. rewrite lookup_insert_ne; [done|]. intros [= -> ->]. by destruct Hne. }
  unfold flag_Set. destruct by_ as [u|]; [destruct (parse_uuid u); [|done]|]; by apply Hup.
Qed.

End Flags.

(** ** Witnesses *)

Definition demo_env (t : Z) : env := mkEnv (λ i, (t + Z.of_nat i) * second)%Z (t * second)%Z (λ _, true).
Definition demo_row : row := mkRow "Data Loss Prevention" "Content Security" "" false "enterprise" 14 None "system" 0.
Definition demo_table : table := {["dlp" := demo_row]}.
Definition demo_memory : memory := {["dlp" := scan "dlp" demo_row]}.
(** Too small a plan, a trial, a second one, and a look in its last second. *)
Definition demo_calls : list (env * call) :=
  [(demo_env 0, CToggle "dlp" true "standard" "ann"); (demo_env 1, CTrial "dlp" "ann"); (demo_env 2, CTrial "dlp" "ann");
   (demo_env (14 * 86400 + 1), CEnabled "dlp")].

Lemma demo_agree : agree demo_memory demo_table.
Proof.
  intros id. unfold demo_memory, demo_table. destruct (decide (id = "dlp")) as [->|Hne].
  - rewrite !lookup_singleton_eq. split; [done|]. intros f [= <-]. cbn. lia.
  - by rewrite !lookup_singleton_ne.
Qed.
Lemma feature_stores_agree_witness :
  snd (run (serve_memory canonical_order) demo_memory demo_calls) = snd (run (serve_table canonical_order) demo_table demo_calls).
Proof.
  assert (Hc : Forall calm demo_calls) by (repeat constructor).
  exact (proj1 (feature_stores_agree canonical_order canonical_order demo_memory demo_table demo_calls demo_agree Hc)).
Defined.
Lemma feature_licensed_witness :
  ∃ e' actor, (e', CTrial "dlp" actor) ∈ demo_calls
    ∧ ((14 * 86400 + 1) * second <= micro (trial_end 14 (clk e' 0)))%Z.
Proof.
  destruct (feature_licensed canonical_order demo_table demo_calls (demo_env (14 * 86400 + 1)) "dlp") as (r & Hr & Hlic).
  - intros r Hr. unfold demo_table in Hr. apply lookup_singleton_Some in Hr as [_ <-]. cbn. split; [done|lia].
  - repeat constructor; by vm_compute.
  - by vm_compute.
  - unfold demo_table in Hr. apply lookup_singleton_Some in Hr as [_ <-]. destruct Hlic as [Hf|[(e & plan & a & Hin & Hp)|Ht]]; [done| |exact Ht].
    exfalso. unfold demo_calls in Hin. rewrite !elem_of_cons, elem_of_nil in Hin.
    destruct Hin as [[= _ -> _]|[[=]|[[=]|[[=]|[]]]]]. vm_compute in Hp. by apply Hp.
Defined.
Lemma expired_trial_blocks_witness :
  sql_IsEnabled (demo_env (15 * 86400)) (after (serve_table canonical_order) {["dlp" := row_trial (14 * 86400 * second) "ann" 0 demo_row]} demo_calls) "dlp" = false.
Proof.
  refine (proj1 (expired_trial_blocks canonical_order {["dlp" := row_trial (14 * 86400 * second) "ann" 0 demo_row]} demo_calls
    (demo_env (15 * 86400)) "dlp" (row_trial (14 * 86400 * second) "ann" 0 demo_row) (14 * 86400 * second)%Z _ _ _ _)).
  - apply lookup_singleton_eq.
  - by vm_compute.
  - split; by vm_compute.
  - by vm_compute.
Defined.

End Features.
