(* ===== verification/Profiles.v ===== *)
(** * Security profiles

    [src/internal/profiles/store.go] (the store in memory with the built-in profiles),
    [iface.go], [src/internal/db/profile_store.go] (the table behind the same interface) and
    [src/internal/api/handlers/profile_handler.go].

    The configuration of a profile is JSON text, [None] where it is absent.  The column is
    [JSONB]: [jsonb] is the text the database gives back for a text it is given, [None] where
    that is not JSON. *)

From S2P Require Import Prelude GoStrings GoTime Sql Calls.
From stdpp Require Import sorting.
From Stdlib Require Import Ascii.
#[local] Open Scope string_scope.
#[local] Open Scope list_scope.

Module Profiles.
Import GoStrings GoTime Sql Calls.

Definition TypeATP : string := "atp".
Definition TypeSSL : string := "ssl".
Definition TypeDNS : string := "dns".
Definition TypeWeb : string := "web".
Definition TypeDevicePosture : string := "device-posture".
Definition types : list string := [TypeATP; TypeSSL; TypeDNS; TypeWeb; TypeDevicePosture].

Record Profile := mkProfile {
  ID : string;
  Type_ : string;
  Name : string;
  Enabled : bool;
  Builtin : bool;
  Sequence : Z;
  Config : option string;
  CreatedBy : string;
  CreatedAt : Z;
  UpdatedBy : string;
  UpdatedAt : Z;
}.

(** The readings of the clock along a call, that of the database, and which statements fail. *)
Record env := mkEnv { clk : nat → Z; db_now : Z; ok : nat → bool }.

(** What a store promises to the handlers. *)
Class ProfileStore (St : Type) := {
  List : env → St → string → list Profile;
  Get : env → St → string → option Profile;
  Create : env → St → Profile → string → St * result string Profile;
  Update : env → St → string → Profile → string → St * result string Profile;
  Delete : env → St → string → St * result string unit;
  Toggle : env → St → string → bool → string → St * result string Profile;
}.

Definition not_found (id : string) : string := "profile " +:+ Quote id +:+ " not found".
Definition cannot_rename (p : Profile) : string := "cannot rename built-in profile " +:+ Quote (Name p).
Definition cannot_delete (p : Profile) : string := "cannot delete built-in profile " +:+ Quote (Name p).

(** A new profile has an identifier, if need be the time. *)
Definition with_id (e : env) (p : Profile) : Profile :=
  if bool_decide (ID p = "")
  then mkProfile (itoa (clk e 0)) (Type_ p) (Name p) (Enabled p) (Builtin p) (Sequence p) (Config p) (CreatedBy p) (CreatedAt p) (UpdatedBy p) (UpdatedAt p)
  else p.
Definition created (seq : Z) (actor : string) (now : Z) (p : Profile) : Profile :=
  mkProfile (ID p) (Type_ p) (Name p) (Enabled p) (Builtin p) seq (Config p) actor now actor now.
Definition patched (patch : Profile) (actor : string) (now : Z) (p : Profile) : Profile :=
  mkProfile (ID p) (Type_ p) (Name patch) (Enabled patch) (Builtin p)
    (if (0 <? Sequence patch)%Z then Sequence patch else Sequence p)
    (match Config patch with Some c => Some c | None => Config p end) (CreatedBy p) (CreatedAt p) actor now.
Definition toggled (enabled : bool) (actor : string) (now : Z) (p : Profile) : Profile :=
  mkProfile (ID p) (Type_ p) (Name p) enabled (Builtin p) (Sequence p) (Config p) (CreatedBy p) (CreatedAt p) actor now.

Definition by_sequence (a b : Profile) : Prop := (Sequence a <= Sequence b)%Z.
#[export] Instance by_sequence_dec : RelDecision by_sequence.
Proof. intros a b. unfold by_sequence. apply _. Defined.
#[export] Instance by_sequence_trans : Transitive by_sequence.
Proof. intros a b c. unfold by_sequence. lia. Qed.
#[export] Instance by_sequence_total : Total by_sequence.
Proof. intros a b. unfold by_sequence. lia. Qed.

(** ** The store in memory *)

(** The configurations are written with apostrophes for the quotation marks. *)
Definition raw (s : string) : option string :=
  Some (smap (λ c, if Ascii.eqb c "'"%char then quote_mark else c) s).
Definition seed (id type name : string) (enabled builtin : bool) (seq : Z) (config : option string) : Profile :=
  mkProfile id type name enabled builtin seq config "" zero_time "" zero_time.
Definition defaults : list Profile :=
  [
   seed "atp-1" TypeATP "Default-ATP" true true 10
     (raw ("{'antivirusAction':'block','sandboxAction':'alert','ipsAction':'block',"
      +:+ "'fileTypeBlocking':['exe','dll','bat'],'scanProtocols':['HTTP','HTTPS','FTP','SMTP'],"
      +:+ "'sandboxFileTypes':['exe','dll','pdf','docx']}"));
   seed "atp-2" TypeATP "Strict-ATP" true true 20
     (raw ("{'antivirusAction':'block','sandboxAction':'block','ipsAction':'block',"
      +:+ "'fileTypeBlocking':['exe','dll','bat','ps1','vbs','js'],'scanProtocols':['HTTP','HTTPS','FTP',"
      +:+ "'SMTP','IMAP','POP3'],'sandboxFileTypes':['exe','dll','pdf','docx','xlsx','zip']}"));
   seed "atp-3" TypeATP "Monitor-Only" true false 30
     (raw ("{'antivirusAction':'alert','sandboxAction':'alert','ipsAction':'alert','fileTypeBlocking':[],"
      +:+ "'scanProtocols':['HTTP','HTTPS'],'sandboxFileTypes':['exe']}"));
   seed "ssl-1" TypeSSL "Full Inspection" true true 10
     (raw ("{'mode':'full-inspection','exemptCategories':['Financial Services','Health'],'exemptDomains':[],"
      +:+ "'caBundle':'ApexAegis-SSL-CA','logDecryptedTraffic':true,'untrustedCertAction':'block',"
      +:+ "'expiredCertAction':'allow-warn'}"));
   seed "ssl-2" TypeSSL "Certificate Inspection" true true 20
     (raw ("{'mode':'certificate-inspection','exemptCategories':[],'exemptDomains':['*.microsoft.com',"
      +:+ "'*.apple.com'],'caBundle':'ApexAegis-SSL-CA','logDecryptedTraffic':false,"
      +:+ "'untrustedCertAction':'allow-warn','expiredCertAction':'block'}"));
   seed "ssl-3" TypeSSL "No Inspection" false true 30
     (raw ("{'mode':'no-inspection','exemptCategories':[],'exemptDomains':[],'caBundle':'',"
      +:+ "'logDecryptedTraffic':false,'untrustedCertAction':'allow','expiredCertAction':'allow'}"));
   seed "dns-1" TypeDNS "Block-Malicious" true true 10
     (raw ("{'mode':'blocklist','blockCategories':['malware','phishing','botnet','cryptomining'],"
      +:+ "'customBlockDomains':[],'customAllowDomains':[],'safesearch':false,'logQueries':true}"));
   seed "dns-2" TypeDNS "Block-NRD-NOD" true true 20
     (raw ("{'mode':'blocklist','blockCategories':['newly-registered','newly-observed','dga'],"
      +:+ "'customBlockDomains':[],'customAllowDomains':[],'safesearch':false,'logQueries':true}"));
   seed "dns-3" TypeDNS "Family-Safe" true true 30
     (raw ("{'mode':'blocklist','blockCategories':['adult','gambling','violence','drugs'],"
      +:+ "'customBlockDomains':[],'customAllowDomains':[],'safesearch':true,'logQueries':false}"));
   seed "dns-4" TypeDNS "Custom-Block" true false 40
     (raw ("{'mode':'blocklist','blockCategories':['malware','phishing'],"
      +:+ "'customBlockDomains':['evil.example.com','bad-domain.test'],'customAllowDomains':[],"
      +:+ "'safesearch':false,'logQueries':true}"));
   seed "web-1" TypeWeb "Default-Web-Filter" true true 10
     (raw ("{'action':'block','categories':['malware','phishing','adult','gambling'],'blockPages':true,"
      +:+ "'blockFileTypes':['exe','bat','cmd'],'customBlockUrls':[],'customAllowUrls':[],'logAccess':true}"));
   seed "web-2" TypeWeb "Strict-Web-Filter" true true 20
     (raw ("{'action':'block','categories':['malware','phishing','adult','gambling','social-media',"
      +:+ "'streaming','gaming','p2p','proxy-anonymizer'],'blockPages':true,'blockFileTypes':['exe','bat',"
      +:+ "'cmd','ps1','vbs','msi'],'customBlockUrls':[],'customAllowUrls':[],'logAccess':true}"));
   seed "web-3" TypeWeb "Monitor-Only" true true 30
     (raw ("{'action':'monitor','categories':['malware','phishing'],'blockPages':false,'blockFileTypes':[],"
      +:+ "'customBlockUrls':[],'customAllowUrls':[],'logAccess':true}"));
   seed "web-4" TypeWeb "Custom-Web-Policy" true false 40
     (raw ("{'action':'warn','categories':['social-media','streaming'],'blockPages':true,"
      +:+ "'blockFileTypes':['exe'],'customBlockUrls':['https://risky-site.example.com'],"
      +:+ "'customAllowUrls':['https://approved-tool.example.com'],'logAccess':true}"));
   seed "dp-1" TypeDevicePosture "Corporate Managed" true true 10
     (raw ("{'platforms':['windows','macos'],'matchType':'all','checks':[{'id':'chk-1',"
      +:+ "'type':'disk-encryption','enabled':true,'action':'block'},{'id':'chk-2','type':'firewall',"
      +:+ "'enabled':true,'action':'block'},{'id':'chk-3','type':'antivirus','enabled':true,"
      +:+ "'action':'block'},{'id':'chk-4','type':'os-version','enabled':true,'operator':'gte',"
      +:+ "'value':'10.0','action':'warn'},{'id':'chk-5','type':'screen-lock','enabled':true,"
      +:+ "'action':'warn'},{'id':'chk-6','type':'domain-joined','enabled':true,'action':'block'}]}"));
   seed "dp-2" TypeDevicePosture "BYOD Baseline" true true 20
     (raw ("{'platforms':['windows','macos','linux','ios','android'],'matchType':'all',"
      +:+ "'checks':[{'id':'chk-1','type':'screen-lock','enabled':true,'action':'block'},{'id':'chk-2',"
      +:+ "'type':'jailbreak','enabled':true,'action':'block'},{'id':'chk-3','type':'os-version',"
      +:+ "'enabled':true,'operator':'gte','value':'12.0','action':'warn'},{'id':'chk-4',"
      +:+ "'type':'disk-encryption','enabled':true,'action':'warn'}]}"));
   seed "dp-3" TypeDevicePosture "High-Security Zone" true false 30
     (raw ("{'platforms':['windows','macos','linux'],'matchType':'all','checks':[{'id':'chk-1',"
      +:+ "'type':'disk-encryption','enabled':true,'action':'block'},{'id':'chk-2','type':'firewall',"
      +:+ "'enabled':true,'action':'block'},{'id':'chk-3','type':'antivirus','enabled':true,"
      +:+ "'action':'block'},{'id':'chk-4','type':'certificate','enabled':true,'action':'block'},"
      +:+ "{'id':'chk-5','type':'domain-joined','enabled':true,'action':'block'},{'id':'chk-6',"
      +:+ "'type':'mfa-enrolled','enabled':true,'action':'block'},{'id':'chk-7','type':'patch-level',"
      +:+ "'enabled':true,'operator':'lte','value':'30','action':'block'},{'id':'chk-8',"
      +:+ "'type':'screen-lock','enabled':true,'action':'block'}]}"));
   seed "dp-4" TypeDevicePosture "Linux Workstations" false false 40
     (raw ("{'platforms':['linux'],'matchType':'any','checks':[{'id':'chk-1','type':'disk-encryption',"
      +:+ "'enabled':true,'action':'warn'},{'id':'chk-2','type':'firewall','enabled':true,"
      +:+ "'action':'warn'}]}"))
  ].

Abbreviation memory := (gmap string Profile).
Definition seedDefaults (now : Z) : memory :=
  foldl (λ s p, <[ID p := created (Sequence p) "system" now p]> s) ∅ defaults.
Definition NewStore (e : env) : memory := seedDefaults (clk e 0).

Definition of_type (t : string) (p : Profile) : bool := bool_decide (Type_ p = t).
Definition mem_List (ro : range_order) (s : memory) (t : string) : list Profile :=
  merge_sort by_sequence (List.filter (of_type t) (values ro s)).
Definition max_sequence (s : memory) (t : string) : Z :=
  foldr Z.max 0%Z (Sequence <$> List.filter (of_type t) (snd <$> map_to_list s)).
Definition mem_Create (e : env) (s : memory) (p : Profile) (actor : string) : memory * result string Profile :=
  if bool_decide (Name p = "") then (s, Err "profile name is required")
  else
    let p := with_id e p in
    match s !! ID p with
    | Some _ => (s, Err ("profile " +:+ Quote (ID p) +:+ " already exists"))
    | None =>
        let p := created (wrap_i64 (max_sequence s (Type_ p) + 10)) actor (clk e 1) p in
        (<[ID p := p]> s, Ok p)
    end.
Definition mem_Update (e : env) (s : memory) (id : string) (patch : Profile) (actor : string) : memory * result string Profile :=
  match s !! id with
  | None => (s, Err (not_found id))
  | Some p =>
      if Builtin p && negb (bool_decide (Name patch = Name p)) then (s, Err (cannot_rename p))
      else let p := patched patch actor (clk e 0) p in (<[id := p]> s, Ok p)
  end.
Definition mem_Delete (s : memory) (id : string) : memory * result string unit :=
  match s !! id with
  | None => (s, Err (not_found id))
  | Some p => if Builtin p then (s, Err (cannot_delete p)) else (delete id s, Ok tt)
  end.
Definition mem_Toggle (e : env) (s : memory) (id : string) (enabled : bool) (actor : string) : memory * result string Profile :=
  match s !! id with
  | None => (s, Err (not_found id))
  | Some p => let p := toggled enabled actor (clk e 0) p in (<[id := p]> s, Ok p)
  end.

Definition memory_store (ro : range_order) : ProfileStore memory := {|
  List _ := mem_List ro;
  Get _ s id := s !! id;
  Create := mem_Create;
  Update := mem_Update;
  Delete _ := mem_Delete;
  Toggle := mem_Toggle;
|}.

(** ** The table *)

Record row := mkRow {
  p_type : string;
  p_name : string;
  p_enabled : bool;
  p_builtin : bool;
  p_sequence : Z;
  p_config : string;
  p_created_by : string;
  p_created_at : Z;
  p_updated_by : string;
  p_updated_at : Z;
}.
Abbreviation table := (gmap string row).

Section Table.
Context (jsonb : string → option string) (ro : range_order).

Definition scan (id : string) (r : row) : Profile :=
  mkProfile id (p_type r) (p_name r) (p_enabled r) (p_builtin r) (p_sequence r) (Some (p_config r)) (p_created_by r)
    (p_created_at r) (p_updated_by r) (p_updated_at r).
Definition row_of_type (t : string) (r : row) : bool := bool_decide (p_type r = t).
Definition sql_List (e : env) (db : table) (t : string) : list Profile :=
  if ok e 0
  then merge_sort by_sequence ((λ kv, scan (fst kv) (snd kv)) <$> select ro (λ _, row_of_type t) db)
  else [].
Definition sql_Get (e : env) (db : table) (id : string) : option Profile :=
  if ok e 0 then scan id <$> db !! id else None.
(** [COALESCE(MAX(sequence), 0)]; a failure reads as zero. *)
Definition sql_max (e : env) (db : table) (t : string) : Z :=
  if ok e 0
  then match p_sequence <$> List.filter (row_of_type t) (snd <$> map_to_list db) with
       | [] => 0
       | n :: l => foldr Z.max n l
       end
  else 0.
Definition sql_Create (e : env) (db : table) (p : Profile) (actor : string) : table * result string Profile :=
  if bool_decide (Name p = "") then (db, Err "profile name is required")
  else
    let p := with_id e p in
    let seq := wrap_i64 (sql_max e db (Type_ p) + 10) in
    let now := clk e 1 in
    match db !! ID p, jsonb (default "{}" (Config p)) with
    | None, Some c =>
        if ok e 1 && fits 64 (ID p) && bool_decide (Type_ p ∈ types) && fits 255 (Name p) && fits 255 actor
        then
          (<[ID p := mkRow (Type_ p) (Name p) (Enabled p) (Builtin p) seq c actor now actor now]> db, Ok (created seq actor now p))
        else (db, Err "create profile")
    | _, _ => (db, Err "create profile")
    end.
Definition row_patched (name : string) (enabled : bool) (config : string) (seq : Z) (actor : string) (t : Z) (r : row) : row :=
  mkRow (p_type r) name enabled (p_builtin r) seq config (p_created_by r) (p_created_at r) actor t.
Definition sql_Update (e : env) (db : table) (id : string) (patch : Profile) (actor : string) : table * result string Profile :=
  match sql_Get e db id with
  | None => (db, Err (not_found id))
  | Some p =>
      if Builtin p && negb (bool_decide (Name patch = Name p)) then (db, Err (cannot_rename p))
      else
        let cfg := match Config patch with Some c => c | None => default "" (Config p) end in
        let seq := if (0 <? Sequence patch)%Z then Sequence patch else Sequence p in
        match jsonb cfg with
        | Some c =>
            if ok e 1 && fits 255 (Name patch) && fits 255 actor
            then (alter (row_patched (Name patch) (Enabled patch) c seq actor (db_now e)) id db, Ok (patched patch actor (clk e 0) p))
            else (db, Err "update profile")
        | None => (db, Err "update profile")
        end
  end.
Definition sql_Delete (e : env) (db : table) (id : string) : table * result string unit :=
  match sql_Get e db id with
  | None => (db, Err (not_found id))
  | Some p =>
      if Builtin p then (db, Err (cannot_delete p))
      else if ok e 1 then (delete id db, Ok tt) else (db, Err "delete profile")
  end.
Definition row_toggled (enabled : bool) (actor : string) (t : Z) (r : row) : row :=
  mkRow (p_type r) (p_name r) enabled (p_builtin r) (p_sequence r) (p_config r) (p_created_by r) (p_created_at r) actor t.
Definition sql_Toggle (e : env) (db : table) (id : string) (enabled : bool) (actor : string) : table * result string Profile :=
  match sql_Get e db id with
  | None => (db, Err (not_found id))
  | Some p =>
      if ok e 1 && fits 255 actor
      then (alter (row_toggled enabled actor (db_now e)) id db, Ok (toggled enabled actor (clk e 0) p))
      else (db, Err "toggle profile")
  end.

Definition table_store : ProfileStore table := {|
  List := sql_List;
  Get := sql_Get;
  Create := sql_Create;
  Update := sql_Update;
  Delete := sql_Delete;
  Toggle := sql_Toggle;
|}.

End Table.

(** ** The handlers *)

Inductive reply :=
| PErr (status : Z) (msg : string)
| PProfiles (l : list Profile)
| PProfile (status : Z) (p : Profile)
| PDeleted (id : string).

Section Handlers.
Context {St : Type} `{!ProfileStore St}.

Definition actor_of (user : string) : string := if bool_decide (user = "") then "admin" else user.
Definition resolveType (t : string) : option string := if bool_decide (t ∈ types) then Some t else None.
(** The text the handler compares an error with: the identifier between quotation marks, as it is. *)
Definition plain_not_found (id : string) : string :=
  "profile " +:+ String quote_mark (id +:+ String quote_mark " not found").
Definition status_of (id msg : string) : Z := if bool_decide (msg = plain_not_found id) then 404 else 400.

Definition ListProfiles (e : env) (s : St) (type : string) : reply :=
  match resolveType type with
  | None => PErr 400 "invalid profile type"
  | Some t => PProfiles (List e s t)
  end.
Definition GetProfile (e : env) (s : St) (id : string) : reply :=
  match Get e s id with Some p => PProfile 200 p | None => PErr 404 "profile not found" end.
Definition with_type (t : string) (p : Profile) : Profile :=
  mkProfile (ID p) t (Name p) (Enabled p) (Builtin p) (Sequence p) (Config p) (CreatedBy p) (CreatedAt p) (UpdatedBy p) (UpdatedAt p).
Definition CreateProfile (e : env) (s : St) (type user : string) (body : option Profile) : St * reply :=
  match resolveType type, body with
  | None, _ => (s, PErr 400 "invalid profile type")
  | Some _, None => (s, PErr 400 "invalid request body")
  | Some t, Some p =>
      match Create e s (with_type t p) (actor_of user) with
      | (s, Ok p) => (s, PProfile 201 p)
      | (s, Err m) => (s, PErr 400 m)
      end
  end.
Definition UpdateProfile (e : env) (s : St) (id user : string) (body : option Profile) : St * reply :=
  match body with
  | None => (s, PErr 400 "invalid request body")
  | Some patch =>
      match Update e s id patch (actor_of user) with
      | (s, Ok p) => (s, PProfile 200 p)
      | (s, Err m) => (s, PErr (status_of id m) m)
      end
  end.
Definition DeleteProfile (e : env) (s : St) (id : string) : St * reply :=
  match Delete e s id with
  | (s, Ok _) => (s, PDeleted id)
  | (s, Err m) => (s, PErr (status_of id m) m)
  end.
Definition ToggleProfile (e : env) (s : St) (id user : string) (body : option bool) : St * reply :=
  match body with
  | None => (s, PErr 400 "invalid request body")
  | Some enabled =>
      match Toggle e s id enabled (actor_of user) with
      | (s, Ok p) => (s, PProfile 200 p)
      | (s, Err m) => (s, PErr 404 m)
      end
  end.

(** A request to the API, and its reply. *)
Inductive call :=
| CList (type : string)
| CGet (id : string)
| CCreate (type user : string) (body : option Profile)
| CUpdate (id user : string) (body : option Profile)
| CDelete (id : string)
| CToggle (id user : string) (body : option bool).
Definition serve (s : St) (ec : env * call) : St * reply :=
  let e := fst ec in
  match snd ec with
  | CList t => (s, ListProfiles e s t)
  | CGet id => (s, GetProfile e s id)
  | CCreate t user b => CreateProfile e s t user b
  | CUpdate id user b => UpdateProfile e s id user b
  | CDelete id => DeleteProfile e s id
  | CToggle id user b => ToggleProfile e s id user b
  end.

End Handlers.

(** ** Built-in profiles stay *)

Section Laws.
Context (jsonb : string → option string) (ro : range_order).
Definition serve_table : table → env * call → table * reply := serve (ProfileStore0 := table_store jsonb ro).

(** What a call does to a built-in row. *)
Definition still (r r' : row) : Prop :=
  p_builtin r' = p_builtin r ∧ p_name r' = p_name r ∧ p_type r' = p_type r ∧ p_created_by r' = p_created_by r.
Definition kept (id : string) (r : row) (db : table) : Prop := ∃ r', db !! id = Some r' ∧ still r r'.
Lemma kept_alter id j r g db : kept id r db → (id = j → ∀ r', db !! id = Some r' → still r (g r')) → kept id r (alter g j db).
Proof.
  intros (r' & Hr' & Hs) Hg. destruct (decide (id = j)) as [->|Hne].
  - exists (g r'). rewrite lookup_alter_eq, Hr'. split; [done|by apply Hg].
  - exists r'. by rewrite lookup_alter_ne.
Qed.
Lemma sql_Get_inv e db id p : sql_Get e db id = Some p → ∃ r, db !! id = Some r ∧ p = scan id r.
Proof. unfold sql_Get. destruct (ok e 0); [|done]. destruct (db !! id) as [r|]; [|done]. intros [= <-]. by exists r. Qed.

Lemma create_kept e db p actor id r : kept id r db → kept id r (fst (sql_Create jsonb e db p actor)).
Proof.
  intros (r' & Hr' & Hs). unfold sql_Create. case_bool_decide; [by exists r'|]. cbv zeta.
  destruct (db !! ID (with_id e p)) as [x|] eqn:Hx; [by exists r'|]. destruct (jsonb _); [|by exists r'].
  destruct (_ && _); [|by exists r']. exists r'. split; [|done]. cbn. rewrite lookup_insert_ne; [done|]. congruence.
Qed.
Lemma update_kept e db j patch actor id r : p_builtin r = true → kept id r db → kept id r (fst (sql_Update jsonb e db j patch actor)).
Proof.
  intros Hb Hk. unfold sql_Update. destruct (sql_Get e db j) as [p|] eqn:Hg; [|done].
  apply sql_Get_inv in Hg as (rj & Hj & ->). cbn [Builtin Name scan].
  destruct (p_builtin rj && _) eqn:Hren; [done|]. cbv zeta. destruct (jsonb _); [|done]. destruct (ok e 1 && _ && _); [|done].
  apply kept_alter; [done|]. intros -> r' Hr'. destruct Hk as (r2 & H2 & Hb2 & Hn2 & Ht2 & Hc2).
  assert (r2 = rj) as -> by congruence. assert (r' = rj) as -> by congruence.
  rewrite Hb2, Hb in Hren. cbn in Hren. apply negb_false_iff, bool_decide_eq_true in Hren.
  split_and!; cbn; congruence.
Qed.
Lemma delete_kept e db j id r : p_builtin r = true → kept id r db → kept id r (fst (sql_Delete e db j)).
Proof.
  intros Hb (r' & Hr' & Hs). unfold sql_Delete. destruct (sql_Get e db j) as [p|] eqn:Hg; [|by exists r'].
  apply sql_Get_inv in Hg as (rj & Hj & ->). cbn [Builtin scan]. destruct (p_builtin rj) eqn:Hbj; [by exists r'|].
  destruct (ok e 1); [|by exists r']. exists r'. split; [|done]. cbn. rewrite lookup_delete_ne; [done|]. intros ->.
  destruct Hs as [Hs _]. congruence.
Qed.
Lemma toggle_kept e db j b actor id r : kept id r db → kept id r (fst (sql_Toggle e db j b actor)).
Proof.
  intros Hk. unfold sql_Toggle. destruct (sql_Get e db j) as [p|]; [|done]. destruct (_ && _); [|done].
  apply kept_alter; [done|]. intros -> r' Hr'. destruct Hk as (r2 & H2 & Hs). assert (r' = r2) as -> by congruence. exact Hs.
Qed.

(** Built-in profiles stay.  Whatever requests the API answers, and whichever statements
    fail, a built-in profile is still in the table afterwards, still built in, with its name,
    its type and its author. *)
Theorem builtin_permanent db l id r :
  db !! id = Some r → p_builtin r = true →
  ∃ r', after serve_table db l !! id = Some r'
    ∧ p_builtin r' = true ∧ p_name r' = p_name r ∧ p_type r' = p_type r ∧ p_created_by r' = p_created_by r.
Proof.
  intros Hr Hb. assert (Hk : kept id r (after serve_table db l)).
  { apply run_keeps; [by exists r|]. intros db' [e c] _ Hk. unfold serve_table, serve. cbn [fst snd].
    destruct c as [t|j|t user [p|]|j user [p|]|j|j user [b|]]; cbn [fst]; try done.
    - unfold CreateProfile. destruct (resolveType t); [|done]. cbn [Create table_store].
      pose proof (create_kept e db' (with_type s p) (actor_of user) id r Hk) as H.
      by destruct (sql_Create _ _ _ _ _) as [db2 [q|m]].
    - unfold CreateProfile. by destruct (resolveType t).
    - unfold UpdateProfile. cbn [Update table_store]. pose proof (update_kept e db' j p (actor_of user) id r Hb Hk) as H.
      by destruct (sql_Update _ _ _ _ _ _) as [db2 [q|m]].
    - unfold DeleteProfile. cbn [Delete table_store]. pose proof (delete_kept e db' j id r Hb Hk) as H.
      by destruct (sql_Delete _ _ _) as [db2 [q|m]].
    - unfold ToggleProfile. cbn [Toggle table_store]. pose proof (toggle_kept e db' j b (actor_of user) id r Hk) as H.
      by destruct (sql_Toggle _ _ _ _ _) as [db2 [q|m]]. }
  destruct Hk as (r' & Hr' & H1 & H2). exists r'. rewrite H1. done.
Qed.

(** ** A new profile is the last of its type *)

Lemma sorted_last (l : list Profile) x z :
  StronglySorted by_sequence l → last l = Some z → x ∈ l → x = z ∨ (Sequence x <= Sequence z)%Z.
Proof.
  intros Hs. induction Hs as [|a l Hs IH Ha]; [by intros ? ?%elem_of_nil|]. intros Hz Hx.
  apply elem_of_cons in Hx as [->|Hx].
  - destruct l as [|b l]; [cbn in Hz; injection Hz as ->; by left|]. right. rewrite last_cons_cons in Hz.
    rewrite Forall_forall in Ha. apply Ha. by apply last_Some_elem_of.
  - destruct l as [|b l]; [by apply elem_of_nil in Hx|]. rewrite last_cons_cons in Hz. auto.
Qed.
Lemma foldr_max_le n l x : x ∈ n :: l → (x <= foldr Z.max n l)%Z.
Proof.
  induction l as [|m l IH]; cbn [foldr]; rewrite !elem_of_cons.
  - intros [->|?%elem_of_nil]; [lia|done].
  - intros [->|[->|Hx]]; [|lia|]; [assert (n <= foldr Z.max n l)%Z by (apply IH; apply list_elem_of_here)|assert (x <= foldr Z.max n l)%Z by (apply IH; by apply list_elem_of_further)]; lia.
Qed.
Lemma sql_max_le e db t id r : ok e 0 = true → db !! id = Some r → p_type r = t → (p_sequence r <= sql_max e db t)%Z.
Proof.
  intros Hok Hr Ht. unfold sql_max. rewrite Hok.
  assert (Hin : p_sequence r ∈ p_sequence <$> List.filter (row_of_type t) (snd <$> map_to_list db)).
  { apply list_elem_of_fmap. exists r. split; [done|]. apply list_elem_of_In, filter_In. split.
    - apply list_elem_of_In, list_elem_of_fmap. exists (id, r). split; [done|]. by apply elem_of_map_to_list.
    - by apply bool_decide_eq_true. }
  destruct (_ <$> _) as [|n l]; [by apply elem_of_nil in Hin|]. by apply foldr_max_le.
Qed.
Lemma elem_of_sql_List e db t p : ok e 0 = true →
  p ∈ sql_List ro e db t ↔ ∃ r, db !! ID p = Some r ∧ p_type r = t ∧ p = scan (ID p) r.
Proof.
  intros Hok. unfold sql_List. rewrite Hok, merge_sort_Permutation, list_elem_of_fmap. split.
  - intros ([id r] & -> & [Hr Ht%bool_decide_eq_true]%elem_of_select). by exists r.
  - intros (r & Hr & Ht & ->). exists (ID p, r). split; [done|]. apply elem_of_select. split; [done|by apply bool_decide_eq_true].
Qed.

Lemma with_id_same e p : Type_ (with_id e p) = Type_ p ∧ Name (with_id e p) = Name p.
Proof. unfold with_id. by case_bool_decide. Qed.

(** A new profile comes last.  A profile that was created is listed among those of its
    type, after all the others. *)
Theorem created_listed_last e db p actor db' q e' :
  ok e 0 = true → (0 <= sql_max e db (Type_ p) < 2 ^ 62)%Z → sql_Create jsonb e db p actor = (db', Ok q) → ok e' 0 = true →
  ∃ x, last (sql_List ro e' db' (Type_ p)) = Some x ∧ ID x = ID q ∧ Name x = Name p ∧ db !! ID q = None.
Proof.
  intros Hok Hmax Hc Hok'. unfold sql_Create in Hc. case_bool_decide; [done|]. cbv zeta in Hc.
  destruct (with_id_same e p) as [Ht Hn]. set (p' := with_id e p) in *. rewrite Ht, Hn in Hc.
  destruct (db !! ID p') eqn:Hfree; [done|]. destruct (jsonb _) as [c|]; [|done]. destruct (_ && _); [|done].
  injection Hc as <- <-. set (seq := wrap_i64 _). set (r := mkRow _ _ _ _ _ _ _ _ _ _). set (x := scan (ID p') r).
  assert (Hseq : seq = (sql_max e db (Type_ p) + 10)%Z) by (apply wrap_i64_id; unfold in_i64; lia).
  exists x. cbn. split_and!; [|done|done|done]. set (l := sql_List _ _ _ _).
  assert (Hx : x ∈ l). { apply elem_of_sql_List; [done|]. exists r. cbn. by rewrite lookup_insert_eq. }
  assert (Hs : StronglySorted by_sequence l).
  { subst l. unfold sql_List. rewrite Hok'. apply StronglySorted_merge_sort; apply _. }
  destruct (last l) as [z|] eqn:Hz; [|apply last_None in Hz; rewrite Hz in Hx; by apply elem_of_nil in Hx].
  destruct (sorted_last l x z Hs Hz Hx) as [->|Hle]; [done|]. apply last_Some_elem_of in Hz.
  apply elem_of_sql_List in Hz as (rz & Hrz & Htz & Ez); [|done]. destruct (decide (ID z = ID p')) as [E|E].
  - rewrite E, lookup_insert_eq in Hrz. injection Hrz as <-. by rewrite Ez, E.
  - rewrite lookup_insert_ne in Hrz by done. pose proof (sql_max_le e db _ _ _ Hok Hrz Htz) as Hm.
    rewrite Ez in Hle. cbn in Hle. lia.
Qed.

End Laws.

(** ** Witnesses *)

Definition demo_env : env := mkEnv (λ i, (5 + Z.of_nat i)%Z) 7 (λ _, true).
Definition demo_row : row := mkRow "atp" "Default-ATP" true true 10 "{}" "system" 0 "system" 0.
Definition demo_table : table := {["atp-1" := demo_row]}.
Definition demo_new (name : string) : Profile := mkProfile "" "" name true false 0 None "" 0 "" 0.
Definition demo_calls : list (env * call) :=
  [(demo_env, CDelete "atp-1"); (demo_env, CUpdate "atp-1" "ann" (Some (demo_new "Mine"))); (demo_env, CToggle "atp-1" "" (Some false))].

Lemma builtin_permanent_witness :
  ∃ r', after (serve_table Some canonical_order) demo_table demo_calls !! "atp-1" = Some r' ∧ p_name r' = "Default-ATP".
Proof.
  destruct (builtin_permanent Some canonical_order demo_table demo_calls "atp-1" demo_row) as (r' & Hr' & _ & Hn & _);
    [apply lookup_singleton_eq|done|]. by exists r'.
Defined.
Lemma created_listed_last_witness :
  ∃ x, last (sql_List canonical_order demo_env (fst (sql_Create Some demo_env demo_table (with_type "atp" (demo_new "Mine")) "ann")) "atp") = Some x
    ∧ Name x = "Mine".
Proof.
  destruct (sql_Create Some demo_env demo_table (with_type "atp" (demo_new "Mine")) "ann") as [db' res] eqn:Hc.
  assert (Hok : match res with Ok _ => true | Err _ => false end = true).
  { replace res with (snd (sql_Create Some demo_env demo_table (with_type "atp" (demo_new "Mine")) "ann")) by by rewrite Hc. by vm_compute. }
  destruct res as [q|]; [|done].
  destruct (created_listed_last Some canonical_order demo_env demo_table (with_type "atp" (demo_new "Mine")) "ann" db' q demo_env)
    as (x & Hx & _ & Hn & _); [done|split; by vm_compute|exact Hc|done|]. by exists x.
Defined.

End Profiles.
