(* ===== verification/Rbac.v ===== *)
(** * Console roles

    [src/internal/db/rbac_store.go] and [src/internal/api/handlers/rbac_handler.go]: custom
    roles with a grant per console page, of one tenant or global.  Each statement is a step
    of its own, a transaction is one step, and requests interleave ([Interleave]).

    [uuid] is the database's reading of a UUID: its canonical text, or [None] for a text that
    is none, which fails the statement. *)

From S2P Require Import Prelude GoStrings Sql Interleave.
From stdpp Require Import sorting.
#[local] Open Scope string_scope.
#[local] Open Scope nat_scope.
#[local] Open Scope list_scope.

Module Rbac.
Import GoStrings Sql Interleave.

(** ** Tables *)

Record role_row := mkRoleRow {
  r_org : option string;
  r_name : string;
  r_description : string;
  r_system : bool;
  r_created_by : option string;
  r_updated_at : Z;
}.
Record page_row := mkPageRow { g_label : string; g_category : string; g_sort : Z }.
Record org_row := mkOrgRow { o_name : string; o_status : option string }.
(** A grant is keyed by role and page; [users] are the identifiers of the administrators. *)
Record DB := mkDB {
  roles : gmap string role_row;
  grants : gmap (string * string) (bool * bool);
  pages : gmap string page_row;
  orgs : gmap string org_row;
  users : gset string;
}.
Definition with_roles (d : DB) m := mkDB m (grants d) (pages d) (orgs d) (users d).
Definition with_grants (d : DB) m := mkDB (roles d) m (pages d) (orgs d) (users d).

Record RBACPage := mkPage { Slug : string; Label : string; pg_Category : string; SortOrder : Z }.
Record PageGrant := mkGrant { PageSlug : string; CanView : bool; CanEdit : bool }.
Record RBACRole := mkRole {
  ID : string;
  OrgID : option string;
  OrgName : string;
  Name : string;
  Description : string;
  IsSystem : bool;
  Pages : list PageGrant;
}.
Record Tenant := mkTenant { t_ID : string; t_Name : string }.

Inductive rbac_error := RoleNameTaken | NoRows | Failed.

(** The identifier of a new row, the clock of the database, which statements fail, and the
    order in which a query finds rows. *)
Record env := mkEnv { new_id : string; db_now : Z; ok : nat → bool; order : range_order }.

(** ** Sorting *)

Definition leb_of {A} (key : A → string) (a b : A) : bool := String.leb (key a) (key b).
Definition page_leb (a b : RBACPage) : bool :=
  (SortOrder a <? SortOrder b)%Z || (bool_decide (SortOrder a = SortOrder b) && leb_of Label a b).
Definition is_none {A} (o : option A) : bool := match o with None => true | Some _ => false end.
(** Global roles first, then by the name of the tenant and of the role. *)
Definition role_leb (a b : RBACRole) : bool :=
  match is_none (OrgID a), is_none (OrgID b) with
  | true, false => true
  | false, true => false
  | _, _ => String.ltb (OrgName a) (OrgName b) || (bool_decide (OrgName a = OrgName b) && leb_of Name a b)
  end.

Section Store.
Context (uuid : string → option string).

(** ** Reading *)

Definition not_deleted (o : org_row) : bool :=
  match o_status o with Some s => negb (bool_decide (s = "deleted")) | None => true end.
Definition ListTenants (e : env) : prog DB (option (list Tenant)) :=
  query (λ d, if ok e 0
    then Some (merge_sort (leb_of t_Name)
                 ((λ kv, mkTenant (fst kv) (o_name (snd kv))) <$> select (order e) (λ _, not_deleted) (orgs d)))
    else None).
Definition ListPages (e : env) : prog DB (option (list RBACPage)) :=
  query (λ d, if ok e 0
    then Some (merge_sort page_leb
                 ((λ kv, mkPage (fst kv) (g_label (snd kv)) (g_category (snd kv)) (g_sort (snd kv))) <$> range (order e) (pages d)))
    else None).

(** The global role of that name, in small letters; the first the query finds. *)
Definition global_named (role : string) (_ : string) (r : role_row) : bool :=
  is_none (r_org r) && bool_decide (ToLower (r_name r) = role).
Definition viewable (d : DB) (id : string) : list string :=
  omap (λ kv, if bool_decide (fst (fst kv) = id) && fst (snd kv) then Some (snd (fst kv)) else None) (map_to_list (grants d)).
Definition EffectivePages (e : env) (role : string) : prog DB (option (bool * list string)) :=
  let role := TrimSpace (ToLower role) in
  if bool_decide (role = "") || bool_decide (role = "super_admin") then Ret (Some (false, []))
  else
    bind (query (λ d, if ok e 0 then Some (head (select (order e) (global_named role) (roles d))) else None)) (λ found,
      match found with
      | None => Ret None
      | Some None => Ret (Some (false, []))
      | Some (Some (id, _)) => query (λ d, if ok e 1 then Some (true, viewable d id) else None)
      end).

Definition role_view (d : DB) (id : string) (r : role_row) : RBACRole :=
  mkRole id (r_org r) (match r_org r ≫= (orgs d !!.) with Some o => o_name o | None => "" end) (r_name r) (r_description r) (r_system r) [].
(** What [tenant_id] selects; [None] is a text that is no UUID. *)
Definition in_scope (scope : string) : option (role_row → bool) :=
  if bool_decide (TrimSpace scope = "") || bool_decide (TrimSpace scope = "all") then Some (λ _, true)
  else if bool_decide (TrimSpace scope = "global") then Some (λ r, is_none (r_org r))
  else (λ o r, bool_decide (r_org r = Some o)) <$> uuid scope.
Definition grants_of (d : DB) (id : string) : list PageGrant :=
  omap (λ kv, if bool_decide (fst (fst kv) = id) then Some (mkGrant (snd (fst kv)) (fst (snd kv)) (snd (snd kv))) else None)
    (map_to_list (grants d)).
Definition with_pages (r : RBACRole) (l : list PageGrant) : RBACRole :=
  mkRole (ID r) (OrgID r) (OrgName r) (Name r) (Description r) (IsSystem r) l.
(** The grants are those of the roles that are still in scope when the second query runs. *)
Definition ListRoles (e : env) (scope : string) : prog DB (option (list RBACRole)) :=
  match in_scope scope with
  | None => Ret None
  | Some p =>
      bind (query (λ d, if ok e 0
          then Some (merge_sort role_leb ((λ kv, role_view d (fst kv) (snd kv)) <$> select (order e) (λ _, p) (roles d)))
          else None)) (λ l,
        match l with
        | None => Ret None
        | Some [] => Ret (Some [])
        | Some l =>
            query (λ d, if ok e 1
              then Some ((λ r, with_pages r (match roles d !! ID r with
                                             | Some row => if p row then grants_of d (ID r) else []
                                             | None => []
                                             end)) <$> l)
              else None)
        end)
  end.

(** ** Writing *)

Definition zero_uuid : string := "00000000-0000-0000-0000-000000000000".
(** Another role of the scope has the name, whatever its case. *)
Definition clashes (org : option string) (name exclude id : string) (r : role_row) : bool :=
  bool_decide (ToLower (r_name r) = ToLower name) && negb (bool_decide (id = exclude)) && bool_decide (r_org r = org).
(** The tenant as the query compares it; [None] fails. *)
Definition scope_of (org : option string) : option (option string) :=
  match org with None => Some None | Some o => Some <$> uuid o end.
Definition nameTaken (e : env) (i : nat) (org : option string) (name excludeID : string) : prog DB (option bool) :=
  let excludeID := if bool_decide (TrimSpace excludeID = "") then zero_uuid else excludeID in
  query (λ d,
    match uuid excludeID, scope_of org with
    | Some x, Some o =>
        if ok e i then Some (existsb (λ kv, clashes o name x (fst kv) (snd kv)) (map_to_list (roles d))) else None
    | _, _ => None
    end).

(** The author of a role: absent, or a user. *)
Definition author (d : DB) (createdBy : string) : option (option string) :=
  if bool_decide (TrimSpace createdBy = "") then Some None
  else match uuid createdBy with
       | Some u => if bool_decide (u ∈ users d) then Some (Some u) else None
       | None => None
       end.
Definition known_org (d : DB) (o : option string) : bool :=
  match o with None => true | Some o => bool_decide (is_Some (orgs d !! o)) end.
Definition insert_role (e : env) (org : option string) (name description createdBy : string) (d : DB) : DB * result rbac_error string :=
  match scope_of org, author d createdBy with
  | Some o, Some by_ =>
      if ok e 1 && fits 100 name && known_org d o && bool_decide (roles d !! new_id e = None)
      then (with_roles d (<[new_id e := mkRoleRow o name description false by_ (db_now e)]> (roles d)), Ok (new_id e))
      else (d, Err Failed)
  | _, _ => (d, Err Failed)
  end.
Definition CreateRole (e : env) (org : option string) (name description createdBy : string) : prog DB (result rbac_error string) :=
  let name := TrimSpace name in
  bind (nameTaken e 0 org name "") (λ taken,
    match taken with
    | None => Ret (Err Failed)
    | Some true => Ret (Err RoleNameTaken)
    | Some false => stmt (insert_role e org name (TrimSpace description) createdBy)
    end).

(** The loop over the grants: [None] is a page that does not exist, or one granted twice. *)
Fixpoint insert_grants (d : DB) (id : string) (l : list PageGrant) (m : gmap (string * string) (bool * bool)) : option (gmap (string * string) (bool * bool)) :=
  match l with
  | [] => Some m
  | g :: l =>
      if negb (CanView g) && negb (CanEdit g) then insert_grants d id l m
      else
        match pages d !! PageSlug g, m !! (id, PageSlug g) with
        | Some _, None => insert_grants d id l (<[(id, PageSlug g) := (CanView g || CanEdit g, CanEdit g)]> m)
        | _, _ => None
        end
  end.
Definition without_role (id : string) (m : gmap (string * string) (bool * bool)) : gmap (string * string) (bool * bool) :=
  filter (λ kv, fst (fst kv) ≠ id) m.
Definition rename (name description : string) (t : Z) (r : role_row) : role_row :=
  mkRoleRow (r_org r) name description (r_system r) (r_created_by r) t.
(** The transaction. *)
Definition replace_role (e : env) (id name description : string) (l : list PageGrant) (d : DB) : DB * result rbac_error unit :=
  match uuid id with
  | Some i =>
      if ok e 2 && fits 100 name
      then
        match roles d !! i with
        | None => (d, Err NoRows)
        | Some r =>
            match insert_grants d i l (without_role i (grants d)) with
            | Some m => (with_grants (with_roles d (<[i := rename name description (db_now e) r]> (roles d))) m, Ok tt)
            | None => (d, Err Failed)
            end
        end
      else (d, Err Failed)
  | None => (d, Err Failed)
  end.
Definition role_scope (e : env) (id : string) (d : DB) : result rbac_error (option string) :=
  match uuid id with
  | Some i => if ok e 0 then match roles d !! i with Some r => Ok (r_org r) | None => Err NoRows end else Err Failed
  | None => Err Failed
  end.
Definition UpdateRole (e : env) (id name description : string) (l : list PageGrant) : prog DB (result rbac_error unit) :=
  let name := TrimSpace name in
  bind (query (role_scope e id)) (λ scope,
    match scope with
    | Err x => Ret (Err x)
    | Ok org =>
        bind (nameTaken e 1 org name id) (λ taken,
          match taken with
          | None => Ret (Err Failed)
          | Some true => Ret (Err RoleNameTaken)
          | Some false => stmt (replace_role e id name (TrimSpace description) l)
          end)
    end).
(** The grants of a deleted role go with it. *)
Definition delete_role (e : env) (id : string) (d : DB) : DB * result rbac_error unit :=
  match uuid id with
  | Some i =>
      if ok e 0
      then
        match roles d !! i with
        | Some r =>
            if r_system r then (d, Err NoRows)
            else (with_grants (with_roles d (delete i (roles d))) (without_role i (grants d)), Ok tt)
        | None => (d, Err NoRows)
        end
      else (d, Err Failed)
  | None => (d, Err Failed)
  end.
Definition DeleteRole (e : env) (id : string) : prog DB (result rbac_error unit) := stmt (delete_role e id).

(** ** The handlers *)

Inductive reply :=
| GErr (status : Z) (msg : string)
| GTenants (l : list Tenant)
| GPages (l : list RBACPage)
| GEffective (controlled : bool) (l : list string)
| GRoles (l : list RBACRole)
| GCreated (id : string)
| GStatus (s : string).

Definition then_ {A} (p : prog DB A) (f : A → reply) : prog DB reply := bind p (λ a, Ret (f a)).
Definition ListTenants_ (e : env) : prog DB reply :=
  then_ (ListTenants e) (λ o, match o with Some l => GTenants l | None => GErr 500 "failed to list tenants" end).
Definition ListPages_ (e : env) : prog DB reply :=
  then_ (ListPages e) (λ o, match o with Some l => GPages l | None => GErr 500 "failed to list pages" end).
Definition EffectivePages_ (e : env) (role : string) : prog DB reply :=
  then_ (EffectivePages e role) (λ o, match o with Some (c, l) => GEffective c l | None => GErr 500 "failed to resolve pages" end).
Definition ListRoles_ (e : env) (tenant : option string) : prog DB reply :=
  then_ (ListRoles e (default "all" tenant)) (λ o, match o with Some l => GRoles l | None => GErr 500 "failed to list roles" end).

(** Blank or [global] is a role for all tenants. *)
Definition normalizeTenant (tenantID : string) : option string :=
  let t := TrimSpace tenantID in
  if bool_decide (t = "") || EqualFold t "global" then None else Some t.
Record createRoleRequest := mkCreate { c_Name : string; c_TenantID : string; c_Description : string }.
Definition CreateRole_ (e : env) (userID : string) (body : option createRoleRequest) : prog DB reply :=
  match body with
  | None => Ret (GErr 400 "invalid request body")
  | Some req =>
      if bool_decide (TrimSpace (c_Name req) = "") then Ret (GErr 400 "role name is required")
      else
        then_ (CreateRole e (normalizeTenant (c_TenantID req)) (c_Name req) (c_Description req) userID) (λ r,
          match r with
          | Ok id => GCreated id
          | Err RoleNameTaken => GErr 409 "a role with that name already exists in this scope"
          | Err _ => GErr 500 "failed to create role"
          end)
  end.
Record updateRoleRequest := mkUpdate { u_Name : string; u_Description : string; u_Pages : list PageGrant }.
Definition UpdateRole_ (e : env) (id : string) (body : option updateRoleRequest) : prog DB reply :=
  match body with
  | None => Ret (GErr 400 "invalid request body")
  | Some req =>
      if bool_decide (TrimSpace (u_Name req) = "") then Ret (GErr 400 "role name is required")
      else
        then_ (UpdateRole e id (u_Name req) (u_Description req) (u_Pages req)) (λ r,
          match r with
          | Ok _ => GStatus "updated"
          | Err NoRows => GErr 404 "role not found"
          | Err RoleNameTaken => GErr 409 "a role with that name already exists in this scope"
          | Err Failed => GErr 500 "failed to update role"
          end)
  end.
Definition DeleteRole_ (e : env) (id : string) : prog DB reply :=
  then_ (DeleteRole e id) (λ r,
    match r with
    | Ok _ => GStatus "deleted"
    | Err NoRows => GErr 404 "role not found or is a system role"
    | Err _ => GErr 500 "failed to delete role"
    end).

Inductive call :=
| CTenants (e : env)
| CPages (e : env)
| CEffective (e : env) (role : string)
| CRoles (e : env) (tenant : option string)
| CCreate (e : env) (userID : string) (body : option createRoleRequest)
| CUpdate (e : env) (id : string) (body : option updateRoleRequest)
| CDelete (e : env) (id : string).
Definition serve (c : call) : prog DB reply :=
  match c with
  | CTenants e => ListTenants_ e
  | CPages e => ListPages_ e
  | CEffective e role => EffectivePages_ e role
  | CRoles e tenant => ListRoles_ e tenant
  | CCreate e userID body => CreateRole_ e userID body
  | CUpdate e id body => UpdateRole_ e id body
  | CDelete e id => DeleteRole_ e id
  end.

End Store.

(** ** System roles stay, whatever interleaves *)

Section Laws.
Context (uuid : string → option string).
#[local] Abbreviation serve := (serve uuid).

Definition system_role (id : string) (d : DB) : Prop := ∃ r, roles d !! id = Some r ∧ r_system r = true.

Lemma insert_role_keeps e org name desc by_ id d : system_role id d → system_role id (fst (insert_role uuid e org name desc by_ d)).
Proof.
  intros (r & Hr & Hs). unfold insert_role. destruct (scope_of uuid org) as [o|]; [|by exists r]. destruct (author _ _ _) as [a|]; [|by exists r].
  destruct (ok e 1 && _ && _ && bool_decide (roles d !! new_id e = None)) eqn:Hc; [|by exists r].
  apply andb_true_iff in Hc as [_ Hn%bool_decide_eq_true]. exists r. cbn. rewrite lookup_insert_ne; [done|]. congruence.
Qed.
Lemma replace_role_keeps e j name desc l id d : system_role id d → system_role id (fst (replace_role uuid e j name desc l d)).
Proof.
  intros (r & Hr & Hs). unfold replace_role. destruct (uuid j) as [i|]; [|by exists r]. destruct (_ && _); [|by exists r].
  destruct (roles d !! i) as [ri|] eqn:Hi; [|by exists r]. destruct (insert_grants _ _ _ _); [|by exists r].
  unfold system_role. cbn. insert_cases id i; [|by exists r]. exists (rename name desc (db_now e) ri). split; [done|]. cbn. congruence.
Qed.
Lemma delete_role_keeps e j id d : system_role id d → system_role id (fst (delete_role uuid e j d)).
Proof.
  intros (r & Hr & Hs). unfold delete_role. destruct (uuid j) as [i|]; [|by exists r]. destruct (ok e 0); [|by exists r].
  destruct (roles d !! i) as [ri|] eqn:Hi; [|by exists r]. destruct (r_system ri) eqn:Hsi; [by exists r|].
  exists r. cbn. rewrite lookup_delete_ne; [done|]. congruence.
Qed.
#[local] Hint Resolve insert_role_keeps replace_role_keeps delete_role_keeps : go.

Lemma serve_keeps id c : keeps (system_role id) (serve c).
Proof.
  destruct c as [e|e|e role|e t|e u [b|]|e j [b|]|e j]; cbn [Rbac.serve];
    unfold ListTenants_, ListPages_, EffectivePages_, ListRoles_, CreateRole_, UpdateRole_, DeleteRole_, then_;
    try apply keeps_ret; try (case_bool_decide; [apply keeps_ret|]); apply keeps_bind; try (intros; apply keeps_ret).
  - apply keeps_query.
  - apply keeps_query.
  - unfold EffectivePages. cbv zeta. destruct (_ || _); [apply keeps_ret|]. apply keeps_bind; [apply keeps_query|].
    intros [[[i r]|]|]; auto with go.
  - unfold ListRoles. destruct (in_scope _ _); [|apply keeps_ret]. apply keeps_bind; [apply keeps_query|].
    intros [[|x l]|]; auto with go.
  - unfold CreateRole. cbv zeta. apply keeps_bind; [apply keeps_query|]. intros [[]|]; auto with go.
  - unfold UpdateRole. cbv zeta. apply keeps_bind; [apply keeps_query|]. intros [o|x]; [|auto with go].
    apply keeps_bind; [apply keeps_query|]. intros [[]|]; auto with go.
  - unfold DeleteRole. auto with go.
Qed.

(** System roles stay.  In every interleaving of requests a system role stays a system
    role: nothing deletes it or makes it an ordinary one. *)
Theorem system_roles_stay id d s :
  system_role id d → rtc (istep serve) (mkPool d []) s → system_role id (data s).
Proof. intros Hd Hs. by apply (reachable_keeps serve _ d); [apply serve_keeps|..]. Qed.

(** ** Names are unique in their scope, as long as requests do not overlap *)

(** What the database does with the texts of UUIDs. *)
Context (uuid_zero : uuid zero_uuid = Some zero_uuid).
Context (uuid_canonical : ∀ s c, uuid s = Some c → uuid c = Some c).
Context (uuid_nonblank : ∀ s c, uuid s = Some c → TrimSpace s ≠ "").

Record names_unique (d : DB) : Prop := {
  unique_names i j r r' : roles d !! i = Some r → roles d !! j = Some r' →
    r_org r = r_org r' → ToLower (r_name r) = ToLower (r_name r') → i = j;
  zero_free : roles d !! zero_uuid = None;
  org_canonical i r o : roles d !! i = Some r → r_org r = Some o → uuid o = Some o;
}.
(** The identifiers the database makes are not zero. *)
Definition proper (c : call) : Prop := match c with CCreate e _ _ => new_id e ≠ zero_uuid | _ => True end.

Lemma no_clash d o name x :
  existsb (λ kv, clashes o name x (fst kv) (snd kv)) (map_to_list (roles d)) = false →
  ∀ i r, roles d !! i = Some r → r_org r = o → ToLower (r_name r) = ToLower name → i = x.
Proof.
  intros Hf i r Hi Ho Hn. destruct (decide (i = x)) as [|Hne]; [done|]. exfalso.
  assert (Ht : existsb (λ kv, clashes o name x (fst kv) (snd kv)) (map_to_list (roles d)) = true); [|congruence].
  apply existsb_exists. exists (i, r). split; [by apply list_elem_of_In, elem_of_map_to_list|].
  unfold clashes. cbn. by rewrite (bool_decide_eq_true_2 _ Hn), (bool_decide_eq_false_2 _ Hne), (bool_decide_eq_true_2 _ Ho).
Qed.
Lemma unique_insert (d : DB) (i : string) (r : role_row) (m : gmap (string * string) (bool * bool)) :
  names_unique d → i ≠ zero_uuid →
  (∀ j r', roles d !! j = Some r' → r_org r' = r_org r → ToLower (r_name r') = ToLower (r_name r) → j = i) →
  (∀ o, r_org r = Some o → uuid o = Some o) →
  names_unique (with_grants (with_roles d (<[i := r]> (roles d))) m).
Proof.
  intros [Hu Hz Hc] Hi Hnew Hor. split; cbn; [|by rewrite lookup_insert_ne|].
  - intros a b ra rb. insert_cases a i; insert_cases b i; intros Ha Hb Ho Hn; simplify_eq/=; try done.
    + symmetry. by apply (Hnew b rb).
    + by apply (Hnew a ra).
    + by eapply Hu.
  - intros a ra o. insert_cases a i; intros Ha; [|by apply (Hc a)]. simplify_eq. apply Hor.
Qed.

Lemma create_unique e org name desc by_ d :
  new_id e ≠ zero_uuid → names_unique d → names_unique (fst (exec (CreateRole uuid e org name desc by_) d)).
Proof.
  intros He Hd. unfold CreateRole. cbv zeta. rewrite exec_bind. cbn [nameTaken query stmt exec fst snd].
  rewrite (bool_decide_eq_true_2 (TrimSpace "" = "")), uuid_zero by done.
  destruct (scope_of uuid org) as [o|] eqn:Ho; [|done]. destruct (ok e 0); [|done].
  destruct (existsb _ _) eqn:Hex; [done|]. cbn [exec stmt fst snd]. unfold insert_role. rewrite Ho.
  destruct (author _ _ _) as [a|]; [|done]. destruct (ok e 1 && _ && _ && _); [|done]. cbn [fst].
  apply (unique_insert d _ _ (grants d)); [done|done| |]; cbn.
  - intros j r' Hj Hor Hnm. pose proof (no_clash _ _ _ _ Hex j r' Hj Hor Hnm) as ->. by rewrite (zero_free _ Hd) in Hj.
  - intros o' ->. destruct org as [t|]; [|done]. cbn in Ho. destruct (uuid t) as [c|] eqn:Hc; [|done].
    injection Ho as ->. by eapply uuid_canonical.
Qed.
Lemma update_unique e id name desc l d :
  names_unique d → names_unique (fst (exec (UpdateRole uuid e id name desc l) d)).
Proof.
  intros Hd. unfold UpdateRole. cbv zeta. rewrite exec_bind. cbn [query stmt exec fst snd]. unfold role_scope.
  destruct (uuid id) as [i|] eqn:Hi; [|done]. destruct (ok e 0); [|done].
  destruct (roles d !! i) as [r|] eqn:Hr; [|done]. rewrite exec_bind. cbn [nameTaken query stmt exec fst snd].
  rewrite (bool_decide_eq_false_2 (TrimSpace id = "")), Hi by by eapply uuid_nonblank.
  assert (Ho : scope_of uuid (r_org r) = Some (r_org r)).
  { destruct (r_org r) as [o|] eqn:Hor; [|done]. cbn. by rewrite (org_canonical _ Hd i r o Hr Hor). }
  rewrite Ho. destruct (ok e 1); [|done]. destruct (existsb _ _) eqn:Hex; [done|].
  cbn [exec stmt fst snd]. unfold replace_role. rewrite Hi, Hr. destruct (_ && _); [|done].
  destruct (insert_grants _ _ _ _) as [m|]; [|done]. cbn [fst]. apply unique_insert; [done| | |].
  - intros ->. by rewrite (zero_free _ Hd) in Hr.
  - cbn. by apply no_clash.
  - cbn. intros o. by apply (org_canonical _ Hd i r).
Qed.
Lemma delete_unique e id d : names_unique d → names_unique (fst (delete_role uuid e id d)).
Proof.
  intros Hd. unfold delete_role. destruct (uuid id) as [i|]; [|done]. destruct (ok e 0); [|done].
  destruct (roles d !! i) as [r|]; [|done]. destruct (r_system r); [done|]. destruct Hd as [Hu Hz Hc]. split; cbn.
  - intros a b ra rb [_ Ha]%lookup_delete_Some [_ Hb]%lookup_delete_Some. by eapply Hu.
  - apply lookup_delete_None. by right.
  - intros a ra o [_ Ha]%lookup_delete_Some. by apply (Hc a).
Qed.

(** C29: Names are unique in their scope.  Requests that are answered one after the other keep
    the names of the roles of a tenant, and those of the global roles, different, whatever
    their case, although no constraint of the database does. *)
Theorem role_names_unique c d : proper c → names_unique d → names_unique (fst (exec (serve c) d)).
Proof.
  intros Hp Hd. destruct c as [e|e|e role|e t|e u [b|]|e j [b|]|e j]; cbn [Rbac.serve]; try done.
  - unfold EffectivePages_, then_. rewrite exec_bind. cbn [exec fst]. unfold EffectivePages. cbv zeta.
    destruct (_ || _); [done|]. rewrite exec_bind. cbn [query stmt exec fst snd]. destruct (ok e 0); [|done].
    by destruct (head _) as [[i r]|].
  - unfold ListRoles_, then_. rewrite exec_bind. cbn [exec fst]. unfold ListRoles. destruct (in_scope _ _); [|done].
    rewrite exec_bind. cbn [query stmt exec fst snd]. destruct (ok e 0); [|done]. by destruct (merge_sort _ _).
  - unfold CreateRole_, then_. case_bool_decide; [done|]. rewrite exec_bind. cbn [exec fst]. by apply create_unique.
  - unfold UpdateRole_, then_. case_bool_decide; [done|]. rewrite exec_bind. cbn [exec fst]. by apply update_unique.
  - unfold DeleteRole_, then_. rewrite exec_bind. cbn [exec fst]. by apply delete_unique.
Qed.


(** ** The pages a role shows are those it was granted *)

Definition granted (g : PageGrant) : bool := CanView g || CanEdit g.
Lemma insert_grants_spec d id l m m' : insert_grants d id l m = Some m' →
  (∀ j slug, j ≠ id → m' !! (j, slug) = m !! (j, slug))
  ∧ ∀ slug v, m' !! (id, slug) = Some v ↔
      m !! (id, slug) = Some v ∨ ∃ g, g ∈ l ∧ granted g = true ∧ PageSlug g = slug ∧ v = (true, CanEdit g).
Proof.
  revert m. induction l as [|g l IH]; intros m; cbn [insert_grants].
  - intros [= <-]. split; [done|]. intros slug v. split; [by left|]. by intros [|(g & ?%elem_of_nil & _)].
  - destruct (negb (CanView g) && negb (CanEdit g)) eqn:Hempty.
    + intros Hm. destruct (IH m Hm) as [H1 H2]. split; [done|]. intros slug v. rewrite H2. split.
      * intros [|(g' & Hin & Hg)]; [by left|]. right. exists g'. split; [by apply list_elem_of_further|done].
      * intros [|(g' & [->|Hin]%elem_of_cons & Hg & Hrest)]; [by left| |right; by exists g'].
        exfalso. apply andb_true_iff in Hempty as [E1%negb_true_iff E2%negb_true_iff]. unfold granted in Hg. by rewrite E1, E2 in Hg.
    + destruct (pages d !! PageSlug g); [|done]. destruct (m !! (id, PageSlug g)) eqn:Hfree; [done|]. intros Hm.
      assert (Hg : granted g = true) by (unfold granted; by destruct (CanView g), (CanEdit g)).
      destruct (IH _ Hm) as [H1 H2]. split.
      * intros j slug Hj. rewrite H1 by done. apply lookup_insert_ne. congruence.
      * intros slug v. rewrite H2. destruct (decide (slug = PageSlug g)) as [->|Hne].
        -- rewrite lookup_insert_eq, Hfree. fold (granted g). rewrite Hg. split.
           ++ intros [[= <-]|(g' & Hin & Hg')]; right; [exists g; split; [apply list_elem_of_here|done]|exists g'; split; [by apply list_elem_of_further|done]].
           ++ intros [|(g' & [->|Hin]%elem_of_cons & Hg' & Hs & ->)]; [done|by left|right; by exists g'].
        -- rewrite lookup_insert_ne by congruence. split.
           ++ intros [|(g' & Hin & Hg')]; [by left|right; exists g'; split; [by apply list_elem_of_further|done]].
           ++ intros [|(g' & [->|Hin]%elem_of_cons & Hg' & Hs & Hv)]; [by left|done|right; by exists g'].
Qed.
Lemma elem_of_viewable d id slug : slug ∈ viewable d id ↔ ∃ e, grants d !! (id, slug) = Some (true, e).
Proof.
  unfold viewable. rewrite list_elem_of_omap. split.
  - intros ([[j s] [v ed]] & Hin%elem_of_map_to_list & Hf). cbn in Hf. case_bool_decide; [|done]. destruct v; [|done].
    cbn in Hf. injection Hf as <-. subst. by exists ed.
  - intros (ed & Hg%elem_of_map_to_list). exists ((id, slug), (true, ed)). split; [done|]. cbn. by rewrite bool_decide_eq_true_2.
Qed.

(** An update that succeeded, by its parts. *)
Lemma update_inv e id name desc l d d' :
  exec (UpdateRole uuid e id name desc l) d = (d', Ok tt) →
  ∃ i r m, uuid id = Some i ∧ roles d !! i = Some r
    ∧ insert_grants d i l (without_role i (grants d)) = Some m
    ∧ d' = with_grants (with_roles d (<[i := rename (TrimSpace name) (TrimSpace desc) (db_now e) r]> (roles d))) m.
Proof.
  unfold UpdateRole. cbv zeta. rewrite exec_bind. cbn [query stmt exec fst snd]. unfold role_scope.
  destruct (uuid id) as [i|] eqn:Hi; [|done]. destruct (ok e 0); [|done]. destruct (roles d !! i) as [r|] eqn:Hr; [|done].
  rewrite exec_bind. cbn [nameTaken query stmt exec fst snd]. destruct (uuid (if bool_decide _ then _ else _)) as [x|]; [|done].
  destruct (scope_of _ _); [|done]. destruct (ok e 1); [|done]. destruct (existsb _ _); [done|]. cbn [exec stmt fst snd].
  unfold replace_role. rewrite Hi, Hr. destruct (_ && _); [|done]. destruct (insert_grants _ _ _ _) as [m|] eqn:Hm; [|done].
  intros [= <-]. by exists i, r, m.
Qed.

(** The console shows what was granted.  After an update of a global role, the pages its
    holders may see are exactly those the request grants for viewing or editing, and the
    grants of every other role are as they were. *)
Theorem pages_follow_grants e id name desc l d d' e' role :
  names_unique d → exec (UpdateRole uuid e id name desc l) d = (d', Ok tt) →
  ok e' 0 = true → ok e' 1 = true → ToLower (TrimSpace name) = TrimSpace (ToLower role) →
  TrimSpace (ToLower role) ≠ "" → TrimSpace (ToLower role) ≠ "super_admin" →
  (∃ i r, uuid id = Some i ∧ roles d !! i = Some r ∧ r_org r = None) →
  ∃ shown, exec (EffectivePages e' role) d' = (d', Some (true, shown))
    ∧ (∀ slug, slug ∈ shown ↔ ∃ g, g ∈ l ∧ PageSlug g = slug ∧ granted g = true)
    ∧ ∀ i j slug, uuid id = Some i → j ≠ i → grants d' !! (j, slug) = grants d !! (j, slug).
Proof.
  intros Hu Hup Hok0 Hok1 Hname Hne1 Hne2 (i & r & Hi & Hr & Hglobal).
  pose proof (update_unique e id name desc l d Hu) as Hu'. rewrite Hup in Hu'. cbn [fst] in Hu'.
  apply update_inv in Hup as (i' & r' & m & Hi' & Hr' & Hm & ->). assert (i' = i) as -> by congruence.
  assert (r' = r) as -> by congruence. destruct (insert_grants_spec _ _ _ _ _ Hm) as [Hother Hown].
  set (d' := with_grants _ _) in *. exists (viewable d' i). split_and!.
  - unfold EffectivePages. cbv zeta. rewrite bool_decide_eq_false_2, bool_decide_eq_false_2 by done. cbn [orb].
    rewrite exec_bind. cbn [query stmt exec fst snd]. rewrite Hok0.
    pose proof (select_head (order e') (global_named (TrimSpace (ToLower role))) (roles d')) as Hh.
    assert (Hrow : roles d' !! i = Some (rename (TrimSpace name) (TrimSpace desc) (db_now e) r)) by apply lookup_insert_eq.
    destruct (head _) as [[j rj]|].
    + destruct Hh as [Hj Hg]. unfold global_named in Hg. apply andb_true_iff in Hg as [Hg1 Hg2%bool_decide_eq_true].
      assert (j = i) as ->; [|cbn [exec query stmt fst snd]; by rewrite Hok1].
      apply (unique_names _ Hu' j i rj _ Hj Hrow); [|cbn; congruence]. cbn. rewrite Hglobal. by destruct (r_org rj).
    + exfalso. specialize (Hh i _ Hrow). unfold global_named in Hh. cbn in Hh. rewrite Hglobal in Hh. cbn in Hh.
      by rewrite bool_decide_eq_true_2 in Hh.
  - intros slug. rewrite elem_of_viewable. cbn [grants with_grants d']. split.
    + intros (ed & Hv). apply Hown in Hv as [Hold|(g & Hin & Hg & Hs & _)]; [|by exists g].
      apply map_lookup_filter_Some in Hold as [_ Hold]. done.
    + intros (g & Hin & Hs & Hg). exists (CanEdit g). apply Hown. right. by exists g.
  - intros i' j slug Hi2 Hj. assert (i' = i) as -> by congruence. cbn. rewrite Hother by done.
    unfold without_role. apply option_eq. intros v. rewrite map_lookup_filter_Some. split; [by intros []|done].
Qed.

End Laws.

(** ** Witnesses, and requests that overlap *)

Definition demo_uuid (s : string) : option string := if bool_decide (TrimSpace s = "") then None else Some s.
Definition demo_env (id : string) : env := mkEnv id 7 (λ _, true) canonical_order.
Definition demo_role : role_row := mkRoleRow None "Auditor" "" true None 0.
Definition demo_db : DB :=
  mkDB {["r1" := demo_role]} ∅ {["logs" := mkPageRow "Logs" "Dashboard" 20; "audit" := mkPageRow "Audit" "Administration" 220]} ∅ ∅.
Definition demo_create (id : string) : call := CCreate (demo_env id) "" (Some (mkCreate "Analyst" "global" "")).
Definition demo_grants : list PageGrant := [mkGrant "logs" false true; mkGrant "audit" false false].

Lemma demo_unique : names_unique demo_uuid demo_db.
Proof.
  split; cbn.
  - intros i j r r' [<- _]%lookup_singleton_Some [<- _]%lookup_singleton_Some. done.
  - by apply lookup_singleton_ne.
  - intros i r o [_ <-]%lookup_singleton_Some. done.
Qed.
Lemma demo_canonical s c : demo_uuid s = Some c → demo_uuid c = Some c.
Proof. unfold demo_uuid. case_bool_decide; [done|]. intros [= <-]. by rewrite bool_decide_eq_false_2. Qed.
Lemma demo_nonblank s c : demo_uuid s = Some c → TrimSpace s ≠ "".
Proof. unfold demo_uuid. by case_bool_decide. Qed.

Lemma system_roles_stay_witness :
  system_role "r1" (data (schedule (serve demo_uuid) demo_db [CDelete (demo_env "") "r1"; demo_create "r2"] [0; 1; 1])).
Proof.
  apply (system_roles_stay demo_uuid "r1" demo_db); [by exists demo_role|apply schedule_reachable].
Defined.
Lemma role_names_unique_witness : names_unique demo_uuid (fst (exec (serve demo_uuid (demo_create "r2")) demo_db)).
Proof. apply role_names_unique; [by vm_compute|exact demo_canonical|exact demo_nonblank|done|exact demo_unique]. Defined.
Lemma pages_follow_grants_witness :
  ∃ shown, snd (exec (EffectivePages (demo_env "") "auditor") (fst (exec (UpdateRole demo_uuid (demo_env "") "r1" "Auditor" "" demo_grants) demo_db)))
      = Some (true, shown) ∧ "logs" ∈ shown ∧ "audit" ∉ shown.
Proof.
  destruct (exec (UpdateRole demo_uuid (demo_env "") "r1" "Auditor" "" demo_grants) demo_db) as [d' res] eqn:Hup.
  assert (Hok : res = Ok tt) by (change res with (snd (d', res)); rewrite <- Hup; by vm_compute). rewrite Hok in Hup.
  destruct (pages_follow_grants demo_uuid demo_nonblank (demo_env "") "r1" "Auditor" "" demo_grants
    demo_db d' (demo_env "") "auditor" demo_unique Hup) as (shown & Hs & Hin & _); try done.
  { by exists "r1", demo_role. }
  cbn [fst]. rewrite Hs. exists shown. split_and!; [done| |].
  - apply Hin. exists (mkGrant "logs" false true). split; [apply list_elem_of_here|done].
  - rewrite Hin. intros (g & Hg & Hsl & Hgr). unfold demo_grants in Hg. rewrite !elem_of_cons, elem_of_nil in Hg.
    destruct Hg as [->|[->|[]]]; done.
Defined.

(** The check of the name and the insertion are two statements: of two requests that overlap
    both find the name free, and both roles are created. *)
Example overlapping_creations :
  let s := schedule (serve demo_uuid) demo_db [demo_create "r2"; demo_create "r3"] [0; 1; 0; 1] in
  snd <$> requests s = [Ret (GCreated "r2"); Ret (GCreated "r3")]
  ∧ r_name <$> roles (data s) !! "r2" = Some "Analyst" ∧ r_name <$> roles (data s) !! "r3" = Some "Analyst".
Proof. split_and!; by vm_compute. Qed.

End Rbac.
