(* ===== verification/Validation.v ===== *)
(** * The validation engine

    [src/internal/validation/engine.go] and [src/internal/api/handlers/validation_handler.go]:
    test environments that come up in the background and live for a limited time, and test
    runs against them.

    A step is a section under one lock; requests interleave at these steps ([Interleave]).
    The goroutine an environment starts is part of its state ([worker]) and advances by ticks.
    Its [select] takes either branch when both are ready: [cancel_wins] is the choice. *)

From S2P Require Import Prelude GoStrings Interleave Calls.
#[local] Open Scope string_scope.
#[local] Open Scope nat_scope.
#[local] Open Scope list_scope.

Module Validation.
Import GoStrings Interleave.

Definition ContainerNone : string := "none".
Definition ContainerProvisioning : string := "provisioning".
Definition ContainerReady : string := "ready".
Definition ContainerTesting : string := "testing".
Definition ContainerDestroying : string := "destroying".
Definition ContainerDestroyed : string := "destroyed".
Definition SeverityCritical : string := "critical".
Definition SeverityHigh : string := "high".
Definition SeverityMedium : string := "medium".
Definition SeverityLow : string := "low".
Definition StatusIdle : string := "idle".
Definition StatusPassed : string := "passed".

Record ContainerService := mkService {
  sv_Name : string;
  sv_Image : string;
  sv_Port : Z;
  sv_Status : string;
  sv_Purpose : string;
  sv_NetworkID : string;
}.
(** Where the goroutine of an environment is: before the service with that index, before it
    announces the environment as ready, waiting for the end of its life, returned. *)
Inductive worker := Starting (i : nat) | Announcing | Waiting | Returned.
Record TestEnvironment := mkEnvironment {
  v_ID : string;
  v_State : string;
  v_Services : list ContainerService;
  v_StartedAt : Z;
  v_TTLSeconds : Z;
  v_Network : string;
  v_cancelled : bool;
  v_worker : worker;
}.
Record TestCase := mkTest {
  tc_ID : string;
  tc_Name : string;
  tc_Description : string;
  tc_Category : string;
  tc_Severity : string;
  tc_Technique : string;
  tc_Status : string;
  tc_DurationMs : option Z;
  tc_ResultDetail : string;
  tc_Services : list string;
}.
Record TestCategory := mkCategory {
  ct_ID : string;
  ct_Name : string;
  ct_Description : string;
  ct_Source : string;
  ct_Tests : list TestCase;
}.
Record RunSummary := mkSummary { Total : Z; Passed : Z; Failed : Z; Warnings : Z; Skipped : Z }.
Record TestRunResult := mkRun {
  rn_RunID : string;
  rn_EnvID : string;
  rn_StartedAt : Z;
  rn_FinishedAt : Z;
  rn_Categories : list TestCategory;
  rn_Summary : RunSummary;
}.

(** ** The catalog *)

Definition service (name image : string) (port : Z) (purpose : string) : ContainerService :=
  mkService name image port "pending" purpose "".
Definition DefaultServices : list ContainerService :=
  [
   service "malware-host" "apexaegis/test-malware-host:latest" 8081 "Serves EICAR & simulated malware samples";
   service "phishing-server" "apexaegis/test-phish-sim:latest" 8082 "Simulates phishing page & credential harvest";
   service "c2-callback" "apexaegis/test-c2-beacon:latest" 8083 "Simulates C2 callback & DNS tunneling";
   service "ransomware-sim" "apexaegis/test-ransom-sim:latest" 8084 "Simulates ransomware behavior indicators";
   service "vuln-webapp" "apexaegis/test-owasp-app:latest" 8085 "OWASP Top 10 vulnerable web application";
   service "ddos-gen" "apexaegis/test-ddos-gen:latest" 8086 "Generates DDoS traffic patterns at low volume";
   service "dns-tunnel" "apexaegis/test-dns-tunnel:latest" 5353 "DNS tunneling & exfiltration test server";
   service "sandbox-payloads" "apexaegis/test-sandbox:latest" 8087 "Serves sandbox evasion & detonation payloads";
   service "exploit-server" "apexaegis/test-exploit-srv:latest" 8088 "Serves exploit kits & drive-by downloads";
   service "data-exfil" "apexaegis/test-exfil:latest" 8089 "DLP exfiltration endpoint (HTTP/DNS/ICMP)"
  ].
Definition test (id name description category severity technique : string) (services : list string) : TestCase :=
  mkTest id name description category severity technique StatusIdle None "" services.
Definition DefaultTestCategories : list TestCategory :=
  [
   mkCategory "checkme" "AegisValidate — Security CheckUp"
     "Simulate cyber-attacks (malware, phishing, ransomware) to verify security solutions block threats correctly"
     "AegisValidate" [
      test "CM-01" "EICAR Anti-Malware Download"
        "Download EICAR test file through gateway to verify malware blocking"
        "checkme" SeverityCritical "T1204.002" ["malware-host"];
      test "CM-02" "Phishing Page Detection"
        "Attempt to load a simulated phishing page and verify it is blocked"
        "checkme" SeverityCritical "T1566.002" ["phishing-server"];
      test "CM-03" "Ransomware Behavior Simulation"
        "Simulate ransomware file encryption patterns and verify detection"
        "checkme" SeverityCritical "T1486" ["ransomware-sim"];
      test "CM-04" "C2 Callback Attempt"
        "Attempt outbound C2 beacon callback to test DNS/HTTP blocking"
        "checkme" SeverityCritical "T1071.001" ["c2-callback"];
      test "CM-05" "Exploit Kit Landing Page"
        "Load simulated exploit kit landing page and verify blocking"
        "checkme" SeverityHigh "T1189" ["exploit-server"];
      test "CM-06" "Cryptomining Script Detection"
        "Load page with cryptomining JavaScript and verify blocking"
        "checkme" SeverityMedium "T1496" ["vuln-webapp"]];
   mkCategory "threatcloud" "AegisThreat AI Validation"
     "Validate AI-driven intelligence engine: real-time malware analysis, sandbox static analysis, zero-day phishing behavioral detection"
     "AegisThreat AI" [
      test "TC-01" "AI Malware Classification"
        "Submit polymorphic malware variant to verify real-time AI classification"
        "threatcloud" SeverityCritical "T1027" ["malware-host"; "sandbox-payloads"];
      test "TC-02" "Sandbox Static Analysis"
        "Submit PE with obfuscated payload for static analysis detonation"
        "threatcloud" SeverityCritical "" ["sandbox-payloads"];
      test "TC-03" "Zero-Day Phishing Detection"
        "Test behavioral analysis against never-before-seen phishing page"
        "threatcloud" SeverityHigh "T1566.003" ["phishing-server"];
      test "TC-04" "DNS Tunneling Detection"
        "Attempt DNS-over-HTTPS tunneling and verify AI detection"
        "threatcloud" SeverityHigh "T1572" ["dns-tunnel"]];
   mkCategory "mitre-endpoint" "MITRE ATT&CK Endpoint Validation"
     "Advanced Threat Protection validated against MITRE ATT&CK framework — target 100% detection coverage"
     "AegisEndpoint" [
      test "ME-01" "Initial Access — Spearphishing Link"
        "Simulate spearphishing link click and payload delivery"
        "mitre-endpoint" SeverityCritical "T1566.002" ["phishing-server"; "malware-host"];
      test "ME-02" "Execution — PowerShell Cradle"
        "Simulate PowerShell download cradle execution"
        "mitre-endpoint" SeverityCritical "T1059.001" ["c2-callback"];
      test "ME-03" "Persistence — Registry Run Key"
        "Simulate registry persistence mechanism creation"
        "mitre-endpoint" SeverityHigh "T1547.001" ["malware-host"];
      test "ME-04" "Defense Evasion — Process Injection"
        "Simulate process injection technique"
        "mitre-endpoint" SeverityCritical "T1055" ["sandbox-payloads"];
      test "ME-05" "Lateral Movement — Pass the Hash"
        "Simulate pass-the-hash lateral movement"
        "mitre-endpoint" SeverityCritical "T1550.002" ["exploit-server"];
      test "ME-06" "Exfiltration — DNS Exfiltration"
        "Attempt data exfiltration via DNS queries"
        "mitre-endpoint" SeverityHigh "T1048.003" ["dns-tunnel"; "data-exfil"]];
   mkCategory "waf-owasp" "AegisWAF (OWASP Top 10)"
     "Validate web application & API security with AI anomaly detection — SQL injection, XSS, SSRF"
     "AegisWAF" [
      test "WF-01" "SQL Injection (A03:2021)"
        "Attempt SQL injection via query parameter and POST body"
        "waf-owasp" SeverityCritical "OWASP A03" ["vuln-webapp"];
      test "WF-02" "Cross-Site Scripting — Reflected"
        "Inject reflected XSS payload via URL parameter"
        "waf-owasp" SeverityHigh "OWASP A03" ["vuln-webapp"];
      test "WF-03" "Broken Access Control (A01:2021)"
        "Attempt IDOR and privilege escalation via API"
        "waf-owasp" SeverityCritical "OWASP A01" ["vuln-webapp"];
      test "WF-04" "SSRF (A10:2021)"
        "Attempt server-side request forgery via URL parameter"
        "waf-owasp" SeverityCritical "OWASP A10" ["vuln-webapp"]];
   mkCategory "ddos-protection" "AegisShield DDoS Protector"
     "Automated DDoS protection validation — high-volume network layer attack handling"
     "AegisShield DDoS" [
      test "DD-01" "SYN Flood Mitigation"
        "Generate controlled SYN flood and verify mitigation"
        "ddos-protection" SeverityCritical "" ["ddos-gen"];
      test "DD-02" "UDP Amplification Attack"
        "Simulate DNS amplification attack and verify rate limiting"
        "ddos-protection" SeverityCritical "" ["ddos-gen"];
      test "DD-03" "Legitimate Traffic During Attack"
        "Verify legitimate requests served while mitigation is active"
        "ddos-protection" SeverityCritical "" ["ddos-gen"; "vuln-webapp"]];
   mkCategory "ctem" "CTEM (Cyber Threat Exposure Management)"
     "Runtime security analysis — identify which vulnerabilities are actually exploitable in production"
     "AegisCTEM" [
      test "CT-01" "Runtime Exploitability Check"
        "Cross-reference CVEs with runtime container/process state"
        "ctem" SeverityCritical "" ["vuln-webapp"];
      test "CT-02" "Attack Surface Enumeration"
        "Map exposed services, open ports, and API endpoints"
        "ctem" SeverityHigh "" ["vuln-webapp"; "exploit-server"]];
   mkCategory "assessment" "Testing & Assessment Services"
     "Compromise assessment, penetration testing, and AegisSandbox threat emulation"
     "Professional Services" [
      test "AS-01" "Compromise Assessment — Hidden Infection Scan"
        "Scan for active hidden infections, dormant backdoors, and beaconing"
        "assessment" SeverityCritical "" ["c2-callback"; "dns-tunnel"];
      test "AS-02" "Network Penetration Test"
        "Simulate sophisticated network-level attack"
        "assessment" SeverityCritical "" ["exploit-server"; "vuln-webapp"];
      test "AS-03" "Threat Emulation (AegisSandbox)"
        "Execute file in virtual sandbox — detect zero-day malicious behavior"
        "assessment" SeverityCritical "" ["sandbox-payloads"]];
   mkCategory "aegis-av" "Antivirus & IPS Verification"
     "AV profile testing and IPS signature verification"
     "AegisAV/IPS" [
      test "AV-01" "AV Profile — HTTPS EICAR (SSL Inspection)"
        "Download EICAR via HTTPS through SSL inspection and verify block"
        "aegis-av" SeverityCritical "" ["malware-host"];
      test "AV-02" "IPS Signature Match — ShellShock"
        "Send ShellShock exploit headers to verify IPS signature match"
        "aegis-av" SeverityCritical "" ["vuln-webapp"];
      test "AV-03" "DLP — Credit Card Number Exfiltration"
        "Attempt to POST PCI test credit card numbers and verify DLP block"
        "aegis-av" SeverityHigh "" ["data-exfil"]]
  ].

(** ** Environments *)

Record Engine := mkEngine { environments : gmap string TestEnvironment; runs : gmap string TestRunResult }.
Definition NewEngine : Engine := mkEngine ∅ ∅.
Definition with_env (s : Engine) (env : TestEnvironment) : Engine := mkEngine (<[v_ID env := env]> (environments s)) (runs s).
Definition update (s : Engine) (id : string) (f : TestEnvironment → TestEnvironment) : Engine :=
  mkEngine (alter f id (environments s)) (runs s).

Definition set_state (st : string) (v : TestEnvironment) : TestEnvironment :=
  mkEnvironment (v_ID v) st (v_Services v) (v_StartedAt v) (v_TTLSeconds v) (v_Network v) (v_cancelled v) (v_worker v).
Definition set_worker (w : worker) (v : TestEnvironment) : TestEnvironment :=
  mkEnvironment (v_ID v) (v_State v) (v_Services v) (v_StartedAt v) (v_TTLSeconds v) (v_Network v) (v_cancelled v) w.
Definition set_services (l : list ContainerService) (v : TestEnvironment) : TestEnvironment :=
  mkEnvironment (v_ID v) (v_State v) l (v_StartedAt v) (v_TTLSeconds v) (v_Network v) (v_cancelled v) (v_worker v).
Definition set_cancelled (v : TestEnvironment) : TestEnvironment :=
  mkEnvironment (v_ID v) (v_State v) (v_Services v) (v_StartedAt v) (v_TTLSeconds v) (v_Network v) true (v_worker v).

Definition started (network : string) (s : ContainerService) : ContainerService :=
  mkService (sv_Name s) (sv_Image s) (sv_Port s) "running" (sv_Purpose s) network.
Definition stopped (s : ContainerService) : ContainerService :=
  mkService (sv_Name s) (sv_Image s) (sv_Port s) "stopped" (sv_Purpose s) (sv_NetworkID s).

Definition clamp_ttl (ttl : Z) : Z := if (ttl <=? 0)%Z || (3600 <? ttl)%Z then 900 else ttl.
(** [id] and [now] are what the random source and the clock give. *)
Definition provisioned (id : string) (now ttl : Z) : TestEnvironment :=
  let envID := "test-env-" +:+ id in
  mkEnvironment envID ContainerProvisioning DefaultServices now (clamp_ttl ttl) ("apexaegis-test-" +:+ envID) false (Starting 0).
Definition ProvisionEnvironment (id : string) (now ttl : Z) : prog Engine TestEnvironment :=
  stmt (λ s, let env := provisioned id now ttl in (with_env s env, env)).

(** The section of [DestroyEnvironment] under the lock of the environment. *)
Definition destroy (v : TestEnvironment) : TestEnvironment :=
  if bool_decide (v_State v = ContainerDestroying) || bool_decide (v_State v = ContainerDestroyed) then v
  else set_state ContainerDestroyed (set_services (stopped <$> v_Services v) (set_cancelled v)).
Definition not_found (envID : string) : string := "environment " +:+ envID +:+ " not found".
Definition DestroyEnvironment (envID : string) : prog Engine (result string unit) :=
  bind (query (λ s, bool_decide (is_Some (environments s !! envID)))) (λ found,
    if found then stmt (λ s, (update s envID destroy, Ok tt)) else Ret (Err (not_found envID))).

(** One step of the goroutine. *)
Definition advance_worker (cancel_wins : bool) (v : TestEnvironment) : TestEnvironment :=
  match v_worker v with
  | Starting i =>
      if v_cancelled v && cancel_wins then set_worker Returned v
      else
        set_worker (if S i <? length (v_Services v) then Starting (S i) else Announcing)
          (set_services (alter (started (v_Network v)) i (v_Services v)) v)
  | Announcing => set_worker Waiting (set_state ContainerReady v)
  | Waiting => if v_cancelled v && cancel_wins then set_worker Returned v else set_worker Returned (destroy v)
  | Returned => v
  end.
Definition tick (envID : string) (cancel_wins : bool) : prog Engine unit :=
  stmt (λ s, (update s envID (advance_worker cancel_wins), tt)).

(** ** Test runs *)

Definition selected (categoryIDs : list string) : list TestCategory :=
  List.filter (λ c, bool_decide (categoryIDs = []) || bool_decide (ct_ID c ∈ categoryIDs)) DefaultTestCategories.
Definition passed (total : Z) (t : TestCase) : TestCase :=
  mkTest (tc_ID t) (tc_Name t) (tc_Description t) (tc_Category t) (tc_Severity t) (tc_Technique t) StatusPassed
    (Some (200 + total * 50)%Z) "Threat blocked by gateway security profile" (tc_Services t).
(** The loops, with the number of tests so far. *)
Fixpoint grade_tests (total : Z) (l : list TestCase) : list TestCase * Z :=
  match l with
  | [] => ([], total)
  | t :: l => let total := (total + 1)%Z in let '(k, n) := grade_tests total l in (passed total t :: k, n)
  end.
Fixpoint grade (total : Z) (l : list TestCategory) : list TestCategory * Z :=
  match l with
  | [] => ([], total)
  | c :: l =>
      let '(ts, n) := grade_tests total (ct_Tests c) in
      let '(k, m) := grade n l in
      (mkCategory (ct_ID c) (ct_Name c) (ct_Description c) (ct_Source c) ts :: k, m)
  end.
Definition run_result (id envID : string) (t0 t1 : Z) (categoryIDs : list string) : TestRunResult :=
  let '(cats, total) := grade 0 (selected categoryIDs) in
  mkRun ("run-" +:+ id) envID t0 t1 cats (mkSummary total total 0 0 0).

Definition wrong_state (envID st : string) : string :=
  "environment " +:+ envID +:+ " is in state " +:+ st +:+ ", expected ready".
Definition testable (st : string) : bool := bool_decide (st = ContainerReady) || bool_decide (st = ContainerTesting).
(** The message of the second error reads the state again, after the lock is released. *)
Definition RunTests (id envID : string) (t0 t1 : Z) (categoryIDs : list string) : prog Engine (result string TestRunResult) :=
  bind (query (λ s, bool_decide (is_Some (environments s !! envID)))) (λ found,
    if negb found then Ret (Err (not_found envID))
    else
      bind (query (λ s, match environments s !! envID with Some v => v_State v | None => "" end)) (λ st,
        if negb (testable st) then
          bind (query (λ s, match environments s !! envID with Some v => v_State v | None => "" end)) (λ st,
            Ret (Err (wrong_state envID st)))
        else
          bind (stmt (λ s, (update s envID (set_state ContainerTesting), tt))) (λ _,
            let result := run_result id envID t0 t1 categoryIDs in
            bind (stmt (λ s, (update s envID (set_state ContainerReady), tt))) (λ _,
              stmt (λ s, (mkEngine (environments s) (<[rn_RunID result := result]> (runs s)), Ok result)))))).

Definition GetEnvironment (s : Engine) (envID : string) : option TestEnvironment := environments s !! envID.
Definition GetRun (s : Engine) (runID : string) : option TestRunResult := runs s !! runID.
Definition ListEnvironments (ro : range_order) (s : Engine) : list TestEnvironment := values ro (environments s).

(** ** The policy preview *)

Record PolicySimulationRequest := mkSimRequest {
  q_URL : string; q_Domain : string; q_SourceIP : string; q_DestIP : string; q_User : string; q_Group : string;
  q_Protocol : string; q_Port : string; q_Application : string;
}.
Record ProfileMatch := mkProfileMatch { pm_Type : string; pm_Name : string; pm_Verdict : string; pm_Detail : string }.
Record PolicyMatch := mkPolicyMatch {
  m_PolicyID : string; m_PolicyName : string; m_Action : string; m_Order : Z; m_Criteria : list string; m_Profiles : list ProfileMatch;
}.
Record ThreatIntelInfo := mkIntel { ReputationScore : Z; ti_Categories : list string; KnownMalicious : bool; ti_LastSeen : string }.
Record PolicySimulationResult := mkSimResult {
  FinalAction : string; MatchedPolicies : list PolicyMatch; ThreatIntel : ThreatIntelInfo; URLCategory : string;
  CloudAppRisk : string; SGTClass : string; TotalEvalMs : Z;
}.
(** [ms] is the time the evaluation took. *)
Definition SimulatePolicy (ms : Z) (req : PolicySimulationRequest) : PolicySimulationResult :=
  mkSimResult "allow"
    [mkPolicyMatch "POL-DEFAULT" "Default Allow" "allow" 999
       ["User: " +:+ q_User req; "Protocol: " +:+ q_Protocol req]
       [mkProfileMatch "DNS Filter" "Default" "pass" "Domain not in any blocklist";
        mkProfileMatch "Web Filter" "Default" "pass" "URL category allowed";
        mkProfileMatch "ATP" "Default" "pass" "No known threat signature";
        mkProfileMatch "SSL Inspection" "Default" "inspect" "SSL interception active"]]
    (mkIntel 50 ["Uncategorized"] false "") "Uncategorized" "" "" ms.

(** ** The handlers *)

Inductive reply :=
| VErr (status : Z) (msg : string)
| VCategories (l : list TestCategory)
| VEnvironment (status : Z) (v : TestEnvironment)
| VEnvironments (l : list TestEnvironment)
| VDestroyed
| VRun (r : TestRunResult)
| VSimulated (r : PolicySimulationResult)
| VNone.

Definition ListTests : prog Engine reply := Ret (VCategories DefaultTestCategories).
Definition ProvisionEnvironment_ (id : string) (now : Z) (body : option Z) : prog Engine reply :=
  bind (ProvisionEnvironment id now (default 900%Z body)) (λ v, Ret (VEnvironment 201 v)).
Definition GetEnvironmentStatus (envID : string) : prog Engine reply :=
  query (λ s, match GetEnvironment s envID with Some v => VEnvironment 200 v | None => VErr 404 "environment not found" end).
Definition DestroyEnvironment_ (envID : string) : prog Engine reply :=
  bind (DestroyEnvironment envID) (λ r, Ret (match r with Ok _ => VDestroyed | Err m => VErr 404 m end)).
Definition RunTests_ (id envID : string) (t0 t1 : Z) (body : option (list string)) : prog Engine reply :=
  match body with
  | None => Ret (VErr 400 "categories required")
  | Some cats => bind (RunTests id envID t0 t1 cats) (λ r, Ret (match r with Ok r => VRun r | Err m => VErr 400 m end))
  end.
Definition GetRunResult (runID : string) : prog Engine reply :=
  query (λ s, match GetRun s runID with Some r => VRun r | None => VErr 404 "run not found" end).
Definition ListEnvironments_ (ro : range_order) : prog Engine reply := query (λ s, VEnvironments (ListEnvironments ro s)).
Definition SimulatePolicy_ (ms : Z) (body : option PolicySimulationRequest) : prog Engine reply :=
  Ret (match body with Some req => VSimulated (SimulatePolicy ms req) | None => VErr 400 "invalid simulation input" end).

(** Requests, and the steps of the goroutines. *)
Inductive call :=
| CTests
| CProvision (id : string) (now : Z) (body : option Z)
| CStatus (envID : string)
| CDestroy (envID : string)
| CRun (id envID : string) (t0 t1 : Z) (body : option (list string))
| CResult (runID : string)
| CList (ro : range_order)
| CSimulate (ms : Z) (body : option PolicySimulationRequest)
| CTick (envID : string) (cancel_wins : bool).
Definition serve (c : call) : prog Engine reply :=
  match c with
  | CTests => ListTests
  | CProvision id now body => ProvisionEnvironment_ id now body
  | CStatus envID => GetEnvironmentStatus envID
  | CDestroy envID => DestroyEnvironment_ envID
  | CRun id envID t0 t1 body => RunTests_ id envID t0 t1 body
  | CResult runID => GetRunResult runID
  | CList ro => ListEnvironments_ ro
  | CSimulate ms body => SimulatePolicy_ ms body
  | CTick envID cancel_wins => bind (tick envID cancel_wins) (λ _, Ret VNone)
  end.
(** A call that no other overlaps. *)
Definition alone (s : Engine) (c : call) : Engine * reply := exec (serve c) s.

(** ** An environment comes up and is tested *)

Definition all_tests (l : list TestCategory) : list TestCase := flat_map ct_Tests l.
Lemma grade_tests_spec total l :
  snd (grade_tests total l) = (total + Z.of_nat (length l))%Z ∧ tc_ID <$> fst (grade_tests total l) = tc_ID <$> l
  ∧ Forall (λ t, tc_Status t = StatusPassed) (fst (grade_tests total l)).
Proof.
  revert total. induction l as [|t l IH]; intros total; [cbn; split_and!; [lia|done|done]|].
  cbn [grade_tests]. specialize (IH (total + 1)%Z). destruct (grade_tests (total + 1)%Z l) as [k n]. cbn in *.
  destruct IH as (-> & -> & IH). split_and!; [lia|done|by constructor].
Qed.
Lemma grade_spec total l :
  snd (grade total l) = (total + Z.of_nat (length (all_tests l)))%Z
  ∧ ct_ID <$> fst (grade total l) = ct_ID <$> l
  ∧ tc_ID <$> all_tests (fst (grade total l)) = tc_ID <$> all_tests l
  ∧ Forall (λ t, tc_Status t = StatusPassed) (all_tests (fst (grade total l))).
Proof.
  revert total. induction l as [|c l IH]; intros total; [cbn; split_and!; [lia|done..]|]. cbn [grade].
  destruct (grade_tests_spec total (ct_Tests c)) as (H1 & H2 & H3). destruct (grade_tests total (ct_Tests c)) as [ts n].
  specialize (IH n). destruct (grade n l) as [k m]. cbn in *. destruct IH as (-> & I2 & I3 & I4). rewrite H1.
  unfold all_tests in *. split_and!; [rewrite length_app; lia|by rewrite I2|by rewrite !fmap_app, H2, I3|by apply Forall_app].
Qed.
Definition coherent (r : TestRunResult) : Prop :=
  rn_Summary r = mkSummary (Z.of_nat (length (all_tests (rn_Categories r)))) (Z.of_nat (length (all_tests (rn_Categories r)))) 0 0 0
  ∧ Forall (λ t, tc_Status t = StatusPassed) (all_tests (rn_Categories r)).
Lemma run_result_spec id envID t0 t1 cats :
  let r := run_result id envID t0 t1 cats in
  coherent r ∧ rn_EnvID r = envID ∧ rn_RunID r = "run-" +:+ id
  ∧ ct_ID <$> rn_Categories r = ct_ID <$> selected cats
  ∧ tc_ID <$> all_tests (rn_Categories r) = tc_ID <$> all_tests (selected cats).
Proof.
  unfold run_result. generalize (selected cats). intros sel. destruct (grade_spec 0 sel) as (H1 & H2 & H3 & H4).
  destruct (grade 0 sel) as [k m]. cbn [fst snd] in *. split_and!; [split; [|done]|done|done|done|done]. cbn. rewrite H1, Z.add_0_l.
  assert (Hl : length (all_tests sel) = length (all_tests k)) by (rewrite <- (length_fmap tc_ID), <- H3; apply length_fmap).
  by rewrite Hl.
Qed.

(** The goroutine, not cancelled, over the services that are left. *)
Lemma ticks_start n v i b : v_worker v = Starting i → v_cancelled v = false → i + n = length (v_Services v) → 0 < n →
  let w := Nat.iter n (advance_worker b) v in
  v_worker w = Announcing ∧ v_cancelled w = false ∧ v_State w = v_State v ∧ v_ID w = v_ID v.
Proof.
  revert v i. induction n as [|n IH]; intros v i Hw Hc Hn Hpos; [lia|].
  rewrite Nat.iter_succ_r. set (v1 := advance_worker b v).
  assert (E : v1 = set_worker (if S i <? length (v_Services v) then Starting (S i) else Announcing)
          (set_services (alter (started (v_Network v)) i (v_Services v)) v)) by (subst v1; unfold advance_worker; by rewrite Hw, Hc).
  destruct n as [|n].
  - change (Nat.iter 0 _ v1) with v1. rewrite E.
    replace (S i <? length (v_Services v)) with false by (symmetry; apply Nat.ltb_ge; lia). done.
  - destruct (IH v1 (S i)) as (H1 & H2 & H3 & H4).
    + rewrite E. by replace (S i <? length (v_Services v)) with true by (symmetry; apply Nat.ltb_lt; lia).
    + by rewrite E.
    + rewrite E. cbn. rewrite length_alter. lia.
    + lia.
    + split_and!; [done|done|rewrite H3; by rewrite E|rewrite H4; by rewrite E].
Qed.
Lemma ticks_env n s envID b v : environments s !! envID = Some v →
  environments (Calls.after alone s (replicate n (CTick envID b))) !! envID = Some (Nat.iter n (advance_worker b) v).
Proof.
  revert s v. induction n as [|n IH]; intros s v Hv; [done|]. rewrite Nat.iter_succ_r. cbn [replicate].
  rewrite Calls.after_cons. apply IH. cbn. by rewrite lookup_alter_eq, Hv.
Qed.

Lemma run_alone s rid envID t0 t1 cats v : environments s !! envID = Some v → testable (v_State v) = true →
  let r := run_result rid envID t0 t1 cats in
  let ready := update (update s envID (set_state ContainerTesting)) envID (set_state ContainerReady) in
  alone s (CRun rid envID t0 t1 (Some cats)) = (mkEngine (environments ready) (<[rn_RunID r := r]> (runs s)), VRun r).
Proof.
  intros Hv Ht. unfold alone, serve, RunTests_, RunTests. rewrite exec_bind, exec_bind. cbn [query stmt exec fst snd].
  rewrite Hv, bool_decide_eq_true_2 by by eexists. cbn [negb]. rewrite exec_bind. cbn [query stmt exec fst snd].
  rewrite Hv, Ht. cbn [negb]. by rewrite !exec_bind.
Qed.

(** Environments come up and can be tested.  After a request for an environment and the
    steps of its goroutine, one for each of the ten services and one more, a test run against
    it succeeds; its result has exactly the tests of the selected categories, or of all when
    none is named, in their order, and can be fetched afterwards. *)
Theorem provision_then_test s id now body b rid t0 t1 cats :
  let envID := "test-env-" +:+ id in
  let s1 := Calls.after alone s (CProvision id now body :: replicate 11 (CTick envID b)) in
  ∃ s2 r, alone s1 (CRun rid envID t0 t1 (Some cats)) = (s2, VRun r)
    ∧ tc_ID <$> all_tests (rn_Categories r) = tc_ID <$> all_tests (selected cats) ∧ coherent r
    ∧ snd (alone s2 (CResult ("run-" +:+ rid))) = VRun r.
Proof.
  intros envID s1. assert (Hready : ∃ v, environments s1 !! envID = Some v ∧ v_State v = ContainerReady).
  { subst s1. rewrite Calls.after_cons. set (s0 := fst _).
    assert (H0 : environments s0 !! envID = Some (provisioned id now (default 900%Z body))) by apply lookup_insert_eq.
    rewrite (ticks_env 11 s0 envID b _ H0). eexists; split; [done|].
    change 11 with (S 10). rewrite Nat.iter_succ.
    destruct (ticks_start 10 (provisioned id now (default 900%Z body)) 0 b) as (H1 & _); [done|done|done|lia|].
    unfold advance_worker at 1. by rewrite H1. }
  destruct Hready as (v & Hv & Hst). destruct (run_result_spec rid envID t0 t1 cats) as (Hco & _ & Hid & _ & Hids).
  eexists _, (run_result rid envID t0 t1 cats). split; [apply (run_alone s1 _ _ _ _ _ v); [done|by rewrite Hst]|].
  split_and!; [done|done|]. rewrite <- Hid. unfold alone, serve, GetRunResult, GetRun. cbn [query stmt exec fst snd runs].
  by rewrite lookup_insert_eq.
Qed.

(** ** Consistency, whatever overlaps *)

Definition good_env (id : string) (v : TestEnvironment) : Prop :=
  v_ID v = id ∧ (0 < v_TTLSeconds v <= 3600)%Z ∧ sv_Name <$> v_Services v = sv_Name <$> DefaultServices.
Definition good_run (id : string) (r : TestRunResult) : Prop := rn_RunID r = id ∧ coherent r.
Definition good (s : Engine) : Prop := map_Forall good_env (environments s) ∧ map_Forall good_run (runs s).

Lemma clamp_ttl_bounds ttl : (0 < clamp_ttl ttl <= 3600)%Z.
Proof. unfold clamp_ttl. destruct (Z.leb_spec ttl 0); cbn; [lia|]. destruct (Z.ltb_spec 3600 ttl); cbn; lia. Qed.
Lemma good_with_env s id now ttl : good s → good (with_env s (provisioned id now ttl)).
Proof. intros [He Hr]. split; [|done]. apply map_Forall_insert_2; [|done]. split_and!; [done|apply clamp_ttl_bounds..|done]. Qed.
Lemma good_update s id f : (∀ v, good_env id v → good_env id (f v)) → good s → good (update s id f).
Proof.
  intros Hf [He Hr]. split; [|done]. intros k v. cbn. destruct (decide (k = id)) as [->|Hk].
  - rewrite lookup_alter_eq. intros (v0 & Hv & ->)%fmap_Some. apply Hf, (He _ _ Hv).
  - rewrite lookup_alter_ne by done. apply He.
Qed.
Lemma good_state id st v : good_env id v → good_env id (set_state st v).
Proof. done. Qed.
Lemma good_destroy id v : good_env id v → good_env id (destroy v).
Proof.
  intros (H1 & H2 & H3). unfold destroy. destruct (_ || _); [done|]. split_and!; [done|apply H2..|]. cbn.
  rewrite <- list_fmap_compose. exact H3.
Qed.
Lemma names_alter network (i : nat) (l : list ContainerService) : sv_Name <$> alter (started network) i l = sv_Name <$> l.
Proof. revert i. induction l as [|x l IH]; intros [|i]; cbn; [done|done|done|by rewrite IH]. Qed.
Lemma good_advance b id v : good_env id v → good_env id (advance_worker b v).
Proof.
  intros Hv. unfold advance_worker. destruct (v_worker v); [|done| |done].
  - destruct (v_cancelled v && b); [done|]. destruct Hv as (H1 & H2 & H3). split_and!; [done|apply H2..|]. cbn.
    by rewrite names_alter.
  - destruct (v_cancelled v && b); [done|]. by apply good_destroy.
Qed.
Lemma good_store s id envID t0 t1 cats r : r = run_result id envID t0 t1 cats → good s →
  good (mkEngine (environments s) (<[rn_RunID r := r]> (runs s))).
Proof.
  intros -> [He Hr]. split; [done|]. apply map_Forall_insert_2; [|done]. split; [done|].
  by destruct (run_result_spec id envID t0 t1 cats).
Qed.
#[local] Hint Resolve good_with_env good_update good_state good_destroy good_advance good_store : go.

Lemma run_keeps_good id envID t0 t1 cats : keeps good (RunTests id envID t0 t1 cats).
Proof.
  unfold RunTests. apply keeps_bind; [auto with go|]. intros [|]; cbn [negb]; [|constructor].
  apply keeps_bind; [auto with go|]. intros st. destruct (testable st); cbn [negb]; [|auto with go].
  apply keeps_bind; [apply keeps_one; cbn; eauto with go|]. intros _.
  apply keeps_bind; [apply keeps_one; cbn; eauto with go|]. intros _. apply keeps_one. intros s. by eapply good_store.
Qed.
Lemma serve_keeps_good c : keeps good (serve c).
Proof.
  destruct c as [|id now body|envID|envID|id envID t0 t1 [cats|]|runID|ro|ms body|envID b]; cbn [serve]; try apply keeps_query; try apply keeps_ret.
  - apply keeps_bind; [apply keeps_one; cbn; auto with go|constructor].
  - apply keeps_bind; [|constructor]. apply keeps_bind; [auto with go|]. intros [|]; [|constructor].
    apply keeps_one; cbn; eauto with go.
  - apply keeps_bind; [apply run_keeps_good|constructor].
  - apply keeps_bind; [apply keeps_one; cbn; eauto with go|constructor].
Qed.

(** The engine stays consistent.  Whatever requests and goroutines overlap, and however
    their locked sections interleave, every environment is stored under its own identifier,
    has the ten services of the catalog in order and lives between one second and one hour;
    every run is stored under its own identifier, and its summary counts exactly its tests. *)
Theorem engine_consistent s : rtc (istep serve) (mkPool NewEngine []) s → good (data s).
Proof. apply reachable_keeps; [apply serve_keeps_good|by split]. Qed.

(** ** What has been destroyed *)

Definition gone (v : TestEnvironment) : Prop :=
  v_State v = ContainerDestroyed ∧ v_cancelled v = true ∧ v_worker v ≠ Announcing ∧ Forall (λ s, sv_Status s = "stopped") (v_Services v).
(** Requests that do not reuse the identifier, and a goroutine that sees its cancellation. *)
Definition orderly (envID : string) (c : call) : Prop :=
  match c with
  | CProvision id _ _ => "test-env-" +:+ id ≠ envID
  | CTick id b => id = envID → b = true
  | _ => True
  end.
Lemma gone_destroy v : gone v → destroy v = v.
Proof. intros (H & _). unfold destroy. by rewrite H. Qed.
Lemma gone_advance v : gone v → gone (advance_worker true v).
Proof.
  intros Hg. unfold advance_worker. destruct Hg as (H1 & H2 & H3 & H4). rewrite H2.
  destruct (v_worker v) eqn:Hw; cbn [andb]; [|done| |]; split_and!; try done; by rewrite Hw.
Qed.
Lemma lookup_update s id envID f v : environments s !! envID = Some v →
  environments (update s id f) !! envID = Some (if decide (id = envID) then f v else v).
Proof. intros Hv. cbn. case_decide as E; [subst; by rewrite lookup_alter_eq, Hv|by rewrite lookup_alter_ne]. Qed.
Definition holds_gone (envID : string) (s : Engine) : Prop := ∃ v, environments s !! envID = Some v ∧ gone v.
Lemma refused_gone s id envID t0 t1 cats :
  match environments s !! envID with Some v => testable (v_State v) | None => false end = false →
  fst (exec (RunTests id envID t0 t1 cats) s) = s.
Proof.
  unfold RunTests. rewrite exec_bind. cbn [query stmt exec fst snd]. destruct (environments s !! envID) as [v|] eqn:Hv.
  - intros Ht. rewrite bool_decide_eq_true_2 by by eexists. cbn [negb]. rewrite exec_bind. cbn [query stmt exec fst snd].
    by rewrite Hv, Ht.
  - intros _. by rewrite bool_decide_eq_false_2 by by intros [??].
Qed.

Lemma update_keeps_gone id envID f s : (id = envID → ∀ v, gone v → gone (f v)) → holds_gone envID s → holds_gone envID (update s id f).
Proof.
  intros Hf (v & Hv & Hg). eexists. split; [by apply lookup_update|]. case_decide as E; [by apply Hf|done].
Qed.
Lemma other_run_keeps_gone id other envID t0 t1 cats : other ≠ envID → keeps (holds_gone envID) (RunTests id other t0 t1 cats).
Proof.
  intros Hne. unfold RunTests. apply keeps_bind; [auto with go|]. intros [|]; cbn [negb]; [|constructor].
  apply keeps_bind; [auto with go|]. intros st. destruct (testable st); cbn [negb]; [|auto with go].
  apply keeps_bind; [apply keeps_one; intros s; by apply update_keeps_gone|]. intros _.
  apply keeps_bind; [apply keeps_one; intros s; by apply update_keeps_gone|]. intros _. by apply keeps_one.
Qed.
Lemma alone_keeps_gone envID s c : orderly envID c → holds_gone envID s → holds_gone envID (fst (alone s c)).
Proof.
  intros Ho Hg. unfold alone.
  destruct c as [|id now body|other|other|id other t0 t1 [cats|]|runID|ro|ms body|other b]; cbn [serve]; try exact Hg.
  - destruct Hg as (v & Hv & Hg). exists v. split; [|done]. cbn. by rewrite lookup_insert_ne.
  - apply keeps_exec; [|done]. apply keeps_bind; [|constructor]. apply keeps_bind; [auto with go|]. intros [|]; [|constructor].
    apply keeps_one. intros s'. apply update_keeps_gone. intros _ v Hv. by rewrite gone_destroy.
  - unfold RunTests_. rewrite exec_bind. cbn [exec fst]. destruct (decide (other = envID)) as [->|Hne]; [|by apply keeps_exec; [apply other_run_keeps_gone|]].
    rewrite refused_gone; [done|]. destruct Hg as (v & -> & Hst & _). by rewrite Hst.
  - apply keeps_exec; [|done]. apply keeps_bind; [|constructor]. apply keeps_one. intros s'. apply update_keeps_gone.
    intros -> v Hv. rewrite Ho by done. by apply gone_advance.
Qed.

(** A destroyed environment stays destroyed.  When requests do not overlap, the goroutine of
    the environment is not between its last service and its announcement and sees that it is
    cancelled, then after a request to destroy it and any further requests the environment
    answers as destroyed, all of its services are stopped and no test runs against it. *)
Theorem destroyed_stays s envID v l rid t0 t1 cats :
  environments s !! envID = Some v → v_worker v ≠ Announcing → v_State v ≠ ContainerDestroying → v_State v ≠ ContainerDestroyed →
  Forall (orderly envID) l →
  let s1 := Calls.after alone s (CDestroy envID :: l) in
  (∃ w, snd (alone s1 (CStatus envID)) = VEnvironment 200 w ∧ v_State w = ContainerDestroyed
     ∧ Forall (λ x, sv_Status x = "stopped") (v_Services w))
  ∧ snd (alone s1 (CRun rid envID t0 t1 (Some cats))) = VErr 400 (wrong_state envID ContainerDestroyed).
Proof.
  intros Hv Hw Hs1 Hs2 Hl s1. assert (Hg : holds_gone envID s1).
  { subst s1. rewrite Calls.after_cons. apply Calls.run_keeps.
    - exists (destroy v). split.
      + unfold alone, serve, DestroyEnvironment_, DestroyEnvironment. rewrite exec_bind, exec_bind. cbn [query stmt exec fst snd].
        rewrite bool_decide_eq_true_2 by by eexists. cbn [stmt exec fst]. cbn. by rewrite lookup_alter_eq, Hv.
      + unfold destroy. rewrite !bool_decide_eq_false_2 by done. cbn [orb]. split_and!; [done|done|done|].
        apply Forall_fmap, Forall_true. done.
    - intros s' c Hin. apply alone_keeps_gone. by eapply list.Forall_forall. }
  destruct Hg as (w & Hw' & Hst & _ & _ & Hsv). split.
  - exists w. split_and!; [|done|done]. cbn. unfold GetEnvironment. by rewrite Hw'.
  - unfold alone, serve, RunTests_, RunTests. rewrite exec_bind, exec_bind. cbn [query stmt exec fst snd].
    rewrite bool_decide_eq_true_2 by by eexists. cbn [negb]. rewrite exec_bind. cbn [query stmt exec fst snd].
    rewrite Hw', Hst. change (testable ContainerDestroyed) with false. cbn [negb]. rewrite exec_bind. cbn [query stmt exec fst snd]. by rewrite Hw', Hst.
Qed.

Definition demo_env : string := "test-env-a".
Definition demo_engine : Engine := Calls.after alone NewEngine (CProvision "a" 0 None :: replicate 11 (CTick demo_env false)).
Lemma destroyed_stays_witness :
  snd (alone (Calls.after alone demo_engine (CDestroy demo_env :: [CTick demo_env true; CRun "r" demo_env 1 2 (Some [])]))
         (CRun "q" demo_env 3 4 (Some []))) = VErr 400 (wrong_state demo_env ContainerDestroyed).
Proof.
  eapply (destroyed_stays demo_engine demo_env); [vm_compute; reflexivity|vm_compute; discriminate..|].
  repeat constructor.
Defined.

(** Overlapping requests: a run checks the state, the environment is destroyed, the run goes
    on and marks it as ready again. *)
Example destroyed_returns :
  let s := schedule serve demo_engine [CRun "r" demo_env 1 2 (Some []); CDestroy demo_env] [0; 0; 1; 1; 0; 0; 0] in
  (requests s !! 1 = Some (CDestroy demo_env, Ret VDestroyed))
  ∧ (v_State <$> environments (data s) !! demo_env) = Some ContainerReady.
Proof. vm_compute. done. Qed.

Lemma engine_consistent_witness :
  good (data (schedule serve NewEngine [CProvision "a" 0 (Some 7200%Z); CTick demo_env false; CDestroy demo_env] [0; 2; 1; 2])).
Proof. apply engine_consistent, schedule_reachable. Defined.

End Validation.
