(* ===== verification/Sdn.v ===== *)
(** * Switches of branch offices

    [src/internal/sdn/manager.go] and [src/internal/api/handlers/sdn_handler.go]: the
    registered switches, their heartbeats and the configurations pushed to them.

    The manager maps identifiers to switch objects that requests share: [objects] is the
    store of all objects ever registered and [switches] refers to it.  A step is a section
    under the lock ([Interleave]).  [PushConfig] keeps its reference across a call to the
    switch, whose outcome is an argument; the fields it reads outside of the lock are never
    written after the registration and are read with the reference. *)

From S2P Require Import Prelude GoStrings Interleave.
#[local] Open Scope string_scope.
#[local] Open Scope nat_scope.
#[local] Open Scope list_scope.

Module Sdn.
Import GoStrings Interleave.

Record SwitchPort := mkPort {
  pt_ID : string; pt_Name : string; pt_Speed : string; pt_SGTAssign : string; pt_Mode : string; pt_POE : bool;
  pt_Dot1XAuth : bool; pt_MABEnabled : bool; pt_SGTInline : bool; pt_Status : string; pt_LinkState : string;
}.
Record SGTPortMapping := mkMapping { mp_SGTID : string; mp_SGTValue : Z; mp_Ports : list string; mp_TrunkPorts : list string }.
Record WhiteboxSwitch := mkSwitch {
  ID : string;
  Name : string;
  SiteID : string;
  OrgID : string;
  VendorID : string;
  Model : string;
  SerialNumber : string;
  NOS : string;
  NOSVersion : string;
  ManagementIP : string;
  GNMIPort : Z;
  Ports : list SwitchPort;
  SGTMappings : list SGTPortMapping;
  Status : string;
  LastHeartbeat : Z;
  Firmware : string;
  Uptime : Z;
  CreatedAt : Z;
  UpdatedAt : Z;
}.
Record Vendor := mkVendor {
  vn_ID : string; vn_Name : string; vn_Models : list string; vn_NOSOptions : list string; vn_APIEndpoint : string; vn_PartnerTier : string;
}.
Record PortConfig := mkPortConfig {
  pc_PortName : string; pc_SGTAssign : string; pc_SGTInline : bool; pc_Mode : string; pc_Dot1X : bool; pc_MAB : bool;
  pc_Speed : string; pc_POE : bool; pc_Shutdown : bool;
}.
Record Dot1XSwitchConfig := mkDot1XConfig {
  dc_AuthServerURL : string; dc_AuthMethod : string; dc_ReauthTimeout : Z; dc_GuestSGT : string; dc_FailSGT : string; dc_CriticalSGT : string;
}.
Record SwitchConfig := mkConfig {
  cf_SwitchID : string; cf_SGTMappings : list SGTPortMapping; cf_Ports : list PortConfig; cf_Dot1XConfig : option Dot1XSwitchConfig;
}.

Record Manager := mkManager { objects : list WhiteboxSwitch; switches : gmap string nat; vendors : gmap string Vendor }.

(** A request to a switch, and what becomes of it. *)
Record http_request := mkHTTP { h_Method : string; h_URL : string; h_Header : list (string * string); h_Body : option string }.
Inductive outcome := Unreachable (msg : string) | Answered (status : Z).
(** What one call finds: the clock, the order in which a map is ranged over, and the network. *)
Record env := mkEnv { now : Z; order : range_order; network : http_request → outcome }.

(** ** The vendors *)

Definition partners : list Vendor :=
  [mkVendor "edgecore" "Edgecore Networks" ["AS7726-32X"; "AS5835-54X"; "AS4630-54PE"; "EPS203"] ["SONiC"; "DENT"; "OpenSwitch"]
     "https://api.edgecore.com/v1" "platinum";
   mkVendor "celestica" "Celestica" ["Seastone2"; "Questone2"; "Silverstone-X"] ["SONiC"; "Cumulus"]
     "https://api.celestica.com/v1" "gold";
   mkVendor "delta" "Delta Networks" ["AG9032v2A"; "AG5648v1"] ["SONiC"; "DENT"] "https://api.deltathailand.com/v1" "gold";
   mkVendor "accton" "Accton Technology" ["AS7726-32X"; "AS9516-32D"] ["SONiC"] "https://api.accton.com/v1" "silver"].
Definition loadPartnerVendors (m : Manager) : Manager :=
  mkManager (objects m) (switches m) (foldl (λ vs v, <[vn_ID v := v]> vs) (vendors m) partners).
Definition NewManager : Manager := loadPartnerVendors (mkManager [] ∅ ∅).
Definition ListVendors (ro : range_order) (m : Manager) : list Vendor := values ro (vendors m).
Definition GetVendor (m : Manager) (id : string) : result string Vendor :=
  match vendors m !! id with Some v => Ok v | None => Err ("vendor " +:+ id +:+ " not found") end.

(** ** The switches *)

Definition registered (t : Z) (sw : WhiteboxSwitch) : WhiteboxSwitch :=
  mkSwitch (ID sw) (Name sw) (SiteID sw) (OrgID sw) (VendorID sw) (Model sw) (SerialNumber sw) (NOS sw) (NOSVersion sw) (ManagementIP sw)
    (GNMIPort sw) (Ports sw) (SGTMappings sw) "provisioning" (LastHeartbeat sw) (Firmware sw) (Uptime sw) t t.
Definition beat (status : string) (uptime t : Z) (sw : WhiteboxSwitch) : WhiteboxSwitch :=
  mkSwitch (ID sw) (Name sw) (SiteID sw) (OrgID sw) (VendorID sw) (Model sw) (SerialNumber sw) (NOS sw) (NOSVersion sw) (ManagementIP sw)
    (GNMIPort sw) (Ports sw) (SGTMappings sw) status t (Firmware sw) uptime (CreatedAt sw) t.
Definition configured (config : SwitchConfig) (t : Z) (sw : WhiteboxSwitch) : WhiteboxSwitch :=
  mkSwitch (ID sw) (Name sw) (SiteID sw) (OrgID sw) (VendorID sw) (Model sw) (SerialNumber sw) (NOS sw) (NOSVersion sw) (ManagementIP sw)
    (GNMIPort sw) (Ports sw) (cf_SGTMappings config) "online" (LastHeartbeat sw) (Firmware sw) (Uptime sw) (CreatedAt sw) t.

Definition not_found (id : string) : string := "switch " +:+ id +:+ " not found".
Definition find (m : Manager) (id : string) : option (nat * WhiteboxSwitch) :=
  r ← switches m !! id; sw ← objects m !! r; Some (r, sw).
Definition write (f : WhiteboxSwitch → WhiteboxSwitch) (r : nat) (m : Manager) : Manager :=
  mkManager (alter f r (objects m)) (switches m) (vendors m).

Definition allocate (sw : WhiteboxSwitch) (m : Manager) : Manager :=
  mkManager (objects m ++ [sw]) (<[ID sw := length (objects m)]> (switches m)) (vendors m).
Definition RegisterSwitch (e : env) (sw : WhiteboxSwitch) : prog Manager (result string WhiteboxSwitch) :=
  stmt (λ m, if bool_decide (is_Some (switches m !! ID sw)) then (m, Err ("switch " +:+ ID sw +:+ " already registered"))
             else (allocate (registered (now e) sw) m, Ok (registered (now e) sw))).
Definition GetSwitch (id : string) : prog Manager (result string WhiteboxSwitch) :=
  query (λ m, match find m id with Some (_, sw) => Ok sw | None => Err (not_found id) end).
Definition listed (siteID orgID : string) (sw : WhiteboxSwitch) : bool :=
  negb (bool_decide (siteID ≠ "") && bool_decide (SiteID sw ≠ siteID))
  && negb (bool_decide (orgID ≠ "") && bool_decide (OrgID sw ≠ orgID)).
Definition ListSwitches (e : env) (siteID orgID : string) : prog Manager (list WhiteboxSwitch) :=
  query (λ m, List.filter (listed siteID orgID) (omap (λ r, objects m !! r) (values (order e) (switches m)))).
Definition DeregisterSwitch (id : string) : prog Manager (result string unit) :=
  stmt (λ m, if bool_decide (is_Some (switches m !! id)) then (mkManager (objects m) (delete id (switches m)) (vendors m), Ok tt)
             else (m, Err (not_found id))).
Definition Heartbeat (e : env) (id status : string) (uptime : Z) : prog Manager (result string unit) :=
  stmt (λ m, match find m id with
             | Some (r, _) => (write (beat status uptime (now e)) r m, Ok tt)
             | None => (m, Err (not_found id))
             end).

Section Push.
(** What is wrong with a text as a URL, to [net/url]. *)
Variable url_error : string → option string.

Definition config_url (sw : WhiteboxSwitch) : string :=
  "https://" +:+ ManagementIP sw +:+ ":" +:+ itoa (GNMIPort sw) +:+ "/restconf/data/openconfig-network-instance:network-instances".
Definition config_request (sw : WhiteboxSwitch) : http_request :=
  mkHTTP "PUT" (config_url sw) [("Content-Type", "application/json")] None.
(** The call to the switch: [Ok] when it takes the configuration. *)
Definition send (e : env) (sw : WhiteboxSwitch) : result string unit :=
  match url_error (config_url sw) with
  | Some msg => Err ("failed to create config request: " +:+ msg)
  | None =>
      match network e (config_request sw) with
      | Unreachable msg => Err ("config push failed: " +:+ msg)
      | Answered status => if (400 <=? status)%Z then Err ("switch returned error: " +:+ itoa status) else Ok tt
      end
  end.
Definition apply_config (e : env) (config : SwitchConfig) (r : nat) : prog Manager (result string unit) :=
  stmt (λ m, (write (configured config (now e)) r m, Ok tt)).
Definition PushConfig (e : env) (config : SwitchConfig) : prog Manager (result string unit) :=
  bind (query (λ m, find m (cf_SwitchID config))) (λ found,
    match found with
    | None => Ret (Err (not_found (cf_SwitchID config)))
    | Some (r, sw) => match send e sw with Err msg => Ret (Err msg) | Ok _ => apply_config e config r end
    end).

(** ** The handlers *)

Inductive reply :=
| WErr (status : Z) (msg : string)
| WSwitch (status : Z) (sw : WhiteboxSwitch)
| WSwitches (l : list WhiteboxSwitch)
| WDeleted
| WAcknowledged
| WPushed (id : string)
| WVendors (l : list Vendor)
| WVendor (v : Vendor).

Definition then_ {A} (p : prog Manager A) (f : A → reply) : prog Manager reply := bind p (λ a, Ret (f a)).
Definition or_err {A} (status : Z) (f : A → reply) (r : result string A) : reply := match r with Ok a => f a | Err m => WErr status m end.

Definition ListSwitches_ (e : env) (siteID orgID : string) : prog Manager reply := then_ (ListSwitches e siteID orgID) WSwitches.
Definition GetSwitch_ (id : string) : prog Manager reply := then_ (GetSwitch id) (or_err 404 (WSwitch 200)).
Definition RegisterSwitch_ (e : env) (body : option WhiteboxSwitch) : prog Manager reply :=
  match body with
  | None => Ret (WErr 400 "Invalid request body")
  | Some sw => then_ (RegisterSwitch e sw) (or_err 409 (WSwitch 201))
  end.
Definition DeregisterSwitch_ (id : string) : prog Manager reply := then_ (DeregisterSwitch id) (or_err 404 (λ _, WDeleted)).
Definition SwitchHeartbeat (e : env) (id : string) (body : option (string * Z)) : prog Manager reply :=
  match body with
  | None => Ret (WErr 400 "Invalid request body")
  | Some (status, uptime) => then_ (Heartbeat e id status uptime) (or_err 404 (λ _, WAcknowledged))
  end.
Definition with_switch (id : string) (c : SwitchConfig) : SwitchConfig := mkConfig id (cf_SGTMappings c) (cf_Ports c) (cf_Dot1XConfig c).
Definition PushConfig_ (e : env) (id : string) (body : option SwitchConfig) : prog Manager reply :=
  match body with
  | None => Ret (WErr 400 "Invalid request body")
  | Some config => then_ (PushConfig e (with_switch id config)) (or_err 502 (λ _, WPushed id))
  end.
Definition ListVendors_ (e : env) : prog Manager reply := then_ (query (ListVendors (order e))) WVendors.
Definition GetVendor_ (id : string) : prog Manager reply := then_ (query (λ m, GetVendor m id)) (or_err 404 WVendor).

Inductive call :=
| CList (e : env) (siteID orgID : string)
| CGet (id : string)
| CRegister (e : env) (body : option WhiteboxSwitch)
| CDeregister (id : string)
| CHeartbeat (e : env) (id : string) (body : option (string * Z))
| CPush (e : env) (id : string) (body : option SwitchConfig)
| CVendors (e : env)
| CVendor (id : string).
Definition serve (c : call) : prog Manager reply :=
  match c with
  | CList e siteID orgID => ListSwitches_ e siteID orgID
  | CGet id => GetSwitch_ id
  | CRegister e body => RegisterSwitch_ e body
  | CDeregister id => DeregisterSwitch_ id
  | CHeartbeat e id body => SwitchHeartbeat e id body
  | CPush e id body => PushConfig_ e id body
  | CVendors e => ListVendors_ e
  | CVendor id => GetVendor_ id
  end.

(** ** What the manager holds is what was registered and taken by the switches *)

(** The fields that identify a switch and say where it is. *)
Definition identity (sw : WhiteboxSwitch) :=
  (ID sw, Name sw, SiteID sw, OrgID sw, (VendorID sw, Model sw, SerialNumber sw), (NOS sw, NOSVersion sw, Firmware sw), (ManagementIP sw, GNMIPort sw, Ports sw), CreatedAt sw).

(** The mappings came with a registration [sw0] or with a configuration that the switch took. *)
Definition explained (H : call → Prop) (sw : WhiteboxSwitch) : Prop :=
  ∃ e0 sw0, H (CRegister e0 (Some sw0)) ∧ identity sw = identity (registered (now e0) sw0)
    ∧ (SGTMappings sw = SGTMappings sw0
       ∨ ∃ e config, H (CPush e (ID sw) (Some config)) ∧ send e sw = Ok tt ∧ SGTMappings sw = cf_SGTMappings config).
Definition holds (H : call → Prop) (m : Manager) : Prop :=
  Forall (explained H) (objects m) ∧ ∀ id r, switches m !! id = Some r → ∃ sw, objects m !! r = Some sw ∧ ID sw = id.

(** Where a request can be: at its start, at its answer, or about to record a configuration. *)
Definition recording (e : env) (id : string) (config : SwitchConfig) (r : nat) : prog Manager reply :=
  then_ (apply_config e (with_switch id config) r) (or_err 502 (λ _, WPushed id)).
Inductive at_point (m : Manager) : call → prog Manager reply → Prop :=
| at_start c : at_point m c (serve c)
| at_answer c a : at_point m c (Ret a)
| at_record e id config r sw : objects m !! r = Some sw → ID sw = id → send e sw = Ok tt →
    at_point m (CPush e id (Some config)) (recording e id config r).

Lemma send_identity e sw sw' : identity sw = identity sw' → send e sw = send e sw'.
Proof. intros [= _ _ _ _ _ _ _ _ _ _ Hip Hport _ _]. unfold send, config_request, config_url. by rewrite Hip, Hport. Qed.

(** Every statement keeps the objects, up to the fields it may write. *)
Definition grows (m m' : Manager) : Prop := ∀ r sw, objects m !! r = Some sw → ∃ sw', objects m' !! r = Some sw' ∧ identity sw' = identity sw.
#[local] Instance grows_refl : Reflexive grows.
Proof. intros m r sw Hr. by exists sw. Qed.
Lemma grows_write f r m : (∀ sw, identity (f sw) = identity sw) → grows m (write f r m).
Proof.
  intros Hf r' sw Hr. cbn. destruct (decide (r = r')) as [<-|Hne].
  - exists (f sw). by rewrite list_lookup_alter_eq, Hr.
  - exists sw. by rewrite list_lookup_alter_ne.
Qed.
Lemma grows_allocate sw m : grows m (allocate sw m).
Proof. intros r sw' Hr. exists sw'. split; [by apply lookup_app_l_Some|done]. Qed.

Lemma at_point_grows m m' c p : grows m m' → at_point m c p → at_point m' c p.
Proof.
  intros Hg [c'|c' a|e id config r sw Hr Hid Hs]; [constructor|constructor|]. destruct (Hg r sw Hr) as (sw' & Hr' & Hi).
  apply (at_record m' e id config r sw'); [done| |by rewrite (send_identity e sw' sw)].
  rewrite <- Hid. by injection Hi.
Qed.
Lemma point_grows m c f k : at_point m c (Stmt f k) → grows m (f m).
Proof.
  intros Hp. remember (Stmt f k) as p eqn:E. destruct Hp as [c|c a|e id config r sw Hr Hid Hs]; [|done|].
  2:{ injection E as <- <-. by apply grows_write. }
  destruct c as [e siteID orgID|id|e [sw|]|id|e id [[status uptime]|]|e id [config|]|e|id]; try discriminate E; injection E as <- <-; cbn; try reflexivity.
  - case_bool_decide; [reflexivity|apply grows_allocate].
  - case_bool_decide; [|reflexivity]. intros r sw Hr. by exists sw.
  - destruct (find m id) as [[r sw]|]; [by apply grows_write|reflexivity].
Qed.

Lemma explained_mono (H H' : call → Prop) sw : (∀ c, H c → H' c) → explained H sw → explained H' sw.
Proof.
  intros Hsub (e0 & sw0 & H0 & Hid & Hm). exists e0, sw0. split_and!; [by apply Hsub|done|].
  destruct Hm as [Hm|(e & config & Hc & Hs & Hm)]; [by left|]. right. exists e, config. auto.
Qed.
Lemma holds_mono (H H' : call → Prop) m : (∀ c, H c → H' c) → holds H m → holds H' m.
Proof. intros Hsub [Hm Hd]. split; [|done]. eapply Forall_impl; [done|]. intros sw. by apply explained_mono. Qed.
Lemma holds_write H f r m :
  (∀ sw, identity (f sw) = identity sw) → (∀ sw, objects m !! r = Some sw → explained H sw → explained H (f sw)) →
  holds H m → holds H (write f r m).
Proof.
  intros Hi Hf [Hm Hd]. split.
  - apply Forall_lookup. intros j sw Hj. cbn in Hj. destruct (decide (r = j)) as [<-|Hne].
    + rewrite list_lookup_alter_eq in Hj. apply fmap_Some in Hj as (sw0 & Hj & ->). apply Hf; [done|]. by eapply Forall_lookup_1.
    + rewrite list_lookup_alter_ne in Hj by done. by eapply Forall_lookup_1.
  - intros id j Hj. destruct (Hd id j Hj) as (sw & Hsw & Hid). destruct (grows_write f r m Hi j sw Hsw) as (sw' & Hsw' & Hid').
    exists sw'. split; [done|]. rewrite <- Hid. by injection Hid'.
Qed.
Lemma holds_allocate (H : call → Prop) e sw m : H (CRegister e (Some sw)) → holds H m → holds H (allocate (registered (now e) sw) m).
Proof.
  intros Hc [Hm Hd]. split.
  - apply Forall_app. split; [done|]. apply Forall_singleton. exists e, sw. split_and!; [done|done|by left].
  - intros id r. cbn. destruct (decide (ID sw = id)) as [<-|Hne].
    + rewrite lookup_insert_eq. intros [= <-]. eexists. split; [by apply list_lookup_middle|done].
    + rewrite lookup_insert_ne by done. intros Hr. destruct (Hd id r Hr) as (sw' & Hsw & Hid). exists sw'. split; [by apply lookup_app_l_Some|done].
Qed.
Lemma explained_beat H status uptime t sw : explained H sw → explained H (beat status uptime t sw).
Proof. done. Qed.
Lemma holds_recorded (H : call → Prop) e id config r sw m :
  H (CPush e id (Some config)) → objects m !! r = Some sw → ID sw = id → send e sw = Ok tt →
  holds H m → holds H (write (configured (with_switch id config) (now e)) r m).
Proof.
  intros Hc Hr Hid Hs. apply holds_write; [done|]. intros sw' Hr' (e0 & sw0 & H0 & Hi & _).
  rewrite Hr in Hr'. injection Hr' as <-. subst id.
  exists e0, sw0. split_and!; [done|done|]. right. exists e, config. split_and!; [done|by rewrite <- Hs|done].
Qed.

Lemma point_local H m c f k : holds H m → H c → at_point m c (Stmt f k) → holds H (f m) ∧ at_point (f m) c (k m).
Proof.
  intros Hh Hc Hp. remember (Stmt f k) as p eqn:E. destruct Hp as [c|c a|e id config r sw Hr Hid Hs]; [|done|].
  2:{ injection E as <- <-. split; [by eapply holds_recorded|constructor]. }
  destruct c as [e siteID orgID|id|e [sw|]|id|e id [[status uptime]|]|e id [config|]|e|id]; try discriminate E; injection E as <- <-;
    cbn [fst snd bind]; try (split; [done|apply at_answer]).
  - case_bool_decide; split; try apply at_answer; [done|by apply holds_allocate].
  - case_bool_decide; split; try apply at_answer; [|done]. destruct Hh as [Hm Hd]. split; [done|]. intros j r Hj. cbn in Hj.
    apply lookup_delete_Some in Hj as [_ Hj]. by apply Hd.
  - destruct (find m id) as [[r sw]|]; split; try apply at_answer; [|done]. by apply holds_write.
  - split; [done|]. unfold find. cbn. destruct (switches m !! id) as [r|] eqn:Hs; cbn; [|apply at_answer].
    destruct (objects m !! r) as [sw|] eqn:Hr; cbn; [|apply at_answer]. destruct (send e sw) as [[]|msg] eqn:Hsend; cbn; [|apply at_answer].
    eapply (at_record m); [done| |done]. destruct Hh as [_ Hd]. destruct (Hd id r Hs) as (sw' & Hr' & Hid). by simplify_eq.
Qed.

(** Every mapping has a cause.  In any interleaving of registrations, heartbeats, removals and
    pushes, the identifier of a registered switch refers to one object of that identifier; what
    identifies the switch, its address and its ports are those of one registration, and its tag
    mappings are those of that registration or of a configuration some request pushed to this
    identifier and that the switch at this address answered with a status below 400. *)
Theorem mappings_explained s id r sw :
  rtc (istep serve) (mkPool NewManager []) s → find (data s) id = Some (r, sw) →
  ID sw = id ∧ explained (arrived s) sw.
Proof.
  intros Hr Hf. assert (Hh : holds (arrived s) (data s)).
  { eapply (history_reachable serve holds at_point); [apply holds_mono|apply at_start|apply point_local| |exact Hr|].
    - intros d c p c' f k Hp Hs. by eapply at_point_grows; [eapply point_grows|].
    - by split. }
  destruct Hh as [Hm Hd]. unfold find in Hf. destruct (switches (data s) !! id) as [r'|] eqn:Hs; [|done]. cbn in Hf.
  destruct (objects (data s) !! r') as [sw'|] eqn:Ho; [|done]. injection Hf as -> ->. split; [|by eapply Forall_lookup_1].
  destruct (Hd id r Hs) as (sw0 & Ho' & Hid). congruence.
Qed.

(** A push that no other request overlaps is visible afterwards. *)
Theorem push_visible e id config m m' :
  exec (serve (CPush e id (Some config))) m = (m', WPushed id) →
  ∃ sw, snd (exec (serve (CGet id)) m') = WSwitch 200 sw ∧ SGTMappings sw = cf_SGTMappings config
    ∧ Status sw = "online" ∧ send e sw = Ok tt.
Proof.
  cbn. unfold find. cbn. destruct (switches m !! id) as [r|] eqn:Hs; cbn; [|done].
  destruct (objects m !! r) as [sw|] eqn:Ho; cbn; [|done]. destruct (send e sw) as [[]|msg] eqn:Hsend; cbn; [|done].
  intros [= <-]. cbn. rewrite Hs. cbn. rewrite list_lookup_alter_eq, Ho. cbn.
  eexists. split_and!; [done|done|done|]. by rewrite <- Hsend.
Qed.

End Push.

(** ** Examples *)

Definition demo_env : env := mkEnv 5 canonical_order (λ _, Answered 204).
Definition demo_switch (l : list SGTPortMapping) : WhiteboxSwitch :=
  mkSwitch "sw1" "edge" "site" "org" "delta" "AG5648v1" "S1" "SONiC" "1" "10.0.0.2" 8080 [] l "" 0 "" 0 0 0.
Definition demo_config : SwitchConfig := mkConfig "" [mkMapping "guest" 20 ["Ethernet1"] []] [] None.
Definition demo_serve : call → prog Manager reply := serve (λ _, None).
Definition demo_register : call := CRegister demo_env (Some (demo_switch [])).
Definition demo_push : call := CPush demo_env "sw1" (Some demo_config).

Lemma mappings_explained_witness :
  let s := schedule demo_serve NewManager [demo_register; demo_push; CHeartbeat demo_env "sw1" (Some ("online", 9%Z))] [0; 1; 2; 1] in
  ∃ r sw, find (data s) "sw1" = Some (r, sw) ∧ SGTMappings sw = cf_SGTMappings demo_config
    ∧ ID sw = "sw1" ∧ explained (λ _, None) (arrived s) sw.
Proof.
  intros s. eexists _, _. split; [vm_compute; reflexivity|]. split; [done|].
  eapply (mappings_explained (λ _, None) s "sw1"); [apply schedule_reachable|vm_compute; reflexivity].
Defined.

(** A switch that is replaced while its configuration is on the way: the push is answered as
    done and recorded in the object nobody can reach any more. *)
Example push_lost :
  let s := schedule demo_serve NewManager [demo_register; demo_push; CDeregister "sw1"; demo_register] [0; 1; 2; 3; 1] in
  requests s !! 1 = Some (demo_push, Ret (WPushed "sw1"))
  ∧ option_map (λ x, SGTMappings (snd x)) (find (data s) "sw1") = Some [].
Proof. vm_compute. done. Qed.

End Sdn.
