(* ===== verification/DnsLogs.v ===== *)
(** * The log of DNS decisions

    [src/internal/db/dns_log_store.go] and [src/internal/api/handlers/dns_logs_handler.go]: the
    log the gateways write, its filtered pages, summaries and retention.

    Arguments: [uuid] and [inet] are the database's reading of an identifier and of an address,
    its canonical text, or [None] for a text that is none; [parse_time] is [time.Parse] with the
    layout of RFC 3339.  [Float64] is the arithmetic of the averages. *)

From S2P Require Import Prelude GoStrings GoTime Encoding Sql AgentAuth.
From stdpp Require Import sorting.
From Stdlib Require Import Ascii.
#[local] Open Scope string_scope.
#[local] Open Scope nat_scope.
#[local] Open Scope list_scope.

Module DnsLogs.
Import GoStrings GoTime Encoding Sql.

Record DNSAccessLog := mkLog {
  ID : string;
  OrgID : string;
  GatewayID : string;
  ClientIP : string;
  Domain : string;
  QueryType : string;
  Verdict : string;
  ThreatLevel : string;
  ThreatCategory : string;
  PolicyName : string;
  Action : string;
  Severity : string;
  ResponseTimeMs : Z;
  ResponseCode : Z;
  CreatedAt : Z;
}.
Record DNSErrorLog := mkErrorLog {
  el_OrgID : string; el_GatewayID : string; el_ErrorType : string; el_ErrorMessage : string; el_Domain : string; el_ClientIP : string;
}.

(** ** The tables *)

Record log_row := mkLogRow {
  l_org : string;
  l_gateway : string;
  l_client : string;
  l_domain : string;
  l_type : string;
  l_verdict : string;
  l_level : string;
  l_category : option string;
  l_policy : option string;
  l_action : string;
  l_severity : string;
  l_time : option Z;
  l_code : option Z;
  l_created : Z;
}.
Record error_row := mkErrorRow { x_org : string; x_gateway : string; x_type : string; x_message : option string; x_domain : string; x_client : string; x_created : Z }.
(** The averages are kept with two decimals: [q_avg] counts hundredths. *)
Record DNSQueryStats := mkStats {
  q_id : string; q_org : string; q_hour : Z; q_total : Z; q_allowed : Z; q_blocked : Z; q_threats : Z; q_errors : Z; q_avg : Z; q_max : Z;
  q_domains : string; q_clients : string; q_created : Z; q_updated : Z;
}.
Record DB := mkDB { logs : gmap string log_row; errors : gmap string error_row; stats : list DNSQueryStats; organizations : gset string }.

(** What a call finds: the identifier the database makes up, its clock, whether its i-th
    statement succeeds, and the order in which rows are found. *)
Record env := mkEnv { new_id : string; db_now : Z; ok : nat → bool; order : range_order }.

Definition int4 (n : Z) : bool := (- 2147483648 <=? n)%Z && (n <=? 2147483647)%Z.

Section Store.
Context (uuid inet : string → option string) (parse_time : string → option Z).

Definition LogDNSQuery (e : env) (d : DB) (log : DNSAccessLog) : DB * bool :=
  match uuid (OrgID log), inet (ClientIP log) with
  | Some org, Some ip =>
      if ok e 0 && bool_decide (org ∈ organizations d) && fits 255 (GatewayID log) && fits 511 (Domain log) && fits 20 (QueryType log)
         && fits 50 (Verdict log) && fits 20 (ThreatLevel log) && fits 100 (ThreatCategory log) && fits 255 (PolicyName log)
         && fits 20 (Action log) && fits 20 (Severity log) && int4 (ResponseTimeMs log) && int4 (ResponseCode log)
      then (mkDB (<[new_id e := mkLogRow org (GatewayID log) ip (Domain log) (QueryType log) (Verdict log) (ThreatLevel log)
                                  (Some (ThreatCategory log)) (Some (PolicyName log)) (Action log) (Severity log)
                                  (Some (ResponseTimeMs log)) (Some (ResponseCode log)) (db_now e)]> (logs d))
              (errors d) (stats d) (organizations d), true)
      else (d, false)
  | _, _ => (d, false)
  end.
Definition LogDNSError (e : env) (d : DB) (log : DNSErrorLog) : DB * bool :=
  match uuid (el_OrgID log), inet (el_ClientIP log) with
  | Some org, Some ip =>
      if ok e 0 && bool_decide (org ∈ organizations d) && fits 255 (el_GatewayID log) && fits 511 (el_Domain log) && fits 100 (el_ErrorType log)
      then (mkDB (logs d) (<[new_id e := mkErrorRow org (el_GatewayID log) (el_ErrorType log) (Some (el_ErrorMessage log)) (el_Domain log) ip (db_now e)]> (errors d))
              (stats d) (organizations d), true)
      else (d, false)
  | _, _ => (d, false)
  end.

(** The keys of the filter map; an empty text is no filter. *)
Record filters := mkFilters {
  by_domain : option string; by_client : option string; by_verdict : option string; by_level : option string; by_action : option string;
  since : option Z; until : option Z;
}.
Definition given (o : option string) : option string := match o with Some s => if bool_decide (s = "") then None else Some s | None => None end.
Definition same (o : option string) (s : string) : bool := match o with Some w => bool_decide (s = w) | None => true end.
(** The condition of the query; [None]: a text is no address. *)
Definition condition (org : string) (f : filters) : option (log_row → bool) :=
  let client := match given (by_client f) with None => Some None | Some ip => Some <$> inet ip end in
  match client with
  | None => None
  | Some client =>
      Some (λ r, bool_decide (l_org r = org) && same (given (by_domain f)) (l_domain r) && same client (l_client r)
                 && same (given (by_verdict f)) (l_verdict r) && same (given (by_level f)) (l_level r) && same (given (by_action f)) (l_action r)
                 && (match since f with Some t => (t <=? l_created r)%Z | None => true end)
                 && (match until f with Some t => (l_created r <=? t)%Z | None => true end))
  end.
(** A row with a null does not scan into the strings and numbers of the entry. *)
Definition scan_log (kv : string * log_row) : option DNSAccessLog :=
  let '(id, r) := kv in
  match l_category r, l_policy r, l_time r, l_code r with
  | Some category, Some policy, Some time, Some code =>
      Some (mkLog id (l_org r) (l_gateway r) (l_client r) (l_domain r) (l_type r) (l_verdict r) (l_level r) category policy (l_action r)
              (l_severity r) time code (l_created r))
  | _, _, _, _ => None
  end.
Definition matching (e : env) (d : DB) (p : log_row → bool) : list (string * log_row) := select (order e) (λ _, p) (logs d).
Definition GetDNSLogs (e : env) (i : nat) (d : DB) (orgID : string) (f : filters) (limit offset : Z) : option (list DNSAccessLog) :=
  match uuid orgID ≫= λ org, condition org f with
  | Some p =>
      if ok e i && (0 <=? limit)%Z && (0 <=? offset)%Z
      then Some (omap scan_log (page l_created (Z.to_nat limit) (Z.to_nat offset) (matching e d p)))
      else None
  | None => None
  end.

Definition hour : Z := 3600 * second.
Definition GetDNSStats (e : env) (i : nat) (d : DB) (orgID : string) (hoursBack : Z) : option (list DNSQueryStats) :=
  match uuid orgID with
  | Some org =>
      if ok e i
      then Some (merge_sort (λ a b, (q_hour b <=? q_hour a)%Z)
                   (List.filter (λ s, bool_decide (q_org s = org) && (db_now e - hoursBack * hour <=? q_hour s)%Z) (stats d)))
      else None
  | None => None
  end.
Definition recent (e : env) (org : string) (hoursBack : Z) (r : log_row) : bool :=
  bool_decide (l_org r = org) && (db_now e - hoursBack * hour <=? l_created r)%Z.
Definition GetDomainCount (e : env) (i : nat) (d : DB) (orgID : string) (hoursBack : Z) : option nat :=
  match uuid orgID with
  | Some org => if ok e i then Some (length (remove_dups (l_domain ∘ snd <$> matching e d (recent e org hoursBack)))) else None
  | None => None
  end.
(** [ROUND(100.0 * n / total, 2)], in hundredths; the null of an empty log does not scan. *)
Definition percent (n total : nat) : option Z :=
  if total =? 0 then None else Some ((2 * 10000 * Z.of_nat n + Z.of_nat total) / (2 * Z.of_nat total))%Z.
Definition not_allowed (r : log_row) : bool := negb (bool_decide (l_verdict r = "allow")).
Definition GetBlockRatePercent (e : env) (i : nat) (d : DB) (orgID : string) (hoursBack : Z) : option Z :=
  match uuid orgID with
  | Some org =>
      let rows := matching e d (recent e org hoursBack) in
      if ok e i then percent (length (List.filter (not_allowed ∘ snd) rows)) (length rows) else None
  | None => None
  end.
Definition old (e : env) (org : string) (days : Z) (r : log_row) : bool :=
  bool_decide (l_org r = org) && (l_created r <? db_now e - days * (24 * hour))%Z.
Definition DeleteOldLogs (e : env) (d : DB) (orgID : string) (daysOld : Z) : DB * option nat :=
  match uuid orgID with
  | Some org =>
      if ok e 0
      then (mkDB (filter (λ kv, old e org daysOld (snd kv) = false) (logs d)) (errors d) (stats d) (organizations d),
            Some (length (matching e d (old e org daysOld))))
      else (d, None)
  | None => (d, None)
  end.

(** ** The handlers *)

Record GetDNSLogsRequest := mkRequest {
  r_Domain : string; r_ClientIP : string; r_Verdict : string; r_ThreatLevel : string; r_StartTime : string; r_EndTime : string;
  r_Limit : Z; r_Offset : Z;
}.
Record DNSLogResponse := mkResponse {
  p_ID : string; p_ClientIP : string; p_Domain : string; p_QueryType : string; p_Verdict : string; p_ThreatLevel : string;
  p_ThreatCategory : string; p_ResponseTimeMs : Z; p_ResponseCode : Z; p_CreatedAt : Z;
}.
Definition response_of (l : DNSAccessLog) : DNSLogResponse :=
  mkResponse (ID l) (ClientIP l) (Domain l) (QueryType l) (Verdict l) (ThreatLevel l) (ThreatCategory l) (ResponseTimeMs l) (ResponseCode l) (CreatedAt l).

(** The arithmetic of [float64] the averages use. *)
Class Float64 := { F : Type; hundredths : Z → F; fadd : F → F → F; fdiv : F → F → F; of_nat : nat → F }.
Record DNSSummaryResponse {fl : Float64} := mkSummary {
  TotalQueries : Z; UniqueDomainsCount : nat; UniqueClientsCount : nat; BlockedQueries : Z; BlockRatePercent : F; AvgResponseTimeMs : F; TimeRange : string;
}.
Context {fl : Float64}.

Inductive reply :=
| DErr (status : Z) (msg : string)
| DLogs (l : list DNSLogResponse) (limit offset : Z)
| DSummary (s : DNSSummaryResponse)
| DStats (l : list DNSQueryStats) (hours : Z)
| DDeleted (n : nat) (days : Z).

Definition clamp_limit (limit : Z) : Z := if (limit <=? 0)%Z || (1000 <? limit)%Z then 50 else limit.
Definition clamp_offset (offset : Z) : Z := if (offset <? 0)%Z then 0 else offset.
(** An optional time: [None] for a text that is no time. *)
Definition time_filter (s : string) : option (option Z) := if bool_decide (s = "") then Some None else Some <$> parse_time s.
Definition no_org : reply := DErr 401 "org_id not found in context".

Definition GetDNSLogs_ (e : env) (d : DB) (orgID : option string) (body : option GetDNSLogsRequest) : reply :=
  match body with
  | None => DErr 400 "invalid query parameters"
  | Some req =>
      match orgID with
      | None => no_org
      | Some org =>
          match time_filter (r_StartTime req) with
          | None => DErr 400 "invalid start_time format"
          | Some start =>
              match time_filter (r_EndTime req) with
              | None => DErr 400 "invalid end_time format"
              | Some end_ =>
                  let f := mkFilters (nilIfEmpty (r_Domain req)) (nilIfEmpty (r_ClientIP req)) (nilIfEmpty (r_Verdict req))
                             (nilIfEmpty (r_ThreatLevel req)) None start end_ in
                  let limit := clamp_limit (r_Limit req) in
                  let offset := clamp_offset (r_Offset req) in
                  match GetDNSLogs e 0 d org f limit offset with
                  | None => DErr 500 "failed to fetch DNS logs"
                  | Some l => DLogs (response_of <$> l) limit offset
                  end
              end
          end
      end
  end.

(** [strconv.Atoi]: [None] for a text that is no number or out of range. *)
Definition Atoi (s : string) : option Z :=
  let num r := if AgentAuth.AgentAuth.all_digits r && negb (bool_decide (r = "")) then Some (fst (Json.read_digits 0 r)) else None in
  n ← match s with
      | String "-"%char r => Z.opp <$> num r
      | String "+"%char r => num r
      | _ => num s
      end;
  if (- 2 ^ 63 <=? n)%Z && (n <? 2 ^ 63)%Z then Some n else None.
Definition positive_or (n : Z) (s : option string) : Z :=
  match s with
  | None => n
  | Some s => match Atoi s with Some v => if (v <=? 0)%Z then n else v | None => n end
  end.

Definition GetDNSSummary (e : env) (d : DB) (orgID hours : option string) : reply :=
  let hours := positive_or 24 hours in
  match orgID with
  | None => no_org
  | Some org =>
      match GetDNSStats e 0 d org hours with
      | None => DErr 500 "failed to fetch statistics"
      | Some stats =>
          let sum := foldl (λ a s, fadd a (hundredths (q_avg s))) (hundredths 0) stats in
          DSummary (mkSummary _ (foldl (λ a s, a + q_total s)%Z 0%Z stats) (default 0 (GetDomainCount e 1 d org hours)) 0 0
                      (hundredths (default 0%Z (GetBlockRatePercent e 2 d org hours)))
                      (match stats with [] => sum | _ => fdiv sum (of_nat (length stats)) end) (itoa hours +:+ "h"))
      end
  end.
Definition GetDNSLogsStats (e : env) (d : DB) (orgID hours : option string) : reply :=
  let hours := positive_or 24 hours in
  match orgID with
  | None => no_org
  | Some org => match GetDNSStats e 0 d org hours with None => DErr 500 "failed to fetch statistics" | Some stats => DStats stats hours end
  end.
Definition DeleteOldLogs_ (e : env) (d : DB) (orgID days : option string) : DB * reply :=
  let days := positive_or 30 days in
  match orgID with
  | None => (d, no_org)
  | Some org =>
      match DeleteOldLogs e d org days with
      | (d, Some n) => (d, DDeleted n days)
      | (d, None) => (d, DErr 500 "failed to delete logs")
      end
  end.

(** ** Pages *)

Definition created_before (a b : DNSAccessLog) : Prop := (CreatedAt b <= CreatedAt a)%Z.

Lemma take_drop_pages {A} (k n : nat) (l : list A) : length l ≤ n * k →
  concat ((λ i, take k (drop (i * k) l)) <$> seq 0 n) = l.
Proof.
  revert l. induction n as [|n IH]; intros l Hl; [destruct l; [done|cbn in Hl; lia]|].
  change (seq 0 (S n)) with (0 :: seq 1 n). cbn [fmap list_fmap concat]. rewrite Nat.mul_0_l. cbn [drop].
  transitivity (take k l ++ drop k l); [f_equal|apply take_drop]. rewrite <- fmap_S_seq, <- list_fmap_compose.
  etrans; [|apply (IH (drop k l)); rewrite length_drop; lia]. f_equal. apply list_fmap_ext. intros i x _. cbn.
  by rewrite drop_drop, Nat.add_comm.
Qed.
Lemma omap_concat {A B} (f : A → option B) (ls : list (list A)) : @omap list _ A B f (concat ls) = concat ((omap f : list A → list B) <$> ls).
Proof. induction ls as [|l ls IH]; cbn [concat fmap list_fmap]; [done|]. by rewrite omap_app, IH. Qed.
Lemma omap_length_le {A B} (f : A → option B) (l : list A) : length (omap f l) ≤ length l.
Proof. induction l as [|x l IH]; cbn; [done|]. destruct (f x); cbn; lia. Qed.

Lemma scan_log_fields id r l : scan_log (id, r) = Some l → ID l = id ∧ OrgID l = l_org r ∧ CreatedAt l = l_created r.
Proof. cbn. destruct (l_category r), (l_policy r), (l_time r), (l_code r); by intros [= <-]. Qed.
Lemma newest_perm {V} (key : V → Z) rows : newest key rows ≡ₚ rows.
Proof. apply merge_sort_Permutation. Qed.
Lemma newest_sorted {V} (key : V → Z) (rows : list (string * V)) :
  StronglySorted (λ a b, (key (snd b) <= key (snd a))%Z) (newest key rows).
Proof.
  unfold newest. set (R := λ a b : string * V, Is_true (key (snd b) <=? key (snd a))%Z).
  assert (H : StronglySorted R (merge_sort R rows)).
  { apply StronglySorted_merge_sort; unfold R.
    - intros x y z. rewrite !Is_true_true, !Z.leb_le. lia.
    - intros x y. rewrite !Is_true_true, !Z.leb_le. lia. }
  revert H. generalize (merge_sort R rows). induction 1 as [|x l Hs IH Hf]; constructor; [done|].
  eapply Forall_impl; [done|]. intros y Hy. unfold R in Hy. by apply Is_true_true, Z.leb_le in Hy.
Qed.
Lemma scan_sorted rows : StronglySorted (λ a b : string * log_row, (l_created (snd b) <= l_created (snd a))%Z) rows →
  StronglySorted created_before (omap scan_log rows).
Proof.
  induction 1 as [|[id r] rows Hs IH Hf]; cbn [omap list_omap]; [constructor|].
  destruct (scan_log (id, r)) as [l|] eqn:El; [|done]. constructor; [done|]. apply Forall_forall. intros l' Hin.
  apply list_elem_of_omap in Hin as ([id' r'] & Hin & El'). apply scan_log_fields in El as (_ & _ & E), El' as (_ & _ & E').
  rewrite list.Forall_forall in Hf. specialize (Hf _ Hin). cbn in Hf. unfold created_before. lia.
Qed.
Lemma scan_ids rows : NoDup (fst <$> rows) → NoDup (ID <$> omap scan_log rows).
Proof.
  induction rows as [|[id r] rows IH]; cbn [omap list_omap fmap list_fmap]; [done|]. intros [Hni Hnd]%NoDup_cons.
  destruct (scan_log (id, r)) as [l|] eqn:El; [|by apply IH]. cbn. constructor; [|by apply IH].
  apply scan_log_fields in El as (Eid & _). intros Hin. apply list_elem_of_fmap in Hin as (l' & Hl' & Hin).
  apply list_elem_of_omap in Hin as ([id' r'] & Hin & El'). apply scan_log_fields in El' as (El' & _).
  rewrite Eid, El' in Hl'. subst id'. apply Hni.
  apply list_elem_of_fmap. by exists (id, r').
Qed.
Lemma matching_nodup e d p : NoDup (fst <$> matching e d p).
Proof.
  unfold matching, select. assert (H : NoDup (fst <$> range (order e) (logs d))).
  { rewrite (range_perm (order e) (logs d)). apply NoDup_fst_map_to_list. }
  revert H. generalize (range (order e) (logs d)). induction l as [|[k r] l IH]; cbn; [done|]. intros [Hni Hnd]%NoDup_cons.
  destruct (p r); cbn; [|by apply IH]. constructor; [|by apply IH]. intros Hin. apply Hni.
  apply list_elem_of_fmap in Hin as (kv & -> & Hin). apply list_elem_of_fmap. exists kv. split; [done|].
  apply list_elem_of_In, filter_In in Hin as [Hin _]. by apply list_elem_of_In.
Qed.
Lemma elem_of_matching e d p id r : (id, r) ∈ matching e d p ↔ logs d !! id = Some r ∧ p r = true.
Proof. apply (elem_of_select (order e) (λ _, p)). Qed.

(** Pages lose nothing.  The pages of a filtered log, fetched one after the other until all
    entries are covered, are the readable entries that satisfy the filter, each once, newest
    first; none is longer than asked, and all belong to the organization that asks. *)
Theorem log_pages_exact e d org o f p k n :
  uuid org = Some o → condition o f = Some p → ok e 0 = true → length (matching e d p) ≤ n * k →
  ∃ pages, (∀ i, GetDNSLogs e 0 d org f (Z.of_nat k) (Z.of_nat (i * k)) = Some (pages i) ∧ length (pages i) ≤ k)
    ∧ let all := concat (pages <$> seq 0 n) in
      StronglySorted created_before all ∧ NoDup (ID <$> all) ∧ Forall (λ l, OrgID l = o) all
      ∧ ∀ l, l ∈ all ↔ ∃ r, logs d !! ID l = Some r ∧ p r = true ∧ scan_log (ID l, r) = Some l.
Proof.
  intros Ho Hp Hok Hn. set (rows := newest l_created (matching e d p)). exists (λ i, omap scan_log (take k (drop (i * k) rows))).
  split.
  { intros i. split.
    - unfold GetDNSLogs. rewrite Ho. cbn [mbind option_bind]. rewrite Hp, Hok. cbn [andb].
      rewrite !(proj2 (Z.leb_le 0 _)) by lia. cbn [andb]. by rewrite !Nat2Z.id.
    - etrans; [apply omap_length_le|]. rewrite length_take. lia. }
  assert (Hall : concat ((λ i, omap scan_log (take k (drop (i * k) rows))) <$> seq 0 n) = omap scan_log rows).
  { transitivity (omap scan_log (concat ((λ i, take k (drop (i * k) rows)) <$> seq 0 n))).
    - by rewrite omap_concat, <- list_fmap_compose.
    - f_equal. apply take_drop_pages. unfold rows. by rewrite newest_perm. }
  cbv zeta. rewrite Hall.
  assert (Hin : ∀ l, l ∈ omap scan_log rows ↔ ∃ r, logs d !! ID l = Some r ∧ p r = true ∧ scan_log (ID l, r) = Some l).
  { intros l. rewrite list_elem_of_omap. unfold rows. split.
    - intros ([id r] & Hin & El). rewrite newest_perm, elem_of_matching in Hin. destruct (scan_log_fields _ _ _ El) as (<- & _).
      exists r. by destruct Hin.
    - intros (r & Hr & Hpr & El). exists (ID l, r). by rewrite newest_perm, elem_of_matching. }
  split_and!; [apply scan_sorted, newest_sorted| |apply Forall_forall; intros l Hl|done].
  - apply scan_ids. unfold rows. rewrite newest_perm. apply matching_nodup.
  - apply Hin in Hl as (r & _ & Hpr & El). apply scan_log_fields in El as (_ & -> & _). unfold condition in Hp.
    destruct (match given (by_client f) with Some ip => _ | None => _ end); [|done]. injection Hp as <-.
    repeat (apply andb_true_iff in Hpr as [Hpr _]). by apply bool_decide_eq_true_1 in Hpr.
Qed.

(** ** Retention *)

Lemma delete_exact e d org days o : uuid org = Some o → ok e 0 = true →
  let '(d', n) := DeleteOldLogs e d org days in
  logs d' = filter (λ kv, old e o days (snd kv) = false) (logs d)
  ∧ n = Some (size (filter (λ kv, old e o days (snd kv) = true) (logs d))).
Proof.
  intros Ho Hok. unfold DeleteOldLogs. rewrite Ho, Hok. cbn. split; [done|]. f_equal.
  assert (H : matching e d (old e o days) ≡ₚ map_to_list (filter (λ kv, old e o days (snd kv) = true) (logs d))).
  { apply NoDup_Permutation.
    - eapply NoDup_fmap_1, matching_nodup.
    - apply NoDup_map_to_list.
    - intros [k r]. by rewrite elem_of_matching, elem_of_map_to_list, map_lookup_filter_Some. }
  by rewrite H, length_map_to_list.
Qed.

(** The retention removes what it says.  A request to delete removes exactly the entries of the
    caller's organization that are older than the requested number of days, thirty when that is
    no positive number, and answers how many these were; all other entries stay as they are. *)
Theorem retention_exact e d org o days :
  uuid org = Some o → ok e 0 = true →
  let n := positive_or 30 days in
  ∃ d' k, DeleteOldLogs_ e d (Some org) days = (d', DDeleted k n)
    ∧ k + size (logs d') = size (logs d)
    ∧ (∀ id r, logs d' !! id = Some r ↔
         logs d !! id = Some r ∧ (l_org r = o → (db_now e - n * (24 * hour) <= l_created r)%Z))
    ∧ errors d' = errors d ∧ stats d' = stats d ∧ organizations d' = organizations d.
Proof using Type.
  clear inet parse_time. intros Ho Hok n. pose proof (delete_exact e d org n o Ho Hok) as H. unfold DeleteOldLogs_. fold n.
  assert (Hrest : ∀ d' k, DeleteOldLogs e d org n = (d', k) → errors d' = errors d ∧ stats d' = stats d ∧ organizations d' = organizations d).
  { unfold DeleteOldLogs. rewrite Ho, Hok. by intros d' k [= <- <-]. }
  destruct (DeleteOldLogs e d org n) as [d' k'] eqn:E. destruct H as [Hl ->]. destruct (Hrest _ _ eq_refl) as (H1 & H2 & H3).
  eexists d', _. split_and!; [done| |intros id r|done..].
  - assert (Hf : logs d' = filter (λ kv, ¬ old e o n (snd kv) = true) (logs d)).
    { rewrite Hl. apply map_filter_ext. intros id r _. cbn. by rewrite not_true_iff_false. }
    rewrite Hf, <- map_size_disj_union by apply map_disjoint_filter_complement. f_equal. apply map_filter_union_complement.
  - rewrite Hl, map_lookup_filter_Some. cbn. unfold old. rewrite andb_false_iff, bool_decide_eq_false, Z.ltb_ge. destruct (decide (l_org r = o)); tauto.
Qed.

(** ** A logged query is the first entry of the log *)

Definition no_filters : filters := mkFilters None None None None None None None.
Definition entry (e : env) (org ip : string) (l : DNSAccessLog) : DNSAccessLog :=
  mkLog (new_id e) org (GatewayID l) ip (Domain l) (QueryType l) (Verdict l) (ThreatLevel l) (ThreatCategory l) (PolicyName l) (Action l)
    (Severity l) (ResponseTimeMs l) (ResponseCode l) (db_now e).
Lemma newest_head {V} (key : V → Z) rows (x : string * V) :
  x ∈ rows → (∀ y, y ∈ rows → y = x ∨ (key (snd y) < key (snd x))%Z) → ∃ rest, newest key rows = x :: rest.
Proof.
  intros Hx Hmax. pose proof (newest_perm key rows) as Hp. pose proof (newest_sorted key rows) as Hs.
  destruct (newest key rows) as [|y rest]; [rewrite <- Hp in Hx; by apply elem_of_nil in Hx|].
  assert (Hy : y ∈ rows) by (rewrite <- Hp; apply list_elem_of_here).
  destruct (Hmax y Hy) as [->|Hlt]; [by exists rest|]. apply StronglySorted_inv in Hs as [_ Hf].
  rewrite <- Hp in Hx. apply elem_of_cons in Hx as [->|Hx]; [lia|]. rewrite list.Forall_forall in Hf. specialize (Hf _ Hx). lia.
Qed.

(** A query that was logged after all others is the first entry of its organization. *)
Theorem logged_first e d log d' e' k :
  LogDNSQuery e d log = (d', true) → logs d !! new_id e = None → (∀ id r, logs d !! id = Some r → (l_created r < db_now e)%Z) →
  ok e' 0 = true → (0 < k)%Z →
  ∃ org ip rest, uuid (OrgID log) = Some org ∧ inet (ClientIP log) = Some ip
    ∧ GetDNSLogs e' 0 d' (OrgID log) no_filters k 0 = Some (entry e org ip log :: rest).
Proof.
  unfold LogDNSQuery. destruct (uuid (OrgID log)) as [org|] eqn:Ho; [|done]. destruct (inet (ClientIP log)) as [ip|] eqn:Hip; [|done].
  destruct (_ && _); [|done]. intros [= <-] Hfresh Hold Hok Hk. unfold GetDNSLogs. rewrite Ho. cbn [mbind option_bind condition given by_client no_filters].
  rewrite Hok, (proj2 (Z.leb_le 0 k)) by lia. cbn [andb Z.leb Z.compare]. set (row := mkLogRow org _ ip _ _ _ _ _ _ _ _ _ _ _).
  set (rows := matching _ _ _). destruct (newest_head l_created rows (new_id e, row)) as [rest Hrest].
  - unfold rows. rewrite elem_of_matching. split; [apply lookup_insert_eq|]. cbn. by rewrite bool_decide_eq_true_2.
  - intros [id r] Hin. unfold rows in Hin. apply elem_of_matching in Hin as [Hin _]. cbn in Hin.
    destruct (decide (new_id e = id)) as [<-|Hid]; [left; rewrite lookup_insert_eq in Hin; congruence|right].
    rewrite lookup_insert_ne in Hin by done. by apply (Hold id).
  - exists org, ip, (omap scan_log (take (Z.to_nat k - 1) rest)). split_and!; [done..|]. unfold page. rewrite Hrest. cbn [Z.to_nat drop].
    destruct (Z.to_nat k) as [|k'] eqn:Ek; [lia|]. cbn [take omap list_omap scan_log]. by rewrite Nat.sub_succ, Nat.sub_0_r.
Qed.

(** ** The block rate *)

Lemma percent_bounds n total v : n ≤ total → percent n total = Some v → (0 <= v <= 10000)%Z.
Proof.
  unfold percent. intros Hn. destruct (Nat.eqb_spec total 0); [done|]. intros [= <-]. split.
  - apply Z.div_pos; lia.
  - apply Z.lt_succ_r, Z.div_lt_upper_bound; lia.
Qed.
(** The block rate is a percentage, and there is none for an empty log. *)
Theorem block_rate_bounds e i d org hours v : GetBlockRatePercent e i d org hours = Some v → (0 <= v <= 10000)%Z.
Proof.
  unfold GetBlockRatePercent. destruct (uuid org) as [o|]; [|done]. destruct (ok e i); [|done]. apply percent_bounds.
  apply filter_length_le.
Qed.

End Store.

(** ** Examples *)

Definition demo_uuid (s : string) : option string := if bool_decide (s = "") then None else Some (ToLower s).
Definition demo_env (id : string) (t : Z) : env := mkEnv id (t * second)%Z (λ _, true) canonical_order.
Definition demo_log (domain verdict : string) : DNSAccessLog :=
  mkLog "" "ORG" "gw1" "10.0.0.9" domain "A" verdict "none" "" "" "allow" "info" 3 0 0.
Definition demo_db0 : DB := mkDB ∅ ∅ [] {["org"]}.
Definition demo_db1 : DB := fst (LogDNSQuery demo_uuid Some (demo_env "1" 100) demo_db0 (demo_log "a.example" "allow")).
Definition demo_db2 : DB := fst (LogDNSQuery demo_uuid Some (demo_env "2" 9000000) demo_db1 (demo_log "b.example" "block")).
#[local] Instance demo_float : Float64 := { F := Z * Z; hundredths n := (n, 100%Z); fadd a b := (fst a + fst b, 100)%Z; fdiv a b := (fst a, snd b); of_nat n := (0%Z, Z.of_nat n) }.

Lemma log_pages_exact_witness :
  ∃ pages : nat → list DNSAccessLog, (ID <$> concat (pages <$> seq 0 2)) = ["2"; "1"]
    ∧ StronglySorted created_before (concat (pages <$> seq 0 2)).
Proof.
  destruct (log_pages_exact demo_uuid Some (demo_env "3" 9000001) demo_db2 "Org" "org" no_filters (λ r, bool_decide (l_org r = "org") && true && true && true && true && true && true && true) 1 2)
    as (pages & Hp & Hs & _ & _ & _); [reflexivity|reflexivity|reflexivity|vm_compute; lia|].
  exists pages. split; [|exact Hs]. cbn [seq fmap list_fmap concat].
  destruct (Hp 0) as [H0 _], (Hp 1) as [H1 _]. vm_compute in H0, H1. injection H0 as <-. injection H1 as <-. reflexivity.
Defined.
Lemma retention_exact_witness :
  ∃ d' k, DeleteOldLogs_ demo_uuid (demo_env "3" 9000001) demo_db2 (Some "Org") (Some "60") = (d', DDeleted k 60) ∧ k = 1
    ∧ k + size (logs d') = 2.
Proof.
  destruct (retention_exact demo_uuid (demo_env "3" 9000001) demo_db2 "Org" "org" (Some "60")) as (d' & k & H & Hk & _); [reflexivity..|].
  exists d', k. vm_compute in H. injection H as <- <-. split_and!; [vm_compute; reflexivity|reflexivity|exact Hk].
Defined.

End DnsLogs.
