(* ===== verification/Tenants.v ===== *)
(** * The tenants of the platform

    [src/internal/db/tenant_store.go] and [src/internal/api/handlers/tenant_handler.go]: the
    overview of the tenants, of the operators that manage them, their entitlements and their
    posture profiles, as queries over the tables.

    [uuid] is the database's reading of an identifier.  The text of a time, [::text], is an
    argument, [time_text], and so is [host], the address without its mask.  The DNS log is the table of
    [DnsLogs]; the mail service of [EmailReport] is an argument. *)

From S2P Require Import Prelude GoStrings Sql DnsLogs.
From stdpp Require Import sorting.
#[local] Open Scope string_scope.
#[local] Open Scope nat_scope.
#[local] Open Scope list_scope.

Module Tenants.
Import GoStrings Sql.
Import DnsLogs (log_row, l_org, l_verdict, l_created, l_domain, l_action, l_policy, l_category, l_client).

(** ** The tables *)

Record org_row := mkOrg {
  o_name : string;
  o_type : string;
  o_operator : option string;
  o_plan : option string;
  o_region : option string;
  o_status : option string;
  o_devices : Z;
}.
Record device_row := mkDevice {
  d_org : string; d_id : option string; d_name : option string; d_os : option string; d_version : option string; d_compliance : option string;
  d_managed : string; d_seen : option Z;
}.
Record policy_row := mkPolicy {
  p_org : string; p_name : string; p_action : string; p_sequence : Z; p_enabled : bool;
  p_apps : list string; p_categories : list string; p_groups : list string;
}.
Record app_row := mkApp { a_org : string; a_name : string; a_vendor : string; a_category : string; a_devices : Z; a_risk : string; a_duplicates : string }.
Record SubscriptionTier := mkTier {
  Tier : string; DisplayName : string; Rank : Z; MaxGateways : Z; TenancyType : string; MaxClientUsers : Z; MonthlyPriceCts : Z; Description : string;
}.
Record PostureProfile := mkPosture { CheckDeviceCert : bool; CheckAV : bool; CheckDiskEncryption : bool; CheckOSPatch : bool }.

(** The tables by primary key; of users, client users and gateways the organization is
    read, of features the plan they need, of the named things that policies refer to the name. *)
Record DB := mkDB {
  orgs : gmap string org_row;
  users : gmap string string;
  client_users : gmap string string;
  gateways : gmap string string;
  devices : gmap string device_row;
  policies : gmap string policy_row;
  dns_logs : gmap string log_row;
  apps : gmap string app_row;
  tiers : gmap string SubscriptionTier;
  features : gmap string string;
  posture : gmap string PostureProfile;
  cloud_apps : gmap string string;
  url_categories : gmap string string;
  groups : gmap string string;
}.
Definition with_posture (d : DB) m : DB :=
  mkDB (orgs d) (users d) (client_users d) (gateways d) (devices d) (policies d) (dns_logs d) (apps d) (tiers d) (features d) m
    (cloud_apps d) (url_categories d) (groups d).

Record env := mkEnv { ok : nat → bool; order : range_order }.

(** The outcome of a query: an error, no row, or the rows. *)
Inductive query_error := NoRows | Failed.

(** ** The answers *)

Record TenantSummary := mkSummary {
  s_ID : string; s_Name : string; s_TenantType : string; s_Operator : string; s_Plan : string; s_Region : string; s_Status : string;
  s_Admins : nat; s_ClientUsers : nat; s_Policies : nat; s_Devices : Z; s_DNSTotal : nat; s_DNSBlocked : nat;
}.
Record TenantLogRow := mkLogLine {
  g_Domain : string; g_Verdict : string; g_Action : string; g_PolicyName : string; g_ThreatCategory : string; g_ClientIP : string; g_CreatedAt : string;
}.
Record TenantPolicyRow := mkPolicyLine { y_ID : string; y_Name : string; y_Action : string; y_Sequence : Z; y_Enabled : bool }.
Record GhostedAppRow := mkAppLine {
  h_Name : string; h_Vendor : string; h_Category : string; h_DeviceCount : Z; h_RiskLevel : string; h_Duplicates : string; h_TenantName : string; h_TenantID : string;
}.
Record TenantDetail := mkDetail { Summary : TenantSummary; RecentBlocks : list TenantLogRow; Policies : list TenantPolicyRow; GhostedApps : list GhostedAppRow }.
Record Entitlements := mkEntitlements {
  e_TenantID : string; e_TenantName : string; e_Tier : string; e_Limits : SubscriptionTier; e_GatewaysUsed : nat; e_ClientUsersUsed : nat; e_Features : nat;
}.
Record DeviceRow := mkDeviceLine {
  v_DeviceID : string; v_Hostname : string; v_OSType : string; v_OSVersion : string; v_Compliance : string; v_ManagedType : string;
  v_LastSeen : string; v_TenantName : string; v_TenantID : string;
}.
Record PolicyDetail := mkPolicyDetail {
  z_ID : string; z_TenantID : string; z_TenantName : string; z_Name : string; z_Action : string; z_Sequence : Z; z_Enabled : bool;
  z_CloudApps : string; z_URLCategories : string; z_Groups : string;
}.
Record OperatorSummary := mkOperator { w_Operator : string; w_Tenants : nat; w_Dedicated : nat; w_Shared : nat; w_Devices : Z }.

(** ** Queries *)

(** [SELECT count( * ) ... WHERE] *)
Definition count {V} (p : V → bool) (m : gmap string V) : nat := length (select canonical_order (λ _, p) m).
Definition owned (org : string) (o : string) : bool := bool_decide (o = org).
Definition zero_tier : SubscriptionTier := mkTier "" "" 0 0 "" 0 0 "".
Definition direct : string := "ApexAegis (direct)".

Definition ListTiers (e : env) (d : DB) : option (list SubscriptionTier) :=
  if ok e 0 then Some (merge_sort (λ a b, (Rank a <=? Rank b)%Z) (values (order e) (tiers d))) else None.

Section Store.
Context (uuid : string → option string) (time_text : Z → string) (host : string → string) (email : string → string → string → bool * string).

(** The features a tier includes: those whose needed plan is a tier of at most its rank. *)
Definition included (d : DB) (rank : Z) (plan : string) : bool :=
  match tiers d !! plan with Some t => (Rank t <=? rank)%Z | None => false end.
Definition GetEntitlements (e : env) (d : DB) (orgID : string) : result query_error Entitlements :=
  match uuid orgID with
  | None => Err Failed
  | Some org =>
      if negb (ok e 0) then Err Failed
      else match orgs d !! org with
           | None => Err NoRows
           | Some o =>
               let plan := default "standard" (o_plan o) in
               let limits := if ok e 1 then default zero_tier (tiers d !! plan) else zero_tier in
               Ok (mkEntitlements orgID (o_name o) plan limits
                     (if ok e 3 then count (owned org) (gateways d) else 0)
                     (if ok e 2 then count (owned org) (client_users d) else 0)
                     (if ok e 4 then count (included d (Rank limits)) (features d) else 0))
           end
  end.

Definition default_posture : PostureProfile := mkPosture true true true false.
(** [INSERT ... ON CONFLICT DO NOTHING], whose key refers to the organizations. *)
Definition ensure_posture (d : DB) (org : string) : option DB :=
  match posture d !! org with
  | Some _ => Some d
  | None => if bool_decide (is_Some (orgs d !! org)) then Some (with_posture d (<[org := default_posture]> (posture d))) else None
  end.
Definition GetPostureProfile (e : env) (d : DB) (orgID : string) : DB * option PostureProfile :=
  match uuid orgID with
  | None => (d, None)
  | Some org =>
      match (if ok e 0 then ensure_posture d org else None) with
      | None => (d, None)
      | Some d => (d, if ok e 1 then posture d !! org else None)
      end
  end.
Definition UpsertPostureProfile (e : env) (d : DB) (orgID : string) (p : PostureProfile) : DB * bool :=
  match uuid orgID with
  | Some org =>
      if ok e 0 && bool_decide (is_Some (orgs d !! org)) then (with_posture d (<[org := p]> (posture d)), true) else (d, false)
  | None => (d, false)
  end.

(** Rows with their organization, [JOIN organizations o ON o.id = x.org_id], of one tenant
    or, for the empty text, of all; [None]: the text is no identifier. *)
Definition scope (tenantID : string) : option (string → bool) :=
  if bool_decide (tenantID = "") then Some (λ _, true) else (λ t o, bool_decide (o = t)) <$> uuid tenantID.
Definition joined {V} (e : env) (d : DB) (org_of : V → string) (p : string → bool) (m : gmap string V) : list (V * string * org_row) :=
  omap (λ kv, (λ o, (snd kv, org_of (snd kv), o)) <$> orgs d !! org_of (snd kv)) (select (order e) (λ _ v, p (org_of v)) m).
(** Nulls come last. *)
Definition opt_leb (a b : option string) : bool :=
  match a, b with Some x, Some y => String.leb x y | Some _, None => true | None, None => true | None, Some _ => false end.
Definition device_leb (a b : device_row * string * org_row) : bool :=
  String.ltb (o_name (snd a)) (o_name (snd b)) || (String.eqb (o_name (snd a)) (o_name (snd b)) && opt_leb (d_name (fst (fst a))) (d_name (fst (fst b)))).
Definition device_line (x : device_row * string * org_row) : DeviceRow :=
  let '(v, org, o) := x in
  mkDeviceLine (default "" (d_id v)) (default "" (d_name v)) (default "" (d_os v)) (default "" (d_version v)) (default "unknown" (d_compliance v))
    (d_managed v) (match d_seen v with Some t => time_text t | None => "" end) (o_name o) org.
Definition ListDevices (e : env) (d : DB) (tenantID : string) : option (list DeviceRow) :=
  match scope tenantID with
  | Some p => if ok e 0 then Some (device_line <$> merge_sort device_leb (joined e d d_org p (devices d))) else None
  | None => None
  end.
Definition app_leb (a b : app_row * string * org_row) : bool :=
  String.ltb (o_name (snd a)) (o_name (snd b)) || (String.eqb (o_name (snd a)) (o_name (snd b)) && (a_devices (fst (fst b)) <=? a_devices (fst (fst a)))%Z).
Definition app_line (x : app_row * string * org_row) : GhostedAppRow :=
  let '(a, org, o) := x in mkAppLine (a_name a) (a_vendor a) (a_category a) (a_devices a) (a_risk a) (a_duplicates a) (o_name o) org.
Definition ListGhostedApps (e : env) (i : nat) (d : DB) (tenantID : string) : option (list GhostedAppRow) :=
  match scope tenantID with
  | Some p => if ok e i then Some (app_line <$> merge_sort app_leb (joined e d a_org p (apps d))) else None
  | None => None
  end.

(** [string_agg(name, ', ')] of the rows whose identifier is in the list *)
Definition names_in (e : env) (m : gmap string string) (ids : list string) : string :=
  Join (snd <$> select (order e) (λ k _, bool_decide (k ∈ ids)) m) ", ".
Definition GetPolicyByID (e : env) (d : DB) (id : string) : result query_error PolicyDetail :=
  if negb (ok e 0) then Err Failed
  else match policies d !! id with
       | None => Err NoRows
       | Some p =>
           Ok (mkPolicyDetail id (p_org p) (match orgs d !! p_org p with Some o => o_name o | None => "" end) (p_name p) (p_action p) (p_sequence p) (p_enabled p)
                 (names_in e (cloud_apps d) (p_apps p)) (names_in e (url_categories d) (p_categories p)) (names_in e (groups d) (p_groups p)))
       end.

Definition live (o : org_row) : bool := match o_status o with None => true | Some s => negb (bool_decide (s = "deleted")) end.
Definition log_of (org : string) (r : log_row) : bool := bool_decide (l_org r = org).
Definition blocked (r : log_row) : bool := bool_decide (l_verdict r = "blocked").
Definition tenantSummary (d : DB) (id : string) (o : org_row) : TenantSummary :=
  mkSummary id (o_name o) (o_type o) (default direct (o_operator o)) (default "" (o_plan o)) (default "" (o_region o)) (default "active" (o_status o))
    (count (owned id) (users d)) (count (owned id) (client_users d)) (count (λ p, bool_decide (p_org p = id)) (policies d))
    (if (0 <? o_devices o)%Z then o_devices o else Z.of_nat (count (λ v, bool_decide (d_org v = id)) (devices d)))
    (count (log_of id) (dns_logs d)) (count (λ r, log_of id r && blocked r) (dns_logs d)).
Definition name_leb (a b : string * org_row) : bool := String.leb (o_name (snd a)) (o_name (snd b)).
Definition ListTenantSummaries (e : env) (d : DB) : option (list TenantSummary) :=
  if ok e 0 then Some ((λ kv, tenantSummary d (fst kv) (snd kv)) <$> merge_sort name_leb (select (order e) (λ _, live) (orgs d))) else None.

(** [COALESCE(NULLIF(operator, ''), ...)] *)
Definition operator_of (o : org_row) : string :=
  match o_operator o with Some s => if bool_decide (s = "") then direct else s | None => direct end.
Definition roll_up (rows : list org_row) (op : string) : OperatorSummary :=
  let mine := List.filter (λ o, bool_decide (operator_of o = op)) rows in
  mkOperator op (length mine) (length (List.filter (λ o, bool_decide (o_type o = "dedicated")) mine))
    (length (List.filter (λ o, bool_decide (o_type o = "shared")) mine)) (foldr (λ o n, o_devices o + n)%Z 0%Z mine).
Definition operator_leb (a b : OperatorSummary) : bool :=
  (w_Tenants b <? w_Tenants a) || ((w_Tenants b =? w_Tenants a) && String.leb (w_Operator a) (w_Operator b)).
Definition ListOperators (e : env) (d : DB) : option (list OperatorSummary) :=
  if ok e 0 then
    let rows := snd <$> select (order e) (λ _, live) (orgs d) in
    Some (merge_sort operator_leb (roll_up rows <$> remove_dups (operator_of <$> rows)))
  else None.

Definition log_line (kv : string * log_row) : TenantLogRow :=
  let r := snd kv in
  mkLogLine (l_domain r) (l_verdict r) (l_action r) (default "" (l_policy r)) (default "" (l_category r)) (host (l_client r)) (time_text (l_created r)).
Definition policy_leb (a b : string * policy_row) : bool := (p_sequence (snd a) <=? p_sequence (snd b))%Z.
Definition policy_line (kv : string * policy_row) : TenantPolicyRow :=
  mkPolicyLine (fst kv) (p_name (snd kv)) (p_action (snd kv)) (p_sequence (snd kv)) (p_enabled (snd kv)).
Definition GetTenantDetail (e : env) (d : DB) (tenantID : string) : result query_error TenantDetail :=
  match uuid tenantID with
  | None => Err Failed
  | Some org =>
      if negb (ok e 0) then Err Failed
      else match orgs d !! org with
           | None => Err NoRows
           | Some o =>
               if negb (ok e 1) || negb (ok e 2) then Err Failed
               else match ListGhostedApps e 3 d tenantID with
                    | None => Err Failed
                    | Some ghosted =>
                        Ok (mkDetail (tenantSummary d org o)
                              (log_line <$> page l_created 25 0 (select (order e) (λ _, log_of org) (dns_logs d)))
                              (policy_line <$> take 50 (merge_sort policy_leb (select (order e) (λ _ p, bool_decide (p_org p = tenantID)) (policies d))))
                              ghosted)
                    end
           end
  end.

(** ** The handlers *)

Inductive reply :=
| TErr (status : Z) (msg : string)
| TTenants (l : list TenantSummary)
| TOperators (platform : string) (l : list OperatorSummary)
| TSent (detail : string)
| TTiers (l : list SubscriptionTier)
| TEntitlements (x : Entitlements)
| TPosture (p : PostureProfile)
| TSaved
| TDevices (l : list DeviceRow)
| TApps (l : list GhostedAppRow)
| TPolicy (p : PolicyDetail)
| TTenant (t : TenantDetail).

Definition or_500 {A} (msg : string) (f : A → reply) (o : option A) : reply := match o with Some a => f a | None => TErr 500 msg end.
Definition or_404 {A} (missing msg : string) (f : A → reply) (r : result query_error A) : reply :=
  match r with Ok a => f a | Err NoRows => TErr 404 missing | Err Failed => TErr 500 msg end.

Definition ListTenants (e : env) (d : DB) : reply := or_500 "failed to load tenant overview" TTenants (ListTenantSummaries e d).
Definition ListOperators_ (e : env) (d : DB) : reply := or_500 "failed to load operators" (TOperators "ApexAegis") (ListOperators e d).
Definition EmailReport (body : option (string * string * string)) : reply :=
  match body with
  | None => TErr 400 "invalid request body"
  | Some (to, subject, text) =>
      if bool_decide (TrimSpace to = "") then TErr 400 "recipient (to) is required"
      else let subject := if bool_decide (TrimSpace subject = "") then "ApexAegis report" else subject in
           match email to subject text with (true, reason) => TSent reason | (false, reason) => TErr 502 reason end
  end.
Definition ListTiers_ (e : env) (d : DB) : reply := or_500 "failed to load tiers" TTiers (ListTiers e d).
Definition GetEntitlements_ (e : env) (d : DB) (id : string) : reply :=
  or_404 "tenant not found" "failed to load entitlements" TEntitlements (GetEntitlements e d id).
Definition no_org : reply := TErr 401 "organization context required".
Definition GetPostureProfile_ (e : env) (d : DB) (orgID : string) : DB * reply :=
  if bool_decide (orgID = "") then (d, no_org)
  else let '(d, p) := GetPostureProfile e d orgID in (d, or_500 "failed to load posture profile" TPosture p).
Definition UpdatePostureProfile (e : env) (d : DB) (orgID : string) (body : option PostureProfile) : DB * reply :=
  if bool_decide (orgID = "") then (d, no_org)
  else match body with
       | None => (d, TErr 400 "invalid request body")
       | Some p => match UpsertPostureProfile e d orgID p with (d, true) => (d, TSaved) | (d, false) => (d, TErr 500 "failed to save posture profile") end
       end.
Definition ListDevices_ (e : env) (d : DB) (tenantID : string) : reply := or_500 "failed to load devices" TDevices (ListDevices e d tenantID).
Definition ListGhosted (e : env) (d : DB) : reply := or_500 "failed to load ghosted apps" TApps (ListGhostedApps e 0 d "").
Definition GetPolicy (e : env) (d : DB) (id : string) : reply := or_404 "policy not found" "failed to load policy" TPolicy (GetPolicyByID e d id).
Definition GetTenant (e : env) (d : DB) (id : string) : reply := or_404 "tenant not found" "failed to load tenant" TTenant (GetTenantDetail e d id).

(** ** The overview and its parts *)

Lemma filter_perm {A} (f : A → bool) l k : l ≡ₚ k → List.filter f l ≡ₚ List.filter f k.
Proof.
  induction 1 as [|x l k H IH|x y l|l k j H1 IH1 H2 IH2]; cbn; [done| | |by etrans].
  - destruct (f x); [by constructor|done].
  - destruct (f x), (f y); try done. constructor.
Qed.
Lemma filter_omap {A B} (f : B → bool) (g : A → option B) (h : A → bool) l :
  (∀ x y, g x = Some y → f y = h x) → List.filter f (omap g l) = omap g (List.filter h l).
Proof.
  intros H. induction l as [|x l IH]; cbn; [done|]. destruct (g x) as [y|] eqn:E.
  - cbn. rewrite (H _ _ E). destruct (h x); cbn; [by rewrite E, IH|done].
  - destruct (h x); cbn; [by rewrite E|done].
Qed.
Lemma filter_fmap {A B} (f : B → bool) (g : A → B) l : List.filter f (g <$> l) = g <$> List.filter (f ∘ g) l.
Proof. induction l as [|x l IH]; cbn; [done|]. rewrite IH. by destruct (f (g x)). Qed.
Lemma filter_filter {A} (f g : A → bool) l : List.filter f (List.filter g l) = List.filter (λ x, g x && f x) l.
Proof. induction l as [|x l IH]; cbn; [done|]. destruct (g x); cbn; by rewrite IH. Qed.

(** A view of one tenant is what the view of all has of it. *)
Lemma joined_scope {V} e d (org_of : V → string) (m : gmap string V) t :
  joined e d org_of (λ o, bool_decide (o = t)) m
  = List.filter (λ x, bool_decide (snd (fst x) = t)) (joined e d org_of (λ _, true) m).
Proof.
  unfold joined. erewrite (filter_omap _ _ (λ kv, bool_decide (org_of (snd kv) = t))).
  - f_equal. unfold select. by rewrite filter_filter.
  - intros kv y Hy. apply fmap_Some in Hy as (o & _ & ->). done.
Qed.
Lemma view_scope {V L} e d (org_of : V → string) (m : gmap string V) (leb : V * string * org_row → V * string * org_row → bool)
    (line : V * string * org_row → L) (tenant : L → string) t :
  (∀ x, tenant (line x) = snd (fst x)) →
  line <$> merge_sort leb (joined e d org_of (λ o, bool_decide (o = t)) m)
  ≡ₚ List.filter (λ l, bool_decide (tenant l = t)) (line <$> merge_sort leb (joined e d org_of (λ _, true) m)).
Proof.
  intros Hl. rewrite filter_fmap. apply fmap_Permutation. rewrite merge_sort_Permutation, joined_scope.
  etrans; [|apply filter_perm; symmetry; apply merge_sort_Permutation]. apply reflexive_eq, List.filter_ext. intros x. unfold compose. by rewrite Hl.
Qed.

(** The inventory of a tenant is its part of the overview.  For an identifier of a tenant the
    devices listed are, up to order, those of the listing of all tenants that carry this
    tenant's identifier, and likewise for the unmanaged applications. *)
Theorem tenant_views_agree e d t o :
  t ≠ "" → uuid t = Some o →
  (∀ all, ListDevices e d "" = Some all →
     ∃ l, ListDevices e d t = Some l ∧ l ≡ₚ List.filter (λ x, bool_decide (v_TenantID x = o)) all)
  ∧ (∀ all, ListGhostedApps e 0 d "" = Some all →
     ∃ l, ListGhostedApps e 0 d t = Some l ∧ l ≡ₚ List.filter (λ x, bool_decide (h_TenantID x = o)) all).
Proof.
  intros Ht Ho. unfold ListDevices, ListGhostedApps, scope. rewrite (bool_decide_eq_false_2 (t = "")) by done.
  rewrite Ho. cbn. destruct (ok e 0); [|done]. split; intros all [= <-]; eexists; (split; [done|]).
  - apply (view_scope e d d_org (devices d) device_leb device_line v_TenantID). by intros [[v org] x].
  - apply (view_scope e d a_org (apps d) app_leb app_line h_TenantID). by intros [[v org] x].
Qed.

(** ** Operators *)

Definition sum {A} (f : A → Z) (l : list A) : Z := foldr (λ x n, f x + n)%Z 0%Z l.
Lemma sum_perm {A} (f : A → Z) l k : l ≡ₚ k → sum f l = sum f k.
Proof. unfold sum. induction 1; cbn in *; lia. Qed.
Lemma sum_fmap {A B} (f : B → Z) (g : A → B) l : sum f (g <$> l) = sum (λ x, f (g x)) l.
Proof. unfold sum. induction l as [|x l IH]; cbn; [done|]. by rewrite IH. Qed.
Lemma sum_add {A} (f g : A → Z) l : sum (λ x, f x + g x)%Z l = (sum f l + sum g l)%Z.
Proof. unfold sum. induction l as [|x l IH]; cbn; lia. Qed.
Lemma sum_ext {A} (f g : A → Z) l : (∀ x, f x = g x) → sum f l = sum g l.
Proof. intros H. unfold sum. induction l as [|x l IH]; cbn; [done|]. by rewrite H, IH. Qed.
Lemma sum_absent (k : string) (n : Z) l : k ∉ l → sum (λ x, if bool_decide (k = x) then n else 0)%Z l = 0%Z.
Proof.
  unfold sum. induction l as [|x l IH]; cbn; [done|]. intros [Hx Hl]%not_elem_of_cons. rewrite bool_decide_eq_false_2 by done. by rewrite IH.
Qed.
Lemma sum_one (k : string) (n : Z) l : NoDup l → k ∈ l → sum (λ x, if bool_decide (k = x) then n else 0)%Z l = n.
Proof.
  intros Hnd Hin. induction Hnd as [|x l Hx Hnd IH]; [by apply elem_of_nil in Hin|]. unfold sum in *. cbn.
  apply elem_of_cons in Hin as [->|Hin].
  - rewrite bool_decide_eq_true_2 by done. pose proof (sum_absent x n l Hx) as H. unfold sum in H. rewrite H. lia.
  - rewrite bool_decide_eq_false_2 by by intros ->. by rewrite IH.
Qed.
(** Rows grouped by a key are counted once. *)
Lemma sum_groups {A} (key : A → string) (f : A → Z) rows keys : NoDup keys → (∀ x, x ∈ rows → key x ∈ keys) →
  sum (λ k, sum f (List.filter (λ x, bool_decide (key x = k)) rows)) keys = sum f rows.
Proof.
  intros Hnd. induction rows as [|x rows IH]; intros Hin; [clear; unfold sum; induction keys; cbn in *; lia|].
  transitivity (sum (λ k, (if bool_decide (key x = k) then f x else 0) + sum f (List.filter (λ y, bool_decide (key y = k)) rows))%Z keys).
  - apply sum_ext. intros k. cbn. by case_bool_decide.
  - rewrite sum_add, sum_one; [|done|apply Hin, list_elem_of_here]. rewrite IH; [done|]. intros y Hy. apply Hin. by apply list_elem_of_further.
Qed.
Lemma sum_length {A} (l : list A) : sum (λ _, 1%Z) l = Z.of_nat (length l).
Proof. unfold sum. induction l as [|x l IH]; cbn in *; lia. Qed.

Lemma types_bounded (l : list org_row) :
  length (List.filter (λ o, bool_decide (o_type o = "dedicated")) l) + length (List.filter (λ o, bool_decide (o_type o = "shared")) l) <= length l.
Proof.
  induction l as [|o l IH]; cbn; [done|]. destruct (decide (o_type o = "dedicated")) as [E|E].
  - rewrite (bool_decide_eq_true_2 (o_type o = "dedicated")), (bool_decide_eq_false_2 (o_type o = "shared")) by (rewrite E; done).
    cbn. lia.
  - rewrite (bool_decide_eq_false_2 (o_type o = "dedicated")) by done. destruct (bool_decide _); cbn; lia.
Qed.
Lemma operators_distinct rows : NoDup (w_Operator <$> (roll_up rows <$> remove_dups (operator_of <$> rows))).
Proof. rewrite <- list_fmap_compose, list_fmap_id. apply NoDup_remove_dups. Qed.
#[local] Instance operator_total : Total (λ a b, Is_true (operator_leb a b)).
Proof.
  intros a b. rewrite !Is_true_true. unfold operator_leb. rewrite !orb_true_iff, !andb_true_iff, !Nat.ltb_lt, !Nat.eqb_eq.
  destruct (String.leb_total (w_Operator a) (w_Operator b)), (Nat.lt_trichotomy (w_Tenants a) (w_Tenants b)) as [?|[?|?]]; auto.
Qed.
Lemma operators_sorted l : StronglySorted (λ a b, w_Tenants b <= w_Tenants a) (merge_sort operator_leb l).
Proof.
  set (R := λ a b : OperatorSummary, w_Tenants b <= w_Tenants a).
  assert (Hs : Sorted operator_leb (merge_sort operator_leb l)) by apply Sorted_merge_sort, _.
  assert (Himpl : ∀ a b, operator_leb a b → R a b).
  { intros a b H. apply Is_true_true in H. unfold operator_leb in H. unfold R. apply orb_true_iff in H as [H|H]; [apply Nat.ltb_lt in H; lia|].
    apply andb_true_iff in H as [H _]. apply Nat.eqb_eq in H. lia. }
  apply Sorted_StronglySorted; [intros a b c; unfold R; lia|]. induction Hs as [|x k Hs IH Hh]; constructor; [done|].
  destruct Hh; constructor. by apply Himpl.
Qed.

(** The operators account for all tenants.  In the roll-up each operator appears once, those with
    more tenants first and none without a tenant; its tenants are the dedicated, the shared and
    those of another type; the numbers of tenants add up to the tenants that are not deleted, and
    the numbers of devices to the device counts of these. *)
Theorem operators_account e d l :
  ListOperators e d = Some l →
  let rows := snd <$> select (order e) (λ _, live) (orgs d) in
  NoDup (w_Operator <$> l) ∧ StronglySorted (λ a b, w_Tenants b <= w_Tenants a) l
  ∧ Forall (λ w, 0 < w_Tenants w ∧ w_Dedicated w + w_Shared w <= w_Tenants w) l
  ∧ sum (λ w, Z.of_nat (w_Tenants w)) l = Z.of_nat (length rows) ∧ sum w_Devices l = sum o_devices rows.
Proof.
  unfold ListOperators. destruct (ok e 0); [|done]. set (rows := snd <$> select (order e) (λ _, live) (orgs d)). intros [= <-].
  cbv zeta. set (ops := remove_dups (operator_of <$> rows)).
  assert (Hnd : NoDup ops) by apply NoDup_remove_dups.
  assert (Hin : ∀ x, x ∈ rows → operator_of x ∈ ops).
  { intros x Hx. apply elem_of_remove_dups, list_elem_of_fmap. by exists x. }
  split_and!.
  - rewrite merge_sort_Permutation. apply operators_distinct.
  - apply operators_sorted.
  - rewrite merge_sort_Permutation. apply Forall_fmap, Forall_forall. intros op Hop. unfold ops in Hop. rewrite elem_of_remove_dups in Hop. cbn.
    set (mine := List.filter _ rows). split; [|apply types_bounded].
    apply list_elem_of_fmap in Hop as (o & -> & Ho). assert (Hm : o ∈ mine).
    { apply list_elem_of_In, filter_In. split; [by apply list_elem_of_In|by apply bool_decide_eq_true_2]. }
    destruct mine; [by apply elem_of_nil in Hm|cbn; lia].
  - rewrite (sum_perm _ _ _ (merge_sort_Permutation operator_leb _)), sum_fmap, <- (sum_length rows), <- (sum_groups operator_of _ rows ops Hnd Hin).
    apply sum_ext. intros k. by rewrite sum_length.
  - rewrite (sum_perm _ _ _ (merge_sort_Permutation operator_leb _)), sum_fmap. apply (sum_groups operator_of o_devices rows ops Hnd Hin).
Qed.

(** ** Posture profiles *)

(** A posture profile reads back as written.  After a profile was saved for a tenant, reading it
    gives that profile; reading one for a tenant of the platform that has none gives the default
    and stores it; neither changes the profile of another tenant. *)
Theorem posture_roundtrip e e' d org o p x :
  org ≠ "" → uuid org = Some o → orgs d !! o = Some x → (∀ i, ok e i = true) → (∀ i, ok e' i = true) →
  (let '(d1, r1) := UpdatePostureProfile e d org (Some p) in
   r1 = TSaved ∧ GetPostureProfile_ e' d1 org = (d1, TPosture p) ∧ ∀ o', o' ≠ o → posture d1 !! o' = posture d !! o')
  ∧ (let '(d2, r2) := GetPostureProfile_ e d org in
     r2 = TPosture (default default_posture (posture d !! o)) ∧ GetPostureProfile_ e' d2 org = (d2, r2)
     ∧ ∀ o', o' ≠ o → posture d2 !! o' = posture d !! o').
Proof.
  intros Hne Ho Hx Hok Hok'. unfold UpdatePostureProfile, GetPostureProfile_, UpsertPostureProfile, GetPostureProfile.
  rewrite (bool_decide_eq_false_2 (org = "")) by done. rewrite Ho, !Hok, !Hok', Hx. cbn. split.
  - split; [done|]. unfold ensure_posture. cbn. rewrite lookup_insert_eq. cbn. rewrite lookup_insert_eq. split; [done|].
    intros o' Ho'. by rewrite lookup_insert_ne.
  - unfold ensure_posture. destruct (posture d !! o) as [q|] eqn:Hq; cbn.
    + rewrite Hq. cbn. rewrite Hq. done.
    + rewrite Hx. cbn. rewrite !lookup_insert_eq. cbn. rewrite lookup_insert_eq. split_and!; [done|done|].
      intros o' Ho'. by rewrite lookup_insert_ne.
Qed.

(** ** The counts of the overview *)

(** The verdicts the log is documented to have. *)
Definition documented : list string := ["allow"; "block"; "threat_detected"].
(** The overview counts the verdict "blocked", which is none of these: for such a log it reports
    no blocked query. *)
Theorem blocked_never_counted d id o :
  (∀ k r, dns_logs d !! k = Some r → l_verdict r ∈ documented) → s_DNSBlocked (tenantSummary d id o) = 0.
Proof.
  intros H. change (count (λ r, log_of id r && blocked r) (dns_logs d) = 0). unfold count. destruct (select canonical_order (λ _ r, log_of id r && blocked r) (dns_logs d)) as [|[k r] l] eqn:E; [done|].
  assert (Hin : (k, r) ∈ select canonical_order (λ _ r, log_of id r && blocked r) (dns_logs d)) by (rewrite E; apply list_elem_of_here).
  apply elem_of_select in Hin as [Hr Hb]. apply andb_true_iff in Hb as [_ Hb]. apply bool_decide_eq_true_1 in Hb.
  specialize (H k r Hr). rewrite Hb in H. apply (bool_decide_eq_true_2 _) in H. done.
Qed.

End Store.

(** ** Examples *)

Definition demo_uuid (s : string) : option string := if bool_decide (s = "") then None else Some (ToLower s).
Definition demo_env : env := mkEnv (λ _, true) canonical_order.
Definition demo_org (name : string) (op : option string) (n : Z) : org_row := mkOrg name "shared" op (Some "standard") None (Some "active") n.
Definition demo_device (org name : string) : device_row := mkDevice org (Some name) (Some name) None None None "managed" None.
Definition demo_db : DB :=
  mkDB (<["a" := demo_org "Aspire" (Some "StarHub") 7]> (<["b" := demo_org "Beta" (Some "") 0]> {["c" := demo_org "Cee" None 5]}))
    ∅ ∅ ∅ (<["1" := demo_device "a" "laptop"]> {["2" := demo_device "b" "phone"]}) ∅ ∅ ∅ ∅ ∅ ∅ ∅ ∅ ∅.

Lemma operators_account_witness :
  ∃ l, ListOperators demo_env demo_db = Some l ∧ w_Operator <$> l = [direct; "StarHub"] ∧ sum w_Devices l = 12%Z.
Proof.
  eexists. split; [vm_compute; reflexivity|]. split; [reflexivity|].
  eapply (operators_account demo_env demo_db); vm_compute; reflexivity.
Defined.
Lemma tenant_views_agree_witness :
  ∃ l, ListDevices demo_uuid itoa demo_env demo_db "A" = Some l ∧ v_Hostname <$> l = ["laptop"].
Proof.
  destruct (tenant_views_agree demo_uuid itoa demo_env demo_db "A" "a") as [H _]; [done|done|].
  edestruct H as (l & Hl & Hp); [vm_compute; reflexivity|]. exists l. split; [done|]. vm_compute in Hp. apply Permutation_singleton_r in Hp as ->. reflexivity.
Defined.
Lemma posture_roundtrip_witness :
  snd (GetPostureProfile_ demo_uuid demo_env (fst (UpdatePostureProfile demo_uuid demo_env demo_db "B" (Some (mkPosture false true false true)))) "B")
  = TPosture (mkPosture false true false true).
Proof.
  destruct (posture_roundtrip demo_uuid demo_env demo_env demo_db "B" "b" (mkPosture false true false true) (demo_org "Beta" (Some "") 0))
    as [(_ & H & _) _]; [done|done|reflexivity|done|done|]. exact (f_equal snd H).
Defined.

End Tenants.
