(* ===== verification/AuditTrail.v ===== *)
(** * The audit log

    [src/internal/audit/audit.go] and [src/internal/api/middleware/audit.go]: the bounded log of
    what was done ([Window]), and the middleware that writes an entry for every request.

    A request is given with what the handlers left: the status, the keys of its context and the
    last error they registered. *)

From S2P Require Import Prelude GoStrings GoTime Encoding Window Access.
From Stdlib Require Import Ascii.
#[local] Open Scope string_scope.
#[local] Open Scope nat_scope.
#[local] Open Scope list_scope.

Module Audit.
Import GoStrings GoTime Encoding.

(** ** The log *)

Definition EventAuth : string := "authentication".
Definition EventPolicyChange : string := "policy_change".
Definition EventConfigRevert : string := "config_revert".
Definition EventGatewayOp : string := "gateway_operation".
Definition EventScannerRun : string := "scanner_run".
Definition EventOutreach : string := "outreach_email".
Definition EventCertIssue : string := "certificate_issued".
Definition EventDot1XAuth : string := "dot1x_auth".
Definition EventSegmentChange : string := "segment_change".
Definition EventSDNConfig : string := "sdn_config".
Definition EventMeshChange : string := "mesh_change".
Definition EventAdminAction : string := "admin_action".
Definition SevInfo : string := "info".
Definition SevWarning : string := "warning".
Definition SevCritical : string := "critical".

Record AuditEntry := mkEntry {
  ID : string;
  Timestamp : Z;
  EventType : string;
  Severity : string;
  Actor : string;
  ActorIP : string;
  Resource : string;
  Action : string;
  OrgID : string;
  RequestID : string;
  Details : option string;
  Success : bool;
  ErrorMsg : string;
}.
Definition set_timestamp (t : Z) (e : AuditEntry) : AuditEntry :=
  mkEntry (ID e) t (EventType e) (Severity e) (Actor e) (ActorIP e) (Resource e) (Action e) (OrgID e) (RequestID e) (Details e) (Success e) (ErrorMsg e).

Record AuditLog := mkAudit { entries : list AuditEntry; maxEntries : nat }.
Definition defaultMaxEntries : nat := Z.to_nat 10000.
Definition NewAuditLog : AuditLog := mkAudit [] defaultMaxEntries.

Definition stamp (now : Z) (e : AuditEntry) : AuditEntry := if IsZero (Timestamp e) then set_timestamp now e else e.
Definition Record_ (now : Z) (a : AuditLog) (e : AuditEntry) : AuditLog :=
  mkAudit (Window.push (maxEntries a) (entries a) (stamp now e)) (maxEntries a).

Record AuditFilter := mkFilter {
  f_EventType : string; f_Actor : string; f_OrgID : string; f_Resource : string; f_Severity : string;
  f_Since : Z; f_Until : Z; f_Limit : Z; f_Success : option bool;
}.
Definition differs (want have : string) : bool := negb (bool_decide (want = "")) && negb (bool_decide (have = want)).
Definition matchesFilter (e : AuditEntry) (f : AuditFilter) : bool :=
  if differs (f_EventType f) (EventType e) then false
  else if differs (f_Actor f) (Actor e) then false
  else if differs (f_OrgID f) (OrgID e) then false
  else if differs (f_Resource f) (Resource e) then false
  else if differs (f_Severity f) (Severity e) then false
  else if negb (IsZero (f_Since f)) && (Timestamp e <? f_Since f)%Z then false
  else if negb (IsZero (f_Until f)) && (f_Until f <? Timestamp e)%Z then false
  else match f_Success f with Some b => Bool.eqb (Success e) b | None => true end.

Definition Query (a : AuditLog) (f : AuditFilter) : list AuditEntry :=
  Window.query_loop (λ e, matchesFilter e f) (f_Limit f) (reverse (entries a)) [].
(** The exchange of the first and the last, and so on inwards, is [reverse]. *)
Definition List_ (a : AuditLog) (limit : Z) : list AuditEntry :=
  let n := Z.of_nat (length (entries a)) in
  let limit := if (limit <=? 0)%Z || (n <? limit)%Z then n else limit in
  let start := if (n - limit <? 0)%Z then 0%Z else (n - limit)%Z in
  reverse (take (Z.to_nat limit) (drop (Z.to_nat start) (entries a))).
Definition Count (a : AuditLog) : nat := length (entries a).

(** ** The middleware *)

(** [contains] of the package, with its loop over the positions of the text. *)
Definition containsStr (s sub : string) : bool :=
  existsb (λ i, String.eqb (String.substring i (String.length sub) s) sub)
    (seq 0 (Z.to_nat (Z.of_nat (String.length s) - Z.of_nat (String.length sub) + 1))).
Definition contains (s sub : string) : bool :=
  (String.length sub <=? String.length s) && (String.eqb s sub || ((0 <? String.length s) && containsStr s sub)).

Definition httpAction (method : string) : string :=
  if bool_decide (method = "POST") then "create"
  else if bool_decide (method = "PUT") || bool_decide (method = "PATCH") then "update"
  else if bool_decide (method = "DELETE") then "delete"
  else "read".
Definition classifyRoute (path : string) : string :=
  if bool_decide (path = "") then EventAdminAction
  else if contains path "/policies" then EventPolicyChange
  else if contains path "/config/revert" then EventConfigRevert
  else if contains path "/gateway" || contains path "/gateways" then EventGatewayOp
  else if contains path "/certs" then EventCertIssue
  else if contains path "/scanner" then EventScannerRun
  else if contains path "/outreach" then EventOutreach
  else if contains path "/dot1x" then EventDot1XAuth
  else if contains path "/segments" then EventSegmentChange
  else if contains path "/sdn" then EventSDNConfig
  else if contains path "/mesh" then EventMeshChange
  else if contains path "/auth" || contains path "/login" then EventAuth
  else EventAdminAction.
Definition classifySeverity (method : string) (status : Z) : string :=
  if (500 <=? status)%Z then SevCritical
  else if bool_decide (method = "DELETE") || contains method "revert" then SevWarning
  else SevInfo.
Definition actor (c : Access.Access.context) : string :=
  let uid := Access.Access.GetString c "user_id" in
  let gw := Access.Access.GetString c "gateway_cn" in
  if negb (bool_decide (uid = "")) then uid
  else if negb (bool_decide (gw = "")) then "gateway:" +:+ gw
  else "anonymous".

(** A request after its handlers; the times at which it came and was answered. *)
Record served := mkServed {
  start : Z; finish : Z; method : string; full_path : string; url_path : string; raw_query : string; client_ip : string; status : Z;
  ctx : Access.Access.context; last_error : option string;
}.
Definition field (k v : string) : string := Json.quote k +:+ ":" +:+ v.
(** [json.Marshal] of the map, with its keys in order. *)
Definition details (r : served) : string :=
  "{" +:+ Join [field "latency" (itoa (Z.quot (finish r - start r) 1000000)); field "path" (Json.quote (url_path r));
                field "query" (Json.quote (raw_query r)); field "status" (itoa (status r))] "," +:+ "}".
Definition route_path (r : served) : string := if bool_decide (full_path r = "") then url_path r else full_path r.
Definition entry_of (r : served) : AuditEntry :=
  mkEntry ("aud-" +:+ Access.Access.GetString (ctx r) "request_id" +:+ "-" +:+ itoa (start r / 1000)) (start r)
    (classifyRoute (route_path r)) (classifySeverity (method r) (status r)) (actor (ctx r)) (client_ip r)
    (method r +:+ " " +:+ route_path r) (httpAction (method r)) (Access.Access.GetString (ctx r) "org_id")
    (Access.Access.GetString (ctx r) "request_id")
    (if negb (bool_decide (method r = "GET")) && negb (bool_decide (method r = "HEAD")) then Some (details r) else None)
    (status r <? 400)%Z (default "" (last_error r)).
Definition AuditMiddleware (a : AuditLog) (r : served) : AuditLog := Record_ (finish r) a (entry_of r).

(** ** The newest entries are there *)

Definition record_all (a : AuditLog) (l : list (Z * AuditEntry)) : AuditLog := foldl (λ a ne, Record_ (fst ne) a (snd ne)) a l.

Lemma record_window l :
  let a := record_all NewAuditLog l in
  let h := map (λ ne, stamp (fst ne) (snd ne)) l in
  maxEntries a = defaultMaxEntries ∧ ∃ d, entries a = drop d h ∧ Window.window defaultMaxEntries d h.
Proof.
  cbv zeta. assert (H : record_all NewAuditLog l = mkAudit (foldl (Window.push defaultMaxEntries) [] (map (λ ne, stamp (fst ne) (snd ne)) l)) defaultMaxEntries).
  { unfold record_all. change NewAuditLog with (mkAudit [] defaultMaxEntries). generalize (@nil AuditEntry).
    induction l as [|ne l IH]; intros k; [done|]. apply IH. }
  rewrite H. cbn [maxEntries entries]. split; [done|]. apply Window.foldl_push. apply Nat.leb_le. vm_compute. reflexivity.
Qed.
Lemma list_newest a n : n ≤ length (entries a) → 0 < n → List_ a (Z.of_nat n) = take n (reverse (entries a)).
Proof.
  intros Hn Hpos. unfold List_. rewrite (proj2 (Z.leb_gt _ _)), (proj2 (Z.ltb_ge _ _)) by lia. cbn [orb].
  rewrite (proj2 (Z.ltb_ge _ 0)) by lia. rewrite take_reverse. f_equal.
  replace (Z.to_nat (Z.of_nat (length (entries a)) - Z.of_nat n)) with (length (entries a) - n) by lia. rewrite Nat2Z.id.
  apply take_ge. rewrite length_drop. lia.
Qed.

Lemma window_newest {E} mx d (h : list E) n : Window.window mx d h → n ≤ mx - mx / 10 + 1 → n ≤ length h →
  take n (reverse (drop d h)) = take n (reverse h) ∧ n ≤ length (drop d h).
Proof.
  intros (_ & Hd & Hw) Hn Hl. rewrite length_drop in *. assert (Hle : n ≤ length h - d) by (destruct Hw; lia). split; [|done].
  rewrite !take_reverse, length_drop, drop_drop. f_equal. f_equal. lia.
Qed.

(** Every request the middleware serves leaves its entry.  After any such requests the audit
    log holds at most 10000 entries; the list of the newest n, for n up to 9001 and the number of
    requests, is exactly the entries of the last n requests, newest first; a query returns the
    matching entries of the log, newest first, cut at its limit when that is positive. *)
Theorem requests_audited rs n f :
  let a := foldl AuditMiddleware NewAuditLog rs in
  let h := (λ r, stamp (finish r) (entry_of r)) <$> rs in
  Count a ≤ Z.to_nat 10000
  ∧ (0 < n → n ≤ Z.to_nat 9001 → n ≤ length rs → List_ a (Z.of_nat n) = take n (reverse h))
  ∧ Query a f = (if (0 <? f_Limit f)%Z then take (Z.to_nat (f_Limit f)) else id) (List.filter (λ e, matchesFilter e f) (reverse (entries a))).
Proof.
  cbv zeta. assert (H : foldl AuditMiddleware NewAuditLog rs = record_all NewAuditLog ((λ r, (finish r, entry_of r)) <$> rs)).
  { unfold record_all. generalize NewAuditLog. induction rs as [|r rs IH]; intros a; [done|]. apply IH. }
  destruct (record_window ((λ r, (finish r, entry_of r)) <$> rs)) as (_ & d & Hd & Hw). rewrite H.
  assert (Hh : map (λ ne, stamp (fst ne) (snd ne)) ((λ r, (finish r, entry_of r)) <$> rs) = (λ r, stamp (finish r) (entry_of r)) <$> rs).
  { clear. induction rs as [|r rs IH]; cbn; [done|]. by rewrite <- IH. }
  rewrite Hh in Hd, Hw. split_and!.
  - unfold Count. rewrite Hd. apply Hw.
  - intros Hpos Hn Hl. destruct (window_newest _ d _ n Hw) as [Ht Hle].
    + etrans; [exact Hn|]. apply Nat.leb_le. vm_compute. reflexivity.
    + by rewrite length_fmap.
    + rewrite list_newest by (rewrite ?Hd; done). by rewrite Hd, Ht.
  - unfold Query. rewrite Window.query_loop_spec by (cbn; lia). cbn [app length]. by rewrite Nat.sub_0_r.
Qed.

Definition demo_served : served :=
  mkServed 1000000 4000000 "DELETE" "/api/v1/sdn/switches/:id" "/api/v1/sdn/switches/7" "" "10.0.0.1" 200 Access.Access.new_context None.
Lemma requests_audited_witness :
  let a := foldl AuditMiddleware NewAuditLog [demo_served; demo_served] in
  Resource <$> List_ a 1 = ["DELETE /api/v1/sdn/switches/:id"] ∧ EventType <$> List_ a 1 = [EventSDNConfig].
Proof.
  cbv zeta. destruct (requests_audited [demo_served; demo_served] 1 (mkFilter "" "" "" "" "" 0 0 0 None)) as (_ & H & _).
  change 1%Z with (Z.of_nat 1). rewrite H; [by vm_compute|lia|apply Nat.leb_le; by vm_compute|cbn; lia].
Defined.

(** ** Routes *)

Lemma substring_split s i n : i + n <= String.length s →
  ∃ a b, s = a +:+ String.substring i n s +:+ b ∧ String.length a = i.
Proof.
  revert i n. induction s as [|c s IH]; intros i n Hi.
  - cbn in Hi. assert (i = 0) as -> by lia. assert (n = 0) as -> by lia. by exists "", "".
  - destruct i as [|i].
    + destruct n as [|n]; [by exists "", (String c s)|]. destruct (IH 0 n) as (a & b & E & Ha); [cbn in Hi; lia|].
      destruct a; [|done]. exists "", b. split; [exact (f_equal (String c) E)|done].
    + destruct (IH i n) as (a & b & E & Ha); [cbn in Hi; lia|]. exists (String c a), b. split; [exact (f_equal (String c) E)|cbn; by rewrite Ha].
Qed.
Lemma substring_app a s b : String.substring (String.length a) (String.length s) (a +:+ s +:+ b) = s.
Proof.
  induction a as [|c a IH]; [|exact IH]. induction s as [|c s IH]; [by destruct b|]. exact (f_equal (String c) IH).
Qed.
Lemma append_empty s : s +:+ "" = s.
Proof. induction s as [|c s IH]; [done|]. exact (f_equal (String c) IH). Qed.
Lemma length_append a b : String.length (a +:+ b) = String.length a + String.length b.
Proof. induction a as [|c a IH]; [done|]. exact (f_equal S IH). Qed.
(** The loop finds a text exactly where it occurs. *)
Lemma contains_iff s sub : contains s sub = true ↔ ∃ a b, s = a +:+ sub +:+ b.
Proof.
  unfold contains, containsStr. rewrite andb_true_iff, Nat.leb_le, orb_true_iff, String.eqb_eq, andb_true_iff, Nat.ltb_lt, existsb_exists. split.
  - intros [Hlen [->|[_ (i & Hi & E)]]]; [exists "", ""; by rewrite append_empty|].
    apply in_seq in Hi. apply String.eqb_eq in E. destruct (substring_split s i (String.length sub)) as (a & b & Es & _); [lia|].
    rewrite E in Es. by exists a, b.
  - intros (a & b & ->). rewrite !length_append. split; [lia|]. destruct (decide (a = "" ∧ b = "")) as [[-> ->]|Hne]; [left; by rewrite append_empty|right].
    split.
    + destruct a, b; cbn; try lia. by destruct Hne.
    + exists (String.length a). split; [apply in_seq; lia|]. apply String.eqb_eq, substring_app.
Qed.

End Audit.
