(* ===== verification/GatewayApi.v ===== *)
(** * The gateway endpoints

    [src/internal/api/handlers/gateway_handler.go] and [mesh_handler.go], over the registry and
    the mesh of [Gateway] and the policy store of [PolicyStore], behind [GatewayAuth] of
    [Access].  The certificate authority is an argument, as are the JSON text of a policy
    ([marshal]) and, for the list of policies, the order of the map. *)

From S2P Require Import Prelude GoStrings GoTime Encoding PolicyStore Gateway Access.
From Stdlib Require Import Ascii.
#[local] Open Scope string_scope.
#[local] Open Scope nat_scope.
#[local] Open Scope list_scope.

Module GatewayApi.
Import GoStrings GoTime Encoding Gateway.Registry.
Import Access.Access (context, request, GetString, SafeMessage, GatewayAuth).

Record State := mkState { registry : Registry; policies : PolicyStore.PolicyStore.Store }.
Definition with_registry (s : State) (r : Registry) : State := mkState r (policies s).

Inductive reply :=
| GErr (status : Z) (msg : string)
| GRegistered (id : string) (auth_method : option string) (t : Z)
| GPolicies (l : list PolicyStore.PolicyStore.SecurityPolicy) (version : Z)
| GHeartbeat (current_version : Z)
| GCertificate (cert key : string) (not_after : Z)
| GData (pem : string)
| GFull (l : list PolicyStore.PolicyStore.SecurityPolicy) (version : Z)
| GCurrent (version : Z)
| GChanges (l : list PolicyStore.PolicyStore.SecurityPolicy) (version : Z) (changes : option (gmap string string))
| GVersion (version : Z)
| GGateways (l : list GatewayNode).
Definition safe_error (status : Z) : reply := GErr status (SafeMessage status).

Definition with_id (id : string) (g : GatewayNode) : GatewayNode :=
  mkNode id (if bool_decide (Region g = "") then id else Region g) (Name g) (Location g) (Country g) (Provider g) (PublicHost g)
    (QUICEndpoint g) (TLSEndpoint g) (PingEndpoint g) (Version g) (Status g) (DeployMode g)
    (MTLSIssued g) (CertNotAfter g) (PolicyVersion g) (LastHeartbeat g) (Metadata g) (RegisteredAt g).
(** [t.AddDate(1, 0, 0)]: a 29th of February becomes a first of March. *)
Definition next_year (t : Z) : Z :=
  (let len := 86400 * second in
   let c := civil_from_days (t / len) in
   days_from_civil (mkDate (year c + 1) (month c) (day c)) * len + t `mod` len)%Z.
Definition auth_method (c : context) : option string := Access.Access.keys c !! "gateway_auth_method".
(** The node that is registered: under mTLS its identifier is that of the certificate. *)
Definition registered_node (c : context) (req : GatewayNode) : GatewayNode :=
  if bool_decide (auth_method c = Some "mtls") then
    match Access.Access.keys c !! "gateway_id" with
    | Some id => if bool_decide (id = "") then req else with_id id req
    | None => req
    end
  else req.
Definition Register_ (clk : nat → Z) (c : context) (s : State) (body : option GatewayNode) : State * reply :=
  match body with
  | None => (s, safe_error 400)
  | Some req =>
      if bool_decide (ID req = "") then (s, safe_error 400)
      else
        let req := registered_node c req in
        let r := fst (Register clk (registry s) req) in
        let r := if bool_decide (auth_method c = Some "mtls") then fst (MarkMTLSIssued r (ID req) (next_year (clk 2))) else r in
        (with_registry s r, GRegistered (ID req) (auth_method c) (clk 3))
  end.

Definition GetPolicies (ro : range_order) (s : State) : reply :=
  GPolicies (PolicyStore.PolicyStore.List ro (policies s)) (PolicyStore.PolicyStore.version (policies s)).
Definition Heartbeat_ (now : Z) (c : context) (s : State) (body : option (string * Z)) : State * reply :=
  match body with
  | None => (s, safe_error 400)
  | Some (id, pv) =>
      let id := if bool_decide (id = "") then GetString c "gateway_id" else id in
      let '(r, found, _) := Heartbeat now (registry s) id pv in
      if found then (with_registry s r, GHeartbeat (PolicyStore.PolicyStore.version (policies s))) else (s, safe_error 404)
  end.

Section Certificates.
(** [IssueCertificate] of the authority: certificate and key for a name, hosts and days. *)
Variable issue : string → list string → Z → result string (string * string).
Variable ca_cert : string.

Definition issued (clk : nat → Z) (s : State) (id : string) (hosts : list string) (days : Z) : State * reply :=
  match issue id hosts days with
  | Err _ => (s, safe_error 500)
  | Ok (cert, key) =>
      let notAfter := (clk 0%nat + wrap_i64 (wrap_i64 (days * 24) * (3600 * second)))%Z in
      (with_registry s (fst (MarkMTLSIssued (registry s) id notAfter)), GCertificate cert key notAfter)
  end.
Definition IssueCertificate (clk : nat → Z) (s : State) (body : option (string * list string * Z)) : State * reply :=
  match body with
  | None => (s, safe_error 400)
  | Some (id, hosts, days) => issued clk s id hosts (if (days <=? 0)%Z then 365%Z else days)
  end.
Definition RenewCertificate (clk : nat → Z) (s : State) (body : option (string * list string)) : State * reply :=
  match body with
  | None => (s, safe_error 400)
  | Some (id, hosts) => issued clk s id hosts 365
  end.
Definition GetCACert : reply := GData ca_cert.
End Certificates.

(** *** Synchronisation *)

(** The runes a text is ranged over as; [k] bytes of one are left, [acc] is what it has so far. *)
Fixpoint runes_from (k : nat) (acc : Z) (s : string) : list Z :=
  match s with
  | EmptyString => []
  | String c s =>
      match k with
      | S k => let acc := (acc * 64 + Base64.code c `mod` 64)%Z in if k =? 0 then acc :: runes_from 0 0 s else runes_from k acc s
      | O =>
          if (Base64.code c <? 128)%Z then Base64.code c :: runes_from 0 0 s
          else match Json.continuation c s with
               | None => 65533%Z :: runes_from 0 0 s
               | Some k => runes_from k (Base64.code c `mod` 2 ^ (6 - Z.of_nat k)) s
               end
      end
  end.
Definition runes (s : string) : list Z := runes_from 0 0 s.
Definition add_digit (n r : Z) : Z := wrap_i64 (wrap_i64 (n * 10) + (r - 48)).
Definition since_version (s : string) : Z := foldl add_digit 0%Z (runes s).

Section Sync.
Variable marshal : PolicyStore.PolicyStore.SecurityPolicy → option string.

Definition SyncPolicies (ro : range_order) (s : State) (sinceStr : string) : reply :=
  let st := policies s in
  let current := PolicyStore.PolicyStore.version st in
  if bool_decide (sinceStr = "") then GFull (PolicyStore.PolicyStore.List ro st) current
  else
    let since := since_version sinceStr in
    if (current <=? since)%Z then GCurrent current
    else GChanges (PolicyStore.PolicyStore.List ro st) current (PolicyStore.PolicyStore.Diff marshal ro st since current).
Definition GetPolicyVersion (s : State) : reply := GVersion (PolicyStore.PolicyStore.version (policies s)).
Definition ListAvailableGateways (ro : range_order) (s : State) : reply := GGateways (ListAvailable ro (registry s)).
Definition ListAvailablePrivateGateways (ro : range_order) (s : State) : reply := GGateways (ListPrivateAccess ro (registry s)).

(** ** A gateway that synchronises is up to date *)

Lemma since_digits s a v : Json.read_digits a s = (v, "") → (0 <= a)%Z → (v < 2 ^ 63)%Z →
  foldl add_digit a (runes s) = v ∧ (a <= v)%Z.
Proof.
  revert a. induction s as [|c s IH]; intros a; cbn [Json.read_digits].
  - intros [= ->] Ha Hv. split; [done|lia].
  - destruct (Json.is_digit c) eqn:Hc; [|done]. intros E Ha Hv. unfold Json.is_digit, Json.between in Hc.
    apply andb_true_iff in Hc as [H1%Z.leb_le H2%Z.leb_le]. destruct (IH _ E) as [HI Hle]; [lia|done|].
    split; [|lia]. unfold runes in *. cbn [runes_from]. rewrite (proj2 (Z.ltb_lt _ _)) by lia. cbn [foldl].
    assert (Hd : add_digit a (Base64.code c) = (10 * a + (Base64.code c - 48))%Z); [|by rewrite Hd].
    unfold add_digit. rewrite (wrap_i64_id (a * 10)) by (unfold in_i64; lia). rewrite wrap_i64_id by (unfold in_i64; lia). lia.
Qed.
Lemma itoa_nonempty v : (0 <= v)%Z → itoa v ≠ "".
Proof.
  intros Hv E. pose proof (Json.read_int_itoa v "" eq_refl) as H. by rewrite E in H.
Qed.
Lemma since_itoa v : (0 <= v < 2 ^ 63)%Z → since_version (itoa v) = v.
Proof.
  intros Hv. unfold since_version. apply since_digits; [|lia|lia]. destruct v as [|p|p]; [done| |lia].
  pose proof (Json.read_nat_pos p "" eq_refl) as H. unfold Json.read_nat in H.
  assert (E : ∀ x : string, x +:+ "" = x) by (intros x; induction x as [|c x IH]; [done|exact (f_equal (String c) IH)]).
  rewrite E in H. destruct (Json.starts_digit (pretty (N.pos p))); [|done]. by injection H.
Qed.

(** What a gateway makes of the answer to a version [held] it has: policies reported as removed
    go, those added or modified are taken from the list, the others stay. *)
Definition synchronised (held : gmap string PolicyStore.PolicyStore.SecurityPolicy) (l : list PolicyStore.PolicyStore.SecurityPolicy)
    (changes : gmap string string) (id : string) : option PolicyStore.PolicyStore.SecurityPolicy :=
  match changes !! id with
  | None => held !! id
  | Some c => if bool_decide (c = "removed") then None else PolicyStore.PolicyStore.policySnapshotMap l !! id
  end.
(** The same policy, up to its JSON text. *)
Definition same_policy (a b : option PolicyStore.PolicyStore.SecurityPolicy) : Prop :=
  match a, b with
  | Some p, Some q => PolicyStore.PolicyStore.policyEqual marshal p q = true
  | None, None => True
  | _, _ => False
  end.

Lemma snapshot_list ro s a : PolicyStore.PolicyStore.implements s a →
  PolicyStore.PolicyStore.policySnapshotMap (PolicyStore.PolicyStore.List ro s) = PolicyStore.PolicyStore.policies s.
Proof.
  intros Him. apply PolicyStore.PolicyStore.snapshot_map; [|apply PolicyStore.PolicyStore.sorted_values_snapshot].
  rewrite (PolicyStore.PolicyStore.im_policies _ _ Him). apply Him.
Qed.
Lemma synchronised_same held cur changes l id :
  changes !! id = PolicyStore.PolicyStore.change_of marshal (held !! id) (cur !! id) →
  PolicyStore.PolicyStore.policySnapshotMap l = cur → same_policy (synchronised held l changes id) (cur !! id).
Proof.
  intros Hc <-. unfold synchronised. rewrite Hc. unfold PolicyStore.PolicyStore.change_of, same_policy.
  destruct (held !! id) as [p|], (PolicyStore.PolicyStore.policySnapshotMap l !! id) as [q|] eqn:Hq; cbn; try done.
  - destruct (PolicyStore.PolicyStore.policyEqual marshal p q) eqn:E; [done|]. cbn. case_bool_decide; [done|].
    by apply bool_decide_eq_true_2.
  - case_bool_decide; [done|]. by apply bool_decide_eq_true_2.
Qed.

(** A gateway that synchronises is up to date.  After any history of the policy store, a gateway
    that has a retained version and asks with its number either is told that this is the current
    version, or gets a list of changes whose application to the policies it has, taking added and
    modified ones from the list that comes with them, gives for every identifier the current
    policy, up to its JSON text. *)
Theorem sync_up_to_date r cs ro v cv :
  (Z.of_nat (length cs) < 2 ^ 63)%Z →
  let st := fst (PolicyStore.PolicyStore.run PolicyStore.PolicyStore.NewStore cs) in
  PolicyStore.PolicyStore.GetVersion st v = Some cv → (0 <= v < 2 ^ 63)%Z →
  let held := PolicyStore.PolicyStore.policySnapshotMap (PolicyStore.PolicyStore.Policies cv) in
  match SyncPolicies ro (mkState r st) (itoa v) with
  | GCurrent w => w = PolicyStore.PolicyStore.version st ∧ (w <= v)%Z
  | GChanges l w (Some changes) =>
      w = PolicyStore.PolicyStore.version st
      ∧ ∀ id, same_policy (synchronised held l changes id) (PolicyStore.PolicyStore.policies st !! id)
  | _ => False
  end.
Proof.
  intros Hlen st Hv Hr held.
  destruct (PolicyStore.PolicyStore.run_sim cs _ _ PolicyStore.PolicyStore.init_implements) as (a & _ & Him); [cbn; lia|]. fold st in Him.
  unfold SyncPolicies. rewrite bool_decide_eq_false_2; [|by apply itoa_nonempty; lia]. cbn [policies]. rewrite since_itoa by done.
  destruct (Z.leb_spec (PolicyStore.PolicyStore.version st) v) as [Hle|Hlt]; [done|].
  assert (Hlog : PolicyStore.PolicyStore.log a ≠ []).
  { intros E. rewrite (PolicyStore.PolicyStore.im_version _ _ Him) in Hlt. unfold PolicyStore.PolicyStore.head_version in Hlt. rewrite E in Hlt. cbn in Hlt. lia. }
  destruct (PolicyStore.PolicyStore.implements_head st a Him Hlog) as (cv' & Hv' & Hcur).
  pose proof (PolicyStore.PolicyStore.diff_exact marshal cs ro v (PolicyStore.PolicyStore.version st) Hlen) as Hd. cbv zeta in Hd. fold st in Hd.
  rewrite Hv, Hv' in Hd. destruct Hd as (d & -> & Hd). split; [done|]. intros id. apply synchronised_same.
  - rewrite Hd. by rewrite Hcur.
  - by eapply snapshot_list.
Qed.

End Sync.

(** ** A gateway registers under its own name *)

(** A certificate fixes the identity.  A gateway the load balancer presents with a certificate is
    registered, whatever identifier the request names, under the name in the certificate, online and
    marked as holding a certificate; no other gateway of the registry changes. *)
Theorem certificate_registers_itself keys req clk s body :
  let id := Access.Access.mtls_gateway true req in
  id ≠ "" → ID body ≠ "" →
  match GatewayAuth true keys req Access.Access.new_context with
  | Access.Access.Next c =>
      let '(s', r) := Register_ clk c s (Some body) in
      r = GRegistered id (Some "mtls") (clk 3)
      ∧ (∃ g, gateways (registry s') !! id = Some g ∧ ID g = id ∧ Status g = "online" ∧ MTLSIssued g = true)
      ∧ ∀ other, other ≠ id → gateways (registry s') !! other = gateways (registry s) !! other
  | Access.Access.Abort _ _ _ => False
  end.
Proof.
  intros id Hid Hbody. unfold GatewayAuth. fold id. rewrite bool_decide_eq_true_2 by done.
  set (c := Access.Access.Set_ _ _ _). assert (Hm : auth_method c = Some "mtls") by apply lookup_insert_eq.
  assert (Hn : registered_node c body = with_id id body).
  { assert (Hg : Access.Access.keys c !! "gateway_id" = Some id).
    { unfold c. cbn. rewrite lookup_insert_ne by done. apply lookup_insert_eq. }
    unfold registered_node. rewrite Hm, Hg, bool_decide_eq_true_2 by done. by rewrite bool_decide_eq_false_2. }
  unfold Register_. rewrite bool_decide_eq_false_2 by done. cbv zeta. rewrite Hn, Hm. cbn [ID with_id].
  rewrite (bool_decide_eq_true_2 (Some "mtls" = Some "mtls")) by done. split; [done|]. unfold Register. cbn [ID with_id set_live].
  destruct (gateways (registry s) !! id) as [g|]; cbn;
    (split; [rewrite lookup_alter_eq, lookup_insert_eq; by eexists|intros other Ho; by rewrite lookup_alter_ne, lookup_insert_ne]).
Qed.

(** ** Witnesses *)

Definition demo_marshal (p : PolicyStore.PolicyStore.SecurityPolicy) : option string :=
  Some (PolicyStore.PolicyStore.Name p +:+ itoa (PolicyStore.PolicyStore.Sequence p)).
Definition demo_history : PolicyStore.PolicyStore.Store :=
  fst (PolicyStore.PolicyStore.run PolicyStore.PolicyStore.NewStore PolicyStore.PolicyStore.demo_cmds).
Lemma sync_up_to_date_witness :
  ∃ l changes, SyncPolicies demo_marshal canonical_order (mkState NewRegistry demo_history) "1" = GChanges l 4 (Some changes)
    ∧ ∀ id, same_policy demo_marshal
              (synchronised {["a" := PolicyStore.PolicyStore.demo_policy "a" 10]} l changes id)
              (PolicyStore.PolicyStore.policies demo_history !! id).
Proof.
  destruct (PolicyStore.PolicyStore.GetVersion demo_history 1) as [cv|] eqn:Hv; [|vm_compute in Hv; discriminate].
  assert (Hheld : PolicyStore.PolicyStore.policySnapshotMap (PolicyStore.PolicyStore.Policies cv) = {["a" := PolicyStore.PolicyStore.demo_policy "a" 10]}).
  { vm_compute in Hv. injection Hv as <-. vm_compute. reflexivity. }
  pose proof (sync_up_to_date demo_marshal NewRegistry PolicyStore.PolicyStore.demo_cmds canonical_order 1 cv) as H.
  specialize (H ltac:(vm_compute; reflexivity) Hv ltac:(lia)). cbv zeta in H. rewrite Hheld in H. fold demo_history in H.
  change (itoa 1) with "1" in H.
  destruct (SyncPolicies demo_marshal canonical_order (mkState NewRegistry demo_history) "1") as [| | | | | | |w|l w [changes|]| |] eqn:E; try done.
  destruct H as [Hw H]. exists l, changes. split; [|exact H]. rewrite Hw. reflexivity.
Defined.

Definition demo_request : request :=
  Access.Access.mkReq "POST" (λ h, if bool_decide (h = "X-Amzn-Mtls-Clientcert-Subject") then "CN=gw-1" else "") [].
Lemma certificate_registers_itself_witness :
  match GatewayAuth true (λ _, None) demo_request Access.Access.new_context with
  | Access.Access.Next c =>
      snd (Register_ (λ _, 7%Z) c (mkState NewRegistry PolicyStore.PolicyStore.NewStore) (Some (demo_node "gw-2" 0)))
      = GRegistered "gw-1" (Some "mtls") 7
  | _ => False
  end.
Proof.
  pose proof (certificate_registers_itself (λ _, None) demo_request (λ _, 7%Z) (mkState NewRegistry PolicyStore.PolicyStore.NewStore) (demo_node "gw-2" 0)) as H.
  specialize (H ltac:(vm_compute; discriminate) ltac:(vm_compute; discriminate)).
  destruct (GatewayAuth true (λ _, None) demo_request Access.Access.new_context) as [c|]; [|exact H].
  destruct (Register_ (λ _, 7%Z) c _ _) as [s' r]. destruct H as [Hr _]. exact Hr.
Defined.

(** A heartbeat is accepted for the identifier in the body, not for that of the certificate: a gateway
    with a certificate for "gw-1" keeps "gw-2" alive. *)
Example heartbeat_for_another :
  let c := Access.Access.Set_ "gateway_auth_method" "mtls" (Access.Access.Set_ "gateway_id" "gw-1" Access.Access.new_context) in
  let s := mkState (fst (Register (λ _, 7%Z) NewRegistry (demo_node "gw-2" 0))) PolicyStore.PolicyStore.NewStore in
  let '(s', r) := Heartbeat_ 99 c s (Some ("gw-2", 3%Z)) in
  r = GHeartbeat 0 ∧ (LastHeartbeat <$> gateways (registry s') !! "gw-2") = Some 99%Z.
Proof. vm_compute. done. Qed.

End GatewayApi.

(** * The mesh endpoints *)

Module MeshApi.
Import GoStrings Gateway.Mesh.
Import Access.Access (context, GetString, SafeMessage).

Inductive reply :=
| MErr (status : Z) (msg : string)
| MRegistered (id : string)
| MDeregistered
| MPeers (l : list MeshPeer)
| MDelivered
| MTopology (t : MeshTopology)
| MRelay (a : RelayAllocation).
Definition safe_error (status : Z) : reply := MErr status (SafeMessage status).

Definition RegisterPeer_ (clk : nat → Z) (mc : MeshCoordinator) (body : option MeshPeer) : MeshCoordinator * reply :=
  match body with
  | None => (mc, safe_error 400)
  | Some peer =>
      if bool_decide (mp_ID peer = "") || bool_decide (mp_OrgID peer = "") then (mc, safe_error 400)
      else (RegisterPeer clk mc peer, MRegistered (mp_ID peer))
  end.
Definition DeregisterPeer_ (mc : MeshCoordinator) (peerID : string) : MeshCoordinator * reply :=
  if bool_decide (peerID = "") then (mc, safe_error 400) else (DeregisterPeer mc peerID, MDeregistered).
Definition org_of (c : context) : string := if bool_decide (GetString c "org_id" = "") then "dev-org" else GetString c "org_id".
Definition ListPeers_ (ro : range_order) (c : context) (mc : MeshCoordinator) : reply := MPeers (ListPeers ro mc (org_of c)).
Definition Signal_ (mc : MeshCoordinator) (peerID : string) (body : option SignalMessage) : reply :=
  match body with
  | None => safe_error 400
  | Some msg =>
      match Signal mc (mkSignal (FromPeerID msg) peerID (sm_Type msg) (Payload msg) (sm_Timestamp msg)) with
      | Ok _ => MDelivered
      | Err _ => safe_error 500
      end
  end.
Definition GetTopology_ (ro : range_order) (c : context) (mc : MeshCoordinator) : reply := MTopology (GetTopology ro mc (org_of c)).
Definition AllocateRelay_ (clk : nat → Z) (rnd : bytes) (mc : MeshCoordinator) (body : option (string * string * string)) : MeshCoordinator * reply :=
  match body with
  | None => (mc, safe_error 400)
  | Some (peerID, gatewayID, relayAddr) => let '(mc, a) := AllocateRelay clk rnd mc peerID gatewayID relayAddr in (mc, MRelay a)
  end.

Lemma links_between p q l : p ∈ l → q ∈ l → p ≠ q → link (mp_ID p) (mp_ID q) ∈ mesh_links l ∨ link (mp_ID q) (mp_ID p) ∈ mesh_links l.
Proof.
  intros [i Hi]%list_elem_of_lookup_1 [j Hj]%list_elem_of_lookup_1 Hne. rewrite !elem_of_links.
  destruct (Nat.lt_trichotomy i j) as [Hlt|[->|Hlt]]; [left; by exists i, j, p, q|congruence|right; by exists j, i, q, p].
Qed.

(** A registered peer is in the topology of its organization, linked to every other peer that is
    online there. *)
Theorem registered_peer_linked clk mc peer mc' ro c q :
  RegisterPeer_ clk mc (Some peer) = (mc', MRegistered (mp_ID peer)) → org_of c = mp_OrgID peer →
  q ∈ ListPeers ro mc' (mp_OrgID peer) → is_online q = true → mp_ID q ≠ mp_ID peer →
  ∃ t, GetTopology_ ro c mc' = MTopology t
    ∧ (link (mp_ID peer) (mp_ID q) ∈ Links t ∨ link (mp_ID q) (mp_ID peer) ∈ Links t).
Proof.
  unfold RegisterPeer_. destruct (_ || _); [done|]. intros [= <-] Hc Hq Ho Hne. eexists. split; [done|]. rewrite Hc.
  cbn [Links GetTopology]. set (mc' := RegisterPeer clk mc peer) in *. set (p := set_peer "online" (match peers mc !! mp_ID peer with None => clk 1 | Some _ => mp_RegisteredAt peer end) (clk 0) peer).
  assert (Hp : p ∈ List.filter is_online (ListPeers ro mc' (mp_OrgID peer))).
  { apply list_elem_of_In, filter_In. split; [|done]. apply list_elem_of_In. unfold ListPeers. apply list_elem_of_In, filter_In.
    split; [|by apply bool_decide_eq_true_2]. apply list_elem_of_In, elem_of_values. exists (mp_ID peer). apply lookup_insert_eq. }
  assert (Hq' : q ∈ List.filter is_online (ListPeers ro mc' (mp_OrgID peer))).
  { apply list_elem_of_In, filter_In. split; [by apply list_elem_of_In|done]. }
  apply (links_between p q); [done|done|]. by intros <-.
Qed.

End MeshApi.
