(* ===== verification/Dot1xApi.v ===== *)
(** * The 802.1X interface and its trail

    [src/internal/api/handlers/dot1x_handler.go] over [Dot1x] and [AuditTrail], and the handlers of the
    audit log of [scanner_handler.go].  [serve] is what a request of the group [/api/v1/dot1x] runs:
    the handler, then the audit middleware, which main installs in front of this group
    ([cmd/server/main.go]).  A panic (the server is started without a user store) unwinds through
    the middleware to the recovery, so that the request leaves no entry.

    Time readings: [v_audit] for the identifier of an entry, [v_record] for its time stamp. *)

From S2P Require Import Prelude GoStrings GoTime Encoding Dot1x DnsLogs Window Access Routes AuditTrail.
From Stdlib Require Import Ascii.
#[local] Open Scope string_scope.
#[local] Open Scope nat_scope.
#[local] Open Scope list_scope.

Module Dot1xApi.
Import GoStrings GoTime Dot1x Audit.

Record State := mkState { auth : Authenticator; log : AuditLog }.
Definition with_auth (a : Authenticator) (s : State) : State := mkState a (log s).

(** The request apart from what its handler binds. *)
Record visit := mkVisit {
  v_start : Z; v_finish : Z; v_audit : Z; v_record : Z;
  v_path : string; v_query : string; v_ip : string; v_ctx : Access.Access.context;
}.
Definition v_string (v : visit) (k : string) : string := Access.Access.GetString (v_ctx v) k.

Inductive reply :=
| WSafe (status : Z)
| WAuth (status : Z) (r : AuthResponse)
| WAuthz (r : AuthzResponse)
| WStatus (status : Z) (text : string)
| WRegistered (mac : string)
| WSessions (l : list Session)
| WSession (s : Session)
| WMACs (l : list MACAuthEntry).
Definition status_of (r : reply) : Z :=
  match r with
  | WSafe n | WAuth n _ | WStatus n _ => n
  | WRegistered _ => 201
  | WAuthz _ | WSessions _ | WSession _ | WMACs _ => 200
  end%Z.

(** ** Entries *)

(** [strconv.FormatInt(n, 36)]; 64 digits are enough for every 64-bit number. *)
Fixpoint digits36 (fuel : nat) (n : Z) (acc : string) : string :=
  match fuel with
  | 0 => acc
  | S fuel =>
      let d := Z.to_nat (n mod 36) in
      let acc := String (ascii_of_nat (if d <? 10 then 48 + d else 87 + d)) acc in
      if (n <? 36)%Z then acc else digits36 fuel (n / 36)%Z acc
  end.
Definition FormatInt36 (n : Z) : string := if (n <? 0)%Z then "-" +:+ digits36 64 (- n) "" else digits36 64 n "".
Definition auditID (prefix : string) (t : Z) : string := prefix +:+ "-" +:+ FormatInt36 (t / 1000).

Definition dot1xSeverity (r : AuthResult) : string := if bool_decide (r = AuthReject) then SevWarning else SevInfo.

Definition auth_entry (v : visit) (req : AuthRequest) (resp : AuthResponse) : AuditEntry :=
  mkEntry (auditID "dot1x" (v_audit v)) zero_time EventDot1XAuth (dot1xSeverity (rs_Result resp)) (rq_Username req) (v_ip v)
    ("dot1x:" +:+ rq_SwitchID req +:+ ":" +:+ rq_PortID req) "authenticate" (rq_OrgID req) (v_string v "request_id")
    None (bool_decide (rs_Result resp = AuthSuccess)) "".
Definition disconnect_entry (v : visit) (id : string) : AuditEntry :=
  mkEntry (auditID "coa" (v_audit v)) zero_time EventDot1XAuth SevWarning (v_string v "user_id") (v_ip v)
    ("dot1x:session:" +:+ id) "disconnect" (v_string v "org_id") (v_string v "request_id") None true "".
Definition record (v : visit) (e : AuditEntry) (s : State) : State := mkState (auth s) (Record_ (v_record v) (log s) e).

(** ** The handlers *)

Section Handlers.
Context `{CertLib}.

Definition Authenticate_ (v : visit) (clk : nat → Z) (body : option AuthRequest) (s : State) : option (State * reply) :=
  match body with
  | None => Some (s, WSafe 400)
  | Some req =>
      '(a, resp) ← Authenticate (auth s) clk req;
      Some (record v (auth_entry v req resp) (with_auth a s), WAuth (if bool_decide (rs_Result resp = AuthReject) then 401 else 200) resp)
  end.
Definition Authorize_ (body : option AuthzRequest) (s : State) : option (State * reply) :=
  match body with
  | None => Some (s, WSafe 400)
  | Some req => resp ← Authorize (auth s) req; Some (s, WAuthz resp)
  end.
Definition Accounting (now : Z) (body : option AcctRequest) (s : State) : State * reply :=
  match body with
  | None => (s, WSafe 400)
  | Some req => (with_auth (RecordAccounting (auth s) now req) s, WStatus 200 "recorded")
  end.
Definition asked_org (v : visit) (org : string) : string := if bool_decide (org = "") then v_string v "org_id" else org.
Definition ListSessions_ (ro : range_order) (v : visit) (org : string) (s : State) : reply := WSessions (ListSessions ro (auth s) (asked_org v org)).
Definition GetSession_ (id : string) (s : State) : reply :=
  match GetSession (auth s) id with None => WSafe 404 | Some x => WSession x end.
Definition DisconnectSession_ (v : visit) (id : string) (s : State) : State * reply :=
  let '(a, ok) := DisconnectSession (auth s) id in
  if negb ok then (s, WSafe 404) else (record v (disconnect_entry v id) (with_auth a s), WStatus 200 "disconnected").
Definition RegisterMAC_ (now : Z) (body : option MACAuthEntry) (s : State) : State * reply :=
  match body with
  | None => (s, WSafe 400)
  | Some e => (with_auth (RegisterMAC (auth s) now e) s, WRegistered (m_MACAddress e))
  end.
Definition RemoveMAC_ (mac : string) (s : State) : State * reply :=
  let '(a, ok) := RemoveMAC (auth s) mac in
  if negb ok then (s, WSafe 404) else (with_auth a s, WStatus 200 "removed").
Definition ListMACs_ (ro : range_order) (v : visit) (org : string) (s : State) : reply := WMACs (ListMACs ro (auth s) (asked_org v org)).

(** ** A request *)

Inductive call :=
| CAuthenticate (clk : nat → Z) (body : option AuthRequest)
| CAuthorize (body : option AuthzRequest)
| CAccounting (now : Z) (body : option AcctRequest)
| CSessions (ro : range_order) (org : string)
| CSession (id : string)
| CDisconnect (id : string)
| CRegisterMAC (now : Z) (body : option MACAuthEntry)
| CRemoveMAC (mac : string)
| CMACs (ro : range_order) (org : string).

Definition handle (v : visit) (c : call) (s : State) : option (State * reply) :=
  match c with
  | CAuthenticate clk body => Authenticate_ v clk body s
  | CAuthorize body => Authorize_ body s
  | CAccounting now body => Some (Accounting now body s)
  | CSessions ro org => Some (s, ListSessions_ ro v org s)
  | CSession id => Some (s, GetSession_ id s)
  | CDisconnect id => Some (DisconnectSession_ v id s)
  | CRegisterMAC now body => Some (RegisterMAC_ now body s)
  | CRemoveMAC mac => Some (RemoveMAC_ mac s)
  | CMACs ro org => Some (s, ListMACs_ ro v org s)
  end.

(** The route of a call: its method, its path below the group and its handler. *)
Definition route_of (c : call) : string * string * string :=
  match c with
  | CAuthenticate _ _ => ("POST", "/authenticate", "dot1xHandler.Authenticate")
  | CAuthorize _ => ("POST", "/authorize", "dot1xHandler.Authorize")
  | CAccounting _ _ => ("POST", "/accounting", "dot1xHandler.Accounting")
  | CSessions _ _ => ("GET", "/sessions", "dot1xHandler.ListSessions")
  | CSession _ => ("GET", "/sessions/:id", "dot1xHandler.GetSession")
  | CDisconnect _ => ("POST", "/sessions/:id/disconnect", "dot1xHandler.DisconnectSession")
  | CRegisterMAC _ _ => ("POST", "/mac/register", "dot1xHandler.RegisterMAC")
  | CRemoveMAC _ => ("DELETE", "/mac/:mac", "dot1xHandler.RemoveMAC")
  | CMACs _ _ => ("GET", "/mac", "dot1xHandler.ListMACs")
  end.
Definition served_of (v : visit) (c : call) (r : reply) : served :=
  let '(m, p, _) := route_of c in
  mkServed (v_start v) (v_finish v) m ("/api/v1/dot1x" +:+ p) (v_path v) (v_query v) (v_ip v) (status_of r) (v_ctx v) None.

Definition serve (s : State) (vc : visit * call) : State * reply :=
  match handle (fst vc) (snd vc) s with
  | None => (s, WSafe 500)
  | Some (s', r) => (mkState (auth s') (AuditMiddleware (log s') (served_of (fst vc) (snd vc) r)), r)
  end.
Definition run (s : State) (l : list (visit * call)) : State := foldl (λ s vc, fst (serve s vc)) s l.

End Handlers.

(** ** The trail of the sessions *)

(** An entry of [h] says that a session of this port was opened. *)
Definition opened (h : list AuditEntry) (x : Session) : Prop :=
  ∃ e, e ∈ h ∧ EventType e = EventDot1XAuth ∧ Action e = "authenticate" ∧ Success e = true
    ∧ Resource e = "dot1x:" +:+ s_SwitchID x +:+ ":" +:+ s_PortID x ∧ OrgID e = s_OrgID x.
(** An entry says that the session was disconnected, or the switch reported its end. *)
Definition closed (h : list AuditEntry) (cs : list (visit * call)) (id : string) : Prop :=
  (∃ e, e ∈ h ∧ EventType e = EventDot1XAuth ∧ Action e = "disconnect" ∧ Resource e = "dot1x:session:" +:+ id)
  ∨ ∃ v now req, (v, CAccounting now (Some req)) ∈ cs ∧ ac_SessionID req = id ∧ ac_Type req = "stop".
Definition granted_entry (e : AuditEntry) : Prop := Action e = "authenticate" ∧ Success e = true.

Record explained (h : list AuditEntry) (cs : list (visit * call)) (m : gmap string Session) : Prop := {
  ex_sessions : ∀ id x, m !! id = Some x → opened h x ∧ (s_State x = "disconnected" → closed h cs id);
  ex_entries : ∀ e, e ∈ h → granted_entry e → ∃ v clk req resp,
    (v, CAuthenticate clk (Some req)) ∈ cs ∧ e = stamp (v_record v) (auth_entry v req resp) ∧ is_Some (m !! session_id req (clk 1));
}.
(** The log holds the end of the history [h]. *)
Definition kept (h : list AuditEntry) (a : AuditLog) : Prop :=
  maxEntries a = defaultMaxEntries ∧ ∃ d, entries a = drop d h ∧ Window.window defaultMaxEntries d h.

Lemma kept_record now a e h : kept h a → kept (h ++ [stamp now e]) (Record_ now a e).
Proof.
  intros (Hm & d & Hd & Hw). split; [done|]. unfold Record_. cbn [entries]. rewrite Hm, Hd.
  apply Window.push_within; [|done]. apply Nat.leb_le. vm_compute. reflexivity.
Qed.
Lemma stamp_fields now e :
  EventType (stamp now e) = EventType e ∧ Action (stamp now e) = Action e ∧ Success (stamp now e) = Success e
  ∧ Resource (stamp now e) = Resource e ∧ OrgID (stamp now e) = OrgID e.
Proof. unfold stamp. by destruct (IsZero (Timestamp e)). Qed.

Lemma trail_mono h cs m l c :
  (∀ e, e ∈ l → ¬ granted_entry e) → explained h cs m → explained (h ++ l) (cs ++ [c]) m.
Proof.
  intros Hl [Hs He]. split.
  - intros id x Hx. destruct (Hs id x Hx) as [(e & Hin & Ho) Hc]. split; [exists e; split; [apply elem_of_app; by left|done]|].
    intros Hd. destruct (Hc Hd) as [(e' & Hin' & Hr)|(v & now & req & Hin' & Hr)]; [left; exists e'|right; exists v, now, req];
      (split; [apply elem_of_app; by left|done]).
  - intros e [Hin|Hin]%elem_of_app Hg; [|by destruct (Hl e Hin)]. destruct (He e Hin Hg) as (v & clk & req & resp & Hc & Hr).
    exists v, clk, req, resp. split; [apply elem_of_app; by left|done].
Qed.
Lemma explained_update h cs m id x x' :
  m !! id = Some x → s_SwitchID x' = s_SwitchID x → s_PortID x' = s_PortID x → s_OrgID x' = s_OrgID x →
  (s_State x' = "disconnected" → s_State x = "disconnected" ∨ closed h cs id) →
  explained h cs m → explained h cs (<[id := x']> m).
Proof.
  intros Hx H1 H2 H3 Hst [Hs He]. split.
  - intros j y. destruct (decide (id = j)) as [<-|Hne]; [rewrite lookup_insert_eq; intros [= <-]|rewrite lookup_insert_ne by done; apply Hs].
    destruct (Hs id x Hx) as [Ho Hc]. split; [unfold opened; by rewrite H1, H2, H3|]. intros Hd. by destruct (Hst Hd); [apply Hc|].
  - intros e Hin Hg. destruct (He e Hin Hg) as (v & clk & req & resp & Hc & Heq & Hm). exists v, clk, req, resp. split_and!; [done..|].
    destruct (decide (id = session_id req (clk 1))) as [<-|Hne]; [rewrite lookup_insert_eq; by eexists|by rewrite lookup_insert_ne].
Qed.

Section Trail.
Context `{CertLib}.

Lemma explained_open h cs m v clk req resp u :
  rs_Result resp = AuthSuccess → explained h cs m →
  explained (h ++ [stamp (v_record v) (auth_entry v req resp)]) (cs ++ [(v, CAuthenticate clk (Some req))])
    (<[session_id req (clk 1) := new_session clk req u]> m).
Proof.
  intros Hr [Hs He]. set (e0 := stamp (v_record v) (auth_entry v req resp)).
  destruct (stamp_fields (v_record v) (auth_entry v req resp)) as (F1 & F2 & F3 & F4 & F5). split.
  - intros id x. destruct (decide (session_id req (clk 1) = id)) as [<-|Hne].
    + rewrite lookup_insert_eq. intros [= <-]. split; [|done]. exists e0. split; [apply elem_of_app; right; by apply list_elem_of_singleton|].
      unfold e0. rewrite F1, F2, F3, F4, F5. split_and!; try done. apply bool_decide_eq_true_2, Hr.
    + rewrite lookup_insert_ne by done. intros Hx. destruct (Hs id x Hx) as [(e & Hin & Ho) Hc].
      split; [exists e; split; [apply elem_of_app; by left|done]|]. intros Hd.
      destruct (Hc Hd) as [(e' & Hin' & Hr')|(v' & now & req' & Hin' & Hr')]; [left; exists e'|right; exists v', now, req'];
      (split; [apply elem_of_app; by left|done]).
  - intros e [Hin|Hin]%elem_of_app Hg.
    + destruct (He e Hin Hg) as (v' & clk' & req' & resp' & Hc & Heq & Hm). exists v', clk', req', resp'.
      split_and!; [apply elem_of_app; by left|done|].
      destruct (decide (session_id req (clk 1) = session_id req' (clk' 1))) as [->|Hne]; [rewrite lookup_insert_eq; by eexists|by rewrite lookup_insert_ne].
    + apply list_elem_of_singleton in Hin as ->. exists v, clk, req, resp. split_and!; [|done|rewrite lookup_insert_eq; by eexists].
      apply elem_of_app; right; by apply list_elem_of_singleton.
Qed.

(** What a handler records is nothing or one entry, and explains what it does to the sessions. *)
Lemma handle_explained h cs v c s s' r :
  handle v c s = Some (s', r) → explained h cs (sessions (auth s)) →
  ∃ l, (log s' = log s ∧ l = [] ∨ ∃ e, log s' = Record_ (v_record v) (log s) e ∧ l = [stamp (v_record v) e])
    ∧ explained (h ++ l) (cs ++ [(v, c)]) (sessions (auth s')).
Proof.
  intros Hh Hex. pose proof (λ l, trail_mono h cs (sessions (auth s)) l (v, c)) as Hmono.
  assert (Hsame : ∀ s1, log s1 = log s → sessions (auth s1) = sessions (auth s) →
    ∃ l, (log s1 = log s ∧ l = [] ∨ ∃ e, log s1 = Record_ (v_record v) (log s) e ∧ l = [stamp (v_record v) e])
      ∧ explained (h ++ l) (cs ++ [(v, c)]) (sessions (auth s1))).
  { intros s1 Hl Hs. exists []. split; [by left|]. rewrite Hs. apply Hmono; [|done]. intros e Hin. by apply not_elem_of_nil in Hin. }
  destruct c as [clk [req|]|[req|]|now [req|]|ro org|id|id|now [e|]|mac|ro org]; cbn in Hh.
  all: try (injection Hh as <- <-; by apply Hsame).
  - destruct (Authenticate (auth s) clk req) as [[a resp]|] eqn:Ha; [|done]. injection Hh as <- <-.
    exists [stamp (v_record v) (auth_entry v req resp)]. split; [right; by eexists|]. cbn.
    apply authenticate_cases in Ha as [(u & _ & Hr & _ & _ & ->)|(Hr & -> & _)]; [by apply explained_open|].
    apply Hmono; [|done]. intros e ->%list_elem_of_singleton [_ Hsucc].
    destruct (stamp_fields (v_record v) (auth_entry v req resp)) as (_ & _ & F & _). rewrite F in Hsucc. cbn in Hsucc.
    rewrite Hr in Hsucc. by apply bool_decide_eq_true_1 in Hsucc.
  - destruct (Authorize (auth s) req); [|done]. injection Hh as <- <-. by apply Hsame.
  - injection Hh as <- <-. unfold RecordAccounting. cbn. destruct (sessions (auth s) !! ac_SessionID req) as [x|] eqn:Hx; [|by apply Hsame].
    exists []. split; [by left|]. cbn. destruct (account_wf now req x) as [_ _].
    eapply explained_update; [exact Hx|..|apply Hmono; [|done]; intros e Hin; by apply not_elem_of_nil in Hin].
    1-3: unfold account; by repeat case_bool_decide.
    unfold account. repeat case_bool_decide; cbn; intros Hd; [done|by left| |by left]. right. right.
    exists v, now, req. split_and!; [apply elem_of_app; right; by apply list_elem_of_singleton|done..].
  - unfold DisconnectSession_, DisconnectSession in Hh. destruct (sessions (auth s) !! id) as [x|] eqn:Hx; cbn in Hh; injection Hh as <- <-; [|by apply Hsame].
    exists [stamp (v_record v) (disconnect_entry v id)]. split; [right; by eexists|]. cbn.
    destruct (stamp_fields (v_record v) (disconnect_entry v id)) as (F1 & F2 & F3 & F4 & F5).
    eapply explained_update; [exact Hx|done..| |apply Hmono; [|done]].
    + intros _. right. left. eexists. split; [apply elem_of_app; right; by apply list_elem_of_singleton|]. by rewrite F1, F2, F4.
    + intros e ->%list_elem_of_singleton [Hact _]. by rewrite F2 in Hact.
  - unfold RemoveMAC_, RemoveMAC in Hh. destruct (macDB (auth s) !! normalizeMAC mac); cbn in Hh; injection Hh as <- <-; by apply Hsame.
Qed.

Lemma middleware_not_granted r now : ¬ granted_entry (stamp now (entry_of r)).
Proof.
  intros [Ha _]. destruct (stamp_fields now (entry_of r)) as (_ & F & _). rewrite F in Ha. cbn in Ha.
  unfold httpAction in Ha. by repeat case_bool_decide.
Qed.

Lemma serve_explained h cs s vc :
  kept h (log s) → explained h cs (sessions (auth s)) →
  ∃ l, kept (h ++ l) (log (fst (serve s vc))) ∧ explained (h ++ l) (cs ++ [vc]) (sessions (auth (fst (serve s vc)))).
Proof.
  intros Hk Hex. destruct vc as [v c]. unfold serve. cbn [fst snd]. destruct (handle v c s) as [[s' r]|] eqn:Hh; cbn.
  - destruct (handle_explained h cs v c s s' r Hh Hex) as (l & Hl & Hex'). exists (l ++ [stamp (v_finish v) (entry_of (served_of v c r))]).
    unfold AuditMiddleware. assert (Hf : finish (served_of v c r) = v_finish v) by (by destruct c). rewrite Hf, app_assoc. split.
    + apply kept_record. destruct Hl as [[-> ->]|(e & -> & ->)]; [by rewrite app_nil_r|by apply kept_record].
    + destruct Hex' as [Hs He]. split.
      * intros id x Hx. destruct (Hs id x Hx) as [(e & Hin & Ho) Hc]. split; [exists e; split; [apply elem_of_app; by left|done]|].
        intros Hd. destruct (Hc Hd) as [(e' & Hin' & Hr)|Hr]; [left; exists e'; split; [apply elem_of_app; by left|done]|by right].
      * intros e [Hin|Hin]%elem_of_app Hg; [by apply He|]. apply list_elem_of_singleton in Hin as ->. by apply middleware_not_granted in Hg.
  - exists []. rewrite app_nil_r. split; [done|]. rewrite <- (app_nil_r h). apply trail_mono; [|done].
    intros e Hin. by apply not_elem_of_nil in Hin.
Qed.

(** C30: Network access leaves a trail.  After any requests to the 802.1X interface the audit log is
    the end of a history of entries, all of it until 10000 were written and never fewer than 9001
    entries after; every session has in this history the entry of a granted authentication with its
    switch, port and organization, and a session that is disconnected an entry of its disconnection
    or a reported end; and every entry of a granted authentication is that of a request that was
    received and whose session exists.  (Sessions that the RadSec server opens on the same
    authenticator do not pass through this interface and leave no entry.) *)
Theorem access_trail us cs :
  let s := run (mkState (NewAuthenticator us) NewAuditLog) cs in
  ∃ h, kept h (log s) ∧ explained h cs (sessions (auth s)).
Proof.
  cbv zeta. induction cs as [|vc cs IH] using rev_ind.
  - exists []. split.
    + split; [done|]. exists 0. split; [done|]. split_and!; [apply Nat.le_0_l|done|by left].
    + split; [intros id x Hx; cbn in Hx; by rewrite lookup_empty in Hx|]. intros e Hin. by apply not_elem_of_nil in Hin.
  - destruct IH as (h & Hk & Hex). unfold run. rewrite foldl_app. cbn [foldl].
    destruct (serve_explained h cs _ vc Hk Hex) as (l & Hk' & Hex'). by exists (h ++ l).
Qed.
End Trail.

(** ** The handlers of the audit log *)

Definition ListAuditLogs (a : AuditLog) (l : string) : list AuditEntry * nat :=
  let limit :=
    if bool_decide (l = "") then 100%Z
    else match DnsLogs.DnsLogs.Atoi l with Some n => if (0 <? n)%Z && (n <=? 1000)%Z then n else 100%Z | None => 100%Z end in
  (List_ a limit, Count a).
(** [query] gives the parameters of the URL, [parse_time] is [time.Parse(time.RFC3339, _)]. *)
Definition QueryAuditLogs (parse_time : string → option Z) (query : string → string) (a : AuditLog) : list AuditEntry :=
  let time k := if bool_decide (query k = "") then zero_time else default zero_time (parse_time (query k)) in
  let limit :=
    if bool_decide (query "limit" = "") then 0%Z
    else match DnsLogs.DnsLogs.Atoi (query "limit") with Some n => if (0 <? n)%Z then n else 0%Z | None => 0%Z end in
  Query a (mkFilter (query "event_type") (query "actor") (query "org_id") (query "resource") (query "severity")
             (time "since") (time "until") (if (limit =? 0)%Z then 200 else limit)%Z None).

(** ** Which requests the middleware sees *)

Import Routes.
(** A group takes over the middleware its router has when it is made: the groups before and
    after the installation of the audit middleware. *)
Definition before_audit (cfg : config) : list route :=
  public_wellknown ++ when (oidc_ok cfg) oidc_routes ++ drsAPI ++ windows_drs ++ enrollmentGroup
  ++ portalGroup ++ authAPI ++ onboardAPI ++ portalAPI ++ connectorAPI ++ userAPI ++ clientAPI
  ++ deviceAPI ++ objectsAPI ++ groupAPI ++ scimAPI ++ when (gateway_rest cfg) gwAPI ++ publicGWAPI
  ++ privateGWAPI ++ agentAPI ++ deviceClientAPI ++ when (device_grants cfg) dc_grant_route
  ++ enroll_route ++ agentPolicyAPI ++ meshAPI ++ admin_core ++ admin_config ++ admin_idp
  ++ admin_connectors ++ admin_assistant ++ admin_secrets ++ admin_itsm ++ itsmAPI.
Definition after_audit (cfg : config) : list route :=
  scannerAPI ++ auditAPI ++ dot1xAPI ++ sgtAPI ++ sdnAPI ++ idAPI ++ featureAPI ++ tenantAPI ++ operatorAPI
  ++ tierAPI ++ policyDetailAPI ++ ghostedAdminAPI ++ deviceInvAPI ++ reportAPI ++ postureAPI
  ++ rbacAPI ++ profileAPI ++ ghostAPI ++ ccAdminAPI ++ threatAPI ++ dnsLogsAPI ++ validationAPI
  ++ securityAPI ++ when (scep_ok cfg) scep_routes ++ identityAPI ++ mdmAPI.
Definition recorded_classes : list string :=
  [EventScannerRun; EventDot1XAuth; EventPolicyChange; EventSDNConfig; EventAuth; EventAdminAction].
Definition policy_handlers : list string :=
  ["adminHandler.CreatePolicy"; "adminHandler.UpdatePolicy"; "adminHandler.DeletePolicy"; "adminHandler.RevertConfig";
   "adminHandler.AcquireConfigLock"; "adminHandler.ReleaseConfigLock"; "authHandler.Login"; "authHandler.Logout"].
Definition coverage (cfg : config) : bool :=
  forallb (λ r, bool_decide (classifyRoute (r_path r) ∈ recorded_classes)) (after_audit cfg)
  && forallb (λ r, negb (bool_decide (r_handler r ∈ policy_handlers))) (after_audit cfg)
  && forallb (λ n, existsb (λ r, bool_decide (r_handler r = n)) (before_audit cfg)) policy_handlers.
Definition registered (cfg : config) (c : call) : bool :=
  let '(m, p, n) := route_of c in
  existsb (λ r, bool_decide (r_method r = m) && bool_decide (r_path r = "/api/v1/dot1x" +:+ p) && bool_decide (r_handler r = n)) (after_audit cfg).

(** What the audit middleware sees.  Every route stands before or after it.  All calls of the
    802.1X interface come after; the handlers that change or revert the policies, take the lock of
    the configuration and log administrators in come before, so that none of them is audited; and
    for the routes that come after, the middleware never writes an entry of the classes
    config_revert, gateway_operation, certificate_issued, outreach_email, segment_change or
    mesh_change. *)
Lemma audit_coverage cfg :
  routes cfg = before_audit cfg ++ after_audit cfg
  ∧ (∀ c, registered cfg c = true)
  ∧ Forall (λ n, ∃ r, r ∈ before_audit cfg ∧ r_handler r = n) policy_handlers
  ∧ (∀ r, r ∈ after_audit cfg → r_handler r ∉ policy_handlers ∧ classifyRoute (r_path r) ∈ recorded_classes).
Proof.
  split; [unfold routes, before_audit, after_audit; by rewrite <- !app_assoc|].
  split; [intros c; destruct cfg as [[] [] [] []], c; vm_compute; reflexivity|].
  assert (Hc : coverage cfg = true) by (destruct cfg as [[] [] [] []]; vm_compute; reflexivity).
  unfold coverage in Hc. apply andb_true_iff in Hc as [[H1 H2]%andb_true_iff H3].
  rewrite forallb_forall in H1, H2, H3. split.
  - apply Forall_forall. intros n Hn. specialize (H3 n). apply existsb_exists in H3 as (r & Hr & E); [|by apply list_elem_of_In].
    exists r. split; [by apply list_elem_of_In|]. by apply bool_decide_eq_true_1 in E.
  - intros r Hr. apply list_elem_of_In in Hr. specialize (H1 r Hr). specialize (H2 r Hr).
    apply negb_true_iff, bool_decide_eq_false_1 in H2. by apply bool_decide_eq_true_1 in H1.
Qed.

(** A request that makes the authenticator panic leaves the log as it is. *)
Lemma panic_unaudited `{CertLib} s v clk req :
  users (auth s) = None → rq_EAPMethod req = PEAP → rq_Username req ≠ "" → rq_Password req ≠ "" →
  serve s (v, CAuthenticate clk (Some req)) = (s, WSafe 500).
Proof.
  intros Hu Hm Hn Hp. assert (Ha : Authenticate (auth s) clk req = None).
  { unfold Authenticate. rewrite Hm. rewrite (bool_decide_eq_false_2 (PEAP = EAPTLS)), (bool_decide_eq_true_2 (PEAP = PEAP)) by done.
    rewrite orb_true_r. unfold authenticatePassword.
    rewrite (bool_decide_eq_false_2 (rq_Username req = "")), (bool_decide_eq_false_2 (rq_Password req = "")) by done. cbn. by rewrite Hu. }
  unfold serve, handle, Authenticate_. cbn [fst snd]. by rewrite Ha.
Qed.

(** The entry names the user the request claims, not the one the certificate proves. *)
Definition demo_visit : visit := mkVisit 5000 6000 5500 5600 "/api/v1/dot1x/authenticate" "" "10.0.0.1" Access.Access.new_context.
Example misnamed_actor :
  let s := run (H := toy_certlib) (mkState (NewAuthenticator None) NewAuditLog)
             [(demo_visit, CAuthenticate toy_clock (Some (toy_request EAPTLS "" "Pdevice-7")))] in
  s_Username <$> (snd <$> map_to_list (sessions (auth s))) = ["device-7"]
  ∧ ((λ e, (ID e, Actor e, Success e)) <$> entries (log s))
    = [("dot1x-5", "alice", true); ("aud--5", "anonymous", true)].
Proof. vm_compute. done. Qed.

End Dot1xApi.
