(* ===== verification/Scanner.v ===== *)
(** * The TLS scanner and the outreach

    [src/internal/scanner/tls_scanner.go], [src/internal/scanner/outreach.go] and their handlers in
    [src/internal/api/handlers/scanner_handler.go].

    A scan is graded from the connection that [crypto/tls] made; dialing, the verification of a
    chain against the roots of the system and the two HTTP services are arguments ([env]).  The
    scanner, the opportunities and the audit log are shared by all requests, which interleave at
    their locks ([Interleave]); opportunities are objects the table points to, because a request
    that sends mails keeps pointers to them while it waits for the mail service.  Durations
    in days are exact below thirty, the only ones that count: the quotient of floating point numbers
    is there the integer one. *)

From S2P Require Import Prelude GoStrings GoTime Encoding Interleave Window Access AuditTrail Dot1xApi.
From Stdlib Require Import Ascii.
#[local] Open Scope string_scope.
#[local] Open Scope nat_scope.
#[local] Open Scope list_scope.

Module Scanner.
Import GoStrings GoTime Encoding Interleave.

(** ** Data *)

Definition Compliant : string := "compliant".
Definition NonCompliant : string := "non_compliant".
Definition Critical : string := "critical".
Definition Unknown : string := "unknown".
Definition CategorySaaS : string := "saas_app".
Definition CategoryWebsite : string := "website".
Definition CategoryAPI : string := "api_endpoint".
Definition CategoryCDN : string := "cdn".

Record Finding := mkFinding { Severity : string; Code : string; Description : string }.
Record ScanResult := mkResult {
  ID : string; Host : string; Port : Z; ScannedAt : Z; Reachable : bool;
  TLSVersion : Z; TLSVersionName : string; CipherSuite : Z; CipherSuiteName : string;
  CertSubject : string; CertIssuer : string; CertNotBefore : Z; CertNotAfter : Z;
  CertExpired : bool; CertSelfSigned : bool; CertChainValid : bool; CertSANs : list string;
  KeySize : Z; SignatureAlgo : string; HSTSEnabled : bool; HSTSMaxAge : Z;
  Compliance : string; Findings : list Finding; URLCategory : string; OrgID : string; SourceTrustList : string;
}.
Record TrustedSource := mkSource { s_ID : string; s_Name : string; s_URLs : list string }.
Record Opportunity := mkOpp {
  o_ID : string; o_Host : string; o_Compliance : string; o_Findings : list Finding; o_URLCategory : string;
  ContactEmail : string; ServiceName : string; Status : string; CreatedAt : Z; EmailSentAt : option Z;
  ProposalType : string; ScanResultID : string; o_OrgID : string;
}.
Record OutreachConfig := mkConfig {
  ApexAdversaryAPI : string; APIKey : string; SMTPEndpoint : string; FromEmail : string; FromName : string; Enabled : bool;
}.

(** What [crypto/tls] and [crypto/x509] give.  An RSA key is its number of bits; the other kinds of
    key have no method [Size].  The signature algorithm is the name [crypto/x509] prints. *)
Inductive public_key := NoKey | RSAKey (bits : Z) | OtherKey.
Record cert := mkCert {
  Subject : string; Issuer : string; NotBefore : Z; NotAfter : Z; IsCA : bool; DNSNames : list string;
  SignatureAlgorithm : string; PublicKey : public_key;
}.
Record connection := mkConnection { Version : Z; Suite : Z; PeerCertificates : list cert }.
Inductive dialed := DialFailed (msg : string) (expired : bool) | Connected (c : connection).

(** A request to the mail service, with the fields its JSON encoder gets. *)
Record mail := mkMail {
  m_URL : string; m_Key : string; m_from : string; m_to : string; m_subject : string; m_html : string;
  m_category : string; m_opportunity : string; m_host : string;
}.
Inductive answered := Unreachable (msg : string) | Answered (status : Z).

(** The surroundings of a request: its readings of the clock, the network and the completion order
    of the goroutines of a scan. *)
Record env := mkEnv {
  clock : nat → nat → Z;                       (** target, reading *)
  dial : string → dialed;
  verify : cert → list cert → Z → bool;
  post_mail : mail → answered;
  (** [html/template] on the constant template: identifier, host, service, proposal, findings *)
  render : string → string → string → string → list Finding → result string string;
  order : range_order;
  arrange : list ScanResult → list ScanResult;
  arrange_all : ∀ l, arrange l ≡ₚ l;
}.

(** ** Hosts *)

Fixpoint last_colon (s : string) : option nat :=
  match s with
  | EmptyString => None
  | String c s => match last_colon s with Some i => Some (S i) | None => if Ascii.eqb c ":" then Some 0 else None end
  end.
Fixpoint index (c : ascii) (s : string) : option nat :=
  match s with
  | EmptyString => None
  | String d s => if Ascii.eqb c d then Some 0 else S <$> index c s
  end.
Definition from (i : nat) (s : string) : string := String.substring i (String.length s - i) s.
Definition upto (i : nat) (s : string) : string := String.substring 0 i s.
Definition has (c : ascii) (s : string) : bool := match index c s with Some _ => true | None => false end.

(** [net.SplitHostPort]: the host and the port, [None] for an error. *)
Definition SplitHostPort (hp : string) : option (string * string) :=
  i ← last_colon hp;
  '(host, j, k) ←
    (if String.prefix "[" hp then
       end_ ← index "]" hp;
       if Nat.eqb (end_ + 1) i then Some (String.substring 1 (end_ - 1) hp, 1, end_ + 1) else None
     else if has ":" (upto i hp) then None else Some (upto i hp, 0, 0));
  if has "[" (from j hp) || has "]" (from k hp) then None else Some (host, from (i + 1) hp).

(** [fmt.Sscanf(p, "%d", &port)]: blanks, a sign, then the longest run of digits; what follows is
    left alone. *)
Definition scan_digits (s : string) : option Z := if Json.starts_digit s then Some (fst (Json.read_digits 0 s)) else None.
Fixpoint skip_blanks (s : string) : string :=
  match s with String c s' => if Ascii.eqb c " " || Ascii.eqb c "009" then skip_blanks s' else s | EmptyString => s end.
Definition scan_signed (s : string) : option Z :=
  match s with
  | String c r => if Ascii.eqb c "-" then Z.opp <$> scan_digits r else if Ascii.eqb c "+" then scan_digits r else scan_digits s
  | EmptyString => None
  end.
Definition Sscanf_d (s : string) : option Z :=
  n ← scan_signed (skip_blanks s);
  if (- 2 ^ 63 <=? n)%Z && (n <? 2 ^ 63)%Z then Some n else None.

Definition parseHostPort (rawURL : string) : string * Z :=
  let host := foldl TrimPrefix rawURL ["https://"; "http://"; "wss://"; "ws://"] in
  let host := before "/" host in
  match SplitHostPort host with
  | None => (host, 443%Z)
  | Some (h, p) => (h, if bool_decide (p = "") then 443%Z else default 443%Z (Sscanf_d p))
  end.

Definition categorizeHost (host : string) : string :=
  if existsb (Contains host)
       ["salesforce.com"; "slack.com"; "zoom.us"; "office365.com"; "microsoft.com"; "google.com"; "dropbox.com"; "box.com";
        "github.com"; "gitlab.com"; "jira"; "confluence"; "servicenow.com"; "workday.com"; "okta.com"; "auth0.com";
        "hubspot.com"; "zendesk.com"; "pagerduty.com"] then CategorySaaS
  else if existsb (Contains host) ["cloudfront.net"; "akamai"; "fastly"; "cloudflare"; "cdn."; "edgecast"; "stackpath"] then CategoryCDN
  else if HasPrefix host "api." || Contains host "/api/" then CategoryAPI
  else CategoryWebsite.

(** ** Grading *)

Definition VersionTLS10 : Z := 769.
Definition VersionTLS11 : Z := 770.
Definition VersionTLS12 : Z := 771.
Definition VersionTLS13 : Z := 772.
Definition hex4 (upper : bool) (n : Z) : string :=
  let d k := let v := Z.to_nat (Z.land (Z.shiftr n k) 15) in ascii_of_nat (if v <? 10 then 48 + v else (if upper then 55 else 87) + v) in
  String (d 12%Z) (String (d 8%Z) (String (d 4%Z) (String (d 0%Z) EmptyString))).
Definition tlsVersionName (v : Z) : string :=
  if (v =? VersionTLS10)%Z then "TLS 1.0" else if (v =? VersionTLS11)%Z then "TLS 1.1"
  else if (v =? VersionTLS12)%Z then "TLS 1.2" else if (v =? VersionTLS13)%Z then "TLS 1.3"
  else "Unknown (0x" +:+ hex4 false v +:+ ")".

(** [tls.CipherSuiteName]: the suites the package implements. *)
Definition suites : list (Z * string) :=
  [(4865, "TLS_AES_128_GCM_SHA256"); (4866, "TLS_AES_256_GCM_SHA384"); (4867, "TLS_CHACHA20_POLY1305_SHA256");
   (49161, "TLS_ECDHE_ECDSA_WITH_AES_128_CBC_SHA"); (49162, "TLS_ECDHE_ECDSA_WITH_AES_256_CBC_SHA");
   (49171, "TLS_ECDHE_RSA_WITH_AES_128_CBC_SHA"); (49172, "TLS_ECDHE_RSA_WITH_AES_256_CBC_SHA");
   (49195, "TLS_ECDHE_ECDSA_WITH_AES_128_GCM_SHA256"); (49196, "TLS_ECDHE_ECDSA_WITH_AES_256_GCM_SHA384");
   (49199, "TLS_ECDHE_RSA_WITH_AES_128_GCM_SHA256"); (49200, "TLS_ECDHE_RSA_WITH_AES_256_GCM_SHA384");
   (52392, "TLS_ECDHE_RSA_WITH_CHACHA20_POLY1305_SHA256"); (52393, "TLS_ECDHE_ECDSA_WITH_CHACHA20_POLY1305_SHA256");
   (5, "TLS_RSA_WITH_RC4_128_SHA"); (10, "TLS_RSA_WITH_3DES_EDE_CBC_SHA"); (47, "TLS_RSA_WITH_AES_128_CBC_SHA");
   (53, "TLS_RSA_WITH_AES_256_CBC_SHA"); (60, "TLS_RSA_WITH_AES_128_CBC_SHA256"); (156, "TLS_RSA_WITH_AES_128_GCM_SHA256");
   (157, "TLS_RSA_WITH_AES_256_GCM_SHA384"); (49159, "TLS_ECDHE_ECDSA_WITH_RC4_128_SHA"); (49169, "TLS_ECDHE_RSA_WITH_RC4_128_SHA");
   (49170, "TLS_ECDHE_RSA_WITH_3DES_EDE_CBC_SHA"); (49187, "TLS_ECDHE_ECDSA_WITH_AES_128_CBC_SHA256");
   (49191, "TLS_ECDHE_RSA_WITH_AES_128_CBC_SHA256")]%Z.
Definition cipherSuiteName (id : Z) : string :=
  match List.find (λ p, (fst p =? id)%Z) suites with Some (_, n) => n | None => "0x" +:+ hex4 true id end.

Definition upper_char (c : ascii) : ascii :=
  let n := nat_of_ascii c in if (97 <=? n) && (n <=? 122) then ascii_of_nat (n - 32) else c.
Definition ToUpper : string → string := smap upper_char.
Definition date_text (t : Z) : string := String.substring 0 10 (RFC3339 t).
Definition day : Z := 86400 * second.
(** [t.Sub(u)]: the difference, cut to the range of a duration. *)
Definition since (t u : Z) : Z := Z.max (- 2 ^ 63) (Z.min (2 ^ 63 - 1) (t - u)).

Definition weakAlgos : list string := ["SHA1"; "MD5"; "MD2"].
Definition weakCiphers : list string := ["RC4"; "DES"; "3DES"; "NULL"; "EXPORT"].

(** [now]: the time of the check. *)
Definition runComplianceChecks (now : Z) (r : ScanResult) : list Finding :=
  (if (TLSVersion r <? VersionTLS12)%Z then
     [mkFinding "critical" "TLS_OUTDATED" ("Uses " +:+ TLSVersionName r +:+ " — minimum TLS 1.2 required")]
   else if (TLSVersion r =? VersionTLS12)%Z then
     [mkFinding "low" "TLS_12_ONLY" "Uses TLS 1.2 — consider upgrading to TLS 1.3"]
   else [])
  ++ (if CertExpired r then [mkFinding "critical" "CERT_EXPIRED" ("Certificate expired on " +:+ date_text (CertNotAfter r))]
      else
        let daysLeft := Z.quot (since (CertNotAfter r) now) day in
        if (daysLeft <? 30)%Z then
          [mkFinding "high" "CERT_EXPIRING_SOON" ("Certificate expires in " +:+ itoa daysLeft +:+ " days")]
        else [])
  ++ (if CertSelfSigned r then [mkFinding "high" "CERT_SELF_SIGNED" "Certificate is self-signed — not trusted by browsers"] else [])
  ++ (if negb (CertChainValid r) then
        [mkFinding "high" "CERT_CHAIN_INVALID" "Certificate chain does not validate against system trust store"] else [])
  ++ (if (0 <? KeySize r)%Z && (KeySize r <? 2048)%Z then
        [mkFinding "critical" "KEY_TOO_SHORT" ("Key size " +:+ itoa (KeySize r) +:+ " bits — minimum 2048 required")] else [])
  ++ (if existsb (Contains (ToUpper (SignatureAlgo r))) weakAlgos then
        [mkFinding "critical" "WEAK_SIGNATURE" ("Uses weak signature algorithm: " +:+ SignatureAlgo r)] else [])
  ++ (if existsb (Contains (ToUpper (CipherSuiteName r))) weakCiphers then
        [mkFinding "critical" "WEAK_CIPHER" ("Uses weak cipher suite: " +:+ CipherSuiteName r)] else []).

Fixpoint grade (level : string) (l : list Finding) : string :=
  match l with
  | [] => level
  | f :: l =>
      if bool_decide (Severity f = "critical") then Critical
      else if bool_decide (Severity f = "high") then grade NonCompliant l
      else if bool_decide (Severity f = "medium") then grade (if bool_decide (level = Compliant) then NonCompliant else level) l
      else grade level l
  end.
Definition overallCompliance (l : list Finding) : string := grade Compliant l.

(** The method [Size] of an RSA key: the bytes of its modulus. *)
Definition Size (bits : Z) : Z := ((bits + 7) / 8)%Z.
Definition keyBitSize (c : cert) : Z := match PublicKey c with RSAKey bits => (Size bits * 8)%Z | _ => 0%Z end.
(** The text after the first colon and blank. *)
Fixpoint after_colon (s : string) : option string :=
  match s with
  | EmptyString => None
  | String c r => if String.prefix ": " s then Some (String.substring 2 (String.length s - 2) s) else after_colon r
  end.
Definition sanitizeError (msg : string) : string := default msg (after_colon msg).

Definition unreachable (id host : string) (port t : Z) (f : Finding) : ScanResult :=
  mkResult id host port t false 0 "" 0 "" "" "" zero_time zero_time false false false [] 0 "" false 0 Unknown [f] "" "" "".
Definition inspect (e : env) (i : nat) (id host : string) (port t : Z) (c : connection) : ScanResult :=
  let r := mkResult id host port t true (Version c) (tlsVersionName (Version c)) (Suite c) (cipherSuiteName (Suite c)) in
  match PeerCertificates c with
  | [] => r "" "" zero_time zero_time false false false [] 0%Z "" false 0%Z "" [] (categorizeHost host) "" ""
  | leaf :: rest =>
      r (Subject leaf) (Issuer leaf) (NotBefore leaf) (NotAfter leaf) (NotAfter leaf <? clock e i 2)%Z
        (bool_decide (Issuer leaf = Subject leaf) && IsCA leaf) (verify e leaf rest (clock e i 3)) (DNSNames leaf)
        (keyBitSize leaf) (SignatureAlgorithm leaf) false 0%Z "" [] (categorizeHost host) "" ""
  end.
Definition graded (now : Z) (r : ScanResult) : ScanResult :=
  let l := runComplianceChecks now r in
  mkResult (ID r) (Host r) (Port r) (ScannedAt r) (Reachable r) (TLSVersion r) (TLSVersionName r) (CipherSuite r) (CipherSuiteName r)
    (CertSubject r) (CertIssuer r) (CertNotBefore r) (CertNotAfter r) (CertExpired r) (CertSelfSigned r) (CertChainValid r) (CertSANs r)
    (KeySize r) (SignatureAlgo r) (HSTSEnabled r) (HSTSMaxAge r) (overallCompliance l) l (URLCategory r) (OrgID r) (SourceTrustList r).

Definition ScanHost (e : env) (i : nat) (rawURL : string) : ScanResult :=
  let '(host, port) := parseHostPort rawURL in
  let id := "scan-" +:+ host +:+ "-" +:+ itoa (clock e i 0 / 1000000) in
  let t := clock e i 1 in
  match dial e (host +:+ ":" +:+ itoa port) with
  | DialFailed msg true =>
      unreachable id host port t (mkFinding "high" "CONN_TIMEOUT" "Connection timed out — host may be unreachable")
  | DialFailed msg false =>
      unreachable id host port t (mkFinding "high" "CONN_FAILED" ("TLS connection failed: " +:+ sanitizeError msg))
  | Connected c => graded (clock e i 4) (inspect e i id host port t c)
  end.
Definition with_source (src : string) (r : ScanResult) : ScanResult :=
  mkResult (ID r) (Host r) (Port r) (ScannedAt r) (Reachable r) (TLSVersion r) (TLSVersionName r) (CipherSuite r) (CipherSuiteName r)
    (CertSubject r) (CertIssuer r) (CertNotBefore r) (CertNotAfter r) (CertExpired r) (CertSelfSigned r) (CertChainValid r) (CertSANs r)
    (KeySize r) (SignatureAlgo r) (HSTSEnabled r) (HSTSMaxAge r) (Compliance r) (Findings r) (URLCategory r) (OrgID r) src.

(** ** The shared state *)

(** [objects] are the opportunities that were ever made, [opportunities] the table of pointers. *)
Record State := mkState {
  results : gmap string ScanResult; sources : gmap string TrustedSource;
  objects : list Opportunity; opportunities : gmap string nat; log : AuditTrail.Audit.AuditLog;
}.
Definition with_results (m : gmap string ScanResult) (s : State) : State := mkState m (sources s) (objects s) (opportunities s) (log s).
Definition with_sources (m : gmap string TrustedSource) (s : State) : State := mkState (results s) m (objects s) (opportunities s) (log s).
Definition with_log (a : AuditTrail.Audit.AuditLog) (s : State) : State := mkState (results s) (sources s) (objects s) (opportunities s) a.
Definition NewState : State := mkState ∅ ∅ [] ∅ AuditTrail.Audit.NewAuditLog.

(** ** The scanner *)

Definition AddSource (src : TrustedSource) (s : State) : State := with_sources (<[s_ID src := src]> (sources s)) s.
Definition RemoveSource (id : string) (s : State) : State := with_sources (delete id (sources s)) s.
Definition ListSources (ro : range_order) (s : State) : list TrustedSource := values ro (sources s).
Definition targets (ro : range_order) (s : State) : list (string * string) :=
  concat ((λ src, (λ u, (u, s_ID src)) <$> s_URLs src) <$> values ro (sources s)).
(** The goroutines, one for each target, append their results as they finish. *)
Definition scan_targets (e : env) (ts : list (string * string)) : list ScanResult :=
  arrange e (imap (λ i t, with_source (snd t) (ScanHost e i (fst t))) ts).
Definition store_results (l : list ScanResult) (s : State) : State :=
  with_results (foldl (λ m r, <[Host r := r]> m) (results s) l) s.
Definition ScanAll (e : env) : prog State (list ScanResult) :=
  bind (query (targets (order e))) (λ ts,
  let l := scan_targets e ts in
  bind (stmt (λ s, (store_results l s, tt))) (λ _, Ret l)).
Definition ListResults (ro : range_order) (s : State) : list ScanResult := values ro (results s).
Definition GetResult (host : string) (s : State) : option ScanResult := results s !! host.
Definition failing (r : ScanResult) : bool := bool_decide (Compliance r = NonCompliant) || bool_decide (Compliance r = Critical).
Definition NonCompliantResults (ro : range_order) (s : State) : list ScanResult := List.filter failing (values ro (results s)).

(** ** The outreach *)

Definition last2 (l : list string) : option (string * string) :=
  match reverse l with y :: x :: _ => Some (x, y) | _ => None end.
Definition deriveServiceName (host : string) : string :=
  match last2 (Split "." host) with
  | Some (String c name, _) => ToUpper (String c EmptyString) +:+ name
  | _ => host
  end.
Definition deriveContactEmail (host : string) : string :=
  match last2 (Split "." host) with Some (x, y) => "security@" +:+ x +:+ "." +:+ y | None => "" end.
Definition proposalType (c : string) : string := if bool_decide (c = Critical) then "managed_fix" else "self_fix".

(** [t0], [t1]: the readings of the clock.  The call of the other platform, when it is enabled,
    changes nothing here: its failure is logged. *)
Definition opportunity_of (t0 t1 : Z) (r : ScanResult) : Opportunity :=
  mkOpp ("opp-" +:+ Host r +:+ "-" +:+ itoa (t0 / 1000000)) (Host r) (Compliance r) (Findings r) (URLCategory r)
    (deriveContactEmail (Host r)) (deriveServiceName (Host r)) "new" t1 None (proposalType (Compliance r)) (ID r) (OrgID r).
Definition allocate (o : Opportunity) (s : State) : State :=
  mkState (results s) (sources s) (objects s ++ [o]) (<[o_ID o := length (objects s)]> (opportunities s)) (log s).
Fixpoint process_results (e : env) (i : nat) (l : list ScanResult) (created : list Opportunity) : prog State (list Opportunity) :=
  match l with
  | [] => Ret created
  | r :: l =>
      if negb (failing r) then process_results e (S i) l created
      else
        let o := opportunity_of (clock e i 10) (clock e i 11) r in
        bind (stmt (λ s, (allocate o s, tt))) (λ _, process_results e (S i) l (created ++ [o]))
  end.
Definition ProcessNonCompliant (e : env) (l : list ScanResult) : prog State (list Opportunity) := process_results e 0 l [].

Definition objects_of (ro : range_order) (s : State) : list (nat * Opportunity) :=
  omap (λ r, (λ o, (r, o)) <$> objects s !! r) (values ro (opportunities s)).
Definition pending (ro : range_order) (s : State) : list (nat * Opportunity) :=
  List.filter (λ p, bool_decide (Status (snd p) = "new") && negb (bool_decide (ContactEmail (snd p) = ""))) (objects_of ro s).

Definition renderEmail (e : env) (o : Opportunity) : result string string :=
  render e (o_ID o) (o_Host o) (ServiceName o) (ProposalType o) (o_Findings o).
Definition sendRemediationEmail (cfg : OutreachConfig) (e : env) (o : Opportunity) : result string unit :=
  match renderEmail e o with
  | Err msg => Err ("render email: " +:+ msg)
  | Ok body =>
      match post_mail e (mkMail (SMTPEndpoint cfg) (APIKey cfg) (FromName cfg +:+ " <" +:+ FromEmail cfg +:+ ">") (ContactEmail o)
                           ("TLS Compliance Alert — " +:+ o_Host o) body "tls-compliance-outreach" (o_ID o) (o_Host o)) with
      | Unreachable msg => Err ("send email: " +:+ msg)
      | Answered status => if (300 <=? status)%Z then Err ("email API returned status " +:+ itoa status) else Ok tt
      end
  end.
Definition set_sent (t : Z) (o : Opportunity) : Opportunity :=
  mkOpp (o_ID o) (o_Host o) (o_Compliance o) (o_Findings o) (o_URLCategory o) (ContactEmail o) (ServiceName o) "email_sent" (CreatedAt o)
    (Some t) (ProposalType o) (ScanResultID o) (o_OrgID o).
Definition set_status (st : string) (o : Opportunity) : Opportunity :=
  mkOpp (o_ID o) (o_Host o) (o_Compliance o) (o_Findings o) (o_URLCategory o) (ContactEmail o) (ServiceName o) st (CreatedAt o)
    (EmailSentAt o) (ProposalType o) (ScanResultID o) (o_OrgID o).
Definition write (f : Opportunity → Opportunity) (r : nat) (s : State) : State :=
  mkState (results s) (sources s) (alter f r (objects s)) (opportunities s) (log s).
Fixpoint send_all (cfg : OutreachConfig) (e : env) (i : nat) (l : list (nat * Opportunity)) (sent errs : nat) : prog State (nat * nat) :=
  match l with
  | [] => Ret (sent, errs)
  | (r, o) :: l =>
      match sendRemediationEmail cfg e o with
      | Err _ => send_all cfg e (S i) l sent (S errs)
      | Ok _ => bind (stmt (λ s, (write (set_sent (clock e i 20)) r s, tt))) (λ _, send_all cfg e (S i) l (S sent) errs)
      end
  end.
Definition SendOutreachEmails (cfg : OutreachConfig) (e : env) : prog State (nat * nat) :=
  bind (query (pending (order e))) (λ l, send_all cfg e 0 l 0 0).
Definition ListOpportunities (ro : range_order) (s : State) : list Opportunity := snd <$> objects_of ro s.
Definition GetOpportunity (id : string) (s : State) : option Opportunity := r ← opportunities s !! id; objects s !! r.
Definition UpdateStatus (id status : string) (s : State) : State * bool :=
  match opportunities s !! id with
  | None => (s, false)
  | Some r => (write (set_status status) r s, true)
  end.

(** ** The handlers *)

Inductive reply :=
| WSafe (status : Z)
| WAdded (id : string)
| WStatus (text : string)
| WSources (l : list TrustedSource)
| WScan (l : list ScanResult) (bad : list ScanResult) (opps : list Opportunity)
| WResult (r : ScanResult)
| WResults (l bad : list ScanResult)
| WSent (sent errs : nat)
| WOpportunities (l : list Opportunity)
| WOpportunity (o : Opportunity).

Definition visit := Dot1xApi.Dot1xApi.visit.
(** An entry of the handlers of this file. *)
Definition entry (v : visit) (prefix event resource action : string) (details : option string) (ok : bool) : AuditTrail.Audit.AuditEntry :=
  AuditTrail.Audit.mkEntry (Dot1xApi.Dot1xApi.auditID prefix (Dot1xApi.Dot1xApi.v_audit v)) zero_time event AuditTrail.Audit.SevInfo
    (Dot1xApi.Dot1xApi.v_string v "user_id") (Dot1xApi.Dot1xApi.v_ip v) resource action
    (Dot1xApi.Dot1xApi.v_string v "org_id") (Dot1xApi.Dot1xApi.v_string v "request_id") details ok "".
Definition record (v : visit) (x : AuditTrail.Audit.AuditEntry) : prog State unit :=
  stmt (λ s, (with_log (AuditTrail.Audit.Record_ (Dot1xApi.Dot1xApi.v_record v) (log s) x) s, tt)).
(** [mustJSON] of a map of two counters, with its keys in order. *)
Definition mustJSON (k1 : string) (n1 : nat) (k2 : string) (n2 : nat) : string :=
  "{" +:+ Join [AuditTrail.Audit.field k1 (itoa (Z.of_nat n1)); AuditTrail.Audit.field k2 (itoa (Z.of_nat n2))] "," +:+ "}".

Definition AddSource_ (v : visit) (body : option TrustedSource) : prog State reply :=
  match body with
  | None => Ret (WSafe 400)
  | Some src =>
      bind (stmt (λ s, (AddSource src s, tt))) (λ _,
      bind (record v (entry v "src" AuditTrail.Audit.EventScannerRun ("scanner:source:" +:+ s_ID src) "create" None true)) (λ _,
      Ret (WAdded (s_ID src))))
  end.
Definition ListSources_ (ro : range_order) : prog State reply := bind (query (ListSources ro)) (λ l, Ret (WSources l)).
Definition RemoveSource_ (id : string) : prog State reply := bind (stmt (λ s, (RemoveSource id s, tt))) (λ _, Ret (WStatus "removed")).
Definition ScanAll_ (v : visit) (e : env) : prog State reply :=
  bind (ScanAll e) (λ l,
  bind (ProcessNonCompliant e l) (λ opps,
  bind (record v (entry v "scan" AuditTrail.Audit.EventScannerRun "scanner:full_scan" "scan"
                    (Some (mustJSON "opportunities" (length opps) "scanned" (length l))) true)) (λ _,
  bind (query (NonCompliantResults (order e))) (λ bad, Ret (WScan l bad opps))))).
Definition ScanHost_ (e : env) (host : string) : prog State reply :=
  if bool_decide (host = "") then Ret (WSafe 400) else Ret (WResult (ScanHost e 0 host)).
Definition ListResults_ (ro : range_order) : prog State reply :=
  bind (query (ListResults ro)) (λ l, bind (query (NonCompliantResults ro)) (λ bad, Ret (WResults l bad))).
(** The handler reads the parameter [host]; the route has the parameter [id], so that it is empty. *)
Definition GetResult_ (param : string → string) : prog State reply :=
  bind (query (GetResult (param "host"))) (λ r, Ret (match r with None => WSafe 404 | Some r => WResult r end)).
Definition SendOutreach (v : visit) (cfg : OutreachConfig) (e : env) : prog State reply :=
  bind (SendOutreachEmails cfg e) (λ n,
  bind (record v (entry v "outreach" AuditTrail.Audit.EventOutreach "outreach:email_batch" "send"
                    (Some (mustJSON "errors" (snd n) "sent" (fst n))) (Nat.eqb (snd n) 0))) (λ _,
  Ret (WSent (fst n) (snd n)))).
Definition ListOpportunities_ (ro : range_order) : prog State reply := bind (query (ListOpportunities ro)) (λ l, Ret (WOpportunities l)).
Definition GetOpportunity_ (id : string) : prog State reply :=
  bind (query (GetOpportunity id)) (λ o, Ret (match o with None => WSafe 404 | Some o => WOpportunity o end)).
Definition UpdateOpportunityStatus (id : string) (body : option string) : prog State reply :=
  match body with
  | None => Ret (WSafe 400)
  | Some status => bind (stmt (UpdateStatus id status)) (λ ok, Ret (if negb ok then WSafe 404 else WStatus "updated"))
  end.

Inductive call :=
| CAddSource (v : visit) (body : option TrustedSource)
| CListSources (ro : range_order)
| CRemoveSource (id : string)
| CScanAll (v : visit) (e : env)
| CScanHost (e : env) (host : string)
| CListResults (ro : range_order)
| CGetResult (param : string → string)
| CSend (v : visit) (e : env)
| CListOpps (ro : range_order)
| CGetOpp (id : string)
| CUpdate (id : string) (body : option string).

Definition serve (cfg : OutreachConfig) (c : call) : prog State reply :=
  match c with
  | CAddSource v body => AddSource_ v body
  | CListSources ro => ListSources_ ro
  | CRemoveSource id => RemoveSource_ id
  | CScanAll v e => ScanAll_ v e
  | CScanHost e host => ScanHost_ e host
  | CListResults ro => ListResults_ ro
  | CGetResult param => GetResult_ param
  | CSend v e => SendOutreach v cfg e
  | CListOpps ro => ListOpportunities_ ro
  | CGetOpp id => GetOpportunity_ id
  | CUpdate id body => UpdateOpportunityStatus id body
  end.

(** ** A grade says what is wrong *)

Definition has_severity (s : string) (f : Finding) : bool := bool_decide (Severity f = s).
Lemma overall_spec l :
  overallCompliance l =
    if existsb (has_severity "critical") l then Critical
    else if existsb (λ f, has_severity "high" f || has_severity "medium" f) l then NonCompliant else Compliant.
Proof.
  unfold overallCompliance. assert (H : ∀ level, level = Compliant ∨ level = NonCompliant → grade level l =
    if existsb (has_severity "critical") l then Critical
    else if existsb (λ f, has_severity "high" f || has_severity "medium" f) l then NonCompliant else level); [|by apply H; left].
  induction l as [|f l IH]; intros level Hl; cbn; [done|]. unfold has_severity at 1 3 4.
  case_bool_decide as H1; [done|]. cbn. case_bool_decide as H2; cbn.
  - rewrite (IH NonCompliant) by by right. by repeat case_match.
  - case_bool_decide as H3; cbn; [|by apply IH]. rewrite IH by (destruct Hl as [-> | ->]; by right).
    destruct Hl as [-> | ->]; by repeat case_match.
Qed.

Lemma prefix_chars p s c : String.prefix p s = true → c ∈ String.list_ascii_of_string p → c ∈ String.list_ascii_of_string s.
Proof.
  revert s. induction p as [|d p IH]; intros s Hp Hc; [by apply not_elem_of_nil in Hc|]. destruct s as [|d' s]; [done|]. cbn in Hp.
  destruct (ascii_dec d d') as [<-|]; [|done]. cbn in *. apply elem_of_cons in Hc as [->|Hc]; apply elem_of_cons; [by left|right; by apply IH].
Qed.
Lemma contains_chars s sub c : Contains s sub = true → c ∈ String.list_ascii_of_string sub → c ∈ String.list_ascii_of_string s.
Proof.
  induction s as [|d s IH]; cbn [Contains]; rewrite orb_true_iff; intros [Hp|Hs] Hc; [by eapply prefix_chars|done|by eapply prefix_chars|].
  cbn. apply elem_of_cons. right. auto.
Qed.

Definition weak_suites : list Z := [5; 10; 49159; 49169; 49170]%Z.
Lemma hex_char k : k < 16 → nat_of_ascii (ascii_of_nat (if k <? 10 then 48 + k else 55 + k)) ≤ 70.
Proof. intros Hk. do 16 (destruct k as [|k]; [vm_compute; lia|]). lia. Qed.
Lemma unknown_suite id c : c ∈ String.list_ascii_of_string (ToUpper ("0x" +:+ hex4 true id)) → nat_of_ascii c ≤ 70 ∨ c = "X"%char.
Proof.
  assert (Hd : ∀ n k, Z.to_nat (Z.land (Z.shiftr n k) 15) < 16).
  { intros n k. change 15%Z with (Z.ones 4). rewrite Z.land_ones by lia. pose proof (Z.mod_pos_bound (Z.shiftr n k) (2 ^ 4)). lia. }
  assert (Hup : ∀ a, nat_of_ascii a ≤ 70 → upper_char a = a).
  { intros a Ha. unfold upper_char. cbv zeta. by rewrite (proj2 (Nat.leb_gt 97 _)) by lia. }
  unfold hex4, ToUpper. cbv zeta. match goal with |- context[("0x" +:+ ?t)%string] => change ("0x" +:+ t) with (String "0" (String "x" t)) end.
  cbn [smap String.list_ascii_of_string]. change (upper_char "0") with "0"%char. change (upper_char "x") with "X"%char. rewrite !Hup by (apply hex_char, Hd).
  intros Hc. repeat (apply elem_of_cons in Hc as [->|Hc]); try (left; apply hex_char, Hd); [left; vm_compute; lia|by right|by apply not_elem_of_nil in Hc].
Qed.
Lemma weak_suite_iff id : existsb (Contains (ToUpper (cipherSuiteName id))) weakCiphers = bool_decide (id ∈ weak_suites).
Proof.
  unfold cipherSuiteName. destruct (List.find (λ p, (fst p =? id)%Z) suites) as [[k n]|] eqn:Hf.
  - apply find_some in Hf as [Hin E]. cbn in E. apply Z.eqb_eq in E as ->.
    assert (H : forallb (λ p, Bool.eqb (existsb (Contains (ToUpper (snd p))) weakCiphers) (bool_decide (fst p ∈ weak_suites))) suites = true) by (vm_compute; reflexivity).
    rewrite forallb_forall in H. apply H in Hin. cbn in Hin. by apply Bool.eqb_prop in Hin.
  - rewrite bool_decide_eq_false_2.
    + apply not_true_iff_false. intros (w & Hw & Hc)%existsb_exists.
      assert (Hbad : ∃ c, c ∈ String.list_ascii_of_string w ∧ 70 < nat_of_ascii c ∧ c ≠ "X"%char).
      { cbn in Hw. destruct_or!; subst w; [exists "R"%char|exists "S"%char|exists "S"%char|exists "N"%char|exists "P"%char];
          (split_and!; [apply list_elem_of_In; cbn; tauto|apply Nat.ltb_lt; vm_compute; reflexivity|done]). }
      destruct Hbad as (c & Hin & Hlt & Hx). destruct (unknown_suite id c (contains_chars _ _ _ Hc Hin)); [lia|done].
    + intros Hin. assert (Hall : Forall (λ k, ∃ n, In (k, n) suites) weak_suites).
      { repeat constructor; eexists; cbn; tauto. }
      rewrite Forall_forall in Hall. destruct (Hall id Hin) as [n Hn]. apply (find_none _ _ Hf) in Hn. cbn in Hn. lia.
Qed.

Section Grade.
Context (e : env) (i : nat) (c : connection).
(** What makes a host critical, and what makes it fall short, in terms of the connection.
    771 is TLS 1.2 on the wire, and the suites are numbered as registered. *)
Definition fatal : Prop :=
  (Version c < 771)%Z ∨ Suite c ∈ weak_suites
  ∨ ∃ leaf rest, PeerCertificates c = leaf :: rest
      ∧ ((NotAfter leaf < clock e i 2)%Z ∨ (∃ bits, PublicKey leaf = RSAKey bits ∧ (0 < bits ≤ 2040)%Z)
         ∨ ∃ w, w ∈ ["MD2"; "MD5"; "SHA1"] ∧ Contains (ToUpper (SignatureAlgorithm leaf)) w = true).
Definition serious : Prop :=
  match PeerCertificates c with
  | [] => True
  | leaf :: rest =>
      (NotAfter leaf - clock e i 4 < 30 * day)%Z ∨ (Issuer leaf = Subject leaf ∧ IsCA leaf = true)
      ∨ verify e leaf rest (clock e i 3) = false
  end.
End Grade.

Lemma existsb_if {A} (p : A → bool) (b : bool) (x y : list A) : existsb p (if b then x else y) = if b then existsb p x else existsb p y.
Proof. by destruct b. Qed.

(** The checks find a fatal fault, or a serious one, exactly when the result shows it. *)
Lemma checks_critical now r :
  existsb (has_severity "critical") (runComplianceChecks now r) =
    (TLSVersion r <? VersionTLS12)%Z || CertExpired r || ((0 <? KeySize r)%Z && (KeySize r <? 2048)%Z)
    || existsb (Contains (ToUpper (SignatureAlgo r))) weakAlgos || existsb (Contains (ToUpper (CipherSuiteName r))) weakCiphers.
Proof.
  unfold runComplianceChecks. rewrite !existsb_app, !existsb_if. cbn [existsb has_severity Severity].
  rewrite ?(bool_decide_eq_true_2 ("critical" = "critical")), ?(bool_decide_eq_false_2 ("low" = "critical")), ?(bool_decide_eq_false_2 ("high" = "critical")) by done.
  cbn [orb].
  destruct (TLSVersion r <? VersionTLS12)%Z, (CertExpired r), ((0 <? KeySize r)%Z && (KeySize r <? 2048)%Z),
    (existsb (Contains (ToUpper (SignatureAlgo r))) weakAlgos), (existsb (Contains (ToUpper (CipherSuiteName r))) weakCiphers);
    cbn [orb]; by repeat case_match.
Qed.
Lemma checks_high now r :
  existsb (λ f, has_severity "high" f || has_severity "medium" f) (runComplianceChecks now r) =
    (negb (CertExpired r) && (Z.quot (since (CertNotAfter r) now) day <? 30)%Z) || CertSelfSigned r || negb (CertChainValid r).
Proof.
  unfold runComplianceChecks. cbv zeta. rewrite !existsb_app, !existsb_if. cbn [existsb]. unfold has_severity. cbn [Severity].
  rewrite ?(bool_decide_eq_false_2 ("critical" = "high")), ?(bool_decide_eq_false_2 ("critical" = "medium")),
    ?(bool_decide_eq_false_2 ("low" = "high")), ?(bool_decide_eq_false_2 ("low" = "medium")), ?(bool_decide_eq_true_2 ("high" = "high")) by done.
  cbn [orb].
  destruct (CertExpired r), (Z.quot (since (CertNotAfter r) now) day <? 30)%Z, (CertSelfSigned r), (CertChainValid r); cbn [orb andb negb]; by repeat case_match.
Qed.

(** The result of a scan that reached the host, field by field of its certificate. *)
Lemma ScanHost_connected e i url host port c :
  parseHostPort url = (host, port) → dial e (host +:+ ":" +:+ itoa port) = Connected c →
  ScanHost e i url = graded (clock e i 4) (inspect e i ("scan-" +:+ host +:+ "-" +:+ itoa (clock e i 0 / 1000000)) host port (clock e i 1) c).
Proof. intros Hp Hd. unfold ScanHost. by rewrite Hp, Hd. Qed.

Lemma weak_algo_iff a : existsb (Contains (ToUpper a)) weakAlgos = true ↔ ∃ w, w ∈ ["MD2"; "MD5"; "SHA1"] ∧ Contains (ToUpper a) w = true.
Proof.
  rewrite existsb_exists. apply exist_proper. intros w. apply and_iff_compat_r. rewrite <- list_elem_of_In. unfold weakAlgos. rewrite !elem_of_cons. tauto.
Qed.
Lemma key_short bits : (0 < Size bits * 8 < 2048 ↔ 0 < bits ≤ 2040)%Z.
Proof. unfold Size. pose proof (Z.div_mod (bits + 7) 8 ltac:(lia)). pose proof (Z.mod_pos_bound (bits + 7) 8 ltac:(lia)). lia. Qed.
Lemma ends_soon t u : (Z.quot (since t u) day < 30 ↔ t - u < 30 * day)%Z.
Proof.
  change day with 86400000000000%Z. assert (Hx : (since t u < 30 * 86400000000000 ↔ t - u < 30 * 86400000000000)%Z) by (unfold since; lia).
  rewrite <- Hx. generalize (since t u). intros x. split; intros H.
  2:{ destruct (Z.lt_ge_cases x 0); [|apply Z.quot_lt_upper_bound; lia]. pose proof (Z.quot_le_upper_bound x 86400000000000 0 ltac:(lia) ltac:(lia)). lia. }
  apply Z.nle_gt. intros Hge. pose proof (Z.quot_le_lower_bound x 86400000000000 30 ltac:(lia) ltac:(lia)). lia.
Qed.

Lemma inspect_fatal e i id host port t c :
  existsb (has_severity "critical") (runComplianceChecks (clock e i 4) (inspect e i id host port t c)) = true ↔ fatal e i c.
Proof.
  rewrite checks_critical. unfold inspect, fatal. destruct (PeerCertificates c) as [|leaf rest].
  - cbn [TLSVersion CertExpired KeySize SignatureAlgo CipherSuiteName]. rewrite weak_suite_iff, !orb_true_iff, Z.ltb_lt, bool_decide_eq_true.
    split; [|intros [H|[H|(leaf & rest & H & _)]]; [tauto|tauto|done]]. intros [[[[H|H]|H]|H]|H]; try done; tauto.
  - cbn [TLSVersion CertExpired KeySize SignatureAlgo CipherSuiteName].
    rewrite weak_suite_iff, !orb_true_iff, weak_algo_iff, !Z.ltb_lt, bool_decide_eq_true, andb_true_iff, !Z.ltb_lt.
    unfold keyBitSize. split.
    + intros [[[[H|H]|[H1 H2]]|H]|H]; [by left| | | |tauto]; right; right; exists leaf, rest; (split; [done|]); [tauto| |tauto].
      right. left. destruct (PublicKey leaf) as [|bits|]; [lia| |lia]. exists bits. split; [done|]. by apply key_short.
    + intros [H|[H|(l & k & [= <- <-] & [H|[(n & Hn & H)|H]])]]; [by do 4 left|tauto|tauto| |tauto]. rewrite Hn. apply key_short in H. tauto.
Qed.

(** C31: Grades are exact.  A host that was reached is critical when the connection is below TLS 1.2
    or uses one of the five RC4 and 3DES suites, or when its certificate has expired, has an RSA key
    of at most 2040 bits or a signature algorithm whose name has MD2, MD5 or SHA1 in it; it is
    non-compliant when none of these holds but it has no certificate, one that ends within thirty
    days, one that is self-signed or one whose chain does not verify; and it is compliant otherwise.
    There is no other grade.  (The key size is rounded up to whole bytes, so keys of 2041 to 2047
    bits pass for 2048.) *)
Theorem scan_graded e i url host port c :
  parseHostPort url = (host, port) → dial e (host +:+ ":" +:+ itoa port) = Connected c →
  let g := Compliance (ScanHost e i url) in
  (g = Critical ↔ fatal e i c) ∧ (g = NonCompliant ↔ ¬ fatal e i c ∧ serious e i c) ∧ (g = Compliant ↔ ¬ fatal e i c ∧ ¬ serious e i c).
Proof.
  intros Hp Hd. cbv zeta. rewrite (ScanHost_connected e i url host port c Hp Hd). unfold graded. cbn [Compliance]. rewrite overall_spec.
  set (r := inspect e i _ host port _ c). pose proof (inspect_fatal e i ("scan-" +:+ host +:+ "-" +:+ itoa (clock e i 0 / 1000000)) host port (clock e i 1) c) as Hf.
  fold r in Hf. destruct (existsb (has_severity "critical") _) eqn:Hc.
  { assert (fatal e i c) by by apply Hf. split_and!; split; try done; by intros []. }
  assert (Hnf : ¬ fatal e i c) by (intros H; by apply Hf in H).
  assert (Hs : existsb (λ f, has_severity "high" f || has_severity "medium" f) (runComplianceChecks (clock e i 4) r) = true ↔ serious e i c).
  { rewrite checks_high. rewrite checks_critical, !orb_false_iff in Hc. destruct Hc as [[[[_ He] _] _] _]. rewrite He. cbn [negb andb].
    unfold serious, r, inspect. destruct (PeerCertificates c) as [|leaf rest]; cbn [CertNotAfter CertSelfSigned CertChainValid].
    - rewrite orb_true_r. tauto.
    - rewrite !orb_true_iff, Z.ltb_lt, andb_true_iff, bool_decide_eq_true, negb_true_iff, ends_soon. tauto. }
  destruct (existsb (λ f, has_severity "high" f || has_severity "medium" f) (runComplianceChecks (clock e i 4) r)).
  - assert (serious e i c) by by apply Hs. split_and!; split; try done; by intros [].
  - assert (¬ serious e i c) by (intros H; by apply Hs in H). split_and!; split; try done; by intros [].
Qed.

(** ** Mail goes to hosts that failed, and is recorded when it was taken *)

Section Outreach.
Context (cfg : OutreachConfig).

(** An opportunity without what may change. *)
Definition bare (o : Opportunity) : Opportunity :=
  mkOpp (o_ID o) (o_Host o) (o_Compliance o) (o_Findings o) (o_URLCategory o) (ContactEmail o) (ServiceName o) "" (CreatedAt o) None
    (ProposalType o) (ScanResultID o) (o_OrgID o).
Definition grows (s s' : State) : Prop := ∀ r o, objects s !! r = Some o → ∃ o', objects s' !! r = Some o' ∧ bare o' = bare o.
#[local] Instance grows_preorder : PreOrder grows.
Proof.
  split; [intros s r o Hr; by exists o|]. intros s1 s2 s3 H12 H23 r o Hr. destruct (H12 r o Hr) as (o2 & Hr2 & E2).
  destruct (H23 r o2 Hr2) as (o3 & Hr3 & E3). exists o3. by rewrite E3.
Qed.
Lemma opp_grows_write f r s : (∀ o, bare (f o) = bare o) → grows s (write f r s).
Proof.
  intros Hf r' o Hr. cbn. destruct (decide (r = r')) as [<-|Hne].
  - exists (f o). by rewrite list_lookup_alter_eq, Hr.
  - exists o. by rewrite list_lookup_alter_ne.
Qed.
Lemma opp_grows_allocate o s : grows s (allocate o s).
Proof. intros r o' Hr. exists o'. split; [by apply lookup_app_l_Some|done]. Qed.
Lemma grows_same s s' : objects s' = objects s → grows s s'.
Proof. intros E r o Hr. exists o. by rewrite E. Qed.

(** The address for a host: security at its last two labels, none for a single label. *)
Definition contact (host address : string) : Prop :=
  "."%char ∉ String.list_ascii_of_string host ∧ address = ""
  ∨ ∃ x y, "."%char ∉ String.list_ascii_of_string x ∧ "."%char ∉ String.list_ascii_of_string y
      ∧ address = "security@" +:+ x +:+ "." +:+ y
      ∧ (host = x +:+ "." +:+ y ∨ ∃ sub, host = sub +:+ "." +:+ x +:+ "." +:+ y).
(** A scan in which the opportunity was found, among the requests [H]. *)
Definition found (H : call → Prop) (o : Opportunity) : Prop :=
  ∃ v e i url, H (CScanAll v e) ∧ o_Host o = Host (ScanHost e i url) ∧ o_Compliance o = Compliance (ScanHost e i url)
    ∧ o_Findings o = Findings (ScanHost e i url).
(** A mailing among them whose message for the opportunity was taken. *)
Definition mailed (H : call → Prop) (o : Opportunity) : Prop :=
  ∃ v e body status, H (CSend v e)
    ∧ render e (o_ID o) (o_Host o) (ServiceName o) (ProposalType o) (o_Findings o) = Ok body
    ∧ post_mail e (mkMail (SMTPEndpoint cfg) (APIKey cfg) (FromName cfg +:+ " <" +:+ FromEmail cfg +:+ ">") (ContactEmail o)
                     ("TLS Compliance Alert — " +:+ o_Host o) body "tls-compliance-outreach" (o_ID o) (o_Host o)) = Answered status
    ∧ (status < 300)%Z.
Definition explained (H : call → Prop) (o : Opportunity) : Prop :=
  (o_Compliance o = NonCompliant ∨ o_Compliance o = Critical) ∧ found H o ∧ contact (o_Host o) (ContactEmail o)
  ∧ ∀ t, EmailSentAt o = Some t → ContactEmail o ≠ "" ∧ mailed H o.

Lemma Split_parts c s : Forall (λ w, c ∉ String.list_ascii_of_string w) (Split c s).
Proof.
  induction s as [|d s IH]; cbn [Split]; [apply Forall_singleton, not_elem_of_nil|]. destruct (Ascii.eqb_spec c d) as [->|Hne].
  - constructor; [apply not_elem_of_nil|done].
  - destruct (Split c s) as [|w ws]; [apply Forall_singleton; cbn; set_solver|]. apply Forall_cons in IH as [Hw IH]. constructor; [cbn; set_solver|done].
Qed.
Lemma Join_app l l' sep : l ≠ [] → l' ≠ [] → Join (l ++ l') sep = Join l sep +:+ sep +:+ Join l' sep.
Proof.
  intros Hl Hl'. induction l as [|w l IH]; [done|]. destruct l as [|w' l]; [by rewrite <- Join_cons|]. cbn [app].
  rewrite Join_cons by done. rewrite (Join_cons w (w' :: l)) by done. rewrite !Json.sapp_assoc. f_equal. f_equal. by apply IH.
Qed.
Lemma deriveContactEmail_spec host : contact host (deriveContactEmail host).
Proof.
  assert (Hj : ∀ c s, Join (Split c s) (String c EmptyString) = s) by apply Join_Split.
  specialize (Hj "."%char host). assert (Hp : Forall (λ w, "."%char ∉ String.list_ascii_of_string w) (Split "." host)) by apply Split_parts.
  unfold deriveContactEmail, last2. destruct (Split "." host) as [|w ws] eqn:E using rev_ind; [by apply Split_nonempty in E|].
  clear IHws. rewrite reverse_snoc. destruct ws as [|x ws _] using rev_ind.
  - left. cbn in Hj. subst. split; [by inversion Hp|done].
  - rewrite reverse_snoc. right. exists x, w. rewrite !Forall_app, !Forall_singleton in Hp. destruct Hp as [[_ Hx] Hw]. split_and!; [done..|].
    destruct ws as [|y ws]; [left; by rewrite <- Hj|right]. exists (Join (y :: ws) "."). rewrite <- Hj, <- app_assoc. by rewrite Join_app.
Qed.
Lemma send_mailed H v e o : H (CSend v e) → sendRemediationEmail cfg e o = Ok tt → mailed H o.
Proof.
  intros Hc. unfold sendRemediationEmail, renderEmail. destruct (render _ _ _ _ _ _) as [body|msg] eqn:Hb; [|done].
  destruct (post_mail _ _) as [msg|status] eqn:Hm; [done|]. destruct (300 <=? status)%Z eqn:Hs; [done|]. intros _.
  exists v, e, body, status. split_and!; [done..|]. lia.
Qed.
Lemma mailed_bare H o o' : bare o = bare o' → mailed H o → mailed H o'.
Proof. destruct o, o'. intros E. injection E. intros. by subst. Qed.
Definition holds (H : call → Prop) (s : State) : Prop :=
  Forall (explained H) (objects s) ∧ ∀ id r, opportunities s !! id = Some r → ∃ o, objects s !! r = Some o ∧ o_ID o = id.

Lemma opp_holds_mono (H H' : call → Prop) s : (∀ c, H c → H' c) → holds H s → holds H' s.
Proof.
  intros Hsub [Ho Hd]. split; [|done]. eapply Forall_impl; [done|]. intros o (Hc & (v0 & e0 & i & url & Hf) & Hm & Ht). split_and!; [done| |done|].
  - exists v0, e0, i, url. naive_solver.
  - intros t E. destruct (Ht t E) as (Hne & v & e & body & st & Hs & Hok). split; [done|]. exists v, e, body, st. naive_solver.
Qed.
Lemma holds_same H s s' : objects s' = objects s → opportunities s' = opportunities s → holds H s → holds H s'.
Proof. intros E1 E2 [Ho Hd]. split; by rewrite E1, ?E2. Qed.
Lemma opp_holds_allocate H o s : explained H o → holds H s → holds H (allocate o s).
Proof.
  intros He [Ho Hd]. split; [apply Forall_app; split; [done|by apply Forall_singleton]|]. intros id r. cbn.
  destruct (decide (o_ID o = id)) as [<-|Hne].
  - rewrite lookup_insert_eq. intros [= <-]. eexists. split; [by apply list_lookup_middle|done].
  - rewrite lookup_insert_ne by done. intros Hr. destruct (Hd id r Hr) as (o' & Ho' & Hid). exists o'. split; [by apply lookup_app_l_Some|done].
Qed.
Lemma opp_holds_write H f r s :
  (∀ o, bare (f o) = bare o) → (∀ o, objects s !! r = Some o → explained H o → explained H (f o)) → holds H s → holds H (write f r s).
Proof.
  intros Hb Hf [Ho Hd]. split.
  - apply Forall_lookup. intros j o Hj. cbn in Hj. destruct (decide (r = j)) as [<-|Hne].
    + rewrite list_lookup_alter_eq in Hj. apply fmap_Some in Hj as (o0 & Hj & ->). apply Hf; [done|]. by eapply Forall_lookup_1.
    + rewrite list_lookup_alter_ne in Hj by done. by eapply Forall_lookup_1.
  - intros id j Hj. destruct (Hd id j Hj) as (o & Ho' & Hid). destruct (opp_grows_write f r s Hb j o Ho') as (o' & Ho2 & E).
    exists o'. split; [done|]. rewrite <- Hid. by injection E.
Qed.

Notation ok := (safe (R := reply) grows holds).

Lemma ok_stmt c s (f : State → State) (k : State → prog State reply) :
  (∀ s', grows s s' → grows s' (f s') ∧ (∀ H : call → Prop, H c → holds H s' → holds H (f s')) ∧ ok c (f s') (k s')) → ok c s (Stmt f k).
Proof. apply safe_stmt. Qed.
(** A statement that leaves the opportunities alone. *)
Lemma ok_other c s (f : State → State) (k : State → prog State reply) :
  (∀ s', objects (f s') = objects s' ∧ opportunities (f s') = opportunities s') → (∀ s', grows s s' → ok c (f s') (k s')) → ok c s (Stmt f k).
Proof.
  intros Hf Hk. apply ok_stmt. intros s' Hg. destruct (Hf s') as [E1 E2].
  split_and!; [by apply grows_same|intros H _; by apply holds_same|by apply Hk].
Qed.

(** A result of a scan [v], [e], up to the trust list it came from. *)
Definition scanned (e : env) (r : ScanResult) : Prop :=
  ∃ i url, Host r = Host (ScanHost e i url) ∧ Compliance r = Compliance (ScanHost e i url) ∧ Findings r = Findings (ScanHost e i url).
Lemma scan_targets_scanned e ts : Forall (scanned e) (scan_targets e ts).
Proof.
  unfold scan_targets. rewrite arrange_all. apply Forall_lookup. intros j r Hj. rewrite list_lookup_imap in Hj.
  apply fmap_Some in Hj as ([u src] & _ & ->). by exists j, u.
Qed.
Lemma opportunity_explained (H : call → Prop) v e t0 t1 r :
  H (CScanAll v e) → scanned e r → failing r = true → explained H (opportunity_of t0 t1 r).
Proof.
  intros Hc (i & url & E1 & E2 & E3) Hf. split_and!; [|by exists v, e, i, url|apply deriveContactEmail_spec|done].
  apply orb_true_iff in Hf as [E|E]; apply bool_decide_eq_true_1 in E; cbn; tauto.
Qed.
Lemma ok_process v e' s e i l created K :
  Forall (scanned e') l → (∀ s' a, grows s s' → ok (CScanAll v e') s' (K a)) → ok (CScanAll v e') s (bind (process_results e i l created) K).
Proof.
  intros Hl. revert s i created. induction Hl as [|r l Hr Hl IH]; intros s i created HK; cbn; [by apply HK|].
  destruct (failing r) eqn:Hf; cbn; [|by apply IH]. apply ok_stmt. intros s' Hg. cbn. split_and!.
  - apply opp_grows_allocate.
  - intros H Hc. by eapply opp_holds_allocate, opportunity_explained.
  - apply IH. intros s2 a Hg2. apply HK. etrans; [done|]. etrans; [apply opp_grows_allocate|done].
Qed.
Lemma ok_send v e s i l sent errs K :
  (∀ r o, (r, o) ∈ l → ContactEmail o ≠ "" ∧ ∃ o', objects s !! r = Some o' ∧ bare o' = bare o) →
  (∀ s' a, grows s s' → ok (CSend v e) s' (K a)) → ok (CSend v e) s (bind (send_all cfg e i l sent errs) K).
Proof.
  revert s i sent errs. induction l as [|[r o] l IH]; intros s i sent errs Hl HK; cbn; [by apply HK|].
  assert (Hrest : ∀ r o, (r, o) ∈ l → ContactEmail o ≠ "" ∧ ∃ o', objects s !! r = Some o' ∧ bare o' = bare o).
  { intros r' o' Hin. apply Hl. by apply list_elem_of_further. }
  destruct (sendRemediationEmail cfg e o) as [[]|msg] eqn:Hs; [|by apply IH]. cbn. apply ok_stmt. intros s' Hg. cbn.
  destruct (Hl r o (list_elem_of_here _ _)) as [Hne (o0 & Hr & Eo)].
  assert (Hw : grows s' (write (set_sent (clock e i 20)) r s')) by by apply opp_grows_write. split_and!; [done| |].
  - intros H Hc. apply opp_holds_write; [done|]. intros o' Hr' (Hcomp & Hfound & Hmail & _). split_and!; [done..|]. intros t _. cbn.
    destruct (Hg r o0 Hr) as (o1 & Hr1 & E1). rewrite Hr' in Hr1. injection Hr1 as <-.
    assert (Eb : bare o' = bare o) by by rewrite E1. split; [by injection Eb as _ _ _ _ _ -> _|].
    eapply (mailed_bare H o); [|by eapply send_mailed]. by rewrite <- Eb.
  - apply IH.
    + intros r' o' Hin. destruct (Hrest r' o' Hin) as [Hn (o1 & Hr1 & E1)]. split; [done|].
      destruct (Hg r' o1 Hr1) as (o2 & Hr2 & E2). destruct (Hw r' o2 Hr2) as (o3 & Hr3 & E3). exists o3. split; [done|]. by rewrite E3, E2.
    + intros s2 a Hg2. apply HK. etrans; [done|]. by etrans.
Qed.
Lemma pending_spec ro s r o : (r, o) ∈ pending ro s → ContactEmail o ≠ "" ∧ Status o = "new" ∧ objects s !! r = Some o.
Proof.
  intros Hin. apply list_elem_of_In, filter_In in Hin as [Hin Hp]. apply andb_true_iff in Hp as [Hst Hc].
  apply bool_decide_eq_true_1 in Hst. apply negb_true_iff, bool_decide_eq_false_1 in Hc. split_and!; [done|done|].
  apply list_elem_of_In in Hin. unfold objects_of in Hin. apply list_elem_of_omap in Hin as (r' & _ & E).
  destruct (objects s !! r') as [o'|] eqn:Ho; cbn in E; [|done]. by injection E as <- <-.
Qed.

Lemma ok_serve c s : ok c s (serve cfg c).
Proof.
  destruct c as [v [src|]|ro|id|v e|e host|ro|param|v e|ro|id|id [status|]]; cbn.
  all: repeat first [apply safe_ret | apply ok_other; [done|]; intros ? _; cbn].
  - apply ok_process; [apply scan_targets_scanned|]. intros ? a _. repeat first [apply safe_ret | apply ok_other; [done|]; intros ? _; cbn].
  - unfold ScanHost_. case_bool_decide; apply safe_ret.
  - apply ok_send.
    + intros r o Hin. apply pending_spec in Hin as (Hc & _ & Ho). split; [done|by exists o].
    + intros ? a _. repeat first [apply safe_ret | apply ok_other; [done|]; intros ? _; cbn].
  - apply ok_stmt. intros s1 _. unfold UpdateStatus. destruct (opportunities s1 !! id) as [r|]; cbn; split_and!; try apply safe_ret; try done.
    + by apply opp_grows_write.
    + intros H _. by apply opp_holds_write.
Qed.

(** C32: Mail is accounted for.  In any interleaving of scans, mailings and status changes, an entry of
    the table points to the opportunity of its identifier; every opportunity has the host, the grade and
    the findings of a host that some scan request graded non-compliant or critical, and its address is
    security@ the last two labels of that host, or none if it has one label; and one that carries a sending time has an
    address, and some mailing request rendered its message, posted it to the mail service for that
    address and was answered with a status below 300. *)
Theorem mail_explained s id o :
  rtc (istep (serve cfg)) (mkPool NewState []) s → GetOpportunity id (data s) = Some o →
  o_ID o = id ∧ explained (arrived s) o.
Proof.
  intros Hr Hg. assert (Hh : holds (arrived s) (data s)).
  { eapply (safe_reachable (serve cfg) grows holds); [apply opp_holds_mono|apply ok_serve|exact Hr|]. by split. }
  destruct Hh as [Ho Hd]. unfold GetOpportunity in Hg. destruct (opportunities (data s) !! id) as [r|] eqn:Hid; [|done]. cbn in Hg.
  destruct (Hd id r Hid) as (o' & Ho' & E). simplify_eq. split; [done|]. by eapply Forall_lookup_1.
Qed.

(** ** A mailing that runs alone *)

Lemma elem_of_pending ro s r o : (r, o) ∈ pending ro s ↔
  (∃ id, opportunities s !! id = Some r) ∧ objects s !! r = Some o ∧ Status o = "new" ∧ ContactEmail o ≠ "".
Proof.
  split.
  - intros Hin. pose proof (pending_spec ro s r o Hin) as (Hc & Hst & Ho). split_and!; [|done..].
    apply list_elem_of_In, filter_In in Hin as [Hin _]. apply list_elem_of_In in Hin. unfold objects_of in Hin.
    apply list_elem_of_omap in Hin as (r' & Hr & E). destruct (objects s !! r') as [o'|] eqn:Ho'; cbn in E; [|done].
    injection E as <- <-. by apply elem_of_values in Hr.
  - intros (Hid & Ho & Hst & Hc). apply list_elem_of_In, filter_In. split.
    + apply list_elem_of_In. unfold objects_of. apply list_elem_of_omap. exists r. split; [by apply elem_of_values|]. by rewrite Ho.
    + cbn. by rewrite bool_decide_eq_true_2, bool_decide_eq_false_2.
Qed.
Lemma exec_send e i l sent errs s :
  let '(s', n) := exec (send_all cfg e i l sent errs) s in
  fst n + snd n = sent + errs + length l ∧ opportunities s' = opportunities s
  ∧ ∀ r, (∃ o, (r, o) ∈ l ∧ sendRemediationEmail cfg e o = Ok tt) ∧ (∀ o, objects s' !! r = Some o → Status o = "email_sent")
         ∨ (∀ o, (r, o) ∈ l → sendRemediationEmail cfg e o ≠ Ok tt) ∧ objects s' !! r = objects s !! r.
Proof.
  revert i sent errs s. induction l as [|[r0 o0] l IH]; intros i sent errs s; cbn.
  { split_and!; [lia|done|]. intros r. right. split; [|done]. intros o Hin. by apply not_elem_of_nil in Hin. }
  destruct (sendRemediationEmail cfg e o0) as [[]|msg] eqn:Hs; cbn.
  - specialize (IH (S i) (S sent) errs (write (set_sent (clock e i 20)) r0 s)). destruct (exec _ _) as [s' n] in IH |- *.
    destruct IH as (Hn & Hop & Hr). split_and!; [lia|done|]. intros r. destruct (Hr r) as [[(o & Hin & Ho) Hst]|[Hno E]].
    + left. split; [exists o; split; [by apply list_elem_of_further|done]|done].
    + destruct (decide (r0 = r)) as [<-|Hne].
      * left. split; [exists o0; split; [apply list_elem_of_here|done]|]. intros o. rewrite E. cbn. rewrite list_lookup_alter_eq.
        intros (o1 & _ & ->)%fmap_Some. done.
      * right. split; [|rewrite E; cbn; by rewrite list_lookup_alter_ne]. intros o [[= -> ->]|Hin]%elem_of_cons; [done|by apply Hno].
  - specialize (IH (S i) sent (S errs) s). destruct (exec _ _) as [s' n] in IH |- *. destruct IH as (Hn & Hop & Hr).
    split_and!; [lia|done|]. intros r. destruct (Hr r) as [[(o & Hin & Ho) Hst]|[Hno E]].
    + left. split; [exists o; split; [by apply list_elem_of_further|done]|done].
    + right. split; [|done]. intros o [[= -> ->]|Hin]%elem_of_cons; [by rewrite Hs|by apply Hno].
Qed.

(** Mail goes out once.  A mailing that no other request overlaps sends one message for each new
    opportunity with an address; those whose message was taken are not new any more, the others, and
    only those, are left for the next mailing. *)
Theorem mailing_exact e s s' sent errs :
  exec (SendOutreachEmails cfg e) s = (s', (sent, errs)) →
  sent + errs = length (pending (order e) s)
  ∧ ∀ ro r o, (r, o) ∈ pending ro s' ↔ (r, o) ∈ pending ro s ∧ sendRemediationEmail cfg e o ≠ Ok tt.
Proof.
  unfold SendOutreachEmails. cbn. intros E. pose proof (exec_send e 0 (pending (order e) s) 0 0 s) as H. rewrite E in H.
  cbn [fst snd] in H. destruct H as (Hn & Hop & Hr). split; [lia|]. intros ro r o. rewrite !elem_of_pending, Hop.
  destruct (Hr r) as [[(o1 & Hin & Hok) Hst]|[Hno Heq]].
  - apply elem_of_pending in Hin as (_ & Ho1 & _). split.
    + intros (_ & Ho & Hnew & _). by rewrite (Hst o Ho) in Hnew.
    + intros [(_ & Ho & _) Hf]. rewrite Ho1 in Ho. injection Ho as <-. done.
  - rewrite Heq. split; [|tauto]. intros (Hid & Ho & Hst & Hc). split; [done|]. apply Hno, elem_of_pending. done.
Qed.
End Outreach.

(** ** Hosts are read back *)

Notation chars := String.list_ascii_of_string.
Lemma chars_app s t c : c ∈ chars (s +:+ t) ↔ c ∈ chars s ∨ c ∈ chars t.
Proof. rewrite list_ascii_app. apply elem_of_app. Qed.
Lemma chars_cons c d s : c ∉ chars (String d s) ↔ c ≠ d ∧ c ∉ chars s.
Proof. cbn. by rewrite not_elem_of_cons. Qed.
Lemma chars_cons_iff c d s : c ∈ chars (String d s) ↔ c = d ∨ c ∈ chars s.
Proof. cbn. by rewrite elem_of_cons. Qed.
Lemma app_cons c s t : String c s +:+ t = String c (s +:+ t).
Proof. done. Qed.

Lemma prefix_cons c p d s : String.prefix (String c p) (String d s) = bool_decide (c = d) && String.prefix p s.
Proof. cbn [String.prefix]. destruct (ascii_dec c d) as [<-|Hne]; [by rewrite bool_decide_eq_true_2|by rewrite bool_decide_eq_false_2]. Qed.
Lemma no_scheme w h d t : ":"%char ∉ chars w → ":"%char ∉ chars h → d ≠ "/"%char →
  TrimPrefix (h +:+ ":" +:+ String d t) (w +:+ "://") = h +:+ ":" +:+ String d t.
Proof.
  intros Hw Hh Hd. unfold TrimPrefix. assert (H : HasPrefix (h +:+ ":" +:+ String d t) (w +:+ "://") = false); [|by rewrite H].
  unfold HasPrefix. revert w Hw. induction h as [|c h IH]; intros w Hw.
  - destruct w as [|x w].
    + change (String.prefix "://" (String ":" (String d t)) = false). rewrite !prefix_cons. cbn [bool_decide]. by rewrite (bool_decide_eq_false_2 ("/"%char = d)), andb_false_r by done.
    + apply chars_cons in Hw as [Hx _]. change (String.prefix (String x (w +:+ "://")) (String ":" (String d t)) = false).
      rewrite prefix_cons. by rewrite (bool_decide_eq_false_2 (x = ":"%char)) by done.
  - apply chars_cons in Hh as [Hc Hh]. destruct w as [|x w].
    + change (String.prefix "://" (String c (h +:+ ":" +:+ String d t)) = false). rewrite prefix_cons. by rewrite (bool_decide_eq_false_2 (":"%char = c)) by done.
    + apply chars_cons in Hw as [_ Hw]. rewrite !app_cons. rewrite prefix_cons, IH, andb_false_r by done. done.
Qed.
Lemma before_app c s t : c ∉ chars s → before c (s +:+ String c t) = s.
Proof.
  induction s as [|d s IH]; intros Hc; [change (before c (String c t) = ""); cbn; by rewrite Ascii.eqb_refl|]. apply chars_cons in Hc as [Hne Hc]. rewrite app_cons. cbn.
  destruct (Ascii.eqb_spec c d); [done|]. by rewrite IH.
Qed.
Lemma last_colon_none s : ":"%char ∉ chars s → last_colon s = None.
Proof.
  induction s as [|d s IH]; intros Hc; [done|]. apply chars_cons in Hc as [Hne Hc]. cbn. rewrite IH by done.
  by destruct (Ascii.eqb_spec d ":") as [->|].
Qed.
Lemma last_colon_app s t : ":"%char ∉ chars t → last_colon (s +:+ String ":" t) = Some (String.length s).
Proof.
  intros Ht. induction s as [|d s IH]; [change (last_colon (String ":" t) = Some 0); cbn; by rewrite last_colon_none|]. rewrite app_cons. cbn. by rewrite IH.
Qed.
Lemma has_false c s : c ∉ chars s → has c s = false.
Proof.
  intros Hc. unfold has. assert (H : index c s = None); [|by rewrite H]. induction s as [|d s IH]; [done|].
  apply chars_cons in Hc as [Hne Hc]. cbn. destruct (Ascii.eqb_spec c d); [done|]. by rewrite IH.
Qed.
Lemma upto_app s t : upto (String.length s) (s +:+ t) = s.
Proof. unfold upto. induction s as [|d s IH]; [by destruct t|]. rewrite app_cons. cbn. f_equal. exact IH. Qed.
Lemma from_app s t : from (String.length s) (s +:+ t) = t.
Proof.
  unfold from. rewrite length_string_app. replace (String.length s + String.length t - String.length s) with (String.length t) by lia.
  induction s as [|d s IH]; [apply substring_all|]. exact IH.
Qed.
Lemma digits_chars a s v c : Json.read_digits a s = (v, "") → c ∈ chars s → Json.is_digit c = true.
Proof.
  revert a. induction s as [|d s IH]; intros a E Hc; [by apply not_elem_of_nil in Hc|]. cbn in E.
  destruct (Json.is_digit d) eqn:Hd; [|done]. cbn in Hc. apply elem_of_cons in Hc as [->|Hc]; [done|by eapply IH].
Qed.
Lemma itoa_digits v : (0 <= v)%Z → Json.read_digits 0 (itoa v) = (v, "") ∧ Json.starts_digit (itoa v) = true.
Proof.
  intros Hv. destruct v as [|p|p]; [done| |lia]. pose proof (Json.read_nat_pos p "" eq_refl) as H. unfold Json.read_nat in H.
  assert (E : ∀ x : string, x +:+ "" = x) by (intros x; induction x as [|c x IH]; [done|exact (f_equal (String c) IH)]).
  rewrite E in H. change (itoa (Z.pos p)) with (pretty (N.pos p)). destruct (Json.starts_digit (pretty (N.pos p))); [|done]. by injection H.
Qed.

Lemma scan_itoa p : (0 <= p < 2 ^ 63)%Z → Sscanf_d (itoa p) = Some p.
Proof.
  intros Hp. destruct (itoa_digits p) as [Hr Hs]; [lia|]. unfold Sscanf_d. destruct (itoa p) as [|c s]; [done|].
  assert (Hc : ∀ d, Json.is_digit d = false → Ascii.eqb c d = false).
  { intros d Hd. apply Ascii.eqb_neq. intros ->. cbn in Hs. congruence. }
  assert (Hsk : skip_blanks (String c s) = String c s) by (cbn [skip_blanks]; by rewrite !Hc).
  rewrite Hsk. unfold scan_signed. rewrite !Hc by done. unfold scan_digits. rewrite Hs, Hr. cbn [mbind option_bind fst].
  by rewrite (proj2 (Z.leb_le _ _)), (proj2 (Z.ltb_lt _ _)) by lia.
Qed.

Definition plain_host (h : string) : Prop := ":"%char ∉ chars h ∧ "/"%char ∉ chars h ∧ "["%char ∉ chars h ∧ "]"%char ∉ chars h.
Lemma split_plain h p : plain_host h → (∀ c, c ∈ chars p → Json.is_digit c = true) → SplitHostPort (h +:+ String ":" p) = Some (h, p).
Proof.
  intros (H1 & H2 & H3 & H4) Hp. assert (Hn : ∀ c, Json.is_digit c = false → c ∉ chars p) by (intros c Hc Hin; by rewrite (Hp c Hin) in Hc).
  unfold SplitHostPort. rewrite last_colon_app by by apply Hn. cbn [mbind option_bind].
  assert (Hb : String.prefix "[" (h +:+ String ":" p) = false).
  { destruct h as [|c h]; [done|]. apply chars_cons in H3 as [Hc _]. rewrite app_cons, prefix_cons. by rewrite (bool_decide_eq_false_2 ("["%char = c)) by done. }
  rewrite Hb, upto_app, has_false by done. cbn [mbind option_bind].
  assert (Hw : ∀ c, c ∉ chars h → c ≠ ":"%char → Json.is_digit c = false → has c (from 0 (h +:+ String ":" p)) = false).
  { intros c Hc Hne Hd. apply has_false. unfold from. rewrite Nat.sub_0_r, substring_all. rewrite chars_app, chars_cons_iff. 
    intros [?|[?|?]]; [done|done|by apply (Hn c)]. }
  rewrite !Hw by done. cbn [orb]. change (String ":" p) with (":" +:+ p). replace (String.length h + 1) with (String.length (h +:+ ":")) by (rewrite length_string_app; done).
  assert (Ha : h +:+ ":" +:+ p = (h +:+ ":") +:+ p) by (clear; induction h as [|c h IH]; [done|exact (f_equal (String c) IH)]).
  by rewrite Ha, from_app.
Qed.

(** Hosts are read back.  The address written with a host name, a port and a path is read as this
    host and this port. *)
Theorem host_port_roundtrip h p path :
  plain_host h → (0 <= p < 2 ^ 63)%Z → parseHostPort ("https://" +:+ h +:+ ":" +:+ itoa p +:+ "/" +:+ path) = (h, p).
Proof.
  intros Hh Hp. destruct (itoa_digits p) as [Hr Hs]; [lia|]. unfold parseHostPort. cbn [foldl].
  destruct (itoa p) as [|d ds] eqn:Ep; [done|]. cbn [Json.starts_digit] in Hs.
  assert (Hd : d ≠ "/"%char) by by intros ->. destruct Hh as (H1 & H2 & H3 & H4).
  rewrite TrimPrefix_app. change (String d ds +:+ "/" +:+ path) with (String d (ds +:+ "/" +:+ path)).
  rewrite (no_scheme "http"), (no_scheme "wss"), (no_scheme "ws") by (try done; vm_compute; set_solver).
  assert (E : h +:+ ":" +:+ String d (ds +:+ "/" +:+ path) = (h +:+ String ":" (String d ds)) +:+ String "/" path).
  { clear. induction h as [|c h IH]; [done|exact (f_equal (String c) IH)]. }
  rewrite E, before_app. 
  - rewrite split_plain; [|by split_and!|intros c; by eapply digits_chars].
    case_bool_decide; [done|]. rewrite <- Ep, scan_itoa by done. done.
  - rewrite chars_app. intros [?|Hin]; [done|]. cbn in Hin. apply elem_of_cons in Hin as [?|Hin]; [done|].
    pose proof (digits_chars 0 (String d ds) p "/" Hr Hin) as Hc. done.
Qed.

(** The route of [GetResult] names its parameter [id]: whatever the request asks for, the handler
    looks for the result of the empty host. *)
Definition route_param (id : string) (k : string) : string := if bool_decide (k = "id") then id else "".
Lemma get_result_ignores_id cfg id s :
  snd (exec (serve cfg (CGetResult (route_param id))) s) = match results s !! "" with Some r => WResult r | None => WSafe 404 end.
Proof. cbn. unfold GetResult, route_param. rewrite bool_decide_eq_false_2 by done. by destruct (results s !! ""). Qed.

(** ** Concrete requests *)

Definition demo_cert : cert := mkCert "shop.example.com" "shop.example.com" 0 (1000 * day) true ["shop.example.com"] "SHA256-RSA" (RSAKey 2048).
Definition demo_env : env :=
  mkEnv (λ _ _, day) (λ a, if bool_decide (a = "shop.example.com:8443") then Connected (mkConnection 772 4865 [demo_cert]) else DialFailed "dial tcp: refused" false)
    (λ _ _ _, false) (λ _, Answered 202) (λ _ host _ _ _, Ok host) canonical_order id (λ l, reflexivity l).
Definition demo_cfg : OutreachConfig := mkConfig "" "key" "https://mail" "security@apexaegis.io" "" false.
Definition demo_url : string := "https://shop.example.com:8443/login".
Definition demo_visit := Dot1xApi.Dot1xApi.demo_visit.
Definition demo_calls : list call :=
  [CAddSource demo_visit (Some (mkSource "s" "list" [demo_url])); CScanAll demo_visit demo_env; CSend demo_visit demo_env].
Definition demo_id : string := "opp-shop.example.com-86400000".

Lemma plain_shop : plain_host "shop.example.com".
Proof. by apply (bool_decide_unpack (plain_host "shop.example.com")). Defined.

Lemma host_port_roundtrip_witness : parseHostPort demo_url = ("shop.example.com", 8443%Z).
Proof. apply (host_port_roundtrip "shop.example.com" 8443 "login"); [apply plain_shop|split; [discriminate|reflexivity]]. Defined.
Lemma scan_graded_witness : Compliance (ScanHost demo_env 0 demo_url) = NonCompliant ∧ serious demo_env 0 (mkConnection 772 4865 [demo_cert]).
Proof.
  destruct (scan_graded demo_env 0 demo_url "shop.example.com" 8443 (mkConnection 772 4865 [demo_cert])) as (_ & [H _] & _); [reflexivity|reflexivity|].
  assert (Hc : Compliance (ScanHost demo_env 0 demo_url) = NonCompliant) by (vm_compute; reflexivity). split; [exact Hc|exact (proj2 (H Hc))].
Defined.
Lemma mail_explained_witness :
  ∃ o, GetOpportunity demo_id (data (schedule (serve demo_cfg) NewState demo_calls [0; 0; 1; 1; 1; 1; 1; 2; 2; 2])) = Some o
    ∧ Status o = "email_sent" ∧ ContactEmail o = "security@example.com" ∧ o_ID o = demo_id.
Proof.
  destruct (GetOpportunity demo_id _) as [o|] eqn:E.
  - pose proof (mail_explained demo_cfg _ demo_id o (schedule_reachable _ NewState demo_calls [0; 0; 1; 1; 1; 1; 1; 2; 2; 2]) E) as [Hid _].
    exists o. split; [reflexivity|]. vm_compute in E. injection E as <-. split; [reflexivity|split; [reflexivity|exact Hid]].
  - vm_compute in E. discriminate E.
Defined.

(** Two mailings that overlap send the same message twice, and a mailing that overlaps a change of
    status undoes it. *)
Definition demo_found : State := fst (exec (serve demo_cfg (CScanAll demo_visit demo_env)) (AddSource (mkSource "s" "list" [demo_url]) NewState)).
Definition replies (s : pool State reply call) : list (option reply) := (λ t, match snd t with Ret a => Some a | _ => None end) <$> requests s.
Example emailed_twice :
  replies (schedule (serve demo_cfg) demo_found [CSend demo_visit demo_env; CSend demo_visit demo_env] [0; 1; 0; 1; 0; 1])
  = [Some (WSent 1 0); Some (WSent 1 0)].
Proof. vm_compute. reflexivity. Qed.
Example closing_undone :
  let s := schedule (serve demo_cfg) demo_found [CSend demo_visit demo_env; CUpdate demo_id (Some "closed")] [0; 1; 0; 0] in
  replies s = [Some (WSent 1 0); Some (WStatus "updated")]
  ∧ Status <$> GetOpportunity demo_id (data s) = Some "email_sent".
Proof. vm_compute. done. Qed.
End Scanner.
