(* ===== verification/Itsm.v ===== *)
(** * Service requests

    [src/internal/db/itsm_store.go] and [src/internal/api/handlers/itsm_handler.go]: the tickets that
    users raise to get access and administrators decide on.

    The table is a map from the identifier to tickets, one statement at a time ([Interleave]).  The
    columns that may be null are never left null by these statements, so that a row is a ticket.
    Widths are those of the migration, [ticket_key] is unique.  The statement of [UpdateTicket] is
    put together from numbered placeholders: it is modelled with them, and executed only if each
    placeholder has one type.

    [fuel] bounds the search for a free ticket key, which has no bound in the source: a request whose
    search goes on has no answer ([WSearching]). *)

From S2P Require Import Prelude GoStrings GoTime Encoding Sql Interleave DnsLogs.
From Stdlib Require Import Ascii.
#[local] Open Scope string_scope.
#[local] Open Scope nat_scope.
#[local] Open Scope list_scope.

Module Itsm.
Import GoStrings GoTime Sql Interleave.

Record ITSMTicket := mkTicket {
  ID : string; TenantID : string; TicketKey : string; Provider : string; TicketType : string; Status : string; Priority : string;
  Summary : string; Description : string; Requester : string; Assignee : string; Domain : string; Category : string;
  PolicyID : string; DeviceID : string; UserID : string; Justification : string; DurationHours : option Z;
  ContactMethod : string; AIDecision : string; AIScore : option Z; RBISessionURL : string; RBIExpiry : option Z;
  RejectionReason : string; RiskDecisionID : string; CreatedAt : Z; UpdatedAt : Z;
}.
Notation DB := (gmap string ITSMTicket).

(** [ok i]: the statement [i] of the request reaches the database. *)
Record env := mkEnv {
  new_id : string; db_now : Z; now : Z; nanos : nat → Z; intn : Z; ok : nat → bool; order : range_order; fuel : nat;
}.

(** ** Creation *)

Definition with_key (k : string) (t : ITSMTicket) : ITSMTicket :=
  mkTicket (ID t) (TenantID t) k (Provider t) (TicketType t) (Status t) (Priority t) (Summary t) (Description t) (Requester t) (Assignee t)
    (Domain t) (Category t) (PolicyID t) (DeviceID t) (UserID t) (Justification t) (DurationHours t) (ContactMethod t) (AIDecision t)
    (AIScore t) (RBISessionURL t) (RBIExpiry t) (RejectionReason t) (RiskDecisionID t) (CreatedAt t) (UpdatedAt t).
Definition key_taken (k : string) (d : DB) : bool := existsb (λ kv, bool_decide (TicketKey (snd kv) = k)) (map_to_list d).
Definition next_key (e : env) (i : nat) : string := "SR-" +:+ pad 5 (Z.rem (nanos e i) 100000).

(** The search: a free key, an error, or a search that goes on. *)
Inductive searched := Free (k : string) | SearchFailed | Searching.
Fixpoint search (e : env) (n : nat) (i : nat) (k : string) : prog DB searched :=
  match n with
  | 0 => Ret Searching
  | S n =>
      bind (query (λ d, if ok e i then Some (key_taken k d) else None)) (λ r,
      match r with
      | None => Ret SearchFailed
      | Some false => Ret (Free k)
      | Some true => search e n (S i) (next_key e i)
      end)
  end.

Definition int4_opt (o : option Z) : bool := match o with Some n => DnsLogs.DnsLogs.int4 n | None => true end.
Definition fits_row (t : ITSMTicket) : bool :=
  fits 255 (TenantID t) && fits 32 (TicketKey t) && fits 32 (Provider t) && fits 32 (TicketType t) && fits 32 (Status t) && fits 16 (Priority t)
  && fits 255 (Requester t) && fits 255 (Assignee t) && fits 512 (Domain t) && fits 128 (Category t) && fits 128 (PolicyID t)
  && fits 255 (DeviceID t) && fits 255 (UserID t) && fits 32 (ContactMethod t) && fits 255 (RiskDecisionID t)
  && int4_opt (DurationHours t) && int4_opt (AIScore t).
(** The row with its defaults. *)
Definition stored (e : env) (t : ITSMTicket) : ITSMTicket :=
  mkTicket (new_id e) (TenantID t) (TicketKey t) (Provider t) (TicketType t) (Status t) (Priority t) (Summary t) (Description t) (Requester t)
    (Assignee t) (Domain t) (Category t) (PolicyID t) (DeviceID t) (UserID t) (Justification t) (DurationHours t) (ContactMethod t)
    (AIDecision t) (AIScore t) (RBISessionURL t) (RBIExpiry t) (RejectionReason t) (RiskDecisionID t) (db_now e) (db_now e).
Definition insert_ticket (e : env) (t : ITSMTicket) (d : DB) : DB * option ITSMTicket :=
  if ok e (fuel e) && fits_row t && bool_decide (d !! new_id e = None) && negb (key_taken (TicketKey t) d)
  then (<[new_id e := stored e t]> d, Some (stored e t)) else (d, None).

Inductive created := Created (t : ITSMTicket) | CreateFailed | Unfinished.
Definition CreateTicket (e : env) (t : ITSMTicket) : prog DB created :=
  bind (search e (fuel e) 0 (TicketKey t)) (λ r,
  match r with
  | Searching => Ret Unfinished
  | SearchFailed => Ret CreateFailed
  | Free k => bind (stmt (insert_ticket e (with_key k t))) (λ o, Ret (match o with Some t => Created t | None => CreateFailed end))
  end).

(** ** Reading *)

Definition named (tenantID idOrKey : string) (id : string) (t : ITSMTicket) : bool :=
  bool_decide (TenantID t = tenantID) && (bool_decide (id = idOrKey) || bool_decide (TicketKey t = idOrKey)).
Definition find_ticket (e : env) (tenantID idOrKey : string) (d : DB) : option ITSMTicket :=
  snd <$> head (select (order e) (named tenantID idOrKey) d).
Definition GetTicket (e : env) (tenantID idOrKey : string) : prog DB (option ITSMTicket) :=
  query (λ d, if ok e 0 then find_ticket e tenantID idOrKey d else None).

Definition listed (tenantID status : string) (_ : string) (t : ITSMTicket) : bool :=
  bool_decide (TenantID t = tenantID) && (bool_decide (status = "") || bool_decide (Status t = status)).
Definition ListTickets (e : env) (tenantID status : string) (limit offset : Z) : prog DB (option (list ITSMTicket * nat)) :=
  bind (query (λ d, if ok e 0 then Some (length (select (order e) (listed tenantID status) d)) else None)) (λ total,
  match total with
  | None => Ret None
  | Some total =>
      let limit := if (limit <=? 0)%Z then 50%Z else limit in
      query (λ d, if ok e 1
        then Some (snd <$> page CreatedAt (Z.to_nat limit) (Z.to_nat offset) (select (order e) (listed tenantID status) d), total)
        else None)
  end).
Definition CountByStatus (e : env) (tenantID : string) : prog DB (option (gmap string nat)) :=
  query (λ d, if ok e 0
    then Some (foldr (λ kv m, partial_alter (λ o, Some (S (default 0 o))) (Status (snd kv)) m) ∅
                 (select (order e) (λ _ t, bool_decide (TenantID t = tenantID)) d))
    else None).

(** ** Changes *)

(** An argument of a statement, and the types a placeholder is used with. *)
Inductive arg := VText (s : string) | VInt (n : Z) | VTime (t : Z).
Inductive sqltype := TText | TInt | TTime.
#[global] Instance sqltype_eq_dec : EqDecision sqltype.
Proof. solve_decision. Defined.
Definition column_type (c : string) : sqltype :=
  if bool_decide (c = "ai_score") then TInt else if bool_decide (c = "rbi_expiry") || bool_decide (c = "updated_at") then TTime else TText.
Definition allowed (c : string) : bool :=
  bool_decide (c ∈ ["status"; "assignee"; "priority"; "description"; "ai_decision"; "ai_score"; "rbi_session_url"; "rbi_expiry"; "rejection_reason"; "summary"]).

(** A statement: its assignments and the placeholders of its condition
    [tenant_id = $a AND (id::text = $b OR ticket_key = $c)]. *)
Record update := mkUpdate { u_set : list (string * nat); u_tenant : nat; u_id : nat; u_key : nat; u_args : list arg }.
Definition uses (u : update) : list (nat * sqltype) :=
  ((λ s, (snd s, column_type (fst s))) <$> u_set u) ++ [(u_tenant u, TText); (u_id u, TText); (u_key u, TText)].
(** Every placeholder has one type. *)
Definition well_typed (u : update) : bool :=
  forallb (λ x, forallb (λ y, negb (fst x =? fst y) || bool_decide (snd x = snd y)) (uses u)) (uses u).

Section Store.
(** What the database does with a statement whose placeholders have one type each. *)
Context (effect : update → DB → DB * option ITSMTicket).

Definition build_update (e : env) (tenantID id : string) (set : list (string * arg)) : update :=
  let n := length set in
  mkUpdate (imap (λ i s, (fst s, i + 1)) set ++ [("updated_at", n + 1)]) (n + 3 - 2) (n + 3 - 1) (n + 3)
    ((snd <$> set) ++ [VTime (now e); VText tenantID; VText id]).
Definition run_update (e : env) (u : update) (d : DB) : DB * option ITSMTicket :=
  if ok e 0 && well_typed u then effect u d else (d, None).
(** The fields that may be changed, in the order in which the map gives them. *)
Definition UpdateTicket (e : env) (tenantID id : string) (updates : gmap string arg) : prog DB (option ITSMTicket) :=
  let set := List.filter (λ kv, allowed (fst kv)) (range (order e) updates) in
  match set with
  | [] => GetTicket e tenantID id
  | _ => stmt (run_update e (build_update e tenantID id set))
  end.

Definition expired (t : Z) (x : ITSMTicket) : ITSMTicket :=
  mkTicket (ID x) (TenantID x) (TicketKey x) (Provider x) (TicketType x) "expired" (Priority x) (Summary x) (Description x) (Requester x)
    (Assignee x) (Domain x) (Category x) (PolicyID x) (DeviceID x) (UserID x) (Justification x) (DurationHours x) (ContactMethod x)
    (AIDecision x) (AIScore x) (RBISessionURL x) (RBIExpiry x) (RejectionReason x) (RiskDecisionID x) (CreatedAt x) t.
Definition DeleteTicket (e : env) (tenantID id : string) : prog DB bool :=
  stmt (λ d, if ok e 0 then (map_imap (λ k x, Some (if named tenantID id k x then expired (db_now e) x else x)) d, true) else (d, false)).

(** ** The handlers *)

Inductive reply :=
| WErr (status : Z) (msg : string)
| WCreated (key status : string)
| WTicket (t : ITSMTicket)
| WTickets (l : list ITSMTicket) (total : nat)
| WDeleted
| WCounts (m : gmap string nat)
| WSearching.

Definition tenant_of (org : string) : string := if bool_decide (org = "") then "default" else org.
Definition generateTicketKey (e : env) : string := "SR-" +:+ pad 5 (intn e).
Definition mapUrgencyToPriority (u : string) : string :=
  if bool_decide (u = "critical") then "critical" else if bool_decide (u = "high") then "high" else if bool_decide (u = "low") then "low" else "medium".

Record create_request := mkCreate {
  q_RequestType : string; q_Domain : string; q_Category : string; q_PolicyID : string; q_DeviceID : string; q_UserID : string;
  q_Justification : string; q_Urgency : string; q_DurationHours : Z; q_ContactMethod : string;
}.
Definition duration (r : create_request) : Z :=
  if bool_decide (q_RequestType r = "jit_access") && (q_DurationHours r <=? 0)%Z then 4%Z else q_DurationHours r.
Definition ticket_of (e : env) (tenantID : string) (r : create_request) : ITSMTicket :=
  mkTicket "" tenantID (generateTicketKey e) "internal" "service_request" "pending_ai_review" (mapUrgencyToPriority (q_Urgency r))
    ("Access request for " +:+ q_Domain r) "" (q_UserID r) "" (q_Domain r) (q_Category r) (q_PolicyID r) (q_DeviceID r) (q_UserID r)
    (q_Justification r) (Some (duration r)) (q_ContactMethod r) "" None "" None "" "" zero_time zero_time.
(** The body is [Err] with the message of the decoder when it does not bind. *)
Definition CreateRequest (e : env) (org : string) (body : result string create_request) : prog DB reply :=
  match body with
  | Err msg => Ret (WErr 400 ("Invalid request: " +:+ msg))
  | Ok r =>
      if negb (bool_decide (q_RequestType r ∈ ["jit_access"; "policy_bypass"; "false_positive"])) then Ret (WErr 400 "Invalid request_type")
      else if negb (bool_decide (q_Urgency r ∈ ["low"; "medium"; "high"; "critical"])) then Ret (WErr 400 "Invalid urgency")
      else bind (CreateTicket e (ticket_of e (tenant_of org) r)) (λ c,
        Ret (match c with
             | Created t => WCreated (TicketKey t) (Status t)
             | CreateFailed => WErr 500 "Failed to create request"
             | Unfinished => WSearching
             end))
  end.
Definition missing : reply := WErr 400 "Missing ticket ID".
Definition GetRequest (e : env) (org id : string) : prog DB reply :=
  if bool_decide (id = "") then Ret missing
  else bind (GetTicket e (tenant_of org) id) (λ o, Ret (match o with Some t => WTicket t | None => WErr 404 "Ticket not found" end)).
Definition number_or (n : Z) (p : Z → bool) (s : string) : Z :=
  if bool_decide (s = "") then n else match DnsLogs.DnsLogs.Atoi s with Some v => if p v then v else n | None => n end.
Definition ListRequests (e : env) (org status limit offset : string) : prog DB reply :=
  bind (ListTickets e (tenant_of org) status (number_or 50 (λ n, 0 <? n)%Z limit) (number_or 0 (λ n, 0 <=? n)%Z offset)) (λ o,
  Ret (match o with Some (l, n) => WTickets l n | None => WErr 500 "Failed to list tickets" end)).

Record patch := mkPatch {
  h_Status : option string; h_Assignee : option string; h_Priority : option string; h_Summary : option string; h_Description : option string;
  h_AIDecision : option string; h_AIScore : option Z; h_RBISessionURL : option string; h_RejectionReason : option string;
}.
Definition put {A} (k : string) (o : option A) (f : A → arg) (m : gmap string arg) : gmap string arg :=
  match o with Some a => <[k := f a]> m | None => m end.
Definition updates_of (h : patch) : gmap string arg :=
  put "rejection_reason" (h_RejectionReason h) VText (put "rbi_session_url" (h_RBISessionURL h) VText
    (put "ai_score" (h_AIScore h) VInt (put "ai_decision" (h_AIDecision h) VText (put "description" (h_Description h) VText
    (put "summary" (h_Summary h) VText (put "priority" (h_Priority h) VText (put "assignee" (h_Assignee h) VText
    (put "status" (h_Status h) VText ∅)))))))).
Definition UpdateRequest (e : env) (org id : string) (body : result string patch) : prog DB reply :=
  if bool_decide (id = "") then Ret missing
  else match body with
       | Err msg => Ret (WErr 400 ("Invalid request: " +:+ msg))
       | Ok h => bind (UpdateTicket e (tenant_of org) id (updates_of h)) (λ o,
                   Ret (match o with Some t => WTicket t | None => WErr 500 "Failed to update ticket" end))
       end.
Definition DeleteRequest (e : env) (org id : string) : prog DB reply :=
  if bool_decide (id = "") then Ret missing
  else bind (DeleteTicket e (tenant_of org) id) (λ b, Ret (if b then WDeleted else WErr 500 "Failed to delete ticket")).
Definition GetStats (e : env) (org : string) : prog DB reply :=
  bind (CountByStatus e (tenant_of org)) (λ o, Ret (match o with Some m => WCounts m | None => WErr 500 "Failed to get stats" end)).

Inductive call :=
| CCreate (e : env) (org : string) (body : result string create_request)
| CGet (e : env) (org id : string)
| CList (e : env) (org status limit offset : string)
| CUpdate (e : env) (org id : string) (body : result string patch)
| CDelete (e : env) (org id : string)
| CStats (e : env) (org : string).
Definition serve (c : call) : prog DB reply :=
  match c with
  | CCreate e org body => CreateRequest e org body
  | CGet e org id => GetRequest e org id
  | CList e org status limit offset => ListRequests e org status limit offset
  | CUpdate e org id body => UpdateRequest e org id body
  | CDelete e org id => DeleteRequest e org id
  | CStats e org => GetStats e org
  end.
Definition caller (c : call) : string :=
  tenant_of (match c with CCreate _ org _ | CGet _ org _ | CList _ org _ _ _ | CUpdate _ org _ _ | CDelete _ org _ | CStats _ org => org end).

(** ** Tickets are never decided *)

(** The placeholder of the tenant is that of the time of the change. *)
Lemma update_ill_typed e tenantID id set : well_typed (build_update e tenantID id set) = false.
Proof.
  apply not_true_iff_false. intros H. unfold well_typed in H. rewrite forallb_forall in H.
  set (u := build_update e tenantID id set) in *.
  assert (H1 : In (length set + 1, TTime) (uses u)).
  { unfold uses. apply in_or_app. left. apply list_elem_of_In, list_elem_of_fmap. exists ("updated_at", length set + 1).
    split; [done|]. cbn. apply elem_of_app. right. by apply list_elem_of_singleton. }
  assert (H2 : In (length set + 1, TText) (uses u)).
  { unfold uses. apply in_or_app. right. left. cbn. f_equal. lia. }
  specialize (H _ H1). rewrite forallb_forall in H. specialize (H _ H2). cbn in H. by rewrite Nat.eqb_refl in H.
Qed.
Lemma run_update_fails e tenantID id set d : run_update e (build_update e tenantID id set) d = (d, None).
Proof. unfold run_update. by rewrite update_ill_typed, andb_false_r. Qed.


Definition sound (d : DB) : Prop :=
  map_Forall (λ id t, ID t = id ∧ (Status t = "pending_ai_review" ∨ Status t = "expired")
    ∧ AIDecision t = "" ∧ AIScore t = None ∧ Assignee t = "" ∧ RBISessionURL t = "" ∧ RejectionReason t = "") d
  ∧ ∀ i j t u, d !! i = Some t → d !! j = Some u → TicketKey t = TicketKey u → i = j.

Lemma key_taken_false k d : key_taken k d = false → ∀ id t, d !! id = Some t → TicketKey t ≠ k.
Proof.
  intros Hk id t Ht E. assert (H : key_taken k d = true); [|congruence]. apply existsb_exists. exists (id, t).
  split; [by apply list_elem_of_In, elem_of_map_to_list|by apply bool_decide_eq_true_2].
Qed.
Lemma insert_sound e t d :
  Status t = "pending_ai_review" → AIDecision t = "" → AIScore t = None → Assignee t = "" → RBISessionURL t = "" → RejectionReason t = "" →
  sound d → sound (fst (insert_ticket e t d)).
Proof.
  intros H1 H2 H3 H4 H5 H6 [Hs Hu]. unfold insert_ticket. destruct (_ && _) eqn:Hc; [|done]. cbn [fst].
  apply andb_true_iff in Hc as [[_ Hn]%andb_true_iff Hk]. apply bool_decide_eq_true_1 in Hn. apply negb_true_iff in Hk.
  pose proof (key_taken_false _ _ Hk) as Hfree. split.
  - apply map_Forall_insert_2; [|done]. cbn. split_and!; try done. by left.
  - intros i j x y. destruct (decide (new_id e = i)) as [<-|Hi], (decide (new_id e = j)) as [<-|Hj];
      rewrite ?lookup_insert_eq, ?lookup_insert_ne by done; [done|..].
    + intros [= <-] Hy E. by destruct (Hfree j y Hy).
    + intros Hx [= <-] E. by destruct (Hfree i x Hx).
    + apply Hu.
Qed.
Lemma expire_sound e tenantID id d :
  sound d → sound (map_imap (λ k x, Some (if named tenantID id k x then expired (db_now e) x else x)) d).
Proof.
  intros [Hs Hu]. split.
  - intros i t. rewrite map_lookup_imap. destruct (d !! i) as [x|] eqn:Hx; cbn; [|done]. intros [= <-].
    pose proof (Hs i x Hx) as H. destruct (named tenantID id i x); [|exact H]. cbn. destruct H as (H1 & _ & H3). split; [done|]. split; [by right|done].
  - intros i j t u. rewrite !map_lookup_imap. destruct (d !! i) as [x|] eqn:Hx, (d !! j) as [y|] eqn:Hy; cbn; try done.
    intros [= <-] [= <-] E. apply (Hu i j x y Hx Hy). by destruct (named tenantID id i x), (named tenantID id j y).
Qed.
Lemma keeps_search P e n i k : keeps P (search e n i k).
Proof.
  revert i k. induction n as [|n IH]; intros i k; cbn; [constructor|]. constructor; [done|]. intros d _. cbn.
  destruct (ok e i); [|constructor]. destruct (key_taken k d); [apply IH|constructor].
Qed.
(** A property of the table that every request keeps, from what creation and deletion do. *)
Lemma keeps_serve (P : DB → Prop) c :
  (∀ e org r k d, c = CCreate e org (Ok r) → P d → P (fst (insert_ticket e (with_key k (ticket_of e (tenant_of org) r)) d))) →
  (∀ e org id d, c = CDelete e org id → P d → P (map_imap (λ k x, Some (if named (tenant_of org) id k x then expired (db_now e) x else x)) d)) →
  keeps P (serve c).
Proof.
  intros Hi Hd. destruct c as [e org [r|msg]|e org id|e org status limit offset|e org id body|e org id|e org]; cbn [serve CreateRequest].
  - case_bool_decide; cbn; [|constructor]. case_bool_decide; cbn; [|constructor]. unfold CreateTicket.
    apply keeps_bind; [|constructor]. apply keeps_bind; [apply keeps_search|]. intros [k| |]; [|constructor|constructor].
    apply keeps_bind; [|constructor]. apply keeps_one. intros d. by eapply Hi.
  - constructor.
  - unfold GetRequest. case_bool_decide; [constructor|]. apply keeps_bind; [apply keeps_query|constructor].
  - unfold ListRequests, ListTickets. apply keeps_bind; [|constructor]. apply keeps_bind; [apply keeps_query|].
    intros [n|]; [apply keeps_query|constructor].
  - unfold UpdateRequest. case_bool_decide; [constructor|]. destruct body as [h|msg]; [|constructor].
    apply keeps_bind; [|constructor]. unfold UpdateTicket. destruct (List.filter _ _); [apply keeps_query|].
    apply keeps_one. intros d. by rewrite run_update_fails.
  - unfold DeleteRequest. case_bool_decide; [constructor|]. apply keeps_bind; [|constructor].
    apply keeps_one. intros d. destruct (ok e 0); cbn; [by eapply Hd|done].
  - apply keeps_bind; [apply keeps_query|constructor].
Qed.

(** No request is ever decided.  In any interleaving of requests, and whatever a well-typed
    statement would do, every ticket is pending its review or expired, without a decision, a score,
    an assignee, a session or a reason for a rejection: the statement that administrators change
    tickets with is never accepted.  Each ticket is stored under its identifier and no two have the
    same key. *)
Theorem tickets_undecided s : rtc (istep serve) (mkPool ∅ []) s → sound (data s).
Proof.
  apply reachable_keeps; [|split; [apply map_Forall_empty|intros i j t u Hi; by rewrite lookup_empty in Hi]].
  intros c. apply keeps_serve; [|intros e org id d _; apply expire_sound]. intros e org r k d _. by apply insert_sound.
Qed.
Lemma lookup_put {A} k (o : option A) f m j v : put k o f m !! j = Some v → j = k ∨ m !! j = Some v.
Proof. unfold put. destruct o; [|by right]. intros [[<- _]|[_ H]]%lookup_insert_Some; [by left|by right]. Qed.
(** An administrator who changes something is told that it failed. *)
Lemma update_refused e org id h d :
  id ≠ "" → updates_of h ≠ ∅ → exec (serve (CUpdate e org id (Ok h))) d = (d, WErr 500 "Failed to update ticket").
Proof.
  intros Hid Hne. cbn. unfold UpdateRequest. rewrite bool_decide_eq_false_2 by done. unfold UpdateTicket.
  destruct (List.filter _ _) as [|x l] eqn:Hf; [|cbn; by rewrite run_update_fails].
  exfalso. apply Hne, map_empty. intros k. apply not_elem_of_dom. intros Hk. apply elem_of_dom in Hk as [v Hv].
  assert (Ha : allowed k = true).
  { unfold updates_of in Hv. repeat (apply lookup_put in Hv as [->|Hv]; [vm_compute; reflexivity|]). by rewrite lookup_empty in Hv. }
  assert (Hin : In (k, v) (List.filter (λ kv, allowed (fst kv)) (range (order e) (updates_of h)))).
  { apply filter_In. split; [by apply list_elem_of_In, elem_of_range|done]. }
  by rewrite Hf in Hin.
Qed.

(** ** Tenants *)

Definition shown (r : reply) : list ITSMTicket := match r with WTicket t => [t] | WTickets l _ => l | _ => [] end.

Lemma find_tenant e tenantID id d t : find_ticket e tenantID id d = Some t → TenantID t = tenantID ∧ ∃ k, d !! k = Some t.
Proof.
  unfold find_ticket. pose proof (select_head (order e) (named tenantID id) d) as H. destruct (head _) as [[k x]|]; cbn; [|done].
  intros [= <-]. destruct H as [Hk Hn]. apply andb_true_iff in Hn as [Ht _]. apply bool_decide_eq_true_1 in Ht. eauto.
Qed.
Lemma update_shows e tenantID id h d :
  match snd (exec (UpdateTicket e tenantID id h) d) with Some t => find_ticket e tenantID id d = Some t | None => True end.
Proof.
  unfold UpdateTicket. destruct (List.filter _ _); cbn; [by destruct (ok e 0), (find_ticket e tenantID id d)|by rewrite run_update_fails].
Qed.

(** Tenants are kept apart.  A request neither changes nor removes a ticket of another tenant,
    whatever identifier or key it names, and the tickets it is shown are tickets of the table that
    belong to the tenant of its caller. *)
Theorem tickets_isolated c d d' r :
  exec (serve c) d = (d', r) →
  (∀ id t, d !! id = Some t → TenantID t ≠ caller c → d' !! id = Some t)
  ∧ ∀ t, t ∈ shown r → TenantID t = caller c ∧ ∃ id, d !! id = Some t.
Proof.
  intros E. split.
  - intros id t Ht Hne. assert (Hk : keeps (λ d, d !! id = Some t) (serve c)).
    { apply keeps_serve.
      - intros e org q k d0 _ H0. unfold insert_ticket. destruct (_ && _) eqn:Hc; [|done]. cbn.
        apply andb_true_iff in Hc as [[_ Hn]%andb_true_iff _]. apply bool_decide_eq_true_1 in Hn. rewrite lookup_insert_ne; [done|congruence].
      - intros e org j d0 -> H0. rewrite map_lookup_imap, H0. cbn. unfold named. rewrite bool_decide_eq_false_2; [done|exact Hne]. }
    pose proof (keeps_exec _ _ d Hk Ht) as H. by rewrite E in H.
  - intros t Hin. apply (f_equal snd) in E. cbn in E. subst r.
    destruct c as [e org [q|msg]|e org id|e org status limit offset|e org id [h|msg]|e org id|e org]; cbn [serve CreateRequest] in Hin.
    + repeat (case_bool_decide; cbn in Hin; [|by apply not_elem_of_nil in Hin]). rewrite exec_bind in Hin. cbn in Hin.
      by destruct (exec (CreateTicket _ _) d) as [d2 []]; apply not_elem_of_nil in Hin.
    + by apply not_elem_of_nil in Hin.
    + unfold GetRequest in Hin. case_bool_decide; [by apply not_elem_of_nil in Hin|]. cbn in Hin.
      destruct (ok e 0); [|by apply not_elem_of_nil in Hin]. destruct (find_ticket _ _ _ _) as [x|] eqn:Hf; [|by apply not_elem_of_nil in Hin].
      apply list_elem_of_singleton in Hin as ->. by eapply find_tenant.
    + unfold ListRequests, ListTickets in Hin. cbn in Hin. destruct (ok e 0); cbn in Hin; [|by apply not_elem_of_nil in Hin].
      destruct (ok e 1); cbn in Hin; [|by apply not_elem_of_nil in Hin]. apply list_elem_of_fmap in Hin as ([k x] & -> & Hin).
      assert (Hs : (k, x) ∈ select (order e) (listed (tenant_of org) status) d).
      { by apply elem_of_page in Hin. }
      apply elem_of_select in Hs as [Hk Hl]. apply andb_true_iff in Hl as [Ht _]. apply bool_decide_eq_true_1 in Ht. eauto.
    + unfold UpdateRequest in Hin. case_bool_decide; [by apply not_elem_of_nil in Hin|]. rewrite exec_bind in Hin. cbn in Hin.
      pose proof (update_shows e (tenant_of org) id (updates_of h) d) as H1. destruct (exec (UpdateTicket _ _ _ _) d) as [d2 [x|]]; cbn in *;
        [|by apply not_elem_of_nil in Hin]. apply list_elem_of_singleton in Hin as ->. by eapply find_tenant.
    + unfold UpdateRequest in Hin. by case_bool_decide; apply not_elem_of_nil in Hin.
    + unfold DeleteRequest in Hin. case_bool_decide; cbn in Hin; [by apply not_elem_of_nil in Hin|].
      by destruct (ok e 0); apply not_elem_of_nil in Hin.
    + cbn in Hin. by destruct (ok e 0); apply not_elem_of_nil in Hin.
Qed.

(** ** Creation *)

(** The keys that are tried. *)
Definition key_at (e : env) (k : string) (i j : nat) : string := match j with 0 => k | S j => next_key e (i + j) end.
Lemma search_free e n i k d j :
  (∀ j, ok e j = true) → j < n → (∀ j', j' < j → key_taken (key_at e k i j') d = true) → key_taken (key_at e k i j) d = false →
  exec (search e n i k) d = (d, Free (key_at e k i j)).
Proof.
  intros Hok. revert n i k. induction j as [|j IH]; intros n i k Hn Hbusy Hfree; (destruct n as [|n]; [lia|]); cbn; rewrite Hok; cbn.
  - cbn in Hfree. by rewrite Hfree.
  - pose proof (Hbusy 0 ltac:(lia)) as H0. cbn in H0. rewrite H0.
    assert (Hshift : ∀ x, key_at e (next_key e i) (S i) x = key_at e k i (S x)).
    { intros [|x]; cbn; [by rewrite Nat.add_0_r|]. by rewrite <- Nat.add_succ_r. }
    rewrite (IH n (S i) (next_key e i)); [by rewrite Hshift|lia| |by rewrite Hshift]. intros j' Hj. rewrite Hshift. apply Hbusy. lia.
Qed.

(** A request is answered and found again.  When the database answers and some key that is tried
    is free, a valid request of fitting values is stored, pending its review, under the first free
    key, and reading it back by this key, alone in the table or not, gives what was asked for. *)
Theorem create_then_get e e' org r d j :
  (∀ i, ok e i = true) → ok e' 0 = true → q_RequestType r ∈ ["jit_access"; "policy_bypass"; "false_positive"] → q_Urgency r ∈ ["low"; "medium"; "high"; "critical"] →
  let key := key_at e (generateTicketKey e) 0 j in
  let t := with_key key (ticket_of e (tenant_of org) r) in
  j < fuel e → (∀ j', j' < j → key_taken (key_at e (generateTicketKey e) 0 j') d = true) → key_taken key d = false →
  fits_row t = true → d !! new_id e = None → d !! key = None → new_id e ≠ key → key ≠ "" →
  let d' := <[new_id e := stored e t]> d in
  exec (serve (CCreate e org (Ok r))) d = (d', WCreated key "pending_ai_review")
  ∧ exec (serve (CGet e' org key)) d' = (d', WTicket (stored e t)).
Proof.
  cbv zeta. intros Hok Hok' Ht Hu Hj Hbusy Hfree Hfits Hid Hkey Hne Hnonempty. split.
  - cbn [serve CreateRequest]. rewrite !bool_decide_eq_true_2 by done. cbn [negb]. rewrite exec_bind. unfold CreateTicket. rewrite exec_bind.
    change (TicketKey (ticket_of e (tenant_of org) r)) with (generateTicketKey e). rewrite (search_free e (fuel e) 0 (generateTicketKey e) d j) by done.
    cbn [fst snd]. cbn. unfold insert_ticket. rewrite Hok, Hfits, (bool_decide_eq_true_2 _ Hid). cbn [TicketKey with_key]. by rewrite Hfree.
  - set (key := key_at e (generateTicketKey e) 0 j) in *. set (t := with_key key (ticket_of e (tenant_of org) r)) in *.
    cbn. unfold GetRequest. rewrite bool_decide_eq_false_2 by done. cbn. rewrite Hok'. unfold find_ticket.
    set (d' := <[new_id e := stored e t]> d). pose proof (select_head (order e') (named (tenant_of org) key) d') as H.
    assert (Hn : named (tenant_of org) key (new_id e) (stored e t) = true).
    { apply andb_true_iff. split; [by apply bool_decide_eq_true_2|]. apply orb_true_iff. right. by apply bool_decide_eq_true_2. }
    destruct (head _) as [[k x]|]; cbn.
    + destruct H as [Hk Hx]. unfold d' in Hk. apply lookup_insert_Some in Hk as [[<- <-]|[_ Hk]]; [done|]. exfalso.
      apply andb_true_iff in Hx as [_ [Hx|Hx]%orb_true_iff]; apply bool_decide_eq_true_1 in Hx.
      * subst k. congruence.
      * by apply (key_taken_false _ _ Hfree _ _ Hk).
    + specialize (H (new_id e) (stored e t)). unfold d' in H. rewrite lookup_insert_eq in H. rewrite H in Hn; done.
Qed.
End Store.

(** ** Concrete requests *)

Definition demo_env : env := mkEnv "6c84fb90-12c4-11e1-840d-7b25c5ee775a" 7 7 (λ _, 12345%Z) 42 (λ _, true) canonical_order 3.
Definition demo_request : create_request := mkCreate "jit_access" "example.com" "news" "p" "dev" "alice" "needed for the report" "high" 0 "email".
Definition no_effect (u : update) (d : DB) : DB * option ITSMTicket := (d, None).
Definition demo_calls : list call := [CCreate demo_env "org" (Ok demo_request); CDelete demo_env "org" "SR-00042"].

Lemma create_then_get_witness :
  ∃ d t, exec (serve no_effect (CCreate demo_env "org" (Ok demo_request))) ∅ = (d, WCreated "SR-00042" "pending_ai_review")
    ∧ exec (serve no_effect (CGet demo_env "org" "SR-00042")) d = (d, WTicket t) ∧ DurationHours t = Some 4%Z.
Proof.
  destruct (create_then_get no_effect demo_env demo_env "org" demo_request ∅ 0) as [H1 H2];
    [reflexivity|reflexivity|by apply (bool_decide_unpack _)|by apply (bool_decide_unpack _)|apply Nat.lt_0_succ|intros j' Hj; destruct (Nat.nlt_0_r _ Hj)|
     vm_compute; reflexivity|vm_compute; reflexivity|reflexivity|reflexivity|discriminate|discriminate|].
  eexists _, _. split; [exact H1|split; [exact H2|reflexivity]].
Defined.
Lemma tickets_undecided_witness :
  sound (data (schedule (serve no_effect) ∅ demo_calls [0; 0; 1])) ∧ size (data (schedule (serve no_effect) ∅ demo_calls [0; 0; 1])) = 1.
Proof. split; [apply (tickets_undecided no_effect); apply schedule_reachable|vm_compute; reflexivity]. Defined.
Lemma tickets_isolated_witness :
  ∃ d t, snd (exec (serve no_effect (CGet demo_env "org" "SR-00042")) d) = WTicket t ∧ TenantID t = "org".
Proof.
  destruct (exec (serve no_effect (CCreate demo_env "org" (Ok demo_request))) ∅) as [d r] eqn:E.
  destruct (exec (serve no_effect (CGet demo_env "org" "SR-00042")) d) as [d' r'] eqn:E'.
  pose proof (tickets_isolated no_effect _ d d' r' E') as [_ H]. exists d. vm_compute in E. injection E as <- <-. vm_compute in E'.
  injection E' as <- <-. eexists. split; [vm_compute; reflexivity|]. apply H. apply list_elem_of_here.
Defined.
End Itsm.
