(* ===== verification/AdminApi.v ===== *)
(** * The administration of policies

    [src/internal/api/handlers/admin_handler.go]: the handlers of the console over the gateway
    registry and the mesh ([Gateway]) and the policy store ([PolicyStore]), one at a time, since the
    stores lock for each operation.  The user and the organization are those the middleware left in
    the context ([Access]). *)

From S2P Require Import Prelude GoStrings PolicyStore Gateway Access DnsLogs.
#[local] Open Scope string_scope.
#[local] Open Scope nat_scope.
#[local] Open Scope list_scope.

Module AdminApi.
Import GoStrings PolicyStore.PolicyStore.
Import Access.Access (context, GetString, SafeMessage).

Record State := mkState { registry : Gateway.Registry.Registry; store : Store; mesh : Gateway.Mesh.MeshCoordinator }.
Definition with_store (st : Store) (s : State) : State := mkState (registry s) st (mesh s).

(** The surroundings of a request: the order of map iterations, the clock, eight random bytes. *)
Record env := mkEnv { order : range_order; clk : nat → Z; rnd : bytes }.

Inductive reply :=
| ASafe (status : Z) (msg : string)
| ALocked (msg : string)
| AError (status : Z) (msg : string) (l : option ConfigLock)
| AEdited (status : Z) (id : string) (version : Z)
| ADeleted (version : Z)
| APolicies (l : list SecurityPolicy) (version : Z)
| ALock (l : option ConfigLock)
| AUnlocked
| AVersions (l : list ConfigVersion) (current : Z)
| AVersion (cv : ConfigVersion)
| AReverted (target current : Z)
| ADiff (from to : Z) (changes : gmap string string)
| AGateways (l : list Gateway.Registry.GatewayNode)
| AGateway (g : Gateway.Registry.GatewayNode)
| ATopology (t : Gateway.Mesh.MeshTopology).
Definition safe_error (status : Z) : reply := ASafe status (SafeMessage status).
Definition author (c : context) : string := GetString c "user_id".

Definition set_id (id : string) (p : SecurityPolicy) : SecurityPolicy :=
  match p with
  | mkPolicy _ a2 a3 a4 a5 a6 a7 a8 a9 a10 a11 a12 a13 a14 a15 a16 a17 a18 a19 a20 a21 a22
      a23 a24 a25 a26 a27 a28 a29 a30 a31 a32 a33 a34 a35 a36 a37 a38 a39 a40 a41 a42 a43 =>
    mkPolicy id a2 a3 a4 a5 a6 a7 a8 a9 a10 a11 a12 a13 a14 a15 a16 a17 a18 a19 a20 a21 a22
      a23 a24 a25 a26 a27 a28 a29 a30 a31 a32 a33 a34 a35 a36 a37 a38 a39 a40 a41 a42 a43
  end.
(** [strconv.ParseInt(s, 10, 64)] *)
Definition ParseInt (s : string) : option Z := DnsLogs.DnsLogs.Atoi s.

(** ** Gateways and mesh *)

Definition ListGateways (e : env) (s : State) : reply := AGateways (Gateway.Registry.List (order e) (registry s)).
Definition GetGateway (id : string) (s : State) : reply :=
  match Gateway.Registry.Get (registry s) id with Some g => AGateway g | None => safe_error 404 end.
Definition ListAvailableGateways (e : env) (s : State) : reply := AGateways (Gateway.Registry.ListAvailable (order e) (registry s)).
Definition GetMeshTopology (e : env) (c : context) (s : State) : reply :=
  let orgID := if bool_decide (GetString c "org_id" = "") then "dev-org" else GetString c "org_id" in
  ATopology (Gateway.Mesh.GetTopology (order e) (mesh s) orgID).

(** ** Policies *)

Definition CreatePolicy (e : env) (c : context) (body : option SecurityPolicy) (s : State) : State * reply :=
  match body with
  | None => (s, safe_error 400)
  | Some p =>
      let p := if bool_decide (ID p = "") then set_id ("pol-" +:+ Hex.encode (rnd e)) p else p in
      let '(st, (version, lockMsg)) := Create (order e) (clk e) (store s) p (author c) in
      (with_store st s, if bool_decide (lockMsg ≠ "") then ALocked lockMsg else AEdited 201 (ID p) version)
  end.
Definition UpdatePolicy (e : env) (c : context) (id : string) (body : option SecurityPolicy) (s : State) : State * reply :=
  match body with
  | None => (s, safe_error 400)
  | Some p =>
      let p := set_id id p in
      let '(st, (version, ok, lockMsg)) := Update (order e) (clk e) (store s) p (author c) in
      (with_store st s, if bool_decide (lockMsg ≠ "") then ALocked lockMsg else if negb ok then safe_error 404 else AEdited 200 (ID p) version)
  end.
Definition ListPolicies (e : env) (c : context) (s : State) : reply :=
  let orgID := GetString c "org_id" in
  APolicies (List.filter (λ p, bool_decide (orgID = "") || bool_decide (OrgID p = orgID)) (List (order e) (store s))) (version (store s)).
Definition DeletePolicy (e : env) (c : context) (id : string) (s : State) : State * reply :=
  let '(st, (version, ok, lockMsg)) := Delete (order e) (clk e) (store s) id (author c) in
  (with_store st s, if bool_decide (lockMsg ≠ "") then ALocked lockMsg else if negb ok then safe_error 404 else ADeleted version).

(** ** Versions and the lock *)

Definition AcquireConfigLock (e : env) (c : context) (s : State) : State * reply :=
  let '(st, (lock, ok)) := Lock (store s) (clk e) (author c) in
  (with_store st s, if negb ok then AError 409 "config is already locked" lock else ALock lock).
Definition ReleaseConfigLock (c : context) (force : string) (s : State) : State * reply :=
  let '(st, ok) := Unlock (store s) (author c) (bool_decide (force = "true")) in
  (with_store st s, if negb ok then AError 403 "only the lock holder can release the lock" None else AUnlocked).
Definition GetConfigLock (e : env) (s : State) : State * reply :=
  let '(st, lock) := GetLock (store s) (clk e) in (with_store st s, ALock lock).
Definition ListConfigVersions (s : State) : reply := AVersions (ListVersions (store s)) (version (store s)).
Definition GetConfigVersion (vStr : string) (s : State) : reply :=
  match ParseInt vStr with
  | None => safe_error 400
  | Some v => match GetVersion (store s) v with Some cv => AVersion cv | None => safe_error 404 end
  end.
Definition RevertConfig (e : env) (c : context) (vStr : string) (s : State) : State * reply :=
  match ParseInt vStr with
  | None => (s, safe_error 400)
  | Some v =>
      let '(st, (newVersion, ok)) := Revert (order e) (clk e) (store s) v (author c) in
      (with_store st s, if negb ok then safe_error 404 else AReverted v newVersion)
  end.

Section Marshal.
Context (marshal : SecurityPolicy → option string).

Definition DiffConfigVersions (e : env) (fromStr toStr : string) (s : State) : reply :=
  match ParseInt fromStr with
  | None => safe_error 400
  | Some from =>
      match ParseInt toStr with
      | None => safe_error 400
      | Some to => match Diff marshal (order e) (store s) from to with Some m => ADiff from to m | None => safe_error 404 end
      end
  end.

Inductive call :=
| CCreate (body : option SecurityPolicy)
| CUpdate (id : string) (body : option SecurityPolicy)
| CDelete (id : string)
| CList
| CAcquire
| CRelease (force : string)
| CGetLock
| CVersions
| CVersion (v : string)
| CRevert (v : string)
| CDiff (from to : string)
| CGateways
| CGateway (id : string)
| CAvailable
| CTopology.

Definition serve (e : env) (c : context) (s : State) (k : call) : State * reply :=
  match k with
  | CCreate body => CreatePolicy e c body s
  | CUpdate id body => UpdatePolicy e c id body s
  | CDelete id => DeletePolicy e c id s
  | CList => (s, ListPolicies e c s)
  | CAcquire => AcquireConfigLock e c s
  | CRelease force => ReleaseConfigLock c force s
  | CGetLock => GetConfigLock e s
  | CVersions => (s, ListConfigVersions s)
  | CVersion v => (s, GetConfigVersion v s)
  | CRevert v => RevertConfig e c v s
  | CDiff from to => (s, DiffConfigVersions e from to s)
  | CGateways => (s, ListGateways e s)
  | CGateway id => (s, GetGateway id s)
  | CAvailable => (s, ListAvailableGateways e s)
  | CTopology => (s, GetMeshTopology e c s)
  end.

(** ** Who changed what *)

(** The version a request is told it made. *)
Definition made (r : reply) : option Z :=
  match r with AEdited _ _ v | ADeleted v | AReverted _ v => Some v | _ => None end.
Definition recorded (s s' : State) (u : string) (v : Z) : Prop :=
  ∃ cv, last (versions (store s')) = Some cv ∧ Author cv = u ∧ Version cv = v ∧ version (store s') = v
    ∧ v = wrap_i64 (version (store s) + 1) ∧ is_snapshot (policies (store s')) (Policies cv).

Lemma commit_recorded s st ro now u msg ct pid :
  version st = version (store s) → recorded s (with_store (fst (commit ro now st u msg ct pid)) s) u (snd (commit ro now st u msg ct pid)).
Proof.
  intros Hv. unfold commit. cbn [fst snd]. exists (mkVersion (wrap_i64 (version st + 1)) (sorted_values ro (policies st)) u msg ct pid now).
  unfold with_store, push_version. cbn [store versions version policies]. rewrite last_snoc, Hv. split_and!; try done. apply sorted_values_snapshot.
Qed.


(** ** The lock *)

(** A request that respects the lock: no revert and no forced release. *)
Definition gentle (k : call) : Prop := match k with CRevert _ => False | CRelease f => f ≠ "true" | _ => True end.
(** The command of the store behind a request, if there is one. *)
Definition command (e : env) (c : context) (k : call) : option cmd :=
  match k with
  | CCreate (Some p) => Some (PolicyStore.PolicyStore.CCreate (if bool_decide (ID p = "") then set_id ("pol-" +:+ Hex.encode (rnd e)) p else p) (author c))
  | CUpdate id (Some p) => Some (PolicyStore.PolicyStore.CUpdate (set_id id p) (author c))
  | CDelete id => Some (PolicyStore.PolicyStore.CDelete id (author c))
  | CAcquire => Some (CLock (author c))
  | CRelease f => Some (CUnlock (author c) (bool_decide (f = "true")))
  | CGetLock => Some PolicyStore.PolicyStore.CGetLock
  | CRevert v => (λ n, PolicyStore.PolicyStore.CRevert n (author c)) <$> ParseInt v
  | _ => None
  end.
Lemma serve_store e c s k :
  store (fst (serve e c s k)) = match command e c k with Some x => fst (exec (order e) (clk e) (store s) x) | None => store s end.
Proof.
  destruct k as [[p|]|id [p|]|id| | |force| | |v|v|from to| |id| |]; try done; cbn.
  - unfold CreatePolicy. cbn. by destruct (Create _ _ _ _ _) as [st [v msg]].
  - by destruct (Update _ _ _ _ _) as [st [[v ok] msg]].
  - unfold DeletePolicy. by destruct (Delete _ _ _ _ _) as [st [[v ok] msg]].
  - unfold AcquireConfigLock. by destruct (Lock _ _ _) as [st [l ok]].
  - unfold ReleaseConfigLock. by destruct (Unlock _ _ _) as [st ok].
  - unfold GetConfigLock. by destruct (GetLock _ _) as [st l].
  - unfold RevertConfig. destruct (ParseInt v) as [n|]; cbn; [|done]. by destruct (Revert _ _ _ _ _) as [st [w ok]].
Qed.

Definition run (s : State) (l : list (env * context * call)) : State := foldl (λ s x, fst (serve (fst (fst x)) (snd (fst x)) s (snd x))) s l.
(** The lock excludes the other administrators: while one holds it, no requests of others change the
    policies, their history or the lock, as long as nobody reverts or forces a release; and an attempt
    to edit is answered with the name of the holder. *)
Theorem lock_respected s l rs :
  lock (store s) = Some l →
  Forall (λ x, (clk (fst (fst x)) 0 < ExpiresAt l)%Z ∧ author (snd (fst x)) ≠ LockedBy l ∧ gentle (snd x)) rs →
  same_config (store s) (store (run s rs))
  ∧ ∀ e c p, (clk e 0 < ExpiresAt l)%Z → author c ≠ LockedBy l →
      snd (serve e c (run s rs) (CCreate (Some p))) = ALocked ("config locked by " +:+ LockedBy l).
Proof.
  intros Hl Hrs. assert (Hs : same_config (store s) (store (run s rs))).
  { revert s Hl. induction Hrs as [|[[e c] k] rs (Hnow & Ha & Hg) _ IH]; intros s Hl; [done|]. cbn in Hnow, Ha, Hg.
    assert (H1 : same_config (store s) (store (fst (serve e c s k)))).
    { rewrite serve_store. destruct (command e c k) as [x|] eqn:Hx; [|done]. apply (exec_held _ l); [done|done|].
      destruct k as [[p|]|id [p|]|id| | |force| | |v|v|from to| |id| |]; cbn in Hx; try discriminate Hx; try injection Hx as <-; cbn; try done.
      split; [done|]. by apply bool_decide_eq_false_2. }
    destruct H1 as (A1 & A2 & A3 & A4). destruct (IH (fst (serve e c s k))) as (B1 & B2 & B3 & B4); [congruence|].
    unfold run in *. cbn [foldl fst snd] in *. split_and!; congruence. }
  split; [done|]. intros e c p Hnow Ha. destruct Hs as (_ & _ & _ & Hlock). cbn. unfold CreatePolicy, Create.
  rewrite (checkLock_held _ l) by (try congruence; lia). rewrite bool_decide_eq_true_2 by apply config_locked_nonempty.
  cbn. by rewrite bool_decide_eq_true_2 by apply config_locked_nonempty.
Qed.
End Marshal.

(** ** Concrete requests *)

Definition demo_ctx (user org : string) : context := Access.Access.Set_ "user_id" user (Access.Access.Set_ "org_id" org Access.Access.new_context).
Definition demo_env : env := mkEnv canonical_order (λ _, 1000%Z) [].
Definition demo_state : State := mkState Gateway.Registry.NewRegistry NewStore Gateway.Mesh.NewMeshCoordinator.
Definition demo_marshal (p : SecurityPolicy) : option string := Some (Name p).
Definition as_user (user org : string) (k : call) : env * context * call := (demo_env, demo_ctx user org, k).
Definition demo_locked : State := run demo_marshal demo_state [as_user "ann" "a" (CCreate (Some (demo_policy "p1" 10))); as_user "ann" "a" CAcquire].

(** Another administrator, of another tenant, releases the lock by force and deletes the policy. *)
Example lock_forced :
  let s := run demo_marshal demo_locked [as_user "bob" "b" (CRelease "true"); as_user "bob" "b" (CDelete "p1")] in
  snd (serve demo_marshal demo_env (demo_ctx "bob" "b") demo_locked (CDelete "p1")) = ALocked "config locked by ann"
  ∧ policies (store demo_locked) !! "p1" = Some (demo_policy "p1" 10) ∧ policies (store s) !! "p1" = None.
Proof. vm_compute. done. Qed.
End AdminApi.
