(* ===== verification/AccountApi.v ===== *)
(** * Accounts (auth_handler.go, user_handler.go, group_handler.go)

    The handlers of the login, of the administrators' accounts and of the groups, behind the routes
    main registers them with: [serve] runs the middleware of the route of a call and then its
    handler, over the [AuthStore] that both the handlers and the token check use.  The group handlers
    work on the tables of [ScimStore]; what they take from the request is the organization of the
    caller.  The route that selects a directory group for import, an inline handler of main, is that of
    [Directory] and works on the organization of the system whoever calls.  A body is what the decoder and its validation give, [None] when they refuse it.

    Two theorems follow a request from the login to the store: what a session can do, and that an
    administrator of any rank can make himself the administrator of all tenants. *)

From S2P Require Import Prelude GoStrings Encoding Jwt Sql AuthStore ScimStore Access Routes Connector Directory.
#[local] Open Scope string_scope.
#[local] Open Scope nat_scope.
#[local] Open Scope list_scope.

Module AccountApi.
Import GoStrings Jwt Sql Access AuthStore Routes.

Record visit := mkVisit { v_req : request; v_now : Z; v_env : AuthStore.env; v_ip : string; v_agent : string }.

Inductive reply :=
| WErr (status : Z) (msg : string)
| WLogin (l : LoginResult)
| WUser (u : AuthUser)
| WUsers (l : list AuthUser)
| WMessage (msg : string).

Record loginRequest := mkLoginRequest { Email_ : string; Password : string }.
Record updateUserRequest := mkUpdate { n_Name : string; n_Role : string; n_Status : string; n_MFAEnabled : bool }.

(** The errors of [RefreshAccessToken]. *)
Definition refresh_text (e : auth_error) : string :=
  match e with
  | ErrInvalidRefresh => "invalid refresh token"
  | ErrValidation => "token validation failed"
  | ErrRevoked => "refresh token revoked"
  | ErrExpired => "refresh token expired"
  | ErrUserNotFound => "user not found"
  | ErrSuspended => "account is suspended"
  | _ => "token generation failed"
  end.

Section Handlers.
Context `{JwtLib} (compare ilike : string → string → bool) (jwtSecret : bytes).

(** ** auth_handler.go *)

Definition Login (v : visit) (body : option loginRequest) (s : DB) : DB * reply :=
  match body with
  | None => (s, WErr 400 "email and password are required")
  | Some req =>
      match Authenticate compare jwtSecret (v_env v) s (ToLower (TrimSpace (Email_ req))) (Password req) (v_ip v) (v_agent v) with
      | (s, Err _) => (s, WErr 401 "invalid email or password")
      | (s, Ok r) => (s, WLogin r)
      end
  end.
Definition Refresh (v : visit) (body : option string) (s : DB) : reply :=
  match body with
  | None => WErr 400 "refresh_token is required"
  | Some tok =>
      match RefreshAccessToken jwtSecret (v_env v) s tok with
      | Err x => WErr 401 (refresh_text x)
      | Ok r => WLogin r
      end
  end.
Definition Logout_ (v : visit) (body : option string) (s : DB) : DB * reply :=
  match body with
  | None => (s, WErr 400 "refresh_token is required")
  | Some tok =>
      match Logout (v_env v) s tok with
      | (s, false) => (s, WErr 500 "logout failed")
      | (s, true) => (s, WMessage "logged out")
      end
  end.
Definition Me (v : visit) (c : context) (s : DB) : reply :=
  let userID := GetString c "user_id" in
  if bool_decide (userID = "") then WErr 401 "not authenticated"
  else match GetUser (v_env v) s userID with Err _ => WErr 404 "user not found" | Ok u => WUser u end.

(** ** user_handler.go *)

Definition ListUsers_ (v : visit) (search : string) (s : DB) : reply :=
  match ListUsers ilike (v_env v) s search with Err _ => WErr 500 "failed to list users" | Ok l => WUsers l end.
Definition GetUser_ (v : visit) (id : string) (s : DB) : reply :=
  match GetUser (v_env v) s id with Err _ => WErr 404 "user not found" | Ok u => WUser u end.
Definition UpdateUser_ (v : visit) (id : string) (body : option updateUserRequest) (s : DB) : DB * reply :=
  match body with
  | None => (s, WErr 400 "invalid request body")
  | Some q =>
      match UpdateUser (v_env v) s id (n_Name q) (n_Role q) (n_Status q) (n_MFAEnabled q) with
      | (s, Err ErrUserNotFound) => (s, WErr 404 "user not found")
      | (s, Err _) => (s, WErr 500 "failed to update user")
      | (s, Ok u) => (s, WUser u)
      end
  end.
Definition DeleteUser_ (v : visit) (id : string) (s : DB) : DB * reply :=
  match DeleteUser (v_env v) s id with
  | (s, Some ErrUserNotFound) => (s, WErr 404 "user not found")
  | (s, Some _) => (s, WErr 500 "failed to delete user")
  | (s, None) => (s, WMessage "user deleted")
  end.

(** ** Serving *)

Inductive call :=
| CLogin (body : option loginRequest) | CRefresh (body : option string) | CLogout (body : option string) | CMe
| CListUsers (search : string) | CGetUser (id : string) | CUpdateUser (id : string) (body : option updateUserRequest)
| CDeleteUser (id : string).
Definition route_of (c : call) : route :=
  match c with
  | CLogin _ => R_ "POST" "/api/v1/auth/login" [] "authHandler.Login"
  | CRefresh _ => R_ "POST" "/api/v1/auth/refresh" [] "authHandler.Refresh"
  | CLogout _ => R_ "POST" "/api/v1/auth/logout" [] "authHandler.Logout"
  | CMe => R_ "GET" "/api/v1/auth/me" [GJWT] "authHandler.Me"
  | CListUsers _ => R_ "GET" "/api/v1/users" [GJWT; GWrite] "userHandler.ListUsers"
  | CGetUser _ => R_ "GET" "/api/v1/users/:id" [GJWT; GWrite] "userHandler.GetUser"
  | CUpdateUser _ _ => R_ "PUT" "/api/v1/users/:id" [GJWT; GWrite] "userHandler.UpdateUser"
  | CDeleteUser _ => R_ "DELETE" "/api/v1/users/:id" [GJWT; GWrite] "userHandler.DeleteUser"
  end.
Definition handle (v : visit) (x : context) (c : call) (s : DB) : DB * reply :=
  match c with
  | CLogin b => Login v b s
  | CRefresh b => (s, Refresh v b s)
  | CLogout b => Logout_ v b s
  | CMe => (s, Me v x s)
  | CListUsers q => (s, ListUsers_ v q s)
  | CGetUser id => (s, GetUser_ v id s)
  | CUpdateUser id b => UpdateUser_ v id b s
  | CDeleteUser id => DeleteUser_ v id s
  end.
Definition serve (sv : services) (v : visit) (c : call) (s : DB) : DB * reply :=
  match dispatch (with_token_check jwtSecret sv (v_now v)) (route_of c) (v_req v) with
  | Abort status msg _ => (s, WErr status msg)
  | Next x => handle v x c s
  end.

(** The routes are those of the table. *)
Lemma route_registered cfg c : route_of c ∈ routes cfg.
Proof.
  assert (route_of c ∈ authAPI ++ userAPI) as Hin.
  { destruct c; (apply (bool_decide_unpack _); vm_compute; exact I). }
  unfold routes. rewrite !elem_of_app in *. tauto.
Qed.

(** ** Sessions *)

(** A request from outside a browser, with the clock and the statements of its handling. *)
Definition via (m tok scope : string) (t : Z) (e : AuthStore.env) : visit := mkVisit (bearer_request m tok scope) t e "" "".

Lemma open_served sv c s tok scope t e :
  r_guards (route_of c) = [] → ∃ x, serve sv (via "POST" tok scope t e) c s = handle (via "POST" tok scope t e) x c s.
Proof.
  intros Hg. unfold serve, dispatch. rewrite Hg, app_nil_r. cbn [v_req v_now via].
  destruct (global_bearer (with_token_check jwtSecret sv t) "POST" tok scope) as (id & o & ->); [done|]. by eexists.
Qed.

(** A token of the store is accepted for its fifteen minutes. *)
Lemma token_checked sv t now u tok :
  jwt_sign (access_claims now u) jwtSecret = Some tok → (unix t < unix (now + access_ttl))%Z →
  s_token (with_token_check jwtSecret sv t) tok = Some (access_claims now u).
Proof.
  intros Hs Ht. cbn [s_token with_token_check]. unfold check_token.
  by rewrite (validate_signed jwtSecret t _ _ Hs) by by apply access_claims_expired.
Qed.

(** The administration routes are open to it as far as its role goes, at any state of the tables. *)
Lemma token_reaches sv t now u tok m scope r :
  jwt_sign (access_claims now u) jwtSecret = Some tok → (unix t < unix (now + access_ttl))%Z →
  r_guards r = [GJWT; GWrite] → r_method r = m → m ≠ "OPTIONS" → safe_method m = true ∨ TrimSpace (Role u) ∈ write_roles →
  ∃ x, reaches (with_token_check jwtSecret sv t) r (bearer_request m tok scope) x
    ∧ GetString x "role" = Role u ∧ GetString x "user_id" = ID u
    ∧ GetString x "org_id" = if bool_decide (Role u = "super_admin" ∧ TrimSpace scope ≠ "") then TrimSpace scope else OrgID u.
Proof.
  intros Hs Ht Hg Hm Ho Hw.
  exact (admin_reach (with_token_check jwtSecret sv t) r m tok scope _ Hg Hm Ho (token_checked sv t now u tok Hs Ht) Hw).
Qed.

(** What the write check lets pass unchanged. *)
Lemma jwt_reaches sv r r' req x :
  r_guards r = [GJWT; GWrite] → r_guards r' = [GJWT] → safe_method (Method req) = true →
  dispatch sv r req = Next x → dispatch sv r' req = Next x.
Proof.
  intros Hg Hg' Hm. unfold dispatch. rewrite Hg, Hg', !run_app. destruct (run (global sv) req new_context) as [c|]; [|done].
  cbn [fmap list_fmap run interp]. destruct (JWTAuth _ _ _) as [c'|]; [|done]. unfold RequireWriteAccess. by rewrite Hm.
Qed.

Lemma login_answer sv v b s s1 l : serve sv v (CLogin b) s = (s1, WLogin l) →
  ∃ req, b = Some req ∧ Authenticate compare jwtSecret (v_env v) s (ToLower (TrimSpace (Email_ req))) (Password req) (v_ip v) (v_agent v) = (s1, Ok l).
Proof.
  unfold serve. destruct (dispatch _ _ _) as [x|]; [|done]. cbn. destruct b as [req|]; [|done]. intros E. exists req. split; [done|].
  cbn in E. by destruct (Authenticate _ _ _ _ _ _ _ _) as [s' []]; simplify_eq.
Qed.

Lemma write_role_trimmed role : role ∈ write_roles → TrimSpace role ∈ write_roles.
Proof.
  unfold write_roles. rewrite !elem_of_cons, elem_of_nil.
  intros [->|[->|[->|[]]]]; apply (bool_decide_unpack _); vm_compute; exact I.
Qed.

(** C33: A login gives a session.  When a login is answered with tokens, it was for the active account
    of the address with a matching password.  For fifteen minutes, whatever happens to the tables
    meanwhile, a request with the access token learns from /auth/me the account as it is then, if it
    still exists, and reaches every administration route, reads always and changes when the account
    had a role that may write, with the identity, the role and, unless it is a super_admin who names
    another tenant, the organization the account had at the login. *)
Theorem login_session sv v b s s1 l :
  schema s → serve sv v (CLogin b) s = (s1, WLogin l) →
  ∃ req r, b = Some req ∧ may_login compare s (ToLower (TrimSpace (Email_ req))) (Password req) r ∧ User l = scan_user r
    ∧ ∀ t scope, (unix t < unix (e_clk (v_env v) 2 + access_ttl))%Z →
        (∀ e2 s2 r2, e_ok e2 0 = true → u_id r ≠ "" → users s2 !! u_id r = Some r2 →
           ∃ u, serve sv (via "GET" (AccessToken l) scope t e2) CMe s2 = (s2, WUser u) ∧ ID u = u_id r2 ∧ Role u = u_role r2 ∧ Status u = u_status r2)
        ∧ (∀ m rt, r_guards rt = [GJWT; GWrite] → r_method rt = m → m ≠ "OPTIONS" → safe_method m = true ∨ u_role r ∈ write_roles →
           ∃ x, reaches (with_token_check jwtSecret sv t) rt (bearer_request m (AccessToken l) scope) x
             ∧ GetString x "user_id" = u_id r ∧ GetString x "role" = u_role r
             ∧ GetString x "org_id" = if bool_decide (u_role r = "super_admin" ∧ TrimSpace scope ≠ "") then TrimSpace scope else u_org_id r).
Proof.
  intros Hw (req & -> & Ha)%login_answer. destruct (authenticate_sound compare jwtSecret _ _ _ _ _ _ _ _ Hw Ha) as (r & Hm & Hi).
  apply IssueTokens_Ok in Hi as (bs & _ & _ & Hu & _ & _ & Hs & _). exists req, r. split_and!; [done..|].
  intros t scope Ht. split.
  - intros e2 s2 r2 Hok Hne Hr2. destruct (token_reaches sv t _ _ _ "GET" scope (route_of (CListUsers "")) Hs Ht) as (x & [_ Hx] & _ & Hid & _);
      [done..|by left|].
    unfold serve. cbn [v_req v_now via].
    rewrite (jwt_reaches _ (route_of (CListUsers "")) (route_of CMe) (bearer_request "GET" (AccessToken l) scope) _ eq_refl eq_refl eq_refl Hx).
    cbn [handle]. unfold Me. rewrite Hid. cbn [ID scan_user v_env via]. rewrite bool_decide_eq_false_2 by done.
    unfold GetUser. rewrite Hok, Hr2. cbn. by eexists.
  - intros m rt Hg Hmt Ho Hwr. destruct (token_reaches sv t _ _ _ m scope rt Hs Ht Hg Hmt Ho) as (x & Hx & Hr & Hid & Horg).
    + destruct Hwr as [?|Hin]; [by left|right]. by apply write_role_trimmed.
    + exists x. by split_and!.
Qed.

(** ** Promotion *)

Definition promoted (r : user_row) : user_row := set_profile (u_name r) "super_admin" "active" (u_mfa_enabled r) r.
Definition promote (r : user_row) : call := CUpdateUser (u_id r) (Some (mkUpdate (u_name r) "super_admin" "active" (u_mfa_enabled r))).

Lemma promote_served sv t e now u tok scope s r r0 :
  jwt_sign (access_claims now u) jwtSecret = Some tok → (unix t < unix (now + access_ttl))%Z →
  Role u ∈ write_roles → e_ok e 0 = true → users s !! u_id r = Some r0 →
  ∃ w, serve sv (via "PUT" tok scope t e) (promote r) s
       = (with_users s (<[u_id r := set_profile (u_name r) "super_admin" "active" (u_mfa_enabled r) r0]> (users s)), WUser w).
Proof.
  intros Hs Ht Hro Hok Hr. destruct (token_reaches sv t now u tok "PUT" scope (route_of (promote r)) Hs Ht) as (x & [_ Hx] & _);
    [done..|right; by apply write_role_trimmed|].
  unfold serve. cbn [v_req v_now via]. rewrite Hx. cbn [handle promote]. unfold UpdateUser_, UpdateUser. cbn [v_env via].
  rewrite Hok, Hr. cbn. by eexists.
Qed.

Lemma refresh_served sv t e tok scope s rt x r :
  e_ok e 0 = true → e_ok e 1 = true →
  login_sessions s !! rt = Some x → s_revoked_at x = None → (e_clk e 0%nat ≤ s_expires_at x)%Z →
  users s !! s_user_id x = Some r → u_status r = "active" → is_Some (generateAccessToken jwtSecret (e_clk e 1) (scan_user r)) →
  ∃ at_, serve sv (via "POST" tok scope t e) (CRefresh (Some rt)) s = (s, WLogin (mkLogin at_ rt 900 (scan_user r)))
    ∧ jwt_sign (access_claims (e_clk e 1) (scan_user r)) jwtSecret = Some at_.
Proof.
  intros O0 O1 Hx Hrev Hexp Hr Hst [at_ Hat]. destruct (open_served sv (CRefresh (Some rt)) s tok scope t e eq_refl) as (y & ->).
  exists at_. split; [|exact Hat]. cbn [handle Refresh v_env via]. unfold RefreshAccessToken. rewrite O0, O1, Hx, Hrev. cbn [negb].
  rewrite bool_decide_eq_false_2 by by intros [? ?]. rewrite (proj2 (Z.ltb_ge _ _)) by done. rewrite Hr. cbn [Status scan_user].
  rewrite bool_decide_eq_true_2 by done. cbn [negb]. by rewrite Hat.
Qed.

Lemma login_served sv t e s r req b :
  schema s → may_login compare s (ToLower (TrimSpace (Email_ req))) (Password req) r →
  is_Some (generateAccessToken jwtSecret (e_clk e 2) (scan_user r)) → (∀ i, e_ok e i = true) →
  e_rand e = Some b → login_sessions s !! Hex.encode b = None →
  ∃ s1 l, serve sv (via "POST" "" "" t e) (CLogin (Some req)) s = (s1, WLogin l)
    ∧ jwt_sign (access_claims (e_clk e 2) (scan_user r)) jwtSecret = Some (AccessToken l)
    ∧ users s1 !! u_id r = Some (set_last_login (e_clk e 1) r)
    ∧ login_sessions s1 !! RefreshToken l = Some (mkSession (u_id r) "" "" (e_clk e 3 + refresh_ttl) None).
Proof.
  intros Hw Hm [at_ Hat] Hok Hb Hfree. destruct (open_served sv (CLogin (Some req)) s "" "" t e eq_refl) as (y & ->).
  cbn [handle Login v_env v_ip v_agent via]. rewrite (authenticate_complete compare jwtSecret _ _ _ _ _ _ r) by auto.
  destruct Hm as (Hr & _). unfold IssueTokens. rewrite Hat. unfold generateRefreshToken.
  rewrite Hb, Hok, touch_login_sessions, bool_decide_eq_true_2 by done. unfold touch_login. rewrite Hok. cbn.
  rewrite bool_decide_eq_true_2 by (apply lookup_alter_is_Some; by exists r).
  eexists _, _. split; [done|]. cbn. by rewrite lookup_alter_eq, Hr, lookup_insert_eq.
Qed.

(** C34: Administrators promote themselves.  An active account of any tenant with one of the three
    roles that may write becomes super_admin by three requests of its own: a login, an update of its
    own account, which no check of rank or tenant prevents, and a refresh; the token it then holds
    opens every administration route, reads and changes, for any tenant it names. *)
Theorem self_promotion sv s r req e1 e2 e3 t1 t2 t3 b :
  schema s → may_login compare s (ToLower (TrimSpace (Email_ req))) (Password req) r → u_role r ∈ write_roles →
  (∀ now u, is_Some (generateAccessToken jwtSecret now u)) → (∀ i, e_ok e1 i && e_ok e2 i && e_ok e3 i = true) →
  e_rand e1 = Some b → login_sessions s !! Hex.encode b = None →
  (unix t2 < unix (e_clk e1 2 + access_ttl))%Z → (e_clk e3 0%nat ≤ e_clk e1 3%nat + refresh_ttl)%Z →
  ∃ s1 l1 s2 u l3,
    serve sv (via "POST" "" "" t1 e1) (CLogin (Some req)) s = (s1, WLogin l1)
    ∧ serve sv (via "PUT" (AccessToken l1) "" t2 e2) (promote r) s1 = (s2, WUser u)
    ∧ serve sv (via "POST" "" "" t3 e3) (CRefresh (Some (RefreshToken l1))) s2 = (s2, WLogin l3)
    ∧ Role (User l3) = "super_admin"
    ∧ ∀ t m tenant rt, (unix t < unix (e_clk e3 1 + access_ttl))%Z →
        r_guards rt = [GJWT; GWrite] → r_method rt = m → m ≠ "OPTIONS" → TrimSpace tenant ≠ "" →
        ∃ x, reaches (with_token_check jwtSecret sv t) rt (bearer_request m (AccessToken l3) tenant) x
          ∧ GetString x "role" = "super_admin" ∧ GetString x "org_id" = TrimSpace tenant.
Proof.
  intros Hw Hm Hro Hsig Hok Hb Hfree Ht2 Ht3.
  assert (∀ i, e_ok e1 i = true ∧ e_ok e2 i = true ∧ e_ok e3 i = true) as Ho.
  { intros i. specialize (Hok i). rewrite !andb_true_iff in Hok. tauto. }
  destruct (login_served sv t1 e1 s r req b Hw Hm (Hsig _ _) (λ i, proj1 (Ho i)) Hb Hfree) as (s1 & l1 & E1 & Hs1 & Hr1 & Hx1).
  destruct (promote_served sv t2 e2 _ _ _ "" s1 r _ Hs1 Ht2 Hro (proj1 (proj2 (Ho 0))) Hr1) as (u & E2).
  set (s2 := with_users s1 _) in E2. set (r2 := set_profile _ _ _ _ _) in s2.
  destruct (refresh_served sv t3 e3 "" "" s2 (RefreshToken l1) _ r2 (proj2 (proj2 (Ho 0))) (proj2 (proj2 (Ho 1))) Hx1 eq_refl Ht3)
    as (at_ & E3 & Hs3); [cbn; apply lookup_insert_eq|done|apply Hsig|].
  eexists _, _, _, _, _. split_and!; [exact E1|exact E2|exact E3|done|]. intros t m tenant rt Ht Hg Hmt Hopt Hten.
  destruct (token_reaches sv t _ _ _ m tenant rt Hs3 Ht Hg Hmt Hopt) as (x & Hx & Hrole & _ & Horg);
    [right; apply (bool_decide_unpack _); vm_compute; exact I|].
  exists x. split_and!; [exact Hx|exact Hrole|]. rewrite Horg. by rewrite bool_decide_eq_true_2.
Qed.
End Handlers.

(** ** group_handler.go *)

Section Groups.
Context (ilike : string → string → bool).
Import ScimStore Directory.Directory.

Inductive group_reply := GErr (status : Z) (msg : string) | GGroups (l : list SCIMGroup) | GGroup (status : Z) (g : SCIMGroup) | GNoContent
| GImported (r : Directory.Directory.dreply).

Definition ListGroups_ (e : env) (c : context) (search : string) (d : DB) : group_reply :=
  match ListGroupsForOrg ilike e d (GetString c "org_id") search 1 500 with
  | Err _ => GErr 500 "failed to list groups"
  | Ok (l, _) => GGroups l
  end.
Definition CreateGroup_ (e : env) (c : context) (displayName : option string) (d : DB) : DB * group_reply :=
  match displayName with
  | None => (d, GErr 400 "display_name is required")
  | Some n =>
      match CreateGroup e 0 d (mkGroup "" (GetString c "org_id") n "" "" "local" false [] None None) with
      | (d, Err _) => (d, GErr 400 "failed to create group")
      | (d, Ok g) => (d, GGroup 201 g)
      end
  end.
Definition UpdateGroup_ (e : env) (c : context) (id : string) (displayName : option string) (d : DB) : DB * group_reply :=
  match displayName with
  | None => (d, GErr 400 "display_name is required")
  | Some n =>
      match UpdateGroupForOrg e d (GetString c "org_id") id n with
      | (d, Err _) => (d, GErr 404 "group not found")
      | (d, Ok g) => (d, GGroup 200 g)
      end
  end.
Definition DeleteGroup_ (e : env) (c : context) (id : string) (d : DB) : DB * group_reply :=
  match DeleteGroupForOrg e d (GetString c "org_id") id with
  | (d, Err _) => (d, GErr 404 "group not found")
  | (d, Ok _) => (d, GNoContent)
  end.

(** [CImportG]: the surroundings of the statements of the reconciliation, the configured connector. *)
Inductive group_call :=
| CListG (search : string) | CCreateG (name : option string) | CUpdateG (id : string) (name : option string) | CDeleteG (id : string)
| CImportG (e : Connector.Connector.env) (connector id : string) (body : option bool).
Definition group_route (k : group_call) : route :=
  match k with
  | CListG _ => R_ "GET" "/api/v1/groups" [GJWT; GWrite] "groupHandler.ListGroups"
  | CCreateG _ => R_ "POST" "/api/v1/groups" [GJWT; GWrite] "groupHandler.CreateGroup"
  | CUpdateG _ _ => R_ "PUT" "/api/v1/groups/:id" [GJWT; GWrite] "groupHandler.UpdateGroup"
  | CDeleteG _ => R_ "DELETE" "/api/v1/groups/:id" [GJWT; GWrite] "groupHandler.DeleteGroup"
  | CImportG _ _ _ _ => R_ "PUT" "/api/v1/groups/:id/import" [GJWT; GWrite] "inline"
  end.
Definition on_scim (w : world) (x : DB * group_reply) : world * group_reply := (with_scim w (fst x), snd x).
Definition group_handle (e : env) (c : context) (k : group_call) (w : world) : world * group_reply :=
  match k with
  | CListG q => (w, ListGroups_ e c q (scim w))
  | CCreateG n => on_scim w (CreateGroup_ e c n (scim w))
  | CUpdateG id n => on_scim w (UpdateGroup_ e c id n (scim w))
  | CDeleteG id => on_scim w (DeleteGroup_ e c id (scim w))
  | CImportG de connector id b => let '(w, r) := import_group de e connector w id b in (w, GImported r)
  end.
Definition group_serve (sv : services) (req : request) (e : env) (k : group_call) (w : world) : world * group_reply :=
  match dispatch sv (group_route k) req with
  | Abort status msg _ => (w, GErr status msg)
  | Next x => group_handle e x k w
  end.

Lemma group_registered cfg k : group_route k ∈ routes cfg.
Proof.
  assert (group_route k ∈ groupAPI) as Hin by (destruct k; (apply (bool_decide_unpack _); vm_compute; exact I)).
  unfold routes. rewrite !elem_of_app. tauto.
Qed.

(** The organization of a caller that is not a super_admin is that of the token. *)
Lemma group_org sv k req x : dispatch sv (group_route k) req = Next x →
  ∃ tok c, bearer req = Some tok ∧ s_token sv tok = Some c
    ∧ (claim_string c "role" ≠ "super_admin" → GetString x "org_id" = claim_string c "org_id").
Proof.
  assert (r_guards (group_route k) = [GJWT; GWrite]) as Hg by by destruct k.
  unfold dispatch. rewrite run_app, Hg. destruct (run (global sv) req new_context) as [c0|] eqn:E0; [|done].
  apply global_Next in E0 as (id & o & ->). cbn [fmap list_fmap run interp].
  destruct (JWTAuth _ _ _) as [c1|] eqn:E1; [|done]. apply JWTAuth_Next in E1 as (f & tok & c & [= <-] & Hb & Hf & ->).
  intros E2. assert (x = scope_tenant req (set_claim c "email" "email" (set_claim c "role" "role" (set_org c (set_claim c "sub" "user_id"
    (mkCtx {["request_id" := id]} o)))))) as ->.
  { revert E2. unfold RequireWriteAccess. destruct (safe_method _); [by intros [= <-]|]. cbv zeta. destruct (bool_decide _); [by intros [= <-]|done]. }
  exists tok, c. split_and!; [done..|]. intros Hns. set (y := set_claim c "email" "email" _). rewrite GetString_scope. cbv zeta.
  assert (GetString y "role" = claim_string c "role") as ->.
  { subst y. ctx. unfold claim_string. by destruct (c !! "role") as [[]|], (c !! "org_id") as [[]|]. }
  rewrite (bool_decide_eq_false_2 (claim_string c "role" = "super_admin")) by done. rewrite andb_false_r. cbn [andb].
  subst y. ctx. unfold claim_string. by destruct (c !! "org_id") as [[]|].
Qed.

Definition answered_for (o : string) (r : group_reply) : Prop :=
  match r with GGroups l => Forall (λ g, g_OrgID g = o) l | GGroup _ g => g_OrgID g = o | _ => True end.

Lemma load_group_org ok d id r g : load_group ok d id r = Ok g → g_OrgID g = r_org r.
Proof. unfold load_group. by destruct (getGroupMembers _ _ _); intros [= <-]. Qed.
Lemma load_groups_org e k d b l gs o : load_groups e k d b l = Ok gs → Forall (λ kv, r_org (snd kv) = o) l → Forall (λ g, g_OrgID g = o) gs.
Proof.
  revert k gs. induction l as [|[id r] l IH]; intros k gs E Hl; cbn in E; [by simplify_eq|]. apply Forall_cons in Hl as [Hr Hl].
  destruct (load_group _ _ _ _) as [g|] eqn:Eg; [|done]. destruct (load_groups _ _ _ _ l) as [gs'|] eqn:El; [|done]. injection E as <-.
  constructor; [|by eapply IH]. cbn. rewrite (load_group_org _ _ _ _ _ Eg). exact Hr.
Qed.
Lemma list_groups_org e d b o f i n gs k :
  list_groups ilike e d b (λ r, bool_decide (r_org r = o)) f i n = Ok (gs, k) → Forall (λ g, g_OrgID g = o) gs.
Proof.
  unfold list_groups, list_page. destruct (e_ok e 0 && e_ok e 1); [|done].
  destruct (load_groups _ _ _ _ _) as [l|] eqn:El; [|done]. intros [= <- _]. apply (load_groups_org _ _ _ _ _ _ _ El).
  apply Forall_forall. intros [id r] Hin%elem_of_page. apply elem_of_select in Hin as [_ Hp]. apply andb_true_iff in Hp as [Hp _].
  by apply bool_decide_eq_true in Hp.
Qed.

(** The organization whose groups a call may change: that of the caller, but that of the system when a
    directory group is selected for import. *)
Definition system_org : string := "a0000000-0000-0000-0000-000000000001".
Definition writes_to (k : group_call) (o : string) : string := match k with CImportG _ _ _ _ => system_org | _ => o end.

Lemma create_scoped e x n d :
  let o := GetString x "org_id" in same_elsewhere o d (fst (CreateGroup_ e x n d)) ∧ answered_for o (snd (CreateGroup_ e x n d)).
Proof.
  cbv zeta. destruct n as [n|]; cbn; [|done]. unfold CreateGroup. destruct (_ && _) eqn:Hc; cbn; [|done].
  split; [|done]. apply elsewhere_insert; [done|]. intros g Hg. rewrite !andb_true_iff, bool_decide_eq_true in Hc. naive_solver.
Qed.
Lemma update_scoped e x id n d :
  let o := GetString x "org_id" in same_elsewhere o d (fst (UpdateGroup_ e x id n d)) ∧ answered_for o (snd (UpdateGroup_ e x id n d)).
Proof.
  cbv zeta. set (o := GetString x "org_id"). destruct n as [n|]; cbn; [|done]. fold o. unfold UpdateGroupForOrg, update_group. destruct (e_ok e 0); [|done].
  destruct (groups d !! id) as [g|] eqn:Hg; [|done]. cbn [negb]. case_bool_decide as Ho; [|done]. cbn [negb].
  destruct (group_writable _ _ _); [|done]. destruct (load_group _ _ _ _) as [g'|x0] eqn:El; cbn; (split; [apply elsewhere_insert; [done|intros y Hy; rewrite Hg in Hy; by injection Hy as <-]|]); [|done].
  by rewrite (load_group_org _ _ _ _ _ El).
Qed.
Lemma delete_scoped e x id d :
  let o := GetString x "org_id" in same_elsewhere o d (fst (DeleteGroup_ e x id d)) ∧ answered_for o (snd (DeleteGroup_ e x id d)).
Proof.
  cbv zeta. set (o := GetString x "org_id"). unfold DeleteGroup_, DeleteGroupForOrg, delete_group. fold o. destruct (e_ok e 0); [|done].
  destruct (groups d !! id) as [g|] eqn:Hg; [|done]. cbn [negb]. case_bool_decide as Ho; [|done]. split; [|done]. apply elsewhere_delete. intros y Hy. rewrite Hg in Hy. by injection Hy as <-.
Qed.
Lemma import_scoped de e connector w id b : tenancy (scim w) → same_elsewhere system_org (scim w) (scim (fst (import_group de e connector w id b))).
Proof.
  intros Ht. destruct b as [b|]; [|done]. unfold import_group.
  pose proof (step_tenancy (λ _, True) (λ _, True) (scim w) _ (s_import _ _ (scim w) e SystemThreatOrgID id b I) Ht) as H2.
  assert (H1 : same_elsewhere system_org (scim w) (fst (SetGroupImportEnabled e (scim w) SystemThreatOrgID id b))).
  { unfold SetGroupImportEnabled. destruct (negb _); [done|]. destruct (groups (scim w) !! id) as [g|] eqn:Hg; [|done].
    destruct (_ && _) eqn:Hc; [|done]. apply andb_true_iff in Hc as [Ho%bool_decide_eq_true _]. apply elsewhere_insert; [done|]. intros y Hy. rewrite Hg in Hy. by injection Hy as <-. }
  destruct (SetGroupImportEnabled _ _ _ _ _) as [db [[]|msg]]; [|done]. cbn [fst] in H1, H2.
  pose proof (reconcile_elsewhere system_org de (with_scim w db) connector "" H2) as H3. change system_org with SystemThreatOrgID in H3.
  destruct (Reconcile _ _ _ _ _) as [w' res]. cbn in *. by etrans.
Qed.

(** C35: Groups stay within their tenant, but for one route.  Whatever a caller asks of the group
    interface with a token that is not a super_admin's, only groups of one organization and their members
    change: for the routes that list, create, rename and delete groups the organization of the token,
    and what they show are groups of that organization; for the route that selects a directory group
    for import, whatever the token's organization, that of the system, whose members it reconciles (in
    a database in which the members of groups are users of the groups' organizations). *)
Theorem groups_scoped sv req e k w w' r tok c :
  bearer req = Some tok → s_token sv tok = Some c → claim_string c "role" ≠ "super_admin" →
  group_serve sv req e k w = (w', r) → tenancy (scim w) →
  same_elsewhere (writes_to k (claim_string c "org_id")) (scim w) (scim w') ∧ answered_for (claim_string c "org_id") r.
Proof.
  intros Hb Ht Hns. unfold group_serve. destruct (dispatch sv (group_route k) req) as [x|] eqn:E; [|by intros [= <- <-]].
  destruct (group_org sv k req x E) as (tok' & c' & Hb' & Ht' & Ho). simplify_eq. rewrite <- Ho by done. intros Hs Hten.
  destruct k as [q|n|id n|id|de connector id b]; cbn [group_handle] in Hs.
  - injection Hs as <- <-. split; [done|]. unfold ListGroups_, ListGroupsForOrg. case_bool_decide; [done|].
    destruct (list_groups _ _ _ _ _ _ _ _) as [[l m]|] eqn:El; [|done]. by eapply list_groups_org.
  - injection Hs as <- <-. apply create_scoped.
  - injection Hs as <- <-. apply update_scoped.
  - injection Hs as <- <-. apply delete_scoped.
  - pose proof (import_scoped de e connector w id b Hten) as Hi. destruct (import_group _ _ _ _ _ _) as [w1 r1]. by injection Hs as <- <-.
Qed.
End Groups.

(** ** Witnesses *)

Section Witness.
#[local] Existing Instance toy_jwt.

Definition demo_login : loginRequest := mkLoginRequest " Ann@Example.com" "pw".
Definition demo_first : visit := via "POST" "" "" 1000 w_env.
Definition demo_session : DB * reply := serve w_compare (λ _ _, true) w_secret demo_services demo_first (CLogin (Some demo_login)) w_db.
Definition demo_token : string := match snd demo_session with WLogin l => AccessToken l | _ => "" end.

Lemma login_session_witness : ∃ u,
  serve w_compare (λ _ _, true) w_secret demo_services (via "GET" demo_token "" (1500 * nanos) w_env') CMe (fst demo_session)
    = (fst demo_session, WUser u) ∧ ID u = "u1" ∧ Role u = "org_admin" ∧ Status u = "active".
Proof.
  destruct demo_session as [s1 rep] eqn:E. assert (∃ l, rep = WLogin l ∧ demo_token = AccessToken l) as (l & -> & ->).
  { unfold demo_token. rewrite E. cbn. destruct rep as [|l| | |]; try (revert E; by vm_compute). by exists l. }
  destruct (login_session w_compare (λ _ _, true) w_secret demo_services demo_first (Some demo_login) w_db s1 l w_schema E)
    as (req & r & [= <-] & (Hr & _) & Hu & H).
  assert (r = w_row) as ->. { cbn in Hr. by apply lookup_singleton_Some in Hr as [_ <-]. }
  destruct (H (1500 * nanos)%Z "") as [Hme _]; [by vm_compute|].
  destruct (Hme w_env' s1 (set_last_login (e_clk w_env 1) w_row)) as (u & E' & H'); [done..| |by exists u].
  revert E. vm_compute. by intros [= <- _].
Defined.

Lemma self_promotion_witness : ∃ s1 l1 s2 u l3,
  serve w_compare (λ _ _, true) w_secret demo_services demo_first (CLogin (Some demo_login)) w_db = (s1, WLogin l1)
  ∧ serve w_compare (λ _ _, true) w_secret demo_services (via "PUT" (AccessToken l1) "" (1100 * nanos) w_env') (promote w_row) s1 = (s2, WUser u)
  ∧ serve w_compare (λ _ _, true) w_secret demo_services (via "POST" "" "" (1200 * nanos) w_env') (CRefresh (Some (RefreshToken l1))) s2 = (s2, WLogin l3)
  ∧ Role (User l3) = "super_admin".
Proof.
  destruct (self_promotion w_compare (λ _ _, true) w_secret demo_services w_db w_row demo_login w_env w_env' w_env'
    1000 (1100 * nanos) (1200 * nanos) [x01; x02] w_schema) as (s1 & l1 & s2 & u & l3 & E1 & E2 & E3 & Hr & _).
  - split_and!; try by_evaluation; try done. by exists "hash:pw".
  - by_evaluation.
  - intros now u. by eexists.
  - done.
  - done.
  - done.
  - by vm_compute.
  - by vm_compute.
  - by exists s1, l1, s2, u, l3.
Defined.

Definition demo_group (org : string) : ScimStore.group_row := ScimStore.mkGroupRow org "staff" None None "local" false 0 0.
Definition demo_member (org : string) : ScimStore.admin_row := ScimStore.mkAdmin org "a@b.c" "A" "org_admin" "active" None 0 0.
Definition demo_groups : ScimStore.DB :=
  ScimStore.mkDB {["u1" := demo_member "acme"; "u2" := demo_member "globex"]} ∅ {["g1" := demo_group "acme"; "g2" := demo_group "globex"]} {[("u1", "g1"); ("u2", "g2")]} ∅ [] {["acme"; "globex"]} [].
Definition demo_admin : services :=
  mkServices (λ _, Some (demo_claims "org_admin")) false (λ _, None) (λ _, None) demo_device (λ _, None) (λ _, "") (of_string "rand").
Definition demo_world : Directory.Directory.world := Directory.Directory.mkWorld demo_groups (Directory.Directory.conn Directory.Directory.demo_world).
Lemma demo_tenancy : ScimStore.tenancy demo_groups.
Proof.
  split; intros u g Hug.
  - change (ScimStore.admin_groups demo_groups) with ({[("u1", "g1")]} ∪ {[("u2", "g2")]} : gset (string * string)) in Hug.
    rewrite elem_of_union, !elem_of_singleton in Hug. destruct Hug as [[= -> ->]|[= -> ->]]; eexists _, _; vm_compute; done.
  - vm_compute in Hug. discriminate Hug.
Qed.
Lemma groups_scoped_witness :
  let w' := fst (group_serve (λ _ _, true) demo_admin (bearer_request "DELETE" "t" "globex") (ScimStore.mkEnv 5 "g3" (λ _, true) canonical_order)
                   (CDeleteG "g2") demo_world) in
  ScimStore.groups (Directory.Directory.scim w') !! "g2" = Some (demo_group "globex").
Proof.
  cbv zeta. destruct (group_serve _ _ _ _ _ _) as [w' r] eqn:E.
  destruct (groups_scoped (λ _ _, true) demo_admin (bearer_request "DELETE" "t" "globex") _ _ _ w' r "t" (demo_claims "org_admin")
    (bearer_bearer_request _ _ _) eq_refl ltac:(by vm_compute) E demo_tenancy) as [H _].
  apply (H "g2" (demo_group "globex")); [by vm_compute|]. by vm_compute.
Defined.
(** An administrator of one tenant selects a directory group of the system's organization, and its users become client
    users of that organization. *)
Definition demo_system : Directory.Directory.world :=
  Directory.Directory.mkWorld
    (ScimStore.mkDB ∅ ∅ {["n1" := ScimStore.mkGroupRow system_org "Sales" (Some "g1") None "ldap" false 1 1]} ∅ ∅ [] {[system_org]} [])
    (Directory.Directory.conn Directory.Directory.demo_world).
Example import_by_another_tenant :
  let w' := fst (group_serve (λ _ _, true) demo_admin (bearer_request "PUT" "t" "") (ScimStore.mkEnv 5 "g3" (λ _, true) canonical_order)
                   (CImportG (Connector.Connector.demo_env 9) "ad" "n1" (Some true)) demo_system) in
  claim_string (demo_claims "org_admin") "org_id" = "acme"
  ∧ ScimStore.r_import <$> ScimStore.groups (Directory.Directory.scim w') !! "n1" = Some true
  ∧ ScimStore.c_org <$> ScimStore.clients (Directory.Directory.scim w') !! "client0" = Some system_org.
Proof. vm_compute. done. Qed.
End Witness.
End AccountApi.
