(* ===== verification/Drs.v ===== *)
(** * Device registration service

    [src/internal/drs/service.go], [handler.go], [windows.go] and the device directory of
    [src/internal/db/oidc_drs_store.go]: devices register, are completed with a certificate, report
    their posture, renew and leave.

    The directory is a map from the identifiers to rows, with the constraints of its migration; the
    join events refer to it.  A request is a sequence of statements ([Interleave]) behind the
    middleware of its route ([Routes]); none of these routes has a guard.  Columns that may be null
    are options; those no statement writes (owner) stay null and are left out.  [uuid] is the
    database's reading of a text as an identifier.  Errors of the database keep only the text the
    service puts before them.  Bodies are what the decoders give.  The administrators'
    password check is that of [Oidc]. *)

From S2P Require Import Prelude GoStrings GoTime Encoding Sha256 Sql AuthStore Access Routes Oidc Interleave.
From Stdlib Require Import Ascii.
#[local] Open Scope string_scope.
#[local] Open Scope nat_scope.
#[local] Open Scope list_scope.

Module Drs.
Import GoStrings GoTime Sql Access Routes Interleave.

(** ** Data *)

Record DeviceDirectory := mkDevice {
  ID : string; OrgID : string; DeviceID : string; DisplayName : string; OperatingSystem : string; OSVersion : string;
  JoinType : string; JoinStatus : string; CertSubject : string; CertSerial : string; CertFingerprintSHA256 : string;
  CertNotAfter : option Z; CertIssuer : string; EntraDeviceID : string; TenantID : string; OwnerUserID : string; OwnerEmail : string;
  Managed : bool; Compliant : bool; DiskEncrypted : bool; FirewallActive : bool; LastPostureCheck : option Z;
  CreatedAt : Z; UpdatedAt : Z; LastSeen : option Z;
}.
Record row := mkRow {
  r_org : string; r_device : string; r_name : string; r_os : string; r_version : string; r_type : string; r_status : string;
  r_subject : option string; r_serial : option string; r_fingerprint : option string; r_not_after : option Z; r_issuer : option string;
  r_entra : string; r_tenant : string; r_managed : bool; r_compliant : bool; r_disk : bool; r_firewall : bool; r_posture : option Z;
  r_created : Z; r_updated : Z; r_seen : option Z;
}.
Record join_event := mkEvent {
  ev_device : string; ev_type : string; ev_actor : string; ev_actor_id : string; ev_fingerprint : string;
  ev_details : option (list (string * string)); ev_at : Z;
}.
Record DB := mkDB { devices : gmap string row; events : list join_event; oidc : Oidc.Oidc.DB }.
Definition with_devices (m : gmap string row) (d : DB) : DB := mkDB m (events d) (oidc d).

Record RegisterRequest := mkRegister { q_DeviceName : string; q_OS : string; q_OSVersion : string; q_CSRPEM : string }.
Record RegisterResponse := mkRegistered { DeviceCode : string; UserCode : string; VerificationURI : string; Interval : Z; ExpiresIn : Z }.
Record PollResponse := mkPoll { p_Status : string; p_DeviceID : string; Token : string; CAURL : string; CAFingerprint : string }.
Record CompleteResponse := mkComplete { DeviceJWT : string; ExpiresAt : string; c_DeviceID : string }.

(** [codes]: the random bytes of a request (those of the user code are four), [None] when the source
    fails; [clk]: the readings of the
    clock, [db_now] that of the database; [ok i]: the statement [i] reaches the database. *)
Record env := mkEnv {
  new_id : string; new_entra : string; db_now : Z; clk : nat → Z; ok : nat → bool; order : range_order;
  codes : option (bytes * (byte * byte * byte * byte)); prt_bytes : option bytes;
}.
Record config := mkConfig { caURL : string; caFP : string; oidcISS : string }.

Section Service.
Context (uuid : string → option string) (compare : string → string → bool) (cfg : config) (sv : services).

(** ** The directory (oidc_drs_store.go) *)

Definition scan_device (id : string) (r : row) : DeviceDirectory :=
  mkDevice id (r_org r) (r_device r) (r_name r) (r_os r) (r_version r) (r_type r) (r_status r) (default "" (r_subject r))
    (default "" (r_serial r)) (default "" (r_fingerprint r)) (r_not_after r) (default "" (r_issuer r)) (r_entra r) (r_tenant r) "" ""
    (r_managed r) (r_compliant r) (r_disk r) (r_firewall r) (r_posture r) (r_created r) (r_updated r) (r_seen r).
Definition insert_row (e : env) (dev : DeviceDirectory) : row :=
  mkRow (OrgID dev) (DeviceID dev) (DisplayName dev) (OperatingSystem dev) (OSVersion dev) (JoinType dev) (JoinStatus dev)
    None None None None None (new_entra e) (TenantID dev) false false false false None (db_now e) (db_now e) None.
Definition named (org device : string) (_ : string) (r : row) : bool := bool_decide (r_org r = org) && bool_decide (r_device r = device).
Definition insertable (e : env) (dev : DeviceDirectory) (d : DB) : bool :=
  fits 64 (OrgID dev) && fits 255 (DeviceID dev) && fits 255 (DisplayName dev) && fits 64 (OperatingSystem dev) && fits 64 (OSVersion dev)
  && fits 32 (JoinType dev) && fits 32 (JoinStatus dev) && fits 64 (TenantID dev)
  && bool_decide (devices d !! new_id e = None) && negb (existsb (λ kv, named (OrgID dev) (DeviceID dev) (fst kv) (snd kv)) (map_to_list (devices d))).
Definition CreateDevice (e : env) (i : nat) (dev : DeviceDirectory) : prog DB bool :=
  stmt (λ d, if ok e i && insertable e dev d then (with_devices (<[new_id e := insert_row e dev]> (devices d)) d, true) else (d, false)).
Definition find_device (ro : range_order) (org device : string) (d : DB) : option (string * row) :=
  head (select ro (named org device) (devices d)).
Definition GetDevice (e : env) (i : nat) (org device : string) : prog DB (option DeviceDirectory) :=
  query (λ d, if ok e i then uncurry scan_device <$> find_device (order e) org device d else None).
Definition GetDeviceByFingerprint (e : env) (i : nat) (fp : string) : prog DB (option DeviceDirectory) :=
  query (λ d, if ok e i then uncurry scan_device <$> head (select (order e) (λ _ r, bool_decide (r_fingerprint r = Some fp)) (devices d)) else None).

Definition set_device (t : Z) (dev : DeviceDirectory) (r : row) : row :=
  mkRow (r_org r) (r_device r) (r_name r) (r_os r) (r_version r) (r_type r) (JoinStatus dev) (Some (CertSubject dev)) (Some (CertSerial dev))
    (Some (CertFingerprintSHA256 dev)) (r_not_after r) (Some (CertIssuer dev)) (r_entra r) (r_tenant r) (Managed dev) (Compliant dev)
    (DiskEncrypted dev) (FirewallActive dev) (r_posture r) (r_created r) t (Some t).
Definition UpdateDevice (e : env) (i : nat) (dev : DeviceDirectory) : prog DB bool :=
  stmt (λ d, if ok e i && fits 32 (JoinStatus dev) && fits 512 (CertSubject dev) && fits 128 (CertSerial dev)
               && fits 128 (CertFingerprintSHA256 dev) && fits 256 (CertIssuer dev)
    then (with_devices (alter (set_device (db_now e) dev) (ID dev) (devices d)) d, true) else (d, false)).
(** An update of the rows of one device. *)
Definition update_named (org device : string) (f : row → row) (d : DB) : DB :=
  with_devices (map_imap (λ k r, Some (if named org device k r then f r else r)) (devices d)) d.
Definition set_cert (t : Z) (subject serial fp : string) (notAfter : Z) (r : row) : row :=
  mkRow (r_org r) (r_device r) (r_name r) (r_os r) (r_version r) (r_type r) (r_status r) (Some subject) (Some serial) (Some fp) (Some notAfter)
    (Some "step-ca") (r_entra r) (r_tenant r) (r_managed r) (r_compliant r) (r_disk r) (r_firewall r) (r_posture r) (r_created r) t (r_seen r).
Definition UpdateDeviceCert (e : env) (i : nat) (org device subject serial fp : string) (notAfter : Z) : prog DB bool :=
  stmt (λ d, if ok e i && fits 512 subject && fits 128 serial && fits 128 fp
    then (update_named org device (set_cert (db_now e) subject serial fp notAfter) d, true) else (d, false)).
Definition set_posture (t : Z) (managed compliant disk firewall : bool) (r : row) : row :=
  mkRow (r_org r) (r_device r) (r_name r) (r_os r) (r_version r) (r_type r) (r_status r) (r_subject r) (r_serial r) (r_fingerprint r)
    (r_not_after r) (r_issuer r) (r_entra r) (r_tenant r) managed compliant disk firewall (Some t) (r_created r) t (r_seen r).
Definition UpdateDevicePosture (e : env) (i : nat) (org device : string) (managed compliant disk firewall : bool) : prog DB bool :=
  stmt (λ d, if ok e i then (update_named org device (set_posture (db_now e) managed compliant disk firewall) d, true) else (d, false)).
Definition set_deleted (t : Z) (r : row) : row :=
  mkRow (r_org r) (r_device r) (r_name r) (r_os r) (r_version r) (r_type r) "deleted" (r_subject r) (r_serial r) (r_fingerprint r)
    (r_not_after r) (r_issuer r) (r_entra r) (r_tenant r) (r_managed r) (r_compliant r) (r_disk r) (r_firewall r) (r_posture r) (r_created r) t (r_seen r).
Definition DeleteDevice (e : env) (i : nat) (org device : string) : prog DB bool :=
  stmt (λ d, if ok e i then (update_named org device (set_deleted (db_now e)) d, true) else (d, false)).
(** The identifier is one of the directory. *)
Definition LogJoinEvent (e : env) (i : nat) (device type_ actor actorID fp : string) (details : option (list (string * string))) : prog DB bool :=
  stmt (λ d, match uuid device with
    | Some id => if ok e i && bool_decide (is_Some (devices d !! id)) && fits 32 type_ && fits 32 actor && fits 128 actorID && fits 128 fp
        then (mkDB (devices d) (events d ++ [mkEvent id type_ actor actorID fp details (db_now e)]) (oidc d), true) else (d, false)
    | None => (d, false)
    end).
Definition AuthenticateUser (e : env) (i : nat) (email password : string) : prog DB (option Oidc.Oidc.UserInfo) :=
  query (λ d, Oidc.Oidc.AuthenticateUser compare (order e) (ok e i) (ok e (S i)) (oidc d) email password).

(** ** The service (service.go) *)

Definition digitX (n : Z) : ascii := ascii_of_N (Z.to_N (if (n <? 10)%Z then 48 + n else 55 + n)).
(** [%04X] of a slice of bytes. *)
Fixpoint hexX (l : bytes) : string :=
  match l with [] => "" | b :: l => String (digitX (u8 b / 16)) (String (digitX (u8 b `mod` 16)) (hexX l)) end.
Fixpoint zeros (n : nat) : string := match n with 0 => "" | S n => String "0" (zeros n) end.
Definition padX (s : string) : string := zeros (4 - String.length s) +:+ s.
Definition generateCodes (e : env) : option (string * string) :=
  match codes e with
  | None => None
  | Some (dc, (b0, b1, b2, b3)) => Some (Base64.encode_raw true dc, padX (hexX [b0; b1]) +:+ "-" +:+ padX (hexX [b2; b3]))
  end.

Definition pending_device (org userCode : string) (q : RegisterRequest) : DeviceDirectory :=
  mkDevice "" org userCode (q_DeviceName q) (q_OS q) (q_OSVersion q) "registered" "pending" "" "" "" None "" "" org "" ""
    false false false false None zero_time zero_time None.
Definition Register (e : env) (i : nat) (org : string) (q : RegisterRequest) : prog DB (result string RegisterResponse) :=
  if bool_decide (q_DeviceName q = "") || bool_decide (q_OS q = "") || bool_decide (q_CSRPEM q = "")
  then Ret (Err "device_name, os_type, and csr_pem are required")
  else
    match generateCodes e with
    | None => Ret (Err "failed to generate codes: ")
    | Some (deviceCode, userCode) =>
        bind (CreateDevice e i (pending_device org userCode q)) (λ b,
        Ret (if b then Ok (mkRegistered deviceCode userCode (oidcISS cfg +:+ "/device?user_code=" +:+ userCode) 5 900)
             else Err "failed to create device: "))
    end.

Definition generateDeviceJWT (t : Z) (dev : DeviceDirectory) (issuer : string) : string :=
  let q := String Json.dq EmptyString in
  let field k v := q +:+ k +:+ q +:+ ":" +:+ q +:+ v +:+ q +:+ "," in
  let header := "{" +:+ q +:+ "alg" +:+ q +:+ ":" +:+ q +:+ "HS256" +:+ q +:+ "," +:+ q +:+ "typ" +:+ q +:+ ":" +:+ q +:+ "JWT" +:+ q +:+ "}" in
  let payload := "{" +:+ field "sub" (DeviceID dev) +:+ field "iss" issuer +:+ field "device_id" (ID dev) +:+ field "org_id" (OrgID dev)
                 +:+ field "join_type" (JoinType dev) +:+ q +:+ "iat" +:+ q +:+ ":" +:+ itoa (t / second) +:+ "," +:+ q +:+ "exp" +:+ q +:+ ":"
                 +:+ itoa ((t + 900 * second) / second) +:+ "}" in
  let h := Base64.encode_raw true (of_string header) in
  let p := Base64.encode_raw true (of_string payload) in
  h +:+ "." +:+ p +:+ "." +:+ Base64.encode_raw true (Sha256.sha256 (of_string (h +:+ "." +:+ p +:+ ".drs-secret"))).

(** The device as [CompleteFinalize] and [Deregister] write it back. *)
Definition completed (t : Z) (fp serial : string) (x : DeviceDirectory) : DeviceDirectory :=
  mkDevice (ID x) (OrgID x) (DeviceID x) (DisplayName x) (OperatingSystem x) (OSVersion x) (JoinType x) "active" (CertSubject x) serial fp
    (CertNotAfter x) "step-ca" (EntraDeviceID x) (TenantID x) (OwnerUserID x) (OwnerEmail x) (Managed x) (Compliant x) (DiskEncrypted x)
    (FirewallActive x) (LastPostureCheck x) (CreatedAt x) t (Some t).
Definition removed (x : DeviceDirectory) : DeviceDirectory :=
  mkDevice (ID x) (OrgID x) (DeviceID x) (DisplayName x) (OperatingSystem x) (OSVersion x) (JoinType x) "deleted" (CertSubject x) (CertSerial x)
    (CertFingerprintSHA256 x) (CertNotAfter x) (CertIssuer x) (EntraDeviceID x) (TenantID x) (OwnerUserID x) (OwnerEmail x) (Managed x)
    (Compliant x) (DiskEncrypted x) (FirewallActive x) (LastPostureCheck x) (CreatedAt x) (UpdatedAt x) (LastSeen x).

Definition CompleteFinalize (e : env) (org device fp serial : string) : prog DB (result string CompleteResponse) :=
  bind (GetDevice e 0 org device) (λ o,
  match o with
  | None => Ret (Err "device not found")
  | Some x =>
      let t := clk e 0 in
      let dev := completed t fp serial x in
      bind (UpdateDevice e 1 dev) (λ b,
      if negb b then Ret (Err "failed to update device: ")
      else
        bind (LogJoinEvent e 2 (ID dev) "join" "user" org fp None) (λ _,
        Ret (Ok (mkComplete (generateDeviceJWT (clk e 1) dev (oidcISS cfg)) (RFC3339 (t + 900 * second)) (ID dev)))))
  end).
Definition GetDeviceByCert (e : env) (fp : string) : prog DB (option DeviceDirectory) := GetDeviceByFingerprint e 0 fp.
Definition RenewCert (e : env) (org device : string) : prog DB (result string PollResponse) :=
  bind (GetDevice e 0 org device) (λ o,
  Ret (match o with
       | None => Err "device not found"
       | Some x =>
           if negb (bool_decide (JoinStatus x = "active")) then Err "device is not active"
           else match generateCodes e with
                | None => Err "failed to generate renewal codes: "
                | Some (deviceCode, _) => Ok (mkPoll "pending_renewal" (ID x) deviceCode (caURL cfg) (caFP cfg))
                end
       end)).
Definition UpdatePosture (e : env) (org device : string) (managed compliant disk firewall : bool) : prog DB bool :=
  UpdateDevicePosture e 0 org device managed compliant disk firewall.
Definition Deregister (e : env) (org device : string) : prog DB (result string unit) :=
  bind (GetDevice e 0 org device) (λ o,
  match o with
  | None => Ret (Err "device not found")
  | Some x =>
      bind (UpdateDevice e 1 (removed x)) (λ b,
      if negb b then Ret (Err "")
      else bind (LogJoinEvent e 2 (ID x) "deregister" "admin" org "" None) (λ _, Ret (Ok tt)))
  end).

Definition id_char (c : ascii) : bool :=
  let n := nat_of_ascii c in
  (97 <=? n) && (n <=? 122) || (65 <=? n) && (n <=? 90) || (48 <=? n) && (n <=? 57)
  || Ascii.eqb c "-"%char || Ascii.eqb c "_"%char || Ascii.eqb c "."%char.
Definition ValidateDeviceID (id : string) : bool :=
  negb (bool_decide (id = "")) && (String.length id <=? 255) && forallb id_char (String.list_ascii_of_string id).
Definition NormalizeDeviceID (id : string) : string := ToLower (TrimSpace id).

(** ** The handlers (handler.go) *)

Inductive reply :=
| WErr (status : Z) (msg : string)
| WRegistered (r : RegisterResponse)
| WCompleted (r : CompleteResponse)
| WDevice (x : DeviceDirectory)
| WPoll (r : PollResponse)
| WStatus (msg : string)
| WVerified (user : option (string * string))
| WPreJoined (deviceID : string)
| WJoined (messageID certPEM caRootPEM prt expiresAt deviceID tenantID : string)
| WDocument (fields : list (string * string)).

Definition org_of (x : context) (req : request) : string :=
  if bool_decide (GetString x "org_id" = "") then header req "X-Org-ID" else GetString x "org_id".

Definition Register_ (e : env) (x : context) (req : request) (body : result string RegisterRequest) : prog DB reply :=
  let org := org_of x req in
  if bool_decide (org = "") then Ret (WErr 400 "org_id is required")
  else
    match body with
    | Err msg => Ret (WErr 400 ("invalid request: " +:+ msg))
    | Ok q => bind (Register e 0 org q) (λ r, Ret (match r with Err msg => WErr 400 msg | Ok r => WRegistered r end))
    end.
Record complete_request := mkCompleteRequest { b_DeviceCode : string; b_DeviceID : string; b_CertFingerprint : string; b_CertSerial : string }.
Definition Complete (e : env) (x : context) (req : request) (body : option complete_request) : prog DB reply :=
  match body with
  | None => Ret (WErr 400 "invalid request")
  | Some b =>
      if bool_decide (b_DeviceID b = "") || bool_decide (b_CertFingerprint b = "")
      then Ret (WErr 400 "device_id and cert_fingerprint are required")
      else bind (CompleteFinalize e (org_of x req) (b_DeviceID b) (b_CertFingerprint b) (b_CertSerial b)) (λ r,
           Ret (match r with Err msg => WErr 400 msg | Ok r => WCompleted r end))
  end.
Definition GetDevice_ (e : env) (x : context) (req : request) (id : string) : prog DB reply :=
  bind (GetDevice e 0 (org_of x req) id) (λ o, Ret (match o with None => WErr 404 "device not found" | Some y => WDevice y end)).
Record posture := mkPosture { b_Managed : bool; b_Compliant : bool; b_DiskEncrypted : bool; b_FirewallActive : bool }.
Definition UpdatePosture_ (e : env) (x : context) (req : request) (id : string) (body : option posture) : prog DB reply :=
  match body with
  | None => Ret (WErr 400 "invalid request")
  | Some b =>
      bind (UpdatePosture e (org_of x req) id (b_Managed b) (b_Compliant b) (b_DiskEncrypted b) (b_FirewallActive b)) (λ r,
      Ret (if r then WStatus "updated" else WErr 500 ""))
  end.
Definition RenewCert_ (e : env) (x : context) (req : request) (id : string) : prog DB reply :=
  bind (RenewCert e (org_of x req) id) (λ r, Ret (match r with Err msg => WErr 400 msg | Ok r => WPoll r end)).
Definition Deregister_ (e : env) (x : context) (req : request) (id : string) : prog DB reply :=
  bind (Deregister e (org_of x req) id) (λ r, Ret (match r with Err msg => WErr 400 msg | Ok _ => WStatus "deregistered" end)).

Definition HandleAdminVerify (e : env) (body : option (string * string)) : prog DB reply :=
  match body with
  | None => Ret (WErr 400 "invalid request")
  | Some (email, password) =>
      if bool_decide (email = "") || bool_decide (password = "") then Ret (WErr 400 "email and password are required")
      else bind (AuthenticateUser e 0 email password) (λ u,
           Ret (WVerified ((λ u, (Oidc.Oidc.ui_UserID u, Oidc.Oidc.ui_Email u)) <$> u)))
  end.

Definition hex16 (l : bytes) : string := Hex.encode (take 16 l).
Definition generateDeviceID (millis : Z) (hostname userID : string) : string :=
  "dev-" +:+ hex16 (Sha256.sha256 (of_string (hostname +:+ ":" +:+ userID +:+ ":" +:+ itoa millis))).
(** [stamp]: the text of the clock in the placeholder fingerprint, with its monotonic reading. *)
Definition placeholder_fingerprint (stamp hostname email : string) : string :=
  Base64.encode_raw false (Sha256.sha256 (of_string (hostname +:+ email +:+ stamp))) +:+ "=".
Record join_request := mkJoin { j_Hostname : string; j_OSVersion : string; j_OSType : string; j_JoinType : string; j_Email : string; j_Password : string }.
Definition JoinTypeEntraJoined : string := " entra_joined".
Definition HandleDeviceJoin (e : env) (stamp : string) (body : option join_request) : prog DB reply :=
  match body with
  | None => Ret (WErr 400 "invalid request")
  | Some b =>
      if bool_decide (j_Hostname b = "") || bool_decide (j_Email b = "") then Ret (WErr 400 "hostname and admin_email are required")
      else
        bind (AuthenticateUser e 0 (j_Email b) (j_Password b)) (λ u,
        match u with
        | None => Ret (WErr 401 "admin credential verification failed")
        | Some _ =>
            let org := "a0000000-0000-0000-0000-000000000001" in
            let deviceID := generateDeviceID (clk e 0 / 1000000) (j_Hostname b) (j_Email b) in
            let fp := placeholder_fingerprint stamp (j_Hostname b) (j_Email b) in
            let joinType := if bool_decide (j_JoinType b = "") then JoinTypeEntraJoined else j_JoinType b in
            bind (Register e 2 org (mkRegister (j_Hostname b) (j_OSType b) (j_OSVersion b) "")) (λ _,
            bind (LogJoinEvent e 3 deviceID "pre_join" "admin" (j_Email b) fp
                    (Some [("hostname", j_Hostname b); ("os_version", j_OSVersion b); ("join_type", joinType); ("admin_email", j_Email b)])) (λ _,
            Ret (WPreJoined deviceID)))
        end)
  end.

(** ** Windows (windows.go) *)

Record DeviceJoinRequest := mkWindowsJoin { w_MessageID : string; w_IDToken : string; w_CSRPem : string; w_Hostname : string; w_OSVersion : string; w_JoinType : string }.
Definition extractUserFromToken (token : string) : string :=
  if bool_decide (token = "") then ""
  else match Split "."%char token with [a; _; _] => a | _ => "" end.
Definition extractOrgFromToken (token : string) : string := "default".
Definition issueDeviceCert (csr device org : string) : string * string := ("", "").
Definition generatePRT (e : env) : option (string * string) :=
  (λ b, (Base64.encode_raw true b, RFC3339 (clk e 1 + 14 * 24 * 3600 * second))) <$> prt_bytes e.
Definition windows_HandleDeviceJoin (e : env) (body : option DeviceJoinRequest) : prog DB reply :=
  match body with
  | None => Ret (WErr 400 "invalid XML")
  | Some q =>
      let userID := extractUserFromToken (w_IDToken q) in
      if bool_decide (userID = "") then Ret (WErr 401 "user authentication required")
      else
        let deviceID := generateDeviceID (clk e 0 / 1000000) (w_Hostname q) userID in
        let org := extractOrgFromToken (w_IDToken q) in
        bind (Register e 0 org (mkRegister (w_Hostname q) "windows" (w_OSVersion q) (w_CSRPem q))) (λ r,
        match r with
        | Err msg => Ret (WErr 500 msg)
        | Ok _ =>
            let '(certPEM, caRootPEM) := issueDeviceCert (w_CSRPem q) deviceID org in
            match generatePRT e with
            | None => Ret (WErr 500 "PRT generation failed")
            | Some (prt, expiresAt) =>
                bind (UpdateDeviceCert e 1 org deviceID "" "" certPEM (clk e 2 + 365 * 24 * 3600 * second)%Z) (λ _,
                Ret (WJoined (w_MessageID q) certPEM caRootPEM prt expiresAt deviceID org))
            end
        end)
  end.
(** The join type is set in a copy; the original body is read again. *)
Definition HandleAddWorkAccount (e : env) (body : option DeviceJoinRequest) : prog DB reply :=
  match body with None => Ret (WErr 400 "invalid XML") | Some q => windows_HandleDeviceJoin e (Some q) end.
Definition HandleDeviceJoinStatus (body : option string) : reply :=
  match body with
  | None => WErr 400 "invalid XML"
  | Some id => WDocument [("status", "joined"); ("device_id", id)]
  end.
Definition HandleWindowsHelloAttest (body : option (string * string)) : reply :=
  match body with
  | None => WErr 400 "invalid request"
  | Some (id, keyType) => WDocument [("status", "attested"); ("device_id", id); ("key_type", keyType)]
  end.
Definition HandleMDMEnrollment (tenant device : string) : reply :=
  WDocument [("mdm_enrollment_url", oidcISS cfg +:+ "/mdm/checkin"); ("mdm_management_url", oidcISS cfg +:+ "/mdm/management");
             ("tenant_id", tenant); ("device_id", device)].
Definition SCPResponse : reply :=
  WDocument [("provider_id", "apexaegis-drs"); ("version", "1.0"); ("uri", oidcISS cfg +:+ "/enrollmentserver/devicejoin");
             ("join_uri", oidcISS cfg +:+ "/enrollmentserver/devicejoin"); ("issuer", oidcISS cfg);
             ("sign_in_url", oidcISS cfg +:+ "/authorize?client_id=drs&response_type=code&scope=openid+email+profile")].
Definition HandleAutodiscover : reply :=
  WDocument [("DisplayName", "ApexAegis DRS"); ("UserSetting", "ApexAegis Device Registration");
             ("RegistrationEndpoint", oidcISS cfg +:+ "/enrollmentserver/scp");
             ("DeviceRegistrationServiceEndpoint", oidcISS cfg +:+ "/enrollmentserver/devicejoin")].

(** ** Serving *)

Inductive call :=
| CRegister (e : env) (req : request) (body : result string RegisterRequest)
| CComplete (e : env) (req : request) (body : option complete_request)
| CGet (e : env) (req : request) (id : string)
| CPosture (e : env) (req : request) (id : string) (body : option posture)
| CRenew (e : env) (req : request) (id : string)
| CDeregister (e : env) (req : request) (id : string)
| CVerify (e : env) (req : request) (body : option (string * string))
| CPreJoin (e : env) (req : request) (stamp : string) (body : option join_request)
| CWindows (e : env) (req : request) (body : option DeviceJoinRequest)
| CStatus (req : request) (body : option string)
| CAttest (req : request) (body : option (string * string))
| CEnrollment (req : request) (tenant device : string)
| CScp (req : request)
| CAutodiscover (req : request).
Definition request_of (c : call) : request :=
  match c with
  | CRegister _ q _ | CComplete _ q _ | CGet _ q _ | CPosture _ q _ _ | CRenew _ q _ | CDeregister _ q _ | CVerify _ q _ | CPreJoin _ q _ _
  | CWindows _ q _ | CStatus q _ | CAttest q _ | CEnrollment q _ _ | CScp q | CAutodiscover q => q
  end.
Definition route_of (c : call) : route :=
  match c with
  | CRegister _ _ _ => R_ "POST" "/drs/v1/register" [] "drsHandler.Register"
  | CComplete _ _ _ => R_ "POST" "/drs/v1/complete" [] "drsHandler.Complete"
  | CGet _ _ _ => R_ "GET" "/drs/v1/device/:id" [] "drsHandler.GetDevice"
  | CPosture _ _ _ _ => R_ "PUT" "/drs/v1/device/:id/posture" [] "drsHandler.UpdatePosture"
  | CRenew _ _ _ => R_ "POST" "/drs/v1/device/:id/renew" [] "drsHandler.RenewCert"
  | CDeregister _ _ _ => R_ "DELETE" "/drs/v1/device/:id" [] "drsHandler.Deregister"
  | CVerify _ _ _ => R_ "POST" "/enrollment/admin-verify" [] "drsHandler.HandleAdminVerify"
  | CPreJoin _ _ _ _ => R_ "POST" "/enrollment/device-join" [] "drsHandler.HandleDeviceJoin"
  | CWindows _ _ _ => R_ "POST" "/enrollmentserver/devicejoin" [] "windowsDRSHandler.HandleDeviceJoin"
  | CStatus _ _ => R_ "POST" "/enrollmentserver/devicejoin/status" [] "windowsDRSHandler.HandleDeviceJoinStatus"
  | CAttest _ _ => R_ "POST" "/windows-hello/attest" [] "windowsDRSHandler.HandleWindowsHelloAttest"
  | CEnrollment _ _ _ => R_ "GET" "/mdm/enrollment" [] "windowsDRSHandler.HandleMDMEnrollment"
  | CScp _ => R_ "GET" "/enrollmentserver/scp" [] "windowsDRSHandler.SCPResponse"
  | CAutodiscover _ => R_ "GET" "/autodiscover/autodiscover.xml" [] "windowsDRSHandler.HandleAutodiscover"
  end.
Definition handle (x : context) (c : call) : prog DB reply :=
  match c with
  | CRegister e q b => Register_ e x q b
  | CComplete e q b => Complete e x q b
  | CGet e q id => GetDevice_ e x q id
  | CPosture e q id b => UpdatePosture_ e x q id b
  | CRenew e q id => RenewCert_ e x q id
  | CDeregister e q id => Deregister_ e x q id
  | CVerify e _ b => HandleAdminVerify e b
  | CPreJoin e _ stamp b => HandleDeviceJoin e stamp b
  | CWindows e _ b => windows_HandleDeviceJoin e b
  | CStatus _ b => Ret (HandleDeviceJoinStatus b)
  | CAttest _ b => Ret (HandleWindowsHelloAttest b)
  | CEnrollment _ t d => Ret (HandleMDMEnrollment t d)
  | CScp _ => Ret SCPResponse
  | CAutodiscover _ => Ret HandleAutodiscover
  end.
Definition serve (c : call) : prog DB reply :=
  match dispatch sv (route_of c) (request_of c) with
  | Abort status msg _ => Ret (WErr status msg)
  | Next x => handle x c
  end.

(** The routes are those of the table. *)
Lemma drs_registered cfg' c : route_of c ∈ routes cfg'.
Proof.
  assert (route_of c ∈ drsAPI ++ windows_drs ++ enrollmentGroup) as Hin.
  { destruct c; (apply (bool_decide_unpack _); vm_compute; exact I). }
  unfold routes. rewrite !elem_of_app in *. tauto.
Qed.

(** ** The directory in every interleaving *)

(** The user code a request draws: four bytes in upper-case hexadecimal digits, two and two. *)
Definition nibble (n : Z) : string := String.substring (Z.to_nat n) 1 "0123456789ABCDEF".
Definition two_digits (b : byte) : string := nibble (u8 b / 16) +:+ nibble (u8 b `mod` 16).
Definition user_code (e : env) (code : string) : Prop :=
  ∃ dc b0 b1 b2 b3, codes e = Some (dc, (b0, b1, b2, b3))
    ∧ code = two_digits b0 +:+ two_digits b1 +:+ "-" +:+ two_digits b2 +:+ two_digits b3.

(** What is registered comes from one of the requests [H]: from a registration, for the
    organization its header names, or from a Windows join, for the organization default. *)
Definition registered (H : call → Prop) (org device name os version : string) : Prop :=
  (∃ e req q, H (CRegister e req (Ok q)) ∧ user_code e device ∧ org = header req "X-Org-ID" ∧ org ≠ ""
     ∧ name = q_DeviceName q ∧ os = q_OS q ∧ version = q_OSVersion q ∧ q_CSRPEM q ≠ "")
  ∨ (∃ e req q, H (CWindows e req (Some q)) ∧ user_code e device ∧ org = "default"
     ∧ name = w_Hostname q ∧ os = "windows" ∧ version = w_OSVersion q ∧ w_CSRPem q ≠ "").

Section Sound.
Context (hist : call → Prop).

Definition row_sound (r : row) : Prop :=
  registered hist (r_org r) (r_device r) (r_name r) (r_os r) (r_version r) ∧ r_type r = "registered" ∧ r_tenant r = r_org r
  ∧ (r_status r = "pending" ∨ r_status r = "deleted"
     ∨ r_status r = "active" ∧ ∃ e req b, hist (CComplete e req (Some b)) ∧ r_fingerprint r = Some (b_CertFingerprint b) ∧ b_CertFingerprint b ≠ "").
Definition sound (d : DB) : Prop :=
  map_Forall (λ _ r, row_sound r) (devices d)
  ∧ (∀ i j r r', devices d !! i = Some r → devices d !! j = Some r' → r_org r = r_org r' → r_device r = r_device r' → i = j)
  ∧ Forall (λ ev, is_Some (devices d !! ev_device ev)) (events d).

Lemma digitX_nibble n : (0 ≤ n < 16)%Z → String (digitX n) EmptyString = nibble n.
Proof.
  intros Hn. rewrite <- (Z2Nat.id n) by lia. assert (Hk : Z.to_nat n < 16) by lia. revert Hk. generalize (Z.to_nat n). clear n Hn.
  do 16 (intros [|k]; [done|]; revert k); intros k. lia.
Qed.
Lemma hexX_two b : hexX [b] = two_digits b.
Proof.
  unfold two_digits. pose proof (u8_range b) as Hb. rewrite <- !digitX_nibble; [done|..].
  - apply Z.mod_pos_bound. lia.
  - split; [apply Z.div_pos; lia|apply Z.div_lt_upper_bound; lia].
Qed.
Lemma generate_user_code e dc uc : generateCodes e = Some (dc, uc) → user_code e uc.
Proof.
  unfold generateCodes. destruct (codes e) as [[b [[[b0 b1] b2] b3]]|] eqn:E; [|done]. intros [= _ <-]. exists b, b0, b1, b2, b3. split; [done|].
  by rewrite <- !hexX_two.
Qed.
Lemma code_length e uc : user_code e uc → String.length uc = 9.
Proof. intros (dc & b0 & b1 & b2 & b3 & _ & ->). by rewrite <- !hexX_two. Qed.
Lemma registered_length org device name os version : registered hist org device name os version → String.length device = 9.
Proof. intros [(e & req & q & _ & Hc & _)|(e & req & q & _ & Hc & _)]; by eapply code_length. Qed.
(** The generated identifiers are no user codes. *)
Lemma device_id_length t h u : String.length (generateDeviceID t h u) ≠ 9.
Proof. unfold generateDeviceID, hex16. rewrite length_string_app, Hex.hex_encode_length. cbn. lia. Qed.

Lemma select_named ro org device d i r : devices d !! i = Some r → named org device i r = true → is_Some (find_device ro org device d).
Proof.
  intros Hi Hn. unfold find_device. pose proof (select_head ro (named org device) (devices d)) as H.
  destruct (head _) as [p|]; [by eexists|]. by rewrite (H i r Hi) in Hn.
Qed.

(** *** Statements *)

Lemma sound_create e i d org uc q :
  registered hist org uc (q_DeviceName q) (q_OS q) (q_OSVersion q) → sound d →
  sound (fst (if ok e i && insertable e (pending_device org uc q) d
              then (with_devices (<[new_id e := insert_row e (pending_device org uc q)]> (devices d)) d, true) else (d, false))).
Proof.
  intros Hl (Hr & Hu & He). destruct (ok e i && _) eqn:Hc; [|done]. apply andb_true_iff in Hc as [_ Hc]. unfold insertable in Hc.
  rewrite !andb_true_iff in Hc. destruct Hc as [[_ Hn] Hk]. apply bool_decide_eq_true in Hn. apply negb_true_iff in Hk.
  assert (∀ j r, devices d !! j = Some r → ¬ (r_org r = org ∧ r_device r = uc)) as Hfree.
  { intros j r Hj [<- <-]. assert (existsb (λ kv, named (r_org r) (r_device r) (fst kv) (snd kv)) (map_to_list (devices d)) = true) as Hex; [|cbn in Hk; congruence].
    apply existsb_exists. exists (j, r). split; [by apply list_elem_of_In, elem_of_map_to_list|]. unfold named. by rewrite !bool_decide_eq_true_2. }
  cbn [fst]. split_and!.
  - apply map_Forall_insert_2; [|done]. split_and!; [done..|by left].
  - intros j k r r'. cbn. destruct (decide (new_id e = j)) as [<-|Hj], (decide (new_id e = k)) as [<-|Hk'];
      rewrite ?lookup_insert_eq, ?lookup_insert_ne by done; [done|..].
    + intros [= <-] Hr' E1 E2. by destruct (Hfree k r' Hr').
    + intros Hr' [= <-] E1 E2. by destruct (Hfree j r Hr').
    + apply Hu.
  - eapply Forall_impl; [done|]. intros ev [r Hev]. cbn. destruct (decide (new_id e = ev_device ev)) as [<-|]; [by rewrite lookup_insert_eq|].
    rewrite lookup_insert_ne by done. by eexists.
Qed.
(** A change of rows that leaves their names. *)
Lemma sound_rows (m : gmap string row) d :
  (∀ i, is_Some (devices d !! i) ↔ is_Some (m !! i)) →
  (∀ i r', m !! i = Some r' → ∃ r, devices d !! i = Some r ∧ r_org r' = r_org r ∧ r_device r' = r_device r ∧ (row_sound r → row_sound r')) →
  sound d → sound (with_devices m d).
Proof.
  intros Hdom Hrow (Hr & Hu & He). split_and!.
  - intros i r' Hi. destruct (Hrow i r' Hi) as (r & Hi' & _ & _ & H). by eapply H, Hr.
  - intros i j r r' Hi Hj E1 E2. destruct (Hrow i r Hi) as (x & Hx & O1 & D1 & _), (Hrow j r' Hj) as (y & Hy & O2 & D2 & _).
    apply (Hu i j x y Hx Hy); congruence.
  - eapply Forall_impl; [done|]. intros ev Hev. by apply Hdom.
Qed.
Lemma sound_alter f i d :
  (∀ r, r_org (f r) = r_org r ∧ r_device (f r) = r_device r ∧ (row_sound r → row_sound (f r))) →
  sound d → sound (with_devices (alter f i (devices d)) d).
Proof.
  intros Hf. apply sound_rows.
  - intros j. by rewrite lookup_alter_is_Some.
  - intros j r' Hj. destruct (decide (i = j)) as [->|Hne].
    + rewrite lookup_alter_eq in Hj. apply fmap_Some in Hj as (r & Hr & ->). exists r. split; [done|]. apply Hf.
    + rewrite lookup_alter_ne in Hj by done. by exists r'.
Qed.
Lemma sound_named org device f d :
  (∀ r, r_device r = device → r_org (f r) = r_org r ∧ r_device (f r) = r_device r ∧ (row_sound r → row_sound (f r))) →
  sound d → sound (update_named org device f d).
Proof.
  intros Hf. apply sound_rows.
  - intros j. rewrite map_lookup_imap. destruct (devices d !! j); cbn; [|done]. by split; intros _; eexists.
  - intros j r' Hj. rewrite map_lookup_imap in Hj. destruct (devices d !! j) as [r|] eqn:Hr; [|done]. cbn in Hj. injection Hj as <-.
    exists r. split; [done|]. destruct (named org device j r) eqn:Hn; [|done]. apply Hf. unfold named in Hn.
    apply andb_true_iff in Hn as [_ Hn]. by apply bool_decide_eq_true in Hn.
Qed.
Lemma sound_log e i device ty ac id fp det d : sound d → sound (fst (
  match uuid device with
  | Some u => if ok e i && bool_decide (is_Some (devices d !! u)) && fits 32 ty && fits 32 ac && fits 128 id && fits 128 fp
      then (mkDB (devices d) (events d ++ [mkEvent u ty ac id fp det (db_now e)]) (oidc d), true) else (d, false)
  | None => (d, false)
  end)).
Proof.
  intros (Hr & Hu & He). destruct (uuid device) as [u|]; [|done]. destruct (_ && fits 128 fp) eqn:Hc; [|done].
  rewrite !andb_true_iff, bool_decide_eq_true in Hc. split_and!; [done..|]. cbn. apply Forall_app. split; [done|]. constructor; [apply Hc|done].
Qed.

Lemma keeps_log e i device ty ac id fp det : keeps sound (LogJoinEvent e i device ty ac id fp det).
Proof. apply keeps_one. intros d. apply sound_log. Qed.
Lemma keeps_register e i org q :
  (q_CSRPEM q ≠ "" → ∀ uc, user_code e uc → registered hist org uc (q_DeviceName q) (q_OS q) (q_OSVersion q)) → keeps sound (Register e i org q).
Proof.
  intros Hreg. unfold Register. destruct (_ || _) eqn:Hc; [constructor|]. apply orb_false_iff in Hc as [_ Hc]. apply bool_decide_eq_false in Hc. destruct (generateCodes e) as [[dc uc]|] eqn:E; [|constructor].
  apply keeps_bind; [|constructor]. apply keeps_one. intros d. apply sound_create. by eapply Hreg, generate_user_code.
Qed.
Lemma keeps_update e i x : (∀ r, row_sound r → row_sound (set_device (db_now e) x r)) → keeps sound (UpdateDevice e i x).
Proof.
  intros H. apply keeps_one. intros d Hd. destruct (_ && _); [|done]. cbn. apply sound_alter; [|done]. intros r. split_and!; [done..|]. apply H.
Qed.
Lemma keeps_complete e e' req b org device serial :
  hist (CComplete e' req (Some b)) → b_CertFingerprint b ≠ "" → keeps sound (CompleteFinalize e org device (b_CertFingerprint b) serial).
Proof.
  intros Hc Hfp. unfold CompleteFinalize. apply keeps_bind; [apply keeps_query|]. intros [x|]; [|constructor]. apply keeps_bind.
  - apply keeps_update. intros r (Hl & Ht & Hn & _). split_and!; [done..|]. right. right. split; [done|]. by exists e', req, b.
  - intros [|]; [|constructor]. apply keeps_bind; [apply keeps_log|constructor].
Qed.
Lemma keeps_deregister e org device : keeps sound (Deregister e org device).
Proof.
  unfold Deregister. apply keeps_bind; [apply keeps_query|]. intros [x|]; [|constructor]. apply keeps_bind.
  - apply keeps_update. intros r (Hl & Ht & Hn & _). split_and!; [done..|]. right. by left.
  - intros [|]; [|constructor]. apply keeps_bind; [apply keeps_log|constructor].
Qed.
Lemma keeps_posture e org device m c k f : keeps sound (UpdatePosture e org device m c k f).
Proof.
  apply keeps_one. intros d Hd. destruct (ok e 0); [|done]. cbn. apply sound_named; [|done]. intros r _. by split_and!.
Qed.
(** The certificate of a Windows join is written to no row. *)
Lemma keeps_cert e i org t h u subject serial fp na : keeps sound (UpdateDeviceCert e i org (generateDeviceID t h u) subject serial fp na).
Proof.
  apply keeps_one. intros d Hd. destruct (_ && _); [|done]. cbn. apply sound_named; [|done]. intros r Hr. split_and!; [done..|].
  intros (Hl%registered_length & _). rewrite Hr in Hl. by apply device_id_length in Hl.
Qed.

(** Behind no guard the organization is the one of the header. *)
Lemma org_of_open r req x : r_guards r = [] → dispatch sv r req = Next x → org_of x req = header req "X-Org-ID".
Proof.
  intros Hg. unfold dispatch. rewrite Hg, app_nil_r. intros (id & o & ->)%global_Next. unfold org_of. by rewrite bool_decide_eq_true_2.
Qed.
Lemma drs_keeps c : hist c → keeps sound (serve c).
Proof.
  intros Harr. unfold serve. destruct (dispatch _ _ _) as [x|] eqn:Hd; [|constructor].
  destruct c as [e q [b|]|e q [b|]|e q id|e q id [b|]|e q id|e q id|e q [[em pw]|]|e q st [b|]|e q [b|]| | | | |]; cbn [handle]; try by constructor.
  - unfold Register_. rewrite (org_of_open (route_of (CRegister e q (Ok b))) q x eq_refl Hd). case_bool_decide; [constructor|].
    apply keeps_bind; [|constructor]. apply keeps_register. intros Hcsr uc Huc. left. by exists e, q, b.
  - unfold Register_. case_bool_decide; constructor.
  - unfold Complete. destruct (_ || _) eqn:Hc; [constructor|]. apply orb_false_iff in Hc as [_ Hfp]. apply bool_decide_eq_false in Hfp.
    apply keeps_bind; [by eapply keeps_complete|constructor].
  - apply keeps_bind; [apply keeps_query|constructor].
  - apply keeps_bind; [apply keeps_posture|constructor].
  - apply keeps_bind; [|constructor]. apply keeps_bind; [apply keeps_query|constructor].
  - apply keeps_bind; [apply keeps_deregister|constructor].
  - unfold HandleAdminVerify. destruct (_ || _); [constructor|]. apply keeps_bind; [apply keeps_query|constructor].
  - unfold HandleDeviceJoin. destruct (_ || _); [constructor|]. apply keeps_bind; [apply keeps_query|]. intros [u|]; [|constructor].
    apply keeps_bind; [by apply keeps_register|]. intros _. apply keeps_bind; [apply keeps_log|constructor].
  - unfold windows_HandleDeviceJoin. case_bool_decide; [constructor|]. apply keeps_bind.
    { apply keeps_register. intros Hcsr uc Huc. right. by exists e, q, b. }
    intros [r|]; [|constructor].
    cbn [issueDeviceCert]. destruct (generatePRT e) as [[prt ex]|]; [|constructor]. apply keeps_bind; [apply keeps_cert|constructor].
Qed.

Definition fresh (o : Oidc.Oidc.DB) : DB := mkDB ∅ [] o.
Lemma fresh_sound o : sound (fresh o).
Proof. split_and!; [apply map_Forall_empty|intros i j r r' Hi; cbn in Hi; by rewrite lookup_empty in Hi|done]. Qed.
End Sound.
Lemma reachable_sound o s : rtc (istep serve) (mkPool (fresh o) []) s → sound (arrived s) (data s).
Proof. apply (keeps_history serve sound); [apply drs_keeps|intros H; apply fresh_sound]. Qed.

(** C36: Every device of the directory has its registration.  In any interleaving of requests, each
    row stems from one request that arrived: a registration, and then it belongs to the organization
    that request's header X-Org-ID names, or a Windows join, and then to the organization default;
    its device identifier is the user code drawn from that request's random bytes and its name,
    operating system and version are those of that request.  No two rows of an organization have the
    same identifier.  A device is pending, deleted, or active with the certificate fingerprint of
    some completion request, never an empty one; and every join event is one of a device of the
    directory. *)
Theorem directory_sound o s id r :
  rtc (istep serve) (mkPool (fresh o) []) s → devices (data s) !! id = Some r →
  registered (arrived s) (r_org r) (r_device r) (r_name r) (r_os r) (r_version r) ∧ r_tenant r = r_org r
  ∧ (r_status r = "pending" ∨ r_status r = "deleted"
     ∨ r_status r = "active" ∧ ∃ e req b, arrived s (CComplete e req (Some b)) ∧ r_fingerprint r = Some (b_CertFingerprint b) ∧ b_CertFingerprint b ≠ "")
  ∧ (∀ id' r', devices (data s) !! id' = Some r' → r_org r' = r_org r → r_device r' = r_device r → id' = id)
  ∧ (∀ ev, ev ∈ events (data s) → is_Some (devices (data s) !! ev_device ev)).
Proof.
  intros (Hr & Hu & He)%reachable_sound Hid. destruct (Hr id r Hid) as (Hreg & _ & Ht & Hst). split_and!; [done..| |].
  - intros id' r' Hid' E1 E2. by apply (Hu id' id r' r).
  - intros ev Hev. by eapply Forall_forall in He.
Qed.

(** A Windows join is lost.  A join that is answered as successful, in whatever state, hands the
    device an identifier that no device of the directory has, then or after any further requests: the
    device can neither be completed nor looked up, report its posture, renew or leave. *)
Theorem joined_unknown o s e req b d m cert root prt ex device tenant :
  rtc (istep serve) (mkPool (fresh o) []) s → exec (serve (CWindows e req b)) (data s) = (d, WJoined m cert root prt ex device tenant) →
  ∀ s', rtc (istep serve) (mkPool d []) s' → ∀ id r, devices (data s') !! id = Some r → r_device r ≠ device.
Proof.
  intros Hs Ex s' Hs' id r Hid. set (any := λ _ : call, True). assert (Hall : ∀ c, keeps (sound any) (serve c)) by (intros c; by apply drs_keeps).
  assert (Hs1 : sound any (data s)) by (eapply reachable_keeps; [apply Hall|apply fresh_sound|exact Hs]). assert (Hd : sound any d).
  { pose proof (keeps_exec _ _ (data s) (Hall (CWindows e req b)) Hs1) as H. by rewrite Ex in H. }
  assert (Hs2 : sound any (data s')) by (eapply reachable_keeps; [apply Hall|exact Hd|exact Hs']).
  assert (∃ t h u, device = generateDeviceID t h u) as (t & h & u & ->).
  { revert Ex. unfold serve. destruct (dispatch _ _ _) as [x|]; [|done]. cbn [handle]. destruct b as [q|]; [|done].
    unfold windows_HandleDeviceJoin. case_bool_decide; [done|]. rewrite exec_bind. destruct (exec (Register _ _ _ _) _) as [d1 [r1|]]; [|done].
    cbn [issueDeviceCert fst snd]. destruct (generatePRT e) as [[p1 x1]|]; [|done]. rewrite exec_bind. destruct (exec (UpdateDeviceCert _ _ _ _ _ _ _ _) _). cbn.
    intros [= _ _ _ _ _ _ <- _]. by eexists _, _, _. }
  destruct Hs2 as (Hr & _). destruct (Hr id r Hid) as (Hl%registered_length & _). intros E. rewrite E in Hl. by apply device_id_length in Hl.
Qed.

(** ** Registration by anyone *)

Definition from_anyone (m org : string) : request := mkReq m (λ h, if String.eqb h "X-Org-ID" then org else "") [].
Lemma open_reached m org r : r_guards r = [] → m ≠ "OPTIONS" →
  ∃ x, dispatch sv r (from_anyone m org) = Next x ∧ org_of x (from_anyone m org) = org.
Proof.
  intros Hg Hm. unfold dispatch. rewrite Hg, app_nil_r. cbn [Access.run global]. unfold RequestID, SecurityHeaders, CORS. cbv zeta.
  change (header (from_anyone m org) "Origin") with "". rewrite bool_decide_eq_false_2 by tauto. cbn [Method from_anyone].
  rewrite bool_decide_eq_false_2 by done. eexists. split; [done|]. unfold org_of, GetString. cbn. by rewrite bool_decide_eq_true_2.
Qed.

Lemma found_alone ro dev e d :
  insertable e dev d = true →
  find_device ro (OrgID dev) (DeviceID dev) (with_devices (<[new_id e := insert_row e dev]> (devices d)) d) = Some (new_id e, insert_row e dev).
Proof.
  intros Hc. unfold insertable in Hc. rewrite !andb_true_iff in Hc. destruct Hc as [_ Hk]. apply negb_true_iff in Hk.
  set (d1 := with_devices _ d). assert (devices d1 !! new_id e = Some (insert_row e dev)) as Hnew by (cbn; apply lookup_insert_eq).
  assert (named (OrgID dev) (DeviceID dev) (new_id e) (insert_row e dev) = true) as Hn by (unfold named; by rewrite !bool_decide_eq_true_2).
  destruct (select_named ro _ _ d1 _ _ Hnew Hn) as ([k r] & Hf). rewrite Hf. unfold find_device in Hf.
  pose proof (select_head ro (named (OrgID dev) (DeviceID dev)) (devices d1)) as H. rewrite Hf in H. destruct H as [Hk1 Hk2].
  destruct (decide (new_id e = k)) as [<-|Hne]; [congruence|]. cbn in Hk1. rewrite lookup_insert_ne in Hk1 by done.
  assert (existsb (λ kv, named (OrgID dev) (DeviceID dev) (fst kv) (snd kv)) (map_to_list (devices d)) = true); [|congruence].
  apply existsb_exists. exists (k, r). split; [by apply list_elem_of_In, elem_of_map_to_list|done].
Qed.

(** Anyone registers devices.  Two requests without any credential make a device of any
    organization the sender names an active one with the certificate fingerprint the sender names; no
    user has entered the code, and the code of the device is not asked for. *)
Theorem open_registration e e' org q fp serial d dc uc :
  org ≠ "" → q_DeviceName q ≠ "" → q_OS q ≠ "" → q_CSRPEM q ≠ "" → generateCodes e = Some (dc, uc) →
  ok e 0 = true → insertable e (pending_device org uc q) d = true →
  ok e' 0 = true → ok e' 1 = true → fp ≠ "" → fits 128 fp = true → fits 128 serial = true →
  ∃ d1 r1 d2 r2 x,
    exec (serve (CRegister e (from_anyone "POST" org) (Ok q))) d = (d1, WRegistered r1)
    ∧ exec (serve (CComplete e' (from_anyone "POST" org) (Some (mkCompleteRequest "" (UserCode r1) fp serial)))) d1 = (d2, WCompleted r2)
    ∧ devices d2 !! c_DeviceID r2 = Some x ∧ r_org x = org ∧ r_status x = "active" ∧ r_fingerprint x = Some fp.
Proof.
  intros Horg Hn Hos Hcsr Hco O0 Hins O0' O1' Hfp Hf1 Hf2. pose proof (code_length _ _ (generate_user_code _ _ _ Hco)) as Hlen.
  destruct (open_reached "POST" org (route_of (CRegister e (from_anyone "POST" org) (Ok q))) eq_refl) as (x1 & E1 & Ho1); [done|].
  destruct (open_reached "POST" org (route_of (CComplete e' (from_anyone "POST" org) None)) eq_refl) as (x2 & E2 & Ho2); [done|].
  set (d1 := with_devices (<[new_id e := insert_row e (pending_device org uc q)]> (devices d)) d).
  set (r1 := mkRegistered dc uc (oidcISS cfg +:+ "/device?user_code=" +:+ uc) 5 900).
  assert (exec (serve (CRegister e (from_anyone "POST" org) (Ok q))) d = (d1, WRegistered r1)) as Hr.
  { unfold serve. cbn [request_of]. rewrite E1. cbn [handle]. unfold Register_. rewrite Ho1, bool_decide_eq_false_2 by done.
    rewrite exec_bind. unfold Register. rewrite !bool_decide_eq_false_2 by done. cbn [orb]. rewrite Hco, exec_bind. cbn. by rewrite O0, Hins. }
  pose proof (found_alone (order e') (pending_device org uc q) e d Hins) as Hfound. cbn [OrgID DeviceID pending_device] in Hfound. fold d1 in Hfound.
  set (dev := completed (clk e' 0) fp serial (scan_device (new_id e) (insert_row e (pending_device org uc q)))).
  destruct (exec (LogJoinEvent e' 2 (new_id e) "join" "user" org fp None)
    (with_devices (alter (set_device (db_now e') dev) (new_id e) (devices d1)) d1)) as [d2 b] eqn:El.
  assert (devices d2 = alter (set_device (db_now e') dev) (new_id e) (devices d1)) as Hd2.
  { revert El. cbn. destruct (uuid (new_id e)); [|by intros [= <- _]]. by destruct (_ && _); intros [= <- _]. }
  eexists d1, r1, d2, _, _. split; [exact Hr|]. split.
  - unfold serve. cbn [request_of]. change (route_of (CComplete e' (from_anyone "POST" org) _)) with (route_of (CComplete e' (from_anyone "POST" org) None)).
    rewrite E2. cbn [handle]. unfold Complete. cbn [b_DeviceID b_CertFingerprint b_CertSerial UserCode r1].
    rewrite !bool_decide_eq_false_2 by (try done; by intros ->). cbn [orb]. rewrite Ho2, exec_bind. unfold CompleteFinalize. rewrite exec_bind.
    cbn [exec GetDevice query stmt fst snd]. rewrite O0', Hfound. cbn [fmap option_fmap option_map uncurry]. fold dev. rewrite exec_bind.
    cbn [exec UpdateDevice stmt fst snd]. rewrite O1'.
    change (fits 32 (JoinStatus dev)) with true. change (fits 512 (CertSubject dev)) with true. change (CertSerial dev) with serial.
    change (CertFingerprintSHA256 dev) with fp. change (fits 256 (CertIssuer dev)) with true. rewrite Hf1, Hf2. cbn [andb fst snd negb].
    rewrite exec_bind. change (ID dev) with (new_id e). rewrite El. cbn. reflexivity.
  - cbn [c_DeviceID]. rewrite Hd2, lookup_alter_eq. cbn. rewrite lookup_insert_eq. cbn. by split_and!.
Qed.

(** ** The announcement of a join *)

(** No identifier of the database begins like a generated one. *)
Lemma prejoin_no_effect e req stamp b d :
  (∀ t, uuid ("dev-" +:+ t) = None) → fst (exec (serve (CPreJoin e req stamp b)) d) = d.
Proof.
  intros Hu. unfold serve. destruct (dispatch _ _ _) as [x|]; [|done]. cbn [handle]. unfold HandleDeviceJoin. destruct b as [b|]; [|done].
  destruct (_ || _); [done|]. rewrite exec_bind. cbn [exec AuthenticateUser query stmt fst snd].
  destruct (Oidc.Oidc.AuthenticateUser _ _ _ _ _ _ _) as [u|]; [|done]. rewrite exec_bind. unfold Register. cbn [q_CSRPEM].
  rewrite (bool_decide_eq_true_2 ("" = "")), orb_true_r by done. cbn [exec fst snd]. rewrite exec_bind.
  cbn [exec LogJoinEvent stmt fst snd]. unfold generateDeviceID. by rewrite Hu.
Qed.
End Service.

(** ** Witnesses *)

Definition demo_uuid (s : string) : option string := if HasPrefix s "dev-" then None else Some s.
Definition demo_cfg : config := mkConfig "https://ca" "fp" "https://drs".
Definition demo_sv : services := demo_services.
Definition demo_env : env :=
  mkEnv "d1" "e1" 7 (λ _, 5000000000%Z) (λ _, true) canonical_order (Some (of_string "0123456789", ("a"%byte, "b"%byte, "c"%byte, "d"%byte))) (Some (of_string "prt")).
Definition demo_req : RegisterRequest := mkRegister "laptop" "windows" "11" "csr".
Definition demo_complete : complete_request := mkCompleteRequest "" "6162-6364" "AB:CD" "42".
Definition demo_oidc : Oidc.Oidc.DB := Oidc.Oidc.mkDB ∅ ∅ ∅ ∅.
Definition demo_serve : call → prog DB reply := serve demo_uuid (λ _ _, true) demo_cfg demo_sv.
Definition demo_calls : list call :=
  [CRegister demo_env (from_anyone "POST" "acme") (Ok demo_req); CComplete demo_env (from_anyone "POST" "acme") (Some demo_complete);
   CDeregister demo_env (from_anyone "DELETE" "acme") "6162-6364"; CPosture demo_env (from_anyone "PUT" "acme") "6162-6364" (Some (mkPosture true true true true))].
Definition outcome_of (l : list nat) : option (string * bool) * list (option reply) :=
  let s := schedule demo_serve (fresh demo_oidc) demo_calls l in
  ((λ r, (r_status r, r_compliant r)) <$> devices (data s) !! "d1", (λ t, match snd t with Ret a => Some a | _ => None end) <$> requests s).

Lemma directory_sound_witness :
  let s := schedule demo_serve (fresh demo_oidc) demo_calls [0; 1; 1; 1] in
  ∃ r, devices (data s) !! "d1" = Some r ∧ r_status r = "active" ∧ r_device r = "6162-6364"
    ∧ registered (arrived s) "acme" "6162-6364" "laptop" "windows" "11".
Proof.
  cbv zeta. set (s := schedule _ _ _ _). assert (rtc (istep demo_serve) (mkPool (fresh demo_oidc) []) s) as Hs by apply schedule_reachable.
  destruct (devices (data s) !! "d1") as [r|] eqn:E; [|by vm_compute in E].
  pose proof (directory_sound demo_uuid (λ _ _, true) demo_cfg demo_sv demo_oidc s "d1" r Hs E) as (Hreg & _).
  exists r. split; [done|]. vm_compute in E. injection E as <-. split_and!; [done|done|exact Hreg].
Defined.
Lemma open_registration_witness :
  ∃ d1 r1 d2 r2 x,
    exec (demo_serve (CRegister demo_env (from_anyone "POST" "acme") (Ok demo_req))) (fresh demo_oidc) = (d1, WRegistered r1)
    ∧ exec (demo_serve (CComplete demo_env (from_anyone "POST" "acme") (Some (mkCompleteRequest "" (UserCode r1) "AB:CD" "42")))) d1 = (d2, WCompleted r2)
    ∧ devices d2 !! c_DeviceID r2 = Some x ∧ r_org x = "acme" ∧ r_status x = "active" ∧ r_fingerprint x = Some "AB:CD".
Proof.
  apply (open_registration demo_uuid (λ _ _, true) demo_cfg demo_sv demo_env demo_env "acme" demo_req "AB:CD" "42" (fresh demo_oidc)
           (Base64.encode_raw true (of_string "0123456789")) "6162-6364"); try done; vm_compute; reflexivity.
Defined.
Definition demo_join : DeviceJoinRequest := mkWindowsJoin "m1" "a.b.c" "csr" "laptop" "11" "".
Lemma joined_unknown_witness :
  ∃ d m cert root prt ex device tenant,
    exec (demo_serve (CWindows demo_env (from_anyone "POST" "") (Some demo_join))) (fresh demo_oidc) = (d, WJoined m cert root prt ex device tenant)
    ∧ ∀ id r, devices d !! id = Some r → r_device r ≠ device.
Proof.
  destruct (exec (demo_serve (CWindows demo_env (from_anyone "POST" "") (Some demo_join))) (fresh demo_oidc)) as [d rep] eqn:E.
  destruct rep as [| | | | | | | |m cert root prt ex device tenant|]; try (vm_compute in E; discriminate E).
  eexists d, _, _, _, _, _, _, _. split; [done|].
  exact (joined_unknown demo_uuid (λ _ _, true) demo_cfg demo_sv demo_oidc (mkPool (fresh demo_oidc) []) demo_env _ _ d _ _ _ _ _ _ _
           (rtc_refl _ _) E (mkPool d []) (rtc_refl _ _)).
Defined.

(** A completion that read the device before it was removed makes it active again. *)
Example removed_returns : fst (outcome_of [0; 1; 2; 2; 2; 1; 1]) = Some ("active", false).
Proof. vm_compute. reflexivity. Qed.
(** A posture reported between the two statements of a completion is lost. *)
Example posture_lost : fst (outcome_of [0; 1; 3; 1; 1]) = Some ("active", false).
Proof. vm_compute. reflexivity. Qed.
End Drs.
