(* ===== verification/ThreatIntel.v ===== *)
(** * Threat intelligence

    [src/internal/db/threat_store.go], [src/internal/threat-intel/fetcher.go] and [sync_service.go],
    [src/internal/api/handlers/threat_intel_handler.go]: feeds are fetched, their entries stored and
    looked up.

    Sources, entries and the log of the synchronisations are tables with the constraints of the
    migration, one statement at a time ([Interleave]); the transaction of [UpsertEntries] is one
    step, in which the failure of a statement makes every later one and the commit fail, as the
    database has it.  [uuid] reads a text as an identifier, [jsonb] tells whether it takes a text as
    JSON.  Row-level security, where it is on, is the refusal of a statement or of a row.  Scores
    are hundredths.  The answers of the feed services are arguments of the fetchers, as decoded. *)

From S2P Require Import Prelude GoStrings GoTime Encoding Sql Access DnsLogs Interleave.
From stdpp Require Import sorting.
#[local] Open Scope string_scope.
#[local] Open Scope nat_scope.
#[local] Open Scope list_scope.

Module ThreatIntel.
Import GoStrings GoTime Sql Access Interleave.

(** ** Data *)

Record ThreatIntelSource := mkSource {
  ID : string; OrgID : string; SourceType : string; Name : string; Endpoint : string; AuthToken : string; Enabled : bool;
  CategoryFilter : string; LastSyncAt : option Z; LastSyncDuration : Z; LastSyncStatus : string; ErrorMessage : string; EntryCount : Z;
  CreatedAt : Z; UpdatedAt : Z; CreatedBy : string; UpdatedBy : string;
}.
Record ThreatIntelEntry := mkEntry {
  e_ID : string; SourceID : string; e_OrgID : string; EntryType : string; EntryValue : string; ThreatCategory : string; ThreatLevel : string;
  ConfidenceScore : Z; Metadata : string; e_CreatedAt : Z; ExpiresAt : Z; LastUpdated : Z;
}.
Record ThreatSyncLog := mkLog {
  l_OrgID : string; l_SourceID : string; SyncStatus : string; EntriesAdded : Z; EntriesUpdated : Z; EntriesDeleted : Z; DurationMs : Z;
  l_ErrorMessage : string; TriggeredBy : string; SyncStartedAt : Z; SyncCompletedAt : Z;
}.
Record source_row := mkSourceRow {
  s_org : string; s_type : string; s_name : string; s_endpoint : string; s_token : option string; s_enabled : bool; s_filter : string;
  s_sync_at : option Z; s_duration : option Z; s_status : string; s_error : option string; s_count : Z; s_created : Z; s_updated : Z;
  s_by : string; s_updated_by : string;
}.
(** The rows of the entries are the entries themselves, by identifier. *)
Record DB := mkDB {
  sources : gmap string source_row; entries : gmap string ThreatIntelEntry; log : list ThreatSyncLog; organizations : gset string;
}.
Definition with_sources (m : gmap string source_row) (d : DB) : DB := mkDB m (entries d) (log d) (organizations d).
Definition with_entries (m : gmap string ThreatIntelEntry) (d : DB) : DB := mkDB (sources d) m (log d) (organizations d).

(** What a feed service answers. *)
Inductive answer (A : Type) := NoAnswer | Refused (status : Z) | Answer (body : option A).
Arguments NoAnswer {A}. Arguments Refused {A}. Arguments Answer {A}.

Definition SystemThreatOrgID : string := "a0000000-0000-0000-0000-000000000001".
Definition SystemThreatSourceID : string := "c0000000-0000-0000-0000-000000000001".

(** [ids k]: the identifier drawn for the insertion [k]; [ok i]: the statement [i] is served;
    [db_error]: the text of its error. *)
Record env := mkEnv { ids : nat → string; db_now : Z; clk : nat → Z; ok : nat → bool; order : range_order; db_error : string }.
Definition int4 (n : Z) : bool := DnsLogs.DnsLogs.int4 n.
Definition thirty_days : Z := 30 * 86400 * second.

Section Store.
Context (uuid : string → option string) (jsonb : string → bool).

(** ** threat_store.go *)

Definition source_types : list string := ["abuse.ch"; "cloudflare"; "dns_rpz"; "custom_csv"].
Definition same_source (org ty name : string) (kv : string * source_row) : bool :=
  bool_decide (s_org (snd kv) = org) && bool_decide (s_type (snd kv) = ty) && bool_decide (s_name (snd kv) = name).
Definition insert_source (id : string) (r : source_row) (d : DB) : option DB :=
  if bool_decide (sources d !! id = None) && bool_decide (s_org r ∈ organizations d) && bool_decide (s_type r ∈ source_types)
     && fits 50 (s_type r) && fits 255 (s_name r) && jsonb (s_filter r)
     && negb (existsb (same_source (s_org r) (s_type r) (s_name r)) (map_to_list (sources d)))
  then Some (with_sources (<[id := r]> (sources d)) d) else None.
Definition system_filter : string :=
  let q := String Json.dq EmptyString in
  "[" +:+ q +:+ "malware" +:+ q +:+ "," +:+ q +:+ "phishing" +:+ q +:+ "," +:+ q +:+ "botnet" +:+ q +:+ "," +:+ q +:+ "c2" +:+ q +:+ "]".
Definition system_row (org : string) (t : Z) : source_row :=
  mkSourceRow org "abuse.ch" "System Abuse.ch Combined" "https://abuse.ch" None true system_filter None None "pending" None 0 t t "system" "system".
Definition EnsureSystemSource (e : env) (i : nat) : prog DB bool :=
  stmt (λ d, match uuid SystemThreatSourceID, uuid SystemThreatOrgID with
    | Some id, Some org =>
        if negb (ok e i) then (d, false)
        else if bool_decide (is_Some (sources d !! id)) then (d, true)
        else match insert_source id (system_row org (db_now e)) d with Some d => (d, true) | None => (d, false) end
    | _, _ => (d, false)
    end).
Definition source_row_of (e : env) (org : string) (s : ThreatIntelSource) : source_row :=
  mkSourceRow org (SourceType s) (Name s) (Endpoint s) (Some (AuthToken s)) (Enabled s) (CategoryFilter s) None None "pending" None 0
    (db_now e) (db_now e) (CreatedBy s) (UpdatedBy s).
Definition CreateSource (e : env) (s : ThreatIntelSource) : prog DB (option string) :=
  stmt (λ d, match uuid (OrgID s) with
    | Some org => if ok e 0 then match insert_source (ids e 0) (source_row_of e org s) d with Some d => (d, Some (ids e 0)) | None => (d, None) end
                  else (d, None)
    | None => (d, None)
    end).

(** The columns that hold no value cannot be read into the fields. *)
Definition scan_source (id : string) (r : source_row) : option ThreatIntelSource :=
  match s_token r, s_duration r, s_error r with
  | Some tok, Some dur, Some err =>
      Some (mkSource id (s_org r) (s_type r) (s_name r) (s_endpoint r) tok (s_enabled r) (s_filter r) (s_sync_at r) dur (s_status r) err
              (s_count r) (s_created r) (s_updated r) (s_by r) (s_updated_by r))
  | _, _, _ => None
  end.
Definition GetSource (e : env) (i : nat) (orgID sourceID : string) : prog DB (option ThreatIntelSource) :=
  query (λ d, match uuid sourceID, uuid orgID with
    | Some id, Some org =>
        if ok e i then r ← sources d !! id; if bool_decide (s_org r = org) then scan_source id r else None else None
    | _, _ => None
    end).
(** Rows that cannot be read are skipped. *)
Definition ListSources (e : env) (i : nat) (orgID : string) : prog DB (option (list ThreatIntelSource)) :=
  query (λ d, match uuid orgID with
    | Some org => if ok e i then Some (omap (λ kv, scan_source (fst kv) (snd kv)) (newest s_created (select (order e) (λ _ r, bool_decide (s_org r = org)) (sources d)))) else None
    | None => None
    end).
Definition set_sync (t : Z) (status : string) (duration : Z) (errMsg : string) (count : Z) (r : source_row) : source_row :=
  mkSourceRow (s_org r) (s_type r) (s_name r) (s_endpoint r) (s_token r) (s_enabled r) (s_filter r) (Some t) (Some duration) status (Some errMsg) count
    (s_created r) (s_updated r) (s_by r) (s_updated_by r).
Definition UpdateSourceSyncStatus (e : env) (i : nat) (sourceID status : string) (duration : Z) (errMsg : string) (count : Z) : prog DB bool :=
  stmt (λ d, match uuid sourceID with
    | Some id => if ok e i && fits 20 status && int4 duration && int4 count
        then (with_sources (alter (set_sync (db_now e) status duration errMsg count) id (sources d)) d, true) else (d, false)
    | None => (d, false)
    end).

Definition levels : list string := ["critical"; "high"; "medium"; "low"].
Definition entry_types : list string := ["domain"; "ip"; "url"; "cert_hash"].
(** What the columns take. *)
Definition acceptable (x : ThreatIntelEntry) : bool :=
  bool_decide (EntryType x ∈ entry_types) && fits 2048 (EntryValue x) && fits 50 (ThreatCategory x) && bool_decide (ThreatLevel x ∈ levels)
  && (0 <=? ConfidenceScore x)%Z && (ConfidenceScore x <=? 100)%Z && jsonb (Metadata x).
Definition same_entry (source : string) (x : ThreatIntelEntry) (_ : string) (y : ThreatIntelEntry) : bool :=
  bool_decide (SourceID y = source) && bool_decide (EntryType y = EntryType x) && bool_decide (EntryValue y = EntryValue x).
Definition refreshed (t : Z) (x y : ThreatIntelEntry) : ThreatIntelEntry :=
  mkEntry (e_ID y) (SourceID y) (e_OrgID y) (EntryType y) (EntryValue y) (ThreatCategory x) (ThreatLevel x) (ConfidenceScore x) (Metadata x)
    (e_CreatedAt y) (t + thirty_days) t.
Definition inserted (t : Z) (id source org : string) (x : ThreatIntelEntry) : ThreatIntelEntry :=
  mkEntry id source org (EntryType x) (EntryValue x) (ThreatCategory x) (ThreatLevel x) (ConfidenceScore x) (Metadata x) t (t + thirty_days) t.
Definition upsert (e : env) (k : nat) (source org : string) (x : ThreatIntelEntry) (d : DB) : option DB :=
  if negb (acceptable x) then None
  else
    match head (select (order e) (same_entry source x) (entries d)) with
    | Some (id, y) => Some (with_entries (<[id := refreshed (db_now e) x y]> (entries d)) d)
    | None => if bool_decide (entries d !! ids e k = None) && bool_decide (is_Some (sources d !! source)) && bool_decide (org ∈ organizations d)
        then Some (with_entries (<[ids e k := inserted (db_now e) (ids e k) source org x]> (entries d)) d) else None
    end.
(** The loop of the transaction: after a failure ([aborted]) every statement fails. *)
Fixpoint upsert_loop (e : env) (i k : nat) (source org : string) (l : list ThreatIntelEntry) (d : DB) (aborted : bool) (count : nat) : DB * bool * nat :=
  match l with
  | [] => (d, aborted, count)
  | x :: l =>
      if aborted then upsert_loop e i (S k) source org l d true count
      else if negb (ok e (i + k)) then upsert_loop e i (S k) source org l d true count
      else match upsert e k source org x d with
           | Some d => upsert_loop e i (S k) source org l d false (S count)
           | None => upsert_loop e i (S k) source org l d true count
           end
  end.
(** [i]: the begin and the commit, [i + 1 + k] the statement of entry [k]. *)
Definition UpsertEntries (e : env) (i : nat) (sourceID orgID : string) (l : list ThreatIntelEntry) : prog DB (option nat) :=
  match l with
  | [] => Ret (Some 0)
  | _ =>
      stmt (λ d, match uuid sourceID, uuid orgID with
        | Some source, Some org =>
            if negb (ok e i) then (d, None)
            else let '(d', aborted, count) := upsert_loop e (i + 1) 0 source org l d false 0 in
                 if aborted then (d, None) else (d', Some count)
        | _, _ => (d, None)
        end)
  end.
Definition query_entry (ty : string) (e : env) (i : nat) (orgID value : string) : prog DB (result string (option ThreatIntelEntry)) :=
  query (λ d, match uuid orgID with
    | Some org =>
        if ok e i then Ok (snd <$> head (select (order e) (λ _ x, bool_decide (e_OrgID x = org) && bool_decide (EntryType x = ty)
                                          && bool_decide (EntryValue x = value) && (db_now e <? ExpiresAt x)%Z) (entries d)))
        else Err "query"
    | None => Err "query"
    end).
Definition QueryDomain := query_entry "domain".
Definition QueryIP := query_entry "ip".
Definition LogSync (e : env) (i : nat) (l : ThreatSyncLog) : prog DB bool :=
  stmt (λ d, match uuid (l_OrgID l), uuid (l_SourceID l) with
    | Some org, Some source =>
        if ok e i && bool_decide (org ∈ organizations d) && bool_decide (is_Some (sources d !! source)) && fits 20 (SyncStatus l)
           && int4 (EntriesAdded l) && int4 (EntriesUpdated l) && int4 (EntriesDeleted l) && int4 (DurationMs l) && fits 50 (TriggeredBy l)
        then (mkDB (sources d) (entries d) (log d ++ [l]) (organizations d), true) else (d, false)
    | _, _ => (d, false)
    end).
Definition stale (org : string) (t : Z) (x : ThreatIntelEntry) : bool := bool_decide (e_OrgID x = org) && (ExpiresAt x <? t)%Z.
Definition EvictStale (e : env) (orgID : string) : prog DB (option nat) :=
  stmt (λ d, match uuid orgID with
    | Some org => if ok e 0
        then (with_entries (filter (λ kv, stale org (db_now e) (snd kv) = false) (entries d)) d,
              Some (size (filter (λ kv, stale org (db_now e) (snd kv) = true) (entries d))))
        else (d, None)
    | None => (d, None)
    end).
Record stats := mkStats { total_entries : nat; by_type : gmap string nat; last_sync : option Z }.
Definition of_org (org : string) (_ : string) (x : ThreatIntelEntry) : bool := bool_decide (e_OrgID x = org).
Definition tally (l : list (string * ThreatIntelEntry)) : gmap string nat :=
  foldr (λ kv m, partial_alter (λ o, Some (S (default 0 o))) (EntryType (snd kv)) m) ∅ l.
Definition max_opt (a b : option Z) : option Z :=
  match a, b with Some x, Some y => Some (Z.max x y) | None, o | o, None => o end.
Definition GetStats (e : env) (i : nat) (orgID : string) : prog DB (option stats) :=
  match uuid orgID with
  | None => Ret None
  | Some org =>
      bind (query (λ d, if ok e i then Some (length (select (order e) (of_org org) (entries d))) else None)) (λ total,
      match total with
      | None => Ret None
      | Some total =>
          bind (query (λ d, if ok e (i + 1) then Some (tally (select (order e) (of_org org) (entries d))) else None)) (λ types,
          match types with
          | None => Ret None
          | Some types =>
              bind (query (λ d, if ok e (i + 2)
                then foldr max_opt None ((λ kv, s_sync_at (snd kv)) <$> select (order e) (λ _ r, bool_decide (s_org r = org)) (sources d)) else None)) (λ last,
              Ret (Some (mkStats total types last)))
          end)
      end)
  end.

(** ** fetcher.go *)

Record indicator := mkIndicator { i_Type : string; i_Indicator : string }.
Record pulse := mkPulse { p_ID : string; p_Name : string; p_Indicators : list indicator; p_Tags : option (list string) }.
Record vt_item := mkItem { v_ID : string; Malicious : Z; Suspicious : Z; Categories : option (list (string * string)) }.
Record scan_item := mkScan { u_Domain : string; u_URL : string; v_Malicious : bool; v_Phishing : bool }.
Record fetcher := mkFetcher {
  otxAPIKey : string; virustotalAPIKey : string; urlscanAPIKey : string;
  otx : answer (list pulse); virustotal : answer (list vt_item); urlscan : answer (list scan_item);
}.

Definition nl (tabs : nat) : string := String (Ascii.ascii_of_nat 10) (Nat.iter tabs (String (Ascii.ascii_of_nat 9)) EmptyString).
(** A document of the templates: lines of names and values, one before the last tab. *)
Definition document (tabs : nat) (l : list (string * string)) : string :=
  "{" +:+ Join ((λ kv, nl (S tabs) +:+ String Json.dq (fst kv +:+ String Json.dq (": " +:+ snd kv))) <$> l) "," +:+ nl tabs +:+ "}".
(** [%s] between quotes: nothing is escaped. *)
Definition plain (s : string) : string := String Json.dq (s +:+ String Json.dq EmptyString).
Definition json_strings (o : option (list string)) : string :=
  match o with None => "null" | Some l => "[" +:+ Join (Json.quote <$> l) "," +:+ "]" end.
(** The pairs of a map come in the order of the keys. *)
Definition json_map (o : option (list (string * string))) : string :=
  match o with None => "null" | Some l => "{" +:+ Join ((λ kv, Json.quote (fst kv) +:+ ":" +:+ Json.quote (snd kv)) <$> l) "," +:+ "}" end.
Definition json_bool (b : bool) : string := if b then "true" else "false".
Definition feed_entry (ty value category level : string) (score : Z) (meta : string) : ThreatIntelEntry :=
  mkEntry "" "" "" ty value category level score meta zero_time zero_time zero_time.

Definition otx_type (ty : string) : option string :=
  if bool_decide (ty = "IPv4") then Some "ip"
  else if bool_decide (ty = "domain") then Some "domain"
  else if bool_decide (ty = "URL") then Some "url"
  else if bool_decide (ty ∈ ["FileHash-MD5"; "FileHash-SHA1"; "FileHash-SHA256"]) then Some "cert_hash"
  else None.
Definition otx_metadata (p : pulse) : string :=
  document 4 [("pulse_id", plain (p_ID p)); ("pulse_name", plain (p_Name p)); ("tags", json_strings (p_Tags p)); ("source", plain "alienvault_otx")].
Definition otx_entries (l : list pulse) : list ThreatIntelEntry :=
  concat ((λ p, omap (λ i, (λ ty, feed_entry ty (i_Indicator i) "malware" "high" 85 (otx_metadata p)) <$> otx_type (i_Type i)) (p_Indicators p)) <$> l).
Definition fetched {A} (key : string) (a : answer A) (f : A → list ThreatIntelEntry) : option (list ThreatIntelEntry) :=
  if bool_decide (key = "") then Some []
  else match a with
       | NoAnswer => None
       | Refused _ => None
       | Answer None => None
       | Answer (Some b) => Some (f b)
       end.
Definition FetchAlienVaultOTX (f : fetcher) : option (list ThreatIntelEntry) := fetched (otxAPIKey f) (otx f) otx_entries.
Definition vt_level (n : Z) : string := if (20 <? n)%Z then "critical" else if (10 <? n)%Z then "high" else "medium".
Definition vt_entry (x : vt_item) : ThreatIntelEntry :=
  feed_entry "domain" (v_ID x) "malware" (vt_level (Malicious x)) 88
    (document 3 [("malicious_count", itoa (Malicious x)); ("suspicious_count", itoa (Suspicious x)); ("categories", json_map (Categories x));
                 ("source", plain "virustotal")]).
Definition FetchVirusTotalDomains (f : fetcher) : option (list ThreatIntelEntry) := fetched (virustotalAPIKey f) (virustotal f) (fmap vt_entry).
Definition scan_entries (x : scan_item) : list ThreatIntelEntry :=
  let category := if v_Phishing x then "phishing" else "malware" in
  let level := if v_Phishing x then "medium" else "high" in
  let meta := document 4 [("verdict_malicious", json_bool (v_Malicious x)); ("verdict_phishing", json_bool (v_Phishing x)); ("source", plain "urlscan_io")] in
  (if bool_decide (u_Domain x = "") then [] else [feed_entry "domain" (u_Domain x) category level 82 meta])
  ++ (if bool_decide (u_URL x = "") then [] else [feed_entry "url" (u_URL x) category level 84 meta]).
Definition FetchURLScanPhishingDomains (f : fetcher) : option (list ThreatIntelEntry) :=
  fetched (urlscanAPIKey f) (urlscan f) (λ l, concat (scan_entries <$> l)).
(** A feed that fails is left out. *)
Definition FetchAll (f : fetcher) : list ThreatIntelEntry :=
  default [] (FetchAlienVaultOTX f) ++ default [] (FetchVirusTotalDomains f) ++ default [] (FetchURLScanPhishingDomains f).

(** ** sync_service.go *)

Definition millis (e : env) : Z := Z.quot (clk e 1 - clk e 0) 1000000.
Definition success_log (e : env) (org source trigger : string) (count : nat) : ThreatSyncLog :=
  mkLog org source "success" (Z.of_nat count) 0 0 (millis e) "" trigger (clk e 2 - millis e * 1000000) (clk e 3).
Definition syncAllSources (e : env) (f : fetcher) : prog DB unit :=
  bind (EnsureSystemSource e 0) (λ b,
  if negb b then Ret tt
  else
    bind (UpsertEntries e 3 SystemThreatSourceID SystemThreatOrgID (FetchAll f)) (λ o,
    match o with
    | None => Ret tt
    | Some count => bind (LogSync e 1 (success_log e SystemThreatOrgID SystemThreatSourceID "scheduled" count)) (λ _, Ret tt)
    end)).
Definition handleSyncError (e : env) (orgID sourceID : string) : prog DB bool :=
  bind (UpdateSourceSyncStatus e 1 sourceID "failed" 0 (db_error e) 0) (λ _,
  bind (LogSync e 2 (mkLog orgID sourceID "failed" 0 0 0 0 (db_error e) "scheduled" (clk e 2) (clk e 2))) (λ _, Ret false)).
Definition syncSourceInternal (e : env) (orgID : string) (f : fetcher) (source : ThreatIntelSource) : prog DB bool :=
  if negb (bool_decide (SourceType source = "abuse.ch")) then Ret true
  else
    bind (UpsertEntries e 3 (ID source) orgID (FetchAll f)) (λ o,
    match o with
    | None => handleSyncError e orgID (ID source)
    | Some count =>
        bind (UpdateSourceSyncStatus e 1 (ID source) "success" (millis e) "" (Z.of_nat count)) (λ _,
        bind (LogSync e 2 (success_log e orgID (ID source) "manual" count)) (λ _, Ret true))
    end).
Definition SyncSource (e : env) (orgID sourceID : string) (f : fetcher) : prog DB bool :=
  bind (GetSource e 0 orgID sourceID) (λ o,
  match o with
  | None => Ret false
  | Some s => if negb (Enabled s) then Ret true else syncSourceInternal e orgID f s
  end).
(** The synchronisation [k] of the request has its own readings [es k] and answers [fs k]. *)
Fixpoint sync_each (es : nat → env) (fs : nat → fetcher) (k : nat) (orgID : string) (l : list ThreatIntelSource) : prog DB unit :=
  match l with
  | [] => Ret tt
  | s :: l => bind (SyncSource (es k) orgID (ID s) (fs k)) (λ _, sync_each es fs (S k) orgID l)
  end.
Definition ManualSync (e : env) (es : nat → env) (fs : nat → fetcher) (orgID : string) : prog DB bool :=
  bind (ListSources e 0 orgID) (λ o,
  match o with None => Ret false | Some l => bind (sync_each es fs 0 orgID l) (λ _, Ret true) end).
Record sync_status := mkStatus { n_sources : nat; n_entries : Z; n_last : option Z; n_stats : option stats }.
Definition GetSyncStatus (e : env) (i : nat) (orgID : string) : prog DB (option sync_status) :=
  bind (ListSources e i orgID) (λ o,
  match o with
  | None => Ret None
  | Some l =>
      bind (GetStats e (i + 1) orgID) (λ st,
      Ret (Some (mkStatus (length l) (foldr (λ s n, (EntryCount s + n)%Z) 0%Z l) (head (omap LastSyncAt l)) st)))
  end).

(** ** threat_intel_handler.go *)

Record lookup_response := mkResponse { IsThreat : bool; r_Level : string; r_Category : string; r_Score : Z; Source : string; Reason : string }.
Inductive reply :=
| WErr (status : Z) (msg : string)
| WSources (l : list ThreatIntelSource)
| WStats (st : stats) (sync : option sync_status)
| WStatus (msg : string)
| WLookup (r : lookup_response)
| WEvicted (n : nat).

Definition with_org (x : context) (k : string → prog DB reply) : prog DB reply :=
  match keys x !! "org_id" with None => Ret (WErr 401 "org_id not found") | Some org => k org end.
Definition ListSources_ (e : env) (x : context) : prog DB reply :=
  with_org x (λ org, bind (ListSources e 0 org) (λ o, Ret (match o with None => WErr 500 "failed to fetch sources" | Some l => WSources l end))).
Definition GetSourceStats (e : env) (x : context) : prog DB reply :=
  with_org x (λ org,
  bind (GetStats e 0 org) (λ o,
  match o with
  | None => Ret (WErr 500 "failed to fetch stats")
  | Some st => bind (GetSyncStatus e 3 org) (λ y, Ret (WStats st y))
  end)).
Definition ManualSync_ (e : env) (es : nat → env) (fs : nat → fetcher) (x : context) : prog DB reply :=
  with_org x (λ org, bind (ManualSync e es fs org) (λ b, Ret (if b then WStatus "sync triggered" else WErr 500 "sync failed"))).
Definition no_threat : lookup_response := mkResponse false "" "" 0 "" "".
Definition threat (what : string) (y : ThreatIntelEntry) : lookup_response :=
  mkResponse true (ThreatLevel y) (ThreatCategory y) (ConfidenceScore y) (SourceID y) (what +:+ " found in threat intelligence database").
Definition answer_of (what : string) (r : result string (option ThreatIntelEntry)) : lookup_response :=
  match r with Ok (Some y) => threat what y | _ => no_threat end.
Definition LookupThreat (e : env) (x : context) (body : option (string * string)) : prog DB reply :=
  with_org x (λ org,
  match body with
  | None => Ret (WErr 400 "invalid request")
  | Some (domain, ip) =>
      if bool_decide (domain = "") && bool_decide (ip = "") then Ret (WErr 400 "domain or ip is required")
      else
        bind (if bool_decide (domain = "") then Ret no_threat else bind (QueryDomain e 0 org domain) (λ r, Ret (answer_of "Domain" r))) (λ a,
        if IsThreat a || bool_decide (ip = "") then Ret (WLookup a)
        else bind (QueryIP e 1 org ip) (λ r, Ret (WLookup (answer_of "IP" r))))
  end).
Definition EvictStale_ (e : env) (x : context) : prog DB reply :=
  with_org x (λ org, bind (EvictStale e org) (λ o, Ret (match o with None => WErr 500 "cleanup failed" | Some n => WEvicted n end))).

(** What runs: the requests, the ticks of the synchronisation and the creation of sources. *)
Inductive call :=
| CSources (e : env) (x : context) | CStats (e : env) (x : context) | CSync (e : env) (es : nat → env) (fs : nat → fetcher) (x : context)
| CLookup (e : env) (x : context) (body : option (string * string)) | CEvict (e : env) (x : context)
| CTick (e : env) (f : fetcher) | CCreate (e : env) (s : ThreatIntelSource).
Definition serve (c : call) : prog DB reply :=
  match c with
  | CSources e x => ListSources_ e x
  | CStats e x => GetSourceStats e x
  | CSync e es fs x => ManualSync_ e es fs x
  | CLookup e x b => LookupThreat e x b
  | CEvict e x => EvictStale_ e x
  | CTick e f => bind (syncAllSources e f) (λ _, Ret (WStatus ""))
  | CCreate e s => bind (CreateSource e s) (λ _, Ret (WStatus ""))
  end.

(** ** The state that never changes *)

(** No source was ever synchronised, and all entries belong to the system organization. *)
Definition inert (d : DB) : Prop :=
  map_Forall (λ _ r, s_duration r = None) (sources d)
  ∧ map_Forall (λ _ x, uuid SystemThreatOrgID = Some (e_OrgID x)) (entries d).

Lemma scan_unsynced id r : s_duration r = None → scan_source id r = None.
Proof. intros H. unfold scan_source. rewrite H. by destruct (s_token r). Qed.
Lemma insert_source_inert id r d d' : insert_source id r d = Some d' → s_duration r = None → inert d → inert d'.
Proof.
  unfold insert_source. destruct (_ && _); [|done]. intros [= <-] Hr [Hs He]. split; [|done]. by apply map_Forall_insert_2.
Qed.
Lemma unlisted org ro d : inert d →
  omap (λ kv, scan_source (fst kv) (snd kv)) (newest s_created (select ro (λ _ r, bool_decide (s_org r = org)) (sources d))) = [].
Proof.
  intros [Hs _]. set (l := newest _ _). assert (∀ kv, kv ∈ l → scan_source (fst kv) (snd kv) = None) as Hl.
  { intros [k r] Hin. unfold l, newest in Hin. rewrite merge_sort_Permutation in Hin. apply elem_of_select in Hin as [Hk _].
    apply scan_unsynced. by apply (Hs k r). }
  clearbody l. induction l as [|kv l IH]; [done|]. cbn. rewrite Hl by apply list_elem_of_here. apply IH. intros x Hx. apply Hl. by right.
Qed.
Lemma upsert_inert e k source org x d d' :
  uuid SystemThreatOrgID = Some org → upsert e k source org x d = Some d' → inert d → inert d'.
Proof.
  intros Hu. unfold upsert. destruct (acceptable x); [|done]. cbn [negb].
  pose proof (select_head (order e) (same_entry source x) (entries d)) as Hsel.
  destruct (head _) as [[id y]|]; [|destruct (_ && _); [|done]]; intros [= <-] [Hs He]; (split; [done|]); apply map_Forall_insert_2; try done.
  cbn. by apply (He id y), Hsel.
Qed.
Lemma loop_inert e i k source org l d ab n :
  uuid SystemThreatOrgID = Some org → inert d → inert (fst (fst (upsert_loop e i k source org l d ab n))).
Proof.
  intros Hu. revert k d ab n. induction l as [|x l IH]; intros k d ab n Hd; cbn; [done|]. destruct ab; [by apply IH|].
  destruct (ok e (i + k)); [|by apply IH]. destruct (upsert e k source org x d) as [d'|] eqn:E; [|by apply IH]. apply IH. by eapply upsert_inert.
Qed.

Lemma keeps_ensure e i : keeps inert (EnsureSystemSource e i).
Proof.
  apply keeps_one. intros d Hd. destruct (uuid SystemThreatSourceID) as [id|]; [|done]. destruct (uuid SystemThreatOrgID) as [org|] eqn:Ho; [|done].
  destruct (ok e i); [|done]. cbn [negb]. case_bool_decide; [done|]. destruct (insert_source _ _ _) eqn:E; [|done]. by eapply insert_source_inert.
Qed.
Lemma keeps_system_upsert e i source l : keeps inert (UpsertEntries e i source SystemThreatOrgID l).
Proof.
  unfold UpsertEntries. destruct l as [|x l]; [constructor|]. apply keeps_one. intros d Hd. destruct (uuid source) as [src|]; [|done].
  destruct (uuid SystemThreatOrgID) as [org|] eqn:Ho; [|done]. destruct (ok e i); [|done]. cbn [negb].
  pose proof (loop_inert e (i + 1) 0 src org (x :: l) d false 0 Ho Hd) as H. destruct (upsert_loop _ _ _ _ _ _ _ _ _) as [[d' ab] n]. by destruct ab.
Qed.
Lemma keeps_logsync e i l : keeps inert (LogSync e i l).
Proof. apply keeps_one. intros d Hd. destruct (uuid (l_OrgID l)), (uuid (l_SourceID l)); try done. by destruct (_ && _). Qed.
Lemma keeps_stats e i org : keeps inert (GetStats e i org).
Proof.
  unfold GetStats. destruct (uuid org); [|constructor]. apply keeps_bind; [apply keeps_query|]. intros [n|]; [|constructor].
  apply keeps_bind; [apply keeps_query|]. intros [m|]; [|constructor]. apply keeps_bind; [apply keeps_query|constructor].
Qed.
Lemma intel_keeps c : keeps inert (serve c).
Proof.
  destruct c as [e x|e x|e es fs x|e x b|e x|e f|e s]; cbn [serve].
  - unfold ListSources_, with_org. destruct (_ !! _); [|constructor]. apply keeps_bind; [apply keeps_query|constructor].
  - unfold GetSourceStats, with_org. destruct (_ !! _) as [org|]; [|constructor]. apply keeps_bind; [apply keeps_stats|].
    intros [st|]; [|constructor]. apply keeps_bind; [|constructor]. unfold GetSyncStatus. apply keeps_bind; [apply keeps_query|].
    intros [l|]; [|constructor]. apply keeps_bind; [apply keeps_stats|constructor].
  - unfold ManualSync_, with_org. destruct (_ !! _) as [org|]; [|constructor]. apply keeps_bind; [|constructor]. apply keeps_read.
    intros d Hd. destruct (uuid org) as [o|]; [|constructor]. destruct (ok e 0); [|constructor]. rewrite unlisted by done. constructor.
  - unfold LookupThreat, with_org. destruct (_ !! _) as [org|]; [|constructor]. destruct b as [[dom ip]|]; [|constructor].
    destruct (_ && _); [constructor|]. apply keeps_bind.
    + case_bool_decide; [constructor|]. apply keeps_bind; [apply keeps_query|constructor].
    + intros a. destruct (_ || _); [constructor|]. apply keeps_bind; [apply keeps_query|constructor].
  - unfold EvictStale_, with_org. destruct (_ !! _) as [org|]; [|constructor]. apply keeps_bind; [|constructor]. apply keeps_one.
    intros d [Hs He]. destruct (uuid org); [|done]. destruct (ok e 0); [|done]. split; [done|]. intros id y Hy. cbn in Hy.
    apply map_lookup_filter_Some in Hy as [Hy _]. by apply (He id y).
  - apply keeps_bind; [|constructor]. unfold syncAllSources. apply keeps_bind; [apply keeps_ensure|]. intros [|]; [|constructor]. cbn [negb].
    apply keeps_bind; [apply keeps_system_upsert|]. intros [n|]; [|constructor]. apply keeps_bind; [apply keeps_logsync|constructor].
  - apply keeps_bind; [|constructor]. apply keeps_one. intros d Hd. destruct (uuid (OrgID s)) as [org|]; [|done]. destruct (ok e 0); [|done].
    destruct (insert_source _ _ _) eqn:E; [|done]. by eapply insert_source_inert.
Qed.

(** The tables after the migration, with or without its system source. *)
Definition migrated (orgs : gset string) (src : option (string * string * Z)) : DB :=
  mkDB (match src with Some (id, org, t) => {[id := system_row org t]} | None => ∅ end) ∅ [] orgs.
Lemma migrated_inert orgs src : inert (migrated orgs src).
Proof.
  split; [|apply map_Forall_empty]. destruct src as [[[id org] t]|]; cbn; [|apply map_Forall_empty]. by apply map_Forall_singleton.
Qed.

(** C37: Threat intelligence reaches no tenant.  In any interleaving of requests, scheduled
    synchronisations and creations of sources, whatever the feeds deliver: no source can be read, so
    the list of sources is empty and a requested synchronisation changes nothing; and a lookup by a tenant other than the system organization never reports
    a threat, since what the scheduled synchronisation stores belongs to that organization. *)
Theorem intelligence_inert orgs src s :
  rtc (istep serve) (mkPool (migrated orgs src) []) s →
  (∀ e x l, snd (exec (serve (CSources e x)) (data s)) = WSources l → l = [])
  ∧ (∀ e es fs x, fst (exec (serve (CSync e es fs x)) (data s)) = data s)
  ∧ (∀ e x b r, snd (exec (serve (CLookup e x b)) (data s)) = WLookup r →
       uuid (default "" (keys x !! "org_id")) ≠ uuid SystemThreatOrgID → IsThreat r = false).
Proof.
  intros Hr. assert (inert (data s)) as Hd by (eapply reachable_keeps; [apply intel_keeps|apply migrated_inert|exact Hr]).
  split_and!.
  - intros e x l. cbn. unfold ListSources_, with_org. destruct (_ !! _) as [org|]; [|done]. cbn. destruct (uuid org) as [o|]; [|done].
    destruct (ok e 0); [|done]. cbn. rewrite unlisted by done. by intros [= <-].
  - intros e es fs x. cbn. unfold ManualSync_, with_org. destruct (_ !! _) as [org|]; [|done]. cbn. destruct (uuid org) as [o|]; [|done].
    destruct (ok e 0); [|done]. cbn. by rewrite unlisted.
  - intros e x b r. cbn. unfold LookupThreat, with_org. destruct (keys x !! "org_id") as [org|] eqn:Ho; [|done].
    intros E Hne. change (default "" (Some org)) with org in Hne. assert (∀ ty i v w, answer_of w (snd (exec (query_entry ty e i org v) (data s))) = no_threat) as Hno.
    { intros ty i v w. cbn. destruct (uuid org) as [o|] eqn:Hu; [|done]. destruct (ok e i); [|done].
      set (p := λ _ _, _). pose proof (select_head (order e) p (entries (data s))) as Hsel. destruct (head _) as [[id y]|]; [|done].
      destruct Hsel as [Hy Hp]. unfold p in Hp. rewrite !andb_true_iff, bool_decide_eq_true in Hp. destruct Hp as [[[Hp _] _] _].
      destruct Hd as [_ He]. pose proof (He id y Hy) as Hsys. cbn in Hsys. congruence. }
    destruct b as [[dom ip]|]; [|done]. destruct (_ && _); [done|]. rewrite exec_bind in E. revert E. case_bool_decide as Hdom.
    + cbn [exec fst snd IsThreat no_threat orb]. case_bool_decide; [by intros [= <-]|]. rewrite exec_bind. cbn [exec snd].
      unfold QueryIP. rewrite Hno. by intros [= <-].
    + rewrite !exec_bind. cbn [exec fst snd]. unfold QueryDomain. rewrite Hno. cbn [IsThreat no_threat orb].
      case_bool_decide; [by intros [= <-]|]. rewrite exec_bind. cbn [exec snd]. unfold QueryIP. cbn [exec query_entry query stmt fst snd].
      pose proof (Hno "ip" 1 ip "IP") as Hip. cbn in Hip. cbn. rewrite Hip. by intros [= <-].
Qed.

(** ** A batch is stored as a whole *)

Definition present (t : Z) (source : string) (d : DB) (x : ThreatIntelEntry) : Prop :=
  ∃ id y, entries d !! id = Some y ∧ SourceID y = source ∧ EntryType y = EntryType x ∧ EntryValue y = EntryValue x ∧ ExpiresAt y = (t + thirty_days)%Z.

Lemma upsert_present e k source org x d d' : upsert e k source org x d = Some d' →
  acceptable x = true ∧ present (db_now e) source d' x ∧ ∀ z, present (db_now e) source d z → present (db_now e) source d' z.
Proof.
  unfold upsert. destruct (acceptable x); [|done]. cbn [negb]. pose proof (select_head (order e) (same_entry source x) (entries d)) as Hsel.
  destruct (head _) as [[id y]|].
  - destruct Hsel as [Hy Hsame]. unfold same_entry in Hsame. rewrite !andb_true_iff, !bool_decide_eq_true in Hsame. destruct Hsame as [[H1 H2] H3].
    intros [= <-]. split_and!; [done| |].
    + exists id, (refreshed (db_now e) x y). cbn. rewrite lookup_insert_eq. by split_and!.
    + intros z (j & w & Hj & Hw). destruct (decide (id = j)) as [<-|Hne].
      * exists id, (refreshed (db_now e) x y). cbn. rewrite lookup_insert_eq. rewrite Hy in Hj. injection Hj as <-. naive_solver.
      * exists j, w. cbn. by rewrite lookup_insert_ne.
  - destruct (_ && _) eqn:Hc; [|done]. rewrite !andb_true_iff, bool_decide_eq_true in Hc. destruct Hc as [[Hfree _] _]. intros [= <-]. split_and!; [done| |].
    + eexists (ids e k), _. cbn. rewrite lookup_insert_eq. by split_and!.
    + intros z (j & w & Hj & Hw). exists j, w. cbn. by rewrite lookup_insert_ne by congruence.
Qed.
Lemma loop_aborted e i k source org l d n : snd (fst (upsert_loop e i k source org l d true n)) = true.
Proof. revert k. induction l as [|x l IH]; intros k; [done|]. apply IH. Qed.
Lemma loop_done e i k source org l d n d' c :
  upsert_loop e i k source org l d false n = (d', false, c) →
  c = n + length l ∧ Forall (λ x, acceptable x = true ∧ present (db_now e) source d' x) l
  ∧ ∀ z, present (db_now e) source d z → present (db_now e) source d' z.
Proof.
  revert k d n. induction l as [|x l IH]; intros k d n; cbn; [intros [= <- <-]; split_and!; [lia|constructor|done]|].
  pose proof (loop_aborted e i (S k) source org l d n) as Hab. destruct (ok e (i + k)); cbn [negb].
  - destruct (upsert e k source org x d) as [d1|] eqn:E; [|intros E'; rewrite E' in Hab; done].
    intros (-> & Hl & Hk)%IH. destruct (upsert_present _ _ _ _ _ _ _ E) as (Ha & Hp & Hq). split_and!; [cbn; lia| |naive_solver].
    constructor; [|done]. split; [done|]. by apply Hk.
  - intros E'. by rewrite E' in Hab.
Qed.

(** C38: A batch is stored as a whole or not at all.  When it is reported as stored, the number is
    that of its entries and each of them is in the table, valid for thirty days from now; otherwise
    the tables are as before.  So a single entry the columns do not take, such as one of a pulse
    whose name has a quote in it, keeps all entries of all feeds out, although the loop is written to
    go on after it. *)
Theorem batch_atomic e i sourceID orgID l d d' r :
  exec (UpsertEntries e i sourceID orgID l) d = (d', r) →
  match r with
  | None => d' = d
  | Some n => n = length l ∧ (l ≠ [] → ∃ source, uuid sourceID = Some source ∧ Forall (λ x, present (db_now e) source d' x) l)
  end ∧ (∀ x, x ∈ l → acceptable x = false → r = None ∧ d' = d).
Proof.
  unfold UpsertEntries. destruct l as [|x0 l]; [intros [= <- <-]; split; [done|]; intros x Hx; by apply elem_of_nil in Hx|].
  set (k := x0 :: l). cbn [exec stmt fst snd]. destruct (uuid sourceID) as [source|]; [|by intros [= <- <-]].
  destruct (uuid orgID) as [org|]; [|by intros [= <- <-]]. destruct (ok e i); [|by intros [= <- <-]]. cbn [negb].
  destruct (upsert_loop _ _ _ _ _ _ _ _ _) as [[d1 ab] c] eqn:E. destruct ab; [by intros [= <- <-]|]. intros [= <- <-].
  apply loop_done in E as (-> & Hl & _). split.
  - split; [done|]. intros _. exists source. split; [done|]. eapply Forall_impl; [exact Hl|]. by intros x [_ Hx].
  - intros x Hx Hbad. eapply Forall_forall in Hl as [Hacc _]; [|exact Hx]. congruence.
Qed.
End Store.

(** ** Witnesses *)

Definition demo_uuid (s : string) : option string := if bool_decide (s = "") then None else Some s.
(** Takes the texts whose quotes come in pairs. *)
Definition demo_jsonb (s : string) : bool := Nat.odd (length (Split Json.dq s)).
Definition demo_env : env := mkEnv (λ k, "e" +:+ itoa (Z.of_nat k)) 1000 (λ i, Z.of_nat i) (λ _, true) canonical_order "error".
Definition demo_pulse (name : string) : pulse := mkPulse "p1" name [mkIndicator "domain" "bad.example"; mkIndicator "email" "x@y"] None.
Definition demo_feeds (name : string) : fetcher := mkFetcher "key" "" "" (Answer (Some [demo_pulse "Emotet"; demo_pulse name])) NoAnswer NoAnswer.
Definition demo_ctx (org : string) : context := Set_ "org_id" org new_context.
Definition demo_start : DB := migrated {[SystemThreatOrgID; "acme"]} None.
Definition demo_state (name : string) : pool DB reply call :=
  schedule (serve demo_uuid demo_jsonb) demo_start [CTick demo_env (demo_feeds name)] [0; 0; 0].
Definition quoted_name : string := String Json.dq "Emotet".

Lemma intelligence_inert_witness :
  let s := demo_state "Emotet" in
  size (entries (data s)) = 1
  ∧ snd (exec (serve demo_uuid demo_jsonb (CLookup demo_env (demo_ctx SystemThreatOrgID) (Some ("bad.example", "")))) (data s))
    = WLookup (mkResponse true "high" "malware" 85 SystemThreatSourceID "Domain found in threat intelligence database")
  ∧ ∀ r, snd (exec (serve demo_uuid demo_jsonb (CLookup demo_env (demo_ctx "acme") (Some ("bad.example", "")))) (data s)) = WLookup r →
      IsThreat r = false.
Proof.
  cbv zeta. split_and!; [by vm_compute|by vm_compute|]. intros r E.
  destruct (intelligence_inert demo_uuid demo_jsonb {[SystemThreatOrgID; "acme"]} None (demo_state "Emotet")) as (_ & _ & H);
    [apply schedule_reachable|]. apply (H _ _ _ _ E). by vm_compute.
Defined.
Lemma batch_atomic_witness :
  let l := FetchAll (demo_feeds quoted_name) in
  let d := fst (exec (EnsureSystemSource demo_uuid demo_jsonb demo_env 0) demo_start) in
  length l = 2 ∧ exec (UpsertEntries demo_uuid demo_jsonb demo_env 3 SystemThreatSourceID SystemThreatOrgID l) d = (d, None).
Proof.
  cbv zeta. split; [by vm_compute|]. set (l := FetchAll _). set (d := fst _).
  destruct (exec (UpsertEntries demo_uuid demo_jsonb demo_env 3 SystemThreatSourceID SystemThreatOrgID l) d) as [d' r] eqn:E.
  destruct (batch_atomic demo_uuid demo_jsonb demo_env 3 SystemThreatSourceID SystemThreatOrgID l d d' r E) as [_ H].
  destruct (H (feed_entry "domain" "bad.example" "malware" "high" 85 (otx_metadata (demo_pulse quoted_name)))) as [-> ->]; [|by vm_compute|done].
  unfold l. vm_compute. right. left.
Defined.
End ThreatIntel.
