(* ===== verification/ThreatFeed.v ===== *)
(** * DNS threat feeds

    [src/internal/threatfeed/feed.go] and [store.go], with the choice of the feeds of
    [src/cmd/server/main.go].  Providers fetch lists of domains for a category; the aggregator
    starts one goroutine for each and merges what arrives, in whatever order, into a map from
    domains to sorted categories; the store keeps the last such map with a revision derived from
    its content, and refreshes it when a timer fires.

    A provider is a record of operations, as the interface is; the code's own provider reads a
    list over HTTP.  What the web answers, for each goroutine of a refresh, and the order in which
    the goroutines deliver are parts of the refresh.  Texts are ASCII as far as case and white
    space are concerned. *)

From S2P Require Import Prelude GoStrings GoText Sha256.
From Stdlib Require Import Ascii.
#[local] Open Scope string_scope.
#[local] Open Scope nat_scope.
#[local] Open Scope list_scope.

Module ThreatFeed.
Import GoStrings GoText.

(** ** Lists of domains *)

Record ThreatEntry := mkEntry { Domain : string; Category : string; Source : string }.

Definition normalizeDomain (d : string) : string :=
  let d := ToLower (TrimSpace d) in
  let d := TrimSuffix d "." in
  let d := TrimPrefix d "*." in
  if bool_decide (d = "") || existsb (λ c, Ascii.eqb c " " || Ascii.eqb c "/" || Ascii.eqb c ":") (chars d)
     || negb (Contains d ".") then ""
  else if ParseIP d then "" else d.

Definition is_comment (c : ascii) : bool := Ascii.eqb c "#" || Ascii.eqb c "!".
Definition extractDomain (line : string) : string :=
  if bool_decide (line = "") || HasPrefix line "#" || HasPrefix line "!" then ""
  else
    let line := match before_any is_comment line with Some l => TrimSpace l | None => line end in
    let line := if HasPrefix line "||" then TrimSuffix (TrimSpace (TrimPrefix line "||")) "^" else line in
    match Fields line with
    | [] => ""
    | [w] => normalizeDomain w
    | _ :: w :: _ => normalizeDomain w
    end.

(** The scanner gives up at the first line that does not fit its buffer. *)
Definition max_token : Z := 8 * 1024 * 1024.
Definition fits (line : string) : bool := (Z.of_nat (String.length line) <? max_token)%Z.

Definition keep_new (acc : gset string * list string) (line : string) : gset string * list string :=
  let '(seen, out) := acc in
  let d := extractDomain (TrimSpace (TrimSuffix line cr)) in
  if bool_decide (d = "") then acc else if bool_decide (d ∈ seen) then acc else ({[d]} ∪ seen, out ++ [d]).

(** [broken] is the error with which the body ends early. *)
Definition parseDomainList (body : string) (broken : option string) : result string (list string) :=
  if negb (forallb fits (lines body)) then Err "bufio.Scanner: token too long"
  else match broken with
       | Some e => Err e
       | None => Ok (snd (foldl keep_new (∅, []) (lines body)))
       end.

(** ** Providers *)

Inductive answer :=
| BadRequest (err : string)
| Unreachable (err : string)
| Response (status : Z) (body : string) (broken : option string).
Definition web := string → answer.
Definition fetched : Type := list ThreatEntry * option string.

Record Provider := mkProvider { Name : string; Category_ : string; Fetch : web → fetched }.
Record DomainListProvider := mkList { ProviderName : string; Cat : string; URL : string }.

Definition list_Fetch (p : DomainListProvider) (w : web) : fetched :=
  match w (URL p) with
  | BadRequest e => ([], Some e)
  | Unreachable e => ([], Some ("threatfeed " +:+ ProviderName p +:+ ": " +:+ e))
  | Response status body broken =>
      if negb (status =? 200)%Z then ([], Some ("threatfeed " +:+ ProviderName p +:+ ": status " +:+ itoa status))
      else match parseDomainList body broken with
           | Err e => ([], Some e)
           | Ok domains => ((λ d, mkEntry d (Cat p) (ProviderName p)) <$> domains, None)
           end
  end.
Definition list_provider (p : DomainListProvider) : Provider := mkProvider (ProviderName p) (Cat p) (list_Fetch p).

Definition feed_spec (part : string) : option DomainListProvider :=
  match cut "="%char (TrimSpace part) with
  | None => None
  | Some (k, v) =>
      let cat := TrimSpace k in let url := TrimSpace v in
      if bool_decide (cat = "") || bool_decide (url = "") then None else Some (mkList (cat +:+ "-feed") cat url)
  end.
Definition ParseFeedSpecs (spec : string) : list DomainListProvider := omap feed_spec (Split ","%char spec).

(** The feeds the server starts with. *)
Definition dnsFeedProviders (spec : string) : list DomainListProvider :=
  match ParseFeedSpecs spec with
  | [] => [mkList "urlhaus" "malicious" "https://urlhaus.abuse.ch/downloads/hostfile/"]
  | ps => ps
  end.

(** ** The aggregator *)

Definition add_entry (merged : gmap string (gset string)) (e : ThreatEntry) : gmap string (gset string) :=
  if bool_decide (Domain e = "") || bool_decide (Category e = "") then merged
  else <[Domain e := {[Category e]} ∪ default ∅ (merged !! Domain e)]> merged.
Definition receive (acc : gmap string (gset string) * list string) (r : fetched) : gmap string (gset string) * list string :=
  let '(merged, errs) := acc in
  (foldl add_entry merged (fst r), match snd r with Some e => errs ++ [e] | None => errs end).

(** One refresh: what each goroutine gets from the web, and the order of delivery. *)
Record fetching := mkFetching {
  answers : nat → web;
  arrive : list fetched → list fetched;
  arrive_perm : ∀ l, arrive l ≡ₚ l;
}.
Definition in_order (ws : nat → web) : fetching := mkFetching ws id (λ l, Permutation_refl l).

Definition results (f : fetching) (ps : list Provider) : list fetched := imap (λ i p, Fetch p (answers f i)) ps.
Definition Collect (f : fetching) (ps : list Provider) : gmap string (list string) * option string :=
  let '(merged, errs) := foldl receive (∅, []) (arrive f (results f ps)) in
  ((λ cats, sort_strings (elements cats)) <$> merged,
   if length errs =? 0 then None
   else Some ("threatfeed: " +:+ itoa (Z.of_nat (length errs)) +:+ " provider error(s): " +:+ Join errs "; ")).

(** ** The store *)

Definition nul : string := String zero "".
Definition record_text (domains : gmap string (list string)) (d : string) : string :=
  d +:+ nul +:+ Join ((λ c, c +:+ nul) <$> default [] (domains !! d)) "" +:+ lf.
Definition revision_text (domains : gmap string (list string)) : string :=
  Join (record_text domains <$> sort_strings (elements (dom domains))) "".
(** [hex.EncodeToString(h.Sum(nil))[:16]] *)
Definition digest (text : string) : string := Hex.encode (take 8 (Sha256.sha256 (of_string text))).
Definition computeRevision (domains : gmap string (list string)) : string := digest (revision_text domains).

Record Store := mkStore { agg : list Provider; domains : gmap string (list string); revision : string }.
Definition NewStore (agg : list Provider) : Store := mkStore agg ∅ "".
Definition Refresh (f : fetching) (s : Store) : Store * option string :=
  let '(ds, err) := Collect f (agg s) in
  if (size ds =? 0) && bool_decide (is_Some err) then (s, err) else (mkStore (agg s) ds (computeRevision ds), err).
Definition Snapshot (s : Store) : gmap string (list string) * string := (domains s, revision s).
(** One refresh at the start and one for each tick. *)
Definition Run (first : fetching) (ticks : list fetching) (s : Store) : Store :=
  foldl (λ s f, fst (Refresh f s)) s (first :: ticks).

(** ** Extracted domains *)

(** What a gateway can rely on: a lower-case name with a dot, without white space, slash or colon,
    and no address. *)
Definition clean (d : string) : Prop :=
  d ≠ "" ∧ ToLower d = d ∧ Contains d "." = true ∧ ParseIP d = false
  ∧ ∀ c, c ∈ chars d → is_space c = false ∧ c ≠ "/"%char ∧ c ≠ ":"%char.

Lemma lower_of_chars s : (∀ c, c ∈ chars s → lower_char c = c) → ToLower s = s.
Proof.
  intros H. apply chars_inj. unfold ToLower. rewrite chars_smap. transitivity (id <$> chars s); [|apply list_fmap_id].
  apply list_fmap_ext. intros i c Hc. apply H. by eapply list_elem_of_lookup_2.
Qed.

Lemma lower_space c : is_space (lower_char c) = is_space c.
Proof. destruct c as [[] [] [] [] [] [] [] []]; reflexivity. Qed.

Lemma normalize_chars d c :
  c ∈ chars (TrimPrefix (TrimSuffix (ToLower (TrimSpace d)) ".") "*.") → ∃ c', c' ∈ chars d ∧ c = lower_char c'.
Proof.
  intros Hc%chars_TrimPrefix%chars_TrimSuffix. unfold ToLower in Hc. rewrite chars_smap in Hc.
  apply list_elem_of_fmap in Hc as (c' & -> & Hc'). exists c'. split; [|done]. by apply chars_TrimSpace.
Qed.

Lemma normalize_clean d :
  (∀ c, c ∈ chars d → is_space c = false) → normalizeDomain d ≠ "" → clean (normalizeDomain d).
Proof.
  intros Hs. unfold normalizeDomain. set (x := TrimPrefix _ _).
  assert (Hx : ∀ c, c ∈ chars x → ∃ c', c' ∈ chars d ∧ c = lower_char c') by (intros c; apply normalize_chars).
  destruct (bool_decide (x = "")) eqn:E0; [done|]. destruct (existsb _ (chars x)) eqn:E1; [done|].
  destruct (Contains x ".") eqn:E2; [|done]. destruct (ParseIP x) eqn:E3; [done|]. cbn. intros _. split_and!; try done.
  - by apply bool_decide_eq_false in E0.
  - apply lower_of_chars. intros c (c' & _ & ->)%Hx. apply lower_char_idem.
  - intros c Hc. split; [|].
    + destruct (Hx c Hc) as (c' & Hc' & ->). rewrite lower_space. by apply Hs.
    + assert (Hn : Ascii.eqb c " " || Ascii.eqb c "/" || Ascii.eqb c ":" = false).
      { apply not_true_is_false. intros Ht. apply not_true_iff_false in E1. apply E1, existsb_exists. exists c.
        split; [by apply list_elem_of_In|done]. }
      split; intros ->; done.
Qed.

Lemma extract_clean line : extractDomain line ≠ "" → clean (extractDomain line).
Proof.
  unfold extractDomain. destruct (_ || _ || _); [done|]. set (l := if HasPrefix _ _ then _ else _).
  pose proof (Fields_words l) as Hw. destruct (Fields l) as [|w [|w' ws]]; [done|..].
  - apply normalize_clean. by inversion_clear Hw as [|?? [_ H] _].
  - apply normalize_clean. inversion_clear Hw as [|?? _ Hw']. by inversion_clear Hw' as [|?? [_ H] _].
Qed.

(** ** What a line lists

    Said of the line, not of the parser. *)

(** The text of a line: what comes before a comment, without the white space around it. *)
Definition line_text (line t : string) : Prop :=
  ∃ u rest, line = u +:+ rest ∧ (∀ c, c ∈ chars u → c ≠ "#"%char ∧ c ≠ "!"%char)
    ∧ (rest = "" ∨ ∃ r, rest = String "#" r ∨ rest = String "!" r) ∧ t = TrimSpace u.
(** The word that names a domain: the only one, or the second one, after an address. *)
Definition naming (t w : string) : Prop := Fields t = [w] ∨ ∃ address ws, Fields t = address :: w :: ws.
Definition without_end (s e x : string) : Prop := s = x +:+ e ∨ s = x ∧ ∀ y, s ≠ y +:+ e.
Definition without_start (s b x : string) : Prop := s = b +:+ x ∨ s = x ∧ ∀ y, s ≠ b +:+ y.
(** A rule is written with two bars before it and a caret after it. *)
Definition line_word (line w : string) : Prop :=
  ∃ t, line_text line t
    ∧ ((∀ v, t ≠ "||" +:+ v) ∧ naming t w ∨ ∃ v x, t = "||" +:+ v ∧ without_end (TrimSpace v) "^" x ∧ naming x w).
(** The domain of a word: in lower case, without a dot at the end and a wildcard label before it.
    It has a dot and neither blank, slash nor colon, and is no address. *)
Definition domain_of (w d : string) : Prop :=
  ∃ x, without_end (ToLower w) "." x ∧ without_start x "*." d
    ∧ "."%char ∈ chars d ∧ (∀ c, c ∈ chars d → c ≠ " "%char ∧ c ≠ "/"%char ∧ c ≠ ":"%char) ∧ ParseIP d = false.
Definition lists (line d : string) : Prop := ∃ w, line_word line w ∧ domain_of w d.

Lemma HasPrefix_spec s p : HasPrefix s p = true ↔ ∃ t, s = p +:+ t.
Proof. split; [apply substring_drop|]. intros [t ->]. apply HasPrefix_app. Qed.
Lemma HasSuffix_spec s e : HasSuffix s e = true ↔ ∃ x, s = x +:+ e.
Proof.
  split; [|intros [x ->]; apply HasSuffix_app]. unfold HasSuffix. intros [Hl He]%andb_true_iff. apply Nat.leb_le in Hl. apply bool_decide_eq_true in He.
  exists (String.substring 0 (String.length s - String.length e) s). apply chars_inj. rewrite chars_append, chars_substring, drop_0.
  apply (f_equal chars) in He. rewrite chars_substring in He. rewrite <- He.
  rewrite (take_ge (drop _ _)); [by rewrite take_drop|]. rewrite length_drop, length_chars. lia.
Qed.
Lemma TrimSuffix_app x e : TrimSuffix (x +:+ e) e = x.
Proof.
  unfold TrimSuffix. rewrite HasSuffix_app. apply chars_inj.
  rewrite chars_substring, chars_append, drop_0, length_string_app, Nat.add_sub, <- length_chars. apply take_app_length.
Qed.
Lemma without_end_iff s e x : without_end s e x ↔ TrimSuffix s e = x.
Proof.
  unfold without_end. destruct (HasSuffix s e) eqn:E.
  - apply HasSuffix_spec in E as [y ->]. rewrite TrimSuffix_app. split; [|intros ->; by left].
    intros [H|[_ H]]; [|by destruct (H y)]. by rewrite <- (TrimSuffix_app y e), H, TrimSuffix_app.
  - unfold TrimSuffix. rewrite E. split.
    + intros [->|[-> _]]; [|done]. by rewrite HasSuffix_app in E.
    + intros ->. right. split; [done|]. intros y ->. by rewrite HasSuffix_app in E.
Qed.
Lemma without_start_iff s b x : without_start s b x ↔ TrimPrefix s b = x.
Proof.
  unfold without_start. rewrite TrimPrefix_spec. split; (intros [H|[H1 H2]]; [by left|right; split; [done|]]).
  - apply not_true_is_false. intros [t Ht]%HasPrefix_spec. by apply (H2 t).
  - intros y Hy. apply not_true_iff_false in H2. apply H2, HasPrefix_spec. by exists y.
Qed.
Lemma Contains_dot s : Contains s "." = true ↔ "."%char ∈ chars s.
Proof.
  induction s as [|c s IH]; cbn [Contains].
  - split; [done|]. intros H. by apply elem_of_nil in H.
  - rewrite orb_true_iff, IH. cbn [chars String.list_ascii_of_string]. rewrite elem_of_cons. apply or_iff_compat_r.
    change (String.prefix "." (String c s)) with (if ascii_dec "."%char c then String.prefix "" s else false).
    destruct (ascii_dec "."%char c) as [E|Hn]; [split; intros _; [done|by destruct s]|]. split; [done|]. intros E. by destruct Hn.
Qed.

Lemma TrimSpace_word w : (∀ c, c ∈ chars w → is_space c = false) → TrimSpace w = w.
Proof.
  intros Hw. apply chars_inj. unfold TrimSpace, chars in *. rewrite String.list_ascii_of_string_of_list_ascii.
  assert (Hd : ∀ l, (∀ c, c ∈ l → is_space c = false) → drop_space l = l).
  { intros [|c l] Hl; [done|]. cbn. by rewrite (Hl c (list_elem_of_here _ _)). }
  rewrite (Hd _ Hw), Hd, reverse_involutive; [done|]. intros c. rewrite elem_of_reverse. apply Hw.
Qed.
Lemma domain_of_iff w d : (∀ c, c ∈ chars w → is_space c = false) → domain_of w d ↔ normalizeDomain w = d ∧ d ≠ "".
Proof.
  intros Hw. unfold domain_of, normalizeDomain. rewrite TrimSpace_word by done. setoid_rewrite without_end_iff. setoid_rewrite without_start_iff.
  set (x := TrimPrefix _ _). split.
  - intros (y & <- & Hd & Hdot & Hc & Hip). fold x in Hd. subst d. rewrite (proj2 (Contains_dot x) Hdot), Hip. cbn [negb]. rewrite orb_false_r.
    assert (Hne : x ≠ "") by (intros E; rewrite E in Hdot; by apply elem_of_nil in Hdot). rewrite bool_decide_eq_false_2 by done.
    destruct (existsb _ (chars x)) eqn:E; [|done]. apply existsb_exists in E as (c & Hin & E). apply list_elem_of_In in Hin. destruct (Hc c Hin) as (H1 & H2 & H3).
    exfalso. revert E. by rewrite !(proj2 (Ascii.eqb_neq _ _)).
  - destruct (bool_decide (x = "")) eqn:E0; [naive_solver|]. destruct (existsb _ (chars x)) eqn:E1; [naive_solver|].
    destruct (Contains x ".") eqn:E2; [|naive_solver]. destruct (ParseIP x) eqn:E3; [naive_solver|]. cbn. intros [<- _].
    eexists. split; [done|]. fold x. split_and!; [done|by apply Contains_dot| |done]. intros c Hc.
    assert (Hn : Ascii.eqb c " " || Ascii.eqb c "/" || Ascii.eqb c ":" = false).
    { apply not_true_is_false. intros Ht. apply not_true_iff_false in E1. apply E1, existsb_exists. exists c. split; [by apply list_elem_of_In|done]. }
    split_and!; intros ->; done.
Qed.

(** *** The parser cuts the same text out of a line *)

Lemma drop_space_app l c r : is_space c = false → drop_space (l ++ c :: r) = drop_space l ++ c :: r.
Proof. intros Hc. induction l as [|x l IH]; cbn; [by rewrite Hc|]. by destruct (is_space x). Qed.
Definition trim (l : list ascii) : list ascii := reverse (drop_space (reverse (drop_space l))).
Lemma chars_trim s : chars (TrimSpace s) = trim (chars s).
Proof. unfold TrimSpace, chars. by rewrite String.list_ascii_of_string_of_list_ascii. Qed.
Lemma trim_comment u c r : is_space c = false → ∃ r', trim (u ++ c :: r) = drop_space u ++ c :: r'.
Proof.
  intros Hc. unfold trim. rewrite drop_space_app by done. rewrite reverse_app, reverse_cons.
  exists (reverse (drop_space (reverse r))). rewrite <- app_assoc. cbn [app].
  rewrite drop_space_app by done. by rewrite reverse_app, reverse_cons, reverse_involutive, <- app_assoc.
Qed.
Lemma trim_drop u : trim (drop_space u) = trim u.
Proof. unfold trim. by rewrite drop_space_idem. Qed.
Lemma drop_space_all l : (∀ c, c ∈ l → is_space c = true) → drop_space l = [].
Proof. induction l as [|c l IH]; intros H; cbn; [done|]. rewrite (H c) by apply list_elem_of_here. apply IH. intros d Hd. apply H. by apply list_elem_of_further. Qed.
Lemma trim_cr l : trim (l ++ ["013"%char]) = trim l.
Proof.
  unfold trim. destruct (decide (drop_space l = [])) as [E|E].
  - assert (drop_space (l ++ ["013"%char]) = []) as ->; [|by rewrite E]. revert E. induction l as [|c l IH]; cbn; [done|]. by destruct (is_space c).
  - assert (drop_space (l ++ ["013"%char]) = drop_space l ++ ["013"%char]) as ->.
    { revert E. induction l as [|c l IH]; cbn; [done|]. destruct (is_space c); [done|]. done. }
    by rewrite reverse_snoc.
Qed.
Lemma TrimSpace_cr line : TrimSpace (TrimSuffix line cr) = TrimSpace line.
Proof.
  destruct (HasSuffix line cr) eqn:E; [|unfold TrimSuffix; by rewrite E]. apply HasSuffix_spec in E as [x ->]. rewrite TrimSuffix_app.
  apply chars_inj. rewrite !chars_trim, chars_append. symmetry. apply trim_cr.
Qed.

Lemma before_any_spec p s : match before_any p s with
  | Some u => (∀ c, c ∈ chars u → p c = false) ∧ ∃ c r, s = u +:+ String c r ∧ p c = true
  | None => ∀ c, c ∈ chars s → p c = false
  end.
Proof.
  induction s as [|c s IH]; cbn [before_any]; [intros c H; by apply elem_of_nil in H|]. destruct (p c) eqn:Hc.
  - split; [intros d H; by apply elem_of_nil in H|]. by exists c, s.
  - destruct (before_any p s) as [u|]; cbn [fmap option_fmap option_map].
    + destruct IH as [IH (c' & r & -> & Hc')]. split; [|by exists c', r]. cbn [chars String.list_ascii_of_string]. intros d [->|Hd]%elem_of_cons; auto.
    + cbn [chars String.list_ascii_of_string]. intros d [->|Hd]%elem_of_cons; auto.
Qed.
Lemma is_comment_false c : is_comment c = false ↔ c ≠ "#"%char ∧ c ≠ "!"%char.
Proof. unfold is_comment. rewrite orb_false_iff, !Ascii.eqb_neq. done. Qed.
Lemma is_comment_true c : is_comment c = true → (c = "#"%char ∨ c = "!"%char) ∧ is_space c = false.
Proof. unfold is_comment. intros [->%Ascii.eqb_eq| ->%Ascii.eqb_eq]%orb_true_iff; auto. Qed.

Definition cut_comment (line : string) : string := match before_any is_comment line with Some u => u | None => line end.
Lemma line_text_iff line t : line_text line t ↔ t = TrimSpace (cut_comment line).
Proof.
  unfold line_text, cut_comment. pose proof (before_any_spec is_comment line) as Hb. split.
  - intros (u & rest & -> & Hu & Hr & ->). f_equal. destruct (before_any is_comment (u +:+ rest)) as [u'|].
    + destruct Hb as [Hu' (c & r & Heq & Hc)]. apply is_comment_true in Hc as [Hc _]. destruct Hr as [->|(r' & Hr)].
      * exfalso. apply (f_equal chars) in Heq. rewrite !chars_append, app_nil_r in Heq.
        destruct (Hu c); [rewrite Heq; cbn; set_solver|]. destruct Hc; congruence.
      * apply (f_equal chars) in Heq. rewrite !chars_append in Heq. apply chars_inj.
        assert (Hsplit : ∀ (a b : list ascii) x y r1 r2, (∀ z, z ∈ a → is_comment z = false) → (∀ z, z ∈ b → is_comment z = false) →
          is_comment x = true → is_comment y = true → a ++ x :: r1 = b ++ y :: r2 → a = b).
        { clear. induction a as [|z a IH]; intros [|z' b] x y r1 r2 Ha Hb Hx Hy E; cbn in E; [done|..].
          - injection E as -> _. by rewrite (Hb z' (list_elem_of_here _ _)) in Hx.
          - injection E as -> _. by rewrite (Ha y (list_elem_of_here _ _)) in Hy.
          - injection E as -> E. f_equal. eapply (IH b x y); eauto using list_elem_of_further. }
        assert (Hu2 : ∀ z, z ∈ chars u → is_comment z = false) by (intros z Hz; by apply is_comment_false, Hu).
        assert (Hcc : is_comment c = true) by (by destruct Hc as [-> | ->]). 
        destruct Hr as [-> | ->]; [exact (Hsplit _ _ "#"%char c _ _ Hu2 Hu' eq_refl Hcc Heq)|exact (Hsplit _ _ "!"%char c _ _ Hu2 Hu' eq_refl Hcc Heq)].
    + destruct Hr as [->|(r & Hr)]; [apply chars_inj; by rewrite chars_append, app_nil_r|]. exfalso.
      destruct Hr as [-> | ->].
      * assert (is_comment "#" = false) by (apply Hb; rewrite chars_append; apply elem_of_app; right; apply list_elem_of_here). done.
      * assert (is_comment "!" = false) by (apply Hb; rewrite chars_append; apply elem_of_app; right; apply list_elem_of_here). done.
  - intros ->. destruct (before_any is_comment line) as [u|].
    + destruct Hb as [Hu (c & r & -> & Hc)]. exists u, (String c r). split_and!; [done|intros z Hz; by apply is_comment_false, Hu| |done].
      right. exists r. apply is_comment_true in Hc as [[-> | ->] _]; auto.
    + exists line, "". split_and!; [apply chars_inj; by rewrite chars_append, app_nil_r|intros z Hz; by apply is_comment_false, Hb|by left|done].
Qed.
Lemma cut_comment_trim line : TrimSpace (cut_comment (TrimSpace line)) = TrimSpace (cut_comment line).
Proof.
  symmetry. pose proof (before_any_spec is_comment line) as Hb. unfold cut_comment at 1. destruct (before_any is_comment line) as [u|].
  - destruct Hb as [Hu (c & r & -> & Hc)]. pose proof (is_comment_true c Hc) as [Hc' Hs]. apply line_text_iff.
    destruct (trim_comment (chars u) c (chars r) Hs) as [r' Hr'].
    exists (String.string_of_list_ascii (drop_space (chars u))), (String c (String.string_of_list_ascii r')). split_and!.
    + apply chars_inj. rewrite chars_trim, !chars_append. change (chars (String c r)) with (c :: chars r). rewrite Hr'. unfold chars.
      cbn [String.list_ascii_of_string]. by rewrite !String.list_ascii_of_string_of_list_ascii.
    + unfold chars at 1. rewrite String.list_ascii_of_string_of_list_ascii. intros z Hz. apply is_comment_false, Hu.
      destruct (drop_space_suffix (chars u)) as [k Hk]. rewrite Hk. apply elem_of_app. by right.
    + right. exists (String.string_of_list_ascii r'). destruct Hc' as [-> | ->]; auto.
    + apply chars_inj. rewrite !chars_trim. unfold chars at 2. by rewrite String.list_ascii_of_string_of_list_ascii, trim_drop.
  - apply line_text_iff. exists (TrimSpace line), "". split_and!; [apply chars_inj; by rewrite chars_append, app_nil_r| |by left|by rewrite TrimSpace_idem].
    intros z Hz%chars_TrimSpace. by apply is_comment_false, Hb.
Qed.
(** The domain of the text of a line. *)
Definition pick (t : string) : string :=
  match Fields (if HasPrefix t "||" then TrimSuffix (TrimSpace (TrimPrefix t "||")) "^" else t) with
  | [] => "" | [w] => normalizeDomain w | _ :: w :: _ => normalizeDomain w
  end.
Lemma extract_pick line : TrimSpace line = line → extractDomain line = pick (TrimSpace (cut_comment line)).
Proof.
  intros Ht. unfold extractDomain. destruct (decide (line = "")) as [->|Hne]; [done|]. rewrite bool_decide_eq_false_2 by done. cbn [orb].
  destruct (HasPrefix line "#") eqn:H1; [by apply HasPrefix_spec in H1 as [r ->]|].
  destruct (HasPrefix line "!") eqn:H2; [by apply HasPrefix_spec in H2 as [r ->]|]. cbn [orb]. unfold cut_comment, pick.
  destruct (before_any is_comment line) as [u|]; [done|]. by rewrite Ht.
Qed.
Lemma naming_pick t d :
  (∃ w, naming t w ∧ domain_of w d) ↔ match Fields t with [] => "" | [w] => normalizeDomain w | _ :: w :: _ => normalizeDomain w end = d ∧ d ≠ "".
Proof.
  unfold naming. pose proof (Fields_words t) as Hw. destruct (Fields t) as [|w [|w' ws]]; split.
  - intros (w & [?|(? & ? & ?)] & _); done.
  - intros [<- ?]. done.
  - intros (w0 & [[= <-]|(? & ? & ?)] & Hd); [|done]. apply domain_of_iff; [|done]. by inversion_clear Hw as [|?? [_ H] _].
  - intros Hd. exists w. split; [by left|]. apply domain_of_iff; [|done]. by inversion_clear Hw as [|?? [_ H] _].
  - intros (w0 & [?|(? & ? & [= _ <- _])] & Hd); [done|]. apply domain_of_iff; [|done]. inversion_clear Hw as [|?? _ Hw']. by inversion_clear Hw' as [|?? [_ H] _].
  - intros Hd. exists w'. split; [right; by exists w, ws|]. apply domain_of_iff; [|done]. inversion_clear Hw as [|?? _ Hw']. by inversion_clear Hw' as [|?? [_ H] _].
Qed.

Definition line_domain (line : string) : string := extractDomain (TrimSpace (TrimSuffix line cr)).

(** The parser finds the domain a line lists, and nothing else. *)
Lemma lists_iff line d : lists line d ↔ line_domain line = d ∧ d ≠ "".
Proof.
  unfold line_domain. rewrite TrimSpace_cr, extract_pick by apply TrimSpace_idem. rewrite cut_comment_trim. unfold lists, line_word, pick.
  setoid_rewrite line_text_iff. set (t := TrimSpace (cut_comment line)). destruct (HasPrefix t "||") eqn:Hp.
  - apply HasPrefix_spec in Hp as [v Hv]. rewrite Hv, TrimPrefix_app, <- naming_pick. split.
    + intros (w & (t' & -> & [[Hno _]|(v' & x & E & Hx & Hn)]) & Hd); [by destruct (Hno v)|]. exists w. split; [|done].
      assert (v' = v) as ->. { pose proof (f_equal (λ x, TrimPrefix x "||") E) as E'. cbn beta in E'. by rewrite !TrimPrefix_app in E'. } by apply without_end_iff in Hx as ->.
    + intros (w & Hn & Hd). exists w. split; [|done]. exists t. split; [done|]. right. exists v, (TrimSuffix (TrimSpace v) "^").
      split_and!; [done|by apply without_end_iff|done].
  - rewrite <- naming_pick. assert (Hno : ∀ v, t ≠ "||" +:+ v) by (intros v Hv; apply not_true_iff_false in Hp; apply Hp, HasPrefix_spec; eauto). split.
    + intros (w & (t' & -> & [[_ Hn]|(v & x & E & _)]) & Hd); [by exists w|by destruct (Hno v)].
    + intros (w & Hn & Hd). exists w. split; [|done]. exists t. split; [done|]. by left.
Qed.

(** ** Lists *)

Lemma keep_new_spec ls seen out :
  (∀ d, d ∈ seen ↔ d ∈ out) → NoDup out →
  let '(seen', out') := foldl keep_new (seen, out) ls in
  NoDup out' ∧ ∀ d, d ∈ out' ↔ d ∈ out ∨ d ≠ "" ∧ ∃ line, line ∈ ls ∧ line_domain line = d.
Proof.
  revert seen out. induction ls as [|line ls IH]; intros seen out Hso Hnd.
  { cbn. split; [done|]. intros d. split; [by left|]. intros [?|(_ & l & Hl & _)]; [done|by apply elem_of_nil in Hl]. }
  cbn [foldl keep_new]. fold (line_domain line). set (x := line_domain line). case_bool_decide as E; [|case_bool_decide as E'].
  - specialize (IH seen out Hso Hnd). destruct (foldl _ _ _) as [seen' out']. destruct IH as [? IH]. split; [done|].
    intros d. rewrite IH. set_solver.
  - specialize (IH seen out Hso Hnd). destruct (foldl _ _ _) as [seen' out']. destruct IH as [? IH]. split; [done|].
    intros d. rewrite IH. rewrite Hso in E'. set_solver.
  - specialize (IH ({[x]} ∪ seen) (out ++ [x])). destruct (foldl _ _ _) as [seen' out'].
    destruct IH as [? IH].
    + intros d. rewrite elem_of_app, elem_of_union, Hso. set_solver.
    + apply NoDup_app. split_and!; [done|set_solver|apply NoDup_singleton].
    + split; [done|]. intros d. rewrite IH. set_solver.
Qed.

(** A list of domains is the set of what its lines yield. *)
Lemma parse_exact body broken ds :
  parseDomainList body broken = Ok ds →
  broken = None ∧ forallb fits (lines body) = true ∧ NoDup ds
  ∧ ∀ d, d ∈ ds ↔ d ≠ "" ∧ ∃ line, line ∈ lines body ∧ line_domain line = d.
Proof.
  unfold parseDomainList. destruct (forallb _ _); [|done]. destruct broken; [done|]. cbn. intros [= <-].
  pose proof (keep_new_spec (lines body) ∅ []) as H. destruct (foldl _ _ _) as [seen out]. cbn.
  destruct H as [Hn H]; [set_solver|constructor|]. split_and!; [done..|]. intros d. rewrite H. set_solver.
Qed.

(** ** Merging *)

Definition has {C} `{ElemOf string C} (m : gmap string C) (d c : string) : Prop := ∃ cats, m !! d = Some cats ∧ c ∈ cats.
Definition named (e : ThreatEntry) (d c : string) : Prop := Domain e = d ∧ Category e = c ∧ d ≠ "" ∧ c ≠ "".

Lemma add_entry_has m e d c : has (add_entry m e) d c ↔ has m d c ∨ named e d c.
Proof.
  unfold add_entry, has, named. destruct (bool_decide_reflect (Domain e = "")) as [E1|E1]; cbn; [naive_solver|].
  destruct (bool_decide_reflect (Category e = "")) as [E2|E2]; cbn; [naive_solver|].
  destruct (decide (Domain e = d)) as [<-|Hd].
  - rewrite lookup_insert_eq. split.
    + intros (cats & [= <-] & Hc). rewrite elem_of_union, elem_of_singleton in Hc. destruct Hc as [->|Hc]; [by right|].
      destruct (m !! Domain e) as [cats|]; [left; by exists cats|]. cbn in Hc. set_solver.
    + intros H. eexists. split; [done|]. rewrite elem_of_union, elem_of_singleton.
      destruct H as [(cats & -> & Hc)|(_ & -> & _)]; [by right|by left].
  - rewrite lookup_insert_ne by done. naive_solver.
Qed.

Lemma add_entries_has es m d c : has (foldl add_entry m es) d c ↔ has m d c ∨ ∃ e, e ∈ es ∧ named e d c.
Proof. revert m. induction es as [|e es IH]; intros m; cbn; [set_solver|]. rewrite IH, add_entry_has. set_solver. Qed.

Lemma receive_has rs acc d c : has (fst (foldl receive acc rs)) d c ↔ has (fst acc) d c ∨ ∃ r e, r ∈ rs ∧ e ∈ fst r ∧ named e d c.
Proof.
  revert acc. induction rs as [|r rs IH]; intros [m errs]; cbn; [set_solver|]. rewrite IH. cbn. rewrite add_entries_has. set_solver.
Qed.

Lemma receive_errs rs acc : length (snd (foldl receive acc rs)) = 0 ↔ length (snd acc) = 0 ∧ ∀ r, r ∈ rs → snd r = None.
Proof.
  revert acc. induction rs as [|r rs IH]; intros [m errs]; cbn; [set_solver|]. rewrite IH. cbn.
  destruct (snd r) as [e|] eqn:E; [rewrite length_app; cbn|]; split.
  - intros [? _]. lia.
  - intros [_ H]. specialize (H r). rewrite E in H. set_solver.
  - intros [? H]. split; [done|]. intros r' [->|?]%elem_of_cons; auto.
  - intros [? H]. set_solver.
Qed.

(** No set of categories is empty. *)
Definition inhabited (m : gmap string (gset string)) : Prop := map_Forall (λ _ cats, ∃ c : string, c ∈ cats) m.

Lemma add_entry_inhabited m e : inhabited m → inhabited (add_entry m e).
Proof.
  intros H. unfold add_entry. destruct (_ || _); [done|]. apply map_Forall_insert_2; [|done]. exists (Category e). set_solver.
Qed.

Lemma receive_inhabited rs acc : inhabited (fst acc) → inhabited (fst (foldl receive acc rs)).
Proof.
  revert acc. induction rs as [|[es err] rs IH]; intros [m errs] H; [done|]. cbn [foldl receive]. apply IH. cbn.
  revert m H. induction es as [|e es IHe]; intros m H; [done|]. by apply IHe, add_entry_inhabited.
Qed.

(** What the goroutines of a refresh report. *)
Definition reported (f : fetching) (ps : list Provider) (d c : string) : Prop :=
  ∃ r e, r ∈ results f ps ∧ e ∈ fst r ∧ named e d c.

Definition tidy (cats : list string) : Prop := cats ≠ [] ∧ NoDup cats ∧ StronglySorted str_le cats.

(** A refresh collects exactly what is reported, whatever the order of delivery: each domain with
    its categories, sorted and without repetition; and it has an error exactly when a provider
    has one. *)
Lemma collect_exact f ps ds err :
  Collect f ps = (ds, err) →
  (∀ d c, has ds d c ↔ reported f ps d c)
  ∧ map_Forall (λ _, tidy) ds
  ∧ (err = None ↔ ∀ r, r ∈ results f ps → snd r = None).
Proof.
  unfold Collect, reported. pose proof (receive_has (arrive f (results f ps)) (∅, [])) as H.
  pose proof (receive_errs (arrive f (results f ps)) (∅, [])) as He.
  pose proof (receive_inhabited (arrive f (results f ps)) (∅, [])) as Hi. destruct (foldl _ _ _) as [m errs]. cbn in *.
  intros [= <- <-]. split_and!.
  - intros d c. transitivity (has m d c).
    + unfold has. setoid_rewrite lookup_fmap_Some. split.
      * intros (cats & (s & <- & Hs) & Hc). exists s. split; [done|]. by rewrite sort_strings_perm, elem_of_elements in Hc.
      * intros (s & Hs & Hc). eexists. split; [by exists s|]. by rewrite sort_strings_perm, elem_of_elements.
    + rewrite H. setoid_rewrite (arrive_perm f). split; [|by right]. intros [(cats & Hl & _)|?]; [|done]. by rewrite lookup_empty in Hl.
  - intros d cats (s & <- & Hs)%lookup_fmap_Some. split_and!; [|rewrite sort_strings_perm; apply NoDup_elements|apply sort_strings_sorted].
    destruct (Hi ltac:(apply map_Forall_empty) d s Hs) as [c Hc]. intros E. apply elem_of_elements in Hc.
    rewrite <- sort_strings_perm, E in Hc. by apply elem_of_nil in Hc.
  - setoid_rewrite (arrive_perm f) in He. destruct (length errs =? 0) eqn:E.
    + apply Nat.eqb_eq in E. split; [|done]. intros _. by apply He.
    + apply Nat.eqb_neq in E. split; [done|]. intros Hr. exfalso. apply E, He. by split.
Qed.

(** Two maps with the same sorted categories are the same. *)
Lemma has_ext (m m' : gmap string (list string)) :
  map_Forall (λ _, tidy) m →
  map_Forall (λ _, tidy) m' →
  (∀ d c, has m d c ↔ has m' d c) → m = m'.
Proof.
  intros Hm Hm' H. assert (Hhalf : ∀ m m' : gmap string (list string),
    map_Forall (λ _, tidy) m →
    map_Forall (λ _, tidy) m' →
    (∀ d c, has m d c ↔ has m' d c) → ∀ d cats, m !! d = Some cats → m' !! d = Some cats); [|].
  - clear. intros m m' Hm Hm' H d cats Hd. destruct (Hm d cats Hd) as (Hne & Hnd & Hs). destruct cats as [|c cats]; [done|].
    assert (has m' d c) as (cats' & Hd' & Hc') by (apply H; exists (c :: cats); split; [done|left]).
    rewrite Hd'. f_equal. destruct (Hm' d cats' Hd') as (_ & Hnd' & Hs'). apply (StronglySorted_unique str_le); [done..|].
    apply NoDup_Permutation; [done..|]. intros x. split; intros Hx.
    + assert (has m d x) as (k & Hk & ?) by (apply H; by exists cats'). congruence.
    + assert (has m' d x) as (k & Hk & ?) by (apply H; by exists (c :: cats)). congruence.
  - apply map_eq. intros d. destruct (m !! d) as [cats|] eqn:E; [symmetry; by apply (Hhalf m m')|].
    destruct (m' !! d) as [cats|] eqn:E'; [|done]. rewrite <- E. symmetry. rewrite E. rewrite (Hhalf m' m Hm' Hm ltac:(by intros; rewrite H) d cats E') in E. done.
Qed.

(** The order in which the goroutines deliver does not matter. *)
Lemma collect_unordered f f' ps :
  (∀ i, answers f i = answers f' i) → fst (Collect f ps) = fst (Collect f' ps).
Proof.
  intros H. destruct (Collect f ps) as [m e] eqn:E, (Collect f' ps) as [m' e'] eqn:E'.
  destruct (collect_exact _ _ _ _ E) as (H1 & H2 & _), (collect_exact _ _ _ _ E') as (H1' & H2' & _).
  apply has_ext; [done..|]. intros d c. rewrite H1, H1'. unfold reported, results.
  assert (imap (λ i p, Fetch p (answers f i)) ps = imap (λ i p, Fetch p (answers f' i)) ps) as -> by (apply imap_ext; intros; by rewrite H). done.
Qed.

(** ** Snapshots *)

(** A list that can be read to its end: none of its lines has 8 MiB. *)
Definition readable (body : string) : Prop := Forall (λ line, (Z.of_nat (String.length line) < 8388608)%Z) (lines body).
(** The feed [i] of the category answers with a list one line of which lists the domain. *)
Definition listed (f : fetching) (feeds : list DomainListProvider) (d c : string) : Prop :=
  ∃ i p body line, feeds !! i = Some p ∧ Cat p = c ∧ answers f i (URL p) = Response 200 body None
    ∧ readable body ∧ line ∈ lines body ∧ lists line d ∧ c ≠ "".
(** Every feed answers with a list that can be read to its end. *)
Definition all_answer (f : fetching) (feeds : list DomainListProvider) : Prop :=
  ∀ i p, feeds !! i = Some p → ∃ body, answers f i (URL p) = Response 200 body None ∧ readable body.

Lemma readable_fits body : readable body ↔ forallb fits (lines body) = true.
Proof.
  unfold readable. rewrite forallb_forall, Forall_forall. setoid_rewrite list_elem_of_In. unfold fits. setoid_rewrite Z.ltb_lt. done.
Qed.

Lemma list_Fetch_exact p w :
  (∀ d c, (∃ e, e ∈ fst (list_Fetch p w) ∧ named e d c) ↔
     Cat p = c ∧ c ≠ "" ∧ ∃ body line, w (URL p) = Response 200 body None ∧ readable body ∧ line ∈ lines body ∧ lists line d)
  ∧ (snd (list_Fetch p w) = None ↔ ∃ body, w (URL p) = Response 200 body None ∧ readable body).
Proof.
  setoid_rewrite readable_fits. setoid_rewrite lists_iff. unfold list_Fetch. destruct (w (URL p)) as [| |status body broken] eqn:E; [set_solver..|].
  destruct (status =? 200)%Z eqn:Es; cbn; [|apply Z.eqb_neq in Es; set_solver]. apply Z.eqb_eq in Es as ->.
  destruct (parseDomainList body broken) as [ds|err] eqn:Ep.
  - apply parse_exact in Ep as (-> & Hf & _ & Hd). cbn. split; [|naive_solver]. intros d c. split.
    + intros (e & (d' & -> & (_ & line & Hl & Hx)%Hd)%list_elem_of_fmap & (<- & <- & Hn1 & Hn2)). split_and!; try done. by exists body, line.
    + intros (Hc & Hn2 & body' & line & [= <-] & _ & Hl & Hx & Hn1). exists (mkEntry d (Cat p) (ProviderName p)).
      split; [|by rewrite <- Hc in *]. apply list_elem_of_fmap. exists d. split; [done|]. apply Hd. split; [done|]. by exists line.
  - assert (Hno : ∀ b, Response 200 body broken = Response 200 b None → forallb fits (lines b) = true → False).
    { intros b [= <- ->] Hf. unfold parseDomainList in Ep. by rewrite Hf in Ep. }
    cbn. split; [|naive_solver]. intros d c. split; [set_solver|]. intros (_ & _ & b & l & Hb & Hf & _). by destruct (Hno b).
Qed.

Lemma results_lookup f (feeds : list DomainListProvider) r :
  r ∈ results f (list_provider <$> feeds) ↔ ∃ i p, feeds !! i = Some p ∧ r = list_Fetch p (answers f i).
Proof.
  unfold results. rewrite list_elem_of_lookup. split.
  - intros (i & Hi). rewrite list_lookup_imap, list_lookup_fmap in Hi. destruct (feeds !! i) as [p|] eqn:E; [|done].
    cbn in Hi. simplify_eq. by exists i, p.
  - intros (i & p & Hp & ->). exists i. by rewrite list_lookup_imap, list_lookup_fmap, Hp.
Qed.

Lemma reported_listed f feeds d c : reported f (list_provider <$> feeds) d c ↔ listed f feeds d c.
Proof.
  unfold reported, listed. split.
  - intros (r & e & (i & p & Hp & ->)%results_lookup & He & Hn).
    destruct (proj1 (proj1 (list_Fetch_exact p (answers f i)) d c) (ex_intro _ e (conj He Hn))) as (Hc & Hc0 & body & line & Ha & Hf & Hl & Hx).
    by exists i, p, body, line.
  - intros (i & p & body & line & Hp & Hc & Ha & Hf & Hl & Hx & Hc0).
    destruct (proj2 (proj1 (list_Fetch_exact p (answers f i)) d c)) as (e & He & Hn); [split_and!; try done; by exists body, line|].
    exists (list_Fetch p (answers f i)), e. split_and!; [|done..]. apply results_lookup. by exists i, p.
Qed.

Lemma answered_all f feeds : (∀ r, r ∈ results f (list_provider <$> feeds) → snd r = None) ↔ all_answer f feeds.
Proof.
  unfold all_answer. split.
  - intros H i p Hp. apply (list_Fetch_exact p (answers f i)), H, results_lookup. by exists i, p.
  - intros H r (i & p & Hp & ->)%results_lookup. by apply (list_Fetch_exact p (answers f i)), H.
Qed.

(** A refresh in which no answer lists a domain and not every feed answers with a readable list:
    the feeds that answer, if any, answer with lists of nothing. *)
Definition outage (f : fetching) (feeds : list DomainListProvider) : Prop :=
  ¬ all_answer f feeds ∧ ∀ d c, ¬ listed f feeds d c.

Definition exact (feeds : list DomainListProvider) (f : fetching) (s : Store) : Prop :=
  (∀ d c, has (domains s) d c ↔ listed f feeds d c) ∧ map_Forall (λ _, tidy) (domains s) ∧ revision s = computeRevision (domains s).

Lemma size_zero_has f feeds ds : (∀ d c, has ds d c ↔ listed f feeds d c) → map_Forall (λ _, tidy) ds → size ds = 0 ↔ ∀ d c, ¬ listed f feeds d c.
Proof.
  intros H Ht. rewrite map_size_empty_iff. split.
  - intros -> d c (cats & Hl & _)%H. by rewrite lookup_empty in Hl.
  - intros Hn. apply map_eq. intros d. rewrite lookup_empty. destruct (ds !! d) as [cats|] eqn:E; [|done].
    destruct (Ht d cats E) as (Hne & _). destruct cats as [|c cats]; [done|]. destruct (Hn d c). apply H. exists (c :: cats). split; [done|left].
Qed.

Lemma refresh_exact f feeds s :
  agg s = list_provider <$> feeds →
  agg (fst (Refresh f s)) = agg s ∧ (snd (Refresh f s) = None ↔ all_answer f feeds)
  ∧ (outage f feeds ∧ fst (Refresh f s) = s ∨ ¬ outage f feeds ∧ exact feeds f (fst (Refresh f s))).
Proof.
  intros Ha. unfold Refresh. rewrite Ha. destruct (Collect f _) as [ds err] eqn:E.
  apply collect_exact in E as (Hh & Ht & He). setoid_rewrite reported_listed in Hh. rewrite answered_all in He.
  pose proof (size_zero_has f feeds ds Hh Ht) as Hz. unfold outage, exact.
  destruct (size ds =? 0) eqn:Es; [apply Nat.eqb_eq in Es|apply Nat.eqb_neq in Es]; cbn.
  - destruct err as [e|]; cbn.
    + split_and!; [done..|]. left. split; [|done]. split; [|by apply Hz]. intros H. by apply He in H.
    + split_and!; [done..|]. right. split; [|done]. intros [H _]. apply H. by apply He.
  - split_and!; [done..|]. right. split; [|done]. intros [_ H]. by apply Es, Hz.
Qed.

(** All that is answered is ASCII: the white space and the case that count are those of ASCII. *)
Definition ascii_text (s : string) : Prop := Forall (λ c, nat_of_ascii c < 128) (chars s).
#[export] Instance ascii_text_dec s : Decision (ascii_text s).
Proof. unfold ascii_text. apply _. Defined.
Definition answers_ascii (f : fetching) : Prop :=
  ∀ i url status body broken, answers f i url = Response status body broken → ascii_text body.

(** C39: The snapshot of the feeds.  After the first refresh and any number of ticks, whatever ASCII
    the feeds answer and in whatever order: the snapshot is that of the last refresh that was not an
    outage, with exactly the domains and categories the feeds listed in it and the revision of that
    content (before such a refresh it is empty); every domain is a lower-case name with a dot, no
    white space and no address, and its categories are sorted without repetition.  A domain is
    listed by a line whose only word, or second word after an address, is its name before a comment,
    possibly written as a rule, in capitals, with a dot at its end or a wildcard before it.  An outage is a
    refresh in which no domain is listed and some feed does not answer with a readable list: it
    keeps the snapshot, also if other feeds answered with empty lists, while a refresh in which all
    feeds answer, or one domain is listed, replaces it. *)
Theorem feed_snapshot_exact spec first ticks :
  Forall answers_ascii (first :: ticks) →
  let feeds := dnsFeedProviders spec in
  let s := Run first ticks (NewStore (list_provider <$> feeds)) in
  ((∀ f, f ∈ first :: ticks → outage f feeds) ∧ Snapshot s = (∅, "")
   ∨ ∃ before f after, first :: ticks = before ++ f :: after ∧ ¬ outage f feeds ∧ (∀ f', f' ∈ after → outage f' feeds) ∧ exact feeds f s)
  ∧ map_Forall (λ d _, clean d) (domains s).
Proof.
  intros _ feeds s. assert (H : agg s = list_provider <$> feeds ∧
    ((∀ f, f ∈ first :: ticks → outage f feeds) ∧ Snapshot s = (∅, "") ∨
     ∃ before f after, first :: ticks = before ++ f :: after ∧ ¬ outage f feeds ∧ (∀ f', f' ∈ after → outage f' feeds) ∧ exact feeds f s)).
  { unfold s, Run. induction (first :: ticks) as [|f fs IH] using rev_ind; [cbn; split; [done|]; left; set_solver|].
    rewrite foldl_app. cbn [foldl]. set (s1 := foldl _ _ fs) in *. destruct IH as [Ha IH].
    destruct (refresh_exact f feeds s1 Ha) as (Ha' & _ & Hr). split; [by rewrite Ha'|]. destruct Hr as [[Ho ->]|[Ho Hx]].
    - destruct IH as [[Hall Hs]|(b & g & a & -> & Hg & Hlater & Hx)].
      + left. split; [set_solver|done].
      + right. exists b, g, (a ++ [f]). split_and!; [by rewrite <- app_assoc|done|set_solver|done].
    - right. exists fs, f, []. split_and!; [done..|set_solver|done]. }
  destruct H as [_ H]. split; [done|]. destruct H as [[_ Hs]|(_ & f & _ & _ & _ & _ & Hh & Ht & _)].
  - unfold Snapshot in Hs. assert (domains s = ∅) as -> by congruence. apply map_Forall_empty.
  - intros d cats Hd. destruct (Ht d cats Hd) as (Hne & _). destruct cats as [|c cats]; [done|].
    assert (has (domains s) d c) as (i & p & body & line & _ & _ & _ & _ & _ & [<- Hn]%lists_iff & _)%Hh by (exists (c :: cats); split; [done|left]).
    by apply extract_clean.
Qed.

(** ** Revisions *)

Definition free_of (c : ascii) (s : string) : Prop := c ∉ chars s.
(** Contents the text of the revision separates: no zero byte in a name, no empty category and
    none that begins with a newline. *)
Definition plain_category (c : string) : Prop := free_of zero c ∧ c ≠ "" ∧ head (chars c) ≠ Some newline.
Definition plain (r : string * list string) : Prop := free_of zero (fst r) ∧ Forall plain_category (snd r).
Definition separable (m : gmap string (list string)) : Prop :=
  map_Forall (λ d cats, plain (d, cats)) m.

#[export] Instance separable_dec m : Decision (separable m).
Proof. unfold separable, plain, plain_category, free_of. apply _. Defined.

Lemma plain_head c : plain_category c → ∃ x c', c = String x c' ∧ x ≠ newline.
Proof. intros (_ & Hn & Hh). destruct c as [|x c']; [done|]. exists x, c'. split; [done|]. intros ->. by apply Hh. Qed.

Lemma cut_at (c : ascii) a b x y : c ∉ a → c ∉ b → a ++ c :: x = b ++ c :: y → a = b ∧ x = y.
Proof.
  revert b. induction a as [|k a IH]; intros [|k' b] Ha Hb; cbn; intros H; simplify_eq; try set_solver.
  destruct (IH b) as [-> ->]; [set_solver..|done|done].
Qed.

Definition cats_chars (cats : list string) : list ascii := cats ≫= λ c, chars c ++ [zero].
Definition record_chars (r : string * list string) : list ascii := chars (fst r) ++ zero :: cats_chars (snd r) ++ [newline].

Lemma chars_concat l : chars (Join l "") = l ≫= chars.
Proof.
  induction l as [|x l IH]; [done|]. destruct l as [|y l]; [cbn; by rewrite app_nil_r|].
  rewrite Join_cons by done. rewrite !chars_append, IH. done.
Qed.

Lemma cats_inj cs cs' x y :
  Forall plain_category cs →
  Forall plain_category cs' →
  cats_chars cs ++ newline :: x = cats_chars cs' ++ newline :: y → cs = cs' ∧ x = y.
Proof.
  intros H. revert cs'. induction H as [|c cs Hc _ IH]; intros cs' H'.
  { destruct H' as [|c' cs' (k & c0 & -> & Hk)%plain_head _]; cbn; intros E; by simplify_eq. }
  destruct (plain_head c Hc) as (k & c0 & -> & Hk).
  destruct H' as [|c' cs' Hc' H']; [cbn; intros E; by simplify_eq|]. destruct (plain_head c' Hc') as (k' & c0' & -> & Hk').
  unfold cats_chars. cbn [mbind list_bind]. rewrite <- !app_assoc. intros [E1%chars_inj E2]%cut_at; [|apply Hc|apply Hc'].
  destruct (IH cs' H' E2) as [-> ->]. by rewrite E1.
Qed.

Lemma record_nonempty r : record_chars r ≠ [].
Proof. unfold record_chars. by destruct (chars (fst r)). Qed.

Lemma records_inj l l' :
  Forall plain l →
  Forall plain l' →
  l ≫= record_chars = l' ≫= record_chars → l = l'.
Proof.
  intros H. revert l'. induction H as [|[d cs] l [Hd Hc] _ IH]; intros l' H'.
  { destruct H' as [|r l' _ _]; [done|]. intros E. symmetry in E. by apply app_nil in E as [?%record_nonempty _]. }
  destruct H' as [|[d' cs'] l' [Hd' Hc'] H']; [by intros [?%record_nonempty _]%app_nil|].
  cbn [mbind list_bind]. unfold record_chars at 1 3. cbn [fst snd]. rewrite <- !app_assoc. cbn [app].
  intros [E1%chars_inj E2]%cut_at; [|done..]. rewrite <- !app_assoc in E2. cbn [app] in E2.
  apply cats_inj in E2 as [-> E3]; [|done..]. by rewrite E1, (IH l' H' E3).
Qed.

Definition records (m : gmap string (list string)) : list (string * list string) :=
  (λ d, (d, default [] (m !! d))) <$> sort_strings (elements (dom m)).

Lemma text_chars m : chars (revision_text m) = records m ≫= record_chars.
Proof.
  unfold revision_text, records. rewrite chars_concat. generalize (sort_strings (elements (dom m))) as l.
  induction l as [|d l IH]; [done|]. cbn [fmap list_fmap mbind list_bind]. f_equal; [|exact IH].
  unfold record_text, record_chars. cbn [fst snd]. rewrite !chars_append, chars_concat. f_equal. cbn [chars nul String.list_ascii_of_string app]. f_equal. f_equal.
  unfold cats_chars. generalize (default [] (m !! d)) as cs. induction cs as [|c cs IHc]; [done|].
  cbn [fmap list_fmap mbind list_bind]. rewrite chars_append. f_equal. exact IHc.
Qed.

Lemma records_lookup m d cats : (d, cats) ∈ records m ↔ m !! d = Some cats.
Proof.
  unfold records. rewrite list_elem_of_fmap. setoid_rewrite sort_strings_perm. setoid_rewrite elem_of_elements. setoid_rewrite elem_of_dom. split.
  - intros (d' & [= -> ->] & [cats' E]). by rewrite E.
  - intros E. exists d. by rewrite E.
Qed.

Lemma separable_records m : separable m →
  Forall plain (records m).
Proof. intros H. apply Forall_forall. intros [d cats] Hr%records_lookup. exact (H d cats Hr). Qed.

(** The text that is hashed determines the content. *)
Lemma revision_text_inj m m' : separable m → separable m' → revision_text m = revision_text m' → m = m'.
Proof.
  intros H H' E. assert (Er : records m = records m').
  { apply records_inj; [by apply separable_records..|]. by rewrite <- !text_chars, E. }
  apply map_eq. intros d. apply option_eq. intros cats. by rewrite <- !records_lookup, Er.
Qed.

(** A zero byte in a domain makes two contents have one revision. *)
Lemma revision_ambiguous :
  computeRevision {[ "a.b" := ["x"; "y"] ]} = computeRevision {[ "a.b" +:+ nul +:+ "x" := ["y"] ]}.
Proof. by vm_compute. Qed.

(** ** Lines *)

(** The formats the parser knows. *)
Lemma line_formats :
  (line_domain "example.com", line_domain "0.0.0.0 Example.COM. # ad", line_domain "||ads.example.com^", line_domain "*.example.com",
   line_domain "! title", line_domain "127.0.0.1", line_domain "http://x.y/z", line_domain "localhost")
  = ("example.com", "example.com", "ads.example.com", "example.com", "", "", "", "").
Proof. by vm_compute. Qed.

(** Two feeds: the second fails, the first lists a domain at the first refresh and nothing later. *)
Definition demo_body : string := "# hosts" +:+ lf +:+ "0.0.0.0 Ads.Example.COM. # ad" +:+ lf +:+ "||bad.test^" +:+ lf.
Definition demo_web (body : string) (i : nat) : web := λ _, if i =? 0 then Response 200 body None else Unreachable "timeout".
Definition demo_feeds : string := "malicious=https://a, phishing=https://b".
Lemma demo_web_ascii body : ascii_text body → answers_ascii (in_order (demo_web body)).
Proof. intros Hb i url status b broken. cbn. unfold demo_web. destruct (i =? 0); [|done]. by intros [= _ <- _]. Qed.
Lemma feed_snapshot_exact_witness :
  let s := Run (in_order (demo_web demo_body)) [in_order (demo_web "")] (NewStore (list_provider <$> dnsFeedProviders demo_feeds)) in
  domains s = {[ "ads.example.com" := ["malicious"]; "bad.test" := ["malicious"] ]} ∧ map_Forall (λ d _, clean d) (domains s).
Proof.
  cbv zeta. split; [vm_compute; reflexivity|].
  apply (feed_snapshot_exact demo_feeds (in_order (demo_web demo_body)) [in_order (demo_web "")]).
  constructor; [|constructor; [|constructor]]; apply demo_web_ascii; apply (bool_decide_unpack _); vm_compute; exact I.
Defined.

(** A rule with options, and an exception, give names that no query has. *)
Lemma rule_misread :
  (line_domain "||ads.example.com^$third-party", line_domain "@@||good.example.com^") = ("ads.example.com^$third-party", "@@||good.example.com^").
Proof. by vm_compute. Qed.

End ThreatFeed.
