(* ===== verification/DnsSync.v ===== *)
(** * DNS security for the gateways

    [src/internal/grpc/dnssec/server.go] and [policy_source.go]: what a gateway gets when it asks for
    the policies of the groups and the categorized domains, and how it is told that what it has is
    current.

    The server asks its sources through interfaces ([PolicySource], [FeedSource],
    [DeviceGroupSource]); the ones main installs are the client configurations ([ClientConfig]), the
    store of [ThreatFeed] and the devices ([Devices]).  [sort.Slice] does not keep the order of groups
    of the same name: it is an argument with what it promises ([slice_sort]). *)

From S2P Require Import Prelude GoStrings GoText JsonValue Sha256 Dns Devices ClientConfig ThreatFeed.
From stdpp Require Import finite.
From Stdlib Require Import Ascii.
#[local] Open Scope string_scope.
#[local] Open Scope nat_scope.
#[local] Open Scope list_scope.

Module DnsSync.
Import GoStrings GoText Dns.DnsSecurity JsonValue.JsonValue ThreatFeed.ThreatFeed.

Record GroupPolicy := mkGroup { GroupID : string; Policy_ : Policy }.

(** ** Sources *)

(** The errors of the sources are passed on. *)
Inductive source_error := ListFailed | FeedFailed | GroupsFailed.
Class PolicySource (W : Type) := Policies : W → result source_error (list GroupPolicy).
Class FeedSource (W : Type) := FeedSnapshot : W → result source_error (gmap string (list string) * string).
Class DeviceGroupSource (W : Type) := GroupNames : W → string → result source_error (list string).

(** The two fields the policy source decodes.  The error of the decoder is dropped, so a value of a
    wrong kind leaves its field as it is, and within the map an empty text. *)
Record features := mkFeatures { DNSSecurity : bool; DNSSecurityCategories : gmap string string }.
Definition set_category (m : gmap string string) (kv : string * json) : gmap string string :=
  <[fst kv := match snd kv with JString s => s | _ => "" end]> m.
Definition set_feature (f : features) (kv : string * json) : features :=
  let name := ToLower (fst kv) in
  if bool_decide (name = "dns_security") then
    match snd kv with JBool b => mkFeatures b (DNSSecurityCategories f) | _ => f end
  else if bool_decide (name = "dns_security_categories") then
    match snd kv with
    | JObject l => mkFeatures (DNSSecurity f) (foldl set_category (DNSSecurityCategories f) l)
    | JNull => mkFeatures (DNSSecurity f) ∅
    | _ => f
    end
  else f.
Definition decode_features (raw : option json) : features :=
  match raw with Some (JObject l) => foldl set_feature (mkFeatures false ∅) l | _ => mkFeatures false ∅ end.

Definition policy_of (r : ClientConfig.ClientConfigRecord) : Policy :=
  let f := decode_features (ClientConfig.FeaturesSettings r) in FromFlags (DNSSecurity f) (DNSSecurityCategories f).
Definition emit_key (p : Policy) (acc : gset string * list GroupPolicy) (key : string) : gset string * list GroupPolicy :=
  let '(seen, out) := acc in
  if bool_decide (key = "") || bool_decide (key ∈ seen) then acc else ({[key]} ∪ seen, out ++ [mkGroup key p]).
Definition emit_record (out : list GroupPolicy) (r : ClientConfig.ClientConfigRecord) : list GroupPolicy :=
  snd (foldl (emit_key (policy_of r)) (∅, out) [ClientConfig.GroupID r; ClientConfig.GroupName r]).
Definition store_Policies (json_strings : string → option (list string)) (array_text : list string → string) (e : ClientConfig.env) (db : ClientConfig.DB)
  : result source_error (list GroupPolicy) :=
  match ClientConfig.ListAll json_strings array_text e db with
  | Err _ => Err ListFailed
  | Ok records => Ok (foldl emit_record [] records)
  end.

(** ** The revision *)

(** [sort.Slice] by [GroupID] *)
Definition group_le (a b : GroupPolicy) : Prop := str_le (GroupID a) (GroupID b).
Record slice_sort := mkSort {
  sorted : list GroupPolicy → list GroupPolicy;
  sorted_perm : ∀ l, sorted l ≡ₚ l;
  sorted_le : ∀ l, StronglySorted group_le (sorted l);
}.

Definition category_text (m : gmap string string) (c : string) : string := c +:+ ":" +:+ default "" (m !! c) +:+ ",".
Definition policy_text (p : GroupPolicy) : string :=
  GroupID p +:+ (if Enabled (Policy_ p) then "=1" else "=0")
  +:+ Join (category_text (PCategories (Policy_ p)) <$> sort_strings (elements (dom (PCategories (Policy_ p))))) "" +:+ lf.
Definition combined_text (srt : slice_sort) (feedRevision : string) (policies : list GroupPolicy) : string :=
  feedRevision +:+ nul +:+ Join (policy_text <$> sorted srt policies) "".
Definition combinedRevision (srt : slice_sort) (feedRevision : string) (policies : list GroupPolicy) : string :=
  digest (combined_text srt feedRevision policies).

(** ** The service *)

Record ThreatDomain := mkDomain { Domain_ : string; Categories_ : list string }.
Record DNSSecuritySync := mkSync { Revision : string; SPolicies : list GroupPolicy; SDomains : list ThreatDomain }.

Definition BuildSync (policies : list GroupPolicy) (ds : gmap string (list string)) (revision : string) : DNSSecuritySync :=
  mkSync revision policies ((λ d, mkDomain d (default [] (ds !! d))) <$> sort_strings (elements (dom ds))).

Definition GetDNSSecurity {W} `{FeedSource W, PolicySource W} (srt : slice_sort) (w : W) (since : string)
  : result source_error DNSSecuritySync :=
  match FeedSnapshot w with
  | Err e => Err e
  | Ok (ds, feedRevision) =>
      match Policies w with
      | Err e => Err e
      | Ok policies =>
          let revision := combinedRevision srt feedRevision policies in
          if negb (bool_decide (since = "")) && bool_decide (since = revision) then Ok (mkSync revision [] [])
          else Ok (BuildSync policies ds revision)
      end
  end.

Definition ResolveDeviceGroups {W} (source : option (DeviceGroupSource W)) (w : W) (device : string) : result source_error (list string) :=
  match source with
  | None => Ok []
  | Some src => if bool_decide (device = "") then Ok [] else GroupNames w device
  end.

(** ** The sources of the server *)

Record world := mkWorld { at_ : ClientConfig.env; configs : ClientConfig.DB; feed : Store }.

#[export] Instance store_feed : FeedSource world := λ w, Ok (Snapshot (feed w)).
#[export] Instance config_policies (json_strings : string → option (list string)) (array_text : list string → string) : PolicySource world :=
  λ w, store_Policies json_strings array_text (at_ w) (configs w).
#[export] Instance device_groups : DeviceGroupSource world := λ w device,
  match Devices.GroupNamesForDevice (at_ w) 0 (ClientConfig.dev (configs w)) device with
  | Ok l => Ok l
  | Err _ => Err GroupsFailed
  end.

(** ** The policies *)

Lemma emit_keys p ks seen out g :
  g ∈ snd (foldl (emit_key p) (seen, out) ks) ↔ g ∈ out ∨ Policy_ g = p ∧ GroupID g ≠ "" ∧ GroupID g ∈ ks ∧ GroupID g ∉ seen.
Proof.
  revert seen out. induction ks as [|k ks IH]; intros seen out; [cbn; set_solver|]. cbn [foldl]. unfold emit_key at 2.
  destruct (bool_decide_reflect (k = "")) as [->|Hk]; cbn; [rewrite IH; set_solver|].
  destruct (bool_decide_reflect (k ∈ seen)) as [Hs|Hs]; cbn; rewrite IH; [set_solver|].
  rewrite elem_of_app, list_elem_of_singleton. destruct g as [k' p']. cbn. split.
  - intros [[?|[= -> ->]]|?]; set_solver.
  - intros [?|(-> & Hn & Hin & Hns)]; [by left; left|]. destruct (decide (k' = k)) as [->|Hd]; [by left; right|right; set_solver].
Qed.

(** What the gateways get is, for each readable configuration, its policy under the identifier and
    under the name of its group. *)
Lemma policies_exact rs g :
  g ∈ foldl emit_record [] rs ↔
  ∃ r, r ∈ rs ∧ Policy_ g = policy_of r ∧ GroupID g ≠ "" ∧ (GroupID g = ClientConfig.GroupID r ∨ GroupID g = ClientConfig.GroupName r).
Proof.
  induction rs as [|r rs IH] using rev_ind; [cbn; set_solver|]. rewrite foldl_app. cbn [foldl]. unfold emit_record at 1.
  rewrite emit_keys, IH. setoid_rewrite elem_of_app. setoid_rewrite list_elem_of_singleton.
  rewrite !elem_of_cons. split.
  - intros [(r' & ? & ?)|(? & ? & [?|[?|?%elem_of_nil]] & _)]; [exists r'; auto|exists r; auto..|done].
  - intros (r' & [?| ->] & ? & ? & [?|?]); [left; exists r'; auto..|right|right]; (split_and!; [done..| |apply not_elem_of_empty]); auto.
Qed.

(** ** Texts of policies *)

(** The policies the configurations give rise to: disabled, or an action for each category. *)
Definition shape := option (bool * bool * bool * bool * bool).
Definition action (b : bool) : string := if b then ActionAllow else ActionDeny.
Definition of_shape (s : shape) : Policy :=
  match s with
  | None => disabled
  | Some (a, b, c, d, e) =>
      mkPolicy true (<["spyware" := action e]> (<["malicious" := action d]> (<["dga" := action c]>
        (<["nod" := action b]> (<["nrd" := action a]> ∅)))))
  end.
Definition body_chars (p : Policy) : list ascii := chars (policy_text (mkGroup "" p)).

Lemma FromFlags_shape flag m : ∃ s, FromFlags flag m = of_shape s.
Proof.
  assert (H : ∀ c, ∃ b, category_action m c = action b).
  { intros c. unfold category_action. destruct (m !! c) as [v|]; [|by exists false].
    destruct (bool_decide_reflect (v = ActionAllow)) as [->|]; [by exists true|].
    destruct (bool_decide_reflect (v = ActionDeny)) as [->|]; by exists false. }
  destruct flag; [|by exists None]. destruct (H "nrd") as [a Ha], (H "nod") as [b Hb], (H "dga") as [c Hc], (H "malicious") as [d Hd], (H "spyware") as [e He].
  exists (Some (a, b, c, d, e)). unfold FromFlags. cbn. by rewrite Ha, Hb, Hc, Hd, He.
Qed.

Lemma body_inj : ∀ s s' : shape, body_chars (of_shape s) = body_chars (of_shape s') → s = s'.
Proof. refine (bool_decide_unpack _ _). by vm_compute. Qed.

Definition middle (s : shape) : list ascii := removelast (tail (body_chars (of_shape s))).
(** It begins with the only equality sign and ends with the only newline. *)
Lemma body_form : ∀ s : shape, ∃ x, body_chars (of_shape s) = "="%char :: x ++ [newline] ∧ "="%char ∉ x ∧ newline ∉ x.
Proof.
  assert (H : ∀ s : shape, body_chars (of_shape s) = "="%char :: middle s ++ [newline] ∧ "="%char ∉ middle s ∧ newline ∉ middle s) by (refine (bool_decide_unpack _ _); by vm_compute).
  intros s. eexists. apply H.
Qed.

Lemma policy_chars p : chars (policy_text p) = chars (GroupID p) ++ body_chars (Policy_ p).
Proof. destruct p as [g p]. unfold body_chars, policy_text. cbn [GroupID Policy_]. by rewrite !chars_append. Qed.

Lemma cut_last (c : ascii) a b x y : c ∉ x → c ∉ y → a ++ c :: x = b ++ c :: y → a = b ∧ x = y.
Proof.
  intros Hx Hy E%(f_equal reverse). rewrite !reverse_app, !reverse_cons, <- !app_assoc in E. cbn [app] in E.
  apply cut_at in E as [E1%(f_equal reverse) E2%(f_equal reverse)]; [|by rewrite elem_of_reverse..]. by rewrite !reverse_involutive in E1, E2.
Qed.

#[export] Instance free_of_dec c s : Decision (free_of c s).
Proof. unfold free_of. apply _. Defined.

(** A policy of a group whose name has no newline in it. *)
Definition legible (p : GroupPolicy) : Prop := free_of newline (GroupID p) ∧ ∃ s, Policy_ p = of_shape s.

Lemma policy_text_cut p q x y : legible p → legible q →
  chars (policy_text p) ++ x = chars (policy_text q) ++ y → p = q ∧ x = y.
Proof.
  destruct p as [g1 p], q as [g2 q]. intros [Hp [s Hs]] [Hq [s' Hs']]. cbn in *. subst p q. rewrite !policy_chars. cbn [GroupID Policy_].
  destruct (body_form s) as (b & Eb & He & Hn), (body_form s') as (b' & Eb' & He' & Hn'). rewrite Eb, Eb'.
  intros E. assert (E' : (chars g1 ++ "="%char :: b) ++ newline :: x = (chars g2 ++ "="%char :: b') ++ newline :: y).
  { revert E. by rewrite <- !app_assoc; cbn [app]; rewrite <- !app_assoc; cbn [app]. }
  apply cut_at in E' as [E1 ->]; [|apply not_elem_of_app; split; [done|]; apply not_elem_of_cons; by split..].
  apply cut_last in E1 as [->%chars_inj ->]; [|done..]. split; [|done]. do 2 f_equal. apply body_inj. by rewrite Eb, Eb'.
Qed.

Lemma policy_texts_inj l l' : Forall legible l → Forall legible l' →
  chars (Join (policy_text <$> l) "") = chars (Join (policy_text <$> l') "") → l = l'.
Proof.
  rewrite !chars_concat. intros H. revert l'. induction H as [|p l Hp _ IH]; intros l' H'.
  - destruct H' as [|q l' [_ [s Hs]] _]; [done|]. cbn. rewrite policy_chars, Hs. destruct (body_form s) as (b & -> & _).
    intros E. symmetry in E. apply app_nil in E as [E _]. by apply app_nil in E as [_ E].
  - destruct H' as [|q l' Hq H'].
    + cbn. destruct Hp as [_ [s Hs]]. rewrite policy_chars, Hs. destruct (body_form s) as (b & -> & _).
      intros [E _]%app_nil. by apply app_nil in E as [_ E].
    + cbn. intros [-> E]%policy_text_cut; [|done..]. by rewrite (IH l' H' E).
Qed.

(** The text of the combined revision determines the revision of the feed and, up to their order,
    the policies. *)
Lemma combined_inj srt r r' ps ps' : free_of zero r → free_of zero r' → Forall legible ps → Forall legible ps' →
  combined_text srt r ps = combined_text srt r' ps' → r = r' ∧ ps ≡ₚ ps'.
Proof.
  intros Hr Hr' Hp Hp' E%(f_equal chars). unfold combined_text in E. rewrite !chars_append in E.
  apply cut_at in E as [->%chars_inj E]; [|done..]. split; [done|].
  apply policy_texts_inj in E; [|by rewrite sorted_perm..]. by rewrite <- (sorted_perm srt ps), E, sorted_perm.
Qed.

(** ** What a gateway is told *)

(** The revisions the store gives. *)
Definition feed_sound (s : Store) : Prop := domains s = ∅ ∧ revision s = "" ∨ revision s = computeRevision (domains s).

Lemma refresh_sound f s : feed_sound s → feed_sound (fst (Refresh f s)).
Proof. intros H. unfold Refresh. destruct (Collect f (agg s)) as [ds err]. destruct (_ && _); [done|]. by right. Qed.

Lemma run_sound first ticks ps : feed_sound (Run first ticks (NewStore ps)).
Proof.
  unfold Run. assert (H : feed_sound (NewStore ps)) by (by left). revert H. generalize (NewStore ps) as s.
  induction (first :: ticks) as [|f fs IH]; intros s H; [done|]. by apply IH, refresh_sound.
Qed.

Lemma hex_nonzero l : zero ∉ chars (Hex.encode l).
Proof.
  assert (Hd : ∀ n, (0 <= n < 16)%Z → zero ≠ Hex.digit n).
  { intros n Hn E. assert (Hv : Hex.value (Hex.digit n) = Some n) by by apply Hex.value_digit. rewrite <- E in Hv. done. }
  induction l as [|b l IH]; [apply not_elem_of_nil|]. destruct (Hex.nibbles b) as [H1 H2].
  cbn. apply not_elem_of_cons. split; [by apply Hd|]. apply not_elem_of_cons. split; [by apply Hd|exact IH].
Qed.

Lemma sound_nonzero s : feed_sound s → free_of zero (revision s).
Proof. intros [[_ ->]| ->]; [apply not_elem_of_nil|apply hex_nonzero]. Qed.

Lemma digest_nonempty t : digest t ≠ "".
Proof.
  intros E%(f_equal String.length). unfold digest in E. rewrite Hex.hex_encode_length, length_take in E.
  rewrite Sha256.sha256_length in E. done.
Qed.

(** The digests do not collide on the given texts. *)
Definition distinct_digests (texts : list string) : Prop := Forall (λ a, Forall (λ b, digest a = digest b → a = b) texts) texts.

Lemma distinct_digests_eq texts a b : distinct_digests texts → a ∈ texts → b ∈ texts → digest a = digest b → a = b.
Proof. intros H Ha Hb. eapply Forall_forall in H; [|exact Ha]. by eapply Forall_forall in H; [|exact Hb]. Qed.

Lemma same_revision s s' texts : feed_sound s → feed_sound s' → separable (domains s) → separable (domains s') →
  distinct_digests texts → revision_text (domains s) ∈ texts → revision_text (domains s') ∈ texts →
  revision s = revision s' → domains s = domains s'.
Proof.
  intros [[E1 E2]|E1] [[E1' E2']|E1'] Hs Hs' Hd Ht Ht' E; [congruence|..].
  - rewrite E2, E1' in E. by destruct (digest_nonempty (revision_text (domains s'))).
  - rewrite E1, E2' in E. by destruct (digest_nonempty (revision_text (domains s))).
  - apply revision_text_inj; [done..|]. eapply distinct_digests_eq; [done..|]. unfold computeRevision in *. congruence.
Qed.

Lemma store_legible json_strings array_text e db ps :
  store_Policies json_strings array_text e db = Ok ps → Forall (λ p, free_of newline (GroupID p)) ps → Forall legible ps.
Proof.
  unfold store_Policies. destruct (ClientConfig.ListAll _ _ _ _) as [rs|]; [|done]. intros [= <-] H. apply Forall_forall. intros p Hp.
  split; [by eapply Forall_forall in H|]. apply policies_exact in Hp as (r & _ & -> & _). apply FromFlags_shape.
Qed.

Section Service.
Context (json_strings : string → option (list string)) (array_text : list string → string) (srt : slice_sort).

Definition answer (w : world) (since : string) : result source_error DNSSecuritySync :=
  GetDNSSecurity (H0 := config_policies json_strings array_text) srt w since.
(** The texts whose digests a gateway's revision depends on. *)
Definition texts (w : world) (ps : list GroupPolicy) : list string :=
  [revision_text (domains (feed w)); combined_text srt (revision (feed w)) ps].
(** A server whose feeds were refreshed any number of times. *)
Definition served (w : world) : Prop := ∃ first ticks ps, feed w = Run first ticks (NewStore ps).

Lemma answer_cases w since p :
  answer w "" = Ok p →
  SDomains p = SDomains (BuildSync [] (domains (feed w)) "")
  ∧ store_Policies json_strings array_text (at_ w) (configs w) = Ok (SPolicies p) ∧ Revision p = combinedRevision srt (revision (feed w)) (SPolicies p)
  ∧ answer w since = Ok (if negb (bool_decide (since = "")) && bool_decide (since = Revision p) then mkSync (Revision p) [] [] else p).
Proof.
  unfold answer, GetDNSSecurity. cbn. unfold Policies, config_policies. destruct (store_Policies _ _ _ _) as [ps|]; [|done].
  intros [= <-]. cbn. split_and!; try done. by destruct (_ && _).
Qed.

(** C40: What a gateway has is current.  A gateway that got the full payload of a server at one time
    and asks with its revision at another, after whatever refreshes of the feeds and changes of the
    configurations: it either gets the full payload of that time, with another revision, or is told
    that its own is current, and then the domains with their categories are the same and the policies
    are the same up to their order; and it is told so when neither the snapshot nor the policies have
    changed.  This holds for names without the separating characters, as long as the digests of the
    texts involved do not collide. *)
Theorem sync_current w1 w2 p1 p2 :
  served w1 → served w2 → separable (domains (feed w1)) → separable (domains (feed w2)) →
  answer w1 "" = Ok p1 → answer w2 "" = Ok p2 →
  Forall (λ p, free_of newline (GroupID p)) (SPolicies p1) → Forall (λ p, free_of newline (GroupID p)) (SPolicies p2) →
  distinct_digests (texts w1 (SPolicies p1) ++ texts w2 (SPolicies p2)) →
  (answer w2 (Revision p1) = Ok p2 ∧ Revision p1 ≠ Revision p2
   ∨ answer w2 (Revision p1) = Ok (mkSync (Revision p1) [] []) ∧ SDomains p1 = SDomains p2 ∧ SPolicies p1 ≡ₚ SPolicies p2)
  ∧ (Snapshot (feed w1) = Snapshot (feed w2) → SPolicies p1 = SPolicies p2 → answer w2 (Revision p1) = Ok (mkSync (Revision p1) [] [])).
Proof.
  intros (f1 & t1 & q1 & Hf1) (f2 & t2 & q2 & Hf2) Hs1 Hs2 H1 H2 Hn1 Hn2 Hd.
  assert (feed_sound (feed w1) ∧ feed_sound (feed w2)) as [Hw1 Hw2] by (rewrite Hf1, Hf2; split; apply run_sound).
  destruct (answer_cases w1 "" p1 H1) as (Ed1 & Ep1 & Er1 & _), (answer_cases w2 (Revision p1) p2 H2) as (Ed2 & Ep2 & Er2 & Ha). rewrite Ha.
  assert (Hne : Revision p1 ≠ "") by (rewrite Er1; apply digest_nonempty). rewrite (bool_decide_false (Revision p1 = "")) by done. cbn [negb andb].
  apply store_legible in Ep1; [|done]. apply store_legible in Ep2; [|done].
  split.
  2: { intros E Ep. injection E as E1 E2. assert (Revision p1 = Revision p2) as Er by (rewrite Er1, Er2, E2, Ep; done).
       rewrite bool_decide_true by done. by rewrite Er. }
  destruct (bool_decide_reflect (Revision p1 = Revision p2)) as [E|E]; [right|left; by split]. split; [by rewrite E|].
  assert (combined_text srt (revision (feed w1)) (SPolicies p1) = combined_text srt (revision (feed w2)) (SPolicies p2)) as Et.
  { eapply distinct_digests_eq; [exact Hd|unfold texts; set_solver..|]. unfold combinedRevision in *. congruence. }
  apply combined_inj in Et as [Er Hp]; [|by apply sound_nonzero|by apply sound_nonzero|done|done]. split; [|done].
  rewrite Ed1, Ed2. assert (domains (feed w1) = domains (feed w2)) as ->; [|done].
  apply (same_revision _ _ _ Hw1 Hw2 Hs1 Hs2 Hd); [unfold texts; set_solver..|done].
Qed.

(** Two groups of one name, of whatever tenants, with different settings: the payload has two
    policies under this name. *)
Lemma names_shared w rs r r' p :
  ClientConfig.ListAll json_strings array_text (at_ w) (configs w) = Ok rs → r ∈ rs → r' ∈ rs →
  ClientConfig.GroupName r = ClientConfig.GroupName r' → ClientConfig.GroupName r ≠ "" → policy_of r ≠ policy_of r' →
  answer w "" = Ok p →
  ∃ g g', g ∈ SPolicies p ∧ g' ∈ SPolicies p ∧ GroupID g = GroupID g' ∧ Policy_ g ≠ Policy_ g'.
Proof.
  intros Hl Hr Hr' En Hn Hp (_ & Es & _)%(answer_cases w ""). unfold store_Policies in Es. rewrite Hl in Es. injection Es as <-.
  exists (mkGroup (ClientConfig.GroupName r) (policy_of r)), (mkGroup (ClientConfig.GroupName r') (policy_of r')).
  split_and!; [apply policies_exact; exists r|apply policies_exact; exists r'|done|done]; cbn; split_and!; auto; congruence.
Qed.
End Service.

(** ** Examples *)

#[export] Instance group_le_dec a b : Decision (group_le a b).
Proof. unfold group_le. apply _. Defined.
#[export] Instance group_le_trans : Transitive group_le.
Proof. intros a b c. apply str_le_trans. Qed.
#[export] Instance group_le_total : Total group_le.
Proof. intros a b. apply str_le_total. Qed.
Definition stable_sort : slice_sort :=
  mkSort (merge_sort group_le) (merge_sort_Permutation group_le) (StronglySorted_merge_sort group_le).

(** A newline in a name makes two sets of policies have one revision. *)
Lemma combined_ambiguous :
  combinedRevision stable_sort "" [mkGroup ("a=0" +:+ lf +:+ "b") disabled]
  = combinedRevision stable_sort "" [mkGroup "a" disabled; mkGroup "b" disabled].
Proof. by vm_compute. Qed.

Definition demo_config (id org group name : string) (categories : list (string * json)) : ClientConfig.ClientConfigRecord :=
  ClientConfig.mkConfig id org group name 1 None
    (Some (JObject [("dns_security", JBool true); ("dns_security_categories", JObject categories)]))
    None None None None 60 60 [] [] [] 1 0 0 "" "".
Definition demo_db : ClientConfig.DB :=
  ClientConfig.mkDB (ClientConfig.dev ClientConfig.demo_db)
    {[ "c1" := demo_config "c1" "acme" "g1" "Sales" [("malicious", JString "deny")];
       "c2" := demo_config "c2" "acme" "g2" "Lab" [("malicious", JString "allow")] ]} [].
Definition demo_web (body : string) : nat → web := λ _ _, Response 200 body None.
Definition demo_world (bodies : list string) : world :=
  mkWorld (ClientConfig.demo_env 1 "") demo_db
    (Run (in_order (demo_web "evil.example")) (in_order ∘ demo_web <$> bodies) (NewStore (list_provider <$> dnsFeedProviders "malicious=https://a"))).
Definition before : world := demo_world ["evil.example" +:+ lf +:+ "bad.example"].
Definition later : world := demo_world ["0.0.0.0 bad.example # 1" +:+ lf +:+ "||evil.example^" +:+ lf +:+ "bad.example."].
Definition demo_answer (w : world) (since : string) : option DNSSecuritySync :=
  match answer ClientConfig.demo_json ClientConfig.demo_array stable_sort w since with Ok p => Some p | Err _ => None end.
Definition demo_payload (w : world) : DNSSecuritySync := default (mkSync "" [] []) (demo_answer w "").

(** The same domains in another form: the gateway is told that it is current. *)
Lemma sync_current_witness :
  SDomains (demo_payload before) = [mkDomain "bad.example" ["malicious"]; mkDomain "evil.example" ["malicious"]]
  ∧ length (SPolicies (demo_payload before)) = 4
  ∧ answer ClientConfig.demo_json ClientConfig.demo_array stable_sort later (Revision (demo_payload before))
    = Ok (mkSync (Revision (demo_payload before)) [] [])
  ∧ SDomains (demo_payload before) = SDomains (demo_payload later).
Proof.
  split; [by vm_compute|]. split; [by vm_compute|].
  destruct (sync_current ClientConfig.demo_json ClientConfig.demo_array stable_sort before later (demo_payload before) (demo_payload later)) as [[[_ H]|(H1 & H2 & _)] _].
  - by eexists _, _, _.
  - by eexists _, _, _.
  - by_evaluation.
  - by_evaluation.
  - by vm_compute.
  - by vm_compute.
  - by_evaluation.
  - by_evaluation.
  - unfold distinct_digests. by_evaluation.
  - exfalso. apply H. by vm_compute.
  - by split.
Defined.

End DnsSync.
